(* ===== verification/_CoqProject ===== *)
-Q . S2P
Prelude.v
Json.v
Tables.v
Urls.v
Fnmatch.v
Identity.v
Policy.v
Resilience.v
Approvals.v
Invocation.v
Lifecycle.v
SideEffects.v
Tools.v
Session.v
Checkpoint.v
AgentLoop.v
Registry.v
Gateway.v
ConfigPlane.v
A2aStore.v
Memory.v
Contracts.v
Definitions.v
Health.v
HttpApi.v
Observability.v
AdkBridge.v
GoogleAdk.v
SessionStore.v
AdkSession.v
Knowledge.v
Discovery.v
Config.v
Credentials.v
Catalog.v
Authentication.v
Bootstrap.v
Redaction.v
Metrics.v
Telemetry.v
Providers.v
Anthropic.v
OpenAI.v
Mcp.v
McpSdk.v
Redis.v
RedisOps.v
RedisSession.v
RedisMemory.v
GatewayState.v
GatewayShared.v
EdgeAuth.v
RedisA2a.v
Postgres.v
PostgresPool.v
PostgresOps.v
PostgresSession.v
PostgresMemory.v
Startup.v
A2aServer.v
Streaming.v
HttpApp.v
Clients.v
Benchmarks.v
Release.v
Accounting.v
