(* ===== verification/Prelude.v ===== *)
(** * A verified model of the Micro-Agents runtime and control plane

    The repository is a Python framework for small agents: a runtime that
    alternates model calls with tool calls under a deterministic policy
    ([micro_agent/], [runtimes/]), and a control plane that registers agents,
    serves their configuration and forwards calls to them ([cloud/]).  This
    library translates the parts that decide something into executable
    definitions and proves what those parts promise.

    ** How the parts interact

    A process starts from a definition ([Definitions]) and the layers of its
    configuration ([Config]); the bootstrap ([Bootstrap]) checks them, resolves
    credentials ([Credentials]), model aliases ([Catalog]) and policies
    ([Policy]) and says what is constructed ([Clients] for the constructors of
    services); the runtime is created, asks its dependencies, connects the MCP
    servers and is closed in the end ([Startup], [Mcp], [McpSdk]).

    A caller reaches an agent through the gateway, which authenticates
    ([EdgeAuth]), rate-limits, picks a healthy target and forwards ([Gateway]),
    with its limits in the process or shared by several gateways through Redis
    ([GatewayState], [GatewayShared]).  Requests enter the agent through
    middlewares, rate limiter and the invoke route ([HttpApi], assembled in
    [HttpApp]; tokens in [Authentication]), or as agent-to-agent tasks
    ([A2aServer]); what they contain and what agents answer is held against the
    contracts of the definition ([Contracts]).

    The agent ([Lifecycle]) admits the invocation if it is ready and has
    capacity, and hands it to the runtime, which may stream ([Streaming]).  The
    runtime makes one or more attempts under a deadline, an error policy and a
    circuit breaker ([Invocation], [Resilience]).  An attempt ([AgentLoop])
    loads a checkpoint ([Checkpoint]) or a paused approval ([Approvals]) and the
    session ([Session]), looks up knowledge ([Knowledge]) and memory
    ([Memory]), asks the model in its provider's wire format ([Providers],
    [Anthropic], [OpenAI]), runs the wave of tools it wants ([Tools]) under the
    policy ([Policy], [Identity], [Fnmatch]) and through the store of
    side-effect operations ([SideEffects]), and persists the turn.  The Google
    ADK runtime does the same through the callbacks of its runner ([GoogleAdk],
    [AdkBridge], [AdkSession], [Accounting]).

    What is kept is kept in memory or in SQLite ([SessionStore], [A2aStore] and
    the stores of the planes), in Redis ([RedisOps], [RedisSession],
    [RedisMemory], [RedisA2a], over [Redis]) or in PostgreSQL ([PostgresOps],
    [PostgresSession], [PostgresMemory], over [Postgres] and [PostgresPool]).
    Agents are found in the registry ([Registry], [Discovery]), configured by
    the configuration plane ([ConfigPlane]), report their usage to the
    observability plane ([Observability]) and their readiness to probes
    ([Health]); logs, audit, spans and metrics leave through [Redaction],
    [Telemetry] and [Metrics].

    ** Which file models what

    Shared ground:
    - [Prelude] (this file): clock readings, the [result] type with its monad,
      Python truth values, list comprehensions, dictionaries as association
      lists in insertion order, stable sorting, tenant-scoped keys; the hint
      databases [agents] and [agents_rw]; the tactics [clock_lra],
      [clock_case] and [result_inv].
    - [Json]: the values [json.loads] returns, Python equality, truth and
      membership on them, canonical key order.
    - [Tables]: sums per group as Python loops and as [GROUP BY] compute them,
      and tables of rows with a key, an age limit and a size limit.
    - [Urls]: the parts of a URL and percent-encoding, which is injective.
    - [Fnmatch]: [fnmatch.fnmatchcase] with a denotational specification.
    - [Redis]: the class [Redis] of what its commands do to keys with expiry,
      as laws; programs of commands, pipelines and WATCH; an instance.
    - [Postgres]: methods as sequences of SQL statements that many clients
      interleave; JSONB columns as a class.

    The agent and its runtimes:
    - [Identity]: [security/identity.py], [security/propagation.py].
    - [Policy]: [security/policy.py].  Evaluation is a function of the policy,
      the bound identity and the caller's context.
    - [Resilience]: [resilience.py]; exceptions by class, the breaker's state
      and transitions.
    - [Approvals]: the in-memory store of [security/approvals.py].
    - [Invocation]: [_invoke] and the deadlines of [runtimes/adk/runtime.py].
    - [Lifecycle]: [core/default_agent.py] as a step relation between the
      sections of code that run without an await; each await is a point where
      any other task may step or the task may be cancelled.
    - [SideEffects]: [security/side_effects.py]; the class [OperationStore] is
      what the runtime relies on, [OperationRegistry] implements it.
    - [Tools]: [_execute_tools] and its helpers in [runtimes/adk/runtime.py],
      with [tools/tool.py].
    - [Session]: the in-memory provider of [session/session.py].  Contexts live
      in a heap, so that the provider and its callers share them as the code
      does.
    - [Checkpoint]: both stores of [checkpoint/checkpoint.py]; the class
      [CheckpointStore] is what the loop relies on.
    - [AgentLoop]: [_invoke_inner] of [runtimes/adk/runtime.py], in a state and
      error monad over the stores, with triples for the proofs.
    - [Memory]: policy and in-memory provider of [memory/memory.py], over a heap
      of entries that callers share.
    - [Knowledge]: [knowledge/knowledge.py], three retrievers behind one class.
    - [AdkBridge], [GoogleAdk], [AdkSession]: events, messages and the tool
      adapter; one invocation over the classes [SessionService] and
      [CheckpointStore]; the session service as an instance of the first over
      any session provider ([runtimes/google_adk/]).
    - [Accounting]: timeout, span and metrics around that invocation, and the
      breakers and the system prompt of the other runtime.
    - [Streaming]: [stream] of both runtimes as two tasks and a queue, and the
      model class that the Google runtime gives to ADK.
    - [Startup]: [create], [start], [stop], [health_probes] and [close] of both
      runtimes, tool plugins ([tools/plugin.py]) and built-in tools.
    - [Providers], [Anthropic], [OpenAI]: [models/]; requests, responses and
      the assembly of streamed responses.
    - [Mcp], [McpSdk]: [mcp/]; validation, connections and notifications; the
      connection task of the SDK client as a state machine, and requests that
      overlap on one connection.

    The agent's boundary:
    - [Definitions], [Contracts]: [definition/] and [models/structured.py].
    - [Config], [Bootstrap]: [config/]; [Catalog]: [models/catalog.py];
      [Credentials]: [security/credentials.py]; [Authentication]:
      [security/auth.py], [delegation.py], [context.py]; [Clients]: the
      constructors of what talks HTTP, Redis or MCP.
    - [HttpApi], [HttpApp], [Health]: [interoperability/http_api.py],
      [health/health.py].
    - [A2aServer], [A2aStore]: [interoperability/a2a_server.py], [a2a.py],
      [a2a_store.py].
    - [Redaction], [Metrics], [Telemetry]: [observability/].

    State shared by processes:
    - [SessionStore]: sessions as a class, and [session/sqlite.py] as a
      refinement of the in-memory provider.
    - [RedisOps] ([security/redis_operations.py] and the Redis store of
      [security/approvals.py]), [RedisSession] ([session/redis.py]),
      [RedisMemory] ([memory/redis.py]), [RedisA2a] (the Redis stores of
      [a2a_store.py]).
    - [PostgresPool], [PostgresOps], [PostgresMemory] ([memory/postgres.py]),
      [PostgresSession] ([session/postgres.py]).

    The control plane:
    - [Registry] ([cloud/descriptors.py], [registry.py], part of [schemas.py]),
      [Discovery] ([discovery.py]), [ConfigPlane] ([config.py],
      [config_client.py]; both stores implement the class [ConfigStore]),
      [Observability] ([observability.py]).
    - [Gateway], [GatewayShared], [EdgeAuth] ([cloud/gateway.py]),
      [GatewayState] ([cloud/gateway_state.py], the Lua scripts as functions).

    Beside the program: [Benchmarks] ([benchmarks/]) and [Release]
    ([tools/validate_release.py], with the loaders of files).

    ** What the theorems show

    - Safety of autonomy: no tool runs past validation and policy, and a side
      effect that needs an approval runs only when the request that was shown
      is approved (AgentLoop, Tools, AdkBridge); a deny rule always decides,
      request metadata cannot replace a bound identity, the policy parser
      accepts nothing it does not understand (Policy).
    - Side effects happen at most once: one execution per tenant and
      idempotency key (Tools, SideEffects), also among processes that share a
      registry in Redis or PostgreSQL (RedisOps, PostgresOps), no retry after a
      side effect (Invocation), no checkpoint that forgets one (AgentLoop,
      GoogleAdk), no replay of an unsafe request by the gateway (Gateway).
    - Who may act: the invoke route gives an agent the requests of callers that
      were authenticated and admitted, the task route anonymous ones from
      authenticated callers where the definition asks for them (HttpApi), the
      gateway acts for the caller that a token names (EdgeAuth), identities come
      from tokens (Authentication), a request to an MCP server carries its own
      caller's credential or the connection's (McpSdk), a service's token goes to
      that service (Clients), secrets are redacted (Redaction).
    - Starting: precedence of the configuration (Config), a bootstrapped
      configuration is valid and does what the definition says (Bootstrap), an
      agent is started, and MCP servers contacted, only after every dependency
      that the runtime asks answered (Startup, Mcp).
    - Termination and bounds: the loop stops within its iteration budget,
      retries stay within count and deadlines, concurrency and bulkhead limits
      hold, rate-limit buckets admit no more than their share, tables and
      memories stay bounded, streams and reconnections end.
    - State: no lost session update, in one process or many (Session,
      RedisSession, PostgresSession), tenants are isolated, a turn is stored
      exactly once with the exchange that it was (AgentLoop), checkpoints and
      policies round-trip, approvals expire on time, configuration versions never
      change and survive outages, one pool of connections is opened (PostgresPool).
    - Shared limits: gateways on one Redis behave as one bucket, one bulkhead,
      one breaker, give back what they took unless the store refuses it, and refuse
      when the store is gone (GatewayState, GatewayShared).
    - Wire formats: a streamed response is the unstreamed one (OpenAI,
      Anthropic), what a reader of a stream gets is what was produced, in order
      (Streaming), an agent-to-agent artifact is complete (A2aServer), following
      page tokens lists every live task once (A2aStore, RedisA2a), the metrics
      exposition reads back (Metrics).
    - Refinement: the SQLite registry, configuration store and session provider
      answer like the in-memory ones; the ADK session service implements the
      class the runtime is proved against.
    - Limits that the code has, as theorems and examples: a stop that is
      cancelled is stuck, a pause on a retry is lost, an interrupted stream
      keeps its slot, a resumed turn is cut by the session as it is then, a
      target that cooled down reopens for everyone, two clients that create the
      same row lose one of the two, an invocation that is cancelled is not
      counted, an MCP request that outlives its caller or its session loses its
      credential, a checkpoint outlives the failure of the store that should
      replace it, an agent is started on the knowledge sources of another.

    ** Conventions and bounds

    Times are exact rationals; binary rounding is not modelled, nor is that of
    other floats, and where the outcome of float arithmetic or its printing
    matters it is a parameter.  Strings are sequences of 8-bit code points.  A
    dictionary keeps its insertion order.  What is outside the repository or
    outside the model is a parameter that the theorems quantify over: the model
    provider, what tools do, fresh identifiers, clocks, [json.dumps], hashes,
    networks, the validators of the definition schema, PyJWT, [urlsplit]; where
    a theorem relies on such a parameter, on what a JSON text reads as
    ([Redis.Payloads]), on the commands of Redis ([Redis.Redis]) or on JSONB
    columns ([Postgres.Jsonb]), the class states it and has a concrete
    instance.  The clocks of clients and servers agree.  An operation that holds
    a lock or never awaits is one step, as is an SQL statement, a Redis command,
    a transaction of commands or a Lua script.  A request that the gateway forwards
    is one step although it awaits; only what it takes and gives back itself is
    claimed.  Fuel: [AgentLoop.enough_fuel] is one turn more than the iterations
    left, and [AgentLoop.turns_bounded] shows that it never runs out; [Fnmatch] bounds its recursion by the length of the
    pattern; the eviction from memory in Redis takes one round of fuel, which
    [RedisMemory.redis_memory_bounded] shows to be enough.

    ** What is not modelled

    The google-adk, MCP and A2A packages, asyncpg, redis-py and httpx beyond
    what is stated of them; the FastAPI applications' wiring, trace propagation
    middleware, [__main__] and argparse; YAML and the pydantic schema of
    definitions, which are parameters; the text of SQL and Lua, of which the
    effect is modelled; building the agents that benchmarks measure; abstract
    interfaces, [__repr__], re-exports and packages' import checks other than
    those of [Clients] and [PostgresPool].  Spans, metrics, log lines and audit
    records that a component writes are left out of its model: nothing reads
    them back; [Telemetry], [Metrics], [Redaction] and [Accounting] are about
    them. *)

From Stdlib Require Export QArith Qminmax Qround Lqa.
From stdpp Require Export base tactics strings gmap list sorting relations.

#[export] Set Default Goal Selector "!".
#[global] Open Scope nat_scope.

(** ** Clock readings

    The code reads [time.monotonic()] and [time.time()], floats in seconds.
    They are exact rationals here; rounding of binary floats is not modelled. *)

Abbreviation time := Q (only parsing).

Definition qleb (a b : Q) : bool := Qle_bool a b.
Definition qltb (a b : Q) : bool := negb (Qle_bool b a).

Declare Scope clock_scope.
Delimit Scope clock_scope with clock.
Notation "a <=? b" := (qleb a b) (at level 70, no associativity) : clock_scope.
Notation "a <? b" := (qltb a b) (at level 70, no associativity) : clock_scope.

Lemma qleb_true (a b : Q) : (a <=? b)%clock = true <-> (a <= b)%Q.
Proof. apply Qle_bool_iff. Qed.

Lemma qltb_true (a b : Q) : (a <? b)%clock = true <-> (a < b)%Q.
Proof.
  unfold qltb. rewrite negb_true_iff, <-not_true_iff_false, Qle_bool_iff.
  split; [apply Qnot_le_lt | apply Qlt_not_le].
Qed.

Lemma qleb_false (a b : Q) : (a <=? b)%clock = false <-> (b < a)%Q.
Proof. rewrite <-qltb_true. unfold qltb, qleb. rewrite negb_true_iff. done. Qed.

Lemma qltb_false (a b : Q) : (a <? b)%clock = false <-> (b <= a)%Q.
Proof. rewrite <-qleb_true. unfold qltb, qleb. rewrite negb_false_iff. done. Qed.

(** Turn every boolean clock comparison of the context and the goal into an
    order on [Q], where [lra] works. *)
Ltac clock_prop :=
  repeat match goal with
  | H : _ |- _ => progress rewrite ?qleb_true, ?qltb_true, ?qleb_false, ?qltb_false in H
  end;
  rewrite ?qleb_true, ?qltb_true, ?qleb_false, ?qltb_false.
Ltac clock_lra := clock_prop; lra.

(** [round(q, n)] for [scale = 10 ^ n]: to the nearest, ties to the even neighbour. *)
Definition round_to (scale : positive) (q : Q) : Q :=
  let n := (q * (Zpos scale # 1))%Q in
  let f := Qfloor n in
  let d := (n - inject_Z f)%Q in
  let z := if (d <? 1 # 2)%clock then f
           else if (1 # 2 <? d)%clock then (f + 1)%Z
           else if Z.even f then f else (f + 1)%Z in
  (z # scale)%Q.

(** Case analysis on the first clock comparison of the goal. *)
Ltac clock_case :=
  match goal with
  | |- context [qleb ?a ?b] => let E := fresh "E" in destruct (qleb a b) eqn:E
  | |- context [qltb ?a ?b] => let E := fresh "E" in destruct (qltb a b) eqn:E
  end.

(** Clock readings that never go back, from [t] on. *)
Fixpoint ascending (t : Q) (times : list Q) : Prop :=
  match times with [] => True | t' :: times => (t <= t')%Q /\ ascending t' times end.

Lemma last_default_cons (t t' : Q) (l : list Q) : List.last (t' :: l) t = List.last l t'.
Proof.
  revert t t'. induction l as [|u l IH]; intros t t'; [done|].
  change (List.last (t' :: u :: l) t) with (List.last (u :: l) t). by rewrite !IH.
Qed.

Lemma ascending_app t l1 l2 : ascending t (l1 ++ l2) <-> ascending t l1 /\ ascending (List.last l1 t) l2.
Proof.
  revert t. induction l1 as [|u l1 IH]; intros t; cbn [app ascending]; [tauto|]. rewrite last_default_cons, IH. tauto.
Qed.

Lemma ascending_bounds t l :
  ascending t l -> (t <= List.last l t)%Q /\ forall u, u ∈ l -> (t <= u)%Q /\ (u <= List.last l t)%Q.
Proof.
  revert t. induction l as [|u l IH]; intros t; cbn [ascending].
  - intros _. split; [apply Qle_refl | by intros ? ?%elem_of_nil].
  - intros [Ht Hl]. rewrite last_default_cons. destruct (IH u Hl) as [H1 H2]. split; [lra|].
    intros v [->|Hv]%elem_of_cons; [done|]. destruct (H2 v Hv). split; lra.
Qed.

Lemma ascending_sorted t l : ascending t l -> StronglySorted Qle l.
Proof.
  revert t. induction l as [|u l IH]; intros t; [constructor|]. cbn [ascending]. intros [_ Hl]. constructor; [by eapply IH|].
  apply Forall_forall. intros v Hv. by apply (ascending_bounds u l Hl).
Qed.

(** ** Fallible code: a result is a value or the exception that was raised *)

Inductive result (E A : Type) : Type :=
  | Ok (a : A)
  | Err (e : E).
Arguments Ok {E A} a.
Arguments Err {E A} e.

#[export] Instance result_ret (E : Type) : MRet (result E) := fun _ a => Ok a.
#[export] Instance result_bind (E : Type) : MBind (result E) := fun _ _ k r =>
  match r with Ok a => k a | Err e => Err e end.
#[export] Instance result_fmap (E : Type) : FMap (result E) := fun _ _ f r =>
  match r with Ok a => Ok (f a) | Err e => Err e end.

Definition is_ok {E A} (r : result E A) : bool :=
  match r with Ok _ => true | Err _ => false end.

Lemma result_bind_ok {E A B} (r : result E A) (k : A -> result E B) (b : B) :
  (r ≫= k) = Ok b <-> exists a, r = Ok a /\ k a = Ok b.
Proof. destruct r; cbn; split; [eauto | intros (?&?&?); congruence | done | intros (?&?&?); congruence]. Qed.

Lemma mapM_ok {E A B} (f : A -> result E B) (l : list A) (k : list B) :
  mapM f l = Ok k <-> Forall2 (fun x y => f x = Ok y) l k.
Proof.
  revert k. induction l as [|x l IH]; intros k; cbn.
  - split; [inversion 1; constructor | by inversion 1].
  - rewrite result_bind_ok. split.
    + intros (y & Hy & (ys & Hys & Hk)%result_bind_ok). injection Hk as <-.
      constructor; [done | by apply IH].
    + inversion 1 as [|? y ? ys Hy Hys]; subst. exists y. split; [done|].
      apply result_bind_ok. exists ys. by rewrite IH.
Qed.

(** Decoding element by element what was encoded element by element. *)
Lemma mapM_roundtrip {A B} (f : A -> B) (g : B -> option A) (l : list A) :
  (forall a, a ∈ l -> g (f a) = Some a) -> mapM g (f <$> l) = Some l.
Proof.
  induction l as [|a l IH]; intros Hf; [done|]. cbn. rewrite Hf by left. cbn.
  rewrite IH; [done|]. intros b Hb. apply Hf. by right.
Qed.

(** Invert a chain of monadic steps that returned: each step returned. *)
Ltac result_inv :=
  repeat match goal with
  | H : mbind _ _ = Ok _ |- _ => apply result_bind_ok in H as (? & ? & H)
  | H : Ok _ = Ok _ |- _ => injection H as H
  | H : Err _ = Ok _ |- _ => discriminate H
  | H : Ok _ = Err _ |- _ => discriminate H
  end.

(** Calls that may raise, on a state that the others see. *)
Definition call (S E A : Type) : Type := S -> result E A * S.
#[export] Instance call_ret (S E : Type) : MRet (call S E) := fun _ a s => (Ok a, s).
#[export] Instance call_bind (S E : Type) : MBind (call S E) := fun _ _ k m s =>
  let '(r, s) := m s in match r with Ok a => k a s | Err e => (Err e, s) end.

Definition throws {S E A} (e : E) : call S E A := fun s => (Err e, s).

Lemma call_bind_ok {S E A B} (m : call S E A) (k : A -> call S E B) s b s' :
  (m ≫= k) s = (Ok b, s') <-> exists a s1, m s = (Ok a, s1) /\ k a s1 = (Ok b, s').
Proof.
  unfold mbind, call_bind. destruct (m s) as [[a|e] s1]; split; [by exists a, s1 | by intros (? & ? & [= <- <-] & ?) | done|].
  by intros (? & ? & ? & _).
Qed.

(** ** Truth value of an optional string: [None] and the empty string are false *)

Definition str_truthy (s : string) : bool :=
  match s with EmptyString => false | _ => true end.
Definition opt_truthy (o : option string) : bool :=
  match o with Some s => str_truthy s | None => false end.
Definition opt_or (o : option string) (d : string) : string :=
  if opt_truthy o then default d o else d.

Lemma str_truthy_false (s : string) : str_truthy s = false <-> s = EmptyString.
Proof. destruct s; cbn; split; congruence. Qed.

Lemma fmap_sublist {A B} (f : A -> B) (l k : list A) :
  l `sublist_of` k -> f <$> l `sublist_of` f <$> k.
Proof. induction 1; cbn; by constructor. Qed.

(** ** Boolean list filters, the comprehensions [\[x for x in l if f x\]] *)

Abbreviation filterb := List.filter (only parsing).

Lemma elem_of_filterb {A} (f : A -> bool) (l : list A) (x : A) :
  x ∈ filterb f l <-> x ∈ l /\ f x = true.
Proof. rewrite !list_elem_of_In. apply List.filter_In. Qed.

Lemma filterb_andb {A} (f g : A -> bool) (l : list A) :
  filterb g (filterb f l) = filterb (fun x => f x && g x) l.
Proof.
  induction l as [|x l IH]; [done|]. cbn.
  destruct (f x); cbn; [destruct (g x); cbn; by rewrite IH | done].
Qed.

Lemma filterb_sublist {A} (f : A -> bool) (l : list A) : filterb f l `sublist_of` l.
Proof.
  induction l as [|x l IH]; cbn; [constructor|].
  destruct (f x); by constructor.
Qed.

Lemma filterb_all {A} (f : A -> bool) (l : list A) :
  (forall x, x ∈ l -> f x = true) -> filterb f l = l.
Proof.
  induction l as [|x l IH]; intros H; [done|]. cbn.
  rewrite (H x) by left. rewrite IH; [done|]. intros y Hy. apply H. by right.
Qed.

Lemma filterb_none {A} (f : A -> bool) (l : list A) :
  (forall x, x ∈ l -> f x = false) -> filterb f l = [].
Proof.
  induction l as [|x l IH]; intros H; [done|]. cbn.
  rewrite (H x) by left. apply IH. intros y Hy. apply H. by right.
Qed.

Lemma filterb_ext {A} (f g : A -> bool) (l : list A) :
  (forall x, x ∈ l -> f x = g x) -> filterb f l = filterb g l.
Proof.
  induction l as [|x l IH]; intros H; [done|]. cbn.
  rewrite (H x) by left. rewrite IH; [done|]. intros y Hy. apply H. by right.
Qed.

Lemma Forall_filterb {A} (P : A -> Prop) (f : A -> bool) (l : list A) : Forall P l -> Forall P (filterb f l).
Proof. rewrite !Forall_forall. intros Hl x [Hx _]%elem_of_filterb. by apply Hl. Qed.

#[export] Instance filterb_perm {A} (f : A -> bool) :
  Proper ((≡ₚ) ==> (≡ₚ)) (List.filter f).
Proof.
  intros l k Hp. induction Hp as [|x l k Hp IH|x y l|l k m H1 IH1 H2 IH2]; cbn.
  - done.
  - destruct (f x); by rewrite ?IH.
  - destruct (f x), (f y); (done || constructor).
  - by etrans.
Qed.

Lemma fmap_filterb {A B} (f : A -> B) (p : B -> bool) (l : list A) :
  filterb p (f <$> l) = f <$> filterb (fun x => p (f x)) l.
Proof.
  induction l as [|x l IH]; [done|]. cbn. destruct (p (f x)); cbn; by rewrite IH.
Qed.

Lemma existsb_elem {A} (f : A -> bool) (l : list A) :
  existsb f l = true <-> exists x, x ∈ l /\ f x = true.
Proof.
  rewrite existsb_exists. split; intros (x & Hx & Hf); exists x;
    by rewrite ?list_elem_of_In in *.
Qed.

Lemma forallb_elem {A} (f : A -> bool) (l : list A) :
  forallb f l = true <-> forall x, x ∈ l -> f x = true.
Proof.
  rewrite forallb_forall. split; intros H x Hx; apply H; by rewrite ?list_elem_of_In in *.
Qed.

Lemma foldl_invariant {A B} (P : A -> Prop) (f : A -> B -> A) (l : list B) (a : A) :
  P a -> (forall a b, P a -> P (f a b)) -> P (foldl f a l).
Proof. intros Ha Hf. revert a Ha. induction l as [|b l IH]; intros a Ha; [done|]. by apply IH, Hf. Qed.

Lemma foldl_invariant_elem {A B} (P : A -> Prop) (f : A -> B -> A) (l : list B) (a : A) :
  P a -> (forall a b, b ∈ l -> P a -> P (f a b)) -> P (foldl f a l).
Proof.
  intros Ha. revert a Ha. induction l as [|b l IH]; intros a Ha Hf; [done|]. cbn. apply IH; [by apply Hf; [left|]|].
  intros a' b' Hb. apply Hf. by right.
Qed.

(** Membership [x in l] of Python for a list of strings. *)
Definition memb {A} `{EqDecision A} (x : A) (l : list A) : bool := bool_decide (x ∈ l).

Lemma memb_true {A} `{EqDecision A} (x : A) (l : list A) : memb x l = true <-> x ∈ l.
Proof. apply bool_decide_eq_true. Qed.
Lemma memb_false {A} `{EqDecision A} (x : A) (l : list A) : memb x l = false <-> x ∉ l.
Proof. apply bool_decide_eq_false. Qed.

(** ** Python dictionaries: insertion-ordered, one value per key

    Assigning to a present key keeps its position, a new key goes last. *)

Section dict.
Context {K V : Type} `{EqDecision K}.
Implicit Types (d : list (K * V)) (k : K) (v : V).

Definition dkeys d : list K := d.*1.
Definition dvalues d : list V := d.*2.

Fixpoint dget k d : option V :=
  match d with
  | [] => None
  | (k', v) :: d => if decide (k = k') then Some v else dget k d
  end.

Fixpoint dset k v d : list (K * V) :=
  match d with
  | [] => [(k, v)]
  | (k', v') :: d => if decide (k = k') then (k, v) :: d else (k', v') :: dset k v d
  end.

Definition key_ne k k' : bool := if decide (k' = k) then false else true.
Definition dpop k d : list (K * V) := filterb (fun e => key_ne k e.1) d.

Definition dmem k d : bool := memb k (dkeys d).

Lemma dget_dset_eq k v d : dget k (dset k v d) = Some v.
Proof.
  induction d as [|[k' v'] d IH]; cbn; [by rewrite decide_True|].
  case_decide; cbn; [by rewrite decide_True | by rewrite decide_False].
Qed.

Lemma dget_dset_ne k k' v d : k' ≠ k -> dget k' (dset k v d) = dget k' d.
Proof.
  intros Hne. induction d as [|[k1 v1] d IH]; cbn; [by rewrite decide_False|].
  case_decide; subst; cbn; [by rewrite !decide_False|]. by case_decide.
Qed.

Lemma dget_dset k k' v d :
  dget k' (dset k v d) = if decide (k' = k) then Some v else dget k' d.
Proof. case_decide; subst; [apply dget_dset_eq | by apply dget_dset_ne]. Qed.

Lemma dget_filter_key (p : K -> bool) k d :
  dget k (filterb (fun e => p e.1) d) = if p k then dget k d else None.
Proof.
  induction d as [|[k' v'] d IH]; cbn; [by destruct (p k)|].
  destruct (p k') eqn:E; cbn.
  - case_decide; subst; [by rewrite E | done].
  - rewrite IH. case_decide; subst; [by rewrite E | done].
Qed.

Lemma dget_dpop_eq k d : dget k (dpop k d) = None.
Proof.
  unfold dpop. rewrite (dget_filter_key (key_ne k)). unfold key_ne. by rewrite decide_True.
Qed.

Lemma dget_dpop_ne k k' d : k' ≠ k -> dget k' (dpop k d) = dget k' d.
Proof.
  intros Hne.
  unfold dpop. rewrite (dget_filter_key (key_ne k)). unfold key_ne. by rewrite decide_False.
Qed.

Lemma dget_elem k v d : dget k d = Some v -> (k, v) ∈ d.
Proof.
  induction d as [|[k' v'] d IH]; cbn; [done|]. case_decide; intros; simplify_eq; set_solver.
Qed.

Lemma elem_dset e k v d : e ∈ dset k v d -> e = (k, v) \/ e ∈ d.
Proof.
  induction d as [|[k' v'] d IH]; cbn; [rewrite list_elem_of_singleton; by left|].
  case_decide; rewrite !elem_of_cons; intros [?|?]; auto.
  destruct IH; auto.
Qed.

Lemma elem_dget k v d : NoDup (dkeys d) -> (k, v) ∈ d -> dget k d = Some v.
Proof.
  induction d as [|[k' v'] d IH]; cbn; [set_solver|].
  rewrite NoDup_cons, elem_of_cons. intros [Hn Hd] [?|Hin]; simplify_eq.
  - by rewrite decide_True.
  - rewrite decide_False; [by apply IH|]. intros ->. apply Hn, list_elem_of_fmap.
    by exists (k', v).
Qed.

Lemma dget_None k d : dget k d = None <-> k ∉ dkeys d.
Proof.
  induction d as [|[k' v'] d IH]; cbn; [set_solver|].
  rewrite not_elem_of_cons, <-IH. case_decide; split; [done | by intros [? _] | done | by intros [_ ?]].
Qed.

Lemma dmem_get k d : dmem k d = true <-> is_Some (dget k d).
Proof.
  unfold dmem. rewrite memb_true. destruct (dget k d) eqn:E.
  - split; [eauto|]. intros _. apply dget_elem in E. apply list_elem_of_fmap. by exists (k, v).
  - apply dget_None in E. split; [intros ?; done|]. by intros [? ?].
Qed.

Lemma elem_dkeys_dset k k' v d : k' ∈ dkeys (dset k v d) <-> k' = k \/ k' ∈ dkeys d.
Proof.
  induction d as [|[k1 v1] d IH]; cbn; [set_solver|].
  case_decide; subst; cbn; [set_solver|]. rewrite elem_of_cons. unfold dkeys in IH. rewrite IH. set_solver.
Qed.

Lemma NoDup_dset k v d : NoDup (dkeys d) -> NoDup (dkeys (dset k v d)).
Proof.
  induction d as [|[k' v'] d IH]; cbn; [intros _; apply NoDup_singleton|].
  rewrite NoDup_cons. intros [Hn Hd]. case_decide; subst; cbn; rewrite NoDup_cons; [done|].
  split; [|by apply IH]. rewrite elem_dkeys_dset. naive_solver.
Qed.

Lemma NoDup_filterb (f : K * V -> bool) d : NoDup (dkeys d) -> NoDup (dkeys (filterb f d)).
Proof.
  intros H. apply (sublist_NoDup _ _ H), fmap_sublist, filterb_sublist.
Qed.

Lemma NoDup_dpop k d : NoDup (dkeys d) -> NoDup (dkeys (dpop k d)).
Proof. apply NoDup_filterb. Qed.

Lemma dkeys_dpop k d : dkeys (dpop k d) = filterb (key_ne k) (dkeys d).
Proof. unfold dpop, dkeys. by rewrite (fmap_filterb fst (key_ne k)). Qed.

Lemma elem_dkeys_dpop k k' d : k ∈ dkeys (dpop k' d) <-> k ≠ k' /\ k ∈ dkeys d.
Proof. rewrite dkeys_dpop, elem_of_filterb. unfold key_ne. split; intros [? ?]; split; try done; case_decide; congruence. Qed.

Lemma length_dpop_le k d : length (dpop k d) <= length d.
Proof. unfold dpop. by apply sublist_length, filterb_sublist. Qed.

Lemma elem_dpop_length k d : k ∈ dkeys d -> length (dpop k d) < length d.
Proof.
  unfold dpop. induction d as [|[k' v] d IH]; cbn; [by intros ?%elem_of_nil|]. unfold key_ne at 1. cbn.
  intros [->|Hin]%elem_of_cons.
  - rewrite decide_True by done. apply le_n_S, sublist_length, filterb_sublist.
  - case_decide; [apply le_n_S, sublist_length, filterb_sublist | cbn; specialize (IH Hin); lia].
Qed.

Lemma length_dset k v d :
  length (dset k v d) = match dget k d with Some _ => length d | None => S (length d) end.
Proof.
  induction d as [|[k' v'] d IH]; cbn; [done|]. case_decide; [done|]. cbn. rewrite IH.
  by destruct (dget k d).
Qed.

Lemma dset_fresh k v d : dget k d = None -> dset k v d = d ++ [(k, v)].
Proof.
  induction d as [|[k' v'] d IH]; cbn; [done|]. case_decide; [done|].
  intros Hget. by rewrite IH.
Qed.

(** The dictionary of a list of assignments, a dictionary comprehension: the
    last value of a key stands at the place of its first. *)
Definition dict_of (l : list (K * V)) : list (K * V) := foldl (fun d e => dset e.1 e.2 d) [] l.

Lemma NoDup_dict_of l : NoDup (dkeys (dict_of l)).
Proof. apply (foldl_invariant (fun d => NoDup (dkeys d))); [apply NoDup_nil_2|]. intros d e. by apply NoDup_dset. Qed.

Lemma dict_of_snoc l k v : dict_of (l ++ [(k, v)]) = dset k v (dict_of l).
Proof. unfold dict_of. by rewrite foldl_app. Qed.

Lemma elem_dict_of l k : k ∈ dkeys (dict_of l) <-> k ∈ dkeys l.
Proof.
  induction l as [|[k' v'] l IH] using rev_ind; [done|]. rewrite dict_of_snoc, elem_dkeys_dset, IH.
  unfold dkeys. rewrite fmap_app, elem_of_app. cbn. set_solver.
Qed.

Lemma elem_dict_of_inv l e : e ∈ dict_of l -> e ∈ l.
Proof.
  induction l as [|[k' v'] l IH] using rev_ind; [done|]. rewrite dict_of_snoc, elem_of_app.
  intros [->|?]%elem_dset; [right; left | left; by apply IH].
Qed.

Lemma dget_dict_of l1 k v l2 : k ∉ dkeys l2 -> dget k (dict_of (l1 ++ (k, v) :: l2)) = Some v.
Proof.
  induction l2 as [|[k' v'] l2 IH] using rev_ind; intros Hk.
  - rewrite dict_of_snoc. apply dget_dset_eq.
  - unfold dkeys in Hk. rewrite fmap_app in Hk. rewrite app_comm_cons, app_assoc, dict_of_snoc, dget_dset_ne by set_solver.
    apply IH. set_solver.
Qed.

Lemma dict_of_id l : NoDup (dkeys l) -> dict_of l = l.
Proof.
  induction l as [|[k v] l IH] using rev_ind; [done|]. unfold dkeys. rewrite fmap_app. intros Hnd.
  apply NoDup_app in Hnd as (Hl & Hd & _). rewrite dict_of_snoc, IH by done. apply dset_fresh.
  apply dget_None. intros Hin. apply (Hd k Hin). left.
Qed.
End dict.

Create HintDb agents.
#[export] Hint Resolve NoDup_dset NoDup_dpop NoDup_filterb NoDup_nil_2 : agents.
Create Rewrite HintDb agents_rw.
#[export] Hint Rewrite @dget_dset_eq @dget_dpop_eq : agents_rw.

(** Being sorted by a key is the keys being sorted. *)
Lemma sorted_fmap {A B} (f : A -> B) (R : B -> B -> Prop) (l : list A) :
  StronglySorted R (f <$> l) <-> StronglySorted (fun a b => R (f a) (f b)) l.
Proof.
  induction l as [|x l IH]; cbn; [split; constructor|]. split; inversion 1; subst; constructor.
  - by apply IH.
  - by rewrite Forall_fmap in *.
  - by apply IH.
  - by rewrite Forall_fmap.
Qed.

Lemma sorted_filterb {A} (f : A -> bool) (R : A -> A -> Prop) (l : list A) :
  StronglySorted R l -> StronglySorted R (filterb f l).
Proof.
  induction 1 as [|x l Hl IH Hx]; cbn; [constructor|]. destruct (f x); [|done].
  constructor; [done|]. rewrite Forall_forall in *. intros y [Hy _]%elem_of_filterb. by apply Hx.
Qed.

(** ** Sorting with a key, as [list.sort(key=...)]: stable insertion sort *)

Section sort_by.
Context {A : Type} (le : A -> A -> bool).

Fixpoint sinsert (x : A) (l : list A) : list A :=
  match l with
  | [] => [x]
  | y :: l' => if le x y then x :: l else y :: sinsert x l'
  end.

Definition sort_by (l : list A) : list A := foldr sinsert [] l.

Lemma sinsert_perm x l : sinsert x l ≡ₚ x :: l.
Proof.
  induction l as [|y l IH]; cbn; [done|]. destruct (le x y); [done|].
  rewrite IH. constructor.
Qed.

Lemma sort_by_perm l : sort_by l ≡ₚ l.
Proof.
  induction l as [|x l IH]; cbn; [done|]. rewrite sinsert_perm. by constructor.
Qed.

Lemma elem_of_sort_by x l : x ∈ sort_by l <-> x ∈ l.
Proof. by rewrite sort_by_perm. Qed.

Context (le_total : forall x y, le x y = true \/ le y x = true).
Context (le_trans : forall x y z, le x y = true -> le y z = true -> le x z = true).
Let R x y : Prop := le x y = true.

Lemma sinsert_sorted x l : StronglySorted R l -> StronglySorted R (sinsert x l).
Proof.
  induction 1 as [|y l Hl IH Hy]; cbn; [repeat constructor|].
  destruct (le x y) eqn:E.
  - constructor; [by constructor|]. constructor; [done|].
    eapply Forall_impl; [exact Hy|]. intros z. by apply le_trans.
  - constructor; [done|]. rewrite sinsert_perm. constructor; [|done].
    destruct (le_total x y); unfold R; congruence.
Qed.

Lemma sort_by_sorted l : StronglySorted R (sort_by l).
Proof. induction l; cbn; [constructor | by apply sinsert_sorted]. Qed.

(** A list in order already is left as it is. *)
Lemma sort_by_id l : StronglySorted R l -> sort_by l = l.
Proof.
  induction 1 as [|x l Hl IH Hx]; cbn; [done|]. fold (sort_by l). rewrite IH.
  destruct l as [|y l]; [done|]. cbn.
  rewrite Forall_cons in Hx. destruct Hx as [Hxy _]. by rewrite Hxy.
Qed.

(** Two sorted permutations agree when the order is antisymmetric on them. *)
Lemma sorted_perm_eq l1 l2 :
  (forall x y, x ∈ l1 -> y ∈ l1 -> le x y = true -> le y x = true -> x = y) ->
  StronglySorted R l1 -> StronglySorted R l2 -> l1 ≡ₚ l2 -> l1 = l2.
Proof.
  intros Hanti H1. revert l2. induction H1 as [|x l1 Hl IH Hx]; intros l2 H2 Hp.
  - by apply Permutation_nil_l in Hp.
  - destruct H2 as [|y l2 Hl2 Hy]; [by apply Permutation_nil_r in Hp|].
    assert (x = y) as ->.
    { assert (Hxin : x ∈ y :: l2) by (rewrite <-Hp; left).
      assert (Hyin : y ∈ x :: l1) by (rewrite Hp; left).
      apply elem_of_cons in Hxin as [->|Hxin]; [done|].
      apply elem_of_cons in Hyin as [->|Hyin]; [done|].
      rewrite Forall_forall in Hx, Hy.
      apply Hanti; [left | by right | by apply Hx | by apply Hy]. }
    f_equal. apply IH; [|done|by apply Permutation_cons_inv in Hp].
    intros a b Ha Hb. apply Hanti; by right.
Qed.

Lemma sort_by_unique l1 l2 :
  (forall x y, x ∈ l1 -> y ∈ l1 -> le x y = true -> le y x = true -> x = y) ->
  l1 ≡ₚ l2 -> sort_by l1 = sort_by l2.
Proof.
  intros Hanti Hp. apply sorted_perm_eq; [|apply sort_by_sorted..|].
  - intros x y. rewrite !elem_of_sort_by. apply Hanti.
  - by rewrite !sort_by_perm.
Qed.
End sort_by.

(** Lexicographic order on a pair of strings, the order of the registry keys. *)
Definition str_leb (a b : string) : bool := String.leb a b.
Definition str2_leb (a b : string * string) : bool :=
  if String.eqb a.1 b.1 then str_leb a.2 b.2 else str_leb a.1 b.1.

Lemma str_leb_trans a b c : str_leb a b = true -> str_leb b c = true -> str_leb a c = true.
Proof.
  unfold str_leb. rewrite <-!Is_true_true.
  apply (transitivity (R:=String.le)).
Qed.
Lemma str_leb_total a b : str_leb a b = true \/ str_leb b a = true.
Proof. apply String.leb_total. Qed.
Lemma str_leb_antisym a b : str_leb a b = true -> str_leb b a = true -> a = b.
Proof. apply String.leb_antisym. Qed.

Lemma str2_leb_total a b : str2_leb a b = true \/ str2_leb b a = true.
Proof.
  unfold str2_leb. rewrite (String.eqb_sym b.1 a.1).
  destruct (String.eqb a.1 b.1); apply str_leb_total.
Qed.
Lemma str2_leb_trans a b c :
  str2_leb a b = true -> str2_leb b c = true -> str2_leb a c = true.
Proof.
  destruct a as [a1 a2], b as [b1 b2], c as [c1 c2]. unfold str2_leb; cbn.
  destruct (String.eqb_spec a1 b1), (String.eqb_spec b1 c1), (String.eqb_spec a1 c1);
    subst; try done; eauto using str_leb_trans.
  intros Hb Hc. by pose proof (str_leb_antisym _ _ Hb Hc).
Qed.
Lemma str2_leb_antisym a b : str2_leb a b = true -> str2_leb b a = true -> a = b.
Proof.
  destruct a as [a1 a2], b as [b1 b2]. unfold str2_leb; cbn.
  rewrite (String.eqb_sym b1 a1).
  destruct (String.eqb_spec a1 b1); subst; intros H1 H2.
  - f_equal. by apply str_leb_antisym.
  - by pose proof (str_leb_antisym _ _ H1 H2).
Qed.
#[export] Hint Resolve str_leb_trans str_leb_total str2_leb_trans str2_leb_total : agents.

(** ** Blank text: [not s.strip()] *)

Definition is_space (c : Ascii.ascii) : bool :=
  let n := Ascii.N_of_ascii c in
  (N.leb 9 n && N.leb n 13) || (N.leb 28 n && N.leb n 32) || N.eqb n 133 || N.eqb n 160.

Definition py_blank (s : string) : bool := forallb is_space (String.list_ascii_of_string s).

(** [s.strip()] and [s.split(c)] *)
Fixpoint lstrip (s : string) : string :=
  match s with
  | EmptyString => EmptyString
  | String c s' => if is_space c then lstrip s' else s
  end.
Definition srev (s : string) : string := String.string_of_list_ascii (List.rev (String.list_ascii_of_string s)).
Definition py_strip (s : string) : string := srev (lstrip (srev (lstrip s))).

Fixpoint py_split (sep : Ascii.ascii) (s : string) : list string :=
  match s with
  | EmptyString => [EmptyString]
  | String c s =>
      let parts := py_split sep s in
      if Ascii.eqb c sep then EmptyString :: parts
      else match parts with p :: ps => String c p :: ps | [] => [String c EmptyString] end
  end.

(** [s.partition(c)]: the text before and after the first separator. *)
Fixpoint py_partition (sep : Ascii.ascii) (s : string) : string * option string :=
  match s with
  | EmptyString => (EmptyString, None)
  | String c s =>
      if Ascii.eqb c sep then (EmptyString, Some s)
      else let '(a, b) := py_partition sep s in (String c a, b)
  end.

(** [s.lower()] on ASCII letters. *)
Definition lower_ascii (c : Ascii.ascii) : Ascii.ascii :=
  let n := Ascii.N_of_ascii c in
  if N.leb 65 n && N.leb n 90 then Ascii.ascii_of_N (n + 32) else c.

Fixpoint py_lower (s : string) : string :=
  match s with EmptyString => EmptyString | String c s => String (lower_ascii c) (py_lower s) end.

Lemma substring_length n s : String.length (String.substring 0 n s) <= n.
Proof. revert s. induction n as [|n IH]; intros [|c s]; cbn; try lia. specialize (IH s). lia. Qed.

Definition quoted (s : string) : string := ("'" ++ s ++ "'")%string.

Definition all_true (l : list bool) : bool := forallb id l.

(** ** Tenant-scoped keys

    Sessions, checkpoints and operations key their dictionaries by the bare id
    or, under a tenant, by [tenant + "\x1f" + id]. *)

Definition unit_separator : Ascii.ascii := Ascii.ascii_of_nat 31.
Definition scoped_key (id : string) (tenant_id : option string) : string :=
  match tenant_id with
  | None => id
  | Some t => (t ++ String unit_separator id)%string
  end.

Fixpoint separator_free (s : string) : bool :=
  match s with
  | EmptyString => true
  | String c s => negb (Ascii.eqb c unit_separator) && separator_free s
  end.

Lemma string_app_cons c s t : (String c s ++ t)%string = String c (s ++ t).
Proof. done. Qed.
Lemma text_app_assoc (a b c : string) : (a ++ (b ++ c) = (a ++ b) ++ c)%string.
Proof. induction a as [|x a IH]; [done|]. rewrite !string_app_cons. by f_equal. Qed.
Lemma text_app_nil_r (a : string) : (a ++ EmptyString)%string = a.
Proof. induction a as [|x a IH]; [done|]. rewrite string_app_cons. by f_equal. Qed.

Lemma substring_all (s : string) : String.substring 0 (String.length s) s = s.
Proof. induction s as [|c s IH]; [done|]. cbn. by rewrite IH. Qed.

Lemma separator_split a b x y :
  separator_free a = true -> separator_free b = true ->
  (a ++ String unit_separator x)%string = (b ++ String unit_separator y)%string -> a = b /\ x = y.
Proof.
  revert b. induction a as [|c a IH]; intros [|d b] Ha Hb Heq;
    rewrite ?string_app_cons in Heq; cbn [separator_free] in *.
  - by injection Heq.
  - injection Heq as <- _. by rewrite Ascii.eqb_refl in Hb.
  - injection Heq as -> _. by rewrite Ascii.eqb_refl in Ha.
  - apply andb_true_iff in Ha as [_ Ha], Hb as [_ Hb]. injection Heq as -> Heq.
    by destruct (IH b Ha Hb Heq) as [-> ->].
Qed.

Lemma separator_free_app a x :
  separator_free (a ++ String unit_separator x)%string = false.
Proof.
  induction a as [|c a IH]; [done|]. rewrite string_app_cons. cbn [separator_free].
  by rewrite IH, andb_false_r.
Qed.

(** Keys of different tenants, and scoped and bare keys, never collide as long
    as tenants and bare ids do not contain the separator. *)
Lemma scoped_key_inj i1 t1 i2 t2 :
  (forall t, t1 = Some t -> separator_free t = true) ->
  (forall t, t2 = Some t -> separator_free t = true) ->
  (t1 = None -> separator_free i1 = true) -> (t2 = None -> separator_free i2 = true) ->
  scoped_key i1 t1 = scoped_key i2 t2 -> i1 = i2 /\ t1 = t2.
Proof.
  destruct t1 as [t1|], t2 as [t2|]; cbn; intros H1 H2 H3 H4 Heq.
  - destruct (separator_split t1 t2 i1 i2) as [-> ->]; auto.
  - specialize (H4 eq_refl). rewrite <-Heq, separator_free_app in H4. done.
  - specialize (H3 eq_refl). rewrite Heq, separator_free_app in H3. done.
  - done.
Qed.
