(* ===== verification/Json.v ===== *)
(** * JSON-shaped Python values

    The values that policies, tool arguments, descriptors and payloads are
    made of: what [json.loads] returns.  A [dict] is an insertion-ordered
    association list; numbers compare by value across [bool], [int] and
    [float] (a float is an exact rational), as Python's [==] does.  Text is a
    sequence of 8-bit code points. *)

From Stdlib Require Import Ascii.
From S2P Require Import Prelude.

#[warnings="-register-all"] Inductive json : Type :=
  | JNull
  | JBool (b : bool)
  | JInt (z : Z)
  | JFloat (q : Q)
  | JStr (s : string)
  | JList (l : list json)
  | JObj (d : list (string * json)).

Section json_ind.
Context (P : json -> Prop).
Context (Hnull : P JNull) (Hbool : forall b, P (JBool b)) (Hint : forall z, P (JInt z)).
Context (Hfloat : forall q, P (JFloat q)) (Hstr : forall s, P (JStr s)).
Context (Hlist : forall l, Forall P l -> P (JList l)).
Context (Hobj : forall d, Forall (fun kv => P kv.2) d -> P (JObj d)).

Fixpoint json_ind' (j : json) : P j :=
  match j with
  | JNull => Hnull
  | JBool b => Hbool b
  | JInt z => Hint z
  | JFloat q => Hfloat q
  | JStr s => Hstr s
  | JList l => Hlist l
      ((fix go (l : list json) : Forall P l :=
          match l with
          | [] => List.Forall_nil _
          | x :: l => List.Forall_cons _ _ _ (json_ind' x) (go l)
          end) l)
  | JObj d => Hobj d
      ((fix go (d : list (string * json)) : Forall (fun kv => P kv.2) d :=
          match d with
          | [] => List.Forall_nil _
          | kv :: d => List.Forall_cons _ _ _ (json_ind' kv.2) (go d)
          end) d)
  end.
End json_ind.

(** ** Equality, truth and membership *)

Definition as_number (j : json) : option Q :=
  match j with
  | JBool b => Some (if b then 1 else 0)%Q
  | JInt z => Some (inject_Z z)
  | JFloat q => Some q
  | _ => None
  end.

Definition num_eq (a b : json) : bool :=
  match as_number a, as_number b with
  | Some x, Some y => Qeq_bool x y
  | _, _ => false
  end.

(** [a == b] *)
Fixpoint py_eq (a b : json) {struct a} : bool :=
  match a with
  | JNull => match b with JNull => true | _ => false end
  | JStr s => match b with JStr t => String.eqb s t | _ => false end
  | JList l =>
      match b with
      | JList m =>
          (fix go (l m : list json) : bool :=
             match l, m with
             | [], [] => true
             | x :: l, y :: m => py_eq x y && go l m
             | _, _ => false
             end) l m
      | _ => false
      end
  | JObj d =>
      match b with
      | JObj e =>
          Nat.eqb (length d) (length e) &&
          forallb (fun kv => match dget kv.1 e with
                             | Some v => py_eq kv.2 v
                             | None => false
                             end) d
      | _ => false
      end
  | JBool _ | JInt _ | JFloat _ => num_eq a b
  end.

(** [bool(a)] *)
Definition py_truthy (j : json) : bool :=
  match j with
  | JNull => false
  | JBool b => b
  | JInt z => negb (Z.eqb z 0)
  | JFloat q => negb (Qeq_bool q 0)
  | JStr s => str_truthy s
  | JList l => negb (bool_decide (l = []))
  | JObj d => negb (bool_decide (d = []))
  end.

Definition str_contains (needle hay : string) : bool :=
  match String.index 0 needle hay with Some _ => true | None => false end.

(** [x in c]; [None] is the [TypeError] of a container that is not iterable,
    of a non-string looked up in a string, or of an unhashable dictionary key. *)
Definition py_in (x c : json) : option bool :=
  match c with
  | JList l => Some (existsb (fun y => py_eq y x) l)
  | JObj d =>
      match x with
      | JStr s => Some (dmem s d)
      | JList _ | JObj _ => None
      | _ => Some false
      end
  | JStr t => match x with JStr s => Some (str_contains s t) | _ => None end
  | _ => None
  end.

#[export] Instance json_nil_dec (l : list json) : Decision (l = []).
Proof. destruct l; [by left | by right]. Defined.
#[export] Instance json_dnil_dec (d : list (string * json)) : Decision (d = []).
Proof. destruct d; [by left | by right]. Defined.

(** A value is well formed when no dictionary in it repeats a key. *)
Fixpoint json_wf (j : json) : Prop :=
  match j with
  | JList l => foldr (fun x acc => json_wf x /\ acc) True l
  | JObj d => NoDup (dkeys d) /\ foldr (fun kv acc => json_wf kv.2 /\ acc) True d
  | _ => True
  end.

Definition json_str (j : json) : option string :=
  match j with JStr s => Some s | _ => None end.

(** [str(j)]: a string is itself, other values print as [py_str] says. *)
Definition py_text (py_str : json -> string) (j : json) : string :=
  match j with JStr s => s | _ => py_str j end.

Lemma num_eq_refl j q : as_number j = Some q -> num_eq j j = true.
Proof. intros H. unfold num_eq. rewrite H. apply Qeq_bool_iff. reflexivity. Qed.

Lemma foldr_and_Forall {A} (P : A -> Prop) (l : list A) :
  foldr (fun x acc => P x /\ acc) True l <-> Forall P l.
Proof. induction l as [|x l IH]; cbn; [done|]. by rewrite Forall_cons, IH. Qed.

Lemma py_eq_refl (j : json) : json_wf j -> py_eq j j = true.
Proof.
  induction j as [|b|z|q|s|l IH|d IH] using json_ind'; cbn; intros Hwf; try done.
  - exact (num_eq_refl (JBool b) _ eq_refl).
  - exact (num_eq_refl (JInt z) _ eq_refl).
  - exact (num_eq_refl (JFloat q) _ eq_refl).
  - apply String.eqb_refl.
  - apply (foldr_and_Forall json_wf) in Hwf. induction IH as [|x l Hx IH IHl]; [done|].
    rewrite Forall_cons in Hwf. destruct Hwf as [H1 H2]. by rewrite Hx, IHl.
  - destruct Hwf as [Hnd Hwf]. apply (foldr_and_Forall (fun kv => json_wf kv.2)) in Hwf.
    rewrite Nat.eqb_refl. apply forallb_elem. intros [k v] Hin; cbn.
    rewrite (elem_dget k v) by done. rewrite Forall_forall in IH, Hwf.
    apply (IH _ Hin), (Hwf _ Hin).
Qed.

(** Equality of scalars that are strings is equality of the strings. *)
Lemma py_eq_str (s t : string) : py_eq (JStr s) (JStr t) = true <-> s = t.
Proof. apply String.eqb_eq. Qed.

(** ** Canonical text *)

(** [json.dumps(d, sort_keys=True)]: objects with their keys in order. *)
Definition sort_items {A} (d : list (string * A)) : list (string * A) :=
  sort_by (fun a b => str_leb a.1 b.1) d.

Fixpoint sort_keys (j : json) : json :=
  match j with
  | JList l => JList (List.map sort_keys l)
  | JObj d => JObj (sort_items (List.map (fun kv => (kv.1, sort_keys kv.2)) d))
  | _ => j
  end.

Definition sorted_dict (d : list (string * json)) : list (string * json) :=
  match sort_keys (JObj d) with JObj d => d | _ => [] end.

Lemma sort_items_fmap {A B} (f : A -> B) (l : list (string * A)) :
  sort_items (prod_map id f <$> l) = prod_map id f <$> sort_items l.
Proof.
  unfold sort_items, sort_by. induction l as [|x l IH]; cbn; [done|].
  change (list_fmap _ _ (prod_map id f) l) with (prod_map id f <$> l). rewrite IH. clear IH.
  generalize (foldr (sinsert (fun a b : string * A => str_leb a.1 b.1)) [] l). intros k.
  induction k as [|y k IHk]; [done|]. cbn.
  change (str_leb (prod_map id f x).1 (prod_map id f y).1) with (str_leb x.1 y.1).
  destruct (str_leb x.1 y.1); [done|]. cbn. f_equal. exact IHk.
Qed.

Lemma sort_items_sorted {A} (d : list (string * A)) :
  StronglySorted (fun a b => str_leb a.1 b.1 = true) (sort_items d).
Proof. apply sort_by_sorted; intros; eauto with agents. Qed.

Lemma sort_keys_idemp j : sort_keys (sort_keys j) = sort_keys j.
Proof.
  induction j as [| | | | |l IH|d IH] using json_ind'; try done.
  - cbn. f_equal. rewrite List.map_map. apply List.map_ext_in. intros x Hx.
    rewrite Forall_forall in IH. by apply IH, list_elem_of_In.
  - assert (Hmap : forall d' : list (string * json), List.map (fun kv => (kv.1, sort_keys kv.2)) d' = prod_map (@id string) sort_keys <$> d')
      by (induction d' as [|[k v] d' IHd]; cbn; [done | by f_equal]).
    cbn. f_equal. rewrite (Hmap d), Hmap, (sort_items_fmap sort_keys d), <-list_fmap_compose.
    assert (prod_map (@id string) sort_keys ∘ prod_map (@id string) sort_keys <$> sort_items d =
            prod_map (@id string) sort_keys <$> sort_items d) as ->.
    { apply list_fmap_ext. intros i [k v] Hi. cbn. unfold prod_map; cbn. f_equal.
      apply list_elem_of_lookup_2, elem_of_sort_by in Hi.
      rewrite Forall_forall in IH. exact (IH _ Hi). }
    rewrite sort_items_fmap. f_equal. apply sort_by_id, sort_items_sorted.
Qed.

Lemma sorted_dict_json d : JObj (sorted_dict d) = sort_keys (JObj d).
Proof. done. Qed.

Lemma sorted_dict_idemp d : sorted_dict (sorted_dict d) = sorted_dict d.
Proof.
  pose proof (sort_keys_idemp (JObj d)) as H. rewrite <-(sorted_dict_json d) in H.
  rewrite <-(sorted_dict_json (sorted_dict d)) in H. by injection H.
Qed.

Lemma dmem_sorted_dict k d : dmem k (sorted_dict d) = dmem k d.
Proof.
  assert (Hp : dkeys (sorted_dict d) ≡ₚ dkeys d).
  { unfold dkeys. change (sorted_dict d) with (sort_items (List.map (fun kv => (kv.1, sort_keys kv.2)) d)).
    unfold sort_items. rewrite sort_by_perm. induction d as [|[k' j] d IH]; cbn; [done|]. by constructor. }
  unfold dmem, memb. apply bool_decide_ext. by rewrite Hp.
Qed.

(** ** Hexadecimal digests *)

Definition is_hex (c : Ascii.ascii) : bool :=
  let n := Ascii.N_of_ascii c in (N.leb 48 n && N.leb n 57) || (N.leb 97 n && N.leb n 102).


(** [^[0-9a-f]{64}$] *)
Definition is_hex64 (s : string) : bool :=
  Nat.eqb (String.length s) 64 && forallb is_hex (String.list_ascii_of_string s).

(** ** A concrete text of a value

    [json.dumps] and [json.loads] are parameters wherever a store keeps text;
    this pair shows that what is assumed of them can be met. *)

Abbreviation json_leaf := (Z + Z * positive + string)%type (only parsing).

Fixpoint to_tree (j : json) : gen_tree json_leaf :=
  match j with
  | JNull => GenNode 0 []
  | JBool b => GenNode (if b then 2 else 1) []
  | JInt z => GenNode 3 [GenLeaf (inl (inl z))]
  | JFloat q => GenNode 4 [GenLeaf (inl (inr (Qnum q, Qden q)))]
  | JStr s => GenNode 5 [GenLeaf (inr s)]
  | JList l => GenNode 6 (to_tree <$> l)
  | JObj d => GenNode 7 ((fun kv => GenNode 8 [GenLeaf (inr kv.1); to_tree kv.2]) <$> d)
  end.

Fixpoint of_tree (t : gen_tree json_leaf) : option json :=
  match t with
  | GenNode 0 [] => Some JNull
  | GenNode 1 [] => Some (JBool false)
  | GenNode 2 [] => Some (JBool true)
  | GenNode 3 [GenLeaf (inl (inl z))] => Some (JInt z)
  | GenNode 4 [GenLeaf (inl (inr (n, d)))] => Some (JFloat (Qmake n d))
  | GenNode 5 [GenLeaf (inr s)] => Some (JStr s)
  | GenNode 6 l => JList <$> mapM of_tree l
  | GenNode 7 l => JObj <$> mapM (fun t => match t with
                                          | GenNode 8 [GenLeaf (inr k); v] => pair k <$> of_tree v
                                          | _ => None
                                          end) l
  | _ => None
  end.

Lemma of_to_tree j : of_tree (to_tree j) = Some j.
Proof.
  induction j as [|[]| |[]| |l IH|d IH] using json_ind'; try done; cbn [to_tree of_tree].
  - rewrite mapM_roundtrip; [done|]. by apply Forall_forall.
  - rewrite mapM_roundtrip; [done|]. rewrite Forall_forall in IH. intros [k v] Hin.
    cbn [fst snd]. by rewrite (IH _ Hin : of_tree (to_tree v) = Some v).
Qed.

#[export] Instance json_eq_dec : EqDecision json.
Proof.
  refine (fun x y => cast_if (decide (to_tree x = to_tree y))); [|congruence].
  apply (inj Some). rewrite <-!of_to_tree. by f_equal.
Defined.

#[export] Instance json_countable : Countable json.
Proof. exact (inj_countable to_tree of_tree of_to_tree). Defined.

Fixpoint bit_text (p : positive) : string :=
  match p with
  | xH => EmptyString
  | xO p => String "0"%char (bit_text p)
  | xI p => String "1"%char (bit_text p)
  end.

Fixpoint text_bits (s : string) : positive :=
  match s with
  | EmptyString => xH
  | String c s => if Ascii.eqb c "0"%char then xO (text_bits s) else xI (text_bits s)
  end.

Lemma text_bits_text p : text_bits (bit_text p) = p.
Proof. induction p as [p IH|p IH|]; cbn; by rewrite ?IH. Qed.

Definition json_text (j : json) : string := bit_text (encode j).
Definition json_of_text (s : string) : option json := decode (text_bits s).

Lemma json_of_text_text j : json_of_text (json_text j) = Some j.
Proof. unfold json_of_text, json_text. by rewrite text_bits_text, decode_encode. Qed.
