(* ===== verification/Tables.v ===== *)
(** * Tables and grouping

    What the SQLite-backed stores share: a table with an AUTOINCREMENT id, rows
    ordered by a time and the id, retention and eviction of the oldest rows; and
    the two ways the code groups records by a key, a dictionary filled in a loop
    and [GROUP BY ... ORDER BY], with the theorem that they agree.  No code of the
    program is here: these are the operations of Python and SQL it uses. *)

From S2P Require Import Prelude.

(** ** Grouping *)

Section grouping.
Context {K A B : Type} `{EqDecision K}.
Context (key : A -> K) (upd : B -> A -> B) (init : B).

(** [for r in l: d[key(r)] = upd(d.get(key(r), init), r)] *)
Definition group_fold (l : list A) : list (K * B) :=
  foldl (fun d r => dset (key r) (upd (default init (dget (key r) d)) r) d) [] l.

Definition of_group (k : K) (l : list A) : list A := filterb (fun r => bool_decide (key r = k)) l.

(** [SELECT key, f(...) ... GROUP BY key ORDER BY key] *)
Definition group_by (le : K -> K -> bool) (f : list A -> B) (l : list A) : list (K * B) :=
  (fun k => (k, f (of_group k l))) <$> sort_by le (remove_dups (key <$> l)).

Lemma of_group_app k l1 l2 : of_group k (l1 ++ l2) = of_group k l1 ++ of_group k l2.
Proof. apply List.filter_app. Qed.

Lemma of_group_nonempty k l : k ∈ key <$> l -> of_group k l <> [].
Proof.
  intros (r & -> & Hr)%list_elem_of_fmap Hnil. assert (Hin : r ∈ of_group (key r) l); [|by rewrite Hnil in Hin; apply elem_of_nil in Hin].
  apply elem_of_filterb. split; [done | by apply bool_decide_eq_true].
Qed.

Lemma NoDup_group_fold l : NoDup (dkeys (group_fold l)).
Proof. apply (foldl_invariant (fun d => NoDup (dkeys d))); [apply NoDup_nil_2|]. intros d r. by apply NoDup_dset. Qed.

Lemma dget_group_fold k l :
  dget k (group_fold l) = if decide (k ∈ key <$> l) then Some (foldl upd init (of_group k l)) else None.
Proof.
  induction l as [|r l IH] using rev_ind; [done|]. unfold group_fold in *. rewrite foldl_app. cbn [foldl].
  set (d := foldl _ [] l) in *. rewrite dget_dset, of_group_app, fmap_app. cbn [of_group List.filter].
  destruct (decide (k = key r)) as [->|Hne].
  - rewrite decide_True by (apply elem_of_app; right; left). rewrite bool_decide_true, foldl_app by done. cbn. do 2 f_equal.
    rewrite IH. case_decide as Hin; [done|]. cbn.
    assert (of_group (key r) l = []) as ->; [|done]. apply filterb_none. intros x Hx.
    apply bool_decide_eq_false. intros He. apply Hin, list_elem_of_fmap. by exists x.
  - rewrite bool_decide_false, app_nil_r by congruence. rewrite IH. apply decide_ext.
    rewrite elem_of_app. cbn. rewrite elem_of_cons, elem_of_nil. tauto.
Qed.

Context (le : K -> K -> bool).
Context (le_total : forall x y, le x y = true \/ le y x = true).
Context (le_trans : forall x y z, le x y = true -> le y z = true -> le x z = true).
Context (le_anti : forall x y, le x y = true -> le y x = true -> x = y).

(** Sorting the items of the dictionary gives the rows of the query. *)
Lemma sort_group_fold f l :
  (forall k, k ∈ key <$> l -> f (of_group k l) = foldl upd init (of_group k l)) ->
  sort_by (fun a b => le a.1 b.1) (group_fold l) = group_by le f l.
Proof.
  intros Hf. unfold group_by. apply (sorted_perm_eq (fun a b : K * B => le a.1 b.1)).
  - intros [k v] [k' v'] H H' H1 H2. rewrite elem_of_sort_by in H, H'. cbn in *.
    assert (k = k') as -> by by apply le_anti. f_equal.
    apply (elem_dget k') in H; [|apply NoDup_group_fold]. apply (elem_dget k') in H'; [|apply NoDup_group_fold]. congruence.
  - apply sort_by_sorted; intros; [apply le_total | by eapply le_trans].
  - apply sorted_fmap. apply sort_by_sorted; [done..].
  - rewrite sort_by_perm. apply NoDup_Permutation.
    + eapply NoDup_fmap_1, NoDup_group_fold.
    + apply NoDup_fmap; [by intros ? ? [= ->]|]. rewrite sort_by_perm. apply NoDup_remove_dups.
    + intros [k v]. rewrite (list_elem_of_fmap (fun k => (k, f (of_group k l)))). setoid_rewrite elem_of_sort_by. setoid_rewrite elem_of_remove_dups.
      split.
      * intros H%elem_dget; [|apply NoDup_group_fold]. rewrite dget_group_fold in H. case_decide as Hk; [|done].
        injection H as <-. exists k. split; [by rewrite Hf | done].
      * intros (k' & [= -> ->] & Hk). apply dget_elem. rewrite dget_group_fold, decide_True by done. by rewrite Hf.
Qed.
End grouping.

#[export] Instance of_group_perm {K A} `{EqDecision K} (key : A -> K) k : Proper ((≡ₚ) ==> (≡ₚ)) (of_group key k).
Proof. intros l1 l2 Hp. unfold of_group. by rewrite Hp. Qed.

(** A permutation of the table gives the same rows when the aggregate does not
    depend on the order. *)
Lemma group_by_perm {K A B} `{EqDecision K} (key : A -> K) (le : K -> K -> bool) (f g : list A -> B) l1 l2 :
  (forall x y, le x y = true \/ le y x = true) ->
  (forall x y z, le x y = true -> le y z = true -> le x z = true) ->
  (forall x y, le x y = true -> le y x = true -> x = y) ->
  l1 ≡ₚ l2 -> (forall k, k ∈ key <$> l1 -> f (of_group key k l1) = g (of_group key k l2)) ->
  group_by key le f l1 = group_by key le g l2.
Proof.
  intros Ht Htr Ha Hp Hf. unfold group_by.
  assert (sort_by le (remove_dups (key <$> l2)) = sort_by le (remove_dups (key <$> l1))) as ->.
  { apply sort_by_unique; [exact Ht | exact Htr | intros ? ? _ _; apply Ha|]. apply NoDup_Permutation; [apply NoDup_remove_dups..|].
    intros k. rewrite !elem_of_remove_dups. by rewrite Hp. }
  apply list_fmap_ext. intros i k Hk. cbn. rewrite Hf; [done|].
  apply list_elem_of_lookup_2 in Hk. rewrite elem_of_sort_by, elem_of_remove_dups in Hk. exact Hk.
Qed.

(** ** Tables *)

Record table (A : Type) : Type := { rows : list (Z * A); seq : Z }.
Arguments rows {A} t.
Arguments seq {A} t.

Section table.
Context {A : Type} (when_ : A -> Q).
Implicit Types (t : table A) (r : Z * A).

Definition empty_table : table A := {| rows := []; seq := 0 |}.

Definition insert_row t (a : A) : table A := {| rows := rows t ++ [((seq t + 1)%Z, a)]; seq := (seq t + 1)%Z |}.
Definition insert_rows t (l : list A) : table A := foldl insert_row t l.

(** [ORDER BY when, id] *)
Definition older r r' : bool :=
  (when_ r.2 <? when_ r'.2)%clock || ((when_ r.2 <=? when_ r'.2)%clock && Z.leb r.1 r'.1).
Definition newer r r' : bool := older r' r.

(** [DELETE WHERE when < cutoff] *)
Definition expire (cutoff : Q) t : table A :=
  {| rows := filterb (fun r => negb (when_ r.2 <? cutoff)%clock) (rows t); seq := seq t |}.

(** [DELETE WHERE id IN (SELECT id ORDER BY when, id LIMIT MAX(0, COUNT - max))] *)
Definition victims (max : nat) t : list Z := (take (length (rows t) - max) (sort_by older (rows t))).*1.
Definition evict (max : nat) t : table A :=
  {| rows := filterb (fun r => negb (memb r.1 (victims max t))) (rows t); seq := seq t |}.

(** Ids are ascending and used up to [seq]. *)
Definition table_ok t : Prop := StronglySorted Z.lt (rows t).*1 /\ Forall (fun i => (i <= seq t)%Z) (rows t).*1.

Lemma sorted_snoc {B} (R : B -> B -> Prop) l x : StronglySorted R l -> Forall (fun y => R y x) l -> StronglySorted R (l ++ [x]).
Proof.
  induction 1 as [|y l Hl IH Hy]; cbn; intros Hx; [repeat constructor|]. apply Forall_cons in Hx as [H1 H2].
  constructor; [by apply IH|]. apply Forall_app. split; [done | by constructor].
Qed.

Lemma table_ok_empty : table_ok empty_table.
Proof. split; constructor. Qed.

Lemma table_ok_insert t a : table_ok t -> table_ok (insert_row t a).
Proof.
  intros [Hs Hq]. unfold table_ok, insert_row. cbn. rewrite fmap_app. split.
  - apply sorted_snoc; [done|]. eapply Forall_impl; [exact Hq|]. cbn. lia.
  - apply Forall_app. split; [|constructor; cbn; [lia | constructor]]. eapply Forall_impl; [exact Hq|]. cbn. lia.
Qed.

Lemma table_ok_inserts t l : table_ok t -> table_ok (insert_rows t l).
Proof. intros Ht. apply (foldl_invariant table_ok); [done|]. intros. by apply table_ok_insert. Qed.

Lemma table_ok_filter t f : table_ok t -> table_ok {| rows := filterb f (rows t); seq := seq t |}.
Proof.
  intros [Hs Hq]. unfold table_ok. cbn. split.
  - apply sorted_fmap. apply sorted_filterb. by apply (sorted_fmap fst).
  - rewrite Forall_fmap in Hq |- *. rewrite Forall_forall in Hq |- *. intros r [Hr _]%elem_of_filterb. by apply Hq.
Qed.

Lemma table_ok_expire c t : table_ok t -> table_ok (expire c t).
Proof. apply table_ok_filter. Qed.
Lemma table_ok_evict n t : table_ok t -> table_ok (evict n t).
Proof. apply table_ok_filter. Qed.

Lemma insert_rows_eq t l : (rows (insert_rows t l)).*2 = (rows t).*2 ++ l.
Proof.
  unfold insert_rows. revert t. induction l as [|a l IH]; intros t; cbn [foldl]; [by rewrite app_nil_r|].
  rewrite IH. cbn. rewrite fmap_app. cbn. by rewrite <-app_assoc.
Qed.

Lemma table_ok_NoDup t : table_ok t -> NoDup (rows t).*1.
Proof.
  intros [Hs _]. induction Hs as [|i l Hl IH Hi]; [apply NoDup_nil_2|]. apply NoDup_cons. split; [|done].
  intros Hin. rewrite Forall_forall in Hi. specialize (Hi i Hin). lia.
Qed.

Lemma older_total r r' : older r r' = true \/ older r' r = true.
Proof.
  unfold older. destruct (Z.leb_spec r.1 r'.1), (Z.leb_spec r'.1 r.1); rewrite ?andb_true_r, ?andb_false_r, !orb_true_iff; try lia;
  destruct (Q_dec (when_ r.2) (when_ r'.2)) as [[H'|H']|H']; clock_prop;
  first [left; left; clock_lra | right; left; clock_lra | left; right; clock_lra | right; right; clock_lra].
Qed.

Lemma older_spec r r' :
  older r r' = true <-> (when_ r.2 < when_ r'.2)%Q \/ ((when_ r.2 == when_ r'.2)%Q /\ (r.1 <= r'.1)%Z).
Proof.
  unfold older. rewrite orb_true_iff, andb_true_iff, Z.leb_le, qltb_true, qleb_true. split.
  - intros [?|[? ?]]; [by left|]. destruct (Q_dec (when_ r.2) (when_ r'.2)) as [[?|?]|?]; [by left | lra | by right].
  - intros [?|[? ?]]; [by left | right; split; [lra | done]].
Qed.

Lemma older_trans r1 r2 r3 : older r1 r2 = true -> older r2 r3 = true -> older r1 r3 = true.
Proof. rewrite !older_spec. intros [?|[? ?]] [?|[? ?]]; first [left; lra | right; split; [lra | lia]]. Qed.

Lemma older_anti_id r r' : older r r' = true -> older r' r = true -> r.1 = r'.1.
Proof. rewrite !older_spec. intros [?|[? ?]] [?|[? ?]]; (lra || lia). Qed.

(** With ascending ids the id only keeps the order of insertion: the query is a
    stable sort by time. *)
Lemma sort_older_stable (l : list (Z * A)) :
  StronglySorted Z.lt l.*1 -> (sort_by older l).*2 = sort_by (fun a b => when_ a <=? when_ b)%clock l.*2.
Proof.
  induction l as [|r l IH]; [done|]. cbn. intros [Hl Hr]%StronglySorted_inv. change (foldr (sinsert older) [] l) with (sort_by older l).
  change (foldr _ [] (snd <$> l)) with (sort_by (fun a b => when_ a <=? when_ b)%clock l.*2). rewrite <-(IH Hl). clear IH. assert (Hgt : forall r', r' ∈ sort_by older l -> (r.1 < r'.1)%Z).
  { intros r' Hr'%elem_of_sort_by. rewrite Forall_fmap, Forall_forall in Hr. by apply Hr. }
  revert Hgt. generalize (sort_by older l). intros k. induction k as [|r' k IHk]; intros Hgt; [done|]. cbn.
  assert (older r r' = (when_ r.2 <=? when_ r'.2)%clock) as ->.
  { apply eq_true_iff_eq. rewrite older_spec, qleb_true. specialize (Hgt r' ltac:(left)). split; [intros [?|[? ?]]; lra|].
    intros Hle. destruct (Q_dec (when_ r.2) (when_ r'.2)) as [[?|?]|?]; [by left | lra | right; split; [done | lia]]. }
  destruct (_ <=? _)%clock; [done|]. cbn. f_equal. apply IHk. intros x Hx. apply Hgt. by right.
Qed.

Lemma sorted_reverse {B} (R : B -> B -> Prop) l : StronglySorted R l -> StronglySorted (flip R) (reverse l).
Proof.
  induction 1 as [|x l Hl IH Hx]; [constructor|]. rewrite reverse_cons. apply sorted_snoc; [done|].
  by rewrite reverse_Permutation.
Qed.

(** Rows inserted in the order of their times are in order already, and newest
    first is their reverse. *)
Lemma sort_newer_reverse (l : list (Z * A)) :
  StronglySorted Z.lt l.*1 -> StronglySorted (fun a b => when_ a <= when_ b)%Q l.*2 -> sort_by newer l = reverse l.
Proof.
  intros Hi Ht. assert (Hs : StronglySorted (fun r r' => older r r' = true) l).
  { induction l as [|r l IH]; [constructor|]. cbn in *. apply StronglySorted_inv in Hi as [Hi Hri], Ht as [Ht Hrt].
    constructor; [by apply IH|]. change (Forall (fun b => when_ r.2 <= when_ b)%Q (snd <$> l)) in Hrt.
    rewrite Forall_fmap, Forall_forall in Hri. rewrite Forall_fmap, Forall_forall in Hrt. apply Forall_forall. intros r' Hr'.
    specialize (Hri r' Hr'). specialize (Hrt r' Hr'). cbn in Hri, Hrt. apply older_spec.
    destruct (Q_dec (when_ r.2) (when_ r'.2)) as [[?|?]|?]; [by left | lra | right; split; [done | lia]]. }
  assert (Hnd : forall r r', r ∈ l -> r' ∈ l -> r.1 = r'.1 -> r = r').
  { clear Ht Hs. induction l as [|r0 l IH]; [by intros ? ? ?%elem_of_nil|]. cbn in Hi. apply StronglySorted_inv in Hi as [Hi Hr0].
    rewrite Forall_fmap, Forall_forall in Hr0. intros r r' [->|Hr]%elem_of_cons [->|Hr']%elem_of_cons He; [done|..].
    - specialize (Hr0 r' Hr'). cbn in Hr0. lia.
    - specialize (Hr0 r Hr). cbn in Hr0. lia.
    - by apply IH. }
  apply (sorted_perm_eq newer).
  - intros r r'. rewrite !elem_of_sort_by. intros Hr Hr' H1 H2. apply Hnd; [done..|]. by apply older_anti_id.
  - apply sort_by_sorted; unfold newer; intros; [apply older_total | by eapply older_trans].
  - apply (sorted_reverse (fun r r' => older r r' = true)). done.
  - by rewrite sort_by_perm, reverse_Permutation.
Qed.

(** *** Retention *)

Lemma evict_length n t : table_ok t -> length (rows (evict n t)) <= n.
Proof.
  intros Ht. unfold evict, victims. cbn. set (gone := take _ _). pose proof (table_ok_NoDup t Ht) as Hnd.
  assert (Hp : gone ++ drop (length (rows t) - n) (sort_by older (rows t)) ≡ₚ rows t)
    by (unfold gone; by rewrite take_drop, sort_by_perm).
  rewrite <-Hp in Hnd |- *. rewrite List.filter_app, length_app.
  rewrite (filterb_none _ gone).
  - assert (Hl : forall l : list (Z * A), length (filterb (fun r => negb (memb r.1 gone.*1)) l) <= length l)
      by (intros l; apply sublist_length, filterb_sublist).
    cbn. etransitivity; [apply Hl|]. rewrite length_drop. assert (length (sort_by older (rows t)) = length (rows t)) as -> by by rewrite sort_by_perm. lia.
  - intros r Hr. apply negb_false_iff, memb_true, list_elem_of_fmap. by exists r.
Qed.

Lemma evict_id n t : length (rows t) <= n -> evict n t = t.
Proof.
  intros Hl. unfold evict, victims. assert (length (rows t) - n = 0) as -> by lia. cbn. destruct t as [rs sq]. cbn. f_equal.
  by apply filterb_all.
Qed.

Lemma expire_id c t : (forall r, r ∈ rows t -> (c <= when_ r.2)%Q) -> expire c t = t.
Proof.
  intros H. unfold expire. destruct t as [rs sq]. cbn in *. f_equal. apply filterb_all. intros r Hr.
  specialize (H r Hr). apply negb_true_iff. clock_lra.
Qed.

(** Whatever is evicted for want of room is at least as old as what is kept. *)
Lemma evict_oldest n t r r' :
  table_ok t -> r ∈ rows t -> r ∉ rows (evict n t) -> r' ∈ rows (evict n t) -> older r r' = true.
Proof.
  intros Ht Hr Hgone [Hr' Hkept]%elem_of_filterb. apply negb_true_iff, memb_false in Hkept.
  assert (Hv : r.1 ∈ victims n t).
  { destruct (decide (r.1 ∈ victims n t)) as [|Hn]; [done|]. exfalso. apply Hgone, elem_of_filterb.
    split; [done|]. by apply negb_true_iff, memb_false. }
  assert (Hin' : r' ∈ drop (length (rows t) - n) (sort_by older (rows t))).
  { apply (elem_of_sort_by older) in Hr'. rewrite <-(take_drop (length (rows t) - n) (sort_by older (rows t))) in Hr'.
    apply elem_of_app in Hr' as [H|H]; [|done]. exfalso. apply Hkept, list_elem_of_fmap. by exists r'. }
  apply list_elem_of_fmap in Hv as (r0 & He & Hin0).
  assert (r0 = r) as ->.
  { pose proof (table_ok_NoDup t Ht) as Hnd. assert (Hr0 : r0 ∈ rows t).
    { apply (elem_of_sort_by older). by eapply elem_of_take in Hin0 as (i & Hi & _); eapply list_elem_of_lookup_2. }
    destruct r as [i a], r0 as [i0 a0]. cbn in He. subst i0. f_equal.
    apply (elem_dget i) in Hr; [|done]. apply (elem_dget i) in Hr0; [|done]. congruence. }
  assert (Hs : StronglySorted (fun x y => older x y = true) (sort_by older (rows t)))
    by (apply sort_by_sorted; intros; [apply older_total | by eapply older_trans]).
  rewrite <-(take_drop (length (rows t) - n) (sort_by older (rows t))) in Hs.
  revert Hs Hin0 Hin'. generalize (drop (length (rows t) - n) (sort_by older (rows t))).
  generalize (take (length (rows t) - n) (sort_by older (rows t))). intros l1 l2. induction l1 as [|x l1 IH]; [by intros _ ?%elem_of_nil|].
  cbn. intros [Hs Hx]%StronglySorted_inv [->|Hin]%elem_of_cons Hin'; [|by apply IH].
  rewrite Forall_forall in Hx. apply Hx, elem_of_app. by right.
Qed.

(** Retention: first by age, then by number. *)
Definition bound (cutoff : Q) (max : nat) t : table A := evict max (expire cutoff t).

(** What retention leaves: at most [max] rows, none of them expired, and a row
    that is gone was expired or, the table being full, not newer than any row
    that stays. *)
Definition newest_kept (cutoff : Q) (max : nat) (before after : table A) : Prop :=
  length (rows after) <= max /\
  (forall r, r ∈ rows after -> r ∈ rows before /\ (cutoff <= when_ r.2)%Q) /\
  (forall r, r ∈ rows before -> r ∉ rows after ->
     (when_ r.2 < cutoff)%Q \/ (length (rows after) = max /\ forall r', r' ∈ rows after -> older r r' = true)).

Lemma evict_full n t r : table_ok t -> r ∈ rows t -> r ∉ rows (evict n t) -> n <= length (rows (evict n t)).
Proof.
  intros Ht Hr Hgone. pose proof (table_ok_NoDup t Ht) as Hnd.
  assert (Hpart : rows t ⊆+ rows (evict n t) ++ take (length (rows t) - n) (sort_by older (rows t))).
  { apply NoDup_submseteq; [by eapply NoDup_fmap_1|]. intros x Hx. apply elem_of_app.
    destruct (decide (x.1 ∈ victims n t)) as [Hv|Hv].
    - right. apply list_elem_of_fmap in Hv as (y & He & Hy). assert (x = y) as ->; [|done].
      assert (Hyt : y ∈ rows t).
      { apply (elem_of_sort_by older). apply elem_of_take in Hy as (i & Hi & _). by eapply list_elem_of_lookup_2. }
      destruct x as [k x], y as [k' y]. cbn in He. subst k'. f_equal.
      apply (elem_dget k) in Hx; [|done]. apply (elem_dget k) in Hyt; [|done]. congruence.
    - left. apply elem_of_filterb. split; [done|]. by apply negb_true_iff, memb_false. }
  apply submseteq_length in Hpart. rewrite length_app, length_take in Hpart.
  destruct (decide (length (rows t) <= n)) as [Hle|]; [by rewrite evict_id in Hgone|]. lia.
Qed.

Lemma bound_newest cutoff max t : table_ok t -> newest_kept cutoff max t (bound cutoff max t).
Proof.
  intros Ht. pose proof (table_ok_expire cutoff t Ht) as He. unfold newest_kept, bound. split_and!.
  - by apply evict_length.
  - intros r [Hr _]%elem_of_filterb. apply elem_of_filterb in Hr as [Hr Hc]. split; [done|].
    apply negb_true_iff in Hc. clock_lra.
  - intros r Hr Hgone. destruct (when_ r.2 <? cutoff)%clock eqn:Ec; [left; by apply qltb_true|]. right.
    assert (Hin : r ∈ rows (expire cutoff t)) by (apply elem_of_filterb; by rewrite Ec).
    split; [|intros r' Hr'; by eapply evict_oldest].
    pose proof (evict_length max _ He). pose proof (evict_full max _ r He Hin Hgone). lia.
Qed.

Lemma bound_id cutoff max t :
  (forall r, r ∈ rows t -> (cutoff <= when_ r.2)%Q) -> length (rows t) <= max -> bound cutoff max t = t.
Proof. intros Hc Hl. unfold bound. rewrite expire_id by done. by apply evict_id. Qed.

Lemma table_ok_bound cutoff max t : table_ok t -> table_ok (bound cutoff max t).
Proof. intros. by apply table_ok_evict, table_ok_expire. Qed.
End table.
Arguments empty_table {A}.
