(* ===== verification/Urls.v ===== *)
(** * URLs

    What the program uses of [urllib.parse]: the parts that [urlsplit] gives, as a
    record, and percent-encoding with [quote], which never maps two texts to one. *)

From Stdlib Require Import Ascii.
From S2P Require Import Prelude.
Local Open Scope string_scope.

Module Urls.

(** The parts of a URL. *)
Record url : Type := {
  scheme : string; netloc : string; path : string; url_query : string; fragment : string;
  username : option string; password : option string; hostname : option string
}.

Definition is_http (s : string) : bool := memb s ["http"; "https"].

(** An absolute URL without credentials, query or fragment. *)
Definition plain_endpoint (u : url) : bool :=
  is_http (scheme u) && str_truthy (netloc u) && bool_decide (username u = None) && bool_decide (password u = None) &&
  negb (str_truthy (url_query u)) && negb (str_truthy (fragment u)).

(** ** Characters that a text lacks *)

Fixpoint lacks (c : ascii) (s : string) : bool :=
  match s with EmptyString => true | String d s => negb (Ascii.eqb d c) && lacks c s end.

Lemma lacks_app sep s t : lacks sep (s ++ t) = lacks sep s && lacks sep t.
Proof. induction s as [|c s IH]; [done|]. rewrite string_app_cons. cbn [lacks]. by rewrite IH, andb_assoc. Qed.

Lemma separator_free_lacks s : separator_free s = lacks unit_separator s.
Proof. induction s as [|c s IH]; cbn; by rewrite ?IH. Qed.

(** A text up to a separator that it lacks. *)
Lemma lacks_split sep a b x y :
  lacks sep a = true -> lacks sep b = true -> (a ++ String sep x = b ++ String sep y)%string -> a = b /\ x = y.
Proof.
  revert b. induction a as [|c a IH]; intros [|d b]; rewrite ?string_app_cons; cbn [lacks]; intros Ha Hb.
  - by intros [= ->].
  - intros [= <- _]. by rewrite Ascii.eqb_refl in Hb.
  - intros [= -> _]. by rewrite Ascii.eqb_refl in Ha.
  - apply andb_prop in Ha as [_ Ha], Hb as [_ Hb]. intros [= <- H]. by destruct (IH b Ha Hb H) as [-> ->].
Qed.

(** Of two words with a common extension one begins the other. *)
Lemma prefix_compare a b x y : (a ++ x = b ++ y)%string -> String.prefix a b = true \/ String.prefix b a = true.
Proof.
  revert b. induction a as [|c a IH]; intros [|d b]; try (by left); try (by right).
  rewrite !string_app_cons. intros [= <- H]. cbn [String.prefix]. destruct (Ascii.ascii_dec c c) as [_|n]; [by apply IH | by destruct n].
Qed.

Lemma append_inj_l a x y : (a ++ x = a ++ y)%string -> x = y.
Proof. induction a as [|c a IH]; [done|]. rewrite !string_app_cons. intros [= H]. by apply IH. Qed.

Definition all_ascii : list ascii := ascii_of_nat <$> seq 0 256.

Lemma elem_all_ascii c : c ∈ all_ascii.
Proof.
  apply list_elem_of_fmap. exists (nat_of_ascii c). split; [symmetry; apply ascii_nat_embedding|].
  apply elem_of_seq. pose proof (nat_ascii_bounded c). lia.
Qed.

Lemma all_ascii_forall (f : ascii -> bool) : forallb f all_ascii = true -> forall c, f c = true.
Proof. intros H c. eapply forallb_elem in H; [exact H | apply elem_all_ascii]. Qed.

(** ** [quote]

    The bytes of the UTF-8 encoding, the unreserved ones and those in [safe] as they
    are and the others as [%XX]. *)

Section quote.
Context (safe : string).

Definition unreserved (n : N) : bool :=
  ((48 <=? n) && (n <=? 57) || (65 <=? n) && (n <=? 90) || (97 <=? n) && (n <=? 122) ||
   (n =? 45) || (n =? 46) || (n =? 95) || (n =? 126))%N.

Definition hex_digit (n : N) : ascii := ascii_of_N (if (n <? 10)%N then n + 48 else n + 55).

Definition quote_byte (n : N) : string :=
  if unreserved n || negb (lacks (ascii_of_N n) safe) then String (ascii_of_N n) EmptyString
  else String "%" (String (hex_digit (n / 16)) (String (hex_digit (n mod 16)) EmptyString)).

(** A code point below 256 takes one byte or two. *)
Definition quote_char (c : ascii) : string :=
  let n := N_of_ascii c in
  if (n <? 128)%N then quote_byte n else (quote_byte (192 + n / 64) ++ quote_byte (128 + n mod 64))%string.

Fixpoint quote (s : string) : string :=
  match s with EmptyString => EmptyString | String c s => (quote_char c ++ quote s)%string end.

(** No code is empty or the beginning of another. *)
Definition prefix_free : bool :=
  forallb (fun c => str_truthy (quote_char c) &&
                    forallb (fun d => negb (String.prefix (quote_char c) (quote_char d)) || Ascii.eqb c d) all_ascii) all_ascii.

Lemma quote_lacks sep s : forallb (fun c => lacks sep (quote_char c)) all_ascii = true -> lacks sep (quote s) = true.
Proof.
  intros Ha. induction s as [|c s IH]; [done|]. cbn [quote]. rewrite lacks_app, IH, andb_true_r.
  apply (all_ascii_forall (fun c => lacks sep (quote_char c))). exact Ha.
Qed.

Lemma quote_inj s t : prefix_free = true -> quote s = quote t -> s = t.
Proof.
  intros Ha. pose proof (all_ascii_forall _ Ha) as Hc. cbn beta in Hc.
  assert (Hne : forall c s, quote_char c ++ s <> "").
  { intros c s0. specialize (Hc c). apply andb_prop in Hc as [Hc _]. destruct (quote_char c); [done|]. by rewrite string_app_cons. }
  assert (Hp : forall c d, String.prefix (quote_char c) (quote_char d) = true -> c = d).
  { intros c d H. specialize (Hc c). apply andb_prop in Hc as [_ Hc]. pose proof (all_ascii_forall _ Hc d) as Hd. cbn beta in Hd.
    rewrite H in Hd. by apply Ascii.eqb_eq. }
  revert t. induction s as [|c s IH]; intros [|d t]; cbn [quote].
  - done.
  - intros H. symmetry in H. by apply Hne in H.
  - intros H. by apply Hne in H.
  - intros H. assert (c = d) as <-. { destruct (prefix_compare _ _ _ _ H) as [H'|H']; apply Hp in H'; done. }
    apply append_inj_l in H. by rewrite (IH t H).
Qed.
End quote.

Lemma prefix_free_all : prefix_free "" = true.
Proof. vm_compute. reflexivity. Qed.
Lemma prefix_free_slash : prefix_free "/" = true.
Proof. vm_compute. reflexivity. Qed.

(** The two ways in which the program quotes: nothing safe, and slashes. *)
Lemma quote_all_inj s t : quote "" s = quote "" t -> s = t.
Proof. exact (quote_inj "" s t prefix_free_all). Qed.
Lemma quote_path_inj s t : quote "/" s = quote "/" t -> s = t.
Proof. exact (quote_inj "/" s t prefix_free_slash). Qed.

End Urls.
