(* ===== verification/Fnmatch.v ===== *)
(** * Shell-style patterns: [fnmatch.fnmatchcase]

    The policy rules of [micro_agent/security/policy.py] match resources and
    condition values with [fnmatchcase(name, pattern)] of Python's standard
    library: [*], [?] and bracket classes with ranges and [!]. *)

From S2P Require Import Prelude.
From Stdlib Require Import Ascii.

Module Fnmatch.

Inductive class_item : Type :=
  | Single (c : ascii)
  | Range (lo hi : ascii).

Inductive token : Type :=
  | Star
  | AnyChar
  | Lit (c : ascii)
  | Class (neg : bool) (items : list class_item).

Definition ascii_leb (a b : ascii) : bool := N.leb (N_of_ascii a) (N_of_ascii b).

Fixpoint class_items (s : list ascii) : list class_item :=
  match s with
  | [] => []
  | c :: s' =>
      match s' with
      | h :: d :: rest =>
          if Ascii.eqb h "-" then Range c d :: class_items rest else Single c :: class_items s'
      | _ => Single c :: class_items s'
      end
  end.

(** Leading ranges whose ends are reversed vanish from the class text before
    the library looks for the [!] that negates it. *)
Fixpoint drop_empty_ranges (s : list ascii) : list ascii :=
  match s with
  | c :: h :: d :: rest =>
      if Ascii.eqb h "-" && negb (ascii_leb c d) then drop_empty_ranges rest else s
  | _ => s
  end.

Definition negated (s : list ascii) : option (list ascii) :=
  match s with
  | c :: s' => if Ascii.eqb c "!" then Some s' else None
  | [] => None
  end.

Definition class_of (s : list ascii) : token :=
  match negated s with
  | Some s' => Class true (class_items s')
  | None =>
      let s := drop_empty_ranges s in
      match negated s with
      | Some s' => Class true (class_items s')
      | None => Class false (class_items s)
      end
  end.

(** The text up to the next closing bracket and what follows it. *)
Fixpoint until_close (s : list ascii) : option (list ascii * list ascii) :=
  match s with
  | [] => None
  | c :: s' =>
      if Ascii.eqb c "]" then Some ([], s')
      else match until_close s' with Some (a, b) => Some (c :: a, b) | None => None end
  end.

(** A closing bracket right after the opening one (or its [!]) is literal. *)
Definition bracket_after (pre s : list ascii) : option (list ascii * list ascii) :=
  match s with
  | [] => None
  | c :: s' =>
      if Ascii.eqb c "]"
      then match until_close s' with Some (a, b) => Some (pre ++ c :: a, b) | None => None end
      else match until_close s with Some (a, b) => Some (pre ++ a, b) | None => None end
  end.

Definition bracket (s : list ascii) : option (list ascii * list ascii) :=
  match s with
  | c :: s' => if Ascii.eqb c "!" then bracket_after [c] s' else bracket_after [] s
  | [] => None
  end.

Fixpoint tokenize (fuel : nat) (s : list ascii) : list token :=
  match fuel, s with
  | 0, _ | _, [] => []
  | S fuel, c :: s' =>
      if Ascii.eqb c "*" then Star :: tokenize fuel s'
      else if Ascii.eqb c "?" then AnyChar :: tokenize fuel s'
      else if Ascii.eqb c "[" then
        match bracket s' with
        | Some (content, rest) => class_of content :: tokenize fuel rest
        | None => Lit c :: tokenize fuel s'
        end
      else Lit c :: tokenize fuel s'
  end.

Definition item_matches (c : ascii) (i : class_item) : bool :=
  match i with
  | Single d => Ascii.eqb c d
  | Range lo hi => ascii_leb lo c && ascii_leb c hi
  end.

Definition char_matches (t : token) (c : ascii) : bool :=
  match t with
  | Star | AnyChar => true
  | Lit d => Ascii.eqb c d
  | Class neg items => xorb neg (existsb (item_matches c) items)
  end.

Fixpoint tokens_match (ts : list token) (s : list ascii) {struct ts} : bool :=
  match ts with
  | [] => match s with [] => true | _ => false end
  | Star :: ts' =>
      (fix star (s : list ascii) : bool :=
         tokens_match ts' s || match s with [] => false | _ :: s' => star s' end) s
  | t :: ts' =>
      match s with
      | [] => false
      | c :: s' => char_matches t c && tokens_match ts' s'
      end
  end.

Definition pattern_tokens (pattern : string) : list token :=
  let s := String.list_ascii_of_string pattern in tokenize (length s) s.

Definition fnmatchcase (name pattern : string) : bool :=
  tokens_match (pattern_tokens pattern) (String.list_ascii_of_string name).

(** ** Reference semantics: which texts a token list denotes *)

Inductive denotes : list token -> list ascii -> Prop :=
  | denotes_nil : denotes [] []
  | denotes_star ts u v : denotes ts v -> denotes (Star :: ts) (u ++ v)
  | denotes_char t ts c s :
      t <> Star -> char_matches t c = true -> denotes ts s -> denotes (t :: ts) (c :: s).

Lemma tokens_match_star ts s :
  tokens_match (Star :: ts) s = true <->
  exists u v, s = u ++ v /\ tokens_match ts v = true.
Proof.
  induction s as [|c s IH].
  - cbn. rewrite orb_false_r. split; [intros H; by exists [], []|].
    intros (u & v & Huv & H). symmetry in Huv. apply app_nil in Huv as [-> ->]. done.
  - change (tokens_match ts (c :: s) || tokens_match (Star :: ts) s = true <->
            exists u v, c :: s = u ++ v /\ tokens_match ts v = true).
    rewrite orb_true_iff, IH. split.
    + intros [H | (u & v & -> & H)]; [by exists [], (c :: s) | by exists (c :: u), v].
    + intros ([|c' u] & v & Huv & H); cbn in Huv; simplify_eq; [by left | right; eauto].
Qed.

Lemma tokens_match_denotes ts s : tokens_match ts s = true <-> denotes ts s.
Proof.
  revert s. induction ts as [|t ts IH]; intros s.
  - destruct s; cbn; split; try done; [constructor | by inversion 1].
  - destruct t as [| |d|neg items].
    1: { rewrite tokens_match_star. split.
      - intros (u & v & -> & H). constructor. by apply IH.
      - inversion 1; subst; [|done]. eexists _, _. split; [done|]. by apply IH. }
    all: destruct s as [|c s]; cbn [tokens_match];
      [split; [done | by inversion 1]|];
      rewrite andb_true_iff, IH; split;
      [intros [? ?]; by constructor | inversion 1; by subst].
Qed.

(** ** Fuel: the length of the pattern is enough *)

Lemma until_close_length s a b : until_close s = Some (a, b) -> length b < length s.
Proof.
  revert a b. induction s as [|c s IH]; cbn; [done|]. intros a b.
  destruct (Ascii.eqb c "]"); [intros; simplify_eq; lia|].
  destruct (until_close s) as [[a' b']|]; [|done]. intros; simplify_eq.
  specialize (IH _ _ eq_refl). lia.
Qed.

Lemma bracket_after_length pre s a b : bracket_after pre s = Some (a, b) -> length b < length s.
Proof.
  destruct s as [|c s]; cbn [bracket_after]; [done|]. intros Hb.
  case_match; (destruct (until_close _) as [[a' b']|] eqn:E; [|done]);
    apply until_close_length in E; cbn in *; simplify_eq; lia.
Qed.

Lemma bracket_length s a b : bracket s = Some (a, b) -> length b < length s.
Proof.
  destruct s as [|c s]; cbn [bracket]; [done|].
  case_match; intros Hb%bracket_after_length; cbn in *; lia.
Qed.

Lemma tokenize_fuel (n m : nat) s : length s <= n -> n <= m -> tokenize m s = tokenize n s.
Proof.
  revert m s. induction n as [|n IH]; intros m s Hs Hm.
  { destruct s; [|cbn in Hs; lia]. by destruct m. }
  destruct m as [|m]; [lia|]. destruct s as [|c s]; [done|]. cbn in Hs.
  cbn [tokenize]. rewrite (IH m s) by lia.
  destruct (bracket s) as [[a b]|] eqn:E; [|done].
  apply bracket_length in E. by rewrite (IH m b) by lia.
Qed.

(** ** Literal text and the trailing star *)

Definition is_special (c : ascii) : bool :=
  Ascii.eqb c "*" || Ascii.eqb c "?" || Ascii.eqb c "[".

Definition literal (s : list ascii) : Prop := Forall (fun c => is_special c = false) s.

Lemma tokenize_literal s rest n :
  literal s -> length s + length rest <= n ->
  tokenize n (s ++ rest) = (Lit <$> s) ++ tokenize (n - length s) rest.
Proof.
  revert n. induction s as [|c s IH]; intros n Hlit Hn; cbn.
  { by rewrite Nat.sub_0_r. }
  destruct n as [|n]; [cbn in Hn; lia|]. apply Forall_cons in Hlit as [Hc Hlit].
  unfold is_special in Hc. rewrite !orb_false_iff in Hc. destruct Hc as [[H1 H2] H3].
  cbn [tokenize app]. rewrite H1, H2, H3, IH; [done | done | cbn in Hn; lia].
Qed.

Lemma denotes_lits_star s t :
  denotes ((Lit <$> s) ++ [Star]) t <-> exists u, t = s ++ u.
Proof.
  revert t. induction s as [|c s IH]; intros t; cbn.
  - split; [by eauto|]. intros [u ->]. rewrite <-(app_nil_r u). repeat constructor.
  - split.
    + inversion 1; subst. cbn in *.
      match goal with H : denotes (_ ++ _) _ |- _ => apply IH in H as [u ->] end.
      match goal with H : Ascii.eqb _ _ = true |- _ => apply Ascii.eqb_eq in H as -> end.
      by exists u.
    + intros [u ->]. constructor; [done | apply Ascii.eqb_refl | apply IH; eauto].
Qed.

Lemma denotes_lits s t : denotes (Lit <$> s) t <-> t = s.
Proof.
  revert t. induction s as [|c s IH]; intros t; cbn.
  - split; [by inversion 1 | intros ->; constructor].
  - split.
    + inversion 1; subst. cbn in *.
      match goal with H : denotes _ _ |- _ => apply IH in H as -> end.
      by match goal with H : Ascii.eqb _ _ = true |- _ => apply Ascii.eqb_eq in H as -> end.
    + intros ->. constructor; [done | apply Ascii.eqb_refl | by apply IH].
Qed.

(** ** Facts about [fnmatchcase] itself *)

Lemma fnmatchcase_denotes name pattern :
  fnmatchcase name pattern = true <->
  denotes (pattern_tokens pattern) (String.list_ascii_of_string name).
Proof. apply tokens_match_denotes. Qed.

Lemma list_ascii_app s t :
  String.list_ascii_of_string (s ++ t)%string = String.list_ascii_of_string s ++ String.list_ascii_of_string t.
Proof. induction s as [|c s IH]; [done|]. exact (f_equal (cons c) IH). Qed.

Lemma list_ascii_inj s t : String.list_ascii_of_string s = String.list_ascii_of_string t -> s = t.
Proof.
  intros H. rewrite <-(String.string_of_list_ascii_of_string s), H.
  apply String.string_of_list_ascii_of_string.
Qed.

Definition literal_str (s : string) : Prop := literal (String.list_ascii_of_string s).

Lemma pattern_tokens_literal s :
  literal_str s -> pattern_tokens s = Lit <$> String.list_ascii_of_string s.
Proof.
  intros H. unfold pattern_tokens.
  set (l := String.list_ascii_of_string s) in *.
  pose proof (tokenize_literal l [] (length l) H ltac:(cbn; lia)) as Ht.
  rewrite Nat.sub_diag in Ht; cbn in Ht; by rewrite !app_nil_r in Ht.
Qed.

Lemma pattern_tokens_prefix s :
  literal_str s -> pattern_tokens (s ++ "*")%string = (Lit <$> String.list_ascii_of_string s) ++ [Star].
Proof.
  intros H. unfold pattern_tokens. rewrite list_ascii_app.
  rewrite tokenize_literal; [|done | rewrite length_app; cbn; lia].
  f_equal. rewrite length_app, Nat.add_comm, Nat.add_sub. done.
Qed.

Lemma fnmatchcase_literal name pattern :
  literal_str pattern -> fnmatchcase name pattern = true <-> name = pattern.
Proof.
  intros H. rewrite fnmatchcase_denotes, pattern_tokens_literal by done.
  rewrite denotes_lits. split; [apply list_ascii_inj | by intros ->].
Qed.

Lemma fnmatchcase_prefix name prefix :
  literal_str prefix ->
  fnmatchcase name (prefix ++ "*")%string = true <-> exists rest, name = (prefix ++ rest)%string.
Proof.
  intros H. rewrite fnmatchcase_denotes, pattern_tokens_prefix by done.
  rewrite denotes_lits_star. split.
  - intros [u Hu]. exists (String.string_of_list_ascii u). apply list_ascii_inj.
    by rewrite list_ascii_app, String.list_ascii_of_string_of_list_ascii, Hu.
  - intros [rest ->]. rewrite list_ascii_app. eauto.
Qed.

Example fnmatch_class : fnmatchcase "tool:db_3" "tool:db_[0-9]" = true.
Proof. reflexivity. Qed.
Example fnmatch_negated : fnmatchcase "x" "[!x-z]" = false.
Proof. reflexivity. Qed.

End Fnmatch.

