(* ===== verification/Identity.v ===== *)
(** * Verified principals of a running invocation

    [micro_agent/security/identity.py] and [propagation.py].  The context
    variable that carries the identity is an explicit stack of bindings. *)

From S2P Require Import Prelude Json.

Module Identity.

Record CallerIdentity : Type := {
  caller_id : string;
  caller_type : string;
  caller_metadata : list (string * json)
}.

Record UserContext : Type := {
  user_id : string;
  tenant_id : option string;
  roles : list string;
  user_metadata : list (string * json)
}.

Record RuntimeIdentity : Type := {
  workload_id : string;
  namespace : string;
  service_account : option string
}.

Record InvocationIdentity : Type := {
  caller : option CallerIdentity;
  user : option UserContext;
  workload : option RuntimeIdentity
}.

(** ** The context variable: [set] pushes, [reset] restores the token's value *)

Definition context_var : Type := option InvocationIdentity.
Definition token : Type := context_var.

Definition get_invocation_identity (current : context_var) : option InvocationIdentity := current.

Definition set_invocation_identity (i : option InvocationIdentity) (current : context_var)
  : token * context_var := (current, i).

Definition reset_invocation_identity (t : token) (current : context_var) : context_var := t.

(** [with invocation_identity(i): body], the body a computation over the
    variable that may raise; the [finally] restores the binding either way. *)
Definition invocation_identity {E A} (i : option InvocationIdentity)
    (body : context_var -> result E A * context_var) (current : context_var)
  : result E A * context_var :=
  let '(t, current') := set_invocation_identity i current in
  let '(r, current'') := body current' in
  (r, reset_invocation_identity t current'').

(** ** Workload identity of the process

    [env] is the environment, [hostname] the argument or [socket.gethostname()],
    [namespace_file] the stripped text of the service-account mount when it is
    readable. *)
Definition resolve_workload_identity (env : list (string * string))
    (hostname_arg : option string) (gethostname : string) (namespace_file : option string)
  : RuntimeIdentity :=
  let wid :=
    opt_or (dget "MICRO_AGENT_WORKLOAD_ID"%string env) (opt_or hostname_arg gethostname) in
  let ns :=
    match dget "MICRO_AGENT_WORKLOAD_NAMESPACE"%string env with
    | Some n => Some n
    | None => namespace_file
    end in
  {| workload_id := wid;
     namespace := opt_or ns "default";
     service_account := dget "MICRO_AGENT_SERVICE_ACCOUNT"%string env |}.

Lemma opt_or_nonempty (o : option string) (d : string) : d <> EmptyString -> opt_or o d <> EmptyString.
Proof. unfold opt_or. destruct o as [[]|]; cbn; congruence. Qed.

(** The namespace of a resolved workload is never empty, and neither is its id
    as long as the host has a name. *)
Lemma resolve_workload_identity_nonempty env h g f :
  g <> EmptyString ->
  workload_id (resolve_workload_identity env h g f) <> EmptyString /\
  namespace (resolve_workload_identity env h g f) <> EmptyString.
Proof. intros Hg. split; cbn; by repeat apply opt_or_nonempty. Qed.

End Identity.
