(* ===== verification/Policy.v ===== *)
(** * Bounded autonomy: policies, their evaluator and the policy store

    [micro_agent/security/policy.py]: the declarative rules and lists of an
    [AgentPolicy], the conditions over the (verified) context, the evaluator's
    five decisions, the strict parser of a policy-store response and the HTTP
    resolver around it.  The HTTP client is a parameter. *)

From S2P Require Import Prelude Json Fnmatch Identity.
From Stdlib Require Import Ascii.
From stdpp Require pretty.
Import Fnmatch Identity.
Local Open Scope string_scope.

Module Policy.

Inductive PolicyEffect : Type := ALLOW | DENY.

#[export] Instance PolicyEffect_eq_dec : EqDecision PolicyEffect.
Proof. solve_decision. Defined.

Record PolicyRule : Type := {
  effect : PolicyEffect;
  resource : string;
  actions : list string;
  conditions : list (string * json)
}.

Record AgentPolicy : Type := {
  allowed_skills : list string;
  denied_skills : list string;
  allowed_tools : list string;
  denied_tools : list string;
  allowed_mcps : list string;
  denied_mcps : list string;
  model_restrictions : list (string * json);
  side_effect_policy : string;
  approval_required : bool;
  rules : list PolicyRule
}.

Definition nonempty {A} (l : list A) : bool := match l with [] => false | _ => true end.

(** The three list checks have one body: deny list first, then allow list. *)
Definition listed (denied allowed : list string) (x : string) : bool :=
  if memb x denied then false
  else negb (nonempty allowed && negb (memb x allowed)).

Definition is_skill_allowed (p : AgentPolicy) (skill_id : string) : bool :=
  listed (denied_skills p) (allowed_skills p) skill_id.
Definition is_tool_allowed (p : AgentPolicy) (tool_name : string) : bool :=
  listed (denied_tools p) (allowed_tools p) tool_name.
Definition is_mcp_allowed (p : AgentPolicy) (mcp_ref : string) : bool :=
  listed (denied_mcps p) (allowed_mcps p) mcp_ref.

Record PolicyDecision : Type := {
  allowed : bool;
  reason : string;
  rule : option PolicyRule;
  requires_approval : bool
}.

Definition decision_allow : PolicyDecision :=
  {| allowed := true; reason := ""; rule := None; requires_approval := false |}.
Definition decision_deny (why : string) : PolicyDecision :=
  {| allowed := false; reason := why; rule := None; requires_approval := false |}.

(** ** Conditions over the context *)

Definition condition_operators : list string :=
  ["eq"; "equals"; "not_equals"; "in"; "not_in"; "contains"; "contains_any";
   "contains_all"; "matches"; "exists"].

Definition is_operator (k : string) : bool := memb k condition_operators.

Fixpoint split_dots (s : string) : list string :=
  match s with
  | EmptyString => [EmptyString]
  | String c s' =>
      if Ascii.eqb c "."%char then EmptyString :: split_dots s'
      else match split_dots s' with
           | w :: ws => String c w :: ws
           | [] => [String c EmptyString]
           end
  end.

(** [None] is the module's [_MISSING] sentinel. *)
Fixpoint lookup_path (value : json) (path : list string) : option json :=
  match path with
  | [] => Some value
  | part :: path =>
      match value with
      | JObj d => match dget part d with Some v => lookup_path v path | None => None end
      | _ => None
      end
  end.

Definition lookup_context (context : list (string * json)) (key : string) : option json :=
  lookup_path (JObj context) (split_dots key).

(** [\[value in actual for value in operand\]]; [None] is the [TypeError]. *)
Definition in_each (operand : list json) (actual : json) : option (list bool) :=
  mapM (fun v => py_in v actual) operand.

(** A non-string [Sequence] operand.  [isinstance(x, Sequence)] holds of lists. *)
Definition operator_matches (operator : string) (actual : option json) (operand : json) : bool :=
  if String.eqb operator "exists" then
    Bool.eqb (match actual with Some _ => true | None => false end) (py_truthy operand)
  else
    match actual with
    | None => false
    | Some a =>
        if memb operator ["eq"; "equals"] then py_eq a operand
        else if String.eqb operator "not_equals" then negb (py_eq a operand)
        else if memb operator ["in"; "not_in"] then
          match operand with
          | JList l =>
              let r := existsb (fun y => py_eq y a) l in
              if String.eqb operator "not_in" then negb r else r
          | _ => false
          end
        else if String.eqb operator "contains" then
          match py_in operand a with Some r => r | None => false end
        else if memb operator ["contains_any"; "contains_all"] then
          match operand with
          | JList l =>
              match in_each l a with
              | Some ms => if String.eqb operator "contains_any" then existsb id ms else all_true ms
              | None => false
              end
          | _ => false
          end
        else if String.eqb operator "matches" then
          match a, operand with
          | JStr s, JStr p => fnmatchcase s p
          | _, _ => false
          end
        else false
    end.

Fixpoint condition_value_matches (expected : json) (actual : option json) {struct expected} : bool :=
  match expected with
  | JObj items =>
      if existsb (fun kv => is_operator kv.1) items then
        forallb (fun kv =>
          if negb (is_operator kv.1) then false
          else operator_matches kv.1 actual kv.2) items
      else
        match actual with
        | Some (JObj ctx) =>
            forallb (fun kv => condition_value_matches kv.2 (lookup_context ctx kv.1)) items
        | Some a => py_eq a expected
        | None => false
        end
  | _ => match actual with Some a => py_eq a expected | None => false end
  end.

Definition conditions_match (conditions context : list (string * json)) : bool :=
  forallb (fun kv => condition_value_matches kv.2 (lookup_context context kv.1)) conditions.

(** ** The policy context: caller-supplied values, then the verified identity *)

Definition opt_str (o : option string) : json :=
  match o with Some s => JStr s | None => JNull end.
Definition str_list (l : list string) : json := JList (JStr <$> l).

Definition bind_caller (c : CallerIdentity) (values : list (string * json)) :=
  dset "caller_type" (JStr (caller_type c))
    (dset "caller_id" (JStr (caller_id c))
       (dset "caller" (JObj [("id", JStr (caller_id c)); ("type", JStr (caller_type c))]) values)).

Definition bind_user (u : UserContext) (values : list (string * json)) :=
  dset "roles" (str_list (roles u))
    (dset "tenant_id" (opt_str (tenant_id u))
       (dset "user_id" (JStr (user_id u))
          (dset "user" (JObj [("id", JStr (user_id u)); ("tenant_id", opt_str (tenant_id u));
                              ("roles", str_list (roles u))]) values))).

Definition bind_workload (w : RuntimeIdentity) (values : list (string * json)) :=
  dset "service_account" (opt_str (service_account w))
    (dset "workload_namespace" (JStr (namespace w))
       (dset "workload_id" (JStr (workload_id w))
          (dset "workload" (JObj [("id", JStr (workload_id w)); ("namespace", JStr (namespace w));
                                  ("service_account", opt_str (service_account w))]) values))).

Definition bind_opt {A} (f : A -> list (string * json) -> list (string * json)) (o : option A)
    (values : list (string * json)) : list (string * json) :=
  match o with Some a => f a values | None => values end.

Definition policy_context (identity : option InvocationIdentity)
    (context : option (list (string * json))) : list (string * json) :=
  let values := default [] context in
  match identity with
  | None => values
  | Some i =>
      bind_opt bind_workload (workload i)
        (bind_opt bind_user (user i) (bind_opt bind_caller (caller i) values))
  end.

(** ** Rules *)

Section evaluator.
Context (policy : AgentPolicy) (identity : option InvocationIdentity).

Definition rule_matches (res action : string) (context : option (list (string * json)))
    (r : PolicyRule) : bool :=
  fnmatchcase res (resource r) &&
  (negb (nonempty (actions r)) || memb action (actions r) || memb "*" (actions r)) &&
  conditions_match (conditions r) (policy_context identity context).

Definition has_effect (e : PolicyEffect) (r : PolicyRule) : bool :=
  bool_decide (effect r = e).

Definition rule_decision (res action : string) (context : option (list (string * json)))
  : option PolicyDecision :=
  let matching := filterb (rule_matches res action context) (rules policy) in
  match List.find (has_effect DENY) matching with
  | Some r =>
      Some {| allowed := false; reason := res ++ " is denied by policy rule";
              rule := Some r; requires_approval := false |}
  | None =>
      match List.find (has_effect ALLOW) matching with
      | Some r =>
          Some {| allowed := true; reason := res ++ " is allowed by policy rule";
                  rule := Some r; requires_approval := false |}
      | None => None
      end
  end.

Definition or_allow (d : option PolicyDecision) : PolicyDecision := default decision_allow d.

Definition evaluate_skill (skill_id : string) (context : option (list (string * json))) :=
  if negb (is_skill_allowed policy skill_id)
  then decision_deny ("Skill " ++ quoted skill_id ++ " is denied by policy")
  else or_allow (rule_decision ("skill:" ++ skill_id) "invoke" context).

Definition evaluate_tool (tool_name : string) (context : option (list (string * json))) :=
  if negb (is_tool_allowed policy tool_name)
  then decision_deny ("Tool " ++ quoted tool_name ++ " is denied by policy")
  else or_allow (rule_decision ("tool:" ++ tool_name) "invoke" context).

Definition evaluate_mcp (mcp_ref : string) (context : option (list (string * json))) :=
  if negb (is_mcp_allowed policy mcp_ref)
  then decision_deny ("MCP " ++ quoted mcp_ref ++ " is denied by policy")
  else or_allow (rule_decision ("mcp:" ++ mcp_ref) "connect" context).

Definition evaluate_side_effect (operation : string) (context : option (list (string * json))) :=
  if String.eqb (side_effect_policy policy) "deny"
  then decision_deny ("Side-effect " ++ quoted operation ++ " denied by policy")
  else if approval_required policy
  then {| allowed := false;
          reason := "Side-effect " ++ quoted operation ++ " requires approval";
          rule := None; requires_approval := true |}
  else or_allow (rule_decision ("side_effect:" ++ operation) "execute" context).

(** [set(restrictions.get(key) or \[\])]; [Err tt] is the [TypeError] of a
    value that is not iterable or has an unhashable element. *)
Definition hashable (j : json) : bool :=
  match j with JList _ | JObj _ => false | _ => true end.

Definition restriction_set (key : string) : result unit (list json) :=
  match dget key (model_restrictions policy) with
  | None => Ok []
  | Some v =>
      if negb (py_truthy v) then Ok []
      else match v with
           | JList l => if forallb hashable l then Ok l else Err tt
           | JObj d => Ok (JStr <$> dkeys d)
           | JStr s => Ok ((fun c => JStr (String c EmptyString)) <$> String.list_ascii_of_string s)
           | _ => Err tt
           end
  end.

Definition str_in_set (s : string) (l : list json) : bool := existsb (fun y => py_eq y (JStr s)) l.
Definition intersects (candidates : list string) (l : list json) : bool :=
  existsb (fun c => str_in_set c l) candidates.

Definition model_provider_check (provider : option string) : result unit (option PolicyDecision) :=
  match provider with
  | Some p =>
      if negb (str_truthy p) then Ok None else
      denied ← restriction_set "denied_providers";
      if str_in_set p denied
      then Ok (Some (decision_deny ("Model provider " ++ quoted p ++ " is denied by policy")))
      else
        provs ← restriction_set "allowed_providers";
        if nonempty provs && negb (str_in_set p provs)
        then Ok (Some (decision_deny
               ("Model provider " ++ quoted p ++ " is not in the policy-allowed set")))
        else Ok None
  | None => Ok None
  end.

Definition evaluate_model (model_ref : string) (model_id provider : option string)
    (context : option (list (string * json))) : result unit PolicyDecision :=
  let candidates := filterb str_truthy (model_ref :: option_list model_id) in
  denied_models ← restriction_set "denied_models";
  if intersects candidates denied_models then Ok (decision_deny "Model is denied by policy")
  else
    allowed_models ← restriction_set "allowed_models";
    if nonempty allowed_models && negb (intersects candidates allowed_models)
    then Ok (decision_deny "Model is not in the policy-allowed model set")
    else
      blocked ← model_provider_check provider;
      match blocked with
      | Some d => Ok d
      | None => Ok (or_allow (rule_decision ("model:" ++ model_ref) "invoke" context))
      end.
End evaluator.

(** ** The strict parser of a policy-store response *)

Inductive policy_error : Type :=
  | PolicySchemaError (msg : string)
  | PolicyTypeError        (** an unhashable value compared with a set *)
  | PolicyStoreError (msg : string).

Definition list_field_names : list string :=
  ["allowed_skills"; "denied_skills"; "allowed_tools"; "denied_tools"; "allowed_mcps"; "denied_mcps"].

Definition policy_fields : list string :=
  list_field_names ++ ["model_restrictions"; "side_effect_policy"; "approval_required"; "rules"].

Definition rule_fields : list string := ["effect"; "resource"; "actions"; "conditions"].

Definition nonblank_str (j : json) : bool :=
  match j with JStr s => negb (py_blank s) | _ => false end.

Definition policy_string_list (value : json) (field_name : string)
  : result policy_error (list string) :=
  let err := Err (PolicySchemaError (field_name ++ " must be a list of non-empty strings")) in
  match value with
  | JList l => if forallb nonblank_str l then Ok (omap json_str l) else err
  | _ => err
  end.

Definition get_or (k : string) (d : list (string * json)) (dflt : json) : json :=
  default dflt (dget k d).

Definition parse_effect (j : option json) : option PolicyEffect :=
  match j with
  | Some (JStr s) =>
      if String.eqb s "allow" then Some ALLOW
      else if String.eqb s "deny" then Some DENY else None
  | _ => None
  end.

Definition policy_rule (item : json) : result policy_error PolicyRule :=
  match item with
  | JObj d =>
      if negb (forallb (fun k => memb k rule_fields) (dkeys d))
      then Err (PolicySchemaError "each rule must contain only the policy rule fields")
      else
        match parse_effect (dget "effect" d) with
        | None => Err (PolicySchemaError "rule effect must be 'allow' or 'deny'")
        | Some e =>
            match dget "resource" d with
            | Some (JStr res) =>
                if py_blank res
                then Err (PolicySchemaError "rule resource must be a non-empty string")
                else
                  acts ← policy_string_list (get_or "actions" d (JList [])) "rule actions";
                  match get_or "conditions" d (JObj []) with
                  | JObj conds =>
                      Ok {| effect := e; resource := res; actions := acts; conditions := conds |}
                  | _ => Err (PolicySchemaError "rule conditions must be an object")
                  end
            | _ => Err (PolicySchemaError "rule resource must be a non-empty string")
            end
        end
  | _ => Err (PolicySchemaError "each rule must contain only the policy rule fields")
  end.

Definition policy_rules (value : json) : result policy_error (list PolicyRule) :=
  match value with
  | JList l => mapM policy_rule l
  | _ => Err (PolicySchemaError "rules must be a list")
  end.

(** The optional [{"policy": {...}}] wrapper. *)
Definition unwrap_policy (payload : json) : result policy_error (list (string * json)) :=
  match payload with
  | JObj d =>
      match dget "policy" d with
      | None => Ok d
      | Some inner =>
          if negb (Nat.eqb (length d) 1)
          then Err (PolicySchemaError "policy wrapper cannot contain unknown fields")
          else match inner with
               | JObj d' => Ok d'
               | _ => Err (PolicySchemaError "policy wrapper value must be a JSON object")
               end
      end
  | _ => Err (PolicySchemaError "policy must be a JSON object")
  end.

Definition string_field (d : list (string * json)) (name : string)
  : result policy_error (list string) :=
  policy_string_list (get_or name d (JList [])) name.

Definition parse_side_effect_policy (j : json) : result policy_error string :=
  match j with
  | JStr s =>
      if memb s ["allow"; "deny"] then Ok s
      else Err (PolicySchemaError "side_effect_policy must be 'allow' or 'deny'")
  | JList _ | JObj _ => Err PolicyTypeError
  | _ => Err (PolicySchemaError "side_effect_policy must be 'allow' or 'deny'")
  end.

Definition agent_policy_from_dict (payload : json) : result policy_error AgentPolicy :=
  d ← unwrap_policy payload;
  let unknown := filterb (fun k => negb (memb k policy_fields)) (dkeys d) in
  if nonempty unknown
  then Err (PolicySchemaError
         ("unknown policy fields: " ++ String.concat ", " (sort_by str_leb unknown)))
  else
    a_sk ← string_field d "allowed_skills";
    d_sk ← string_field d "denied_skills";
    a_to ← string_field d "allowed_tools";
    d_to ← string_field d "denied_tools";
    a_mc ← string_field d "allowed_mcps";
    d_mc ← string_field d "denied_mcps";
    match get_or "model_restrictions" d (JObj []) with
    | JObj restrictions =>
        sep ← parse_side_effect_policy (get_or "side_effect_policy" d (JStr "allow"));
        match get_or "approval_required" d (JBool false) with
        | JBool appr =>
            rs ← policy_rules (get_or "rules" d (JList []));
            Ok {| allowed_skills := a_sk; denied_skills := d_sk;
                  allowed_tools := a_to; denied_tools := d_to;
                  allowed_mcps := a_mc; denied_mcps := d_mc;
                  model_restrictions := restrictions; side_effect_policy := sep;
                  approval_required := appr; rules := rs |}
        | _ => Err (PolicySchemaError "approval_required must be a boolean")
        end
    | _ => Err (PolicySchemaError "model_restrictions must be an object")
    end.

(** ** The HTTP resolver; [post] is the injected client *)

Inductive http_outcome : Type :=
  | HttpFailure                              (** [httpx.HTTPError] *)
  | HttpResponse (status : Z) (body : option json).  (** [None]: not JSON *)

Definition resolve_policy (post : list string -> http_outcome) (policy_refs : list json)
  : result policy_error AgentPolicy :=
  if negb (nonempty policy_refs) || negb (forallb nonblank_str policy_refs)
  then Err (PolicyStoreError "policy references must be non-empty strings")
  else
    match post (omap json_str policy_refs) with
    | HttpFailure => Err (PolicyStoreError "policy store request failed")
    | HttpResponse status body =>
        if (status <? 200)%Z || (300 <=? status)%Z
        then Err (PolicyStoreError ("policy store returned HTTP " ++ pretty.pretty status))
        else match body with
             | None => Err (PolicyStoreError "policy store returned invalid JSON")
             | Some payload =>
                 match agent_policy_from_dict payload with
                 | Ok p => Ok p
                 | Err _ => Err (PolicyStoreError "policy store returned an invalid policy")
                 end
             end
    end.

(** ** The lists *)

Lemma nonempty_false {A} (l : list A) : nonempty l = false <-> l = [].
Proof. destruct l; cbn; split; congruence. Qed.

Lemma listed_spec denied allow x :
  listed denied allow x = true <-> x ∉ denied /\ (allow = [] \/ x ∈ allow).
Proof.
  unfold listed. destruct (memb x denied) eqn:Hd.
  - rewrite memb_true in Hd. naive_solver.
  - rewrite memb_false in Hd. rewrite negb_true_iff, andb_false_iff, negb_false_iff, memb_true.
    rewrite nonempty_false. naive_solver.
Qed.

(** ** The rules: a matching deny wins, whatever the order *)

Section rule_lemmas.
Context (p : AgentPolicy) (id : option InvocationIdentity).
Implicit Types (ctx : option (list (string * json))) (r : PolicyRule).

Definition denying (res action : string) ctx r : Prop :=
  r ∈ rules p /\ effect r = DENY /\ rule_matches id res action ctx r = true.

Lemma has_effect_true e r : has_effect e r = true <-> effect r = e.
Proof. apply bool_decide_eq_true. Qed.

Lemma find_none {A} (f : A -> bool) (l : list A) :
  List.find f l = None <-> forall x, x ∈ l -> f x = false.
Proof.
  split.
  - intros H x Hx. eapply find_none; [exact H|]. by apply list_elem_of_In.
  - intros H. destruct (List.find f l) eqn:E; [|done].
    apply find_some in E as [Hin Hf]. rewrite H in Hf; [done|]. by apply list_elem_of_In.
Qed.

Lemma rule_decision_denied res action ctx :
  allowed (or_allow (rule_decision p id res action ctx)) = false <->
  exists r, denying res action ctx r.
Proof.
  unfold rule_decision, or_allow, denying.
  destruct (List.find (has_effect DENY) _) as [r|] eqn:E.
  - apply find_some in E as [Hin He]. rewrite <-list_elem_of_In, elem_of_filterb in Hin.
    apply has_effect_true in He. split; [|done]. naive_solver.
  - rewrite find_none in E. split.
    + by destruct (List.find (has_effect ALLOW) _).
    + intros (r & Hr & He & Hm). exfalso.
      assert (has_effect DENY r = true) as Ht by by apply has_effect_true.
      rewrite E in Ht; [done|]. by apply elem_of_filterb.
Qed.

Lemma rule_decision_allowed res action ctx :
  allowed (or_allow (rule_decision p id res action ctx)) = true <->
  forall r, ~ denying res action ctx r.
Proof.
  rewrite <-not_false_iff_true, rule_decision_denied. naive_solver.
Qed.

Lemma rule_decision_no_approval res action ctx :
  requires_approval (or_allow (rule_decision p id res action ctx)) = false.
Proof. unfold rule_decision, or_allow. by repeat case_match. Qed.
End rule_lemmas.

Lemma evaluate_listed_spec p id ctx denied allow x why res action :
  allowed (if negb (listed denied allow x) then decision_deny why
           else or_allow (rule_decision p id res action ctx)) = true <->
  (x ∉ denied /\ (allow = [] \/ x ∈ allow)) /\ (forall r, ~ denying p id res action ctx r).
Proof.
  rewrite <-listed_spec, <-rule_decision_allowed.
  destruct (listed denied allow x); cbn; [|naive_solver].
  split; [done | by intros [_ ?]].
Qed.

(** C15: A tool, skill or MCP server is allowed exactly when it is not on the
    deny list, is on the allow list if there is one, and no deny rule that
    matches it (resource pattern, action, every condition) exists: a matching
    deny always wins over matching allows, whatever the order of the rules. *)
Theorem policy_deny_wins p id ctx (x : string) :
  (allowed (evaluate_tool p id x ctx) = true <->
     (x ∉ denied_tools p /\ (allowed_tools p = [] \/ x ∈ allowed_tools p)) /\
     (forall r, ~ denying p id ("tool:" ++ x) "invoke" ctx r)) /\
  (allowed (evaluate_skill p id x ctx) = true <->
     (x ∉ denied_skills p /\ (allowed_skills p = [] \/ x ∈ allowed_skills p)) /\
     (forall r, ~ denying p id ("skill:" ++ x) "invoke" ctx r)) /\
  (allowed (evaluate_mcp p id x ctx) = true <->
     (x ∉ denied_mcps p /\ (allowed_mcps p = [] \/ x ∈ allowed_mcps p)) /\
     (forall r, ~ denying p id ("mcp:" ++ x) "connect" ctx r)).
Proof.
  split; [|split]; apply evaluate_listed_spec.
Qed.

(** A side effect is allowed exactly when the policy neither denies side
    effects nor requires approval and no deny rule matches; approval is asked
    for exactly when side effects are not denied outright and the policy
    requires approval; and no decision both allows and asks. *)
Theorem side_effect_decision_spec p id ctx op :
  (allowed (evaluate_side_effect p id op ctx) = true <->
     side_effect_policy p <> "deny" /\ approval_required p = false /\
     (forall r, ~ denying p id ("side_effect:" ++ op) "execute" ctx r)) /\
  (requires_approval (evaluate_side_effect p id op ctx) = true <->
     side_effect_policy p <> "deny" /\ approval_required p = true) /\
  (allowed (evaluate_side_effect p id op ctx) &&
   requires_approval (evaluate_side_effect p id op ctx) = false).
Proof.
  unfold evaluate_side_effect.
  destruct (String.eqb_spec (side_effect_policy p) "deny") as [He|He]; cbn;
    [repeat split; naive_solver|].
  destruct (approval_required p); cbn; [repeat split; naive_solver|].
  rewrite rule_decision_no_approval, andb_false_r, rule_decision_allowed.
  repeat split; naive_solver.
Qed.

(** An approval requirement hides deny rules.  Whatever deny rules match
    the operation, a policy that requires approval (and does not deny side
    effects outright) answers that approval is needed, exactly as it would
    with no rule at all, so an approved call goes through. *)
Theorem approval_masks_deny_rules p id ctx op rs :
  side_effect_policy p <> "deny" -> approval_required p = true ->
  evaluate_side_effect
    {| allowed_skills := allowed_skills p; denied_skills := denied_skills p;
       allowed_tools := allowed_tools p; denied_tools := denied_tools p;
       allowed_mcps := allowed_mcps p; denied_mcps := denied_mcps p;
       model_restrictions := model_restrictions p; side_effect_policy := side_effect_policy p;
       approval_required := approval_required p; rules := rs |} id op ctx
  = evaluate_side_effect p id op ctx /\
  requires_approval (evaluate_side_effect p id op ctx) = true.
Proof.
  intros Hs Ha. unfold evaluate_side_effect; cbn. rewrite Ha.
  by destruct (String.eqb_spec (side_effect_policy p) "deny").
Qed.

(** ** Where the values of the policy context come from *)

Definition caller_roots : list string := ["caller"; "caller_id"; "caller_type"].
Definition user_roots : list string := ["user"; "user_id"; "tenant_id"; "roles"].
Definition workload_roots : list string :=
  ["workload"; "workload_id"; "workload_namespace"; "service_account"].

Definition roots_of {A} (o : option A) (l : list string) : list string :=
  match o with Some _ => l | None => [] end.

(** The context keys that the identity binds. *)
Definition verified_roots (identity : option InvocationIdentity) : list string :=
  match identity with
  | None => []
  | Some i =>
      roots_of (caller i) caller_roots ++ roots_of (user i) user_roots ++
      roots_of (workload i) workload_roots
  end.

Ltac dict_lookup := rewrite !dget_dset; repeat case_decide; subst; try done; set_solver.

Lemma bind_caller_other k c v : k ∉ caller_roots -> dget k (bind_caller c v) = dget k v.
Proof. intros Hk. unfold bind_caller, caller_roots in *. dict_lookup. Qed.
Lemma bind_user_other k u v : k ∉ user_roots -> dget k (bind_user u v) = dget k v.
Proof. intros Hk. unfold bind_user, user_roots in *. dict_lookup. Qed.
Lemma bind_workload_other k w v : k ∉ workload_roots -> dget k (bind_workload w v) = dget k v.
Proof. intros Hk. unfold bind_workload, workload_roots in *. dict_lookup. Qed.

Lemma bind_caller_bound k c v v' :
  k ∈ caller_roots -> dget k (bind_caller c v) = dget k (bind_caller c v').
Proof. intros Hk. unfold bind_caller, caller_roots in *. dict_lookup. Qed.
Lemma bind_user_bound k u v v' :
  k ∈ user_roots -> dget k (bind_user u v) = dget k (bind_user u v').
Proof. intros Hk. unfold bind_user, user_roots in *. dict_lookup. Qed.
Lemma bind_workload_bound k w v v' :
  k ∈ workload_roots -> dget k (bind_workload w v) = dget k (bind_workload w v').
Proof. intros Hk. unfold bind_workload, workload_roots in *. dict_lookup. Qed.

Section bind_opt.
Context {A : Type} (f : A -> list (string * json) -> list (string * json)) (rs : list string).
Context (Hother : forall k a v, k ∉ rs -> dget k (f a v) = dget k v).
Context (Hbound : forall k a v v', k ∈ rs -> dget k (f a v) = dget k (f a v')).

Lemma bind_opt_unbound k o v : k ∉ roots_of o rs -> dget k (bind_opt f o v) = dget k v.
Proof using Hother. destruct o; cbn; [apply Hother | done]. Qed.

Lemma bind_opt_bound k o v v' :
  k ∈ roots_of o rs \/ dget k v = dget k v' ->
  dget k (bind_opt f o v) = dget k (bind_opt f o v').
Proof using Hother Hbound.
  destruct o as [a|]; cbn; [|set_solver]. destruct (decide (k ∈ rs)) as [Hin|Hin].
  - intros _. by apply Hbound.
  - intros [?|Heq]; [done|]. by rewrite !Hother.
Qed.
End bind_opt.

(** Every key of the policy context is either bound by the verified identity,
    whatever the caller supplied, or exactly what the caller supplied. *)
Lemma policy_context_provenance id ctx k :
  dget k (policy_context id ctx) =
  if decide (k ∈ verified_roots id) then dget k (policy_context id None)
  else dget k (default [] ctx).
Proof.
  destruct id as [i|]; [|done]. cbn [verified_roots policy_context].
  set (vs := default [] ctx). set (vs0 := default [] None).
  pose proof bind_caller_other. pose proof bind_caller_bound. pose proof bind_user_other.
  pose proof bind_user_bound. pose proof bind_workload_other. pose proof bind_workload_bound.
  case_decide as Hk.
  - repeat (eapply bind_opt_bound; [by auto..|]).
    destruct (decide (k ∈ roots_of (workload i) workload_roots)); [by left|right].
    eapply bind_opt_bound; [by auto..|].
    destruct (decide (k ∈ roots_of (user i) user_roots)); [by left|right].
    eapply bind_opt_bound; [by auto..|]. left. set_solver.
  - rewrite !not_elem_of_app in Hk. destruct Hk as (Hc & Hu & Hw).
    by rewrite (bind_opt_unbound _ workload_roots), (bind_opt_unbound _ user_roots),
      (bind_opt_unbound _ caller_roots).
Qed.

Definition key_root (key : string) : string := default key (head (split_dots key)).

Lemma lookup_context_root ctx ctx' key :
  dget (key_root key) ctx = dget (key_root key) ctx' ->
  lookup_context ctx key = lookup_context ctx' key.
Proof.
  unfold lookup_context, key_root. intros Hroot.
  destruct (split_dots key) as [|w ws] eqn:E; cbn in *; [|by rewrite Hroot].
  exfalso. destruct key as [|c key]; [done|]. cbn in E. by repeat case_match.
Qed.

Lemma conditions_match_roots conds ctx ctx' :
  (forall k, k ∈ dkeys conds -> dget (key_root k) ctx = dget (key_root k) ctx') ->
  conditions_match conds ctx = conditions_match conds ctx'.
Proof.
  intros H. unfold conditions_match. induction conds as [|[k e] conds IH]; [done|].
  cbn [forallb fst snd]. rewrite (lookup_context_root ctx ctx' k) by (apply H; cbn; left).
  f_equal. apply IH. intros k' Hk'. apply H. cbn. by right.
Qed.

Definition rooted_in (roots : list string) (r : PolicyRule) : Prop :=
  forall k, k ∈ dkeys (conditions r) -> key_root k ∈ roots.

Lemma rule_decision_context p id res action ctx ctx' :
  Forall (rooted_in (verified_roots id)) (rules p) ->
  rule_decision p id res action ctx = rule_decision p id res action ctx'.
Proof.
  rewrite Forall_forall. intros Hr. unfold rule_decision.
  rewrite (filterb_ext _ (rule_matches id res action ctx')); [done|].
  intros r Hin. unfold rule_matches. f_equal.
  apply conditions_match_roots. intros k Hk. 
  rewrite (policy_context_provenance id ctx), (policy_context_provenance id ctx').
  by rewrite !decide_True by by apply (Hr r Hin).
Qed.

(** Request metadata cannot spoof the verified identity.  When every
    condition of every rule is rooted at a key that the active identity binds,
    all five decisions are the same whatever context the caller supplies. *)
Theorem verified_conditions_not_spoofable p id ctx ctx' x mid prov :
  Forall (rooted_in (verified_roots id)) (rules p) ->
  evaluate_tool p id x ctx = evaluate_tool p id x ctx' /\
  evaluate_skill p id x ctx = evaluate_skill p id x ctx' /\
  evaluate_mcp p id x ctx = evaluate_mcp p id x ctx' /\
  evaluate_side_effect p id x ctx = evaluate_side_effect p id x ctx' /\
  evaluate_model p id x mid prov ctx = evaluate_model p id x mid prov ctx'.
Proof.
  intros Hr. unfold evaluate_tool, evaluate_skill, evaluate_mcp, evaluate_side_effect,
    evaluate_model.
  repeat (rewrite (rule_decision_context p id _ _ ctx ctx' Hr)). repeat split.
Qed.

Definition deny_tenant (t : string) : PolicyRule :=
  {| effect := DENY; resource := "tool:*"; actions := [];
     conditions := [("tenant_id", JStr t)] |}.
Definition policy_with_rules (rs : list PolicyRule) : AgentPolicy :=
  {| allowed_skills := []; denied_skills := []; allowed_tools := []; denied_tools := [];
     allowed_mcps := []; denied_mcps := []; model_restrictions := [];
     side_effect_policy := "allow"; approval_required := false; rules := rs |}.
Definition tenant_identity (t : string) : InvocationIdentity :=
  {| caller := None;
     user := Some {| user_id := "u"; tenant_id := Some t; roles := []; user_metadata := [] |};
     workload := None |}.

Lemma verified_conditions_not_spoofable_witness :
  allowed (evaluate_tool (policy_with_rules [deny_tenant "acme"]) (Some (tenant_identity "acme"))
             "db" (Some [("tenant_id", JStr "other")])) = false /\
  evaluate_tool (policy_with_rules [deny_tenant "acme"]) (Some (tenant_identity "acme")) "db"
    (Some [("tenant_id", JStr "other")]) =
  evaluate_tool (policy_with_rules [deny_tenant "acme"]) (Some (tenant_identity "acme")) "db" None.
Proof.
  split; [reflexivity|].
  apply (verified_conditions_not_spoofable (policy_with_rules [deny_tenant "acme"])
           (Some (tenant_identity "acme")) (Some [("tenant_id", JStr "other")]) None "db" None None).
  constructor; [|constructor]. intros k Hk. cbn in *. set_solver.
Defined.

(** An identity without a user leaves the user keys to the request.  For
    every active identity that binds no user, the tenant that a condition sees
    is whatever tenant the caller put in the context. *)
Theorem unbound_tenant_is_spoofable p i ctx tool t :
  user i = None -> dget "tenant_id" (default [] ctx) = Some (JStr t) ->
  rules p = [deny_tenant "acme"] -> allowed_tools p = [] -> denied_tools p = [] ->
  allowed (evaluate_tool p (Some i) tool ctx) = negb (String.eqb t "acme").
Proof.
  intros Hu Ht Hr Ha Hd. apply eq_bool_prop_intro. rewrite !Is_true_true, negb_true_iff.
  rewrite String.eqb_neq. rewrite (proj1 (policy_deny_wins p (Some i) ctx tool)), Ha, Hd.
  assert (Hm : rule_matches (Some i) ("tool:" ++ tool) "invoke" ctx (deny_tenant "acme") = true
               <-> t = "acme").
  { unfold rule_matches. cbn [deny_tenant resource actions conditions].
    assert (Hf : fnmatchcase ("tool:" ++ tool) "tool:*" = true).
    { apply (fnmatchcase_prefix _ "tool:"); [repeat constructor | by eexists]. }
    rewrite Hf.
    unfold conditions_match, lookup_context; cbn [forallb split_dots].
    assert (Hl : dget "tenant_id" (policy_context (Some i) ctx) = Some (JStr t)).
    { rewrite policy_context_provenance, decide_False; [done|]. cbn [verified_roots].
      rewrite Hu. destruct (caller i), (workload i); cbn; set_solver. }
    cbn -[policy_context]. rewrite Hl. cbn. rewrite andb_true_r. apply String.eqb_eq. }
  unfold denying. rewrite Hr. split.
  - intros [_ H] ->. apply (H (deny_tenant "acme")). split; [left|]. by rewrite Hm.
  - intros Ht'. split; [split; [set_solver | by left]|].
    intros r (Hin & _ & Hmr). apply list_elem_of_singleton in Hin as ->. by apply Ht', Hm.
Qed.

Lemma unbound_tenant_is_spoofable_witness :
  allowed (evaluate_tool (policy_with_rules [deny_tenant "acme"])
    (Some {| caller := Some {| caller_id := "c"; caller_type := "service"; caller_metadata := [] |};
             user := None; workload := None |}) "db" (Some [("tenant_id", JStr "other")])) = true.
Proof.
  exact (unbound_tenant_is_spoofable (policy_with_rules [deny_tenant "acme"])
    {| caller := Some {| caller_id := "c"; caller_type := "service"; caller_metadata := [] |};
       user := None; workload := None |}
    (Some [("tenant_id", JStr "other")]) "db" "other" eq_refl eq_refl eq_refl eq_refl eq_refl).
Defined.

(** ** What the strict parser accepts, and that it accepts every valid policy *)

Definition nonblank (s : string) : Prop := py_blank s = false.

Definition rule_valid (r : PolicyRule) : Prop := nonblank (resource r) /\ Forall nonblank (actions r).

Definition policy_valid (p : AgentPolicy) : Prop :=
  Forall (Forall nonblank)
    [allowed_skills p; denied_skills p; allowed_tools p; denied_tools p; allowed_mcps p; denied_mcps p]
  /\ side_effect_policy p ∈ ["allow"; "deny"] /\ Forall rule_valid (rules p).

(** The JSON document of a policy, for the round trip. *)
Definition effect_json (e : PolicyEffect) : json :=
  JStr match e with ALLOW => "allow" | DENY => "deny" end.
Definition rule_json (r : PolicyRule) : json :=
  JObj [("effect", effect_json (effect r)); ("resource", JStr (resource r));
        ("actions", str_list (actions r)); ("conditions", JObj (conditions r))].
Definition policy_doc (p : AgentPolicy) : list (string * json) :=
  [("allowed_skills", str_list (allowed_skills p)); ("denied_skills", str_list (denied_skills p));
   ("allowed_tools", str_list (allowed_tools p)); ("denied_tools", str_list (denied_tools p));
   ("allowed_mcps", str_list (allowed_mcps p)); ("denied_mcps", str_list (denied_mcps p));
   ("model_restrictions", JObj (model_restrictions p));
   ("side_effect_policy", JStr (side_effect_policy p));
   ("approval_required", JBool (approval_required p)); ("rules", JList (rule_json <$> rules p))].

Lemma policy_string_list_valid v n l : policy_string_list v n = Ok l -> Forall nonblank l.
Proof.
  unfold policy_string_list. destruct v as [| | | | |js|]; try done.
  destruct (forallb nonblank_str js) eqn:E; [|done]. intros; simplify_eq.
  rewrite forallb_elem in E. apply Forall_forall. intros s (j & Hj & Hin)%list_elem_of_omap.
  destruct j; cbn in *; simplify_eq. apply E in Hj. cbn in Hj. by apply negb_true_iff in Hj.
Qed.

Lemma policy_string_list_str_list n l :
  Forall nonblank l -> policy_string_list (str_list l) n = Ok l.
Proof.
  intros Hl. unfold policy_string_list, str_list.
  assert (forallb nonblank_str (JStr <$> l) = true) as ->.
  { induction Hl as [|s l Hs Hl IH]; [done|]. cbn. by rewrite Hs, IH. }
  f_equal. clear Hl. induction l as [|s l IH]; [done|]. cbn. f_equal. exact IH.
Qed.

Lemma policy_rule_valid j r : policy_rule j = Ok r -> rule_valid r.
Proof.
  unfold policy_rule. intros H. repeat (case_match; try done).
  all: result_inv. subst r. split; cbn; [done | by eapply policy_string_list_valid].
Qed.

Lemma policy_rules_valid j rs : policy_rules j = Ok rs -> Forall rule_valid rs.
Proof.
  destruct j as [| | | | |l|]; cbn; try done. rewrite mapM_ok.
  induction 1; constructor; [by eapply policy_rule_valid | done].
Qed.

Lemma policy_rule_json r : rule_valid r -> policy_rule (rule_json r) = Ok r.
Proof.
  intros [Hr Ha].
  transitivity (if py_blank (resource r)
    then Err (PolicySchemaError "rule resource must be a non-empty string")
    else acts ← policy_string_list (str_list (actions r)) "rule actions";
         Ok {| effect := effect r; resource := resource r; actions := acts;
               conditions := conditions r |}); [by destruct r as [[] ? ? ?]|].
  rewrite Hr, (policy_string_list_str_list _ _ Ha). by destruct r.
Qed.

Lemma policy_rules_json rs : Forall rule_valid rs -> policy_rules (JList (rule_json <$> rs)) = Ok rs.
Proof.
  intros H. apply mapM_ok. induction H as [|r rs Hr Hrs IH]; constructor; [|done].
  by apply policy_rule_json.
Qed.

Lemma unwrap_policy_ok payload d :
  unwrap_policy payload = Ok d -> payload = JObj d \/ payload = JObj [("policy", JObj d)].
Proof.
  destruct payload as [| | | | | |d0]; cbn -[dget]; try done.
  destruct (dget "policy" d0) as [inner|] eqn:E; [|intros; simplify_eq; by left].
  destruct (Nat.eqb_spec (length d0) 1) as [Hlen|]; cbn; [|done].
  destruct inner as [| | | | | |d']; try done. intros; simplify_eq. right.
  destruct d0 as [|[k v] [|]]; try done. apply dget_elem, list_elem_of_singleton in E.
  by simplify_eq.
Qed.

(** The policy parser is strict.  A payload it accepts is an object (bare
    or in the one-key wrapper) with known fields only, and the policy it
    yields has only non-blank names in its lists, a side-effect policy that is
    allow or deny, and rules with a non-blank resource and non-blank actions:
    a malformed policy is an error, never a wider one. *)
Theorem policy_parser_strict payload p :
  agent_policy_from_dict payload = Ok p ->
  policy_valid p /\
  exists d, (payload = JObj d \/ payload = JObj [("policy", JObj d)]) /\
            forall k, k ∈ dkeys d -> k ∈ policy_fields.
Proof.
  unfold agent_policy_from_dict. intros H.
  apply result_bind_ok in H as (d & Hd & H).
  destruct (nonempty _) eqn:Hu; [done|]. rewrite nonempty_false in Hu.
  split.
  - repeat (apply result_bind_ok in H as (? & ?%policy_string_list_valid & H)).
    case_match; [done..|]. apply result_bind_ok in H as (sep & Hsep & H).
    case_match; try done. apply result_bind_ok in H as (rs & Hrs & H). injection H as <-.
    split; [by repeat constructor|]. split; cbn.
    + unfold parse_side_effect_policy in Hsep. repeat (case_match; try done).
      simplify_eq. by apply memb_true.
    + by eapply policy_rules_valid.
  - exists d. split.
    + by apply unwrap_policy_ok.
    + intros k Hk. apply memb_true. destruct (memb k policy_fields) eqn:E; [done|].
      exfalso. apply (not_elem_of_nil k). rewrite <-Hu. apply elem_of_filterb. by rewrite E.
Qed.

(** Every valid policy has a document that parses back to it, bare or
    wrapped in [{"policy": ...}]. *)
Theorem policy_document_roundtrip p :
  policy_valid p ->
  agent_policy_from_dict (JObj (policy_doc p)) = Ok p /\
  agent_policy_from_dict (JObj [("policy", JObj (policy_doc p))]) = Ok p.
Proof.
  intros (Hl & Hs & Hr). rewrite !Forall_cons in Hl.
  destruct Hl as (H1 & H2 & H3 & H4 & H5 & H6 & _).
  enough (Hbare : agent_policy_from_dict (JObj (policy_doc p)) = Ok p) by (split; exact Hbare).
  unfold agent_policy_from_dict.
  assert (Hf : forall n l, Forall nonblank l -> dget n (policy_doc p) = Some (str_list l) ->
                           string_field (policy_doc p) n = Ok l).
  { intros n l Hl Hg. unfold string_field, get_or. rewrite Hg. by apply policy_string_list_str_list. }
  assert (unwrap_policy (JObj (policy_doc p)) = Ok (policy_doc p)) as -> by reflexivity.
  cbn [mbind result_bind]. change (nonempty (filterb (fun k => negb (memb k policy_fields)) (dkeys (policy_doc p)))) with false. cbv beta iota zeta.
  rewrite (Hf "allowed_skills" _ H1), (Hf "denied_skills" _ H2), (Hf "allowed_tools" _ H3),
    (Hf "denied_tools" _ H4), (Hf "allowed_mcps" _ H5), (Hf "denied_mcps" _ H6) by reflexivity.
  change (get_or "model_restrictions" (policy_doc p) (JObj [])) with (JObj (model_restrictions p)).
  change (get_or "side_effect_policy" (policy_doc p) (JStr "allow")) with (JStr (side_effect_policy p)).
  change (get_or "approval_required" (policy_doc p) (JBool false)) with (JBool (approval_required p)).
  change (get_or "rules" (policy_doc p) (JList [])) with (JList (rule_json <$> rules p)).
  assert (parse_side_effect_policy (JStr (side_effect_policy p)) = Ok (side_effect_policy p)) as ->.
  { unfold parse_side_effect_policy. by rewrite (proj2 (memb_true _ _) Hs). }
  cbn [mbind result_bind]. rewrite policy_rules_json by done. by destruct p.
Qed.

Lemma policy_document_roundtrip_witness :
  agent_policy_from_dict (JObj (policy_doc (policy_with_rules [deny_tenant "acme"]))) =
  Ok (policy_with_rules [deny_tenant "acme"]).
Proof.
  apply (policy_document_roundtrip (policy_with_rules [deny_tenant "acme"])).
  split; [repeat constructor|]. split; [left | repeat constructor].
Defined.

Lemma policy_parser_strict_witness : policy_valid (policy_with_rules [deny_tenant "acme"]).
Proof.
  exact (proj1 (policy_parser_strict (JObj (policy_doc (policy_with_rules [deny_tenant "acme"])))
                  (policy_with_rules [deny_tenant "acme"]) eq_refl)).
Defined.

Lemma approval_masks_deny_rules_witness :
  let p := {| allowed_skills := []; denied_skills := []; allowed_tools := []; denied_tools := [];
              allowed_mcps := []; denied_mcps := []; model_restrictions := [];
              side_effect_policy := "allow"; approval_required := true; rules := [] |} in
  requires_approval (evaluate_side_effect p None "pay" None) = true.
Proof.
  intros p. refine (proj2 (approval_masks_deny_rules p None None "pay" [deny_tenant "acme"] _ eq_refl)).
  discriminate.
Defined.

End Policy.
