(* ===== verification/Resilience.v ===== *)
(** * Retry taxonomy and the per-agent circuit breaker

    [micro_agent/resilience.py].  Exceptions are their class (with the class
    hierarchy of the core and of Python's built-ins that the code tests with
    [isinstance]) and the optional [retryable] attribute; the breaker is its
    five fields, every read of the injected clock an argument. *)

From S2P Require Import Prelude.

Module Resilience.

Inductive exn_class : Type :=
  | TimeoutError | PermissionError | AuthorizationError | ConnectionError
  | DependencyUnavailableError | CircuitOpenError | OSError
  | ValueError | TypeError | KeyError | ArithmeticError | RuntimeError
  | AuthenticationError | ContinuationNotFoundError | CheckpointNotFoundError
  | InvocationOverloadedError | RetrySuppressedAfterSideEffectError
  | ApprovalPausedError | ContractValidationError | RequestError | OtherException
  | CancelledError.   (** a [BaseException] that is not an [Exception] *)

#[export] Instance exn_class_eq_dec : EqDecision exn_class.
Proof. solve_decision. Defined.

(** The direct base class, when the code tests for it. *)
Definition base_class (c : exn_class) : option exn_class :=
  match c with
  | TimeoutError | PermissionError | ConnectionError => Some OSError
  | AuthorizationError => Some PermissionError
  | DependencyUnavailableError => Some ConnectionError
  | CircuitOpenError => Some DependencyUnavailableError
  | AuthenticationError | ContinuationNotFoundError | CheckpointNotFoundError
  | InvocationOverloadedError | RetrySuppressedAfterSideEffectError => Some RuntimeError
  | ContractValidationError => Some ValueError
  | _ => None
  end.

(** Four steps reach the root of every chain above. *)
Fixpoint subclass_within (n : nat) (c d : exn_class) : bool :=
  bool_decide (c = d) ||
  match n, base_class c with
  | S n, Some b => subclass_within n b d
  | _, _ => false
  end.

Definition subclass (c d : exn_class) : bool := subclass_within 4 c d.

Record exn : Type := { class : exn_class; declared_retryable : option bool; message : string }.

Definition isinstance (e : exn) (d : exn_class) : bool := subclass (class e) d.
Definition is_exception (e : exn) : bool := negb (bool_decide (class e = CancelledError)).

#[global] Arguments isinstance : simpl never.
#[global] Arguments is_exception : simpl never.

Definition raise (c : exn_class) (msg : string) : exn :=
  {| class := c; declared_retryable := None; message := msg |}.

Inductive Retryability : Type := RETRYABLE | NON_RETRYABLE.

#[export] Instance Retryability_eq_dec : EqDecision Retryability.
Proof. solve_decision. Defined.

Definition deterministic_errors : list exn_class :=
  [AuthenticationError; ContinuationNotFoundError; PermissionError; ValueError; TypeError;
   ArithmeticError].

Definition classify_retry (e : exn) : Retryability :=
  match declared_retryable e with
  | Some true => RETRYABLE
  | Some false => NON_RETRYABLE
  | None =>
      if isinstance e TimeoutError then NON_RETRYABLE
      else if existsb (isinstance e) deterministic_errors then NON_RETRYABLE
      else if isinstance e ConnectionError || isinstance e OSError then RETRYABLE
      else RETRYABLE
  end.

(** ** The breaker *)

Record CircuitBreaker : Type := {
  threshold : Z;
  cooldown : Q;
  consecutive_failures : Z;
  opened_at : option Q;
  half_open : bool
}.

Inductive breaker_state : Type := closed | half_open_state | open.

#[export] Instance breaker_state_eq_dec : EqDecision breaker_state.
Proof. solve_decision. Defined.

Definition new_breaker (threshold : Z) (cooldown_seconds : Q) : result exn CircuitBreaker :=
  if (threshold <? 1)%Z then Err (raise ValueError "circuit breaker threshold must be at least 1")
  else if (cooldown_seconds <=? 0)%clock
  then Err (raise ValueError "circuit breaker cooldown must be positive")
  else Ok {| threshold := threshold; cooldown := cooldown_seconds; consecutive_failures := 0;
             opened_at := None; half_open := false |}.

Definition state (b : CircuitBreaker) (now : Q) : breaker_state :=
  match opened_at b with
  | None => closed
  | Some t => if (cooldown b <=? now - t)%clock then half_open_state else open
  end.

Definition set_half_open (b : CircuitBreaker) : CircuitBreaker :=
  {| threshold := threshold b; cooldown := cooldown b;
     consecutive_failures := consecutive_failures b; opened_at := opened_at b; half_open := true |}.

(** [state] is read twice, at [now] and then at [now']. *)
Definition check (b : CircuitBreaker) (now now' : Q) : result exn CircuitBreaker :=
  if bool_decide (state b now = open)
  then Err (raise CircuitOpenError "circuit breaker open")
  else if bool_decide (state b now' = half_open_state) then Ok (set_half_open b) else Ok b.

Definition record_success (b : CircuitBreaker) : CircuitBreaker :=
  {| threshold := threshold b; cooldown := cooldown b; consecutive_failures := 0;
     opened_at := None; half_open := false |}.

Definition trip (b : CircuitBreaker) (now : Q) : breaker_state * CircuitBreaker :=
  (open, {| threshold := threshold b; cooldown := cooldown b;
            consecutive_failures := consecutive_failures b; opened_at := Some now;
            half_open := false |}).

Definition record_failure (b : CircuitBreaker) (now : Q) : breaker_state * CircuitBreaker :=
  let b' := {| threshold := threshold b; cooldown := cooldown b;
               consecutive_failures := consecutive_failures b + 1;
               opened_at := opened_at b; half_open := half_open b |} in
  if half_open b' then trip b' now
  else if (threshold b' <=? consecutive_failures b')%Z && bool_decide (opened_at b' = None)
  then trip b' now
  else (state b' now, b').

Definition snapshot (b : CircuitBreaker) (now : Q) : breaker_state * Z :=
  (state b now, consecutive_failures b).

(** ** Reachable breakers *)

Inductive breaker_step : CircuitBreaker -> CircuitBreaker -> Prop :=
  | step_check b now now' b' : (now <= now')%Q -> check b now now' = Ok b' -> breaker_step b b'
  | step_success b : breaker_step b (record_success b)
  | step_failure b now : breaker_step b (record_failure b now).2.

Definition reachable (b : CircuitBreaker) : Prop :=
  exists n c b0, new_breaker n c = Ok b0 /\ rtc breaker_step b0 b.

(** The circuit is closed exactly while fewer than [threshold] failures were
    recorded in a row, and only an opened circuit is being probed. *)
Definition breaker_inv (b : CircuitBreaker) : Prop :=
  (1 <= threshold b)%Z /\ (0 < cooldown b)%Q /\ (0 <= consecutive_failures b)%Z /\
  (opened_at b = None <-> (consecutive_failures b < threshold b)%Z) /\
  (half_open b = true -> opened_at b <> None).

Lemma new_breaker_inv n c b : new_breaker n c = Ok b -> breaker_inv b.
Proof.
  unfold new_breaker. destruct (Z.ltb_spec n 1); [done|]. clock_case; [done|].
  intros H1; simplify_eq. split; cbn; [done|]. clock_prop. naive_solver lia.
Qed.

Lemma breaker_step_inv b b' : breaker_step b b' -> breaker_inv b -> breaker_inv b'.
Proof.
  intros Hs (Ht & Hc & Hf & Ho & Hh). destruct Hs as [b now now' b' Hle Hck | b | b now].
  - unfold check in Hck. case_bool_decide as H1; [done|].
    case_bool_decide as H2; simplify_eq; [|done].
    unfold breaker_inv; cbn. repeat split; try done; try naive_solver.
    unfold state in H2. intros _ Hn. by rewrite Hn in H2.
  - unfold breaker_inv; cbn. repeat split; try done; lia.
  - unfold record_failure, breaker_inv; cbn. destruct (half_open b) eqn:Eh; cbn.
    + specialize (Hh eq_refl). repeat split; try done; try lia. naive_solver lia.
    + destruct (Z.leb_spec (threshold b) (consecutive_failures b + 1)); cbn;
        [case_bool_decide as E; cbn; rewrite ?E in *|];
        repeat split; try done; try lia; naive_solver lia.
Qed.

Lemma reachable_inv b : reachable b -> breaker_inv b.
Proof.
  intros (n & c & b0 & Hnew & Hr). apply new_breaker_inv in Hnew. revert Hnew.
  induction Hr; eauto using breaker_step_inv.
Qed.

(** Failures after a success, at the given times. *)
Definition fail_all (b : CircuitBreaker) (times : list Q) : CircuitBreaker :=
  foldl (fun b now => (record_failure b now).2) b times.

(** The breaker opens after exactly [threshold] consecutive failures.
    From any reachable breaker, after a recorded success a run of failures
    leaves the circuit closed while it is shorter than the threshold, and
    leaves it opened, at the time of the failure that reached the threshold,
    once it is that long, however many failures follow. *)
Theorem breaker_opens_at_threshold b times :
  reachable b ->
  let b' := fail_all (record_success b) times in
  consecutive_failures b' = Z.of_nat (length times) /\
  opened_at b' = times !! (Z.to_nat (threshold b) - 1).
Proof.
  intros [Ht _]%reachable_inv b'.
  enough (H : threshold b' = threshold b /\ half_open b' = false /\
              consecutive_failures b' = Z.of_nat (length times) /\
              opened_at b' = times !! (Z.to_nat (threshold b) - 1)) by tauto.
  subst b'. induction times as [|t ts IH] using rev_ind; [done|].
  unfold fail_all in *. rewrite foldl_snoc. set (b1 := foldl _ _ ts) in *.
  destruct IH as (H1 & H2 & H3 & H4). unfold record_failure; cbn. rewrite H2, H1, H3, H4.
  rewrite length_app; cbn.
  destruct (Z.leb_spec (threshold b) (Z.of_nat (length ts) + 1)) as [Hle|Hgt]; cbn.
  - case_bool_decide as E; cbn.
    + apply lookup_ge_None in E. repeat split; try done; try lia.
      rewrite lookup_app_r by lia. by replace (_ - _ - _) with 0 by lia.
    + repeat split; try done; try lia. symmetry. apply lookup_app_l.
      rewrite lookup_ge_None in E. lia.
  - repeat split; try done; try lia. rewrite !lookup_ge_None_2; [done | rewrite length_app; cbn; lia | lia].
Qed.

(** A call is rejected exactly while the circuit is opened and the
    cooldown has not elapsed, and a rejected call changes nothing; while it is
    closed every call passes unchanged. *)
Theorem check_rejects_iff_cooling b now now' :
  reachable b -> (now <= now')%Q ->
  (is_ok (check b now now') = false <->
     exists t, opened_at b = Some t /\ (now - t < cooldown b)%Q) /\
  ((consecutive_failures b < threshold b)%Z -> check b now now' = Ok b).
Proof.
  intros (_ & _ & _ & Ho & _)%reachable_inv Hle. unfold check, state.
  destruct (opened_at b) as [t|]; cbn.
  - split; [|intros Hf; by apply Ho in Hf].
    clock_case; cbn; [|split; [intros _; exists t; by clock_prop|done]].
    split; [by repeat case_match|]. intros (t' & ? & Hlt); simplify_eq. clock_prop. lra.
  - split; [|done]. split; [done|]. by intros (? & ? & _).
Qed.

(** Once the cooldown has elapsed the breaker admits every call, not one
    probe: any number of checks, one after the other, with no outcome recorded
    in between, all pass. *)
Theorem half_open_admits_every_call b t now n :
  opened_at b = Some t -> (cooldown b <= now - t)%Q ->
  Nat.iter (S n) (fun r => b' ← r; check b' now now) (Ok b) = Ok (set_half_open b).
Proof.
  intros Ho Hc.
  assert (Hck : forall b', opened_at b' = Some t -> cooldown b' = cooldown b ->
                           check b' now now = Ok (set_half_open b')).
  { intros b' H1 H2. unfold check, state. rewrite H1, H2.
    apply qleb_true in Hc. by rewrite Hc. }
  set (f := fun r => _). induction n as [|n IH]; [by apply Hck|].
  change (f (Nat.iter (S n) f (Ok b)) = Ok (set_half_open b)). rewrite IH.
  change (check (set_half_open b) now now = Ok (set_half_open (set_half_open b))).
  by apply Hck.
Qed.

Example new_breaker_3 : new_breaker 3 30 = Ok (Build_CircuitBreaker 3 30 0 None false).
Proof. reflexivity. Qed.

Lemma reachable_new n c b : new_breaker n c = Ok b -> reachable b.
Proof. intros H. exists n, c, b. split; [done | apply rtc_refl]. Qed.

Lemma breaker_opens_at_threshold_witness :
  opened_at (fail_all (record_success (Build_CircuitBreaker 3 30 0 None false)) [1; 2; 5; 7]%Q)
  = Some 5%Q.
Proof.
  exact (proj2 (breaker_opens_at_threshold (Build_CircuitBreaker 3 30 0 None false) [1; 2; 5; 7]%Q
                  (reachable_new 3 30 _ eq_refl))).
Defined.

Lemma check_rejects_iff_cooling_witness :
  check (Build_CircuitBreaker 3 30 0 None false) 5 6 = Ok (Build_CircuitBreaker 3 30 0 None false).
Proof.
  refine (proj2 (check_rejects_iff_cooling (Build_CircuitBreaker 3 30 0 None false) 5 6
                   (reachable_new 3 30 _ eq_refl) _) _); [discriminate | reflexivity].
Defined.

Lemma half_open_admits_every_call_witness :
  Nat.iter 4 (fun r => b' ← r; check b' 40 40) (Ok (Build_CircuitBreaker 1 30 1 (Some 10%Q) false))
  = Ok (Build_CircuitBreaker 1 30 1 (Some 10%Q) true).
Proof.
  refine (half_open_admits_every_call (Build_CircuitBreaker 1 30 1 (Some 10%Q) false) 10 40 3 eq_refl _).
  discriminate.
Defined.

End Resilience.
