(* ===== verification/Approvals.v ===== *)
(** * Pending approvals: paused invocations waiting for a decision

    [PendingApproval] and [InMemoryApprovalStore] of
    [micro_agent/security/approvals.py]. *)

From S2P Require Import Prelude Json.

Module Approvals.

Record PendingApproval : Type := {
  continuation_id : string;
  agent_id : string;
  tool_requests : list json;
  messages : list json;
  all_tool_results : list json;
  iterations : Z;
  request_id : option string;
  session_id : option string;
  input_payload : list (string * json);
  expires_at : option Q
}.

Definition set_expiry (a : PendingApproval) (t : Q) : PendingApproval :=
  {| continuation_id := continuation_id a; agent_id := agent_id a;
     tool_requests := tool_requests a; messages := messages a;
     all_tool_results := all_tool_results a; iterations := iterations a;
     request_id := request_id a; session_id := session_id a;
     input_payload := input_payload a; expires_at := Some t |}.

Definition with_ttl (a : PendingApproval) (ttl_seconds monotonic : Q) : PendingApproval :=
  set_expiry a (monotonic + ttl_seconds).

(** [(now or monotonic()) >= self.expires_at]: a zero [now] counts as absent. *)
Definition expired (a : PendingApproval) (now : option Q) (monotonic : Q) : bool :=
  match expires_at a with
  | None => false
  | Some t =>
      let at_ := match now with Some n => if Qeq_bool n 0 then monotonic else n | None => monotonic end in
      (t <=? at_)%clock
  end.

Record InMemoryApprovalStore : Type := {
  default_ttl : Q;
  approvals : list (string * PendingApproval)
}.

Definition new_store (ttl : Q) : InMemoryApprovalStore := {| default_ttl := ttl; approvals := [] |}.

Definition with_approvals (s : InMemoryApprovalStore) (d : list (string * PendingApproval)) :=
  {| default_ttl := default_ttl s; approvals := d |}.

Definition stamped (s : InMemoryApprovalStore) (a : PendingApproval) (monotonic : Q) :=
  match expires_at a with None => with_ttl a (default_ttl s) monotonic | Some _ => a end.

Definition save (s : InMemoryApprovalStore) (a : PendingApproval) (monotonic : Q) :=
  let a := stamped s a monotonic in
  with_approvals s (dset (continuation_id a) a (approvals s)).

Definition get (s : InMemoryApprovalStore) (cid : string) (monotonic : Q)
  : option PendingApproval * InMemoryApprovalStore :=
  match dget cid (approvals s) with
  | None => (None, s)
  | Some a =>
      if expired a None monotonic
      then (None, with_approvals s (dpop cid (approvals s)))
      else (Some a, s)
  end.

Definition delete (s : InMemoryApprovalStore) (cid : string) : InMemoryApprovalStore :=
  with_approvals s (dpop cid (approvals s)).

(** The deadline that [save] gives an approval at time [t]. *)
Definition deadline (s : InMemoryApprovalStore) (a : PendingApproval) (t : Q) : Q :=
  match expires_at a with Some e => e | None => t + default_ttl s end.

(** Operations on the store other than on one continuation. *)
Inductive other_op (cid : string) : InMemoryApprovalStore -> InMemoryApprovalStore -> Prop :=
  | other_save s a t : continuation_id a <> cid -> other_op cid s (save s a t)
  | other_get s c t : c <> cid -> other_op cid s (get s c t).2
  | other_delete s c : c <> cid -> other_op cid s (delete s c).

Lemma continuation_stamped s a t : continuation_id (stamped s a t) = continuation_id a.
Proof. unfold stamped. by case_match. Qed.

Lemma other_op_frame cid s s' :
  other_op cid s s' -> dget cid (approvals s') = dget cid (approvals s).
Proof.
  destruct 1 as [s a t Hne|s c t Hne|s c Hne]; cbn.
  - rewrite continuation_stamped. by apply dget_dset_ne.
  - unfold get. repeat case_match; cbn; try done. by apply dget_dpop_ne.
  - by apply dget_dpop_ne.
Qed.

(** A saved approval can be resumed until its deadline and not after.
    Whatever is done to other continuations in between, reading it returns the
    saved record (stamped with the default time to live when it had none)
    while the clock is before the deadline and nothing from the deadline on;
    the read that finds it expired removes it, and a consumed approval is
    gone. *)
Theorem approval_lifetime s a t s' now :
  rtc (other_op (continuation_id a)) (save s a t) s' ->
  let cid := continuation_id a in
  (get s' cid now).1 =
    (if (deadline s a t <=? now)%clock then None else Some (stamped s a t)) /\
  (get (delete s' cid) cid now).1 = None /\
  ((deadline s a t <= now)%Q -> forall later, (get (get s' cid now).2 cid later).1 = None).
Proof.
  intros Hr cid.
  assert (Hg : dget cid (approvals s') = Some (stamped s a t)).
  { transitivity (dget cid (approvals (save s a t))).
    - clear -Hr. induction Hr as [|x y z Hxy _ IH]; [done|]. rewrite IH. by apply other_op_frame.
    - cbn. rewrite continuation_stamped. apply dget_dset_eq. }
  assert (Hd : expires_at (stamped s a t) = Some (deadline s a t)).
  { unfold stamped, deadline. by destruct (expires_at a) eqn:E. }
  unfold get at 1 2. rewrite Hg. unfold expired. rewrite Hd. split; [by clock_case|].
  split; [cbn; unfold get; cbn; by rewrite dget_dpop_eq|].
  intros Hle later. apply qleb_true in Hle.
  unfold get at 2. rewrite Hg. unfold expired. rewrite Hd, Hle. cbn.
  unfold get; cbn. by rewrite dget_dpop_eq.
Qed.

Definition sample : PendingApproval :=
  {| continuation_id := "c1"; agent_id := "agent"; tool_requests := []; messages := [];
     all_tool_results := []; iterations := 1; request_id := None; session_id := None;
     input_payload := []; expires_at := None |}.

Lemma approval_lifetime_witness :
  (get (save (new_store 300) sample 10) "c1" 309).1 = Some (stamped (new_store 300) sample 10) /\
  (get (save (new_store 300) sample 10) "c1" 310).1 = None.
Proof.
  split.
  - exact (proj1 (approval_lifetime (new_store 300) sample 10 _ 309 (rtc_refl _ _))).
  - exact (proj1 (approval_lifetime (new_store 300) sample 10 _ 310 (rtc_refl _ _))).
Defined.

End Approvals.
