(* ===== verification/Invocation.v ===== *)
(** * One invocation: deadline, retries, fallback and the circuit breaker

    [_InvocationDeadline], [_wait_for_retry] and [AdkRuntime._invoke] of
    [runtimes/adk/runtime.py].  What one attempt ([_invoke_inner]) does is an
    oracle [env : nat -> attempt]; the control flow around the attempts is
    translated in full.  Telemetry counters and log lines are left out. *)

From S2P Require Import Prelude Json Resilience Approvals.
Import Resilience.

Module Invocation.

(** ** Deadlines *)

Definition Qmin2 (a b : Q) : Q := if (a <=? b)%clock then a else b.

Definition min_option (a b : option Q) : option Q :=
  match a, b with
  | Some x, Some y => Some (Qmin2 x y)
  | Some x, None | None, Some x => Some x
  | None, None => None
  end.

(** [_InvocationDeadline.from_seconds]: the shortest configured timeout. *)
Definition from_seconds (now : Q) (timeouts : list (option Q)) : option Q :=
  match foldr min_option None timeouts with
  | Some t => Some (now + t)%Q
  | None => None
  end.

Definition remaining (expires_at : option Q) (now : Q) : option Q :=
  match expires_at with Some e => Some (e - now)%Q | None => None end.

Definition deadline_expired (expires_at : option Q) (now : Q) : bool :=
  match remaining expires_at now with Some r => (r <=? 0)%clock | None => false end.

(** [_wait_for_retry]: the outcome and the clock when it returns or raises. *)
Definition wait_for_retry (delay : Q) (invocation_deadline retry_deadline : option Q) (now : Q)
  : result exn unit * Q :=
  let timeout := Err (raise TimeoutError "retry budget exceeded") in
  if (delay <=? 0)%clock then
    if deadline_expired invocation_deadline now || deadline_expired retry_deadline now
    then (timeout, now) else (Ok tt, now)
  else
    match min_option (remaining invocation_deadline now) (remaining retry_deadline now) with
    | Some allowed =>
        if (allowed <=? 0)%clock then (timeout, now)
        else if (allowed <? delay)%clock then (timeout, now + allowed)%Q
        else (Ok tt, now + delay)%Q
    | None => (Ok tt, now + delay)%Q
    end.

(** ** The invocation *)

Inductive ErrorPolicy : Type := FAIL | RETRY | FALLBACK.

Record semantics : Type := {
  error_policy : ErrorPolicy;
  retry_max_attempts : nat;
  retry_backoff_seconds : Q;
  retry_jitter_seconds : Q;
  timeout_seconds : option Q;
  retry_budget_seconds : option Q
}.

(** What [_invoke] reads of an [AgentRequest]. *)
Record request : Type := {
  request_id : string;
  session_id : option string;
  request_timeout : option Q
}.

Record AgentResponse : Type := {
  output : json;
  response_request_id : string;
  response_session_id : option string;
  status : string;
  error : option string;
  metadata : list (string * json)
}.

Inductive outcome : Type :=
  | Returned (r : AgentResponse)
  | Raised (e : exn)
  | Paused (a : Approvals.PendingApproval).

(** One run of [_invoke_inner]: how it ended, the side-effect tools it
    attempted, whether it emitted stream output, how long it took. *)
Record attempt : Type := {
  ended : outcome;
  attempted : list string;
  emitted : bool;
  duration : Q
}.

Record run_state : Type := {
  clock : Q;
  attempted_tools : list string;
  emitted_stream_output : bool;
  starts : list Q;
  breaker : option CircuitBreaker
}.

Definition with_breaker (s : run_state) (b : option CircuitBreaker) : run_state :=
  {| clock := clock s; attempted_tools := attempted_tools s;
     emitted_stream_output := emitted_stream_output s; starts := starts s; breaker := b |}.
Definition with_clock (s : run_state) (t : Q) : run_state :=
  {| clock := t; attempted_tools := attempted_tools s;
     emitted_stream_output := emitted_stream_output s; starts := starts s; breaker := breaker s |}.

Definition breaker_failure (s : run_state) : run_state :=
  with_breaker s ((fun b => (record_failure b (clock s)).2) <$> breaker s).
Definition breaker_success (s : run_state) : run_state :=
  with_breaker s (record_success <$> breaker s).

Section invoke.
Context (sem : semantics) (req : request).
Context (env : nat -> attempt) (jitter : nat -> Q).

Definition run_once (k : nat) (s : run_state) : outcome * run_state :=
  let a := env k in
  (ended a,
   {| clock := (clock s + duration a)%Q;
      attempted_tools := attempted_tools s ++ attempted a;
      emitted_stream_output := emitted_stream_output s || emitted a;
      starts := starts s ++ [clock s];
      breaker := breaker s |}).

Definition suppressed (s : run_state) : exn :=
  {| class := RetrySuppressedAfterSideEffectError; declared_retryable := Some false;
     message := "invocation retry suppressed after side-effect tool execution: " ++
                String.concat ", " (attempted_tools s) |}.

Definition paused_exn : exn := raise ApprovalPausedError "paused".

Definition retry_delay (k : nat) : Q :=
  (retry_backoff_seconds sem * inject_Z (2 ^ Z.of_nat k) +
   (if Qeq_bool (retry_jitter_seconds sem) 0 then 0 else jitter k))%Q.

Definition no_tools (s : run_state) : bool :=
  match attempted_tools s with [] => true | _ => false end.

(** [for retry_index in range(retry_max_attempts)] with [n] turns left, the
    next of which has index [k]. *)
Fixpoint retry_loop (deadline retry_deadline : option Q) (n k : nat) (retry_error : exn)
    (s : run_state) : result exn AgentResponse * run_state :=
  match n with
  | 0 => (Err retry_error, s)
  | S n =>
      if negb (no_tools s) then (Err (suppressed s), s)
      else if bool_decide (classify_retry retry_error = NON_RETRYABLE) then (Err retry_error, s)
      else
        match wait_for_retry (retry_delay k) deadline retry_deadline (clock s) with
        | (Err e, t) => (Err e, with_clock s t)
        | (Ok _, t) =>
            let '(o, s) := run_once (S k) (with_clock s t) in
            match o with
            | Returned r => (Ok r, s)
            | Paused _ => (Err paused_exn, s)
            | Raised e =>
                if isinstance e TimeoutError || isinstance e RetrySuppressedAfterSideEffectError
                   || negb (is_exception e)
                then (Err e, s)
                else retry_loop deadline retry_deadline n (S k) e s
            end
        end
  end.

Definition fallback_response (e : exn) : AgentResponse :=
  {| output := JObj []; response_request_id := request_id req; response_session_id := session_id req;
     status := "error"; error := Some (message e);
     metadata := [("error_policy"%string, JStr "fallback")] |}.

(** [str(tr.get("name", ""))] *)
Definition tool_name_of (j : json) : json :=
  match j with JObj d => default (JStr "") (dget "name"%string d) | _ => JStr "" end.

Definition approval_response (a : Approvals.PendingApproval) : AgentResponse :=
  {| output := JObj [("content"%string, JStr ""); ("tool_results"%string, JList (Approvals.all_tool_results a))];
     response_request_id := opt_or (Approvals.request_id a) (request_id req);
     response_session_id := Approvals.session_id a;
     status := "approval_required"; error := None;
     metadata := [("continuation_id"%string, JStr (Approvals.continuation_id a));
                  ("pending_tools"%string, JList (tool_name_of <$> Approvals.tool_requests a))] |}.

(** The [except Exception] arm, and the tail that records the success. *)
Definition handle_error (deadline retry_deadline : option Q) (e : exn) (s : run_state)
  : result exn AgentResponse * run_state :=
  if emitted_stream_output s
  then (Err (raise RuntimeError "invocation failed after streaming output was emitted; retry/fallback suppressed"), s)
  else
    let s := breaker_failure s in
    match error_policy sem with
    | RETRY =>
        if isinstance e RetrySuppressedAfterSideEffectError then (Err e, s)
        else if negb (no_tools s) then (Err (suppressed s), s)
        else if bool_decide (classify_retry e = NON_RETRYABLE) then (Err e, s)
        else retry_loop deadline retry_deadline (retry_max_attempts sem) 0 e s
    | FALLBACK => (Ok (fallback_response e), s)
    | FAIL => (Err e, s)
    end.

Definition finish (r : result exn AgentResponse * run_state) : result exn AgentResponse * run_state :=
  match r with
  | (Ok resp, s) => (Ok resp, breaker_success s)
  | (Err e, s) => (Err e, s)
  end.

Definition start_state (now : Q) (b : option CircuitBreaker) : run_state :=
  {| clock := now; attempted_tools := []; emitted_stream_output := false; starts := []; breaker := b |}.

(** [breaker.check] at the start; [None]: no breaker configured. *)
Definition check_breaker (b : option CircuitBreaker) (now : Q) : result exn (option CircuitBreaker) :=
  match b with
  | Some b => b ← check b now now; Ok (Some b)
  | None => Ok None
  end.

Definition invoke (now : Q) (b : option CircuitBreaker) : result exn AgentResponse * run_state :=
  let deadline := from_seconds now [timeout_seconds sem; request_timeout req] in
  let retry_deadline := from_seconds now [retry_budget_seconds sem] in
  match check_breaker b now with
  | Err e => (Err e, start_state now b)
  | Ok b =>
      let '(o, s) := run_once 0 (start_state now b) in
      match o with
      | Returned r => finish (Ok r, s)
      | Paused a => (Ok (approval_response a), s)
      | Raised e =>
          if isinstance e TimeoutError then (Err e, breaker_failure s)
          else if negb (is_exception e) then (Err e, s)
          else finish (handle_error deadline retry_deadline e s)
      end
  end.

(** ** The attempts that were made *)

(** An attempt that may be followed by another one: it failed with a
    retryable exception and touched no side-effect tool. *)
Definition retriable (a : attempt) : Prop :=
  attempted a = [] /\
  exists e, ended a = Raised e /\ classify_retry e = RETRYABLE /\
            isinstance e TimeoutError = false /\ is_exception e = true.

(** The state of the loop before turn [k]: attempts [0..k] were made, all but
    the last retriable, and the failed last one is the pending error. *)
Definition loop_inv (k : nat) (retry_error : exn) (s : run_state) : Prop :=
  length (starts s) = S k /\
  (forall i, i < k -> retriable (env i)) /\
  ended (env k) = Raised retry_error /\
  isinstance retry_error TimeoutError = false /\ is_exception retry_error = true /\
  (attempted_tools s = [] -> attempted (env k) = []).

(** What holds of the attempts when the invocation ends. *)
Definition attempts_ok (s : run_state) : Prop :=
  length (starts s) <= S (retry_max_attempts sem) /\
  forall i, S i < length (starts s) -> retriable (env i).

Lemma no_tools_true s : no_tools s = true <-> attempted_tools s = [].
Proof. unfold no_tools. destruct (attempted_tools s); split; congruence. Qed.

Lemma retry_loop_attempts d rd n k e s :
  k + n <= retry_max_attempts sem -> loop_inv k e s ->
  attempts_ok (retry_loop d rd n k e s).2.
Proof.
  revert k e s. induction n as [|n IH]; intros k e s Hn (Hlen & Hall & He & Ht & Hx & Htools);
    assert (Hdone : attempts_ok s) by (split; [lia|]; intros i Hi; apply Hall; lia).
  { done. }
  cbn. destruct (no_tools s) eqn:En; [|done]. cbn [negb].
  apply no_tools_true in En. case_bool_decide as Ec; [done|].
  assert (Hk : retriable (env k)).
  { split; [by apply Htools|]. exists e. repeat split; try done. by destruct (classify_retry e). }
  destruct (wait_for_retry _ _ _ _) as [[[]|e'] t]; [|exact Hdone]. cbn.
  set (s' := {| clock := _; attempted_tools := _; emitted_stream_output := _;
                starts := _; breaker := _ |}).
  assert (Hall' : forall i, i < S k -> retriable (env i)).
  { intros i Hi. destruct (decide (i = k)) as [->|]; [done|]. apply Hall. lia. }
  assert (Hlen' : length (starts s') = S (S k)) by (cbn; rewrite length_app, Hlen; cbn; lia).
  assert (Hdone' : attempts_ok s') by (split; [lia|]; intros i Hi; apply Hall'; lia).
  destruct (ended (env (S k))) as [r|e'|a] eqn:Ee; [exact Hdone'| |exact Hdone'].
  destruct (isinstance e' TimeoutError) eqn:E1; [exact Hdone'|].
  destruct (isinstance e' RetrySuppressedAfterSideEffectError) eqn:E2; [exact Hdone'|].
  destruct (is_exception e') eqn:E3; [|exact Hdone'].
  apply IH; [lia|]. split_and!; [exact Hlen' | exact Hall' | done | done | done |]. cbn. intros Hnil. by apply app_nil in Hnil as [_ ?].
Qed.

Lemma finish_attempts r : attempts_ok r.2 -> attempts_ok (finish r).2.
Proof. destruct r as [[?|?] s]; done. Qed.

Lemma invoke_attempts now b : attempts_ok (invoke now b).2.
Proof.
  unfold invoke. destruct (check_breaker b now) as [b'|e]; [|split; cbn; lia].
  cbn. set (s := {| clock := _; attempted_tools := _; emitted_stream_output := _;
                    starts := _; breaker := _ |}).
  assert (Hs : attempts_ok s) by (split; cbn; lia).
  destruct (ended (env 0)) as [r|e|a] eqn:Ee; [exact Hs| |exact Hs].
  destruct (isinstance e TimeoutError) eqn:E1; [exact Hs|].
  destruct (is_exception e) eqn:E3; [|exact Hs]. cbn [negb].
  apply finish_attempts. unfold handle_error.
  destruct (emitted_stream_output s); [exact Hs|].
  destruct (error_policy sem); try exact Hs.
  destruct (isinstance e RetrySuppressedAfterSideEffectError); [exact Hs|]. destruct (no_tools _) eqn:En; [|exact Hs]. cbn [negb].
  case_bool_decide; [exact Hs|]. apply retry_loop_attempts; [lia|].
  split_and!; [done | lia | done | done | done | done].
Qed.
End invoke.

(** C11: The number of attempts is bounded and no side effect is replayed.  An
    invocation makes at most one attempt plus the configured retries, and
    every attempt that is followed by another one ended in a retryable
    exception (never a timeout, a denial or a cancellation) without having
    attempted a single side-effect tool. *)
Theorem no_replay_after_side_effect sem req env jitter now b :
  let s := (invoke sem req env jitter now b).2 in
  length (starts s) <= S (retry_max_attempts sem) /\
  forall i, S i < length (starts s) -> retriable (env i).
Proof. apply invoke_attempts. Qed.

(** ** Deadlines bound when a retry may start *)

Definition within (limit : option Q) (t : Q) : Prop :=
  match limit with Some e => (t <= e)%Q | None => True end.

Lemma min_option_remaining d rd now m :
  min_option (remaining d now) (remaining rd now) = Some m ->
  within (remaining d now) m /\ within (remaining rd now) m.
Proof.
  unfold min_option, Qmin2. destruct d, rd; cbn; intros Hm; simplify_eq; cbn;
    split; try done; try lra; clock_case; clock_prop; lra.
Qed.

Lemma wait_for_retry_within delay d rd now t u :
  wait_for_retry delay d rd now = (Ok u, t) -> within d t /\ within rd t.
Proof.
  unfold wait_for_retry. destruct (qleb delay 0) eqn:Ed.
  - destruct (deadline_expired d now || deadline_expired rd now) eqn:Ex; [done|].
    apply orb_false_iff in Ex as [E1 E2]. intros [= <- <-].
    unfold deadline_expired in E1, E2. destruct d, rd; cbn in *; split; try done; clock_prop; lra.
  - destruct (min_option _ _) as [m|] eqn:Em.
    + apply min_option_remaining in Em as [H1 H2].
      destruct (qleb m 0); [done|]. destruct (qltb m delay) eqn:E; [done|]. intros [= <- <-].
      destruct d, rd; cbn in *; split; try done; clock_prop; lra.
    + intros _. by destruct d, rd.
Qed.

Section deadlines.
Context (sem : semantics) (env : nat -> attempt) (jitter : nat -> Q).

Definition retries_within (d rd : option Q) (s : run_state) : Prop :=
  forall i t, starts s !! S i = Some t -> within d t /\ within rd t.

Lemma retry_loop_within d rd n k e s :
  starts s <> [] -> retries_within d rd s ->
  retries_within d rd (retry_loop sem env jitter d rd n k e s).2.
Proof.
  revert k e s. induction n as [|n IH]; intros k e s Hne Hs; [exact Hs|].
  cbn. destruct (no_tools s); [|exact Hs]. cbn [negb]. case_bool_decide; [exact Hs|].
  destruct (wait_for_retry _ _ _ _) as [[u|e'] t] eqn:Ew; [|exact Hs]. cbn.
  apply wait_for_retry_within in Ew.
  set (s' := {| clock := _; attempted_tools := _; emitted_stream_output := _;
                starts := _; breaker := _ |}).
  assert (Hs' : retries_within d rd s').
  { intros i t'. cbn. rewrite lookup_app_Some. intros [Hi|[Hlen Hi]]; [by eapply Hs|].
    apply list_lookup_singleton_Some in Hi as [_ <-]. done. }
  destruct (ended (env (S k))) as [r|e'|a]; [exact Hs'| |exact Hs'].
  case_match; [exact Hs'|]. apply IH; [|exact Hs']. cbn. by destruct (starts s).
Qed.
End deadlines.

(** No retry starts after a deadline.  Every attempt but the first starts
    no later than the invocation deadline (the shortest of the declared and
    the requested timeout, counted from the start) and no later than the retry
    budget. *)
Theorem retries_respect_deadlines sem req env jitter now b i t :
  starts (invoke sem req env jitter now b).2 !! S i = Some t ->
  within (from_seconds now [timeout_seconds sem; request_timeout req]) t /\
  within (from_seconds now [retry_budget_seconds sem]) t.
Proof.
  unfold invoke. destruct (check_breaker b now) as [b'|e]; [|done]. cbn [run_once].
  set (s := {| clock := _; attempted_tools := _; emitted_stream_output := _;
               starts := _; breaker := _ |}).
  set (d := from_seconds now [timeout_seconds sem; request_timeout req]).
  set (rd := from_seconds now [retry_budget_seconds sem]).
  assert (Hs : retries_within d rd s) by (intros j u; by destruct j).
  enough (H : forall r : result exn AgentResponse * run_state,
             retries_within d rd r.2 -> retries_within d rd (finish r).2).
  { revert i t. change (retries_within d rd (
      let '(o, s) := (ended (env 0), s) in
      match o with
      | Returned r => finish (Ok r, s)
      | Paused a => (Ok (approval_response req a), s)
      | Raised e => if isinstance e TimeoutError then (Err e, breaker_failure s)
                    else if negb (is_exception e) then (Err e, s)
                    else finish (handle_error sem req env jitter d rd e s)
      end).2).
    destruct (ended (env 0)) as [r|e|a]; [exact Hs| |exact Hs].
    case_match; [exact Hs|]. case_match; [exact Hs|]. apply H. unfold handle_error.
    destruct (emitted_stream_output s); [exact Hs|]. destruct (error_policy sem); try exact Hs.
    repeat (case_match; [exact Hs|]). by apply retry_loop_within. }
  by intros [[?|?] ?].
Qed.

Lemma retry_loop_starts sem env jitter d rd n k e s :
  length (starts s) <= length (starts (retry_loop sem env jitter d rd n k e s).2).
Proof.
  revert k e s. induction n as [|n IH]; intros k e s; [done|].
  cbn. repeat (case_match; cbn; try done); try (rewrite length_app; cbn; lia).
  all: etransitivity; [|apply IH]; cbn; rewrite length_app; cbn; lia.
Qed.

(** ** Recovery: a transient failure followed by a success *)

Section recovery.
Context (sem : semantics) (req : request) (env : nat -> attempt) (jitter : nat -> Q).
Context (Hretry : error_policy sem = RETRY).
Context (Ht : timeout_seconds sem = None) (Hb : retry_budget_seconds sem = None).
Context (Hrt : request_timeout req = None).

Lemma wait_no_deadline delay now : exists t, wait_for_retry delay None None now = (Ok tt, t).
Proof. unfold wait_for_retry. clock_case; cbn; eauto. Qed.

Lemma retry_loop_step n k e s :
  attempted_tools s = [] -> classify_retry e = RETRYABLE ->
  exists t, retry_loop sem env jitter None None (S n) k e s =
    match ended (env (S k)) with
    | Returned r => (Ok r, (run_once env (S k) (with_clock s t)).2)
    | Paused _ => (Err paused_exn, (run_once env (S k) (with_clock s t)).2)
    | Raised e =>
        if isinstance e TimeoutError || isinstance e RetrySuppressedAfterSideEffectError
           || negb (is_exception e)
        then (Err e, (run_once env (S k) (with_clock s t)).2)
        else retry_loop sem env jitter None None n (S k) e (run_once env (S k) (with_clock s t)).2
    end.
Proof.
  intros Hs He. destruct (wait_no_deadline (retry_delay sem jitter k) (clock s)) as [t Hw].
  exists t. cbn. rewrite (proj2 (no_tools_true s) Hs), He, Hw. done.
Qed.

(** A retriable failure that the loop does not treat specially. *)
Definition transient (a : attempt) : Prop :=
  attempted a = [] /\
  exists e, ended a = Raised e /\ classify_retry e = RETRYABLE /\
    isinstance e TimeoutError = false /\ isinstance e RetrySuppressedAfterSideEffectError = false /\
    is_exception e = true.

Lemma retry_loop_recovers m k e s r :
  attempted_tools s = [] -> classify_retry e = RETRYABLE ->
  (forall i, k < i < S (k + m) -> transient (env i)) -> ended (env (S (k + m))) = Returned r ->
  forall n, m < n ->
  let res := retry_loop sem env jitter None None n k e s in
  res.1 = Ok r /\ length (starts res.2) = length (starts s) + S m.
Proof.
  revert k e s. induction m as [|m IH]; intros k e s Hs He Hall Hr n Hn;
    destruct n as [|n]; try lia; destruct (retry_loop_step n k e s Hs He) as [t Heq];
    cbv zeta; rewrite Heq.
  - rewrite Nat.add_0_r in Hr. rewrite Hr. cbn. rewrite length_app; cbn. done.
  - destruct (Hall (S k) ltac:(lia)) as (Htl & e' & He' & Hc & H1 & H2 & H3).
    rewrite He', H1, H2, H3. cbn [orb negb].
    destruct (IH (S k) e' (run_once env (S k) (with_clock s t)).2) with (n := n) as [Ha Hl].
    + cbn. by rewrite Hs, Htl.
    + done.
    + intros i Hi. apply Hall. lia.
    + by rewrite <-Hr, <-Nat.add_succ_comm.
    + lia.
    + split; [exact Ha|]. rewrite Hl. cbn. rewrite length_app; cbn. lia.
Qed.

Lemma invoke_first_failure b e now :
  ended (env 0) = Raised e -> classify_retry e = RETRYABLE ->
  isinstance e TimeoutError = false -> isinstance e RetrySuppressedAfterSideEffectError = false ->
  is_exception e = true -> attempted (env 0) = [] -> emitted (env 0) = false ->
  check_breaker b now = Ok b ->
  exists s, attempted_tools s = [] /\ length (starts s) = 1 /\
    invoke sem req env jitter now b =
    finish (retry_loop sem env jitter None None (retry_max_attempts sem) 0 e s).
Proof.
  intros He Hc H1 H2 H3 Htl Hem Hck. unfold invoke. rewrite Hck. cbn [run_once].
  set (s := {| clock := _; attempted_tools := _; emitted_stream_output := _;
               starts := _; breaker := _ |}).
  exists (breaker_failure s). rewrite He, H1, H3. cbn [negb]. split_and!; [cbn; by rewrite Htl | done |].
  unfold handle_error. cbv zeta.
  assert (emitted_stream_output s = false) as -> by (cbn; by rewrite Hem).
  rewrite Hretry, H2.
  assert (no_tools (breaker_failure s) = true) as -> by (apply no_tools_true; cbn; by rewrite Htl).
  rewrite Hc. cbn [negb]. rewrite bool_decide_false by done.
  unfold from_seconds. by rewrite Ht, Hb, Hrt.
Qed.
End recovery.

(** Transient failures are retried to success.  With the retry policy, no
    deadline and a closed circuit (or none), if the first [k] attempts fail
    transiently without side effects (the first without streaming output) and
    attempt [k] succeeds within the configured number of retries, then the
    invocation returns that response after exactly [k + 1] attempts. *)
Theorem transient_failures_recover sem req env jitter now b k r :
  error_policy sem = RETRY -> timeout_seconds sem = None -> retry_budget_seconds sem = None ->
  request_timeout req = None ->
  check_breaker b now = Ok b -> emitted (env 0) = false ->
  (forall i, i < k -> transient (env i)) -> ended (env k) = Returned r ->
  k <= retry_max_attempts sem ->
  let res := invoke sem req env jitter now b in
  res.1 = Ok r /\ length (starts res.2) = S k.
Proof.
  intros Hp Ht Hb Hrt Hck Hem Hall Hr Hk. destruct k as [|k].
  - cbv zeta. unfold invoke. rewrite Hck. cbn [run_once]. by rewrite Hr.
  - destruct (Hall 0 ltac:(lia)) as (Htl & e & He & Hc & H1 & H2 & H3).
    destruct (invoke_first_failure sem req env jitter Hp Ht Hb Hrt b e now)
      as (s & Hs & Hlen & Heq); try done.
    cbv zeta. rewrite Heq.
    destruct (retry_loop_recovers sem env jitter k 0 e s r Hs Hc) with (n := retry_max_attempts sem)
      as [Ha Hl]; [intros i Hi; apply Hall; lia | done | lia |].
    destruct (retry_loop _ _ _ _ _ _ _ _ _) as [[r'|e'] s']; cbn in *; [|done].
    split; [done|]. by rewrite Hl, Hlen.
Qed.

(** A pause for approval that happens on a retry is lost.  The first
    attempt pausing yields the [approval_required] response with its
    continuation id, but when a transient failure comes first and the retry
    pauses, the internal pause marker escapes as an exception and no response
    carries the continuation. *)
Theorem approval_pause_on_retry_escapes sem req env jitter now b a :
  error_policy sem = RETRY -> timeout_seconds sem = None -> retry_budget_seconds sem = None ->
  request_timeout req = None ->
  1 <= retry_max_attempts sem -> check_breaker b now = Ok b ->
  emitted (env 0) = false -> transient (env 0) -> ended (env 1) = Paused a ->
  (invoke sem req env jitter now b).1 = Err paused_exn /\
  (invoke sem req (fun _ => env 1) jitter now b).1 = Ok (approval_response req a).
Proof.
  intros Hp Ht Hb Hrt Hn Hck Hem (Htl & e & He & Hc & H1 & H2 & H3) Ha. split.
  - destruct (invoke_first_failure sem req env jitter Hp Ht Hb Hrt b e now)
      as (s & Hs & Hlen & ->); try done.
    destruct (retry_max_attempts sem) as [|n]; [lia|].
    destruct (retry_loop_step sem env jitter n 0 e s Hs Hc) as [t ->]. by rewrite Ha.
  - unfold invoke. rewrite Hck. cbn [run_once]. by rewrite Ha.
Qed.

(** The fallback policy disables the circuit breaker.  A failing attempt
    that falls back is answered with an error response and then recorded as a
    success: whatever the breaker was, it ends closed with no failure counted,
    so no number of failing invocations ever opens it. *)
Theorem fallback_resets_breaker sem req env jitter now b b' e :
  error_policy sem = FALLBACK -> check b now now = Ok b' ->
  ended (env 0) = Raised e -> isinstance e TimeoutError = false -> is_exception e = true ->
  emitted (env 0) = false ->
  let res := invoke sem req env jitter now (Some b) in
  res.1 = Ok (fallback_response req e) /\
  exists b'', breaker res.2 = Some b'' /\ opened_at b'' = None /\ consecutive_failures b'' = 0%Z /\
              threshold b'' = threshold b.
Proof.
  intros Hp Hck He H1 H3 Hem. cbv zeta. unfold invoke, check_breaker. rewrite Hck.
  cbn [mbind result_bind run_once]. rewrite He, H1, H3. cbn [negb]. unfold handle_error.
  cbn. rewrite Hem, Hp. cbn. split; [done|]. eexists. split_and!; try done. cbn.
  assert (threshold b' = threshold b) as <-.
  { unfold check in Hck. repeat case_bool_decide; simplify_eq; done. }
  unfold record_failure; cbn. repeat case_match; done.
Qed.

(** Stream output can be emitted twice.  The guard against retrying after
    output was streamed looks at the first attempt only: when the first
    attempt fails before any output and the second fails after emitting some,
    a third attempt is still made. *)
Theorem streamed_retry_not_suppressed sem req env jitter now b :
  error_policy sem = RETRY -> timeout_seconds sem = None -> retry_budget_seconds sem = None ->
  request_timeout req = None ->
  2 <= retry_max_attempts sem -> check_breaker b now = Ok b ->
  emitted (env 0) = false -> transient (env 0) -> transient (env 1) -> emitted (env 1) = true ->
  3 <= length (starts (invoke sem req env jitter now b).2).
Proof.
  intros Hp Ht Hb Hrt Hn Hck Hem (Htl & e & He & Hc & H1 & H2 & H3)
    (Htl' & e' & He' & Hc' & H1' & H2' & H3') _.
  destruct (invoke_first_failure sem req env jitter Hp Ht Hb Hrt b e now)
    as (s & Hs & Hlen & ->); try done.
  assert (Hfin : forall r : result exn AgentResponse * run_state, starts (finish r).2 = starts r.2)
    by (by intros [[?|?] ?]).
  rewrite Hfin. destruct (retry_max_attempts sem) as [|[|n]]; [lia..|].
  destruct (retry_loop_step sem env jitter (S n) 0 e s Hs Hc) as [t ->].
  rewrite He', H1', H2', H3'. cbn [orb negb].
  set (s1 := (run_once env 1 (with_clock s t)).2).
  assert (Hs1 : attempted_tools s1 = []) by (cbn; by rewrite Hs, Htl').
  assert (Hl1 : length (starts s1) = 2) by (cbn; rewrite length_app, Hlen; done).
  destruct (retry_loop_step sem env jitter n 1 e' s1 Hs1 Hc') as [t' ->].
  assert (Hl2 : length (starts (run_once env 2 (with_clock s1 t')).2) = 3)
    by (cbn; rewrite !length_app, Hlen; done).
  destruct (ended (env 2)) as [r|e2|a]; [cbn in *; lia| |cbn in *; lia].
  case_match; [cbn in *; lia|].
  rewrite <-Hl2. apply retry_loop_starts.
Qed.

(** ** Concrete invocations *)

Definition sample_semantics (p : ErrorPolicy) : semantics :=
  {| error_policy := p; retry_max_attempts := 2; retry_backoff_seconds := 1#2;
     retry_jitter_seconds := 0; timeout_seconds := None; retry_budget_seconds := None |}.

Definition reset : exn := raise ConnectionError "connection reset".
Definition sample_request : request :=
  {| request_id := "r1"; session_id := None; request_timeout := None |}.
Definition answer : AgentResponse :=
  {| output := JObj []; response_request_id := "r1"; response_session_id := None; status := "success"; error := None; metadata := [] |}.

Definition attempt_of (o : outcome) (streamed : bool) : attempt :=
  {| ended := o; attempted := []; emitted := streamed; duration := 1 |}.
Definition failing : attempt := attempt_of (Raised reset) false.

(** Fails, then does what [a] does from then on. *)
Definition after_failure (a : attempt) (i : nat) : attempt :=
  match i with 0 => failing | S _ => a end.

Lemma failing_transient : transient failing.
Proof. split; [done|]. by exists reset. Qed.

Lemma retries_respect_deadlines_witness :
  within (Some 10%Q) (3 # 2)%Q.
Proof.
  refine (proj1 (retries_respect_deadlines
    {| error_policy := RETRY; retry_max_attempts := 2; retry_backoff_seconds := 1#2;
       retry_jitter_seconds := 0; timeout_seconds := Some 10%Q; retry_budget_seconds := None |}
    sample_request (after_failure (attempt_of (Returned answer) false)) (fun _ => 0%Q) 0 None 0 (3#2)%Q _)).
  vm_compute. reflexivity.
Defined.

Lemma transient_failures_recover_witness :
  (invoke (sample_semantics RETRY) sample_request (after_failure (attempt_of (Returned answer) false))
     (fun _ => 0%Q) 0 None).1 = Ok answer.
Proof.
  refine (proj1 (transient_failures_recover (sample_semantics RETRY) sample_request
    (after_failure (attempt_of (Returned answer) false)) (fun _ => 0%Q) 0 None 1 answer
    eq_refl eq_refl eq_refl eq_refl eq_refl eq_refl _ eq_refl _)); [|cbn; lia].
  intros i Hi. replace i with 0 by lia. apply failing_transient.
Defined.

Lemma approval_pause_on_retry_escapes_witness :
  (invoke (sample_semantics RETRY) sample_request
     (after_failure (attempt_of (Paused Approvals.sample) false)) (fun _ => 0%Q) 0 None).1
  = Err paused_exn.
Proof.
  refine (proj1 (approval_pause_on_retry_escapes (sample_semantics RETRY) sample_request
    (after_failure (attempt_of (Paused Approvals.sample) false)) (fun _ => 0%Q) 0 None
    Approvals.sample eq_refl eq_refl eq_refl eq_refl _ eq_refl eq_refl failing_transient eq_refl)).
  cbn. lia.
Defined.

Lemma fallback_resets_breaker_witness :
  (invoke (sample_semantics FALLBACK) sample_request (fun _ => failing) (fun _ => 0%Q) 0
     (Some (Build_CircuitBreaker 1 30 0 None false))).1 = Ok (fallback_response sample_request reset).
Proof.
  exact (proj1 (fallback_resets_breaker (sample_semantics FALLBACK) sample_request (fun _ => failing)
    (fun _ => 0%Q) 0 (Build_CircuitBreaker 1 30 0 None false) _ reset
    eq_refl eq_refl eq_refl eq_refl eq_refl eq_refl)).
Defined.

Lemma streamed_retry_not_suppressed_witness :
  3 <= length (starts (invoke (sample_semantics RETRY) sample_request
    (after_failure (attempt_of (Raised reset) true)) (fun _ => 0%Q) 0 None).2).
Proof.
  refine (streamed_retry_not_suppressed (sample_semantics RETRY) sample_request
    (after_failure (attempt_of (Raised reset) true)) (fun _ => 0%Q) 0 None
    eq_refl eq_refl eq_refl eq_refl _ eq_refl eq_refl failing_transient _ eq_refl); [cbn; lia|].
  split; [done|]. by exists reset.
Defined.

End Invocation.
