(* ===== verification/Lifecycle.v ===== *)
(** * The agent lifecycle: initialize, start, invoke, stop, shutdown

    [DefaultMicroAgent] of [micro_agent/core/default_agent.py].  Each section
    that the code runs under [_lifecycle_lock] is one function on the agent's
    fields; the step relation interleaves those sections, the ends of in-flight
    invocations, and the phases of the one task that is stopping the agent.
    The runtime (an SPI) is the outcome of each of its calls. *)

From S2P Require Import Prelude Resilience.
Import Resilience.

Module Lifecycle.

Inductive AgentState : Type :=
  | CREATED | INITIALIZED | STARTING | READY | RUNNING | STOPPING | STOPPED | ERROR.

#[export] Instance AgentState_eq_dec : EqDecision AgentState.
Proof. solve_decision. Defined.

Inductive ConcurrencyPolicy : Type := WAIT | REJECT.

(** The part of the definition that the lifecycle reads. *)
Record config : Type := {
  max_concurrency : option nat;
  concurrency_policy : ConcurrencyPolicy;
  required_capabilities : list string;
  supports : string -> bool;
  streaming : bool
}.

(** Where the task that runs [stop] is; [NoStopper]: no such task. *)
Inductive stop_phase : Type := NoStopper | Draining | Cancelling | RuntimeStopping.

#[export] Instance stop_phase_eq_dec : EqDecision stop_phase.
Proof. solve_decision. Defined.

Record agent : Type := {
  st : AgentState;
  runtime_agent : bool;           (** [_runtime_agent is not None] *)
  active_invocations : Z;
  invocation_tasks : list nat;
  idle : bool;
  stop_complete : bool;
  stopper : stop_phase
}.

Definition new_agent : agent :=
  {| st := CREATED; runtime_agent := false; active_invocations := 0; invocation_tasks := [];
     idle := true; stop_complete := false; stopper := NoStopper |}.

Definition set_state (a : agent) (s : AgentState) : agent :=
  {| st := s; runtime_agent := runtime_agent a; active_invocations := active_invocations a;
     invocation_tasks := invocation_tasks a; idle := idle a; stop_complete := stop_complete a;
     stopper := stopper a |}.
Definition set_runtime (a : agent) (r : bool) : agent :=
  {| st := st a; runtime_agent := r; active_invocations := active_invocations a;
     invocation_tasks := invocation_tasks a; idle := idle a; stop_complete := stop_complete a;
     stopper := stopper a |}.
Definition set_stop (a : agent) (complete : bool) (p : stop_phase) : agent :=
  {| st := st a; runtime_agent := runtime_agent a; active_invocations := active_invocations a;
     invocation_tasks := invocation_tasks a; idle := idle a; stop_complete := complete;
     stopper := p |}.

Definition state_value (s : AgentState) : string :=
  match s with
  | CREATED => "created" | INITIALIZED => "initialized" | STARTING => "starting"
  | READY => "ready" | RUNNING => "running" | STOPPING => "stopping" | STOPPED => "stopped"
  | ERROR => "error"
  end.

Definition cannot (what : string) (a : agent) : exn :=
  raise RuntimeError ("Cannot " ++ what ++ " from state " ++ state_value (st a))%string.
Definition assertion_error : exn := raise OtherException "AssertionError".

(** [initialize]; [created]: how [runtime.create] ended. *)
Definition initialize (created : result exn unit) (a : agent) : result exn unit * agent :=
  if bool_decide (st a <> CREATED) then (Err (cannot "initialize" a), a)
  else match created with
       | Ok _ => (Ok tt, set_state (set_runtime a true) INITIALIZED)
       | Err e => (Err e, a)
       end.

Definition missing_capabilities (cfg : config) : list string :=
  sort_by str_leb (filterb (fun c => negb (supports cfg c)) (required_capabilities cfg)).

(** [start]; [started]: how [runtime.start] ended.  Cancellation is not an
    [Exception]: it leaves the agent starting. *)
Definition start (cfg : config) (started : result exn unit) (a : agent) : result exn unit * agent :=
  if bool_decide (st a <> INITIALIZED) then (Err (cannot "start" a), a)
  else if negb (runtime_agent a) then (Err assertion_error, a)
  else
    let a := set_state a STARTING in
    match missing_capabilities cfg with
    | (_ :: _) as missing =>
        (Err (raise RuntimeError ("Runtime does not support required capabilities: " ++
                                  String.concat ", " missing)%string), set_state a ERROR)
    | [] =>
        match started with
        | Ok _ => (Ok tt, set_state a READY)
        | Err e => (Err e, if is_exception e then set_state a ERROR else a)
        end
    end.

(** The guarded section at the start of [invoke] and [stream]: the task is
    admitted, has to wait on the condition (the lock is released and the whole
    section runs again), or an exception is raised. *)
Inductive admission : Type :=
  | Entered (a : agent)
  | Waits
  | Refused (e : exn).

Definition at_capacity (cfg : config) (a : agent) : bool :=
  match max_concurrency cfg with
  | Some m => (Z.of_nat m <=? active_invocations a)%Z
  | None => false
  end.

Definition enter (cfg : config) (want_stream valid_input : bool) (task : nat) (a : agent) : admission :=
  if at_capacity cfg a then
    match concurrency_policy cfg with
    | REJECT => Refused (raise InvocationOverloadedError "Invocation concurrency limit reached")
    | WAIT => Waits
    end
  else if bool_decide (st a <> READY) then Refused (cannot "invoke" a)
  else if want_stream && negb (streaming cfg) then Refused (raise RuntimeError "Runtime does not support streaming")
  else if negb (runtime_agent a) then Refused assertion_error
  else if negb valid_input then Refused (raise ValueError "input contract")
  else Entered
    {| st := st a; runtime_agent := runtime_agent a;
       active_invocations := active_invocations a + 1;
       invocation_tasks := task :: invocation_tasks a;
       idle := false; stop_complete := stop_complete a; stopper := stopper a |}.

(** The [finally] block: runs however the invocation ended. *)
Definition leave (task : nat) (a : agent) : agent :=
  let n := (active_invocations a - 1)%Z in
  {| st := st a; runtime_agent := runtime_agent a; active_invocations := n;
     invocation_tasks := filterb (fun t => negb (Nat.eqb t task)) (invocation_tasks a);
     idle := if (n =? 0)%Z then true else idle a;
     stop_complete := stop_complete a; stopper := stopper a |}.

(** The first section of [stop]. *)
Inductive stop_entry : Type :=
  | StopReturns                 (** stopped or never initialized *)
  | StopWaits                   (** another task is stopping: wait for it *)
  | StopRaises (e : exn)
  | StopBegins (a : agent).

Definition stop_begin (a : agent) : stop_entry :=
  match st a with
  | STOPPED | CREATED => StopReturns
  | STOPPING => StopWaits
  | _ =>
      if negb (runtime_agent a) then StopRaises assertion_error
      else StopBegins (set_stop (set_state a STOPPING) false Draining)
  end.

(** The last section, after [runtime.stop]; [stopped]: whether it returned. *)
Definition stop_finish (stopped : bool) (a : agent) : agent :=
  set_stop (set_state a (if stopped then STOPPED else ERROR)) true NoStopper.

Definition shutdown (a : agent) : agent := if runtime_agent a then set_runtime a false else a.

(** ** Interleavings *)

Section steps.
Context (cfg : config).

Inductive step : agent -> agent -> Prop :=
  | step_initialize created a : step a (initialize created a).2
  | step_start started a : step a (start cfg started a).2
  | step_enter ws vi t a a' :
      t ∉ invocation_tasks a -> enter cfg ws vi t a = Entered a' -> step a a'
  | step_leave t a : t ∈ invocation_tasks a -> step a (leave t a)
  | step_stop_begin a a' : stop_begin a = StopBegins a' -> step a a'
  | step_drained a :
      stopper a = Draining -> idle a = true -> step a (set_stop a (stop_complete a) RuntimeStopping)
  | step_drain_timeout a :
      stopper a = Draining -> step a (set_stop a (stop_complete a) Cancelling)
  | step_cancelled_drained a :
      stopper a = Cancelling -> idle a = true ->
      step a (set_stop a (stop_complete a) RuntimeStopping)
  | step_stop_finish stopped a : stopper a = RuntimeStopping -> step a (stop_finish stopped a)
  | step_stopper_cancelled a :
      (** the task running [stop] is itself cancelled at an [await] *)
      stopper a <> NoStopper -> step a (set_stop a (stop_complete a) NoStopper)
  | step_shutdown a : step a (shutdown a).

Definition reachable_agent (a : agent) : Prop := rtc step new_agent a.

Definition agent_inv (a : agent) : Prop :=
  active_invocations a = Z.of_nat (length (invocation_tasks a)) /\
  NoDup (invocation_tasks a) /\
  idle a = bool_decide (invocation_tasks a = []) /\
  (forall m, max_concurrency cfg = Some m -> length (invocation_tasks a) <= m) /\
  (invocation_tasks a <> [] -> st a = READY \/ st a = STOPPING) /\
  (stopper a <> NoStopper -> st a = STOPPING) /\
  (stopper a = RuntimeStopping -> invocation_tasks a = []) /\
  (st a = STOPPING -> stop_complete a = false) /\
  st a <> RUNNING.

Lemma filter_task_length t (l : list nat) :
  NoDup l -> t ∈ l -> S (length (filterb (fun x => negb (Nat.eqb x t)) l)) = length l.
Proof.
  induction 1 as [|x l Hx Hl IH]; [set_solver|]. cbn.
  destruct (Nat.eqb_spec x t) as [->|Hne]; cbn; intros Hin.
  - f_equal. rewrite filterb_all; [done|]. intros y Hy. destruct (Nat.eqb_spec y t); [|done].
    by subst.
  - rewrite IH; [done|]. by apply elem_of_cons in Hin as [->|?].
Qed.

Lemma initialize_inv created a : agent_inv a -> agent_inv (initialize created a).2.
Proof.
  intros H. unfold initialize. case_bool_decide as E; [exact H|]. destruct created; [|exact H].
  assert (st a = CREATED) as Hc by by destruct (decide (st a = CREATED)).
  destruct H as (H1 & H2 & H3 & H4 & H5 & H6 & H7 & H8 & H9). unfold agent_inv; cbn.
  split_and!; try done; intros Hx; exfalso; [destruct (H5 Hx) | specialize (H6 Hx)]; congruence.
Qed.

Lemma start_inv started a : agent_inv a -> agent_inv (start cfg started a).2.
Proof.
  intros H. unfold start. case_bool_decide as E; [exact H|].
  destruct (runtime_agent a); [|exact H]. cbn [negb].
  assert (st a = INITIALIZED) as Hc by by destruct (decide (st a = INITIALIZED)).
  destruct H as (H1 & H2 & H3 & H4 & H5 & H6 & H7 & H8 & H9).
  assert (Hnt : invocation_tasks a = []).
  { destruct (invocation_tasks a) eqn:Et; [done|]. destruct H5; congruence. }
  assert (Hns : stopper a = NoStopper).
  { destruct (stopper a); try done; specialize (H6 ltac:(done)); congruence. }
  assert (Hgoal : forall s, s <> STOPPING -> s <> RUNNING -> agent_inv (set_state (set_state a STARTING) s)).
  { intros s Hs Hs1. unfold agent_inv; cbn. split_and!; try done; by rewrite ?Hnt, ?Hns. }
  destruct (missing_capabilities cfg); [destruct started as [|e]|]; try (by apply Hgoal).
  cbn. destruct (is_exception e); [by apply Hgoal | by apply (Hgoal STARTING)].
Qed.

Lemma enter_inv ws vi t a a' :
  t ∉ invocation_tasks a -> enter cfg ws vi t a = Entered a' -> agent_inv a -> agent_inv a'.
Proof.
  intros Ht He (H1 & H2 & H3 & H4 & H5 & H6 & H7 & H8 & H9). unfold enter in He.
  destruct (at_capacity cfg a) eqn:Ec; [by destruct (concurrency_policy cfg)|].
  destruct (bool_decide (st a <> READY)) eqn:E; [done|].
  apply bool_decide_eq_false, dec_stable in E.
  repeat (case_match; try done). simplify_eq.
  unfold agent_inv; cbn. split_and!; try done.
  - lia.
  - by constructor.
  - intros m Hm. unfold at_capacity in Ec. rewrite Hm in Ec. apply Z.leb_gt in Ec. lia.
  - by left.
  - intros Hs. specialize (H6 ltac:(by rewrite Hs)). congruence.
Qed.

Lemma leave_inv t a : t ∈ invocation_tasks a -> agent_inv a -> agent_inv (leave t a).
Proof.
  intros Ht (H1 & H2 & H3 & H4 & H5 & H6 & H7 & H8 & H9). unfold agent_inv; cbn.
  pose proof (filter_task_length t _ H2 Ht) as Hlen.
  set (l := filterb _ (invocation_tasks a)) in *.
  split_and!; try done.
  - lia.
  - eapply sublist_NoDup; [exact H2|]. apply filterb_sublist.
  - destruct (Z.eqb_spec (active_invocations a - 1) 0) as [Hz|Hz].
    + symmetry. apply bool_decide_eq_true. apply length_zero_iff_nil. lia.
    + rewrite H3, !bool_decide_eq_false_2; [done | | by destruct (invocation_tasks a)].
      intros Hl. rewrite Hl in Hlen. cbn in Hlen. lia.
  - intros m Hm. specialize (H4 m Hm). lia.
  - intros _. apply H5. by destruct (invocation_tasks a).
  - intros Hs. specialize (H7 Hs). rewrite H7 in Ht. by apply not_elem_of_nil in Ht.
Qed.

Lemma set_stop_inv a p :
  agent_inv a -> stopper a <> NoStopper -> (p = RuntimeStopping -> idle a = true) ->
  agent_inv (set_stop a (stop_complete a) p).
Proof.
  intros (H1 & H2 & H3 & H4 & H5 & H6 & H7 & H8 & H9) Hs Hp. unfold agent_inv; cbn.
  split_and!; try done; [by intros _; apply H6|].
  intros ->. specialize (Hp eq_refl). rewrite H3 in Hp. by apply bool_decide_eq_true in Hp.
Qed.

Lemma step_inv a a' : step a a' -> agent_inv a -> agent_inv a'.
Proof.
  destruct 1; intros Hinv;
    eauto using initialize_inv, start_inv, enter_inv, leave_inv;
    try (apply set_stop_inv; [done | congruence | congruence]).
  - destruct Hinv as (H1 & H2 & H3 & H4 & H5 & H6 & H7 & H8 & H9).
    unfold stop_begin in H. repeat (case_match; try done); simplify_eq;
      unfold agent_inv; cbn; split_and!; auto; done.
  - destruct Hinv as (H1 & H2 & H3 & H4 & H5 & H6 & H7 & H8 & H9). specialize (H7 H).
    unfold agent_inv; cbn. split_and!; try done; by destruct stopped.
  - unfold shutdown. case_match; [|done].
    destruct Hinv as (H1 & H2 & H3 & H4 & H5 & H6 & H7 & H8 & H9).
    unfold agent_inv; cbn. by split_and!.
Qed.

Lemma reachable_agent_inv a : reachable_agent a -> agent_inv a.
Proof.
  intros Hr. assert (H0 : agent_inv new_agent).
  { unfold agent_inv; cbn. split_and!; try done; [constructor | intros; lia]. }
  revert H0. unfold reachable_agent in Hr. induction Hr; eauto using step_inv.
Qed.
End steps.

(** The concurrency accounting of a running agent.  In every reachable
    state, under any interleaving of invocations, stops and cancellations, the
    counter is the number of in-flight invocations, the idle event is set
    exactly when there is none, and the configured limit is never exceeded. *)
Theorem concurrency_limit_holds cfg a :
  reachable_agent cfg a ->
  active_invocations a = Z.of_nat (length (invocation_tasks a)) /\
  (idle a = true <-> active_invocations a = 0%Z) /\
  (forall m, max_concurrency cfg = Some m -> (active_invocations a <= Z.of_nat m)%Z).
Proof.
  intros (H1 & _ & H3 & H4 & _)%reachable_agent_inv. split_and!; [done| |].
  - rewrite H3, H1, bool_decide_eq_true. destruct (invocation_tasks a); cbn; split; (done || lia).
  - intros m Hm. specialize (H4 m Hm). lia.
Qed.

(** Graceful stop.  In every reachable state the runtime is only stopped
    when no invocation is in flight, a stopped agent has none, invocations are
    in flight only while the agent is ready or stopping, and once stopping or
    stopped the agent admits no new invocation. *)
Theorem stop_is_graceful cfg a ws vi t :
  reachable_agent cfg a ->
  (stopper a = RuntimeStopping -> invocation_tasks a = []) /\
  (st a = STOPPED -> invocation_tasks a = []) /\
  (invocation_tasks a <> [] -> st a = READY \/ st a = STOPPING) /\
  (st a <> READY -> forall a', enter cfg ws vi t a <> Entered a').
Proof.
  intros (_ & _ & _ & _ & H5 & _ & H7 & _)%reachable_agent_inv. split_and!; [done| |done|].
  - intros Hs. destruct (invocation_tasks a) eqn:E; [done|]. destruct H5; congruence.
  - intros Hs a'. unfold enter. repeat case_match; try done. by case_bool_decide.
Qed.

(** The edges of the lifecycle. *)
Definition lifecycle_edge (s s' : AgentState) : bool :=
  match s, s' with
  | CREATED, INITIALIZED | INITIALIZED, READY | INITIALIZED, ERROR | INITIALIZED, STOPPING
  | INITIALIZED, STARTING | STARTING, STOPPING
  | READY, STOPPING | ERROR, STOPPING | STOPPING, STOPPED | STOPPING, ERROR => true
  | _, _ => false
  end.

(** The lifecycle is followed.  Every step from a reachable state keeps
    the lifecycle state or moves along created, initialized, ready, stopping,
    stopped (with error after a failed start or stop, and starting after a
    cancelled start, from where the agent can only be stopped); a stopped agent
    stays stopped. *)
Theorem lifecycle_edges cfg a a' :
  reachable_agent cfg a -> step cfg a a' ->
  st a' = st a \/ lifecycle_edge (st a) (st a') = true.
Proof.
  intros (_ & _ & _ & _ & _ & H6 & _ & _ & H9)%reachable_agent_inv Hs.
  destruct Hs as [created a|started a|ws vi t a a' Ht He|t a Ht|a a' Hb|a Hp Hi|a Hp|a Hp Hi
                 |stopped a Hp|a Hp|a]; try (by left).
  - unfold initialize. case_bool_decide as E; [by left|]. destruct created; [right|by left].
    assert (st a = CREATED) as -> by by destruct (decide (st a = CREATED)). done.
  - unfold start. case_bool_decide as E; [by left|]. destruct (runtime_agent a); [right|by left].
    assert (st a = INITIALIZED) as -> by by destruct (decide (st a = INITIALIZED)).
    cbn [negb]. destruct (missing_capabilities cfg); [destruct started as [|e]|]; try done.
    cbn. by destruct (is_exception e).
  - left. unfold enter in He. repeat (case_match; try done); by simplify_eq.
  - right. unfold stop_begin in Hb.
    by repeat (case_match; try done); simplify_eq.
  - right. rewrite (H6 ltac:(by rewrite Hp)). by destruct stopped.
  - left. unfold shutdown. by case_match.
Qed.

(** ** What happens when the stopping task is cancelled *)

Definition orphaned (a : agent) : Prop :=
  st a = STOPPING /\ stopper a = NoStopper /\ stop_complete a = false.

Lemma orphaned_step cfg a a' : step cfg a a' -> orphaned a -> orphaned a'.
Proof.
  intros Hs (H1 & H2 & H3).
  destruct Hs as [created a|started a|ws vi t a a' Ht He|t a Ht|a a' Hb|a Hp Hi|a Hp|a Hp Hi
                 |stopped a Hp|a Hp|a]; try congruence; try done.
  - unfold initialize. by rewrite bool_decide_true by congruence.
  - unfold start. by rewrite bool_decide_true by congruence.
  - unfold enter in He. rewrite (bool_decide_true (st a <> READY)) in He by congruence.
    by repeat case_match.
  - unfold stop_begin in Hb. by rewrite H1 in Hb.
  - unfold shutdown. by case_match.
Qed.

(** Cancelling the task that stops the agent leaves it stopping for ever.
    If that task is cancelled at one of its awaits, then in every state that
    can follow the agent is still in the stopping state with nobody stopping
    it: no invocation is admitted, and every later call of [stop] waits for an
    event that is never set. *)
Theorem cancelled_stop_is_stuck cfg a a' ws vi t :
  reachable_agent cfg a -> stopper a <> NoStopper ->
  rtc (step cfg) (set_stop a (stop_complete a) NoStopper) a' ->
  st a' = STOPPING /\ stop_complete a' = false /\ stop_begin a' = StopWaits /\
  (forall a'', enter cfg ws vi t a' <> Entered a'').
Proof.
  intros (_ & _ & _ & _ & _ & H6 & _ & H8 & _)%reachable_agent_inv Hs Hr.
  assert (Ho : orphaned a').
  { assert (H0 : orphaned (set_stop a (stop_complete a) NoStopper)) by (split_and!; auto).
    revert H0. induction Hr; eauto using orphaned_step. }
  destruct Ho as (H1 & H2 & H3). split_and!; try done.
  - unfold stop_begin. by rewrite H1.
  - intros a''. unfold enter. rewrite (bool_decide_true (st a' <> READY)) by congruence.
    by repeat case_match.
Qed.

(** A stop that is not cancelled can always complete.  From every
    reachable state in which a task is stopping the agent, however many
    invocations are in flight, there is a run (the invocations end, the
    runtime stops) to the stopped state that releases every waiting stop. *)
Theorem stop_can_complete cfg a :
  reachable_agent cfg a -> stopper a <> NoStopper ->
  exists a', rtc (step cfg) a a' /\ st a' = STOPPED /\ stop_complete a' = true /\
             invocation_tasks a' = [].
Proof.
  remember (length (invocation_tasks a)) as n eqn:Hn. revert a Hn.
  induction n as [|n IH]; intros a Hn Hr Hs.
  - symmetry in Hn. apply length_zero_iff_nil in Hn.
    assert (Hidle : idle a = true).
    { apply reachable_agent_inv in Hr as (_ & _ & H3 & _). by rewrite H3, bool_decide_true. }
    assert (Hlast : forall b, invocation_tasks b = [] -> stopper b = RuntimeStopping ->
              exists a', rtc (step cfg) b a' /\ st a' = STOPPED /\ stop_complete a' = true /\
                         invocation_tasks a' = []).
    { intros b Hb Hp. exists (stop_finish true b). split; [|done].
      by apply rtc_once, step_stop_finish. }
    destruct (stopper a) eqn:Ep; [done| | |by apply Hlast];
      (destruct (Hlast (set_stop a (stop_complete a) RuntimeStopping)) as (a' & Hr' & Ha');
        [done..|]; exists a'; split; [|done]; eapply rtc_l; [|exact Hr']);
      [by apply step_drained | by apply step_cancelled_drained].
  - destruct (invocation_tasks a) as [|t ts] eqn:Et; [done|].
    assert (Hin : t ∈ invocation_tasks a) by (rewrite Et; left).
    assert (Hstep : step cfg a (leave t a)) by by apply step_leave.
    destruct (IH (leave t a)) as (a' & Hr' & Ha').
    + pose proof (reachable_agent_inv cfg a Hr) as (_ & Hnd & _).
      pose proof (filter_task_length t _ Hnd Hin) as Hlen.
      cbn [invocation_tasks leave]. rewrite Et in *. cbn [length] in *. lia.
    + eapply rtc_r; [exact Hr | exact Hstep].
    + done.
    + exists a'. split; [|done]. by eapply rtc_l.
Qed.

(** ** A concrete run: one invocation in flight when the stop begins *)

Definition sample_config : config :=
  {| max_concurrency := Some 1; concurrency_policy := REJECT; required_capabilities := [];
     supports := fun _ => true; streaming := true |}.

Definition stopping_agent : agent :=
  {| st := STOPPING; runtime_agent := true; active_invocations := 1; invocation_tasks := [7];
     idle := false; stop_complete := false; stopper := Draining |}.

Lemma stopping_agent_reachable : reachable_agent sample_config stopping_agent.
Proof.
  eapply rtc_l; [exact (step_initialize _ (Ok tt) _)|].
  eapply rtc_l; [exact (step_start _ (Ok tt) _)|].
  eapply rtc_l; [by eapply (step_enter _ false true 7); [set_solver | vm_compute; reflexivity]|].
  apply rtc_once. by apply step_stop_begin.
Qed.

Lemma concurrency_limit_holds_witness : (active_invocations stopping_agent <= 1)%Z.
Proof.
  exact (proj2 (proj2 (concurrency_limit_holds sample_config stopping_agent stopping_agent_reachable))
           1 eq_refl).
Defined.

Lemma stop_is_graceful_witness :
  (st stopping_agent = READY \/ st stopping_agent = STOPPING) /\
  exists e, enter sample_config false true 8 stopping_agent = Refused e.
Proof.
  split; [|by eexists].
  refine (proj1 (proj2 (proj2 (stop_is_graceful sample_config stopping_agent false true 8
    stopping_agent_reachable))) _). discriminate.
Defined.

Lemma lifecycle_edges_witness :
  st (leave 7 stopping_agent) = STOPPING \/ lifecycle_edge STOPPING (st (leave 7 stopping_agent)) = true.
Proof.
  refine (lifecycle_edges sample_config stopping_agent (leave 7 stopping_agent)
           stopping_agent_reachable (step_leave _ 7 _ _)). left.
Defined.

Lemma cancelled_stop_is_stuck_witness :
  stop_begin (set_stop stopping_agent false NoStopper) = StopWaits.
Proof.
  refine (proj1 (proj2 (proj2 (cancelled_stop_is_stuck sample_config stopping_agent
    (set_stop stopping_agent false NoStopper) false true 8 stopping_agent_reachable _ _)))).
  - discriminate.
  - apply rtc_refl.
Defined.

Lemma stop_can_complete_witness :
  exists a', rtc (step sample_config) stopping_agent a' /\ st a' = STOPPED /\
             stop_complete a' = true /\ invocation_tasks a' = [].
Proof.
  apply (stop_can_complete sample_config stopping_agent stopping_agent_reachable). discriminate.
Defined.

End Lifecycle.
