(* ===== verification/SideEffects.v ===== *)
(** * Safe side effects: the operation registry

    [micro_agent/security/side_effects.py].  What the runtime needs of an
    operation store is the class [OperationStore]: the runtime's theorems are
    proved against it, and the in-process [OperationRegistry] is an instance. *)

From S2P Require Import Prelude Json.

Module SideEffects.

Inductive RetryClassification : Type := SAFE | UNSAFE | IDEMPOTENT.

Record Operation : Type := {
  operation_id : string;
  idempotency_key : option string;
  tenant_id : option string;
  name : string;
  arguments : list (string * json);
  retry_classification : RetryClassification
}.

Record OperationResult : Type := {
  result_id : string;
  status : string;
  output : json;
  error : option string;
  was_deduplicated : bool
}.

Definition in_progress_result (id : string) : OperationResult :=
  {| result_id := id; status := "in_progress"; output := JNull; error := None;
     was_deduplicated := false |}.

(** [key = operation.idempotency_key; if not key: ...]: the key under which a
    store keeps an operation, [f] being how it joins key and tenant. *)
Definition operation_key (f : string -> option string -> string) (op : Operation) : option string :=
  match idempotency_key op with
  | Some k => if str_truthy k then Some (f k (tenant_id op)) else None
  | None => None
  end.

Definition storage_key : Operation -> option string := operation_key scoped_key.

(** ** The interface: a table of claimed and completed operations *)

Inductive entry : Type :=
  | InProgress (id : string)
  | Completed (r : OperationResult).

(** A stored result as a later claim is told it. *)
Definition same_answer (a b : OperationResult) : Prop :=
  result_id a = result_id b /\ status a = status b /\ output a = output b /\ error a = error b.

Class OperationStore (S : Type) : Type := {
  op_key : string -> option string -> string;
  usable : S -> Prop;
  lookup_op : S -> string -> option entry;
  claim : S -> Operation -> bool * option OperationResult * S;
  record : S -> Operation -> OperationResult -> S;
  claim_unkeyed : forall s op, operation_key op_key op = None -> claim s op = (true, None, s);
  claim_free : forall s op k, usable s -> operation_key op_key op = Some k -> lookup_op s k = None ->
    exists s', claim s op = (true, None, s') /\ usable s' /\
      forall k', lookup_op s' k' = if decide (k' = k) then Some (InProgress (operation_id op))
                                   else lookup_op s k';
  claim_taken : forall s op k e, usable s -> operation_key op_key op = Some k -> lookup_op s k = Some e ->
    exists prior, claim s op = (false, Some prior, s) /\
      match e with
      | Completed r => same_answer prior r
      | InProgress id => same_answer prior (in_progress_result id)
      end;
  record_usable : forall s op r, usable s -> usable (record s op r);
  record_keeps : forall s op r k, usable s -> is_Some (lookup_op s k) -> is_Some (lookup_op (record s op r) k);
  record_other : forall s op r k k', usable s -> operation_key op_key op = Some k -> k' <> k ->
    lookup_op (record s op r) k' = lookup_op s k';
  record_own : forall s op r k, usable s -> operation_key op_key op = Some k ->
    lookup_op s k = Some (InProgress (operation_id op)) -> status r <> "in_progress"%string ->
    lookup_op (record s op r) k = Some (Completed r)
}.

(** ** The in-process registry *)

Record OperationRegistry : Type := {
  completed : list (string * OperationResult);
  in_progress : list (string * string)
}.

Definition empty_registry : OperationRegistry := {| completed := []; in_progress := [] |}.

Definition registry_claim (s : OperationRegistry) (op : Operation)
  : bool * option OperationResult * OperationRegistry :=
  match storage_key op with
  | None => (true, None, s)
  | Some k =>
      match dget k (completed s) with
      | Some prior => (false, Some prior, s)
      | None =>
          match dget k (in_progress s) with
          | Some id => (false, Some (in_progress_result id), s)
          | None => (true, None, {| completed := completed s;
                                    in_progress := dset k (operation_id op) (in_progress s) |})
          end
      end
  end.

(** [record]: an operation without a key is stored under its own id. *)
Definition registry_record (s : OperationRegistry) (op : Operation) (r : OperationResult)
  : OperationRegistry :=
  match storage_key op with
  | Some k => {| completed := dset k r (completed s); in_progress := dpop k (in_progress s) |}
  | None => {| completed := dset (operation_id op) r (completed s); in_progress := in_progress s |}
  end.

Definition find_by_idempotency_key (s : OperationRegistry) (key : string) (tenant : option string)
  : option OperationResult := dget (scoped_key key tenant) (completed s).

Definition is_duplicate (s : OperationRegistry) (op : Operation) : bool :=
  match storage_key op with Some k => dmem k (completed s) | None => false end.

Definition registry_lookup (s : OperationRegistry) (k : string) : option entry :=
  match dget k (completed s) with
  | Some r => Some (Completed r)
  | None => InProgress <$> dget k (in_progress s)
  end.

Lemma registry_record_lookup s op r k k' :
  storage_key op = Some k ->
  registry_lookup (registry_record s op r) k' = if decide (k' = k) then Some (Completed r) else registry_lookup s k'.
Proof.
  intros Hk. unfold registry_record, registry_lookup. rewrite Hk. cbn.
  rewrite dget_dset. case_decide; [done|]. by rewrite dget_dpop_ne.
Qed.

#[export] Program Instance OperationRegistry_store : OperationStore OperationRegistry := {|
  op_key := scoped_key;
  usable := fun _ => True;
  lookup_op := registry_lookup;
  claim := registry_claim;
  record := registry_record
|}.
Next Obligation. intros s op H. unfold registry_claim, storage_key. by rewrite H. Qed.
Next Obligation.
  intros s op k _ Hk Hl. unfold registry_claim, registry_lookup, storage_key in *. rewrite Hk.
  destruct (dget k (completed s)) eqn:Hc; [done|]. destruct (dget k (in_progress s)) eqn:Hp; [done|].
  eexists. split; [done|]. split; [done|]. intros k'. cbn. rewrite dget_dset. case_decide; subst; [by rewrite Hc|done].
Qed.
Next Obligation.
  intros s op k e _ Hk Hl. unfold registry_claim, registry_lookup, storage_key in *. rewrite Hk.
  destruct (dget k (completed s)) eqn:Hc; [simplify_eq; by eexists|].
  destruct (dget k (in_progress s)) eqn:Hp; cbn in *; simplify_eq. by eexists.
Qed.
Next Obligation. done. Qed.
Next Obligation.
  intros s op r k _ Hl. destruct (storage_key op) as [k'|] eqn:Ek.
  - rewrite (registry_record_lookup s op r k' k Ek). case_decide; [by eexists | done].
  - unfold registry_record, registry_lookup in *. rewrite Ek. cbn. rewrite dget_dset. case_decide; [by eexists | done].
Qed.
Next Obligation. intros s op r k k' _ Hk Hne. rewrite (registry_record_lookup s op r k k' Hk). by rewrite decide_False. Qed.
Next Obligation. intros s op r k _ Hk _ _. rewrite (registry_record_lookup s op r k k Hk). by rewrite decide_True. Qed.

(** ** At most one claim per key *)

Section at_most_once.
Context {S : Type} `{OperationStore S}.

Inductive call : Type := Claim (op : Operation) | Report (op : Operation) (r : OperationResult).

Definition call_op (c : call) : Operation := match c with Claim op | Report op _ => op end.

(** The calls in order: the final store and which claims were granted. *)
Fixpoint run_calls (s : S) (cs : list call) : list Operation * S :=
  match cs with
  | [] => ([], s)
  | Claim op :: cs =>
      let '(granted, _, s) := claim s op in
      let '(l, s) := run_calls s cs in
      (if granted : bool then op :: l else l, s)
  | Report op r :: cs => run_calls (record s op r) cs
  end.

Definition keyed (k : string) (op : Operation) : bool := bool_decide (operation_key op_key op = Some k).

Lemma run_calls_claims k s cs :
  usable s -> (forall c, c ∈ cs -> operation_key op_key (call_op c) <> None) ->
  length (filterb (keyed k) (run_calls s cs).1) <=
  match lookup_op s k with Some _ => 0 | None => 1 end.
Proof.
  revert s. induction cs as [|c cs IH]; intros s Hu Hc; [cbn; lia|].
  assert (Hcs : forall c, c ∈ cs -> operation_key op_key (call_op c) <> None)
    by (intros c' Hc'; apply Hc; by right).
  assert (Hk : operation_key op_key (call_op c) <> None) by (apply Hc; left).
  destruct c as [op|op r]; cbn in *; destruct (operation_key op_key op) as [k'|] eqn:Ek; try done.
  - destruct (lookup_op s k') as [e|] eqn:El.
    + destruct (claim_taken s op k' e Hu Ek El) as (prior & -> & _).
      specialize (IH s Hu Hcs). by destruct (run_calls s cs).
    + destruct (claim_free s op k' Hu Ek El) as (s' & -> & Hu' & Hs').
      specialize (IH s' Hu' Hcs). destruct (run_calls s' cs) as [l s'']. cbn in *.
      rewrite Hs' in IH. unfold keyed at 1. rewrite Ek.
      case_bool_decide as E; cbn; case_decide as E'; simplify_eq; [|done].
      rewrite El. lia.
  - specialize (IH (record s op r) (record_usable s op r Hu) Hcs). pose proof (record_keeps s op r k Hu) as Hkeep.
    destruct (lookup_op s k) as [e|] eqn:El; [|destruct (lookup_op (record s op r) k); lia].
    destruct Hkeep as [e' He']; [by eexists|]. by rewrite He' in IH.
Qed.
End at_most_once.

(** An idempotent operation is granted at most once.  In any sequence of
    claims and records of keyed operations, for every storage key, at most one
    claim is granted, and none if the key was already claimed or completed;
    a refused claim reports the stored result or the operation in progress.
    This holds of every store that meets the interface. *)
Theorem claims_at_most_once {S : Type} `{OperationStore S} (s : S) cs k :
  usable s -> (forall c, c ∈ cs -> operation_key op_key (call_op c) <> None) ->
  length (filterb (keyed k) (run_calls s cs).1) <= 1 /\
  (is_Some (lookup_op s k) -> filterb (keyed k) (run_calls s cs).1 = []).
Proof.
  intros Hu Hc. pose proof (run_calls_claims k s cs Hu Hc) as Hl. split.
  - destruct (lookup_op s k); lia.
  - intros [e He]. rewrite He in Hl. apply length_zero_iff_nil. lia.
Qed.

(** The in-process registry behaves as a table keyed by tenant and key:
    claiming a free key marks it in progress, a second claim of the same
    tenant and key is refused with the id of the first, recording completes
    the key so that the result is found and duplicates are detected, and
    another tenant's key is never affected (separator-free names). *)
Theorem registry_claim_record op op' r s k :
  idempotency_key op = Some k -> idempotency_key op' = Some k -> str_truthy k = true ->
  separator_free k = true ->
  (forall t, tenant_id op = Some t -> separator_free t = true) ->
  (forall t, tenant_id op' = Some t -> separator_free t = true) ->
  registry_lookup s (scoped_key k (tenant_id op)) = None ->
  registry_lookup s (scoped_key k (tenant_id op')) = None ->
  exists s1, registry_claim s op = (true, None, s1) /\
    (if decide (tenant_id op' = tenant_id op)
     then registry_claim s1 op' = (false, Some (in_progress_result (operation_id op)), s1) /\
          registry_claim (registry_record s1 op r) op' = (false, Some r, registry_record s1 op r)
     else exists s2, registry_claim s1 op' = (true, None, s2)) /\
    find_by_idempotency_key (registry_record s1 op r) k (tenant_id op) = Some r /\
    is_duplicate (registry_record s1 op r) op = true /\ is_duplicate s1 op = false.
Proof.
  intros Hk Hk' Ht Hsep Hs Hs' Hfree Hfree'.
  assert (Ek : storage_key op = Some (scoped_key k (tenant_id op)))
    by (unfold storage_key, operation_key; by rewrite Hk, Ht).
  assert (Ek' : storage_key op' = Some (scoped_key k (tenant_id op')))
    by (unfold storage_key, operation_key; by rewrite Hk', Ht).
  set (key := scoped_key k (tenant_id op)) in *. set (key' := scoped_key k (tenant_id op')) in *.
  unfold registry_lookup in Hfree, Hfree'.
  destruct (dget key (completed s)) eqn:Hc; [done|].
  destruct (dget key (in_progress s)) eqn:Hp; [done|].
  eexists. split; [unfold registry_claim; by rewrite Ek, Hc, Hp|].
  split_and!.
  - case_decide as Et.
    + assert (key' = key) as Hkk by (unfold key, key'; by rewrite Et).
      unfold registry_claim, registry_record. rewrite Ek', Ek, Hkk. cbn.
      by rewrite Hc, !dget_dset_eq.
    + assert (key' <> key) as Hkk.
      { intros Heq. apply scoped_key_inj in Heq as [_ ?]; auto. }
      unfold registry_claim. rewrite Ek'. cbn. rewrite dget_dset_ne by done.
      destruct (dget key' (completed s)); [done|]. destruct (dget key' (in_progress s)); [done|].
      by eexists.
  - unfold find_by_idempotency_key, registry_record. rewrite Ek. cbn. apply dget_dset_eq.
  - unfold is_duplicate, registry_record. rewrite Ek. cbn. apply dmem_get.
    rewrite dget_dset_eq. by eexists.
  - unfold is_duplicate. rewrite Ek. cbn. apply not_true_iff_false. rewrite dmem_get, Hc.
    by intros [? ?].
Qed.

Definition sample_op (id key : string) (tenant : option string) : Operation :=
  {| operation_id := id; idempotency_key := Some key; tenant_id := tenant; name := "pay";
     arguments := []; retry_classification := UNSAFE |}.
Definition sample_result : OperationResult :=
  {| result_id := "a"; status := "success"; output := JInt 1; error := None;
     was_deduplicated := false |}.

Lemma claims_at_most_once_witness :
  length (filterb (keyed "k") (run_calls empty_registry
    [Claim (sample_op "a" "k" None); Claim (sample_op "b" "k" None);
     Report (sample_op "a" "k" None) sample_result; Claim (sample_op "c" "k" None)]).1) <= 1.
Proof.
  refine (proj1 (claims_at_most_once empty_registry
    [Claim (sample_op "a" "k" None); Claim (sample_op "b" "k" None);
     Report (sample_op "a" "k" None) sample_result; Claim (sample_op "c" "k" None)] "k" I _)).
  intros c Hc. repeat (apply elem_of_cons in Hc as [->|Hc]; [discriminate|]). inversion Hc.
Defined.

Lemma registry_claim_record_witness :
  is_duplicate (registry_record empty_registry (sample_op "a" "k" None) sample_result)
    (sample_op "a" "k" None) = true.
Proof.
  destruct (registry_claim_record (sample_op "a" "k" None) (sample_op "b" "k" (Some "acme"))
    sample_result empty_registry "k" eq_refl eq_refl eq_refl eq_refl) as (s1 & _).
  - discriminate.
  - intros t [= <-]. reflexivity.
  - reflexivity.
  - reflexivity.
  - reflexivity.
Defined.

End SideEffects.
