(* ===== verification/Tools.v ===== *)
(** * Executing the tool requests of a model turn

    [AdkRuntime._execute_tools], [_approval_needed], [_tool_wave_is_replay_safe],
    [_validate_tool_arguments] and [_new_operation] of [runtimes/adk/runtime.py],
    with the tool metadata of [micro_agent/tools/tool.py].  What a tool does is
    an oracle; the operation store is any [OperationStore]; spans, metrics and
    audit records are left out. *)

From S2P Require Import Prelude Json Identity Policy Resilience SideEffects.
From stdpp Require pretty.
Import Identity Policy Resilience SideEffects.
Local Open Scope string_scope.

Module Tools.

Inductive ToolSideEffect : Type := read_only | idempotent | unsafe.

#[export] Instance ToolSideEffect_eq_dec : EqDecision ToolSideEffect.
Proof. solve_decision. Defined.

Definition normalize_tool_side_effect (value : option string) : ToolSideEffect :=
  match value with
  | Some v =>
      if String.eqb v "read_only" then read_only
      else if String.eqb v "idempotent" then idempotent else unsafe
  | None => unsafe
  end.

Definition side_effect_name (s : ToolSideEffect) : string :=
  match s with read_only => "read_only" | idempotent => "idempotent" | unsafe => "unsafe" end.

(** A registered tool: its metadata and the two schema entries that the
    runtime reads. *)
Record Tool : Type := {
  tool_name : string;
  tool_side_effect : string;
  required_arguments : list string;
  argument_types : list (string * string)
}.

Record tool_request : Type := {
  request_name : string;
  request_id : option string;
  request_arguments : json
}.

(** ** Argument validation *)

Definition type_check (expected : string) : option (json -> bool) :=
  if String.eqb expected "string" then Some (fun v => match v with JStr _ => true | _ => false end)
  else if String.eqb expected "integer" then Some (fun v => match v with JInt _ => true | _ => false end)
  else if String.eqb expected "number" then
    Some (fun v => match v with JInt _ | JFloat _ => true | _ => false end)
  else if String.eqb expected "boolean" then Some (fun v => match v with JBool _ => true | _ => false end)
  else if String.eqb expected "array" then Some (fun v => match v with JList _ => true | _ => false end)
  else if String.eqb expected "object" then Some (fun v => match v with JObj _ => true | _ => false end)
  else if String.eqb expected "null" then Some (fun v => match v with JNull => true | _ => false end)
  else None.

Definition argument_ok (t : Tool) (kv : string * json) : bool :=
  match dget kv.1 (argument_types t) with
  | Some expected => match type_check expected with Some f => f kv.2 | None => true end
  | None => true
  end.

Definition validate_tool_arguments (t : Tool) (arguments : json) : option string :=
  match arguments with
  | JObj d =>
      match List.find (fun n => negb (dmem n d)) (required_arguments t) with
      | Some n => Some ("missing required argument " ++ quoted n)
      | None =>
          match List.find (fun kv => negb (argument_ok t kv)) d with
          | Some kv => Some ("argument " ++ quoted kv.1 ++ " must be of type " ++
                             default "" (dget kv.1 (argument_types t)))
          | None => None
          end
      end
  | _ => Some "arguments must be a JSON object"
  end.

(** ** The wave *)

(** What executing a tool can do. *)
Inductive tool_outcome : Type :=
  | Produced (output : json) (error : option string) (is_error : bool)
  | ToolTimedOut (deadline_expired : bool)
  | ToolRaised (message : string).

(** One entry of the results; its [latency_ms], a clock difference, is left out. *)
Record tool_result : Type := {
  result_tool : string;
  result_call_id : option string;
  result_output : json;
  result_error : option string;
  denied : bool;
  deduplicated : bool;
  result_side_effect : option ToolSideEffect   (** present once the side effect matters *)
}.

Section wave.
Context {S : Type} `{OperationStore S}.
Context (tools : list (string * Tool)) (side_effects : list (string * string)).
Context (policy : option AgentPolicy) (identity : option InvocationIdentity).
Context (use_registry skip_side_effect_approval : bool).
(** [uuid4()], [str(key)] of a truthy non-string key, and what call [n] does;
    [record_ok n] is whether storing its result succeeded. *)
Context (fresh_id : nat -> string) (py_str : json -> string).
Context (execute : nat -> tool_outcome) (record_ok : nat -> bool).

Definition side_effect_of (n : string) (t : Tool) : ToolSideEffect :=
  normalize_tool_side_effect
    (Some (opt_or (dget n side_effects) (tool_side_effect t))).

Definition retry_class (s : ToolSideEffect) : RetryClassification :=
  match s with read_only => SAFE | idempotent => IDEMPOTENT | unsafe => UNSAFE end.

Definition bound_tenant : option string :=
  match identity with
  | Some i => match user i with Some u => Identity.tenant_id u | None => None end
  | None => None
  end.

Definition new_operation (n : nat) (nm : string) (args : list (string * json))
    (rc : RetryClassification) : Operation :=
  {| operation_id := fresh_id n;
     idempotency_key :=
       match dget "idempotency_key" args with
       | Some v => if py_truthy v then Some (match v with JStr s => s | _ => py_str v end) else None
       | None => None
       end;
     SideEffects.tenant_id := bound_tenant;
     name := nm; arguments := args; retry_classification := rc |}.

Record wave_state : Type := {
  store : S;
  results : list tool_result;
  executed : list (nat * tool_request);   (** calls handed to a tool, oldest first *)
  attempted_tools : list string;
  calls : nat
}.

Definition plain_result (r : tool_request) (out : json) (err : option string) (den dedup : bool)
    (se : option ToolSideEffect) :=
  {| result_tool := request_name r; result_call_id := request_id r; result_output := out;
     result_error := err; denied := den; deduplicated := dedup;
     result_side_effect := se |}.

Definition push (w : wave_state) (res : tool_result) : wave_state :=
  {| store := store w; results := results w ++ [res]; executed := executed w;
     attempted_tools := attempted_tools w; calls := calls w |}.

(** The policy gate: the reason when the call is denied, with the side effect
    when it is the side-effect policy that denies. *)
Definition policy_denial (n : string) (se : ToolSideEffect)
  : option (string * option ToolSideEffect) :=
  match policy with
  | None => None
  | Some p =>
      let d := evaluate_tool p identity n None in
      if negb (allowed d) then Some ("denied by policy: " ++ reason d, None)
      else if bool_decide (se = read_only) then None
      else
        let d := evaluate_side_effect p identity n None in
        if negb (allowed d) && negb (skip_side_effect_approval && requires_approval d)
        then Some ("denied by side-effect policy: " ++ reason d, Some se)
        else None
  end.

Definition uses_registry (se : ToolSideEffect) : bool :=
  use_registry && negb (bool_decide (se = read_only)).

(** Run the tool and store its result. *)
Definition run_tool (r : tool_request) (se : ToolSideEffect) (op : option Operation)
    (w : wave_state) : option exn * wave_state :=
  let n := calls w in
  let w :=
    {| store := store w; results := results w; executed := executed w ++ [(n, r)];
       attempted_tools :=
         if bool_decide (se = read_only) then attempted_tools w
         else if memb (request_name r) (attempted_tools w) then attempted_tools w
         else attempted_tools w ++ [request_name r];
       calls := 1 + n |} in
  let finish (out : json) (err : option string) : option exn * wave_state :=
    let res := plain_result r out err false false (Some se) in
    match op with
    | None => (None, push w res)
    | Some op =>
        if record_ok n then
          (None, push
            {| store := record (store w) op
                 {| result_id := operation_id op;
                    status := if opt_truthy err then "failed" else "success";
                    output := out; error := err; was_deduplicated := false |};
               results := results w; executed := executed w;
               attempted_tools := attempted_tools w; calls := calls w |} res)
        else (Some (raise RetrySuppressedAfterSideEffectError
                ("operation result for side-effect tool " ++ quoted (request_name r) ++ " is unknown")), w)
    end in
  match execute n with
  | Produced out err is_err =>
      finish out (if is_err && negb (opt_truthy err) then Some "tool reported an error" else err)
  | ToolTimedOut true => (Some (raise TimeoutError "invocation deadline exceeded"), w)
  | ToolTimedOut false => finish JNull (Some ("tool " ++ quoted (request_name r) ++ " timed out"))
  | ToolRaised m => finish JNull (Some m)
  end.

Definition prior_error (prior : option OperationResult) : option string :=
  match prior with
  | Some p => if String.eqb (status p) "in_progress" then Some "operation is already in progress"
              else error p
  | None => None
  end.

Definition execute_request (r : tool_request) (w : wave_state) : option exn * wave_state :=
  match dget (request_name r) tools with
  | None => (None, push w (plain_result r JNull (Some ("unknown tool: " ++ request_name r)) false false None))
  | Some t =>
      let se := side_effect_of (request_name r) t in
      match validate_tool_arguments t (request_arguments r), request_arguments r with
      | None, JObj args =>
          match policy_denial (request_name r) se with
          | Some (why, se') => (None, push w (plain_result r JNull (Some why) true false se'))
          | None =>
              if uses_registry se then
                let op := new_operation (calls w) (request_name r) args (retry_class se) in
                match claim (store w) op with
                | (false, prior, s) =>
                    (None, push {| store := s; results := results w; executed := executed w;
                                attempted_tools := attempted_tools w; calls := calls w |}
                          (plain_result r (from_option output JNull prior) (prior_error prior)
                             false true (Some se)))
                | (true, _, s) =>
                    run_tool r se (Some op)
                      {| store := s; results := results w; executed := executed w;
                         attempted_tools := attempted_tools w; calls := calls w |}
                end
              else run_tool r se None w
          end
      | Some why, _ =>
          (None, push w (plain_result r JNull (Some ("invalid tool arguments: " ++ why)) false false None))
      | None, _ => (None, w)   (* unreachable: non-objects are rejected above *)
      end
  end.

(** The loop; an exception ends it and keeps the state reached. *)
Fixpoint execute_tools (rs : list tool_request) (w : wave_state) : option exn * wave_state :=
  match rs with
  | [] => (None, w)
  | r :: rs =>
      match execute_request r w with
      | (None, w') => execute_tools rs w'
      | (Some e, w') => (Some e, w')
      end
  end.

Definition approval_needed (rs : list tool_request) : bool :=
  match policy with
  | None => false
  | Some p =>
      existsb (fun r =>
        match dget (request_name r) tools with
        | None => false
        | Some t =>
            allowed (evaluate_tool p identity (tool_name t) None) &&
            negb (bool_decide (side_effect_of (request_name r) t = read_only)) &&
            requires_approval (evaluate_side_effect p identity (tool_name t) None)
        end) rs
  end.

Definition wave_is_replay_safe (rs : list tool_request) : bool :=
  forallb (fun r =>
    match dget (request_name r) tools with
    | None => true
    | Some t => bool_decide (side_effect_of (request_name r) t = read_only)
    end) rs.
End wave.

(** ** What a wave does *)

Section wave_lemmas.
Local Open Scope list_scope.
Context {S : Type} `{OperationStore S}.
Context (tools : list (string * Tool)) (side_effects : list (string * string)).
Context (policy : option AgentPolicy) (identity : option InvocationIdentity).
Context (use_registry skip : bool).
Context (fresh_id : nat -> string) (py_str : json -> string).
Context (execute : nat -> tool_outcome) (record_ok : nat -> bool).

Abbreviation request_step := (execute_request tools side_effects policy identity use_registry
  skip fresh_id py_str execute record_ok).
Abbreviation wave := (execute_tools tools side_effects policy identity use_registry
  skip fresh_id py_str execute record_ok).

(** The policy lets a call through: the tool is allowed, and a side effect is
    allowed or an approval that was granted is what it needed. *)
Definition policy_permits (n : string) (se : ToolSideEffect) : Prop :=
  match policy with
  | None => True
  | Some p =>
      allowed (evaluate_tool p identity n None) = true /\
      (se = read_only \/ allowed (evaluate_side_effect p identity n None) = true \/
       (skip = true /\ requires_approval (evaluate_side_effect p identity n None) = true))
  end.

Lemma policy_denial_none n se :
  policy_denial policy identity skip n se = None -> policy_permits n se.
Proof.
  unfold policy_denial, policy_permits. destruct policy as [p|]; [|done].
  destruct (allowed (evaluate_tool p identity n None)) eqn:E; cbn; [|done].
  intros Hd. split; [done|]. case_bool_decide; [by left|right].
  destruct (allowed (evaluate_side_effect p identity n None)); [by left|right].
  cbn in Hd. destruct (skip && requires_approval _) eqn:Es; [|done].
  by apply andb_true_iff in Es.
Qed.

(** A call that may be handed to its tool. *)
Definition permitted (r : tool_request) : Prop :=
  exists t args, dget (request_name r) tools = Some t /\ request_arguments r = JObj args /\
    validate_tool_arguments t (JObj args) = None /\
    policy_permits (request_name r) (side_effect_of side_effects (request_name r) t).

(** The key under which a request counts as a repetition: with an operation
    store, a side effect with an [idempotency_key] argument, per tenant. *)
Definition request_key (r : tool_request) : option string :=
  match dget (request_name r) tools, request_arguments r with
  | Some t, JObj args =>
      if use_registry && negb (bool_decide (side_effect_of side_effects (request_name r) t = read_only))
      then
        match dget "idempotency_key" args with
        | Some v =>
            let key := match v with JStr s => s | _ => py_str v end in
            if py_truthy v && str_truthy key then Some (op_key key (bound_tenant identity)) else None
        | None => None
        end
      else None
  | _, _ => None
  end.

Definition has_side_effect (r : tool_request) : Prop :=
  exists t, dget (request_name r) tools = Some t /\
            side_effect_of side_effects (request_name r) t <> read_only.

(** What a step does to the keys of the store: those taken stay taken, and a
    request that is executed takes its own, which was free. *)
Definition keys_spec (r : tool_request) (ran : Prop) (s s' : S) : Prop :=
  usable s -> usable s' /\ (forall k, is_Some (lookup_op s k) -> is_Some (lookup_op s' k)) /\
  (ran -> forall k, request_key r = Some k -> lookup_op s k = None /\ is_Some (lookup_op s' k)).

(** What one request does to the wave. *)
Definition step_spec (r : tool_request) (w w' : wave_state) : Prop :=
  (executed w' = executed w \/
   (executed w' = executed w ++ [(calls w, r)] /\ permitted r /\
    (has_side_effect r -> request_name r ∈ attempted_tools w'))) /\
  keys_spec r (executed w' <> executed w) (store w) (store w') /\
  (forall n, n ∈ attempted_tools w -> n ∈ attempted_tools w') /\
  (forall n, n ∈ attempted_tools w' -> n ∈ attempted_tools w \/ (n = request_name r /\ has_side_effect r)).

(** A request that is not executed. *)
Lemma not_run_spec r s w w' :
  executed w' = executed w -> attempted_tools w' = attempted_tools w -> store w' = s ->
  keys_spec r False (store w) s -> step_spec r w w'.
Proof.
  intros He Ha <- Hk. split_and!; [by left| |by rewrite Ha|rewrite Ha; by left].
  intros Hu. destruct (Hk Hu) as (? & ? & _). split_and!; done.
Qed.

Lemma keys_spec_refl r s : keys_spec r False s s.
Proof. intros Hu. by split_and!. Qed.

Lemma push_spec r w res : step_spec r w (push w res).
Proof. by apply (not_run_spec r (store w)); [..|apply keys_spec_refl]. Qed.

(** Storing a result, if there is an operation to store it for. *)
Lemma run_tool_spec r t args op w0 w e w' :
  dget (request_name r) tools = Some t -> request_arguments r = JObj args ->
  validate_tool_arguments t (JObj args) = None ->
  policy_permits (request_name r) (side_effect_of side_effects (request_name r) t) ->
  executed w = executed w0 -> calls w = calls w0 -> attempted_tools w = attempted_tools w0 ->
  keys_spec r True (store w0) (store w) ->
  run_tool execute record_ok r (side_effect_of side_effects (request_name r) t) op w = (e, w') ->
  step_spec r w0 w'.
Proof.
  intros Ht Ha Hv Hp He Hc Hat Hkeys Hrun.
  set (se := side_effect_of side_effects (request_name r) t) in *.
  set (later := if bool_decide (se = read_only) then attempted_tools w
              else if memb (request_name r) (attempted_tools w) then attempted_tools w
              else attempted_tools w ++ [request_name r]).
  assert (Hshape : executed w' = executed w ++ [(calls w, r)] /\ attempted_tools w' = later /\
            (store w' = store w \/ exists op' res, store w' = record (store w) op' res)).
  { unfold run_tool in Hrun. repeat (case_match; simplify_eq); cbn; split_and!; eauto. }
  destruct Hshape as (He' & Hlater & Hstore).
  assert (Hrec : usable (store w) -> usable (store w') /\ forall k, is_Some (lookup_op (store w) k) -> is_Some (lookup_op (store w') k)).
  { intros Hu. destruct Hstore as [->|(op' & res & ->)]; [done|].
    split; [by apply record_usable|]. intros k. by apply record_keeps. }
  assert (Hincl : forall n, n ∈ attempted_tools w -> n ∈ later)
    by (intros n Hn; unfold later; repeat case_match; set_solver).
  split_and!.
  - right. rewrite He', He, Hc, Hlater. split_and!; [done|by exists t, args|].
    intros (t' & Ht' & Hse). assert (t' = t) as -> by congruence. unfold later. rewrite bool_decide_false by done.
    destruct (memb _ _) eqn:Em; [by apply memb_true in Em | set_solver].
  - intros Hu. destruct (Hkeys Hu) as (Hu1 & Hmono & Hkey). destruct (Hrec Hu1) as (Hu' & Hkeep). split_and!; [done|by auto|].
    intros _ k Hk. destruct (Hkey I k Hk). auto.
  - intros n Hn. rewrite Hlater. apply Hincl. by rewrite Hat.
  - intros n. rewrite Hlater. unfold later. rewrite Hat. case_bool_decide; [by left|].
    destruct (memb (request_name r) (attempted_tools w0)); [by left|]. intros [?|Hn%list_elem_of_singleton]%elem_of_app; [by left|].
    right. split; [done|]. by exists t.
Qed.

(** Claiming the operation of a request. *)
Lemma claim_spec r op s granted prior s' :
  (forall k, request_key r = Some k -> operation_key op_key op = Some k) ->
  claim s op = (granted, prior, s') -> keys_spec r (granted = true) s s'.
Proof.
  intros Hrk Hc Hu. destruct (operation_key op_key op) as [k|] eqn:Hk.
  - destruct (lookup_op s k) as [en|] eqn:Hl.
    + destruct (claim_taken _ op k en Hu Hk Hl) as (p & Hcl & _). rewrite Hcl in Hc. injection Hc as <- <- <-. by split_and!.
    + destruct (claim_free _ op k Hu Hk Hl) as (s1 & Hcl & Hu' & Hs'). rewrite Hcl in Hc. injection Hc as <- <- <-.
      split_and!; [done| |].
      * intros k' Hk'. rewrite Hs'. case_decide; [by eexists | done].
      * intros _ k' Hk'%Hrk. simplify_eq. rewrite Hs', decide_True by done. eauto.
  - rewrite claim_unkeyed in Hc by done. injection Hc as <- <- <-. split_and!; [done|done|]. intros _ k' Hk'%Hrk. done.
Qed.

Lemma request_step_spec r w e w' : request_step r w = (e, w') -> step_spec r w w'.
Proof.
  unfold execute_request. intros Hr.
  destruct (dget (request_name r) tools) as [t|] eqn:Ht; [|simplify_eq; apply push_spec].
  destruct (validate_tool_arguments t (request_arguments r)) as [why|] eqn:Hv;
    [simplify_eq; apply push_spec|].
  destruct (request_arguments r) as [| | | | | |args] eqn:Ha; try done.
  destruct (policy_denial _ _ _ _ _) as [[why se]|] eqn:Hd; [simplify_eq; apply push_spec|].
  apply policy_denial_none in Hd.
  assert (Hrk : forall k, request_key r = Some k ->
            uses_registry use_registry (side_effect_of side_effects (request_name r) t) = true /\
            operation_key op_key (new_operation identity fresh_id py_str (calls w) (request_name r) args
              (retry_class (side_effect_of side_effects (request_name r) t))) = Some k).
  { intros k. unfold request_key, uses_registry, operation_key, new_operation. rewrite Ht, Ha. cbn.
    destruct (use_registry && _); [|done]. destruct (dget "idempotency_key" args) as [v|]; [|done].
    destruct (py_truthy v); [|done]. by destruct (str_truthy _). }
  destruct (uses_registry _ _) eqn:Hu.
  - set (op := new_operation _ _ _ _ _ _ _) in *. destruct (claim (store w) op) as [[granted prior] s'] eqn:Hc.
    apply (claim_spec r op (store w) granted prior s') in Hc; [|by intros k [_ ?]%Hrk]. destruct granted.
    + eapply run_tool_spec in Hr; [exact Hr|done..|]. cbn. intros Hs. destruct (Hc Hs) as (? & ? & Hk). split_and!; auto.
    + simplify_eq. apply (not_run_spec r s'); [done..|]. intros Hs. destruct (Hc Hs) as (? & ? & _). by split_and!.
  - eapply run_tool_spec in Hr; [exact Hr|done..|]. intros Hs. split_and!; [done|done|]. by intros _ k' [? _]%Hrk.
Qed.

(** Rule induction over the wave for a relation kept by every request. *)
Lemma wave_ind (P : wave_state -> Prop) rs w e w' :
  (forall r w w' e, r ∈ rs -> request_step r w = (e, w') -> P w -> P w') ->
  wave rs w = (e, w') -> P w -> P w'.
Proof.
  revert w. induction rs as [|r rs IH]; intros w Hstep Hw Hp; cbn in Hw; [by simplify_eq|].
  destruct (request_step r w) as [[e1|] w1] eqn:E.
  - simplify_eq. eapply Hstep; [left | exact E | done].
  - eapply IH; [|exact Hw|].
    + intros r' w2 w3 e' Hr'. apply Hstep. by right.
    + eapply Hstep; [left | exact E | done].
Qed.

(** A wave that ends normally has a result for every call it executed, and
    only requests of the wave are executed. *)
Lemma request_step_result r w w' :
  request_step r w = (None, w') ->
  (forall res, res ∈ results w -> res ∈ results w') /\
  (executed w' = executed w \/
   executed w' = executed w ++ [(calls w, r)] /\
   exists res, res ∈ results w' /\ result_tool res = request_name r /\
               result_call_id res = request_id r).
Proof.
  intros Hr. unfold execute_request, run_tool in Hr.
  repeat (case_match; simplify_eq); cbn;
    (split; [intros res Hres; try (apply elem_of_app; left); exact Hres|]); try (by left);
    right; (split; [done|]); eexists; (split; [apply elem_of_app; right; left|done]).
Qed.

(** A wave that ends normally answers its requests one by one, in their
    order, under their names and call ids. *)
Definition answers (r : tool_request) (res : tool_result) : Prop :=
  result_tool res = request_name r /\ result_call_id res = request_id r.

Lemma request_step_answers r w w' :
  request_step r w = (None, w') -> exists res, results w' = results w ++ [res] /\ answers r res.
Proof.
  intros Hr. unfold execute_request, run_tool in Hr.
  repeat (case_match; simplify_eq); cbn; try (by eexists); done.
Qed.

Lemma wave_answers rs w w' :
  wave rs w = (None, w') -> exists res, results w' = results w ++ res /\ Forall2 answers rs res.
Proof.
  revert w. induction rs as [|r rs IH]; intros w Hw; cbn in Hw.
  { simplify_eq. exists []. by rewrite app_nil_r. }
  destruct (request_step r w) as [[e|] w1] eqn:E; [done|].
  destruct (request_step_answers _ _ _ E) as (x & Hx & Ha). destruct (IH _ Hw) as (res & -> & Hres).
  exists (x :: res). rewrite Hx, <-app_assoc. split; [done|]. by constructor.
Qed.

Lemma wave_results rs w w' :
  wave rs w = (None, w') ->
  (forall res, res ∈ results w -> res ∈ results w') /\
  forall c, c ∈ executed w' -> c ∈ executed w \/
    exists res, res ∈ results w' /\ result_tool res = request_name c.2 /\
                result_call_id res = request_id c.2.
Proof.
  revert w. induction rs as [|r rs IH]; intros w Hw; cbn in Hw; [simplify_eq; by auto|].
  destruct (request_step r w) as [[e|] w1] eqn:E; [done|].
  destruct (request_step_result _ _ _ E) as [Hm1 Hex]. destruct (IH _ Hw) as [Hm2 Hc].
  split; [by auto|]. intros c Hin. destruct (Hc c Hin) as [Hc1|?]; [|by right].
  destruct Hex as [Heq|(Heq & res & Hres & Ht & Hid)]; rewrite Heq in Hc1; [by left|].
  apply elem_of_app in Hc1 as [?|Hc1%list_elem_of_singleton]; [by left|]. subst c.
  right. exists res. by auto.
Qed.

(** What a wave adds to the log are permitted requests of the wave. *)
Lemma wave_executed rs w e w' :
  wave rs w = (e, w') ->
  forall n r, (n, r) ∈ executed w' -> (n, r) ∈ executed w \/ (r ∈ rs /\ permitted r).
Proof.
  intros Hw. eapply (wave_ind (fun v => forall n r, (n, r) ∈ executed v ->
    (n, r) ∈ executed w \/ (r ∈ rs /\ permitted r))); [|exact Hw|by auto].
  intros r0 v v' e' Hin Hr IH n r Hn.
  apply request_step_spec in Hr as ([Heq|(Heq & Hperm & _)] & _); rewrite Heq in Hn; [by eapply IH|].
  apply elem_of_app in Hn as [Hn|Hn%list_elem_of_singleton]; [by eapply IH|]. simplify_eq. by right.
Qed.

Lemma replay_safe_request rs r :
  wave_is_replay_safe tools side_effects rs = true -> r ∈ rs -> ~ has_side_effect r.
Proof.
  unfold wave_is_replay_safe. rewrite forallb_elem. intros Hs Hr (t & Ht & Hse).
  specialize (Hs r Hr). rewrite Ht in Hs. by apply bool_decide_eq_true in Hs.
Qed.

Definition count_key (k : string) (l : list (nat * tool_request)) : nat :=
  length (filterb (fun c => bool_decide (request_key c.2 = Some k)) l).

Lemma count_key_snoc k l c :
  count_key k (l ++ [c]) = count_key k l + (if bool_decide (request_key c.2 = Some k) then 1 else 0).
Proof.
  unfold count_key. rewrite List.filter_app, length_app. cbn. by case_bool_decide.
Qed.

Definition room (k : string) (s : S) : nat := match lookup_op s k with Some _ => 0 | None => 1 end.

Lemma wave_count k rs w e w' :
  wave rs w = (e, w') -> usable (store w) ->
  count_key k (executed w') + room k (store w') <= count_key k (executed w) + room k (store w).
Proof.
  intros Hw Hu. eapply (wave_ind (fun v => usable (store v) /\
    count_key k (executed v) + room k (store v) <= count_key k (executed w) + room k (store w)));
    [|exact Hw|done].
  intros r v v' e' _ Hr [Hu1 Hle]. apply request_step_spec in Hr as (Hex & Hkeys & _).
  destruct (Hkeys Hu1) as (Hu2 & Hmono & Hkey). split; [done|].
  assert (Hroom : room k (store v') <= room k (store v)).
  { unfold room. destruct (lookup_op (store v) k) eqn:E; [|case_match; lia].
    destruct (Hmono k) as [? ->]; [by rewrite E|done]. }
  destruct Hex as [->|(Heq & _ & _)]; [lia|]. rewrite Heq, count_key_snoc. cbn.
  case_bool_decide as E; [|lia]. destruct (Hkey) with (k := k) as [Hn [x Hx]]; [|done|].
  { rewrite Heq. intros Hbad. apply (f_equal length) in Hbad. rewrite length_app in Hbad. cbn in Hbad. lia. }
  unfold room in *. rewrite Hn, Hx in *. lia.
Qed.
End wave_lemmas.

Section theorems.
Local Open Scope list_scope.
Context {S : Type} `{OperationStore S}.
Implicit Types (tools : list (string * Tool)) (se : list (string * string)).

Definition fresh_wave (s : S) : wave_state :=
  {| store := s; results := []; executed := []; attempted_tools := []; calls := 0 |}.

(** No tool runs past the deterministic policy.  Every call that a wave
    hands to a tool names a registered tool, carries arguments that pass
    validation, is allowed by the tool policy, and if the tool has a side
    effect that side effect is allowed, or needs exactly the approval that
    was granted; this holds for every wave of requests the model makes,
    also when the wave ends in an exception. *)
Theorem executed_calls_permitted tools se p id reg skip ids str ex rec_ok rs s e w n r :
  execute_tools tools se p id reg skip ids str ex rec_ok rs (fresh_wave s) = (e, w) ->
  (n, r) ∈ executed w -> permitted tools se p id skip r.
Proof.
  intros Hw. revert n r.
  eapply (wave_ind tools se p id reg skip ids str ex rec_ok
            (fun v => forall n r, (n, r) ∈ executed v -> permitted tools se p id skip r));
    [|exact Hw|cbn; set_solver].
  intros r0 v v' e' _ Hr IH n r Hin.
  apply request_step_spec in Hr as ([Heq|(Heq & Hperm & _)] & _);
    rewrite Heq in Hin; [by eapply IH|].
  apply elem_of_app in Hin as [Hin|Hin%list_elem_of_singleton]; [by eapply IH|]. by simplify_eq.
Qed.

(** C12: An idempotency key executes at most once.  Whatever wave of requests
    is run against whatever operation store meets the interface, for every
    storage key (tenant and idempotency key) at most one call with that key
    is handed to a tool, and none when the key was already claimed or
    completed. *)
Theorem keyed_call_executes_once tools se p id reg skip ids str ex rec_ok rs (s : S) e w k :
  usable s -> execute_tools tools se p id reg skip ids str ex rec_ok rs (fresh_wave s) = (e, w) ->
  count_key (S:=S) tools se id reg str k (executed w) <= 1 /\
  (is_Some (lookup_op s k) -> count_key (S:=S) tools se id reg str k (executed w) = 0).
Proof.
  intros Hu Hw. apply (wave_count tools se p id reg skip ids str ex rec_ok k) in Hw; [|done].
  cbn in Hw. unfold room in Hw at 2. change (count_key _ _ _ _ _ _ []) with 0 in Hw. split.
  - destruct (lookup_op s k); lia.
  - intros [x Hx]. rewrite Hx in Hw. lia.
Qed.

(** The replay guard sees every side effect.  Every executed call of a
    tool with a side effect is recorded among the attempted tools, even if
    the wave then raises, and a wave judged replay-safe records none. *)
Theorem attempted_tools_complete tools se p id reg skip ids str ex rec_ok rs (s : S) e w :
  execute_tools tools se p id reg skip ids str ex rec_ok rs (fresh_wave s) = (e, w) ->
  (forall n r, (n, r) ∈ executed w -> has_side_effect tools se r ->
               request_name r ∈ attempted_tools w) /\
  (wave_is_replay_safe tools se rs = true -> attempted_tools w = []).
Proof.
  intros Hw. split.
  - eapply (wave_ind tools se p id reg skip ids str ex rec_ok
            (fun v => forall n r, (n, r) ∈ executed v -> has_side_effect tools se r ->
                                  request_name r ∈ attempted_tools v));
      [|exact Hw|cbn; set_solver].
    intros r0 v v' e' _ Hr IH n r Hin Hse.
    apply request_step_spec in Hr as ([Heq|(Heq & _ & Hat)] & _ & Hincl & _);
      rewrite Heq in Hin; [by eapply Hincl, IH|].
    apply elem_of_app in Hin as [Hin|Hin%list_elem_of_singleton]; [by eapply Hincl, IH|].
    simplify_eq. by apply Hat.
  - intros Hsafe.
    eapply (wave_ind tools se p id reg skip ids str ex rec_ok (fun v => attempted_tools v = []));
      [|exact Hw|done].
    intros r v v' e' Hin Hr Hnil. apply request_step_spec in Hr as (_ & _ & _ & Hat).
    destruct (attempted_tools v') as [|n l] eqn:E; [done|].
    destruct (Hat n) as [Hbad|[_ (t & Ht & Hse)]]; [left|by rewrite Hnil in Hbad; inversion Hbad|].
    unfold wave_is_replay_safe in Hsafe. rewrite forallb_elem in Hsafe.
    specialize (Hsafe r Hin). rewrite Ht in Hsafe. by apply bool_decide_eq_true in Hsafe.
Qed.
End theorems.

(** ** A wave on concrete input *)

Definition pay_tool : Tool :=
  {| tool_name := "pay"; tool_side_effect := "unsafe"; required_arguments := ["amount"];
     argument_types := [("amount", "integer")] |}.
Definition pay_request (id : string) : tool_request :=
  {| request_name := "pay"; request_id := Some id;
     request_arguments := JObj [("amount", JInt 5); ("idempotency_key", JStr "k1")] |}.
Definition bad_request : tool_request :=
  {| request_name := "pay"; request_id := None; request_arguments := JObj [("amount", JStr "5")] |}.
Definition pay_wave := execute_tools [("pay", pay_tool)] [] (Some (policy_with_rules [])) None true false
  (fun _ => "op") (fun _ => "") (fun _ => Produced (JBool true) None false) (fun _ => true)
  [bad_request; pay_request "a"; pay_request "b"] (fresh_wave empty_registry).

Lemma executed_calls_permitted_witness :
  executed (snd pay_wave) = [(0, pay_request "a")] /\
  permitted [("pay", pay_tool)] [] (Some (policy_with_rules [])) None false (pay_request "a").
Proof.
  split; [reflexivity|].
  refine (executed_calls_permitted [("pay", pay_tool)] [] (Some (policy_with_rules [])) None true false
    (fun _ => "op") (fun _ => "") (fun _ => Produced (JBool true) None false) (fun _ => true)
    [bad_request; pay_request "a"; pay_request "b"] empty_registry None (snd pay_wave) 0 _ _ _).
  - reflexivity.
  - left.
Defined.

Lemma keyed_call_executes_once_witness :
  count_key (S:=OperationRegistry) [("pay", pay_tool)] [] None true (fun _ => "") "k1"
    (executed (snd pay_wave)) <= 1.
Proof.
  refine (proj1 (keyed_call_executes_once [("pay", pay_tool)] [] (Some (policy_with_rules [])) None true
    false (fun _ => "op") (fun _ => "") (fun _ => Produced (JBool true) None false) (fun _ => true)
    [bad_request; pay_request "a"; pay_request "b"] empty_registry None (snd pay_wave) "k1" I _)).
  reflexivity.
Defined.

Lemma attempted_tools_complete_witness : "pay" ∈ attempted_tools (snd pay_wave).
Proof.
  refine (proj1 (attempted_tools_complete [("pay", pay_tool)] [] (Some (policy_with_rules [])) None true
    false (fun _ => "op") (fun _ => "") (fun _ => Produced (JBool true) None false) (fun _ => true)
    [bad_request; pay_request "a"; pay_request "b"] empty_registry None (snd pay_wave) eq_refl)
    0 (pay_request "a") _ _).
  - left.
  - exists pay_tool. split; [reflexivity | discriminate].
Defined.

End Tools.
