(* ===== verification/Session.v ===== *)
(** * Sessions: the in-memory provider with optimistic versions

    [SessionContext], [SessionMetadata] and [InMemorySessionProvider] of
    [micro_agent/session/session.py].  Session contexts are Python objects that
    callers keep and mutate, so they live in a heap and the provider's
    dictionary holds references: [create] hands out the stored object itself,
    [get] a copy, and [update] stores the caller's object.  A timestamp is the
    instant its ISO text denotes. *)

From S2P Require Import Prelude Json.

Module Session.

Record SessionContext : Type := {
  session_id : string;
  messages : list json;
  metadata : list (string * json);
  caller_context : list (string * json);
  tenant_id : option string;
  version : Z
}.

Record SessionMetadata : Type := {
  meta_session_id : string;
  created_at : Q;
  expires_at : option Q;
  is_active : bool;
  meta_tenant_id : option string;
  meta_version : Z
}.

(** [StateConflictError(kind, key, expected, actual)]. *)
Record StateConflictError : Type := {
  kind : string; key : string; expected : Z; actual : Z
}.

Abbreviation ref := nat (only parsing).

Record InMemorySessionProvider : Type := {
  heap : list SessionContext;              (** every context ever allocated *)
  sessions : list (string * ref);
  session_metadata : list (string * SessionMetadata);
  ttl_default : option Q
}.

Definition new_provider (ttl : option Q) : InMemorySessionProvider :=
  {| heap := []; sessions := []; session_metadata := []; ttl_default := ttl |}.

Definition set_version (c : SessionContext) (v : Z) : SessionContext :=
  {| session_id := session_id c; messages := messages c; metadata := metadata c;
     caller_context := caller_context c; tenant_id := tenant_id c; version := v |}.

Definition context_key (c : SessionContext) : string := scoped_key (session_id c) (tenant_id c).

Definition expiry (p : InMemorySessionProvider) (ttl_seconds : option Q) (now : Q) : option Q :=
  match (match ttl_seconds with Some t => Some t | None => ttl_default p end) with
  | None => None
  | Some ttl => Some (now + ttl)%Q
  end.

Definition is_expired (m : SessionMetadata) (now : Q) : bool :=
  if negb (is_active m) then true
  else match expires_at m with None => false | Some e => (e <=? now)%clock end.

(** Allocate an object on the heap. *)
Definition alloc (p : InMemorySessionProvider) (c : SessionContext) : ref * InMemorySessionProvider :=
  (length (heap p),
   {| heap := heap p ++ [c]; sessions := sessions p; session_metadata := session_metadata p;
      ttl_default := ttl_default p |}).

Definition with_tables (p : InMemorySessionProvider) (ss : list (string * ref))
    (ms : list (string * SessionMetadata)) : InMemorySessionProvider :=
  {| heap := heap p; sessions := ss; session_metadata := ms; ttl_default := ttl_default p |}.

(** A caller writes to an object it holds: messages, metadata and caller
    context are plain attributes. *)
Definition mutate (p : InMemorySessionProvider) (r : ref) (f : SessionContext -> SessionContext)
  : InMemorySessionProvider :=
  {| heap := alter f r (heap p); sessions := sessions p; session_metadata := session_metadata p;
     ttl_default := ttl_default p |}.

Definition fresh_metadata (p : InMemorySessionProvider) (sid : string) (tenant : option string)
    (ttl_seconds : option Q) (now : Q) : SessionMetadata :=
  {| meta_session_id := sid; created_at := now; expires_at := expiry p ttl_seconds now;
     is_active := true; meta_tenant_id := tenant; meta_version := 1 |}.

Section provider.
(** [datetime.isoformat] and [uuid4()]. *)
Context (iso : Q -> string) (fresh_uuid : string).

Definition create (p : InMemorySessionProvider) (session_id : option string)
    (ttl_seconds : option Q) (tenant_id : option string) (now : Q)
  : ref * InMemorySessionProvider :=
  let sid := opt_or session_id fresh_uuid in
  let k := scoped_key sid tenant_id in
  let c := {| session_id := sid; messages := []; metadata := [("created_at", JStr (iso now))];
              caller_context := []; tenant_id := tenant_id; version := 1 |} in
  let '(r, p) := alloc p c in
  (r, with_tables p (dset k r (sessions p))
        (dset k (fresh_metadata p sid tenant_id ttl_seconds now) (session_metadata p))).
End provider.

Definition delete (p : InMemorySessionProvider) (sid : string) (tenant : option string)
  : InMemorySessionProvider :=
  let k := scoped_key sid tenant in
  with_tables p (dpop k (sessions p)) (dpop k (session_metadata p)).

Definition get (p : InMemorySessionProvider) (sid : string) (tenant : option string) (now : Q)
  : option ref * InMemorySessionProvider :=
  let k := scoped_key sid tenant in
  if from_option (fun m => is_expired m now) false (dget k (session_metadata p))
  then (None, delete p sid tenant)
  else
    match dget k (sessions p) ≫= (fun r => heap p !! r) with
    | Some c => let '(r, p) := alloc p c in (Some r, p)   (* deepcopy *)
    | None => (None, p)
    end.

Definition bump (m : SessionMetadata) (e : option Q) : SessionMetadata :=
  {| meta_session_id := meta_session_id m; created_at := created_at m; expires_at := e;
     is_active := is_active m; meta_tenant_id := meta_tenant_id m; meta_version := meta_version m + 1 |}.

Definition conflict (c : SessionContext) (expected actual : Z) : StateConflictError :=
  {| kind := "session"; key := session_id c; expected := expected; actual := actual |}.

(** [update]: the caller's object [r] becomes the stored one. *)
Definition update (p : InMemorySessionProvider) (r : ref) (ttl_seconds : option Q)
    (expected_version : option Z) (now : Q) : result StateConflictError InMemorySessionProvider :=
  match heap p !! r with
  | None => Ok p   (* no such object: the caller holds no context *)
  | Some c =>
      let k := context_key c in
      let store (v : Z) (m : SessionMetadata) :=
        Ok (with_tables (mutate p r (fun c => set_version c v))
              (dset k r (sessions p)) (dset k m (session_metadata p))) in
      let exp := match expected_version with Some e => e | None => version c end in
      match dget k (session_metadata p) with
      | None =>
          if negb (match expected_version with None => true | Some e => Z.eqb e 0 end)
             || negb (Z.eqb (version c) 0 || Z.eqb (version c) 1)
          then Err (conflict c exp 0)
          else store 1%Z (fresh_metadata p (session_id c) (tenant_id c) ttl_seconds now)
      | Some m =>
          if negb (Z.eqb exp 0) && negb (Z.eqb exp (meta_version m))
          then Err (conflict c exp (meta_version m))
          else
            let e := match ttl_seconds with
                     | Some _ => expiry p ttl_seconds now | None => expires_at m end in
            store (meta_version m + 1)%Z (bump m e)
      end
  end.

(** [list_active]: the tenant's live metadata; expired entries are deleted. *)
Definition tenant_visible (tenant : option string) (m : SessionMetadata) : bool :=
  match tenant with None => true | Some _ => bool_decide (meta_tenant_id m = tenant) end.

Definition list_active (p : InMemorySessionProvider) (tenant : option string) (now : Q)
  : list SessionMetadata * InMemorySessionProvider :=
  let mine := filterb (fun e => tenant_visible tenant e.2) (session_metadata p) in
  (snd <$> filterb (fun e => negb (is_expired e.2 now)) mine,
   foldl (fun p e => match dget e.1 (session_metadata p) with
                     | Some m => delete p (meta_session_id m) (meta_tenant_id m)
                     | None => p
                     end) p
         (filterb (fun e => is_expired e.2 now) mine)).

(** ** Well-formed providers

    The two tables have the same keys, every entry sits under its own key, and
    the stored context carries the stored version. *)

Definition entry_ok (p : InMemorySessionProvider) (k : string) : Prop :=
  match dget k (sessions p), dget k (session_metadata p) with
  | Some r, Some m =>
      exists c, heap p !! r = Some c /\ context_key c = k /\ version c = meta_version m /\
        scoped_key (meta_session_id m) (meta_tenant_id m) = k /\ (1 <= meta_version m)%Z
  | None, None => True
  | _, _ => False
  end.

Definition provider_ok (p : InMemorySessionProvider) : Prop := forall k, entry_ok p k.

(** What clients do: calls of the provider, and writes to contexts they hold
    (never to the identity or the version of a context). *)
Inductive op : Type :=
  | OCreate (sid : option string) (ttl : option Q) (tenant : option string) (now : Q)
  | OGet (sid : string) (tenant : option string) (now : Q)
  | OUpdate (r : ref) (ttl : option Q) (expected_version : option Z) (now : Q)
  | ODelete (sid : string) (tenant : option string)
  | OList (tenant : option string) (now : Q)
  | OMutate (r : ref) (ms : list json) (md cc : list (string * json)).

Definition write_fields (ms : list json) (md cc : list (string * json)) (c : SessionContext) :=
  {| session_id := session_id c; messages := ms; metadata := md; caller_context := cc;
     tenant_id := tenant_id c; version := version c |}.

Section steps.
Context (iso : Q -> string) (fresh_uuid : string).

Definition apply_op (p : InMemorySessionProvider) (o : op) : InMemorySessionProvider :=
  match o with
  | OCreate sid ttl tenant now => (create iso fresh_uuid p sid ttl tenant now).2
  | OGet sid tenant now => (get p sid tenant now).2
  | OUpdate r ttl e now => match update p r ttl e now with Ok p' => p' | Err _ => p end
  | ODelete sid tenant => delete p sid tenant
  | OList tenant now => (list_active p tenant now).2
  | OMutate r ms md cc => mutate p r (write_fields ms md cc)
  end.

Definition creates (k : string) (o : op) : bool :=
  match o with
  | OCreate sid _ tenant _ => bool_decide (scoped_key (opt_or sid fresh_uuid) tenant = k)
  | _ => false
  end.

(** Whether [o] is a successful update of the session under [k]. *)
Definition writes (k : string) (p : InMemorySessionProvider) (o : op) : bool :=
  match o with
  | OUpdate r ttl e now =>
      match heap p !! r, update p r ttl e now with
      | Some c, Ok _ => bool_decide (context_key c = k)
      | _, _ => false
      end
  | _ => false
  end.

Fixpoint run (p : InMemorySessionProvider) (ops : list op) : InMemorySessionProvider :=
  match ops with [] => p | o :: ops => run (apply_op p o) ops end.

Fixpoint count_writes (k : string) (p : InMemorySessionProvider) (ops : list op) : Z :=
  match ops with
  | [] => 0
  | o :: ops => (if writes k p o then 1 else 0) + count_writes k (apply_op p o) ops
  end.

(** The session under [k] lives through the whole run: it is never created
    anew, deleted or expired away. *)
Fixpoint lives (k : string) (p : InMemorySessionProvider) (ops : list op) : Prop :=
  is_Some (dget k (session_metadata p)) /\
  match ops with [] => True | o :: ops => creates k o = false /\ lives k (apply_op p o) ops end.

Definition updates_ref (r : ref) (o : op) : bool :=
  match o with OUpdate r' _ _ _ => bool_decide (r' = r) | _ => false end.

(** *** The invariant *)

Lemma provider_ok_delete p sid tenant : provider_ok p -> provider_ok (delete p sid tenant).
Proof.
  intros Hp k. specialize (Hp k). unfold entry_ok, delete in *. cbn.
  destruct (decide (k = scoped_key sid tenant)) as [->|Hne].
  - by rewrite !dget_dpop_eq.
  - by rewrite !dget_dpop_ne.
Qed.

Lemma provider_ok_alloc p c : provider_ok p -> provider_ok (alloc p c).2.
Proof.
  intros Hp k. specialize (Hp k). unfold entry_ok in *. cbn.
  destruct (dget k (sessions p)), (dget k (session_metadata p)); try done.
  destruct Hp as (c' & Hc' & ?). exists c'. split; [|done]. by apply lookup_app_l_Some.
Qed.

Lemma provider_ok_create p sid ttl tenant now :
  provider_ok p -> provider_ok (create iso fresh_uuid p sid ttl tenant now).2.
Proof.
  intros Hp k. specialize (Hp k). unfold entry_ok, create in *. cbn. rewrite !dget_dset.
  case_decide as E.
  - eexists. split; [by apply list_lookup_middle|]. by subst.
  - destruct (dget k (sessions p)), (dget k (session_metadata p)); try done.
    destruct Hp as (c' & Hc' & ?). exists c'. split; [|done]. by apply lookup_app_l_Some.
Qed.

Lemma provider_ok_get p sid tenant now : provider_ok p -> provider_ok (get p sid tenant now).2.
Proof.
  intros Hp. unfold get. case_match; [by apply provider_ok_delete|].
  case_match; [by apply provider_ok_alloc | done].
Qed.

Lemma provider_ok_mutate p r ms md cc :
  provider_ok p -> provider_ok (mutate p r (write_fields ms md cc)).
Proof.
  intros Hp k. specialize (Hp k). unfold entry_ok in *. cbn.
  destruct (dget k (sessions p)) as [r'|], (dget k (session_metadata p)); try done.
  destruct Hp as (c & Hc & Hk & Hv & Hs & Hpos). destruct (decide (r = r')) as [->|Hne].
  - exists (write_fields ms md cc c). rewrite list_lookup_alter_eq, Hc.
    split_and!; first [done | exact Hk | exact Hv].
  - exists c. by rewrite list_lookup_alter_ne.
Qed.

Lemma update_ok_inv p r ttl e now p' c :
  heap p !! r = Some c -> update p r ttl e now = Ok p' ->
  exists v m, p' = with_tables (mutate p r (fun c => set_version c v))
                     (dset (context_key c) r (sessions p))
                     (dset (context_key c) m (session_metadata p)) /\
    meta_version m = v /\
    match dget (context_key c) (session_metadata p) with
    | Some m0 => v = (meta_version m0 + 1)%Z /\ m = bump m0 (expires_at m)
    | None => v = 1%Z /\ m = fresh_metadata p (session_id c) (tenant_id c) ttl now
    end.
Proof.
  intros Hc Hu. unfold update in Hu. rewrite Hc in Hu.
  destruct (dget (context_key c) (session_metadata p)) as [m0|]; case_match; simplify_eq;
    do 2 eexists; split_and!; done.
Qed.

(** An update of the current version is accepted. *)
Lemma update_current p r c m ttl now :
  heap p !! r = Some c -> dget (context_key c) (session_metadata p) = Some m ->
  version c = meta_version m ->
  update p r ttl None now =
  Ok (with_tables (mutate p r (fun c => set_version c (meta_version m + 1)))
        (dset (context_key c) r (sessions p))
        (dset (context_key c)
           (bump m (match ttl with Some _ => expiry p ttl now | None => expires_at m end))
           (session_metadata p))).
Proof.
  intros Hr Hm Hv. unfold update. rewrite Hr, Hm, Hv, Z.eqb_refl, andb_false_r. done.
Qed.

Lemma provider_ok_update p r ttl e now p' :
  provider_ok p -> update p r ttl e now = Ok p' -> provider_ok p'.
Proof.
  intros Hp Hu. destruct (heap p !! r) as [c|] eqn:Hc;
    [|unfold update in Hu; rewrite Hc in Hu; by simplify_eq].
  destruct (update_ok_inv _ _ _ _ _ _ _ Hc Hu) as (v & m & -> & Hv & Hm). intros k.
  pose proof (Hp k) as Hk. unfold entry_ok in *. cbn. rewrite !dget_dset. case_decide as E.
  - subst k. exists (set_version c v). rewrite list_lookup_alter_eq, Hc.
    assert (Hself : scoped_key (meta_session_id m) (meta_tenant_id m) = context_key c /\
                    (1 <= meta_version m)%Z).
    { unfold entry_ok in Hk. destruct (dget (context_key c) (session_metadata p)) as [m0|].
      - destruct (dget (context_key c) (sessions p)); [|done].
        destruct Hk as (c0 & _ & _ & _ & Hs & Hpos). destruct Hm as [Hm1 Hm2].
        split; [by rewrite Hm2 | lia].
      - destruct Hm as [-> ->]. split; [done | cbn; lia]. }
    destruct Hself. split_and!; [reflexivity | reflexivity | by subst v | done | done].
  - destruct (dget k (sessions p)) as [r'|], (dget k (session_metadata p)); try done.
    destruct Hk as (c0 & Hc0 & Hk0 & ?). exists c0. rewrite list_lookup_alter_ne; [done|].
    intros ->. congruence.
Qed.

Lemma fold_delete_ok l p :
  provider_ok p ->
  provider_ok (foldl (fun p (e : string * SessionMetadata) =>
    match dget e.1 (session_metadata p) with
    | Some m => delete p (meta_session_id m) (meta_tenant_id m) | None => p end) p l).
Proof.
  revert p. induction l as [|e l IH]; intros p Hp; cbn; [done|]. apply IH.
  case_match; [by apply provider_ok_delete | done].
Qed.

Lemma provider_ok_step p o : provider_ok p -> provider_ok (apply_op p o).
Proof.
  intros Hp. destruct o.
  - by apply provider_ok_create.
  - by apply provider_ok_get.
  - cbn. case_match eqn:Hu; [by eapply provider_ok_update | done].
  - by apply provider_ok_delete.
  - by apply fold_delete_ok.
  - by apply provider_ok_mutate.
Qed.

(** *** Versions *)

(** Deleting leaves an entry alone or removes it. *)
Lemma delete_meta p sid tenant k m :
  dget k (session_metadata (delete p sid tenant)) = Some m -> dget k (session_metadata p) = Some m.
Proof.
  unfold delete. cbn. destruct (decide (k = scoped_key sid tenant)) as [->|Hne].
  - by rewrite dget_dpop_eq.
  - by rewrite dget_dpop_ne.
Qed.

Lemma fold_delete_meta l p k m :
  dget k (session_metadata (foldl (fun p (e : string * SessionMetadata) =>
    match dget e.1 (session_metadata p) with
    | Some m => delete p (meta_session_id m) (meta_tenant_id m) | None => p end) p l)) = Some m ->
  dget k (session_metadata p) = Some m.
Proof.
  revert p. induction l as [|e l IH]; intros p; cbn; [done|]. intros Hm%IH.
  destruct (dget e.1 (session_metadata p)); [by apply delete_meta in Hm | done].
Qed.

(** A step that keeps the session changes its version exactly when it writes. *)
Lemma step_version p o k m m' :
  creates k o = false ->
  dget k (session_metadata p) = Some m ->
  dget k (session_metadata (apply_op p o)) = Some m' ->
  meta_version m' = (meta_version m + if writes k p o then 1 else 0)%Z.
Proof.
  intros Hc Hm Hm'. destruct o; cbn in *.
  - apply bool_decide_eq_false in Hc. rewrite dget_dset_ne in Hm' by done.
    simplify_eq. lia.
  - assert (dget k (session_metadata p) = Some m') as Hs; [|simplify_eq; lia].
    unfold get in Hm'. case_match; [by apply delete_meta in Hm'|]. by case_match.
  - destruct (heap p !! r) as [c|] eqn:Hr.
    + destruct (update p r ttl expected_version now) as [p'|e] eqn:Hu; [|simplify_eq; lia].
      destruct (update_ok_inv _ _ _ _ _ _ _ Hr Hu) as (v & m1 & -> & Hv & Hcase).
      cbn in Hm'. case_bool_decide as E.
      * subst k. rewrite dget_dset_eq in Hm'. rewrite Hm in Hcase. simplify_eq. lia.
      * rewrite dget_dset_ne in Hm' by congruence. simplify_eq. lia.
    + unfold update in Hm'. rewrite Hr in Hm'. simplify_eq. lia.
  - apply delete_meta in Hm'. simplify_eq. lia.
  - apply fold_delete_meta in Hm'. simplify_eq. lia.
  - simplify_eq. lia.
Qed.

Lemma heap_keep p o r c :
  heap p !! r = Some c -> updates_ref r o = false ->
  exists c', heap (apply_op p o) !! r = Some c' /\ context_key c' = context_key c /\
             session_id c' = session_id c /\ version c' = version c.
Proof.
  intros Hr Ho.
  assert (Hfold : forall l p, heap (foldl (fun p (e : string * SessionMetadata) =>
    match dget e.1 (session_metadata p) with
    | Some m => delete p (meta_session_id m) (meta_tenant_id m) | None => p end) p l) = heap p).
  { induction l as [|e l IH]; intros q; cbn; [done|]. rewrite IH. by case_match. }
  destruct o; cbn in *.
  - exists c. rewrite lookup_app_l by (by eapply lookup_lt_Some). done.
  - exists c. unfold get. case_match; [done|]. case_match; [|done]. cbn.
    rewrite lookup_app_l by (by eapply lookup_lt_Some). done.
  - apply bool_decide_eq_false in Ho. exists c. split; [|done].
    destruct (update p r0 _ _ _) as [p'|] eqn:Hu; [|done].
    destruct (heap p !! r0) as [c0|] eqn:H0;
      [|unfold update in Hu; rewrite H0 in Hu; by simplify_eq].
    destruct (update_ok_inv _ _ _ _ _ _ _ H0 Hu) as (v & m1 & -> & _). cbn.
    by rewrite list_lookup_alter_ne.
  - by exists c.
  - exists c. by rewrite Hfold.
  - destruct (decide (r0 = r)) as [->|Hne].
    + exists (write_fields ms md cc c). by rewrite list_lookup_alter_eq, Hr.
    + exists c. by rewrite list_lookup_alter_ne.
Qed.

Lemma lives_version k p ops m :
  dget k (session_metadata p) = Some m -> lives k p ops ->
  exists m', dget k (session_metadata (run p ops)) = Some m' /\
             meta_version m' = (meta_version m + count_writes k p ops)%Z.
Proof.
  revert p m. induction ops as [|o ops IH]; intros p m Hm Hl; cbn in *.
  - exists m. split; [done|lia].
  - destruct Hl as (_ & Hc & Hl). destruct (dget k (session_metadata (apply_op p o))) as [m1|] eqn:Hm1.
    + destruct (IH _ m1 Hm1 Hl) as (m' & Hm' & Hv). exists m'. split; [done|].
      rewrite Hv, (step_version p o k m m1) by done. lia.
    + destruct ops; destruct Hl as [[? Hl] _]; congruence.
Qed.

Lemma heap_keep_run p ops r c :
  heap p !! r = Some c -> forallb (fun o => negb (updates_ref r o)) ops = true ->
  exists c', heap (run p ops) !! r = Some c' /\ context_key c' = context_key c /\
             session_id c' = session_id c /\ version c' = version c.
Proof.
  revert p c. induction ops as [|o ops IH]; intros p c Hr Ho; cbn in *; [by exists c|].
  apply andb_true_iff in Ho as [Ho Hops]. apply negb_true_iff in Ho.
  destruct (heap_keep p o r c Hr Ho) as (c1 & Hr1 & Hk1 & Hs1 & Hv1).
  destruct (IH _ _ Hr1 Hops) as (c' & ? & ? & ? & ?). exists c'. split_and!; congruence.
Qed.

Lemma count_writes_nonneg k p ops : (0 <= count_writes k p ops)%Z.
Proof.
  revert p. induction ops as [|o ops IH]; intros p; cbn; [lia|].
  specialize (IH (apply_op p o)). destruct (writes k p o); lia.
Qed.

(** The session key an operation addresses, if it addresses one. *)
Definition op_key (p : InMemorySessionProvider) (o : op) : option string :=
  match o with
  | OCreate sid _ tenant _ => Some (scoped_key (opt_or sid fresh_uuid) tenant)
  | OGet sid tenant _ | ODelete sid tenant => Some (scoped_key sid tenant)
  | OUpdate r _ _ _ | OMutate r _ _ _ => context_key <$> heap p !! r
  | OList _ _ => None
  end.
End steps.

(** What a caller sees of a session: the content of the copy it is given. *)
Definition read (p : InMemorySessionProvider) (sid : string) (tenant : option string) (now : Q)
  : option SessionContext :=
  let '(r, p') := get p sid tenant now in r ≫= fun r => heap p' !! r.

(** The content the provider holds, expired or not. *)
Definition content (p : InMemorySessionProvider) (k : string) : option SessionContext :=
  dget k (sessions p) ≫= fun r => heap p !! r.

Lemma read_content p sid tenant now :
  read p sid tenant now =
  if from_option (fun m => is_expired m now) false (dget (scoped_key sid tenant) (session_metadata p))
  then None else content p (scoped_key sid tenant).
Proof.
  unfold read, get, content. destruct (from_option _ _ _); [done|].
  destruct (dget _ (sessions p) ≫= _) as [c|] eqn:E; [|done]. cbn.
  by rewrite lookup_app_r, Nat.sub_diag.
Qed.

Lemma content_alloc p c k : provider_ok p -> content (alloc p c).2 k = content p k.
Proof.
  intros Hp. specialize (Hp k). unfold content, entry_ok in *. cbn.
  destruct (dget k (sessions p)) as [r|]; [|done]. cbn.
  destruct (dget k (session_metadata p)); [|done]. destruct Hp as (c' & Hc' & _).
  by rewrite Hc', lookup_app_l by (by eapply lookup_lt_Some).
Qed.

(** What [get] and [create] hand out: a context under its key, at the current
    version of a live entry. *)
Definition current (p : InMemorySessionProvider) (r : ref) (k : string) (c : SessionContext) : Prop :=
  heap p !! r = Some c /\ context_key c = k /\
  exists m, dget k (session_metadata p) = Some m /\ version c = meta_version m /\ is_active m = true.

Lemma get_found p sid tenant now r p' :
  provider_ok p -> get p sid tenant now = (Some r, p') ->
  provider_ok p' /\ exists c, read p sid tenant now = Some c /\ current p' r (scoped_key sid tenant) c.
Proof.
  intros Hp Hg. split; [change p' with ((Some r, p').2); rewrite <-Hg; by apply provider_ok_get|].
  rewrite read_content. unfold get in Hg.
  destruct (from_option _ _ _) eqn:He; [done|]. fold (content p (scoped_key sid tenant)) in Hg.
  destruct (content p (scoped_key sid tenant)) as [c|] eqn:Hc; [|done].
  injection Hg as <- <-. exists c. split; [done|]. specialize (Hp (scoped_key sid tenant)).
  unfold current, content, entry_ok in *. cbn.
  destruct (dget _ (sessions p)) as [r1|]; [|done]. cbn in Hc.
  destruct (dget _ (session_metadata p)) as [m|]; [|done].
  destruct Hp as (c' & Hr1 & Hk & Hv & _). simplify_eq.
  rewrite lookup_app_r, Nat.sub_diag by done. split_and!; [done|done|]. exists m. split_and!; [done|done|].
  cbn in He. unfold is_expired in He. by destruct (is_active m).
Qed.

Lemma get_missing p sid tenant now p' : get p sid tenant now = (None, p') -> read p sid tenant now = None.
Proof. unfold read. by intros ->. Qed.

Lemma create_current iso uuid p sid ttl tenant now r p' :
  provider_ok p -> str_truthy sid = true -> create iso uuid p (Some sid) ttl tenant now = (r, p') ->
  provider_ok p' /\ exists c, messages c = [] /\ tenant_id c = tenant /\ session_id c = sid /\
    current p' r (scoped_key sid tenant) c.
Proof.
  intros Hp Hsid Hc.
  split; [change p' with ((r, p').2); rewrite <-Hc; by apply provider_ok_create|].
  unfold create in Hc. assert (Hor : opt_or (Some sid) uuid = sid) by (unfold opt_or; cbn; by rewrite Hsid).
  rewrite Hor in Hc. cbn in Hc. injection Hc as <- <-. unfold current. cbn.
  rewrite dget_dset_eq, lookup_app_r, Nat.sub_diag by done.
  exists {| session_id := sid; messages := []; metadata := [("created_at", JStr (iso now))];
            caller_context := []; tenant_id := tenant; version := 1 |}.
  split_and!; try done. by eexists.
Qed.

(** Updating a current context stores it. *)
Lemma update_stores p r k c ttl now :
  provider_ok p -> current p r k c ->
  exists p', update p r ttl None now = Ok p' /\ provider_ok p' /\
    content p' k = Some (set_version c (version c + 1)).
Proof.
  intros Hp (Hr & Hk & m & Hm & Hv & _). subst k.
  pose proof (update_current p r c m ttl now Hr Hm Hv) as Hu. eexists. split; [exact Hu|].
  split; [by eapply provider_ok_update|]. unfold content. cbn. rewrite dget_dset_eq. cbn.
  by rewrite list_lookup_alter_eq, Hr, Hv.
Qed.

(** Another key keeps its content and its metadata. *)
Lemma other_key_kept iso uuid p o k k' :
  provider_ok p -> op_key uuid p o = Some k -> k' <> k ->
  content (apply_op iso uuid p o) k' = content p k' /\
  dget k' (session_metadata (apply_op iso uuid p o)) = dget k' (session_metadata p).
Proof.
  intros Hp Hk Hne.
  assert (Halter : forall r c f, heap p !! r = Some c -> context_key c = k ->
            (dget k' (sessions p) ≫= fun r' => alter f r (heap p) !! r') = content p k').
  { intros r c f Hr Hc. specialize (Hp k'). unfold content, entry_ok in *.
    destruct (dget k' (sessions p)) as [r'|]; [|done]. cbn.
    destruct (dget k' (session_metadata p)); [|done]. destruct Hp as (c' & Hc' & Hk' & _).
    rewrite list_lookup_alter_ne; [done|]. intros ->. congruence. }
  destruct o; cbn in Hk; simplify_eq; cbn.
  - unfold content. cbn. rewrite !dget_dset_ne by done. split; [|done].
    apply (content_alloc p _ k' Hp).
  - unfold get. case_match.
    + unfold content, delete. cbn. by rewrite !dget_dpop_ne.
    + case_match; [|done]. split; [by apply content_alloc | done].
  - destruct (heap p !! r) as [c|] eqn:Hr; cbn in Hk; simplify_eq.
    destruct (update p r _ _ _) as [p'|] eqn:Hu; [|done].
    destruct (update_ok_inv _ _ _ _ _ _ _ Hr Hu) as (v & m & -> & _). unfold content at 1. cbn.
    rewrite !dget_dset_ne by done. split; [by eapply Halter | done].
  - unfold content, delete. cbn. by rewrite !dget_dpop_ne.
  - destruct (heap p !! r) as [c|] eqn:Hr; cbn in Hk; simplify_eq.
    split; [by eapply Halter | done].
Qed.

(** ** Theorems *)

(** C21: No update is lost.  A caller holds a context read at the current
    version; whatever other clients then do while the session lives (reads,
    updates with any TTL and expected version, writes to contexts they hold,
    operations on other sessions), its own update succeeds if and only if
    nobody updated the session in between, and otherwise raises
    [StateConflictError] with the version it read and the current one. *)
Theorem session_no_lost_update iso uuid p r c m ops ttl now :
  heap p !! r = Some c -> dget (context_key c) (session_metadata p) = Some m ->
  version c = meta_version m -> (1 <= version c)%Z ->
  lives iso uuid (context_key c) p ops ->
  forallb (fun o => negb (updates_ref r o)) ops = true ->
  let p' := run iso uuid p ops in
  let n := count_writes iso uuid (context_key c) p ops in
  if Z.eqb n 0 then exists p'', update p' r ttl None now = Ok p''
  else update p' r ttl None now = Err (conflict c (version c) (meta_version m + n)).
Proof.
  intros Hr Hm Hv Hpos Hl Ho p' n.
  destruct (lives_version iso uuid _ p ops m Hm Hl) as (m' & Hm' & Hv').
  destruct (heap_keep_run iso uuid p ops r c Hr Ho) as (c' & Hr' & Hk' & Hs' & Hvc).
  pose proof (count_writes_nonneg iso uuid (context_key c) p ops) as Hn. fold n in Hn, Hv'.
  unfold update. fold p' in Hr', Hm'. rewrite Hr', Hk', Hm', Hvc, Hv'.
  rewrite (proj2 (Z.eqb_neq (version c) 0)) by lia. cbn [negb andb].
  destruct (Z.eqb_spec n 0) as [En|En].
  - rewrite (proj2 (Z.eqb_eq (version c) (meta_version m + n))) by lia. by eexists.
  - rewrite (proj2 (Z.eqb_neq (version c) (meta_version m + n))) by lia.
    cbn. unfold conflict. by rewrite Hs'.
Qed.

(** Sessions of different tenants do not touch each other.  No operation
    addressed to one tenant's session (create, read, update, delete, or a
    write to one of its contexts) changes what reading a session of another
    tenant gives, for names without the unit separator. *)
Theorem session_tenant_isolation iso uuid p o sid t sid' t' now :
  provider_ok p -> op_key uuid p o = Some (scoped_key sid t) -> t' <> t ->
  (forall x, t = Some x -> separator_free x = true) ->
  (forall x, t' = Some x -> separator_free x = true) ->
  separator_free sid = true -> separator_free sid' = true ->
  read (apply_op iso uuid p o) sid' t' now = read p sid' t' now.
Proof.
  intros Hp Hk Hne H1 H2 H3 H4.
  destruct (other_key_kept iso uuid p o _ (scoped_key sid' t') Hp Hk) as [Hc Hm].
  - intros Heq. by apply scoped_key_inj in Heq as [_ ?].
  - by rewrite !read_content, Hc, Hm.
Qed.

(** Copies on read, references on write.  In every state that clients can
    reach, reading a live session gives a private copy of what is stored:
    writing to the copy changes nothing that any later read returns.  The
    object given to a successful [update], and the one [create] returns, is
    the stored object itself: a write to it shows in the next read without
    any update. *)
Theorem session_copy_on_read iso uuid ttl0 ops sid tenant now :
  let p := run iso uuid (new_provider ttl0) ops in
  provider_ok p /\
  (forall r p' ms md cc sid' tenant' now', get p sid tenant now = (Some r, p') ->
     heap p' !! r = content p (scoped_key sid tenant) /\
     read (mutate p' r (write_fields ms md cc)) sid' tenant' now' = read p sid' tenant' now') /\
  (forall r c p' ttl e ms md cc, heap p !! r = Some c -> context_key c = scoped_key sid tenant ->
     update p r ttl e now = Ok p' ->
     content (mutate p' r (write_fields ms md cc)) (scoped_key sid tenant) =
       write_fields ms md cc <$> content p' (scoped_key sid tenant) /\
     is_Some (content p' (scoped_key sid tenant))) /\
  (forall ttl ms md cc,
     let '(r, p') := create iso uuid p (Some sid) ttl tenant now in
     content (mutate p' r (write_fields ms md cc)) (scoped_key (opt_or (Some sid) uuid) tenant) =
       write_fields ms md cc <$> content p' (scoped_key (opt_or (Some sid) uuid) tenant)).
Proof.
  intros p. assert (Hp : provider_ok p).
  { assert (Hrun : forall ops q, provider_ok q -> provider_ok (run iso uuid q ops)).
    { clear. induction ops as [|o ops IH]; intros q Hq; cbn; [done|].
      by apply IH, provider_ok_step. }
    apply Hrun. done. }
  clearbody p. split_and!; [done| | |].
  - intros r p' ms md cc sid' tenant' now' Hg. unfold get in Hg. case_match eqn:He; [done|].
    fold (content p (scoped_key sid tenant)) in Hg.
    destruct (content p (scoped_key sid tenant)) as [c|] eqn:Hc; [|done].
    assert (Hr : r = length (heap p)) by (cbn in Hg; congruence).
    assert (Hp' : p' = (alloc p c).2) by (cbn in *; congruence). subst.
    split; [cbn; by rewrite lookup_app_r, Nat.sub_diag|].
    rewrite !read_content. cbn.
    assert (Hsame : content (mutate (alloc p c).2 (length (heap p)) (write_fields ms md cc))
                      (scoped_key sid' tenant') = content p (scoped_key sid' tenant'));
      [|by rewrite <-Hsame].
    rewrite <-(content_alloc p c) by done. unfold content. cbn.
    specialize (Hp (scoped_key sid' tenant')). unfold entry_ok in Hp.
    destruct (dget (scoped_key sid' tenant') (sessions p)) as [r'|]; [|done]. cbn.
    destruct (dget _ (session_metadata p)); [|done]. destruct Hp as (c' & Hc' & _).
    apply lookup_lt_Some in Hc'. rewrite list_lookup_alter_ne; [done|lia].
  - intros r c p' ttl e ms md cc Hr Hk Hu.
    destruct (update_ok_inv _ _ _ _ _ _ _ Hr Hu) as (v & m & -> & _). unfold content. cbn.
    rewrite Hk, dget_dset_eq. cbn. rewrite !list_lookup_alter_eq, Hr. cbn. by split.
  - intros ttl ms md cc. cbn. unfold content. cbn. rewrite dget_dset_eq. cbn.
    by rewrite list_lookup_alter_eq.
Qed.

(** ** On concrete input *)

Definition demo : InMemorySessionProvider :=
  run (fun _ => "t") "uuid" (new_provider None)
    [OCreate (Some "s") None (Some "acme") 0; OGet "s" (Some "acme") 1; OGet "s" (Some "acme") 1].
Definition demo_context : SessionContext :=
  {| session_id := "s"; messages := []; metadata := [("created_at", JStr "t")];
     caller_context := []; tenant_id := Some "acme"; version := 1 |}.
Definition demo_writer : list op :=
  [OMutate 2 [JStr "hello"] [] []; OUpdate 2 (Some 60%Q) None 2].

Lemma session_no_lost_update_witness :
  update (run (fun _ => "t") "uuid" demo demo_writer) 1 None None 3 =
  Err (conflict demo_context 1 2).
Proof.
  exact (session_no_lost_update (fun _ => "t") "uuid" demo 1 demo_context
    {| meta_session_id := "s"; created_at := 0; expires_at := None; is_active := true;
       meta_tenant_id := Some "acme"; meta_version := 1 |} demo_writer None 3
    eq_refl eq_refl eq_refl (Z.le_refl 1)
    (conj (ex_intro _ _ eq_refl) (conj eq_refl
       (conj (ex_intro _ _ eq_refl) (conj eq_refl (conj (ex_intro _ _ eq_refl) I))))) eq_refl).
Defined.

Lemma session_tenant_isolation_witness :
  read (apply_op (fun _ => "t") "uuid" demo (ODelete "s" None)) "s" (Some "acme") 5 =
  Some demo_context.
Proof.
  rewrite (session_tenant_isolation (fun _ => "t") "uuid" demo (ODelete "s" None) "s" None "s"
    (Some "acme") 5).
  - reflexivity.
  - apply provider_ok_step, provider_ok_step, provider_ok_step. intros k. exact I.
  - reflexivity.
  - discriminate.
  - discriminate.
  - intros x [= <-]. reflexivity.
  - reflexivity.
  - reflexivity.
Defined.

End Session.
