(* ===== verification/Checkpoint.v ===== *)
(** * Checkpoints of the agent loop

    [CheckpointRecord], [InMemoryCheckpointStore] and [SessionCheckpointStore]
    of [micro_agent/checkpoint/checkpoint.py].  What the runtime needs of a
    store is the class [CheckpointStore]. *)

From S2P Require Import Prelude Json Session.
Import Session.

Module Checkpoint.
Local Open Scope string_scope.

Record CheckpointRecord : Type := {
  checkpoint_id : string;
  agent_id : string;
  request_id : string;
  cp_session_id : option string;
  input_payload : list (string * json);
  cp_messages : list json;
  all_tool_results : list json;
  iterations : Z;
  usage : list (string * Z);
  history_tail_length : Z;
  cp_tenant_id : option string;
  runtime_state : list (string * json)
}.

Definition record_key (c : CheckpointRecord) : string := scoped_key (checkpoint_id c) (cp_tenant_id c).

(** ** The interface *)

Class CheckpointStore (S : Type) : Type := {
  cp_get : S -> string -> option string -> option CheckpointRecord;
  cp_save : S -> CheckpointRecord -> S;
  cp_delete : S -> string -> option string -> S;
  cp_get_save : forall s c id t,
    cp_get (cp_save s c) id t =
    if decide (scoped_key id t = record_key c) then Some c else cp_get s id t;
  cp_get_delete : forall s id t id' t',
    cp_get (cp_delete s id t) id' t' =
    if decide (scoped_key id' t' = scoped_key id t) then None else cp_get s id' t'
}.

(** ** The in-memory store *)

Definition InMemoryCheckpointStore : Type := list (string * CheckpointRecord).

Definition save (s : InMemoryCheckpointStore) (c : CheckpointRecord) : InMemoryCheckpointStore :=
  dset (record_key c) c s.

Definition get (s : InMemoryCheckpointStore) (id : string) (tenant : option string)
  : option CheckpointRecord := dget (scoped_key id tenant) s.

Definition delete (s : InMemoryCheckpointStore) (id : string) (tenant : option string)
  : InMemoryCheckpointStore := dpop (scoped_key id tenant) s.

#[export] Program Instance InMemoryCheckpointStore_store : CheckpointStore InMemoryCheckpointStore :=
  {| cp_get := get; cp_save := save; cp_delete := delete |}.
Next Obligation. intros s c id t. unfold get, save. apply dget_dset. Qed.
Next Obligation.
  intros s id t id' t'. unfold get, delete.
  case_decide as E; [rewrite E; apply dget_dpop_eq | by apply dget_dpop_ne].
Qed.

(** ** The store kept in a session provider

    The record is written to the metadata of a reserved session. *)

Definition PREFIX : string := "__micro_agent_checkpoint__:".
Definition METADATA_KEY : string := "micro_agent_checkpoint".
Definition storage_id (id : string) : string := PREFIX ++ id.

Definition opt_json (o : option string) : json := match o with Some s => JStr s | None => JNull end.

Definition payload (c : CheckpointRecord) : json :=
  JObj [("checkpoint_id", JStr (checkpoint_id c)); ("agent_id", JStr (agent_id c));
        ("request_id", JStr (request_id c)); ("session_id", opt_json (cp_session_id c));
        ("input_payload", JObj (input_payload c));
        ("all_tool_results", JList (all_tool_results c));
        ("iterations", JInt (iterations c));
        ("usage", JObj (prod_map id JInt <$> usage c));
        ("history_tail_length", JInt (history_tail_length c));
        ("runtime_state", JObj (runtime_state c))].

Section session_store.
Context (iso : Q -> string) (fresh_uuid : string) (ttl_seconds : option Q).
(** [str] and [int] of a JSON value that is not already of that type; [int]
    may raise. *)
Context (py_str : json -> string) (py_int : json -> option Z).

(** The context that [save] writes: found or created, at the current version. *)
Definition save_context (p : InMemorySessionProvider) (sid : string) (tenant : option string) (now : Q)
  : ref * InMemorySessionProvider :=
  let '(found, p) := Session.get p sid tenant now in
  match found with
  | Some r => (r, p)
  | None => Session.create iso fresh_uuid p (Some sid) ttl_seconds tenant now
  end.

Definition session_save (p : InMemorySessionProvider) (c : CheckpointRecord) (now : Q)
  : result StateConflictError InMemorySessionProvider :=
  let '(r, p) := save_context p (storage_id (checkpoint_id c)) (cp_tenant_id c) now in
  let p := mutate p r (fun ctx =>
    write_fields (cp_messages c) (dset METADATA_KEY (payload c) (metadata ctx))
      (caller_context ctx) ctx) in
  Session.update p r ttl_seconds None now.

Definition str_or (v : option json) (d : string) : string :=
  match v with
  | Some (JStr s) => opt_or (Some s) d
  | Some j => if py_truthy j then py_str j else d
  | None => d
  end.
Definition int_or_zero (v : option json) : option Z :=
  match v with
  | Some (JInt z) => Some z
  | Some j => if py_truthy j then py_int j else Some 0%Z
  | None => Some 0%Z
  end.
(** [deepcopy(v or {})], and [v or []]: a record holds an object, or a list. *)
Definition obj_or_empty (v : option json) : option (list (string * json)) :=
  match v with
  | Some (JObj d) => Some d
  | Some j => if py_truthy j then None else Some []
  | None => Some []
  end.
Definition list_or_empty (v : option json) : option (list json) :=
  match v with
  | Some (JList l) => Some l
  | Some j => if py_truthy j then None else Some []
  | None => Some []
  end.
Definition opt_string (v : option json) : option (option string) :=
  match v with
  | Some (JStr s) => Some (Some s)
  | Some JNull | None => Some None
  | Some _ => None
  end.
Definition usage_item (kv : string * json) : option (string * Z) :=
  match kv.2 with JInt z => Some (kv.1, z) | j => (fun z => (kv.1, z)) <$> py_int j end.

(** [None] stands for a payload whose fields do not fit the record. *)
Definition of_payload (id : string) (ctx : SessionContext) (d : list (string * json))
  : option CheckpointRecord :=
  session ← opt_string (dget "session_id" d);
  input ← obj_or_empty (dget "input_payload" d);
  results ← list_or_empty (dget "all_tool_results" d);
  its ← int_or_zero (dget "iterations" d);
  us ← (items ← obj_or_empty (dget "usage" d); mapM usage_item items);
  tail ← int_or_zero (dget "history_tail_length" d);
  state ← obj_or_empty (dget "runtime_state" d);
  Some {| checkpoint_id := str_or (dget "checkpoint_id" d) id;
          agent_id := str_or (dget "agent_id" d) "";
          request_id := str_or (dget "request_id" d) "";
          cp_session_id := session; input_payload := input; cp_messages := messages ctx;
          all_tool_results := results; iterations := its; usage := us;
          history_tail_length := tail; cp_tenant_id := tenant_id ctx; runtime_state := state |}.

Definition session_get (p : InMemorySessionProvider) (id : string) (tenant : option string) (now : Q)
  : option CheckpointRecord * InMemorySessionProvider :=
  let '(found, p) := Session.get p (storage_id id) tenant now in
  match found ≫= (fun r => heap p !! r) with
  | None => (None, p)
  | Some ctx =>
      match dget METADATA_KEY (metadata ctx) with
      | Some (JObj d) => (of_payload id ctx d, p)
      | _ => (None, p)
      end
  end.

Definition session_delete (p : InMemorySessionProvider) (id : string) (tenant : option string)
  : InMemorySessionProvider := Session.delete p (storage_id id) tenant.

Lemma usage_items l : mapM usage_item (prod_map id JInt <$> l) = Some l.
Proof. induction l as [|[k z] l IH]; cbn; [done|]. cbn in IH. by rewrite IH. Qed.

Lemma of_payload_payload c ctx d :
  payload c = JObj d -> messages ctx = cp_messages c -> tenant_id ctx = cp_tenant_id c ->
  of_payload (checkpoint_id c) ctx d = Some c.
Proof.
  intros Hd Hm Ht. unfold of_payload.
  assert (Hget : forall k v, dget k (match payload c with JObj d => d | _ => [] end) = v ->
            dget k d = v) by (by rewrite Hd).
  rewrite (Hget "session_id" (Some (opt_json (cp_session_id c))) eq_refl),
    (Hget "input_payload" (Some (JObj (input_payload c))) eq_refl),
    (Hget "all_tool_results" (Some (JList (all_tool_results c))) eq_refl),
    (Hget "iterations" (Some (JInt (iterations c))) eq_refl),
    (Hget "usage" (Some (JObj (prod_map id JInt <$> usage c))) eq_refl),
    (Hget "history_tail_length" (Some (JInt (history_tail_length c))) eq_refl),
    (Hget "runtime_state" (Some (JObj (runtime_state c))) eq_refl),
    (Hget "checkpoint_id" (Some (JStr (checkpoint_id c))) eq_refl),
    (Hget "agent_id" (Some (JStr (agent_id c))) eq_refl),
    (Hget "request_id" (Some (JStr (request_id c))) eq_refl).
  cbn [obj_or_empty list_or_empty int_or_zero mbind option_bind].
  rewrite usage_items, Hm, Ht.
  destruct c as [cid ag rq sid ? ? ? ? ? ? ? ?]; cbn; unfold opt_or; cbn.
  by destruct sid, cid, ag, rq.
Qed.

Lemma save_context_spec p sid tenant now r p1 :
  provider_ok p -> str_truthy sid = true ->
  (forall ctx, content p (scoped_key sid tenant) = Some ctx -> tenant_id ctx = tenant) ->
  save_context p sid tenant now = (r, p1) ->
  provider_ok p1 /\ exists ctx m,
    heap p1 !! r = Some ctx /\ context_key ctx = scoped_key sid tenant /\ tenant_id ctx = tenant /\
    dget (scoped_key sid tenant) (session_metadata p1) = Some m /\
    version ctx = meta_version m /\ is_active m = true.
Proof.
  intros Hp Hsid Hforeign Hs. unfold save_context in Hs.
  destruct (Session.get p sid tenant now) as [found q] eqn:Hg.
  destruct found as [r0|].
  - simplify_eq. apply get_found in Hg as (Hp1 & ctx & Hread & Hr & Hk & m & ? & ? & ?); [|done].
    split; [done|]. exists ctx, m. split_and!; try done. apply Hforeign.
    rewrite read_content in Hread. by destruct (from_option _ _ _).
  - assert (Hq : provider_ok q) by (change q with ((@None ref, q).2); rewrite <-Hg; by apply provider_ok_get).
    apply create_current in Hs as (Hp1 & ctx & _ & Ht & _ & Hr & Hk & m & ? & ? & ?); [|done..].
    split; [done|]. by exists ctx, m.
Qed.

Lemma session_save_spec p c now :
  provider_ok p ->
  (forall ctx, content p (scoped_key (storage_id (checkpoint_id c)) (cp_tenant_id c)) = Some ctx ->
               tenant_id ctx = cp_tenant_id c) ->
  let k := scoped_key (storage_id (checkpoint_id c)) (cp_tenant_id c) in
  exists p' ctx m, session_save p c now = Ok p' /\ provider_ok p' /\
    content p' k = Some ctx /\ messages ctx = cp_messages c /\ tenant_id ctx = cp_tenant_id c /\
    dget METADATA_KEY (metadata ctx) = Some (payload c) /\
    dget k (session_metadata p') = Some m /\ is_active m = true /\
    forall t, ttl_seconds = Some t -> expires_at m = Some (now + t)%Q.
Proof.
  intros Hp Hforeign k.
  destruct (save_context p (storage_id (checkpoint_id c)) (cp_tenant_id c) now) as [r p1] eqn:Hs.
  assert (Hsave : session_save p c now =
    Session.update (mutate p1 r (fun ctx => write_fields (cp_messages c)
      (dset METADATA_KEY (payload c) (metadata ctx)) (caller_context ctx) ctx)) r ttl_seconds None now).
  { unfold session_save. by rewrite Hs. }
  destruct (save_context_spec _ _ _ _ _ _ Hp (eq_refl : str_truthy (storage_id (checkpoint_id c)) = true)
              Hforeign Hs)
    as (Hp1 & ctx & m & Hr & Hk & Ht & Hm & Hv & Hact).
  set (f := fun ctx => write_fields _ _ _ ctx) in Hsave.
  set (p2 := mutate p1 r f) in Hsave.
  assert (Hr2 : heap p2 !! r = Some (f ctx)) by (cbn; by rewrite list_lookup_alter_eq, Hr).
  assert (Hk2 : context_key (f ctx) = k) by exact Hk.
  pose proof (update_current p2 r (f ctx) m ttl_seconds now Hr2) as Hu. rewrite Hk2 in Hu.
  rewrite (Hu Hm Hv) in Hsave. do 3 eexists. split; [exact Hsave|]. split_and!.
  - eapply provider_ok_update; [|rewrite <-Hsave in *; exact (Hu Hm Hv)].
    assert (Hmut : p2 = mutate p1 r (write_fields (cp_messages c)
              (dset METADATA_KEY (payload c) (metadata ctx)) (caller_context ctx))).
    { unfold p2, mutate. f_equal. apply list_alter_ext; [|done]. intros x Hx. simplify_eq. done. }
    rewrite Hmut. by apply provider_ok_mutate.
  - unfold content. cbn [sessions with_tables]. rewrite dget_dset_eq. cbn [mbind option_bind].
    cbn [heap with_tables mutate]. by rewrite list_lookup_alter_eq, Hr2.
  - done.
  - exact Ht.
  - cbn. apply dget_dset_eq.
  - cbn. apply dget_dset_eq.
  - exact Hact.
  - intros t ->. done.
Qed.

Lemma session_get_content p id tenant now :
  (session_get p id tenant now).1 =
  ctx ← read p (storage_id id) tenant now;
  match dget METADATA_KEY (metadata ctx) with Some (JObj d) => of_payload id ctx d | _ => None end.
Proof.
  unfold session_get, read. destruct (Session.get _ _ _ _) as [found q].
  destruct (found ≫= _) as [ctx|]; [|done]. cbn. by repeat case_match.
Qed.
End session_store.

(** A checkpoint survives its session-backed store.  In any well-formed
    provider, saving a checkpoint succeeds, and until the TTL runs out getting
    it back under its own id and tenant gives exactly the record saved, every
    field included; after [delete] it is gone. *)
Theorem session_checkpoint_roundtrip iso uuid t py_str py_int p c now now' :
  provider_ok p ->
  (forall ctx, content p (scoped_key (storage_id (checkpoint_id c)) (cp_tenant_id c)) = Some ctx ->
               tenant_id ctx = cp_tenant_id c) ->
  (now' < now + t)%Q ->
  exists p', session_save iso uuid (Some t) p c now = Ok p' /\ provider_ok p' /\
    (session_get py_str py_int p' (checkpoint_id c) (cp_tenant_id c) now').1 = Some c /\
    (session_get py_str py_int (session_delete p' (checkpoint_id c) (cp_tenant_id c))
       (checkpoint_id c) (cp_tenant_id c) now').1 = None.
Proof.
  intros Hp Hforeign Hnow.
  destruct (session_save_spec iso uuid (Some t) p c now Hp Hforeign)
    as (p' & ctx & m & Hs & Hp' & Hc & Hmsg & Ht & Hmeta & Hm & Hact & Hexp).
  exists p'. split_and!; [done|done| |].
  - rewrite session_get_content, read_content, Hm. cbn. unfold is_expired.
    rewrite Hact, (Hexp t eq_refl). cbn.
    rewrite (proj2 (qleb_false _ _)) by done. rewrite Hc. cbn. rewrite Hmeta.
    by apply of_payload_payload.
  - rewrite session_get_content, read_content. unfold session_delete, Session.delete, content. cbn.
    by rewrite !dget_dpop_eq.
Qed.

Definition demo_checkpoint : CheckpointRecord :=
  {| checkpoint_id := "req-1"; agent_id := "a"; request_id := "req-1"; cp_session_id := None;
     input_payload := [("q", JStr "hi")]; cp_messages := [JStr "m"]; all_tool_results := [];
     iterations := 2; usage := [("total", 7%Z)]; history_tail_length := 0;
     cp_tenant_id := Some "acme"; runtime_state := [] |}.

Lemma session_checkpoint_roundtrip_witness : exists p',
  session_save (fun _ => "t") "u" (Some 60%Q) (new_provider None) demo_checkpoint 0 = Ok p' /\
  (session_get (fun _ => "") (fun _ => None) p' "req-1" (Some "acme") 30).1 = Some demo_checkpoint.
Proof.
  destruct (session_checkpoint_roundtrip (fun _ => "t") "u" 60 (fun _ => "") (fun _ => None)
    (new_provider None) demo_checkpoint 0 30) as (p' & Hs & _ & Hg & _).
  - intros k. exact I.
  - discriminate.
  - reflexivity.
  - exact (ex_intro _ p' (conj Hs Hg)).
Defined.

End Checkpoint.
