(* ===== verification/AgentLoop.v ===== *)
(** * The agent loop

    [AdkRuntime._invoke_inner] of [runtimes/adk/runtime.py]: load a checkpoint
    or a paused approval, build the transcript, alternate model turns with tool
    waves until the model stops asking for tools, and persist the turn.  The
    model, the knowledge retrieval and the serializer are parameters; session
    provider and approval store are the in-memory ones; checkpoint and
    operation stores are any that meet their interfaces.  Spans, metrics, logs
    and audit records are left out. *)

From S2P Require Import Prelude Json Identity Policy Resilience Approvals Invocation.
From S2P Require Import SideEffects Tools Session Checkpoint.
Import Policy Resilience SideEffects Tools Session Checkpoint.

Module AgentLoop.
Local Open Scope string_scope.

Record AgentRequest : Type := {
  req_id : string;
  req_session : option string;
  req_input : list (string * json);
  req_continuation : option string;
  req_decision : option string;
  req_checkpoint : option string;
  req_timeout : option Q
}.

(** [AgentRequest.__post_init__]: the combinations it rejects. *)
Definition validate_request (r : AgentRequest) : result exn unit :=
  if match req_timeout r with None => false | Some t => (t <=? 0)%clock end
  then Err (raise ValueError "timeout_seconds must be greater than zero")
  else if negb (match req_decision r with
           | None => true | Some d => String.eqb d "approve" || String.eqb d "deny" end)
  then Err (raise ValueError "approval_decision must be 'approve' or 'deny'")
  else if bool_decide (is_Some (req_continuation r)) && bool_decide (req_decision r = None)
  then Err (raise ValueError "continuation_id requires approval_decision")
  else if match req_checkpoint r with None => false | Some c => py_blank c end
  then Err (raise ValueError "checkpoint_id must not be empty")
  else if bool_decide (is_Some (req_checkpoint r)) && bool_decide (is_Some (req_continuation r))
  then Err (raise ValueError "checkpoint_id cannot be combined with continuation_id")
  else Ok tt.

Record ModelResponse : Type := {
  content : string;
  tool_requests : list tool_request;
  model_usage : list (string * Z)
}.

(** What [create_agent] fixed about the agent: the rendered system prompt, and
    what the response reports. *)
Record agent_info : Type := {
  system_prompt : string;
  model_ref : string;
  unresolved_tools : list string
}.

(** What [retrieve_knowledge_context] returns: text and entries per source. *)
Record knowledge_result : Type := {
  knowledge_context : string;
  knowledge_counts : list (string * Z)
}.

(** How an invocation stops early. *)
Inductive stop : Type :=
  | Raise (e : exn)
  | Pause (a : Approvals.PendingApproval).

Definition MAX_SESSION_HISTORY_MESSAGES : nat := 20.

(** ** Messages, requests and results as dictionaries *)

Definition request_json (r : tool_request) : json :=
  JObj [("name", JStr (request_name r)); ("id", opt_json (Tools.request_id r));
        ("arguments", request_arguments r)].

Definition request_of_json (j : json) : tool_request :=
  let field k d := match j with JObj o => default d (dget k o) | _ => d end in
  {| request_name := match field "name" (JStr "") with JStr s => s | _ => "" end;
     Tools.request_id := match field "id" JNull with JStr s => Some s | _ => None end;
     request_arguments := field "arguments" (JObj []) |}.

Definition result_json (r : tool_result) : json :=
  JObj ([("tool", JStr (result_tool r)); ("tool_call_id", opt_json (result_call_id r));
         ("output", result_output r); ("error", opt_json (result_error r))] ++
        (if denied r then [("denied", JBool true)] else []) ++
        (if deduplicated r then [("was_deduplicated", JBool true)] else []) ++
        match result_side_effect r with
        | Some se => [("side_effect", JStr (side_effect_name se))]
        | None => []
        end)%list.

(** The record that a caller's denial feeds to the model; it has no call id. *)
Definition denial_json (r : tool_request) : json :=
  JObj [("tool", JStr (request_name r)); ("output", JNull);
        ("error", JStr "denied by caller: approval denied"); ("denied", JBool true)].

Definition json_field (k : string) (j : json) : json :=
  match j with JObj o => default JNull (dget k o) | _ => JNull end.

Definition plain_message (role text : string) : json :=
  JObj [("role", JStr role); ("content", JStr text)].

(** [{k: usage.get(k, 0) + v for k, v in response.usage.items()}] *)
Definition merge_usage (usage new : list (string * Z)) : list (string * Z) :=
  (fun kv => (kv.1, (default 0 (dget kv.1 usage) + kv.2)%Z)) <$> new.

(** [xs[-n:]] *)
Definition last_n {A} (n : nat) (l : list A) : list A := drop (length l - n) l.

Section loop.
Context {C : Type} `{CheckpointStore C} {Ops : Type} `{OperationStore Ops}.

(** What the agent was created with. *)
Context (agent_id : string) (max_iterations : Z) (info : agent_info).
Context (tools : list (string * Tool)) (side_effects : list (string * string)).
Context (policy : option AgentPolicy) (identity : option Identity.InvocationIdentity).
Context (use_registry has_sessions has_checkpoints has_memory has_knowledge : bool) (session_ttl : option Q).
(** The world outside: deadline and clock at each step, the model on a
    transcript, what tool calls do, fresh identifiers, [json.dumps]. *)
Context (expired : nat -> bool) (clock : nat -> Q).
Context (model : nat -> list json -> result exn ModelResponse).
Context (execute : nat -> tool_outcome) (record_ok : nat -> bool).
Context (fresh : nat -> string) (new_call_id : nat -> nat -> string) (py_str : json -> string).
Context (dumps : json -> string) (iso : Q -> string) (knowledge : knowledge_result).

Record world : Type := {
  provider : InMemorySessionProvider;
  checkpoints : C;
  approvals : Approvals.InMemoryApprovalStore;
  operations : Ops;
  executed_calls : list (nat * tool_request);
  attempted : list string;
  tool_calls : nat;
  model_calls : nat;
  memories : list (string * json);
  ticks : nat
}.

Definition M (A : Type) : Type := world -> result stop A * world.

Definition ret {A} (a : A) : M A := fun w => (Ok a, w).
Definition bind {A B} (m : M A) (k : A -> M B) : M B :=
  fun w => match m w with (Ok a, w) => k a w | (Err e, w) => (Err e, w) end.
Definition throw {A} (c : exn_class) (msg : string) : M A := fun w => (Err (Raise (raise c msg)), w).

Definition set_provider (w : world) (p : InMemorySessionProvider) : world :=
  {| provider := p; checkpoints := checkpoints w; approvals := approvals w;
     operations := operations w; executed_calls := executed_calls w; attempted := attempted w;
     tool_calls := tool_calls w; model_calls := model_calls w; memories := memories w;
     ticks := ticks w |}.
Definition set_checkpoints (w : world) (c : C) : world :=
  {| provider := provider w; checkpoints := c; approvals := approvals w;
     operations := operations w; executed_calls := executed_calls w; attempted := attempted w;
     tool_calls := tool_calls w; model_calls := model_calls w; memories := memories w;
     ticks := ticks w |}.
Definition set_approvals (w : world) (a : Approvals.InMemoryApprovalStore) : world :=
  {| provider := provider w; checkpoints := checkpoints w; approvals := a;
     operations := operations w; executed_calls := executed_calls w; attempted := attempted w;
     tool_calls := tool_calls w; model_calls := model_calls w; memories := memories w;
     ticks := ticks w |}.
Definition set_wave (w : world) (v : @wave_state Ops) : world :=
  {| provider := provider w; checkpoints := checkpoints w; approvals := approvals w;
     operations := store v; executed_calls := executed v; attempted := attempted_tools v;
     tool_calls := calls v; model_calls := model_calls w; memories := memories w;
     ticks := ticks w |}.
Definition count_model_call (w : world) : world :=
  {| provider := provider w; checkpoints := checkpoints w; approvals := approvals w;
     operations := operations w; executed_calls := executed_calls w; attempted := attempted w;
     tool_calls := tool_calls w; model_calls := 1 + model_calls w; memories := memories w;
     ticks := ticks w |}.
Definition add_memory (w : world) (m : string * json) : world :=
  {| provider := provider w; checkpoints := checkpoints w; approvals := approvals w;
     operations := operations w; executed_calls := executed_calls w; attempted := attempted w;
     tool_calls := tool_calls w; model_calls := model_calls w; memories := (memories w ++ [m])%list;
     ticks := ticks w |}.
Definition tick (w : world) : world :=
  {| provider := provider w; checkpoints := checkpoints w; approvals := approvals w;
     operations := operations w; executed_calls := executed_calls w; attempted := attempted w;
     tool_calls := tool_calls w; model_calls := model_calls w; memories := memories w;
     ticks := 1 + ticks w |}.

(** [deadline.run(operation)]: an elapsed deadline raises before the
    operation starts; the in-memory stores never suspend inside one. *)
Definition on_deadline {A} (m : M A) : M A := fun w =>
  let w := tick w in
  if expired (ticks w) then (Err (Raise (raise TimeoutError "invocation deadline exceeded")), w)
  else m w.

Definition bound_tenant_id : option string := bound_tenant identity.

(** *** Loading *)

Definition load_checkpoint (req : AgentRequest) : M (option CheckpointRecord) :=
  match req_checkpoint req with
  | None => ret None
  | Some cid =>
      if negb has_checkpoints
      then throw CheckpointNotFoundError "checkpointing is not configured for this runtime"
      else bind (on_deadline (fun w => (Ok (cp_get (checkpoints w) cid bound_tenant_id), w)))
        (fun found =>
           match found with
           | Some c =>
               if negb (String.eqb (Checkpoint.agent_id c) agent_id)
               then throw CheckpointNotFoundError "unknown, expired, or foreign checkpoint"
               else if match req_input req with [] => false | _ => true end
               then throw ValueError "checkpoint resume must not include new input"
               else ret (Some c)
           | None => throw CheckpointNotFoundError "unknown, expired, or foreign checkpoint"
           end)
  end.

Definition load_continuation (req : AgentRequest) : M (option Approvals.PendingApproval) :=
  if negb (opt_truthy (req_continuation req)) then ret None
  else fun w =>
    let cid := default "" (req_continuation req) in
    let '(found, a) := Approvals.get (approvals w) cid (clock (ticks w)) in
    let w := set_approvals w a in
    match found with
    | Some p =>
        if String.eqb (Approvals.agent_id p) agent_id
        then (Ok (Some p), set_approvals w (Approvals.delete (approvals w) cid))
        else throw ContinuationNotFoundError "unknown or expired continuation" w
    | None => throw ContinuationNotFoundError "unknown or expired continuation" w
    end.

Definition approved (req : AgentRequest) (resume : option Approvals.PendingApproval) : bool :=
  match resume with
  | Some _ => bool_decide (req_decision req = Some "approve")
  | None => false
  end.

Definition load_session (session_id : option string) : M (option ref) :=
  if negb (has_sessions && opt_truthy session_id) then ret None
  else
    let sid := default "" session_id in
    bind (on_deadline (fun w =>
            let '(r, p) := Session.get (provider w) sid bound_tenant_id (clock (ticks w)) in
            (Ok r, set_provider w p)))
      (fun found =>
         match found with
         | Some r => ret (Some r)
         | None =>
             on_deadline (fun w =>
               let '(r, p) := Session.create iso (fresh (ticks w)) (provider w) (Some sid)
                                session_ttl bound_tenant_id (clock (ticks w)) in
               (Ok (Some r), set_provider w p))
         end).

Definition session_messages (w : world) (r : ref) : list json :=
  from_option messages [] (heap (provider w) !! r).

(** What the loop carries from turn to turn. *)
Record loop_state : Type := {
  transcript : list json;
  tool_results : list json;
  usage : list (string * Z);
  iterations : Z
}.

(** What stays fixed once the invocation is set up. *)
Record frame : Type := {
  frame_session : option ref;
  frame_session_id : option string;
  frame_input : list (string * json);
  tail_length : Z;
  cp_id : string;
  frame_knowledge : list (string * Z)
}.

(** *** Tool waves *)

Definition run_wave (skip : bool) (rs : list tool_request) : M (list tool_result) := fun w =>
  match execute_tools tools side_effects policy identity use_registry skip fresh py_str
          execute record_ok rs
          {| store := operations w; results := []; executed := executed_calls w;
             attempted_tools := attempted w; calls := tool_calls w |} with
  | (None, v) => (Ok (results v), set_wave w v)
  | (Some e, v) => (Err (Raise e), set_wave w v)
  end.

Definition tool_message (with_id : bool) (j : json) : json :=
  let c := if py_truthy (json_field "error" j) then json_field "error" j else json_field "output" j in
  JObj ([("role", JStr "tool")] ++
        (if with_id then [("tool_call_id", json_field "tool_call_id" j)] else []) ++
        [("name", json_field "tool" j); ("content", JStr (dumps c))])%list.

(** *** Checkpoints *)

Definition checkpoint_of (req : AgentRequest) (f : frame) (l : loop_state) : CheckpointRecord :=
  {| checkpoint_id := cp_id f; Checkpoint.agent_id := agent_id; Checkpoint.request_id := req_id req;
     cp_session_id := frame_session_id f; input_payload := frame_input f;
     cp_messages := transcript l; all_tool_results := tool_results l;
     Checkpoint.iterations := iterations l; Checkpoint.usage := usage l;
     history_tail_length := tail_length f; cp_tenant_id := bound_tenant_id;
     runtime_state := [] |}.

Definition save_checkpoint (req : AgentRequest) (f : frame) (l : loop_state) : M unit :=
  if has_checkpoints
  then on_deadline (fun w => (Ok tt, set_checkpoints w (cp_save (checkpoints w) (checkpoint_of req f l))))
  else ret tt.

Definition delete_checkpoint (f : frame) : M unit :=
  if has_checkpoints
  then on_deadline (fun w => (Ok tt, set_checkpoints w (cp_delete (checkpoints w) (cp_id f) bound_tenant_id)))
  else ret tt.

(** *** Setting up: the transcript, the counters, a resumed wave *)

Definition initial_state (checkpoint : option CheckpointRecord)
    (resume : option Approvals.PendingApproval) (input : list (string * json))
    (session : option ref) (w : world) : loop_state * Z :=
  match checkpoint with
  | Some c =>
      ({| transcript := cp_messages c; tool_results := all_tool_results c;
          usage := Checkpoint.usage c; iterations := Checkpoint.iterations c |},
       history_tail_length c)
  | None =>
      let text := match resume with
                  | None => if has_knowledge then knowledge_context knowledge else ""
                  | Some _ => ""
                  end in
      let prompt := if str_truthy text
                    then system_prompt info ++
                         String (Ascii.ascii_of_nat 10) (String (Ascii.ascii_of_nat 10) text)
                    else system_prompt info in
      let tail := from_option (fun r => last_n MAX_SESSION_HISTORY_MESSAGES (session_messages w r)) [] session in
      ({| transcript := ([plain_message "system" prompt] ++ tail ++
                         [plain_message "user" (dumps (JObj input))])%list;
          tool_results := []; usage := []; iterations := 0 |},
       Z.of_nat (length tail))
  end.

Definition resume_wave (req : AgentRequest) (p : Approvals.PendingApproval) (l : loop_state)
  : M loop_state :=
  let rs := request_of_json <$> Approvals.tool_requests p in
  bind (if approved req (Some p)
        then bind (run_wave true rs) (fun res => ret (result_json <$> res))
        else ret (denial_json <$> rs))
    (fun res =>
       ret {| transcript := (Approvals.messages p ++ (tool_message false <$> res))%list;
              tool_results := (Approvals.all_tool_results p ++ res)%list;
              usage := usage l; iterations := Approvals.iterations p |}).

(** *** One turn: a model call and the wave it asks for *)

(** The response and the number of the call. *)
Definition call_model (ms : list json) : M (nat * ModelResponse) :=
  on_deadline (fun w =>
    match model (model_calls w) ms with
    | Ok r => (Ok (model_calls w, r), count_model_call w)
    | Err e => (Err (Raise e), count_model_call w)
    end).

(** Every request gets a call id, the model's own or a fresh one. *)
Definition with_ids (n : nat) (rs : list tool_request) : list tool_request :=
  imap (fun i r => {| request_name := request_name r;
                      Tools.request_id := Some (opt_or (Tools.request_id r) (new_call_id n i));
                      request_arguments := request_arguments r |}) rs.

Definition call_json (r : tool_request) : json :=
  JObj [("id", opt_json (Tools.request_id r)); ("type", JStr "function");
        ("function", JObj [("name", JStr (request_name r));
           ("arguments", JStr (dumps (if py_truthy (request_arguments r)
                                      then request_arguments r else JObj [])))])].

Definition assistant_message (text : string) (rs : list tool_request) : json :=
  JObj ([("role", JStr "assistant"); ("content", JStr text)] ++
        match rs with [] => [] | _ => [("tool_calls", JList (call_json <$> rs))] end)%list.

Definition pending (req : AgentRequest) (f : frame) (l : loop_state) (rs : list tool_request)
    (n : nat) : Approvals.PendingApproval :=
  {| Approvals.continuation_id := opt_or (req_continuation req) (fresh n);
     Approvals.agent_id := agent_id; Approvals.tool_requests := request_json <$> rs;
     Approvals.messages := transcript l; Approvals.all_tool_results := tool_results l;
     Approvals.iterations := iterations l; Approvals.request_id := Some (req_id req);
     Approvals.session_id := frame_session_id f; Approvals.input_payload := frame_input f;
     Approvals.expires_at := None |}.

Definition save_approval (req : AgentRequest) (f : frame) (l : loop_state) (rs : list tool_request)
  : M Approvals.PendingApproval := fun w =>
  let a := pending req f l rs (ticks w) in
  (Ok a, set_approvals w (Approvals.save (approvals w) a (clock (ticks w)))).

Definition stop_paused {A} (a : Approvals.PendingApproval) : M A := fun w => (Err (Pause a), w).

Definition pause {A} (req : AgentRequest) (f : frame) (l : loop_state) (rs : list tool_request) : M A :=
  bind (save_approval req f l rs) (fun a => bind (delete_checkpoint f) (fun _ => stop_paused a)).

Inductive verdict : Type :=
  | Done (r : ModelResponse) (max_iterations_reached : bool)
  | Again.

(** The transcript with the results of a wave appended. *)
Definition waved (l : loop_state) (js : list json) : loop_state :=
  {| transcript := (transcript l ++ (tool_message true <$> js))%list;
     tool_results := (tool_results l ++ js)%list;
     usage := usage l; iterations := iterations l |}.

(** The wave of a turn, guarded by the checkpoint protocol. *)
Definition tool_turn (req : AgentRequest) (f : frame) (l : loop_state) (rs : list tool_request)
  : M loop_state :=
  bind (if negb (wave_is_replay_safe tools side_effects rs) then delete_checkpoint f else ret tt)
    (fun _ => bind (run_wave false rs) (fun res =>
       let l := waved l (result_json <$> res) in
       bind (save_checkpoint req f l) (fun _ => ret l))).

(** The transcript with the model's answer appended. *)
Definition answered (l : loop_state) (response : ModelResponse) (rs : list tool_request) : loop_state :=
  {| transcript := (transcript l ++ [assistant_message (content response) rs])%list;
     tool_results := tool_results l;
     usage := merge_usage (usage l) (model_usage response);
     iterations := (iterations l + 1)%Z |}.

Definition turn (req : AgentRequest) (f : frame) (l : loop_state) : M (verdict * loop_state) :=
  bind (call_model (transcript l))
    (fun nr =>
       let rs := with_ids nr.1 (tool_requests nr.2) in
       let l := answered l nr.2 rs in
       match rs with
       | [] => ret (Done nr.2 false, l)
       | _ =>
           if Z.geb (iterations l) max_iterations then ret (Done nr.2 true, l)
           else if approval_needed tools side_effects policy identity rs then pause req f l rs
           else bind (tool_turn req f l rs) (fun l => ret (Again, l))
       end).

(** The [while True] loop; [None] when the fuel runs out. *)
Fixpoint loop (fuel : nat) (req : AgentRequest) (f : frame) (l : loop_state)
  : M (option (ModelResponse * bool * loop_state)) :=
  match fuel with
  | O => ret None
  | S fuel =>
      bind (turn req f l) (fun vl =>
        match vl with
        | (Done r m, l) => ret (Some (r, m, l))
        | (Again, l) => loop fuel req f l
        end)
  end.

(** A turn is taken only while the counter is below the bound, except the first. *)
Definition enough_fuel (l : loop_state) : nat := S (Z.to_nat (max_iterations - iterations l)).

(** *** Finishing *)

Definition persist_session (f : frame) (l : loop_state) : M unit :=
  match frame_session f with
  | None => ret tt
  | Some r => fun w =>
      let turn_start := Z.to_nat (1 + tail_length f) in
      let w := set_provider w (mutate (provider w) r (fun c =>
                 write_fields (messages c ++ drop turn_start (transcript l))%list (metadata c)
                   (caller_context c) c)) in
      on_deadline (fun w =>
        match Session.update (provider w) r session_ttl None (clock (ticks w)) with
        | Ok p => (Ok tt, set_provider w p)
        | Err e => throw RuntimeError "version conflict" w
        end) w
  end.

Definition store_memory (req : AgentRequest) (f : frame) (text : string) : M unit :=
  if has_memory
  then on_deadline (fun w =>
    (Ok tt, add_memory w ("invocation:" ++ opt_or (Some (req_id req)) (fresh (ticks w)),
                          JObj [("input", JObj (frame_input f)); ("output", JStr text)])))
  else ret tt.

(** The response; [latency_ms], a clock difference, is left out. *)
Definition success (req : AgentRequest) (f : frame) (r : ModelResponse) (m : bool) (l : loop_state)
  : Invocation.AgentResponse :=
  {| Invocation.output := JObj [("content", JStr (content r)); ("tool_results", JList (tool_results l))];
     Invocation.response_request_id := req_id req; Invocation.response_session_id := frame_session_id f;
     Invocation.status := "success"; Invocation.error := None;
     Invocation.metadata :=
       [("usage", JObj (prod_map id JInt <$> usage l)); ("model_ref", JStr (model_ref info));
        ("tools_called", JList (json_field "tool" <$>
           filterb (fun j => negb (py_truthy (json_field "denied" j))) (tool_results l)));
        ("iterations", JInt (iterations l)); ("max_iterations_reached", JBool m);
        ("unresolved_tools", JList (JStr <$> unresolved_tools info));
        ("knowledge_entries", JInt (foldr Z.add 0%Z (snd <$> frame_knowledge f)));
        ("knowledge_sources", JObj (prod_map id JInt <$> frame_knowledge f));
        ("resumed_from_checkpoint", opt_json (req_checkpoint req))] |}.

Definition finish (req : AgentRequest) (f : frame) (r : ModelResponse) (m : bool) (l : loop_state)
  : M Invocation.AgentResponse :=
  bind (persist_session f l) (fun _ =>
  bind (store_memory req f (content r)) (fun _ =>
  bind (delete_checkpoint f) (fun _ => ret (success req f r m l)))).

(** *** The whole invocation *)

(** What the invocation continues from. *)
Record loaded : Type := {
  ld_checkpoint : option CheckpointRecord;
  ld_resume : option Approvals.PendingApproval;
  ld_session_id : option string;
  ld_input : list (string * json);
  ld_session : option ref
}.

(** The retrieval itself only reads: its outcome is [knowledge]. *)
Definition retrieve_knowledge (checkpoint : option CheckpointRecord)
    (resume : option Approvals.PendingApproval) : M unit :=
  match checkpoint, resume with
  | None, None => if has_knowledge then on_deadline (ret tt) else ret tt
  | _, _ => ret tt
  end.

Definition load (req : AgentRequest) : M loaded :=
  bind (load_checkpoint req) (fun checkpoint =>
  bind (load_continuation req) (fun resume =>
  let session_id :=
    match checkpoint with
    | Some c => cp_session_id c
    | None => if opt_truthy (req_session req) then req_session req else resume ≫= Approvals.session_id
    end in
  bind (load_session session_id) (fun session =>
  bind (retrieve_knowledge checkpoint resume) (fun _ =>
  ret {| ld_checkpoint := checkpoint; ld_resume := resume; ld_session_id := session_id;
         ld_input :=
           match checkpoint, resume with
           | Some c, _ => input_payload c
           | None, Some p => Approvals.input_payload p
           | None, None => req_input req
           end;
         ld_session := session |})))).

Definition frame_of (req : AgentRequest) (ld : loaded) (tail : Z) : frame :=
  {| frame_session := ld_session ld; frame_session_id := ld_session_id ld;
     frame_input := ld_input ld; tail_length := tail;
     cp_id := opt_or (req_checkpoint req) (req_id req);
     frame_knowledge :=
       match ld_checkpoint ld, ld_resume ld with
       | None, None => if has_knowledge then knowledge_counts knowledge else []
       | _, _ => []
       end |}.

Definition prepare (req : AgentRequest) (ld : loaded) : M (frame * loop_state) := fun w =>
  let '(l, tail) := initial_state (ld_checkpoint ld) (ld_resume ld) (ld_input ld) (ld_session ld) w in
  bind (match ld_resume ld with Some p => resume_wave req p l | None => ret l end)
    (fun l => ret (frame_of req ld tail, l)) w.

Definition setup (req : AgentRequest) : M (frame * loop_state) := bind (load req) (prepare req).

Definition run_loop (req : AgentRequest) (f : frame) (l : loop_state)
  : M (option Invocation.AgentResponse) :=
  bind (save_checkpoint req f l) (fun _ =>
  bind (loop (enough_fuel l) req f l) (fun done =>
    match done with
    | None => ret None
    | Some (r, m, l) => bind (finish req f r m l) (fun a => ret (Some a))
    end)).

Definition invoke_inner (req : AgentRequest) : M (option Invocation.AgentResponse) :=
  bind (setup req) (fun fl => run_loop req fl.1 fl.2).

(** ** Reasoning about the monad: triples with a postcondition for each way
    of ending *)

Definition triple {A} (P : world -> Prop) (m : M A) (Q : A -> world -> Prop)
    (E : stop -> world -> Prop) : Prop :=
  forall w, P w -> match m w with (Ok a, w') => Q a w' | (Err e, w') => E e w' end.

Lemma triple_ret {A} (a : A) P (Q : A -> world -> Prop) E :
  (forall w, P w -> Q a w) -> triple P (ret a) Q E.
Proof. intros HQ w Hw. by apply HQ. Qed.

Lemma triple_throw {A} c msg P (Q : A -> world -> Prop) (E : stop -> world -> Prop) :
  (forall e w, P w -> E e w) -> triple P (throw c msg) Q E.
Proof. intros HE w Hw. by apply HE. Qed.

Lemma triple_bind {A B} (m : M A) (k : A -> M B) P Q R E :
  triple P m Q E -> (forall a, triple (Q a) (k a) R E) -> triple P (bind m k) R E.
Proof.
  intros Hm Hk w Hw. specialize (Hm w Hw). unfold bind.
  destruct (m w) as [[a|e] w']; [by apply Hk | done].
Qed.

Lemma triple_weaken {A} (m : M A) (P P' : world -> Prop) (Q Q' : A -> world -> Prop)
    (E E' : stop -> world -> Prop) :
  (forall w, P' w -> P w) -> (forall a w, Q a w -> Q' a w) -> (forall e w, E e w -> E' e w) ->
  triple P m Q E -> triple P' m Q' E'.
Proof.
  intros HP HQ HE Hm w Hw. specialize (Hm w (HP w Hw)). destruct (m w) as [[a|e] w']; auto.
Qed.

(** The deadline: its tick keeps [P], and so does a timeout. *)
Lemma triple_deadline {A} (m : M A) P Q (E : stop -> world -> Prop) :
  (forall w, P w -> P (tick w)) -> (forall e w, P w -> E e w) ->
  triple P m Q E -> triple P (on_deadline m) Q E.
Proof.
  intros Ht HE Hm w Hw. unfold on_deadline.
  destruct (expired _); [by apply HE, Ht | by apply Hm, Ht].
Qed.

(** A property that nothing but the named fields matters to. *)
Definition invariant {A} (I : world -> Prop) (m : M A) : Prop :=
  triple I m (fun _ => I) (fun _ => I).

Lemma invariant_bind {A B} (m : M A) (k : A -> M B) I :
  invariant I m -> (forall a, invariant I (k a)) -> invariant I (bind m k).
Proof. intros Hm Hk. by eapply triple_bind. Qed.
(** A first step that keeps [I], then anything proved from [I]. *)
Lemma triple_keep {A B} (m : M A) (k : A -> M B) (I : world -> Prop) R (E : stop -> world -> Prop) :
  invariant I m -> (forall e w, I w -> E e w) -> (forall a, triple I (k a) R E) ->
  triple I (bind m k) R E.
Proof.
  intros Hm HE Hk. eapply triple_bind; [|exact Hk]. by eapply triple_weaken; [| | |exact Hm].
Qed.
Lemma invariant_ret {A} (a : A) I : invariant I (ret a).
Proof. by apply triple_ret. Qed.
Lemma invariant_throw {A} c msg I : invariant I (throw (A := A) c msg).
Proof. by apply triple_throw. Qed.
Lemma invariant_deadline {A} (m : M A) (I : world -> Prop) :
  (forall w, I w -> I (tick w)) -> invariant I m -> invariant I (on_deadline m).
Proof. intros Ht Hm. by apply triple_deadline. Qed.

(** Descend through binds, returns, deadlines and tests to the primitive steps. *)
Ltac inv_step :=
  match goal with
  | |- invariant _ (bind _ _) => apply invariant_bind; [|intros ?]
  | |- invariant _ (ret _) => apply invariant_ret
  | |- invariant _ (throw _ _) => apply invariant_throw
  | |- invariant _ (on_deadline _) => apply invariant_deadline; [try done|]
  | |- invariant _ (if ?b then _ else _) => destruct b
  | |- invariant _ (match ?x with _ => _ end) => destruct x
  end.
Ltac inv_auto := repeat inv_step; try (by intros ? ?).

(** *** Bounded turns *)

(** Steps other than a model call leave the count of model calls alone. *)
Lemma run_wave_calls n skip rs : invariant (fun w => model_calls w = n) (run_wave skip rs).
Proof. intros w Hw. unfold run_wave. by destruct (execute_tools _ _ _ _ _ _ _ _ _ _ _ _) as [[e|] v]. Qed.

Lemma tool_turn_calls n req f l rs : invariant (fun w => model_calls w = n) (tool_turn req f l rs).
Proof.
  unfold tool_turn, delete_checkpoint, save_checkpoint. inv_auto; apply run_wave_calls.
Qed.

Lemma pause_calls {A} n req f l rs : invariant (fun w => model_calls w = n) (pause (A := A) req f l rs).
Proof. unfold pause, delete_checkpoint. inv_auto. Qed.

Lemma tool_turn_iterations n req f l rs :
  triple (fun w => model_calls w = n) (tool_turn req f l rs)
    (fun l' w => model_calls w = n /\ iterations l' = iterations l) (fun _ w => model_calls w = n).
Proof.
  unfold tool_turn. apply triple_keep; [unfold delete_checkpoint; inv_auto|done|intros _].
  apply triple_keep; [apply run_wave_calls|done|intros res].
  apply triple_keep; [unfold save_checkpoint; inv_auto|done|intros _]. by apply triple_ret.
Qed.

Lemma turn_calls n req f l :
  triple (fun w => model_calls w = n) (turn req f l)
    (fun vl w => model_calls w = 1 + n /\ iterations vl.2 = (iterations l + 1)%Z /\
                 (vl.1 = Again -> (iterations vl.2 < max_iterations)%Z))
    (fun _ w => model_calls w <= 1 + n).
Proof.
  unfold turn. eapply (triple_bind _ _ _ (fun _ w => model_calls w = 1 + n)).
  - intros w <-. unfold call_model, on_deadline. destruct (expired _); cbn; [lia|].
    destruct (model _ _); cbn; lia.
  - intros [k r]. cbn zeta. set (rs := with_ids _ _). clearbody rs. set (l1 := answered l _ rs).
    assert (Hl1 : iterations l1 = (iterations l + 1)%Z) by done. clearbody l1.
    destruct rs as [|r0 rs0]; [by apply triple_ret|].
    destruct (Z.geb_spec (iterations l1) max_iterations) as [Hge|Hlt]; [by apply triple_ret|].
    destruct (approval_needed _ _ _ _ _).
    + unfold pause. apply triple_keep; [inv_auto|lia|intros a].
      apply triple_keep; [unfold delete_checkpoint; inv_auto|lia|intros _]. intros w Hw. cbn. lia.
    + eapply triple_bind.
      * eapply triple_weaken; [| | |apply (tool_turn_iterations (1 + n))]; [done|intros a w HQ; exact HQ|].
        cbn. lia.
      * intros l'. apply triple_ret. cbn. intros w [-> ->]. split_and!; [done|done|]. intros _. lia.
Qed.

(** The bound on the turns of a loop that starts with [k] turns behind it. *)
Definition turn_bound (k : Z) : nat := Nat.max 1 (Z.to_nat (max_iterations - k)).

Lemma loop_bounded fuel n req f l :
  Z.to_nat (max_iterations - iterations l) < fuel ->
  triple (fun w => model_calls w = n) (loop fuel req f l)
    (fun d w => is_Some d /\ model_calls w <= n + turn_bound (iterations l))
    (fun _ w => model_calls w <= n + turn_bound (iterations l)).
Proof.
  revert n l. induction fuel as [|fuel IH]; intros n l Hf; [lia|]. cbn [loop].
  eapply triple_bind.
  - eapply triple_weaken; [| | |apply (turn_calls n)]; [done|intros vl w HQ; exact HQ|].
    unfold turn_bound. cbn. lia.
  - intros [[r m|] l']; [apply triple_ret; unfold turn_bound; cbn; intros w (-> & _); split; [done|lia]|].
    intros w (Hc & Hit & Hlt). cbn in Hit, Hlt. specialize (Hlt eq_refl).
    assert (Hf' : Z.to_nat (max_iterations - iterations l') < fuel) by lia.
    specialize (IH (1 + n) l' Hf' w Hc). unfold turn_bound in *.
    destruct (loop fuel req f l' w) as [[d|e] w']; [destruct IH; split; [done|]|]; lia.
Qed.

Definition found_checkpoint (req : AgentRequest) (w : world) : option CheckpointRecord :=
  cid ← req_checkpoint req; cp_get (checkpoints w) cid bound_tenant_id.

Definition found_continuation (req : AgentRequest) (w : world) : option Approvals.PendingApproval :=
  if opt_truthy (req_continuation req) then
    dget (default "" (req_continuation req)) (Approvals.approvals (approvals w))
  else None.

(** The turn counter an invocation starts from. *)
Definition start_count (req : AgentRequest) (w : world) : Z :=
  match found_continuation req w with
  | Some p => Approvals.iterations p
  | None => from_option Checkpoint.iterations 0%Z (found_checkpoint req w)
  end.

(** Nothing that was recorded has changed: model calls, checkpoints, tool calls. *)
Definition unmoved (w w' : world) : Prop :=
  model_calls w' = model_calls w /\ checkpoints w' = checkpoints w /\
  executed_calls w' = executed_calls w.

Lemma load_checkpoint_spec req w0 :
  triple (fun w => unmoved w0 w /\ approvals w = approvals w0) (load_checkpoint req)
    (fun c w => (unmoved w0 w /\ approvals w = approvals w0) /\ c = found_checkpoint req w0)
    (fun _ => unmoved w0).
Proof.
  unfold load_checkpoint, found_checkpoint.
  destruct (req_checkpoint req) as [cid|]; [|by apply triple_ret].
  destruct has_checkpoints; [|apply triple_throw; tauto].
  eapply (triple_bind _ _ _ (fun c w => (unmoved w0 w /\ approvals w = approvals w0) /\
    c = cp_get (checkpoints w0) cid bound_tenant_id)).
  - apply triple_deadline; [done|tauto|]. intros w ((? & Hc & ?) & ?). cbn. by rewrite Hc.
  - intros [c|]; [|apply triple_throw; tauto].
    destruct (negb _); [apply triple_throw; tauto|].
    destruct (req_input req); [|apply triple_throw; tauto]. apply triple_ret. cbn. tauto.
Qed.

Lemma load_continuation_spec req w0 :
  triple (fun w => unmoved w0 w /\ approvals w = approvals w0) (load_continuation req)
    (fun p w => unmoved w0 w /\ p = found_continuation req w0 /\
       from_option (fun q => Approvals.agent_id q = agent_id) True p) (fun _ => unmoved w0).
Proof.
  unfold load_continuation, found_continuation. destruct (opt_truthy _); cbn [negb].
  - intros w ((Hm & Hc & He) & Ha). unfold Approvals.get. rewrite Ha.
    destruct (dget _ _) as [p|]; [|by cbn]. destruct (Approvals.expired _ _ _); [by cbn|].
    destruct (String.eqb_spec (Approvals.agent_id p) agent_id); cbn; by split_and!.
  - apply triple_ret. cbn. tauto.
Qed.

Lemma load_session_invariant w0 sid : invariant (unmoved w0) (load_session sid).
Proof.
  unfold load_session. inv_auto. intros w Hw. by destruct (Session.get _ _ _ _).
Qed.

(** Loading finds the stored checkpoint and approval and moves nothing else. *)
Lemma load_spec req w0 :
  triple (fun w => w = w0) (load req)
    (fun ld w => unmoved w0 w /\ ld_checkpoint ld = found_checkpoint req w0 /\
                 ld_resume ld = found_continuation req w0 /\
                 from_option (fun q => Approvals.agent_id q = agent_id) True (ld_resume ld))
    (fun _ => unmoved w0).
Proof.
  unfold load. eapply triple_bind.
  { eapply triple_weaken; [| | |apply (load_checkpoint_spec req w0)];
      [by intros w ->|intros c w HQ; exact HQ|done]. }
  intros c. intros w [Hw ->]. revert w Hw.
  eapply triple_bind; [apply (load_continuation_spec req w0)|].
  intros p w (Hw & -> & Hid). revert w Hw. apply triple_keep; [apply load_session_invariant|done|intros session].
  apply triple_keep; [unfold retrieve_knowledge; inv_auto|done|intros _]. by apply triple_ret.
Qed.

Lemma resume_wave_calls n req p l : invariant (fun w => model_calls w = n) (resume_wave req p l).
Proof. unfold resume_wave. inv_auto. apply run_wave_calls. Qed.

Lemma prepare_count n req ld :
  triple (fun w => model_calls w = n) (prepare req ld)
    (fun fl w => model_calls w = n /\
       iterations fl.2 = match ld_resume ld with
                         | Some p => Approvals.iterations p
                         | None => from_option Checkpoint.iterations 0%Z (ld_checkpoint ld)
                         end)
    (fun _ w => model_calls w = n).
Proof.
  intros w Hw. unfold prepare. destruct (initial_state _ _ _ _ w) as [l tail] eqn:El.
  destruct (ld_resume ld) as [p|] eqn:Er.
  - unfold bind, resume_wave. destruct (approved req (Some p)); cbn; [|done].
    pose proof (run_wave_calls n true (request_of_json <$> Approvals.tool_requests p) w Hw) as Hc.
    unfold bind. by destruct (run_wave _ _ w) as [[res|e] w'].
  - cbn. split; [done|]. unfold initial_state in El. by destruct (ld_checkpoint ld); simplify_eq.
Qed.

(** *** Checkpoints account for side effects *)

(** Every executed call with a side effect has its result among [js]. *)
Definition accounted (js : list json) (w : world) : Prop :=
  forall n r, (n, r) ∈ executed_calls w -> has_side_effect tools side_effects r ->
    exists res, result_json res ∈ js /\ result_tool res = request_name r /\
                result_call_id res = Tools.request_id r.

Definition stored (cid : string) (w : world) : option CheckpointRecord :=
  cp_get (checkpoints w) cid bound_tenant_id.

(** Whatever checkpoint is stored accounts for every side effect so far. *)
Definition cp_safe (cid : string) (w : world) : Prop :=
  forall c, stored cid w = Some c -> accounted (all_tool_results c) w.

Lemma accounted_app js js' w : accounted js w -> accounted (js ++ js')%list w.
Proof.
  intros Ha n r Hin Hse. destruct (Ha n r Hin Hse) as (res & ? & ?). exists res.
  rewrite elem_of_app. auto.
Qed.

(** A wave that may have side effects runs with no checkpoint stored. *)
Lemma run_wave_accounted cid js skip rs :
  triple (fun w => accounted js w /\ stored cid w = None) (run_wave skip rs)
    (fun res w => accounted (js ++ (result_json <$> res))%list w /\ stored cid w = None)
    (fun _ w => stored cid w = None).
Proof.
  intros w [Ha Hs]. unfold run_wave.
  destruct (execute_tools _ _ _ _ _ _ _ _ _ _ _ _) as [[e|] v] eqn:Hw; [done|]. split; [|done].
  apply wave_results in Hw as [_ Hres]. intros n r Hin Hse.
  destruct (Hres (n, r) Hin) as [Hold|(res & Hr & Ht & Hi)].
  - by apply (accounted_app js _ w Ha n r).
  - exists res. split; [|done]. apply elem_of_app. right. apply list_elem_of_fmap. by exists res.
Qed.

(** A replay-safe wave executes nothing that has to be accounted for. *)
Lemma run_wave_safe cid js skip rs :
  wave_is_replay_safe tools side_effects rs = true ->
  invariant (fun w => accounted js w /\ cp_safe cid w) (run_wave skip rs).
Proof.
  intros Hsafe w [Ha Hc]. unfold run_wave.
  destruct (execute_tools _ _ _ _ _ _ _ _ _ _ _ _) as [e v] eqn:Hw.
  assert (Hold : forall js', accounted js' w -> accounted js' (set_wave w v)).
  { intros js' Ha' n r Hin Hse.
    destruct (wave_executed _ _ _ _ _ _ _ _ _ _ _ _ _ _ Hw n r Hin) as [?|[Hr _]];
      [by eapply Ha'|]. by edestruct replay_safe_request. }
  assert (accounted js (set_wave w v) /\ cp_safe cid (set_wave w v)).
  { split; [by apply Hold|]. intros c Hst. by apply Hold, Hc. }
  by destruct e.
Qed.

(** *** Who may run a side effect *)

(** A call in the log is good, whatever [good] means for this invocation. *)
Definition all_good (good : tool_request -> Prop) (w : world) : Prop :=
  forall n r, (n, r) ∈ executed_calls w -> good r.

Lemma run_wave_good good skip rs :
  (forall r, r ∈ rs -> permitted tools side_effects policy identity skip r -> good r) ->
  invariant (all_good good) (run_wave skip rs).
Proof.
  intros Hg w Hw. unfold run_wave.
  destruct (execute_tools _ _ _ _ _ _ _ _ _ _ _ _) as [e v] eqn:He.
  assert (all_good good (set_wave w v)) by
    (intros n r Hin; destruct (wave_executed _ _ _ _ _ _ _ _ _ _ _ _ _ _ He n r Hin) as [?|[? ?]]; eauto).
  by destruct e.
Qed.

Lemma turn_good good req f l :
  (forall r, permitted tools side_effects policy identity false r -> good r) ->
  invariant (all_good good) (turn req f l).
Proof.
  intros Hg. unfold turn, call_model, pause, tool_turn, delete_checkpoint, save_checkpoint. inv_auto.
  - intros w Hw. by destruct (model _ _).
  - apply run_wave_good. auto.
Qed.

Lemma loop_good good fuel req f l :
  (forall r, permitted tools side_effects policy identity false r -> good r) ->
  invariant (all_good good) (loop fuel req f l).
Proof.
  intros Hg. revert l. induction fuel as [|fuel IH]; intros l; cbn [loop]; [apply invariant_ret|].
  apply invariant_bind; [by apply turn_good|]. intros [[r m|] l']; [apply invariant_ret|apply IH].
Qed.

Lemma finish_invariant I req f r m l :
  (forall w p, I w -> I (set_provider w p)) -> (forall w c, I w -> I (add_memory w c)) ->
  (forall w, I w -> I (tick w)) -> invariant I (delete_checkpoint f) -> invariant I (finish req f r m l).
Proof.
  intros Hp Hm Ht Hd. unfold finish, persist_session, store_memory.
  apply invariant_bind; [|intros _; apply invariant_bind; [|intros _; apply invariant_bind; [done|]]].
  - destruct (frame_session f); [|apply invariant_ret]. intros w Hw. unfold on_deadline. cbn zeta.
    destruct (expired _); [by apply Ht, Hp|]. destruct (update _ _ _ _ _); [by apply Hp, Ht, Hp|].
    by apply Ht, Hp.
  - destruct has_memory; [|apply invariant_ret]. apply invariant_deadline; [done|].
    intros w Hw. by apply Hm.
  - intros _. apply invariant_ret.
Qed.

(** C3: An invocation ends, and within its iteration budget.  Whatever the
    model answers, the loop stops: the number of model calls is at most
    [max_iterations] less the turns already counted by the checkpoint or
    paused approval it resumes (at least one call is always allowed), also
    when the invocation pauses, times out or raises. *)
Theorem turns_bounded req w out w' :
  invoke_inner req w = (out, w') ->
  out <> Ok None /\ model_calls w' <= model_calls w + turn_bound (start_count req w).
Proof.
  intros Hi. set (n := model_calls w). set (b := n + turn_bound (start_count req w)).
  assert (Ht : triple (fun v => v = w) (invoke_inner req)
    (fun a v => is_Some a /\ model_calls v <= b) (fun _ v => model_calls v <= b)).
  { unfold invoke_inner, setup. eapply triple_bind; [eapply triple_bind|].
    - eapply triple_weaken; [| | |apply (load_spec req w)]; [done|intros ld v HQ; exact HQ|].
      intros e v (-> & _). lia.
    - intros ld v ((Hn & _) & Hc & Hr & _). revert v Hn.
      eapply triple_weaken; [| | |apply (prepare_count n req ld)]; [done| |intros e v ->; lia].
      intros fl v HQ. rewrite Hc, Hr in HQ. exact HQ.
    - intros [f l] v [Hn Hl]. revert v Hn.
      assert (Hb : iterations l = start_count req w) by exact Hl. clear Hl. cbn. unfold run_loop.
      apply triple_keep; [unfold save_checkpoint; inv_auto|cbn; lia|intros _].
      eapply triple_bind.
      + eapply triple_weaken; [| | |apply (loop_bounded (enough_fuel l) n req f l)]; [done| | |unfold enough_fuel; lia];
          [intros d v HQ; exact HQ|]. unfold b. rewrite Hb. lia.
      + intros [[[r m] l']|]; [|intros v [[] _]; done].
        eapply (triple_bind _ _ _ (fun _ v => model_calls v <= b)); [|intros a; by apply triple_ret; eauto].
        eapply triple_weaken; [| | |apply (finish_invariant (fun v => model_calls v <= b))]; try done.
        * unfold b. rewrite Hb. tauto.
        * unfold delete_checkpoint. inv_auto. }
  specialize (Ht w eq_refl). rewrite Hi in Ht. split.
  - intros ->. by destruct Ht as [[] _].
  - destruct out; [by destruct Ht | done].
Qed.

(** The call was approved: it is one of the requests of the paused
    invocation of this agent that the request approves. *)
Definition approved_call (req : AgentRequest) (w : world) (r : tool_request) : Prop :=
  req_decision req = Some "approve" /\
  exists p, found_continuation req w = Some p /\ Approvals.agent_id p = agent_id /\
    r ∈ request_of_json <$> Approvals.tool_requests p /\
    permitted tools side_effects policy identity true r.

(** C1: No side effect without permission.  Every call that an invocation
    hands to a tool is permitted by the policy as it stands (known tool,
    valid arguments, tool allowed, side effect allowed), or the request
    resumes a paused invocation of this same agent with the decision
    "approve", the call is one of the requests that were shown for that
    approval, and the tool policy still allows it.  With any other decision,
    and for every wave the model asks for afterwards, nothing that needs an
    approval runs. *)
Theorem side_effects_need_permission req w out w' n r :
  executed_calls w = [] -> invoke_inner req w = (out, w') -> (n, r) ∈ executed_calls w' ->
  permitted tools side_effects policy identity false r \/ approved_call req w r.
Proof.
  intros He Hi. revert n r. set (good := fun r => permitted tools side_effects policy identity false r \/ approved_call req w r).
  assert (Ht : triple (fun v => v = w) (invoke_inner req) (fun _ => all_good good) (fun _ => all_good good)).
  { unfold invoke_inner, setup. eapply (triple_bind _ _ _ (fun _ => all_good good)); [eapply triple_bind|].
    - eapply triple_weaken; [| | |apply (load_spec req w)]; [done|intros ld v HQ; exact HQ|].
      intros e v (_ & _ & Hex) n r. rewrite Hex, He. by inversion 1.
    - intros ld v ((_ & _ & Hex) & _ & Hr & Hid).
      assert (Hg : all_good good v) by (intros n r; rewrite Hex, He; by inversion 1).
      unfold prepare. destruct (initial_state _ _ _ _ v) as [l tail].
      assert (Hres : invariant (all_good good) (match ld_resume ld with Some p => resume_wave req p l | None => ret l end)).
      { destruct (ld_resume ld) as [p|]; [|apply invariant_ret]. unfold resume_wave.
        apply invariant_bind; [|intros ?; apply invariant_ret].
        destruct (approved req (Some p)) eqn:Ha; [|apply invariant_ret].
        apply invariant_bind; [|intros ?; apply invariant_ret]. apply run_wave_good.
        intros r Hin Hperm. right. apply bool_decide_eq_true in Ha. split; [done|].
        exists p. by split_and!. }
      revert Hres. generalize (match ld_resume ld with Some p => resume_wave req p l | None => ret l end).
      intros load Hres. specialize (Hres v Hg). unfold bind. destruct (load v) as [[l'|e] v']; exact Hres.
    - intros [f l]. cbn. unfold run_loop.
      eapply invariant_bind; [unfold save_checkpoint; inv_auto|intros _].
      apply invariant_bind; [apply loop_good; intros r Hp; by left|].
      intros [[[r m] l']|]; [|apply invariant_ret].
      apply invariant_bind; [|intros a; apply invariant_ret].
      apply finish_invariant; [done..|]. unfold delete_checkpoint. inv_auto. }
  specialize (Ht w eq_refl). rewrite Hi in Ht. by destruct out.
Qed.

(** *** What the session remembers *)

Lemma run_wave_provider p0 skip rs : invariant (fun w => provider w = p0) (run_wave skip rs).
Proof. intros w Hw. unfold run_wave. by destruct (execute_tools _ _ _ _ _ _ _ _ _ _ _ _) as [[e|] v]. Qed.

(** What a wave of the loop answers: the results that a run of the wave gives,
    one for each request and in their order. *)
Definition wave_of (rs : list tool_request) (res : list tool_result) : Prop :=
  Forall2 answers rs res /\ exists v v', run_wave false rs v = (Ok res, v').

Lemma run_wave_spec p0 n rs :
  triple (fun w => provider w = p0 /\ model_calls w = n) (run_wave false rs)
    (fun res w => (provider w = p0 /\ model_calls w = n) /\ wave_of rs res) (fun _ _ => True).
Proof.
  intros v [Hp Hn]. destruct (run_wave false rs v) as [[res|e] w] eqn:Hrun; [|done].
  pose proof (run_wave_provider p0 false rs v Hp) as Hp'. rewrite Hrun in Hp'.
  pose proof (run_wave_calls n false rs v Hn) as Hn'. rewrite Hrun in Hn'.
  split; [done|]. split; [|by exists v, w].
  unfold run_wave in Hrun. destruct (execute_tools _ _ _ _ _ _ _ _ _ _ _ _) as [[e|] u] eqn:Hw; [done|].
  apply wave_answers in Hw as (res' & Hr & Ha). cbn in Hr. injection Hrun as <- _. by rewrite Hr.
Qed.

(** The turns of a loop from its [n]-th model call on, as they are written
    down: [exchange n tr ext js r m] says that, asked with the transcript [tr],
    the model answers in turns that add the messages [ext] and the tool results
    [js] and end with the response [r].  A turn is the model's answer followed
    by one message for each call of its wave; the last is an answer without a
    wave, and [m] tells whether it still asked for one. *)
Inductive exchange : nat -> list json -> list json -> list json -> ModelResponse -> bool -> Prop :=
  | exchange_last n tr r m :
      model n tr = Ok r -> m = negb (Nat.eqb (length (tool_requests r)) 0) ->
      exchange n tr [assistant_message (content r) (with_ids n (tool_requests r))] [] r m
  | exchange_turn n tr q res ext js r m :
      model n tr = Ok q -> tool_requests q <> [] -> wave_of (with_ids n (tool_requests q)) res ->
      let added := assistant_message (content q) (with_ids n (tool_requests q)) ::
                   (tool_message true <$> (result_json <$> res)) in
      exchange (S n) (tr ++ added)%list ext js r m ->
      exchange n tr (added ++ ext)%list ((result_json <$> res) ++ js)%list r m.

Lemma with_ids_length n rs : length (with_ids n rs) = length rs.
Proof. apply length_imap. Qed.

(** One turn: it leaves the sessions alone, and adds its answer and wave. *)
Definition turn_adds (n : nat) (l : loop_state) (vl : verdict * loop_state) : Prop :=
  match vl.1 with
  | Done r m => model n (transcript l) = Ok r /\ m = negb (Nat.eqb (length (tool_requests r)) 0) /\
                vl.2 = answered l r (with_ids n (tool_requests r))
  | Again => exists q res, model n (transcript l) = Ok q /\ tool_requests q <> [] /\
               wave_of (with_ids n (tool_requests q)) res /\
               vl.2 = waved (answered l q (with_ids n (tool_requests q))) (result_json <$> res)
  end.

Lemma call_model_spec p0 n ms :
  triple (fun w => provider w = p0 /\ model_calls w = n) (call_model ms)
    (fun nr w => (provider w = p0 /\ model_calls w = S n) /\ nr.1 = n /\ model n ms = Ok nr.2)
    (fun _ _ => True).
Proof.
  unfold call_model. apply triple_deadline; [done|done|]. intros w [Hp Hn]. rewrite Hn.
  destruct (model n ms) eqn:E; [|done]. cbn. by rewrite Hp, Hn.
Qed.

Lemma turn_spec p0 n req f l :
  triple (fun w => provider w = p0 /\ model_calls w = n) (turn req f l)
    (fun vl w => (provider w = p0 /\ model_calls w = S n) /\ turn_adds n l vl) (fun _ _ => True).
Proof.
  unfold turn. eapply triple_bind; [apply call_model_spec|]. intros [k q] w (Hw & -> & Hq).
  cbn [fst snd] in Hq. revert w Hw. cbn zeta. cbn [fst snd].
  pose proof (with_ids_length n (tool_requests q)) as Hlen.
  destruct (with_ids n (tool_requests q)) as [|r0 rs0] eqn:Hrs.
  { apply triple_ret. intros w Hw. split; [done|]. unfold turn_adds. cbn -[answered]. by rewrite Hrs, <-Hlen. }
  set (rs := r0 :: rs0) in *. destruct (Z.geb _ _).
  { apply triple_ret. intros w Hw. split; [done|]. unfold turn_adds. cbn -[answered rs]. by rewrite Hrs, <-Hlen. }
  destruct (approval_needed _ _ _ _ _).
  { unfold pause. apply triple_keep; [inv_auto|done|intros a].
    apply triple_keep; [unfold delete_checkpoint; inv_auto|done|intros _]. by intros w _. }
  assert (Hne : tool_requests q <> []) by (intros Hq0; by rewrite Hq0 in Hlen).
  unfold tool_turn. eapply (triple_bind _ _ _ (fun l2 w => (provider w = p0 /\ model_calls w = S n) /\
    turn_adds n l (Again, l2))); [|intros l2; by apply triple_ret].
  apply triple_keep; [unfold delete_checkpoint; inv_auto|done|intros _].
  eapply triple_bind; [apply run_wave_spec|]. intros res w (Hw & Hres). revert w Hw.
  apply triple_keep; [unfold save_checkpoint; inv_auto|done|intros _]. apply triple_ret.
  intros w Hw. split; [done|]. unfold turn_adds. cbn [fst snd]. exists q, res. by rewrite Hrs.
Qed.

(** A finished loop is an exchange, added to the transcript it started from. *)
Lemma loop_exchange p0 fuel n req f l :
  triple (fun w => provider w = p0 /\ model_calls w = n) (loop fuel req f l)
    (fun d w => provider w = p0 /\
       forall r m l', d = Some (r, m, l') -> exists ext js,
         exchange n (transcript l) ext js r m /\ transcript l' = (transcript l ++ ext)%list /\
         tool_results l' = (tool_results l ++ js)%list)
    (fun _ _ => True).
Proof.
  revert n l. induction fuel as [|fuel IH]; intros n l; cbn [loop]; [by apply triple_ret; intros w []|].
  eapply triple_bind; [apply turn_spec|]. intros [[r m|] l'] w (Hw & Hadd).
  - destruct Hadd as (Hr & Hm & Heq). cbn in Heq. subst l'. cbn. split; [apply Hw|]. intros ? ? ? [= <- <- <-].
    eexists _, _. split; [by constructor|]. cbn. by rewrite app_nil_r.
  - specialize (IH (S n) l' w Hw). destruct (loop fuel req f l' w) as [[d|e] w']; [|done].
    destruct IH as [Hp Hd]. split; [done|]. intros r m l2 ->.
    destruct (Hd r m l2 eq_refl) as (ext & js & Hex & Ht & Hj).
    destruct Hadd as (q & res & Hq & Hne & Hres & Heq). cbn in Heq. subst l'. cbn in Hex, Ht, Hj.
    rewrite <-app_assoc in Hex, Ht. eexists _, _. split; [by eapply exchange_turn|].
    rewrite Ht, Hj, <-!app_assoc. done.
Qed.

(** The conversation a request continues: what the first read returns. *)
Definition history (w : world) (sid : string) : list json :=
  from_option messages [] (read (provider w) sid bound_tenant_id (clock (1 + ticks w))).

Lemma load_session_spec w0 sid :
  has_sessions = true -> str_truthy sid = true -> provider_ok (provider w0) ->
  triple (fun w => provider w = provider w0 /\ ticks w = ticks w0) (load_session (Some sid))
    (fun s w => exists r c, s = Some r /\ provider_ok (provider w) /\
       current (provider w) r (scoped_key sid bound_tenant_id) c /\ messages c = history w0 sid)
    (fun _ _ => True).
Proof.
  intros Hs Hsid Hp. unfold load_session. cbn [opt_truthy]. rewrite Hs, Hsid. cbn [andb negb default].
  unfold history. set (past := read _ _ _ _).
  eapply (triple_bind _ _ _ (fun s w => provider_ok (provider w) /\
    match s with
    | Some r => exists c, past = Some c /\ current (provider w) r (scoped_key sid bound_tenant_id) c
    | None => past = None
    end)).
  - intros w [Hw Ht]. unfold on_deadline. destruct (expired _); [done|]. cbn. rewrite Hw, Ht.
    destruct (Session.get (provider w0) sid bound_tenant_id (clock (S (ticks w0)))) as [s p] eqn:Hg. cbn.
    destruct s as [r|]; [by apply get_found in Hg|]. split; [|by eapply get_missing].
    change p with ((@None nat, p).2). rewrite <-Hg. by apply provider_ok_get.
  - intros [r|].
    + apply triple_ret. intros w (Hok & c & -> & Hc). by exists r, c.
    + intros w [Hok ->]. unfold on_deadline. destruct (expired _); [done|]. cbn -[Session.create].
      destruct (Session.create _ _ _ _ _ _ _) as [r p] eqn:Hc.
      apply create_current in Hc as (Hp' & c & Hm & _ & _ & Hcur); [|done..]. cbn. by exists r, c.
Qed.

(** What the caller is told of an exchange, and with it what is stored: a
    finished loop appends to the session the part of the transcript after
    the system prompt and the history tail. *)
Definition replies (a : Invocation.AgentResponse) (r : ModelResponse) (m : bool) (js : list json) : Prop :=
  Invocation.output a = JObj [("content", JStr (content r)); ("tool_results", JList js)] /\
  dget "max_iterations_reached" (Invocation.metadata a) = Some (JBool m).

Lemma run_loop_persists req f l r c k n :
  frame_session f = Some r ->
  triple (fun w => provider_ok (provider w) /\ current (provider w) r k c /\ model_calls w = n)
    (run_loop req f l)
    (fun a w => forall b, a = Some b -> exists c' ext js q m,
       Session.content (provider w) k = Some c' /\
       messages c' = (messages c ++ drop (Z.to_nat (1 + tail_length f)) (transcript l ++ ext))%list /\
       exchange n (transcript l) ext js q m /\ replies b q m (tool_results l ++ js)%list)
    (fun _ _ => True).
Proof.
  intros Hf w (Hok & Hcur & Hn). set (p0 := provider w) in *.
  set (post := fun ext w => exists c', Session.content (provider w) k = Some c' /\
    messages c' = (messages c ++ drop (Z.to_nat (1 + tail_length f)) (transcript l ++ ext))%list).
  assert (Ht : triple (fun v => provider v = p0 /\ model_calls v = n) (run_loop req f l)
    (fun a v => forall b, a = Some b -> exists ext js q m, post ext v /\
       exchange n (transcript l) ext js q m /\ replies b q m (tool_results l ++ js)%list)
    (fun _ _ => True)).
  2: { specialize (Ht w (conj eq_refl Hn)). destruct (run_loop req f l w) as [[a|e] w']; [|done].
       intros b Hb. destruct (Ht b Hb) as (ext & js & q & m & (c' & ? & ?) & ? & ?). by exists c', ext, js, q, m. }
  unfold run_loop. apply triple_keep; [unfold save_checkpoint; inv_auto|done|intros _].
  eapply triple_bind; [apply loop_exchange|].
  intros [[[q m] l']|]; [|apply triple_ret; by intros v _ b].
  intros v [Hp Hd]. destruct (Hd q m l' eq_refl) as (ext & js & Hex & Htr & Hres). revert v Hp.
  apply (triple_bind _ _ _ (fun b v => post ext v /\ replies b q m (tool_results l ++ js)%list));
    [|intros b; apply triple_ret; intros v [? ?] ? [= <-]; by exists ext, js, q, m].
  unfold finish. apply (triple_bind _ _ _ (fun _ => post ext)).
  2: { intros _. apply triple_keep; [unfold store_memory; inv_auto|done|intros _].
       apply triple_keep; [unfold delete_checkpoint; inv_auto|done|intros _]. apply triple_ret.
       intros v Hv. split; [done|]. unfold replies. cbn. by rewrite Hres. }
  intros v Hp. unfold persist_session. rewrite Hf. unfold on_deadline. cbn zeta.
  destruct (expired _); [done|]. cbn [provider tick set_provider]. rewrite Hp.
  set (g := fun c0 => write_fields _ _ _ c0).
  assert (Hmut : mutate p0 r g = mutate p0 r (write_fields (messages (g c)) (metadata c) (caller_context c))).
  { unfold mutate. f_equal. apply list_alter_ext; [|done]. intros x Hx. destruct Hcur as [Hr _]. simplify_eq. done. }
  assert (Hok' : provider_ok (mutate p0 r g)) by (rewrite Hmut; by apply provider_ok_mutate).
  assert (Hcur' : current (mutate p0 r g) r k (g c)).
  { destruct Hcur as (Hr & Hk & Hm). unfold current. cbn. rewrite list_lookup_alter_eq, Hr. by split_and!. }
  destruct (update_stores _ _ _ _ session_ttl (clock (S (ticks v))) Hok' Hcur') as (p' & Hu & _ & Hc).
  cbn. rewrite Hu. cbn. exists (set_version (g c) (version (g c) + 1)). split; [done|].
  cbn. by rewrite Htr.
Qed.

(** Loading on a session: the context found, for a new or a resumed turn. *)
Lemma load_current req w0 p sid :
  has_sessions = true -> str_truthy sid = true -> provider_ok (provider w0) ->
  req_checkpoint req = None -> req_session req = Some sid ->
  found_continuation req w0 = p -> (p = None -> opt_truthy (req_continuation req) = false) ->
  triple (fun w => w = w0) (load req)
    (fun ld w => ld_checkpoint ld = None /\ ld_resume ld = p /\
       (p = None -> ld_input ld = req_input req) /\
       exists r c, ld_session ld = Some r /\ provider_ok (provider w) /\
         current (provider w) r (scoped_key sid bound_tenant_id) c /\ messages c = history w0 sid)
    (fun _ _ => True).
Proof.
  intros Hs Hsid Hok Hck Hreq Hp Hnone. unfold load, load_checkpoint. rewrite Hck, Hreq.
  eapply (triple_bind _ _ _ (fun c w => w = w0 /\ c = None));
    [by apply triple_ret; intros w ->|].
  intros ? w [-> ->]. unfold bind.
  destruct (load_continuation req w0) as [[q|e] w1] eqn:Hl; [|done].
  assert (Hq : q = p /\ provider w1 = provider w0 /\ ticks w1 = ticks w0).
  { pose proof (load_continuation_spec req w0 w0) as Hspec. rewrite Hl in Hspec.
    destruct Hspec as (_ & -> & _); [done|]. split; [done|]. unfold load_continuation in Hl.
    destruct (negb _); [by inversion Hl|]. destruct (Approvals.get _ _ _) as [[pa|] st]; [|done].
    destruct (String.eqb _ _); [|done]. by simplify_eq. }
  destruct Hq as (-> & Hp1 & Ht1). cbn [opt_truthy]. rewrite Hsid.
  pose proof (load_session_spec w0 sid Hs Hsid Hok w1 (conj Hp1 Ht1)) as Hls.
  destruct (load_session (Some sid) w1) as [[s|e] w2]; [|done].
  destruct Hls as (r & c & -> & Hok2 & Hcur & Hm).
  assert (Hkn : invariant (fun v => provider v = provider w2) (retrieve_knowledge None p))
    by (unfold retrieve_knowledge; inv_auto).
  specialize (Hkn w2 eq_refl).
  destruct (retrieve_knowledge None p w2) as [[u|e] w3]; [|done]. cbn. rewrite Hkn.
  split_and!; [done|done|by intros ->|]. by exists r, c.
Qed.

(** What a new turn shows to the model first. *)
Definition first_prompt : string :=
  let text := if has_knowledge then knowledge_context knowledge else "" in
  if str_truthy text
  then system_prompt info ++ String (Ascii.ascii_of_nat 10) (String (Ascii.ascii_of_nat 10) text)
  else system_prompt info.

(** C6: A finished new turn is remembered exactly once.  When an invocation
    on a session, neither resumed from a checkpoint nor continuing an
    approval, returns a response, the stored session is the earlier
    conversation followed by the user's message of this turn and the messages
    of the exchange with the model that it led to, each once: every answer of
    the model, each answer's calls followed by one message for each of them in
    their order, and last the answer that the response returns.  The exchange
    starts from the system prompt, the replayed tail of the conversation and
    the user's message; of these only the last is stored.  The response
    reports the content of the last answer and the tool results of the
    exchange.  What a resumed turn stores is [resumed_turn_is_cut]. *)
Theorem turn_is_persisted req w a w' sid :
  has_sessions = true -> provider_ok (provider w) ->
  req_checkpoint req = None -> req_continuation req = None ->
  req_session req = Some sid -> str_truthy sid = true ->
  invoke_inner req w = (Ok (Some a), w') ->
  exists c ext js r m, let user := plain_message "user" (dumps (JObj (req_input req))) in
    Session.content (provider w') (scoped_key sid bound_tenant_id) = Some c /\
    messages c = (history w sid ++ user :: ext)%list /\
    exchange (model_calls w)
      (plain_message "system" first_prompt ::
       last_n MAX_SESSION_HISTORY_MESSAGES (history w sid) ++ [user])%list ext js r m /\
    replies a r m js.
Proof.
  intros Hs Hok Hck Hcont Hreq Hsid Hi. unfold invoke_inner, setup, bind in Hi.
  assert (Hfc : found_continuation req w = None) by (unfold found_continuation; by rewrite Hcont).
  pose proof (load_current req w None sid Hs Hsid Hok Hck Hreq Hfc) as Hld.
  specialize (Hld ltac:(by rewrite Hcont) w eq_refl). pose proof (load_spec req w w eq_refl) as Hun.
  destruct (load req w) as [[ld|e] w1]; [|done]. destruct Hun as [(Hn & _) _].
  destruct Hld as (Hc0 & Hr0 & Hin & r & c & Hses & Hok1 & (Hr & Hcur) & Hmsg). specialize (Hin eq_refl).
  unfold prepare, initial_state in Hi. rewrite Hc0, Hr0, Hin, Hses in Hi.
  cbn [bind ret from_option fst snd] in Hi. unfold bind, ret in Hi.
  unfold session_messages in Hi. rewrite Hr in Hi. cbn in Hi. rewrite Hmsg in Hi.
  match type of Hi with run_loop _ ?f ?l _ = _ =>
    pose proof (run_loop_persists req f l r c _ (model_calls w) Hses w1 (conj Hok1 (conj (conj Hr Hcur) Hn))) as Hrun end.
  rewrite Hi in Hrun. destruct (Hrun a eq_refl) as (c' & ext & js & q & m & Hstored & Hmsgs & Hex & Hrep).
  exists c', ext, js, q, m. split; [done|]. split; [|by split].
  rewrite Hmsgs, Hmsg. f_equal. cbn [tail_length frame_of transcript].
  rewrite Z2Nat.inj_add, Nat2Z.id by lia. change (Z.to_nat 1) with 1.
  cbn. by rewrite <-app_assoc, drop_app_length.
Qed.

(** What a resumed turn stores is cut by the session as it is now.  When
    a paused invocation is resumed on its session and returns, the stored
    session is the conversation as it is at the resume, followed by the
    paused transcript from position one plus the length of the current
    history tail on.  If the session grew while the invocation was paused,
    the first messages of the paused turn, its user message first, are not
    stored. *)
Theorem resumed_turn_is_cut req w p a w' sid :
  has_sessions = true -> provider_ok (provider w) ->
  req_checkpoint req = None -> found_continuation req w = Some p ->
  req_session req = Some sid -> str_truthy sid = true ->
  invoke_inner req w = (Ok (Some a), w') ->
  exists c ext, Session.content (provider w') (scoped_key sid bound_tenant_id) = Some c /\
    messages c = (history w sid ++
      drop (1 + length (last_n MAX_SESSION_HISTORY_MESSAGES (history w sid))) (Approvals.messages p ++ ext))%list.
Proof.
  intros Hs Hok Hck Hfc Hreq Hsid Hi. unfold invoke_inner, setup, bind in Hi.
  pose proof (load_current req w (Some p) sid Hs Hsid Hok Hck Hreq Hfc) as Hld.
  specialize (Hld ltac:(done) w eq_refl).
  destruct (load req w) as [[ld|e] w1]; [|done].
  destruct Hld as (Hc0 & Hr0 & _ & r & c & Hses & Hok1 & Hcur & Hmsg).
  unfold prepare, initial_state in Hi. rewrite Hc0, Hr0, Hses in Hi. cbn [from_option] in Hi.
  destruct Hcur as (Hr & Hcur). unfold session_messages in Hi. rewrite Hr in Hi. cbn in Hi. rewrite Hmsg in Hi.
  unfold bind in Hi. destruct (resume_wave _ _ _ w1) as [[l1|e] w2] eqn:Hrw; [|done]. cbn in Hi.
  assert (Hl1 : provider w2 = provider w1 /\ exists x, transcript l1 = (Approvals.messages p ++ x)%list).
  { unfold resume_wave, bind in Hrw. destruct (approved _ _); [|inversion Hrw; subst; split; [done|by eexists]].
    pose proof (run_wave_provider (provider w1) true (request_of_json <$> Approvals.tool_requests p) w1 eq_refl) as Hw.
    destruct (run_wave _ _ w1) as [[res|e] w3]; [|done].
    inversion Hrw; subst. split; [done|by eexists]. }
  destruct Hl1 as (Hp2 & x & Hx).
  match type of Hi with run_loop _ ?f ?l _ = _ =>
    pose proof (run_loop_persists req f l r c (scoped_key sid bound_tenant_id) (model_calls w2) Hses w2) as Hrun end.
  cbv beta in Hrun. rewrite Hp2, Hi in Hrun.
  destruct (Hrun (conj Hok1 (conj (conj Hr Hcur) eq_refl)) a eq_refl) as (c' & ext & _ & _ & _ & Hcont' & Hmsgs & _).
  exists c', (x ++ ext)%list. split; [done|]. rewrite Hmsgs, Hmsg, Hx, <-app_assoc. do 2 f_equal.
  unfold last_n. cbn [tail_length frame_of]. lia.
Qed.

Context (Hcp : has_checkpoints = true).

Lemma delete_checkpoint_spec f js :
  triple (fun w => accounted js w /\ cp_safe (cp_id f) w) (delete_checkpoint f)
    (fun _ w => accounted js w /\ stored (cp_id f) w = None) (fun _ => cp_safe (cp_id f)).
Proof.
  unfold delete_checkpoint. rewrite Hcp. apply triple_deadline; [done|tauto|].
  intros w [Ha Hc]. split; [done|]. unfold stored. cbn. rewrite cp_get_delete. by rewrite decide_True.
Qed.

Lemma save_checkpoint_spec req f l :
  triple (fun w => accounted (tool_results l) w /\ cp_safe (cp_id f) w) (save_checkpoint req f l)
    (fun _ w => accounted (tool_results l) w /\ cp_safe (cp_id f) w) (fun _ => cp_safe (cp_id f)).
Proof.
  unfold save_checkpoint. rewrite Hcp. apply triple_deadline; [done|tauto|].
  intros w [Ha Hc]. split; [done|]. intros c. unfold stored. cbn. rewrite cp_get_save.
  case_decide as E; [by intros [= <-] | intros Hst; by apply Hc].
Qed.

Lemma none_safe cid w : stored cid w = None -> cp_safe cid w.
Proof. intros Hn c. by rewrite Hn. Qed.

Lemma tool_turn_safe req f l rs :
  triple (fun w => accounted (tool_results l) w /\ cp_safe (cp_id f) w) (tool_turn req f l rs)
    (fun l' w => accounted (tool_results l') w /\ cp_safe (cp_id f) w) (fun _ => cp_safe (cp_id f)).
Proof.
  unfold tool_turn.
  eapply (triple_bind _ _ _ (fun _ w => accounted (tool_results l) w /\
    (if wave_is_replay_safe tools side_effects rs then cp_safe (cp_id f) w
     else stored (cp_id f) w = None))).
  { destruct (wave_is_replay_safe _ _ _); [by apply triple_ret|]. apply delete_checkpoint_spec. }
  intros _. eapply (triple_bind _ _ _ (fun res w =>
    accounted (tool_results l ++ (result_json <$> res))%list w /\ cp_safe (cp_id f) w)).
  - destruct (wave_is_replay_safe _ _ _) eqn:Hsafe.
    + eapply triple_weaken; [| | |apply (run_wave_safe (cp_id f) (tool_results l) _ _ Hsafe)]; [done| |by intros _ w [_ Hc]].
      intros res w [Ha Hc]. split; [by apply accounted_app|done].
    + eapply triple_weaken; [| | |apply (run_wave_accounted (cp_id f) (tool_results l))]; [done| |].
      * intros res w [Ha Hn]. split; [done|by apply none_safe].
      * intros e w. apply none_safe.
  - intros res. eapply triple_bind; [exact (save_checkpoint_spec req f (waved l (result_json <$> res)))|].
    intros []. by apply triple_ret.
Qed.

Lemma turn_safe req f l :
  triple (fun w => accounted (tool_results l) w /\ cp_safe (cp_id f) w) (turn req f l)
    (fun vl w => accounted (tool_results vl.2) w /\ cp_safe (cp_id f) w) (fun _ => cp_safe (cp_id f)).
Proof.
  unfold turn. apply triple_keep.
  - unfold call_model. apply invariant_deadline; [done|]. intros w Hw. by destruct (model _ _).
  - tauto.
  - intros [k r]. cbn zeta. set (rs := with_ids _ _). clearbody rs. set (l1 := answered l _ rs).
    change (tool_results l) with (tool_results l1). clearbody l1.
    destruct rs as [|r0 rs0]; [by apply triple_ret|].
    destruct (Z.geb _ _); [by apply triple_ret|]. destruct (approval_needed _ _ _ _ _).
    + unfold pause. apply triple_keep; [inv_auto|tauto|intros a].
      eapply triple_bind; [apply delete_checkpoint_spec|]. intros _ w [_ Hn]. by apply none_safe.
    + eapply triple_bind; [apply tool_turn_safe|]. intros l'. by apply triple_ret.
Qed.

Lemma loop_safe fuel req f l :
  triple (fun w => accounted (tool_results l) w /\ cp_safe (cp_id f) w) (loop fuel req f l)
    (fun _ => cp_safe (cp_id f)) (fun _ => cp_safe (cp_id f)).
Proof.
  revert l. induction fuel as [|fuel IH]; intros l; cbn [loop]; [apply triple_ret; tauto|].
  eapply triple_bind; [apply turn_safe|]. intros [[r m|] l']; [apply triple_ret; tauto|]. apply IH.
Qed.

Lemma prepare_safe cid req ld :
  opt_or (req_checkpoint req) (req_id req) = cid ->
  triple (fun w => executed_calls w = [] /\ (is_Some (ld_resume ld) -> stored cid w = None)) (prepare req ld)
    (fun fl w => cp_id fl.1 = cid /\ accounted (tool_results fl.2) w /\ cp_safe cid w)
    (fun _ => cp_safe cid).
Proof.
  intros Hcid w [He Hs].
  assert (Hnil : forall js, accounted js w) by (intros js n r; rewrite He; by inversion 1).
  unfold prepare. destruct (initial_state _ _ _ _ w) as [l tail].
  destruct (ld_resume ld) as [p|]; [|split_and!; [done|done|by intros ? _]].
  specialize (Hs ltac:(by eexists)). unfold bind, resume_wave.
  destruct (approved req (Some p)); cbn; [|split_and!; [done|done|by apply none_safe]].
  unfold bind. pose proof (run_wave_accounted cid (Approvals.all_tool_results p) true
    (request_of_json <$> Approvals.tool_requests p) w (conj (Hnil _) Hs)) as Hw.
  destruct (run_wave _ _ w) as [[res|e] w']; [|by apply none_safe].
  destruct Hw as [Ha Hn]. split_and!; [done|done|by apply none_safe].
Qed.

Lemma run_loop_safe req f l :
  triple (fun w => accounted (tool_results l) w /\ cp_safe (cp_id f) w) (run_loop req f l)
    (fun _ => cp_safe (cp_id f)) (fun _ => cp_safe (cp_id f)).
Proof.
  unfold run_loop. eapply triple_bind; [apply save_checkpoint_spec|]. intros [].
  eapply triple_bind; [apply loop_safe|]. intros [[[r m] l']|]; [|by apply triple_ret].
  apply (triple_bind _ _ _ (fun _ => cp_safe (cp_id f))); [|intros a; by apply triple_ret].
  apply finish_invariant; [done..|]. unfold delete_checkpoint. rewrite Hcp.
  apply invariant_deadline; [done|]. intros v0 _. apply none_safe. unfold stored. cbn.
  rewrite cp_get_delete. by rewrite decide_True.
Qed.

(** C2: Resuming never forgets a side effect.  Run an invocation on a fresh
    log, with checkpointing on; it may return, pause, time out at any
    deadline or raise anywhere.  If a checkpoint is stored under its id
    afterwards, its tool results contain the result of every executed call
    of a tool with a side effect, under that call's name and id: a later
    resume continues after those calls and does not issue them again.  (For
    a continuation, no checkpoint may be stored under the id beforehand.) *)
Theorem checkpoint_accounts_for_side_effects req w out w' c :
  executed_calls w = [] ->
  (opt_truthy (req_continuation req) = true ->
   stored (opt_or (req_checkpoint req) (req_id req)) w = None) ->
  invoke_inner req w = (out, w') ->
  stored (opt_or (req_checkpoint req) (req_id req)) w' = Some c ->
  accounted (all_tool_results c) w'.
Proof.
  intros He Hc Hi Hst. set (cid := opt_or _ _) in *.
  assert (Ht : triple (fun v => v = w) (invoke_inner req) (fun _ => cp_safe cid) (fun _ => cp_safe cid)).
  { unfold invoke_inner, setup. eapply triple_bind; [eapply triple_bind|].
    - eapply triple_weaken; [| | |apply (load_spec req w)]; [done|intros ld v HQ; exact HQ|].
      intros e v (_ & Hcp' & Hex) c0 Hc0 n r. rewrite Hex, He. by inversion 1.
    - intros ld. eapply triple_weaken; [| | |apply (prepare_safe cid req ld eq_refl)];
        [|intros fl v HQ; exact HQ|done].
      intros v ((_ & Hcp' & Hex) & _ & Hr & _). split; [congruence|]. rewrite Hr. unfold found_continuation.
      destruct (opt_truthy _) eqn:Et; [|by intros []]. intros _. unfold stored. rewrite Hcp'. by apply Hc.
    - intros [f l] v (Hf & Ha & Hs). cbn in *. rewrite <-Hf in *.
      by apply (run_loop_safe req f l v). }
  specialize (Ht w eq_refl). rewrite Hi in Ht. by destruct out; apply Ht.
Qed.
End loop.

(** ** An agent on concrete input *)

Definition demo_policy (needs_approval : bool) : AgentPolicy :=
  {| allowed_skills := []; denied_skills := []; allowed_tools := []; denied_tools := [];
     allowed_mcps := []; denied_mcps := []; model_restrictions := [];
     side_effect_policy := "allow"; approval_required := needs_approval; rules := [] |}.

Definition demo_dumps (j : json) : string := match j with JObj [(_, JStr s)] => s | _ => "{}" end.

(** Asks for a payment when the last message is the user asking to pay, fails
    on its second call if [flaky]. *)
Definition demo_model (flaky : bool) (n : nat) (ms : list json) : result exn ModelResponse :=
  if flaky && Nat.eqb n 1 then Err (raise ConnectionError "reset")
  else
    let pay := match last ms with
               | Some m => py_eq (json_field "content" m) (JStr "pay") | None => false end in
    Ok {| content := "ok"; tool_requests := if pay then [pay_request "p1"] else []; model_usage := [] |}.

Definition demo_request (id text : string) : AgentRequest :=
  {| req_id := id; req_session := Some "s"; req_input := [("text", JStr text)];
     req_continuation := None; req_decision := None; req_checkpoint := None; req_timeout := None |}.
Definition demo_approve : AgentRequest :=
  {| req_id := "r3"; req_session := Some "s"; req_input := []; req_continuation := Some "c1";
     req_decision := Some "approve"; req_checkpoint := None; req_timeout := None |}.

Definition demo_world : world (C := InMemoryCheckpointStore) (Ops := OperationRegistry) :=
  {| provider := new_provider None; checkpoints := []; approvals := Approvals.new_store 900;
     operations := empty_registry; executed_calls := []; attempted := []; tool_calls := 0;
     model_calls := 0; memories := []; ticks := 0 |}.

Definition demo_info : agent_info :=
  {| system_prompt := "system"; model_ref := "default"; unresolved_tools := [] |}.
Definition demo_knowledge : knowledge_result := {| knowledge_context := ""; knowledge_counts := [] |}.

(** A statement about the loop, at the demo agent. *)
Abbreviation in_demo f needs_approval flaky :=
  (f "agent" 3%Z demo_info [("pay", pay_tool)] [] (Some (demo_policy needs_approval)) None
    true true true false false None (fun _ => false) (fun n => inject_Z (Z.of_nat n))
    (demo_model flaky) (fun _ => Produced (JBool true) None false) (fun _ => true)
    (fun _ => "c1") (fun _ _ => "call") (fun _ => "") demo_dumps (fun _ => "now") demo_knowledge) (only parsing).

Abbreviation demo_invoke needs_approval flaky :=
  (in_demo (@invoke_inner InMemoryCheckpointStore _ OperationRegistry _) needs_approval flaky)
  (only parsing).

(** A payment; one whose second model call fails; a payment that waits for
    approval while another turn of the session runs, then is approved. *)
Definition demo_paid := Eval vm_compute in demo_invoke false false (demo_request "r1" "pay") demo_world.
Definition demo_failed := Eval vm_compute in demo_invoke false true (demo_request "r1" "pay") demo_world.
Definition demo_paused := Eval vm_compute in (demo_invoke true false (demo_request "r1" "pay") demo_world).2.
Definition demo_grown := Eval vm_compute in (demo_invoke true false (demo_request "r2" "hello") demo_paused).2.
Definition demo_resumed := Eval vm_compute in demo_invoke true false demo_approve demo_grown.

Lemma demo_paid_eq :
  demo_invoke false false (demo_request "r1" "pay") demo_world = (demo_paid.1, demo_paid.2).
Proof. vm_compute. reflexivity. Qed.
Lemma demo_failed_eq :
  demo_invoke false true (demo_request "r1" "pay") demo_world = (demo_failed.1, demo_failed.2).
Proof. vm_compute. reflexivity. Qed.
Lemma demo_resumed_eq : demo_invoke true false demo_approve demo_grown = (demo_resumed.1, demo_resumed.2).
Proof. vm_compute. reflexivity. Qed.

Lemma turns_bounded_witness : model_calls demo_paid.2 <= 0 + 3.
Proof. exact (proj2 (in_demo turns_bounded false false _ _ _ _ demo_paid_eq)). Defined.

Lemma side_effects_need_permission_witness :
  permitted [("pay", pay_tool)] [] (Some (demo_policy true)) None false (pay_request "p1") \/
  approved_call "agent" [("pay", pay_tool)] [] (Some (demo_policy true)) None demo_approve demo_grown
    (pay_request "p1").
Proof.
  refine (in_demo side_effects_need_permission true false demo_approve demo_grown _ _ 0
    (pay_request "p1") _ demo_resumed_eq _).
  - reflexivity.
  - left.
Defined.

Lemma checkpoint_accounts_for_side_effects_witness :
  exists c, stored None "r1" demo_failed.2 = Some c /\
            accounted [("pay", pay_tool)] [] (all_tool_results c) demo_failed.2.
Proof.
  destruct (stored None "r1" demo_failed.2) as [c|] eqn:Hc; [|discriminate Hc].
  refine (ex_intro _ c (conj eq_refl _)).
  refine (in_demo checkpoint_accounts_for_side_effects false true eq_refl (demo_request "r1" "pay")
    demo_world _ _ c _ _ demo_failed_eq Hc).
  - reflexivity.
  - discriminate.
Defined.

Lemma demo_provider_ok : provider_ok (provider demo_world).
Proof. intros k. exact I. Qed.

Lemma turn_is_persisted_witness :
  exists c ext js r m a, let user := plain_message "user" "pay" in
    demo_paid.1 = Ok (Some a) /\ Session.content (provider demo_paid.2) "s" = Some c /\
    messages c = ([] ++ user :: ext)%list /\ length ext = 3 /\
    exchange (C := InMemoryCheckpointStore) (Ops := OperationRegistry) [("pay", pay_tool)] []
      (Some (demo_policy false)) None true (demo_model false) (fun _ => Produced (JBool true) None false)
      (fun _ => true) (fun _ => "c1") (fun _ _ => "call") (fun _ => "") demo_dumps
      0 [plain_message "system" "system"; user] ext js r m /\
    Invocation.output a = JObj [("content", JStr (content r)); ("tool_results", JList js)].
Proof.
  destruct demo_paid.1 as [[a|]|] eqn:Ha; try discriminate Ha.
  pose proof demo_paid_eq as Heq. rewrite Ha in Heq.
  destruct (in_demo turn_is_persisted false false (demo_request "r1" "pay") demo_world a demo_paid.2 "s"
    eq_refl demo_provider_ok eq_refl eq_refl eq_refl eq_refl Heq) as (c & ext & js & r & m & Hc & Hm & Hx & Hrep).
  exists c, ext, js, r, m, a. split; [reflexivity|]. split; [exact Hc|]. split; [exact Hm|].
  split; [|split; [exact Hx|exact (proj1 Hrep)]].
  vm_compute in Hc. injection Hc as <-. injection Hm as <-. reflexivity.
Defined.

Lemma demo_grown_ok : provider_ok (provider demo_grown).
Proof.
  intros k. unfold entry_ok. cbn. case_decide; [|done]. subst. eexists.
  split; [reflexivity|]. split_and!; first [reflexivity | cbn; lia].
Qed.

Lemma resumed_turn_is_cut_witness :
  exists c ext, Session.content (provider demo_resumed.2) "s" = Some c /\
    messages c = ([plain_message "user" "hello"; plain_message "assistant" "ok"] ++ ext)%list /\
    ~ (plain_message "user" "pay" ∈ messages c).
Proof.
  destruct demo_resumed.1 as [[a|]|] eqn:Ha; try discriminate Ha.
  pose proof demo_resumed_eq as Heq. rewrite Ha in Heq.
  destruct (found_continuation demo_approve demo_grown) as [p|] eqn:Hp; [|discriminate Hp].
  destruct (in_demo resumed_turn_is_cut true false demo_approve demo_grown p a demo_resumed.2 "s"
    eq_refl demo_grown_ok eq_refl Hp eq_refl eq_refl Heq) as (c & ext & Hc & Hm).
  exists c, (drop 3 (Approvals.messages p ++ ext))%list. split; [exact Hc|]. split; [exact Hm|].
  vm_compute in Hc. injection Hc as <-. intros Hin.
  repeat (apply elem_of_cons in Hin as [Hin|Hin]; [discriminate Hin|]). inversion Hin.
Defined.

End AgentLoop.
