(* ===== verification/Registry.v ===== *)
(** * The agent registry of the control plane

    [cloud/descriptors.py] and [cloud/registry.py]: descriptors with their wire
    contract, the lease-based registry in memory and in SQLite, and the HTTP
    handlers on top.  A SQLite table is an association list keyed by its
    primary key; the JSON text of a column is the value it denotes, with the
    keys in the order [sort_keys] gives. *)

From S2P Require Import Prelude Json.

Module Registry.
Local Open Scope string_scope.

(** ** Descriptors *)

Record SkillDescriptor : Type := {
  skill_id : string; skill_name : string; skill_description : string; tags : list string
}.

Record AgentDescriptor : Type := {
  schema_version : string;
  name : string;
  version : string;
  description : string;
  a2a_protocol_version : string;
  card_url : string;
  card_fingerprint : string;
  skills : list SkillDescriptor;
  capabilities : list (string * bool);
  labels : list (string * string);
  visibility : list string
}.

Definition CLOUD_SCHEMA_VERSION : string := "v1alpha1".

Inductive error : Type :=
  | DescriptorError (what : string)
  | DescriptorCardMismatchError (mismatches : list string)
  | UnknownAgentError (what : string).

(** [asdict(self)] *)
Definition strings (l : list string) : json := JList (JStr <$> l).

Definition skill_dict (s : SkillDescriptor) : json :=
  JObj [("id", JStr (skill_id s)); ("name", JStr (skill_name s));
        ("description", JStr (skill_description s)); ("tags", strings (tags s))].

Definition to_dict (d : AgentDescriptor) : list (string * json) :=
  [("schema_version", JStr (schema_version d)); ("name", JStr (name d));
   ("version", JStr (version d)); ("description", JStr (description d));
   ("a2a_protocol_version", JStr (a2a_protocol_version d)); ("card_url", JStr (card_url d));
   ("card_fingerprint", JStr (card_fingerprint d)); ("skills", JList (skill_dict <$> skills d));
   ("capabilities", JObj (prod_map id JBool <$> capabilities d));
   ("labels", JObj (prod_map id JStr <$> labels d)); ("visibility", strings (visibility d))].

(** *** The wire contract [AgentDescriptorContract] *)

Definition opt_field {A} (d : list (string * json)) (k : string) (dflt : A) (f : json -> option A)
  : option A := match dget k d with Some j => f j | None => Some dflt end.
Definition req_field {A} (d : list (string * json)) (k : string) (f : json -> option A) : option A :=
  dget k d ≫= f.

Definition as_str (j : json) : option string := match j with JStr s => Some s | _ => None end.
Definition as_nonempty (j : json) : option string :=
  match j with JStr s => if str_truthy s then Some s else None | _ => None end.
Definition as_strings (j : json) : option (list string) :=
  match j with JList l => mapM as_str l | _ => None end.
Definition as_labels (j : json) : option (list (string * string)) :=
  match j with JObj d => mapM (fun kv => pair kv.1 <$> as_str kv.2) d | _ => None end.

(** [^(?:[0-9a-f]{64})?$] *)
Definition fingerprint_ok (s : string) : bool :=
  negb (str_truthy s) ||
  is_hex64 s.
Definition as_fingerprint (j : json) : option string :=
  match j with JStr s => if fingerprint_ok s then Some s else None | _ => None end.

Definition only_keys (allowed : list string) (d : list (string * json)) : bool :=
  forallb (fun kv => memb kv.1 allowed) d.

Definition skill_keys : list string := ["id"; "name"; "description"; "tags"].
Definition descriptor_keys : list string :=
  ["schema_version"; "name"; "version"; "description"; "a2a_protocol_version"; "card_url";
   "card_fingerprint"; "skills"; "capabilities"; "labels"; "visibility"].

Definition as_skill (j : json) : option SkillDescriptor :=
  match j with
  | JObj d =>
      if negb (only_keys skill_keys d) then None else
      i ← req_field d "id" as_nonempty;
      n ← req_field d "name" as_nonempty;
      de ← opt_field d "description" "" as_str;
      ts ← opt_field d "tags" [] as_strings;
      Some {| skill_id := i; skill_name := n; skill_description := de; tags := ts |}
  | _ => None
  end.

Section contract.
(** How the validator reads a capability that is not a JSON boolean. *)
Context (lax_bool : json -> option bool).

Definition as_bool (j : json) : option bool := match j with JBool b => Some b | _ => lax_bool j end.

Definition as_capabilities (j : json) : option (list (string * bool)) :=
  match j with JObj d => mapM (fun kv => pair kv.1 <$> as_bool kv.2) d | _ => None end.

Definition from_dict (d : list (string * json)) : result error AgentDescriptor :=
  if negb (match dget "schema_version" d with
           | Some (JStr v) => String.eqb v CLOUD_SCHEMA_VERSION | _ => false end)
  then Err (DescriptorError "unsupported descriptor schema version")
  else
    match (if negb (only_keys descriptor_keys d) then None else
           n ← req_field d "name" as_nonempty;
           v ← req_field d "version" as_nonempty;
           de ← opt_field d "description" "" as_str;
           a ← req_field d "a2a_protocol_version" as_nonempty;
           u ← opt_field d "card_url" "" as_str;
           f ← opt_field d "card_fingerprint" "" as_fingerprint;
           s ← opt_field d "skills" [] (fun j => match j with JList l => mapM as_skill l | _ => None end);
           c ← opt_field d "capabilities" [] as_capabilities;
           l ← opt_field d "labels" [] as_labels;
           vi ← opt_field d "visibility" [] as_strings;
           Some {| schema_version := CLOUD_SCHEMA_VERSION; name := n; version := v;
                   description := de; a2a_protocol_version := a; card_url := u;
                   card_fingerprint := f; skills := s; capabilities := c; labels := l;
                   visibility := vi |}) with
    | Some desc => Ok desc
    | None => Err (DescriptorError "invalid descriptor")
    end.
End contract.

(** What the contract asks of a descriptor. *)
Definition skill_ok (s : SkillDescriptor) : bool := str_truthy (skill_id s) && str_truthy (skill_name s).
Definition contract_ok (d : AgentDescriptor) : bool :=
  String.eqb (schema_version d) CLOUD_SCHEMA_VERSION && str_truthy (name d) &&
  str_truthy (version d) && str_truthy (a2a_protocol_version d) &&
  fingerprint_ok (card_fingerprint d) && forallb skill_ok (skills d).

(** *** Agreement with the served card *)

Definition disagreement (label card_value own : string) : list string :=
  if str_truthy card_value && negb (String.eqb card_value own)
  then [label ++ ": card says " ++ quoted card_value ++ ", definition says " ++ quoted own] else [].

Definition unknown_skill (d : AgentDescriptor) (i : string) : bool :=
  str_truthy i && negb (memb i (skill_id <$> skills d)).

Section card.
(** [str] of a card value that is not a string. *)
Context (py_str : json -> string).

(** [str(card.get(k, ""))] *)
Definition card_text (k : string) (card : list (string * json)) : string :=
  match dget k card with Some (JStr s) => s | Some j => py_str j | None => "" end.

(** The ids of the card's skills; its entries are objects. *)
Definition card_skill_ids (card : list (string * json)) : list string :=
  match dget "skills" card with
  | Some (JList l) => (fun j => match j with JObj d => card_text "id" d | _ => "" end) <$> l
  | _ => []
  end.

Definition card_mismatches (d : AgentDescriptor) (card : list (string * json)) : list string :=
  (disagreement "name" (card_text "name" card) (name d) ++
   disagreement "version" (card_text "version" card) (version d) ++
   disagreement "a2a protocol version" (card_text "protocol_version" card) (a2a_protocol_version d) ++
   ((fun i => "card advertises unknown skill " ++ quoted i)%string <$>
      filterb (unknown_skill d) (card_skill_ids card)))%list.

Definition check_card_agreement (d : AgentDescriptor) (card : list (string * json))
  : result error unit :=
  match card_mismatches d card with
  | [] => Ok tt
  | mismatches => Err (DescriptorCardMismatchError mismatches)
  end.
End card.

(** The parts of a definition that a descriptor is built from. *)
Record definition : Type := {
  def_name : string; def_version : string; def_description : option string;
  def_labels : list (string * string); def_skills : list SkillDescriptor;
  has_memory : bool; has_tools : bool; has_mcp : bool; has_knowledge : bool;
  session_persistence : string; protocol_version : option string
}.

Section builder.
(** [hashlib.sha256] of the canonical JSON text of a card. *)
Context (fingerprint : list (string * json) -> string) (py_str : json -> string).

Definition descriptor_from_definition (def : definition) (url : string)
    (card : option (list (string * json))) : result error AgentDescriptor :=
  let d := {| schema_version := CLOUD_SCHEMA_VERSION; name := def_name def;
              version := def_version def; description := opt_or (def_description def) "";
              a2a_protocol_version := opt_or (protocol_version def) "0.3.0"; card_url := url;
              card_fingerprint := from_option fingerprint "" card; skills := def_skills def;
              capabilities := [("memory", has_memory def); ("tools", has_tools def);
                               ("mcp", has_mcp def); ("knowledge", has_knowledge def);
                               ("session", negb (String.eqb (session_persistence def) "none"))];
              labels := def_labels def; visibility := [] |} in
  match card with
  | None => Ok d
  | Some c => check_card_agreement py_str d c ≫= fun _ => Ok d
  end.
End builder.

(** ** The registry: entries and their leases *)

Record RegistryEntry : Type := {
  descriptor : AgentDescriptor;
  registered_at : Q;
  lease_expires_at : Q
}.

Definition healthy (e : RegistryEntry) (now : Q) : bool := (now <? lease_expires_at e)%clock.
Definition age_seconds (e : RegistryEntry) (now : Q) : Q := Qmax 0 (now - registered_at e).
Definition expires_in_seconds (e : RegistryEntry) (now : Q) : Q := Qmax 0 (lease_expires_at e - now).

Definition STALE_RETENTION_SECONDS : Q := 86400.

Definition key : Type := string * string.
Definition entry_key (e : RegistryEntry) : key := (name (descriptor e), version (descriptor e)).

Definition with_lease (e : RegistryEntry) (t : Q) : RegistryEntry :=
  {| descriptor := descriptor e; registered_at := registered_at e; lease_expires_at := t |}.

Definition not_registered (k : key) : error := UnknownAgentError (k.1 ++ "@" ++ k.2 ++ " is not registered").

(** The checks that both stores make before writing. *)
Definition validate_descriptor (d : AgentDescriptor) : result error unit :=
  if negb (str_truthy (name d)) || negb (str_truthy (version d))
  then Err (DescriptorError "descriptor must carry a name and version")
  else if negb (String.eqb (schema_version d) CLOUD_SCHEMA_VERSION)
  then Err (DescriptorError ("unsupported descriptor schema version " ++ quoted (schema_version d)))
  else Ok tt.

Definition checked_ttl (what : string) (ttl : option Q) (default_lease : Q) : result error Q :=
  let t := default default_lease ttl in
  if (t <=? 0)%clock then Err (DescriptorError (what ++ " ttl must be positive")) else Ok t.

(** *** What a query asks for *)

Record query_filter : Type := {
  by_name : option string; by_skill : option string; by_tenant : option string; healthy_only : bool
}.

Definition matches (f : query_filter) (now : Q) (e : RegistryEntry) : bool :=
  let d := descriptor e in
  from_option (fun n => String.eqb (name d) n) true (by_name f) &&
  from_option (fun s => existsb (fun x => String.eqb (skill_id x) s) (skills d)) true (by_skill f) &&
  from_option (fun t => bool_decide (visibility d = []) || memb t (visibility d)) true (by_tenant f) &&
  (negb (healthy_only f) || healthy e now).

(** ** In memory *)

Record InMemoryAgentRegistry : Type := {
  default_lease : Q;
  entries : list (key * RegistryEntry)
}.

Definition with_entries (r : InMemoryAgentRegistry) (es : list (key * RegistryEntry)) :=
  {| default_lease := default_lease r; entries := es |}.

Definition register (r : InMemoryAgentRegistry) (d : AgentDescriptor) (ttl : option Q) (now : Q)
  : result error (RegistryEntry * InMemoryAgentRegistry) :=
  validate_descriptor d ≫= fun _ =>
  t ← checked_ttl "registration" ttl (default_lease r);
  let e := {| descriptor := d; registered_at := now; lease_expires_at := now + t |} in
  Ok (e, with_entries r (dset (entry_key e) e (entries r))).

Definition heartbeat (r : InMemoryAgentRegistry) (k : key) (ttl : option Q) (now : Q)
  : result error (RegistryEntry * InMemoryAgentRegistry) :=
  t ← checked_ttl "heartbeat" ttl (default_lease r);
  match dget k (entries r) with
  | None => Err (not_registered k)
  | Some e =>
      let e := with_lease e (now + t) in
      Ok (e, with_entries r (dset k e (entries r)))
  end.

Definition deregister (r : InMemoryAgentRegistry) (k : key)
  : result error InMemoryAgentRegistry :=
  match dget k (entries r) with
  | None => Err (not_registered k)
  | Some _ => Ok (with_entries r (dpop k (entries r)))
  end.

(** Kept on a read: within the retention window or healthy. *)
Definition retained (now : Q) (e : RegistryEntry) : bool :=
  (now - registered_at e <? STALE_RETENTION_SECONDS)%clock || healthy e now.

Definition key_leb (a b : RegistryEntry) : bool := str2_leb (entry_key a) (entry_key b).

Definition query (r : InMemoryAgentRegistry) (f : query_filter) (now : Q)
  : list RegistryEntry * InMemoryAgentRegistry :=
  let kept := filterb (fun ke => retained now ke.2) (entries r) in
  (sort_by key_leb (filterb (matches f now) (dvalues kept)), with_entries r kept).

Definition get (r : InMemoryAgentRegistry) (k : key) : result error RegistryEntry :=
  match dget k (entries r) with Some e => Ok e | None => Err (not_registered k) end.

(** ** In SQLite *)

Record row : Type := {
  descriptor_json : list (string * json);
  row_registered_at : Q;
  row_lease_expires_at : Q
}.

Record SqliteAgentRegistry : Type := {
  sql_default_lease : Q;
  stale_retention : Q;
  table : list (key * row)
}.

Definition with_table (r : SqliteAgentRegistry) (t : list (key * row)) :=
  {| sql_default_lease := sql_default_lease r; stale_retention := stale_retention r; table := t |}.

(** [DELETE ... WHERE registered_at < ? AND lease_expires_at <= ?] *)
Definition lapsed (now retention : Q) (x : row) : bool :=
  (row_registered_at x <? now - retention)%clock && (row_lease_expires_at x <=? now)%clock.

Definition prune (r : SqliteAgentRegistry) (now : Q) : list (key * row) :=
  filterb (fun kx => negb (lapsed now (stale_retention r) kx.2)) (table r).

(** [ORDER BY name, version] *)
Definition row_leb (a b : key * row) : bool := str2_leb a.1 b.1.

Section sqlite.
Context (lax_bool : json -> option bool).

Definition entry_of_row (x : row) : result error RegistryEntry :=
  d ← from_dict lax_bool (descriptor_json x);
  Ok {| descriptor := d; registered_at := row_registered_at x;
        lease_expires_at := row_lease_expires_at x |}.

Definition sql_register (r : SqliteAgentRegistry) (d : AgentDescriptor) (ttl : option Q) (now : Q)
  : result error (RegistryEntry * SqliteAgentRegistry) :=
  validate_descriptor d ≫= fun _ =>
  t ← checked_ttl "registration" ttl (sql_default_lease r);
  let x := {| descriptor_json := sorted_dict (to_dict d); row_registered_at := now;
              row_lease_expires_at := now + t |} in
  let r := with_table r (dset (name d, version d) x (table r)) in
  Ok ({| descriptor := d; registered_at := now; lease_expires_at := now + t |},
      with_table r (prune r now)).

Definition sql_heartbeat (r : SqliteAgentRegistry) (k : key) (ttl : option Q) (now : Q)
  : result error RegistryEntry * SqliteAgentRegistry :=
  match checked_ttl "heartbeat" ttl (sql_default_lease r) with
  | Err e => (Err e, r)
  | Ok t =>
      match dget k (table r) with
      | None => (Err (not_registered k), r)
      | Some x =>
          let x := {| descriptor_json := descriptor_json x;
                      row_registered_at := row_registered_at x; row_lease_expires_at := now + t |} in
          (entry_of_row x, with_table r (dset k x (table r)))
      end
  end.

Definition sql_deregister (r : SqliteAgentRegistry) (k : key) : result error SqliteAgentRegistry :=
  match dget k (table r) with
  | None => Err (not_registered k)
  | Some _ => Ok (with_table r (dpop k (table r)))
  end.

(** [SELECT ... ORDER BY name, version], then the filters. *)
Definition sql_query (r : SqliteAgentRegistry) (f : query_filter) (now : Q)
  : result error (list RegistryEntry) * SqliteAgentRegistry :=
  let rows := prune r now in
  (es ← mapM entry_of_row (dvalues (sort_by row_leb rows));
   Ok (filterb (matches f now) es), with_table r rows).

Definition sql_get (r : SqliteAgentRegistry) (k : key) : result error RegistryEntry :=
  match dget k (table r) with Some x => entry_of_row x | None => Err (not_registered k) end.
End sqlite.

(** ** The wire format loses nothing *)

(** Dictionaries in the order in which the text stores them. *)
Definition canonical (d : AgentDescriptor) : Prop :=
  sort_items (capabilities d) = capabilities d /\ sort_items (labels d) = labels d.

Lemma sort_keys_strings l : sort_keys (strings l) = strings l.
Proof. unfold strings. cbn. f_equal. induction l as [|x l IH]; cbn; [done|]. f_equal. exact IH. Qed.

Lemma sort_keys_values {A} (f : A -> json) (l : list (string * A)) :
  (forall a, sort_keys (f a) = f a) ->
  sort_keys (JObj (prod_map id f <$> l)) = JObj (prod_map id f <$> sort_items l).
Proof.
  intros Hf. cbn. f_equal. rewrite <-sort_items_fmap. f_equal.
  induction l as [|[k a] l IH]; cbn; [done|]. rewrite Hf. f_equal. exact IH.
Qed.

Lemma as_strings_strings l : as_strings (strings l) = Some l.
Proof. by apply (mapM_roundtrip JStr as_str). Qed.

Lemma as_skill_sorted s : skill_ok s = true -> as_skill (sort_keys (skill_dict s)) = Some s.
Proof.
  intros [Hi Hn]%andb_true_iff.
  assert (Hsort : sort_keys (skill_dict s) =
    JObj [("description", JStr (skill_description s)); ("id", JStr (skill_id s));
          ("name", JStr (skill_name s)); ("tags", strings (tags s))])
    by (rewrite <-(sort_keys_strings (tags s)); reflexivity).
  rewrite Hsort. unfold as_skill.
  change (only_keys skill_keys _) with true. cbn [negb].
  change (req_field _ "id" as_nonempty) with (as_nonempty (JStr (skill_id s))).
  change (req_field _ "name" as_nonempty) with (as_nonempty (JStr (skill_name s))).
  change (opt_field _ "description" "" as_str) with (Some (skill_description s)).
  change (opt_field _ "tags" [] as_strings) with (as_strings (strings (tags s))).
  rewrite as_strings_strings. cbn. rewrite Hi, Hn. by destruct s.
Qed.

Lemma mapM_as_skill l :
  forallb skill_ok l = true -> mapM as_skill (List.map sort_keys (skill_dict <$> l)) = Some l.
Proof.
  intros Hl. change (List.map sort_keys (skill_dict <$> l)) with (sort_keys <$> (skill_dict <$> l)).
  rewrite <-list_fmap_compose. apply mapM_roundtrip. intros x Hx.
  apply as_skill_sorted. by eapply forallb_elem in Hl.
Qed.

Lemma as_labels_labels l : as_labels (JObj (prod_map id JStr <$> l)) = Some l.
Proof. apply (mapM_roundtrip (prod_map id JStr)). by intros [k v] _. Qed.

Lemma as_capabilities_capabilities lax l : as_capabilities lax (JObj (prod_map id JBool <$> l)) = Some l.
Proof. apply (mapM_roundtrip (prod_map id JBool)). by intros [k v] _. Qed.

(** The descriptor with its dictionaries in that order. *)
Definition canon (d : AgentDescriptor) : AgentDescriptor :=
  {| schema_version := schema_version d; name := name d; version := version d;
     description := description d; a2a_protocol_version := a2a_protocol_version d;
     card_url := card_url d; card_fingerprint := card_fingerprint d; skills := skills d;
     capabilities := sort_items (capabilities d); labels := sort_items (labels d);
     visibility := visibility d |}.

Lemma canon_canonical d : canonical d -> canon d = d.
Proof. intros [Hc Hl]. unfold canon. rewrite Hc, Hl. by destruct d. Qed.

Lemma from_dict_stored lax d :
  contract_ok d = true -> from_dict lax (sorted_dict (to_dict d)) = Ok (canon d).
Proof.
  intros Hok.
  apply andb_true_iff in Hok as [Hok Hskills]. apply andb_true_iff in Hok as [Hok Hfp].
  apply andb_true_iff in Hok as [Hok Ha2a]. apply andb_true_iff in Hok as [Hok Hversion].
  apply andb_true_iff in Hok as [Hschema Hname]. apply String.eqb_eq in Hschema.
  set (sd := sorted_dict (to_dict d)).
  assert (Hcaps : dget "capabilities" sd = Some (JObj (prod_map id JBool <$> sort_items (capabilities d)))).
  { change (Some (sort_keys (JObj (prod_map id JBool <$> capabilities d))) =
            Some (JObj (prod_map id JBool <$> sort_items (capabilities d)))).
    by rewrite sort_keys_values. }
  assert (Hlabs : dget "labels" sd = Some (JObj (prod_map id JStr <$> sort_items (labels d)))).
  { change (Some (sort_keys (JObj (prod_map id JStr <$> labels d))) =
            Some (JObj (prod_map id JStr <$> sort_items (labels d)))).
    by rewrite sort_keys_values. }
  assert (Hvis : dget "visibility" sd = Some (strings (visibility d)))
    by (change (Some (sort_keys (strings (visibility d))) = Some (strings (visibility d)));
        by rewrite sort_keys_strings).
  unfold from_dict.
  change (dget "schema_version" sd) with (Some (JStr (schema_version d))). rewrite Hschema.
  change (negb (String.eqb CLOUD_SCHEMA_VERSION CLOUD_SCHEMA_VERSION)) with false.
  change (only_keys descriptor_keys sd) with true. cbn [negb].
  change (req_field sd "name" as_nonempty) with (as_nonempty (JStr (name d))).
  change (req_field sd "version" as_nonempty) with (as_nonempty (JStr (version d))).
  change (opt_field sd "description" "" as_str) with (Some (description d)).
  change (req_field sd "a2a_protocol_version" as_nonempty) with (as_nonempty (JStr (a2a_protocol_version d))).
  change (opt_field sd "card_url" "" as_str) with (Some (card_url d)).
  change (opt_field sd "card_fingerprint" "" as_fingerprint) with (as_fingerprint (JStr (card_fingerprint d))).
  change (opt_field sd "skills" [] _) with (mapM as_skill (List.map sort_keys (skill_dict <$> skills d))).
  unfold opt_field. rewrite Hcaps, Hlabs, Hvis, as_strings_strings, mapM_as_skill by done.
  rewrite as_capabilities_capabilities, as_labels_labels.
  cbn. rewrite Hname, Hversion, Ha2a. cbn. rewrite Hfp. cbn. unfold canon. by rewrite Hschema.
Qed.

(** ** The two stores give the same answers *)

Inductive request : Type :=
  | Register (d : AgentDescriptor) (ttl : option Q)
  | Heartbeat (k : key) (ttl : option Q)
  | Deregister (k : key)
  | Query (f : query_filter)
  | Get (k : key).

Inductive reply : Type :=
  | REntry (r : result error RegistryEntry)
  | RDone (r : result error unit)
  | RList (r : result error (list RegistryEntry)).

Definition mem_step (r : InMemoryAgentRegistry) (q : request) (now : Q) : reply * InMemoryAgentRegistry :=
  match q with
  | Register d ttl => match register r d ttl now with
                      | Ok (e, r) => (REntry (Ok e), r) | Err x => (REntry (Err x), r) end
  | Heartbeat k ttl => match heartbeat r k ttl now with
                       | Ok (e, r) => (REntry (Ok e), r) | Err x => (REntry (Err x), r) end
  | Deregister k => match deregister r k with Ok r => (RDone (Ok tt), r) | Err x => (RDone (Err x), r) end
  | Query f => let '(l, r) := query r f now in (RList (Ok l), r)
  | Get k => (REntry (get r k), r)
  end.

Section agreement.
Context (lax_bool : json -> option bool).

Definition sql_step (r : SqliteAgentRegistry) (q : request) (now : Q) : reply * SqliteAgentRegistry :=
  match q with
  | Register d ttl => match sql_register r d ttl now with
                      | Ok (e, r) => (REntry (Ok e), r) | Err x => (REntry (Err x), r) end
  | Heartbeat k ttl => let '(e, r) := sql_heartbeat lax_bool r k ttl now in (REntry e, r)
  | Deregister k => match sql_deregister r k with
                    | Ok r => (RDone (Ok tt), r) | Err x => (RDone (Err x), r) end
  | Query f => let '(l, r) := sql_query lax_bool r f now in (RList l, r)
  | Get k => (REntry (sql_get lax_bool r k), r)
  end.

Definition agree (m : InMemoryAgentRegistry) (s : SqliteAgentRegistry) : Prop :=
  default_lease m = sql_default_lease s /\ stale_retention s = STALE_RETENTION_SECONDS /\
  NoDup (dkeys (entries m)) /\ NoDup (dkeys (table s)) /\
  forall k, match dget k (entries m), dget k (table s) with
            | Some e, Some x => entry_of_row lax_bool x = Ok e /\ entry_key e = k
            | None, None => True
            | _, _ => False
            end.

(** No entry is older than the retention window. *)
Definition in_window (m : InMemoryAgentRegistry) (now : Q) : Prop :=
  forall k e, dget k (entries m) = Some e -> (now - registered_at e < STALE_RETENTION_SECONDS)%Q.

Definition acceptable (q : request) : Prop :=
  match q with Register d _ => contract_ok d = true /\ canonical d | _ => True end.

Lemma entry_of_row_times x e :
  entry_of_row lax_bool x = Ok e ->
  registered_at e = row_registered_at x /\ lease_expires_at e = row_lease_expires_at x.
Proof. unfold entry_of_row. destruct (from_dict _ _); cbn; intros; by simplify_eq. Qed.

Lemma contract_ok_validate d : contract_ok d = true -> validate_descriptor d = Ok tt.
Proof.
  intros Hok. unfold contract_ok in Hok. rewrite !andb_true_iff in Hok.
  destruct Hok as [[[[[Hs Hn] Hv] _] _] _]. unfold validate_descriptor. by rewrite Hn, Hv, Hs.
Qed.

(** Inside the window nothing is deleted. *)
Lemma prune_in_window m s now : agree m s -> in_window m now -> prune s now = table s.
Proof.
  intros (_ & Hret & _ & Hnd & Hag) Hw. apply filterb_all. intros [k x] Hin.
  apply elem_dget in Hin; [|done]. specialize (Hag k). rewrite Hin in Hag.
  destruct (dget k (entries m)) as [e|] eqn:He; [|done]. destruct Hag as [Hx _].
  apply entry_of_row_times in Hx as [Hx _]. specialize (Hw k e He). rewrite Hx in Hw.
  apply negb_true_iff, andb_false_iff. left. cbn. rewrite Hret. apply qltb_false.
  unfold STALE_RETENTION_SECONDS in *. lra.
Qed.

Lemma retained_in_window m now :
  NoDup (dkeys (entries m)) -> in_window m now ->
  filterb (fun ke => retained now ke.2) (entries m) = entries m.
Proof.
  intros Hnd Hw. apply filterb_all. intros [k e] Hin. apply elem_dget in Hin; [|done].
  specialize (Hw k e Hin). unfold retained. cbn. by rewrite (proj2 (qltb_true _ _)).
Qed.

Lemma agree_set m s k e x :
  agree m s -> entry_of_row lax_bool x = Ok e -> entry_key e = k ->
  agree (with_entries m (dset k e (entries m))) (with_table s (dset k x (table s))).
Proof.
  intros (H1 & H2 & H3 & H4 & Hag) Hx Hk. unfold agree. cbn.
  split_and!; [done|done|by apply NoDup_dset|by apply NoDup_dset|].
  intros k'. specialize (Hag k'). rewrite !dget_dset. by case_decide; subst.
Qed.

(** The decoded table is the dictionary, in some order. *)
Lemma decoded_perm m s :
  agree m s -> exists es, mapM (entry_of_row lax_bool) (dvalues (sort_by row_leb (table s))) = Ok es /\
    es ≡ₚ dvalues (entries m) /\ StronglySorted (fun a b => key_leb a b = true) es.
Proof.
  intros (_ & _ & Hm & Hs & Hag). set (rows := sort_by row_leb (table s)).
  assert (Hperm : rows ≡ₚ table s) by apply sort_by_perm.
  assert (Hsorted : StronglySorted (fun a b => row_leb a b = true) rows).
  { apply (sort_by_sorted row_leb).
    - intros x y. apply str2_leb_total.
    - intros x y z. apply str2_leb_trans. }
  assert (Hdec : forall k x, (k, x) ∈ rows -> exists e, entry_of_row lax_bool x = Ok e /\ entry_key e = k /\
            dget k (entries m) = Some e).
  { intros k x Hin. rewrite Hperm in Hin. apply elem_dget in Hin; [|done]. specialize (Hag k).
    rewrite Hin in Hag. destruct (dget k (entries m)) as [e|]; [|done]. exists e. tauto. }
  assert (Hes : exists es, mapM (entry_of_row lax_bool) (dvalues rows) = Ok es /\
            (fun kx => (kx.1 : key)) <$> rows = entry_key <$> es /\
            (forall e, e ∈ es -> dget (entry_key e) (entries m) = Some e)).
  { clear Hperm Hsorted. induction rows as [|[k x] rows IH]; [exists []; split_and!; [done..|]; by inversion 1|].
    destruct IH as (es & Hmap & Hkeys & Hin); [intros k' x' Hin; apply Hdec; by right|].
    destruct (Hdec k x ltac:(left)) as (e & He & Hk & Hget). exists (e :: es). split_and!.
    - apply mapM_ok. constructor; [done|]. by apply mapM_ok in Hmap.
    - cbn. rewrite Hk. f_equal. exact Hkeys.
    - intros e' [->|He']%elem_of_cons; [by rewrite Hk | by apply Hin]. }
  destruct Hes as (es & Hmap & Hkeys & Hin). exists es. split_and!; [done| |].
  - apply NoDup_Permutation.
    + apply (NoDup_fmap_1 entry_key). rewrite <-Hkeys.
      change ((fun kx : key * row => kx.1) <$> rows) with (dkeys rows). unfold dkeys. by rewrite Hperm.
    + apply (NoDup_fmap_1 entry_key).
      replace (entry_key <$> dvalues (entries m)) with (dkeys (entries m)); [done|].
      unfold dkeys, dvalues. rewrite <-list_fmap_compose. apply list_fmap_ext. intros i [k e] Hi. cbn.
      apply list_elem_of_lookup_2, elem_dget in Hi; [|done]. specialize (Hag k). rewrite Hi in Hag.
      by destruct (dget k (table s)) as [x|]; [destruct Hag|].
    + intros e. split.
      * intros He%Hin%dget_elem. apply list_elem_of_fmap. by exists (entry_key e, e).
      * intros ([k e'] & -> & He)%list_elem_of_fmap. cbn. apply elem_dget in He; [|done].
        specialize (Hag k). rewrite He in Hag. destruct (dget k (table s)) as [x|] eqn:Hx; [|done].
        assert (Hk : k ∈ entry_key <$> es).
        { rewrite <-Hkeys. apply dget_elem in Hx. apply list_elem_of_fmap. exists (k, x). by rewrite Hperm. }
        apply list_elem_of_fmap in Hk as (e0 & -> & He0). specialize (Hin e0 He0). congruence.
  - apply (sorted_fmap entry_key (fun a b => str2_leb a b = true)). rewrite <-Hkeys.
    by apply (sorted_fmap (fun kx : key * row => kx.1)).
Qed.

Lemma key_leb_antisym m e1 e2 :
  (forall k e, dget k (entries m) = Some e -> entry_key e = k) ->
  NoDup (dkeys (entries m)) -> e1 ∈ dvalues (entries m) -> e2 ∈ dvalues (entries m) ->
  key_leb e1 e2 = true -> key_leb e2 e1 = true -> e1 = e2.
Proof.
  intros Hk Hnd ([k1 x1] & -> & H1)%list_elem_of_fmap ([k2 x2] & -> & H2)%list_elem_of_fmap Ha Hb.
  apply elem_dget in H1, H2; [|done..]. cbn in *.
  pose proof (str2_leb_antisym _ _ Ha Hb) as Heq. rewrite (Hk _ _ H1), (Hk _ _ H2) in Heq. congruence.
Qed.

Lemma query_agrees m s f now :
  agree m s -> in_window m now ->
  sql_query lax_bool s f now = (Ok (query m f now).1, s) /\ (query m f now).2 = m.
Proof.
  intros Hag Hw. unfold sql_query, query. rewrite (prune_in_window m s now Hag Hw).
  rewrite (retained_in_window m now) by (done || apply Hag).
  destruct (decoded_perm m s Hag) as (es & -> & Hp & Hsorted). split; [|by destruct m].
  destruct s. cbn. do 2 f_equal. apply (sorted_perm_eq key_leb).
  - intros a b [Ha _]%elem_of_filterb [Hb _]%elem_of_filterb. rewrite Hp in Ha, Hb.
    apply (key_leb_antisym m); [|apply Hag|done|done].
    intros k e He. destruct Hag as (_ & _ & _ & _ & Hag). specialize (Hag k). rewrite He in Hag.
    by destruct (dget k _) as [x|]; [destruct Hag|].
  - by apply sorted_filterb.
  - apply (sort_by_sorted key_leb); intros; [apply str2_leb_total | by eapply str2_leb_trans].
  - rewrite sort_by_perm. by rewrite Hp.
Qed.

Lemma agree_step m s q now :
  agree m s -> in_window m now -> acceptable q ->
  (mem_step m q now).1 = (sql_step s q now).1 /\ agree (mem_step m q now).2 (sql_step s q now).2.
Proof.
  intros Hag Hw Hq. pose proof Hag as (Hd & Hret & Hnm & Hns & Hk). destruct q as [d ttl|k ttl|k|f|k];
    cbn [mem_step sql_step].
  - destruct Hq as [Hok Hcan]. unfold register, sql_register. rewrite (contract_ok_validate d Hok), Hd.
    cbn -[prune with_table with_entries sorted_dict].
    destruct (checked_ttl _ _ _) as [t|x]; cbn -[prune with_table with_entries sorted_dict]; [|done]. split; [done|].
    set (e := {| descriptor := d; registered_at := now; lease_expires_at := now + t |}).
    set (x := {| descriptor_json := sorted_dict (to_dict d); row_registered_at := now;
                 row_lease_expires_at := now + t |}).
    assert (Hset : agree (with_entries m (dset (entry_key e) e (entries m)))
              (with_table s (dset (name d, version d) x (table s)))).
    { apply agree_set; [done| |done]. unfold entry_of_row. cbn -[from_dict sorted_dict to_dict].
      by rewrite from_dict_stored, canon_canonical. }
    pose proof (prune_in_window _ _ now Hset) as Hp. rewrite Hp; [exact Hset|].
    intros k e'. cbn. rewrite dget_dset. case_decide; [|by apply Hw]. intros [= <-]. cbn.
    unfold STALE_RETENTION_SECONDS. lra.
  - unfold heartbeat, sql_heartbeat. rewrite Hd. destruct (checked_ttl _ _ _) as [t|x]; cbn; [|done].
    specialize (Hk k). destruct (dget k (entries m)) as [e|] eqn:He, (dget k (table s)) as [x|]; try done; cbn.
    destruct Hk as [Hx Hke].
    assert (Hrow : entry_of_row lax_bool {| descriptor_json := descriptor_json x;
              row_registered_at := row_registered_at x; row_lease_expires_at := now + t |} =
              Ok (with_lease e (now + t))).
    { unfold entry_of_row in *. cbn. destruct (from_dict _ _); cbn in *; by simplify_eq. }
    rewrite Hrow. split; [done|]. by apply agree_set.
  - specialize (Hk k) as Hkk. unfold deregister, sql_deregister.
    destruct (dget k (entries m)), (dget k (table s)); try done; cbn. split; [done|].
    unfold agree. cbn. split_and!; [done|done|by apply NoDup_dpop|by apply NoDup_dpop|].
    intros k'. specialize (Hk k'). destruct (decide (k' = k)) as [->|Hne].
    + by rewrite !dget_dpop_eq.
    + by rewrite !dget_dpop_ne.
  - destruct (query_agrees m s f now Hag Hw) as [Hq1 Hq2]. rewrite Hq1.
    destruct (query m f now) as [l m']. cbn in *. by subst.
  - specialize (Hk k). unfold get, sql_get.
    destruct (dget k (entries m)), (dget k (table s)); try done. by destruct Hk as [-> _].
Qed.

Fixpoint mem_replies (m : InMemoryAgentRegistry) (qs : list (request * Q)) : list reply :=
  match qs with
  | [] => []
  | (q, now) :: qs => (mem_step m q now).1 :: mem_replies (mem_step m q now).2 qs
  end.
Fixpoint sql_replies (s : SqliteAgentRegistry) (qs : list (request * Q)) : list reply :=
  match qs with
  | [] => []
  | (q, now) :: qs => (sql_step s q now).1 :: sql_replies (sql_step s q now).2 qs
  end.
Fixpoint within_window (m : InMemoryAgentRegistry) (qs : list (request * Q)) : Prop :=
  match qs with
  | [] => True
  | (q, now) :: qs => in_window m now /\ acceptable q /\ within_window (mem_step m q now).2 qs
  end.
End agreement.

(** The SQLite registry answers like the in-memory one.  For any sequence
    of registrations (of descriptors that satisfy the wire contract),
    heartbeats, removals, queries and reads, with the same clock readings and
    with no entry older than the retention window, both stores give the same
    answers: the same entries in the same order, the same health, the same
    errors. *)
Theorem registry_stores_agree lax m s qs :
  agree lax m s -> within_window m qs -> mem_replies m qs = sql_replies lax s qs.
Proof.
  revert m s. induction qs as [|[q now] qs IH]; intros m s Hag Hw; cbn; [done|].
  destruct Hw as (Hwin & Hacc & Hw). destruct (agree_step lax m s q now Hag Hwin Hacc) as [-> Hag'].
  f_equal. by apply IH.
Qed.

(** An agent that has been up for longer than the retention window is
    never listed as stale.  Register an agent and renew its lease; if the
    registration is at least [STALE_RETENTION_SECONDS] old when the last lease
    runs out, it is healthy up to that moment and the first query from that
    moment on removes it: the window in which an expired entry stays queryable
    is counted from the registration, not from the end of the lease. *)
Theorem long_lived_agent_vanishes r d ttl t0 e0 r0 ttl1 t1 e1 r1 now f :
  NoDup (dkeys (entries r)) ->
  register r d ttl t0 = Ok (e0, r0) ->
  heartbeat r0 (name d, version d) (Some ttl1) t1 = Ok (e1, r1) ->
  (t0 + STALE_RETENTION_SECONDS <= t1 + ttl1)%Q -> (t1 + ttl1 <= now)%Q ->
  (forall t, (t < t1 + ttl1)%Q -> healthy e1 t = true) /\
  get (query r1 f now).2 (name d, version d) = Err (not_registered (name d, version d)).
Proof.
  intros Hnd Hreg Hhb Hold Hnow. unfold register in Hreg.
  destruct (validate_descriptor d); [|done]. cbn in Hreg.
  destruct (checked_ttl _ ttl _) as [t|]; [|done]. cbn in Hreg. injection Hreg as <- <-.
  unfold heartbeat in Hhb. destruct (checked_ttl "heartbeat" _ _) as [t'|] eqn:Ht; [|done]. cbn in Hhb.
  assert (t' = ttl1) as ->. { unfold checked_ttl in Ht. cbn in Ht. destruct (ttl1 <=? 0)%clock; congruence. }
  change (entry_key _) with (name d, version d) in Hhb. rewrite dget_dset_eq in Hhb.
  injection Hhb as <- <-. split; [intros t2 Ht2; by apply qltb_true|].
  unfold get, query. cbn [snd entries with_entries].
  destruct (dget _ (filterb _ _)) as [x|] eqn:Hx; [|done]. exfalso.
  apply dget_elem, elem_of_filterb in Hx as [Hin Hret]. apply elem_dget in Hin; [|cbn; apply NoDup_dset; cbn; by apply NoDup_dset].
  cbn in Hin. rewrite dget_dset_eq in Hin. injection Hin as <-. cbn in Hret. unfold retained, healthy in Hret. cbn in Hret.
  apply orb_true_iff in Hret as [Hret|Hret]; apply qltb_true in Hret; lra.
Qed.

Lemma mapM_err {E A B} (f : A -> result E B) (l : list A) x e :
  x ∈ l -> f x = Err e -> exists e', mapM f l = Err e'.
Proof.
  intros Hin Hx. destruct (mapM f l) as [k|e'] eqn:Hm; [|by eexists].
  apply mapM_ok in Hm. apply list_elem_of_lookup_1 in Hin as [i Hi].
  destruct (Forall2_lookup_l _ _ _ _ _ Hm Hi) as (y & _ & Hy). congruence.
Qed.

(** One registration can break every query of the SQLite registry.
    [register] checks less than the wire contract that rows are read back
    through: a descriptor without an A2A protocol version is accepted, and
    from then on every query raises, whatever it asks for and however many
    valid agents are registered, until the row is removed. *)
Theorem registration_breaks_queries lax r d ttl t0 e r' f now :
  validate_descriptor d = Ok tt -> a2a_protocol_version d = "" ->
  (0 < stale_retention r)%Q ->
  sql_register r d ttl t0 = Ok (e, r') -> (t0 <= now <= t0 + stale_retention r)%Q ->
  exists why, (sql_query lax r' f now).1 = Err why.
Proof.
  intros Hval Ha2a Hpos Hreg Hnow. unfold sql_register in Hreg. rewrite Hval in Hreg.
  cbn -[sorted_dict prune with_table] in Hreg.
  destruct (checked_ttl _ _ _) as [t|] eqn:Ht; [|done]. cbn -[sorted_dict prune with_table] in Hreg.
  injection Hreg as <- <-.
  set (x := {| descriptor_json := sorted_dict (to_dict d); row_registered_at := t0;
               row_lease_expires_at := t0 + t |}).
  assert (Hbad : exists why, entry_of_row lax x = Err why).
  { unfold entry_of_row. set (sd := sorted_dict (to_dict d)) in x. cbn [descriptor_json x].
    unfold from_dict. destruct (negb _); [by eexists|].
    change (only_keys descriptor_keys sd) with true. cbn [negb].
    change (req_field sd "a2a_protocol_version" as_nonempty) with (as_nonempty (JStr (a2a_protocol_version d))).
    rewrite Ha2a.
    destruct (req_field sd "name" as_nonempty), (req_field sd "version" as_nonempty),
      (opt_field sd "description" "" as_str); eexists; reflexivity. }
  destruct Hbad as [why Hbad]. unfold sql_query. cbn -[sorted_dict prune with_table].
  destruct (mapM_err (entry_of_row lax) (dvalues (sort_by row_leb (prune (with_table
    (with_table r (dset (name d, version d) x (table r))) (prune (with_table r (dset (name d, version d) x (table r))) t0)) now))) x why)
    as [e' He']; [|done|by exists e'; rewrite He'].
  apply list_elem_of_fmap. exists ((name d, version d), x). split; [done|].
  rewrite elem_of_sort_by.
  assert (Hkeep : forall tm, (tm <= t0 + stale_retention r)%Q -> negb (lapsed tm (stale_retention r) x) = true).
  { intros tm Htm. apply negb_true_iff, andb_false_iff. left. apply qltb_false. cbn. lra. }
  apply elem_of_filterb. split; [|apply Hkeep; lra]. apply elem_of_filterb. split; [|apply Hkeep; lra].
  apply dget_elem, dget_dset_eq.
Qed.

(** ** The HTTP handlers *)

Inductive response : Type :=
  | Payload (e : RegistryEntry) (now : Q)        (** [_entry_payload(entry)] *)
  | Agents (es : list RegistryEntry) (now : Q)
  | Deregistered (k : key)
  | HTTPException (status_code : Z) (detail : string).

Definition error_detail (e : error) : string :=
  match e with
  | DescriptorError w | UnknownAgentError w => w
  | DescriptorCardMismatchError ms => String.concat "; " ms
  end.

(** [except UnknownAgentError] is a 404, [except DescriptorError] a 422. *)
Definition http_error (e : error) : response :=
  match e with
  | UnknownAgentError w => HTTPException 404 w
  | e => HTTPException 422 (error_detail e)
  end.

Section handlers.
Context (lax_bool : json -> option bool) (py_str : json -> string).

Definition body_text (k dflt : string) (payload : list (string * json)) : string :=
  match dget k payload with Some (JStr s) => s | Some j => py_str j | None => dflt end.

Definition register_agent (r : SqliteAgentRegistry) (k : key) (payload : list (string * json))
    (ttl : option Q) (now : Q) : response * SqliteAgentRegistry :=
  if negb (String.eqb (body_text "name" k.1 payload) k.1)
     || negb (String.eqb (body_text "version" k.2 payload) k.2)
  then (HTTPException 422 "descriptor identity must match the URL path name and version", r)
  else
    match d ← from_dict lax_bool (dset "version" (JStr k.2) (dset "name" (JStr k.1) payload));
          sql_register r d ttl now with
    | Ok (e, r) => (Payload e now, r)
    | Err x => (http_error x, r)
    end.

Definition heartbeat_agent (r : SqliteAgentRegistry) (k : key) (ttl : option Q) (now : Q)
  : response * SqliteAgentRegistry :=
  match sql_heartbeat lax_bool r k ttl now with
  | (Ok e, r) => (Payload e now, r)
  | (Err x, r) => (http_error x, r)
  end.

Definition deregister_agent (r : SqliteAgentRegistry) (k : key) : response * SqliteAgentRegistry :=
  match sql_deregister r k with
  | Ok r => (Deregistered k, r)
  | Err x => (http_error x, r)
  end.

(** A query that raises is not caught: the framework answers 500. *)
Definition query_agents (r : SqliteAgentRegistry) (f : query_filter) (now : Q)
  : response * SqliteAgentRegistry :=
  match sql_query lax_bool r f now with
  | (Ok es, r) => (Agents es now, r)
  | (Err x, r) => (HTTPException 500 (error_detail x), r)
  end.

Definition get_agent (r : SqliteAgentRegistry) (k : key) (now : Q) : response :=
  match sql_get lax_bool r k with
  | Ok e => Payload e now
  | Err (UnknownAgentError w) => HTTPException 404 w
  | Err x => HTTPException 500 (error_detail x)
  end.

Inductive http : Type :=
  | Put (k : key) (payload : list (string * json)) (ttl : option Q)
  | PostHeartbeat (k : key) (ttl : option Q)
  | Delete (k : key)
  | GetAll (f : query_filter)
  | GetOne (k : key).

Definition serve (r : SqliteAgentRegistry) (h : http) (now : Q) : response * SqliteAgentRegistry :=
  match h with
  | Put k payload ttl => register_agent r k payload ttl now
  | PostHeartbeat k ttl => heartbeat_agent r k ttl now
  | Delete k => deregister_agent r k
  | GetAll f => query_agents r f now
  | GetOne k => (get_agent r k now, r)
  end.

Fixpoint serve_all (r : SqliteAgentRegistry) (hs : list (http * Q)) : SqliteAgentRegistry :=
  match hs with [] => r | (h, now) :: hs => serve_all (serve r h now).2 hs end.

(** Every row reads back as an entry of its own key. *)
Definition readable (r : SqliteAgentRegistry) : Prop :=
  forall k x, (k, x) ∈ table r -> exists e, entry_of_row lax_bool x = Ok e /\ entry_key e = k.

Lemma req_nonempty d k s : req_field d k as_nonempty = Some s -> str_truthy s = true.
Proof.
  unfold req_field. destruct (dget k d) as [[]|]; cbn; try done. case_match; intros; by simplify_eq.
Qed.

Lemma as_skill_ok j s : as_skill j = Some s -> skill_ok s = true.
Proof.
  destruct j as [| | | | | |d]; try done. cbn. destruct (negb _); [done|].
  destruct (req_field d "id" as_nonempty) as [i|] eqn:Hi; [|done].
  destruct (req_field d "name" as_nonempty) as [n|] eqn:Hn; [|done]. cbn.
  destruct (opt_field d "description" "" as_str); [|done]. cbn.
  destruct (opt_field d "tags" [] as_strings); [|done]. cbn. intros [= <-].
  unfold skill_ok. cbn. by rewrite (req_nonempty _ _ _ Hi), (req_nonempty _ _ _ Hn).
Qed.

Lemma opt_fingerprint_ok d k s : opt_field d k "" as_fingerprint = Some s -> fingerprint_ok s = true.
Proof.
  unfold opt_field. destruct (dget k d) as [j|]; [|by intros [= <-]].
  destruct j; try done. cbn. destruct (fingerprint_ok s0) eqn:E; [|done]. by intros [= <-].
Qed.

Lemma opt_skills_ok d k l :
  opt_field d k [] (fun j => match j with JList l => mapM as_skill l | _ => None end) = Some l ->
  forallb skill_ok l = true.
Proof.
  unfold opt_field. destruct (dget k d) as [[]|]; try done; [|by intros [= <-]].
  intros Hm. apply mapM_Some in Hm. apply forallb_elem. intros x Hx.
  apply list_elem_of_lookup_1 in Hx as [i Hi].
  destruct (Forall2_lookup_r _ _ _ _ _ Hm Hi) as (j & _ & Hj). by eapply as_skill_ok.
Qed.

(** What the parser accepts satisfies the contract. *)
Lemma from_dict_ok d desc : from_dict lax_bool d = Ok desc -> contract_ok desc = true.
Proof.
  unfold from_dict. destruct (negb _); [done|].
  destruct (negb (only_keys _ _)); [done|].
  destruct (req_field d "name" as_nonempty) as [n|] eqn:Hn; [|done]. cbn [mbind option_bind].
  destruct (req_field d "version" as_nonempty) as [v|] eqn:Hv; [|done]. cbn [mbind option_bind].
  destruct (opt_field d "description" "" as_str); [|done]. cbn [mbind option_bind].
  destruct (req_field d "a2a_protocol_version" as_nonempty) as [a|] eqn:Ha; [|done]. cbn [mbind option_bind].
  destruct (opt_field d "card_url" "" as_str); [|done]. cbn [mbind option_bind].
  destruct (opt_field d "card_fingerprint" "" as_fingerprint) as [f|] eqn:Hf; [|done]. cbn [mbind option_bind].
  destruct (opt_field d "skills" [] _) as [sk|] eqn:Hs; [|done]. cbn [mbind option_bind].
  destruct (opt_field d "capabilities" [] _); [|done]. cbn [mbind option_bind].
  destruct (opt_field d "labels" [] _); [|done]. cbn [mbind option_bind].
  destruct (opt_field d "visibility" [] _); [|done]. cbn [mbind option_bind].
  intros [= <-]. unfold contract_ok. cbn [schema_version name version a2a_protocol_version card_fingerprint skills].
  rewrite (req_nonempty _ _ _ Hn), (req_nonempty _ _ _ Hv), (req_nonempty _ _ _ Ha),
    (opt_fingerprint_ok _ _ _ Hf), (opt_skills_ok _ _ _ Hs). done.
Qed.

Lemma readable_sub r t : readable r -> (forall kx, kx ∈ t -> kx ∈ table r) -> readable (with_table r t).
Proof. intros Hr Ht k x Hin. by apply Hr, Ht. Qed.

Lemma readable_set r k x e :
  readable r -> entry_of_row lax_bool x = Ok e -> entry_key e = k -> readable (with_table r (dset k x (table r))).
Proof.
  intros Hr Hx Hk k' x' [[= -> ->]|Hin]%elem_dset; [by exists e | by apply Hr].
Qed.

Lemma serve_readable r h now : readable r -> readable (serve r h now).2.
Proof.
  intros Hr. destruct h as [k payload ttl|k ttl|k|f|k]; cbn [serve].
  - unfold register_agent. destruct (_ || _); [done|].
    destruct (from_dict _ _) as [d|x] eqn:Hd; [|done]. cbn [mbind result_bind].
    unfold sql_register. destruct (validate_descriptor d); [|done]. cbn [mbind result_bind].
    destruct (checked_ttl _ _ _) as [t|]; [|done]. cbn [mbind result_bind snd].
    apply readable_sub.
    + apply (readable_set r _ _ {| descriptor := canon d; registered_at := now; lease_expires_at := now + t |});
        [done| |done].
      unfold entry_of_row. cbn [descriptor_json].
      by rewrite (from_dict_stored lax_bool d (from_dict_ok _ _ Hd)).
    + intros kx [? _]%elem_of_filterb. done.
  - unfold heartbeat_agent, sql_heartbeat. destruct (checked_ttl _ _ _) as [t|]; [|done].
    destruct (dget k (table r)) as [x|] eqn:Hx; [|done].
    destruct (Hr k x (dget_elem _ _ _ Hx)) as (e & He & Hk).
    assert (Hrow : entry_of_row lax_bool {| descriptor_json := descriptor_json x;
              row_registered_at := row_registered_at x; row_lease_expires_at := now + t |} =
              Ok (with_lease e (now + t))).
    { unfold entry_of_row in *. cbn. destruct (from_dict _ _); cbn in *; by simplify_eq. }
    rewrite Hrow. by eapply readable_set.
  - unfold deregister_agent, sql_deregister. destruct (dget k (table r)); [|done].
    apply readable_sub; [done|]. intros kx [? _]%elem_of_filterb. done.
  - unfold query_agents, sql_query.
    assert (Hp : readable (with_table r (prune r now)))
      by (apply readable_sub; [done|]; intros kx [? _]%elem_of_filterb; done).
    by destruct (mapM _ _).
  - done.
Qed.
(** A table that can be read answers every query, with every row in force that matches. *)
Lemma query_answers r f now :
  readable r -> exists es, (query_agents r f now).1 = Agents es now /\
    forall k x e, (k, x) ∈ table r -> entry_of_row lax_bool x = Ok e -> matches f now e = true ->
                  negb (lapsed now (stale_retention r) x) = true -> e ∈ es.
Proof.
  intros Hr. unfold query_agents, sql_query. set (rows := sort_by row_leb (prune r now)).
  assert (Hall : forall k x, (k, x) ∈ rows -> exists e, entry_of_row lax_bool x = Ok e).
  { intros k x [Hin _]%elem_of_sort_by%elem_of_filterb. destruct (Hr k x Hin) as (e & He & _). by exists e. }
  assert (Hok : exists es, mapM (entry_of_row lax_bool) (dvalues rows) = Ok es).
  { clearbody rows. induction rows as [|[k y] rows IH]; [by eexists|].
    destruct IH as [es Hes]; [intros k' y' Hin; eapply Hall; by right|].
    destruct (Hall k y ltac:(left)) as [e He]. exists (e :: es). apply mapM_ok.
    constructor; [done|]. by apply mapM_ok in Hes. }
  destruct Hok as [es Hes]. rewrite Hes. cbn [mbind result_bind fst]. eexists. split; [done|].
  intros k x e Hin He Hm Hl. apply elem_of_filterb. split; [|done].
  assert (Hx : x ∈ dvalues rows).
  { apply list_elem_of_fmap. exists (k, x). split; [done|]. apply elem_of_sort_by, elem_of_filterb. done. }
  apply mapM_ok in Hes. apply list_elem_of_lookup_1 in Hx as [i Hi].
  destruct (Forall2_lookup_l _ _ _ _ _ Hes Hi) as (e' & Hi' & He'). rewrite He in He'. injection He' as <-.
  by apply list_elem_of_lookup_2 in Hi'.
Qed.
End handlers.

(** Through the HTTP interface the registry stays readable.  After any
    sequence of requests on an empty SQLite registry, whatever their payloads,
    every query answers with a list (never an internal error), and every
    stored row reads back as the descriptor of its own name and version. *)
Theorem http_registry_stays_readable lax py_str lease retention hs f now :
  let r := serve_all lax py_str {| sql_default_lease := lease; stale_retention := retention; table := [] |} hs in
  readable lax r /\ exists es, (query_agents lax r f now).1 = Agents es now.
Proof.
  intros r. assert (Hr : readable lax r).
  { unfold r. assert (Hrun : forall q, readable lax q -> readable lax (serve_all lax py_str q hs)).
    { induction hs as [|[h t] hs IH]; intros q Hq; cbn; [done|]. by apply IH, serve_readable. }
    apply Hrun. intros k x Hin. by inversion Hin. }
  split; [done|]. destruct (query_answers lax r f now Hr) as (es & -> & _). by eexists.
Qed.

(** ** On concrete input *)

Definition demo_descriptor (n : string) (protocol : string) : AgentDescriptor :=
  {| schema_version := CLOUD_SCHEMA_VERSION; name := n; version := "1"; description := "";
     a2a_protocol_version := protocol; card_url := ""; card_fingerprint := "";
     skills := [{| skill_id := "s"; skill_name := "S"; skill_description := ""; tags := ["x"] |}];
     capabilities := [("memory", true); ("tools", false)]; labels := []; visibility := ["acme"] |}.
Definition empty_memory : InMemoryAgentRegistry := {| default_lease := 300; entries := [] |}.
Definition empty_sqlite : SqliteAgentRegistry :=
  {| sql_default_lease := 300; stale_retention := STALE_RETENTION_SECONDS; table := [] |}.
Definition everything : query_filter :=
  {| by_name := None; by_skill := None; by_tenant := Some "acme"; healthy_only := false |}.
Definition demo_trace : list (request * Q) :=
  [(Register (demo_descriptor "b" "0.3.0") None, 0%Q); (Register (demo_descriptor "a" "0.3.0") None, 1%Q);
   (Heartbeat ("b", "1") (Some 10%Q), 5%Q); (Query everything, 400%Q); (Deregister ("c", "1"), 401%Q)].

Lemma registry_stores_agree_witness :
  mem_replies empty_memory demo_trace = sql_replies (fun _ => None) empty_sqlite demo_trace.
Proof.
  refine (registry_stores_agree (fun _ => None) empty_memory empty_sqlite demo_trace _ _).
  - split_and!; try reflexivity; try constructor.
  - assert (Hw : forall r t, forallb (fun ke => (t - registered_at ke.2 <? STALE_RETENTION_SECONDS)%clock)
              (entries r) = true -> in_window r t).
    { intros r t Hall k e He%dget_elem. rewrite forallb_elem in Hall.
      by apply qltb_true, (Hall (k, e)). }
    repeat split; apply Hw; vm_compute; reflexivity.
Defined.

Lemma long_lived_agent_vanishes_witness : exists e1 r1,
  heartbeat (with_entries empty_memory [(("a", "1"),
     {| descriptor := demo_descriptor "a" "0.3.0"; registered_at := 0; lease_expires_at := 0 + 300 |})])
    ("a", "1") (Some 300%Q) 86200 = Ok (e1, r1) /\
  get (query r1 everything 86500).2 ("a", "1") = Err (not_registered ("a", "1")).
Proof.
  eexists _, _. split; [reflexivity|].
  refine (proj2 (long_lived_agent_vanishes empty_memory (demo_descriptor "a" "0.3.0") None 0 _ _ 300 86200
    _ _ 86500 everything _ eq_refl eq_refl _ _)).
  - constructor.
  - vm_compute. discriminate.
  - vm_compute. discriminate.
Defined.

Lemma registration_breaks_queries_witness : exists e r' why,
  sql_register empty_sqlite (demo_descriptor "a" "") None 0 = Ok (e, r') /\
  (sql_query (fun _ => None) r' everything 1).1 = Err why.
Proof.
  destruct (sql_register empty_sqlite (demo_descriptor "a" "") None 0) as [[e r']|] eqn:Hr; [|discriminate Hr].
  destruct (registration_breaks_queries (fun _ => None) empty_sqlite (demo_descriptor "a" "") None 0 e r'
    everything 1 eq_refl eq_refl eq_refl Hr) as [why Hwhy].
  - split; vm_compute; discriminate.
  - exact (ex_intro _ e (ex_intro _ r' (ex_intro _ why (conj eq_refl Hwhy)))).
Defined.

End Registry.
