(* ===== verification/Gateway.v ===== *)
(** * The gateway: routing, rate limits, bulkheads and circuit breakers

    [cloud/gateway.py] with the default in-process state ([GatewayShared] adds a
    [GatewayStateStore]).  Targets are objects shared by routes, so they live
    in a table and a route lists their positions.  Time is what
    [time.monotonic()] returns at each reading; the upstream HTTP client is an
    oracle.

    [forward] is one step here.  The source awaits between taking a slot and giving
    it back, so requests interleave; what is proved of one request is that it gives
    back what it took and that the cap is looked at when it takes it.  No theorem
    speaks of the order in which the steps of several requests mix. *)

From S2P Require Import Prelude.

Module Gateway.
Local Open Scope string_scope.

Record Caller : Type := { tenant : option string; subject : string }.

Record Target : Type := {
  base_url : string;
  max_concurrency : nat;
  failure_threshold : Z;
  cooldown_seconds : Q;
  in_use : nat;                 (** slots taken from the semaphore *)
  failures : Z;
  opened_at : option Q
}.

Definition new_target (url : string) (slots : nat) (threshold : Z) (cooldown : Q) : Target :=
  {| base_url := url; max_concurrency := slots; failure_threshold := threshold;
     cooldown_seconds := cooldown; in_use := 0; failures := 0; opened_at := None |}.

Definition with_breaker (t : Target) (f : Z) (o : option Q) : Target :=
  {| base_url := base_url t; max_concurrency := max_concurrency t;
     failure_threshold := failure_threshold t; cooldown_seconds := cooldown_seconds t;
     in_use := in_use t; failures := f; opened_at := o |}.
Definition with_slots (t : Target) (n : nat) : Target :=
  {| base_url := base_url t; max_concurrency := max_concurrency t;
     failure_threshold := failure_threshold t; cooldown_seconds := cooldown_seconds t;
     in_use := n; failures := failures t; opened_at := opened_at t |}.

(** [try_acquire]: [semaphore.locked()] when no slot is left. *)
Definition try_acquire (t : Target) : bool * Target :=
  if Nat.leb (max_concurrency t) (in_use t) then (false, t) else (true, with_slots t (S (in_use t))).

Definition release_slot (t : Target) : Target := with_slots t (pred (in_use t)).

(** [available]: reading it after the cooldown closes the circuit again, one
    failure short of the threshold. *)
Definition available (t : Target) (now : Q) : bool * Target :=
  match opened_at t with
  | None => (true, t)
  | Some o =>
      if (cooldown_seconds t <=? now - o)%clock
      then (true, with_breaker t (failure_threshold t - 1) None)
      else (false, t)
  end.

Definition record_success (t : Target) : Target := with_breaker t 0 None.

Definition record_failure (t : Target) (now : Q) : Target :=
  let f := (failures t + 1)%Z in
  with_breaker t f (if (failure_threshold t <=? f)%Z then Some now else opened_at t).

Record GatewayRoute : Type := {
  route_agent : string;
  route_targets : list nat;
  allowed_tenants : option (list string);
  rate_limit_per_minute : Z
}.

(** ** Token buckets *)

Record TokenBucket : Type := { capacity : Q; tokens : Q; updated : Q }.

Definition new_bucket (rate : Z) (now : Q) : TokenBucket :=
  {| capacity := inject_Z rate; tokens := inject_Z rate; updated := now |}.

Definition refilled (b : TokenBucket) (now : Q) : Q :=
  Qmin (capacity b) (tokens b + (now - updated b) * (capacity b / 60)).

Definition try_take (b : TokenBucket) (now : Q) : bool * TokenBucket :=
  let t := refilled b now in
  if (1 <=? t)%clock
  then (true, {| capacity := capacity b; tokens := t - 1; updated := now |})
  else (false, {| capacity := capacity b; tokens := t; updated := now |}).

(** ** The gateway *)

Abbreviation bucket_key := (string * string)%type (only parsing).

Record gateway : Type := {
  routes : list (string * GatewayRoute);
  max_buckets : nat;
  idle_seconds : Q;
  targets : list Target;
  buckets : list (bucket_key * (TokenBucket * Q));
  round_robin : list (string * nat)
}.

Definition set_targets (g : gateway) (ts : list Target) : gateway :=
  {| routes := routes g; max_buckets := max_buckets g; idle_seconds := idle_seconds g;
     targets := ts; buckets := buckets g; round_robin := round_robin g |}.
Definition set_buckets (g : gateway) (bs : list (bucket_key * (TokenBucket * Q))) : gateway :=
  {| routes := routes g; max_buckets := max_buckets g; idle_seconds := idle_seconds g;
     targets := targets g; buckets := bs; round_robin := round_robin g |}.
Definition set_round_robin (g : gateway) (rr : list (string * nat)) : gateway :=
  {| routes := routes g; max_buckets := max_buckets g; idle_seconds := idle_seconds g;
     targets := targets g; buckets := buckets g; round_robin := rr |}.

Definition authorized (r : GatewayRoute) (c : Caller) : bool :=
  match allowed_tenants r with
  | None => true
  | Some l => match tenant c with Some t => memb t l | None => false end
  end.

(** [caller.tenant or caller.subject] *)
Definition caller_name (c : Caller) : string := opt_or (tenant c) (subject c).

(** [min(items, key=last used)]: the first of the least recently used. *)
Fixpoint oldest (bs : list (bucket_key * (TokenBucket * Q))) : option (bucket_key * Q) :=
  match bs with
  | [] => None
  | (k, (_, used)) :: bs =>
      match oldest bs with
      | Some (k', used') => if (used <=? used')%clock then Some (k, used) else Some (k', used')
      | None => Some (k, used)
      end
  end.

(** The [while] loop; each turn deletes one bucket. *)
Fixpoint evict_lru (fuel limit : nat) (bs : list (bucket_key * (TokenBucket * Q))) :=
  match fuel with
  | 0 => bs
  | S fuel =>
      if Nat.leb limit (length bs) then
        match oldest bs with
        | Some (k, _) => evict_lru fuel limit (dpop k bs)
        | None => bs
        end
      else bs
  end.

Definition evict_buckets (g : gateway) (now : Q) : gateway :=
  if Nat.ltb (length (buckets g)) (max_buckets g) then g
  else
    let bs := filterb (fun kb => negb (kb.2.2 <=? now - idle_seconds g)%clock) (buckets g) in
    set_buckets g (evict_lru (length bs) (max_buckets g) bs).

Definition rate_limit (g : gateway) (r : GatewayRoute) (c : Caller) (now : Q) : bool * gateway :=
  let k := (route_agent r, caller_name c) in
  let '(b, g) :=
    match dget k (buckets g) with
    | None => (new_bucket (rate_limit_per_minute r) now, evict_buckets g now)
    | Some (b, _) => (b, g)
    end in
  let '(ok, b) := try_take b now in
  (ok, set_buckets g (dset k (b, now) (buckets g))).

Definition update_target (g : gateway) (i : nat) (f : Target -> Target) : gateway :=
  set_targets g (alter f i (targets g)).

(** [[t for t in route.targets if t.available()]]: the check may close circuits. *)
Fixpoint available_targets (idx : list nat) (now : Q) (ts : list Target) : list nat * list Target :=
  match idx with
  | [] => ([], ts)
  | i :: idx =>
      match ts !! i with
      | None => available_targets idx now ts
      | Some t =>
          let '(ok, t) := available t now in
          let '(l, ts) := available_targets idx now (<[i := t]> ts) in
          (if ok : bool then i :: l else l, ts)
      end
  end.

Definition select_targets (g : gateway) (r : GatewayRoute) (now : Q) : list nat * gateway :=
  let '(l, ts) := available_targets (route_targets r) now (targets g) in
  let g := set_targets g ts in
  match l with
  | [] => ([], g)
  | _ =>
      let start := default 0 (dget (route_agent r) (round_robin g)) mod (length l) in
      ((drop start l ++ take start l)%list,
       set_round_robin g (dset (route_agent r) (S start) (round_robin g)))
  end.

(** ** Forwarding *)

Record request : Type := {
  method : string;
  agent : string;
  headers : list (string * string);
  body_length : nat;
  wants_stream : bool
}.

Definition HOP_BY_HOP : list string :=
  ["connection"; "keep-alive"; "proxy-authenticate"; "proxy-authorization"; "te"; "trailers";
   "transfer-encoding"; "upgrade"; "host"; "content-length"].
Definition MAX_BODY_BYTES : nat := Nat.mul 10 (Nat.mul 1024 1024).

Definition forwarded_headers (hs : list (string * string)) : list (string * string) :=
  filterb (fun kv => negb (memb (py_lower kv.1) HOP_BY_HOP)) hs.

Definition retryable (r : request) : bool :=
  String.eqb (method r) "GET" || String.eqb (method r) "HEAD" ||
  dmem "idempotency-key" (forwarded_headers (headers r)).

(** What calling a target does: an answer whose body can be read, the head of an
    answer whose body breaks off (an [httpx.HTTPError] when it is read), an
    [httpx.HTTPError] before there is an answer, or any other exception then (a
    cancelled request, for one). *)
Inductive upstream : Type :=
  | Answered (status : Z) (content : string)
  | Truncated (status : Z)
  | HTTPError
  | Interrupted.

(** A plain request reads the body inside [client.request], so that a body that
    breaks off is its [httpx.HTTPError]; a streamed one has its answer before. *)
Definition seen (stream : bool) (u : upstream) : upstream :=
  match u with Truncated _ => if stream then u else HTTPError | _ => u end.

Inductive response : Type :=
  | Response (status : Z) (content : string)
  | Streaming (target : nat) (status : Z)   (** body still open, slot held *)
  | Raises.

Section forward.
(** The upstream's answer to the [n]-th call of this forward, and the time
    at each reading. *)
Context (call : nat -> upstream) (time : nat -> Q).

(** The call to target [i], whose slot is taken, and what follows; [next] makes
    the remaining attempts. *)
Definition after_call (next : nat -> Z * string -> gateway -> response * list nat * gateway)
    (stream : bool) (n : nat) (last : Z * string) (i : nat) (g : gateway)
  : response * list nat * gateway :=
  match seen stream (call n) with
  | Interrupted =>
      (* the plain path releases in [finally]; the streaming path only handles
         [httpx.HTTPError] *)
      (Raises, [i], if stream then g else update_target g i release_slot)
  | HTTPError =>
      let g := update_target g i (fun t => release_slot (record_failure t (time (S n)))) in
      let '(r, l, g) := next (S n) last g in (r, i :: l, g)
  | Truncated status =>
      (* [aread] of a 5xx answer raises past the handler: the slot is released and
         no failure is recorded; the body of any other answer is read later *)
      if (500 <=? status)%Z then (Raises, [i], update_target g i release_slot) else (Streaming i status, [i], g)
  | Answered status content =>
      if (500 <=? status)%Z then
        let g := update_target g i (fun t => record_failure (release_slot t) (time (S n))) in
        let '(r, l, g) := next (S n) (status, content) g in (r, i :: l, g)
      else if stream then (Streaming i status, [i], g)
      else (Response status content, [i],
            update_target g i (fun t => record_success (release_slot t)))
  end.

(** The attempts; [n] calls were made so far. *)
Fixpoint attempt (idx : list nat) (stream : bool) (n : nat) (last : Z * string) (g : gateway)
  : response * list nat * gateway :=
  match idx with
  | [] => (Response last.1 last.2, [], g)
  | i :: idx =>
      match targets g !! i with
      | None => attempt idx stream n last g
      | Some t =>
          let '(ok, t) := available t (time n) in
          let g := set_targets g (<[i := t]> (targets g)) in
          if negb ok then attempt idx stream n last g
          else
            let '(got, t) := try_acquire t in
            let g := set_targets g (<[i := t]> (targets g)) in
            if negb got then attempt idx stream n last g
            else after_call (attempt idx stream) stream n last i g
      end
  end.

(** [forward], and the targets it called. *)
Definition forward (g : gateway) (r : request) (c : Caller) : response * list nat * gateway :=
  match dget (agent r) (routes g) with
  | None => (Response 404 ("no route for agent " ++ quoted (agent r)), [], g)
  | Some route =>
      if negb (authorized route c)
      then (Response 403 ("tenant " ++ quoted (default "None" (tenant c)) ++ " may not call " ++
                          quoted (route_agent route)), [], g)
      else
        let '(ok, g) := rate_limit g route c (time 0) in
        if negb ok then (Response 429 "rate limit exceeded", [], g)
        else
          let '(ts, g) := select_targets g route (time 0) in
          match ts with
          | [] => (Response 503 ("no healthy target for " ++ quoted (agent r)), [], g)
          | _ =>
              if Nat.ltb MAX_BODY_BYTES (body_length r)
              then (Response 413 "request body too large", [], g)
              else
                let attempts := if retryable r then ts else take 1 ts in
                attempt attempts (wants_stream r) 0 (503%Z, "no upstream accepted the call") g
          end
  end.

(** The end of a streamed body: completed, an [httpx.HTTPError], or closed
    early by the client. *)
Inductive stream_end : Type := Completed | Broken | Closed.

Definition end_stream (g : gateway) (i : nat) (e : stream_end) (now : Q) : gateway :=
  update_target g i (fun t =>
    release_slot (match e with
                  | Completed => record_success t
                  | Broken => record_failure t now
                  | Closed => t
                  end)).
End forward.

(** [authenticate] of [StaticTokenAuthenticator], and the edge check. *)
Definition static_authenticate (granted : list (string * Caller)) (scheme token : string) : option Caller :=
  if negb (String.eqb (py_lower scheme) "bearer") || negb (str_truthy token) then None
  else dget token granted.

(** ** Attempts *)

Definition failed (u : upstream) : bool :=
  match u with Answered s _ => (500 <=? s)%Z | HTTPError | Truncated _ => true | Interrupted => false end.

(** The one outcome that leaves the slot of a streamed request taken. *)
Definition leaks (stream : bool) (u : upstream) : bool :=
  stream && match u with Interrupted => true | _ => false end.

(** Slots in use, target by target. *)
Definition slots (g : gateway) : list nat := in_use <$> targets g.

Definition bulkheads_ok (g : gateway) : Prop := Forall (fun t => in_use t <= max_concurrency t) (targets g).

Lemma available_slots t now : in_use (available t now).2 = in_use t /\
  max_concurrency (available t now).2 = max_concurrency t.
Proof. unfold available. by repeat case_match. Qed.

Lemma slots_insert g i t t0 :
  targets g !! i = Some t0 -> in_use t = in_use t0 -> slots (set_targets g (<[i := t]> (targets g))) = slots g.
Proof.
  intros Hi Hu. unfold slots. cbn. rewrite list_fmap_insert, Hu. apply list_insert_id.
  by rewrite list_lookup_fmap, Hi.
Qed.

Lemma bulkheads_insert g i t :
  bulkheads_ok g -> in_use t <= max_concurrency t -> bulkheads_ok (set_targets g (<[i := t]> (targets g))).
Proof. intros Hg Ht. by apply Forall_insert. Qed.

(** Releasing after acquiring gives the slot back, whatever the breaker did. *)
Lemma slots_released g i t f :
  targets g !! i = Some t -> (forall x, in_use (f x) = pred (in_use x)) ->
  slots (update_target (set_targets g (<[i := with_slots t (S (in_use t))]> (targets g))) i f) = slots g.
Proof.
  intros Hi Hf. unfold slots, update_target. cbn. apply list_eq. intros j. rewrite !list_lookup_fmap.
  destruct (decide (i = j)) as [->|Hne].
  - rewrite list_lookup_alter_eq, list_lookup_insert_eq by (by eapply lookup_lt_Some). cbn.
    by rewrite Hi, Hf.
  - by rewrite list_lookup_alter_ne, list_lookup_insert_ne.
Qed.

Lemma slots_acquired g i t :
  targets g !! i = Some t ->
  slots (set_targets g (<[i := with_slots t (S (in_use t))]> (targets g))) = alter S i (slots g).
Proof.
  intros Hi. unfold slots. cbn. apply list_eq. intros j. rewrite list_lookup_fmap.
  destruct (decide (i = j)) as [->|Hne].
  - rewrite list_lookup_alter_eq, list_lookup_insert_eq by (by eapply lookup_lt_Some).
    by rewrite list_lookup_fmap, Hi.
  - by rewrite list_lookup_alter_ne, list_lookup_insert_ne, list_lookup_fmap.
Qed.

Lemma bulkheads_alter g i f :
  bulkheads_ok g -> (forall x, in_use (f x) <= in_use x /\ max_concurrency (f x) = max_concurrency x) ->
  bulkheads_ok (update_target g i f).
Proof.
  intros Hg Hf. unfold bulkheads_ok. cbn. apply Forall_alter; [done|]. intros x _ Hx.
  destruct (Hf x) as [Hle ->]. lia.
Qed.

Section attempts.
Context (call : nat -> upstream) (time : nat -> Q).

(** What a run of attempts guarantees. *)
Definition attempt_spec (idx : list nat) (stream : bool) (n : nat) (g : gateway)
    (r : response) (l : list nat) (g' : gateway) : Prop :=
  l `sublist_of` idx /\
  (forall k, S k < length l -> failed (call (n + k)) = true) /\
  (bulkheads_ok g -> bulkheads_ok g') /\
  match r with
  | Response _ _ => slots g' = slots g
  | Streaming i _ => stream = true /\ slots g' = alter S i (slots g)
  | Raises => exists i, last l = Some i /\
      slots g' = if leaks stream (call (n + pred (length l))) then alter S i (slots g) else slots g
  end.

Lemma attempt_skips i idx stream n g g0 r l g' :
  slots g0 = slots g -> (bulkheads_ok g -> bulkheads_ok g0) ->
  attempt_spec idx stream n g0 r l g' -> attempt_spec (i :: idx) stream n g r l g'.
Proof.
  intros Hs Hb (Hl & Hf & Hbb & Hr). rewrite Hs in Hr.
  split_and!; [by constructor|done|by auto|done].
Qed.

Lemma attempt_fails i idx stream n g g0 r l g' :
  slots g0 = slots g -> (bulkheads_ok g -> bulkheads_ok g0) -> failed (call n) = true ->
  attempt_spec idx stream (S n) g0 r l g' -> attempt_spec (i :: idx) stream n g r (i :: l) g'.
Proof.
  intros Hs Hb Hcall (Hl & Hf & Hbb & Hr). rewrite Hs in Hr. split_and!.
  - by constructor.
  - intros [|k] Hk; [by rewrite Nat.add_0_r|]. rewrite <-Nat.add_succ_comm. apply Hf. cbn in Hk. lia.
  - by auto.
  - destruct r as [| |]; [done|done|]. destruct Hr as (j & Hj & Hr). exists j. split; [by rewrite last_cons, Hj|].
    destruct l as [|i0 l]; [done|]. cbn [length pred] in *. by rewrite <-Nat.add_succ_comm.
Qed.

(** The call to target [i] that holds a slot: what follows from its outcome. *)
Lemma attempt_calls i idx stream n lst g g1 t r l g' :
  slots g1 = slots g -> (bulkheads_ok g -> bulkheads_ok g1) -> targets g1 !! i = Some t ->
  in_use t < max_concurrency t ->
  (forall m lst g r l g', attempt call time idx stream m lst g = (r, l, g') -> attempt_spec idx stream m g r l g') ->
  let g2 := set_targets g1 (<[i := with_slots t (S (in_use t))]> (targets g1)) in
  after_call call time (attempt call time idx stream) stream n lst i g2 = (r, l, g') -> attempt_spec (i :: idx) stream n g r l g'.
Proof.
  intros Hs1 Hb1 Hi1 Hroom IH g2.
  assert (Hb2 : bulkheads_ok g -> bulkheads_ok g2) by (intros Hg; apply bulkheads_insert; [by apply Hb1|done]).
  assert (Hs2 : slots g2 = alter S i (slots g)) by (rewrite <-Hs1; by apply slots_acquired).
  assert (Hrel : forall f, (forall x, in_use (f x) = pred (in_use x) /\ max_concurrency (f x) = max_concurrency x) ->
            slots (update_target g2 i f) = slots g /\ (bulkheads_ok g -> bulkheads_ok (update_target g2 i f))).
  { intros f Hf. split; [rewrite <-Hs1; apply slots_released; [done|]; intros x; apply Hf|].
    intros Hg. apply bulkheads_alter; [by apply Hb2|]. intros x. destruct (Hf x). split; [lia|done]. }
  clearbody g2. unfold after_call.
  assert (Hseen : failed (seen stream (call n)) = true -> failed (call n) = true) by (by destruct (call n), stream).
  destruct (seen stream (call n)) as [status content|status| |] eqn:Hcall; [destruct (500 <=? status)%Z eqn:H500|..].
  - destruct (attempt _ _ _ _ _ _ _) as [[r1 l1] g1'] eqn:Hrec. intros Ha. simplify_eq.
    destruct (Hrel (fun t => record_failure (release_slot t) (time (S n)))) as [H1 H2]; [done|].
    eapply attempt_fails; [exact H1|exact H2|by apply Hseen|by eapply IH].
  - destruct (Hrel (fun t => record_success (release_slot t))) as [H1 H2]; [done|].
    destruct stream; intros Ha; injection Ha as <- <- <-;
      (split; [apply sublist_skip, sublist_nil_l|split; [cbn; lia|done]]).
  - destruct (call n) as [|s| |] eqn:Hc, stream; try discriminate Hcall. destruct (Hrel release_slot) as [H1 H2]; [done|].
    destruct (500 <=? status)%Z; intros Ha; injection Ha as <- <- <-;
      (split; [apply sublist_skip, sublist_nil_l|split; [cbn; lia|split; [done|]]]); [|done].
    exists i. split; [done|]. cbn [length pred]. by rewrite Nat.add_0_r, Hc.
  - destruct (attempt _ _ _ _ _ _ _) as [[r1 l1] g1'] eqn:Hrec. intros Ha. simplify_eq.
    destruct (Hrel (fun t => release_slot (record_failure t (time (S n))))) as [H1 H2]; [done|].
    eapply attempt_fails; [exact H1|exact H2|by apply Hseen|by eapply IH].
  - destruct (Hrel release_slot) as [H1 H2]; [done|]. intros Ha. injection Ha as <- <- <-.
    split_and!; [apply sublist_skip, sublist_nil_l|cbn; lia|by destruct stream|].
    exists i. split; [done|]. cbn [length pred]. rewrite Nat.add_0_r.
    destruct (call n) as [|s| |], stream; try discriminate Hcall; done.
Qed.

Lemma attempt_ok idx stream n lst g r l g' :
  attempt call time idx stream n lst g = (r, l, g') -> attempt_spec idx stream n g r l g'.
Proof.
  revert n lst g r l g'. induction idx as [|i idx IH]; intros n lst g r l g' Ha; cbn [attempt] in Ha.
  { simplify_eq. split_and!; [done|cbn; lia|done|done]. }
  destruct (targets g !! i) as [t0|] eqn:Hi; [|by eapply attempt_skips; [..|eapply IH]].
  destruct (available_slots t0 (time n)) as [Hu Hm].
  destruct (available t0 (time n)) as [ok t]. cbn in Hu, Hm.
  set (g1 := set_targets g (<[i := t]> (targets g))) in *.
  assert (Hs1 : slots g1 = slots g) by (by eapply slots_insert).
  assert (Hb1 : bulkheads_ok g -> bulkheads_ok g1).
  { intros Hg. apply bulkheads_insert; [done|]. rewrite Hu, Hm.
    by apply (Forall_lookup_1 _ _ _ _ Hg Hi). }
  destruct ok; cbn [negb] in Ha; [|by eapply attempt_skips; [exact Hs1|exact Hb1|eapply IH]].
  assert (Hi1 : targets g1 !! i = Some t)
    by (cbn; rewrite list_lookup_insert_eq; [done|by eapply lookup_lt_Some]).
  unfold try_acquire in Ha. destruct (Nat.leb_spec (max_concurrency t) (in_use t)) as [Hfull|Hroom];
    cbn [negb] in Ha.
  - eapply (attempt_skips i idx stream n g (set_targets g1 (<[i := t]> (targets g1)))); [..|by eapply IH].
    + by rewrite (slots_insert g1 i t t).
    + intros Hg. apply bulkheads_insert; [by apply Hb1|].
      by apply (Forall_lookup_1 _ _ _ _ (Hb1 Hg) Hi1).
  - by eapply attempt_calls.
Qed.
End attempts.

(** ** Before the attempts *)

Lemma available_targets_spec idx now ts l ts' :
  available_targets idx now ts = (l, ts') ->
  l `sublist_of` idx /\ in_use <$> ts' = in_use <$> ts /\
  (Forall (fun t => in_use t <= max_concurrency t) ts -> Forall (fun t => in_use t <= max_concurrency t) ts').
Proof.
  revert ts l ts'. induction idx as [|i idx IH]; intros ts l ts' Ha; cbn in Ha; [by simplify_eq|].
  destruct (ts !! i) as [t|] eqn:Hi.
  - destruct (available_slots t now) as [Hu Hm]. destruct (available t now) as [ok t']. cbn in Hu, Hm.
    destruct (available_targets idx now (<[i := t']> ts)) as [l0 ts0] eqn:Hrec. simplify_eq.
    apply IH in Hrec as (Hl & Hs & Hb). split_and!.
    + destruct ok; by constructor.
    + rewrite Hs, list_fmap_insert, Hu. apply list_insert_id. by rewrite list_lookup_fmap, Hi.
    + intros Hf. apply Hb, Forall_insert; [done|]. rewrite Hu, Hm. by apply (Forall_lookup_1 _ _ _ _ Hf Hi).
  - apply IH in Ha as (Hl & ? & ?). split_and!; [by constructor|done|done].
Qed.

Lemma select_targets_spec g r now l g' :
  select_targets g r now = (l, g') ->
  (forall i, i ∈ l -> i ∈ route_targets r) /\ (NoDup (route_targets r) -> NoDup l) /\
  slots g' = slots g /\ (bulkheads_ok g -> bulkheads_ok g') /\ routes g' = routes g.
Proof.
  unfold select_targets. destruct (available_targets _ _ _) as [l0 ts] eqn:Ha. intros Hs.
  apply available_targets_spec in Ha as (Hl & Hu & Hb).
  destruct l0 as [|i0 l1]; [simplify_eq; split_and!; try done; [by inversion 1|constructor]|].
  set (n := _ mod _) in Hs. injection Hs as <- <-.
  change (drop n (i0 :: l1) ++ take n (i0 :: l1))%list with (drop n (i0 :: l1) ++ take n (i0 :: l1))%list.
  set (all := i0 :: l1) in *. clearbody all n.
  assert (Hperm : (drop n all ++ take n all)%list ≡ₚ all).
  { rewrite Permutation_app_comm. by rewrite take_drop. }
  split_and!; try done.
  - intros i Hi. rewrite Hperm in Hi. by eapply elem_of_sublist.
  - intros Hnd. rewrite Hperm. by eapply sublist_NoDup.
Qed.

Lemma evict_lru_length fuel limit bs :
  length bs <= fuel -> 0 < limit -> length (evict_lru fuel limit bs) < limit.
Proof.
  assert (Hold : forall l : list (bucket_key * (TokenBucket * Q)), l <> [] ->
            exists k u, oldest l = Some (k, u) /\ k ∈ dkeys l).
  { induction l as [|[k [b u]] l IH]; [done|]. intros _. cbn. destruct l as [|e l].
    - exists k, u. split; [done|left].
    - destruct IH as (k' & u' & -> & Hin); [done|]. destruct (u <=? u')%clock; eexists _, _;
        (split; [done|]); [left|by right]. }
  revert bs. induction fuel as [|fuel IH]; intros bs Hf Hl; cbn; [lia|].
  destruct (Nat.leb_spec limit (length bs)) as [Hle|]; [|done].
  destruct (Hold bs) as (k & u & -> & Hin); [by intros ->; cbn in Hle; lia|].
  apply IH; [|done]. enough (length (dpop k bs) < length bs) by lia.
  unfold dkeys in Hin. apply list_elem_of_fmap in Hin as ([k0 v] & -> & Hin).
  apply list_elem_of_split in Hin as (l1 & l2 & ->). unfold dpop, key_ne. rewrite List.filter_app. cbn.
  rewrite decide_True by done. rewrite !length_app. cbn.
  pose proof (List.filter_length_le (fun e : bucket_key * (TokenBucket * Q) => if decide (e.1 = k0) then false else true) l1).
  pose proof (List.filter_length_le (fun e : bucket_key * (TokenBucket * Q) => if decide (e.1 = k0) then false else true) l2).
  lia.
Qed.

Lemma rate_limit_length g r c now :
  0 < max_buckets g -> length (buckets g) <= max_buckets g ->
  length (buckets (rate_limit g r c now).2) <= max_buckets g.
Proof.
  intros Hm Hl. unfold rate_limit.
  destruct (dget (route_agent r, caller_name c) (buckets g)) as [[b u]|] eqn:Hd.
  - destruct (try_take b now) as [ok b']. cbn. rewrite length_dset, Hd. done.
  - destruct (try_take _ now) as [ok b']. cbn. rewrite length_dset.
    assert (Hev : length (buckets (evict_buckets g now)) < max_buckets g).
    { unfold evict_buckets. destruct (Nat.ltb_spec (length (buckets g)) (max_buckets g)); [done|]. cbn.
      by apply evict_lru_length. }
    case_match; lia.
Qed.

Lemma rate_limit_frame g r c now :
  targets (rate_limit g r c now).2 = targets g /\ routes (rate_limit g r c now).2 = routes g.
Proof.
  unfold rate_limit, evict_buckets.
  destruct (dget _ (buckets g)) as [[b u]|]; [by destruct (try_take b now)|].
  destruct (try_take _ now). by destruct (Nat.ltb _ _).
Qed.

(** What a forward does to the targets, from what its attempts do. *)
Lemma forward_spec call time g r c resp l g' :
  forward call time g r c = (resp, l, g') ->
  (retryable r = false -> length l <= 1) /\
  (forall route, dget (agent r) (routes g) = Some route ->
     (forall i, i ∈ l -> i ∈ route_targets route) /\ (NoDup (route_targets route) -> NoDup l)) /\
  (forall k, S k < length l -> failed (call k) = true) /\
  (bulkheads_ok g -> bulkheads_ok g') /\
  match resp with
  | Response _ _ => slots g' = slots g
  | Streaming i _ => wants_stream r = true /\ slots g' = alter S i (slots g)
  | Raises => exists i, last l = Some i /\
      slots g' = if leaks (wants_stream r) (call (pred (length l))) then alter S i (slots g) else slots g
  end.
Proof.
  unfold forward. destruct (dget (agent r) (routes g)) as [route|] eqn:Hroute.
  2: { intros Hf. simplify_eq. split_and!; try done; cbn; lia. }
  assert (Hnone : forall s m g0, targets g0 = targets g -> (Response s m, @nil nat, g0) = (resp, l, g') ->
    (retryable r = false -> length l <= 1) /\
    (forall route0, Some route = Some route0 ->
       (forall i, i ∈ l -> i ∈ route_targets route0) /\ (NoDup (route_targets route0) -> NoDup l)) /\
    (forall k, S k < length l -> failed (call k) = true) /\ (bulkheads_ok g -> bulkheads_ok g') /\
    match resp with
    | Response _ _ => slots g' = slots g
    | Streaming i _ => wants_stream r = true /\ slots g' = alter S i (slots g)
    | Raises => exists i, last l = Some i /\
        slots g' = if leaks (wants_stream r) (call (pred (length l))) then alter S i (slots g) else slots g
    end).
  { intros s m g0 Ht Heq. simplify_eq. unfold bulkheads_ok, slots. rewrite Ht.
    split_and!; try done; cbn; [lia| |lia]. intros route0 _. split; [by inversion 1|constructor]. }
  destruct (authorized route c); cbn [negb]; [|by apply Hnone].
  pose proof (rate_limit_frame g route c (time 0)) as [Hrt _].
  destruct (rate_limit g route c (time 0)) as [ok g1]. cbn in Hrt.
  destruct ok; cbn [negb]; [|by apply Hnone].
  destruct (select_targets g1 route (time 0)) as [ts g2] eqn:Hsel.
  apply select_targets_spec in Hsel as (Hin & Hnd & Hs & Hb & _).
  assert (Hs2 : slots g2 = slots g) by (rewrite Hs; unfold slots; by rewrite Hrt).
  assert (Hb2 : bulkheads_ok g -> bulkheads_ok g2)
    by (intros Hg; apply Hb; unfold bulkheads_ok; by rewrite Hrt).
  destruct ts as [|t0 ts0].
  { intros Hf. simplify_eq. split_and!; try done; cbn; [lia| |lia].
    intros route0 _. split; [by inversion 1|constructor]. }
  destruct (Nat.ltb _ _).
  { intros Hf. simplify_eq. split_and!; try done; cbn; [lia| |lia].
    intros route0 _. split; [by inversion 1|constructor]. }
  set (ts := t0 :: ts0) in *. clearbody ts.
  intros Ha. apply attempt_ok in Ha as (Hl & Hf & Hbb & Hr). rewrite Hs2 in Hr.
  assert (Hsub : l `sublist_of` ts).
  { destruct (retryable r); [done|]. etrans; [exact Hl|]. apply sublist_take. }
  split_and!; [| |done|by auto|done].
  - intros Hre. rewrite Hre in Hl. apply sublist_length in Hl. rewrite length_take in Hl. lia.
  - intros route0 [= <-]. split.
    + intros i Hi. apply Hin. by eapply elem_of_sublist.
    + intros Hrn. eapply sublist_NoDup; [by apply Hnd|done].
Qed.

(** C31: The gateway never replays an unsafe request.  A request that is
    neither a GET or HEAD nor carries an idempotency key is sent to at most one
    target; any request goes only to targets of its route, to none of them
    twice, and to a further target only after the one before it failed (an
    HTTP error or a 5xx answer). *)
Theorem unsafe_request_sent_once call time g r c resp l g' route :
  forward call time g r c = (resp, l, g') ->
  dget (agent r) (routes g) = Some route -> NoDup (route_targets route) ->
  (retryable r = false -> length l <= 1) /\
  (forall i, i ∈ l -> i ∈ route_targets route) /\ NoDup l /\
  (forall k, S k < length l -> failed (call k) = true).
Proof.
  intros Hf Hroute Hnd. apply forward_spec in Hf as (H1 & H2 & H3 & _).
  destruct (H2 route Hroute). split_and!; auto.
Qed.

(** C32: Bulkheads hold and give back.  No call ever takes a target beyond its
    concurrency cap, a plain request leaves the slots of every target as they
    were however it ends, also when it is interrupted, and a streamed answer
    holds exactly one slot of its target until the end of the stream gives it
    back. *)
Theorem bulkheads_balanced call time g r c resp l g' e now :
  forward call time g r c = (resp, l, g') ->
  (bulkheads_ok g -> bulkheads_ok g') /\
  (wants_stream r = false -> slots g' = slots g) /\
  (forall i s, resp = Streaming i s -> slots (end_stream g' i e now) = slots g).
Proof.
  intros Hf. apply forward_spec in Hf as (_ & _ & _ & Hb & Hr). split_and!; [done| |].
  - intros Hw. destruct resp as [| |]; [done|destruct Hr; congruence|].
    destruct Hr as (i & _ & Hr). by rewrite Hw in Hr.
  - intros i st ->. destruct Hr as [_ Hr]. unfold slots, end_stream, update_target in *. cbn.
    apply list_eq. intros j. assert (Hj : (in_use <$> targets g') !! j = alter S i (in_use <$> targets g) !! j)
      by (by rewrite Hr).
    clear Hr. rewrite !list_lookup_fmap. rewrite list_lookup_fmap in Hj.
    destruct (decide (i = j)) as [->|Hne].
    + rewrite list_lookup_alter_eq. rewrite list_lookup_alter_eq, list_lookup_fmap in Hj.
      destruct (targets g' !! j) as [t|], (targets g !! j) as [t0|]; cbn in *; try done.
      injection Hj as Hj. f_equal. destruct e; cbn; rewrite Hj; done.
    + rewrite list_lookup_alter_ne by done. by rewrite list_lookup_alter_ne, list_lookup_fmap in Hj.
Qed.

(** An interrupted streaming request keeps its slot for ever.  If opening
    the upstream stream ends in anything but an HTTP error (the caller goes
    away, for one), the slot of the contacted target is not released and
    nothing else will release it: the target's capacity shrinks by one.  A request
    that raises for another reason (the body of a 5xx answer breaks off) gives the
    slot back. *)
Theorem interrupted_stream_leaks_slot call time g r c l g' :
  forward call time g r c = (Raises, l, g') -> wants_stream r = true ->
  exists i, last l = Some i /\
    (call (pred (length l)) = Interrupted -> slots g' = alter S i (slots g)) /\
    (call (pred (length l)) <> Interrupted -> slots g' = slots g).
Proof.
  intros Hf Hw. apply forward_spec in Hf as (_ & _ & _ & _ & i & Hl & Hs). rewrite Hw in Hs. exists i. split; [done|].
  split; [by intros Hc; rewrite Hc in Hs|]. intros Hc. by destruct (call (pred (length l))).
Qed.

(** ** The rate limit *)

Fixpoint take_all (b : TokenBucket) (times : list Q) : nat * TokenBucket :=
  match times with
  | [] => (0, b)
  | t :: times =>
      let '(ok, b) := try_take b t in
      let '(n, b) := take_all b times in
      ((if ok : bool then 1 else 0) + n, b)
  end.

Definition bucket_ok (b : TokenBucket) : Prop := (0 <= tokens b <= capacity b)%Q.

Lemma refilled_bounds b now :
  bucket_ok b -> (updated b <= now)%Q ->
  (0 <= refilled b now <= capacity b)%Q /\
  (refilled b now <= tokens b + (now - updated b) * (capacity b / 60))%Q.
Proof.
  intros [H0 H1] Hu. unfold refilled.
  assert (Hrate : (0 <= capacity b / 60)%Q) by (apply Qle_shift_div_l; lra).
  assert (Hgain : (0 <= (now - updated b) * (capacity b / 60))%Q) by (apply Qmult_le_0_compat; lra).
  split; [split|].
  - apply Q.min_glb; lra.
  - apply Q.le_min_l.
  - apply Q.le_min_r.
Qed.

Lemma try_take_spec b now :
  bucket_ok b -> (updated b <= now)%Q ->
  let '(ok, b') := try_take b now in
  bucket_ok b' /\ capacity b' = capacity b /\ updated b' = now /\
  ((if ok then 1 else 0) + tokens b' <= tokens b + (now - updated b) * (capacity b / 60))%Q.
Proof.
  intros Hb Hu. destruct (refilled_bounds b now Hb Hu) as [[H0 H1] H2]. unfold try_take, bucket_ok.
  destruct (1 <=? refilled b now)%clock eqn:E; cbn; clock_prop; split_and!; (done || lra).
Qed.

Lemma last_default {A} (x : A) l d d' : List.last (x :: l) d = List.last (x :: l) d'.
Proof. revert x. induction l as [|y l IH]; intros x; [done|]. exact (IH y). Qed.

Lemma take_all_spec b times :
  bucket_ok b -> ascending (updated b) times ->
  let '(n, b') := take_all b times in
  bucket_ok b' /\ capacity b' = capacity b /\
  (inject_Z (Z.of_nat n) + tokens b' <= tokens b + (updated b' - updated b) * (capacity b / 60))%Q /\
  updated b' = List.last times (updated b).
Proof.
  revert b. induction times as [|t times IH]; intros b Hb Ha; cbn.
  - split_and!; [done|done| |done]. change (inject_Z (Z.of_nat 0)) with 0%Q. lra.
  - destruct Ha as [Ht Ha]. pose proof (try_take_spec b t Hb Ht) as Hs.
    destruct (try_take b t) as [ok b1]. destruct Hs as (Hb1 & Hc1 & Hu1 & Hle1).
    rewrite <-Hu1 in Ha. specialize (IH b1 Hb1 Ha).
    destruct (take_all b1 times) as [n b2]. destruct IH as (Hb2 & Hc2 & Hle2 & Hu2).
    split_and!; [done|congruence| |].
    + rewrite Nat2Z.inj_add, inject_Z_plus. rewrite Hc1, Hu1 in Hle2.
      assert (Hok : (inject_Z (Z.of_nat (if ok then 1 else 0)) == (if ok then 1 else 0))%Q)
        by (destruct ok; reflexivity).
      rewrite Hok.
      assert (Hsplit : ((updated b2 - updated b) * (capacity b / 60) ==
                        (t - updated b) * (capacity b / 60) + (updated b2 - t) * (capacity b / 60))%Q) by ring.
      rewrite Hsplit. lra.
    + rewrite Hu2, Hu1. destruct times as [|t' times]; [done|]. apply last_default.
Qed.

(** The rate limit bounds every window.  Whatever the times of the calls,
    a caller's bucket admits, from any moment on, at most its capacity (the
    per-minute limit) plus the tokens that the elapsed time is worth; the
    tokens stay between zero and the capacity. *)
Theorem rate_limit_bounds_window b times :
  bucket_ok b -> ascending (updated b) times ->
  let '(n, b') := take_all b times in
  (inject_Z (Z.of_nat n) <= capacity b + (List.last times (updated b) - updated b) * (capacity b / 60))%Q /\
  bucket_ok b'.
Proof.
  intros Hb Ha. pose proof (take_all_spec b times Hb Ha) as Hs.
  destruct (take_all b times) as [n b']. destruct Hs as (Hb' & _ & Hle & Hu). split; [|done].
  rewrite <-Hu. destruct Hb as [_ Hcap], Hb' as [Hpos _]. lra.
Qed.

Lemma attempt_buckets call time idx stream n lst g :
  buckets (attempt call time idx stream n lst g).2 = buckets g /\
  max_buckets (attempt call time idx stream n lst g).2 = max_buckets g.
Proof.
  revert n lst g. induction idx as [|i idx IH]; intros n lst g; cbn [attempt]; [done|].
  assert (Hrec : forall m x g0, buckets g0 = buckets g -> max_buckets g0 = max_buckets g ->
    buckets (attempt call time idx stream m x g0).2 = buckets g /\
    max_buckets (attempt call time idx stream m x g0).2 = max_buckets g).
  { intros m x g0 <- <-. apply IH. }
  destruct (targets g !! i) as [t|]; [|by apply Hrec]. destruct (available t (time n)) as [ok t'].
  destruct ok; cbn [negb]; [|by apply Hrec].
  destruct (try_acquire t') as [got t'']. destruct got; cbn [negb]; [|by apply Hrec].
  unfold after_call. destruct (seen stream (call n)) as [status content|status| |];
    [destruct (500 <=? status)%Z; [|by destruct stream]|by destruct (500 <=? status)%Z| |by destruct stream];
    match goal with |- context [attempt call time idx stream ?m ?x ?g0] =>
      specialize (Hrec m x g0 eq_refl eq_refl); by destruct (attempt call time idx stream m x g0) as [[r l] g'] end.
Qed.

(** A request touches the bucket table only through its rate-limit check. *)
Lemma forward_buckets call time g r c :
  let g' := (forward call time g r c).2 in
  max_buckets g' = max_buckets g /\
  (buckets g' = buckets g \/ exists route, buckets g' = buckets (rate_limit g route c (time 0)).2).
Proof.
  cbn zeta. unfold forward. destruct (dget (agent r) (routes g)) as [route|]; [|by auto].
  destruct (authorized route c); cbn [negb]; [|by auto].
  assert (Hmax : max_buckets (rate_limit g route c (time 0)).2 = max_buckets g).
  { unfold rate_limit, evict_buckets. destruct (dget _ (buckets g)) as [[b u]|]; [by destruct (try_take b _)|].
    destruct (try_take _ _). by destruct (Nat.ltb _ _). }
  destruct (rate_limit g route c (time 0)) as [ok g1] eqn:Hrl. cbn in Hmax.
  assert (Hgoal : forall g2, buckets g2 = buckets g1 -> max_buckets g2 = max_buckets g1 ->
    max_buckets g2 = max_buckets g /\
    (buckets g2 = buckets g \/ exists route0, buckets g2 = buckets (rate_limit g route0 c (time 0)).2)).
  { intros g2 Hb Hm. split; [congruence|]. right. exists route. by rewrite Hrl. }
  destruct ok; cbn [negb]; [|by apply Hgoal].
  unfold select_targets. destruct (available_targets _ _ _) as [l ts].
  destruct l as [|i l]; [by apply Hgoal|]. set (rot := (drop _ _ ++ take _ _)%list). clearbody rot.
  destruct rot as [|j rot]; [by apply Hgoal|]. destruct (Nat.ltb _ _); [by apply Hgoal|].
  match goal with |- context [attempt call time ?a ?b ?m ?x ?g0] =>
    destruct (attempt_buckets call time a b m x g0) as [Hb Hm] end.
  by apply Hgoal.
Qed.

(** Requests in order, each with its upstream answers and clock. *)
Fixpoint forward_all (g : gateway) (calls : list ((nat -> upstream) * (nat -> Q) * request * Caller)) : gateway :=
  match calls with
  | [] => g
  | (call, time, r, c) :: calls => forward_all (forward call time g r c).2 calls
  end.

(** The bucket table is bounded.  Starting within the configured limit, no
    sequence of forwarded requests, from however many callers, takes the
    number of rate-limit buckets beyond it. *)
Theorem bucket_table_bounded g calls :
  0 < max_buckets g -> length (buckets g) <= max_buckets g ->
  length (buckets (forward_all g calls)) <= max_buckets g.
Proof.
  intros Hm. remember (max_buckets g) as limit eqn:Hlim. revert g Hlim.
  induction calls as [|[[[call time] r] c] calls IH]; intros g Hlim Hl; cbn; [done|].
  destruct (forward_buckets call time g r c) as [Hmax Hb]. apply IH; [congruence|].
  destruct Hb as [->|(route & ->)]; [done|]. subst limit. by apply rate_limit_length.
Qed.

(** Consecutive failures open a target for the cooldown, and the first
    check after it closes the circuit for everyone.  From a closed circuit,
    [failure_threshold] failures in a row make the target unavailable until
    the cooldown has passed since the last of them; once it has, reading
    [available] (any request's selection, or the health endpoint) makes the
    target available to every later check, so that not one probe but every
    call is let through until the next failure. *)
Theorem target_opens_and_reopens_for_all t times last now now' :
  opened_at t = None -> failures t = 0%Z -> (1 <= failure_threshold t)%Z ->
  Z.of_nat (S (length times)) = failure_threshold t ->
  let t' := foldl record_failure t (times ++ [last])%list in
  ((now - last < cooldown_seconds t)%Q -> available t' now = (false, t')) /\
  ((cooldown_seconds t <= now - last)%Q ->
     (available t' now).1 = true /\ (available (available t' now).2 now').1 = true).
Proof.
  intros Ho Hf Hth Hlen t'.
  assert (Hfold : forall ts x, (failures x + Z.of_nat (length ts) < failure_threshold x)%Z ->
            let y := foldl record_failure x ts in
            failures y = (failures x + Z.of_nat (length ts))%Z /\ opened_at y = opened_at x /\
            failure_threshold y = failure_threshold x /\ cooldown_seconds y = cooldown_seconds x).
  { induction ts as [|u ts IH]; intros x Hlt; cbn in *; [split_and!; (done || lia)|].
    assert (Hx : opened_at (record_failure x u) = opened_at x).
    { unfold record_failure. cbn. rewrite (proj2 (Z.leb_gt _ _)) by lia. done. }
    destruct (IH (record_failure x u)) as (H1 & H2 & H3 & H4); [cbn; lia|].
    split_and!; [rewrite H1; cbn; lia|congruence|done|done]. }
  destruct (Hfold times t) as (H1 & H2 & H3 & H4); [lia|].
  assert (Ht' : opened_at t' = Some last /\ cooldown_seconds t' = cooldown_seconds t).
  { unfold t'. rewrite foldl_app. cbn. rewrite H1, H3. rewrite (proj2 (Z.leb_le _ _)) by lia. done. }
  destruct Ht' as [Hop Hcd]. unfold available at 1 2 4. rewrite Hop, Hcd. split.
  - intros Hlt. by rewrite (proj2 (qleb_false _ _)).
  - intros Hle. rewrite (proj2 (qleb_true _ _)) by done. by split.
Qed.

(** ** On concrete input *)

Definition demo_route : GatewayRoute :=
  {| route_agent := "echo"; route_targets := [0; 1]; allowed_tenants := Some ["acme"];
     rate_limit_per_minute := 2 |}.
Definition demo_gateway : gateway :=
  {| routes := [("echo", demo_route)]; max_buckets := 2; idle_seconds := 300;
     targets := [new_target "http://a" 1 3 30; new_target "http://b" 1 3 30]; buckets := [];
     round_robin := [] |}.
Definition demo_request (m : string) (stream : bool) : request :=
  {| method := m; agent := "echo"; headers := [("accept", "*/*")]; body_length := 10;
     wants_stream := stream |}.
Definition acme : Caller := {| tenant := Some "acme"; subject := "u" |}.

(** The first target answers 503, the second 200. *)
Definition failing_first (n : nat) : upstream := if Nat.eqb n 0 then Answered 503 "down" else Answered 200 "ok".
Definition clock (n : nat) : Q := inject_Z (Z.of_nat n).

Definition demo_get := forward failing_first clock demo_gateway (demo_request "GET" false) acme.
Definition demo_post := forward failing_first clock demo_gateway (demo_request "POST" false) acme.
Definition demo_cut := forward (fun _ => Interrupted) clock demo_gateway (demo_request "GET" true) acme.

Lemma unsafe_request_sent_once_witness :
  demo_post.1 = (Response 503 "down", [0]) /\ demo_get.1 = (Response 200 "ok", [0; 1]) /\
  length demo_post.1.2 <= 1.
Proof.
  split; [reflexivity|]. split; [reflexivity|].
  refine (proj1 (unsafe_request_sent_once failing_first clock demo_gateway (demo_request "POST" false) acme
    demo_post.1.1 demo_post.1.2 demo_post.2 demo_route _ _ _) _).
  - reflexivity.
  - reflexivity.
  - repeat constructor; intros Hin; repeat (apply elem_of_cons in Hin as [Hin|Hin]; [discriminate Hin|]); inversion Hin.
  - reflexivity.
Defined.

Lemma bulkheads_balanced_witness : slots demo_get.2 = [0; 0].
Proof.
  refine (proj1 (proj2 (bulkheads_balanced failing_first clock demo_gateway (demo_request "GET" false) acme
    demo_get.1.1 demo_get.1.2 demo_get.2 Completed 9 _)) _).
  - reflexivity.
  - reflexivity.
Defined.

Lemma interrupted_stream_leaks_slot_witness :
  exists i, last demo_cut.1.2 = Some i /\ slots demo_cut.2 = alter S i [0; 0].
Proof.
  destruct (interrupted_stream_leaks_slot (fun _ => Interrupted) clock demo_gateway (demo_request "GET" true) acme
    demo_cut.1.2 demo_cut.2) as (i & Hi & Hs & _); [reflexivity|reflexivity|]. exists i. split; [exact Hi|]. exact (Hs eq_refl).
Defined.

(** The body of a streamed 503 breaks off: the request fails without a retry and the
    target's breaker has not noticed. *)
Example truncated_error_is_not_counted :
  let '(resp, l, g) := forward (fun _ => Truncated 503) clock demo_gateway (demo_request "GET" true) acme in
  resp = Raises /\ l = [0] /\ slots g = [0; 0] /\ failures <$> targets g = [0; 0]%Z.
Proof. vm_compute. split_and!; reflexivity. Qed.

Lemma rate_limit_bounds_window_witness :
  take_all (new_bucket 60 0) [0; 0; 1]%Q = (3, {| capacity := 60; tokens := (take_all (new_bucket 60 0) [0; 0; 1]%Q).2.(tokens); updated := 1 |}) /\
  (inject_Z (Z.of_nat 3) <= 60 + (1 - 0) * (60 / 60))%Q.
Proof.
  split; [reflexivity|].
  refine (proj1 (rate_limit_bounds_window (new_bucket 60 0) [0; 0; 1]%Q _ _)).
  - split; vm_compute; discriminate.
  - repeat split; vm_compute; discriminate.
Defined.

Lemma bucket_table_bounded_witness :
  length (buckets (forward_all demo_gateway
    [(failing_first, clock, demo_request "GET" false, acme);
     (failing_first, clock, demo_request "GET" false, {| tenant := None; subject := "x" |})])) <= 2.
Proof.
  refine (bucket_table_bounded demo_gateway _ _ _).
  - cbn. lia.
  - cbn. lia.
Defined.

Lemma target_opens_and_reopens_for_all_witness :
  (available (foldl record_failure (new_target "http://a" 1 3 30) ([1; 2] ++ [3])%list%Q) 33).1 = true.
Proof.
  refine (proj1 (proj2 (target_opens_and_reopens_for_all (new_target "http://a" 1 3 30) [1; 2]%Q 3 33 34
    eq_refl eq_refl _ eq_refl) _)).
  - cbn. lia.
  - vm_compute. discriminate.
Defined.

End Gateway.
