(* ===== verification/ConfigPlane.v ===== *)
(** * The configuration plane

    [cloud/config.py] and [cloud/config_client.py]: versioned definitions and
    overlays per agent, in memory and in SQLite, the HTTP handlers over either
    store, and the client that falls back to its last good copy.  The
    validators of definitions and overlays, the digest and the JSON text are
    parameters.  A payload is a value: each request brings its own, each
    answer is serialized, and nobody writes to a body the client returned. *)

From S2P Require Import Prelude Json.

Module ConfigPlane.
Local Open Scope string_scope.

Record ConfigRecord : Type := {
  agent : string;
  kind : string;
  version : Z;
  payload : list (string * json);
  digest : string;
  created_at : Q
}.

Inductive config_error : Type :=
  | ConfigValidationError (what : string)
  | NoStored (a k : string)               (** [KeyError]: nothing stored *)
  | NoVersion (a k : string) (v : Z)      (** [KeyError]: no such version *)
  | IntegrityError.                       (** the primary key exists already *)

(** The changes; [now] is the clock reading of the call. *)
Inductive change : Type :=
  | StoreDefinition (a : string) (p : list (string * json))
  | StoreOverlay (a : string) (p : list (string * json))
  | Rollback (a k : string) (to_version : Z).

(** What a store promises to its clients: of the versions it has numbered, none
    changes and none that is gone comes back; the number of the latest version
    never goes down, a new version takes the next number and is the latest, and a
    rollback brings back the content with that digest. *)
Class ConfigStore (S : Type) : Type := {
  cs_apply : S -> change -> Q -> result config_error ConfigRecord * S;
  cs_get : S -> string -> string -> option Z -> result config_error ConfigRecord;
  cs_history : S -> string -> string -> list ConfigRecord;
  cs_latest : S -> string -> string -> Z;
  cs_ok : S -> Prop;
  cs_apply_ok : forall s c now, cs_ok s -> cs_ok (cs_apply s c now).2;
  cs_numbered : forall s a k v r, cs_ok s -> cs_get s a k (Some v) = Ok r ->
    agent r = a /\ kind r = k /\ version r = v /\ (1 <= v <= cs_latest s a k)%Z;
  cs_latest_grows : forall s c now a k, cs_ok s ->
    (cs_latest s a k <= cs_latest (cs_apply s c now).2 a k)%Z;
  cs_kept : forall s c now a k v r, cs_ok s -> (v <= cs_latest s a k)%Z ->
    cs_get (cs_apply s c now).2 a k (Some v) = Ok r -> cs_get s a k (Some v) = Ok r;
  cs_new : forall s c now r s', cs_ok s -> cs_apply s c now = (Ok r, s') ->
    version r = (cs_latest s (agent r) (kind r) + 1)%Z /\
    cs_get s' (agent r) (kind r) (Some (version r)) = Ok r /\
    cs_get s' (agent r) (kind r) None = Ok r;
  cs_rollback : forall s a k v t now r s', cs_ok s -> cs_get s a k (Some v) = Ok t ->
    cs_apply s (Rollback a k v) now = (Ok r, s') -> agent r = a /\ kind r = k /\ digest r = digest t
}.

Section stores.
(** [load_definition_from_dict], [EnvironmentOverlay.model_validate]: the
    message of the exception, if any; [sha256] and [json.dumps]. *)
Context (load_definition validate_overlay : list (string * json) -> option string).
Context (sha256 : string -> string) (dumps : json -> string).

Definition digest_of (p : list (string * json)) : string := sha256 (dumps (sort_keys (JObj p))).

Definition kind_error : config_error := ConfigValidationError "kind must be definition or overlay".
Definition agent_error : config_error := ConfigValidationError "agent name must not be empty".

(** The payload is refused with this message. *)
Definition invalid (k : string) (p : list (string * json)) : option string :=
  if String.eqb k "definition" then (fun m => "invalid definition: " ++ m) <$> load_definition p
  else (fun m => "invalid overlay: " ++ m) <$> validate_overlay p.

(** ** In memory *)

Abbreviation InMemoryConfigStore := (list ((string * string) * list ConfigRecord)) (only parsing).

Definition versions (s : InMemoryConfigStore) (a k : string) : list ConfigRecord :=
  default [] (dget (a, k) s).

Definition store_record (s : InMemoryConfigStore) (a k : string) (p : list (string * json)) (now : Q)
  : result config_error ConfigRecord * InMemoryConfigStore :=
  if negb (str_truthy a) then (Err agent_error, s)
  else
    let vs := versions s a k in
    let r := {| agent := a; kind := k; version := Z.of_nat (length vs) + 1; payload := p;
                digest := digest_of p; created_at := now |} in
    (Ok r, dset (a, k) (vs ++ [r])%list s).

Definition store_validated (s : InMemoryConfigStore) (a k : string) (p : list (string * json)) (now : Q)
  : result config_error ConfigRecord * InMemoryConfigStore :=
  match invalid k p with
  | Some m => (Err (ConfigValidationError m), s)
  | None => store_record s a k p now
  end.

Definition store_definition s a p now := store_validated s a "definition" p now.
Definition store_overlay s a p now := store_validated s a "overlay" p now.

Definition get (s : InMemoryConfigStore) (a k : string) (v : option Z) : result config_error ConfigRecord :=
  let vs := versions s a k in
  match v with
  | None => match last vs with Some r => Ok r | None => Err (NoStored a k) end
  | Some v =>
      match List.find (fun r => Z.eqb (version r) v) vs with
      | Some r => Ok r
      | None => Err (NoVersion a k v)
      end
  end.

Definition history (s : InMemoryConfigStore) (a k : string) : list ConfigRecord := versions s a k.

Definition rollback (s : InMemoryConfigStore) (a k : string) (to_version : Z) (now : Q)
  : result config_error ConfigRecord * InMemoryConfigStore :=
  match get s a k (Some to_version) with
  | Err e => (Err e, s)
  | Ok target => store_record s a k (payload target) now
  end.

Definition mem_apply (s : InMemoryConfigStore) (c : change) (now : Q) :=
  match c with
  | StoreDefinition a p => store_definition s a p now
  | StoreOverlay a p => store_overlay s a p now
  | Rollback a k v => rollback s a k v now
  end.

(** ** In SQLite *)

Record SqliteConfigStore : Type := {
  retention_seconds : option Q;
  rows : list ConfigRecord     (** [payload_json] as the value it denotes *)
}.

Definition with_rows (s : SqliteConfigStore) (l : list ConfigRecord) : SqliteConfigStore :=
  {| retention_seconds := retention_seconds s; rows := l |}.

(** [WHERE agent = ? AND kind = ?] *)
Definition of_key (a k : string) (r : ConfigRecord) : bool :=
  String.eqb (agent r) a && String.eqb (kind r) k.
Definition select (s : SqliteConfigStore) (a k : string) : list ConfigRecord :=
  filterb (of_key a k) (rows s).

Definition has_version (v : Z) (r : ConfigRecord) : bool := Z.eqb (version r) v.

(** [COALESCE(MAX(version), 0)] *)
Definition max_version (l : list ConfigRecord) : Z :=
  match l with [] => 0%Z | r :: l => foldr Z.max (version r) (version <$> l) end.

Definition sql_validate (a k : string) (p : list (string * json)) : result config_error unit :=
  if negb (str_truthy a) then Err agent_error
  else if negb (memb k ["definition"; "overlay"]) then Err kind_error
  else match invalid k p with Some m => Err (ConfigValidationError m) | None => Ok tt end.

(** Old records of the key go once the new version is in. *)
Definition outdated (s : SqliteConfigStore) (a k : string) (v : Z) (now : Q) (r : ConfigRecord) : bool :=
  match retention_seconds s with
  | None => false
  | Some t => of_key a k r && (created_at r <? now - t)%clock && negb (has_version v r)
  end.

Definition sql_store (s : SqliteConfigStore) (a k : string) (p : list (string * json)) (now : Q)
  : result config_error ConfigRecord * SqliteConfigStore :=
  match sql_validate a k p with
  | Err e => (Err e, s)
  | Ok _ =>
      let v := (max_version (select s a k) + 1)%Z in
      let r := {| agent := a; kind := k; version := v; payload := sorted_dict p;
                  digest := digest_of p; created_at := now |} in
      if existsb (fun x => of_key a k x && has_version v x) (rows s) then (Err IntegrityError, s)
      else (Ok r, with_rows s (filterb (fun x => negb (outdated s a k v now x)) (rows s ++ [r])%list))
  end.

Definition desc (x y : ConfigRecord) : bool := Z.leb (version y) (version x).
Definition asc (x y : ConfigRecord) : bool := Z.leb (version x) (version y).

Definition sql_get (s : SqliteConfigStore) (a k : string) (v : option Z) : result config_error ConfigRecord :=
  if negb (str_truthy a) then Err agent_error
  else if negb (memb k ["definition"; "overlay"]) then Err kind_error
  else
    match v with
    | None => match head (sort_by desc (select s a k)) with Some r => Ok r | None => Err (NoStored a k) end
    | Some v =>
        match List.find (has_version v) (select s a k) with
        | Some r => Ok r
        | None => Err (NoVersion a k v)
        end
    end.

Definition sql_history (s : SqliteConfigStore) (a k : string) : list ConfigRecord :=
  sort_by asc (select s a k).

Definition sql_rollback (s : SqliteConfigStore) (a k : string) (to_version : Z) (now : Q)
  : result config_error ConfigRecord * SqliteConfigStore :=
  match sql_get s a k (Some to_version) with
  | Err e => (Err e, s)
  | Ok target => sql_store s a k (payload target) now
  end.

Definition sql_apply (s : SqliteConfigStore) (c : change) (now : Q) :=
  match c with
  | StoreDefinition a p => sql_store s a "definition" p now
  | StoreOverlay a p => sql_store s a "overlay" p now
  | Rollback a k v => sql_rollback s a k v now
  end.

(** ** The in-memory store keeps its promises *)

(** Records are numbered from one, in order, under their own key. *)
Definition numbered (a k : string) (l : list ConfigRecord) : Prop :=
  forall i r, l !! i = Some r -> version r = (Z.of_nat i + 1)%Z /\ agent r = a /\ kind r = k /\
                                 digest r = digest_of (payload r).
Definition mem_ok (s : InMemoryConfigStore) : Prop := forall a k, numbered a k (versions s a k).
Definition mem_latest (s : InMemoryConfigStore) (a k : string) : Z := Z.of_nat (length (versions s a k)).

Lemma find_version v l r :
  List.find (has_version v) l = Some r -> exists i, l !! i = Some r /\ version r = v.
Proof.
  intros [Hin Hv]%List.find_some. apply list_elem_of_In, list_elem_of_lookup_1 in Hin as [i Hi].
  exists i. split; [done|]. by apply Z.eqb_eq.
Qed.

Lemma find_numbered a k v l i r :
  numbered a k l -> l !! i = Some r -> version r = v -> List.find (has_version v) l = Some r.
Proof.
  intros Hn Hi Hv. destruct (List.find (has_version v) l) as [r'|] eqn:Hf.
  - destruct (find_version _ _ _ Hf) as (j & Hj & Hvj).
    destruct (Hn _ _ Hi) as [H1 _], (Hn _ _ Hj) as [H2 _].
    assert (i = j) as -> by lia. congruence.
  - eapply List.find_none in Hf; [|by apply list_elem_of_In, (list_elem_of_lookup_2 _ i)].
    unfold has_version in Hf. rewrite Hv, Z.eqb_refl in Hf. done.
Qed.

Lemma versions_set s a k l a' k' :
  versions (dset (a, k) l s) a' k' = if decide ((a', k') = (a, k)) then l else versions s a' k'.
Proof. unfold versions. rewrite dget_dset. by case_decide. Qed.

(** Every change leaves the store, or appends the record it returns. *)
Definition appended (s : InMemoryConfigStore) (o : result config_error ConfigRecord * InMemoryConfigStore) : Prop :=
  match o with
  | (Err _, s') => s' = s
  | (Ok r, s') =>
      s' = dset (agent r, kind r) (versions s (agent r) (kind r) ++ [r])%list s /\
      version r = (mem_latest s (agent r) (kind r) + 1)%Z /\ digest r = digest_of (payload r)
  end.

Lemma store_record_appends s a k p now : appended s (store_record s a k p now).
Proof. unfold store_record. by destruct (negb _). Qed.

Lemma mem_apply_appends s c now : appended s (mem_apply s c now).
Proof.
  destruct c as [a p|a p|a k v]; cbn; unfold store_definition, store_overlay, store_validated, rollback.
  - destruct (invalid _ _); [done | apply store_record_appends].
  - destruct (invalid _ _); [done | apply store_record_appends].
  - destruct (get s a k (Some v)); [apply store_record_appends | done].
Qed.

Lemma mem_get_numbered s a k v r :
  mem_ok s -> get s a k (Some v) = Ok r -> exists i, versions s a k !! i = Some r /\ version r = v.
Proof.
  intros Hs. unfold get. destruct (List.find _ _) as [r'|] eqn:Hf; intros [= ->].
  by apply find_version.
Qed.

Lemma mem_get_lookup s a k i r :
  mem_ok s -> versions s a k !! i = Some r -> get s a k (Some (version r)) = Ok r.
Proof.
  intros Hs Hi. unfold get. change (fun r' => Z.eqb (version r') (version r)) with (has_version (version r)).
  by rewrite (find_numbered a k (version r) _ i r (Hs _ _) Hi eq_refl).
Qed.

Lemma mem_apply_ok s c now : mem_ok s -> mem_ok (mem_apply s c now).2.
Proof.
  intros Hs a k. pose proof (mem_apply_appends s c now) as Ha.
  destruct (mem_apply s c now) as [[r|e] s']; cbn [snd appended] in *; [|subst; apply Hs].
  destruct Ha as (-> & Hv & Hd). rewrite versions_set. case_decide as Heq; [|apply Hs].
  injection Heq as -> ->.
  intros i x [Hx|[Hi [Hz <-]%list_lookup_singleton_Some]]%lookup_app_Some; [by apply Hs|].
  split; [|done]. rewrite Hv. unfold mem_latest. lia.
Qed.

#[local] Program Instance mem_store : ConfigStore InMemoryConfigStore := {|
  cs_apply := mem_apply; cs_get := get; cs_history := history;
  cs_latest := mem_latest; cs_ok := mem_ok; cs_apply_ok := mem_apply_ok
|}.
Next Obligation.
  intros s a k v r Hs Hg. destruct (mem_get_numbered _ _ _ _ _ Hs Hg) as (i & Hi & Hv).
  destruct (Hs _ _ _ _ Hi) as (Hn & Ha & Hk & _). apply lookup_lt_Some in Hi.
  unfold mem_latest. split_and!; (done || lia).
Qed.
Next Obligation.
  intros s c now a k Hs. pose proof (mem_apply_appends s c now) as Ha.
  destruct (mem_apply s c now) as [[r|e] s']; cbn [snd appended] in *; [|by subst].
  destruct Ha as (-> & _). unfold mem_latest. rewrite versions_set. case_decide as Hd; [|lia].
  injection Hd as -> ->. rewrite length_app. cbn. lia.
Qed.
Next Obligation.
  intros s c now a k v r Hs Hle Hg. pose proof (mem_apply_ok s c now Hs) as Hs'.
  destruct (mem_get_numbered _ _ _ _ _ Hs' Hg) as (i & Hi & Hr). clear Hg Hs'.
  pose proof (mem_apply_appends s c now) as Ha.
  destruct (mem_apply s c now) as [[x|e] s']; cbn [snd appended] in *; [|subst; by eapply mem_get_lookup].
  destruct Ha as (-> & Hv & _). rewrite versions_set in Hi.
  case_decide as Hd; [|subst; by eapply mem_get_lookup]. injection Hd as -> ->.
  apply lookup_app_Some in Hi as [Hi|[_ [_ <-]%list_lookup_singleton_Some]]; [subst; by eapply mem_get_lookup|lia].
Qed.
Next Obligation.
  intros s c now r s' Hs Happ. pose proof (mem_apply_appends s c now) as Ha.
  pose proof (mem_apply_ok s c now Hs) as Hs'. rewrite Happ in Ha, Hs'. cbn [snd appended] in *.
  destruct Ha as (-> & Hv & _). split; [done|]. split.
  - apply (mem_get_lookup _ _ _ (length (versions s (agent r) (kind r)))); [done|].
    by rewrite versions_set, decide_True, list_lookup_middle.
  - unfold get. by rewrite versions_set, decide_True, last_snoc.
Qed.
Next Obligation.
  intros s a k v t now r s' Hs Hg. unfold mem_apply, rollback. rewrite Hg.
  destruct (mem_get_numbered _ _ _ _ _ Hs Hg) as (i & Hi & _).
  destruct (Hs _ _ _ _ Hi) as (_ & _ & _ & ->).
  unfold store_record. destruct (negb _); [done|]. by intros [= <- _].
Qed.

(** ** The SQLite store keeps its promises *)

(** The rows of a key are in the order of their versions. *)
Definition ordered (l : list ConfigRecord) : Prop :=
  StronglySorted Z.lt (version <$> l) /\ Forall (fun r => (1 <= version r)%Z /\ digest r = digest_of (payload r)) l.
Definition sql_ok (s : SqliteConfigStore) : Prop := forall a k, ordered (select s a k).
Definition sql_latest (s : SqliteConfigStore) (a k : string) : Z := max_version (select s a k).

Lemma max_version_bound l r : r ∈ l -> (version r <= max_version l)%Z.
Proof.
  destruct l as [|x l]; [set_solver|]. cbn. intros [->|Hr]%elem_of_cons.
  - induction l as [|y l IH]; cbn; lia.
  - induction l as [|y l IH]; cbn; [set_solver|].
    apply elem_of_cons in Hr as [->|Hr]; [lia|]. specialize (IH Hr). lia.
Qed.

Lemma max_version_least l z :
  (0 <= z)%Z -> (forall r, r ∈ l -> (version r <= z)%Z) -> (max_version l <= z)%Z.
Proof.
  destruct l as [|x l]; intros Hz Hl; [done|]. cbn.
  assert (Hx : (version x <= z)%Z) by (apply Hl; left).
  assert (Hr : forall r, r ∈ l -> (version r <= z)%Z) by (intros r Hr; apply Hl; by right).
  clear Hl. induction l as [|y l IH]; cbn; [done|].
  apply Z.max_lub; [apply Hr; left | apply IH; intros r Hin; apply Hr; by right].
Qed.

Lemma find_ordered l v r :
  ordered l -> r ∈ l -> version r = v -> List.find (has_version v) l = Some r.
Proof.
  intros [Hs _] Hin Hv. induction l as [|x l IH]; [set_solver|]. cbn in *.
  inversion Hs as [|? ? Hsl Hx]; subst. unfold has_version at 1.
  apply elem_of_cons in Hin as [->|Hin]; [by rewrite Z.eqb_refl|].
  rewrite Forall_fmap, Forall_forall in Hx. specialize (Hx _ Hin). cbn in Hx.
  destruct (Z.eqb_spec (version x) (version r)); [lia|]. by apply IH.
Qed.

Lemma ordered_filter f l : ordered l -> ordered (filterb f l).
Proof.
  intros [Hs Hp]. split.
  - rewrite (sorted_fmap version Z.lt) in *. by apply sorted_filterb.
  - rewrite Forall_forall in *. intros r [Hr _]%elem_of_filterb. by apply Hp.
Qed.

Lemma ordered_snoc l r : ordered l -> (max_version l < version r)%Z -> (1 <= version r)%Z ->
  digest r = digest_of (payload r) -> ordered (l ++ [r])%list.
Proof.
  intros [Hs Hp] Hm Hr Hd. split.
  - rewrite fmap_app. apply StronglySorted_app_2; [|done|repeat constructor].
    intros x y Hx Hy. apply list_elem_of_fmap in Hx as (x' & -> & Hx').
    apply list_elem_of_singleton in Hy as ->. pose proof (max_version_bound _ _ Hx'). lia.
  - by apply Forall_app_2; [|constructor].
Qed.

(** The row that a successful store writes. *)
Definition new_row (s : SqliteConfigStore) (a k : string) (p : list (string * json)) (now : Q) : ConfigRecord :=
  {| agent := a; kind := k; version := sql_latest s a k + 1; payload := sorted_dict p;
     digest := digest_of p; created_at := now |}.

Lemma sql_store_valid s a k p now :
  sql_validate a k p = Ok tt ->
  sql_store s a k p now =
    (Ok (new_row s a k p now),
     with_rows s (filterb (fun x => negb (outdated s a k (sql_latest s a k + 1) now x))
                    (rows s ++ [new_row s a k p now])%list)).
Proof.
  intros Hv. unfold sql_store. rewrite Hv. fold (sql_latest s a k).
  destruct (existsb _ (rows s)) eqn:He; [|done].
  apply existsb_elem in He as (x & Hx & [Hk Hn]%andb_true_iff). apply Z.eqb_eq in Hn.
  assert (Hin : x ∈ select s a k) by (by apply elem_of_filterb).
  apply max_version_bound in Hin. unfold sql_latest in Hn. lia.
Qed.

Lemma select_store s a k p now a' k' :
  sql_validate a k p = Ok tt ->
  select (sql_store s a k p now).2 a' k' =
    if decide ((a', k') = (a, k))
    then filterb (fun x => negb (outdated s a k (sql_latest s a k + 1) now x))
           (select s a k ++ [new_row s a k p now])%list
    else select s a' k'.
Proof.
  intros Hv. rewrite sql_store_valid by done. unfold select, with_rows; cbn [rows snd].
  rewrite filterb_andb. case_decide as Hd.
  - injection Hd as -> ->.
    assert (filterb (of_key a k) (rows s) ++ [new_row s a k p now] =
            filterb (of_key a k) (rows s ++ [new_row s a k p now]))%list as ->.
    { rewrite List.filter_app. cbn. unfold of_key. cbn. by rewrite !String.eqb_refl. }
    rewrite filterb_andb. apply filterb_ext. intros x _. apply andb_comm.
  - rewrite List.filter_app. cbn.
    assert (Hne : of_key a' k' (new_row s a k p now) = false).
    { apply andb_false_iff. cbn. destruct (String.eqb_spec a a'), (String.eqb_spec k k'); subst; [by destruct Hd|auto..]. }
    rewrite Hne, andb_false_r, app_nil_r. apply filterb_ext. intros x _.
    destruct (of_key a' k' x) eqn:Hx; [|apply andb_false_r]. rewrite andb_true_r.
    unfold outdated. destruct (retention_seconds s); [|done].
    assert (Hx' : of_key a k x = false).
    { unfold of_key in *. apply andb_true_iff in Hx as [H1%String.eqb_eq H2%String.eqb_eq]. subst.
      destruct (String.eqb_spec (agent x) a), (String.eqb_spec (kind x) k); subst; done. }
    by rewrite Hx'.
Qed.

Lemma new_row_kept s a k p now :
  filterb (fun x => negb (outdated s a k (sql_latest s a k + 1) now x)) [new_row s a k p now] =
  [new_row s a k p now].
Proof.
  cbn. unfold outdated, has_version. destruct (retention_seconds s); [|done]. cbn.
  by rewrite Z.eqb_refl, andb_false_r.
Qed.

Lemma sql_latest_nonneg s a k : sql_ok s -> (0 <= sql_latest s a k)%Z.
Proof.
  intros Hs. unfold sql_latest. destruct (select s a k) as [|r l] eqn:E; [done|].
  pose proof (max_version_bound (r :: l) r (list_elem_of_here _ _)).
  destruct (Hs a k) as [_ Hp]. rewrite E in Hp. rewrite Forall_cons in Hp. lia.
Qed.

Lemma digest_sorted p : digest_of (sorted_dict p) = digest_of p.
Proof. unfold digest_of. by rewrite sorted_dict_json, sort_keys_idemp. Qed.

(** Every change leaves the store, or stores the row that it returns. *)
Lemma sql_apply_stores s c now :
  match sql_apply s c now with
  | (Err _, s') => s' = s
  | (Ok r, s') => exists p, sql_validate (agent r) (kind r) p = Ok tt /\
                    r = new_row s (agent r) (kind r) p now /\
                    s' = (sql_store s (agent r) (kind r) p now).2
  end.
Proof.
  assert (Hstore : forall a k p, match sql_store s a k p now with
    | (Err _, s') => s' = s
    | (Ok r, s') => exists p, sql_validate (agent r) (kind r) p = Ok tt /\
                      r = new_row s (agent r) (kind r) p now /\
                      s' = (sql_store s (agent r) (kind r) p now).2
    end).
  { intros a k p. destruct (sql_validate a k p) as [[]|e] eqn:Hv.
    - rewrite sql_store_valid by done. exists p. cbn [agent kind new_row].
      by rewrite sql_store_valid by done.
    - unfold sql_store. by rewrite Hv. }
  destruct c as [a p|a p|a k v]; cbn [sql_apply]; [apply Hstore..|].
  unfold sql_rollback. destruct (sql_get s a k (Some v)); [apply Hstore | done].
Qed.

Lemma sql_valid_key a k p : sql_validate a k p = Ok tt ->
  str_truthy a = true /\ memb k ["definition"; "overlay"] = true.
Proof.
  unfold sql_validate. destruct (str_truthy a); [|done]. by destruct (memb k _).
Qed.

Lemma sql_get_elem s a k v r :
  sql_get s a k (Some v) = Ok r -> r ∈ select s a k /\ version r = v.
Proof.
  unfold sql_get. destruct (negb _); [done|]. destruct (negb _); [done|].
  destruct (List.find _ _) as [x|] eqn:Hf; intros [= ->].
  destruct (find_version _ _ _ Hf) as (i & Hi%list_elem_of_lookup_2 & Hr). done.
Qed.

Lemma sql_get_row s a k r :
  sql_ok s -> str_truthy a = true -> memb k ["definition"; "overlay"] = true ->
  r ∈ select s a k -> sql_get s a k (Some (version r)) = Ok r.
Proof.
  intros Hs Ha Hk Hr. unfold sql_get. rewrite Ha, Hk. cbn [negb].
  by rewrite (find_ordered _ (version r) r (Hs _ _) Hr eq_refl).
Qed.

Lemma sql_apply_ok s c now : sql_ok s -> sql_ok (sql_apply s c now).2.
Proof.
  intros Hs a k. pose proof (sql_apply_stores s c now) as Ha.
  destruct (sql_apply s c now) as [[r|e] s']; cbn [snd] in *; [|subst; apply Hs].
  destruct Ha as (p & Hv & _ & ->). rewrite select_store by done. case_decide; [|apply Hs].
  pose proof (sql_latest_nonneg s (agent r) (kind r) Hs) as Hn.
  apply ordered_filter, ordered_snoc; [apply Hs| | |by apply eq_sym, digest_sorted];
    cbn; unfold sql_latest in *; lia.
Qed.

(** The last of the rows of a key is the one that [ORDER BY version DESC LIMIT 1] gives. *)
Lemma latest_row l : ordered l -> head (sort_by desc l) = last l.
Proof.
  intros [Hs _]. rewrite (sorted_fmap version Z.lt) in Hs.
  assert (Hdesc : forall x y, desc x y = true <-> (version y <= version x)%Z)
    by (intros; apply Z.leb_le).
  assert (Hrev : sort_by desc l = reverse l).
  { apply (sorted_perm_eq desc).
    - intros x y Hx Hy H1 H2. rewrite Hdesc in H1, H2. rewrite elem_of_sort_by in Hx, Hy.
      assert (version x = version y) as Heq by lia. clear -Hs Hx Hy Heq.
      induction Hs as [|z l Hl IH Hz]; [set_solver|]. rewrite Forall_forall in Hz.
      apply elem_of_cons in Hx as [->|Hx], Hy as [->|Hy]; [done|..|by apply IH].
      + specialize (Hz _ Hy). cbn in Hz. lia.
      + specialize (Hz _ Hx). cbn in Hz. lia.
    - apply sort_by_sorted; intros; rewrite !Hdesc in *; lia.
    - clear -Hs. induction Hs as [|z l Hl IH Hz]; [constructor|]. rewrite reverse_cons.
      apply StronglySorted_app_2; [|done|repeat constructor].
      intros x y Hx ->%list_elem_of_singleton.
      rewrite elem_of_reverse in Hx. rewrite Forall_forall in Hz. specialize (Hz _ Hx). cbn in Hz. apply Z.leb_le. lia.
    - by rewrite sort_by_perm, reverse_Permutation. }
  by rewrite Hrev, head_reverse.
Qed.

#[local] Program Instance sql_config : ConfigStore SqliteConfigStore := {|
  cs_apply := sql_apply; cs_get := sql_get; cs_history := sql_history;
  cs_latest := sql_latest; cs_ok := sql_ok; cs_apply_ok := sql_apply_ok
|}.
Next Obligation.
  intros s a k v r Hs [Hin Hr]%sql_get_elem. destruct (Hs a k) as [_ Hp].
  rewrite Forall_forall in Hp. destruct (Hp _ Hin) as [Hpos _].
  pose proof (max_version_bound _ _ Hin).
  apply elem_of_filterb in Hin as [_ [Ha%String.eqb_eq Hk%String.eqb_eq]%andb_true_iff].
  unfold sql_latest. split_and!; (done || lia).
Qed.
Next Obligation.
  intros s c now a k Hs. pose proof (sql_apply_stores s c now) as Ha.
  destruct (sql_apply s c now) as [[r|e] s']; cbn [snd] in *; [|by subst].
  destruct Ha as (p & Hv & _ & ->). unfold sql_latest at 2. rewrite select_store by done.
  case_decide as Hd; [|done]. injection Hd as -> ->.
  rewrite List.filter_app, new_row_kept.
  etransitivity; [|apply (max_version_bound _ (new_row s (agent r) (kind r) p now)); set_solver]. cbn. lia.
Qed.
Next Obligation.
  intros s c now a k v r Hs Hle Hg. pose proof (sql_apply_ok s c now Hs) as Hs'.
  assert (Hkey : str_truthy a = true /\ memb k ["definition"; "overlay"] = true).
  { unfold sql_get in Hg. destruct (str_truthy a); [|done]. by destruct (memb k _). }
  destruct Hkey as [Ha Hk]. destruct (sql_get_elem _ _ _ _ _ Hg) as [Hin Hr]. clear Hg.
  pose proof (sql_apply_stores s c now) as Hst.
  destruct (sql_apply s c now) as [[x|e] s']; cbn [snd] in *; [|subst; by apply sql_get_row].
  destruct Hst as (p & Hv & _ & ->). rewrite select_store in Hin by done.
  case_decide as Hd; [|subst; by apply sql_get_row]. injection Hd as -> ->.
  apply elem_of_filterb in Hin as [[Hin|Hin%list_elem_of_singleton]%elem_of_app _];
    [subst; by apply sql_get_row|].
  subst. cbn in Hle. lia.
Qed.
Next Obligation.
  intros s c now r s' Hs Happ. pose proof (sql_apply_stores s c now) as Hst.
  pose proof (sql_apply_ok s c now Hs) as Hs'. rewrite Happ in Hst, Hs'. cbn [snd] in *.
  destruct Hst as (p & Hv & Hr & ->). destruct (sql_valid_key _ _ _ Hv) as [Ha Hk].
  assert (Hsel : exists l, select (sql_store s (agent r) (kind r) p now).2 (agent r) (kind r) = (l ++ [r])%list).
  { rewrite select_store, decide_True by done. rewrite List.filter_app, new_row_kept, <-Hr. by eexists. }
  destruct Hsel as [l Hsel]. split_and!.
  - by rewrite Hr at 1.
  - apply sql_get_row; [done..|]. rewrite Hsel. set_solver.
  - unfold sql_get. rewrite Ha, Hk. cbn [negb]. rewrite latest_row by done. by rewrite Hsel, last_snoc.
Qed.
Next Obligation.
  intros s a k v t now r s' Hs Hg. unfold sql_apply, sql_rollback. rewrite Hg.
  destruct (sql_get_elem _ _ _ _ _ Hg) as [Hin _]. destruct (Hs a k) as [_ Hp].
  rewrite Forall_forall in Hp. destruct (Hp _ Hin) as [_ ->].
  destruct (sql_validate a k (payload t)) as [[]|e] eqn:Hv.
  - rewrite sql_store_valid by done. by intros [= <- _].
  - unfold sql_store. by rewrite Hv.
Qed.

(** ** The two stores agree *)

(** A record as SQLite gives it back: the keys of its payload in order. *)
Definition canonical_record (r : ConfigRecord) : ConfigRecord :=
  {| agent := agent r; kind := kind r; version := version r; payload := sorted_dict (payload r);
     digest := digest r; created_at := created_at r |}.

Inductive call : Type :=
  | Change (c : change) (now : Q)
  | Get (a k : string) (v : option Z)
  | History (a k : string).

Inductive reply : Type :=
  | RRecord (r : result config_error ConfigRecord)
  | RHistory (l : list ConfigRecord).

Definition canonical_reply (r : reply) : reply :=
  match r with
  | RRecord r => RRecord (canonical_record <$> r)
  | RHistory l => RHistory (canonical_record <$> l)
  end.

Definition step {S} `{ConfigStore S} (s : S) (c : call) : reply * S :=
  match c with
  | Change c now => let '(r, s) := cs_apply s c now in (RRecord r, s)
  | Get a k v => (RRecord (cs_get s a k v), s)
  | History a k => (RHistory (cs_history s a k), s)
  end.

Fixpoint replies {S} `{ConfigStore S} (s : S) (cs : list call) : list reply :=
  match cs with
  | [] => []
  | c :: cs => let '(r, s) := step s c in r :: replies s cs
  end.

(** What the handlers pass on: a non-empty agent and one of the two kinds. *)
Definition valid_key (a k : string) : bool := str_truthy a && memb k ["definition"; "overlay"].
Definition addressed (c : call) : bool :=
  match c with
  | Change (StoreDefinition a _) _ | Change (StoreOverlay a _) _ => str_truthy a
  | Change (Rollback a k _) _ | Get a k _ | History a k => valid_key a k
  end.

(** The same records, all valid, with nothing to remove. *)
Definition agree (m : InMemoryConfigStore) (s : SqliteConfigStore) : Prop :=
  mem_ok m /\ sql_ok s /\ retention_seconds s = None /\
  forall a k, select s a k = canonical_record <$> versions m a k /\
              Forall (fun r => invalid k (payload r) = None) (versions m a k).

Section agreement.
(** The validators do not look at the order of the keys. *)
Context (order_blind : forall k p, invalid k (sorted_dict p) = invalid k p).

Lemma agree_latest m s a k : agree m s -> sql_latest s a k = mem_latest m a k.
Proof.
  intros (Hm & Hs & _ & Ha). destruct (Ha a k) as [Hsel _]. unfold sql_latest, mem_latest. rewrite Hsel.
  apply Z.le_antisymm.
  - apply max_version_least; [lia|]. intros r Hr. apply list_elem_of_fmap in Hr as (x & -> & Hx).
    apply list_elem_of_lookup_1 in Hx as [i Hi]. destruct (Hm _ _ _ _ Hi) as [Hv _].
    apply lookup_lt_Some in Hi. cbn. lia.
  - destruct (last (versions m a k)) as [r|] eqn:Hl.
    + rewrite last_lookup in Hl. destruct (Hm _ _ _ _ Hl) as [Hv _].
      pose proof (lookup_lt_Some _ _ _ Hl).
      etransitivity; [|apply (max_version_bound _ (canonical_record r))].
      * cbn. lia.
      * apply list_elem_of_fmap. exists r. split; [done|]. by eapply list_elem_of_lookup_2.
    + apply last_None in Hl. by rewrite Hl.
Qed.

Lemma agree_get m s a k v :
  agree m s -> valid_key a k = true -> sql_get s a k v = canonical_record <$> get m a k v.
Proof.
  intros Hag [Ht Hk]%andb_true_iff. pose proof Hag as (Hm & Hs & _ & Ha). destruct (Ha a k) as [Hsel _].
  unfold sql_get. rewrite Ht, Hk. cbn [negb]. destruct v as [v|].
  - unfold get. rewrite Hsel. clear Hsel.
    induction (versions m a k) as [|r l IH]; [done|]. cbn. unfold has_version at 1. cbn.
    destruct (Z.eqb (version r) v); [done | exact IH].
  - rewrite latest_row by done. unfold get. rewrite Hsel, fmap_last. by destruct (last _).
Qed.

Lemma agree_store m s a k p now :
  agree m s -> valid_key a k = true -> invalid k p = None ->
  (sql_store s a k p now).1 = canonical_record <$> (store_record m a k p now).1 /\
  agree (store_record m a k p now).2 (sql_store s a k p now).2.
Proof.
  intros Hag Hkey Hp. pose proof Hag as (Hm & Hs & Hr & Ha).
  pose proof Hkey as [Ht Hk]%andb_true_iff.
  assert (Hv : sql_validate a k p = Ok tt) by (unfold sql_validate; by rewrite Ht, Hk, Hp).
  assert (Hnew : new_row s a k p now = canonical_record
            {| agent := a; kind := k; version := Z.of_nat (length (versions m a k)) + 1; payload := p;
               digest := digest_of p; created_at := now |}).
  { unfold new_row. rewrite (agree_latest m) by done. reflexivity. }
  pose proof (store_record_appends m a k p now) as Happ.
  unfold store_record in *. rewrite Ht in *. cbn [negb appended agent kind] in *.
  split; [rewrite sql_store_valid by done; cbn [fst]; by rewrite Hnew|]. cbn [snd].
  set (r := {| agent := a; kind := k; version := _; payload := p; digest := _; created_at := now |}) in *.
  split; [|split; [|split; [by rewrite sql_store_valid by done|]]].
  - intros a' k'. rewrite versions_set. case_decide as Heq; [|apply Hm]. injection Heq as -> ->.
    intros i x [Hx|[Hi [Hz <-]%list_lookup_singleton_Some]]%lookup_app_Some; [by apply Hm|].
    split; [cbn; lia|done].
  - intros a' k'. rewrite select_store by done. case_decide; [|apply Hs].
    pose proof (sql_latest_nonneg s a k Hs).
    apply ordered_filter, ordered_snoc; [apply Hs| | |by apply eq_sym, digest_sorted];
      cbn; unfold sql_latest in *; lia.
  - intros a' k'. rewrite select_store, versions_set by done. case_decide as Heq; [|apply Ha].
    injection Heq as -> ->. destruct (Ha a k) as [Hsel Hval]. split.
    + rewrite filterb_all by (intros x _; unfold outdated; by rewrite Hr).
      by rewrite fmap_app, Hsel, Hnew.
    + apply Forall_app_2; [done|]. by constructor.
Qed.

Lemma config_agree_step m s c :
  agree m s -> addressed c = true ->
  (step s c).1 = canonical_reply (step m c).1 /\ agree (step m c).2 (step s c).2.
Proof.
  intros Hag Hadd.
  assert (Hchange : forall a k p now, valid_key a k = true ->
    (sql_store s a k p now).1 = canonical_record <$> (store_validated m a k p now).1 /\
    agree (store_validated m a k p now).2 (sql_store s a k p now).2).
  { intros a k p now Hkey. unfold store_validated. destruct (invalid k p) as [msg|] eqn:Hi.
    - pose proof Hkey as [Ht Hk]%andb_true_iff.
      unfold sql_store, sql_validate. by rewrite Ht, Hk, Hi.
    - by apply agree_store. }
  destruct c as [c now|a k v|a k]; cbn [step cs_apply cs_get cs_history mem_store sql_config].
  - enough (Hc : (sql_apply s c now).1 = canonical_record <$> (mem_apply m c now).1 /\
                 agree (mem_apply m c now).2 (sql_apply s c now).2).
    { destruct (sql_apply s c now), (mem_apply m c now). cbn in *. by destruct Hc as [-> ?]. }
    destruct c as [a p|a p|a k v]; cbn [sql_apply mem_apply]; cbn in Hadd.
    + apply Hchange. unfold valid_key. by rewrite Hadd.
    + apply Hchange. unfold valid_key. by rewrite Hadd.
    + unfold sql_rollback, rollback. rewrite (agree_get m) by done.
      pose proof Hag as (Hm & Hs & Hr & Ha).
      destruct (get m a k (Some v)) as [t|e] eqn:Hg; [|done]. cbn [fmap result_fmap].
      destruct (mem_get_numbered _ _ _ _ _ Hm Hg) as (i & Hi & _).
      assert (Hval : invalid k (payload t) = None).
      { destruct (Ha a k) as [_ Hval]. rewrite Forall_forall in Hval. by eapply Hval, list_elem_of_lookup_2. }
      assert (Hsame : sql_store s a k (payload (canonical_record t)) now = sql_store s a k (payload t) now).
      { unfold sql_store, sql_validate. cbn [canonical_record payload].
        by rewrite order_blind, digest_sorted, sorted_dict_idemp. }
      rewrite Hsame. by apply agree_store.
  - by rewrite (agree_get m).
  - cbn. split; [|done]. pose proof Hag as (Hm & Hs & Hr & Ha). destruct (Ha a k) as [Hsel _].
    unfold sql_history, history. rewrite <-Hsel. f_equal. apply sort_by_id.
    destruct (Hs a k) as [Hso _]. rewrite (sorted_fmap version Z.lt) in Hso.
    clear -Hso. induction Hso as [|x l Hl IH Hx]; constructor; [done|].
    eapply Forall_impl; [exact Hx|]. intros y Hy. cbn in Hy. apply Z.leb_le. lia.
Qed.

Lemma agree_replies m s cs :
  agree m s -> forallb addressed cs = true -> replies s cs = canonical_reply <$> replies m cs.
Proof.
  revert m s. induction cs as [|c cs IH]; intros m s Hag Hadd; [done|].
  apply andb_true_iff in Hadd as [Hc Hcs].
  destruct (config_agree_step m s c Hag Hc) as [H1 H2]. cbn [replies].
  destruct (step s c) as [r1 s1], (step m c) as [r2 m2]. cbn in *. by rewrite H1, (IH m2).
Qed.
End agreement.

(** ** Only validated content is stored *)

Definition mem_valid (s : InMemoryConfigStore) : Prop :=
  forall a k, Forall (fun r => invalid k (payload r) = None) (versions s a k).
Definition sql_valid (s : SqliteConfigStore) : Prop :=
  Forall (fun r => invalid (kind r) (payload r) = None) (rows s).

Lemma store_record_valid s a k p now :
  mem_valid s -> invalid k p = None -> mem_valid (store_record s a k p now).2.
Proof.
  intros Hs Hp. unfold store_record. destruct (negb _); [done|]. intros a' k'.
  cbn [snd]. rewrite versions_set. case_decide as Hd; [|apply Hs]. injection Hd as -> ->.
  apply Forall_app_2; [apply Hs | by constructor].
Qed.

Lemma mem_apply_valid s c now : mem_valid s -> mem_valid (mem_apply s c now).2.
Proof.
  intros Hs. destruct c as [a p|a p|a k v]; cbn [mem_apply];
    unfold store_definition, store_overlay, store_validated.
  - destruct (invalid _ _) eqn:Hi; [done | by apply store_record_valid].
  - destruct (invalid _ _) eqn:Hi; [done | by apply store_record_valid].
  - unfold rollback, get. destruct (List.find _ _) as [t|] eqn:Hf; [|done].
    apply store_record_valid; [done|]. apply List.find_some in Hf as [Hin%list_elem_of_In _].
    specialize (Hs a k). rewrite Forall_forall in Hs. by apply Hs.
Qed.

Lemma sql_store_valid_rows s a k p now :
  (forall k p, invalid k (sorted_dict p) = invalid k p) ->
  sql_valid s -> sql_valid (sql_store s a k p now).2.
Proof.
  intros Hblind Hs. destruct (sql_validate a k p) as [[]|e] eqn:Hv; [|by unfold sql_store; rewrite Hv].
  rewrite sql_store_valid by done. unfold sql_valid; cbn [snd with_rows rows].
  apply Forall_forall. intros r [[Hr| ->%list_elem_of_singleton]%elem_of_app _]%elem_of_filterb.
  - unfold sql_valid in Hs. rewrite Forall_forall in Hs. by apply Hs.
  - cbn [new_row kind payload]. rewrite Hblind. unfold sql_validate in Hv. repeat (case_match; try done).
Qed.

Lemma sql_apply_valid s c now :
  (forall k p, invalid k (sorted_dict p) = invalid k p) ->
  sql_valid s -> sql_valid (sql_apply s c now).2.
Proof.
  intros Hb Hs. destruct c as [a p|a p|a k v]; cbn [sql_apply]; [by apply sql_store_valid_rows..|].
  unfold sql_rollback. destruct (sql_get s a k (Some v)); [by apply sql_store_valid_rows | done].
Qed.
End stores.

(** ** The HTTP handlers, over either store *)

Inductive http_response : Type :=
  | Body (b : list (string * json))
  | Versions (bs : list (list (string * json)))
  | HTTPException (status_code : Z) (e : config_error)
  | InternalError.

(** [ConfigRecordContract]; its kinds are two. *)
Definition contract_ok (r : ConfigRecord) : bool :=
  str_truthy (agent r) && memb (kind r) ["definition"; "overlay"] && Z.leb 1 (version r) &&
  is_hex64 (digest r).

Definition record_payload (r : ConfigRecord) (include_payload : bool) : option (list (string * json)) :=
  if contract_ok r
  then Some ([("agent", JStr (agent r)); ("kind", JStr (kind r)); ("version", JInt (version r));
              ("digest", JStr (digest r)); ("created_at", JFloat (created_at r))] ++
             (if include_payload then [("payload", JObj (payload r))] else []))%list
  else None.

Definition answer (r : ConfigRecord) (include_payload : bool) : http_response :=
  match record_payload r include_payload with Some b => Body b | None => InternalError end.

Inductive http_request : Type :=
  | PutDefinition (a : string) (p : list (string * json))
  | PutOverlay (a : string) (p : list (string * json))
  | GetDefinition (a : string) (v : option Z)
  | GetOverlay (a : string) (v : option Z)
  | GetHistory (a k : string)
  | PostRollback (a : string) (body : list (string * json)).

Section handlers.
Context {S : Type} `{ConfigStore S} (py_str : json -> string).

Definition put (s : S) (c : change) (now : Q) : http_response * S :=
  match cs_apply s c now with
  | (Ok r, s) => (answer r false, s)
  | (Err (ConfigValidationError m), s) => (HTTPException 422 (ConfigValidationError m), s)
  | (Err _, s) => (InternalError, s)
  end.

(** [except KeyError]; any other exception is not caught. *)
Definition get_config (s : S) (a k : string) (v : option Z) : http_response :=
  match cs_get s a k v with
  | Ok r => answer r true
  | Err (ConfigValidationError _ | IntegrityError) => InternalError
  | Err e => HTTPException 404 e
  end.

Definition get_history (s : S) (a k : string) : http_response :=
  if negb (memb k ["definition"; "overlay"]) then HTTPException 422 (ConfigValidationError "kind must be definition or overlay")
  else match mapM (fun r => record_payload r false) (cs_history s a k) with
       | Some bs => Versions bs
       | None => InternalError
       end.

(** [isinstance(to_version, int)] holds of booleans, which count as 0 and 1. *)
Definition as_version (j : json) : option Z :=
  match j with JInt z => Some z | JBool b => Some (if b then 1 else 0)%Z | _ => None end.

(** [str(payload.get("kind", "definition"))] *)
Definition rollback_kind (body : list (string * json)) : string :=
  match dget "kind" body with Some (JStr k) => k | Some j => py_str j | None => "definition" end.

Definition post_rollback (s : S) (a : string) (body : list (string * json)) (now : Q) : http_response * S :=
  let k := rollback_kind body in
  if negb (memb k ["definition"; "overlay"])
  then (HTTPException 422 (ConfigValidationError "kind must be definition or overlay"), s)
  else match dget "to_version" body ≫= as_version with
       | None => (HTTPException 422 (ConfigValidationError "to_version must be an integer"), s)
       | Some v =>
           match cs_apply s (Rollback a k v) now with
           | (Ok r, s) => (answer r false, s)
           | (Err (ConfigValidationError _ | IntegrityError), s) => (InternalError, s)
           | (Err e, s) => (HTTPException 404 e, s)
           end
       end.

Definition serve (s : S) (q : http_request) (now : Q) : http_response * S :=
  match q with
  | PutDefinition a p => put s (StoreDefinition a p) now
  | PutOverlay a p => put s (StoreOverlay a p) now
  | GetDefinition a v => (get_config s a "definition" v, s)
  | GetOverlay a v => (get_config s a "overlay" v, s)
  | GetHistory a k => (get_history s a k, s)
  | PostRollback a body => post_rollback s a body now
  end.

(** A request leaves the store or makes one change. *)
Lemma serve_store s q now : (serve s q now).2 = s \/ exists c, (serve s q now).2 = (cs_apply s c now).2.
Proof.
  destruct q as [a p|a p|a v|a v|a k|a body]; cbn [serve snd]; try (by left).
  - right. exists (StoreDefinition a p). unfold put. by destruct (cs_apply _ _ _) as [[?|[]] ?].
  - right. exists (StoreOverlay a p). unfold put. by destruct (cs_apply _ _ _) as [[?|[]] ?].
  - unfold post_rollback. destruct (negb _); [by left|]. destruct (_ ≫= _) as [v|]; [|by left].
    right. exists (Rollback a (rollback_kind body) v). by destruct (cs_apply _ _ _) as [[?|[]] ?].
Qed.
End handlers.

(** ** The client *)

Inductive fetch : Type :=
  | Answered (status : Z) (body : list (string * json))
  | TransportError.                    (** [httpx.HTTPError] *)

Inductive client_error : Type :=
  | BadKind
  | HTTPStatusError (status : Z)
  | ConfigPlaneUnreachableError
  | ClientValidationError (body : list (string * json)).

Abbreviation cache_key := (string * string * option Z)%type (only parsing).
Abbreviation cache := (list (cache_key * list (string * json))) (only parsing).

Definition success (status : Z) : bool := Z.leb 200 status && Z.ltb status 300.

(** [{**cached, "from_cache": True}] *)
Definition from_cache (c : cache) (key : cache_key) : result client_error (list (string * json)) :=
  match dget key c with
  | Some b => Ok (dset "from_cache" (JBool true) b)
  | None => Err ConfigPlaneUnreachableError
  end.

Definition client_get (c : cache) (a k : string) (v : option Z) (f : fetch)
  : result client_error (list (string * json)) * cache :=
  if negb (memb k ["definition"; "overlay"]) then (Err BadKind, c)
  else
    match f with
    | TransportError => (from_cache c (a, k, v), c)
    | Answered st b =>
        if success st then (Ok b, dset (a, k, v) b c)
        else if Z.ltb st 500 then (Err (HTTPStatusError st), c)
        else (from_cache c (a, k, v), c)
    end.

(** [put_definition] and [put_overlay]; a transport error propagates. *)
Definition client_put (f : fetch) : option (result client_error (list (string * json))) :=
  match f with
  | TransportError => None
  | Answered st b =>
      Some (if Z.eqb st 422 then Err (ClientValidationError b)
            else if success st then Ok b else Err (HTTPStatusError st))
  end.

(** *** The client against the plane *)

Inductive network : Type := Up | Down | Failing (n : nat).   (** an answer with status 500 + n *)

Section system.
Context {S : Type} `{ConfigStore S} (py_str : json -> string).

(** What a GET of the client receives. *)
Definition received (s : S) (a k : string) (v : option Z) (n : network) : fetch :=
  match n with
  | Down => TransportError
  | Failing n => Answered (500 + Z.of_nat n) []
  | Up =>
      match get_config s a k v with
      | Body b => Answered 200 b
      | HTTPException st _ => Answered st []
      | _ => Answered 500 []
      end
  end.

Definition fetch_config (sc : S * cache) (a k : string) (v : option Z) (n : network)
  : result client_error (list (string * json)) * (S * cache) :=
  let '(r, c) := client_get sc.2 a k v (received sc.1 a k v n) in (r, (sc.1, c)).

Inductive event : Type :=
  | Served (q : http_request) (now : Q)
  | Fetched (a k : string) (v : option Z) (n : network).

Definition advance (sc : S * cache) (e : event) : S * cache :=
  match e with
  | Served q now => ((serve py_str sc.1 q now).2, sc.2)
  | Fetched a k v n => (fetch_config sc a k v n).2
  end.
Definition advance_all (sc : S * cache) (es : list event) : S * cache := foldl advance sc es.

(** The client holds record [r] for a pinned version, and the plane has no other. *)
Definition pinned (sc : S * cache) (a k : string) (v : Z) (r : ConfigRecord) (b : list (string * json)) : Prop :=
  cs_ok sc.1 /\ record_payload r true = Some b /\ dget (a, k, Some v) sc.2 = Some b /\
  (v <= cs_latest sc.1 a k)%Z /\ forall r', cs_get sc.1 a k (Some v) = Ok r' -> r' = r.

Lemma received_success s a k v n st b :
  received s a k v n = Answered st b -> success st = true ->
  exists r, cs_get s a k v = Ok r /\ record_payload r true = Some b.
Proof.
  unfold received, success. destruct n as [| |m]; [|done|].
  - unfold get_config, answer. destruct (cs_get s a k v) as [r|[]] eqn:Hg; try (intros [= <- <-]; done).
    destruct (record_payload r true) eqn:Hp; intros [= <- <-]; [|done]. by exists r.
  - intros [= <- <-] [_ Hlt]%andb_true_iff. apply Z.ltb_lt in Hlt. lia.
Qed.

Lemma pinned_served sc a k v r b q now :
  pinned sc a k v r b -> pinned (advance sc (Served q now)) a k v r b.
Proof.
  intros (Hok & Hp & Hc & Hv & Hr). cbn.
  destruct (serve_store py_str sc.1 q now) as [Heq|[c Heq]]; unfold pinned; cbn [fst snd]; rewrite Heq.
  - by split_and!.
  - split_and!; [by apply cs_apply_ok|done..| |].
    + etransitivity; [exact Hv | by apply cs_latest_grows].
    + intros r' Hg. eapply Hr, cs_kept; eauto.
Qed.

Lemma pinned_fetched sc a k v r b a' k' v' n :
  pinned sc a k v r b -> pinned (advance sc (Fetched a' k' v' n)) a k v r b.
Proof.
  intros (Hok & Hp & Hc & Hv & Hr). cbn. unfold fetch_config, client_get.
  destruct (negb _); [by split_and!|].
  destruct (received sc.1 a' k' v' n) as [st b'|] eqn:Hrec; [|by split_and!].
  destruct (success st) eqn:Hst; [|destruct (Z.ltb st 500); by split_and!].
  unfold pinned; cbn [fst snd]. split_and!; [done..| |done|done].
  rewrite dget_dset. case_decide as Hd; [|done]. injection Hd as -> -> <-.
  destruct (received_success _ _ _ _ _ _ _ Hrec Hst) as (r' & Hg & Hb).
  rewrite (Hr _ Hg) in Hb. congruence.
Qed.

Lemma pinned_all sc a k v r b es : pinned sc a k v r b -> pinned (advance_all sc es) a k v r b.
Proof.
  revert sc. induction es as [|e es IH]; intros sc Hp; [done|]. apply IH.
  destruct e; [by apply pinned_served | by apply pinned_fetched].
Qed.
End system.

(** ** The theorems *)

Definition after {S} `{ConfigStore S} (s : S) (cs : list (change * Q)) : S :=
  foldl (fun s cn => (cs_apply s cn.1 cn.2).2) s cs.

Lemma after_ok {S} `{ConfigStore S} (s : S) cs : cs_ok s -> cs_ok (after s cs).
Proof. revert s. induction cs as [|c cs IH]; intros s Hs; [done|]. by apply IH, cs_apply_ok. Qed.

Lemma after_kept {S} `{ConfigStore S} (s : S) cs a k v r :
  cs_ok s -> (v <= cs_latest s a k)%Z ->
  (v <= cs_latest (after s cs) a k)%Z /\
  (cs_get (after s cs) a k (Some v) = Ok r -> cs_get s a k (Some v) = Ok r).
Proof.
  revert s. induction cs as [|c cs IH]; intros s Hs Hv; [done|].
  destruct (IH (cs_apply s c.1 c.2).2) as [H1 H2].
  - by apply cs_apply_ok.
  - etransitivity; [exact Hv | by apply cs_latest_grows].
  - split; [exact H1|]. intros Hg. eapply cs_kept; [done..|]. by apply H2.
Qed.

(** Versions are immutable and monotonic.  Whatever is stored or rolled
    back after a version was readable, that version is never readable with
    another content; every later version of the same agent and kind has a
    higher number and is what an unpinned read returns from then on; and a
    rollback brings back the content with that digest as the latest version.
    This holds of every store that meets the interface, in memory and SQLite
    with any retention. *)
Theorem config_versions_immutable {S} `{ConfigStore S} (s : S) cs a k v r :
  cs_ok s -> cs_get s a k (Some v) = Ok r ->
  let s' := after s cs in
  (forall r', cs_get s' a k (Some v) = Ok r' -> r' = r) /\
  (forall c now r' s'', cs_apply s' c now = (Ok r', s'') -> agent r' = a -> kind r' = k ->
     (v < version r')%Z /\ cs_get s'' a k None = Ok r') /\
  (forall now r' s'', cs_get s' a k (Some v) = Ok r -> cs_apply s' (Rollback a k v) now = (Ok r', s'') ->
     digest r' = digest r /\ cs_get s'' a k None = Ok r').
Proof.
  intros Hs Hg s'. destruct (cs_numbered s a k v r Hs Hg) as (Ha & Hk & _ & Hv).
  pose proof (after_ok s cs Hs) as Hs'.
  destruct (after_kept s cs a k v r Hs (proj2 Hv)) as [Hle _].
  assert (Hnew : forall c now r' s'', cs_apply s' c now = (Ok r', s'') -> agent r' = a -> kind r' = k ->
            (v < version r')%Z /\ cs_get s'' a k None = Ok r').
  { intros c now r' s'' Hc <- <-. destruct (cs_new s' c now r' s'' Hs' Hc) as (Hn & _ & Hl).
    split; [|done]. fold s' in Hle. lia. }
  split_and!; [|exact Hnew|].
  - intros r' Hg'. destruct (after_kept s cs a k v r' Hs (proj2 Hv)) as [_ Hb].
    specialize (Hb Hg'). congruence.
  - intros now r' s'' Hg' Hc. destruct (cs_rollback s' a k v r now r' s'' Hs' Hg' Hc) as (H1 & H2 & Hd).
    split; [done|]. by eapply Hnew.
Qed.

(** The SQLite store answers like the in-memory one.  For any sequence of
    stores, rollbacks, reads and histories, with the same clock and no
    retention, both give the same versions, digests, times and errors, and
    the same payloads up to the order of their keys. *)
Theorem config_stores_agree ld vo sha256 dumps cs :
  (forall p, ld (sorted_dict p) = ld p) -> (forall p, vo (sorted_dict p) = vo p) ->
  forallb addressed cs = true ->
  @replies _ (sql_config ld vo sha256 dumps) {| retention_seconds := None; rows := [] |} cs =
  canonical_reply <$> @replies _ (mem_store ld vo sha256 dumps) [] cs.
Proof.
  intros Hld Hvo. apply agree_replies.
  - intros k p. unfold invalid. by rewrite Hld, Hvo.
  - split_and!; try done; intros a k; split; constructor.
Qed.

(** Only content that the core accepts is ever served.  Whatever sequence
    of stores and rollbacks is run, a record read from either store, pinned or
    latest, passes the core's own validator of its kind. *)
Theorem stored_config_boots ld vo sha256 dumps retention cs a k v r :
  (forall p, ld (sorted_dict p) = ld p) -> (forall p, vo (sorted_dict p) = vo p) ->
  (get (@after _ (mem_store ld vo sha256 dumps) [] cs) a k v = Ok r -> invalid ld vo k (payload r) = None) /\
  (sql_get (@after _ (sql_config ld vo sha256 dumps)
              {| retention_seconds := retention; rows := [] |} cs) a k v = Ok r ->
   invalid ld vo k (payload r) = None).
Proof.
  intros Hld Hvo.
  assert (Hblind : forall k p, invalid ld vo k (sorted_dict p) = invalid ld vo k p)
    by (intros k' p; unfold invalid; by rewrite Hld, Hvo).
  split; intros Hg.
  - assert (Hm : mem_valid ld vo (@after _ (mem_store ld vo sha256 dumps) [] cs)).
    { unfold after. apply (foldl_invariant (mem_valid ld vo)); [by intros ? ?|].
      intros s c Hs. by apply mem_apply_valid. }
    specialize (Hm a k). rewrite Forall_forall in Hm. apply Hm.
    unfold get in Hg. destruct v as [v|].
    + destruct (List.find _ _) eqn:Hf; [|done]. injection Hg as ->.
      by apply List.find_some in Hf as [?%list_elem_of_In _].
    + destruct (last _) eqn:Hl; [|done]. injection Hg as ->. by apply last_Some_elem_of in Hl.
  - assert (Hm : sql_valid ld vo (@after _ (sql_config ld vo sha256 dumps)
              {| retention_seconds := retention; rows := [] |} cs)).
    { unfold after. apply (foldl_invariant (sql_valid ld vo)); [by constructor|].
      intros s c Hs. by apply sql_apply_valid. }
    unfold sql_get in Hg. destruct (negb _); [done|]. destruct (negb _); [done|].
    assert (Hin : r ∈ select (@after _ (sql_config ld vo sha256 dumps)
              {| retention_seconds := retention; rows := [] |} cs) a k).
    { destruct v as [v|].
      - destruct (List.find _ _) eqn:Hf; [|done]. injection Hg as ->.
        by apply List.find_some in Hf as [?%list_elem_of_In _].
      - destruct (head _) eqn:Hl; [|done]. injection Hg as ->.
        apply (elem_of_sort_by desc), head_Some_elem_of, Hl. }
    apply elem_of_filterb in Hin as [Hin [_ <-%String.eqb_eq]%andb_true_iff].
    unfold sql_valid in Hm. rewrite Forall_forall in Hm. by apply Hm.
Qed.

(** A pinned configuration survives outages of the plane.  Once a client
    has fetched a pinned version, then whatever requests the plane serves and
    whatever other fetches and outages follow, fetching that version again
    gives the same content: as it was from the plane, or marked as cached when
    the plane cannot answer; during an outage it always succeeds.  The only
    failure is a 404, when retention has removed the version. *)
Theorem pinned_config_survives_outages {S} `{ConfigStore S} py_str (sc : S * cache) a k v b sc1 es n :
  cs_ok sc.1 -> fetch_config sc a k (Some v) Up = (Ok b, sc1) -> dget (a, k, Some v) sc.2 = None ->
  let res := (fetch_config (advance_all py_str sc1 es) a k (Some v) n).1 in
  let cached := dset "from_cache" (JBool true) b in
  (res = Ok b \/ res = Ok cached \/ res = Err (HTTPStatusError 404)) /\
  (n <> Up -> res = Ok cached).
Proof.
  intros Hs Hf Hnone. cbv zeta.
  assert (Hpin : exists r, pinned sc1 a k v r b).
  { unfold fetch_config, client_get in Hf. destruct (negb _); [done|].
    destruct (received sc.1 a k (Some v) Up) as [st b'|] eqn:Hrec.
    - destruct (success st) eqn:Hst.
      + injection Hf as -> <-. destruct (received_success _ _ _ _ _ _ _ Hrec Hst) as (r & Hg & Hb).
        destruct (cs_numbered _ _ _ _ _ Hs Hg) as (_ & _ & _ & Hv).
        exists r. unfold pinned; cbn [fst snd]. split_and!; [done..|by rewrite dget_dset_eq|lia|].
        intros r' Hg'. congruence.
      + destruct (Z.ltb st 500); [done|]. unfold from_cache in Hf. by rewrite Hnone in Hf.
    - unfold from_cache in Hf. by rewrite Hnone in Hf. }
  destruct Hpin as [r Hpin]. apply (pinned_all py_str _ _ _ _ _ _ es) in Hpin.
  set (sc2 := advance_all py_str sc1 es) in *. clearbody sc2. destruct Hpin as (Hok & Hp & Hc & Hv & Hr).
  assert (Hk : negb (memb k ["definition"; "overlay"]) = false)
    by (unfold fetch_config, client_get in Hf; by destruct (negb _)).
  unfold fetch_config, client_get. rewrite Hk.
  assert (Hcached : from_cache sc2.2 (a, k, Some v) = Ok (dset "from_cache" (JBool true) b))
    by (unfold from_cache; by rewrite Hc).
  destruct n as [| |m]; cbn [received].
  - split; [|done]. unfold get_config, answer.
    destruct (cs_get sc2.1 a k (Some v)) as [r'|[]] eqn:Hg; cbn; rewrite ?Hcached; auto.
    rewrite (Hr _ eq_refl), Hp. cbn. by left.
  - rewrite Hcached. auto.
  - assert (success (500 + Z.of_nat m) = false) as -> by (apply andb_false_iff; right; apply Z.ltb_ge; lia).
    assert (Z.ltb (500 + Z.of_nat m) 500 = false) as -> by (apply Z.ltb_ge; lia).
    rewrite Hcached. auto.
Qed.

(** ** A plane on concrete input *)

Definition sample_digest : string :=
  "0123456789abcdef0123456789abcdef0123456789abcdef0123456789abcdef".
#[local] Instance sample_store : ConfigStore SqliteConfigStore :=
  sql_config (fun p => if dmem "bad" p then Some "bad" else None) (fun _ => None)
    (fun _ => sample_digest) (fun _ => "").

Definition empty_store (retention : option Q) : SqliteConfigStore :=
  {| retention_seconds := retention; rows := [] |}.
Definition sample_changes : list (change * Q) :=
  [(StoreDefinition "a" [("z", JInt 1); ("b", JInt 2)], 1%Q); (StoreDefinition "a" [("bad", JNull)], 2%Q);
   (StoreDefinition "a" [("b", JInt 3)], 3%Q)].

Lemma empty_store_ok retention : cs_ok (empty_store retention).
Proof. intros a k. split; constructor. Qed.

Definition one_version : SqliteConfigStore :=
  Eval vm_compute in after (empty_store (Some 100%Q)) (take 1 sample_changes).
Lemma one_version_eq : one_version = after (empty_store (Some 100%Q)) (take 1 sample_changes).
Proof. vm_compute. reflexivity. Qed.
Lemma one_version_ok : cs_ok one_version.
Proof. rewrite one_version_eq. apply after_ok, empty_store_ok. Qed.

Definition first_version : ConfigRecord :=
  {| agent := "a"; kind := "definition"; version := 1; payload := [("b", JInt 2); ("z", JInt 1)];
     digest := sample_digest; created_at := 1 |}.

Lemma config_versions_immutable_witness :
  cs_get (after one_version sample_changes) "a" "definition" (Some 1%Z) = Ok first_version /\
  forall r', cs_get (after one_version sample_changes) "a" "definition" (Some 1%Z) = Ok r' -> r' = first_version.
Proof.
  split; [vm_compute; reflexivity|].
  refine (proj1 (config_versions_immutable one_version sample_changes "a" "definition" 1 first_version
    one_version_ok _)). vm_compute. reflexivity.
Defined.

Lemma config_stores_agree_witness :
  @replies _ sample_store (empty_store None) [Change (StoreDefinition "a" [("z", JInt 1); ("b", JInt 2)]) 1;
    Change (Rollback "a" "definition" 1) 2; Get "a" "definition" None] =
  canonical_reply <$> @replies _ (mem_store (fun p => if dmem "bad" p then Some "bad" else None)
    (fun _ => None) (fun _ => sample_digest) (fun _ => ""))
    [] [Change (StoreDefinition "a" [("z", JInt 1); ("b", JInt 2)]) 1;
        Change (Rollback "a" "definition" 1) 2; Get "a" "definition" None].
Proof.
  apply (config_stores_agree (fun p => if dmem "bad" p then Some "bad" else None) (fun _ => None)
    (fun _ => sample_digest) (fun _ => "")); [|done|reflexivity].
  intros p. by rewrite dmem_sorted_dict.
Defined.

Lemma stored_config_boots_witness :
  invalid (fun p => if dmem "bad" p then Some "bad" else None) (fun _ => None) "definition"
    (payload first_version) = None.
Proof.
  refine (proj2 (stored_config_boots (fun p => if dmem "bad" p then Some "bad" else None) (fun _ => None)
    (fun _ => sample_digest) (fun _ => "") (Some 100%Q) sample_changes "a" "definition" (Some 1%Z)
    first_version _ _) _).
  - intros p. by rewrite dmem_sorted_dict.
  - done.
  - vm_compute. reflexivity.
Defined.

Lemma pinned_config_survives_outages_witness :
  exists b, (fetch_config (advance_all (fun _ => "") (one_version, [(("a", "definition", Some 1%Z), b)])
     [Served (PutDefinition "a" [("b", JInt 5)]) 500; Fetched "a" "definition" None Down])
     "a" "definition" (Some 1%Z) Down).1 = Ok (dset "from_cache" (JBool true) b).
Proof.
  destruct (record_payload first_version true) as [b|] eqn:Hb; [|discriminate Hb].
  exists b. refine (proj2 (pinned_config_survives_outages (fun _ => "") (one_version, []) "a" "definition" 1 b
    (one_version, [(("a", "definition", Some 1%Z), b)])
    [Served (PutDefinition "a" [("b", JInt 5)]) 500; Fetched "a" "definition" None Down] Down
    one_version_ok _ eq_refl) _).
  - vm_compute in Hb. injection Hb as <-. vm_compute. reflexivity.
  - discriminate.
Defined.

End ConfigPlane.
