(* ===== verification/A2aStore.v ===== *)
(** * Agent-to-agent tasks: the task store, push callbacks and their sender

    [micro_agent/interoperability/a2a_store.py]: the SQLite task store with its
    paginated listing, the SQLite store of push-notification callbacks and the
    HTTP sender.  Tasks and callbacks are values of the A2A SDK: their types,
    the fields that the stores read, their JSON text and the page tokens are
    parameters.  A table is an association list keyed by its primary key. *)

From S2P Require Import Prelude Json.

Module A2aStore.
Local Open Scope string_scope.

(** ** The tenant of a call *)

(** [ServerCallContext]: its [state] when that is a mapping, and the tenant
    attribute of its user. *)
Record call_context : Type := {
  context_state : option (list (string * json));
  user_tenant : option json
}.

Definition DEFAULT_TENANT : string := "__default__".

Section tenant.
Context (py_str : json -> string).

(** The first truthy value. *)
Fixpoint first_truthy (l : list (option json)) : option json :=
  match l with
  | [] => None
  | Some j :: l => if py_truthy j then Some j else first_truthy l
  | None :: l => first_truthy l
  end.

Definition tenant_from_context (context : option call_context) : string :=
  match context with
  | None => DEFAULT_TENANT
  | Some c =>
      let state := default [] (context_state c) in
      match first_truthy [dget "tenant_id" state; dget "tenant" state; user_tenant c] with
      | Some j => py_text py_str j
      | None => DEFAULT_TENANT
      end
  end.
End tenant.

(** ** The task store *)

Inductive error : Type :=
  | ValueError (what : string)
  | IndexError
  | ParseError.                      (** a stored document that does not parse *)

Record row : Type := {
  row_context_id : string;
  task_json : string;
  created_at : Q;
  updated_at : Q;
  expires_at : Q
}.

Abbreviation key := (string * string)%type (only parsing).   (* tenant, task id *)

Record SqliteA2ATaskStore : Type := {
  ttl_seconds : Q;
  max_task_bytes : nat;
  tasks : list (key * row)
}.

Definition with_tasks (s : SqliteA2ATaskStore) (l : list (key * row)) : SqliteA2ATaskStore :=
  {| ttl_seconds := ttl_seconds s; max_task_bytes := max_task_bytes s; tasks := l |}.

Record list_params : Type := {
  by_context : string;
  by_status : Z;
  page_size : Z;
  page_token : string
}.

Section store.
Context {Task : Type}.
Context (task_id context_id timestamp : Task -> string) (state : Task -> Z).
Context (to_json : Task -> string) (of_json : string -> option Task).
Context (encode_page_token : string -> string) (decode_page_token : string -> option string).

Record page : Type := {
  page_tasks : list Task;
  next_page_token : string;
  total_size : nat;
  effective_page_size : Z
}.

(** [DELETE FROM a2a_tasks WHERE expires_at <= ?] *)
Definition live (now : Q) (kx : key * row) : bool := negb (expires_at kx.2 <=? now)%clock.
Definition delete_expired (now : Q) (l : list (key * row)) : list (key * row) := filterb (live now) l.

(** [INSERT ... ON CONFLICT DO UPDATE]: a conflict keeps [created_at] and [expires_at]. *)
Definition upsert (k : key) (t : Task) (now ttl : Q) (l : list (key * row)) : list (key * row) :=
  let x := match dget k l with
           | None => {| row_context_id := context_id t; task_json := to_json t; created_at := now;
                        updated_at := now; expires_at := now + ttl |}
           | Some old => {| row_context_id := context_id t; task_json := to_json t;
                            created_at := created_at old; updated_at := now;
                            expires_at := expires_at old |}
           end in
  dset k x l.

Definition save (s : SqliteA2ATaskStore) (tenant : string) (t : Task) (now : Q)
  : result error unit * SqliteA2ATaskStore :=
  if Nat.ltb (max_task_bytes s) (String.length (to_json t))
  then (Err (ValueError "A2A task exceeds the configured persistence limit"), s)
  else if negb (str_truthy (task_id t)) || negb (str_truthy (context_id t))
  then (Err (ValueError "A2A tasks require non-empty id and context_id"), s)
  else (Ok tt, with_tasks s (delete_expired now (upsert (tenant, task_id t) t now (ttl_seconds s) (tasks s)))).

Definition parse (text : string) : result error Task :=
  match of_json text with Some t => Ok t | None => Err ParseError end.

(** A row that is not there or expired is deleted. *)
Definition get (s : SqliteA2ATaskStore) (tenant id : string) (now : Q)
  : result error (option Task) * SqliteA2ATaskStore :=
  match dget (tenant, id) (tasks s) with
  | Some x =>
      if live now ((tenant, id), x) then (Some <$> parse (task_json x), s)
      else (Ok None, with_tasks s (dpop (tenant, id) (tasks s)))
  | None => (Ok None, with_tasks s (dpop (tenant, id) (tasks s)))
  end.

Definition delete (s : SqliteA2ATaskStore) (tenant id : string) : SqliteA2ATaskStore :=
  with_tasks s (dpop (tenant, id) (tasks s)).

Definition purge_expired (s : SqliteA2ATaskStore) (now : Q) : nat * SqliteA2ATaskStore :=
  (length (filterb (fun kx => negb (live now kx)) (tasks s)), with_tasks s (delete_expired now (tasks s))).

(** *** Listing *)

Definition of_tenant (tenant : string) (kx : key * row) : bool := String.eqb kx.1.1 tenant.

(** [tasks.sort(key=lambda t: (timestamp, id), reverse=True)] *)
Definition newest_first (a b : Task) : bool :=
  str2_leb (timestamp b, task_id b) (timestamp a, task_id a).

Definition selected (p : list_params) (t : Task) : bool :=
  (negb (str_truthy (by_context p)) || String.eqb (context_id t) (by_context p)) &&
  (Z.eqb (by_status p) 0 || Z.eqb (state t) (by_status p)).

(** Position of the first task with this id. *)
Fixpoint index_of (marker : string) (l : list Task) : option nat :=
  match l with
  | [] => None
  | t :: l => if String.eqb (task_id t) marker then Some 0 else S <$> index_of marker l
  end.

Definition invalid_token : error := ValueError "invalid A2A page token".

Definition start_index (token : string) (l : list Task) : result error nat :=
  if negb (str_truthy token) then Ok 0
  else match decode_page_token token ≫= fun m => index_of m l with
       | Some i => Ok i
       | None => Err invalid_token
       end.

(** [tasks[start:stop]] and [tasks[i]]: negative positions count from the end. *)
Definition from_end (l : list Task) (i : Z) : Z := if (i <? 0)%Z then (Z.of_nat (length l) + i)%Z else i.
Definition slice (l : list Task) (start : nat) (stop : Z) : list Task :=
  drop start (take (Z.to_nat (from_end l stop)) l).
Definition item (l : list Task) (i : Z) : result error Task :=
  if (from_end l i <? 0)%Z then Err IndexError
  else match l !! Z.to_nat (from_end l i) with Some t => Ok t | None => Err IndexError end.

Definition page_of (p : list_params) (l : list Task) : result error page :=
  let total := length l in
  let size := if Z.eqb (page_size p) 0 then 50%Z else page_size p in
  start ← start_index (page_token p) l;
  let stop := (Z.of_nat start + size)%Z in
  next ← (if (stop <? Z.of_nat total)%Z
          then t ← item l stop; Ok (encode_page_token (task_id t)) else Ok "");
  Ok {| page_tasks := slice l start stop; next_page_token := next; total_size := total;
        effective_page_size := size |}.

Definition matching (s : SqliteA2ATaskStore) (tenant : string) (p : list_params) (now : Q)
  : result error (list Task) :=
  ts ← mapM parse (task_json <$> dvalues (filterb (fun kx => of_tenant tenant kx && live now kx) (tasks s)));
  Ok (sort_by newest_first (filterb (selected p) ts)).

Definition list_tasks (s : SqliteA2ATaskStore) (tenant : string) (p : list_params) (now : Q)
  : result error page * SqliteA2ATaskStore :=
  (matching s tenant p now ≫= page_of p, with_tasks s (delete_expired now (tasks s))).

(** ** What is stored is what reads back *)

(** Documented behaviour of the SDK: its serializers are inverse to each other,
    and page tokens decode to what they encode and are never empty. *)
Definition serializer_roundtrip : Prop := forall t, of_json (to_json t) = Some t.
Definition token_roundtrip : Prop :=
  forall i, decode_page_token (encode_page_token i) = Some i /\ str_truthy (encode_page_token i) = true.

(** Every row holds a task of its own id. *)
Definition store_ok (s : SqliteA2ATaskStore) : Prop :=
  NoDup (dkeys (tasks s)) /\
  forall k x, (k, x) ∈ tasks s -> exists t, of_json (task_json x) = Some t /\ task_id t = k.2 /\ context_id t = row_context_id x.

Lemma dget_delete_expired now k l :
  NoDup (dkeys l) ->
  dget k (delete_expired now l) =
    match dget k l with Some x => if live now (k, x) then Some x else None | None => None end.
Proof.
  intros Hnd. unfold delete_expired. destruct (dget k l) as [x|] eqn:Hx.
  - destruct (live now (k, x)) eqn:Hl.
    + apply elem_dget; [by apply NoDup_filterb|]. apply elem_of_filterb. split; [by apply dget_elem|done].
    + apply dget_None. intros ([k' x'] & -> & Hin)%list_elem_of_fmap.
      apply elem_of_filterb in Hin as [Hin Hl']. cbn [fst] in *. apply elem_dget in Hin; [|done].
    rewrite Hin in Hx. injection Hx as ->. congruence.
  - apply dget_None. apply dget_None in Hx. intros Hin. apply Hx.
    apply list_elem_of_fmap in Hin as (e & -> & He%elem_of_filterb). apply list_elem_of_fmap.
    exists e. by destruct He.
Qed.

Lemma get_read s tenant id now :
  (get s tenant id now).1 =
    match dget (tenant, id) (tasks s) with
    | Some x => if live now ((tenant, id), x) then Some <$> parse (task_json x) else Ok None
    | None => Ok None
    end.
Proof. unfold get. destruct (dget _ _) as [x|]; [|done]. by destruct (live _ _). Qed.

(** When the row of a saved task expires: a new row after the TTL, a row that
    was there when it always would. *)
Definition expiry (s : SqliteA2ATaskStore) (tenant id : string) (now : Q) : Q :=
  match dget (tenant, id) (tasks s) with
  | Some old => expires_at old
  | None => now + ttl_seconds s
  end.

Lemma save_ok s tenant t now r s' :
  serializer_roundtrip -> store_ok s -> save s tenant t now = (r, s') -> store_ok s'.
Proof.
  intros Hser [Hnd Hs]. unfold save. destruct (Nat.ltb _ _); [by intros [= _ <-]|].
  destruct (_ || _); [by intros [= _ <-]|]. intros [= _ <-]. split; cbn [with_tasks tasks].
  - by apply NoDup_filterb, NoDup_dset.
  - intros k x [Hin _]%elem_of_filterb. apply elem_dset in Hin as [[= -> ->]|Hin]; [|by apply Hs].
    exists t. destruct (dget _ _); cbn; by rewrite Hser.
Qed.

Lemma save_get s tenant t now s' later :
  serializer_roundtrip -> store_ok s -> (0 < ttl_seconds s)%Q -> save s tenant t now = (Ok tt, s') ->
  let e := expiry s tenant (task_id t) now in
  (get s' tenant (task_id t) later).1 = Ok (if (e <=? now)%clock || (e <=? later)%clock then None else Some t).
Proof.
  intros Hser [Hnd _] Httl. unfold save. destruct (Nat.ltb _ _); [done|]. destruct (_ || _); [done|].
  intros [= <-]. cbv zeta. rewrite get_read. cbn [with_tasks tasks].
  rewrite dget_delete_expired by by apply NoDup_dset. unfold upsert. rewrite dget_dset_eq.
  unfold expiry, live, parse. destruct (dget _ (tasks s)) as [old|]; cbn [expires_at task_json snd];
    (destruct (_ <=? now)%clock; cbn [negb orb]; [done|]);
    (destruct (_ <=? later)%clock; cbn [negb orb]; [done|]); cbn [task_json]; by rewrite Hser.
Qed.

(** No other task is touched, apart from removing what has expired. *)
Lemma save_get_other s tenant t now r s' tenant' id later :
  NoDup (dkeys (tasks s)) -> (now <= later)%Q -> save s tenant t now = (r, s') ->
  (tenant', id) <> (tenant, task_id t) -> (get s' tenant' id later).1 = (get s tenant' id later).1.
Proof.
  intros Hnd Hle. unfold save. destruct (Nat.ltb _ _); [by intros [= _ <-]|].
  destruct (_ || _); [by intros [= _ <-]|]. intros [= _ <-] Hne. rewrite !get_read. cbn [with_tasks tasks].
  rewrite dget_delete_expired by by apply NoDup_dset. unfold upsert. rewrite dget_dset_ne by done.
  destruct (dget (tenant', id) (tasks s)) as [x|]; [|done]. unfold live. cbn [snd].
  destruct (expires_at x <=? now)%clock eqn:E; cbn [negb]; [|done].
  assert ((expires_at x <=? later)%clock = true) as -> by clock_lra. done.
Qed.

(** ** Pages *)

Definition with_token (p : list_params) (token : string) : list_params :=
  {| by_context := by_context p; by_status := by_status p; page_size := page_size p; page_token := token |}.

(** A client that follows [next_page_token] to the end. *)
Fixpoint collect (fuel : nat) (s : SqliteA2ATaskStore) (tenant : string) (p : list_params) (now : Q)
  : result error (list Task) :=
  match fuel with
  | 0 => Ok []
  | S fuel =>
      let '(r, s) := list_tasks s tenant p now in
      pg ← r;
      if str_truthy (next_page_token pg)
      then rest ← collect fuel s tenant (with_token p (next_page_token pg)) now;
           Ok (page_tasks pg ++ rest)%list
      else Ok (page_tasks pg)
  end.

Lemma index_of_lookup l i t :
  NoDup (task_id <$> l) -> l !! i = Some t -> index_of (task_id t) l = Some i.
Proof.
  revert i. induction l as [|x l IH]; intros [|i] Hnd Hi; cbn in *; try done.
  - injection Hi as ->. by rewrite String.eqb_refl.
  - apply NoDup_cons in Hnd as [Hx Hnd]. destruct (String.eqb_spec (task_id x) (task_id t)) as [He|].
    + exfalso. apply Hx. rewrite He. apply list_elem_of_fmap. exists t. split; [done|].
      by eapply list_elem_of_lookup_2.
    + by rewrite (IH i).
Qed.

(** One page, from the position its token stands for. *)
Lemma page_of_at p l start size :
  token_roundtrip -> NoDup (task_id <$> l) -> (0 < size)%Z ->
  size = (if Z.eqb (page_size p) 0 then 50 else page_size p)%Z ->
  (page_token p = "" /\ start = 0 \/
   exists t, l !! start = Some t /\ page_token p = encode_page_token (task_id t)) ->
  exists pg, page_of p l = Ok pg /\ page_tasks pg = take (Z.to_nat size) (drop start l) /\
    match l !! (start + Z.to_nat size) with
    | Some t => next_page_token pg = encode_page_token (task_id t)
    | None => next_page_token pg = ""
    end.
Proof.
  intros Htok Hnd Hpos Hsize Hstart. unfold page_of. rewrite <-Hsize.
  assert (start_index (page_token p) l = Ok start) as ->.
  { unfold start_index. destruct Hstart as [[-> ->]|(t & Ht & ->)]; [done|].
    destruct (Htok (task_id t)) as [Hd ->]. cbn [negb]. rewrite Hd. cbn. by rewrite (index_of_lookup _ _ _ Hnd Ht). }
  cbn [mbind result_bind]. set (stop := (Z.of_nat start + size)%Z).
  assert (Hstop : Z.to_nat stop = start + Z.to_nat size) by (unfold stop; lia).
  assert (Hend : forall i, (0 <= i)%Z -> from_end l i = i) by (intros i Hi; unfold from_end; by destruct (Z.ltb_spec i 0); [lia|]).
  assert (Hslice : slice l start stop = take (Z.to_nat size) (drop start l)).
  { unfold slice. rewrite Hend by lia. rewrite Hstop, take_drop_commute. done. }
  unfold item. rewrite Hend by lia. rewrite Hstop.
  assert ((stop <? 0)%Z = false) as -> by (apply Z.ltb_ge; lia).
  destruct (Z.ltb_spec stop (Z.of_nat (length l))) as [Hlt|Hge].
  - destruct (lookup_lt_is_Some_2 l (start + Z.to_nat size)) as [t Ht]; [lia|]. rewrite Ht. cbn.
    eexists. split; [done|]. by rewrite Hslice.
  - rewrite lookup_ge_None_2 by lia. cbn. eexists. split; [done|]. by rewrite Hslice.
Qed.

Lemma delete_expired_idemp now l : delete_expired now (delete_expired now l) = delete_expired now l.
Proof. apply filterb_all. by intros x [_ Hx]%elem_of_filterb. Qed.

Lemma matching_deleted s tenant p now :
  matching (with_tasks s (delete_expired now (tasks s))) tenant p now = matching s tenant p now.
Proof.
  unfold matching, delete_expired. cbn [with_tasks tasks]. rewrite filterb_andb.
  erewrite filterb_ext; [done|]. intros x _. cbn. destruct (of_tenant tenant x), (live now x); done.
Qed.

(** What is left of a listing from the position of a token. *)
Lemma collect_from fuel s tenant p now l start size :
  token_roundtrip -> NoDup (task_id <$> l) -> (0 < size)%Z ->
  size = (if Z.eqb (page_size p) 0 then 50 else page_size p)%Z ->
  matching s tenant p now = Ok l ->
  (page_token p = "" /\ start = 0 \/
   exists t, l !! start = Some t /\ page_token p = encode_page_token (task_id t)) ->
  length l - start < fuel -> collect fuel s tenant p now = Ok (drop start l).
Proof.
  intros Htok Hnd Hpos. revert s p start. induction fuel as [|fuel IH]; intros s p start Hsize Hm Hstart Hf; [lia|].
  cbn [collect]. unfold list_tasks. rewrite Hm. cbn [mbind result_bind].
  destruct (page_of_at p l start size Htok Hnd Hpos Hsize Hstart) as (pg & -> & Hpage & Hnext).
  cbn [mbind result_bind].
  destruct (l !! (start + Z.to_nat size)) as [t|] eqn:Ht.
  - rewrite Hnext. destruct (Htok (task_id t)) as [_ Htrue]. rewrite Htrue.
    rewrite (IH _ (with_token p (encode_page_token (task_id t))) (start + Z.to_nat size)); [|done| | |].
    + cbn. rewrite Hpage, <-drop_drop. by rewrite take_drop.
    + rewrite <-Hm. apply (matching_deleted s tenant p now).
    + right. by exists t.
    + apply lookup_lt_Some in Ht. lia.
  - rewrite Hnext. cbn. rewrite Hpage. apply lookup_ge_None in Ht. by rewrite take_ge by (rewrite length_drop; lia).
Qed.

Lemma mapM_parse_ok (l : list (key * row)) :
  (forall k x, (k, x) ∈ l -> exists t, of_json (task_json x) = Some t /\ task_id t = k.2) ->
  exists ts, mapM parse (task_json <$> dvalues l) = Ok ts /\ task_id <$> ts = snd <$> dkeys l.
Proof.
  induction l as [|[k x] l IH]; intros Hl; [by exists []|].
  destruct (Hl k x) as (t & Ht & Hid); [left|].
  destruct IH as (ts & Hts & Hids); [intros k' x' Hin; apply Hl; by right|].
  assert (Hp : parse (task_json x) = Ok t) by (unfold parse; by rewrite Ht).
  exists (t :: ts). split.
  - apply mapM_ok. apply mapM_ok in Hts. by constructor.
  - cbn. f_equal; [done | exact Hids].
Qed.

Lemma tenant_ids_NoDup tenant (l : list (key * row)) :
  NoDup (dkeys l) -> (forall kx, kx ∈ l -> of_tenant tenant kx = true) -> NoDup (snd <$> dkeys l).
Proof.
  intros Hnd Ht. unfold dkeys in *. apply NoDup_fmap_2_strong; [|done].
  intros [a i] [b j] Ha Hb Heq. cbn in Heq. subst.
  apply list_elem_of_fmap in Ha as ([k x] & Hk & Ha), Hb as ([k' x'] & Hk' & Hb). cbn in *. subst.
  apply Ht in Ha, Hb. apply String.eqb_eq in Ha, Hb. cbn in *. congruence.
Qed.

Lemma matching_ok s tenant p now :
  store_ok s -> exists l, matching s tenant p now = Ok l /\ NoDup (task_id <$> l) /\
    forall t, t ∈ l <-> (get s tenant (task_id t) now).1 = Ok (Some t) /\ selected p t = true.
Proof.
  intros [Hnd Hs]. unfold matching.
  set (mine := filterb (fun kx => of_tenant tenant kx && live now kx) (tasks s)).
  assert (Hmine : forall kx, kx ∈ mine <-> kx ∈ tasks s /\ of_tenant tenant kx = true /\ live now kx = true)
    by (intros kx; unfold mine; by rewrite elem_of_filterb, andb_true_iff).
  destruct (mapM_parse_ok mine) as (ts & Hts & Hids).
  { intros k x Hin. apply Hmine in Hin as [Hin _]. destruct (Hs k x Hin) as (t & Ht & Hid & _). by exists t. }
  rewrite Hts. cbn. eexists. split; [done|].
  assert (Hndt : NoDup (task_id <$> ts)).
  { rewrite Hids. apply (tenant_ids_NoDup tenant); [by apply NoDup_filterb|].
    intros kx Hin. by apply Hmine in Hin as (_ & ? & _). }
  split.
  - rewrite sort_by_perm. by eapply sublist_NoDup; [|apply fmap_sublist, filterb_sublist].
  - intros t. rewrite elem_of_sort_by, elem_of_filterb, get_read.
    apply mapM_ok in Hts. split; intros [Hin Hsel]; (split; [|done]).
    + apply list_elem_of_lookup_1 in Hin as [i Hi].
      destruct (Forall2_lookup_r _ _ _ _ _ Hts Hi) as (txt & Htxt & Hp).
      apply list_elem_of_lookup_2, list_elem_of_fmap in Htxt as (x & -> & Hx).
      apply list_elem_of_fmap in Hx as ([k x'] & -> & Hx). apply Hmine in Hx as (Hx & Hten & Hl).
      cbn [snd] in *. unfold parse in Hp. destruct (of_json (task_json x')) as [t'|] eqn:Ht'; [|done].
      injection Hp as ->. destruct (Hs k x' Hx) as (t' & Ht & Hid & _). rewrite Ht' in Ht. injection Ht as <-.
      apply String.eqb_eq in Hten. destruct k as [a i']. cbn in *. subst.
      rewrite (elem_dget _ _ _ Hnd Hx), Hl. unfold parse. by rewrite Ht'.
    + destruct (dget (tenant, task_id t) (tasks s)) as [x|] eqn:Hx; [|done].
      destruct (live now ((tenant, task_id t), x)) eqn:Hl; [|done].
      unfold parse in Hin. destruct (of_json (task_json x)) as [t'|] eqn:Ht'; [|done]. injection Hin as ->.
      assert (Hm : ((tenant, task_id t), x) ∈ mine).
      { apply Hmine. split; [by apply dget_elem|]. split; [apply String.eqb_refl | done]. }
      assert (Htxt : task_json x ∈ task_json <$> dvalues mine).
      { apply list_elem_of_fmap. exists x. split; [done|]. apply list_elem_of_fmap. by eexists (_, x). }
      apply list_elem_of_lookup_1 in Htxt as [i Hi].
      destruct (Forall2_lookup_l _ _ _ _ _ Hts Hi) as (t'' & Hi' & Hp).
      unfold parse in Hp. rewrite Ht' in Hp. injection Hp as <-. by eapply list_elem_of_lookup_2.
Qed.
End store.

(** ** Push callbacks *)

(** What the sender reads of an SDK configuration. *)
Record push_config : Type := {
  config_id : option string;
  url : string;
  token : option string;
  schemes : option (list string);   (** [authentication.schemes], or its [scheme] when that is missing *)
  scheme : string;
  credentials : option string
}.

Record push_row : Type := {
  config : push_config;
  push_created_at : Q;
  push_updated_at : Q
}.

(** Keyed by task and configuration id. *)
Abbreviation push_table := (list ((string * string) * push_row)) (only parsing).

Definition set_info (l : push_table) (task : string) (c : push_config) (fresh : string) (now : Q) : push_table :=
  let k := (task, opt_or (config_id c) fresh) in
  dset k {| config := c; push_created_at := from_option push_created_at now (dget k l);
            push_updated_at := now |} l.

(** [ORDER BY created_at] *)
Definition get_info (l : push_table) (task : string) : list push_config :=
  config <$> sort_by (fun a b => push_created_at a <=? push_created_at b)%clock
               (dvalues (filterb (fun kx => String.eqb kx.1.1 task) l)).

Definition delete_info (l : push_table) (task : string) (id : option string) : push_table :=
  if opt_truthy id then dpop (task, default "" id) l
  else filterb (fun kx => negb (String.eqb kx.1.1 task)) l.

(** ** The sender *)

(** The parts of a URL, as [urllib.parse.urlsplit] gives them. *)
Record url_parts : Type := { url_scheme : string; netloc : string; hostname : option string }.

Inductive outcome : Type :=
  | Answered (status : Z)
  | TransportFailed                 (** [httpx.TransportError] *)
  | Raised.                         (** anything else, a cancelled task included *)

Inductive event : Type :=
  | Posted (c : push_config) (headers : list (string * string)) (attempt : nat) (o : outcome)
  | Slept (seconds : Q).

Inductive send_error : Type := BadUrl (what : string) | TooLarge | PostRaised.

Section sender.
Context (urlsplit : string -> url_parts).
Context (max_attempts : nat) (backoff_seconds : Q) (allow_local_http : bool).
Context (allowed_hosts : option (list string)) (max_payload_bytes : nat).
(** The outcome of the [n]-th POST; the allowed hosts are in lower case. *)
Context (post : nat -> outcome).

Definition validate_url (u : string) : option string :=
  let p := urlsplit u in
  if negb (memb (url_scheme p) ["https"; "http"]) || negb (str_truthy (netloc p))
  then Some "push notification URL must be an absolute HTTP(S) URL"
  else
    let host := py_lower (opt_or (hostname p) "") in
    let local := memb host ["localhost"; "127.0.0.1"; "::1"] in
    if negb (String.eqb (url_scheme p) "https") && negb (allow_local_http && local)
    then Some "push notification callbacks must use HTTPS"
    else match allowed_hosts with
         | Some hosts => if memb host hosts then None
                         else Some "push notification callback host is not allowed"
         | None => None
         end.

Definition request_headers (c : push_config) : list (string * string) :=
  let hs := [("Content-Type", "application/json")] in
  let hs := if opt_truthy (token c) then dset "X-A2A-Notification-Token" (default "" (token c)) hs else hs in
  let names := py_lower <$> match schemes c with Some l => l | None => [scheme c] end in
  if opt_truthy (credentials c) then
    if memb "bearer" names
    then dset "Authorization" ("Bearer " ++ default "" (credentials c)) hs
    else dset "X-A2A-Notification-Credentials" (default "" (credentials c)) hs
  else hs.

(** Whether an outcome asks for another attempt. *)
Definition again (o : outcome) : bool :=
  match o with
  | Answered st => negb (st <? 400)%Z && negb ((st <? 500)%Z && negb (Z.eqb st 429))
  | TransportFailed => true
  | Raised => false
  end.

(** The attempts for one callback: [more] of them remain, the next has index
    [k], and [n] POSTs were made before. *)
Fixpoint deliver (more k n : nat) (c : push_config) : result send_error unit * list event * nat :=
  match more with
  | 0 => (Ok tt, [], n)
  | S more =>
      let o := post n in
      let sent := Posted c (request_headers c) k o in
      match o with
      | Raised => (Err PostRaised, [sent], S n)
      | _ =>
          if again o && Nat.ltb (S k) max_attempts then
            let '(r, es, n) := deliver more (S k) (S n) c in
            (r, sent :: Slept (backoff_seconds * inject_Z (2 ^ Z.of_nat k)) :: es, n)
          else (Ok tt, [sent], S n)
      end
  end.

Fixpoint deliver_all (cs : list push_config) (n : nat) : result send_error unit * list event * nat :=
  match cs with
  | [] => (Ok tt, [], n)
  | c :: cs =>
      match validate_url (url c) with
      | Some what => (Err (BadUrl what), [], n)
      | None =>
          let '(r, es, n) := deliver max_attempts 0 n c in
          match r with
          | Err e => (Err e, es, n)
          | Ok _ => let '(r, es', n) := deliver_all cs n in (r, es ++ es', n)%list
          end
      end
  end.

Definition send_notification (l : push_table) (task : string) (payload_bytes : nat)
  : result send_error unit * list event :=
  if Nat.ltb max_payload_bytes payload_bytes then (Err TooLarge, [])
  else let '(r, es, _) := deliver_all (get_info l task) 0 in (r, es).

(** *** What a delivery sends *)

Definition posts (es : list event) : nat :=
  length (filterb (fun e => match e with Posted _ _ _ _ => true | Slept _ => false end) es).

(** Every later attempt follows one of the same callback that asked for it. *)
Definition justified (es : list event) (k0 : nat) : Prop :=
  forall i c hs k o, es !! i = Some (Posted c hs k o) -> k = k0 \/
    exists k' hs' o', k = S k' /\ Posted c hs' k' o' ∈ take i es /\ again o' = true.

Lemma justified_app es es' : justified es 0 -> justified es' 0 -> justified (es ++ es')%list 0.
Proof.
  intros H1 H2 i c hs k o [Hi|[Hle Hi]]%lookup_app_Some.
  - destruct (H1 _ _ _ _ _ Hi) as [?|(k' & hs' & o' & -> & Hin & Ha)]; [by left|].
    right. exists k', hs', o'. split_and!; [done| |done].
    rewrite take_app_le by (apply lookup_lt_Some in Hi; lia). done.
  - destruct (H2 _ _ _ _ _ Hi) as [?|(k' & hs' & o' & -> & Hin & Ha)]; [by left|].
    right. exists k', hs', o'. split_and!; [done| |done].
    rewrite take_app_ge by done. apply elem_of_app. by right.
Qed.

Lemma deliver_sends more k n c r es n' :
  deliver more k n c = (r, es, n') ->
  (forall c' hs j o, Posted c' hs j o ∈ es -> c' = c /\ hs = request_headers c /\ j < k + more) /\
  justified es k /\ posts es <= more /\
  (0 < more -> exists o, Posted c (request_headers c) k o ∈ es).
Proof.
  revert k n r es n'. induction more as [|more IH]; intros k n r es n' Hd; cbn [deliver] in Hd.
  { simplify_eq. split_and!; [set_solver|by intros ? ? ? ? ?|cbn; lia|lia]. }
  cbv zeta in Hd.
  assert (Hone : forall o, es = [Posted c (request_headers c) k o] ->
    (forall c' hs j o, Posted c' hs j o ∈ es -> c' = c /\ hs = request_headers c /\ j < k + S more) /\
    justified es k /\ posts es <= S more /\ (0 < S more -> exists o, Posted c (request_headers c) k o ∈ es)).
  { intros o ->. split_and!.
    - intros c' hs j o' [= -> -> -> ->]%list_elem_of_singleton. split_and!; (done || lia).
    - intros [|i] c' hs j o'; cbn; [intros ?; simplify_eq; by left|done].
    - cbn. lia.
    - intros _. exists o. left. }
  destruct (again (post n) && Nat.ltb (S k) max_attempts) eqn:Hagain;
    [|destruct (post n) as [st| |]; simplify_eq; by eapply Hone].
  destruct (deliver more (S k) (S n) c) as [[r1 es1] n1] eqn:Hrec.
  apply andb_true_iff in Hagain as [Hagain _].
  assert (es = Posted c (request_headers c) k (post n) ::
               Slept (backoff_seconds * inject_Z (2 ^ Z.of_nat k)) :: es1) as ->
    by (destruct (post n); [by simplify_eq|by simplify_eq|done]).
  apply IH in Hrec as (H1 & H2 & H3 & _). clear Hone Hd. split_and!.
  - intros c' hs j o [[= -> -> -> ->]|[?|Hin]%elem_of_cons]%elem_of_cons; [split_and!; (done || lia)|done|].
    destruct (H1 _ _ _ _ Hin) as (? & ? & ?). split_and!; (done || lia).
  - intros [|[|i]] c' hs j o Hi; cbn in Hi; [simplify_eq; by left|done|].
    right. destruct (H2 i c' hs j o Hi) as [->|(k' & hs' & o' & -> & Hin & Ha)].
    + exists k, (request_headers c), (post n). split_and!; [done| |done].
      destruct (H1 _ _ _ _ (list_elem_of_lookup_2 _ _ _ Hi)) as (-> & _). left.
    + exists k', hs', o'. split_and!; [done| |done]. cbn. right. by right.
  - unfold posts in *. cbn. lia.
  - intros _. eexists. left.
Qed.

Lemma deliver_all_sends cs n r es n' :
  deliver_all cs n = (r, es, n') ->
  (forall c hs j o, Posted c hs j o ∈ es -> c ∈ cs /\ validate_url (url c) = None /\ j < max_attempts) /\
  justified es 0 /\ posts es <= length cs * max_attempts /\
  (r = Ok tt -> 0 < max_attempts -> forall c, c ∈ cs -> exists o, Posted c (request_headers c) 0 o ∈ es).
Proof.
  revert n r es n'. induction cs as [|c cs IH]; intros n r es n' Hd; cbn in Hd.
  { simplify_eq. split_and!; [set_solver|by intros ? ? ? ? ?|cbn; lia|set_solver]. }
  destruct (validate_url (url c)) as [what|] eqn:Hv.
  { simplify_eq. split_and!; [set_solver|by intros ? ? ? ? ?|cbn; lia|done]. }
  destruct (deliver max_attempts 0 n c) as [[r1 es1] n1] eqn:H1.
  apply deliver_sends in H1 as (Ha & Hb & Hc & Hdd).
  destruct r1 as [[]|e].
  - destruct (deliver_all cs n1) as [[r2 es2] n2] eqn:H2. simplify_eq.
    apply IH in H2 as (Ha' & Hb' & Hc' & Hd'). split_and!.
    + intros c' hs j o [Hin|Hin]%elem_of_app.
      * destruct (Ha _ _ _ _ Hin) as (-> & _ & ?). split_and!; [left|done|lia].
      * destruct (Ha' _ _ _ _ Hin) as (? & ? & ?). split_and!; [by right|done|done].
    + by apply justified_app.
    + unfold posts in *. rewrite List.filter_app, length_app. cbn. lia.
    + intros Hr Hpos c' [->|Hin]%elem_of_cons.
      * destruct (Hdd Hpos) as [o Ho]. exists o. apply elem_of_app. by left.
      * destruct (Hd' Hr Hpos c' Hin) as [o Ho]. exists o. apply elem_of_app. by right.
  - simplify_eq. split_and!; [|done|cbn; lia|done].
    intros c' hs j o Hin. destruct (Ha _ _ _ _ Hin) as (-> & _ & ?). split_and!; [left|done|lia].
Qed.
End sender.

(** ** The theorems *)

(** A saved task reads back until its row expires, and no other task is
    touched.  A save that is accepted makes the task readable, as it was
    given, until the expiry of its row: the TTL from now for a new task, the
    expiry it already had for a task that was saved before.  Tasks under
    another tenant or another id read as they did. *)
Theorem saved_task_lifetime {Task} (task_id context_id : Task -> string) to_json of_json s tenant t now s' :
  serializer_roundtrip to_json of_json -> store_ok task_id context_id of_json s -> (0 < ttl_seconds s)%Q ->
  save task_id context_id to_json s tenant t now = (Ok tt, s') ->
  let e := expiry s tenant (task_id t) now in
  (forall later, (get of_json s' tenant (task_id t) later).1 =
     Ok (if (e <=? now)%clock || (e <=? later)%clock then None else Some t)) /\
  (forall tenant' id later, (tenant', id) <> (tenant, task_id t) -> (now <= later)%Q ->
     (get of_json s' tenant' id later).1 = (get of_json s tenant' id later).1).
Proof.
  intros Hser Hok Httl Hsave e. split.
  - intros later. by eapply save_get.
  - intros tenant' id later Hne Hle. eapply save_get_other; [apply Hok|done|exact Hsave|done].
Qed.

Lemma save_keeps_expiry {Task} (task_id context_id : Task -> string) to_json s tenant u tm e x :
  NoDup (dkeys (tasks s)) -> dget (tenant, task_id u) (tasks s) = Some x -> expires_at x = e -> (tm < e)%Q ->
  let s' := (save task_id context_id to_json s tenant u tm).2 in
  NoDup (dkeys (tasks s')) /\
  exists x', dget (tenant, task_id u) (tasks s') = Some x' /\ expires_at x' = e.
Proof.
  intros Hnd Hx He Htm. cbv zeta. unfold save. destruct (Nat.ltb _ _); [eauto|]. destruct (_ || _); [eauto|].
  cbn [snd with_tasks tasks]. split; [by apply NoDup_filterb, NoDup_dset|].
  rewrite dget_delete_expired by by apply NoDup_dset. unfold upsert. rewrite dget_dset_eq, Hx.
  unfold live. cbn [expires_at snd]. rewrite He.
  assert ((e <=? tm)%clock = false) as -> by clock_lra. eauto.
Qed.

(** Updating a task does not keep it alive, and an update after it expired
    is lost.  However often a task is saved again before the TTL of its first
    save has passed, it is gone from that moment on; and the first save from
    that moment on is accepted and stores nothing. *)
Theorem task_expires_from_first_save {Task} (task_id context_id : Task -> string) to_json
    (of_json : string -> option Task)
    s tenant t now s1 updates late tm s2 later :
  NoDup (dkeys (tasks s)) -> dget (tenant, task_id t) (tasks s) = None -> (0 < ttl_seconds s)%Q ->
  save task_id context_id to_json s tenant t now = (Ok tt, s1) ->
  Forall (fun u => task_id u.1 = task_id t /\ (u.2 < now + ttl_seconds s)%Q) updates ->
  let s' := foldl (fun s u => (save task_id context_id to_json s tenant u.1 u.2).2) s1 updates in
  (now + ttl_seconds s <= later)%Q ->
  (get of_json s' tenant (task_id t) later).1 = Ok None /\
  (task_id late = task_id t -> (now + ttl_seconds s <= tm)%Q ->
   save task_id context_id to_json s' tenant late tm = (Ok tt, s2) ->
   (get of_json s2 tenant (task_id t) later).1 = Ok None).
Proof.
  intros Hnd Hnone Httl Hsave Hups s' Hlater. set (e := (now + ttl_seconds s)%Q) in *.
  assert (H1 : NoDup (dkeys (tasks s1)) /\ exists x, dget (tenant, task_id t) (tasks s1) = Some x /\ expires_at x = e).
  { unfold save in Hsave. destruct (Nat.ltb _ _); [done|]. destruct (_ || _); [done|]. injection Hsave as <-.
    cbn [with_tasks tasks]. split; [by apply NoDup_filterb, NoDup_dset|].
    rewrite dget_delete_expired by by apply NoDup_dset. unfold upsert. rewrite Hnone, dget_dset_eq.
    unfold live. cbn [expires_at snd].
    assert ((now + ttl_seconds s <=? now)%clock = false) as -> by clock_lra. by eexists. }
  assert (H2 : NoDup (dkeys (tasks s')) /\ exists x, dget (tenant, task_id t) (tasks s') = Some x /\ expires_at x = e).
  { subst s'. clear Hsave. revert s1 H1. induction Hups as [|[u tu] us [Hid Htu] _ IH]; intros s1 (Hn & x & Hx & He); [by eauto|].
    apply IH. cbn [fst snd] in *. rewrite <-Hid in *. by eapply save_keeps_expiry. }
  clearbody s'. clear H1 Hsave Hups. destruct H2 as (Hn & x & Hx & He). split.
  - rewrite get_read, Hx. unfold live. cbn [snd]. rewrite He.
    assert ((e <=? later)%clock = true) as -> by clock_lra. done.
  - intros Hid Htm. unfold save. destruct (Nat.ltb _ _); [done|]. destruct (_ || _); [done|]. intros [= <-].
    rewrite get_read. cbn [with_tasks tasks]. rewrite dget_delete_expired by by apply NoDup_dset.
    unfold upsert. rewrite Hid, dget_dset_eq, Hx. unfold live. cbn [expires_at snd]. rewrite He.
    assert ((e <=? tm)%clock = true) as -> by clock_lra. done.
Qed.

(** The pages of a listing are the listing.  In a well-formed store a client
    that starts without a token and follows the page tokens gets, in order,
    every live task of its tenant that the filters select, each exactly once,
    and nothing else, whatever the page size. *)
Theorem pages_cover_the_listing {Task} (task_id context_id timestamp : Task -> string) state of_json
    encode decode s tenant p now :
  token_roundtrip encode decode -> store_ok task_id context_id of_json s ->
  (0 <= page_size p)%Z -> page_token p = "" ->
  exists l, collect task_id context_id timestamp state of_json encode decode
              (S (length (tasks s))) s tenant p now = Ok l /\
    NoDup (task_id <$> l) /\
    StronglySorted (fun a b => newest_first task_id timestamp a b = true) l /\
    forall t, t ∈ l <-> (get of_json s tenant (task_id t) now).1 = Ok (Some t) /\ selected context_id state p t = true.
Proof.
  intros Htok Hok Hsize Hp.
  destruct (matching_ok task_id context_id timestamp state of_json s tenant p now Hok) as (l & Hm & Hnd & Hl).
  exists l. split_and!; [|done| |done].
  - assert (Hlen : length l <= length (tasks s)).
    { unfold matching in Hm. apply result_bind_ok in Hm as (ts & Hts & [= <-]).
      rewrite sort_by_perm. apply mapM_ok, Forall2_length in Hts.
      unfold dvalues in Hts. rewrite !length_fmap in Hts.
      pose proof (List.filter_length_le (selected context_id state p) ts).
      pose proof (List.filter_length_le (fun kx => of_tenant tenant kx && live now kx) (tasks s)). lia. }
    rewrite (collect_from task_id context_id timestamp state of_json encode decode _ s tenant p now l 0
               (if Z.eqb (page_size p) 0 then 50 else page_size p)); try done; [| |lia].
    + destruct (Z.eqb_spec (page_size p) 0); lia.
    + by left.
  - unfold matching in Hm. apply result_bind_ok in Hm as (ts & Hts & [= <-]).
    apply sort_by_sorted; unfold newest_first; intros; eauto with agents.
Qed.

(** Notifications are bounded and go only to acceptable callbacks.  Every
    POST of a notification goes to a stored callback of the task whose URL
    passes the check (HTTPS or local, allowed host), with at most
    [max_attempts] per callback; an attempt is repeated only after one of the
    same callback that timed out, was refused by the transport or answered 429
    or 5xx; and when the send returns, every callback was tried. *)
Theorem notifications_bounded urlsplit max_attempts backoff local hosts limit post l task bytes r es :
  send_notification urlsplit max_attempts backoff local hosts limit post l task bytes = (r, es) ->
  (forall c hs k o, Posted c hs k o ∈ es ->
     c ∈ get_info l task /\ validate_url urlsplit local hosts (url c) = None /\ k < max_attempts) /\
  (forall i c hs k o, es !! i = Some (Posted c hs (S k) o) ->
     exists hs' o', Posted c hs' k o' ∈ take i es /\ again o' = true) /\
  posts es <= length (get_info l task) * max_attempts /\
  (r = Ok tt -> 0 < max_attempts -> forall c, c ∈ get_info l task ->
     exists o, Posted c (request_headers c) 0 o ∈ es).
Proof.
  unfold send_notification. destruct (Nat.ltb limit bytes).
  { intros [= <- <-]. split_and!; [set_solver|by intros ? ? ? ? ?|cbn; lia|done]. }
  destruct (deliver_all _ _ _ _ _ _ _ _) as [[r1 es1] n1] eqn:Hd. intros [= <- <-].
  apply deliver_all_sends in Hd as (H1 & H2 & H3 & H4). split_and!; [done| |done|done].
  intros i c hs k o Hi. destruct (H2 i c hs (S k) o Hi) as [?|(k' & hs' & o' & Hk & Hin & Ha)]; [done|].
  injection Hk as <-. by exists hs', o'.
Qed.

(** ** A store on concrete input: tasks that are their own id and document *)

Definition sample_id (t : string) : string := t.
Definition sample_context (t : string) : string := "c".
Definition sample_encode (i : string) : string := "p" ++ i.
Definition sample_decode (s : string) : option string := match s with String _ s => Some s | EmptyString => None end.
Definition sample_params : list_params := {| by_context := ""; by_status := 0; page_size := 1; page_token := "" |}.

Lemma sample_serializer : serializer_roundtrip sample_id Some.
Proof. done. Qed.
Lemma sample_tokens : token_roundtrip sample_encode sample_decode.
Proof. done. Qed.

Definition empty_tasks : SqliteA2ATaskStore := {| ttl_seconds := 10; max_task_bytes := 1024; tasks := [] |}.
Lemma empty_tasks_ok : store_ok sample_id sample_context Some empty_tasks.
Proof. split; [constructor|]. intros k x Hin. by apply elem_of_nil in Hin. Qed.

Definition one_task := Eval vm_compute in (save sample_id sample_context sample_id empty_tasks "t1" "a" 5).2.
Definition two_tasks := Eval vm_compute in (save sample_id sample_context sample_id one_task "t1" "b" 6).2.

Lemma saved_task_lifetime_witness :
  (get Some one_task "t1" "a" 14).1 = Ok (Some "a") /\ (get Some one_task "t1" "a" 15).1 = Ok None.
Proof.
  pose proof (proj1 (saved_task_lifetime sample_id sample_context sample_id Some empty_tasks "t1" "a" 5 one_task
    sample_serializer empty_tasks_ok eq_refl eq_refl)) as H.
  split; [exact (H 14%Q) | exact (H 15%Q)].
Defined.

Lemma task_expires_from_first_save_witness :
  (get Some (save sample_id sample_context sample_id one_task "t1" "a" 14).2 "t1" "a" 20).1 = Ok None.
Proof.
  refine (proj1 (task_expires_from_first_save sample_id sample_context sample_id Some empty_tasks "t1" "a" 5
    one_task [("a", 14%Q)] "a" 0 empty_tasks 20 _ eq_refl eq_refl eq_refl _ _)).
  - constructor.
  - constructor; [done|constructor].
  - done.
Defined.

Lemma pages_cover_the_listing_witness :
  exists l, collect sample_id sample_context (fun _ => "") (fun _ => 1%Z) Some sample_encode sample_decode
              3 two_tasks "t1" sample_params 7 = Ok l /\ NoDup (sample_id <$> l).
Proof.
  destruct (pages_cover_the_listing sample_id sample_context (fun _ => "") (fun _ => 1%Z) Some
    sample_encode sample_decode two_tasks "t1" sample_params 7 sample_tokens) as (l & Hl & Hnd & _).
  - refine (save_ok sample_id sample_context sample_id Some one_task "t1" "b" 6 (Ok tt) two_tasks
      sample_serializer _ eq_refl).
    exact (save_ok sample_id sample_context sample_id Some empty_tasks "t1" "a" 5 (Ok tt) one_task
      sample_serializer empty_tasks_ok eq_refl).
  - done.
  - done.
  - by exists l.
Defined.

Definition sample_callback : push_config :=
  {| config_id := Some "c1"; url := "https://x"; token := None; schemes := None; scheme := "Bearer";
     credentials := Some "k" |}.
Definition sample_split (u : string) : url_parts := {| url_scheme := "https"; netloc := u; hostname := Some "x" |}.
Definition sample_post (n : nat) : outcome := match n with 0 => Answered 503 | _ => Answered 200 end.
Definition sample_sent := Eval vm_compute in
  send_notification sample_split 3 1 true None 1024 sample_post (set_info [] "t" sample_callback "u" 0) "t" 10.

Lemma notifications_bounded_witness : posts sample_sent.2 <= 1 * 3.
Proof.
  refine (proj1 (proj2 (proj2 (notifications_bounded sample_split 3 1 true None 1024 sample_post
    (set_info [] "t" sample_callback "u" 0) "t" 10 sample_sent.1 sample_sent.2 _)))).
  vm_compute. reflexivity.
Defined.

End A2aStore.
