(* ===== verification/Memory.v ===== *)
(** * Memory: the in-memory provider

    [micro_agent/memory/memory.py].  Entries are Python objects that callers
    keep: [store] puts the caller's object into the table, [search] and
    [list_entries] hand out the stored objects and only [get] copies.  So
    entries live in a heap and the table holds references.  A clock reading is
    an argument for each [monotonic()] of the code. *)

From S2P Require Import Prelude Json.

Module Memory.
Local Open Scope string_scope.

Record MemoryEntry : Type := {
  key : string;
  value : json;
  scope : string;
  metadata : list (string * json);
  tenant_id : option string;
  version : Z
}.

Record MemoryPolicy : Type := {
  auto_store : bool;
  max_entries : option Z;
  ttl_seconds : option Z
}.

Definition default_policy : MemoryPolicy :=
  {| auto_store := false; max_entries := None; ttl_seconds := None |}.

(** An optional integer that is not a boolean and at least [low]. *)
Definition bounded_int (low : Z) (what : string) (j : json) : result string (option Z) :=
  match j with
  | JNull => Ok None
  | JInt z => if (z <? low)%Z then Err what else Ok (Some z)
  | _ => Err what
  end.

(** [MemoryPolicy(...)] with the checks of [__post_init__]. *)
Definition memory_policy (auto max_entries ttl_seconds : json) : result string MemoryPolicy :=
  a ← (match auto with JBool b => Ok b | _ => Err "auto_store must be a boolean" end);
  m ← bounded_int 1 "max_entries must be a positive integer" max_entries;
  t ← bounded_int 0 "ttl_seconds must be a non-negative integer" ttl_seconds;
  Ok {| auto_store := a; max_entries := m; ttl_seconds := t |}.

Record StateConflictError : Type := { conflict_key : string; expected : Z; actual : Z }.

Abbreviation ref := nat (only parsing).

Record InMemoryMemoryProvider : Type := {
  policy : MemoryPolicy;
  heap : list MemoryEntry;           (** every entry object ever allocated *)
  entries : list (string * ref);
  stored_at : list (string * Q)
}.

Definition new_provider (pol : MemoryPolicy) : InMemoryMemoryProvider :=
  {| policy := pol; heap := []; entries := []; stored_at := [] |}.

Definition with_tables (p : InMemoryMemoryProvider) (es : list (string * ref)) (ts : list (string * Q))
  : InMemoryMemoryProvider :=
  {| policy := policy p; heap := heap p; entries := es; stored_at := ts |}.

(** A new object: one a caller builds, or the copy that [get] returns. *)
Definition alloc (p : InMemoryMemoryProvider) (e : MemoryEntry) : ref * InMemoryMemoryProvider :=
  (length (heap p),
   {| policy := policy p; heap := heap p ++ [e]; entries := entries p; stored_at := stored_at p |})%list.

Definition mutate (p : InMemoryMemoryProvider) (r : ref) (f : MemoryEntry -> MemoryEntry)
  : InMemoryMemoryProvider :=
  {| policy := policy p; heap := alter f r (heap p); entries := entries p; stored_at := stored_at p |}.

Definition set_version (v : Z) (e : MemoryEntry) : MemoryEntry :=
  {| key := key e; value := value e; scope := scope e; metadata := metadata e;
     tenant_id := tenant_id e; version := v |}.

(** ** Keys, expiry and eviction *)

Definition storage_key (key : string) (scope tenant_id : option string) : string :=
  let scoped := opt_or scope "agent" ++ ":" ++ key in
  match tenant_id with None => scoped | Some t => t ++ String unit_separator scoped end.

Definition entry_key (e : MemoryEntry) : string := storage_key (key e) (Some (scope e)) (tenant_id e).

Definition is_expired (p : InMemoryMemoryProvider) (k : string) (now : Q) : bool :=
  match ttl_seconds (policy p), dget k (stored_at p) with
  | Some ttl, Some stored => (inject_Z ttl <=? now - stored)%clock
  | _, _ => false
  end.

Definition pop (p : InMemoryMemoryProvider) (k : string) : InMemoryMemoryProvider :=
  with_tables p (dpop k (entries p)) (dpop k (stored_at p)).

Definition purge_expired (p : InMemoryMemoryProvider) (now : Q) : InMemoryMemoryProvider :=
  match ttl_seconds (policy p) with
  | None => p
  | Some _ => foldl (fun p k => if is_expired p k now then pop p k else p) p (dkeys (entries p))
  end.

(** The [while] loop: the oldest key of the dictionary goes until there is room. *)
Fixpoint evict_oldest (max : Z) (es : list (string * ref)) (ts : list (string * Q))
  : list (string * ref) * list (string * Q) :=
  match es with
  | [] => ([], ts)
  | (k, r) :: es' =>
      if (max <=? Z.of_nat (length es))%Z then evict_oldest max es' (dpop k ts) else (es, ts)
  end.

Definition evict_if_full (p : InMemoryMemoryProvider) (now : Q) : InMemoryMemoryProvider :=
  match max_entries (policy p) with
  | None => p
  | Some max =>
      let p := purge_expired p now in
      let '(es, ts) := evict_oldest max (entries p) (stored_at p) in
      with_tables p es ts
  end.

(** ** Operations *)

Definition or_one (v : Z) : Z := if Z.eqb v 0 then 1%Z else v.

Definition stored (p : InMemoryMemoryProvider) (k : string) : option MemoryEntry :=
  dget k (entries p) ≫= fun r => heap p !! r.

(** [store]: the caller's object [r]; the clock is read by the purge, by the
    eviction and for the timestamp. *)
Definition store (p : InMemoryMemoryProvider) (r : ref) (expected_version : option Z) (t1 t2 t3 : Q)
  : result StateConflictError unit * InMemoryMemoryProvider :=
  let p := purge_expired p t1 in
  match heap p !! r with
  | None => (Ok tt, p)   (* no such object: the caller holds no entry *)
  | Some e =>
      let k := entry_key e in
      let exp := match expected_version with Some v => v | None => version e end in
      match stored p k with
      | None =>
          if negb (Z.eqb exp 0) then (Err {| conflict_key := key e; expected := exp; actual := 0 |}, p)
          else
            let p := evict_if_full (mutate p r (set_version 1)) t2 in
            (Ok tt, with_tables p (dset k r (entries p)) (dset k t3 (stored_at p)))
      | Some existing =>
          let act := or_one (version existing) in
          if negb (Z.eqb exp 0) && negb (Z.eqb exp act)
          then (Err {| conflict_key := key e; expected := exp; actual := act |}, p)
          else
            let p := mutate p r (set_version (act + 1)) in
            (Ok tt, with_tables p (dset k r (entries p)) (dset k t3 (stored_at p)))
      end
  end.

Definition get (p : InMemoryMemoryProvider) (key : string) (scope tenant : option string) (now : Q)
  : option ref * InMemoryMemoryProvider :=
  let p := purge_expired p now in
  match stored p (storage_key key scope tenant) with
  | Some e => let '(r, p) := alloc p e in (Some r, p)   (* deepcopy *)
  | None => (None, p)
  end.

Definition delete (p : InMemoryMemoryProvider) (key : string) (scope tenant : option string) (now : Q)
  : bool * InMemoryMemoryProvider :=
  let p := purge_expired p now in
  let k := storage_key key scope tenant in
  if dmem k (entries p) then (true, pop p k) else (false, p).

Section search.
Context (py_str : json -> string).

Definition matches (query : string) (scope tenant : option string) (e : MemoryEntry) : bool :=
  bool_decide (tenant_id e = tenant) &&
  (negb (opt_truthy scope) || bool_decide (Some (Memory.scope e) = scope)) &&
  str_contains (py_lower query) (py_lower (py_text py_str (value e))).

(** The loop stops after appending the entry that reaches the limit. *)
Fixpoint collect (p : InMemoryMemoryProvider) (f : MemoryEntry -> bool) (limit : Z) (found : list ref)
    (es : list (string * ref)) : list ref :=
  match es with
  | [] => found
  | (_, r) :: es =>
      match heap p !! r with
      | Some e =>
          if f e then
            let found := (found ++ [r])%list in
            if (limit <=? Z.of_nat (length found))%Z then found else collect p f limit found es
          else collect p f limit found es
      | None => collect p f limit found es
      end
  end.

Definition search (p : InMemoryMemoryProvider) (query : string) (scope : option string) (limit : Z)
    (tenant : option string) (now : Q) : list ref * InMemoryMemoryProvider :=
  let p := purge_expired p now in
  (collect p (matches query scope tenant) limit [] (entries p), p).
End search.

Definition list_entries (p : InMemoryMemoryProvider) (scope tenant : option string) (now : Q)
  : list ref * InMemoryMemoryProvider :=
  let p := purge_expired p now in
  (snd <$> filterb (fun kr => match heap p !! kr.2 with
                              | Some e => bool_decide (tenant_id e = tenant) &&
                                  match scope with None => true | Some s => String.eqb (Memory.scope e) s end
                              | None => false
                              end) (entries p), p).

(** ** What clients do

    Calls of the provider, new entry objects and writes to the objects they
    hold; key, scope, tenant and version of an object are left alone. *)

Inductive op : Type :=
  | ONew (e : MemoryEntry)
  | OWrite (r : ref) (v : json) (md : list (string * json))
  | OStore (r : ref) (expected_version : option Z) (t1 t2 t3 : Q)
  | OGet (key : string) (scope tenant : option string) (now : Q)
  | ODelete (key : string) (scope tenant : option string) (now : Q)
  | ORead (now : Q).        (** [search] and [list_entries] change nothing but the purge *)

Definition write_fields (v : json) (md : list (string * json)) (e : MemoryEntry) : MemoryEntry :=
  {| key := key e; value := v; scope := scope e; metadata := md; tenant_id := tenant_id e;
     version := version e |}.

Definition apply_op (p : InMemoryMemoryProvider) (o : op) : InMemoryMemoryProvider :=
  match o with
  | ONew e => (alloc p e).2
  | OWrite r v md => mutate p r (write_fields v md)
  | OStore r e t1 t2 t3 => (store p r e t1 t2 t3).2
  | OGet k s t now => (get p k s t now).2
  | ODelete k s t now => (delete p k s t now).2
  | ORead now => purge_expired p now
  end.

Definition run (p : InMemoryMemoryProvider) (ops : list op) : InMemoryMemoryProvider := foldl apply_op p ops.

(** ** The invariant

    Both tables have the same keys in the same order, and every entry sits
    under its own key with a version from 1 on. *)

Definition memory_ok (p : InMemoryMemoryProvider) : Prop :=
  NoDup (dkeys (entries p)) /\ dkeys (stored_at p) = dkeys (entries p) /\
  forall k r, (k, r) ∈ entries p -> exists e, heap p !! r = Some e /\ entry_key e = k /\ (1 <= version e)%Z.

Definition within_limit (p : InMemoryMemoryProvider) : Prop :=
  forall n, max_entries (policy p) = Some n -> (1 <= n)%Z -> (Z.of_nat (length (entries p)) <= n)%Z.

Lemma dkeys_dset_ext {V W} k (v : V) (w : W) (d : list (string * V)) (d' : list (string * W)) :
  dkeys d = dkeys d' -> dkeys (dset k v d) = dkeys (dset k w d').
Proof.
  revert d'. induction d as [|[k1 v1] d IH]; intros [|[k2 w2] d']; cbn; try done.
  intros [= -> Hd]. case_decide; cbn; f_equal; [done | by apply IH].
Qed.

Lemma dkeys_dset_in {V} k (v : V) (d : list (string * V)) :
  k ∈ dkeys d -> dkeys (dset k v d) = dkeys d.
Proof.
  induction d as [|[k1 v1] d IH]; cbn; [by intros ?%elem_of_nil|]. case_decide as E; [by subst|].
  intros [->|Hin]%elem_of_cons; [done|]. cbn. f_equal. by apply IH.
Qed.

Lemma memory_ok_new pol : memory_ok (new_provider pol).
Proof. split_and!; [apply NoDup_nil_2 | done | by intros ?? ?%elem_of_nil]. Qed.

Lemma memory_ok_pop p k : memory_ok p -> memory_ok (pop p k).
Proof.
  intros (Hnd & Hk & He). split_and!; cbn [pop with_tables entries stored_at heap].
  - by apply NoDup_dpop.
  - by rewrite !dkeys_dpop, Hk.
  - intros k' r [Hin _]%elem_of_filterb. by apply He.
Qed.

Lemma memory_ok_purge p now : memory_ok p -> memory_ok (purge_expired p now).
Proof.
  intros Hp. unfold purge_expired. destruct (ttl_seconds _); [|done].
  apply foldl_invariant; [done|]. intros q k Hq. destruct (is_expired _ _ _); [by apply memory_ok_pop | done].
Qed.

Lemma memory_ok_alloc p e : memory_ok p -> memory_ok (alloc p e).2.
Proof.
  intros (Hnd & Hk & He). split_and!; [done..|]. intros k r Hin. destruct (He k r Hin) as (e' & Hr & ?).
  exists e'. split; [by apply lookup_app_l_Some | done].
Qed.

(** An object may change as long as it stays a valid entry of its key. *)
Lemma memory_ok_mutate p r f :
  memory_ok p ->
  (forall e, entry_key (f e) = entry_key e) -> (forall e, (1 <= version e)%Z -> (1 <= version (f e))%Z) ->
  memory_ok (mutate p r f).
Proof.
  intros (Hnd & Hk & He) Hkey Hv. split_and!; [done..|]. intros k r' Hin.
  destruct (He k r' Hin) as (e & Hr & Hek & Hev). cbn. destruct (decide (r = r')) as [->|Hne].
  - exists (f e). rewrite list_lookup_alter_eq, Hr. split_and!; [done | by rewrite Hkey | by apply Hv].
  - exists e. by rewrite list_lookup_alter_ne.
Qed.

Lemma memory_ok_set p k r t e :
  memory_ok p -> heap p !! r = Some e -> entry_key e = k -> (1 <= version e)%Z ->
  memory_ok (with_tables p (dset k r (entries p)) (dset k t (stored_at p))).
Proof.
  intros (Hnd & Hk & He) Hr Hek Hev. split_and!; cbn [with_tables entries stored_at heap].
  - by apply NoDup_dset.
  - by apply dkeys_dset_ext.
  - intros k' r' [[= -> ->]|Hin]%elem_dset; [by exists e | by apply He].
Qed.

(** The loop of the eviction pops a prefix and leaves less than the maximum. *)
Lemma evict_oldest_spec max es ts :
  NoDup (dkeys es) -> dkeys ts = dkeys es ->
  exists gone es' ts', evict_oldest max es ts = (es', ts') /\ es = (gone ++ es')%list /\
    dkeys ts' = dkeys es' /\ ((1 <= max)%Z -> (Z.of_nat (length es') < max)%Z) /\
    ((Z.of_nat (length es) < max)%Z -> gone = []) /\
    (forall k, k ∈ dkeys es' -> dget k ts' = dget k ts).
Proof.
  revert ts. induction es as [|[k r] es IH]; intros ts Hnd Hk.
  - exists [], [], ts. split_and!; try done. intros. cbn. lia.
  - cbn [evict_oldest]. destruct (Z.leb_spec max (Z.of_nat (length ((k, r) :: es)))) as [Hle|Hlt].
    + apply NoDup_cons in Hnd as [Hnk Hnd].
      assert (Hk' : dkeys (dpop k ts) = dkeys es).
      { rewrite dkeys_dpop, Hk. cbn. unfold key_ne at 1. rewrite decide_True by done.
        apply filterb_all. intros x Hx. unfold key_ne. case_decide; [by subst | done]. }
      destruct (IH (dpop k ts) Hnd Hk') as (gone & es' & ts' & Hev & -> & Hks & Hlen & _ & Hget).
      exists ((k, r) :: gone), es', ts'. split_and!; try done; [intros; lia|].
      intros k' Hin. rewrite Hget by done. apply dget_dpop_ne. intros ->. apply Hnk.
      apply list_elem_of_fmap in Hin as (e & -> & He). apply list_elem_of_fmap. exists e.
      split; [done|]. apply elem_of_app. by right.
    + exists [], ((k, r) :: es), ts. by split_and!.
Qed.

Lemma purge_no_ttl p now : ttl_seconds (policy p) = None -> purge_expired p now = p.
Proof. intros H. unfold purge_expired. by rewrite H. Qed.

Lemma purge_frame p now : policy (purge_expired p now) = policy p /\ heap (purge_expired p now) = heap p.
Proof.
  unfold purge_expired. destruct (ttl_seconds _); [|done].
  apply (foldl_invariant (fun q => policy q = policy p /\ heap q = heap p)); [done|].
  intros q k Hq. by destruct (is_expired _ _ _).
Qed.

(** What the purge leaves: the entries that are not expired. *)
Definition keep {V} (p : InMemoryMemoryProvider) (now : Q) (ks : list string) (kv : string * V) : bool :=
  negb (memb kv.1 ks && is_expired p kv.1 now).

Lemma filterb_keep_cons {V} p now k ks (d : list (string * V)) :
  filterb (keep p now (k :: ks)) d =
  filterb (keep p now ks) (if is_expired p k now then dpop k d else d).
Proof.
  destruct (is_expired p k now) eqn:E.
  - unfold dpop. rewrite filterb_andb. apply filterb_ext. intros [k' v] _. unfold keep, key_ne, memb.
    cbn [fst]. destruct (decide (k' = k)) as [->|Hne].
    + rewrite bool_decide_true by left. by rewrite E.
    + rewrite andb_true_l. f_equal. f_equal. apply bool_decide_ext. set_solver.
  - apply filterb_ext. intros [k' v] _. unfold keep, memb. cbn [fst].
    destruct (decide (k' = k)) as [->|Hne]; [by rewrite E, !andb_false_r|].
    f_equal. f_equal. apply bool_decide_ext. set_solver.
Qed.

Lemma purge_loop p now q ks :
  NoDup ks -> (forall k, k ∈ ks -> is_expired q k now = is_expired p k now) ->
  foldl (fun p k => if is_expired p k now then pop p k else p) q ks =
  with_tables q (filterb (keep p now ks) (entries q)) (filterb (keep p now ks) (stored_at q)).
Proof.
  revert q. induction ks as [|k ks IH]; intros q Hnd Hq.
  - rewrite !filterb_all by done. by destruct q.
  - apply NoDup_cons in Hnd as [Hk Hnd]. cbn [foldl]. rewrite !filterb_keep_cons, (Hq k) by left.
    destruct (is_expired p k now); rewrite IH; try done.
    + intros k' Hk'. rewrite <-(Hq k') by by right. unfold is_expired. cbn.
      rewrite dget_dpop_ne; [done|]. by intros ->.
    + intros k' Hk'. apply Hq. by right.
Qed.

Lemma purge_eq p now :
  memory_ok p ->
  purge_expired p now =
  with_tables p (filterb (fun kr => negb (is_expired p kr.1 now)) (entries p))
    (filterb (fun kt => negb (is_expired p kt.1 now)) (stored_at p)).
Proof.
  intros (Hnd & Hk & _). unfold purge_expired. destruct (ttl_seconds (policy p)) eqn:E.
  - rewrite (purge_loop p now p) by done. f_equal; apply filterb_ext; intros [k v] Hin; unfold keep.
    + rewrite (proj2 (memb_true _ _)); [done|]. apply list_elem_of_fmap. by exists (k, v).
    + rewrite (proj2 (memb_true _ _)); [done|]. rewrite <-Hk. apply list_elem_of_fmap. by exists (k, v).
  - unfold is_expired. rewrite E. rewrite !filterb_all by done. by destruct p.
Qed.

Lemma purge_lookup p now k :
  memory_ok p ->
  dget k (entries (purge_expired p now)) = (if is_expired p k now then None else dget k (entries p)) /\
  dget k (stored_at (purge_expired p now)) = (if is_expired p k now then None else dget k (stored_at p)).
Proof.
  intros Hp. rewrite purge_eq by done. cbn [with_tables entries stored_at].
  rewrite !(dget_filter_key (fun k => negb (is_expired p k now))). by destruct (is_expired p k now).
Qed.

Lemma purge_length p now : memory_ok p -> length (entries (purge_expired p now)) <= length (entries p).
Proof. intros Hp. rewrite purge_eq by done. apply sublist_length, filterb_sublist. Qed.

(** *** Every operation keeps it *)

Lemma evict_frame p now : policy (evict_if_full p now) = policy p /\ heap (evict_if_full p now) = heap p.
Proof.
  unfold evict_if_full. destruct (max_entries _) as [max|]; [|done].
  destruct (evict_oldest _ _ _). apply purge_frame.
Qed.

Lemma memory_ok_evict p now :
  memory_ok p -> memory_ok (evict_if_full p now) /\
  entries (evict_if_full p now) `suffix_of` entries (purge_expired p now) \/
  max_entries (policy p) = None /\ evict_if_full p now = p.
Proof.
  intros Hp. unfold evict_if_full. destruct (max_entries _) as [max|]; [left | by right].
  pose proof (memory_ok_purge p now Hp) as (Hnd & Hk & He).
  destruct (evict_oldest_spec max _ _ Hnd Hk) as (gone & es' & ts' & -> & Hes & Hks & _).
  split; [|by exists gone]. split_and!; cbn [with_tables entries stored_at heap].
  - rewrite Hes in Hnd. unfold dkeys in *. rewrite fmap_app in Hnd. by apply NoDup_app in Hnd as (_ & _ & ?).
  - done.
  - intros k r Hin. apply He. rewrite Hes. apply elem_of_app. by right.
Qed.

Lemma memory_evict_length p now n :
  memory_ok p -> max_entries (policy p) = Some n -> (1 <= n)%Z ->
  (Z.of_nat (length (entries (evict_if_full p now))) < n)%Z.
Proof.
  intros Hp Hn Hpos. unfold evict_if_full. rewrite Hn.
  pose proof (memory_ok_purge p now Hp) as (Hnd & Hk & He).
  destruct (evict_oldest_spec n _ _ Hnd Hk) as (gone & es' & ts' & -> & _ & _ & Hlen & _). by apply Hlen.
Qed.

(** What a successful store does: the object gets the next version and goes
    under its key. *)
Lemma store_inv p r ev t1 t2 t3 e :
  heap p !! r = Some e ->
  let q := purge_expired p t1 in
  let exp := match ev with Some v => v | None => version e end in
  let act := match stored q (entry_key e) with Some x => or_one (version x) | None => 0%Z end in
  store p r ev t1 t2 t3 =
    if Z.eqb exp 0 || (bool_decide (is_Some (stored q (entry_key e))) && Z.eqb exp act)
    then let q := mutate q r (set_version (act + 1)) in
         let q := match stored (purge_expired p t1) (entry_key e) with
                  | Some _ => q | None => evict_if_full q t2 end in
         (Ok tt, with_tables q (dset (entry_key e) r (entries q)) (dset (entry_key e) t3 (stored_at q)))
    else (Err {| conflict_key := key e; expected := exp; actual := act |}, q).
Proof.
  intros Hr. cbv zeta. unfold store. rewrite (proj2 (purge_frame p t1)), Hr.
  destruct (stored (purge_expired p t1) (entry_key e)) as [x|] eqn:Ex.
  - rewrite bool_decide_true by by eexists. set (exp := match ev with Some _ => _ | None => _ end).
    destruct (Z.eqb exp 0), (Z.eqb exp _); done.
  - rewrite bool_decide_false by by intros []. set (exp := match ev with Some _ => _ | None => _ end).
    by destruct (Z.eqb exp 0).
Qed.

Lemma store_none p r ev t1 t2 t3 :
  heap p !! r = None -> store p r ev t1 t2 t3 = (Ok tt, purge_expired p t1).
Proof. intros Hr. unfold store. by rewrite (proj2 (purge_frame p t1)), Hr. Qed.

Lemma entry_key_set_version v e : entry_key (set_version v e) = entry_key e.
Proof. done. Qed.

Lemma memory_ok_store p r ev t1 t2 t3 : memory_ok p -> memory_ok (store p r ev t1 t2 t3).2.
Proof.
  intros Hp. pose proof (memory_ok_purge p t1 Hp) as Hq.
  destruct (heap p !! r) as [e|] eqn:Hr; [|by rewrite store_none].
  rewrite (store_inv p r ev t1 t2 t3 e Hr). case_match; [|done]. cbv zeta. cbn [snd].
  set (act := match stored _ _ with Some x => or_one (version x) | None => 0%Z end).
  assert (Hact : (1 <= act + 1)%Z).
  { subst act. destruct (stored (purge_expired p t1) (entry_key e)) as [x|] eqn:Ex; [|lia].
    unfold stored in Ex. destruct (dget (entry_key e) (entries (purge_expired p t1))) as [r'|] eqn:Er; [|done].
    apply dget_elem in Er. destruct Hq as (_ & _ & He). destruct (He _ _ Er) as (e' & Hx & _ & ?).
    cbn in Ex. rewrite Hx in Ex. injection Ex as <-. unfold or_one. destruct (Z.eqb_spec (version e') 0); lia. }
  pose proof (memory_ok_mutate _ r (set_version (act + 1)) Hq (fun _ => eq_refl) (fun _ _ => Hact)) as Hm.
  assert (Hh : heap (mutate (purge_expired p t1) r (set_version (act + 1))) !! r = Some (set_version (act + 1) e)).
  { cbn. by rewrite list_lookup_alter_eq, (proj2 (purge_frame p t1)), Hr. }
  destruct (stored (purge_expired p t1) (entry_key e)).
  - eapply memory_ok_set; [done..| exact Hact].
  - eapply memory_ok_set; [|by rewrite (proj2 (evict_frame _ _))|done|exact Hact].
    destruct (memory_ok_evict _ t2 Hm) as [[? _]|[_ ->]]; done.
Qed.

Lemma memory_ok_get p k s t now : memory_ok p -> memory_ok (get p k s t now).2.
Proof.
  intros Hp. unfold get. destruct (stored _ _); cbn [snd].
  - by apply memory_ok_alloc, memory_ok_purge.
  - by apply memory_ok_purge.
Qed.

Lemma memory_ok_delete p k s t now : memory_ok p -> memory_ok (delete p k s t now).2.
Proof.
  intros Hp. unfold delete. destruct (dmem _ _); [apply memory_ok_pop|]; by apply memory_ok_purge.
Qed.

Lemma memory_ok_apply p o : memory_ok p -> memory_ok (apply_op p o).
Proof.
  intros Hp. destruct o; cbn [apply_op].
  - by apply memory_ok_alloc.
  - by apply memory_ok_mutate.
  - by apply memory_ok_store.
  - by apply memory_ok_get.
  - by apply memory_ok_delete.
  - by apply memory_ok_purge.
Qed.

Lemma memory_ok_run pol ops : memory_ok (run (new_provider pol) ops).
Proof. apply (foldl_invariant memory_ok); [apply memory_ok_new | apply memory_ok_apply]. Qed.

(** *** The bounds *)

Lemma apply_policy p o : policy (apply_op p o) = policy p.
Proof.
  destruct o as [e|r v md|r ev t1 t2 t3|k s t now|k s t now|now]; try done; cbn [apply_op].
  - destruct (heap p !! r) as [e|] eqn:Hr; [|rewrite store_none by done; apply purge_frame].
    rewrite (store_inv p r ev t1 t2 t3 e Hr). case_match; [|apply purge_frame]. cbn.
    destruct (stored _ _); [apply purge_frame|]. rewrite (proj1 (evict_frame _ _)). apply purge_frame.
  - unfold get. destruct (stored _ _); apply purge_frame.
  - unfold delete. destruct (dmem _ _); apply purge_frame.
  - apply purge_frame.
Qed.

Lemma run_policy pol ops : policy (run (new_provider pol) ops) = pol.
Proof.
  apply (foldl_invariant (fun p => policy p = pol)); [done|]. intros p o <-. apply apply_policy.
Qed.

Lemma within_limit_le p q :
  policy q = policy p -> length (entries q) <= length (entries p) -> within_limit p -> within_limit q.
Proof. intros Hpol Hle Hw n Hn Hpos. rewrite Hpol in Hn. specialize (Hw n Hn Hpos). lia. Qed.

Lemma stored_dmem p k : memory_ok p -> is_Some (stored p k) <-> is_Some (dget k (entries p)).
Proof.
  intros (_ & _ & He). unfold stored. destruct (dget k (entries p)) as [r|] eqn:E; [|by split; intros [? ?]].
  destruct (He k r (dget_elem _ _ _ E)) as (e & Hr & _). cbn. rewrite Hr. split; intros _; by eexists.
Qed.

Lemma within_limit_apply p o : memory_ok p -> within_limit p -> within_limit (apply_op p o).
Proof.
  intros Hp Hw. pose proof (apply_policy p o) as Hpol.
  destruct o as [e|r v md|r ev t1 t2 t3|k s t now|k s t now|now]; try done; cbn [apply_op] in *.
  - assert (Hlim : within_limit (purge_expired p t1)).
    { apply (within_limit_le p); [apply purge_frame | by apply purge_length | done]. }
    destruct (heap p !! r) as [e|] eqn:Hr; [|by rewrite store_none].
    rewrite (store_inv p r ev t1 t2 t3 e Hr) in *. case_match; [|done]. cbv zeta in *. cbn [snd] in *.
    pose proof (memory_ok_purge p t1 Hp) as Hq. intros n Hn Hpos. rewrite Hpol in Hn.
    cbn [with_tables entries]. rewrite length_dset.
    destruct (stored (purge_expired p t1) (entry_key e)) as [x|] eqn:Ex.
    + assert (is_Some (dget (entry_key e) (entries (purge_expired p t1)))) as [r' Hin].
      { apply stored_dmem; [done | by eexists]. }
      cbn [mutate entries]. rewrite Hin. apply Hlim; [|done]. by rewrite (proj1 (purge_frame p t1)).
    + assert (Hm : memory_ok (mutate (purge_expired p t1) r (set_version (0 + 1)))).
      { by apply memory_ok_mutate. }
      assert (Hlt := memory_evict_length _ t2 n Hm). cbn [mutate policy] in Hlt.
      rewrite (proj1 (purge_frame p t1)) in Hlt. specialize (Hlt Hn Hpos).
      destruct (dget _ _); lia.
  - unfold get in *. eapply (within_limit_le p); [done| |done].
    destruct (stored _ _); by apply purge_length.
  - unfold delete in *. eapply (within_limit_le p); [done| |done].
    destruct (dmem _ _); cbn [snd pop with_tables entries]; [|by apply purge_length].
    etrans; [|by apply (purge_length p now)]. apply sublist_length, filterb_sublist.
  - eapply (within_limit_le p); [done|by apply purge_length|done].
Qed.

Lemma within_limit_run pol ops : within_limit (run (new_provider pol) ops).
Proof.
  apply (foldl_invariant (fun p => memory_ok p /\ within_limit p)).
  - split; [apply memory_ok_new|]. intros n _ ?. cbn. lia.
  - intros p o [? ?]. split; [by apply memory_ok_apply | by apply within_limit_apply].
Qed.

(** What the provider shows at [now]: the reads look at nothing else. *)
Definition visible (p : InMemoryMemoryProvider) (now : Q) (k : string) : option MemoryEntry :=
  stored (purge_expired p now) k.

Lemma visible_age p now k ttl e :
  memory_ok p -> ttl_seconds (policy p) = Some ttl -> visible p now k = Some e ->
  exists t, dget k (stored_at p) = Some t /\ (now - t < inject_Z ttl)%Q.
Proof.
  intros Hp Httl Hv. unfold visible, stored in Hv. rewrite (proj1 (purge_lookup p now k Hp)) in Hv.
  destruct (is_expired p k now) eqn:E; [done|]. destruct Hp as (_ & Hk & _).
  destruct (dget k (entries p)) as [r|] eqn:Er; [|done].
  destruct (dget k (stored_at p)) as [t|] eqn:Et.
  - exists t. split; [done|]. unfold is_expired in E. rewrite Httl, Et in E. clock_lra.
  - apply dget_None in Et. rewrite Hk in Et. by rewrite (proj2 (dget_None k _) Et) in Er.
Qed.

(** An entry that some read shows at [now]: the copy [get] returns, or a stored
    object that [search] or [list_entries] hands out. *)
Inductive shows (py_str : json -> string) (p : InMemoryMemoryProvider) (now : Q) (e : MemoryEntry) : Prop :=
  | shows_get key scope tenant r p' :
      get p key scope tenant now = (Some r, p') -> heap p' !! r = Some e -> shows py_str p now e
  | shows_search query scope limit tenant r p' rs :
      search py_str p query scope limit tenant now = (rs, p') -> r ∈ rs -> heap p' !! r = Some e ->
      shows py_str p now e
  | shows_list scope tenant r p' rs :
      list_entries p scope tenant now = (rs, p') -> r ∈ rs -> heap p' !! r = Some e -> shows py_str p now e.

Lemma collect_eq p f limit found es :
  collect p f limit found es =
  (found ++ take (Z.to_nat (limit - Z.of_nat (length found)) `max` 1)
     (snd <$> filterb (fun kr => from_option f false (heap p !! kr.2)) es))%list.
Proof.
  revert found. induction es as [|[k r] es IH]; intros found; cbn [collect filterb fmap list_fmap snd].
  - by rewrite take_nil, app_nil_r.
  - destruct (heap p !! r) as [e|]; cbn [from_option]; [|apply IH]. destruct (f e); [|apply IH].
    set (n := Z.to_nat (limit - Z.of_nat (length found))). destruct (n `max` 1) as [|m] eqn:Em; [lia|].
    cbn [fmap list_fmap snd take].
    destruct (Z.leb_spec limit (Z.of_nat (length (found ++ [r])%list))) as [Hle|Hlt]; rewrite length_app in *; cbn [length] in *.
    + assert (m = 0) as -> by lia. done.
    + rewrite IH, <-app_assoc. cbn. rewrite length_app. cbn [length]. do 3 f_equal. lia.
Qed.

(** [search] is the first matching entries in insertion order, at least one
    whatever the limit. *)
Lemma search_eq py_str p query scope limit tenant now :
  let q := purge_expired p now in
  search py_str p query scope limit tenant now =
  (take (Z.to_nat limit `max` 1)
     (snd <$> filterb (fun kr => from_option (matches py_str query scope tenant) false (heap q !! kr.2)) (entries q)), q).
Proof. cbv zeta. unfold search. by rewrite collect_eq, Z.sub_0_r. Qed.

Lemma shows_visible py_str p now e :
  memory_ok p -> shows py_str p now e -> visible p now (entry_key e) = Some e.
Proof.
  intros Hp Hs. pose proof (memory_ok_purge p now Hp) as (Hnd & _ & He).
  assert (Hin : forall k r, (k, r) ∈ entries (purge_expired p now) -> heap (purge_expired p now) !! r = Some e ->
            visible p now (entry_key e) = Some e).
  { intros k r Hkr Hr. destruct (He k r Hkr) as (e' & Hr' & Hk & _). rewrite Hr in Hr'. injection Hr' as <-.
    unfold visible, stored. rewrite Hk, (elem_dget k r) by done. done. }
  destruct Hs as [key scope tenant r p' Hg Hr|query scope limit tenant r p' rs Hg Hrs Hr|scope tenant r p' rs Hg Hrs Hr].
  - unfold get in Hg. destruct (stored (purge_expired p now) _) as [e'|] eqn:Hst; [|done].
    injection Hg as <- <-. cbn in Hr. rewrite list_lookup_middle in Hr by done. injection Hr as ->.
    unfold stored in Hst. destruct (dget _ (entries (purge_expired p now))) as [r'|] eqn:Er; [|done].
    cbn in Hst. by eapply (Hin _ r' (dget_elem _ _ _ Er)).
  - rewrite search_eq in Hg. injection Hg as <- <-. apply elem_of_take in Hrs as (i & Hi & _).
    apply list_elem_of_lookup_2, list_elem_of_fmap in Hi as ([k r'] & -> & [Hkr _]%elem_of_filterb).
    by eapply (Hin k).
  - injection Hg as <- <-. apply list_elem_of_fmap in Hrs as ([k r'] & -> & [Hkr _]%elem_of_filterb).
    by eapply (Hin k).
Qed.

(** *** Versions of one key *)

Definition op_time (o : op) : option Q :=
  match o with
  | OStore _ _ t1 _ _ => Some t1
  | OGet _ _ _ now | ODelete _ _ _ now | ORead now => Some now
  | _ => None
  end.

Definition purge_at (p : InMemoryMemoryProvider) (o : op) : InMemoryMemoryProvider :=
  match op_time o with Some now => purge_expired p now | None => p end.

(** The entry under [k] lives through the whole run: it does not expire and is
    neither deleted nor evicted. *)
Fixpoint lives (k : string) (p : InMemoryMemoryProvider) (ops : list op) : Prop :=
  is_Some (stored p k) /\
  match ops with
  | [] => True
  | o :: ops => is_Some (stored (purge_at p o) k) /\ lives k (apply_op p o) ops
  end.

(** Whether [o] stores an entry under [k]. *)
Definition writes (k : string) (p : InMemoryMemoryProvider) (o : op) : bool :=
  match o with
  | OStore r ev t1 t2 t3 =>
      match heap p !! r with
      | Some e => bool_decide (entry_key e = k) && is_ok (store p r ev t1 t2 t3).1
      | None => false
      end
  | _ => false
  end.

Fixpoint count_stores (k : string) (p : InMemoryMemoryProvider) (ops : list op) : Z :=
  match ops with
  | [] => 0
  | o :: ops => (if writes k p o then 1 else 0) + count_stores k (apply_op p o) ops
  end.

Definition stores_ref (r : ref) (o : op) : bool :=
  match o with OStore r' _ _ _ _ => bool_decide (r' = r) | _ => false end.

Lemma stored_elem p k m :
  memory_ok p -> stored p k = Some m ->
  exists r, dget k (entries p) = Some r /\ heap p !! r = Some m /\ entry_key m = k /\ (1 <= version m)%Z.
Proof.
  intros (_ & _ & He) Hs. unfold stored in Hs. destruct (dget k (entries p)) as [r|] eqn:Er; [|done].
  destruct (He k r (dget_elem _ _ _ Er)) as (e & Hr & ? & ?). cbn in Hs. rewrite Hr in Hs.
  injection Hs as <-. by exists r.
Qed.

Lemma stored_purge p now k :
  memory_ok p -> is_Some (stored (purge_expired p now) k) ->
  stored (purge_expired p now) k = stored p k.
Proof.
  intros Hp [m Hm]. unfold stored in *. rewrite (proj2 (purge_frame p now)) in *.
  rewrite (proj1 (purge_lookup p now k Hp)) in *. by destruct (is_expired p k now).
Qed.

(** The eviction removes entries and changes none. *)
Lemma stored_evict p now k :
  memory_ok p -> is_Some (stored (evict_if_full p now) k) -> stored (evict_if_full p now) k = stored p k.
Proof.
  intros Hp [m Hm]. destruct (memory_ok_evict p now Hp) as [[(Hnd & _ & _) [gone Hg]]|[_ ->]]; [|done].
  rewrite <-(stored_purge p now); [| done |]; unfold stored in *; rewrite (proj2 (evict_frame p now)) in *;
    rewrite (proj2 (purge_frame p now)); destruct (dget k (entries (evict_if_full p now))) as [r|] eqn:Er; try done.
  all: assert (dget k (entries (purge_expired p now)) = Some r) as ->; [|done].
  all: apply elem_dget; [apply (memory_ok_purge p now Hp)|]; rewrite Hg; apply elem_of_app; right; by apply dget_elem.
Qed.

Lemma stored_alloc p e k : is_Some (stored p k) -> stored (alloc p e).2 k = stored p k.
Proof.
  intros [x Hx]. unfold stored in *. cbn in *. destruct (dget k (entries p)) as [r|]; [|done]. cbn in *.
  rewrite Hx. by apply lookup_app_l_Some.
Qed.

(** A change of an object that is stored elsewhere. *)
Lemma stored_mutate_other p r f k e :
  memory_ok p -> heap p !! r = Some e -> entry_key e <> k -> stored (mutate p r f) k = stored p k.
Proof.
  intros (_ & _ & He) Hr Hne. unfold stored. cbn. destruct (dget k (entries p)) as [r'|] eqn:Er; [|done].
  destruct (He k r' (dget_elem _ _ _ Er)) as (e' & Hr' & Hk & _). cbn.
  rewrite list_lookup_alter_ne; [done|]. intros ->. rewrite Hr in Hr'. by injection Hr' as ->.
Qed.

Lemma stored_set p k k' r t :
  stored (with_tables p (dset k r (entries p)) (dset k t (stored_at p))) k' =
  if decide (k' = k) then heap p !! r else stored p k'.
Proof. unfold stored. cbn. rewrite dget_dset. by case_decide. Qed.

(** A store under [k] adds one to the version, everything else leaves it. *)
Lemma version_step p o k m :
  memory_ok p -> stored p k = Some m -> is_Some (stored (purge_at p o) k) ->
  is_Some (stored (apply_op p o) k) ->
  exists m', stored (apply_op p o) k = Some m' /\ version m' = (version m + if writes k p o then 1 else 0)%Z.
Proof.
  intros Hp Hm Hl Ha.
  assert (Hsame : stored (apply_op p o) k = stored p k -> writes k p o = false ->
            exists m', stored (apply_op p o) k = Some m' /\ version m' = (version m + if writes k p o then 1 else 0)%Z).
  { intros Hs Hw. exists m. rewrite Hs, Hw. split; [done | lia]. }
  destruct o as [e|r v md|r ev t1 t2 t3|kk s t now|kk s t now|now]; cbn [apply_op purge_at op_time writes] in *.
  - apply Hsame; [|done]. apply (stored_alloc p e). by eexists.
  - clear Hsame. unfold stored in *. cbn in *. destruct (dget k (entries p)) as [r'|]; [|done]. cbn in *.
    destruct (decide (r = r')) as [->|Hne].
    + exists (write_fields v md m). rewrite list_lookup_alter_eq, Hm. split; [done | cbn; lia].
    + exists m. rewrite list_lookup_alter_ne by done. split; [done | lia].
  - pose proof (stored_purge p t1 k Hp Hl) as Hq. pose proof (memory_ok_purge p t1 Hp) as Hqok.
    destruct (heap p !! r) as [e|] eqn:Hr; [|apply Hsame; [by rewrite store_none | done]].
    assert (Hr' : heap (purge_expired p t1) !! r = Some e) by by rewrite (proj2 (purge_frame p t1)).
    rewrite (store_inv p r ev t1 t2 t3 e Hr) in *. case_match; [|apply Hsame; [done | by rewrite andb_false_r]].
    cbv zeta in *. cbn [fst snd is_ok] in *. rewrite stored_set in Ha |- *. rewrite andb_true_r in *.
    case_decide as E.
    + subst k. rewrite bool_decide_true by done. rewrite Hq, Hm. cbn [mutate heap].
      rewrite list_lookup_alter_eq, Hr'. eexists. split; [done|]. cbn.
      destruct (stored_elem p _ m Hp Hm) as (_ & _ & _ & _ & Hv). unfold or_one. destruct (Z.eqb_spec (version m) 0); lia.
    + apply not_eq_sym in E. rewrite (bool_decide_false _ E). exists m. split; [|lia]. rewrite <-Hm.
      destruct (stored (purge_expired p t1) (entry_key e)).
      * by rewrite (stored_mutate_other _ r _ k e).
      * rewrite stored_evict; [|by apply memory_ok_mutate|done]. by rewrite (stored_mutate_other _ r _ k e).
  - apply Hsame; [|done]. unfold get in *. destruct (stored (purge_expired p now) (storage_key kk s t)); cbn [snd] in *.
    + rewrite <-(stored_purge p now k Hp Hl). by apply (stored_alloc (purge_expired p now)).
    + by apply stored_purge.
  - apply Hsame; [|done]. unfold delete in *. destruct (dmem _ _); [|by apply stored_purge]. cbn [snd pop] in *.
    rewrite <-(stored_purge p now k Hp Hl). unfold stored in *. cbn in *.
    destruct (decide (k = storage_key kk s t)) as [->|Hne]; [rewrite dget_dpop_eq in Ha; by destruct Ha|].
    by rewrite dget_dpop_ne.
  - apply Hsame; [|done]. by apply stored_purge.
Qed.

Lemma kept_version k ops p m :
  memory_ok p -> stored p k = Some m -> lives k p ops ->
  exists m', stored (run p ops) k = Some m' /\ version m' = (version m + count_stores k p ops)%Z.
Proof.
  revert p m. induction ops as [|o ops IH]; intros p m Hp Hm Hl; cbn.
  - exists m. split; [done | lia].
  - destruct Hl as (_ & Hl & Hls). assert (Ha : is_Some (stored (apply_op p o) k)) by (destruct ops; apply Hls).
    destruct (version_step p o k m Hp Hm Hl Ha) as (m1 & Hm1 & Hv1).
    destruct (IH (apply_op p o) m1) as (m2 & Hm2 & Hv2); [by apply memory_ok_apply | done..|].
    exists m2. split; [done | lia].
Qed.

(** An object that nobody stores keeps its key and its version. *)
Lemma object_kept r c ops p :
  heap p !! r = Some c -> forallb (fun o => negb (stores_ref r o)) ops = true ->
  exists c', heap (run p ops) !! r = Some c' /\ key c' = key c /\ entry_key c' = entry_key c /\ version c' = version c.
Proof.
  revert p c. induction ops as [|o ops IH]; intros p c Hc Ho; cbn in *; [by exists c|].
  apply andb_true_iff in Ho as [Ho Hos].
  assert (exists c1, heap (apply_op p o) !! r = Some c1 /\ key c1 = key c /\ entry_key c1 = entry_key c /\ version c1 = version c)
    as (c1 & Hc1 & Hk1 & He1 & Hv1).
  { destruct o as [e|r' v md|r' ev t1 t2 t3|kk s t now|kk s t now|now]; cbn [apply_op].
    - exists c. split; [by apply lookup_app_l_Some | done].
    - cbn. destruct (decide (r' = r)) as [->|Hne].
      + exists (write_fields v md c). by rewrite list_lookup_alter_eq, Hc.
      + exists c. by rewrite list_lookup_alter_ne.
    - exists c. split; [|done]. cbn in Ho. apply negb_true_iff, bool_decide_eq_false in Ho.
      rewrite <-(proj2 (purge_frame p t1)) in Hc.
      destruct (heap p !! r') as [e|] eqn:Hr; [|by rewrite store_none].
      rewrite (store_inv p r' ev t1 t2 t3 e Hr). case_match; cbn [snd]; [|done]. cbv zeta. cbn [with_tables heap].
      destruct (stored _ _); rewrite ?(proj2 (evict_frame _ _)); cbn [mutate heap]; by rewrite list_lookup_alter_ne.
    - exists c. split; [|done]. rewrite <-(proj2 (purge_frame p now)) in Hc.
      unfold get. destruct (stored _ _); [by apply lookup_app_l_Some | done].
    - exists c. split; [|done]. rewrite <-(proj2 (purge_frame p now)) in Hc. unfold delete. by destruct (dmem _ _).
    - exists c. split; [|done]. by rewrite (proj2 (purge_frame p now)). }
  destruct (IH _ _ Hc1 Hos) as (c2 & Hc2 & ? & ? & ?). exists c2. split_and!; [done | congruence..].
Qed.

Lemma count_stores_nonneg k p ops : (0 <= count_stores k p ops)%Z.
Proof. revert p. induction ops as [|o ops IH]; intros p; cbn; [lia|]. specialize (IH (apply_op p o)). destruct (writes k p o); lia. Qed.

(** Storing an entry that was read at the current version succeeds if and
    only if nobody stored the key in between, and otherwise reports the
    conflict with both versions and changes nothing. *)
Theorem memory_no_lost_update p r c m ops t1 t2 t3 :
  memory_ok p -> heap p !! r = Some c -> stored p (entry_key c) = Some m -> version c = version m ->
  lives (entry_key c) p ops -> forallb (fun o => negb (stores_ref r o)) ops = true ->
  let p' := run p ops in
  let n := count_stores (entry_key c) p ops in
  is_Some (stored (purge_expired p' t1) (entry_key c)) ->
  let '(a, p'') := store p' r None t1 t2 t3 in
  if (n =? 0)%Z
  then a = Ok tt /\ version <$> stored p'' (entry_key c) = Some (version c + 1)%Z
  else a = Err {| conflict_key := key c; expected := version c; actual := version c + n |} /\
       p'' = purge_expired p' t1.
Proof.
  intros Hp Hc Hm Hv Hl Ho p' n Hl'.
  destruct (object_kept r c ops p Hc Ho) as (c' & Hc' & Hk & Hek & Hvc). fold p' in Hc'.
  destruct (kept_version _ ops p m Hp Hm Hl) as (m' & Hm' & Hvm). fold p' in Hm'. fold n in Hvm.
  destruct (stored_elem p _ m Hp Hm) as (_ & _ & _ & _ & Hpos).
  pose proof (count_stores_nonneg (entry_key c) p ops) as Hn. fold n in Hn.
  assert (Hp' : memory_ok p') by (apply (foldl_invariant memory_ok); [done | apply memory_ok_apply]).
  rewrite (store_inv p' r None t1 t2 t3 c' Hc'). cbv zeta. rewrite Hek, (stored_purge p' t1 _ Hp' Hl'), Hm'.
  rewrite bool_decide_true by by eexists. unfold or_one. rewrite Hvm, Hvc, <-Hv.
  destruct (Z.eqb_spec (version c) 0) as [|_]; [lia|]. destruct (Z.eqb_spec (version c + n) 0) as [|_]; [lia|].
  destruct (Z.eqb_spec n 0) as [Hz|Hz]; destruct (Z.eqb_spec (version c) (version c + n)) as [|]; try lia; cbn [orb andb].
  - split; [done|]. rewrite stored_set, decide_True by done. cbn [mutate heap].
    rewrite list_lookup_alter_eq, (proj2 (purge_frame p' t1)), Hc'. cbn. do 2 f_equal. lia.
  - split; [|done]. by rewrite Hk.
Qed.

(** A memory provider never holds more entries than its policy allows and
    never shows one that is older than its time to live. *)
Theorem memory_bounded auto max ttl pol ops :
  memory_policy auto max ttl = Ok pol ->
  let p := run (new_provider pol) ops in
  (forall n, max_entries pol = Some n -> (Z.of_nat (length (entries p)) <= n)%Z) /\
  (forall py_str t now e, ttl_seconds pol = Some t -> shows py_str p now e ->
     exists at_, dget (entry_key e) (stored_at p) = Some at_ /\ (now - at_ < inject_Z t)%Q).
Proof.
  intros Hpol p. subst p. split.
  - intros n Hn. apply within_limit_run; [by rewrite run_policy|].
    unfold memory_policy in Hpol. result_inv. unfold bounded_int in *. subst pol. cbn in Hn. subst.
    repeat case_match; simplify_eq; lia.
  - intros py_str t now e Ht Hs. eapply visible_age; [apply memory_ok_run | by rewrite run_policy |].
    by eapply shows_visible, Hs; apply memory_ok_run.
Qed.


(** [search] and [list_entries] hand out the stored objects: writing to one
    changes what everybody reads, without a new version, and storing it can
    never conflict.  The object [get] returns is private. *)
Lemma search_results_are_live py_str p query scope limit tenant now r q rs v md :
  memory_ok p -> search py_str p query scope limit tenant now = (rs, q) -> r ∈ rs ->
  exists e, heap q !! r = Some e /\
    stored (mutate q r (write_fields v md)) (entry_key e) = Some (write_fields v md e) /\
    (forall t1 t2 t3, is_expired q (entry_key e) t1 = false ->
       (store (mutate q r (write_fields v md)) r None t1 t2 t3).1 = Ok tt).
Proof.
  intros Hp Hs Hr. pose proof (memory_ok_purge p now Hp) as Hq. rewrite search_eq in Hs. injection Hs as <- <-.
  apply elem_of_take in Hr as (i & Hi & _).
  apply list_elem_of_lookup_2, list_elem_of_fmap in Hi as ([k r'] & -> & [Hkr _]%elem_of_filterb). cbn [snd].
  set (q := purge_expired p now) in *. pose proof Hq as (Hnd & _ & He).
  destruct (He k r' Hkr) as (e & Hre & Hk & Hv). exists e.
  assert (Hst : stored (mutate q r' (write_fields v md)) (entry_key e) = Some (write_fields v md e)).
  { unfold stored. cbn [mutate entries heap]. rewrite Hk, (elem_dget k r') by done. cbn.
    by rewrite list_lookup_alter_eq, Hre. }
  split_and!; [done..|]. intros t1 t2 t3 Hexp. set (q' := mutate q r' (write_fields v md)) in *.
  assert (Hq' : memory_ok q') by by apply memory_ok_mutate.
  rewrite (store_inv q' r' None t1 t2 t3 (write_fields v md e)); [|unfold q'; cbn; by rewrite list_lookup_alter_eq, Hre].
  assert (stored (purge_expired q' t1) (entry_key e) = Some (write_fields v md e)) as Hpst.
  { rewrite <-Hst. apply stored_purge; [done|]. unfold stored in *. rewrite (proj2 (purge_frame q' t1)).
    rewrite (proj1 (purge_lookup q' t1 _ Hq')). change (is_expired q' (entry_key e) t1) with (is_expired q (entry_key e) t1).
    rewrite Hexp, Hst. by eexists. }
  change (entry_key (write_fields v md e)) with (entry_key e). rewrite Hpst, bool_decide_true by by eexists.
  cbn [version write_fields]. unfold or_one. destruct (Z.eqb_spec (version e) 0); [lia|].
  by rewrite Z.eqb_refl, orb_true_r.
Qed.

(** A full provider gives up the entry that was inserted first, however
    recently it was stored again: storing an entry anew does not move it. *)
Theorem memory_evicts_first_inserted p k0 r0 rest r1 e1 ev a b c p1 r2 e2 d e f :
  memory_ok p -> ttl_seconds (policy p) = None -> entries p = (k0, r0) :: rest ->
  max_entries (policy p) = Some (Z.of_nat (length (entries p))) ->
  heap p !! r1 = Some e1 -> entry_key e1 = k0 -> store p r1 ev a b c = (Ok tt, p1) ->
  heap p1 !! r2 = Some e2 -> version e2 = 0%Z -> entry_key e2 ∉ dkeys (entries p) ->
  let p2 := (store p1 r2 None d e f).2 in
  dkeys (entries p2) = (dkeys rest ++ [entry_key e2])%list /\ stored p2 k0 = None.
Proof.
  intros Hp Httl Hes Hmax Hr1 Hk1 Hs1 Hr2 Hv2 Hnew.
  assert (Hp1 : memory_ok p1) by (pose proof (memory_ok_store p r1 ev a b c Hp) as Hok; by rewrite Hs1 in Hok).
  assert (Hpol : policy p1 = policy p) by (pose proof (apply_policy p (OStore r1 ev a b c)) as Hpol; cbn in Hpol; by rewrite Hs1 in Hpol).
  assert (Hkeys : dkeys (entries p1) = dkeys (entries p)).
  { rewrite (store_inv p r1 ev a b c e1 Hr1) in Hs1. rewrite (purge_no_ttl p) in Hs1 by done.
    assert (Hx : is_Some (stored p (entry_key e1))).
    { apply stored_dmem; [done|]. rewrite Hk1, Hes. cbn. rewrite decide_True by done. by eexists. }
    destruct Hx as [x Hx]. rewrite Hx in Hs1. case_match; [|done]. injection Hs1 as <-.
    cbn [with_tables mutate entries]. apply dkeys_dset_in. rewrite Hes, Hk1. left. }
  rewrite (store_inv p1 r2 None d e f e2 Hr2). rewrite (purge_no_ttl p1) by by rewrite Hpol.
  assert (Hno : stored p1 (entry_key e2) = None).
  { unfold stored. by rewrite (proj2 (dget_None _ _)) by by rewrite Hkeys. }
  rewrite Hno, Hv2. cbn [Z.eqb orb]. cbv zeta. cbn [snd]. set (q := mutate p1 r2 (set_version (0 + 1))).
  assert (Hev : dkeys (entries (evict_if_full q e)) = dkeys rest).
  { unfold evict_if_full. cbn [q mutate policy]. rewrite Hpol, Hmax. rewrite (purge_no_ttl q) by by rewrite <-Httl, <-Hpol.
    cbn [q mutate entries stored_at]. assert (Hlen : length (entries p1) = length (entries p)).
    { pose proof (f_equal length Hkeys) as H. unfold dkeys in H. by rewrite !length_fmap in H. }
    destruct (entries p1) as [|[k1 x1] es1] eqn:E1; [by rewrite Hes in Hlen|].
    rewrite Hes in Hkeys. injection Hkeys as -> Hks. cbn [evict_oldest]. rewrite <-Hlen, Z.leb_refl.
    cbn [length]. destruct es1 as [|[k2 x2] es1]; cbn [evict_oldest]; [by destruct rest|].
    rewrite (proj2 (Z.leb_gt _ _)) by (cbn; lia). done. }
  cbn [with_tables entries]. split.
  - rewrite dset_fresh; [unfold dkeys in *; rewrite fmap_app; by rewrite Hev|].
    apply dget_None. rewrite Hev. intros Hin. apply Hnew. rewrite Hes. by right.
  - rewrite stored_set, decide_False.
    + unfold stored. rewrite (proj2 (dget_None _ _)); [done|]. rewrite Hev.
      destruct Hp as (Hnd & _). rewrite Hes in Hnd. by apply NoDup_cons in Hnd as [? _].
    + intros ->. apply Hnew. rewrite Hes. left.
Qed.

(** ** Examples *)

Definition entry (k : string) (v : json) : MemoryEntry :=
  {| key := k; value := v; scope := "agent"; metadata := []; tenant_id := None; version := 0 |}.

Definition small : MemoryPolicy := {| auto_store := false; max_entries := Some 2%Z; ttl_seconds := None |}.

(** Two entries, then a copy of the first one. *)
Definition two_entries : list op :=
  [ONew (entry "a" (JInt 1)); OStore 0 None 0 0 0; ONew (entry "b" (JInt 2)); OStore 1 None 1 1 1;
   OGet "a" None None 2; ONew (entry "c" (JInt 3))].
Definition demo : InMemoryMemoryProvider := run (new_provider small) two_entries.

(** Two scopes and keys that share one storage key. *)
Example keys_collide :
  storage_key "c" (Some "a:b") None = storage_key "b:c" (Some "a") None.
Proof. reflexivity. Qed.

Lemma memory_bounded_witness :
  length (entries (run (new_provider small) two_entries)) = 2 /\
  (Z.of_nat (length (entries (run (new_provider small) two_entries))) <= 2)%Z.
Proof.
  split; [reflexivity|]. exact (proj1 (memory_bounded (JBool false) (JInt 2) JNull small two_entries eq_refl) 2%Z eq_refl).
Defined.

(** A copy read before somebody else stored the key is refused. *)
Lemma memory_no_lost_update_witness :
  let ops := [ONew (entry "a" (JInt 9)); OStore 4 (Some 1%Z) 3 3 3] in
  (store (run demo ops) 2 None 4 4 4).1 = Err {| conflict_key := "a"; expected := 1; actual := 2 |}.
Proof.
  set (ops := [ONew (entry "a" (JInt 9)); OStore 4 (Some 1%Z) 3 3 3]). set (c := set_version 1 (entry "a" (JInt 1))).
  assert (Hl : lives (entry_key c) demo ops) by (vm_compute; repeat split; by eexists).
  assert (Hs : is_Some (stored (purge_expired (run demo ops) 4) (entry_key c))) by (vm_compute; by eexists).
  pose proof (memory_no_lost_update demo 2 c c ops 4 4 4 (memory_ok_run small two_entries)
    eq_refl eq_refl eq_refl Hl eq_refl Hs) as H.
  vm_compute in H |- *. exact (proj1 H).
Defined.

Lemma memory_evicts_first_inserted_witness :
  dkeys (entries (store (store demo 2 None 3 3 3).2 3 None 4 4 4).2) = ["agent:b"; "agent:c"].
Proof.
  refine (proj1 (memory_evicts_first_inserted demo "agent:a" 0 [("agent:b", 1)] 2 _ None 3 3 3
    (store demo 2 None 3 3 3).2 3 (entry "c" (JInt 3)) 4 4 4 (memory_ok_run small two_entries)
    eq_refl eq_refl eq_refl eq_refl eq_refl eq_refl eq_refl eq_refl _)).
  vm_compute. intros H. repeat (apply elem_of_cons in H as [H|H]; [discriminate H|]). by apply elem_of_nil in H.
Defined.

End Memory.
