(* ===== verification/Contracts.v ===== *)
(** * Input and output contracts

    [definition/contracts.py], which checks invocation inputs and agent outputs
    against the declared parameters, and [models/structured.py], which turns an
    output contract into the JSON Schema that a provider is given. *)

From Stdlib Require Import Qround.
From S2P Require Import Prelude Json.

Module Contracts.
Local Open Scope string_scope.

(** [ParameterDefinition] of [definition/models.py]. *)
Record ParameterDefinition : Type := {
  name : string;
  type : string;
  description : option string;
  required : bool;
  default : json
}.

(** The model accepts these types only. *)
Definition parameter_types : list string :=
  ["string"; "integer"; "number"; "boolean"; "object"; "array"; "null"; "any"].

(** [InputContract] and [OutputContract]: parameters with distinct names. *)
Definition contract : Type := list ParameterDefinition.

Definition contract_ok (c : contract) : Prop :=
  NoDup (name <$> c) /\ Forall (fun q => type q ∈ parameter_types) c.

(** ** Validation *)

Definition matches_type (v : json) (type_name : string) : bool :=
  if String.eqb type_name "any" then true
  else if String.eqb type_name "null" then match v with JNull => true | _ => false end
  else if String.eqb type_name "string" then match v with JStr _ => true | _ => false end
  else if String.eqb type_name "integer" then match v with JInt _ => true | _ => false end
  else if String.eqb type_name "number" then match v with JInt _ | JFloat _ => true | _ => false end
  else if String.eqb type_name "boolean" then match v with JBool _ => true | _ => false end
  else if String.eqb type_name "object" then match v with JObj _ => true | _ => false end
  else if String.eqb type_name "array" then match v with JList _ => true | _ => false end
  else false.

(** [type(value).__name__] *)
Definition type_name (v : json) : string :=
  match v with
  | JNull => "NoneType" | JBool _ => "bool" | JInt _ => "int" | JFloat _ => "float"
  | JStr _ => "str" | JList _ => "list" | JObj _ => "dict"
  end.

Inductive violation : Type :=
  | NotAnObject
  | MissingRequired (field : string)
  | WrongType (field type got : string)
  | UnknownFields (fields : list string).

(** The violations of one parameter, in the order of the code. *)
Definition parameter_violations (d : list (string * json)) (q : ParameterDefinition) : list violation :=
  if required q && negb (dmem (name q) d) then [MissingRequired (name q)]
  else match dget (name q) d with
       | Some v => if matches_type v (type q) then [] else [WrongType (name q) (type q) (type_name v)]
       | None => []
       end.

Definition unknown_fields (c : contract) (d : list (string * json)) : list string :=
  sort_by str_leb (filterb (fun k => negb (memb k (name <$> c))) (dkeys d)).

(** [_validate_contract]; the errors of a [ContractValidationError]. *)
Definition validate_contract (c : contract) (v : json) : result (list violation) unit :=
  if bool_decide (c = []) then Ok tt
  else match v with
       | JObj d =>
           let errors := (mjoin (parameter_violations d <$> c) ++
             match unknown_fields c d with [] => [] | u => [UnknownFields u] end)%list in
           match errors with [] => Ok tt | _ => Err errors end
       | _ => Err [NotAnObject]
       end.

(** [validate_input] and [validate_output]: the contract's name and the errors. *)
Definition validate_input (c : contract) (v : json) : result (string * list violation) unit :=
  match validate_contract c v with Ok tt => Ok tt | Err e => Err ("input", e) end.
Definition validate_output (c : contract) (v : json) : result (string * list violation) unit :=
  match validate_contract c v with Ok tt => Ok tt | Err e => Err ("output", e) end.

(** ** The schema of a contract *)

Definition type_schema (t : string) : list (string * json) :=
  if String.eqb t "any" then []
  else if String.eqb t "array" then [("type", JStr "array"); ("items", JObj [])]
  else if String.eqb t "object" then [("type", JStr "object"); ("additionalProperties", JBool true)]
  else [("type", JStr t)].

Definition annotate (description : option string) (default : json) (schema : list (string * json))
  : list (string * json) :=
  let schema := if opt_truthy description then dset "description" (JStr (opt_or description "")) schema
                else schema in
  match default with JNull => schema | v => dset "default" v schema end.

Definition parameter_schema (q : ParameterDefinition) : list (string * json) :=
  annotate (description q) (default q) (type_schema (type q)).

Definition schema_properties (c : contract) : list (string * json) :=
  dict_of ((fun q => (name q, JObj (parameter_schema q))) <$> c).

Definition required_names (c : contract) : list string := name <$> filterb required c.

Definition output_contract_json_schema (c : contract) : list (string * json) :=
  let result := [("type", JStr "object"); ("properties", JObj (schema_properties c));
                 ("additionalProperties", JBool false)] in
  match required_names c with
  | [] => result
  | r => dset "required" (JList (JStr <$> r)) result
  end.

(** [structured_output_generation]: explicit generation settings win. *)
Definition structured_output_generation (generation : list (string * json)) (c : contract)
    (supports_structured_output : bool) : list (string * json) :=
  if bool_decide (c = []) || negb supports_structured_output then generation
  else if dmem "response_format" generation then generation
  else dset "response_format"
         (JObj [("type", JStr "json_schema");
                ("json_schema", JObj [("name", JStr "micro_agent_output"); ("strict", JBool true);
                                      ("schema", JObj (output_contract_json_schema c))])]) generation.

(** ** What conforming to a contract means *)

Inductive has_type : json -> string -> Prop :=
  | ty_any v : has_type v "any"
  | ty_null : has_type JNull "null"
  | ty_string s : has_type (JStr s) "string"
  | ty_integer z : has_type (JInt z) "integer"
  | ty_number_int z : has_type (JInt z) "number"
  | ty_number_float q : has_type (JFloat q) "number"
  | ty_boolean b : has_type (JBool b) "boolean"
  | ty_object d : has_type (JObj d) "object"
  | ty_array l : has_type (JList l) "array".

Definition conforms (c : contract) (d : list (string * json)) : Prop :=
  (forall q, q ∈ c -> required q = true -> is_Some (dget (name q) d)) /\
  (forall q v, q ∈ c -> dget (name q) d = Some v -> has_type v (type q)) /\
  (forall k, k ∈ dkeys d -> k ∈ name <$> c).

Lemma matches_type_iff v t : matches_type v t = true <-> has_type v t.
Proof.
  split.
  - unfold matches_type. intros H.
    repeat match goal with
    | H : (if String.eqb ?a ?b then _ else _) = true |- _ => destruct (String.eqb_spec a b); [subst|]
    end; destruct v; try discriminate; constructor.
  - by destruct 1.
Qed.

Lemma parameter_violations_nil d q :
  parameter_violations d q = [] <->
  (required q = true -> is_Some (dget (name q) d)) /\
  (forall v, dget (name q) d = Some v -> has_type v (type q)).
Proof.
  unfold parameter_violations. destruct (required q && negb (dmem (name q) d)) eqn:E.
  - apply andb_true_iff in E as [Hr Hm]. split; [done|]. intros [H _]. specialize (H Hr).
    apply dmem_get in H. by rewrite H in Hm.
  - assert (Hr : required q = true -> is_Some (dget (name q) d)).
    { intros Hr. rewrite Hr in E. cbn in E. by apply dmem_get, negb_false_iff. }
    destruct (dget (name q) d) as [v|] eqn:Hv.
    + destruct (matches_type v (type q)) eqn:Hm.
      * apply matches_type_iff in Hm. split; [|done]. intros _. split; [done|]. by intros ? [= <-].
      * split; [done|]. intros [_ H]. specialize (H v eq_refl). apply matches_type_iff in H. congruence.
    + split; [|done]. intros _. by split.
Qed.

Lemma mjoin_nil {A B} (f : A -> list B) (l : list A) :
  mjoin (f <$> l) = [] <-> forall x, x ∈ l -> f x = [].
Proof.
  induction l as [|x l IH]; cbn.
  - split; [by intros _ x ?%elem_of_nil | done].
  - rewrite app_nil, IH. split.
    + intros [Hx Hl] y [->|Hy]%elem_of_cons; [done | by apply Hl].
    + intros H. split; [apply H; left | intros y Hy; apply H; by right].
Qed.

Lemma unknown_fields_nil c d : unknown_fields c d = [] <-> forall k, k ∈ dkeys d -> k ∈ name <$> c.
Proof.
  unfold unknown_fields. split.
  - intros H k Hk. destruct (decide (k ∈ name <$> c)) as [|Hne]; [done|]. exfalso.
    assert (Hin : k ∈ sort_by str_leb (filterb (fun k => negb (memb k (name <$> c))) (dkeys d))).
    { apply elem_of_sort_by, elem_of_filterb. split; [done|]. by apply negb_true_iff, memb_false. }
    rewrite H in Hin. by apply elem_of_nil in Hin.
  - intros H. rewrite filterb_none; [done|]. intros k Hk. apply negb_false_iff, memb_true. by apply H.
Qed.

Lemma validate_contract_ok c v :
  validate_contract c v = Ok tt <-> c = [] \/ exists d, v = JObj d /\ conforms c d.
Proof.
  unfold validate_contract. case_bool_decide as Hc; [split; [by left | done]|]. split.
  - destruct v as [| | | | | |d]; try done. destruct (_ ++ _)%list eqn:E; [intros _|done].
    apply app_nil in E as [Hp Hu]. right. exists d. split; [done|].
    assert (Hu' : unknown_fields c d = []) by by destruct (unknown_fields c d).
    split_and!.
    + intros q Hq. by apply (parameter_violations_nil d q), (proj1 (mjoin_nil _ _) Hp).
    + intros q w Hq. by apply (parameter_violations_nil d q), (proj1 (mjoin_nil _ _) Hp).
    + by apply unknown_fields_nil.
  - intros [?|(d & -> & Hr & Ht & Hk)]; [done|]. apply unknown_fields_nil in Hk. rewrite Hk, app_nil_r.
    rewrite (proj2 (mjoin_nil (parameter_violations d) c)); [done|].
    intros q Hq. apply parameter_violations_nil. split; [by apply Hr | intros w; by apply Ht].
Qed.

(** C27: A value passes a contract exactly when it conforms to it: it is an
    object with every required field, each declared field of its declared type
    and no other field. *)
Theorem contract_types c v :
  validate_contract c v = Ok tt <-> c = [] \/ exists d, v = JObj d /\ conforms c d.
Proof. apply validate_contract_ok. Qed.

(** ** The contract and its schema

    What JSON Schema says of the keywords that the schemas use: [type],
    [properties], [additionalProperties], [required] and [items]; all others
    are annotations.  A number without a fractional part is an integer. *)

Definition schema_type (t : string) (v : json) : bool :=
  if String.eqb t "integer" then
    match v with JInt _ => true | JFloat q => Qeq_bool (inject_Z (Qfloor q)) q | _ => false end
  else matches_type v t.

Fixpoint accepts (schema v : json) {struct schema} : bool :=
  match schema with
  | JBool b => b
  | JObj d =>
      forallb (fun kw =>
        if String.eqb kw.1 "type" then
          match kw.2 with JStr t => schema_type t v | _ => true end
        else if String.eqb kw.1 "required" then
          match kw.2, v with
          | JList names, JObj o => forallb (fun n => match n with JStr s => dmem s o | _ => true end) names
          | _, _ => true
          end
        else if String.eqb kw.1 "items" then
          match v with JList l => forallb (accepts kw.2) l | _ => true end
        else if String.eqb kw.1 "properties" then
          match kw.2, v with
          | JObj props, JObj o =>
              forallb (fun p => match dget p.1 o with Some w => accepts p.2 w | None => true end) props
          | _, _ => true
          end
        else if String.eqb kw.1 "additionalProperties" then
          match kw.2, v with
          | JBool false, JObj o =>
              forallb (fun f => match dget "properties" d with
                                | Some (JObj props) => dmem f.1 props
                                | _ => false
                                end) o
          | _, _ => true
          end
        else true) d
  | _ => true
  end.

Lemma accepts_parameter q v :
  type q ∈ parameter_types ->
  accepts (JObj (parameter_schema q)) v = (String.eqb (type q) "any" || schema_type (type q) v).
Proof.
  intros Ht. unfold parameter_schema. generalize (description q), (default q). intros txt def.
  unfold parameter_types in Ht. repeat (apply elem_of_cons in Ht as [->|Ht]); [..|by apply elem_of_nil in Ht].
  all: destruct def, (opt_truthy txt) eqn:E; unfold annotate; rewrite E;
    lazy -[schema_type andb forallb accepts opt_or]; cbn; rewrite ?andb_true_r; try done.
  all: destruct v as [| | | | |xs|]; try done; cbn; rewrite ?andb_true_r; induction xs as [|x xs IH]; [done | exact IH].
Qed.

Lemma schema_properties_keys c : NoDup (name <$> c) -> dkeys (schema_properties c) = name <$> c /\
  forall q, q ∈ c -> dget (name q) (schema_properties c) = Some (JObj (parameter_schema q)).
Proof.
  intros Hnd. unfold schema_properties. assert (Hks : dkeys ((fun q => (name q, JObj (parameter_schema q))) <$> c) = name <$> c).
  { unfold dkeys. by rewrite <-list_fmap_compose. }
  rewrite dict_of_id by by rewrite Hks. split; [done|].
  intros q Hq. apply elem_dget; [by rewrite Hks|]. apply list_elem_of_fmap. by exists q.
Qed.

Definition schema_conforms (c : contract) (d : list (string * json)) : Prop :=
  (forall q, q ∈ c -> required q = true -> is_Some (dget (name q) d)) /\
  (forall q v, q ∈ c -> dget (name q) d = Some v ->
     (String.eqb (type q) "any" || schema_type (type q) v) = true) /\
  (forall k, k ∈ dkeys d -> k ∈ name <$> c).

Lemma accepts_contract c v :
  contract_ok c -> accepts (JObj (output_contract_json_schema c)) v = true <->
                   exists d, v = JObj d /\ schema_conforms c d.
Proof.
  intros [Hnd Hty]. destruct (schema_properties_keys c Hnd) as [Hkeys Hget].
  assert (Hreq : forall d : list (string * json), forallb (fun n => match n with JStr s => dmem s d | _ => true end) (JStr <$> required_names c) = true
                   <-> forall q, q ∈ c -> required q = true -> is_Some (dget (name q) d)).
  { intros d. rewrite forallb_elem. unfold required_names. split.
    - intros H q Hq Hr. apply dmem_get, (H (JStr (name q))). apply list_elem_of_fmap. exists (name q). split; [done|].
      apply list_elem_of_fmap. exists q. split; [done|]. by apply elem_of_filterb.
    - intros H j Hj. apply list_elem_of_fmap in Hj as (n & -> & Hn).
      apply list_elem_of_fmap in Hn as (q & -> & [Hq Hr]%elem_of_filterb). by apply dmem_get, H. }
  assert (Hprops : forall d : list (string * json), forallb (fun p => match dget p.1 d with Some w => accepts p.2 w | None => true end) (schema_properties c) = true
                   <-> forall q w, q ∈ c -> dget (name q) d = Some w -> (String.eqb (type q) "any" || schema_type (type q) w) = true).
  { intros d. rewrite forallb_elem. rewrite Forall_forall in Hty. split.
    - intros H q w Hq Hw. specialize (H _ (dget_elem _ _ _ (Hget q Hq))). cbn [fst snd] in H. rewrite Hw in H.
      rewrite <-accepts_parameter; [done | by apply Hty].
    - intros H [k sch] Hin. cbn [fst snd].
      assert (Hk : k ∈ name <$> c) by (rewrite <-Hkeys; apply list_elem_of_fmap; by exists (k, sch)).
      apply list_elem_of_fmap in Hk as (q & -> & Hq). apply elem_dget in Hin; [|by rewrite Hkeys].
      rewrite (Hget q Hq) in Hin. injection Hin as <-. destruct (dget (name q) d) as [w|] eqn:Hw; [|done].
      rewrite accepts_parameter; [by apply H | by apply Hty]. }
  assert (Hadd : forall d : list (string * json), forallb (fun f => dmem f.1 (schema_properties c)) d = true <-> forall k, k ∈ dkeys d -> k ∈ name <$> c).
  { intros d. rewrite forallb_elem, <-Hkeys. unfold dkeys, dmem. split.
    - intros H k (kv & -> & Hin)%list_elem_of_fmap. by apply memb_true, H.
    - intros H kv Hin. apply memb_true, H, list_elem_of_fmap. by exists kv. }
  unfold output_contract_json_schema, schema_conforms.
  destruct v as [| | | | | |d]; try (split; [destruct (required_names c); cbn; intros; done | by intros (? & ? & _)]).
  transitivity (forallb (fun n => match n with JStr s => dmem s d | _ => true end) (JStr <$> required_names c) = true /\
    forallb (fun p => match dget p.1 d with Some w => accepts p.2 w | None => true end) (schema_properties c) = true /\
    forallb (fun f => dmem f.1 (schema_properties c)) d = true).
  - destruct (required_names c) as [|n ns]; [|rewrite dset_fresh by reflexivity]; cbn -[schema_properties].
    + rewrite !andb_true_iff. tauto.
    + rewrite !andb_true_iff. tauto.
  - rewrite Hreq, Hprops, Hadd. split; [intros H; by exists d | by intros (? & [= <-] & H)].
Qed.

(** The schema that a provider is given for a contract accepts exactly the
    objects that pass the contract, but for whole floats: JSON Schema takes
    them for integers and the contract does not. *)
Theorem contract_schema_agrees c v :
  contract_ok c -> c <> [] ->
  (is_ok (validate_output c v) = true <->
   accepts (JObj (output_contract_json_schema c)) v = true /\
   forall d q x, v = JObj d -> q ∈ c -> type q = "integer" -> dget (name q) d <> Some (JFloat x)).
Proof.
  intros Hc Hne. rewrite accepts_contract by done.
  assert (Hok : is_ok (validate_output c v) = true <-> exists d, v = JObj d /\ conforms c d).
  { unfold validate_output. destruct (validate_contract c v) as [[]|e] eqn:E.
    - apply validate_contract_ok in E as [?|?]; [done|]. by split.
    - split; [done|]. intros H. assert (validate_contract c v = Ok tt); [apply validate_contract_ok; by right | congruence]. }
  rewrite Hok. destruct Hc as [_ Hty]. rewrite Forall_forall in Hty.
  assert (Htype : forall q w, q ∈ c -> type q <> "integer" \/ (forall x, w <> JFloat x) ->
            has_type w (type q) <-> (String.eqb (type q) "any" || schema_type (type q) w) = true).
  { intros q w Hq Hn. rewrite <-matches_type_iff. unfold schema_type.
    destruct (String.eqb_spec (type q) "any") as [->|]; [done|].
    destruct (String.eqb_spec (type q) "integer") as [Hi|]; [|done].
    destruct Hn as [?|Hn]; [done|]. rewrite Hi. destruct w as [| | |x| | |]; try done. by destruct (Hn x). }
  split.
  - intros (d & -> & Hr & Ht & Hk). split.
    + exists d. split; [done|]. split_and!; [done| |done]. intros q w Hq Hw. pose proof (Ht q w Hq Hw) as Hwt.
      apply Htype; [done| |done]. destruct (decide (type q = "integer")) as [Hi|]; [|by left].
      right. intros x ->. rewrite Hi in Hwt. by inversion Hwt.
    + intros d' q x [= <-] Hq Hi Hx. specialize (Ht q _ Hq Hx). rewrite Hi in Ht. by inversion Ht.
  - intros [(d & -> & Hr & Ht & Hk) Hf]. exists d. split; [done|]. split_and!; [done| |done].
    intros q w Hq Hw. apply Htype; [done| |by apply Ht].
    destruct (decide (type q = "integer")) as [Hi|]; [|by left]. right. intros x ->. by destruct (Hf d q x).
Qed.

(** ** Examples *)

Definition answer : contract :=
  [{| name := "text"; type := "string"; description := Some "the answer"; required := true; default := JNull |};
   {| name := "score"; type := "integer"; description := None; required := false; default := JInt 0 |}].

Example answer_errors :
  validate_output answer (JObj [("score", JFloat 2); ("x", JNull)]) =
  Err ("output", [MissingRequired "text"; WrongType "score" "integer" "float"; UnknownFields ["x"]]).
Proof. reflexivity. Qed.

Lemma contract_schema_agrees_witness :
  accepts (JObj (output_contract_json_schema answer)) (JObj [("text", JStr "hi")]) = true /\
  accepts (JObj (output_contract_json_schema answer)) (JObj [("text", JStr "hi"); ("score", JFloat 2)]) = true /\
  is_ok (validate_output answer (JObj [("text", JStr "hi")])) = true.
Proof.
  split; [reflexivity|]. split; [reflexivity|].
  apply (contract_schema_agrees answer (JObj [("text", JStr "hi")])).
  - split; [|repeat constructor; set_solver]. apply NoDup_cons. split; [set_solver | apply NoDup_singleton].
  - discriminate.
  - split; [reflexivity|]. intros d q x [= <-] Hq Hi.
    repeat (apply elem_of_cons in Hq as [->|Hq]); [..|by apply elem_of_nil in Hq]; vm_compute; discriminate.
Defined.

End Contracts.
