(* ===== verification/Definitions.v ===== *)
(** * Agent definitions: the typed model and the loader

    [definition/models.py]: the classes of a [MicroAgentDefinition] as records
    and, for each, the constraints that its fields and validators put on a value
    ([Field(...)] bounds, patterns, uniqueness, transport bindings).  Reading a
    document into the classes is the work of pydantic and a parameter, and so is
    [urlparse].  [definition/loader.py]: the version gate and the migration of
    the beta spelling. *)

From S2P Require Import Prelude Json Contracts.

Module Definitions.
Local Open Scope string_scope.

(** ** Patterns *)

Section chars.
Implicit Types c : Ascii.ascii.
Definition between (lo hi : N) c : bool := let n := Ascii.N_of_ascii c in N.leb lo n && N.leb n hi.
Definition is_digit c : bool := between 48 57 c.
Definition is_lower c : bool := between 97 122 c.
Definition is_upper c : bool := between 65 90 c.
Definition is_alpha c : bool := is_lower c || is_upper c.
Definition is_alnum c : bool := is_alpha c || is_digit c.
Definition one_of (s : string) c : bool := memb c (String.list_ascii_of_string s).
End chars.

(** A first character, then up to [max - 1] of another class. *)
Definition head_tail (head tail : Ascii.ascii -> bool) (max : nat) (s : string) : bool :=
  match String.list_ascii_of_string s with
  | [] => false
  | c :: l => head c && forallb tail l && Nat.leb (S (length l)) max
  end.

(** [_TOKEN_PATTERN], [_PARAMETER_PATTERN] and [_NAME_PATTERN]. *)
Definition token_pattern : string -> bool :=
  head_tail is_alnum (fun c => is_alnum c || one_of "_.:/-" c) 128.
Definition parameter_pattern : string -> bool :=
  head_tail is_alpha (fun c => is_alnum c || one_of "_.-" c) 128.
Definition dns_char (c : Ascii.ascii) : bool := is_lower c || is_digit c.
Definition name_pattern (s : string) : bool :=
  head_tail dns_char (fun c => dns_char c || one_of "-" c) 63 s &&
  match List.rev (String.list_ascii_of_string s) with [] => false | c :: _ => dns_char c end.

Fixpoint span (p : Ascii.ascii -> bool) (l : list Ascii.ascii) : list Ascii.ascii * list Ascii.ascii :=
  match l with
  | [] => ([], [])
  | c :: l' => if p c then let '(a, b) := span p l' in (c :: a, b) else ([], l)
  end.

(** [0|[1-9]\d*], as a prefix; the rest of the text. *)
Definition numeric_identifier (l : list Ascii.ascii) : option (list Ascii.ascii) :=
  let '(digits, rest) := span is_digit l in
  match digits with
  | [] => None
  | c :: ds => if one_of "0" c && negb (bool_decide (ds = [])) then None else Some rest
  end.

Definition literal (c : string) (l : list Ascii.ascii) : option (list Ascii.ascii) :=
  match l with x :: l => if one_of c x then Some l else None | [] => None end.

(** [(?:-[0-9A-Za-z.-]+)?], introduced by [mark]. *)
Definition optional_part (mark : string) (l : list Ascii.ascii) : option (list Ascii.ascii) :=
  match literal mark l with
  | None => Some l
  | Some l => match span (fun c => is_alnum c || one_of ".-" c) l with
              | ([], _) => None
              | (_, rest) => Some rest
              end
  end.

(** A text that a sequence of parts consumes to its end. *)
Definition scanner : Type := list Ascii.ascii -> option (list Ascii.ascii).
Fixpoint scan (parts : list scanner) (l : list Ascii.ascii) : bool :=
  match parts with
  | [] => bool_decide (l = [])
  | p :: parts => match p l with Some l => scan parts l | None => false end
  end.

Definition semver_pattern (s : string) : bool :=
  scan [numeric_identifier; literal "."; numeric_identifier; literal "."; numeric_identifier;
        optional_part "-"; optional_part "+"] (String.list_ascii_of_string s).

(** [\d+\.\d+(?:\.\d+)?] *)
Definition digits (l : list Ascii.ascii) : option (list Ascii.ascii) :=
  match span is_digit l with ([], _) => None | (_, rest) => Some rest end.
Definition protocol_version_pattern (s : string) : bool :=
  let l := String.list_ascii_of_string s in
  scan [digits; literal "."; digits] l || scan [digits; literal "."; digits; literal "."; digits] l.

(** ** The classes *)

Record ObjectMeta : Type := {
  meta_name : string;
  meta_version : string;
  meta_description : option string;
  labels : list (string * string);
  annotations : list (string * string)
}.

Record AgentBehavior : Type := {
  instructions : string;
  input_contract : Contracts.contract;
  output_contract : Contracts.contract
}.

Record ModelRef : Type := {
  model_ref : string;
  model_id : option string;
  provider : option string;
  model_endpoint : option string;
  model_credential_ref : option string;
  generation : list (string * json);
  model_timeout_seconds : option Z
}.

Inductive side_effect_class : Type := read_only | idempotent | unsafe.

Record ToolDefinition : Type := {
  tool_name : string;
  tool_description : option string;
  source : option string;
  tool_timeout_seconds : option Z;
  side_effect : side_effect_class
}.

Record McpServerRef : Type := {
  server_ref : string;
  transport : option string;
  server_endpoint : option string;
  command : option string;
  args : list string;
  server_credential_ref : option string;
  allowed_capabilities : list string;
  server_timeout_seconds : option Z
}.

Record SkillDefinition : Type := {
  skill_id : string;
  skill_name : string;
  skill_description : option string;
  input_metadata : list (string * json);
  output_metadata : list (string * json);
  tags : list string
}.

Record KnowledgeRef : Type := {
  knowledge_ref : string;
  source_type : option string;
  knowledge_version : option string;
  max_results : Z;
  max_context_characters : Z
}.

Record MemoryRef : Type := { memory_ref : string; memory_scope : option string }.

Record SessionConfig : Type := { persistence : string; session_ttl_seconds : option Z }.

Record Dependencies : Type := {
  model : option ModelRef;
  tools : list ToolDefinition;
  mcp_servers : list McpServerRef;
  skills : list SkillDefinition;
  knowledge : list KnowledgeRef;
  memory : option MemoryRef;
  session : SessionConfig
}.

Inductive ErrorPolicy : Type := FAIL | RETRY | FALLBACK.
Inductive ConcurrencyPolicy : Type := WAIT | REJECT.

Record RuntimeSemantics : Type := {
  timeout_seconds : option Z;
  max_iterations : option Z;
  max_concurrency : option Z;
  shutdown_timeout_seconds : option Q;
  concurrency_policy : ConcurrencyPolicy;
  error_policy : ErrorPolicy;
  retry_max_attempts : Z;
  retry_backoff_seconds : Q;
  retry_jitter_seconds : Q;
  retry_budget_seconds : option Q;
  circuit_breaker_failures : option Z;
  circuit_breaker_cooldown_seconds : option Q;
  capabilities : list string
}.

Record A2AConfig : Type := {
  a2a_enabled : bool;
  a2a_endpoint : option string;
  protocol_version : option string
}.

Record Security : Type := {
  credential_refs : list string;
  identity_requirements : list (string * json);
  policy_refs : list string
}.

Record MicroAgentSpec : Type := {
  behavior : AgentBehavior;
  dependencies : Dependencies;
  runtime : RuntimeSemantics;
  a2a : A2AConfig;                       (** [interoperability.a2a] *)
  security : Security
}.

Record MicroAgentDefinition : Type := {
  api_version : string;
  kind : string;
  metadata : ObjectMeta;
  spec : MicroAgentSpec
}.

(** ** Their constraints *)

Definition opt_all {A} (f : A -> bool) (o : option A) : bool := match o with Some a => f a | None => true end.
Definition len_in (lo hi : nat) (s : string) : bool :=
  Nat.leb lo (String.length s) && Nat.leb (String.length s) hi.
Definition at_least (lo z : Z) : bool := (lo <=? z)%Z.
Definition positive (q : Q) : bool := (0 <? q)%clock.
Definition in_choice (l : list string) (s : string) : bool := memb s l.

(** [_ensure_unique] *)
Definition unique (l : list string) : bool := bool_decide (NoDup l).

(** [value == value.strip()] *)
Definition unpadded (s : string) : bool :=
  match String.list_ascii_of_string s with
  | [] => true
  | c :: l => negb (is_space c) && match List.rev (c :: l) with x :: _ => negb (is_space x) | [] => true end
  end.

(** [_validate_token] *)
Definition validate_token (s : string) : bool := unpadded s && token_pattern s.
Definition token (s : string) : bool := len_in 1 128 s && token_pattern s.
Definition tokens (l : list string) : bool := forallb validate_token l && unique l.

Section urls.
(** [urlparse]: scheme and network location; [None] when it raises. *)
Context (urlparse : string -> option (string * string)).

Definition validate_url (s : string) : bool :=
  match urlparse s with
  | Some (scheme, netloc) => in_choice ["http"; "https"] scheme && str_truthy netloc
  | None => false
  end.

Definition meta_valid (m : ObjectMeta) : bool :=
  all_true [len_in 1 63 (meta_name m); name_pattern (meta_name m);
            len_in 5 128 (meta_version m); semver_pattern (meta_version m)].

Definition parameter_valid (p : Contracts.ParameterDefinition) : bool :=
  all_true [len_in 1 128 (Contracts.name p); parameter_pattern (Contracts.name p);
            in_choice Contracts.parameter_types (Contracts.type p)].

Definition contract_valid (c : Contracts.contract) : bool :=
  forallb parameter_valid c && unique (Contracts.name <$> c).

Definition behavior_valid (b : AgentBehavior) : bool :=
  all_true [str_truthy (instructions b); contract_valid (input_contract b); contract_valid (output_contract b)].

Definition model_valid (m : ModelRef) : bool :=
  all_true [token (model_ref m); opt_all (len_in 1 256) (model_id m);
            opt_all (fun p => len_in 1 64 p && token_pattern p) (provider m);
            opt_all validate_url (model_endpoint m); opt_all validate_token (model_credential_ref m);
            opt_all (at_least 1) (model_timeout_seconds m)].

Definition tool_valid (t : ToolDefinition) : bool :=
  all_true [token (tool_name t); opt_all (in_choice ["native"; "mcp"; "openapi"]) (source t);
            opt_all (at_least 1) (tool_timeout_seconds t)].

(** [validate_transport_binding] *)
Definition transport_binding (s : McpServerRef) : bool :=
  let launched := negb (bool_decide (command s = None)) || negb (bool_decide (args s = [])) in
  all_true
    [(if opt_all (in_choice ["sse"; "streamable-http"]) (transport s) && negb (bool_decide (transport s = None))
      then negb (bool_decide (server_endpoint s = None)) && negb launched else true);
     (if bool_decide (transport s = Some "stdio")
      then bool_decide (server_endpoint s = None) && negb (bool_decide (command s = None)) else true);
     (if bool_decide (transport s = None) then negb launched else true)].

Definition server_valid (s : McpServerRef) : bool :=
  all_true [token (server_ref s); opt_all (in_choice ["stdio"; "sse"; "streamable-http"]) (transport s);
            opt_all validate_url (server_endpoint s);
            opt_all (fun c => len_in 1 256 c && unpadded c && str_truthy c) (command s);
            Nat.leb (length (args s)) 32; opt_all validate_token (server_credential_ref s);
            tokens (allowed_capabilities s); opt_all (at_least 1) (server_timeout_seconds s);
            transport_binding s].

Definition skill_valid (s : SkillDefinition) : bool :=
  all_true [token (skill_id s); str_truthy (skill_name s); tokens (tags s)].

Definition knowledge_valid (k : KnowledgeRef) : bool :=
  all_true [token (knowledge_ref k); (1 <=? max_results k)%Z && (max_results k <=? 50)%Z;
            (256 <=? max_context_characters k)%Z && (max_context_characters k <=? 32768)%Z].

Definition memory_valid (m : MemoryRef) : bool :=
  all_true [token (memory_ref m);
            opt_all (in_choice ["user"; "agent"; "tenant"; "domain"; "application"]) (memory_scope m)].

Definition session_valid (s : SessionConfig) : bool :=
  all_true [in_choice ["none"; "memory"; "sqlite"; "external"] (persistence s);
            opt_all (at_least 1) (session_ttl_seconds s)].

Definition dependencies_valid (d : Dependencies) : bool :=
  all_true [opt_all model_valid (model d); forallb tool_valid (tools d); forallb server_valid (mcp_servers d);
            forallb skill_valid (skills d); forallb knowledge_valid (knowledge d);
            opt_all memory_valid (memory d); session_valid (session d);
            unique (tool_name <$> tools d); unique (server_ref <$> mcp_servers d);
            unique (skill_id <$> skills d); unique (knowledge_ref <$> knowledge d)].

Definition runtime_valid (r : RuntimeSemantics) : bool :=
  all_true [opt_all (at_least 1) (timeout_seconds r); opt_all (at_least 1) (max_iterations r);
            opt_all (at_least 1) (max_concurrency r); opt_all positive (shutdown_timeout_seconds r);
            (0 <=? retry_max_attempts r)%Z && (retry_max_attempts r <=? 10)%Z;
            (0 <=? retry_backoff_seconds r)%clock && (retry_backoff_seconds r <=? 60)%clock;
            (0 <=? retry_jitter_seconds r)%clock && (retry_jitter_seconds r <=? 60)%clock;
            opt_all positive (retry_budget_seconds r); opt_all (at_least 1) (circuit_breaker_failures r);
            opt_all positive (circuit_breaker_cooldown_seconds r); tokens (capabilities r)].

Definition a2a_valid (a : A2AConfig) : bool :=
  all_true [opt_all validate_url (a2a_endpoint a); opt_all protocol_version_pattern (protocol_version a)].

Definition security_valid (s : Security) : bool := tokens (credential_refs s) && tokens (policy_refs s).

Definition spec_valid (s : MicroAgentSpec) : bool :=
  all_true [behavior_valid (behavior s); dependencies_valid (dependencies s); runtime_valid (runtime s);
            a2a_valid (a2a s); security_valid (security s)].

Definition SUPPORTED_API_VERSIONS : list string := ["microagents.io/v1alpha1"; "microagents.io/v1beta1"].

Definition definition_valid (d : MicroAgentDefinition) : bool :=
  all_true [in_choice SUPPORTED_API_VERSIONS (api_version d); String.eqb (kind d) "MicroAgent";
            meta_valid (metadata d); spec_valid (spec d)].
End urls.

(** ** The loader *)

Definition FIELD_ALIASES : list (string * string) :=
  [("inputContract", "input_contract"); ("outputContract", "output_contract"); ("mcpServers", "mcp_servers");
   ("inputMetadata", "input_metadata"); ("outputMetadata", "output_metadata");
   ("allowedCapabilities", "allowed_capabilities"); ("sourceType", "source_type"); ("maxResults", "max_results");
   ("maxContextCharacters", "max_context_characters"); ("timeoutSeconds", "timeout_seconds");
   ("maxIterations", "max_iterations"); ("maxConcurrency", "max_concurrency");
   ("shutdownTimeoutSeconds", "shutdown_timeout_seconds"); ("concurrencyPolicy", "concurrency_policy");
   ("errorPolicy", "error_policy"); ("retryMaxAttempts", "retry_max_attempts");
   ("retryBackoffSeconds", "retry_backoff_seconds"); ("retryJitterSeconds", "retry_jitter_seconds");
   ("retryBudgetSeconds", "retry_budget_seconds"); ("circuitBreakerFailures", "circuit_breaker_failures");
   ("circuitBreakerCooldownSeconds", "circuit_breaker_cooldown_seconds");
   ("protocolVersion", "protocol_version"); ("identityRequirements", "identity_requirements");
   ("credentialRefs", "credential_refs"); ("policyRefs", "policy_refs"); ("sideEffect", "side_effect");
   ("credentialRef", "credential_ref"); ("modelId", "model_id"); ("modelProvider", "provider")].

Definition stable_name (k : string) : string := default k (dget k FIELD_ALIASES).

(** The [visit] of [_migrate_v1beta1]: a dictionary comprehension, so the last
    of two spellings of one field gives the value. *)
Fixpoint visit (v : json) : json :=
  match v with
  | JObj d => JObj (dict_of (List.map (fun kv => (stable_name kv.1, visit kv.2)) d))
  | JList l => JList (List.map visit l)
  | _ => v
  end.

Definition migrate_v1beta1 (data : list (string * json)) : list (string * json) :=
  match visit (JObj data) with JObj d => d | _ => [] end.

Inductive definition_error : Type :=
  | UnsupportedVersion (version : json)
  | Invalid
  | TypeError.                            (** the version is not hashable *)

Section loader.
Context (urlparse : string -> option (string * string)).
(** [MicroAgentDefinition.model_validate] up to the constraints: the typed value
    of a document, [None] when a field is missing, unknown or of another type. *)
Context (read : list (string * json) -> option MicroAgentDefinition).

Definition load_definition_from_dict (data : list (string * json))
  : result definition_error MicroAgentDefinition :=
  let version := default (default (JStr "microagents.io/v1alpha1") (dget "api_version" data))
                   (dget "apiVersion" data) in
  if match version with JList _ | JObj _ => true | _ => false end then Err TypeError
  else if negb (existsb (fun s => py_eq version (JStr s)) SUPPORTED_API_VERSIONS)
  then Err (UnsupportedVersion version)
  else
    let normalized := if py_eq version (JStr "microagents.io/v1beta1") then migrate_v1beta1 data else data in
    match read normalized with
    | Some d => if definition_valid urlparse d then Ok d else Err Invalid
    | None => Err Invalid
    end.
End loader.

(** ** What a valid definition is *)

Lemma all_true_cons b l : all_true (b :: l) = true <-> b = true /\ all_true l = true.
Proof. apply andb_true_iff. Qed.

(** One check of a conjunction of checks. *)
Lemma all_true_in l b : all_true l = true -> List.In b l -> b = true.
Proof. intros Hl Hb. by apply (proj1 (forallb_forall id l) Hl). Qed.
Ltac check H b := assert (b = true) by (apply (all_true_in _ _ H); cbn; tauto).

Definition portable_char (c : Ascii.ascii) : bool := is_alnum c || one_of "_.:/-" c.

Lemma token_pattern_chars s :
  token_pattern s = true -> s <> "" /\ String.length s <= 128 /\
                            forall c, c ∈ String.list_ascii_of_string s -> portable_char c = true.
Proof.
  unfold token_pattern, head_tail. intros H.
  assert (Hlen : length (String.list_ascii_of_string s) = String.length s).
  { clear H. induction s as [|c s IH]; cbn; [done | by rewrite IH]. }
  destruct (String.list_ascii_of_string s) as [|c l] eqn:E; [done|].
  apply andb_true_iff in H as [[Hc Hl]%andb_true_iff Hn%Nat.leb_le]. split_and!.
  - by intros ->.
  - cbn in Hlen. lia.
  - intros x [->|Hx]%elem_of_cons; [unfold portable_char; by rewrite Hc|]. by apply (proj1 (forallb_elem _ _) Hl).
Qed.

Lemma portable_not_space c : portable_char c = true -> is_space c = false.
Proof. destruct c as [[] [] [] [] [] [] [] []]; vm_compute; congruence. Qed.

(** How a server is reached. *)
Inductive binding : McpServerRef -> Prop :=
  | launched s cmd : transport s = Some "stdio" -> command s = Some cmd -> server_endpoint s = None -> binding s
  | connected s url : transport s = Some "sse" \/ transport s = Some "streamable-http" ->
      server_endpoint s = Some url -> command s = None -> args s = [] -> binding s
  | unbound s : transport s = None -> command s = None -> args s = [] -> binding s.

Lemma server_binding urlparse s : server_valid urlparse s = true -> binding s.
Proof.
  unfold server_valid. intros H.
  assert (opt_all (in_choice ["stdio"; "sse"; "streamable-http"]) (transport s) = true /\ transport_binding s = true)
    as [Ht Hb] by (split; apply (all_true_in _ _ H); cbn; tauto).
  unfold transport_binding in Hb. rewrite !all_true_cons in Hb. destruct Hb as (Hhttp & Hstdio & Hnone & _).
  destruct (transport s) as [t|] eqn:Et.
  - cbn in Ht. apply memb_true in Ht. repeat (apply elem_of_cons in Ht as [->|Ht]); [..|by apply elem_of_nil in Ht].
    + rewrite bool_decide_true in Hstdio by done. apply andb_true_iff in Hstdio as [He%bool_decide_eq_true Hc].
      destruct (command s) as [cmd|] eqn:Ec; [by eapply launched | done].
    + cbn in Hhttp. apply andb_true_iff in Hhttp as [He Hl]. destruct (server_endpoint s) as [u|] eqn:Eu; [|done].
      destruct (command s) eqn:Ec; [done|]. destruct (args s) eqn:Ea; [|done]. eapply connected; eauto.
    + cbn in Hhttp. apply andb_true_iff in Hhttp as [He Hl]. destruct (server_endpoint s) as [u|] eqn:Eu; [|done].
      destruct (command s) eqn:Ec; [done|]. destruct (args s) eqn:Ea; [|done]. eapply connected; eauto.
  - destruct (command s) eqn:Ec; [done|]. destruct (args s) eqn:Ea; [|done]. by apply unbound.
Qed.

Lemma contract_valid_ok c : contract_valid c = true -> Contracts.contract_ok c.
Proof.
  unfold contract_valid. intros [Hp Hu%bool_decide_eq_true]%andb_true_iff. split; [done|].
  apply Forall_forall. intros q Hq. apply (proj1 (forallb_elem _ _)) with (x := q) in Hp; [|done].
  apply memb_true. apply (all_true_in _ _ Hp). cbn. tauto.
Qed.

(** Components that are found by their name are found. *)
Lemma unique_lookup {A} (key : A -> string) (l : list A) x :
  unique (key <$> l) = true -> x ∈ l -> dget (key x) ((fun x => (key x, x)) <$> l) = Some x.
Proof.
  intros Hu%bool_decide_eq_true Hx. apply elem_dget.
  - unfold dkeys. by rewrite <-list_fmap_compose.
  - apply list_elem_of_fmap. by exists x.
Qed.

(** The references of a definition to things outside of it. *)
Definition references (d : MicroAgentDefinition) : list string :=
  let s := spec d in
  (credential_refs (security s) ++ policy_refs (security s) ++
   omap model_credential_ref (option_list (model (dependencies s))) ++
   omap server_credential_ref (mcp_servers (dependencies s)) ++
   (tool_name <$> tools (dependencies s)) ++ (server_ref <$> mcp_servers (dependencies s)) ++
   (skill_id <$> skills (dependencies s)) ++ (knowledge_ref <$> knowledge (dependencies s)))%list.

Lemma validate_token_portable s : validate_token s = true -> token_pattern s = true.
Proof. by intros [_ ?]%andb_true_iff. Qed.
Lemma token_portable s : token s = true -> token_pattern s = true.
Proof. by intros [_ ?]%andb_true_iff. Qed.
Lemma tokens_portable l s : tokens l = true -> s ∈ l -> token_pattern s = true.
Proof. intros [Hl _]%andb_true_iff Hs. by apply validate_token_portable, (proj1 (forallb_elem _ _) Hl). Qed.
Lemma opt_all_Some {A} (f : A -> bool) o a : opt_all f o = true -> o = Some a -> f a = true.
Proof. by intros H ->. Qed.

Lemma definition_parts urlparse d :
  definition_valid urlparse d = true ->
  behavior_valid (behavior (spec d)) = true /\ dependencies_valid urlparse (dependencies (spec d)) = true /\
  security_valid (security (spec d)) = true.
Proof.
  intros H. assert (Hs : spec_valid urlparse (spec d) = true) by (apply (all_true_in _ _ H); cbn; tauto).
  split_and!; apply (all_true_in _ _ Hs); cbn; tauto.
Qed.

Lemma dependencies_parts urlparse d :
  dependencies_valid urlparse d = true ->
  (forall m, model d = Some m -> model_valid urlparse m = true) /\
  (forall t, t ∈ tools d -> tool_valid t = true) /\ (forall s, s ∈ mcp_servers d -> server_valid urlparse s = true) /\
  (forall s, s ∈ skills d -> skill_valid s = true) /\ (forall k, k ∈ knowledge d -> knowledge_valid k = true) /\
  unique (tool_name <$> tools d) = true /\ unique (server_ref <$> mcp_servers d) = true /\
  unique (skill_id <$> skills d) = true /\ unique (knowledge_ref <$> knowledge d) = true.
Proof.
  intros H. unfold dependencies_valid in H. rewrite !all_true_cons in H.
  destruct H as (Hm & Ht & Hs & Hk & Hn & _ & _ & H1 & H2 & H3 & H4 & _).
  split_and!; try done; [by intros m; apply opt_all_Some | by apply forallb_elem..].
Qed.

Lemma references_portable urlparse d r :
  definition_valid urlparse d = true -> r ∈ references d -> token_pattern r = true.
Proof.
  intros (_ & Hd & [Hc Hp]%andb_true_iff)%definition_parts.
  apply dependencies_parts in Hd as (Hm & Ht & Hs & Hk & Hn & _).
  unfold references. rewrite !elem_of_app. intros [Hr|[Hr|[Hr|[Hr|[Hr|[Hr|[Hr|Hr]]]]]]].
  - exact (tokens_portable _ _ Hc Hr).
  - exact (tokens_portable _ _ Hp Hr).
  - apply list_elem_of_omap in Hr as (m & Hmm & Hr). destruct (model _) as [m'|]; [|by apply elem_of_nil in Hmm].
    apply list_elem_of_singleton in Hmm as ->. specialize (Hm m' eq_refl).
    eapply validate_token_portable, opt_all_Some; [|exact Hr]. apply (all_true_in _ _ Hm). cbn. tauto.
  - apply list_elem_of_omap in Hr as (x & Hx & Hr). specialize (Hs x Hx).
    eapply validate_token_portable, opt_all_Some; [|exact Hr]. apply (all_true_in _ _ Hs). cbn. tauto.
  - apply list_elem_of_fmap in Hr as (x & -> & Hx). apply token_portable, (all_true_in _ _ (Ht x Hx)). cbn. tauto.
  - apply list_elem_of_fmap in Hr as (x & -> & Hx). apply token_portable, (all_true_in _ _ (Hs x Hx)). cbn. tauto.
  - apply list_elem_of_fmap in Hr as (x & -> & Hx). apply token_portable, (all_true_in _ _ (Hk x Hx)). cbn. tauto.
  - apply list_elem_of_fmap in Hr as (x & -> & Hx). apply token_portable, (all_true_in _ _ (Hn x Hx)). cbn. tauto.
Qed.

(** What the loader accepts is well typed: the version is supported, the
    contracts are ones that validation and schemas understand, every tool,
    server, skill and source is found under its name, every server has exactly
    one binding, and every reference is short, not empty and free of blanks. *)
Theorem loaded_definition_well_typed urlparse read data d :
  load_definition_from_dict urlparse read data = Ok d ->
  let deps := dependencies (spec d) in
  api_version d ∈ SUPPORTED_API_VERSIONS /\
  Contracts.contract_ok (input_contract (behavior (spec d))) /\
  Contracts.contract_ok (output_contract (behavior (spec d))) /\
  (forall t, t ∈ tools deps -> dget (tool_name t) ((fun x => (tool_name x, x)) <$> tools deps) = Some t) /\
  (forall s, s ∈ mcp_servers deps ->
     binding s /\ dget (server_ref s) ((fun x => (server_ref x, x)) <$> mcp_servers deps) = Some s) /\
  (forall s, s ∈ skills deps -> dget (skill_id s) ((fun x => (skill_id x, x)) <$> skills deps) = Some s) /\
  (forall k, k ∈ knowledge deps -> dget (knowledge_ref k) ((fun x => (knowledge_ref x, x)) <$> knowledge deps) = Some k) /\
  (forall r, r ∈ references d -> r <> "" /\ String.length r <= 128 /\
     forall c, c ∈ String.list_ascii_of_string r -> is_space c = false).
Proof.
  unfold load_definition_from_dict. intros Hl.
  assert (Hv : definition_valid urlparse d = true) by (repeat case_match; congruence).
  pose proof (definition_parts urlparse d Hv) as (Hb & Hd & _).
  pose proof (dependencies_parts urlparse _ Hd) as (_ & _ & Hs & _ & _ & Hu1 & Hu2 & Hu3 & Hu4).
  assert (contract_valid (input_contract (behavior (spec d))) = true /\
          contract_valid (output_contract (behavior (spec d))) = true) as [Hi Ho]
    by (split; apply (all_true_in _ _ Hb); cbn; tauto).
  split_and!.
  - apply memb_true, (all_true_in _ _ Hv). cbn. tauto.
  - by apply contract_valid_ok.
  - by apply contract_valid_ok.
  - intros t Ht. by apply unique_lookup.
  - intros s Hin. split; [by apply (server_binding urlparse), Hs | by apply unique_lookup].
  - intros s Hin. by apply unique_lookup.
  - intros k Hin. by apply unique_lookup.
  - intros r Hr. destruct (token_pattern_chars r (references_portable _ _ _ Hv Hr)) as (? & ? & Hc).
    split_and!; [done..|]. intros c Hin. by apply portable_not_space, Hc.
Qed.

(** ** The migration *)

Lemma stable_name_idemp k : stable_name (stable_name k) = stable_name k.
Proof.
  unfold stable_name at 2 3. destruct (dget k FIELD_ALIASES) as [n|] eqn:E; cbn [default].
  - apply dget_elem in E. assert (Hall : forallb (fun kn => String.eqb (stable_name kn.2) kn.2) FIELD_ALIASES = true) by reflexivity.
    apply (proj1 (forallb_elem _ _) Hall) in E. by apply String.eqb_eq in E.
  - unfold stable_name. by rewrite E.
Qed.

Definition stable_items (d : list (string * json)) : list (string * json) :=
  List.map (fun kv => (stable_name kv.1, visit kv.2)) d.

Lemma elem_stable_items d k v : (k, v) ∈ stable_items d <-> exists k0 v0, (k0, v0) ∈ d /\ k = stable_name k0 /\ v = visit v0.
Proof.
  unfold stable_items. rewrite list_elem_of_In, in_map_iff. split.
  - intros ([k0 v0] & [= <- <-] & Hin). exists k0, v0. by rewrite list_elem_of_In.
  - intros (k0 & v0 & Hin & -> & ->). exists (k0, v0). by rewrite <-list_elem_of_In.
Qed.

Lemma visit_idemp v : visit (visit v) = visit v.
Proof.
  induction v as [| | | | |l IH|d IH] using json_ind'; try done.
  - cbn. f_equal. rewrite List.map_map. apply List.map_ext_in. intros x Hx.
    rewrite Forall_forall in IH. by apply IH, list_elem_of_In.
  - change (visit (JObj d)) with (JObj (dict_of (stable_items d))). cbn [visit]. f_equal.
    fold (stable_items (dict_of (stable_items d))).
    assert (stable_items (dict_of (stable_items d)) = dict_of (stable_items d)) as ->.
    { unfold stable_items at 1. rewrite <-(List.map_id (dict_of (stable_items d))) at 2.
      apply List.map_ext_in. intros [k w] Hin%list_elem_of_In%elem_dict_of_inv.
      apply elem_stable_items in Hin as (k0 & v0 & Hin & -> & ->). rewrite Forall_forall in IH.
      specialize (IH _ Hin). cbn [fst snd] in *. by rewrite stable_name_idemp, IH. }
    apply dict_of_id, NoDup_dict_of.
Qed.

(** The migration of a beta document gives each field the stable spelling
    and its migrated value unless a document spells one field twice, adds
    nothing, and leaves a migrated document alone. *)
Theorem migration_renames_fields data :
  NoDup (dkeys data) ->
  migrate_v1beta1 (migrate_v1beta1 data) = migrate_v1beta1 data /\
  (forall k, k ∈ dkeys (migrate_v1beta1 data) <-> exists k0, k0 ∈ dkeys data /\ k = stable_name k0) /\
  (forall k v, dget k data = Some v ->
     (forall k0, k0 ∈ dkeys data -> stable_name k0 = stable_name k -> k0 = k) ->
     dget (stable_name k) (migrate_v1beta1 data) = Some (visit v)).
Proof.
  intros Hnd. change (migrate_v1beta1 data) with (dict_of (stable_items data)). split_and!.
  - pose proof (visit_idemp (JObj data)) as H. unfold migrate_v1beta1.
    change (visit (JObj data)) with (JObj (dict_of (stable_items data))) in H. by rewrite H.
  - intros k. rewrite elem_dict_of. unfold dkeys. rewrite list_elem_of_fmap. split.
    + intros ([k' v] & -> & (k0 & v0 & Hin & -> & _)%elem_stable_items). exists k0. split; [|done].
      apply list_elem_of_fmap. by exists (k0, v0).
    + intros (k0 & ([k0' v0] & -> & Hin)%list_elem_of_fmap & ->). exists (stable_name k0', visit v0). split; [done|].
      apply elem_stable_items. by exists k0', v0.
  - intros k v Hk Huniq. apply dget_elem in Hk as Hin. apply list_elem_of_split in Hin as (d1 & d2 & ->).
    unfold stable_items. rewrite List.map_app. cbn [List.map fst snd]. apply dget_dict_of.
    fold (stable_items d2). intros ([k' w] & Heq & (k0 & v0 & Hin & -> & _)%elem_stable_items)%list_elem_of_fmap.
    cbn in Heq. assert (Hk0 : k0 ∈ dkeys d2) by (apply list_elem_of_fmap; by exists (k0, v0)).
    assert (k0 = k) as ->.
    { apply Huniq; [|done]. unfold dkeys in *. rewrite fmap_app. apply elem_of_app. right. by right. }
    unfold dkeys in Hnd. rewrite fmap_app in Hnd. apply NoDup_app in Hnd as (_ & _ & Hnd).
    by apply NoDup_cons in Hnd as [? _].
Qed.

(** ** Examples *)

(** Free-form maps are renamed as well: a label that happens to be spelt like
    a field of the beta version gets another name. *)
Example migration_renames_labels :
  migrate_v1beta1 [("metadata", JObj [("labels", JObj [("modelId", JStr "x")])])] =
  [("metadata", JObj [("labels", JObj [("model_id", JStr "x")])])].
Proof. reflexivity. Qed.

Example semver_examples :
  (semver_pattern "1.0.0", semver_pattern "0.12.3-rc.1+b7", semver_pattern "01.0.0", semver_pattern "1.0") =
  (true, true, false, false).
Proof. reflexivity. Qed.

Definition sample_definition : MicroAgentDefinition :=
  {| api_version := "microagents.io/v1alpha1"; kind := "MicroAgent";
     metadata := {| meta_name := "echo-1"; meta_version := "1.0.0"; meta_description := None; labels := [];
                    annotations := [] |};
     spec :=
       {| behavior := {| instructions := "Echo."; input_contract := []; output_contract := Contracts.answer |};
          dependencies :=
            {| model := None;
               tools := [{| tool_name := "search"; tool_description := None; source := Some "native";
                            tool_timeout_seconds := None; side_effect := read_only |}];
               mcp_servers := [{| server_ref := "files"; transport := Some "stdio"; server_endpoint := None;
                                  command := Some "mcp-files"; args := ["--ro"]; server_credential_ref := None;
                                  allowed_capabilities := ["read"]; server_timeout_seconds := Some 5%Z |}];
               skills := []; knowledge := []; memory := None;
               session := {| persistence := "none"; session_ttl_seconds := None |} |};
          runtime := {| timeout_seconds := None; max_iterations := Some 4%Z; max_concurrency := None;
                        shutdown_timeout_seconds := None; concurrency_policy := WAIT; error_policy := FAIL;
                        retry_max_attempts := 1; retry_backoff_seconds := 0; retry_jitter_seconds := 0;
                        retry_budget_seconds := None; circuit_breaker_failures := None;
                        circuit_breaker_cooldown_seconds := None; capabilities := [] |};
          a2a := {| a2a_enabled := false; a2a_endpoint := None; protocol_version := Some "1.0" |};
          security := {| credential_refs := ["MODEL_KEY"]; identity_requirements := []; policy_refs := [] |} |} |}.

Lemma loaded_definition_well_typed_witness :
  load_definition_from_dict (fun _ => None) (fun _ => Some sample_definition) [] = Ok sample_definition /\
  (forall s, s ∈ mcp_servers (dependencies (spec sample_definition)) -> binding s).
Proof.
  assert (Hl : load_definition_from_dict (fun _ => None) (fun _ => Some sample_definition) [] = Ok sample_definition)
    by (vm_compute; reflexivity).
  split; [exact Hl|]. intros s Hs.
  pose proof (loaded_definition_well_typed (fun _ => None) (fun _ => Some sample_definition) [] sample_definition Hl)
    as (_ & _ & _ & _ & H & _). exact (proj1 (H s Hs)).
Defined.

Lemma migration_renames_fields_witness :
  dget "timeout_seconds" (migrate_v1beta1 [("timeoutSeconds", JInt 3); ("kind", JStr "x")]) = Some (JInt 3).
Proof.
  refine (proj2 (proj2 (migration_renames_fields [("timeoutSeconds", JInt 3); ("kind", JStr "x")] _))
            "timeoutSeconds" (JInt 3) eq_refl _).
  - apply NoDup_cons. split; [set_solver | apply NoDup_singleton].
  - intros k0 Hk. cbn in Hk. repeat (apply elem_of_cons in Hk as [->|Hk]); [done | discriminate | by apply elem_of_nil in Hk].
Defined.

End Definitions.
