(* ===== verification/Health.v ===== *)
(** * Health: dependency probes and readiness

    [micro_agent/health/health.py] and the health endpoints of
    [interoperability/http_api.py].  A probe is what its call gives: a status, a
    boolean or an exception. *)

From S2P Require Import Prelude Json.

Module Health.
Local Open Scope string_scope.

Inductive HealthStatus : Type := HEALTHY | DEGRADED | UNHEALTHY.

#[export] Instance HealthStatus_eq_dec : EqDecision HealthStatus.
Proof. solve_decision. Defined.

Definition status_value (s : HealthStatus) : string :=
  match s with HEALTHY => "healthy" | DEGRADED => "degraded" | UNHEALTHY => "unhealthy" end.

Record DependencyHealth : Type := { name : string; status : HealthStatus; details : list (string * json) }.

Record LivenessResult : Type := { alive : bool; reason : option string }.

Record ReadinessResult : Type := {
  ready : bool;
  overall : HealthStatus;
  dependencies : list DependencyHealth
}.

Definition is_ready (r : ReadinessResult) : bool := ready r && negb (bool_decide (overall r = UNHEALTHY)).

(** What a probe call gives. *)
Inductive probe_outcome : Type :=
  | Reports (s : HealthStatus)
  | Answers (b : bool)
  | Fails (error : string).

Record HealthChecker : Type := {
  deps : list DependencyHealth;
  probes : list (string * nat);          (** by name; a probe is a position *)
  has_liveness_probe : bool;
  marked_alive : bool
}.

Definition new_checker (liveness_probe : bool) : HealthChecker :=
  {| deps := []; probes := []; has_liveness_probe := liveness_probe; marked_alive := true |}.

Definition with_deps (c : HealthChecker) (ds : list DependencyHealth) : HealthChecker :=
  {| deps := ds; probes := probes c; has_liveness_probe := has_liveness_probe c; marked_alive := marked_alive c |}.

Definition add_dependency (c : HealthChecker) (n : string) (s : HealthStatus) (probe : option nat)
    (d : list (string * json)) : HealthChecker :=
  {| deps := (deps c ++ [{| name := n; status := s; details := d |}])%list;
     probes := match probe with Some p => dset n p (probes c) | None => probes c end;
     has_liveness_probe := has_liveness_probe c; marked_alive := marked_alive c |}.

(** The first dependency of the name; [None] when there is none. *)
Fixpoint set_status (n : string) (s : HealthStatus) (d : option (list (string * json)))
    (ds : list DependencyHealth) : option (list DependencyHealth) :=
  match ds with
  | [] => None
  | x :: ds =>
      if String.eqb (name x) n
      then Some ({| name := name x; status := s; details := default (details x) d |} :: ds)
      else cons x <$> set_status n s d ds
  end.

Definition update_status (c : HealthChecker) (n : string) (s : HealthStatus) (d : option (list (string * json)))
  : bool * HealthChecker :=
  match set_status n s d (deps c) with
  | Some ds => (true, with_deps c ds)
  | None => (false, c)
  end.

Definition set_alive (c : HealthChecker) (b : bool) : HealthChecker :=
  {| deps := deps c; probes := probes c; has_liveness_probe := has_liveness_probe c; marked_alive := b |}.

Definition check_liveness (c : HealthChecker) (probe : bool) : LivenessResult :=
  if negb (marked_alive c) then {| alive := false; reason := Some "process marked dead" |}
  else if has_liveness_probe c && negb probe then {| alive := false; reason := Some "liveness probe failed" |}
  else {| alive := true; reason := None |}.

Definition has_status (s : HealthStatus) (d : DependencyHealth) : bool := bool_decide (status d = s).

Definition check_readiness (c : HealthChecker) : ReadinessResult :=
  if existsb (has_status UNHEALTHY) (deps c)
  then {| ready := false; overall := UNHEALTHY; dependencies := deps c |}
  else if existsb (has_status DEGRADED) (deps c)
  then {| ready := true; overall := DEGRADED; dependencies := deps c |}
  else {| ready := true; overall := HEALTHY; dependencies := deps c |}.

Definition apply_probe (c : HealthChecker) (n : string) (o : probe_outcome) : HealthChecker :=
  match o with
  | Fails e => (update_status c n UNHEALTHY (Some [("error", JStr e)])).2
  | Answers b => (update_status c n (if b then HEALTHY else UNHEALTHY) None).2
  | Reports s => (update_status c n s None).2
  end.

(** [probe_readiness]; [probe p] is what probe [p] gives this time. *)
Definition probe_readiness (probe : nat -> probe_outcome) (c : HealthChecker) : ReadinessResult * HealthChecker :=
  let c := foldl (fun c np => apply_probe c np.1 (probe np.2)) c (probes c) in
  (check_readiness c, c).

(** ** The endpoints *)

Definition liveness_endpoint (c : HealthChecker) (probe : bool) : Z * json :=
  let r := check_liveness c probe in
  (200%Z, JObj [("status", JStr (if alive r then "healthy" else "unhealthy"));
                ("details", JObj (match reason r with Some m => [("reason", JStr m)] | None => [] end))]).

Definition readiness_endpoint (probe : nat -> probe_outcome) (c : HealthChecker) : Z * json * HealthChecker :=
  let '(r, c) := probe_readiness probe c in
  ((if is_ready r then 200%Z else 503%Z),
   JObj [("status", JStr (status_value (overall r)));
         ("details", JObj [("ready", JBool (is_ready r));
            ("dependencies", JList ((fun d => JObj [("name", JStr (name d)); ("status", JStr (status_value (status d)))])
                                      <$> dependencies r))])], c).

(** ** What a probe reports is what readiness says *)

Definition outcome_status (o : probe_outcome) : HealthStatus :=
  match o with Reports s => s | Answers true => HEALTHY | _ => UNHEALTHY end.

(** The status of a name, that of the first dependency registered under it. *)
Definition status_of (n : string) (ds : list DependencyHealth) : option HealthStatus :=
  dget n ((fun d => (name d, status d)) <$> ds).

Lemma status_of_cons n x ds :
  status_of n (x :: ds) = if decide (n = name x) then Some (status x) else status_of n ds.
Proof. done. Qed.

Lemma set_status_spec n s d ds :
  match set_status n s d ds with
  | Some ds' => (name <$> ds') = (name <$> ds) /\
      forall m, status_of m ds' = if decide (m = n) then Some s else status_of m ds
  | None => n ∉ name <$> ds
  end.
Proof.
  induction ds as [|x ds IH]; cbn [set_status]; [by intros ?%elem_of_nil|].
  destruct (String.eqb_spec (name x) n) as [<-|Hne].
  - split; [done|]. intros m. rewrite !status_of_cons. cbn. by destruct (decide (m = name x)).
  - destruct (set_status n s d ds) as [ds'|]; cbn [fmap option_fmap option_map].
    + destruct IH as [Hn Hs]. split; [by rewrite !fmap_cons, Hn|]. intros m. rewrite !status_of_cons, Hs.
      destruct (decide (m = name x)) as [->|]; [|done]. by destruct (decide (name x = n)).
    + cbn. set_solver.
Qed.

Lemma apply_probe_spec c n o :
  probes (apply_probe c n o) = probes c /\ (name <$> deps (apply_probe c n o)) = (name <$> deps c) /\
  forall m, status_of m (deps (apply_probe c n o)) =
            if decide (m = n) then (if decide (n ∈ name <$> deps c) then Some (outcome_status o) else None)
            else status_of m (deps c).
Proof.
  assert (Hnone : forall m ds, m ∉ name <$> ds -> status_of m ds = None).
  { intros m ds Hm. unfold status_of. apply dget_None. unfold dkeys. by rewrite <-list_fmap_compose. }
  assert (Hgen : forall s d, let c' := (update_status c n s d).2 in
    probes c' = probes c /\ (name <$> deps c') = (name <$> deps c) /\
    forall m, status_of m (deps c') =
              if decide (m = n) then (if decide (n ∈ name <$> deps c) then Some s else None) else status_of m (deps c)).
  { intros s d. unfold update_status. pose proof (set_status_spec n s d (deps c)) as Hs.
    destruct (set_status n s d (deps c)) as [ds'|] eqn:E; cbn [snd with_deps deps probes].
    - destruct Hs as [Hn Hst]. split_and!; [done..|]. intros m. rewrite Hst. destruct (decide (m = n)) as [->|]; [|done].
      destruct (decide (n ∈ name <$> deps c)) as [|Hni]; [done|]. exfalso. apply Hni. rewrite <-Hn.
      clear -E. revert ds' E. induction (deps c) as [|x ds IH]; intros ds' E; cbn in E; [done|].
      destruct (String.eqb_spec (name x) n); [injection E as <-; subst; left|].
      destruct (set_status n s d ds); [|done]. injection E as <-. right. by apply IH.
    - split_and!; [done..|]. intros m. destruct (decide (m = n)) as [->|]; [|done].
      rewrite decide_False by done. by apply Hnone. }
  destruct o as [s|[]|e]; apply Hgen.
Qed.

Lemma apply_probes_spec (probe : nat -> probe_outcome) (ps : list (string * nat)) c :
  NoDup (dkeys ps) ->
  let c' := foldl (fun c np => apply_probe c np.1 (probe np.2)) c ps in
  probes c' = probes c /\ (name <$> deps c') = (name <$> deps c) /\
  forall m, status_of m (deps c') =
    match dget m ps with
    | Some p => if decide (m ∈ name <$> deps c) then Some (outcome_status (probe p)) else None
    | None => status_of m (deps c)
    end.
Proof.
  revert c. induction ps as [|[n p] ps IH]; intros c Hnd; [done|]. apply NoDup_cons in Hnd as [Hn Hnd].
  destruct (apply_probe_spec c n (probe p)) as (Hp & Hns & Hst).
  destruct (IH (apply_probe c n (probe p)) Hnd) as (Hp' & Hns' & Hst'). cbn [foldl fst snd]. cbv zeta in *.
  rewrite Hp', Hns', Hp, Hns. split_and!; [done..|]. intros m. rewrite Hst', Hst, Hns. cbn [dget].
  destruct (decide (m = n)) as [->|Hne].
  - rewrite (proj2 (dget_None n ps)) by done. done.
  - done.
Qed.

Lemma existsb_status s ds : NoDup (name <$> ds) ->
  existsb (has_status s) ds = true <-> exists m, status_of m ds = Some s.
Proof.
  intros Hnd. rewrite existsb_elem. unfold status_of. split.
  - intros (d & Hd & Hs%bool_decide_eq_true). exists (name d). rewrite <-Hs. apply elem_dget.
    + unfold dkeys. by rewrite <-list_fmap_compose.
    + apply list_elem_of_fmap. by exists d.
  - intros [m Hm]. apply dget_elem, list_elem_of_fmap in Hm as (d & [= -> ->] & Hd). exists d.
    split; [done|]. by apply bool_decide_eq_true.
Qed.

(** The status every dependency has once its probes ran: what its probe
    reported, an exception counting as unhealthy, or else its last status. *)
Definition probed_status (probe : nat -> probe_outcome) (c : HealthChecker) (n : string) : option HealthStatus :=
  match dget n (probes c) with
  | Some p => if decide (n ∈ name <$> deps c) then Some (outcome_status (probe p)) else None
  | None => status_of n (deps c)
  end.

(** With distinct dependencies the agent is ready exactly when no
    dependency is unhealthy, by what its probe reports now (an exception is
    unhealthy) or else by its last known status; it is degraded when one is,
    and the readiness endpoint answers 503 exactly when it is not ready. *)
Theorem readiness_is_probed probe c :
  NoDup (dkeys (probes c)) -> NoDup (name <$> deps c) ->
  let '(r, c') := probe_readiness probe c in
  (is_ready r = true <-> forall n, probed_status probe c n <> Some UNHEALTHY) /\
  (overall r = HEALTHY <-> forall n s, probed_status probe c n = Some s -> s = HEALTHY) /\
  (forall n, status_of n (dependencies r) = probed_status probe c n) /\
  ((readiness_endpoint probe c).1.1 = 503%Z <-> is_ready r = false) /\
  NoDup (dkeys (probes c')) /\ NoDup (name <$> deps c').
Proof.
  intros Hp Hd. unfold probe_readiness, readiness_endpoint, probe_readiness.
  destruct (apply_probes_spec probe (probes c) c Hp) as (Hps & Hns & Hst). cbv zeta in *.
  set (c' := foldl _ c (probes c)) in *.
  assert (Hst' : forall m, status_of m (deps c') = probed_status probe c m) by exact Hst.
  assert (Hd' : NoDup (name <$> deps c')) by by rewrite Hns.
  pose proof (existsb_status UNHEALTHY _ Hd') as Hu. pose proof (existsb_status DEGRADED _ Hd') as Hg.
  setoid_rewrite Hst' in Hu. setoid_rewrite Hst' in Hg.
  unfold check_readiness. destruct (existsb (has_status UNHEALTHY) (deps c')) eqn:Eu.
  - destruct (proj1 Hu eq_refl) as [m Hm]. unfold is_ready. cbn. split_and!; try done.
    + split; [done|]. intros H. by destruct (H m).
    + split; [done|]. intros H. by specialize (H m _ Hm).
    + by rewrite Hps.
  - assert (Hno : forall n, probed_status probe c n <> Some UNHEALTHY).
    { intros n Hn. assert (false = true); [apply Hu; by exists n | done]. }
    destruct (existsb (has_status DEGRADED) (deps c')) eqn:Eg; unfold is_ready; cbn; split_and!; try done.
    + destruct (proj1 Hg eq_refl) as [m Hm]. split; [done|]. intros H. by specialize (H m _ Hm).
    + by rewrite Hps.
    + split; [intros _ n s Hn | done]. destruct s; [done| |by destruct (Hno n)].
      assert (false = true); [apply Hg; by exists n | done].
    + by rewrite Hps.
Qed.

(** ** Examples *)

Definition demo : HealthChecker :=
  add_dependency (add_dependency (new_checker false) "model" HEALTHY (Some 0) []) "memory" DEGRADED None [].

Lemma readiness_is_probed_witness :
  (readiness_endpoint (fun _ => Fails "connection refused") demo).1.1 = 503%Z /\
  (readiness_endpoint (fun _ => Answers true) demo).1.1 = 200%Z.
Proof.
  assert (Hp : NoDup (dkeys (probes demo))) by (vm_compute; apply NoDup_singleton).
  assert (Hd : NoDup (name <$> deps demo)) by (vm_compute; apply NoDup_cons; split; [set_solver | apply NoDup_singleton]).
  split; [|reflexivity].
  pose proof (readiness_is_probed (fun _ => Fails "connection refused") demo Hp Hd) as H.
  exact (proj2 (proj1 (proj2 (proj2 (proj2 H)))) eq_refl).
Defined.

End Health.
