(* ===== verification/HttpApi.v ===== *)
(** * The HTTP interface of an agent

    [interoperability/http_api.py]: the middlewares in the order they wrap a
    request, the invoke route with its stable error contract, content
    negotiation, the stream of server-sent events, the built-in rate limiter, and
    the requests that the mounted A2A task route gives to the agent
    ([a2a_server.py]; what it publishes of them is [A2aServer]).  FastAPI itself
    (body parsing, the routes that never reach the agent), the A2A SDK, the agent,
    the authenticator and an injected rate limiter are parameters.  Metrics and log
    lines are left out. *)

From Stdlib Require Import Qround Ascii.
From S2P Require Import Prelude Json Resilience Identity Invocation.
Import Resilience.

Module HttpApi.
Local Open Scope string_scope.

(** ** The built-in rate limiter *)

Record RateLimitDecision : Type := {
  allowed : bool;
  retry_after_seconds : Z;
  limit : option Z;
  remaining : option Z
}.

(** [RateLimitDecision.__post_init__] *)
Definition decision_ok (d : RateLimitDecision) : result exn RateLimitDecision :=
  if (retry_after_seconds d <? 0)%Z then Err (raise ValueError "retry_after_seconds must be non-negative")
  else if from_option (fun l => (l <? 1)%Z) false (limit d) then Err (raise ValueError "limit must be greater than zero")
  else if from_option (fun r => (r <? 0)%Z) false (remaining d) then Err (raise ValueError "remaining must be non-negative")
  else Ok d.

Record TokenBucket : Type := { tokens : Q; updated_at : Q }.

Record InMemoryRateLimitStore : Type := {
  max_buckets : nat;
  idle_seconds : Q;
  buckets : list (string * TokenBucket)
}.

Definition new_store (max_buckets : nat) (idle_seconds : Q) : result exn InMemoryRateLimitStore :=
  if Nat.ltb max_buckets 1 || (idle_seconds <=? 0)%clock
  then Err (raise ValueError "max_buckets and idle_seconds must be positive")
  else Ok {| max_buckets := max_buckets; idle_seconds := idle_seconds; buckets := [] |}.

(** [min(buckets, key=updated_at)]: the first of the least recently updated. *)
Fixpoint oldest (bs : list (string * TokenBucket)) : option (string * Q) :=
  match bs with
  | [] => None
  | (k, b) :: bs =>
      match oldest bs with
      | Some (k', t') => if (updated_at b <=? t')%clock then Some (k, updated_at b) else Some (k', t')
      | None => Some (k, updated_at b)
      end
  end.

Definition Qmax0 (q : Q) : Q := if (q <=? 0)%clock then 0 else q.

Definition refill (b : TokenBucket) (rate : Q) (capacity : Z) (now : Q) : Q :=
  Qmin (inject_Z capacity) (tokens b + Qmax0 (now - updated_at b) * rate).

(** Buckets that were used within the idle window. *)
Definition prune (s : InMemoryRateLimitStore) (now : Q) : list (string * TokenBucket) :=
  filterb (fun kb => (now - idle_seconds s <=? updated_at kb.2)%clock) (buckets s).

Definition make_room (s : InMemoryRateLimitStore) (bs : list (string * TokenBucket)) : list (string * TokenBucket) :=
  if Nat.leb (max_buckets s) (length bs)
  then match oldest bs with Some (k, _) => dpop k bs | None => bs end
  else bs.

Definition consume (s : InMemoryRateLimitStore) (key : string) (rate_per_second : Q) (capacity : Z) (now : Q)
  : (bool * Q * Z) * InMemoryRateLimitStore :=
  let bs := prune s now in
  let bs := match dget key bs with
            | Some _ => bs
            | None => dset key {| tokens := inject_Z capacity; updated_at := now |} (make_room s bs)
            end in
  let b := default {| tokens := inject_Z capacity; updated_at := now |} (dget key bs) in
  let t := refill b rate_per_second capacity now in
  let ok := (1 <=? t)%clock in
  let t' := if ok then (t - 1)%Q else t in
  let s' := {| max_buckets := max_buckets s; idle_seconds := idle_seconds s;
               buckets := dset key {| tokens := t'; updated_at := now |} bs |} in
  ((if ok then (true, 0%Q, Z.max 0 (Qfloor t'))
    else (false, (if (1 <=? (1 - t) / rate_per_second)%clock then (1 - t) / rate_per_second else 1)%Q, 0%Z)), s').

Record TokenBucketRateLimiter : Type := { requests_per_minute : Z; burst : Z }.

Definition new_limiter (requests_per_minute : Z) (burst : option Z) : result exn TokenBucketRateLimiter :=
  if (requests_per_minute <? 1)%Z then Err (raise ValueError "requests_per_minute must be greater than zero")
  else if from_option (fun b => (b <? 1)%Z) false burst then Err (raise ValueError "burst must be greater than zero")
  else Ok {| requests_per_minute := requests_per_minute; burst := default requests_per_minute burst |}.

(** [AuthenticatedIdentity] of [security/auth.py]. *)
Record AuthenticatedIdentity : Type := {
  caller : Identity.CallerIdentity;
  user : option Identity.UserContext
}.

Definition default_key (identity : option AuthenticatedIdentity) : string :=
  match identity with
  | Some i =>
      if str_truthy (Identity.caller_id (caller i))
      then "caller:" ++ opt_or (user i ≫= Identity.tenant_id) "-" ++ ":" ++ Identity.caller_id (caller i)
      else "anonymous"
  | None => "anonymous"
  end.

Definition limiter_check (l : TokenBucketRateLimiter) (identity : option AuthenticatedIdentity) (now : Q)
    (s : InMemoryRateLimitStore) : result exn RateLimitDecision * InMemoryRateLimitStore :=
  let '((ok, retry_after, left_), s) :=
    consume s (default_key identity) (inject_Z (requests_per_minute l) / 60) (burst l) now in
  (decision_ok {| allowed := ok; retry_after_seconds := Qfloor (retry_after + (999 # 1000));
                  limit := Some (requests_per_minute l); remaining := Some left_ |}, s).

(** A run of requests, each with its key and its time: the keys that were let
    through and the store after them. *)
Fixpoint consume_all (s : InMemoryRateLimitStore) (rate : Q) (capacity : Z) (events : list (string * Q))
  : list string * InMemoryRateLimitStore :=
  match events with
  | [] => ([], s)
  | (k, now) :: events =>
      let '((ok, _, _), s) := consume s k rate capacity now in
      let '(l, s) := consume_all s rate capacity events in
      ((if ok then k :: l else l), s)
  end.

(** ** Requests and replies *)

Record InvokeRequestModel : Type := {
  input : list (string * json);
  request_id : option string;
  session_id : option string;
  caller_metadata : list (string * json);
  timeout_seconds : option Q;
  continuation_id : option string;
  approval_decision : option string;
  checkpoint_id : option string
}.

(** [AgentRequest] of [core/agent.py]. *)
Record AgentRequest : Type := {
  agent_input : list (string * json);
  agent_request_id : string;
  agent_session_id : option string;
  agent_caller_metadata : list (string * json);
  agent_timeout_seconds : option Q;
  caller_identity : option Identity.CallerIdentity;
  user_context : option Identity.UserContext;
  agent_continuation_id : option string;
  agent_approval_decision : option string;
  agent_checkpoint_id : option string
}.

(** [AgentRequest.__post_init__] *)
Definition request_check (r : AgentRequest) : result exn AgentRequest :=
  if from_option (fun t => (t <=? 0)%clock) false (agent_timeout_seconds r)
  then Err (raise ValueError "timeout_seconds must be greater than zero")
  else if from_option (fun d => negb (memb d ["approve"; "deny"])) false (agent_approval_decision r)
  then Err (raise ValueError "approval_decision must be 'approve' or 'deny'")
  else if negb (bool_decide (agent_continuation_id r = None)) && bool_decide (agent_approval_decision r = None)
  then Err (raise ValueError "continuation_id requires approval_decision")
  else if from_option py_blank false (agent_checkpoint_id r)
  then Err (raise ValueError "checkpoint_id must not be empty")
  else if negb (bool_decide (agent_checkpoint_id r = None)) && negb (bool_decide (agent_continuation_id r = None))
  then Err (raise ValueError "checkpoint_id cannot be combined with continuation_id")
  else Ok r.

Record http_request : Type := {
  path : string;
  headers : list (string * string);        (** names in lower case *)
  chunks : list nat                        (** sizes of the parts the body arrives in *)
}.

Inductive content : Type :=
  | Json (j : json)
  | Answer (r : Invocation.AgentResponse)
  | Events (l : list (string * json)).     (** server-sent events: name and data *)

Record reply : Type := { status : Z; reply_headers : list (string * string); body : content }.

Definition problem (st : Z) (hs : list (string * string)) (fields : list (string * json)) : reply :=
  {| status := st; reply_headers := hs; body := Json (JObj fields) |}.

(** [HTTPException(status, headers, detail)], as FastAPI answers it. *)
Definition http_exception (st : Z) (hs : list (string * string)) (fields : list (string * json)) : reply :=
  problem st hs [("detail", JObj fields)].

(** ** Content negotiation *)

Section negotiation.
(** Whether [float(s)] is a number greater than zero. *)
Context (positive_number : string -> bool).

Definition STREAMING_MEDIA_TYPE : string := "text/event-stream".

Definition quality (parameters : list string) : bool :=
  foldl (fun q p =>
    let '(n, v) := py_partition "="%char p in
    match v with
    | Some v => if String.eqb (py_lower (py_strip n)) "q" then positive_number (py_strip v) else q
    | None => q
    end) true parameters.

Definition accepts_range (media_range : string) : bool :=
  match py_strip <$> py_split ";"%char media_range with
  | [] => false
  | t :: parameters => String.eqb (py_lower t) STREAMING_MEDIA_TYPE && quality parameters
  end.

Definition accepts_streaming (hs : list (string * string)) : bool :=
  existsb accepts_range (py_split ","%char (default "" (dget "accept" hs))).
End negotiation.

(** ** The application *)

Section app.
Context (positive_number : string -> bool).
(** [int(content_length)]; [None] when it raises [ValueError]. *)
Context (py_int : string -> option Z).

(** What a limiter's [check] gives: a boolean, a decision or something else. *)
Inductive limiter_value : Type :=
  | LBool (b : bool)
  | LDecision (d : RateLimitDecision)
  | LOther.

(** Configuration of [create_app]. *)
Record app_config : Type := {
  max_request_bytes : Z;
  streaming : bool;                                   (** capability of the runtime *)
  require_caller_identity : bool;
  a2a_rpc : bool;                                     (** the definition enables A2A *)
  a2a_protocol_version : string
}.

Context (cfg : app_config).
Context (authenticator : option (list (string * string) -> result exn AuthenticatedIdentity)).

(** An injected limiter with its state. *)
Context {L : Type}.
Context (rate_limiter : option (http_request -> option AuthenticatedIdentity -> L -> result exn limiter_value * L)).

(** The agent: [invoke], and the events of [stream] with the exception that
    ended it, if one did. *)
Record AgentStreamEvent : Type := { delta : string; response : option Invocation.AgentResponse }.
Context (agent_invoke : AgentRequest -> result exn Invocation.AgentResponse).
Context (agent_stream : AgentRequest -> list AgentStreamEvent * option exn).
Context (fresh_request_id : string).

(** Fields of the exceptions that reach the client. *)
Context (exn_limit : exn -> Z) (exn_contract : exn -> string) (exn_errors : exn -> list string).
Context (response_json : Invocation.AgentResponse -> json).

(** FastAPI: what it makes of the body once it has arrived ([None]: it answers
    422 itself), that answer, what it does when reading the body raises, and the
    routes that never reach the agent.  Reading a body beyond the limit raises, and
    a route may answer that itself. *)
Context (parse_body : http_request -> option InvokeRequestModel).
Context (on_invalid_body : reply).
Context (on_body_error : http_request -> option reply).
(** The A2A SDK behind the task route: the messages of a request that it has the
    executor execute, each with the task and context it names, and what it replies
    from how the executions ended. *)
Inductive agent_run : Type :=
  | Invoked (r : result exn Invocation.AgentResponse)
  | Streamed (l : list AgentStreamEvent * option exn).
Context (loads : string -> option json) (fresh_task_id : string).
Context (rpc_messages : http_request -> option AuthenticatedIdentity -> list (option string * option string * string)).
Context (rpc_reply : http_request -> option AuthenticatedIdentity -> list agent_run -> reply).
Context (other_routes : http_request -> option AuthenticatedIdentity -> reply).

(** *** The invoke route *)

Definition resolve_rate_limit (r : result exn limiter_value) : result exn RateLimitDecision :=
  match r with
  | Err e => Err e
  | Ok (LBool b) => Ok {| allowed := b; retry_after_seconds := 1; limit := None; remaining := None |}
  | Ok (LDecision d) => Ok d
  | Ok LOther => Err (raise TypeError "rate limiter must return bool or RateLimitDecision")
  end.

Context (z_text : Z -> string).

Definition rate_limited (d : RateLimitDecision) : reply :=
  http_exception 429
    ([("Retry-After", z_text (retry_after_seconds d))] ++
     match limit d with Some l => [("X-RateLimit-Limit", z_text l)] | None => [] end ++
     match remaining d with Some r => [("X-RateLimit-Remaining", z_text r)] | None => [] end)%list
    [("code", JStr "rate_limited"); ("message", JStr "Rate limit exceeded");
     ("retry_after_seconds", JInt (retry_after_seconds d))].

(** The [except] clauses around [agent.invoke], in order; a [BaseException]
    passes. *)
Definition error_reply (e : exn) : option reply :=
  if isinstance e InvocationOverloadedError then
    Some (http_exception 429 [("Retry-After", "1")]
            [("code", JStr "invocation_overloaded"); ("limit", JInt (exn_limit e))])
  else if isinstance e ContinuationNotFoundError then
    Some (http_exception 404 [] [("code", JStr "continuation_not_found"); ("message", JStr (message e))])
  else if isinstance e CheckpointNotFoundError then
    Some (http_exception 404 [] [("code", JStr "checkpoint_not_found"); ("message", JStr (message e))])
  else if isinstance e ContractValidationError then
    Some (http_exception 422 [] [("code", JStr "contract_validation_failed"); ("contract", JStr (exn_contract e));
                                 ("errors", JList (JStr <$> exn_errors e))])
  else if isinstance e TimeoutError then
    Some (http_exception 504 [] [("code", JStr "deadline_exceeded"); ("message", JStr "Invocation deadline exceeded")])
  else if isinstance e AuthenticationError then
    Some (http_exception 401 [("WWW-Authenticate", "Bearer")]
            [("code", JStr "authentication_required"); ("message", JStr "Authentication required")])
  else if isinstance e AuthorizationError || isinstance e PermissionError then
    Some (http_exception 403 [] [("code", JStr "authorization_denied"); ("message", JStr "Authorization denied")])
  else if isinstance e DependencyUnavailableError || isinstance e ConnectionError || isinstance e RequestError then
    Some (http_exception 503 [] [("code", JStr "dependency_unavailable"); ("message", JStr "Required dependency unavailable")])
  else if is_exception e then
    Some (http_exception 500 [] [("code", JStr "internal_error"); ("message", JStr "Internal server error")])
  else None.

(** [_stream_invoke] *)
Definition stream_events (r : AgentRequest) : list (string * json) :=
  let '(events, ended) := agent_stream r in
  ((events ≫= fun e =>
      (if str_truthy (delta e) then [("delta", JObj [("delta", JStr (delta e))])] else []) ++
      match response e with Some a => [("final", response_json a)] | None => [] end) ++
   match ended with
   | Some e => if is_exception e
               then [("error", JObj [("code", JStr "stream_failed"); ("message", JStr "Streaming invocation failed")])]
               else []
   | None => []
   end)%list.

Definition agent_request (m : InvokeRequestModel) (identity : option AuthenticatedIdentity) : AgentRequest :=
  {| agent_input := input m; agent_request_id := fresh_request_id; agent_session_id := session_id m;
     agent_caller_metadata := caller_metadata m; agent_timeout_seconds := timeout_seconds m;
     caller_identity := caller <$> identity; user_context := identity ≫= user;
     agent_continuation_id := continuation_id m; agent_approval_decision := approval_decision m;
     agent_checkpoint_id := checkpoint_id m |}.

Definition set_request_id (r : AgentRequest) (id : string) : AgentRequest :=
  {| agent_input := agent_input r; agent_request_id := id; agent_session_id := agent_session_id r;
     agent_caller_metadata := agent_caller_metadata r; agent_timeout_seconds := agent_timeout_seconds r;
     caller_identity := caller_identity r; user_context := user_context r;
     agent_continuation_id := agent_continuation_id r; agent_approval_decision := agent_approval_decision r;
     agent_checkpoint_id := agent_checkpoint_id r |}.

(** The outcome of a route or a middleware: a reply or an exception that
    escapes it, the state of the limiter and the requests the agent was given. *)
Inductive served : Type :=
  | Replies (r : reply)
  | Escapes (e : exn)
  | TooLarge.                              (** [_RequestBodyTooLargeError] *)

Definition outcome : Type := served * L * list AgentRequest.

(** The agent's turn: reached with an admitted request. *)
Definition run_agent (h : http_request) (r : AgentRequest) (s : L) : outcome :=
  if accepts_streaming positive_number (headers h) then
    (Replies {| status := 200; reply_headers := [("Cache-Control", "no-cache"); ("X-Accel-Buffering", "no")];
                body := Events (stream_events r) |}, s, [r])
  else match agent_invoke r with
       | Ok a => (Replies {| status := 200; reply_headers := []; body := Answer a |}, s, [r])
       | Err e => (match error_reply e with Some p => Replies p | None => Escapes e end, s, [r])
       end.

Definition handle_request (h : http_request) (m : InvokeRequestModel) (identity : option AuthenticatedIdentity) (s : L)
  : outcome :=
  match request_check (agent_request m identity) with
  | Err e => (Escapes e, s, [])          (* built outside of the try block *)
  | Ok r => run_agent h (if opt_truthy (request_id m) then set_request_id r (opt_or (request_id m) "") else r) s
  end.

Definition invoke (h : http_request) (m : InvokeRequestModel) (identity : option AuthenticatedIdentity) (s : L)
  : outcome :=
  if accepts_streaming positive_number (headers h) && negb (streaming cfg) then
    (Replies (http_exception 406 [] [("code", JStr "streaming_unsupported");
                ("message", JStr "Streaming is not supported by this runtime")]), s, [])
  else match rate_limiter with
       | None => handle_request h m identity s
       | Some check =>
           let '(v, s) := check h identity s in
           match resolve_rate_limit v with
           | Err e =>
               if is_exception e then
                 (Replies (http_exception 503 [] [("code", JStr "rate_limiter_unavailable");
                             ("message", JStr "Rate limiter unavailable")]), s, [])
               else (Escapes e, s, [])
           | Ok d => if negb (allowed d) then (Replies (rate_limited d), s, []) else handle_request h m identity s
           end
       end.

(** *** The task route

    [_payload_from] *)
Definition payload_from (input : string) : list (string * json) :=
  if negb (str_truthy (py_strip input)) then []
  else match loads input with
       | Some (JObj d) => d
       | _ => [("message", JStr input)]
       end.

(** The request of [MicroAgentExecutor.execute]: the message, and the context as
    session. *)
Definition request_of (input context_id : string) : AgentRequest :=
  {| agent_input := payload_from input; agent_request_id := fresh_request_id; agent_session_id := Some context_id;
     agent_caller_metadata := []; agent_timeout_seconds := None; caller_identity := None;
     user_context := None; agent_continuation_id := None; agent_approval_decision := None;
     agent_checkpoint_id := None |}.

(** The requests that an HTTP request to the task route becomes. *)
Definition task_requests (h : http_request) (identity : option AuthenticatedIdentity) : list AgentRequest :=
  (fun '(task_id, context_id, input) => request_of input (opt_or context_id (opt_or task_id fresh_task_id)))
    <$> rpc_messages h identity.

Definition run_task (r : AgentRequest) : agent_run :=
  match request_check r with
  | Err e => Invoked (Err e)
  | Ok r => if streaming cfg then Streamed (agent_stream r) else Invoked (agent_invoke r)
  end.

(** The mounted route: no limiter is asked and no identity is passed on. *)
Definition rpc_route (h : http_request) (identity : option AuthenticatedIdentity) (s : L) : outcome :=
  let rs := task_requests h identity in
  (Replies (rpc_reply h identity (run_task <$> rs)), s, rs).

(** *** The middlewares, from the inside out *)

Definition invoke_path : string := "/v1/invoke".
(** [a2a_paths.get("rpc")] *)
Definition rpc_path : option string := if a2a_rpc cfg then Some "/" else None.

(** Reading the body through [limited_receive]: the running total is checked at
    every part. *)
Fixpoint body_fits (total : Z) (parts : list nat) : bool :=
  match parts with
  | [] => true
  | n :: parts =>
      let total := (total + Z.of_nat n)%Z in
      if (max_request_bytes cfg <? total)%Z then false else body_fits total parts
  end.

Definition body_too_large (h : http_request) (s : L) : outcome :=
  (match on_body_error h with Some r => Replies r | None => TooLarge end, s, []).

Definition route (h : http_request) (identity : option AuthenticatedIdentity) (s : L) : outcome :=
  if String.eqb (path h) invoke_path then
    if body_fits 0 (chunks h) then
      match parse_body h with
      | Some m => invoke h m identity s
      | None => (Replies on_invalid_body, s, [])
      end
    else body_too_large h s
  else if bool_decide (Some (path h) = rpc_path) then
    if body_fits 0 (chunks h) then rpc_route h identity s else body_too_large h s
  else (Replies (other_routes h identity), s, []).

(** The request declares an unsupported version of the protocol. *)
Definition version_refused (h : http_request) : bool :=
  from_option (fun v => str_truthy v && negb (String.eqb v (a2a_protocol_version cfg))) false
    (dget "x-a2a-version" (headers h)).

Definition guard_a2a_protocol_version (h : http_request) (identity : option AuthenticatedIdentity) (s : L) : outcome :=
  if bool_decide (Some (path h) = rpc_path) && version_refused h
  then (Replies (problem 400 [] [("code", JStr "unsupported_protocol_version");
          ("message", JStr ("Protocol version " ++ quoted (default "" (dget "x-a2a-version" (headers h))) ++ " is not supported"))]), s, [])
  else route h identity s.

Definition authenticated_paths : list string :=
  invoke_path :: match rpc_path with
                 | Some rpc => if require_caller_identity cfg then [rpc] else []
                 | None => []
                 end.

Definition authenticate_request (h : http_request) (s : L) : outcome :=
  match authenticator with
  | Some auth =>
      if memb (path h) authenticated_paths then
        match auth (headers h) with
        | Ok identity => guard_a2a_protocol_version h (Some identity) s
        | Err e =>
            if isinstance e AuthenticationError then
              (Replies (problem 401 [("WWW-Authenticate", "Bearer")]
                 [("code", JStr "authentication_required"); ("message", JStr "Authentication required")]), s, [])
            else (Escapes e, s, [])
        end
      else guard_a2a_protocol_version h None s
  | None => guard_a2a_protocol_version h None s
  end.

Definition too_large : reply :=
  problem 413 [] [("code", JStr "request_too_large");
                  ("message", JStr ("Request body exceeds " ++ z_text (max_request_bytes cfg) ++ " bytes"))].

Definition enforce_request_size (h : http_request) (s : L) : outcome :=
  let forward :=
    match authenticate_request h s with
    | (TooLarge, s, l) => (Replies too_large, s, l)
    | o => o
    end in
  match dget "content-length" (headers h) with
  | None => forward
  | Some raw =>
      match py_int raw with
      | None => (Replies (problem 400 [] [("code", JStr "invalid_content_length");
                            ("message", JStr "Invalid Content-Length")]), s, [])
      | Some n => if (max_request_bytes cfg <? n)%Z then (Replies too_large, s, []) else forward
      end
  end.

Definition add_api_version_header (h : http_request) (s : L) : outcome :=
  match enforce_request_size h s with
  | (Replies r, s, l) =>
      (Replies {| status := status r; reply_headers := dset "X-Micro-Agent-API-Version" "v1" (reply_headers r);
                  body := body r |}, s, l)
  | o => o
  end.

(** [create_app] refuses to serve a definition that asks for verified callers
    without an authenticator. *)
Definition create_app : result exn (http_request -> L -> outcome) :=
  if (max_request_bytes cfg <? 1)%Z then Err (raise ValueError "max_request_bytes must be greater than zero")
  else if require_caller_identity cfg && match authenticator with Some _ => false | None => true end
  then Err (raise RuntimeError "definition requires caller identity but no authenticator is configured")
  else Ok add_api_version_header.

(** ** Only admitted requests reach the agent *)

Lemma body_fits_sum total parts :
  body_fits total parts = true ->
  (total + Z.of_nat (sum_list parts) <= Z.max total (max_request_bytes cfg))%Z.
Proof.
  revert total. induction parts as [|n parts IH]; intros total; cbn; [lia|].
  destruct (Z.ltb_spec (max_request_bytes cfg) (total + Z.of_nat n)) as [|Hle]; [done|].
  intros H%IH. lia.
Qed.

(** What a limiter said of a request, and whose identity a request carries. *)
Definition limiter_admits (h : http_request) (identity : option AuthenticatedIdentity) (s : L) : Prop :=
  match rate_limiter with
  | None => True
  | Some check => exists d, resolve_rate_limit (check h identity s).1 = Ok d /\ allowed d = true
  end.

Definition carries (identity : option AuthenticatedIdentity) (r : AgentRequest) : Prop :=
  caller_identity r = caller <$> identity /\ user_context r = identity ≫= user.

Definition verified (h : http_request) (identity : option AuthenticatedIdentity) : Prop :=
  match authenticator with
  | Some auth => exists i, auth (headers h) = Ok i /\ identity = Some i
  | None => identity = None
  end.

(** Every request that the agent is given meets [P]. *)
Definition gives (P : AgentRequest -> Prop) (o : outcome) : Prop := forall r, r ∈ o.2 -> P r.

Lemma gives_nothing P (o : served) (s : L) : gives P (o, s, []).
Proof. by intros ? ?%elem_of_nil. Qed.
Hint Resolve gives_nothing : core.

Lemma gives_impl (P P' : AgentRequest -> Prop) o : (forall r, P r -> P' r) -> gives P o -> gives P' o.
Proof. intros H Hr r Hin. by apply H, Hr. Qed.

(** What the invoke route promises of its requests, and the task route of its. *)
Definition admitted (h : http_request) (identity : option AuthenticatedIdentity) (s : L) (r : AgentRequest) : Prop :=
  request_check r = Ok r /\ carries identity r /\ limiter_admits h identity s.
Definition anonymous (r : AgentRequest) : Prop :=
  request_check r = Ok r /\ caller_identity r = None /\ user_context r = None.

Lemma admit_gives h m identity s :
  gives (fun r => carries identity r /\ request_check r = Ok r) (handle_request h m identity s) /\
  length (handle_request h m identity s).2 <= 1.
Proof.
  unfold handle_request. destruct (request_check (agent_request m identity)) as [r|e] eqn:Hr; [|split; [done|cbn; lia]].
  assert (r = agent_request m identity) as -> by (unfold request_check in Hr; repeat case_match; congruence).
  set (r := if opt_truthy (request_id m) then _ else _).
  assert (Hok : carries identity r /\ request_check r = Ok r).
  { subst r. unfold carries. destruct (opt_truthy (request_id m)); (split; [done|]); [|done].
    unfold request_check in *. cbn in *. repeat case_match; congruence. }
  assert (Hg : forall o, gives (fun r => carries identity r /\ request_check r = Ok r) (o, s, [r]) /\ length [r] <= 1).
  { intros o. split; [|cbn; lia]. by intros ? ->%list_elem_of_singleton. }
  unfold run_agent. destruct (accepts_streaming _ _); [apply Hg|]. destruct (agent_invoke r); apply Hg.
Qed.

Lemma invoke_gives h m identity s :
  gives (admitted h identity s) (invoke h m identity s) /\ length (invoke h m identity s).2 <= 1.
Proof.
  assert (Hno : forall (o : served) s', gives (admitted h identity s) (o, s', []) /\ length (o, s', @nil AgentRequest).2 <= 1)
    by (intros o s'; split; [done|cbn; lia]).
  unfold invoke. destruct (_ && _); [done|]. destruct rate_limiter as [check|] eqn:Hlim.
  - destruct (check h identity s) as [v s1] eqn:Hc. destruct (resolve_rate_limit v) as [d|e] eqn:Ed;
      [|by destruct (is_exception e)].
    destruct (allowed d) eqn:Ea; cbn [negb]; [|done]. destruct (admit_gives h m identity s1) as [Hg Hl].
    split; [|done]. eapply gives_impl, Hg. intros r []. split_and!; [done..|].
    unfold limiter_admits. rewrite Hlim, Hc. by exists d.
  - destruct (admit_gives h m identity s) as [Hg Hl]. split; [|done]. eapply gives_impl, Hg.
    intros r []. split_and!; [done..|]. unfold limiter_admits. by rewrite Hlim.
Qed.

Lemma task_requests_anonymous h identity : forall r, r ∈ task_requests h identity -> anonymous r.
Proof. intros r ([[t c] i] & -> & _)%list_elem_of_fmap. done. Qed.

(** What the routes do with a request that has passed the middlewares. *)
Definition route_spec (h : http_request) (identity : option AuthenticatedIdentity) (s : L) (o : outcome) : Prop :=
  (o.2 <> [] -> body_fits 0 (chunks h) = true) /\
  (path h = invoke_path -> gives (admitted h identity s) o /\ length o.2 <= 1) /\
  (path h <> invoke_path ->
     gives anonymous o /\ o.1.2 = s /\ (o.2 <> [] -> Some (path h) = rpc_path /\ version_refused h = false)).

Lemma route_nothing h identity s (o : served) : route_spec h identity s (o, s, []).
Proof. split_and!; [done| |done]. intros _. split; [done|cbn; lia]. Qed.
Hint Resolve route_nothing : core.

Lemma guard_spec h identity s : route_spec h identity s (guard_a2a_protocol_version h identity s).
Proof.
  unfold guard_a2a_protocol_version, route, body_too_large.
  destruct (bool_decide (Some (path h) = rpc_path) && version_refused h) eqn:Hv; [done|].
  destruct (String.eqb_spec (path h) invoke_path) as [Hp|Hp].
  - destruct (body_fits 0 (chunks h)) eqn:Hb; [|done]. destruct (parse_body h) as [m|]; [|done].
    split; [done|]. split; [intros _; apply invoke_gives|done].
  - case_bool_decide as Hr; [|done]. destruct (body_fits 0 (chunks h)) eqn:Hb; [|done].
    split; [done|]. split; [done|]. intros _. split; [exact (task_requests_anonymous h identity)|]. split; [done|].
    intros _. split; [done|]. by destruct (version_refused h).
Qed.

(** Behind the authentication the identity is a verified one where it must be. *)
Lemma authenticate_spec h s :
  exists identity, route_spec h identity s (authenticate_request h s) /\
    ((authenticate_request h s).2 <> [] -> memb (path h) authenticated_paths = true -> verified h identity).
Proof.
  unfold authenticate_request, verified. destruct authenticator as [auth|].
  - destruct (memb (path h) authenticated_paths) eqn:Em.
    + destruct (auth (headers h)) as [i|e] eqn:Ea.
      * exists (Some i). split; [apply guard_spec|]. intros _ _. by exists i.
      * exists None. destruct (isinstance e AuthenticationError); (split; [done|]); done.
    + exists None. split; [apply guard_spec|done].
  - exists None. split; [apply guard_spec|done].
Qed.

(** What the size limit asks of a request. *)
Definition within_limit (h : http_request) : Prop :=
  (Z.of_nat (sum_list (chunks h)) <= max_request_bytes cfg)%Z /\
  forall raw, dget "content-length" (headers h) = Some raw ->
    exists n, py_int raw = Some n /\ (n <= max_request_bytes cfg)%Z.

(** The size limit and the version header pass on the requests and the limiter's
    state as they are, or nothing. *)
Lemma size_spec h s :
  ((add_api_version_header h s).2 = [] /\ (add_api_version_header h s).1.2 = s) \/
  ((add_api_version_header h s).2 = (authenticate_request h s).2 /\
   (add_api_version_header h s).1.2 = (authenticate_request h s).1.2 /\
   forall raw, dget "content-length" (headers h) = Some raw ->
     exists n, py_int raw = Some n /\ (n <= max_request_bytes cfg)%Z).
Proof.
  unfold add_api_version_header, enforce_request_size.
  destruct (authenticate_request h s) as [[[] s1] l];
    (destruct (dget "content-length" (headers h)) as [raw|]; [|right; by split_and!];
     destruct (py_int raw) as [n|] eqn:En; [|by left];
     destruct (Z.ltb_spec (max_request_bytes cfg) n); [by left|]; right; split_and!; [done..|];
     intros ? [= <-]; by exists n).
Qed.

(** C7: Who reaches the agent over HTTP.  Only the invoke route and, when the
    definition enables A2A, the task route give requests to the agent, and only
    when the declared and the received body are within the limit.  The invoke
    route gives at most one: it carries the identity that the authenticator (if
    there is one) verified, and the rate limiter (if there is one) admitted it.
    The task route gives what the SDK makes of the message; these requests carry
    no identity and no limiter is asked for them, but an unsupported protocol
    version is refused, and where the definition asks for verified callers the
    authenticator has verified this one.  A definition that asks for verified
    callers is never served without an authenticator. *)
Theorem agent_reached_only_by_admitted serve h s :
  create_app = Ok serve ->
  let given := (serve h s).2 in
  (given <> [] -> within_limit h /\ (path h = invoke_path \/ Some (path h) = rpc_path)) /\
  (path h = invoke_path -> length given <= 1 /\
     forall r, r ∈ given -> request_check r = Ok r /\
       (require_caller_identity cfg = true -> is_Some (caller_identity r)) /\
       exists identity, verified h identity /\ carries identity r /\ limiter_admits h identity s) /\
  (path h <> invoke_path -> (serve h s).1.2 = s /\
     forall r, r ∈ given -> anonymous r /\ version_refused h = false /\
       (require_caller_identity cfg = true -> exists identity, verified h (Some identity))).
Proof.
  unfold create_app. destruct (Z.ltb_spec (max_request_bytes cfg) 1) as [|Hmax]; [done|].
  destruct (require_caller_identity cfg && _) eqn:Ereq; [done|]. intros [= <-]. cbn zeta.
  destruct (size_spec h s) as [[Hn Hs]|(Hn & Hs & Hdecl)]; rewrite Hn, Hs.
  { split_and!; [done|intros _; split; [cbn; lia|by intros ? ?%elem_of_nil]|].
    intros _. split; [done|by intros ? ?%elem_of_nil]. }
  destruct (authenticate_spec h s) as (identity & (Hfits & Hinv & Htask) & Hver).
  set (o := authenticate_request h s) in *.
  assert (Hne : forall r, r ∈ o.2 -> o.2 <> []) by (intros r Hr E; rewrite E in Hr; by apply elem_of_nil in Hr).
  assert (Hsome : require_caller_identity cfg = true -> verified h identity ->
            exists i, identity = Some i /\ verified h (Some i)).
  { intros Hreq Hv. rewrite Hreq in Ereq. unfold verified in *. destruct authenticator as [auth|]; [|done].
    destruct Hv as (i & ? & ->). exists i. split; [done|]. by exists i. }
  split_and!.
  - intros Hg. split.
    { split; [|done]. specialize (Hfits Hg). apply body_fits_sum in Hfits. lia. }
    destruct (decide (path h = invoke_path)) as [|Hp]; [by left|]. right. by apply (Htask Hp).
  - intros Hp. destruct (Hinv Hp) as [Hg Hl]. split; [done|]. intros r Hr. destruct (Hg r Hr) as (? & Hc & ?).
    assert (Hv : verified h identity) by (apply Hver; [by eapply Hne|]; rewrite Hp; apply memb_true; left).
    split; [done|]. split; [|by exists identity]. intros Hreq. destruct (Hsome Hreq Hv) as (i & -> & _).
    destruct Hc as [-> _]. by eexists.
  - intros Hp. destruct (Htask Hp) as (Hg & Hsame & Hrpc). split; [done|]. intros r Hr.
    destruct (Hrpc (Hne r Hr)) as [Hpath Hvr]. split; [by apply Hg|]. split; [done|]. intros Hreq.
    assert (Hv : verified h identity).
    { apply Hver; [by eapply Hne|]. unfold authenticated_paths. rewrite <-Hpath, Hreq.
      apply memb_true. right. left. }
    destruct (Hsome Hreq Hv) as (i & _ & ?). by exists i.
Qed.

(** ** The error contract *)

(** The status of an exception of the agent by its class. *)
Definition status_of_class (c : exn_class) : Z :=
  match c with
  | InvocationOverloadedError => 429
  | ContinuationNotFoundError | CheckpointNotFoundError => 404
  | ContractValidationError => 422
  | TimeoutError => 504
  | AuthenticationError => 401
  | AuthorizationError | PermissionError => 403
  | DependencyUnavailableError | CircuitOpenError | ConnectionError | RequestError => 503
  | _ => 500
  end.

(** The classes whose reply says more than the class. *)
Definition detailed (c : exn_class) : bool :=
  memb c [InvocationOverloadedError; ContinuationNotFoundError; CheckpointNotFoundError; ContractValidationError].

(** Every exception of the agent is answered with the status of its class,
    and but for four classes whose text is meant for the client the reply tells
    nothing of the exception apart from its class. *)
Theorem error_contract e :
  is_exception e = true ->
  (exists hs fields, error_reply e = Some (http_exception (status_of_class (class e)) hs fields)) /\
  (detailed (class e) = false -> forall e', class e' = class e -> error_reply e' = error_reply e).
Proof.
  intros He. destruct e as [c r m]. split.
  - destruct c; try discriminate He; (eexists _, _; reflexivity).
  - intros Hd [c' r' m'] Hc. cbn in Hc. subst c'. destruct c; try discriminate Hd; try discriminate He; reflexivity.
Qed.

(** A resume that the request record refuses (a decision is missing, or both
    kinds of resume are asked for) is refused outside of the [try] block: it
    escapes the route instead of being answered. *)
Lemma malformed_resume_escapes h m identity s :
  continuation_id m <> None -> approval_decision m = None -> timeout_seconds m = None ->
  handle_request h m identity s = (Escapes (raise ValueError "continuation_id requires approval_decision"), s, []).
Proof.
  intros Hc Hd Ht. unfold handle_request, request_check. cbn. rewrite Ht, Hd. cbn.
  rewrite bool_decide_false by done. done.
Qed.

(** A stream has at most one error event, and it is the last one. *)
Lemma stream_error_is_last r :
  exists events, forallb (fun e => negb (String.eqb e.1 "error")) events = true /\
    stream_events r = (events ++
      if from_option is_exception false (agent_stream r).2
      then [("error", JObj [("code", JStr "stream_failed"); ("message", JStr "Streaming invocation failed")])]
      else [])%list.
Proof.
  unfold stream_events. destruct (agent_stream r) as [events ended]. cbn [snd]. eexists. split; [|by destruct ended].
  apply forallb_elem. intros e He. apply list_elem_of_bind in He as (x & He & _).
  apply elem_of_app in He as [He|He]; repeat case_match;
    first [by apply list_elem_of_singleton in He as -> | by apply elem_of_nil in He].
Qed.
End app.

(** ** The limiter *)

Section limiter.
Context (rate : Q) (capacity : Z).

(** Tokens that a key could take at [now]. *)
Definition available (s : InMemoryRateLimitStore) (k : string) (now : Q) : Q :=
  match dget k (buckets s) with
  | Some b => refill b rate capacity now
  | None => inject_Z capacity
  end.

(** Buckets hold between none and [capacity] tokens and none is of the future. *)
Definition store_ok (s : InMemoryRateLimitStore) (now : Q) : Prop :=
  NoDup (dkeys (buckets s)) /\
  forall k b, dget k (buckets s) = Some b -> (0 <= tokens b /\ tokens b <= inject_Z capacity /\ updated_at b <= now)%Q.

Definition at_ (s : InMemoryRateLimitStore) (k : string) (now : Q) : list (string * TokenBucket) :=
  match dget k (prune s now) with
  | Some _ => prune s now
  | None => dset k {| tokens := inject_Z capacity; updated_at := now |} (make_room s (prune s now))
  end.

Lemma consume_eq s k now :
  let t := refill (default {| tokens := inject_Z capacity; updated_at := now |} (dget k (at_ s k now))) rate capacity now in
  let '((ok, _, _), s') := consume s k rate capacity now in
  ok = (1 <=? t)%clock /\ max_buckets s' = max_buckets s /\ idle_seconds s' = idle_seconds s /\
  buckets s' = dset k {| tokens := if (1 <=? t)%clock then t - 1 else t; updated_at := now |} (at_ s k now).
Proof. cbv zeta. unfold consume, at_. destruct (1 <=? _)%clock; by split_and!. Qed.

Lemma oldest_in bs k t : oldest bs = Some (k, t) -> k ∈ dkeys bs.
Proof.
  revert k t. induction bs as [|[k0 b0] bs IH]; intros k t; cbn; [done|].
  destruct (oldest bs) as [[k' t']|]; [destruct (updated_at b0 <=? t')%clock|]; intros [= <- <-]; [left| |left].
  right. by eapply IH.
Qed.

Lemma make_room_length s bs : 0 < max_buckets s -> length bs <= max_buckets s -> NoDup (dkeys bs) ->
  length (make_room s bs) < max_buckets s.
Proof.
  intros Hm Hl Hnd. unfold make_room. destruct (Nat.leb_spec (max_buckets s) (length bs)) as [Hle|]; [|done].
  destruct bs as [|[k0 b0] bs]; [cbn in *; lia|].
  destruct (oldest ((k0, b0) :: bs)) as [[k t]|] eqn:Eo.
  - apply oldest_in in Eo. assert (Hlt : length (dpop k ((k0, b0) :: bs)) < length ((k0, b0) :: bs)); [|lia].
    pose proof (elem_dpop_length k ((k0, b0) :: bs) Eo). lia.
  - exfalso. cbn in Eo. by destruct (oldest bs) as [[? ?]|]; [destruct (_ <=? _)%clock|].
Qed.

Lemma prune_length s now : length (prune s now) <= length (buckets s).
Proof. apply sublist_length, filterb_sublist. Qed.

Context (Hrate : (0 < rate)%Q) (Hcap : (1 <= capacity)%Z).

Lemma cap_pos : (1 <= inject_Z capacity)%Q.
Proof. rewrite <-(Zle_Qle 1). lia. Qed.

Lemma refill_bounds b now :
  (0 <= tokens b)%Q -> (0 <= refill b rate capacity now /\ refill b rate capacity now <= inject_Z capacity)%Q.
Proof.
  intros Ht. pose proof cap_pos. unfold refill.
  assert (0 <= Qmax0 (now - updated_at b) * rate)%Q.
  { apply Qmult_le_0_compat; [|lra]. unfold Qmax0. clock_case; clock_lra. }
  split; [apply Q.min_glb; lra | apply Q.le_min_l].
Qed.

Lemma refill_later b t t' :
  (updated_at b <= t)%Q -> (t <= t')%Q ->
  (refill b rate capacity t' <= refill b rate capacity t + (t' - t) * rate)%Q.
Proof.
  intros Hu Ht. unfold refill.
  assert (Hq : forall x, (updated_at b <= x)%Q -> (Qmax0 (x - updated_at b) == x - updated_at b)%Q).
  { intros x Hx. unfold Qmax0. clock_case; clock_lra. }
  rewrite (Hq t), (Hq t') by lra. assert (Hr : (0 <= (t' - t) * rate)%Q) by (apply Qmult_le_0_compat; lra).
  pose proof (Q.le_min_l (inject_Z capacity) (tokens b + (t' - updated_at b) * rate)).
  pose proof (Q.le_min_r (inject_Z capacity) (tokens b + (t' - updated_at b) * rate)).
  destruct (Q.min_spec (inject_Z capacity) (tokens b + (t - updated_at b) * rate)) as [[_ ->]|[_ ->]]; nra.
Qed.

Lemma available_later s k t t' :
  store_ok s t -> (t <= t')%Q -> (available s k t' <= available s k t + (t' - t) * rate)%Q.
Proof.
  intros [_ Hs] Ht. unfold available. destruct (dget k (buckets s)) as [b|] eqn:Eb.
  - apply refill_later; [|done]. by apply (Hs k b).
  - assert (0 <= (t' - t) * rate)%Q by (apply Qmult_le_0_compat; lra). lra.
Qed.

Lemma available_le s k now : store_ok s now -> (available s k now <= inject_Z capacity)%Q.
Proof.
  intros [_ Hs]. unfold available. destruct (dget k (buckets s)) as [b|] eqn:Eb; [|lra].
  apply refill_bounds. by apply (Hs k b).
Qed.

(** Dropping a bucket that was idle long enough to be full changes nothing. *)
Lemma prune_available s k now t :
  (inject_Z capacity <= idle_seconds s * rate)%Q -> store_ok s t -> (t <= now)%Q ->
  (match dget k (prune s now) with
   | Some b => refill b rate capacity now | None => inject_Z capacity end == available s k now)%Q.
Proof.
  intros Hidle [Hnd Hs] Ht. unfold available. destruct (dget k (prune s now)) as [b|] eqn:Ep.
  - apply dget_elem, elem_of_filterb in Ep as [Hin _]. apply elem_dget in Hin; [|done]. by rewrite Hin.
  - destruct (dget k (buckets s)) as [b|] eqn:Eb; [|reflexivity].
    assert (Hold : (now - idle_seconds s <=? updated_at b)%clock = false).
    { apply not_true_iff_false. intros Hnew. apply dget_None in Ep. apply Ep, list_elem_of_fmap.
      exists (k, b). split; [done|]. apply elem_of_filterb. split; [by apply dget_elem | done]. }
    destruct (Hs k b Eb) as (H0 & _ & Hu). clock_prop. unfold refill, Qmax0.
    assert ((now - updated_at b <=? 0)%clock = false) as ->.
    { clock_prop. assert (0 < idle_seconds s)%Q; [|lra]. pose proof cap_pos. nra. }
    symmetry. apply Q.min_l. nra.
Qed.

Definition keys_within (ks : list string) (s : InMemoryRateLimitStore) : Prop :=
  NoDup ks /\ length ks <= max_buckets s /\ forall k, k ∈ dkeys (buckets s) -> k ∈ ks.

Lemma make_room_id ks s k now :
  store_ok s now -> keys_within ks s -> k ∈ ks -> dget k (prune s now) = None ->
  make_room s (prune s now) = prune s now.
Proof.
  intros [Hnd _] (Hks & Hmax & Hin) Hk Hno. unfold make_room.
  destruct (Nat.leb_spec (max_buckets s) (length (prune s now))) as [Hle|]; [|done]. exfalso.
  assert (Hlen : length (k :: dkeys (prune s now)) <= length ks).
  { apply submseteq_length, NoDup_submseteq.
    - apply NoDup_cons. split; [by apply dget_None|]. by apply NoDup_filterb.
    - intros x [->|Hx]%elem_of_cons; [done|]. apply Hin.
      apply list_elem_of_fmap in Hx as (e & -> & [He _]%elem_of_filterb). apply list_elem_of_fmap. by exists e. }
  cbn in Hlen. unfold dkeys in Hlen. rewrite length_fmap in Hlen. lia.
Qed.

Lemma store_ok_later s t t' : store_ok s t -> (t <= t')%Q -> store_ok s t'.
Proof. intros [Hnd Hs] Ht. split; [done|]. intros k b Hb. destruct (Hs k b Hb) as (? & ? & ?). split_and!; lra. Qed.

Lemma at_lookup ks s k now :
  store_ok s now -> keys_within ks s -> k ∈ ks ->
  NoDup (dkeys (at_ s k now)) /\
  forall k', dget k' (at_ s k now) =
    match dget k' (prune s now) with
    | Some b => Some b
    | None => if decide (k' = k) then Some {| tokens := inject_Z capacity; updated_at := now |} else None
    end.
Proof.
  intros Hs Hks Hk. assert (Hnd : NoDup (dkeys (prune s now))) by apply NoDup_filterb, Hs. unfold at_.
  destruct (dget k (prune s now)) as [b|] eqn:Eb.
  - split; [done|]. intros k'. destruct (dget k' (prune s now)) eqn:E'; [done|].
    case_decide; [|done]. subst. congruence.
  - rewrite (make_room_id ks s k now Hs Hks Hk Eb). split; [by apply NoDup_dset|]. intros k'. rewrite dget_dset.
    case_decide as E; [subst; by rewrite Eb|]. by destruct (dget k' (prune s now)).
Qed.

(** One request: it is let through when the key has a token, which it takes;
    no other key notices. *)
Lemma consume_step ks s k now t0 ok x y s' :
  (inject_Z capacity <= idle_seconds s * rate)%Q -> store_ok s t0 -> (t0 <= now)%Q ->
  keys_within ks s -> k ∈ ks -> consume s k rate capacity now = (ok, x, y, s') ->
  store_ok s' now /\ keys_within ks s' /\ idle_seconds s' = idle_seconds s /\
  (forall k', (available s' k' now == available s k' now - if ok && bool_decide (k' = k) then 1 else 0)%Q) /\
  (ok = true -> (1 <= available s k now)%Q).
Proof.
  intros Hidle Hs0 Ht Hks Hk Hc. pose proof (store_ok_later s t0 now Hs0 Ht) as Hs.
  destruct (at_lookup ks s k now Hs Hks Hk) as [Hnd Hat].
  pose proof (consume_eq s k now) as He. rewrite Hc in He. cbv zeta in He. destruct He as (Hok & Hm & Hi & Hb).
  set (b := default {| tokens := inject_Z capacity; updated_at := now |} (dget k (at_ s k now))) in *.
  set (u := refill b rate capacity now) in *. pose proof cap_pos as Hcp.
  assert (Hbok : forall k' b', dget k' (at_ s k now) = Some b' ->
            (0 <= tokens b' /\ tokens b' <= inject_Z capacity /\ updated_at b' <= now)%Q).
  { intros k' b' Hb'. rewrite Hat in Hb'. destruct (dget k' (prune s now)) as [b1|] eqn:E1.
    - injection Hb' as ->. apply dget_elem, elem_of_filterb in E1 as [Hin _].
      apply (proj2 Hs k'). apply elem_dget; [apply Hs | done].
    - case_decide; [|done]. injection Hb' as <-. cbn. split_and!; lra. }
  assert (Hbb : (0 <= tokens b)%Q).
  { unfold b. destruct (dget k (at_ s k now)) as [b1|] eqn:E1; cbn; [by apply (Hbok k b1) | lra]. }
  pose proof (refill_bounds b now Hbb) as [Hu0 Hu1]. fold u in Hu0, Hu1.
  assert (Hav : (u == available s k now)%Q).
  { rewrite <-(prune_available s k now t0) by done. unfold u, b. rewrite Hat.
    destruct (dget k (prune s now)); [done|]. rewrite decide_True by done. cbn. unfold refill, Qmax0. cbn.
    assert ((now - now <=? 0)%clock = true) as -> by clock_lra. rewrite Q.min_l; [reflexivity | lra]. }
  assert (Hself : forall v, (0 <= v <= inject_Z capacity)%Q ->
            (refill {| tokens := v; updated_at := now |} rate capacity now == v)%Q).
  { intros v Hv. unfold refill, Qmax0. cbn. assert ((now - now <=? 0)%clock = true) as -> by clock_lra.
    rewrite Q.min_r; lra. }
  set (v := if (1 <=? u)%clock then (u - 1)%Q else u) in *.
  assert (Hv : (0 <= v <= inject_Z capacity)%Q) by (unfold v; destruct (1 <=? u)%clock eqn:E; clock_prop; lra).
  split_and!.
  - split; rewrite Hb; [by apply NoDup_dset|]. intros k' b'. rewrite dget_dset. case_decide.
    + intros [= <-]. cbn. split_and!; [apply Hv..|lra].
    + apply Hbok.
  - destruct Hks as (? & ? & Hin). split_and!; [done | by rewrite Hm|]. rewrite Hb. intros k' [->|Hk']%elem_dkeys_dset; [done|].
    destruct (dget k' (at_ s k now)) as [b'|] eqn:E'; [|by apply dget_None in E'].
    rewrite Hat in E'. destruct (dget k' (prune s now)) eqn:E1.
    + apply dget_elem, elem_of_filterb in E1 as [He _]. apply Hin, list_elem_of_fmap. by eexists (_, _).
    + case_decide; [by subst | done].
  - done.
  - intros k'. unfold available at 1. rewrite Hb, dget_dset. rewrite Hok. destruct (decide (k' = k)) as [->|Hne].
    + rewrite (bool_decide_true (k = k)) by done. rewrite (Hself v Hv). unfold v.
      destruct (1 <=? u)%clock; cbn [andb]; lra.
    + rewrite (bool_decide_false (k' = k)) by done. rewrite andb_false_r, Hat.
      rewrite <-(prune_available s k' now t0) by done. destruct (dget k' (prune s now)); [lra|].
      rewrite decide_False by done. lra.
  - intros ->. symmetry in Hok. clock_lra.
Qed.

Lemma consume_all_spec ks s k events t0 l s' :
  (inject_Z capacity <= idle_seconds s * rate)%Q -> store_ok s t0 -> keys_within ks s ->
  ascending t0 events.*2 -> (forall k', k' ∈ events.*1 -> k' ∈ ks) ->
  consume_all s rate capacity events = (l, s') ->
  (inject_Z (Z.of_nat (length (filterb (String.eqb k) l))) <=
   available s k t0 + (List.last events.*2 t0 - t0) * rate)%Q.
Proof.
  revert s t0 l. induction events as [|[k1 now] events IH]; intros s t0 l Hidle Hs Hks Ha Hin; cbn [consume_all].
  - intros [= <- <-]. cbn [List.filter length Z.of_nat fmap list_fmap List.last]. assert (Hz : ((t0 - t0) * rate == 0)%Q) by ring. rewrite Hz.
    assert (0 <= available s k t0)%Q; [|change (inject_Z (Z.of_nat 0)) with 0%Q; lra].
    unfold available. destruct (dget k (buckets s)) as [b|] eqn:Eb; [|pose proof cap_pos; lra].
    apply refill_bounds. by apply (proj2 Hs k b).
  - destruct (consume s k1 rate capacity now) as [[[ok x] y] s1] eqn:Ec.
    destruct (consume_all s1 rate capacity events) as [l1 s2] eqn:El. intros [= <- <-].
    destruct Ha as [Ht Ha]. assert (Hk1 : k1 ∈ ks) by (apply Hin; left).
    destruct (consume_step ks s k1 now t0 ok x y s1 Hidle Hs Ht Hks Hk1 Ec) as (Hs1 & Hks1 & Hi1 & Hav & _).
    assert (Hlast : List.last ((k1, now) :: events).*2 t0 = List.last events.*2 now).
    { apply last_default_cons. }
    specialize (IH s1 now l1 ltac:(by rewrite Hi1) Hs1 Hks1 Ha ltac:(intros k' Hk'; apply Hin; by right) El).
    rewrite Hlast. pose proof (available_later s k t0 now Hs Ht) as Hlater. specialize (Hav k).
    assert (Hcount : (inject_Z (Z.of_nat (length (filterb (String.eqb k) (if ok then k1 :: l1 else l1)))) ==
              inject_Z (Z.of_nat (length (filterb (String.eqb k) l1))) + if ok && bool_decide (k = k1) then 1 else 0)%Q).
    { destruct ok; cbn [andb]; [|lra]. cbn [List.filter]. destruct (String.eqb_spec k k1) as [->|Hne].
      - rewrite bool_decide_true by done. cbn [length]. rewrite Nat2Z.inj_succ, <-Z.add_1_r, inject_Z_plus. reflexivity.
      - rewrite bool_decide_false by done. lra. }
    rewrite Hcount. destruct (ok && bool_decide (k = k1)); nra.
Qed.

End limiter.

Lemma consume_length s k rate capacity now :
  0 < max_buckets s -> length (buckets s) <= max_buckets s -> NoDup (dkeys (buckets s)) ->
  let '(_, s') := consume s k rate capacity now in
  max_buckets s' = max_buckets s /\ length (buckets s') <= max_buckets s /\ NoDup (dkeys (buckets s')).
Proof.
  intros Hm Hl Hnd. pose proof (consume_eq rate capacity s k now) as He.
  destruct (consume s k rate capacity now) as [[[ok x] y] s']. cbv zeta in He. destruct He as (_ & Hmax & _ & Hb).
  rewrite Hmax. assert (Hat : dmem k (at_ capacity s k now) = true /\ NoDup (dkeys (at_ capacity s k now)) /\
                              length (at_ capacity s k now) <= max_buckets s).
  { assert (Hp : NoDup (dkeys (prune s now))) by by apply NoDup_filterb.
    pose proof (prune_length s now). unfold at_. destruct (dget k (prune s now)) as [b|] eqn:E.
    - split_and!; [apply dmem_get; by exists b | done | lia].
    - assert (Hr : NoDup (dkeys (make_room s (prune s now)))).
      { unfold make_room. destruct (Nat.leb _ _); [|done]. destruct (oldest _) as [[? ?]|]; [by apply NoDup_dpop | done]. }
      split_and!; [apply dmem_get; rewrite dget_dset_eq; by eexists | by apply NoDup_dset|].
      rewrite length_dset. pose proof (make_room_length s (prune s now) Hm ltac:(lia) Hp).
      destruct (dget k (make_room s _)); lia. }
  destruct Hat as (Hin & Hnd' & Hlen). apply dmem_get in Hin as [b' Hb']. rewrite Hb. split_and!; [done| |by apply NoDup_dset].
  by rewrite length_dset, Hb'.
Qed.

(** The limiter's table never exceeds its limit; and as long as the callers
    fit into it and an idle bucket is dropped only when it is full again, a
    caller gets from any moment on at most the burst plus what the elapsed time
    is worth, whatever the other callers do. *)
Theorem limiter_bounds n idle limiter s0 rpm burst_ k events t0 l s :
  new_store n idle = Ok s0 -> new_limiter rpm burst_ = Ok limiter ->
  consume_all s0 (inject_Z (requests_per_minute limiter) / 60) (burst limiter) events = (l, s) ->
  ascending t0 events.*2 ->
  length (buckets s) <= n /\
  ((inject_Z (burst limiter) <= idle * (inject_Z (requests_per_minute limiter) / 60))%Q ->
   length (remove_dups events.*1) <= n ->
   (inject_Z (Z.of_nat (length (filterb (String.eqb k) l))) <=
    inject_Z (burst limiter) + (List.last events.*2 t0 - t0) * (inject_Z (requests_per_minute limiter) / 60))%Q).
Proof.
  intros Hs Hl Hc Ha. unfold new_store in Hs. destruct (Nat.ltb_spec n 1); [done|].
  destruct (idle <=? 0)%clock; [done|]. cbn in Hs. injection Hs as <-.
  assert (Hlim : (1 <= requests_per_minute limiter)%Z /\ (1 <= burst limiter)%Z).
  { unfold new_limiter in Hl. destruct (Z.ltb_spec rpm 1); [done|]. destruct burst_ as [b|]; cbn in Hl.
    - destruct (Z.ltb_spec b 1); [done|]. injection Hl as <-. cbn. lia.
    - injection Hl as <-. cbn. lia. }
  split.
  - assert (Hgen : forall events s1 l1 s2, length (buckets s1) <= max_buckets s1 -> NoDup (dkeys (buckets s1)) ->
      0 < max_buckets s1 -> consume_all s1 (inject_Z (requests_per_minute limiter) / 60) (burst limiter) events = (l1, s2) ->
      length (buckets s2) <= max_buckets s1).
    { clear. induction events as [|[k1 now] events IH]; intros s1 l1 s2 Hl Hnd Hm; cbn [consume_all]; [by intros [= _ <-]|].
      pose proof (consume_length s1 k1 (inject_Z (requests_per_minute limiter) / 60) (burst limiter) now Hm Hl Hnd) as Hc.
      destruct (consume s1 k1 _ _ now) as [[[ok x] y] s3]. destruct Hc as (Hm3 & Hl3 & Hnd3).
      destruct (consume_all s3 _ _ events) as [l3 s4] eqn:El. intros [= _ <-]. rewrite <-Hm3.
      apply (IH s3 l3 s4); [by rewrite Hm3|done|by rewrite Hm3|done]. }
    apply (Hgen events {| max_buckets := n; idle_seconds := idle; buckets := [] |} l s); [cbn; lia | apply NoDup_nil_2 | cbn; lia | done].
  - intros Hidle Hkeys. assert (Hr : (0 < inject_Z (requests_per_minute limiter) / 60)%Q).
    { apply Qlt_shift_div_l; [lra|]. rewrite Qmult_0_l. rewrite <-(Zlt_Qlt 0). lia. }
    pose proof (consume_all_spec _ _ Hr (proj2 Hlim) (remove_dups events.*1)
      {| max_buckets := n; idle_seconds := idle; buckets := [] |} k events t0 l s) as Hspec.
    eapply Qle_trans; [apply Hspec; try done|].
    + split; [apply NoDup_nil_2 | done].
    + split_and!; [apply NoDup_remove_dups | done | by intros ? ?%elem_of_nil].
    + intros k' Hk'. by apply elem_of_remove_dups.
    + unfold available. cbn. lra.
Qed.

(** ** Examples *)

Example accept_header :
  accepts_streaming (fun q => negb (String.eqb q "0")) [("accept", "text/html, Text/Event-Stream; q=0.5")] = true /\
  accepts_streaming (fun q => negb (String.eqb q "0")) [("accept", "text/event-stream;q=0")] = false.
Proof. split; reflexivity. Qed.

Definition demo_auth (hs : list (string * string)) : result exn AuthenticatedIdentity :=
  match dget "authorization" hs with
  | Some "Bearer t" =>
      Ok {| caller := {| Identity.caller_id := "u"; Identity.caller_type := "user"; Identity.caller_metadata := [] |};
            user := None |}
  | _ => Err (raise AuthenticationError "authentication required")
  end.

Definition demo_cfg : app_config :=
  {| max_request_bytes := 8; streaming := true; require_caller_identity := true; a2a_rpc := true;
     a2a_protocol_version := "1.0" |}.

(** Admits a request when it is the first or the second. *)
Definition demo_limiter (h : http_request) (i : option AuthenticatedIdentity) (n : nat) : result exn limiter_value * nat :=
  (Ok (LBool (Nat.ltb n 2)), S n).

Definition demo_agent (r : AgentRequest) : result exn Invocation.AgentResponse :=
  Ok {| Invocation.output := JObj (agent_input r); Invocation.response_request_id := agent_request_id r;
        Invocation.response_session_id := None; Invocation.status := "success"; Invocation.error := None;
        Invocation.metadata := [] |}.

Definition demo_body (h : http_request) : option InvokeRequestModel :=
  Some {| input := []; request_id := None; session_id := None; caller_metadata := []; timeout_seconds := None;
          continuation_id := None; approval_decision := None; checkpoint_id := None |}.

Definition demo_stream (r : AgentRequest) : list AgentStreamEvent * option exn := ([], None).

Definition demo_routes (h : http_request) (i : option AuthenticatedIdentity) : reply := problem 404 [] [].

Definition demo_app : result exn (http_request -> nat -> outcome) :=
  create_app (fun _ => true) (fun _ => Some 3%Z) demo_cfg (Some demo_auth) (Some demo_limiter) demo_agent demo_stream
    "id" (fun _ => 0%Z) (fun _ => "input") (fun _ => []) (fun _ => JNull) demo_body (problem 422 [] []) (fun _ => None)
    (fun _ => None) "task" (fun _ _ => [(None, Some "ctx", "hi")]) (fun _ _ _ => problem 200 [] []) demo_routes (fun _ => "8").

Definition demo_request (route token : string) (parts : list nat) : http_request :=
  {| path := route; headers := [("authorization", token); ("content-length", "3")]; chunks := parts |}.

(** An admitted invocation; a wrong token, a body beyond the limit and a request
    beyond the rate; a task message, which the limiter does not see. *)
Lemma agent_reached_only_by_admitted_witness :
  exists serve, demo_app = Ok serve /\
    length (serve (demo_request "/v1/invoke" "Bearer t" [3]) 0).2 = 1 /\
    (serve (demo_request "/v1/invoke" "Bearer x" [3]) 0).2 = [] /\
    (serve (demo_request "/v1/invoke" "Bearer t" [3; 9]) 0).2 = [] /\
    (serve (demo_request "/v1/invoke" "Bearer t" [3]) 2).2 = [] /\
    length (serve (demo_request "/" "Bearer t" [3]) 2).2 = 1 /\ (serve (demo_request "/" "Bearer x" [3]) 2).2 = [] /\
    (forall r, r ∈ (serve (demo_request "/v1/invoke" "Bearer t" [3]) 0).2 -> is_Some (caller_identity r)) /\
    forall r, r ∈ (serve (demo_request "/" "Bearer t" [3]) 2).2 -> caller_identity r = None.
Proof.
  destruct demo_app as [serve|e] eqn:E; [|discriminate E].
  pose proof (fun h s => agent_reached_only_by_admitted (fun _ => true) (fun _ => Some 3%Z) demo_cfg (Some demo_auth)
    (Some demo_limiter) demo_agent demo_stream "id" (fun _ => 0%Z) (fun _ => "input") (fun _ => []) (fun _ => JNull)
    demo_body (problem 422 [] []) (fun _ => None) (fun _ => None) "task" (fun _ _ => [(None, Some "ctx", "hi")])
    (fun _ _ _ => problem 200 [] []) demo_routes (fun _ => "8") serve h s E) as H.
  assert (serve = match demo_app with Ok f => f | Err _ => serve end) as Hs by (by rewrite E).
  exists serve. split; [reflexivity|].
  split_and!; try (rewrite Hs; reflexivity).
  - intros r Hr. destruct (H (demo_request "/v1/invoke" "Bearer t" [3]) 0) as (_ & Hi & _).
    destruct (Hi eq_refl) as [_ Hall]. destruct (Hall r Hr) as (_ & Hid & _). exact (Hid eq_refl).
  - intros r Hr. destruct (H (demo_request "/" "Bearer t" [3]) 2) as (_ & _ & Ht).
    destruct (Ht ltac:(discriminate)) as [_ Hall]. destruct (Hall r Hr) as ((_ & Hid & _) & _). exact Hid.
Defined.

Lemma error_contract_witness :
  exists hs fields,
    error_reply (fun _ => 0%Z) (fun _ => "") (fun _ => []) (raise CircuitOpenError "open") =
    Some (http_exception 503 hs fields).
Proof. apply (error_contract (fun _ => 0%Z) (fun _ => "") (fun _ => []) (raise CircuitOpenError "open")). reflexivity. Defined.

(** Two requests per minute: the third of a burst is refused. *)
Lemma limiter_bounds_witness :
  let '(l, s) := consume_all {| max_buckets := 10; idle_seconds := 3600; buckets := [] |} (inject_Z 2 / 60) 2
                   [("a", 0%Q); ("a", 1%Q); ("b", 1%Q); ("a", 2%Q)] in
  l = ["a"; "a"; "b"] /\ length (buckets s) <= 10 /\
  (inject_Z (Z.of_nat (length (filterb (String.eqb "a") l))) <= inject_Z 2 + (2 - 0) * (inject_Z 2 / 60))%Q.
Proof.
  destruct (consume_all _ _ _ _) as [l s] eqn:E.
  assert (l = ["a"; "a"; "b"]) as Hl by (vm_compute in E; by injection E).
  split; [exact Hl|].
  pose proof (limiter_bounds 10 3600 {| requests_per_minute := 2; burst := 2 |} _ 2 None "a"
    [("a", 0%Q); ("a", 1%Q); ("b", 1%Q); ("a", 2%Q)] 0 l s eq_refl eq_refl E) as [H1 H2].
  - vm_compute. repeat split; discriminate.
  - split; [exact H1|]. apply H2; [vm_compute; discriminate | vm_compute; lia].
Defined.

End HttpApi.
