(* ===== verification/Observability.v ===== *)
(** * The fleet observability plane

    [cloud/observability.py] and the event contract of [cloud/schemas.py]: the
    normalisation of pushed events, the in-memory store, the SQLite store with
    its retention, the queries and the HTTP handlers.  Events are JSON values;
    every event carries the clock reading of its own normalisation.  [str] of a
    value that is not text and the parsing of numbers from text are parameters;
    floats are exact rationals, so NaN and the infinities are left out.  An
    integer of Python is unbounded, one of SQLite has 64 bits. *)

From Stdlib Require Import Qround.
From S2P Require Import Prelude Json Tables.

Module Observability.

(** ** Events *)

Record TraceSpan : Type := {
  span_trace : string;
  span_agent : string;
  span_id : string;
  span_name : string;
  parent_span_id : option string;
  caller_agent : option string;
  span_tenant : option string;
  duration_ms : Q;
  span_status : string;
  span_received_at : Q
}.

Record UsageRecord : Type := {
  usage_trace : string;
  usage_agent : string;
  usage_tenant : option string;
  input_tokens : Z;
  output_tokens : Z;
  cost_usd : Q;
  usage_received_at : Q
}.

Record AuditEvent : Type := {
  audit_trace : string;
  audit_agent : string;
  audit_tenant : option string;
  action : string;
  decision : string;
  audit_received_at : Q
}.

Inductive item : Type :=
  | Span (s : TraceSpan)
  | Usage (u : UsageRecord)
  | Audit (a : AuditEvent).

Inductive obs_error : Type :=
  | ValueError (what : string)
  | TypeError (what : string)
  | OverflowError                      (** an integer that SQLite cannot hold *)
  | OperationalError (what : string).

Definition rejected (e : obs_error) : bool :=
  match e with ValueError _ | TypeError _ => true | _ => false end.

Definition max_events_per_batch : nat := 1000.
Definition max_audit_limit : Z := 1000.
Definition event_kinds : list string := ["span"; "usage"; "audit"].
Definition required : list string := ["agent"; "kind"; "trace_id"].

Section observability.
Context (py_str : json -> string).
Context (parse_float : string -> option Q) (parse_int : string -> option Z).

(** [float(j)], [int(j)] *)
Definition py_float (j : json) : result obs_error Q :=
  match j with
  | JBool b => Ok (if b then 1 else 0)%Q
  | JInt z => Ok (inject_Z z)
  | JFloat q => Ok q
  | JStr s => match parse_float s with Some q => Ok q | None => Err (ValueError "could not convert string to float") end
  | _ => Err (TypeError "float() argument must be a string or a real number")
  end.

Definition truncate (q : Q) : Z := if qltb q 0 then Qceiling q else Qfloor q.

Definition py_int (j : json) : result obs_error Z :=
  match j with
  | JBool b => Ok (if b then 1 else 0)%Z
  | JInt z => Ok z
  | JFloat q => Ok (truncate q)
  | JStr s => match parse_int s with Some z => Ok z | None => Err (ValueError "invalid literal for int()") end
  | _ => Err (TypeError "int() argument must be a string or a real number")
  end.

Definition text (j : json) : string := py_text py_str j.

(** [str(d.get(k, default))] *)
Definition text_or (d : list (string * json)) (k default_ : string) : string :=
  match dget k d with Some j => text j | None => default_ end.

(** [str(j) if j else None] *)
Definition text_if (j : option json) : option string :=
  match j with Some j => if py_truthy j then Some (text j) else None | None => None end.

Definition known_kind (k : option json) : result obs_error string :=
  match k with
  | Some (JStr s) => if memb s event_kinds then Ok s else Err (ValueError "event kind must be one of ['audit', 'span', 'usage']")
  | Some (JList _) | Some (JObj _) => Err (TypeError "unhashable type")
  | _ => Err (ValueError "event kind must be one of ['audit', 'span', 'usage']")
  end.

Definition missing (d : list (string * json)) : list string :=
  filterb (fun k => negb (dmem k d) && negb (String.eqb k "kind")) required.

Definition normalize (event : json) (now : Q) : result obs_error item :=
  match event with
  | JObj d =>
      kind ← known_kind (dget "kind" d);
      match missing d with
      | _ :: _ => Err (ValueError ("event missing fields: [" ++ String.concat ", " (quoted <$> missing d) ++ "]"))
      | [] =>
          let tenant := text_if (dget "tenant" d) in
          if String.eqb kind "span" then
            duration ← (match dget "duration_ms" d with Some j => py_float j | None => Ok 0%Q end);
            Ok (Span {| span_trace := text_or d "trace_id" ""; span_agent := text_or d "agent" "";
                        span_id := text_or d "span_id" ""; span_name := text_or d "name" "";
                        parent_span_id := text_if (dget "parent_span_id" d);
                        caller_agent := text_if (dget "caller_agent" d); span_tenant := tenant;
                        duration_ms := duration; span_status := text_or d "status" "ok"; span_received_at := now |})
          else if String.eqb kind "usage" then
            i ← (match dget "input_tokens" d with Some j => py_int j | None => Ok 0%Z end);
            o ← (match dget "output_tokens" d with Some j => py_int j | None => Ok 0%Z end);
            c ← (match dget "cost_usd" d with Some j => py_float j | None => Ok 0%Q end);
            Ok (Usage {| usage_trace := text_or d "trace_id" ""; usage_agent := text_or d "agent" "";
                         usage_tenant := tenant; input_tokens := i; output_tokens := o; cost_usd := c;
                         usage_received_at := now |})
          else
            Ok (Audit {| audit_trace := text_or d "trace_id" ""; audit_agent := text_or d "agent" "";
                         audit_tenant := tenant; action := text_or d "action" "";
                         decision := text_or d "decision" ""; audit_received_at := now |})
      end
  | _ => Err (ValueError "event must be an object")
  end.

(** A pushed batch: each event with the clock reading of its normalisation. *)
Definition batch : Type := list (json * Q).

Definition normalized (events : batch) : result obs_error (list item) :=
  if Nat.ltb max_events_per_batch (length events) then Err (ValueError "batch exceeds 1000 events")
  else mapM (fun e => normalize e.1 e.2) events.

Definition spans_of (l : list item) : list TraceSpan := omap (fun i => match i with Span s => Some s | _ => None end) l.
Definition usage_of (l : list item) : list UsageRecord := omap (fun i => match i with Usage u => Some u | _ => None end) l.
Definition audit_of (l : list item) : list AuditEvent := omap (fun i => match i with Audit a => Some a | _ => None end) l.

(** ** In memory *)

Record InMemoryObservabilityStore : Type := {
  spans : list (string * list TraceSpan);      (** by trace *)
  usage : list UsageRecord;
  audit : list AuditEvent
}.

Definition new_store : InMemoryObservabilityStore := {| spans := []; usage := []; audit := [] |}.

Definition add_span (d : list (string * list TraceSpan)) (s : TraceSpan) : list (string * list TraceSpan) :=
  dset (span_trace s) (default [] (dget (span_trace s) d) ++ [s])%list d.

Definition ingest (st : InMemoryObservabilityStore) (events : batch) : result obs_error Z * InMemoryObservabilityStore :=
  match normalized events with
  | Err e => (Err e, st)
  | Ok items =>
      (Ok (Z.of_nat (length events)),
       {| spans := foldl add_span (spans st) (spans_of items);
          usage := (usage st ++ usage_of items)%list;
          audit := (audit st ++ audit_of items)%list |})
  end.

Definition trace (st : InMemoryObservabilityStore) (t : string) : list TraceSpan :=
  sort_by (fun a b => span_received_at a <=? span_received_at b)%clock (default [] (dget t (spans st))).

(** [span.caller_agent and span.caller_agent != span.agent], and the edge. *)
Definition is_call (s : TraceSpan) : bool :=
  match caller_agent s with Some c => str_truthy c && negb (String.eqb c (span_agent s)) | None => false end.
Definition edge (s : TraceSpan) : string * string := (default "" (caller_agent s), span_agent s).

Definition topology (st : InMemoryObservabilityStore) : list ((string * string) * Z) :=
  sort_by (fun a b => str2_leb a.1 b.1)
    (group_fold edge (fun n (_ : TraceSpan) => n + 1)%Z 0%Z (filterb is_call (mjoin (dvalues (spans st))))).

Record bucket : Type := { total_input : Z; total_output : Z; total_cost : Q }.

(** [round(q, 6)] *)
Definition round6 (q : Q) : Q := round_to 1000000 q.

Definition sum_Z (l : list Z) : Z := foldr Z.add 0%Z l.
Definition sum_Q (l : list Q) : Q := foldr Qplus 0%Q l.

Definition add_usage (b : bucket) (u : UsageRecord) : bucket :=
  {| total_input := (total_input b + input_tokens u)%Z; total_output := (total_output b + output_tokens u)%Z;
     total_cost := round6 (total_cost b + cost_usd u) |}.

Definition zero : bucket := {| total_input := 0; total_output := 0; total_cost := 0 |}.

Record cost_report : Type := { totals : bucket; by_agent : list (string * bucket) }.

Definition report (buckets : list (string * bucket)) : cost_report :=
  {| totals := {| total_input := sum_Z (total_input <$> dvalues buckets);
                  total_output := sum_Z (total_output <$> dvalues buckets);
                  total_cost := round6 (sum_Q (total_cost <$> dvalues buckets)) |};
     by_agent := buckets |}.

Definition wanted (tenant agent : option string) (u : UsageRecord) : bool :=
  match tenant with Some t => bool_decide (usage_tenant u = Some t) | None => true end &&
  match agent with Some a => String.eqb (usage_agent u) a | None => true end.

Definition costs (st : InMemoryObservabilityStore) (tenant agent : option string) : cost_report :=
  report (group_fold usage_agent add_usage zero (filterb (wanted tenant agent) (usage st))).

Definition limit_error : obs_error := ValueError "limit must be between 1 and 1000".
Definition limit_ok (limit : Z) : bool := Z.leb 1 limit && Z.leb limit max_audit_limit.
Definition of_tenant (tenant : option string) (a : AuditEvent) : bool :=
  match tenant with Some t => bool_decide (audit_tenant a = Some t) | None => true end.

Definition audit_events (st : InMemoryObservabilityStore) (tenant : option string) (limit : Z)
  : result obs_error (list AuditEvent) :=
  if negb (limit_ok limit) then Err limit_error
  else Ok (take (Z.to_nat limit) (reverse (filterb (of_tenant tenant) (audit st)))).

(** ** In SQLite *)

Record SqliteObservabilityStore : Type := {
  retention_seconds : Q;
  max_records : nat;
  memory_connection : bool;          (** path [":memory:"]: one shared connection *)
  span_rows : table TraceSpan;
  usage_rows : table UsageRecord;
  audit_rows : table AuditEvent;
  transaction_open : bool            (** on the shared connection *)
}.

Definition sql_new_store (path : string) (retention : Q) (max : Z) : result obs_error SqliteObservabilityStore :=
  if (retention <=? 0)%clock || Z.ltb max 1 then Err (ValueError "retention_seconds and max_records must be positive")
  else Ok {| retention_seconds := retention; max_records := Z.to_nat max; memory_connection := String.eqb path ":memory:";
             span_rows := empty_table; usage_rows := empty_table; audit_rows := empty_table; transaction_open := false |}.

Definition with_tables (s : SqliteObservabilityStore) (a : table TraceSpan) (b : table UsageRecord) (c : table AuditEvent)
    (o : bool) : SqliteObservabilityStore :=
  {| retention_seconds := retention_seconds s; max_records := max_records s; memory_connection := memory_connection s;
     span_rows := a; usage_rows := b; audit_rows := c; transaction_open := o |}.

(** A 64-bit integer column holds the value. *)
Definition fits (z : Z) : bool := Z.leb (- 2 ^ 63) z && Z.ltb z (2 ^ 63).
Definition usage_fits (u : UsageRecord) : bool := fits (input_tokens u) && fits (output_tokens u).

(** The inserts up to the first record that cannot be bound, and whether it was
    met. *)
Fixpoint insert_usage (t : table UsageRecord) (l : list UsageRecord) : table UsageRecord * bool :=
  match l with
  | [] => (t, true)
  | u :: l => if usage_fits u then insert_usage (insert_row t u) l else (t, false)
  end.

(** The statements of one ingestion.  An exception leaves the statement list: the
    connection of a file rolls back as it closes, the shared one keeps its
    transaction open. *)
Definition sql_write (s : SqliteObservabilityStore) (sp : list TraceSpan) (us : list UsageRecord) (au : list AuditEvent)
    (cutoff : Q) : result obs_error unit * SqliteObservabilityStore :=
  if transaction_open s then (Err (OperationalError "cannot start a transaction within a transaction"), s)
  else
    let span_rows' := insert_rows (span_rows s) sp in
    let '(usage_rows', complete) := insert_usage (usage_rows s) us in
    if complete then
      let audit_rows' := insert_rows (audit_rows s) au in
      (Ok tt, with_tables s (bound span_received_at cutoff (max_records s) span_rows')
                (bound usage_received_at cutoff (max_records s) usage_rows')
                (bound audit_received_at cutoff (max_records s) audit_rows') false)
    else if memory_connection s then (Err OverflowError, with_tables s span_rows' usage_rows' (audit_rows s) true)
    else (Err OverflowError, s).

(** [now] is the clock reading of the cutoff. *)
Definition sql_ingest (s : SqliteObservabilityStore) (events : batch) (now : Q)
  : result obs_error Z * SqliteObservabilityStore :=
  let '(accepted, validator) := ingest new_store events in
  match accepted with
  | Err e => (Err e, s)
  | Ok n =>
      let '(r, s) := sql_write s (mjoin (dvalues (spans validator))) (usage validator) (audit validator)
                       (now - retention_seconds s) in
      match r with Ok _ => (Ok n, s) | Err e => (Err e, s) end
  end.

Definition sql_trace (s : SqliteObservabilityStore) (t : string) : list TraceSpan :=
  (sort_by (older span_received_at) (filterb (fun r => String.eqb (span_trace r.2) t) (rows (span_rows s)))).*2.

(** [WHERE caller_agent IS NOT NULL AND caller_agent != agent] *)
Definition sql_is_call (s : TraceSpan) : bool :=
  match caller_agent s with Some c => negb (String.eqb c (span_agent s)) | None => false end.

Definition sql_topology (s : SqliteObservabilityStore) : list ((string * string) * Z) :=
  group_by edge str2_leb (fun l => Z.of_nat (length l)) (filterb sql_is_call (rows (span_rows s)).*2).

(** [SUM(...)] of the rows of one agent; the cost is rounded once. *)
Definition sql_bucket (l : list UsageRecord) : bucket :=
  {| total_input := sum_Z (input_tokens <$> l); total_output := sum_Z (output_tokens <$> l);
     total_cost := round6 (sum_Q (cost_usd <$> l)) |}.

(** [SUM] of integers fails when it leaves 64 bits (for counts of one sign, at
    any point exactly when the total does). *)
Definition sum_overflows (b : string * bucket) : bool := negb (fits (total_input b.2) && fits (total_output b.2)).

Definition sql_costs (s : SqliteObservabilityStore) (tenant agent : option string) : result obs_error cost_report :=
  let groups := group_by usage_agent str_leb sql_bucket (filterb (wanted tenant agent) (rows (usage_rows s)).*2) in
  if existsb sum_overflows groups then Err (OperationalError "integer overflow") else Ok (report groups).

Definition sql_audit_events (s : SqliteObservabilityStore) (tenant : option string) (limit : Z)
  : result obs_error (list AuditEvent) :=
  if negb (limit_ok limit) then Err limit_error
  else Ok (take (Z.to_nat limit)
             (sort_by (newer audit_received_at) (filterb (fun r => of_tenant tenant r.2) (rows (audit_rows s)))).*2).

(** ** The HTTP interface *)

(** [ObservabilityEventContract] with the fields it does not name. *)
Record ObservabilityEvent : Type := {
  ev_kind : string;
  ev_trace_id : string;
  ev_agent : string;
  ev_texts : list (string * string);       (** the optional text fields that are set *)
  ev_duration_ms : option Q;
  ev_input_tokens : option Z;
  ev_output_tokens : option Z;
  ev_cost_usd : option Q;
  ev_extra : list (string * json)
}.

Definition text_fields : list string :=
  ["tenant"; "span_id"; "name"; "parent_span_id"; "caller_agent"; "status"; "action"; "decision"].
Definition number_fields : list string := ["duration_ms"; "input_tokens"; "output_tokens"; "cost_usd"].

(** What the model guarantees of an event it accepts. *)
Definition event_ok (e : ObservabilityEvent) : bool :=
  memb (ev_kind e) event_kinds && str_truthy (ev_trace_id e) && str_truthy (ev_agent e) &&
  forallb (fun k => memb k text_fields) (dkeys (ev_texts e)) &&
  from_option (fun q => 0 <=? q)%clock true (ev_duration_ms e) &&
  from_option (Z.leb 0) true (ev_input_tokens e) && from_option (Z.leb 0) true (ev_output_tokens e) &&
  from_option (fun q => 0 <=? q)%clock true (ev_cost_usd e) &&
  forallb (fun k => negb (memb k (["kind"; "trace_id"; "agent"] ++ text_fields ++ number_fields)%list)) (dkeys (ev_extra e)).

Definition some_field {A} (k : string) (f : A -> json) (o : option A) : list (string * json) :=
  match o with Some a => [(k, f a)] | None => [] end.

(** [event.model_dump(exclude_none=True)] *)
Definition model_dump (e : ObservabilityEvent) : json :=
  JObj ([("kind", JStr (ev_kind e)); ("trace_id", JStr (ev_trace_id e)); ("agent", JStr (ev_agent e))] ++
        (prod_map id JStr <$> ev_texts e) ++
        some_field "duration_ms" JFloat (ev_duration_ms e) ++ some_field "input_tokens" JInt (ev_input_tokens e) ++
        some_field "output_tokens" JInt (ev_output_tokens e) ++ some_field "cost_usd" JFloat (ev_cost_usd e) ++
        ev_extra e)%list.

(** A reply, or an exception that no handler catches. *)
Inductive reply : Type :=
  | Reply (status : Z) (body : json)
  | Unhandled (e : obs_error).

(** What the handlers need of a store: its operations, and that a batch it
    refuses is not there. *)
Class ObservabilityStore (S : Type) : Type := {
  os_ingest : S -> batch -> Q -> result obs_error Z * S;
  os_trace : S -> string -> list TraceSpan;
  os_topology : S -> list ((string * string) * Z);
  os_costs : S -> option string -> option string -> result obs_error cost_report;
  os_audit_events : S -> option string -> Z -> result obs_error (list AuditEvent);
  os_refuses : forall s events now e s',
    os_ingest s events now = (Err e, s') -> rejected e = true -> s' = s
}.

Section app.
Context {S : Type} `{ObservabilityStore S}.
(** [ObservabilityBatchContract.model_validate]: the events, or the refusal. *)
Context (parse_batch : json -> option (list ObservabilityEvent)).

Definition error_text (e : obs_error) : string :=
  match e with ValueError m | TypeError m | OperationalError m => m | OverflowError => "" end.

(** [clock i]: the clock reading of the normalisation of event [i]. *)
Definition ingest_events (s : S) (payload : json) (clock : nat -> Q) (now : Q) : reply * S :=
  match parse_batch payload with
  | None => (Reply 422 (JObj [("detail", JStr "invalid batch")]), s)
  | Some events =>
      let '(r, s) := os_ingest s (imap (fun i e => (model_dump e, clock i)) events) now in
      match r with
      | Ok n => (Reply 200 (JObj [("accepted", JInt n)]), s)
      | Err e => if rejected e then (Reply 422 (JObj [("detail", JStr (error_text e))]), s) else (Unhandled e, s)
      end
  end.

Definition optional_text (o : option string) : json := match o with Some s => JStr s | None => JNull end.

Definition span_payload (x : TraceSpan) : json :=
  JObj [("agent", JStr (span_agent x)); ("span_id", JStr (span_id x)); ("name", JStr (span_name x));
        ("parent_span_id", optional_text (parent_span_id x)); ("caller_agent", optional_text (caller_agent x));
        ("tenant", optional_text (span_tenant x)); ("duration_ms", JFloat (duration_ms x));
        ("status", JStr (span_status x))].

Definition get_trace (s : S) (t : string) : reply :=
  match os_trace s t with
  | [] => Reply 404 (JObj [("detail", JStr ("unknown trace " ++ quoted t))])
  | l => Reply 200 (JObj [("trace_id", JStr t); ("spans", JList (span_payload <$> l))])
  end.

Definition edge_payload (e : (string * string) * Z) : json :=
  JObj [("caller_agent", JStr e.1.1); ("callee_agent", JStr e.1.2); ("calls", JInt e.2)].

Definition get_topology (s : S) : reply := Reply 200 (JObj [("edges", JList (edge_payload <$> os_topology s))]).

Definition bucket_payload (b : bucket) : json :=
  JObj [("input_tokens", JInt (total_input b)); ("output_tokens", JInt (total_output b)); ("cost_usd", JFloat (total_cost b))].

Definition get_costs (s : S) (tenant agent : option string) : reply :=
  match os_costs s tenant agent with
  | Ok r => Reply 200 (JObj [("totals", bucket_payload (totals r)); ("by_agent", JObj (prod_map id bucket_payload <$> by_agent r))])
  | Err e => Unhandled e
  end.

Definition audit_payload (a : AuditEvent) : json :=
  JObj [("trace_id", JStr (audit_trace a)); ("agent", JStr (audit_agent a)); ("tenant", optional_text (audit_tenant a));
        ("action", JStr (action a)); ("decision", JStr (decision a)); ("received_at", JFloat (audit_received_at a))].

(** The query parameter is checked before the handler runs. *)
Definition get_audit (s : S) (tenant : option string) (limit : Z) : reply :=
  if negb (limit_ok limit) then Reply 422 (JObj [("detail", JStr "limit")])
  else match os_audit_events s tenant limit with
       | Ok l => Reply 200 (JObj [("events", JList (audit_payload <$> l))])
       | Err e => Unhandled e
       end.
End app.

#[local] Program Instance memory_store : ObservabilityStore InMemoryObservabilityStore := {|
  os_ingest s events now := ingest s events; os_trace := trace; os_topology := topology;
  os_costs s t a := Ok (costs s t a); os_audit_events := audit_events
|}.
Next Obligation.
  intros s events now e s'. unfold ingest. by destruct (normalized events); intros [= _ <-].
Qed.

#[local] Program Instance sqlite_store : ObservabilityStore SqliteObservabilityStore := {|
  os_ingest := sql_ingest; os_trace := sql_trace; os_topology := sql_topology;
  os_costs := sql_costs; os_audit_events := sql_audit_events
|}.
Next Obligation.
  intros s events now e s'. unfold sql_ingest, sql_write.
  destruct (ingest new_store events) as [[n|e1] v]; [|by intros [= <- <-]].
  destruct (transaction_open s); [by intros [= <- <-]|]. destruct (insert_usage _ _) as [t complete].
  destruct complete; [done|]. by destruct (memory_connection s); intros [= <- <-].
Qed.

(** ** What a batch becomes *)

Lemma spans_of_app l1 l2 : spans_of (l1 ++ l2) = (spans_of l1 ++ spans_of l2)%list.
Proof. apply omap_app. Qed.

Lemma items_length l : length (spans_of l) + length (usage_of l) + length (audit_of l) = length l.
Proof. induction l as [|[s|u|a] l IH]; cbn in *; [done|..]; unfold spans_of, usage_of, audit_of in *; cbn; lia. Qed.

Lemma normalized_length events items : normalized events = Ok items -> length items = length events.
Proof.
  unfold normalized. destruct (Nat.ltb _ _); [done|]. intros H%mapM_ok. by apply Forall2_length in H.
Qed.

Definition item_time (i : item) : Q :=
  match i with Span s => span_received_at s | Usage u => usage_received_at u | Audit a => audit_received_at a end.

Lemma normalize_time e now i : normalize e now = Ok i -> item_time i = now.
Proof.
  unfold normalize. destruct e as [| | | | | |d]; try done. intros H. result_inv.
  destruct (missing d); [|done]. destruct (String.eqb _ "span"); [|destruct (String.eqb _ "usage")]; result_inv; by subst.
Qed.

Lemma normalized_times events items : normalized events = Ok items -> item_time <$> items = events.*2.
Proof.
  unfold normalized. destruct (Nat.ltb _ _); [done|]. intros H%mapM_ok.
  induction H as [|[e now] i events items Hn _ IH]; [done|]. cbn. f_equal; [by eapply normalize_time | exact IH].
Qed.

(** *** The table of traces *)

Definition traces_ok (d : list (string * list TraceSpan)) : Prop :=
  NoDup (dkeys d) /\ forall t l s, (t, l) ∈ d -> s ∈ l -> span_trace s = t.

Definition in_trace (t : string) (s : TraceSpan) : bool := String.eqb (span_trace s) t.

Lemma traces_ok_add d s : traces_ok d -> traces_ok (add_span d s).
Proof.
  intros [Hnd Hd]. split; [by apply NoDup_dset|]. unfold add_span. intros t l x [[= -> ->]|Hin]%elem_dset.
  - intros [Hx|Hx]%elem_of_app; [|by apply list_elem_of_singleton in Hx as ->].
    destruct (dget (span_trace s) d) as [l|] eqn:El; [|by apply elem_of_nil in Hx].
    by eapply Hd; [apply dget_elem|].
  - by eapply Hd.
Qed.

Lemma traces_ok_adds d l : traces_ok d -> traces_ok (foldl add_span d l).
Proof. intros Hd. apply (foldl_invariant traces_ok); [done|]. intros. by apply traces_ok_add. Qed.

Lemma traces_ok_nil : traces_ok [].
Proof. split; [apply NoDup_nil_2|]. by intros ? ? ? ?%elem_of_nil. Qed.

Lemma trace_add d t l :
  default [] (dget t (foldl add_span d l)) = (default [] (dget t d) ++ filterb (in_trace t) l)%list.
Proof.
  revert d. induction l as [|s l IH]; intros d; cbn [foldl List.filter]; [by rewrite app_nil_r|].
  rewrite IH. unfold add_span, in_trace at 2. rewrite dget_dset. destruct (String.eqb_spec (span_trace s) t) as [<-|Hne].
  - rewrite decide_True by done. cbn. by rewrite <-app_assoc.
  - by rewrite decide_False by done.
Qed.

Lemma add_perm d s : mjoin (dvalues (add_span d s)) ≡ₚ s :: mjoin (dvalues d).
Proof.
  unfold add_span. generalize (span_trace s) as t. induction d as [|[t' l] d IH]; intros t; [done|]. cbn. case_decide as He.
  - change (foldr app [] d.*2) with (mjoin (dvalues d)). cbn. rewrite <-app_assoc. cbn. by rewrite <-Permutation_middle.
  - cbn. specialize (IH t). unfold dvalues, mjoin, list_join in *. cbn in *. rewrite IH. by rewrite <-Permutation_middle.
Qed.

Lemma adds_perm d l : traces_ok d -> mjoin (dvalues (foldl add_span d l)) ≡ₚ (mjoin (dvalues d) ++ l)%list.
Proof.
  revert d. induction l as [|s l IH]; intros d Hd; cbn [foldl]; [by rewrite app_nil_r|].
  rewrite IH by by apply traces_ok_add. rewrite add_perm. by rewrite <-Permutation_middle.
Qed.

(** Reading the spans of a trace from all of them. *)
Lemma filter_traces d t : traces_ok d -> filterb (in_trace t) (mjoin (dvalues d)) = default [] (dget t d).
Proof.
  induction d as [|[t' l] d IH]; intros [Hnd Hd]; [done|]. apply NoDup_cons in Hnd as [Hn Hnd].
  change (mjoin (dvalues ((t', l) :: d))) with (l ++ mjoin (dvalues d))%list. rewrite List.filter_app.
  rewrite IH by (split; [done|]; intros ? ? ? Hin; apply (Hd _ _ _); by right). cbn [dget].
  destruct (decide (t = t')) as [->|Hne].
  - assert (dget t' d = None) as -> by by apply dget_None. cbn. rewrite app_nil_r. apply filterb_all.
    intros s Hs. apply String.eqb_eq. eapply Hd; [left | done].
  - rewrite filterb_none; [done|]. intros s Hs. apply String.eqb_neq. rewrite (Hd t' l s); [done | left | done].
Qed.

Lemma insert_usage_all t l : forallb usage_fits l = true -> insert_usage t l = (insert_rows t l, true).
Proof.
  revert t. induction l as [|u l IH]; intros t; [done|]. cbn. intros [-> Hl]%andb_true_iff. by rewrite IH.
Qed.

Lemma insert_usage_complete t l t' : insert_usage t l = (t', true) -> t' = insert_rows t l /\ forallb usage_fits l = true.
Proof.
  revert t. induction l as [|u l IH]; intros t; [by intros [= <-]|]. cbn. destruct (usage_fits u); [|done]. apply IH.
Qed.

(** ** Ingestion is all or nothing *)

Definition tables_ok (s : SqliteObservabilityStore) : Prop :=
  table_ok (span_rows s) /\ table_ok (usage_rows s) /\ table_ok (audit_rows s).

(** The tables with a batch added. *)
Definition with_items (s : SqliteObservabilityStore) (items : list item) : SqliteObservabilityStore :=
  with_tables s (insert_rows (span_rows s) (mjoin (dvalues (foldl add_span [] (spans_of items)))))
                (insert_rows (usage_rows s) (usage_of items)) (insert_rows (audit_rows s) (audit_of items)) false.

Lemma sql_ingest_ok s events now n s' :
  sql_ingest s events now = (Ok n, s') ->
  exists items, normalized events = Ok items /\ n = Z.of_nat (length events) /\ transaction_open s = false /\
    forallb usage_fits (usage_of items) = true /\
    s' = with_tables s
           (bound span_received_at (now - retention_seconds s) (max_records s) (span_rows (with_items s items)))
           (bound usage_received_at (now - retention_seconds s) (max_records s) (usage_rows (with_items s items)))
           (bound audit_received_at (now - retention_seconds s) (max_records s) (audit_rows (with_items s items))) false.
Proof.
  unfold sql_ingest, ingest. destruct (normalized events) as [items|e]; [|done]. cbn [spans usage audit].
  unfold sql_write. destruct (transaction_open s) eqn:Ho; [done|].
  change (usage new_store ++ usage_of items)%list with (usage_of items).
  change (audit new_store ++ audit_of items)%list with (audit_of items).
  destruct (insert_usage _ _) as [t complete] eqn:Eu. destruct complete; [|by destruct (memory_connection s)].
  apply insert_usage_complete in Eu as [-> Hfit]. intros [= <- <-]. by exists items.
Qed.

Lemma sql_ingest_err s events now e s' :
  sql_ingest s events now = (Err e, s') -> s' = s \/ (memory_connection s = true /\ e = OverflowError).
Proof.
  unfold sql_ingest. destruct (ingest new_store events) as [[n|e1] v]; [|by intros [= _ <-]; left].
  unfold sql_write. destruct (transaction_open s); [by intros [= _ <-]; left|].
  destruct (insert_usage _ _) as [t complete]. destruct complete; [done|].
  destruct (memory_connection s); intros [= <- <-]; [by right | by left].
Qed.

Lemma tables_ok_items s items : tables_ok s -> tables_ok (with_items s items).
Proof. intros (? & ? & ?). split_and!; by apply table_ok_inserts. Qed.

(** A run of ingestions, each with the clock reading of its cutoff. *)
Definition run (s : SqliteObservabilityStore) (ops : list (batch * Q)) : SqliteObservabilityStore :=
  foldl (fun s o => (sql_ingest s o.1 o.2).2) s ops.

Definition bounded (s : SqliteObservabilityStore) : Prop :=
  length (rows (span_rows s)) <= max_records s /\ length (rows (usage_rows s)) <= max_records s /\
  length (rows (audit_rows s)) <= max_records s.

(** A store on a file between two calls. *)
Definition file_ok (s : SqliteObservabilityStore) : Prop :=
  tables_ok s /\ bounded s /\ memory_connection s = false /\ transaction_open s = false.

Lemma file_ok_ingest s events now : file_ok s -> file_ok (sql_ingest s events now).2.
Proof.
  intros (Ht & Hb & Hm & Ho). destruct (sql_ingest s events now) as [[n|e] s'] eqn:E; cbn [snd].
  - apply sql_ingest_ok in E as (items & _ & _ & _ & _ & ->). apply (tables_ok_items s items) in Ht as (H1 & H2 & H3).
    refine (conj _ (conj _ (conj Hm eq_refl))).
    + split; [|split]; by apply table_ok_bound.
    + split; [|split]; apply (fun t H => proj1 (bound_newest _ (now - retention_seconds s) (max_records s) t H)); done.
  - destruct (sql_ingest_err _ _ _ _ _ E) as [->|[? _]]; [done | congruence].
Qed.

Lemma file_ok_new path retention max s :
  sql_new_store path retention max = Ok s -> path <> ":memory:" -> file_ok s.
Proof.
  unfold sql_new_store. destruct (_ || _); [done|]. intros [= <-] Hp. refine (conj _ (conj _ (conj _ eq_refl))).
  - split; [|split]; apply table_ok_empty.
  - split; [|split]; cbn; lia.
  - by apply String.eqb_neq.
Qed.

(** Whatever has been pushed to a store on disk, another batch is either
    refused and leaves the store exactly as it was, or stored as a whole with the
    three tables then within their limit, holding no expired row and having lost
    only expired rows and, when full, the oldest. *)
Theorem ingest_all_or_nothing path retention max s0 ops events now :
  sql_new_store path retention max = Ok s0 -> path <> ":memory:" ->
  let s := run s0 ops in
  match sql_ingest s events now with
  | (Err _, s') => s' = s
  | (Ok n, s') =>
      n = Z.of_nat (length events) /\
      exists items, normalized events = Ok items /\
        (rows (span_rows (with_items s items))).*2 ≡ₚ ((rows (span_rows s)).*2 ++ spans_of items)%list /\
        (rows (usage_rows (with_items s items))).*2 = ((rows (usage_rows s)).*2 ++ usage_of items)%list /\
        (rows (audit_rows (with_items s items))).*2 = ((rows (audit_rows s)).*2 ++ audit_of items)%list /\
        newest_kept span_received_at (now - retention) (Z.to_nat max) (span_rows (with_items s items)) (span_rows s') /\
        newest_kept usage_received_at (now - retention) (Z.to_nat max) (usage_rows (with_items s items)) (usage_rows s') /\
        newest_kept audit_received_at (now - retention) (Z.to_nat max) (audit_rows (with_items s items)) (audit_rows s')
  end.
Proof.
  intros Hs0 Hp s. assert (Hs : file_ok s /\ retention_seconds s = retention /\ max_records s = Z.to_nat max).
  { apply (foldl_invariant (fun s => file_ok s /\ retention_seconds s = retention /\ max_records s = Z.to_nat max)).
    - split; [by eapply file_ok_new|]. revert Hs0. unfold sql_new_store. destruct (_ || _); [done|]. by intros [= <-].
    - intros x [ev nw] (Hx & Hr & Hm). split; [by apply file_ok_ingest|]. cbn [fst snd].
      destruct (sql_ingest x ev nw) as [[n|e] x'] eqn:E; cbn [snd].
      + by apply sql_ingest_ok in E as (items & _ & _ & _ & _ & ->).
      + destruct (sql_ingest_err _ _ _ _ _ E) as [->|[Hc _]]; [done|]. destruct Hx as (_ & _ & ? & _). congruence. }
  destruct Hs as ((Ht & _ & Hm & _) & Hr & Hmax). destruct (sql_ingest s events now) as [[n|e] s'] eqn:E.
  - apply sql_ingest_ok in E as (items & Hn & -> & _ & _ & ->). split; [done|]. exists items. split; [done|].
    apply (tables_ok_items s items) in Ht as (H1 & H2 & H3). cbn in H1, H2, H3.
    cbn [span_rows usage_rows audit_rows with_items with_tables]. rewrite !insert_rows_eq, Hr, Hmax. split_and!; try done.
    + by rewrite (adds_perm _ _ traces_ok_nil).
    + by apply bound_newest.
    + by apply bound_newest.
    + by apply bound_newest.
  - destruct (sql_ingest_err _ _ _ _ _ E) as [->|[Hc _]]; [done | congruence].
Qed.

(** ** The two stores give the same answers *)

Definition mem_run (ops : list (batch * Q)) : InMemoryObservabilityStore :=
  foldl (fun m o => (ingest m o.1).2) new_store ops.

(** The answers to the ingestions of a run. *)
Fixpoint mem_answers (m : InMemoryObservabilityStore) (ops : list (batch * Q)) : list (result obs_error Z) :=
  match ops with
  | [] => []
  | o :: ops => let '(r, m) := ingest m o.1 in r :: mem_answers m ops
  end.

Fixpoint sql_answers (s : SqliteObservabilityStore) (ops : list (batch * Q)) : list (result obs_error Z) :=
  match ops with
  | [] => []
  | o :: ops => let '(r, s) := sql_ingest s o.1 o.2 in r :: sql_answers s ops
  end.

(** The SQLite store holds what the in-memory store holds; [n] events so far,
    the readings of their clock between [t0] and [last]. *)
Record same (m : InMemoryObservabilityStore) (q : SqliteObservabilityStore) (t0 last : Q) (n : nat) : Prop := {
  same_ok : tables_ok q;
  same_traces_ok : traces_ok (spans m);
  same_closed : transaction_open q = false;
  same_usage : (rows (usage_rows q)).*2 = usage m;
  same_audit : (rows (audit_rows q)).*2 = audit m;
  same_trace : forall t, filterb (in_trace t) (rows (span_rows q)).*2 = default [] (dget t (spans m));
  same_spans : (rows (span_rows q)).*2 ≡ₚ mjoin (dvalues (spans m));
  same_order : StronglySorted Qle (audit_received_at <$> audit m);
  same_before : forall a, a ∈ audit m -> (audit_received_at a <= last)%Q;
  same_after : (forall s, s ∈ (rows (span_rows q)).*2 -> (t0 <= span_received_at s)%Q) /\
               (forall u, u ∈ usage m -> (t0 <= usage_received_at u)%Q) /\
               (forall a, a ∈ audit m -> (t0 <= audit_received_at a)%Q);
  same_clock : (t0 <= last)%Q;
  same_size : length (rows (span_rows q)) <= n /\ length (usage m) <= n /\ length (audit m) <= n;
  same_callers : forall s, s ∈ (rows (span_rows q)).*2 -> caller_agent s <> Some ""
}.

Lemma elem_spans_of s items : s ∈ spans_of items <-> Span s ∈ items.
Proof. unfold spans_of. rewrite list_elem_of_omap. split; [intros ([| |] & Hi & He); by simplify_eq | by exists (Span s)]. Qed.
Lemma elem_usage_of u items : u ∈ usage_of items <-> Usage u ∈ items.
Proof. unfold usage_of. rewrite list_elem_of_omap. split; [intros ([| |] & Hi & He); by simplify_eq | by exists (Usage u)]. Qed.
Lemma elem_audit_of a items : a ∈ audit_of items <-> Audit a ∈ items.
Proof. unfold audit_of. rewrite list_elem_of_omap. split; [intros ([| |] & Hi & He); by simplify_eq | by exists (Audit a)]. Qed.

Lemma audit_times_sublist items : audit_received_at <$> audit_of items `sublist_of` item_time <$> items.
Proof. induction items as [|[s|u|a] items IH]; cbn in *; by constructor. Qed.

Lemma sorted_sublist (l k : list Q) : l `sublist_of` k -> StronglySorted Qle k -> StronglySorted Qle l.
Proof.
  induction 1 as [|x l k Hs IH|x l k Hs IH]; [done|..]; intros [Hk Hx]%StronglySorted_inv; [|by apply IH].
  constructor; [by apply IH|]. rewrite Forall_forall in *. intros y Hy. apply Hx. by eapply sublist_subseteq.
Qed.

Lemma sorted_app_Qle l1 l2 (t : Q) :
  StronglySorted Qle l1 -> StronglySorted Qle l2 -> (forall x, x ∈ l1 -> (x <= t)%Q) -> (forall x, x ∈ l2 -> (t <= x)%Q) ->
  StronglySorted Qle (l1 ++ l2).
Proof.
  intros H1 H2 Ht1 Ht2. induction H1 as [|x l1 Hl IH Hx]; [done|]. cbn. constructor.
  - apply IH. intros y Hy. apply Ht1. by right.
  - apply Forall_app. split; [done|]. apply Forall_forall. intros y Hy. specialize (Ht1 x ltac:(left)).
    specialize (Ht2 y Hy). lra.
Qed.

Context (py_str_text : forall j, str_truthy (py_str j) = true).

Lemma text_if_truthy j : text_if j <> Some "".
Proof.
  unfold text_if. destruct j as [j|]; [|done]. destruct (py_truthy j) eqn:E; [|done]. intros [= He].
  destruct j; cbn in *; try by rewrite He in E. all: by match type of He with py_str ?j = _ => pose proof (py_str_text j); rewrite He in * end.
Qed.

Lemma normalized_callers events items s : normalized events = Ok items -> s ∈ spans_of items -> caller_agent s <> Some "".
Proof.
  unfold normalized. destruct (Nat.ltb _ _); [done|]. intros H%mapM_ok Hs%elem_spans_of.
  apply list_elem_of_lookup_1 in Hs as [i Hi]. destruct (Forall2_lookup_r _ _ _ _ _ H Hi) as ([e now] & _ & Hn). cbn in Hn.
  unfold normalize in Hn. destruct e as [| | | | | |d]; try done. result_inv.
  destruct (missing d); [|done]. destruct (String.eqb _ "span"); [|destruct (String.eqb _ "usage"); result_inv; done].
  result_inv. subst s. apply text_if_truthy.
Qed.

Lemma same_new path retention max q t0 : sql_new_store path retention max = Ok q -> same new_store q t0 t0 0.
Proof.
  unfold sql_new_store. destruct (_ || _); [done|]. intros [= <-]. constructor; cbn; try done.
  - split; [|split]; apply table_ok_empty.
  - apply traces_ok_nil.
  - constructor.
  - by intros ? ?%elem_of_nil.
  - split_and!; by intros ? ?%elem_of_nil.
  - apply Qle_refl.
  - by intros ? ?%elem_of_nil.
Qed.

Lemma bound_same {A} (when_ : A -> Q) cutoff max t t0 :
  (cutoff <= t0)%Q -> (forall a, a ∈ (rows t).*2 -> (t0 <= when_ a)%Q) -> length (rows t) <= max -> bound when_ cutoff max t = t.
Proof.
  intros Hc Ht Hl. apply bound_id; [|done]. intros r Hr. assert (t0 <= when_ r.2)%Q; [|lra]. apply Ht, list_elem_of_fmap. by exists r.
Qed.

(** A batch whose readings follow on, within retention, room and 64 bits, is
    taken in by both stores alike. *)
Lemma same_ingest m q t0 last n events now :
  same m q t0 last n -> ascending last events.*2 -> (now - retention_seconds q <= t0)%Q ->
  n + length events <= max_records q ->
  (forall items, normalized events = Ok items -> forallb usage_fits (usage_of items) = true) ->
  (sql_ingest q events now).1 = (ingest m events).1 /\
  same (ingest m events).2 (sql_ingest q events now).2 t0 (List.last events.*2 last) (n + length events) /\
  retention_seconds (sql_ingest q events now).2 = retention_seconds q /\
  max_records (sql_ingest q events now).2 = max_records q.
Proof.
  intros [Hok Htr Hc Hu Ha Ht Hp Ho Hb Haf Hcl Hn Hcall] Hasc Hret Hmax Hfit.
  destruct (ascending_bounds _ _ Hasc) as [Hlast Htimes].
  unfold sql_ingest, ingest. destruct (normalized events) as [items|e] eqn:En; cbn [fst snd].
  2: { split_and!; try done. constructor; try done; [intros a Hin; specialize (Hb a Hin); lra | lra|].
       destruct Hn as (? & ? & ?). split_and!; lia. }
  specialize (Hfit items eq_refl). unfold sql_write. rewrite Hc. cbn [spans usage audit new_store app].
  rewrite insert_usage_all by done. pose proof (normalized_times _ _ En) as Hit. pose proof (normalized_length _ _ En) as Hlen.
  pose proof (items_length items) as Hil.
  assert (Hall : forall i, i ∈ items -> (last <= item_time i)%Q /\ (item_time i <= List.last events.*2 last)%Q).
  { intros i Hi. apply Htimes. rewrite <-Hit. apply list_elem_of_fmap. by exists i. }
  set (new := mjoin (dvalues (foldl add_span [] (spans_of items)))).
  assert (Hnew : new ≡ₚ spans_of items) by (unfold new; by rewrite (adds_perm _ _ traces_ok_nil)).
  destruct Hok as (Ok1 & Ok2 & Ok3), Hn as (N1 & N2 & N3), Haf as (A1 & A2 & A3).
  assert (Hspan : forall s, s ∈ (rows (insert_rows (span_rows q) new)).*2 ->
            (t0 <= span_received_at s)%Q /\ caller_agent s <> Some "").
  { intros s. rewrite insert_rows_eq. intros [Hs|Hs]%elem_of_app; [split; auto|]. rewrite Hnew in Hs. split.
    - apply elem_spans_of in Hs. destruct (Hall _ Hs). cbn in *. lra.
    - by eapply normalized_callers. }
  assert (Huse : forall u, u ∈ (usage m ++ usage_of items)%list -> (t0 <= usage_received_at u)%Q).
  { intros u [Hs|Hs%elem_usage_of]%elem_of_app; [auto|]. destruct (Hall _ Hs). cbn in *. lra. }
  assert (Haud : forall a, a ∈ (audit m ++ audit_of items)%list ->
            (t0 <= audit_received_at a)%Q /\ (audit_received_at a <= List.last events.*2 last)%Q).
  { intros a [Hs|Hs%elem_audit_of]%elem_of_app; [specialize (A3 a Hs); specialize (Hb a Hs); split; lra|].
    destruct (Hall _ Hs). cbn in *. split; lra. }
  assert (Hl1 : length (rows (insert_rows (span_rows q) new)) <= n + length events).
  { rewrite <-(length_fmap snd), insert_rows_eq, length_app, length_fmap. assert (length new = length (spans_of items)) as -> by by rewrite Hnew. lia. }
  assert (Hl2 : forall (t : table UsageRecord), (rows t).*2 = usage m -> length (rows (insert_rows t (usage_of items))) <= max_records q).
  { intros t He. rewrite <-(length_fmap snd), insert_rows_eq, He, length_app. lia. }
  assert (Hl3 : length (rows (insert_rows (audit_rows q) (audit_of items))) <= max_records q).
  { rewrite <-(length_fmap snd), insert_rows_eq, Ha, length_app. lia. }
  rewrite (bound_same span_received_at _ _ _ t0 Hret (fun s Hin => proj1 (Hspan s Hin)) (Nat.le_trans _ _ _ Hl1 Hmax)).
  rewrite (bound_same usage_received_at _ _ _ t0 Hret) by first [by apply Hl2 | intros u; rewrite insert_rows_eq, Hu; apply Huse].
  rewrite (bound_same audit_received_at _ _ _ t0 Hret) by first [exact Hl3 | intros a; rewrite insert_rows_eq, Ha; intros Hin; by apply Haud].
  cbn [fst snd]. split_and!; try done. constructor; cbn [with_tables transaction_open span_rows usage_rows audit_rows spans usage audit].
  - split; [|split]; by apply table_ok_inserts.
  - by apply traces_ok_adds.
  - done.
  - by rewrite insert_rows_eq, Hu.
  - by rewrite insert_rows_eq, Ha.
  - intros t. rewrite insert_rows_eq, List.filter_app, Ht, trace_add. f_equal. unfold new.
    rewrite filter_traces by apply traces_ok_adds, traces_ok_nil. by rewrite trace_add.
  - rewrite insert_rows_eq, Hp, Hnew. by rewrite adds_perm.
  - rewrite fmap_app. apply sorted_app_Qle with last; [done|..].
    + eapply sorted_sublist; [apply audit_times_sublist|]. rewrite Hit. by eapply ascending_sorted.
    + intros x (a & -> & Hin)%list_elem_of_fmap. by apply Hb.
    + intros x (a & -> & Hin%elem_audit_of)%list_elem_of_fmap. by apply (Hall _ Hin).
  - intros a Hin. by apply Haud.
  - split_and!; [intros s Hs; by apply Hspan | done | intros a Hin; by apply Haud].
  - lra.
  - rewrite !length_app. split_and!; lia.
  - intros s Hs. by apply Hspan.
Qed.

(** *** Queries *)

Lemma same_sql_trace m q t0 last n t : same m q t0 last n -> sql_trace q t = trace m t.
Proof.
  intros Hs. unfold sql_trace, trace. rewrite sort_older_stable.
  - f_equal. rewrite <-(same_trace _ _ _ _ _ Hs t). symmetry. exact (fmap_filterb snd (in_trace t) (rows (span_rows q))).
  - destruct (same_ok _ _ _ _ _ Hs) as ((Hi & _) & _). apply sorted_fmap, sorted_filterb. by apply (sorted_fmap fst).
Qed.

Lemma count_length (l : list TraceSpan) : foldl (fun n _ => n + 1)%Z 0%Z l = Z.of_nat (length l).
Proof. induction l as [|x l IH] using rev_ind; [done|]. rewrite foldl_app, length_app, IH. cbn. lia. Qed.

Lemma same_sql_topology m q t0 last n : same m q t0 last n -> sql_topology q = topology m.
Proof.
  intros Hs. unfold sql_topology, topology. rewrite (sort_group_fold edge _ _ str2_leb) with (f := fun l => Z.of_nat (length l)).
  - rewrite (filterb_ext sql_is_call is_call).
    + apply group_by_perm; [apply str2_leb_total | apply str2_leb_trans | apply str2_leb_antisym|..].
      * by rewrite (same_spans _ _ _ _ _ Hs).
      * intros k _. f_equal. by rewrite (same_spans _ _ _ _ _ Hs).
    + intros s Hin. pose proof (same_callers _ _ _ _ _ Hs s Hin) as Hne. unfold sql_is_call, is_call.
      destruct (caller_agent s) as [c|]; [|done]. by destruct c.
  - apply str2_leb_total.
  - apply str2_leb_trans.
  - apply str2_leb_antisym.
  - intros k _. by rewrite count_length.
Qed.

Lemma same_sql_audit m q t0 last n tenant limit : same m q t0 last n -> sql_audit_events q tenant limit = audit_events m tenant limit.
Proof.
  intros Hs. unfold sql_audit_events, audit_events. destruct (negb _); [done|]. do 2 f_equal.
  destruct (same_ok _ _ _ _ _ Hs) as (_ & _ & (Hi & _)). rewrite sort_newer_reverse.
  - rewrite fmap_reverse. f_equal. rewrite <-(same_audit _ _ _ _ _ Hs). symmetry. exact (fmap_filterb snd (of_tenant tenant) (rows (audit_rows q))).
  - apply sorted_fmap, sorted_filterb. by apply (sorted_fmap fst).
  - apply sorted_fmap, sorted_filterb.
    apply (sorted_fmap snd (fun a b => audit_received_at a <= audit_received_at b)%Q). rewrite (same_audit _ _ _ _ _ Hs).
    apply (sorted_fmap audit_received_at). exact (same_order _ _ _ _ _ Hs).
Qed.

(** *** Costs *)

(** An amount in whole micro-dollars. *)
Definition micro (q : Q) : Prop := exists z, (q == z # 1000000)%Q.

Lemma round6_proper q q' : (q == q')%Q -> round6 q = round6 q'.
Proof.
  intros He. unfold round6, round_to. assert (Hf : Qfloor (q * 1000000) = Qfloor (q' * 1000000)) by by rewrite He.
  rewrite Hf. assert (Hd : forall x y z : Q, (x == y)%Q -> (x - z <? 1 # 2)%clock = (y - z <? 1 # 2)%clock /\
    (1 # 2 <? x - z)%clock = (1 # 2 <? y - z)%clock).
  { intros x y z Hxy. split; apply eq_true_iff_eq; clock_prop; rewrite Hxy; reflexivity. }
  destruct (Hd (q * 1000000)%Q (q' * 1000000)%Q (inject_Z (Qfloor (q' * 1000000)))) as [-> ->]; [by rewrite He | done].
Qed.

Lemma round6_micro q : micro q -> (round6 q == q)%Q.
Proof.
  intros [z Hz]. rewrite (round6_proper _ _ Hz), Hz. unfold round6, round_to.
  assert (Hq : ((z # 1000000) * 1000000 == inject_Z z)%Q) by (unfold Qeq; cbn; lia).
  assert (Qfloor ((z # 1000000) * 1000000) = z) as -> by (rewrite Hq; apply Qfloor_Z).
  assert (((z # 1000000) * 1000000 - inject_Z z <? 1 # 2)%clock = true) as ->; [|reflexivity].
  clock_prop. rewrite Hq. lra.
Qed.

Lemma micro_add q q' : micro q -> micro q' -> micro (q + q').
Proof.
  intros [z Hz] [z' Hz']. exists (z + z')%Z. rewrite Hz, Hz'. unfold Qeq; cbn. lia.
Qed.

Lemma sum_Z_app l1 l2 : sum_Z (l1 ++ l2) = (sum_Z l1 + sum_Z l2)%Z.
Proof. unfold sum_Z. induction l1 as [|x l IH]; cbn; [done|]. rewrite IH. lia. Qed.
Lemma sum_Q_app l1 l2 : (sum_Q (l1 ++ l2) == sum_Q l1 + sum_Q l2)%Q.
Proof. unfold sum_Q. induction l1 as [|x l IH]; cbn; [ring|]. rewrite IH. ring. Qed.

Lemma add_usage_sum l :
  (forall u, u ∈ l -> micro (cost_usd u)) ->
  total_input (foldl add_usage zero l) = sum_Z (input_tokens <$> l) /\
  total_output (foldl add_usage zero l) = sum_Z (output_tokens <$> l) /\
  (total_cost (foldl add_usage zero l) == sum_Q (cost_usd <$> l))%Q /\ micro (sum_Q (cost_usd <$> l)) /\
  (l <> [] -> total_cost (foldl add_usage zero l) = round6 (sum_Q (cost_usd <$> l))).
Proof.
  induction l as [|u l IH] using rev_ind; intros Hm.
  - split_and!; try done. by exists 0%Z.
  - destruct IH as (Hi & Ho & Hc & Hmic & _); [intros; apply Hm, elem_of_app; by left|].
    rewrite foldl_app. cbn [foldl add_usage total_input total_output total_cost].
    rewrite !fmap_app, !sum_Z_app, Hi, Ho.
    change (sum_Z (input_tokens <$> [u])) with (input_tokens u + 0)%Z. change (sum_Z (output_tokens <$> [u])) with (output_tokens u + 0)%Z.
    change (cost_usd <$> [u]) with [cost_usd u].
    assert (Hs : (sum_Q ((cost_usd <$> l) ++ [cost_usd u]) == sum_Q (cost_usd <$> l) + cost_usd u)%Q)
      by (rewrite sum_Q_app; cbn; ring).
    assert (Hmu : micro (cost_usd u)) by (apply Hm, elem_of_app; right; left).
    assert (Hm' : micro (sum_Q (cost_usd <$> l) + cost_usd u)) by by apply micro_add.
    assert (Hr : round6 (total_cost (foldl add_usage zero l) + cost_usd u) = round6 (sum_Q ((cost_usd <$> l) ++ [cost_usd u])))
      by (apply round6_proper; by rewrite Hs, Hc).
    rewrite Hr. split_and!; [lia | lia | | | done].
    + rewrite (round6_proper _ _ Hs), Hs. by apply round6_micro.
    + destruct Hm' as [z Hz]. exists z. by rewrite Hs.
Qed.

Lemma sum_Z_perm l1 l2 : l1 ≡ₚ l2 -> sum_Z l1 = sum_Z l2.
Proof. unfold sum_Z. induction 1; cbn; lia. Qed.
Lemma sum_Q_perm l1 l2 : l1 ≡ₚ l2 -> (sum_Q l1 == sum_Q l2)%Q.
Proof. unfold sum_Q. induction 1 as [|x l k _ IH|x y l|l k m _ IH1 _ IH2]; cbn; [reflexivity|by rewrite IH|ring|by rewrite IH1]. Qed.

Lemma report_perm b1 b2 : b1 ≡ₚ b2 -> totals (report b1) = totals (report b2).
Proof.
  intros Hp. unfold report. cbn. unfold dvalues.
  rewrite (sum_Z_perm (total_input <$> b1.*2) (total_input <$> b2.*2)) by by rewrite Hp.
  rewrite (sum_Z_perm (total_output <$> b1.*2) (total_output <$> b2.*2)) by by rewrite Hp.
  by rewrite (round6_proper (sum_Q (total_cost <$> b1.*2)) (sum_Q (total_cost <$> b2.*2))) by (apply sum_Q_perm; by rewrite Hp).
Qed.

(** The report with its agents in order. *)
Definition ordered (r : cost_report) : cost_report := {| totals := totals r; by_agent := sort_items (by_agent r) |}.

Lemma same_sql_costs m q t0 last n tenant agent :
  same m q t0 last n -> (forall u, u ∈ usage m -> micro (cost_usd u)) ->
  sql_costs q tenant agent =
    if existsb sum_overflows (by_agent (costs m tenant agent)) then Err (OperationalError "integer overflow")
    else Ok (ordered (costs m tenant agent)).
Proof.
  intros Hs Hm. unfold sql_costs, costs. rewrite (same_usage _ _ _ _ _ Hs).
  set (us := filterb (wanted tenant agent) (usage m)).
  assert (Hg : sort_items (group_fold usage_agent add_usage zero us) = group_by usage_agent str_leb sql_bucket us).
  { apply (sort_group_fold usage_agent add_usage zero str_leb); [apply str_leb_total | apply str_leb_trans | apply str_leb_antisym|].
    intros k Hk. destruct (add_usage_sum (of_group usage_agent k us)) as (Hi & Ho & _ & _ & Hc).
    - intros u [[Hu _]%elem_of_filterb _]%elem_of_filterb. by apply Hm.
    - unfold sql_bucket. rewrite <-Hi, <-Ho, <-Hc by by apply of_group_nonempty. by destruct (foldl _ _ _). }
  rewrite <-Hg. assert (Hp : sort_items (group_fold usage_agent add_usage zero us) ≡ₚ group_fold usage_agent add_usage zero us)
    by apply sort_by_perm.
  assert (Hex : existsb sum_overflows (sort_items (group_fold usage_agent add_usage zero us)) =
                existsb sum_overflows (group_fold usage_agent add_usage zero us)).
  { apply eq_true_iff_eq. rewrite !existsb_elem. split; intros (b & Hb & Ho); exists b; (split; [|done]); [by rewrite <-Hp | by rewrite Hp]. }
  rewrite Hex. unfold ordered. rewrite <-(report_perm _ _ Hp).
  change (by_agent (report (group_fold usage_agent add_usage zero us))) with (group_fold usage_agent add_usage zero us).
  by destruct (existsb _ _).
Qed.

(** As long as the retention window covers the run, the tables have room,
    clocks do not go back and token counts fit 64 bits, the SQLite store and the
    in-memory store answer alike: to every ingestion, and to every query for a
    trace, the topology, the audit trail and, when amounts are whole
    micro-dollars, the costs (up to the order of agents, and except that SQLite
    fails on a sum beyond 64 bits). *)
Theorem observability_stores_agree path retention max q0 ops t0 :
  sql_new_store path retention max = Ok q0 ->
  ascending t0 (mjoin ((fun o : batch * Q => o.1.*2) <$> ops)) ->
  (forall o, o ∈ ops -> (o.2 - retention <= t0)%Q) ->
  sum_list (length <$> ops.*1) <= Z.to_nat max ->
  (forall o items, o ∈ ops -> normalized o.1 = Ok items -> forallb usage_fits (usage_of items) = true) ->
  let m := mem_run ops in
  let q := run q0 ops in
  sql_answers q0 ops = mem_answers new_store ops /\
  (forall t, sql_trace q t = trace m t) /\
  sql_topology q = topology m /\
  (forall tenant limit, sql_audit_events q tenant limit = audit_events m tenant limit) /\
  ((forall u, u ∈ usage m -> micro (cost_usd u)) -> forall tenant agent,
     sql_costs q tenant agent =
       if existsb sum_overflows (by_agent (costs m tenant agent)) then Err (OperationalError "integer overflow")
       else Ok (ordered (costs m tenant agent))).
Proof.
  intros Hnew Hasc Hret Hmax Hfit m q.
  assert (Hgen : exists last n, same m q t0 last n /\ sql_answers q0 ops = mem_answers new_store ops).
  { assert (Hq : retention_seconds q0 = retention /\ max_records q0 = Z.to_nat max).
    { unfold sql_new_store in Hnew. destruct (_ || _); [done|]. by injection Hnew as <-. }
    pose proof (same_new path retention max q0 t0 Hnew) as Hs. unfold m, q, mem_run, run. clear m q Hnew.
    assert (Hn : 0 + sum_list (length <$> ops.*1) <= Z.to_nat max) by done. revert Hn Hasc Hs. clear Hmax.
    generalize t0 at 1 3 as last. generalize 0 as n. generalize new_store as m. revert q0 Hq.
    induction ops as [|[ev now] ops IH]; intros q [Hr Hm] m n last Hn Hasc Hs; [by exists last, n|].
    cbn [foldl fst snd mem_answers sql_answers]. cbn in Hn, Hasc. apply ascending_app in Hasc as [Hasc1 Hasc2].
    destruct (same_ingest m q t0 last n ev now Hs Hasc1) as (He & Hs' & Hr' & Hm').
    - rewrite Hr. by apply (Hret (ev, now)); left.
    - rewrite Hm. lia.
    - intros items. apply (Hfit (ev, now)). by left.
    - destruct (ingest m ev) as [r1 m'], (sql_ingest q ev now) as [r2 q']. cbn [fst snd] in *. subst r2.
      destruct (IH ltac:(intros; apply Hret; by right) ltac:(intros o items Ho; apply Hfit; by right) q'
                 ltac:(split; congruence) m' (n + length ev) _ ltac:(lia) Hasc2 Hs') as (last' & n' & H1 & H2).
      exists last', n'. split; [done | by rewrite H2]. }
  destruct Hgen as (last & n & Hs & Hans). split_and!.
  - done.
  - intros t. by eapply same_sql_trace.
  - by eapply same_sql_topology.
  - intros tenant limit. by eapply same_sql_audit.
  - intros Hmic tenant agent. by eapply same_sql_costs.
Qed.

(** ** What the contract accepts is stored *)

Definition item_kind (i : item) : string := match i with Span _ => "span" | Usage _ => "usage" | Audit _ => "audit" end.
Definition item_trace (i : item) : string :=
  match i with Span s => span_trace s | Usage u => usage_trace u | Audit a => audit_trace a end.
Definition item_agent (i : item) : string :=
  match i with Span s => span_agent s | Usage u => usage_agent u | Audit a => audit_agent a end.

Definition dump_fields (e : ObservabilityEvent) : list (string * json) :=
  match model_dump e with JObj d => d | _ => [] end.

Lemma dget_app {V} k (l1 l2 : list (string * V)) :
  dget k (l1 ++ l2) = match dget k l1 with Some v => Some v | None => dget k l2 end.
Proof. induction l1 as [|[k' v] l1 IH]; [done|]. cbn. by case_decide. Qed.

(** The fields of the model are only where the model puts them. *)
Lemma dump_number e k :
  event_ok e = true -> memb k number_fields = true ->
  dget k (dump_fields e) =
    dget k (some_field "duration_ms" JFloat (ev_duration_ms e) ++ some_field "input_tokens" JInt (ev_input_tokens e) ++
            some_field "output_tokens" JInt (ev_output_tokens e) ++ some_field "cost_usd" JFloat (ev_cost_usd e))%list.
Proof.
  unfold event_ok. rewrite !andb_true_iff. intros ((((((((_ & _) & _) & Ht) & _) & _) & _) & _) & Hx) Hk.
  assert (Hno : forall l, memb k l = false -> forall (d : list (string * json)), forallb (fun x => memb x l) (dkeys d) = true -> dget k d = None).
  { intros l Hl d Hd. apply dget_None. intros Hin. rewrite forallb_elem in Hd. specialize (Hd k Hin). congruence. }
  apply memb_true in Hk. unfold dump_fields, model_dump. rewrite !dget_app.
  assert (dget k (prod_map id JStr <$> ev_texts e) = None) as ->.
  { apply dget_None. unfold dkeys. rewrite <-list_fmap_compose. intros ([k' v] & -> & Hin)%list_elem_of_fmap. cbn in Hk.
    rewrite forallb_elem in Ht. assert (Hk' : k' ∈ text_fields) by (apply memb_true, Ht, list_elem_of_fmap; by exists (k', v)).
    revert Hk Hk'. clear. unfold number_fields, text_fields.
    rewrite !elem_of_cons, !elem_of_nil. intros [->|[->|[->|[->|[]]]]] H; repeat (destruct H as [H|H]; [done|]); done. }
  assert (dget k (ev_extra e) = None) as ->.
  { apply dget_None. intros Hin. rewrite forallb_elem in Hx. specialize (Hx k Hin). apply negb_true_iff, memb_false in Hx.
    apply Hx. apply elem_of_app. right. apply elem_of_app. by right. }
  assert (dget k [("kind", JStr (ev_kind e)); ("trace_id", JStr (ev_trace_id e)); ("agent", JStr (ev_agent e))] = None) as ->.
  { revert Hk. clear. unfold number_fields. rewrite !elem_of_cons, elem_of_nil. intros [->|[->|[->|[->|[]]]]]; reflexivity. }
  by repeat case_match.
Qed.

Lemma normalize_dump e now :
  event_ok e = true ->
  exists i, normalize (model_dump e) now = Ok i /\ item_kind i = ev_kind e /\ item_trace i = ev_trace_id e /\
    item_agent i = ev_agent e /\ item_time i = now.
Proof.
  intros He. pose proof (dump_number e) as Hnum. specialize (fun k => Hnum k He).
  change (model_dump e) with (JObj (dump_fields e)) in *. unfold normalize.
  assert (Hkind : memb (ev_kind e) event_kinds = true) by (unfold event_ok in He; rewrite !andb_true_iff in He; tauto).
  change (dget "kind" (dump_fields e)) with (Some (JStr (ev_kind e))). unfold known_kind. rewrite Hkind.
  change (missing (dump_fields e)) with (@nil string). cbn [mbind result_bind].
  rewrite (Hnum "duration_ms" eq_refl), (Hnum "input_tokens" eq_refl), (Hnum "output_tokens" eq_refl), (Hnum "cost_usd" eq_refl).
  apply memb_true in Hkind. unfold event_kinds in Hkind. rewrite !elem_of_cons, elem_of_nil in Hkind.
  destruct Hkind as [->|[->|[->|[]]]]; cbn [String.eqb Ascii.eqb Bool.eqb].
  - destruct (ev_duration_ms e) as [q|]; cbn -[text_or].
    + eexists. split; [reflexivity|]. done.
    + destruct (ev_input_tokens e), (ev_output_tokens e), (ev_cost_usd e); cbn -[text_or]; eexists; (split; [reflexivity|]); done.
  - destruct (ev_duration_ms e), (ev_input_tokens e), (ev_output_tokens e), (ev_cost_usd e); cbn -[text_or]; eexists; (split; [reflexivity|]); done.
  - eexists; (split; [reflexivity|]); done.
Qed.

(** Every batch that passes the wire contract is accepted and stored whole:
    normalisation never fails on it, and each event becomes one item of its kind,
    trace and agent with its clock reading; SQLite answers alike unless a token
    count does not fit 64 bits. *)
Theorem contract_batches_are_stored parse_batch m payload clock now events :
  parse_batch payload = Some events -> forallb event_ok events = true -> length events <= max_events_per_batch ->
  exists items,
    Forall2 (fun e i => item_kind i = ev_kind e /\ item_trace i = ev_trace_id e /\ item_agent i = ev_agent e) events items /\
    ingest_events (S := InMemoryObservabilityStore) parse_batch m payload clock now =
      (Reply 200 (JObj [("accepted", JInt (Z.of_nat (length events)))]),
       {| spans := foldl add_span (spans m) (spans_of items); usage := (usage m ++ usage_of items)%list;
          audit := (audit m ++ audit_of items)%list |}) /\
    (forall q, transaction_open q = false -> forallb usage_fits (usage_of items) = true ->
       (ingest_events (S := SqliteObservabilityStore) parse_batch q payload clock now).1 =
       Reply 200 (JObj [("accepted", JInt (Z.of_nat (length events)))])).
Proof.
  intros Hp Hok Hlen. set (batch_ := imap (fun i e => (model_dump e, clock i)) events : batch).
  assert (Hn : exists items, normalized batch_ = Ok items /\
    Forall2 (fun e i => item_kind i = ev_kind e /\ item_trace i = ev_trace_id e /\ item_agent i = ev_agent e) events items).
  { unfold normalized, batch_. rewrite length_imap. destruct (Nat.ltb_spec max_events_per_batch (length events)); [lia|].
    clear Hlen Hp. revert clock batch_. induction events as [|e es IH]; intros clock batch_; [by exists []|].
    cbn in Hok. apply andb_true_iff in Hok as [He Hes].
    destruct (normalize_dump e (clock 0) He) as (i & Hi & H1 & H2 & H3 & _).
    destruct (IH Hes ltac:(cbn in *; lia) (clock ∘ S)) as (items & Hitems & Hall). exists (i :: items). split.
    - cbn [imap mapM fst snd]. rewrite Hi. cbn [mbind result_bind]. unfold compose in *. by rewrite Hitems.
    - by constructor. }
  destruct Hn as (items & Hn & Hall). exists items. split; [done|].
  assert (Hlb : length batch_ = length events) by apply length_imap.
  unfold ingest_events. rewrite Hp. fold batch_. split.
  - cbn [os_ingest memory_store]. unfold ingest. by rewrite Hn, Hlb.
  - intros q Hq Hfit. cbn [os_ingest sqlite_store]. unfold sql_ingest, ingest. rewrite Hn. cbn [spans usage audit new_store app].
    unfold sql_write. rewrite Hq, insert_usage_all by done. cbn. by rewrite Hlb.
Qed.

(** On the shared connection of [":memory:"] a batch that cannot be bound is
    refused half written: the transaction stays open, what was inserted is
    visible, and no later batch is accepted. *)
Lemma shared_connection_is_stuck s events items now ops :
  memory_connection s = true -> transaction_open s = false ->
  normalized events = Ok items -> forallb usage_fits (usage_of items) = false ->
  let s' := (sql_ingest s events now).2 in
  (sql_ingest s events now).1 = Err OverflowError /\
  (rows (span_rows s')).*2 ≡ₚ ((rows (span_rows s)).*2 ++ spans_of items)%list /\
  run s' ops = s' /\ forall events' now', exists e, (sql_ingest s' events' now').1 = Err e.
Proof.
  intros Hm Ho Hn Hfit s'. unfold s', sql_ingest, ingest. rewrite Hn. cbn [spans usage audit new_store app].
  unfold sql_write. rewrite Ho. destruct (insert_usage (usage_rows s) (usage_of items)) as [t complete] eqn:Ei.
  destruct complete; [apply insert_usage_complete in Ei as [_ Hc]; congruence|]. rewrite Hm. cbn [fst snd].
  set (s1 := with_tables _ _ _ _ true). split; [done|]. split.
  { cbn. rewrite insert_rows_eq. by rewrite (adds_perm _ _ traces_ok_nil). }
  assert (Hstuck : forall ev nw, (sql_ingest s1 ev nw).2 = s1 /\ exists e, (sql_ingest s1 ev nw).1 = Err e).
  { intros ev nw. unfold sql_ingest. destruct (ingest new_store ev) as [[n|e] v]; (split; [done | by eexists]). }
  split; [|intros ev nw; exact (proj2 (Hstuck ev nw))]. unfold run. induction ops as [|o ops IH]; [done|]. cbn [foldl].
  rewrite <-IH at 2. f_equal. exact (proj1 (Hstuck o.1 o.2)).
Qed.
End observability.

(** ** Examples *)

Definition usage_event (agent : string) (tokens : Z) (cost : Q) : json :=
  JObj [("kind", JStr "usage"); ("trace_id", JStr "t"); ("agent", JStr agent); ("tenant", JStr "acme");
        ("input_tokens", JInt tokens); ("cost_usd", JFloat cost)].
Definition span_event (trace caller agent : string) : json :=
  JObj [("kind", JStr "span"); ("trace_id", JStr trace); ("agent", JStr agent); ("caller_agent", JStr caller)].
Definition audit_event (agent : string) : json :=
  JObj [("kind", JStr "audit"); ("trace_id", JStr "t"); ("agent", JStr agent); ("action", JStr "call")].

Definition no_str (j : json) : string := "x".
Definition no_float (s : string) : option Q := None.
Definition no_int (s : string) : option Z := None.

(** Rounding the running total at every record: three calls of 0.4 micro-dollars
    cost nothing in memory and one micro-dollar in SQLite. *)
Example tiny_costs_vanish :
  let calls := [(usage_event "a" 1 (4 # 10000000), 1%Q); (usage_event "a" 1 (4 # 10000000), 2%Q);
                (usage_event "a" 1 (4 # 10000000), 3%Q)] in
  match sql_new_store "db" 100 10 with
  | Ok q =>
      Qeq_bool (total_cost (totals (costs (mem_run no_str no_float no_int [(calls, 3%Q)]) None None))) 0 = true /\
      match sql_costs (run no_str no_float no_int q [(calls, 3%Q)]) None None with
      | Ok r => Qeq_bool (total_cost (totals r)) (1 # 1000000)
      | Err _ => false
      end = true
  | Err _ => False
  end.
Proof. vm_compute. split; reflexivity. Qed.

Definition demo_ops : list (batch * Q) :=
  [([(span_event "t" "a" "b", 1%Q); (usage_event "b" 7 (5 # 1000), 2%Q); (audit_event "b", 2%Q)], 3%Q);
   ([(JNull, 4%Q)], 4%Q);
   ([(span_event "t" "a" "b", 5%Q); (usage_event "a" 1 (1 # 1000), 5%Q)], 6%Q)].

Lemma ingest_all_or_nothing_witness :
  exists s0 s', sql_new_store "db" 100 1 = Ok s0 /\
    sql_ingest no_str no_float no_int (run no_str no_float no_int s0 demo_ops) [(audit_event "c", 8%Q)] 9 = (Ok 1%Z, s') /\
    length (rows (span_rows s')) = 1 /\ length (rows (audit_rows s')) <= 1.
Proof.
  destruct (sql_new_store "db" 100 1) as [s0|e] eqn:E; [|discriminate E].
  pose proof (ingest_all_or_nothing no_str no_float no_int "db" 100 1 s0 demo_ops [(audit_event "c", 8%Q)] 9 E ltac:(discriminate)) as H.
  exists s0, (sql_ingest no_str no_float no_int (run no_str no_float no_int s0 demo_ops) [(audit_event "c", 8%Q)] 9).2.
  split; [reflexivity|].
  assert (Hok : (sql_ingest no_str no_float no_int (run no_str no_float no_int s0 demo_ops) [(audit_event "c", 8%Q)] 9).1 = Ok 1%Z /\
                length (rows (span_rows (sql_ingest no_str no_float no_int (run no_str no_float no_int s0 demo_ops) [(audit_event "c", 8%Q)] 9).2)) = 1)
    by (injection E as <-; split; vm_compute; reflexivity).
  cbv zeta in H. destruct (sql_ingest _ _ _ (run _ _ _ s0 demo_ops) _ 9) as [r s']. cbn [fst snd] in *.
  destruct Hok as [-> Hl]. split; [reflexivity|]. split; [exact Hl|].
  destruct H as (_ & items & _ & _ & _ & _ & _ & _ & (Hmax & _)). exact Hmax.
Defined.

Lemma observability_stores_agree_witness :
  exists q0, sql_new_store "db" 100 10 = Ok q0 /\
    sql_topology (run no_str no_float no_int q0 demo_ops) = [(("a", "b"), 2%Z)] /\
    topology (mem_run no_str no_float no_int demo_ops) = [(("a", "b"), 2%Z)] /\
    sql_answers no_str no_float no_int q0 demo_ops = mem_answers no_str no_float no_int new_store demo_ops.
Proof.
  destruct (sql_new_store "db" 100 10) as [q0|e] eqn:E; [|discriminate E]. exists q0. split; [reflexivity|].
  assert (Ht : topology (mem_run no_str no_float no_int demo_ops) = [(("a", "b"), 2%Z)]) by (vm_compute; reflexivity).
  destruct (observability_stores_agree no_str no_float no_int (fun _ => eq_refl) "db" 100 10 q0 demo_ops 1 E) as (Ha & _ & Htop & _).
  - vm_compute. repeat split; discriminate.
  - intros o Ho. repeat (apply elem_of_cons in Ho as [->|Ho]; [vm_compute; discriminate|]). by apply elem_of_nil in Ho.
  - vm_compute. lia.
  - intros o items Ho Hn. repeat (apply elem_of_cons in Ho as [->|Ho]; [vm_compute in Hn; first [discriminate Hn | injection Hn as <-; reflexivity]|]).
    by apply elem_of_nil in Ho.
  - split; [by rewrite Htop|]. by split.
Defined.

Definition demo_event : ObservabilityEvent :=
  {| ev_kind := "usage"; ev_trace_id := "t"; ev_agent := "a"; ev_texts := [("tenant", "acme")]; ev_duration_ms := None;
     ev_input_tokens := Some 3%Z; ev_output_tokens := None; ev_cost_usd := Some (1 # 4)%Q; ev_extra := [("model", JStr "m")] |}.

Lemma contract_batches_are_stored_witness :
  (@ingest_events _ (memory_store no_str no_float no_int) (fun _ => Some [demo_event]) new_store JNull
     (fun _ => 1%Q) 2).1 = Reply 200 (JObj [("accepted", JInt 1)]).
Proof.
  destruct (contract_batches_are_stored no_str no_float no_int (fun _ => Some [demo_event]) new_store JNull (fun _ => 1%Q) 2
              [demo_event] eq_refl eq_refl ltac:(vm_compute; lia)) as (items & _ & H & _).
  by rewrite H.
Defined.

End Observability.
