(* ===== verification/AdkBridge.v ===== *)
(** * The bridge to Google ADK: events, messages and tools

    The parts of [runtimes/google_adk/runtime.py] that translate between the
    program and Google ADK: model messages from ADK contents, what the events of
    a run say about pending tool calls and approvals, and the tool adapter that
    enforces the policy and the idempotency of side effects.  ADK's events are
    records with the fields the code reads; ADK itself is outside. *)

From Stdlib Require Import Ascii.
From S2P Require Import Prelude Json Identity Policy Resilience SideEffects Tools Definitions.
Import Identity Policy Resilience SideEffects Tools.
Local Open Scope string_scope.

Module AdkBridge.

(** ** Events *)

Record function_call : Type := {
  call_id : option string;
  call_name : string;
  call_args : list (string * json)
}.

Record function_response : Type := {
  response_id : option string;
  response_name : string;
  response_value : list (string * json)
}.

(** A part is text, a call or a response; the code allows all at once. *)
Record part : Type := {
  part_text : option string;
  part_call : option function_call;
  part_response : option function_response
}.

Record event : Type := {
  invocation_id : option string;
  author : option string;
  partial : bool;
  parts : list part;
  confirmations : list (string * json)   (** [actions.requested_tool_confirmations] *)
}.

Definition ADK_REQUEST_CONFIRMATION_NAME : string := "adk_request_confirmation".

Definition parts_text (l : list part) : string :=
  String.concat "" ((fun p => opt_or (part_text p) "") <$> l).
Definition event_text (e : event) : string := parts_text (parts e).

Definition calls_of (l : list part) : list function_call := omap part_call l.
Definition responses_of (l : list part) : list function_response := omap part_response l.

Definition optional_text (o : option string) : json := match o with Some s => JStr s | None => JNull end.

Section messages.
Context (dumps : json -> string).

(** A content: a role and its parts. *)
Definition content : Type := option string * list part.

Definition call_message (c : function_call) : json :=
  JObj [("id", optional_text (call_id c)); ("type", JStr "function");
        ("function", JObj [("name", JStr (call_name c)); ("arguments", JStr (dumps (JObj (call_args c))))])].

Definition response_message (r : function_response) : json :=
  JObj [("role", JStr "tool"); ("tool_call_id", optional_text (response_id r)); ("name", JStr (response_name r));
        ("content", JStr (dumps (JObj (response_value r))))].

(** [getattr(content, "role", "user")]: a role that is there and [None] stays. *)
Definition message_role (role : option string) : json :=
  match role with
  | Some r => if String.eqb r "model" then JStr "assistant" else JStr r
  | None => JNull
  end.

Definition content_messages (c : content) : list json :=
  let '(role, l) := c in
  match responses_of l, calls_of l with
  | _ :: _, _ => response_message <$> responses_of l
  | [], _ :: _ => [JObj [("role", JStr "assistant"); ("content", JStr (parts_text l));
                         ("tool_calls", JList (call_message <$> calls_of l))]]
  | [], [] => [JObj [("role", message_role role); ("content", JStr (parts_text l))]]
  end.

Definition messages_from_adk (contents : list content) : list json := contents ≫= content_messages.
End messages.

(** A model response as ADK parts; calls without an id get a fresh one. *)
Definition llm_parts (fresh : nat -> string) (delta : string) (response : option (string * list tool_request))
  : list part :=
  (if str_truthy delta then [{| part_text := Some delta; part_call := None; part_response := None |}] else []) ++
  match response with
  | None => []
  | Some (text, requests) =>
      (if str_truthy text then [{| part_text := Some text; part_call := None; part_response := None |}] else []) ++
      imap (fun i r =>
        {| part_text := None;
           part_call := Some {| call_id := Some (opt_or (request_id r) ("micro-agent-call-" ++ fresh i)%string);
                                call_name := request_name r;
                                call_args := match request_arguments r with JObj d => d | _ => [] end |};
           part_response := None |}) requests
  end.

Definition checkpoint_messages_from_adk_events (events : list event) : list json :=
  events ≫= fun e =>
    let text := event_text e in
    let author := opt_or (author e) "assistant" in
    let role := if memb author ["user"; "tool"] then author else "assistant" in
    if str_truthy text || memb role ["user"; "tool"]
    then [JObj [("role", JStr role); ("content", JStr text)]] else [].

Definition terminal_text (events : list event) (agent_name : string) : string :=
  match List.find (fun e => bool_decide (author e = Some agent_name) && str_truthy (event_text e)) (rev events) with
  | Some e => event_text e
  | None => ""
  end.

Definition tool_results_from_events (events : list event) : list json :=
  (fun r => JObj [("tool", JStr (response_name r)); ("output", JObj (response_value r));
                  ("tool_call_id", optional_text (response_id r))])
    <$> (events ≫= fun e => responses_of (parts e)).

(** ** Pending tool calls *)

(** The name under which ADK knows a tool: [re.sub(r"[^A-Za-z0-9_]", "_", name)]. *)
Definition word_char (c : Ascii.ascii) : bool := Definitions.is_alnum c || Ascii.eqb c "_"%char.
Fixpoint sanitize (s : string) : string :=
  match s with
  | EmptyString => EmptyString
  | String c s => String (if word_char c then c else "_"%char) (sanitize s)
  end.

(** [_adk_name] *)
Definition adk_name (n : string) : string :=
  let candidate := sanitize n in
  let candidate :=
    match candidate with
    | EmptyString => "agent_" ++ candidate
    | String c _ => if Definitions.is_alpha c || Ascii.eqb c "_"%char then candidate else "agent_" ++ candidate
    end in
  "micro_agent_" ++ candidate.

(** What the runtime knows of the tools of an agent: the declared side effects
    by name, and the adapters ADK holds with theirs. *)
Record agent_tools : Type := {
  tool_side_effects : list (string * string);
  adk_tools : list (string * ToolSideEffect)
}.

Definition adk_tool_is_replay_safe (a : agent_tools) (n : string) : bool :=
  let classification :=
    match dget n (tool_side_effects a) with
    | Some c => Some c
    | None => snd <$> List.find (fun d => String.eqb (sanitize d.1) n) (tool_side_effects a)
    end in
  match classification with
  | Some c => String.eqb c "read_only"
  | None =>
      match List.find (fun t => String.eqb t.1 n) (adk_tools a) with
      | Some t => bool_decide (t.2 = read_only)
      | None => false
      end
  end.

Definition of_invocation (id : string) (e : event) : bool := bool_decide (invocation_id e = Some id).

(** [if x.id:]: calls and responses without an id are passed over. *)
Definition call_entries (l : list part) : list (string * string) :=
  omap (fun c => match call_id c with
                 | Some i => if str_truthy i && negb (String.eqb (call_name c) ADK_REQUEST_CONFIRMATION_NAME)
                             then Some (i, call_name c) else None
                 | None => None
                 end) (calls_of l).
Definition response_ids (l : list part) : list string :=
  omap (fun r => match response_id r with Some i => if str_truthy i then Some i else None | None => None end)
    (responses_of l).

Definition recorded_calls (events : list event) (id : string) : list (string * string) :=
  dict_of (filterb (of_invocation id) events ≫= fun e => call_entries (parts e)).
Definition recorded_responses (events : list event) (id : string) : list string :=
  filterb (of_invocation id) events ≫= fun e => response_ids (parts e).

Definition adk_has_unsafe_pending_tool (a : agent_tools) (events : list event) (id : string) : bool :=
  existsb (fun c => negb (memb c.1 (recorded_responses events id)) && negb (adk_tool_is_replay_safe a c.2))
    (recorded_calls events id).

(** ** Approvals *)

(** [found and not answered] *)
Definition has_pending_confirmation (events : list event) (continuation : string) : bool :=
  let l := events ≫= parts in
  existsb (fun c => String.eqb (call_name c) ADK_REQUEST_CONFIRMATION_NAME &&
                    bool_decide (call_id c = Some continuation)) (calls_of l) &&
  negb (existsb (fun r => bool_decide (response_id r = Some continuation)) (responses_of l)).

(** The message that answers a confirmation. *)
Definition approval_response_content (continuation : string) (approved : bool) : content :=
  (Some "user",
   [{| part_text := None; part_call := None;
       part_response := Some {| response_id := Some continuation; response_name := ADK_REQUEST_CONFIRMATION_NAME;
                                response_value := [("confirmed", JBool approved)] |} |}]).

Section approvals.
(** [str] of a value that is not text. *)
Context (py_str : json -> string).

Definition text_of (j : option json) (default_ : string) : string :=
  match j with Some j => py_text py_str j | None => default_ end.

Record confirmation_details : Type := {
  details_continuation : string;
  details_tool : string;
  details_hint : json;
  details_payload : json
}.

(** One confirmation call of ADK: the id of the call that waits for it and the
    details, or nothing when the call is not a well-formed confirmation. *)
Definition generated_entry (c : function_call) : option (string * confirmation_details) :=
  if negb (String.eqb (call_name c) ADK_REQUEST_CONFIRMATION_NAME) then None
  else
    match dget "originalFunctionCall" (call_args c) with
    | Some (JObj original) =>
        match dget "id" original with
        | Some i =>
            if negb (py_truthy i) then None
            else
              match call_id c with
              | Some k =>
                  if negb (str_truthy k) then None
                  else
                    let confirmation :=
                      match dget "toolConfirmation" (call_args c) with Some (JObj d) => d | _ => [] end in
                    Some (py_text py_str i,
                          {| details_continuation := k; details_tool := text_of (dget "name" original) "";
                             details_hint := default (JStr "") (dget "hint" confirmation);
                             details_payload := default JNull (dget "payload" confirmation) |})
              | None => None
              end
        | None => None
        end
    | _ => None
    end.

Record approval_info : Type := {
  continuation_id : string;
  pending_tools : list string;
  approval_hints : list (string * json);
  approval_payloads : list (string * json)
}.

Definition requested_confirmations (events : list event) : list (string * json) :=
  dict_of (events ≫= confirmations).

Definition generated_confirmations (events : list event) : list (string * confirmation_details) :=
  dict_of (events ≫= fun e => omap generated_entry (calls_of (parts e))).

Definition approval_metadata (events : list event) : option approval_info :=
  let details := omap (fun i => dget i (generated_confirmations events)) (dkeys (requested_confirmations events)) in
  match details with
  | [] => None
  | d :: _ =>
      Some {| continuation_id := details_continuation d;
              pending_tools := details_tool <$> details;
              approval_hints := dict_of ((fun d => (details_tool d, details_hint d)) <$> details);
              approval_payloads := dict_of ((fun d => (details_tool d, details_payload d)) <$> details) |}
  end.
End approvals.

(** ** The tool adapter *)

Section adapter.
Context {S : Type} `{OperationStore S}.
(** The tool, the declared side effect, the policy of the evaluator if there is
    one, the identity bound to the invocation, whether there is a registry. *)
Context (tool_name_ : string) (metadata_side_effect : string) (side_effect : option string).
Context (evaluator : option AgentPolicy) (identity : option InvocationIdentity) (use_registry : bool).
(** [str] of a non-string value and the id of the operation of a call. *)
Context (py_str : json -> string).

Definition adapter_side_effect : ToolSideEffect :=
  normalize_tool_side_effect (Some (opt_or side_effect metadata_side_effect)).

(** What the tool does when it is executed. *)
Inductive execution : Type :=
  | Gives (output : json) (error : option string) (is_error : bool)
  | Throws (e : exn).

(** One call by ADK: its arguments, the confirmation it carries
    ([confirmed]), and what would happen. *)
Record adk_call : Type := {
  args : list (string * json);
  tool_confirmation : option bool;
  fresh_operation_id : string;
  execution_ : execution;
  record_error : option exn           (** [registry.record] raises *)
}.

(** What a call returned or raised, whether the tool was executed and whether a
    confirmation was requested. *)
Inductive answer : Type :=
  | Returns (j : json)
  | Raises (e : exn).
Record call_result : Type := { answer_ : answer; executed_ : bool; confirmation_requested : bool }.

Definition quiet (j : json) : call_result := {| answer_ := Returns j; executed_ := false; confirmation_requested := false |}.
Definition denied (why : string) : call_result := quiet (JObj [("error", JStr why)]).

(** [check_require_confirmation], which ADK asks before it resumes a call. *)
Definition check_require_confirmation : bool :=
  match evaluator with
  | None => false
  | Some p =>
      if bool_decide (adapter_side_effect = read_only) then false
      else requires_approval (evaluate_side_effect p identity tool_name_ None)
  end.

(** The policy part of [run_async]: an answer that ends the call, if any. *)
Definition policy_gate (c : adk_call) : option call_result :=
  match evaluator with
  | None => None
  | Some p =>
      let d := evaluate_tool p identity tool_name_ None in
      if negb (allowed d) then Some (denied ("denied by policy: " ++ reason d))
      else if bool_decide (adapter_side_effect = read_only) then None
      else
        let d := evaluate_side_effect p identity tool_name_ None in
        if allowed d then None
        else if requires_approval d then
          match tool_confirmation c with
          | None =>
              Some {| answer_ := Returns (JObj [("error", JStr "This tool call requires confirmation, please approve or reject.")]);
                      executed_ := false; confirmation_requested := true |}
          | Some false => Some (denied "denied by caller: approval denied")
          | Some true => None
          end
        else Some (denied ("denied by side-effect policy: " ++ reason d))
  end.

Definition adk_operation (c : adk_call) : Operation :=
  {| operation_id := fresh_operation_id c;
     idempotency_key :=
       match dget "idempotency_key" (args c) with
       | Some JNull | None => None
       | Some v => Some (py_text py_str v)
       end;
     SideEffects.tenant_id := bound_tenant identity;
     name := tool_name_; arguments := args c; retry_classification := retry_class adapter_side_effect |}.

Definition keeps_operation : bool := use_registry && negb (bool_decide (adapter_side_effect = read_only)).

(** [self._micro_tool.execute] and what is recorded of it. *)
Definition execute_tool (c : adk_call) (op : option Operation) (s : S) : call_result * S :=
  let ran a := {| answer_ := a; executed_ := true; confirmation_requested := false |} in
  let store_result (status : string) (out : json) (err : option string) (a : answer) : call_result * S :=
    match op with
    | None => (ran a, s)
    | Some op =>
        match record_error c with
        | Some e => (ran (Raises e), s)
        | None => (ran a, record s op {| result_id := operation_id op; status := status; output := out; error := err;
                                         was_deduplicated := false |})
        end
    end in
  match execution_ c with
  | Throws e =>
      if is_exception e then store_result "failed" JNull (Some (message e)) (Raises e) else (ran (Raises e), s)
  | Gives out err is_error =>
      store_result (if is_error then "failed" else "success") out err
        (Returns (if is_error
                  then JObj [("error", JStr (opt_or err ("tool " ++ quoted (sanitize tool_name_) ++ " failed")))]
                  else out))
  end.

Definition duplicate (prior : option OperationResult) : json :=
  JObj [("output", from_option output JNull prior); ("error", optional_text (prior_error prior));
        ("was_deduplicated", JBool true)].

(** [AdkToolAdapter.run_async] *)
Definition run_async (c : adk_call) (s : S) : call_result * S :=
  match policy_gate c with
  | Some r => (r, s)
  | None =>
      if keeps_operation then
        match claim s (adk_operation c) with
        | (false, prior, s) => (quiet (duplicate prior), s)
        | (true, _, s) => execute_tool c (Some (adk_operation c)) s
        end
      else execute_tool c None s
  end.

(** Calls one after the other: their results. *)
Fixpoint run_calls (cs : list adk_call) (s : S) : list call_result * S :=
  match cs with
  | [] => ([], s)
  | c :: cs => let '(r, s) := run_async c s in let '(l, s) := run_calls cs s in (r :: l, s)
  end.

(** *** What the adapter guarantees *)

(** The policy lets the call through, the confirmation included. *)
Definition call_permitted (c : adk_call) : Prop :=
  match evaluator with
  | None => True
  | Some p =>
      allowed (evaluate_tool p identity tool_name_ None) = true /\
      (adapter_side_effect = read_only \/
       allowed (evaluate_side_effect p identity tool_name_ None) = true \/
       (requires_approval (evaluate_side_effect p identity tool_name_ None) = true /\ tool_confirmation c = Some true))
  end.

Lemma policy_gate_none c : policy_gate c = None <-> call_permitted c.
Proof.
  unfold policy_gate, call_permitted. destruct evaluator as [p|]; [|done].
  destruct (allowed (evaluate_tool p identity tool_name_ None)); cbn [negb]; [|by split; [|intros [? _]]].
  case_bool_decide as Hro; [by split; [split; [|left]|]|].
  destruct (allowed (evaluate_side_effect p identity tool_name_ None)); [by split; [split; [|right; left]|]|].
  destruct (requires_approval _); [|by split; [|intros [_ [?|[?|[? _]]]]]].
  destruct (tool_confirmation c) as [[|]|]; split; try done.
  - intros _. split; [done|]. by right; right.
  - by intros [_ [?|[?|[_ ?]]]].
  - by intros [_ [?|[?|[_ ?]]]].
Qed.

Lemma execute_tool_executed c op s : executed_ (execute_tool c op s).1 = true.
Proof. unfold execute_tool. repeat case_match; done. Qed.

(** C13: The tool behind the adapter is executed exactly when the policy permits the
    call (a side effect that needs approval only with a confirmation that
    confirms it) and its operation was claimed; and a confirmation is requested
    only for a call that was not executed. *)
Theorem adk_tool_runs_iff_permitted c s :
  (executed_ (run_async c s).1 = true <->
   call_permitted c /\ (keeps_operation = false \/ (claim s (adk_operation c)).1.1 = true)) /\
  (confirmation_requested (run_async c s).1 = true -> executed_ (run_async c s).1 = false /\ (run_async c s).2 = s).
Proof.
  unfold run_async. destruct (policy_gate c) as [r|] eqn:Eg.
  - assert (executed_ r = false) as Her by (unfold policy_gate in Eg; repeat case_match; simplify_eq; done).
    cbn [fst snd]. rewrite Her. split; [|done]. split; [done|]. intros [Hp _]. apply policy_gate_none in Hp. congruence.
  - apply policy_gate_none in Eg. assert (Hc : forall op s, confirmation_requested (execute_tool c op s).1 = false)
      by (intros; unfold execute_tool; repeat case_match; done).
    destruct keeps_operation.
    + destruct (claim s (adk_operation c)) as [[[|] prior] s'] eqn:Ec; cbn [fst snd].
      * rewrite execute_tool_executed, Hc. split; [|done]. split; [by auto | done].
      * split; [|done]. split; [done|]. by intros [_ [?|?]].
    + rewrite execute_tool_executed, Hc. split; [|done]. split; [by auto | done].
Qed.

(** The key under which a call counts as a repetition. *)
Definition call_key (c : adk_call) : option string :=
  if keeps_operation then operation_key op_key (adk_operation c) else None.

Definition runs_key (k : string) (cr : adk_call * call_result) : bool :=
  bool_decide (call_key cr.1 = Some k) && executed_ cr.2.

Lemma execute_tool_lookup c op s k :
  usable s -> usable (execute_tool c (Some op) s).2 /\
  (is_Some (lookup_op s k) -> is_Some (lookup_op (execute_tool c (Some op) s).2 k)).
Proof.
  intros Hu. pose proof (fun r => record_usable s op r Hu). pose proof (fun r => record_keeps s op r k Hu).
  unfold execute_tool. split; intros; repeat case_match; cbn [snd]; auto.
Qed.

(** A key that is taken stays taken, and a call under a taken key is not run. *)
Lemma run_async_key c s k :
  usable s -> usable (run_async c s).2 /\
  (is_Some (lookup_op s k) -> is_Some (lookup_op (run_async c s).2 k)) /\
  (is_Some (lookup_op s k) -> call_key c = Some k -> executed_ (run_async c s).1 = false) /\
  (call_key c = Some k -> executed_ (run_async c s).1 = true -> is_Some (lookup_op (run_async c s).2 k)).
Proof.
  intros Hu. unfold run_async, call_key. destruct (policy_gate c) as [r|] eqn:Eg.
  { assert (executed_ r = false) as Her by (unfold policy_gate in Eg; repeat case_match; simplify_eq; done).
    split_and!; [done | done | done|]. cbn [fst]. congruence. }
  destruct keeps_operation.
  2: { split_and!; [| |done|done]; unfold execute_tool; intros; by repeat case_match. }
  set (op := adk_operation c). destruct (operation_key op_key op) as [k'|] eqn:Ek.
  - destruct (lookup_op s k') as [e|] eqn:El.
    + destruct (claim_taken s op k' e Hu Ek El) as (prior & -> & _). split_and!; done.
    + destruct (claim_free s op k' Hu Ek El) as (s' & -> & Hu' & Hs').
      destruct (execute_tool_lookup c op s' k Hu') as [Hu2 Hl].
      split_and!; [done| | |].
      * intros Hk. apply Hl. rewrite Hs'. case_decide; [by eexists | done].
      * intros [e He] [= <-]. congruence.
      * intros [= <-] _. apply Hl. rewrite Hs'. case_decide; [by eexists | done].
  - rewrite (claim_unkeyed s op Ek). destruct (execute_tool_lookup c op s k Hu). split_and!; done.
Qed.

Lemma keyed_runs k cs s :
  usable s ->
  let l := filterb (runs_key k) (zip cs (run_calls cs s).1) in
  length l <= 1 /\ (is_Some (lookup_op s k) -> l = []).
Proof.
  revert s. induction cs as [|c cs IH]; intros s Hu; [cbn; auto with lia|].
  cbn [run_calls]. destruct (run_async c s) as [r s1] eqn:Er. destruct (run_calls cs s1) as [l s2] eqn:El.
  cbn [zip fst zip_with List.filter]. destruct (run_async_key c s k Hu) as (Hu1 & Hkeep & Hno & Htakes). rewrite Er in *. cbn [fst snd] in *.
  specialize (IH s1 Hu1). rewrite El in IH. cbn [fst] in IH. destruct IH as [IH1 IH2].
  destruct (runs_key k (c, r)) eqn:Ek.
  - unfold runs_key in Ek. cbn [fst snd] in Ek. apply andb_true_iff in Ek as [Hk He]. apply bool_decide_eq_true in Hk.
    rewrite IH2 by auto. split; [cbn; lia|]. intros Hs. rewrite Hno in He by done. done.
  - split; [done|]. auto.
Qed.

(** Whatever calls ADK makes, and however they end, the tool is executed at most
    once under each idempotency key and tenant, and not at all under a key that
    was already claimed or completed, with any operation store that meets the
    interface. *)
Theorem adk_keyed_call_runs_once k cs s :
  usable s ->
  length (filterb (runs_key k) (zip cs (run_calls cs s).1)) <= 1 /\
  (is_Some (lookup_op s k) -> filterb (runs_key k) (zip cs (run_calls cs s).1) = []).
Proof. apply keyed_runs. Qed.
End adapter.

(** ** The messages of a request are complete *)

Section messages_lemmas.
Context (dumps : json -> string).

Definition role_of (m : json) : option json := match m with JObj d => dget "role" d | _ => None end.
Definition is_tool_message (m : json) : bool :=
  match role_of m with Some (JStr r) => String.eqb r "tool" | _ => false end.
Definition calls_in (m : json) : list json :=
  match m with JObj d => match dget "tool_calls" d with Some (JList l) => l | _ => [] end | _ => [] end.

(** Contents as ADK makes them: calls and responses are not in one content, and a
    content with the role of a tool holds responses. *)
Definition well_formed (c : content) : Prop :=
  (calls_of c.2 = [] \/ responses_of c.2 = []) /\ (c.1 = Some "tool" -> responses_of c.2 <> []).

Lemma content_messages_spec c :
  well_formed c ->
  filterb is_tool_message (content_messages dumps c) = response_message dumps <$> responses_of c.2 /\
  content_messages dumps c ≫= calls_in = call_message dumps <$> calls_of c.2.
Proof.
  destruct c as [role l]. intros [Hw Hr]. unfold content_messages. cbn [fst snd] in *.
  assert (Hresp : forall rs, filterb is_tool_message (response_message dumps <$> rs) = response_message dumps <$> rs /\
                             ((response_message dumps <$> rs) ≫= calls_in) = []).
  { induction rs as [|r rs [IH1 IH2]]; [done|]. cbn. split; [by f_equal | exact IH2]. }
  destruct (responses_of l) as [|r rs] eqn:Er; [destruct (calls_of l) as [|k ks]|].
  - split; [|done]. cbn [List.filter fmap list_fmap].
    assert (Hm : forall r t, is_tool_message (JObj [("role", r); ("content", JStr t)]) =
                             match r with JStr x => String.eqb x "tool" | _ => false end) by reflexivity.
    rewrite Hm. destruct role as [role|]; [|done]. unfold message_role. destruct (String.eqb role "model"); [done|].
    destruct (String.eqb_spec role "tool") as [->|]; [by destruct (Hr eq_refl) | done].
  - split; [done|]. cbn. by rewrite app_nil_r.
  - destruct Hw as [->|?]; [|done]. apply (Hresp (r :: rs)).
Qed.

(** Of a request ADK makes, every tool response reaches the model as one tool
    message and every tool call in one assistant message, each in its order. *)
Theorem adk_messages_complete contents :
  Forall well_formed contents ->
  filterb is_tool_message (messages_from_adk dumps contents) =
    response_message dumps <$> (contents ≫= fun c => responses_of c.2) /\
  messages_from_adk dumps contents ≫= calls_in = call_message dumps <$> (contents ≫= fun c => calls_of c.2).
Proof.
  induction 1 as [|c l Hc Hl [IH1 IH2]]; [done|]. destruct (content_messages_spec c Hc) as [H1 H2].
  unfold messages_from_adk in *. rewrite !bind_cons, List.filter_app, bind_app, !fmap_app. by rewrite H1, H2, IH1, IH2.
Qed.
End messages_lemmas.

(** A pause with two confirmations names both tools and one continuation; once
    that one is answered the other is still pending, and its id was never
    reported. *)
Definition confirmation_call (id original tool : string) : part :=
  {| part_text := None; part_response := None;
     part_call := Some {| call_id := Some id; call_name := ADK_REQUEST_CONFIRMATION_NAME;
                          call_args := [("originalFunctionCall", JObj [("id", JStr original); ("name", JStr tool)])] |} |}.
Definition pause_event : event :=
  {| invocation_id := Some "i"; author := Some "agent"; partial := false;
     parts := [confirmation_call "k1" "c1" "pay"; confirmation_call "k2" "c2" "mail"];
     confirmations := [("c1", JNull); ("c2", JNull)] |}.

Example only_first_confirmation_is_reported :
  (fun i => (continuation_id i, pending_tools i)) <$> approval_metadata (fun _ => "") [pause_event] =
    Some ("k1", ["pay"; "mail"]) /\
  has_pending_confirmation
    [pause_event; {| invocation_id := Some "j"; author := Some "user"; partial := false;
                     parts := (approval_response_content "k1" true).2; confirmations := [] |}] "k2" = true.
Proof. split; reflexivity. Qed.

(** ** Examples *)

(** Side effects of [pay-it] need approval. *)
Definition pay_policy : AgentPolicy :=
  {| allowed_skills := []; denied_skills := []; allowed_tools := ["pay-it"]; denied_tools := [];
     allowed_mcps := []; denied_mcps := []; model_restrictions := [];
     side_effect_policy := "allow"; approval_required := true; rules := [] |}.

Definition pay_call (confirmed : option bool) : adk_call :=
  {| args := [("idempotency_key", JStr "k")]; tool_confirmation := confirmed; fresh_operation_id := "op";
     execution_ := Gives (JStr "paid") None false; record_error := None |}.

(** Without a confirmation, denied, confirmed, and confirmed again. *)
Example pay_once :
  (fun r => (answer_ r, executed_ r)) <$>
    (run_calls "pay-it" "unsafe" None (Some pay_policy) None true (fun _ => "x")
       [pay_call None; pay_call (Some false); pay_call (Some true); pay_call (Some true)] empty_registry).1 =
  [(Returns (JObj [("error", JStr "This tool call requires confirmation, please approve or reject.")]), false);
   (Returns (JObj [("error", JStr "denied by caller: approval denied")]), false);
   (Returns (JStr "paid"), true);
   (Returns (JObj [("output", JStr "paid"); ("error", JNull); ("was_deduplicated", JBool true)]), false)].
Proof. reflexivity. Qed.

Lemma adk_tool_runs_iff_permitted_witness :
  executed_ (run_async "pay-it" "unsafe" None (Some pay_policy) None true (fun _ => "x") (pay_call None) empty_registry).1 = false /\
  (run_async "pay-it" "unsafe" None (Some pay_policy) None true (fun _ => "x") (pay_call None) empty_registry).2 = empty_registry.
Proof.
  apply (adk_tool_runs_iff_permitted "pay-it" "unsafe" None (Some pay_policy) None true (fun _ => "x") (pay_call None) empty_registry).
  reflexivity.
Defined.

Lemma adk_keyed_call_runs_once_witness :
  filterb (runs_key (S:=OperationRegistry) "pay-it" "unsafe" None None true (fun _ => "x") "k")
    (zip [pay_call (Some true)]
       (run_calls "pay-it" "unsafe" None (Some pay_policy) None true (fun _ => "x") [pay_call (Some true)]
          {| completed := []; in_progress := [("k", "other")] |}).1) = [].
Proof.
  apply (@adk_keyed_call_runs_once OperationRegistry OperationRegistry_store "pay-it" "unsafe" None (Some pay_policy) None true (fun _ => "x") "k" [pay_call (Some true)]
           {| completed := []; in_progress := [("k", "other")] |} I).
  eexists. reflexivity.
Defined.

Lemma adk_messages_complete_witness :
  filterb is_tool_message (messages_from_adk (fun _ => "{}")
    [(Some "user", [{| part_text := Some "hi"; part_call := None; part_response := None |}]);
     approval_response_content "k" true]) =
  [JObj [("role", JStr "tool"); ("tool_call_id", JStr "k"); ("name", JStr ADK_REQUEST_CONFIRMATION_NAME);
         ("content", JStr "{}")]].
Proof.
  rewrite (proj1 (adk_messages_complete (fun _ => "{}")
    [(Some "user", [{| part_text := Some "hi"; part_call := None; part_response := None |}]);
     approval_response_content "k" true] ltac:(repeat first [apply List.Forall_cons | apply List.Forall_nil]; (split; [left; reflexivity | intros Hr; discriminate Hr])))).
  reflexivity.
Defined.

End AdkBridge.
