(* ===== verification/GoogleAdk.v ===== *)
(** * The Google ADK runtime: one invocation

    [GoogleAdkRuntime._invoke], [_restore_adk_checkpoint],
    [_checkpoint_failed_adk_invocation] and [_auto_store] of
    [runtimes/google_adk/runtime.py].  ADK's runner is a parameter: what it is
    given decides the events it yields, the exception it ends with and what it
    does to the session service.  The service is any that meets the interface
    [SessionService], the checkpoint store any [CheckpointStore]; every operation
    of the service and of the store may raise.  Spans, metrics, logs and the deadline around the
    run (a cancellation of the runner like any other) are left out. *)

From Stdlib Require Import Ascii.
From stdpp Require Import pretty.
From S2P Require Import Prelude Json Identity Resilience Invocation SideEffects Tools Session Checkpoint AgentLoop Memory AdkBridge.
Import Resilience AgentLoop Checkpoint AdkBridge.
Local Open Scope string_scope.

Module GoogleAdk.

(** ** The session service *)

Definition adk_session : Type := list event * list (string * json).

(** What the runtime relies on: a session that was created under a valid id is
    there and empty, an event that is new goes to its end, and reading gives what
    the service holds. *)
Class SessionService (SS : Type) : Type := {
  get_session : string -> call SS exn (option adk_session);
  create_session : string -> list (string * json) -> call SS exn unit;
  delete_session : string -> call SS exn unit;
  append_event : string -> event -> call SS exn unit;
  service_ok : SS -> Prop;
  valid_id : string -> Prop;
  get_kept s sid : valid_id sid -> service_ok s -> service_ok (get_session sid s).2;
  create_kept s sid st : valid_id sid -> service_ok s -> service_ok (create_session sid st s).2;
  delete_kept s sid : valid_id sid -> service_ok s -> service_ok (delete_session sid s).2;
  append_kept s sid e : valid_id sid -> service_ok s -> service_ok (append_event sid e s).2;
  holds : SS -> string -> adk_session -> Prop;
  holds_get s sid x : valid_id sid -> service_ok s -> holds s sid x -> exists s', get_session sid s = (Ok (Some x), s');
  created s sid st s' : valid_id sid -> service_ok s -> create_session sid st s = (Ok tt, s') -> holds s' sid ([], st);
  appended s sid e s' evs st : valid_id sid -> service_ok s -> holds s sid (evs, st) ->
    append_event sid e s = (Ok tt, s') -> partial e = false -> e ∉ evs -> exists st', holds s' sid (evs ++ [e], st')%list
}.

Section invocation.
Context {SS : Type} `{SessionService SS}.
Context {C : Type} `{CheckpointStore C}.

(** [event.model_dump(mode="json")], [Event.model_validate]; [json.dumps]. *)
Context (dump_event : event -> json) (load_event : json -> option event) (dumps : json -> string).
(** [str] of a value that is not text. *)
Context (py_str : json -> string).

(** ADK's runner: given the invocation id and the new message. *)
Record run_kwargs : Type := { run_session : string; run_invocation : option string; new_message : option content }.
Context (runner : SS -> run_kwargs -> list event * option exn * SS).

(** The agent and the configuration of the runtime. *)
Context (agent_id agent_name : string) (tools : agent_tools).
Context (has_checkpoints : bool) (tenant : option string).
(** What adding the session to memory raises, if it does; the knowledge context
    of an input and its counts; the session id that [uuid4] gives. *)
Context (auto_store : SS -> string -> option exn).
Context (knowledge : list (string * json) -> string * list (string * Z)).
Context (fresh_session_id : string).

(** What reading the checkpoint store raises, if it does; and what a save or a delete
    raises that is to turn one content into another, with whether it took effect. *)
Context (read_error : C -> option exn) (write_error : C -> C -> option (exn * bool)).

Record world : Type := { service : SS; checkpoints : C; runs : list run_kwargs }.

Definition with_service (w : world) (s : SS) : world := {| service := s; checkpoints := checkpoints w; runs := runs w |}.
Definition with_checkpoints (w : world) (c : C) : world := {| service := service w; checkpoints := c; runs := runs w |}.

Definition write (c : C) (w : world) : result exn unit * world :=
  match write_error (checkpoints w) c with
  | None => (Ok tt, with_checkpoints w c)
  | Some (e, landed) => (Err e, if landed : bool then with_checkpoints w c else w)
  end.

Definition not_resumable (what : string) : exn := raise CheckpointNotFoundError what.

(** *** Checkpoints *)

(** The ADK state of a checkpoint: its events and the session state. *)
Definition adk_state (c : CheckpointRecord) : result exn (list event * list (string * json)) :=
  match dget "google_adk" (runtime_state c) with
  | Some (JObj state) =>
      if negb (from_option (fun v => py_eq v (JInt 1)) false (dget "version" state))
      then Err (not_resumable "checkpoint does not contain resumable ADK state")
      else
        match dget "events" state with
        | Some (JList (j :: js)) =>
            match mapM load_event (j :: js) with
            | Some events => Ok (events, match dget "session_state" state with Some (JObj d) => d | _ => [] end)
            | None => Err (not_resumable "checkpoint contains invalid ADK event state")
            end
        | _ => Err (not_resumable "checkpoint does not contain resumable ADK events")
        end
  | _ => Err (not_resumable "checkpoint does not contain resumable ADK state")
  end.

Fixpoint append_events (sid : string) (events : list event) : call SS exn unit :=
  match events with
  | [] => mret tt
  | e :: events => append_event sid e ≫= fun _ => append_events sid events
  end.

(** [_restore_adk_checkpoint] *)
Definition restore_adk_checkpoint (c : CheckpointRecord) : call SS exn unit := fun s =>
  match adk_state c with
  | Err e => (Err e, s)
  | Ok (events, state) =>
      let sid := default "" (cp_session_id c) in
      (get_session sid ≫= fun existing =>
       (match existing with Some _ => delete_session sid | None => mret tt end) ≫= fun _ =>
       create_session sid state ≫= fun _ =>
       append_events sid events) s
  end.

Definition snapshot (id rid sid : string) (payload : list (string * json)) (events : list event)
    (state : list (string * json)) : CheckpointRecord :=
  {| checkpoint_id := id; Checkpoint.agent_id := agent_id; Checkpoint.request_id := rid; cp_session_id := Some sid;
     input_payload := payload; cp_messages := checkpoint_messages_from_adk_events events;
     all_tool_results := tool_results_from_events events; iterations := 0; usage := [];
     history_tail_length := Z.of_nat (length events); cp_tenant_id := tenant;
     runtime_state := [("google_adk", JObj [("version", JInt 1); ("events", JList (dump_event <$> events));
                                            ("session_state", JObj state)])] |}.

(** The events of a failed invocation: the session's, or those yielded when it has
    none. *)
Definition recorded (session : option adk_session) (yielded : list event) : list event :=
  match from_option fst [] session with [] => yielded | stored => stored end.

(** [_checkpoint_failed_adk_invocation]: best effort, and what it raises itself is
    swallowed. *)
Definition checkpoint_failed (w : world) (id rid sid : string) (payload : list (string * json))
    (yielded : list event) : world :=
  let '(found, s) := get_session sid (service w) in
  let w := with_service w s in
  match found with
  | Err _ => w
  | Ok session =>
      let events := recorded session yielded in
      match events with
      | [] => (write (cp_delete (checkpoints w) id tenant) w).2
      | _ =>
          if adk_has_unsafe_pending_tool tools events rid
          then (write (cp_delete (checkpoints w) id tenant) w).2
          else (write (cp_save (checkpoints w) (snapshot id rid sid payload events (from_option snd [] session))) w).2
      end
  end.

(** *** The invocation *)

Definition checkpoint_key (req : AgentRequest) : string := opt_or (req_checkpoint req) (req_id req).

Definition load_adk_checkpoint (w : world) (req : AgentRequest) : result exn (option CheckpointRecord) :=
  match req_checkpoint req with
  | None => Ok None
  | Some id =>
      if negb has_checkpoints then Err (not_resumable "checkpointing is not configured for this runtime")
      else
        match read_error (checkpoints w) with
        | Some e => Err e
        | None =>
        match cp_get (checkpoints w) id tenant with
        | Some c =>
            if negb (String.eqb (Checkpoint.agent_id c) agent_id)
            then Err (not_resumable "unknown, expired, or foreign checkpoint")
            else if match req_input req with [] => false | _ => true end
            then Err (raise ValueError "checkpoint resume must not include new input")
            else if negb (opt_truthy (cp_session_id c)) || negb (str_truthy (Checkpoint.request_id c))
            then Err (not_resumable "checkpoint does not contain resumable ADK state")
            else Ok (Some c)
        | None => Err (not_resumable "unknown, expired, or foreign checkpoint")
        end
        end
  end.

Definition user_content (payload : list (string * json)) (context : string) : content :=
  (Some "user",
   [{| part_text := Some (if str_truthy context then (context ++ String "010"%char (String "010"%char ("User input:" ++ String "010"%char (dumps (JObj payload)))))%string
                          else dumps (JObj payload));
       part_call := None; part_response := None |}]).

(** What comes before the run: the message, and the knowledge counts. *)
Definition prepare (req : AgentRequest) (c : option CheckpointRecord) (sid : string)
  : call SS exn (option content * list (string * Z)) :=
  match c, req_continuation req with
  | Some c, _ => restore_adk_checkpoint c ≫= fun _ => mret (None, [])
  | None, Some k =>
      get_session sid ≫= fun session =>
      if match session with Some (events, _) => has_pending_confirmation events k | None => false end
      then mret (Some (approval_response_content k (bool_decide (req_decision req = Some "approve"))), [])
      else throws (raise ContinuationNotFoundError "unknown or expired ADK continuation")
  | None, None =>
      get_session sid ≫= fun session =>
      (match session with Some _ => mret tt | None => create_session sid [] end) ≫= fun _ =>
      let '(context, counts) := knowledge (req_input req) in
      mret (Some (user_content (req_input req) context), counts)
  end.

Definition response_of (req : AgentRequest) (sid st text : string) (events : list event) (fields : list (string * json))
  : Invocation.AgentResponse :=
  {| Invocation.output := JObj [("content", JStr text); ("tool_results", JList (tool_results_from_events events))];
     Invocation.response_request_id := req_id req; Invocation.response_session_id := Some sid;
     Invocation.status := st; Invocation.error := None;
     Invocation.metadata := (("runtime", JStr "google-adk") :: ("event_count", JInt (Z.of_nat (length events))) :: fields)%list |}.

Definition approval_response (req : AgentRequest) (sid : string) (events : list event) (a : approval_info)
  : Invocation.AgentResponse :=
  response_of req sid "approval_required" "" events
    [("continuation_id", JStr (continuation_id a)); ("pending_tools", JList (JStr <$> pending_tools a));
     ("approval_hints", JObj (approval_hints a)); ("approval_payloads", JObj (approval_payloads a))].

Definition success_response (req : AgentRequest) (sid : string) (events : list event) (counts : list (string * Z))
  : Invocation.AgentResponse :=
  let counts := match req_continuation req with None => counts | Some _ => [] end in
  response_of req sid "success" (terminal_text events agent_name) events
    [("knowledge_entries", JInt (foldr Z.add 0%Z counts.*2)); ("knowledge_sources", JObj (prod_map id JInt <$> counts));
     ("resumed_from_checkpoint", optional_text (req_checkpoint req))].

Definition clear_checkpoint (w : world) (id : string) : result exn unit * world :=
  if has_checkpoints then write (cp_delete (checkpoints w) id tenant) w else (Ok tt, w).

(** After the run. *)
Definition finish (w : world) (req : AgentRequest) (sid : string) (events : list event) (counts : list (string * Z))
  : result exn Invocation.AgentResponse * world :=
  match auto_store (service w) sid with
  | Some e => (Err e, w)
  | None =>
      match clear_checkpoint w (checkpoint_key req) with
      | (Err e, w) => (Err e, w)
      | (Ok _, w) =>
          match approval_metadata py_str events with
          | Some a => (Ok (approval_response req sid events a), w)
          | None => (Ok (success_response req sid events counts), w)
          end
      end
  end.

(** The invocation that a run belongs to, and its input. *)
Definition run_id (req : AgentRequest) (c : option CheckpointRecord) : string :=
  match c with Some c => Checkpoint.request_id c | None => req_id req end.
Definition run_input (req : AgentRequest) (c : option CheckpointRecord) : list (string * json) :=
  match c with Some c => input_payload c | None => req_input req end.

Definition run (w : world) (req : AgentRequest) (c : option CheckpointRecord) (sid : string)
  : result exn Invocation.AgentResponse * world :=
  match prepare req c sid (service w) with
  | (Err e, s) => (Err e, with_service w s)
  | (Ok (message, counts), s) =>
      let invocation := match c with
                        | Some c => Some (Checkpoint.request_id c)
                        | None => if str_truthy (req_id req) then Some (req_id req) else None
                        end in
      let k := {| run_session := sid; run_invocation := invocation; new_message := message |} in
      let '(events, ended, s) := runner s k in
      let w := {| service := s; checkpoints := checkpoints w; runs := (runs w ++ [k])%list |} in
      match ended with
      | None => finish w req sid events counts
      | Some e =>
          (Err e,
           if has_checkpoints && bool_decide (req_continuation req = None)
           then checkpoint_failed w (checkpoint_key req)
                  (run_id req c) sid (run_input req c) events
           else w)
      end
  end.

Definition invoke (w : world) (req : AgentRequest) : result exn Invocation.AgentResponse * world :=
  match req_continuation req, req_session req with
  | Some _, None =>
      (Err (raise ContinuationNotFoundError "Google ADK approval continuations require the original session_id"), w)
  | _, _ =>
      match load_adk_checkpoint w req with
      | Err e => (Err e, w)
      | Ok c =>
          let sid := match c ≫= cp_session_id with
                     | Some s => if str_truthy s then s else opt_or (req_session req) fresh_session_id
                     | None => opt_or (req_session req) fresh_session_id
                     end in
          run w req c sid
      end
  end.

(** Neither the writes nor the end of an invocation runs anything. *)
Lemma write_runs c w : runs (write c w).2 = runs w.
Proof. unfold write. by destruct (write_error _ c) as [[e []]|]. Qed.

Lemma finish_keeps_runs w req sid events counts : runs (finish w req sid events counts).2 = runs w.
Proof.
  unfold finish, clear_checkpoint. destruct (auto_store _ _); [done|].
  destruct has_checkpoints; [|by destruct (approval_metadata _ _)].
  pose proof (write_runs (cp_delete (checkpoints w) (checkpoint_key req) tenant) w) as Hw.
  destruct (write _ w) as [[u|e] w1]; [|done]. by destruct (approval_metadata _ _).
Qed.

(** ** Checkpoints of failed invocations can be replayed *)

(** Every tool call the events record under the invocation is answered or only
    reads. *)
Definition replay_safe (events : list event) (rid : string) : Prop :=
  forall i n, (i, n) ∈ recorded_calls events rid -> i ∈ recorded_responses events rid \/ adk_tool_is_replay_safe tools n = true.

Lemma replay_safe_spec events rid :
  replay_safe events rid <-> adk_has_unsafe_pending_tool tools events rid = false.
Proof.
  unfold replay_safe, adk_has_unsafe_pending_tool. split.
  - intros Hsafe. apply not_true_is_false. intros ([i n] & Hin & Hb)%existsb_elem. cbn in Hb.
    apply andb_true_iff in Hb as [Hm Hr]. apply negb_true_iff in Hm, Hr.
    destruct (Hsafe i n Hin) as [Hresp|Hresp]; [|congruence]. apply memb_true in Hresp. congruence.
  - intros Hs i n Hin.
    destruct (memb i (recorded_responses events rid)) eqn:Em; [left; by apply memb_true|].
    destruct (adk_tool_is_replay_safe tools n) eqn:Er; [by right|]. exfalso.
    assert (Ht : existsb (fun c => negb (memb c.1 (recorded_responses events rid)) && negb (adk_tool_is_replay_safe tools c.2))
                   (recorded_calls events rid) = true); [|congruence].
    apply existsb_elem. exists (i, n). split; [done|]. cbn [fst snd]. by rewrite Em, Er.
Qed.

(** Nothing beside the run fails: the session can be read, the checkpoint store
    takes what is written and the memory service takes the session. *)
Record reliable : Prop := {
  session_read : forall sid s, exists x s', get_session sid s = (Ok x, s');
  store_writes : forall c c', write_error c c' = None;
  memory_takes : forall s sid, auto_store s sid = None
}.

(** The checkpoint of a run that failed: the snapshot of its events if there are any
    and it can be resumed from them, and none otherwise. *)
Definition settled (id rid sid : string) (payload : list (string * json)) (session : option adk_session)
    (yielded : list event) (found : option CheckpointRecord) : Prop :=
  let events := recorded session yielded in
  (events <> [] /\ replay_safe events rid /\
     found = Some (snapshot id rid sid payload events (from_option snd [] session))) \/
  ((events = [] \/ ~ replay_safe events rid) /\ found = None).

(** What an invocation does to the checkpoint under its id. *)
Inductive checkpoint_after (w w' : world) (req : AgentRequest) : result exn Invocation.AgentResponse -> Prop :=
  | cleared a : cp_get (checkpoints w') (checkpoint_key req) tenant = None -> checkpoint_after w w' req (Ok a)
  | never_ran e : runs w' = runs w -> checkpoints w' = checkpoints w -> checkpoint_after w w' req (Err e)
  | run_failed e c k yielded s s1 session :
      load_adk_checkpoint w req = Ok c -> runs w' = (runs w ++ [k])%list -> runner s k = (yielded, Some e, s1) ->
      get_session (run_session k) s1 = (Ok session, service w') ->
      settled (checkpoint_key req) (run_id req c) (run_session k) (run_input req c) session yielded
        (cp_get (checkpoints w') (checkpoint_key req) tenant) ->
      checkpoint_after w w' req (Err e).

(** Checkpoints under other keys stay. *)
Definition others_kept (w w' : world) (req : AgentRequest) : Prop :=
  forall k t, scoped_key k t <> scoped_key (checkpoint_key req) tenant -> cp_get (checkpoints w') k t = cp_get (checkpoints w) k t.

Lemma clear_after c key : cp_get (cp_delete c key tenant) key tenant = None.
Proof. rewrite cp_get_delete. by rewrite decide_True. Qed.
Lemma clear_others c key k t : scoped_key k t <> scoped_key key tenant -> cp_get (cp_delete c key tenant) k t = cp_get c k t.
Proof. intros Hk. rewrite cp_get_delete. by rewrite decide_False. Qed.

Lemma checkpoint_failed_settles w req rid sid payload yielded :
  reliable -> exists session s, get_session sid (service w) = (Ok session, s) /\
    let w' := checkpoint_failed w (checkpoint_key req) rid sid payload yielded in
    service w' = s /\ runs w' = runs w /\ others_kept w w' req /\
    settled (checkpoint_key req) rid sid payload session yielded (cp_get (checkpoints w') (checkpoint_key req) tenant).
Proof.
  intros Hr. destruct (session_read Hr sid (service w)) as (session & s & Hg). exists session, s. split; [done|].
  unfold checkpoint_failed, settled, others_kept. rewrite Hg. cbn zeta.
  destruct (recorded session yielded) as [|x evs].
  { unfold write. rewrite (store_writes Hr). cbn. split_and!; [done..|by intros; apply clear_others|].
    right. split; [by left|apply clear_after]. }
  destruct (adk_has_unsafe_pending_tool tools (x :: evs) rid) eqn:Eu; unfold write; rewrite (store_writes Hr); cbn -[snapshot].
  - split_and!; [done..|by intros; apply clear_others|]. right. split; [|apply clear_after].
    right. rewrite replay_safe_spec. congruence.
  - split_and!; [done..| |].
    + intros k t Hk. rewrite cp_get_save. by rewrite decide_False.
    + left. split; [done|]. split; [by apply replay_safe_spec|]. rewrite cp_get_save. by rewrite decide_True.
Qed.

Lemma run_after w req c sid :
  has_checkpoints = true -> reliable -> req_continuation req = None -> load_adk_checkpoint w req = Ok c ->
  let rw := run w req c sid in checkpoint_after w rw.2 req rw.1 /\ others_kept w rw.2 req.
Proof.
  intros Hc Hr Hk Hl. unfold run. destruct (prepare req c sid (service w)) as [[[message counts]|e] s]; [|split; [by apply never_ran|done]].
  cbv zeta. set (k := {| run_session := sid |}). destruct (runner s k) as [[events ended] s2] eqn:Er. destruct ended as [e|].
  - rewrite Hc, Hk. cbn [andb fst snd]. rewrite bool_decide_true by done.
    destruct (checkpoint_failed_settles {| service := s2; checkpoints := checkpoints w; runs := (runs w ++ [k])%list |}
      req (run_id req c) sid (run_input req c) events Hr) as (session & s3 & Hg & Hs & Hruns & Ho & Hset).
    split; [|exact Ho]. by eapply (run_failed _ _ _ e c k events s s2 session); [..|rewrite Hs|].
  - unfold finish, clear_checkpoint, write. cbn [service checkpoints]. rewrite (memory_takes Hr), Hc, (store_writes Hr).
    destruct (approval_metadata py_str events); (split; [apply cleared, clear_after|intros i t Hi; by apply clear_others]).
Qed.

(** A session that cannot be read leaves the checkpoint as it was, whatever the run did. *)
Lemma unreadable_session_keeps w id rid sid payload yielded e s :
  get_session sid (service w) = (Err e, s) -> checkpoints (checkpoint_failed w id rid sid payload yielded) = checkpoints w.
Proof. intros Hg. unfold checkpoint_failed. by rewrite Hg. Qed.


(** ** A snapshot resumes where it stopped *)

Lemma append_all sid events s s' :
  valid_id sid -> service_ok s -> append_events sid events s = (Ok tt, s') ->
  forall evs st, holds s sid (evs, st) -> NoDup (evs ++ events) -> Forall (fun e => partial e = false) events ->
  service_ok s' /\ exists st', holds s' sid (evs ++ events, st')%list.
Proof.
  intros Hsid. revert s. induction events as [|e events IH]; intros s Hok; cbn [append_events].
  - intros [= <-] evs st Hh _ _. split; [done|]. exists st. by rewrite app_nil_r.
  - intros (u & s1 & Ha & Hrest)%call_bind_ok evs st Hh Hnd [He Hp]%Forall_cons. destruct u.
    assert (Hnew : e ∉ evs) by (apply NoDup_app in Hnd as (_ & Hd & _); intros Hin; apply (Hd e Hin); left).
    destruct (appended _ _ _ _ _ _ Hsid Hok Hh Ha He Hnew) as (st' & Hh').
    pose proof (append_kept s sid e Hsid Hok) as Hok1. rewrite Ha in Hok1.
    destruct (IH s1 Hok1 Hrest (evs ++ [e])%list st' Hh') as (Hok2 & st2 & Hh2); [by rewrite <-app_assoc | done|].
    split; [done|]. exists st2. by rewrite <-app_assoc in Hh2.
Qed.

Lemma adk_state_snapshot id rid sid payload events state :
  (forall e, e ∈ events -> load_event (dump_event e) = Some e) -> events <> [] ->
  adk_state (snapshot id rid sid payload events state) = Ok (events, state).
Proof.
  intros Hl Hne. destruct events as [|e events]; [done|].
  change (adk_state (snapshot id rid sid payload (e :: events) state)) with
    (match mapM load_event (dump_event <$> (e :: events)) with
     | Some l => Ok (l, state)
     | None => Err (not_resumable "checkpoint contains invalid ADK event state")
     end : result exn (list event * list (string * json))).
  by rewrite mapM_roundtrip.
Qed.

(** A snapshot read back by a resume under its id puts exactly the events it was
    taken from into the session and continues the same invocation without a new
    message. *)
Theorem adk_checkpoint_resumes w req id rid sid payload events state s' :
  (forall e, e ∈ events -> load_event (dump_event e) = Some e /\ partial e = false) ->
  service_ok (service w) -> valid_id sid ->
  events <> [] -> NoDup events -> str_truthy rid = true -> str_truthy sid = true ->
  has_checkpoints = true -> read_error (checkpoints w) = None ->
  req_checkpoint req = Some id -> req_input req = [] -> req_continuation req = None ->
  cp_get (checkpoints w) id tenant = Some (snapshot id rid sid payload events state) ->
  restore_adk_checkpoint (snapshot id rid sid payload events state) (service w) = (Ok tt, s') ->
  (exists state' s'', get_session sid s' = (Ok (Some (events, state')), s'')) /\
  runs (invoke w req).2 =
    (runs w ++ [{| run_session := sid; run_invocation := Some rid; new_message := None |}])%list.
Proof.
  intros Hev Hok Hvalid Hne Hnd Hrid Hsid Hc Hread Hid Hin Hk Hget Hres. split.
  - unfold restore_adk_checkpoint in Hres. rewrite adk_state_snapshot in Hres by (try done; apply Hev).
    cbn [cp_session_id snapshot default] in Hres. apply call_bind_ok in Hres as (existing & s1 & Hge & Hres).
    apply call_bind_ok in Hres as (u1 & s2 & Hde & Hres). apply call_bind_ok in Hres as (u2 & s3 & Hcr & Hap).
    pose proof (get_kept _ sid Hvalid Hok) as Hok1. unfold Datatypes.id in Hge, Hde, Hcr, Hap. rewrite Hge in Hok1.
    assert (Hok2 : service_ok s2).
    { destruct existing; [|by injection Hde as _ <-].
      pose proof (delete_kept s1 sid Hvalid Hok1) as H2. by rewrite Hde in H2. }
    pose proof (create_kept s2 sid state Hvalid Hok2) as Hok3. rewrite Hcr in Hok3.
    destruct u2. pose proof (created _ _ _ _ Hvalid Hok2 Hcr) as Hh.
    destruct (append_all _ _ _ _ Hvalid Hok3 Hap [] state Hh Hnd) as (Hok4 & state' & Hh').
    { apply Forall_forall. apply Hev. }
    exists state'. by apply holds_get.
  - unfold invoke. rewrite Hk. unfold load_adk_checkpoint. rewrite Hid, Hc, Hread, Hget. cbn [negb].
    cbn [Checkpoint.agent_id cp_session_id Checkpoint.request_id snapshot opt_truthy].
    rewrite String.eqb_refl, Hin, Hsid, Hrid. cbn [negb orb mbind option_bind cp_session_id snapshot].
    rewrite Hsid. unfold run, prepare. unfold mbind, call_bind. rewrite Hres. cbn [mret call_ret Checkpoint.request_id snapshot].
    destruct (runner s' _) as [[evs ended] s2] eqn:Er. destruct ended as [e|]; cbn [snd].
    + assert (Hf : forall w1 a b c d f, runs (checkpoint_failed w1 a b c d f) = runs w1).
      { intros. unfold checkpoint_failed. destruct (get_session _ _) as [[session|?] ?]; [|done]. cbv zeta.
        destruct (recorded session f); [by rewrite write_runs|]. by destruct (adk_has_unsafe_pending_tool _ _ _); rewrite write_runs. }
      destruct (_ && _); [by rewrite Hf | done].
    + by rewrite finish_keeps_runs.
Qed.

(** ** Continuations *)

(** A continuation reaches ADK only for a confirmation the session is still
    waiting for, and then as exactly one run whose message answers that
    confirmation with the decision of the caller; otherwise it fails with nothing
    run. *)
Theorem adk_continuation_answers_its_confirmation w req k r w' :
  req_continuation req = Some k -> req_checkpoint req = None -> invoke w req = (r, w') ->
  (runs w' = runs w /\ (exists e, r = Err e) /\ checkpoints w' = checkpoints w) \/
  exists sid0 events state s' inv,
    let sid := opt_or (Some sid0) fresh_session_id in
    req_session req = Some sid0 /\
    get_session sid (service w) = (Ok (Some (events, state)), s') /\
    has_pending_confirmation events k = true /\
    runs w' = (runs w ++ [{| run_session := sid; run_invocation := inv;
                             new_message := Some (approval_response_content k (bool_decide (req_decision req = Some "approve"))) |}])%list.
Proof.
  intros Hk Hc. unfold invoke, load_adk_checkpoint. rewrite Hk, Hc.
  destruct (req_session req) as [sid0|]; [|intros [= <- <-]; left; by eauto].
  cbn [mbind option_bind]. unfold run, prepare. rewrite Hk. unfold mbind, call_bind.
  destruct (get_session _ (service w)) as [[session|e] s'] eqn:Eg; [|intros [= <- <-]; left; by eauto].
  destruct session as [[events state]|]; [|intros [= <- <-]; left; by eauto].
  destruct (has_pending_confirmation events k) eqn:Ep; [|intros [= <- <-]; left; by eauto].
  cbn [mret call_ret]. cbv zeta. destruct (runner s' _) as [[evs ended] s2]. intros Hr. right.
  exists sid0, events, state, s', (if str_truthy (req_id req) then Some (req_id req) else None).
  split_and!; try done. destruct ended as [e|].
  - rewrite (bool_decide_false (Some k = None)) in Hr by done. rewrite andb_false_r in Hr. by injection Hr as _ <-.
  - match type of Hr with finish ?w1 ?q ?i ?l ?n = _ => pose proof (finish_keeps_runs w1 q i l n) as Hf end. by rewrite Hr in Hf.
Qed.
End invocation.

(** ** ADK's memory over the memory provider *)

Section memory.
Context (py_str : json -> string) (now : Q).

Definition session_entry (sid : string) (index : nat) (e : event) : Memory.MemoryEntry :=
  {| Memory.key := (sid ++ ":" ++ pretty index)%string;
     Memory.value := JObj [("text", JStr (event_text e)); ("author", match author e with Some a => JStr a | None => JNull end)];
     Memory.scope := "agent"; Memory.metadata := []; Memory.tenant_id := None; Memory.version := 0 |}.

(** [add_session_to_memory] of a session with a non-empty id; the stores of one
    call read the clock at one instant. *)
Definition add_session_to_memory (p : Memory.InMemoryMemoryProvider) (sid : string) (events : list event)
  : Memory.InMemoryMemoryProvider :=
  foldl (fun p ie =>
    if str_truthy (event_text ie.2)
    then let '(r, p) := Memory.alloc p (session_entry sid ie.1 ie.2) in (Memory.store p r None now now now).2
    else p) p (imap pair events).

(** [_entry_text] *)
Definition entry_text (v : json) : string :=
  match v with
  | JObj d => match dget "text" d with Some t => py_text py_str t | None => "" end
  | _ => py_text py_str v
  end.

Definition search_memory (p : Memory.InMemoryMemoryProvider) (query : string) : list string * Memory.InMemoryMemoryProvider :=
  let '(found, p) := Memory.search py_str p query None 10 None now in
  ((fun r => from_option (fun e => entry_text (Memory.value e)) "" (Memory.heap p !! r)) <$> found, p).
End memory.

(** What one session said is found by a search on behalf of any tenant: entries
    are stored, and searched, without a tenant. *)
Definition said (text : string) : event :=
  {| invocation_id := None; author := Some "user"; partial := false;
     parts := [{| part_text := Some text; part_call := None; part_response := None |}]; confirmations := [] |}.

Example memory_crosses_tenants :
  (search_memory (fun _ => "acme secret") 2
     (add_session_to_memory 1 (Memory.new_provider Memory.default_policy) "session-of-acme" [said "acme secret"]) "SECRET").1
  = ["acme secret"].
Proof. reflexivity. Qed.

(** ** Examples *)

Definition demo_service : Type := list (string * adk_session).

#[local] Program Instance demo_session_service : SessionService demo_service := {|
  get_session sid s := (Ok (dget sid s), s);
  create_session sid st s := (Ok tt, dset sid ([], st) s);
  delete_session sid s := (Ok tt, dpop sid s);
  append_event sid e s :=
    (Ok tt, match dget sid s with Some (evs, st) => dset sid ((evs ++ [e])%list, st) s | None => s end);
  service_ok _ := True; valid_id _ := True; holds s sid x := dget sid s = Some x
|}.
Next Obligation. done. Qed.
Next Obligation. done. Qed.
Next Obligation. done. Qed.
Next Obligation. done. Qed.
Next Obligation. intros s sid x _ _ Hx. exists s. by rewrite Hx. Qed.
Next Obligation. intros s sid st s' _ _ [= <-]. by rewrite dget_dset_eq. Qed.
Next Obligation. intros s sid e s' evs st _ _ Hg [= <-] _ _. rewrite Hg, dget_dset_eq. by exists st. Qed.

(** The model asks for [look], which only reads, and the run fails. *)
Definition look_event : event :=
  {| invocation_id := Some "i1"; author := Some "agent"; partial := false;
     parts := [{| part_text := None; part_response := None;
                  part_call := Some {| call_id := Some "c1"; call_name := "look"; call_args := [] |} |}];
     confirmations := [] |}.

Definition failing_runner (s : demo_service) (k : run_kwargs) : list event * option exn * demo_service :=
  ([look_event], Some (raise ConnectionError "model"), s).

Definition demo_tools : agent_tools := {| tool_side_effects := [("look", "read_only")]; adk_tools := [] |}.
Definition demo_dump (e : event) : json := JStr "event".
Definition demo_load (j : json) : option event := Some look_event.

Definition demo_invoke (w : world (C := InMemoryCheckpointStore)) (req : AgentRequest) :=
  invoke demo_dump demo_load (fun _ => "{}") (fun _ => "") failing_runner "agent-1" "agent" demo_tools true None
    (fun _ _ => None) (fun _ => ("", [])) "s0" (fun _ => None) (fun _ _ => None) w req.

Definition empty_world : world (SS := demo_service) (C := InMemoryCheckpointStore) :=
  {| service := []; checkpoints := []; runs := [] |}.

Definition first_request : AgentRequest :=
  {| req_id := "i1"; req_session := None; req_input := [("q", JStr "hi")]; req_continuation := None; req_decision := None;
     req_checkpoint := None; req_timeout := None |}.
Definition resume_request : AgentRequest :=
  {| req_id := "i2"; req_session := None; req_input := []; req_continuation := None; req_decision := None;
     req_checkpoint := Some "i1"; req_timeout := None |}.

Lemma demo_reliable : reliable (SS := demo_service) (C := InMemoryCheckpointStore) (fun _ _ => None) (fun _ _ => None).
Proof. split; [|done|done]. intros sid s. by exists (dget sid s), s. Qed.


Definition after_failure : world (SS := demo_service) (C := InMemoryCheckpointStore) :=
  (demo_invoke empty_world first_request).2.

Lemma adk_checkpoint_resumes_witness :
  exists s', restore_adk_checkpoint demo_load
      (snapshot demo_dump "agent-1" None "i1" "i1" "s0" [("q", JStr "hi")] [look_event] []) (service after_failure) = (Ok tt, s') /\
    get_session "s0" s' = (Ok (Some ([look_event], [])), s') /\
    runs (demo_invoke after_failure resume_request).2 =
      (runs after_failure ++ [{| run_session := "s0"; run_invocation := Some "i1"; new_message := None |}])%list.
Proof.
  eexists. split; [reflexivity|]. split; [reflexivity|].
  refine (proj2 (adk_checkpoint_resumes demo_dump demo_load (fun _ => "{}") (fun _ => "") failing_runner "agent-1" "agent"
           demo_tools true None (fun _ _ => None) (fun _ => ("", [])) "s0" (fun _ => None) (fun _ _ => None) after_failure resume_request "i1" "i1" "s0"
           [("q", JStr "hi")] [look_event] [] [("s0", ([look_event], []))] _ I I _ _ _ _ _ _ _ _ _ _ _)); try reflexivity; try discriminate.
  - intros e He. apply list_elem_of_singleton in He as ->. split; reflexivity.
  - apply NoDup_singleton.
Defined.

(** Ways in which the checkpoint that an invocation was resumed from outlives what
    the resumed run did: the run pays and then its model fails, while the store does not
    take the deletion; or the run pays and ends well, but memory does not take the
    session, or the store keeps the checkpoint.  A second resume pays again.  A session
    that cannot be read is the fourth ([unreadable_session_keeps]). *)
Definition pay_event : event :=
  {| invocation_id := Some "i1"; author := Some "agent"; partial := false;
     parts := [{| part_text := None; part_response := None;
                  part_call := Some {| call_id := Some "c2"; call_name := "pay"; call_args := [] |} |}];
     confirmations := [] |}.
Definition paying_runner (fails : bool) (s : demo_service) (k : run_kwargs) : list event * option exn * demo_service :=
  ([pay_event], if fails then Some (raise ConnectionError "model") else None,
   match dget "s0" s with Some (evs, st) => dset "s0" ((evs ++ [pay_event])%list, st) s | None => s end).
Definition resume_with (fails : bool) (memory : option exn) (store : option (exn * bool)) :=
  invoke demo_dump demo_load (fun _ => "{}") (fun _ => "") (paying_runner fails) "agent-1" "agent" demo_tools true None
    (fun _ _ => memory) (fun _ => ("", [])) "s0" (fun _ => None) (fun _ _ => store) after_failure resume_request.

Example stale_checkpoints :
  let down := raise OtherException "down" in
  let old (w : world (SS := demo_service)) := checkpoints w = checkpoints after_failure in
  let gone (w : world (SS := demo_service) (C := InMemoryCheckpointStore)) := cp_get (checkpoints w) "i1" None = None in
  gone (resume_with true None None).2 /\ gone (resume_with false None None).2 /\
  old (resume_with true None (Some (down, false))).2 /\
  old (resume_with false (Some down) None).2 /\ old (resume_with false None (Some (down, false))).2.
Proof. vm_compute. split_and!; reflexivity. Qed.

Definition waiting_world : world (SS := demo_service) (C := InMemoryCheckpointStore) :=
  {| service := [("s1", ([pause_event], []))]; checkpoints := []; runs := [] |}.
Definition answer_request (k : string) : AgentRequest :=
  {| req_id := "i3"; req_session := Some "s1"; req_input := []; req_continuation := Some k; req_decision := Some "approve";
     req_checkpoint := None; req_timeout := None |}.

Lemma adk_continuation_answers_its_confirmation_witness :
  length (runs (demo_invoke waiting_world (answer_request "k1")).2) = 1 /\
  runs (demo_invoke waiting_world (answer_request "other")).2 = [] /\
  exists sid inv, runs (demo_invoke waiting_world (answer_request "k1")).2 =
    [{| run_session := sid; run_invocation := inv; new_message := Some (approval_response_content "k1" true) |}].
Proof.
  split; [reflexivity|]. split; [reflexivity|].
  destruct (demo_invoke waiting_world (answer_request "k1")) as [r w'] eqn:E.
  destruct (adk_continuation_answers_its_confirmation demo_dump demo_load (fun _ => "{}") (fun _ => "") failing_runner "agent-1"
    "agent" demo_tools true None (fun _ _ => None) (fun _ => ("", [])) "s0" (fun _ => None) (fun _ _ => None) waiting_world (answer_request "k1") "k1" r w'
    eq_refl eq_refl E) as [(Hr & _ & _)|(sid0 & events & state & s' & inv & _ & _ & _ & Hr)].
  - exfalso. assert (Hl : length (runs w') = 1) by (change w' with (r, w').2; rewrite <-E; reflexivity).
    rewrite Hr in Hl. discriminate Hl.
  - exists (opt_or (Some sid0) "s0"), inv. exact Hr.
Defined.

End GoogleAdk.

