(* ===== verification/SessionStore.v ===== *)
(** * Session providers behind one interface

    [SessionProvider] of [micro_agent/session/session.py] as a class: what a
    provider stores under a key, and how each operation changes it.  Two
    implementations: the in-memory provider of [Session], used by value (a caller
    that builds a new context for every update), and [SqliteSessionProvider] of
    [micro_agent/session/sqlite.py].  An operation holds the provider's lock, so
    it is one step. *)

From S2P Require Import Prelude Json Session.
Import Session.
Local Open Scope string_scope.

Module SessionStore.

(** ** What a provider stores *)

Record stored : Type := { context : SessionContext; born : Q; until : option Q }.

Definition lapsed (e : stored) (now : Q) : bool := from_option (fun t => (t <=? now)%clock) false (until e).

Definition deadline (ttl_default ttl : option Q) (now : Q) : option Q :=
  match (match ttl with Some t => Some t | None => ttl_default end) with
  | None => None
  | Some t => Some (now + t)%Q
  end.

(** The metadata of a context but for the creation time, which each provider
    writes itself. *)
Definition plain_metadata (c : SessionContext) : list (string * json) :=
  filterb (fun e => negb (String.eqb e.1 "created_at")) (metadata c).

Definition same_context (c d : SessionContext) : Prop :=
  session_id c = session_id d /\ messages c = messages d /\ plain_metadata c = plain_metadata d /\
  caller_context c = caller_context d /\ tenant_id c = tenant_id d /\ version c = version d.

#[export] Instance same_context_equiv : Equivalence same_context.
Proof.
  split; unfold same_context.
  - intros c. by split_and!.
  - intros c d (?&?&?&?&?&?). by split_and!.
  - intros c d e (?&?&?&?&?&?) (?&?&?&?&?&?). split_and!; congruence.
Qed.

Definition same_stored (e f : stored) : Prop :=
  same_context (context e) (context f) /\ born e = born f /\ until e = until f.

#[export] Instance same_stored_equiv : Equivalence same_stored.
Proof.
  split; unfold same_stored.
  - intros e. by split_and!.
  - intros e f (?&?&?). split_and!; by symmetry.
  - intros e f g (?&?&?) (?&?&?). split_and!; etrans; eassumption.
Qed.

Definition summary (e : stored) : SessionMetadata :=
  {| meta_session_id := session_id (context e); created_at := born e; expires_at := until e; is_active := true;
     meta_tenant_id := tenant_id (context e); meta_version := version (context e) |}.

#[export] Instance summary_proper : Proper (same_stored ==> eq) summary.
Proof. intros e f ((Hi & _ & _ & _ & Ht & Hv) & Hb & Hu). unfold summary. by rewrite Hi, Ht, Hv, Hb, Hu. Qed.

#[export] Instance lapsed_proper : Proper (same_stored ==> eq ==> eq) lapsed.
Proof. intros e f (_ & _ & Hu) ? ? ->. unfold lapsed. by rewrite Hu. Qed.

(** Names that make keys unambiguous: not empty, without the separator. *)
Definition clean_name (sid : string) (tenant : option string) : bool :=
  str_truthy sid && separator_free sid && from_option separator_free true tenant.

Lemma clean_key_inj s t s' t' :
  clean_name s t = true -> clean_name s' t' = true -> scoped_key s t = scoped_key s' t' -> s = s' /\ t = t'.
Proof.
  unfold clean_name. rewrite !andb_true_iff. intros [[_ H1] H2] [[_ H3] H4]. apply scoped_key_inj; try done.
  - by intros x ->.
  - by intros x ->.
Qed.

Definition fresh_context (sid : string) (tenant : option string) : SessionContext :=
  {| session_id := sid; messages := []; metadata := []; caller_context := []; tenant_id := tenant; version := 1 |}.

(** The version an update is checked against; zero checks nothing. *)
Definition expected (c : SessionContext) (expected_version : option Z) : Z := default (version c) expected_version.

(** An update of a session that is not stored on which the implementations
    disagree. *)
Definition disputed (c : SessionContext) (expected_version : option Z) : bool :=
  match expected_version with
  | Some e => Z.eqb e 0 && negb (Z.eqb (version c) 0 || Z.eqb (version c) 1)
  | None => Z.eqb (version c) 1
  end.

(** ** The interface *)

Class SessionProvider (P : Type) : Type := {
  sp_create : P -> string -> option string -> option Q -> option string -> Q -> SessionContext * P;
  sp_get : P -> string -> option string -> Q -> option SessionContext * P;
  sp_update : P -> SessionContext -> option Q -> option Z -> Q -> result StateConflictError P;
  sp_delete : P -> string -> option string -> P;
  sp_list : P -> option string -> Q -> list SessionMetadata * P;
  good : P -> Prop;
  entry : P -> string -> option stored;
  default_ttl : P -> option Q;
  (** What one operation on a key leaves alone. *)
  only_at (k : string) (p p' : P) : Prop :=
    good p' /\ default_ttl p' = default_ttl p /\ forall k', k' <> k -> entry p' k' = entry p k';
  entry_named p k e : good p -> entry p k = Some e ->
    clean_name (session_id (context e)) (tenant_id (context e)) = true /\ context_key (context e) = k /\
    (1 <= version (context e))%Z;
  create_spec p uuid sid ttl tenant now c p' :
    let id := opt_or sid uuid in
    good p -> clean_name id tenant = true -> sp_create p uuid sid ttl tenant now = (c, p') ->
    only_at (scoped_key id tenant) p p' /\
    exists e, entry p' (scoped_key id tenant) = Some e /\ context e = c /\
      same_stored e {| context := fresh_context id tenant; born := now; until := deadline (default_ttl p) ttl now |};
  get_spec p sid tenant now r p' :
    good p -> clean_name sid tenant = true -> sp_get p sid tenant now = (r, p') ->
    only_at (scoped_key sid tenant) p p' /\
    entry p' (scoped_key sid tenant) =
      (e ← entry p (scoped_key sid tenant); if lapsed e now then None else Some e) /\
    r = context <$> entry p' (scoped_key sid tenant);
  update_spec p c ttl ev now :
    good p -> clean_name (session_id c) (tenant_id c) = true ->
    match entry p (context_key c) with
    | Some e =>
        if Z.eqb (expected c ev) 0 || Z.eqb (expected c ev) (version (context e))
        then exists p' e', sp_update p c ttl ev now = Ok p' /\ only_at (context_key c) p p' /\
          entry p' (context_key c) = Some e' /\
          same_stored e' {| context := set_version c (version (context e) + 1); born := born e;
                            until := match ttl with Some _ => deadline (default_ttl p) ttl now | None => until e end |}
        else sp_update p c ttl ev now = Err (conflict c (expected c ev) (version (context e)))
    | None =>
        disputed c ev = false ->
        if Z.eqb (expected c ev) 0
        then exists p' e', sp_update p c ttl ev now = Ok p' /\ only_at (context_key c) p p' /\
          entry p' (context_key c) = Some e' /\
          same_stored e' {| context := set_version c 1; born := now; until := deadline (default_ttl p) ttl now |}
        else sp_update p c ttl ev now = Err (conflict c (expected c ev) 0)
    end;
  delete_spec p sid tenant :
    good p -> only_at (scoped_key sid tenant) p (sp_delete p sid tenant) /\
      entry (sp_delete p sid tenant) (scoped_key sid tenant) = None;
  list_spec p tenant now l p' :
    good p -> sp_list p tenant now = (l, p') ->
    good p' /\ default_ttl p' = default_ttl p /\ NoDup l /\
    (forall m, m ∈ l <-> exists k e, entry p k = Some e /\ tenant_visible tenant (summary e) = true /\
                                     lapsed e now = false /\ m = summary e) /\
    (forall k, entry p' k = entry p k \/ entry p' k = None /\ exists e, entry p k = Some e /\ lapsed e now = true) /\
    (forall k e, entry p' k = Some e -> tenant_visible tenant (summary e) = true -> lapsed e now = false)
}.

(** ** The in-memory provider

    [create] returns the stored object, [get] a copy; [update] is given an object
    that the caller has just built. *)

Section memory.
Context (iso : Q -> string).

Definition mem_create (p : InMemorySessionProvider) (uuid : string) (sid : option string) (ttl : option Q)
    (tenant : option string) (now : Q) : SessionContext * InMemorySessionProvider :=
  let '(r, p) := create iso uuid p sid ttl tenant now in
  (default (fresh_context (opt_or sid uuid) tenant) (heap p !! r), p).

Definition mem_get (p : InMemorySessionProvider) (sid : string) (tenant : option string) (now : Q)
  : option SessionContext * InMemorySessionProvider :=
  let '(r, p) := get p sid tenant now in (r ≫= fun r => heap p !! r, p).

Definition mem_update (p : InMemorySessionProvider) (c : SessionContext) (ttl : option Q) (ev : option Z) (now : Q)
  : result StateConflictError InMemorySessionProvider :=
  let '(r, p) := alloc p c in update p r ttl ev now.

Definition mem_entry (p : InMemorySessionProvider) (k : string) : option stored :=
  match content p k, dget k (session_metadata p) with
  | Some c, Some m => Some {| context := c; born := created_at m; until := expires_at m |}
  | _, _ => None
  end.

(** The metadata of an entry names its context. *)
Definition named (m : SessionMetadata) (c : SessionContext) : Prop :=
  meta_session_id m = session_id c /\ meta_tenant_id m = tenant_id c /\ is_active m = true /\
  clean_name (session_id c) (tenant_id c) = true.

Definition mem_good (p : InMemorySessionProvider) : Prop :=
  provider_ok p /\ NoDup (dkeys (session_metadata p)) /\
  forall k c m, content p k = Some c -> dget k (session_metadata p) = Some m -> named m c.

Lemma mem_entry_some p k e :
  mem_good p -> mem_entry p k = Some e <->
  exists c m, content p k = Some c /\ dget k (session_metadata p) = Some m /\ context_key c = k /\
    version c = meta_version m /\ (1 <= meta_version m)%Z /\ named m c /\
    e = {| context := c; born := created_at m; until := expires_at m |}.
Proof.
  intros (Hp & _ & Hn). unfold mem_entry. split.
  - destruct (content p k) as [c|] eqn:Hc; [|done]. destruct (dget k _) as [m|] eqn:Hm; [|done]. intros [= <-].
    specialize (Hn _ _ _ Hc Hm). exists c, m. specialize (Hp k). unfold entry_ok in Hp. unfold content in Hc.
    destruct (dget k (sessions p)) as [r|]; [|done]. rewrite Hm in Hp. destruct Hp as (c' & Hc' & Hk & Hv & _ & Hpos).
    cbn in Hc. assert (c' = c) as -> by congruence. split_and!; done.
  - intros (c & m & -> & -> & _ & _ & _ & _ & ->). done.
Qed.

Lemma mem_entry_none p k :
  provider_ok p -> mem_entry p k = None <-> dget k (session_metadata p) = None.
Proof.
  intros Hp. specialize (Hp k). unfold mem_entry, content, entry_ok in *.
  destruct (dget k (sessions p)) as [r|], (dget k (session_metadata p)); try done.
  destruct Hp as (c & Hc & _). cbn. rewrite Hc. done.
Qed.

(** The tables after an operation that kept the other keys. *)
Lemma mem_entry_eq p p' k :
  content p' k = content p k -> dget k (session_metadata p') = dget k (session_metadata p) -> mem_entry p' k = mem_entry p k.
Proof. unfold mem_entry. by intros -> ->. Qed.

Lemma mem_good_frame p p' k :
  mem_good p -> provider_ok p' -> NoDup (dkeys (session_metadata p')) ->
  (forall k', k' <> k -> content p' k' = content p k' /\ dget k' (session_metadata p') = dget k' (session_metadata p)) ->
  (forall c m, content p' k = Some c -> dget k (session_metadata p') = Some m -> named m c) ->
  mem_good p' /\ forall k', k' <> k -> mem_entry p' k' = mem_entry p k'.
Proof.
  intros (Hp & Hnd & Hn) Hp' Hnd' Hother Hk. split; [|intros k' Hne; destruct (Hother k' Hne); by apply mem_entry_eq].
  split_and!; [done | done|]. intros k' c m Hc Hm. destruct (decide (k' = k)) as [->|Hne]; [by eapply Hk|].
  destruct (Hother k' Hne) as [E1 E2]. rewrite E1 in Hc. rewrite E2 in Hm. by eapply Hn.
Qed.

Lemma opt_or_clean uuid sid tenant : clean_name (opt_or sid uuid) tenant = true -> str_truthy (opt_or sid uuid) = true.
Proof. unfold clean_name. by rewrite !andb_true_iff; intros [[? _] _]. Qed.

Lemma mem_create_spec p uuid sid ttl tenant now c p' :
  let id := opt_or sid uuid in
  mem_good p -> clean_name id tenant = true -> mem_create p uuid sid ttl tenant now = (c, p') ->
  (mem_good p' /\ ttl_default p' = ttl_default p /\
   forall k', k' <> scoped_key id tenant -> mem_entry p' k' = mem_entry p k') /\
  exists e, mem_entry p' (scoped_key id tenant) = Some e /\ context e = c /\
    same_stored e {| context := fresh_context id tenant; born := now; until := deadline (ttl_default p) ttl now |}.
Proof.
  intros id Hg Hn. unfold mem_create. destruct (create _ _ _ _ _ _ _) as [r q] eqn:Hc. intros [= <- <-].
  assert (Hq : q = (create iso uuid p sid ttl tenant now).2) by (by rewrite Hc).
  assert (Hcont : content q (scoped_key id tenant) =
    Some {| session_id := id; messages := []; metadata := [("created_at", JStr (iso now))]; caller_context := [];
            tenant_id := tenant; version := 1 |} /\ dget (scoped_key id tenant) (session_metadata q) =
    Some (fresh_metadata p id tenant ttl now) /\ heap q !! r = content q (scoped_key id tenant)).
  { unfold create in Hc. cbn in Hc. injection Hc as <- <-. unfold content. cbn. fold id. rewrite !dget_dset_eq. cbn.
    by rewrite lookup_app_r, Nat.sub_diag by done. }
  destruct Hcont as (Hcont & Hmeta & Hr). rewrite Hr, Hcont. cbn [default].
  destruct (mem_good_frame p q (scoped_key id tenant)) as [Hgq Hother].
  - done.
  - rewrite Hq. apply provider_ok_create, Hg.
  - rewrite Hq. unfold create. cbn. apply NoDup_dset, Hg.
  - intros k' Hne. rewrite Hq. apply (other_key_kept iso uuid p (OCreate sid ttl tenant now) (scoped_key id tenant));
      [apply Hg | done | done].
  - rewrite Hcont, Hmeta. intros c m [= <-] [= <-]. by split_and!.
  - split; [split_and!; [done | rewrite Hq; done | done]|]. unfold mem_entry. rewrite Hcont, Hmeta.
    eexists. split; [done|]. split; [done|]. by split_and!.
Qed.

Lemma is_expired_active m now : is_active m = true -> is_expired m now = from_option (fun t => (t <=? now)%clock) false (expires_at m).
Proof. unfold is_expired. intros ->. by destruct (expires_at m). Qed.

Lemma mem_get_spec p sid tenant now r p' :
  mem_good p -> mem_get p sid tenant now = (r, p') ->
  (mem_good p' /\ ttl_default p' = ttl_default p /\
   forall k', k' <> scoped_key sid tenant -> mem_entry p' k' = mem_entry p k') /\
  mem_entry p' (scoped_key sid tenant) =
    (e ← mem_entry p (scoped_key sid tenant); if lapsed e now then None else Some e) /\
  r = context <$> mem_entry p' (scoped_key sid tenant).
Proof.
  intros Hg Hget. set (k := scoped_key sid tenant).
  assert (Hp' : p' = (get p sid tenant now).2) by (unfold mem_get in Hget; by destruct (get p sid tenant now); injection Hget as _ <-).
  assert (Hr : r = read p sid tenant now).
  { unfold read. unfold mem_get in Hget. destruct (get p sid tenant now). by injection Hget as <- _. }
  assert (Hcase : (p' = delete p sid tenant /\ exists m, dget k (session_metadata p) = Some m /\ is_expired m now = true) \/
    (from_option (fun m => is_expired m now) false (dget k (session_metadata p)) = false /\
     forall k', content p' k' = content p k' /\ session_metadata p' = session_metadata p)).
  { rewrite Hp'. unfold get. fold k. destruct (dget k (session_metadata p)) as [m|] eqn:Hm; cbn [from_option];
      [destruct (is_expired m now) eqn:He; [left; eauto|]|].
    all: right; split; [done|]; intros k'; fold (content p k);
      destruct (content p k) as [c|]; [split; [apply content_alloc, Hg | done] | done]. }
  destruct (mem_good_frame p p' k) as [Hg' Hother].
  - done.
  - rewrite Hp'. apply provider_ok_get, Hg.
  - destruct Hcase as [[-> _]|[_ Hs]]; [apply NoDup_dpop, Hg|]. destruct (Hs k) as [_ ->]. apply Hg.
  - intros k' Hne. rewrite Hp'. by apply (other_key_kept iso "" p (OGet sid tenant now) k); [apply Hg|..].
  - intros c m Hc Hm. destruct Hcase as [[-> _]|[_ Hs]].
    + unfold delete in Hm. cbn in Hm. fold k in Hm. by rewrite dget_dpop_eq in Hm.
    + destruct (Hs k) as [E1 E2]. rewrite E1 in Hc. rewrite E2 in Hm. by eapply Hg.
  - split; [split_and!; [done| |done]|].
    { rewrite Hp'. unfold get. destruct (from_option _ _ _); [done|]. by destruct (dget _ (sessions p) ≫= _). }
    destruct Hcase as [[Hd (m & Hm & He)]|[He Hs]].
    + assert (E0 : mem_entry p' k = None).
      { rewrite Hd. unfold mem_entry, delete. cbn. fold k. rewrite dget_dpop_eq. by case_match. }
      rewrite E0. split.
      * destruct (mem_entry p k) as [e|] eqn:Ee; [|done]. cbn. apply (mem_entry_some p k e Hg) in Ee.
        destruct Ee as (c & m' & _ & Hm' & _ & _ & _ & (_ & _ & Ha & _) & ->). assert (m' = m) as -> by congruence.
        rewrite is_expired_active in He by done. unfold lapsed. cbn. by rewrite He.
      * rewrite Hr, read_content. fold k. by rewrite Hm; cbn; rewrite He.
    + assert (E0 : mem_entry p' k = mem_entry p k) by (apply mem_entry_eq; destruct (Hs k) as [? E]; by rewrite ?E).
      rewrite E0, Hr, read_content. fold k. rewrite He. split.
      * destruct (mem_entry p k) as [e|] eqn:Ee; [|done]. cbn. apply (mem_entry_some p k e Hg) in Ee.
        destruct Ee as (c & m' & _ & Hm' & _ & _ & _ & (_ & _ & Ha & _) & ->). rewrite Hm' in He. cbn in He.
        rewrite is_expired_active in He by done. unfold lapsed. cbn. by rewrite He.
      * destruct (mem_entry p k) as [e|] eqn:Ee; cbn.
        -- apply (mem_entry_some p k e Hg) in Ee. destruct Ee as (c & m' & Hc & _ & _ & _ & _ & _ & ->). done.
        -- apply mem_entry_none in Ee; [|apply Hg]. destruct Hg as (Hp & _). specialize (Hp k). unfold entry_ok, content in *.
           rewrite Ee in Hp. by destruct (dget k (sessions p)).
Qed.

Lemma mem_delete_spec p sid tenant :
  mem_good p ->
  (mem_good (delete p sid tenant) /\ ttl_default (delete p sid tenant) = ttl_default p /\
   forall k', k' <> scoped_key sid tenant -> mem_entry (delete p sid tenant) k' = mem_entry p k') /\
  mem_entry (delete p sid tenant) (scoped_key sid tenant) = None.
Proof.
  intros Hg.
  assert (E0 : dget (scoped_key sid tenant) (session_metadata (delete p sid tenant)) = None) by (unfold delete; cbn; apply dget_dpop_eq).
  destruct (mem_good_frame p (delete p sid tenant) (scoped_key sid tenant)) as [Hg' Hother].
  - done.
  - apply provider_ok_delete, Hg.
  - apply NoDup_dpop, Hg.
  - intros k' Hne. by apply (other_key_kept iso "" p (ODelete sid tenant) (scoped_key sid tenant)); [apply Hg|..].
  - intros c m _ Hm. congruence.
  - split; [by split_and!|]. unfold mem_entry. rewrite E0. by case_match.
Qed.

(** What a successful update leaves behind. *)
Lemma mem_update_ok p c ttl ev now p' v m :
  mem_good p -> clean_name (session_id c) (tenant_id c) = true ->
  update (alloc p c).2 (length (heap p)) ttl ev now = Ok p' ->
  p' = with_tables (mutate (alloc p c).2 (length (heap p)) (fun c => set_version c v))
         (dset (context_key c) (length (heap p)) (sessions p)) (dset (context_key c) m (session_metadata p)) ->
  meta_session_id m = session_id c -> meta_tenant_id m = tenant_id c -> is_active m = true ->
  (mem_good p' /\ ttl_default p' = ttl_default p /\ forall k', k' <> context_key c -> mem_entry p' k' = mem_entry p k') /\
  mem_entry p' (context_key c) = Some {| context := set_version c v; born := created_at m; until := expires_at m |}.
Proof.
  intros Hg Hn Hu Hp' Hm1 Hm2 Hm3.
  assert (Hr : heap (alloc p c).2 !! length (heap p) = Some c) by (cbn; by rewrite lookup_app_r, Nat.sub_diag).
  assert (Hk : content p' (context_key c) = Some (set_version c v) /\
               dget (context_key c) (session_metadata p') = Some m).
  { rewrite Hp'. unfold content. cbn. rewrite !dget_dset_eq. cbn. rewrite list_lookup_alter_eq. cbn in Hr. by rewrite Hr. }
  destruct Hk as [Hc Hm].
  destruct (mem_good_frame p p' (context_key c)) as [Hg' Hother].
  - done.
  - eapply provider_ok_update; [|exact Hu]. apply provider_ok_alloc, Hg.
  - rewrite Hp'. cbn. apply NoDup_dset, Hg.
  - intros k' Hne.
    destruct (other_key_kept iso "" (alloc p c).2 (OUpdate (length (heap p)) ttl ev now) (context_key c) k') as [E1 E2].
    + apply provider_ok_alloc, Hg.
    + cbn [op_key]. by rewrite Hr.
    + done.
    + cbn [apply_op] in E1, E2. rewrite Hu in E1, E2. split; [|exact E2]. rewrite E1. apply content_alloc, Hg.
  - rewrite Hc, Hm. intros ? ? [= <-] [= <-]. by split_and!.
  - split; [split_and!; [done | by rewrite Hp' | done]|]. unfold mem_entry. by rewrite Hc, Hm.
Qed.

Lemma mem_update_spec p c ttl ev now :
  mem_good p -> clean_name (session_id c) (tenant_id c) = true ->
  match mem_entry p (context_key c) with
  | Some e =>
      if Z.eqb (expected c ev) 0 || Z.eqb (expected c ev) (version (context e))
      then exists p' e', mem_update p c ttl ev now = Ok p' /\
        (mem_good p' /\ ttl_default p' = ttl_default p /\ forall k', k' <> context_key c -> mem_entry p' k' = mem_entry p k') /\
        mem_entry p' (context_key c) = Some e' /\
        same_stored e' {| context := set_version c (version (context e) + 1); born := born e;
                          until := match ttl with Some _ => deadline (ttl_default p) ttl now | None => until e end |}
      else mem_update p c ttl ev now = Err (conflict c (expected c ev) (version (context e)))
  | None =>
      disputed c ev = false ->
      if Z.eqb (expected c ev) 0
      then exists p' e', mem_update p c ttl ev now = Ok p' /\
        (mem_good p' /\ ttl_default p' = ttl_default p /\ forall k', k' <> context_key c -> mem_entry p' k' = mem_entry p k') /\
        mem_entry p' (context_key c) = Some e' /\
        same_stored e' {| context := set_version c 1; born := now; until := deadline (ttl_default p) ttl now |}
      else mem_update p c ttl ev now = Err (conflict c (expected c ev) 0)
  end.
Proof.
  intros Hg Hn.
  assert (Hr : (heap p ++ [c])%list !! length (heap p) = Some c) by (by rewrite lookup_app_r, Nat.sub_diag).
  assert (Hex : expected c ev = match ev with Some e => e | None => version c end) by (by destruct ev).
  destruct (mem_entry p (context_key c)) as [e|] eqn:Ee.
  - apply (mem_entry_some p _ e Hg) in Ee as (c0 & m & Hc0 & Hm & Hk0 & Hv & _ & (Hn1 & Hn2 & Ha & Hclean) & ->). cbn [context born until].
    apply clean_key_inj in Hk0 as [Hs Ht]; [|done|done].
    assert (Hun : mem_update p c ttl ev now = update (alloc p c).2 (length (heap p)) ttl ev now) by done.
    rewrite Hun. unfold update. cbn [alloc snd heap session_metadata sessions]. rewrite Hr, Hm, <-Hex, Hv.
    destruct (_ || _) eqn:Eb.
    + assert (Hb : negb (expected c ev =? 0)%Z && negb (expected c ev =? meta_version m)%Z = false) by (by rewrite <-negb_orb, Eb).
      rewrite Hb. do 2 eexists. split; [done|].
      match goal with |- _ /\ mem_entry ?q _ = _ /\ _ => destruct (mem_update_ok p c ttl ev now q (meta_version m + 1)
        (bump m (match ttl with Some _ => expiry p ttl now | None => expires_at m end))) as [H1 H2] end.
      * done.
      * done.
      * unfold update. cbn [alloc snd heap session_metadata sessions]. rewrite Hr, Hm, <-Hex, Hb. done.
      * done.
      * cbn. congruence.
      * cbn. congruence.
      * done.
      * split; [exact H1|]. split; [exact H2|]. split; [by split_and!|]. split; [done|]. cbn. by destruct ttl.
    + assert (Hb : negb (expected c ev =? 0)%Z && negb (expected c ev =? meta_version m)%Z = true) by (by rewrite <-negb_orb, Eb).
      by rewrite Hb.
  - apply mem_entry_none in Ee; [|apply Hg]. intros Hd.
    assert (Hun : mem_update p c ttl ev now = update (alloc p c).2 (length (heap p)) ttl ev now) by done.
    rewrite Hun.
    assert (Hb : negb (match ev with None => true | Some e => Z.eqb e 0 end) || negb (Z.eqb (version c) 0 || Z.eqb (version c) 1)
                 = negb (expected c ev =? 0)%Z).
    { rewrite Hex. unfold disputed in Hd. destruct ev as [e|]; cbn [negb orb].
      - destruct (e =? 0)%Z; cbn [negb orb andb] in *; done.
      - rewrite Hd, orb_false_r. done. }
    unfold update. cbn [alloc snd heap session_metadata sessions]. rewrite Hr, Ee, Hb, <-Hex.
    destruct (expected c ev =? 0)%Z eqn:E0; cbn [negb]; [|done].
    do 2 eexists. split; [done|].
    match goal with |- _ /\ mem_entry ?q _ = _ /\ _ => destruct (mem_update_ok p c ttl ev now q 1
        (fresh_metadata p (session_id c) (tenant_id c) ttl now)) as [H1 H2] end; try done.
    unfold update. cbn [alloc snd heap session_metadata sessions]. by rewrite Hr, Ee, Hb.
Qed.

Lemma mem_entry_meta p k m :
  mem_good p -> dget k (session_metadata p) = Some m ->
  scoped_key (meta_session_id m) (meta_tenant_id m) = k /\
  exists e, mem_entry p k = Some e /\ summary e = m /\ until e = expires_at m /\ is_active m = true.
Proof.
  intros Hg Hm. destruct (mem_entry p k) as [e|] eqn:Ee.
  - pose proof Ee as Ee'. apply (mem_entry_some p k e Hg) in Ee'.
    destruct Ee' as (c & m' & Hc & Hm' & Hk & Hv & _ & (H1 & H2 & H3 & _) & ->). assert (m' = m) as -> by congruence.
    rewrite H1, H2. split; [done|]. eexists. split; [done|]. split_and!; [|done|done].
    unfold summary. cbn. rewrite <-H1, <-H2, Hv, <-H3. by destruct m.
  - apply mem_entry_none in Ee; [congruence | apply Hg].
Qed.

Lemma mem_list_deletes l p :
  mem_good p -> NoDup l.*1 -> (forall e, e ∈ l -> dget e.1 (session_metadata p) = Some e.2) ->
  let q := foldl (fun p e => match dget e.1 (session_metadata p) with
                             | Some m => delete p (meta_session_id m) (meta_tenant_id m) | None => p end) p l in
  mem_good q /\ ttl_default q = ttl_default p /\ forall k, mem_entry q k = if memb k l.*1 then None else mem_entry p k.
Proof.
  revert p. induction l as [|[k m] l IH]; intros p Hg Hnd Hl; cbn zeta; cbn [foldl fst snd].
  - split_and!; [done|done|]. intros k. unfold memb. by rewrite bool_decide_false by (by intros ?%elem_of_nil).
  - pose proof (Hl (k, m) (list_elem_of_here _ _)) as Hm. cbn [fst snd] in Hm. rewrite Hm. apply NoDup_cons in Hnd as [Hk Hnd].
    destruct (mem_entry_meta p k m Hg Hm) as (Hkey & _).
    destruct (mem_delete_spec p (meta_session_id m) (meta_tenant_id m) Hg) as ((Hg' & Ht & Hother) & Hnone).
    rewrite Hkey in Hother, Hnone. destruct (IH _ Hg' Hnd) as (H1 & H2 & H3).
    + intros e He. unfold delete. cbn. rewrite Hkey. rewrite dget_dpop_ne; [apply Hl; by right|].
      intros Hek. apply Hk. apply list_elem_of_fmap. by exists e.
    + split_and!; [done | congruence|]. intros k'. rewrite H3. cbn [fmap list_fmap fst]. unfold memb.
      destruct (decide (k' = k)) as [->|Hne].
      * rewrite Hnone. rewrite (bool_decide_true (k ∈ k :: _)) by left. by case_bool_decide.
      * rewrite Hother by done. case_bool_decide as E1; case_bool_decide as E2; try done.
        -- destruct E2. by right.
        -- apply elem_of_cons in E2 as [?|?]; done.
Qed.

Lemma mem_list_spec p tenant now l p' :
  mem_good p -> list_active p tenant now = (l, p') ->
  mem_good p' /\ ttl_default p' = ttl_default p /\ NoDup l /\
  (forall m, m ∈ l <-> exists k e, mem_entry p k = Some e /\ tenant_visible tenant (summary e) = true /\
                                   lapsed e now = false /\ m = summary e) /\
  (forall k, mem_entry p' k = mem_entry p k \/ mem_entry p' k = None /\ exists e, mem_entry p k = Some e /\ lapsed e now = true) /\
  (forall k e, mem_entry p' k = Some e -> tenant_visible tenant (summary e) = true -> lapsed e now = false).
Proof.
  intros Hg Hl. pose proof Hg as (Hp & Hnd & _). unfold list_active in Hl. injection Hl as <- <-.
  set (mine := filterb (fun e => tenant_visible tenant e.2) (session_metadata p)).
  assert (Hin : forall e, e ∈ session_metadata p -> dget e.1 (session_metadata p) = Some e.2)
    by (intros [k m] He; by apply elem_dget).
  assert (Hmine : forall e, e ∈ mine -> e ∈ session_metadata p /\ tenant_visible tenant e.2 = true)
    by (intros e He; by apply elem_of_filterb in He).
  destruct (mem_list_deletes (filterb (fun e => is_expired e.2 now) mine) p Hg) as (H1 & H2 & H3).
  - by apply NoDup_filterb, NoDup_filterb.
  - intros e He. apply elem_of_filterb in He as [He _]. apply Hin, Hmine, He.
  - split_and!; [done|done| | | |].
    + apply NoDup_fmap_2_strong; [|by apply (NoDup_fmap_1 fst), NoDup_filterb, NoDup_filterb].
      intros [k1 m1] [k2 m2] He1 He2 Heq. cbn in Heq. subst m2. apply elem_of_filterb in He1 as [He1 _], He2 as [He2 _].
      destruct (mem_entry_meta p k1 m1 Hg (Hin _ (proj1 (Hmine _ He1)))) as [<- _].
      by destruct (mem_entry_meta p k2 m1 Hg (Hin _ (proj1 (Hmine _ He2)))) as [<- _].
    + intros m. rewrite list_elem_of_fmap. split.
      * intros ((k & m') & -> & He). apply elem_of_filterb in He as [He Hex]. destruct (Hmine _ He) as [He' Hv]. cbn in *.
        destruct (mem_entry_meta p k m' Hg (Hin _ He')) as (_ & e & Ee & Hs & Hu & Ha). exists k, e.
        rewrite Hs. split_and!; try done. apply negb_true_iff in Hex. rewrite is_expired_active in Hex by done.
        unfold lapsed. by rewrite Hu.
      * intros (k & e & Ee & Hv & Hlap & ->). pose proof Ee as Ee'. apply (mem_entry_some p k e Hg) in Ee'.
        destruct Ee' as (c & m & _ & Hm & _ & _ & _ & _ & _). destruct (mem_entry_meta p k m Hg Hm) as (_ & e' & Ee' & Hs & Hu & Ha).
        assert (e' = e) as -> by congruence. exists (k, m). split; [done|]. apply elem_of_filterb. cbn.
        split; [apply elem_of_filterb; split; [by apply dget_elem | cbn; by rewrite <-Hs]|].
        rewrite is_expired_active by done. unfold lapsed in Hlap. rewrite Hu in Hlap. by rewrite Hlap.
    + intros k. rewrite H3. destruct (memb k _) eqn:Em; [right | by left]. split; [done|].
      apply memb_true, list_elem_of_fmap in Em as ([k' m] & -> & He). apply elem_of_filterb in He as [He Hex]. cbn in *.
      destruct (mem_entry_meta p k' m Hg (Hin _ (proj1 (Hmine _ He)))) as (_ & e & Ee & _ & Hu & Ha).
      exists e. split; [done|]. rewrite is_expired_active in Hex by done. unfold lapsed. by rewrite Hu.
    + intros k e He Hv. rewrite H3 in He. destruct (memb k _) eqn:Em; [done|]. pose proof He as Ee'.
      apply (mem_entry_some p k e Hg) in Ee'. destruct Ee' as (c & m & _ & Hm & _ & _ & _ & _ & _).
      destruct (mem_entry_meta p k m Hg Hm) as (_ & e' & Ee' & Hs & Hu & Ha). assert (e' = e) as -> by congruence.
      apply memb_false in Em. destruct (lapsed e now) eqn:El; [|done]. destruct Em. apply list_elem_of_fmap.
      exists (k, m). split; [done|]. apply elem_of_filterb. split; [apply elem_of_filterb; split; [by apply dget_elem | cbn; by rewrite <-Hs]|].
      cbn. rewrite is_expired_active by done. unfold lapsed in El. by rewrite <-Hu.
Qed.

#[export] Program Instance memory_sessions : SessionProvider InMemorySessionProvider := {|
  sp_create := mem_create; sp_get := mem_get; sp_update := mem_update; sp_delete := delete; sp_list := list_active;
  good := mem_good; entry := mem_entry; default_ttl := ttl_default
|}.
Next Obligation.
  intros p k e Hg He. apply (mem_entry_some p k e Hg) in He as (c & m & _ & _ & Hk & Hv & Hpos & (_ & _ & _ & Hc) & ->).
  cbn [context]. split_and!; [done|done|lia].
Qed.
Next Obligation. intros. by apply mem_create_spec. Qed.
Next Obligation. intros p sid tenant now r p' Hg _. by apply mem_get_spec. Qed.
Next Obligation. intros. by apply mem_update_spec. Qed.
Next Obligation. intros. by apply mem_delete_spec. Qed.
Next Obligation. intros p tenant now l p' Hg. by apply mem_list_spec. Qed.

Lemma mem_good_new ttl : mem_good (new_provider ttl).
Proof. split_and!; [by intros k | constructor | by intros k c m]. Qed.

End memory.

(** ** The SQLite provider

    A table with the storage key as its primary key; [INSERT OR REPLACE] removes
    the row with the key and appends the new one.  Timestamps are the instants
    their ISO texts denote. *)

Record session_row : Type := {
  row_context : string;
  row_created_at : Q;
  row_expires_at : option Q;
  row_active : bool;
  row_version : Z
}.

Record SqliteSessionProvider : Type := { rows : list (string * session_row); sql_ttl : option Q }.

Definition with_rows (p : SqliteSessionProvider) (rs : list (string * session_row)) : SqliteSessionProvider :=
  {| rows := rs; sql_ttl := sql_ttl p |}.

Section sqlite.
(** [datetime.isoformat], [json.dumps(default=str)] and [json.loads]. *)
Context (iso : Q -> string) (dumps : json -> string) (loads : string -> option json).
Hypothesis loads_dumps : forall j, loads (dumps j) = Some j.

Definition version_or_one (v : Z) : Z := if Z.eqb v 0 then 1%Z else v.

Definition payload (c : SessionContext) : json :=
  JObj [("messages", JList (messages c)); ("session_id", JStr (session_id c));
        ("tenant_id", match tenant_id c with Some t => JStr t | None => JNull end);
        ("version", JInt (version_or_one (version c))); ("metadata", JObj (plain_metadata c));
        ("caller_context", JObj (caller_context c))].

(** [_write] *)
Definition write (p : SqliteSessionProvider) (sid : string) (c : SessionContext) (created : Q) (expires : option Q)
  : SqliteSessionProvider :=
  with_rows p (dpop sid (rows p) ++
    [(sid, {| row_context := dumps (payload c); row_created_at := created; row_expires_at := expires;
              row_active := true; row_version := version_or_one (version c) |})])%list.

(** [_row_expired] *)
Definition row_expired (r : session_row) (now : Q) : bool :=
  if negb (row_active r) then true
  else match row_expires_at r with None => false | Some t => (t <=? now)%clock end.

(** [_row_to_context].  The payload is one that [write] wrote; the defaults are
    those of the code for a key that is not there. *)
Definition row_to_context (k : string) (r : session_row) : SessionContext :=
  let data := match loads (row_context r) with Some (JObj d) => d | _ => [] end in
  {| session_id := match dget "session_id" data with Some (JStr s) => if str_truthy s then s else k | _ => k end;
     tenant_id := match dget "tenant_id" data with Some (JStr t) => Some t | _ => None end;
     version := if Z.eqb (row_version r) 0
                then match dget "version" data with Some (JInt v) => version_or_one v | _ => 1%Z end
                else row_version r;
     messages := match dget "messages" data with Some (JList l) => l | _ => [] end;
     metadata := dset "created_at" (JStr (iso (row_created_at r)))
                   match dget "metadata" data with Some (JObj d) => d | _ => [] end;
     caller_context := match dget "caller_context" data with Some (JObj d) => d | _ => [] end |}.

Definition sql_create (p : SqliteSessionProvider) (uuid : string) (sid : option string) (ttl : option Q)
    (tenant : option string) (now : Q) : SessionContext * SqliteSessionProvider :=
  let id := opt_or sid uuid in
  let c := {| session_id := id; messages := []; metadata := [("created_at", JStr (iso now))]; caller_context := [];
              tenant_id := tenant; version := 1 |} in
  (c, write p (scoped_key id tenant) c now (deadline (sql_ttl p) ttl now)).

Definition sql_delete (p : SqliteSessionProvider) (sid : string) (tenant : option string) : SqliteSessionProvider :=
  with_rows p (dpop (scoped_key sid tenant) (rows p)).

Definition sql_get (p : SqliteSessionProvider) (sid : string) (tenant : option string) (now : Q)
  : option SessionContext * SqliteSessionProvider :=
  let k := scoped_key sid tenant in
  match dget k (rows p) with
  | None => (None, p)
  | Some r => if row_expired r now then (None, sql_delete p sid tenant) else (Some (row_to_context k r), p)
  end.

Definition sql_update (p : SqliteSessionProvider) (c : SessionContext) (ttl : option Q) (ev : option Z) (now : Q)
  : result StateConflictError SqliteSessionProvider :=
  let k := context_key c in
  let row := dget k (rows p) in
  let actual := from_option (fun r => version_or_one (row_version r)) 0%Z row in
  let exp := expected c ev in
  if (if Z.eqb actual 0 then negb (Z.eqb exp 0) else negb (Z.eqb exp 0) && negb (Z.eqb exp actual))
  then Err (conflict c exp actual)
  else
    let c := set_version c (actual + 1) in
    (* the row's creation time; the statement that sets it once more changes nothing *)
    let created := from_option row_created_at now row in
    let expires := match ttl, row with
                   | None, Some r => row_expires_at r
                   | _, _ => deadline (sql_ttl p) ttl now
                   end in
    Ok (write p k c created expires).

Definition row_summary (k : string) (r : session_row) : SessionMetadata :=
  let c := row_to_context k r in
  {| meta_session_id := session_id c; created_at := row_created_at r; expires_at := row_expires_at r;
     is_active := true; meta_tenant_id := tenant_id c; meta_version := version c |}.

(** [_list_active]: expired rows of every tenant are deleted. *)
Definition sql_list (p : SqliteSessionProvider) (tenant : option string) (now : Q)
  : list SessionMetadata * SqliteSessionProvider :=
  let live := filterb (fun e => negb (row_expired e.2 now)) (rows p) in
  let visible := filterb (fun e => match tenant with
                                   | None => true
                                   | Some _ => bool_decide (tenant_id (row_to_context e.1 e.2) = tenant)
                                   end) live in
  ((fun e => row_summary e.1 e.2) <$> visible,
   with_rows p live).

(** *** It implements the interface *)

Definition sql_entry (p : SqliteSessionProvider) (k : string) : option stored :=
  (fun r => {| context := row_to_context k r; born := row_created_at r; until := row_expires_at r |}) <$> dget k (rows p).

(** A row is what [write] wrote of a context under its key. *)
Definition row_ok (k : string) (r : session_row) : Prop :=
  row_active r = true /\
  exists c, row_context r = dumps (payload c) /\ row_version r = version c /\ context_key c = k /\
    clean_name (session_id c) (tenant_id c) = true /\ (1 <= version c)%Z.

Definition sql_good (p : SqliteSessionProvider) : Prop :=
  NoDup (dkeys (rows p)) /\ forall k r, dget k (rows p) = Some r -> row_ok k r.

(** Metadata is a dictionary: what comes back differs in the creation time only. *)
Lemma filter_dset_same (k : string) (v : json) d :
  filterb (fun e => negb (String.eqb e.1 k)) (dset k v d) = filterb (fun e => negb (String.eqb e.1 k)) d.
Proof.
  induction d as [|[k' v'] d IH]; cbn.
  - by rewrite String.eqb_refl.
  - case_decide as E; cbn.
    + subst. by rewrite String.eqb_refl.
    + by rewrite IH.
Qed.

Lemma row_context_same k r c :
  row_context r = dumps (payload c) -> row_version r = version c -> (1 <= version c)%Z -> str_truthy (session_id c) = true ->
  same_context (row_to_context k r) c.
Proof.
  intros Hr Hv Hpos Hs. unfold same_context, row_to_context, plain_metadata. rewrite Hr, loads_dumps, Hv. unfold payload. cbn.
  rewrite (proj2 (Z.eqb_neq (version c) 0)) by lia. rewrite filter_dset_same. split_and!; try done.
  - by destruct (session_id c).
  - unfold plain_metadata. apply filterb_all. intros e He. by apply elem_of_filterb in He as [_ ?].
  - by destruct (tenant_id c).
Qed.

Lemma dget_append {V} (k k' : string) (v : V) d : dget k (dpop k' d ++ [(k', v)]) = if decide (k = k') then Some v else dget k d.
Proof.
  rewrite <-dset_fresh by apply dget_dpop_eq. rewrite dget_dset. case_decide as E; [done|]. by apply dget_dpop_ne.
Qed.

Lemma write_spec p k c created expires :
  sql_good p -> context_key c = k -> clean_name (session_id c) (tenant_id c) = true -> (1 <= version c)%Z ->
  (sql_good (write p k c created expires) /\ sql_ttl (write p k c created expires) = sql_ttl p /\
   forall k', k' <> k -> sql_entry (write p k c created expires) k' = sql_entry p k') /\
  exists e, sql_entry (write p k c created expires) k = Some e /\
    same_stored e {| context := c; born := created; until := expires |}.
Proof.
  intros [Hnd Hok] Hk Hc Hpos.
  assert (Hv : version_or_one (version c) = version c) by (unfold version_or_one; by rewrite (proj2 (Z.eqb_neq _ 0)) by lia).
  split; [split_and!|].
  - split.
    + unfold write. cbn. rewrite <-dset_fresh by apply dget_dpop_eq. by apply NoDup_dset, NoDup_dpop.
    + intros k' r. unfold write. cbn. rewrite dget_append. case_decide as E; [|apply Hok]. intros [= <-]. subst k'.
      split; [done|]. exists c. cbn. by rewrite Hv.
  - done.
  - intros k' Hne. unfold sql_entry, write. cbn. rewrite dget_append. by rewrite decide_False.
  - unfold sql_entry, write. cbn. rewrite dget_append, decide_True by done. eexists. split; [done|].
    split_and!; [|done|done]. cbn [context]. apply row_context_same; cbn; try done.
    unfold clean_name in Hc. by apply andb_prop in Hc as [[? _]%andb_prop _].
Qed.
Lemma sql_entry_some p k e :
  sql_good p -> sql_entry p k = Some e ->
  exists r, dget k (rows p) = Some r /\ e = {| context := row_to_context k r; born := row_created_at r; until := row_expires_at r |} /\
    row_active r = true /\ row_version r = version (context e) /\ (1 <= version (context e))%Z /\
    clean_name (session_id (context e)) (tenant_id (context e)) = true /\ context_key (context e) = k.
Proof.
  intros [_ Hok]. unfold sql_entry. destruct (dget k (rows p)) as [r|] eqn:Hr; [|done]. intros [= <-].
  destruct (Hok _ _ Hr) as (Ha & c & Hc & Hv & Hk & Hn & Hpos).
  assert (Hs : str_truthy (session_id c) = true) by (unfold clean_name in Hn; by apply andb_prop in Hn as [[? _]%andb_prop _]).
  destruct (row_context_same k r c Hc Hv Hpos Hs) as (Hi & _ & _ & _ & Ht & Hver).
  exists r. cbn [context]. unfold context_key in *. rewrite Hi, Ht, Hver. by split_and!.
Qed.

Lemma row_expired_active r now : row_active r = true -> row_expired r now = from_option (fun t => (t <=? now)%clock) false (row_expires_at r).
Proof. unfold row_expired. intros ->. by destruct (row_expires_at r). Qed.

Lemma sql_keep p rs :
  sql_good p -> NoDup (dkeys rs) -> (forall k r, dget k rs = Some r -> dget k (rows p) = Some r) -> sql_good (with_rows p rs).
Proof. intros [_ Hok] Hnd Hsub. split; [done|]. intros k r Hr. by apply Hok, Hsub. Qed.

Lemma sql_delete_spec p sid tenant :
  sql_good p ->
  (sql_good (sql_delete p sid tenant) /\ sql_ttl (sql_delete p sid tenant) = sql_ttl p /\
   forall k', k' <> scoped_key sid tenant -> sql_entry (sql_delete p sid tenant) k' = sql_entry p k') /\
  sql_entry (sql_delete p sid tenant) (scoped_key sid tenant) = None.
Proof.
  intros Hg. split; [split_and!|].
  - apply sql_keep; [done | apply NoDup_dpop, Hg|]. intros k r Hr.
    destruct (decide (k = scoped_key sid tenant)) as [->|Hne]; [by rewrite dget_dpop_eq in Hr | by rewrite dget_dpop_ne in Hr].
  - done.
  - intros k' Hne. unfold sql_entry, sql_delete. cbn. by rewrite dget_dpop_ne.
  - unfold sql_entry, sql_delete. cbn. by rewrite dget_dpop_eq.
Qed.

Lemma sql_create_spec p uuid sid ttl tenant now c p' :
  let id := opt_or sid uuid in
  sql_good p -> clean_name id tenant = true -> sql_create p uuid sid ttl tenant now = (c, p') ->
  (sql_good p' /\ sql_ttl p' = sql_ttl p /\ forall k', k' <> scoped_key id tenant -> sql_entry p' k' = sql_entry p k') /\
  exists e, sql_entry p' (scoped_key id tenant) = Some e /\ context e = c /\
    same_stored e {| context := fresh_context id tenant; born := now; until := deadline (sql_ttl p) ttl now |}.
Proof.
  intros id Hg Hn. unfold sql_create. fold id. cbv zeta. intros [= <- <-].
  assert (Hs : str_truthy id = true) by (unfold clean_name in Hn; by apply andb_prop in Hn as [[? _]%andb_prop _]).
  match goal with |- context [write p ?k ?c ?b ?u] => destruct (write_spec p k c b u Hg) as [H1 (e & He & Hsame)]; [done|done|done|] end.
  split; [exact H1|]. exists e. split; [exact He|]. split; [|by etrans].
  unfold sql_entry, write in He. cbn [rows with_rows] in He. rewrite dget_append, decide_True in He by done.
  injection He as <-. cbn [context]. unfold row_to_context. cbn [row_context row_created_at row_version]. rewrite loads_dumps.
  unfold payload. cbn. destruct id; [done|]. by destruct tenant.
Qed.

Lemma sql_get_spec p sid tenant now r p' :
  sql_good p -> sql_get p sid tenant now = (r, p') ->
  (sql_good p' /\ sql_ttl p' = sql_ttl p /\ forall k', k' <> scoped_key sid tenant -> sql_entry p' k' = sql_entry p k') /\
  sql_entry p' (scoped_key sid tenant) =
    (e ← sql_entry p (scoped_key sid tenant); if lapsed e now then None else Some e) /\
  r = context <$> sql_entry p' (scoped_key sid tenant).
Proof.
  intros Hg. unfold sql_get. destruct (dget (scoped_key sid tenant) (rows p)) as [row|] eqn:Hr.
  - assert (Ha : row_active row = true) by (by apply Hg in Hr as [? _]).
    assert (He : sql_entry p (scoped_key sid tenant) = Some {| context := row_to_context (scoped_key sid tenant) row;
              born := row_created_at row; until := row_expires_at row |}) by (unfold sql_entry; by rewrite Hr).
    rewrite He. cbn [mbind option_bind]. unfold lapsed. cbn [until]. rewrite row_expired_active by done.
    destruct (from_option _ _ _) eqn:El; intros [= <- <-].
    + destruct (sql_delete_spec p sid tenant Hg) as [H1 H2]. split; [exact H1|]. by rewrite H2.
    + split; [done|]. by rewrite He.
  - assert (He : sql_entry p (scoped_key sid tenant) = None) by (unfold sql_entry; by rewrite Hr).
    rewrite He. intros [= <- <-]. split; [done|]. by rewrite He.
Qed.

Lemma sql_update_spec p c ttl ev now :
  sql_good p -> clean_name (session_id c) (tenant_id c) = true ->
  match sql_entry p (context_key c) with
  | Some e =>
      if Z.eqb (expected c ev) 0 || Z.eqb (expected c ev) (version (context e))
      then exists p' e', sql_update p c ttl ev now = Ok p' /\
        (sql_good p' /\ sql_ttl p' = sql_ttl p /\ forall k', k' <> context_key c -> sql_entry p' k' = sql_entry p k') /\
        sql_entry p' (context_key c) = Some e' /\
        same_stored e' {| context := set_version c (version (context e) + 1); born := born e;
                          until := match ttl with Some _ => deadline (sql_ttl p) ttl now | None => until e end |}
      else sql_update p c ttl ev now = Err (conflict c (expected c ev) (version (context e)))
  | None =>
      if Z.eqb (expected c ev) 0
      then exists p' e', sql_update p c ttl ev now = Ok p' /\
        (sql_good p' /\ sql_ttl p' = sql_ttl p /\ forall k', k' <> context_key c -> sql_entry p' k' = sql_entry p k') /\
        sql_entry p' (context_key c) = Some e' /\
        same_stored e' {| context := set_version c 1; born := now; until := deadline (sql_ttl p) ttl now |}
      else sql_update p c ttl ev now = Err (conflict c (expected c ev) 0)
  end.
Proof.
  intros Hg Hn.
  assert (Hwrite : forall v b u, (1 <= v)%Z -> exists e', (sql_good (write p (context_key c) (set_version c v) b u) /\
            sql_ttl (write p (context_key c) (set_version c v) b u) = sql_ttl p /\
            forall k', k' <> context_key c -> sql_entry (write p (context_key c) (set_version c v) b u) k' = sql_entry p k') /\
            sql_entry (write p (context_key c) (set_version c v) b u) (context_key c) = Some e' /\
            same_stored e' {| context := set_version c v; born := b; until := u |}).
  { intros v b u Hv. destruct (write_spec p (context_key c) (set_version c v) b u Hg) as [H1 (e & He & Hs)]; [done..|].
    by exists e. }
  destruct (sql_entry p (context_key c)) as [e|] eqn:Ee.
  - apply (sql_entry_some p _ e Hg) in Ee as (r & Hr & -> & Ha & Hv & Hpos & _). cbn [context born until] in *.
    unfold sql_update. rewrite Hr. cbn [from_option].
    assert (Hvo : version_or_one (row_version r) = version (row_to_context (context_key c) r))
      by (unfold version_or_one; by rewrite (proj2 (Z.eqb_neq _ 0)) by lia).
    rewrite Hvo, (proj2 (Z.eqb_neq (version (row_to_context (context_key c) r)) 0)) by lia. rewrite <-negb_orb. destruct (_ || _); cbn [negb]; [|done].
    destruct (Hwrite (version (row_to_context (context_key c) r) + 1)%Z (row_created_at r)
                (match ttl with Some _ => deadline (sql_ttl p) ttl now | None => row_expires_at r end)) as (e' & H1 & H2 & H3); [lia|].
    do 2 eexists. split; [done|]. by destruct ttl.
  - assert (Hr : dget (context_key c) (rows p) = None) by (unfold sql_entry in Ee; by destruct (dget _ _)).
    unfold sql_update. rewrite Hr. cbn [from_option]. destruct (expected c ev =? 0)%Z; cbn [negb Z.eqb]; [|done].
    destruct (Hwrite 1%Z now (deadline (sql_ttl p) ttl now)) as (e' & H1 & H2 & H3); [lia|].
    do 2 eexists. split; [done|]. by destruct ttl.
Qed.

Lemma sql_entry_row p k r :
  sql_good p -> dget k (rows p) = Some r ->
  exists e, sql_entry p k = Some e /\ e = {| context := row_to_context k r; born := row_created_at r; until := row_expires_at r |} /\
    context_key (context e) = k /\ forall now, row_expired r now = lapsed e now.
Proof.
  intros Hg Hr. eexists. split; [unfold sql_entry; by rewrite Hr|]. split; [done|].
  assert (He : sql_entry p k = Some {| context := row_to_context k r; born := row_created_at r; until := row_expires_at r |})
    by (unfold sql_entry; by rewrite Hr).
  destruct (sql_entry_some p k _ Hg He) as (r' & Hr' & _ & Ha & _ & _ & _ & Hk).
  assert (r' = r) as -> by congruence. split; [exact Hk|]. intros now. by rewrite row_expired_active.
Qed.

Lemma sql_list_spec p tenant now l p' :
  sql_good p -> sql_list p tenant now = (l, p') ->
  sql_good p' /\ sql_ttl p' = sql_ttl p /\ NoDup l /\
  (forall m, m ∈ l <-> exists k e, sql_entry p k = Some e /\ tenant_visible tenant (summary e) = true /\
                                   lapsed e now = false /\ m = summary e) /\
  (forall k, sql_entry p' k = sql_entry p k \/ sql_entry p' k = None /\ exists e, sql_entry p k = Some e /\ lapsed e now = true) /\
  (forall k e, sql_entry p' k = Some e -> tenant_visible tenant (summary e) = true -> lapsed e now = false).
Proof.
  intros Hg. pose proof Hg as [Hnd Hok]. unfold sql_list.
  set (live := filterb (fun e => negb (row_expired e.2 now)) (rows p)). intros [= <- <-].
  assert (Hlive : forall k r, dget k live = Some r <-> dget k (rows p) = Some r /\ row_expired r now = false).
  { intros k r. split.
    - intros Hr. apply dget_elem, elem_of_filterb in Hr as [Hin Hx]. split; [by apply elem_dget | by apply negb_true_iff].
    - intros [Hr Hx]. apply elem_dget; [by apply NoDup_filterb|]. apply elem_of_filterb. cbn. rewrite Hx.
      split; [by apply dget_elem | done]. }
  assert (Hsum : forall k r, dget k (rows p) = Some r -> exists e, sql_entry p k = Some e /\
    row_summary k r = summary e /\
    context_key (context e) = k /\ row_expired r now = lapsed e now /\ tenant_id (row_to_context k r) = tenant_id (context e)).
  { intros k r Hr. destruct (sql_entry_row p k r Hg Hr) as (e & He & -> & Hk & Hx). eexists. split; [exact He|]. by split_and!. }
  split_and!.
  - apply sql_keep; [done | by apply NoDup_filterb|]. intros k r Hr. by apply Hlive in Hr as [? _].
  - done.
  - apply NoDup_fmap_2_strong; [|by apply (NoDup_fmap_1 fst), NoDup_filterb, NoDup_filterb].
    intros [k1 r1] [k2 r2] H1 H2. apply elem_of_filterb in H1 as [[H1 _]%elem_of_filterb _], H2 as [[H2 _]%elem_of_filterb _].
    apply (elem_dget k1) in H1; [|done]. apply (elem_dget k2) in H2; [|done]. cbn [fst snd].
    destruct (Hsum _ _ H1) as (e1 & _ & -> & Hk1 & _), (Hsum _ _ H2) as (e2 & _ & -> & Hk2 & _). intros Heq.
    assert (k1 = k2) as ->. { unfold context_key in *. unfold summary in Heq. injection Heq as Hi _ _ Ht _. by rewrite <-Hk1, <-Hk2, Hi, Ht. }
    congruence.
  - intros m. rewrite list_elem_of_fmap. split.
    + intros ([k r] & -> & [[Hin Hx]%elem_of_filterb Hv]%elem_of_filterb). cbn [fst snd] in *. apply (elem_dget k) in Hin; [|done].
      destruct (Hsum _ _ Hin) as (e & He & -> & _ & Hl & Ht). exists k, e. rewrite <-Hl. split_and!; [done| |by apply negb_true_iff|done].
      unfold tenant_visible. cbn [meta_tenant_id summary]. by rewrite <-Ht.
    + intros (k & e & He & Hv & Hl & ->). destruct (sql_entry_some p k e Hg He) as (r & Hr & _).
      destruct (Hsum _ _ Hr) as (e' & He' & Hs & _ & Hx & Ht). assert (e' = e) as -> by congruence.
      exists (k, r). split; [cbn [fst snd]; by rewrite Hs|]. apply elem_of_filterb. split.
      * apply elem_of_filterb. split; [by apply dget_elem | cbn [snd]; by rewrite Hx, Hl].
      * cbn [fst snd]. unfold tenant_visible in Hv. cbn [meta_tenant_id summary] in Hv.
        destruct tenant; [|done]. apply bool_decide_eq_true in Hv. apply bool_decide_eq_true. etrans; [exact Ht | exact Hv].
  - intros k. unfold sql_entry at 1 3. cbn [rows with_rows]. fold live. destruct (dget k (rows p)) as [r|] eqn:Hr.
    + destruct (Hsum _ _ Hr) as (e & He & _ & _ & Hx & _). destruct (row_expired r now) eqn:Ex.
      * right. split; [|by exists e]. destruct (dget k live) as [r'|] eqn:Hr'; [|done]. apply Hlive in Hr' as [? ?]. congruence.
      * left. rewrite (proj2 (Hlive k r)) by done. unfold sql_entry. by rewrite Hr.
    + left. unfold sql_entry. rewrite Hr. destruct (dget k live) as [r'|] eqn:Hr'; [|done]. apply Hlive in Hr' as [? ?]. congruence.
  - intros k e He _. unfold sql_entry in He. cbn [rows with_rows] in He. fold live in He.
    destruct (dget k live) as [r|] eqn:Hr; [|done]. apply Hlive in Hr as [Hr Hx]. injection He as <-.
    destruct (sql_entry_row p k r Hg Hr) as (e & _ & -> & _ & Hl). by rewrite <-Hl.
Qed.

#[export] Program Instance sqlite_sessions : SessionProvider SqliteSessionProvider := {|
  sp_create := sql_create; sp_get := sql_get; sp_update := sql_update; sp_delete := sql_delete; sp_list := sql_list;
  good := sql_good; entry := sql_entry; default_ttl := sql_ttl
|}.
Next Obligation. intros p k e Hg He. by destruct (sql_entry_some p k e Hg He) as (r & _ & _ & _ & _ & ? & ? & ?). Qed.
Next Obligation. intros. by apply sql_create_spec. Qed.
Next Obligation. intros p sid tenant now r p' Hg _. by apply sql_get_spec. Qed.
Next Obligation.
  intros p c ttl ev now Hg Hn. pose proof (sql_update_spec p c ttl ev now Hg Hn) as H. cbn beta in H |- *.
  destruct (sql_entry p (context_key c)); [exact H|]. intros _. exact H.
Qed.
Next Obligation. intros. by apply sql_delete_spec. Qed.
Next Obligation. intros p tenant now l p' Hg. by apply sql_list_spec. Qed.

Lemma sql_good_new ttl : sql_good {| rows := []; sql_ttl := ttl |}.
Proof. split; [constructor | done]. Qed.

End sqlite.

(** ** Any two providers agree

    Clients cannot tell two implementations of the interface apart, except by the
    updates in dispute and by what listing one tenant does to the expired sessions
    of others. *)

Inductive session_op : Type :=
  | SCreate (uuid : string) (sid : option string) (ttl : option Q) (tenant : option string) (now : Q)
  | SGet (sid : string) (tenant : option string) (now : Q)
  | SUpdate (c : SessionContext) (ttl : option Q) (ev : option Z) (now : Q)
  | SDelete (sid : string) (tenant : option string)
  | SList (tenant : option string) (now : Q).

Inductive session_reply : Type :=
  | RContext (c : SessionContext)
  | RFound (o : option SessionContext)
  | RDone
  | RConflict (e : StateConflictError)
  | RList (l : list SessionMetadata).

Inductive same_reply : session_reply -> session_reply -> Prop :=
  | same_created c d : same_context c d -> same_reply (RContext c) (RContext d)
  | same_found o o' : option_Forall2 same_context o o' -> same_reply (RFound o) (RFound o')
  | same_done : same_reply RDone RDone
  | same_conflict e : same_reply (RConflict e) (RConflict e)
  | same_list l l' : l ≡ₚ l' -> same_reply (RList l) (RList l').

Definition sp_step {P} `{SessionProvider P} (p : P) (o : session_op) : session_reply * P :=
  match o with
  | SCreate uuid sid ttl tenant now => let '(c, p) := sp_create p uuid sid ttl tenant now in (RContext c, p)
  | SGet sid tenant now => let '(r, p) := sp_get p sid tenant now in (RFound r, p)
  | SUpdate c ttl ev now => match sp_update p c ttl ev now with Ok p => (RDone, p) | Err e => (RConflict e, p) end
  | SDelete sid tenant => (RDone, sp_delete p sid tenant)
  | SList tenant now => let '(l, p) := sp_list p tenant now in (RList l, p)
  end.

Fixpoint sp_run {P} `{SessionProvider P} (p : P) (ops : list session_op) : list session_reply :=
  match ops with [] => [] | o :: ops => let '(r, p) := sp_step p o in r :: sp_run p ops end.

Definition admissible {P} `{SessionProvider P} (p : P) (o : session_op) : bool :=
  match o with
  | SCreate uuid sid _ tenant _ => clean_name (opt_or sid uuid) tenant
  | SGet sid tenant _ | SDelete sid tenant => clean_name sid tenant
  | SUpdate c _ ev _ => clean_name (session_id c) (tenant_id c) &&
                        match entry p (context_key c) with Some _ => true | None => negb (disputed c ev) end
  | SList tenant _ => bool_decide (tenant = None)
  end.

Fixpoint admissible_run {P} `{SessionProvider P} (p : P) (ops : list session_op) : bool :=
  match ops with [] => true | o :: ops => admissible p o && admissible_run (sp_step p o).2 ops end.

Section agreement.
Context {P Q : Type} `{HP : SessionProvider P} `{HQ : SessionProvider Q}.

Definition agree (p : P) (q : Q) : Prop :=
  good p /\ good q /\ default_ttl p = default_ttl q /\ forall k, option_Forall2 same_stored (entry p k) (entry q k).

Lemma agree_at p q p' q' k :
  agree p q -> only_at k p p' -> only_at k q q' -> option_Forall2 same_stored (entry p' k) (entry q' k) -> agree p' q'.
Proof.
  intros (_ & _ & Ht & Hk) (Hp & Hpt & Hpk) (Hq & Hqt & Hqk) He. split_and!; [done | done | congruence|].
  intros k'. destruct (decide (k' = k)) as [->|Hne]; [done|]. by rewrite Hpk, Hqk.
Qed.

Lemma same_stored_found o o' : option_Forall2 same_stored o o' -> option_Forall2 same_context (context <$> o) (context <$> o').
Proof. destruct 1 as [e f [Hc _]|]; by constructor. Qed.

Lemma agree_create p q uuid sid ttl tenant now :
  agree p q -> clean_name (opt_or sid uuid) tenant = true ->
  same_context (sp_create p uuid sid ttl tenant now).1 (sp_create q uuid sid ttl tenant now).1 /\
  agree (sp_create p uuid sid ttl tenant now).2 (sp_create q uuid sid ttl tenant now).2.
Proof.
  intros Ha Hn. pose proof Ha as (Hp & Hq & Ht & _).
  destruct (sp_create p _ _ _ _ _) as [c p'] eqn:Ep, (sp_create q _ _ _ _ _) as [d q'] eqn:Eq. cbn [fst snd].
  destruct (create_spec _ _ _ _ _ _ _ _ Hp Hn Ep) as (Hop & e & He & <- & Hse).
  destruct (create_spec _ _ _ _ _ _ _ _ Hq Hn Eq) as (Hoq & f & Hf & <- & Hsf).
  assert (Hsame : same_stored e f) by (rewrite Hse, Hsf; by rewrite Ht).
  split; [apply Hsame|]. apply (agree_at p q p' q' _ Ha Hop Hoq). rewrite He, Hf. by constructor.
Qed.

Lemma providers_get p q sid tenant now :
  agree p q -> clean_name sid tenant = true ->
  option_Forall2 same_context (sp_get p sid tenant now).1 (sp_get q sid tenant now).1 /\
  agree (sp_get p sid tenant now).2 (sp_get q sid tenant now).2.
Proof.
  intros Ha Hn. pose proof Ha as (Hp & Hq & Ht & Hk).
  destruct (sp_get p _ _ _) as [r p'] eqn:Ep, (sp_get q _ _ _) as [s q'] eqn:Eq. cbn [fst snd].
  destruct (get_spec _ _ _ _ _ _ Hp Hn Ep) as (Hop & He & ->), (get_spec _ _ _ _ _ _ Hq Hn Eq) as (Hoq & Hf & ->).
  assert (Hsame : option_Forall2 same_stored (entry p' (scoped_key sid tenant)) (entry q' (scoped_key sid tenant))).
  { rewrite He, Hf. destruct (Hk (scoped_key sid tenant)) as [e f Hef|]; cbn; [|constructor].
    rewrite Hef. destruct (lapsed f now); by constructor. }
  split; [by apply same_stored_found | by apply (agree_at p q p' q' _ Ha Hop Hoq)].
Qed.

Lemma agree_update p q c ttl ev now :
  agree p q -> clean_name (session_id c) (tenant_id c) = true ->
  (entry p (context_key c) = None -> disputed c ev = false) ->
  (exists p' q', sp_update p c ttl ev now = Ok p' /\ sp_update q c ttl ev now = Ok q' /\ agree p' q') \/
  (exists e, sp_update p c ttl ev now = Err e /\ sp_update q c ttl ev now = Err e).
Proof.
  intros Ha Hn Hd. pose proof Ha as (Hp & Hq & Ht & Hk).
  pose proof (update_spec p c ttl ev now Hp Hn) as Up. pose proof (update_spec q c ttl ev now Hq Hn) as Uq.
  destruct (Hk (context_key c)) as [e f Hef|].
  - pose proof Hef as ((_ & _ & _ & _ & _ & Hv) & Hb & Hu). rewrite Hv in Up. rewrite Ht, Hb, Hu in Up.
    destruct (_ || _); [left | right; by eauto].
    destruct Up as (p' & e' & Ep & Hop & He & Hse), Uq as (q' & f' & Eq & Hoq & Hf & Hsf).
    exists p', q'. split_and!; [done | done|]. apply (agree_at p q p' q' _ Ha Hop Hoq). rewrite He, Hf. constructor.
    by rewrite Hse, Hsf.
  - specialize (Up (Hd eq_refl)). specialize (Uq (Hd eq_refl)). rewrite Ht in Up.
    destruct (_ =? 0)%Z; [left | right; by eauto].
    destruct Up as (p' & e' & Ep & Hop & He & Hse), Uq as (q' & f' & Eq & Hoq & Hf & Hsf).
    exists p', q'. split_and!; [done | done|]. apply (agree_at p q p' q' _ Ha Hop Hoq). rewrite He, Hf. constructor.
    by rewrite Hse, Hsf.
Qed.

(** What a listing of every tenant leaves of an entry. *)
Lemma list_entries {T} `{SessionProvider T} (p : T) now k :
  good p -> entry (sp_list p None now).2 k = (e ← entry p k; if lapsed e now then None else Some e).
Proof.
  intros Hp. destruct (sp_list p None now) as [l p'] eqn:E. cbn [snd].
  destruct (list_spec _ _ _ _ _ Hp E) as (_ & _ & _ & _ & Hsub & Hlive).
  destruct (Hsub k) as [Heq|(Hnone & e & He & Hl)].
  - rewrite Heq. destruct (entry p k) as [e|] eqn:He; [|done]. cbn. by rewrite (Hlive k e Heq eq_refl).
  - rewrite Hnone, He. cbn. by rewrite Hl.
Qed.

Lemma agree_list p q now :
  agree p q -> (sp_list p None now).1 ≡ₚ (sp_list q None now).1 /\ agree (sp_list p None now).2 (sp_list q None now).2.
Proof.
  intros (Hp & Hq & Ht & Hk).
  pose proof (fun k => list_entries p now k Hp) as Lp. pose proof (fun k => list_entries q now k Hq) as Lq.
  destruct (sp_list p None now) as [l p'] eqn:Ep, (sp_list q None now) as [l' q'] eqn:Eq. cbn [fst snd] in *.
  destruct (list_spec _ _ _ _ _ Hp Ep) as (Hp' & Hpt & Hnd & Hin & _).
  destruct (list_spec _ _ _ _ _ Hq Eq) as (Hq' & Hqt & Hnd' & Hin' & _). split.
  - apply NoDup_Permutation; [done | done|]. intros m. rewrite Hin, Hin'. clear -Hk.
    split; intros (k & e & He & _ & Hl & ->); specialize (Hk k); rewrite He in Hk.
    + inversion Hk as [? f Hef E1 E2|]; subst. exists k, f. rewrite Hef in Hl. rewrite Hef. by split_and!.
    + inversion Hk as [f ? Hef E1 E2|]; subst. exists k, f. rewrite <-Hef in Hl. rewrite <-Hef. by split_and!.
  - split_and!; [done | done | congruence|]. intros k. rewrite Lp, Lq.
    destruct (Hk k) as [e f Hef|]; cbn; [|constructor]. rewrite Hef. destruct (lapsed f now); by constructor.
Qed.

Lemma providers_step p q o :
  agree p q -> admissible p o = true ->
  same_reply (sp_step p o).1 (sp_step q o).1 /\ agree (sp_step p o).2 (sp_step q o).2.
Proof.
  intros Ha Ho. destruct o as [uuid sid ttl tenant now|sid tenant now|c ttl ev now|sid tenant|tenant now]; cbn [sp_step admissible] in *.
  - destruct (agree_create p q uuid sid ttl tenant now Ha Ho) as [Hr Hs].
    destruct (sp_create p _ _ _ _ _), (sp_create q _ _ _ _ _). split; [by constructor | done].
  - destruct (providers_get p q sid tenant now Ha Ho) as [Hr Hs].
    destruct (sp_get p _ _ _), (sp_get q _ _ _). split; [by constructor | done].
  - apply andb_prop in Ho as [Hn Hd].
    destruct (agree_update p q c ttl ev now Ha Hn) as [(p' & q' & -> & -> & Hs)|(e & -> & ->)].
    + intros E. rewrite E in Hd. by apply negb_true_iff.
    + split; [constructor | done].
    + split; [constructor | done].
  - pose proof Ha as (Hp & Hq & _).
    destruct (delete_spec p sid tenant Hp) as [Hop He], (delete_spec q sid tenant Hq) as [Hoq Hf].
    split; [constructor|]. apply (agree_at p q _ _ _ Ha Hop Hoq). rewrite He, Hf. constructor.
  - apply bool_decide_eq_true in Ho as ->. destruct (agree_list p q now Ha) as [Hr Hs].
    destruct (sp_list p None now), (sp_list q None now). split; [by constructor | done].
Qed.

Lemma providers_run p q ops : agree p q -> admissible_run p ops = true -> Forall2 same_reply (sp_run p ops) (sp_run q ops).
Proof.
  revert p q. induction ops as [|o ops IH]; intros p q Ha Ho; [constructor|]. cbn [sp_run admissible_run] in *.
  apply andb_prop in Ho as [Ho Hops]. destruct (providers_step p q o Ha Ho) as [Hr Hs].
  destruct (sp_step p o) as [r p'], (sp_step q o) as [s q']. constructor; [done | by apply IH].
Qed.
End agreement.

(** C28: On an empty database the SQLite provider answers every admissible sequence
    of operations like the in-memory provider: the same sessions up to the creation
    time in their metadata, the same version conflicts, the same listings. *)
Theorem session_stores_agree iso dumps loads ttl ops (loads_dumps : forall j, loads (dumps j) = Some j) :
  @admissible_run _ (memory_sessions iso) (new_provider ttl) ops = true ->
  Forall2 same_reply (@sp_run _ (memory_sessions iso) (new_provider ttl) ops)
    (@sp_run _ (sqlite_sessions iso dumps loads loads_dumps) {| rows := []; sql_ttl := ttl |} ops).
Proof.
  intros Ho. refine (@providers_run _ _ (memory_sessions iso) (sqlite_sessions iso dumps loads loads_dumps) _ _ ops _ Ho).
  split_and!; [exact (mem_good_new ttl) | exact (sql_good_new dumps ttl) | done|]. intros k. constructor.
Qed.

(** ** On concrete input *)

Definition demo_iso (_ : Q) : string := "t".

Definition demo_session (ms : list json) (v : Z) : SessionContext :=
  {| session_id := "s"; messages := ms; metadata := [("lang", JStr "en")]; caller_context := []; tenant_id := Some "acme";
     version := v |}.

(** Create, update, lose a race, let the session expire, and look again. *)
Definition demo_ops : list session_op :=
  [SCreate "u" (Some "s") (Some 10%Q) (Some "acme") 0; SUpdate (demo_session [JStr "hello"] 1) None None 1;
   SUpdate (demo_session [JStr "lost"] 1) None None 2; SGet "s" (Some "acme") 3; SGet "s" (Some "acme") 10;
   SList None 11].

Lemma session_stores_agree_witness :
  Forall2 same_reply (@sp_run _ (memory_sessions demo_iso) (new_provider None) demo_ops)
    (@sp_run _ (sqlite_sessions demo_iso json_text json_of_text json_of_text_text) {| rows := []; sql_ttl := None |} demo_ops) /\
  @sp_run _ (memory_sessions demo_iso) (new_provider None) demo_ops =
    [RContext {| session_id := "s"; messages := []; metadata := [("created_at", JStr "t")]; caller_context := [];
                 tenant_id := Some "acme"; version := 1 |};
     RDone; RConflict (conflict (demo_session [] 1) 1 2); RFound (Some (demo_session [JStr "hello"] 2)); RFound None; RList []].
Proof. split; [apply session_stores_agree; vm_compute; reflexivity | vm_compute; reflexivity]. Defined.

(** In dispute: a session that was read at version 1 and has expired is created
    again by an update in memory, and refused by SQLite. *)
Example expired_session_revived_in_memory_only :
  is_ok (@sp_update _ (memory_sessions demo_iso) (new_provider None) (demo_session [] 1) None None 0) = true /\
  is_ok (@sp_update _ (sqlite_sessions demo_iso json_text json_of_text json_of_text_text) {| rows := []; sql_ttl := None |}
           (demo_session [] 1) None None 0) = false.
Proof. split; reflexivity. Qed.

End SessionStore.
