(* ===== verification/AdkSession.v ===== *)
(** * The Google ADK session service over a session provider

    [ProviderSessionService] of [runtimes/google_adk/session_service.py], over any
    implementation of the interface [SessionStore.SessionProvider].  An ADK session
    is stored as a context whose messages are its events and whose metadata names
    its application, user and id.  What the base class of ADK does with an event,
    the JSON form of events and their equality are parameters. *)

From Stdlib Require Import Ascii.
From S2P Require Import Prelude Json Urls Resilience Session AdkBridge GoogleAdk SessionStore.
Import Urls Session SessionStore Resilience AdkBridge GoogleAdk.
Local Open Scope string_scope.

Module AdkSession.

(** ** Storage ids

    Application, user and id, each quoted with nothing safe. *)

Definition storage_prefix : string := "__google_adk_session__:".

(** [_storage_id] *)
Definition storage_id (app user sid : string) : string :=
  (storage_prefix ++ String.concat ":" (quote "" <$> [app; user; sid]))%string.

Lemma quoted_lacks sep s : (sep =? ":")%char || (sep =? unit_separator)%char = true -> lacks sep (quote "" s) = true.
Proof. by intros [->%Ascii.eqb_eq| ->%Ascii.eqb_eq]%orb_prop; apply quote_lacks. Qed.

Lemma storage_id_inj a u s a' u' s' : storage_id a u s = storage_id a' u' s' -> a = a' /\ u = u' /\ s = s'.
Proof.
  unfold storage_id. intros H. apply append_inj_l in H. cbn [fmap list_fmap String.concat] in H.
  change (String.append ":" ?x) with (String ":" x) in H.
  apply lacks_split in H as [Ha H]; [|by apply quoted_lacks|by apply quoted_lacks].
  apply lacks_split in H as [Hu Hs]; [|by apply quoted_lacks|by apply quoted_lacks].
  by apply quote_all_inj in Ha, Hu, Hs.
Qed.

Lemma storage_id_clean app user sid tenant :
  from_option separator_free true tenant = true -> clean_name (storage_id app user sid) tenant = true.
Proof.
  intros Ht. unfold clean_name. rewrite Ht, andb_true_r. apply andb_true_intro. split; [done|].
  rewrite separator_free_lacks. unfold storage_id. rewrite lacks_app. cbn [fmap list_fmap String.concat].
  by rewrite !lacks_app, !quoted_lacks.
Qed.

(** ** Sessions *)

Record AdkSession : Type := {
  app_name : string;
  user_id : string;
  id : string;
  state : list (string * json);
  events : list event;
  last_update_time : Q
}.

Section service.
Context {P : Type} `{SessionProvider P}.
(** [event.model_dump(mode="json")], [Event.model_validate] (of an object), the
    equality of two events (which have the same id), [event.timestamp]. *)
Context (dump_event : event -> json) (load_event : list (string * json) -> option event).
Context (same_event : event -> event -> bool) (timestamp : event -> Q).
(** [BaseSessionService.append_event]: appends the event and applies its state
    delta. *)
Context (base_append : AdkSession -> event -> AdkSession).
(** The [last_update_time] of a new [Session]; [str], [float] and [dict] of values
    that are not text, not a number, not a dictionary. *)
Context (created_time : Q) (py_str : json -> string) (py_float : json -> result exn Q)
        (py_dict : json -> result exn (list (string * json))).

Definition load (j : json) : result exn event :=
  match j with
  | JObj d => match load_event d with Some e => Ok e | None => Err (raise ValueError "validation error for Event") end
  | _ => Err (raise ValueError "stored ADK event is not an object")
  end.

(** [_context_from_session] *)
Definition context_from_session (s : AdkSession) (c : option SessionContext) (tenant : option string) : SessionContext :=
  let md := foldl (fun d e => dset e.1 e.2 d) (from_option Session.metadata [] c)
              [("adk_app_name", JStr (app_name s)); ("adk_user_id", JStr (user_id s)); ("adk_session_id", JStr (id s));
               ("adk_state", JObj (state s)); ("adk_last_update_time", JFloat (last_update_time s))] in
  {| session_id := storage_id (app_name s) (user_id s) (id s); messages := dump_event <$> events s;
     Session.metadata := md; caller_context := []; tenant_id := tenant; version := from_option version 0%Z c |}.

(** [str(metadata.get(key) or "")] *)
Definition text_field (key : string) (md : list (string * json)) : string :=
  match dget key md with Some v => if py_truthy v then py_text py_str v else "" | None => "" end.

(** [_session_from_context] *)
Definition session_from_context (c : SessionContext) : result exn AdkSession :=
  let md := Session.metadata c in
  let app := text_field "adk_app_name" md in
  let user := text_field "adk_user_id" md in
  let sid := text_field "adk_session_id" md in
  if negb (str_truthy app && str_truthy user && str_truthy sid)
  then Err (raise ValueError "stored ADK session metadata is incomplete")
  else
    events ← mapM load (messages c);
    st ← match dget "adk_state" md with
         | Some (JObj d) => Ok d
         | Some v => if py_truthy v then py_dict v else Ok []
         | None => Ok []
         end;
    time ← match dget "adk_last_update_time" md with
           | Some v => match as_number v with
                       | Some q => Ok q
                       | None => if py_truthy v then py_float v else Ok 0%Q
                       end
           | None => Ok 0%Q
           end;
    mret {| app_name := app; user_id := user; id := sid; state := st; events := events; last_update_time := time |}.

(** The provider, and the clock its operations read. *)
Record service : Type := { store : P; now : Q }.
Definition with_store (w : service) (p : P) : service := {| store := p; now := now w |}.

Definition conflict_error (e : StateConflictError) : exn := raise RuntimeError (kind e).

Definition provider_get (sid : string) (tenant : option string) : call service exn (option SessionContext) := fun w =>
  let '(r, p) := sp_get (store w) sid tenant (now w) in (Ok r, with_store w p).
Definition provider_create (sid : string) (tenant : option string) : call service exn SessionContext := fun w =>
  let '(c, p) := sp_create (store w) "" (Some sid) None tenant (now w) in (Ok c, with_store w p).
Definition provider_update (c : SessionContext) (expected : Z) : call service exn unit := fun w =>
  match sp_update (store w) c None (Some expected) (now w) with
  | Ok p => (Ok tt, with_store w p)
  | Err e => (Err (conflict_error e), w)
  end.
Definition lift {A} (r : result exn A) : call service exn A := fun w => (r, w).

(** [create_session]; [tenant] is that of the bound identity. *)
Definition create_adk_session (tenant : option string) (uuid app user : string) (st : list (string * json))
    (sid : option string) : call service exn AdkSession :=
  let sid := py_strip (default "" sid) in
  let sid := if str_truthy sid then sid else uuid in
  let key := storage_id app user sid in
  existing ← provider_get key tenant;
  match existing with
  | Some _ => throws (raise OtherException ("Session " ++ sid ++ " already exists."))
  | None =>
      let s := {| app_name := app; user_id := user; id := sid; state := st; events := []; last_update_time := created_time |} in
      c ← provider_create key tenant;
      provider_update (context_from_session s (Some c) tenant) (version c) ≫= fun _ => mret s
  end.

Definition get_adk_session (tenant : option string) (app user sid : string) : call service exn (option AdkSession) :=
  found ← provider_get (storage_id app user sid) tenant;
  match found with
  | None => mret None
  | Some c => s ← lift (session_from_context c); mret (Some s)
  end.

Definition delete_adk_session (tenant : option string) (app user sid : string) : call service exn unit := fun w =>
  (Ok tt, with_store w (sp_delete (store w) (storage_id app user sid) tenant)).

(** [append_event], in the two steps between which the provider is free: what is
    read and computed, and the update.  [None]: there is nothing to store. *)
Definition append_read (tenant : option string) (app user sid : string) (e : event)
  : call service exn (option (AdkSession * SessionContext * Z)) :=
  if partial e then mret None
  else
    stored ← provider_get (storage_id app user sid) tenant;
    match stored with
    | None => mret None
    | Some c =>
        current ← lift (session_from_context c);
        if existsb (fun x => same_event x e) (events current) then mret None
        else
          let s := base_append current e in
          let s := {| app_name := app_name s; user_id := user_id s; id := id s; state := state s; events := events s;
                      last_update_time := timestamp e |} in
          mret (Some (s, context_from_session s (Some c) tenant, version c))
    end.

Definition append_write (pending : option (AdkSession * SessionContext * Z)) : call service exn (option AdkSession) :=
  match pending with
  | None => mret None
  | Some (s, c, v) => provider_update c v ≫= fun _ => mret (Some s)
  end.

(** The session the caller holds is set to what was stored, if anything was. *)
Definition append_adk_event (tenant : option string) (app user sid : string) (e : event) : call service exn (option AdkSession) :=
  append_read tenant app user sid e ≫= append_write.

Definition session_leb (s t : AdkSession) : bool :=
  if Qeq_bool (last_update_time s) (last_update_time t)
  then str2_leb (user_id s, id s) (user_id t, id t)
  else (last_update_time s <=? last_update_time t)%clock.

Fixpoint collect_sessions (app : string) (user : option string) (ms : list SessionMetadata) : call service exn (list AdkSession) :=
  match ms with
  | [] => mret []
  | m :: ms =>
      found ← provider_get (meta_session_id m) (meta_tenant_id m);
      match found with
      | None => collect_sessions app user ms
      | Some c =>
          s ← lift (session_from_context c);
          if negb (String.eqb (app_name s) app) || from_option (fun u => negb (String.eqb (user_id s) u)) false user
          then collect_sessions app user ms
          else
            rest ← collect_sessions app user ms;
            mret ({| app_name := app_name s; user_id := user_id s; id := id s; state := state s; events := [];
                     last_update_time := last_update_time s |} :: rest)
      end
  end.

(** [list_sessions] *)
Definition list_adk_sessions (tenant : option string) (app : string) (user : option string) : call service exn (list AdkSession) := fun w =>
  let '(ms, p) := sp_list (store w) tenant (now w) in
  (sessions ← collect_sessions app user ms; mret (sort_by session_leb sessions)) (with_store w p).

(** [get_user_state] *)
Definition user_prefix : string := "user:".
Definition user_state (sessions : list AdkSession) : list (string * json) :=
  foldl (fun d kv => if String.prefix user_prefix kv.1
                     then dset (String.substring 5 (String.length kv.1 - 5) kv.1) kv.2 d else d) []
        (sessions ≫= state).
Definition get_user_state (tenant : option string) (app user : string) : call service exn (list (string * json)) :=
  sessions ← list_adk_sessions tenant app (Some user); mret (user_state sessions).
(** ** What the provider shows

    The live context under a key. *)

Definition live (w : service) (k : string) : option SessionContext :=
  e ← entry (store w) k; if lapsed e (now w) then None else Some (context e).

(** Sessions that are stored last. *)
Definition lasting (p : P) : Prop := from_option (fun t => (0 < t)%Q) True (default_ttl p).

Definition adk_service_ok (w : service) : Prop := good (store w) /\ lasting (store w).

Lemma live_some w k c :
  live w k = Some c <-> exists e, entry (store w) k = Some e /\ lapsed e (now w) = false /\ context e = c.
Proof.
  unfold live. destruct (entry (store w) k) as [e|]; cbn; [|split; [done | by intros (? & ? & _)]].
  destruct (lapsed e (now w)) eqn:El; split; [done | by intros (? & [= <-] & ? & _); congruence | intros [= <-]; by exists e | by intros (? & [= <-] & _ & <-)].
Qed.

Lemma provider_get_spec w sid tenant :
  adk_service_ok w -> clean_name sid tenant = true ->
  exists w', provider_get sid tenant w = (Ok (live w (scoped_key sid tenant)), w') /\ adk_service_ok w' /\
    forall k, live w' k = live w k.
Proof.
  intros [Hg Hl] Hn. unfold provider_get. destruct (sp_get _ _ _ _) as [r p] eqn:E.
  destruct (get_spec _ _ _ _ _ _ Hg Hn E) as ((Hg' & Ht & Hother) & He & ->). eexists. split_and!.
  - do 2 f_equal. rewrite He. unfold live. destruct (entry (store w) _) as [e|]; [|done]. cbn. by destruct (lapsed e (now w)).
  - split; [done|]. unfold lasting in *. cbn. by rewrite Ht.
  - intros k. unfold live. cbn [store now with_store]. destruct (decide (k = scoped_key sid tenant)) as [->|Hne].
    + rewrite He. destruct (entry (store w) _) as [e|]; [|done]. cbn. destruct (lapsed e (now w)) eqn:El; [done|]. cbn. by rewrite El.
    + by rewrite Hother.
Qed.

Lemma deadline_lasts p c t : lasting p -> lapsed {| context := c; born := t; until := deadline (default_ttl p) None t |} t = false.
Proof.
  intros Hl. unfold lasting in Hl. unfold lapsed, deadline. cbn. destruct (default_ttl p) as [d|]; cbn in *; [|done]. clock_lra.
Qed.

Lemma provider_create_spec w sid tenant :
  adk_service_ok w -> clean_name sid tenant = true ->
  exists c w', provider_create sid tenant w = (Ok c, w') /\ adk_service_ok w' /\ now w' = now w /\
    same_context c (fresh_context sid tenant) /\ live w' (scoped_key sid tenant) = Some c /\
    forall k, k <> scoped_key sid tenant -> live w' k = live w k.
Proof.
  intros [Hg Hl] Hn. unfold provider_create. destruct (sp_create _ _ _ _ _ _) as [c p] eqn:E.
  assert (Hid : opt_or (Some sid) "" = sid) by (unfold opt_or; cbn; destruct sid; done).
  destruct (create_spec _ _ _ _ _ _ _ _ Hg ltac:(by rewrite Hid) E) as ((Hg' & Ht & Hother) & e & He & <- & Hs).
  rewrite Hid in *. do 2 eexists. split; [done|]. split_and!.
  - split; [done|]. unfold lasting in *. cbn. by rewrite Ht.
  - done.
  - apply Hs.
  - apply live_some. exists e. split_and!; [done| |done]. cbn [now with_store]. rewrite Hs. by apply deadline_lasts.
  - intros k Hne. unfold live. cbn. by rewrite Hother.
Qed.

(** An update of the version that is live is stored; of any other it is refused. *)
Lemma provider_update_spec w c v :
  adk_service_ok w -> clean_name (session_id c) (tenant_id c) = true -> v <> 0%Z ->
  forall c0, live w (context_key c) = Some c0 ->
  (version c0 = v /\ exists c' w', provider_update c v w = (Ok tt, w') /\ adk_service_ok w' /\
     same_context c' (set_version c (v + 1)) /\ live w' (context_key c) = Some c' /\
     forall k, k <> context_key c -> live w' k = live w k) \/
  (version c0 <> v /\ provider_update c v w = (Err (conflict_error (conflict c v (version c0))), w)).
Proof.
  intros [Hg Hl] Hn Hv c0 Hc. apply live_some in Hc as (e & He & Hlap & <-). unfold provider_update.
  pose proof (update_spec (store w) c None (Some v) (now w) Hg Hn) as Hu. rewrite He in Hu. change (expected c (Some v)) with v in Hu.
  rewrite (proj2 (Z.eqb_neq v 0)) in Hu by done. cbn [orb] in Hu.
  destruct (Z.eqb_spec v (version (context e))) as [E|E].
  - left. split; [done|]. destruct Hu as (p & e' & -> & (Hg' & Ht & Hother) & He' & Hs). exists (context e'). eexists. split; [done|].
    split_and!.
    + split; [done|]. unfold lasting in *. cbn. by rewrite Ht.
    + rewrite E. apply Hs.
    + apply live_some. exists e'. split_and!; [done| |done]. cbn [now with_store]. by rewrite Hs.
    + intros k Hne. unfold live. cbn. by rewrite Hother.
  - right. split; [done|]. by rewrite Hu.
Qed.

(** ** Sessions come back as they were stored *)

Hypothesis load_dump : forall e, exists d, dump_event e = JObj d /\ load_event d = Some e.
Hypothesis same_event_eq : forall x e, same_event x e = true <-> x = e.
Hypothesis base_append_spec : forall s e,
  app_name (base_append s e) = app_name s /\ user_id (base_append s e) = user_id s /\ id (base_append s e) = id s /\
  events (base_append s e) = (events s ++ [e])%list.

Definition session_named (s : AdkSession) : bool := str_truthy (app_name s) && str_truthy (user_id s) && str_truthy (id s).

Lemma metadata_dget k c d : same_context c d -> k <> "created_at" -> dget k (Session.metadata c) = dget k (Session.metadata d).
Proof.
  intros (_ & _ & Hm & _) Hk. unfold plain_metadata in Hm.
  assert (Hf : forall l : list (string * json), dget k (filterb (fun e => negb (String.eqb e.1 "created_at")) l) = dget k l).
  { intros l. rewrite (dget_filter_key (fun x => negb (String.eqb x "created_at"))).
    by rewrite (proj2 (String.eqb_neq k "created_at")). }
  rewrite <-(Hf (Session.metadata c)), Hm. apply Hf.
Qed.

Lemma session_from_same c d : same_context c d -> session_from_context c = session_from_context d.
Proof.
  intros Hs. pose proof Hs as (_ & Hm & _). unfold session_from_context, text_field.
  by rewrite !(metadata_dget _ c d Hs), Hm by discriminate.
Qed.

Lemma load_events l : mapM load (dump_event <$> l) = Ok l.
Proof.
  apply mapM_ok. induction l as [|e l IH]; cbn; [constructor|]. constructor; [|done].
  destruct (load_dump e) as (d & -> & Hd). unfold load. by rewrite Hd.
Qed.

Lemma session_roundtrip s c tenant : session_named s = true -> session_from_context (context_from_session s c tenant) = Ok s.
Proof.
  unfold session_named. intros [[Ha Hu]%andb_prop Hi]%andb_prop. unfold session_from_context, text_field, context_from_session.
  cbn [foldl Session.metadata messages fst snd].
  repeat first [rewrite dget_dset_eq | rewrite dget_dset_ne by discriminate].
  cbn [py_truthy py_text as_number]. rewrite Ha, Hu, Hi. cbn [andb negb]. rewrite Ha, Hu, Hi. cbn [andb negb].
  rewrite load_events. by destruct s.
Qed.

(** A session is at its place: live under its storage id, under its names. *)
Definition at_place (w : service) (tenant : option string) (s : AdkSession) : Prop :=
  session_named s = true /\ exists c, live w (scoped_key (storage_id (app_name s) (user_id s) (id s)) tenant) = Some c /\
    session_from_context c = Ok s /\ (1 <= version c)%Z.

Definition key_of (tenant : option string) (s : AdkSession) : string :=
  scoped_key (storage_id (app_name s) (user_id s) (id s)) tenant.

Definition clean_tenant (tenant : option string) : Prop := from_option separator_free true tenant = true.

Lemma at_place_ext w w' tenant s : live w' (key_of tenant s) = live w (key_of tenant s) -> at_place w tenant s -> at_place w' tenant s.
Proof. intros E (Hn & c & Hc & Hs). split; [done|]. exists c. unfold key_of in E. by rewrite E. Qed.

(** Sessions with other names, or of another tenant, are kept under other keys. *)
Lemma key_of_inj t1 s1 t2 s2 :
  clean_tenant t1 -> clean_tenant t2 -> key_of t1 s1 = key_of t2 s2 ->
  t1 = t2 /\ app_name s1 = app_name s2 /\ user_id s1 = user_id s2 /\ id s1 = id s2.
Proof.
  intros H1 H2 Hk. apply clean_key_inj in Hk as [Hs ->]; [|by apply storage_id_clean..]. by apply storage_id_inj in Hs.
Qed.

Lemma get_at_place w tenant s :
  adk_service_ok w -> clean_tenant tenant -> at_place w tenant s ->
  exists w', get_adk_session tenant (app_name s) (user_id s) (id s) w = (Ok (Some s), w') /\ adk_service_ok w' /\
    forall k, live w' k = live w k.
Proof.
  intros Hok Ht (_ & c & Hc & Hs & _).
  destruct (provider_get_spec w (storage_id (app_name s) (user_id s) (id s)) tenant Hok) as (w1 & Hg & Hok1 & Hl); [by apply storage_id_clean|].
  exists w1. split; [|done]. unfold get_adk_session, mbind, call_bind. rewrite Hg, Hc. cbn. by rewrite Hs.
Qed.

(** Storing a session over the version it was read at. *)
Lemma store_session w tenant s c0 :
  adk_service_ok w -> clean_tenant tenant -> session_named s = true -> live w (key_of tenant s) = Some c0 -> (1 <= version c0)%Z ->
  exists w', provider_update (context_from_session s (Some c0) tenant) (version c0) w = (Ok tt, w') /\ adk_service_ok w' /\
    (exists c', live w' (key_of tenant s) = Some c' /\ version c' = (version c0 + 1)%Z) /\
    at_place w' tenant s /\ forall k, k <> key_of tenant s -> live w' k = live w k.
Proof.
  intros Hok Ht Hn Hc Hv. set (c := context_from_session s (Some c0) tenant).
  assert (Hk : context_key c = key_of tenant s) by done.
  destruct (provider_update_spec w c (version c0) Hok ltac:(by apply storage_id_clean) ltac:(lia) c0 ltac:(by rewrite Hk))
    as [(_ & c' & w' & Hu & Hok' & Hs & Hl & Hother)|[Hne _]]; [|done].
  rewrite Hk in Hl, Hother. exists w'. split_and!; [done | done| | |done].
  - exists c'. split; [done|]. by destruct Hs as (_ & _ & _ & _ & _ & ->).
  - split; [done|]. exists c'. split_and!; [done| |].
    + rewrite (session_from_same _ _ Hs). change (session_from_context c = Ok s). by apply session_roundtrip.
    + destruct Hs as (_ & _ & _ & _ & _ & ->). cbn. lia.
Qed.

(** What [append_event] reads and prepares for a session that is at its place. *)
Definition appended_session (s : AdkSession) (e : event) : AdkSession :=
  let s' := base_append s e in
  {| app_name := app_name s'; user_id := user_id s'; id := id s'; state := state s'; events := events s';
     last_update_time := timestamp e |}.

Lemma appended_names s e :
  app_name (appended_session s e) = app_name s /\ user_id (appended_session s e) = user_id s /\ id (appended_session s e) = id s /\
  events (appended_session s e) = (events s ++ [e])%list.
Proof. apply base_append_spec. Qed.

Lemma appended_key tenant s e : key_of tenant (appended_session s e) = key_of tenant s.
Proof. unfold key_of. by destruct (appended_names s e) as (-> & -> & -> & _). Qed.

Lemma appended_named s e : session_named (appended_session s e) = session_named s.
Proof. unfold session_named. by destruct (appended_names s e) as (-> & -> & -> & _). Qed.

Lemma append_read_spec w tenant s e c0 :
  adk_service_ok w -> clean_tenant tenant -> live w (key_of tenant s) = Some c0 -> session_from_context c0 = Ok s -> partial e = false ->
  exists w', append_read tenant (app_name s) (user_id s) (id s) e w =
      (Ok (if existsb (fun x => same_event x e) (events s) then None
           else Some (appended_session s e, context_from_session (appended_session s e) (Some c0) tenant, version c0)), w') /\
    adk_service_ok w' /\ forall k, live w' k = live w k.
Proof.
  intros Hok Ht Hc Hs Hp.
  destruct (provider_get_spec w (storage_id (app_name s) (user_id s) (id s)) tenant Hok) as (w1 & Hg & Hok1 & Hl); [by apply storage_id_clean|].
  exists w1. split; [|done]. unfold key_of in Hc. unfold append_read. rewrite Hp. unfold mbind, call_bind. rewrite Hg, Hc. cbn [lift]. unfold lift.
  rewrite Hs. by destruct (existsb _ _).
Qed.

Lemma known_event s e : existsb (fun x => same_event x e) (events s) = true <-> e ∈ events s.
Proof.
  rewrite existsb_elem. split.
  - by intros (x & Hx & ->%same_event_eq).
  - intros Hin. exists e. split; [done|]. by apply same_event_eq.
Qed.

Lemma new_event s e : e ∉ events s -> existsb (fun x => same_event x e) (events s) = false.
Proof. intros He. apply not_true_iff_false. by rewrite known_event. Qed.

Lemma append_new w tenant s e :
  adk_service_ok w -> clean_tenant tenant -> at_place w tenant s -> partial e = false -> e ∉ events s ->
  exists w', append_adk_event tenant (app_name s) (user_id s) (id s) e w = (Ok (Some (appended_session s e)), w') /\
    adk_service_ok w' /\ at_place w' tenant (appended_session s e) /\ forall k, k <> key_of tenant s -> live w' k = live w k.
Proof.
  intros Hok Ht (Hn & c & Hc & Hs & Hv) Hp He.
  destruct (append_read_spec w tenant s e c Hok Ht Hc Hs Hp) as (w1 & Hr & Hok1 & Hl1). rewrite new_event in Hr by done.
  destruct (store_session w1 tenant (appended_session s e) c Hok1 Ht) as (w2 & Hu & Hok2 & _ & Hat & Hother).
  - by rewrite appended_named.
  - by rewrite appended_key, Hl1.
  - done.
  - exists w2. rewrite appended_key in Hother. split_and!; [|done|done|].
    + unfold append_adk_event, mbind, call_bind. rewrite Hr. unfold append_write, mbind, call_bind. by rewrite Hu.
    + intros k Hk. by rewrite Hother, Hl1.
Qed.

Lemma append_known w tenant s e :
  adk_service_ok w -> clean_tenant tenant -> at_place w tenant s -> partial e = false -> e ∈ events s ->
  exists w', append_adk_event tenant (app_name s) (user_id s) (id s) e w = (Ok None, w') /\ adk_service_ok w' /\ forall k, live w' k = live w k.
Proof.
  intros Hok Ht (Hn & c & Hc & Hs & Hv) Hp He.
  destruct (append_read_spec w tenant s e c Hok Ht Hc Hs Hp) as (w1 & Hr & Hok1 & Hl1).
  rewrite (proj2 (known_event s e) He) in Hr. exists w1. split; [|done].
  unfold append_adk_event, mbind, call_bind. by rewrite Hr.
Qed.

(** The session an append leaves: the event once at the end. *)
Definition with_event (s : AdkSession) (e : event) : AdkSession :=
  if existsb (fun x => same_event x e) (events s) then s else appended_session s e.

Lemma append_leaves w tenant s e :
  adk_service_ok w -> clean_tenant tenant -> at_place w tenant s -> partial e = false ->
  let w' := (append_adk_event tenant (app_name s) (user_id s) (id s) e w).2 in
  is_ok (append_adk_event tenant (app_name s) (user_id s) (id s) e w).1 = true /\
  adk_service_ok w' /\ at_place w' tenant (with_event s e) /\ forall k, k <> key_of tenant s -> live w' k = live w k.
Proof.
  intros Hok Ht Hat Hp w'. unfold w', with_event. destruct (existsb _ _) eqn:Ek.
  - destruct (append_known w tenant s e Hok Ht Hat Hp (proj1 (known_event s e) Ek)) as (w1 & -> & Hok1 & Hl).
    split_and!; [done|done| |by intros]. by apply (at_place_ext w).
  - destruct (append_new w tenant s e Hok Ht Hat Hp) as (w1 & -> & Hok1 & Hat1 & Hl); [|done].
    intros Hin. apply known_event in Hin. congruence.
Qed.

(** An event that is not partial is in the stored session exactly once, at the
    end when it is new, whatever session provider is underneath; delivering it
    again changes nothing, and no session of another name or tenant is touched. *)
Theorem adk_event_stored_once w tenant s e :
  adk_service_ok w -> clean_tenant tenant -> at_place w tenant s -> partial e = false ->
  let app := append_adk_event tenant (app_name s) (user_id s) (id s) e in
  exists s', events s' = (if existsb (fun x => same_event x e) (events s) then events s else events s ++ [e])%list /\
    (get_adk_session tenant (app_name s) (user_id s) (id s) (app w).2).1 = Ok (Some s') /\
    (get_adk_session tenant (app_name s) (user_id s) (id s) (app (app w).2).2).1 = Ok (Some s') /\
    forall t2 s2, clean_tenant t2 -> at_place w t2 s2 ->
      (t2, app_name s2, user_id s2, id s2) <> (tenant, app_name s, user_id s, id s) ->
      (get_adk_session t2 (app_name s2) (user_id s2) (id s2) (app w).2).1 = Ok (Some s2).
Proof.
  intros Hok Ht Hat Hp app. destruct (append_leaves w tenant s e Hok Ht Hat Hp) as (_ & Hok1 & Hat1 & Hother). fold app in Hok1, Hat1, Hother.
  assert (Hnames : app_name (with_event s e) = app_name s /\ user_id (with_event s e) = user_id s /\ id (with_event s e) = id s).
  { unfold with_event. destruct (existsb _ _); [done|]. by destruct (appended_names s e) as (? & ? & ? & _). }
  assert (Hknown : existsb (fun x => same_event x e) (events (with_event s e)) = true).
  { unfold with_event. destruct (existsb _ (events s)) eqn:Ek; [done|]. apply known_event.
    destruct (appended_names s e) as (_ & _ & _ & ->). apply elem_of_app. right. left. }
  destruct Hnames as (Ha & Hu & Hi). exists (with_event s e). split_and!.
  - unfold with_event. destruct (existsb _ (events s)); [done|]. by destruct (appended_names s e) as (_ & _ & _ & ->).
  - destruct (get_at_place _ tenant (with_event s e) Hok1 Ht Hat1) as (w2 & Hg & _). rewrite Ha, Hu, Hi in Hg. by rewrite Hg.
  - destruct (append_leaves (app w).2 tenant (with_event s e) e Hok1 Ht Hat1 Hp) as (_ & Hok2 & Hat2 & _).
    unfold with_event at 4 in Hat2. rewrite Hknown in Hat2. rewrite Ha, Hu, Hi in Hok2, Hat2. fold app in Hok2, Hat2.
    destruct (get_at_place _ tenant (with_event s e) Hok2 Ht Hat2) as (w2 & Hg & _). rewrite Ha, Hu, Hi in Hg. by rewrite Hg.
  - intros t2 s2 Ht2 Hat2 Hne. assert (Hk : key_of t2 s2 <> key_of tenant s).
    { intros Hk. apply Hne. by apply key_of_inj in Hk as (-> & -> & -> & ->). }
    destruct (get_at_place (app w).2 t2 s2 Hok1 Ht2) as (w2 & Hg & _); [by apply (at_place_ext w); [apply Hother|]|]. by rewrite Hg.
Qed.

(** Two appends that read the same session: the first to write puts its event at
    the end, the other is refused with a version conflict and changes nothing. *)
Theorem adk_append_race w tenant s e1 e2 p1 p2 w1 w2 :
  adk_service_ok w -> clean_tenant tenant -> at_place w tenant s ->
  partial e1 = false -> partial e2 = false -> e1 ∉ events s -> e2 ∉ events s ->
  append_read tenant (app_name s) (user_id s) (id s) e1 w = (Ok p1, w1) ->
  append_read tenant (app_name s) (user_id s) (id s) e2 w1 = (Ok p2, w2) ->
  exists w3 s3 c, append_write p2 w2 = (Ok (Some s3), w3) /\ events s3 = (events s ++ [e2])%list /\
    (get_adk_session tenant (app_name s) (user_id s) (id s) w3).1 = Ok (Some s3) /\
    append_write p1 w3 = (Err (conflict_error c), w3) /\ (Session.actual c = Session.expected c + 1)%Z.
Proof.
  intros Hok Ht (Hn & c & Hc & Hs & Hv) Hp1 Hp2 He1 He2 Hr1 Hr2.
  destruct (append_read_spec w tenant s e1 c Hok Ht Hc Hs Hp1) as (w1' & Hr1' & Hok1 & Hl1).
  rewrite new_event in Hr1' by done. rewrite Hr1 in Hr1'. injection Hr1' as -> <-. rewrite <-Hl1 in Hc.
  destruct (append_read_spec w1 tenant s e2 c Hok1 Ht Hc Hs Hp2) as (w2' & Hr2' & Hok2 & Hl2).
  rewrite new_event in Hr2' by done. rewrite Hr2 in Hr2'. injection Hr2' as -> <-. rewrite <-Hl2 in Hc.
  destruct (store_session w2 tenant (appended_session s e2) c Hok2 Ht) as (w3 & Hu & Hok3 & (c' & Hc' & Hvc) & Hat & _);
    [by rewrite appended_named | by rewrite appended_key | done|].
  destruct (appended_names s e2) as (Ha & Hus & Hi & Hev). destruct (get_at_place w3 tenant _ Hok3 Ht Hat) as (w4 & Hg & _).
  rewrite Ha, Hus, Hi in Hg. rewrite appended_key in Hc'.
  set (c1 := context_from_session (appended_session s e1) (Some c) tenant).
  assert (Hk : context_key c1 = key_of tenant s) by (change (context_key c1) with (key_of tenant (appended_session s e1)); apply appended_key).
  destruct (provider_update_spec w3 c1 (version c) Hok3 ltac:(by apply storage_id_clean) ltac:(lia) c' ltac:(by rewrite Hk))
    as [[Hbad _]|[_ Hconf]]; [lia|].
  exists w3, (appended_session s e2), (conflict c1 (version c) (version c')). split_and!.
  - unfold append_write, mbind, call_bind. by rewrite Hu.
  - done.
  - by rewrite Hg.
  - unfold append_write, mbind, call_bind. fold c1. by rewrite Hconf.
  - cbn. lia.
Qed.

(** ** It is a session service

    The sessions of one application, user and tenant, as the runtime uses them. *)

Lemma live_named w k c : adk_service_ok w -> live w k = Some c ->
  clean_name (session_id c) (tenant_id c) = true /\ context_key c = k /\ (1 <= version c)%Z.
Proof. intros [Hg _] (e & He & _ & <-)%live_some. by apply (entry_named (store w)). Qed.

(** An update with a version other than zero keeps the service well formed. *)
Lemma provider_update_kept w c v :
  adk_service_ok w -> clean_name (session_id c) (tenant_id c) = true -> v <> 0%Z -> adk_service_ok (provider_update c v w).2.
Proof.
  intros [Hg Hl] Hn Hv. unfold provider_update. pose proof (update_spec (store w) c None (Some v) (now w) Hg Hn) as Hu.
  assert (Hok : forall p, only_at (context_key c) (store w) p -> adk_service_ok (with_store w p)).
  { intros p (Hg' & Ht & _). split; [done|]. unfold lasting in *. cbn. by rewrite Ht. }
  destruct (entry (store w) (context_key c)) as [e|].
  - destruct (_ || _); [destruct Hu as (p & e' & -> & Ho & _); by apply Hok | by rewrite Hu].
  - assert (Hd : disputed c (Some v) = false) by (unfold disputed; by rewrite (proj2 (Z.eqb_neq v 0))).
    specialize (Hu Hd). change (SessionStore.expected c (Some v)) with v in Hu. rewrite (proj2 (Z.eqb_neq v 0)) in Hu by done. by rewrite Hu.
Qed.

Definition stripped (sid : string) : Prop := py_strip sid = sid /\ str_truthy sid = true.

Lemma create_kept_place w tenant uuid app user st sid :
  adk_service_ok w -> clean_tenant tenant -> str_truthy app = true -> str_truthy user = true -> stripped sid ->
  adk_service_ok (create_adk_session tenant uuid app user st (Some sid) w).2 /\
  forall s w', create_adk_session tenant uuid app user st (Some sid) w = (Ok s, w') ->
    s = {| app_name := app; user_id := user; id := sid; state := st; events := []; last_update_time := created_time |} /\
    at_place w' tenant s.
Proof.
  intros Hok Ht Ha Hu [Hs1 Hs2]. unfold create_adk_session. cbn [default from_option]. unfold Datatypes.id. rewrite Hs1, Hs2.
  destruct (provider_get_spec w (storage_id app user sid) tenant Hok) as (w1 & Hg & Hok1 & Hl1); [by apply storage_id_clean|].
  unfold mbind, call_bind. rewrite Hg. destruct (live w _) as [c|]; [by split|].
  destruct (provider_create_spec w1 (storage_id app user sid) tenant Hok1) as (c & w2 & Hc & Hok2 & Hnow & Hsame & Hl2 & _); [by apply storage_id_clean|].
  rewrite Hc.
  set (s0 := {| app_name := app; user_id := user; id := sid; state := st; events := []; last_update_time := created_time |}).
  assert (Hv : version c = 1%Z) by (by destruct Hsame as (_ & _ & _ & _ & _ & ->)).
  destruct (store_session w2 tenant s0 c Hok2 Ht) as (w3 & Hup & Hok3 & _ & Hat & _).
  - unfold session_named. cbn. by rewrite Ha, Hu, Hs2.
  - exact Hl2.
  - lia.
  - rewrite Hup. split; [done|]. by intros s w' [= <- <-].
Qed.

Lemma get_kept_ok w tenant app user sid : adk_service_ok w -> clean_tenant tenant -> adk_service_ok (get_adk_session tenant app user sid w).2.
Proof.
  intros Hok Ht. destruct (provider_get_spec w (storage_id app user sid) tenant Hok) as (w1 & Hg & Hok1 & _); [by apply storage_id_clean|].
  unfold get_adk_session, mbind, call_bind. rewrite Hg. destruct (live w _) as [c|]; [|done]. unfold lift. by destruct (session_from_context c).
Qed.

Lemma delete_kept_ok w tenant app user sid : adk_service_ok w -> adk_service_ok (delete_adk_session tenant app user sid w).2.
Proof.
  intros [Hg Hl]. destruct (delete_spec (store w) (storage_id app user sid) tenant Hg) as [(Hg' & Ht & _) _].
  split; [done|]. unfold lasting in *. cbn. by rewrite Ht.
Qed.

Lemma append_kept_ok w tenant app user sid e : adk_service_ok w -> clean_tenant tenant -> adk_service_ok (append_adk_event tenant app user sid e w).2.
Proof.
  intros Hok Ht. unfold append_adk_event, append_read, mbind, call_bind. destruct (partial e); [done|].
  destruct (provider_get_spec w (storage_id app user sid) tenant Hok) as (w1 & Hg & Hok1 & Hl1); [by apply storage_id_clean|].
  rewrite Hg. destruct (live w _) as [c|] eqn:Hc; [|done]. unfold lift. destruct (session_from_context c) as [s|x]; [|done].
  destruct (existsb _ _); [done|]. cbn [mret call_ret]. unfold append_write, mbind, call_bind.
  match goal with |- context [provider_update ?c ?v w1] => pose proof (provider_update_kept w1 c v Hok1) as Hu; destruct (provider_update c v w1) as [[|] w2] end.
  all: apply Hu; [by apply storage_id_clean|]; apply (live_named w) in Hc as (_ & _ & Hv); [lia | done].
Qed.

Section runtime_sessions.
Context (tenant : option string) (uuid app user : string).
Hypothesis tenant_clean : clean_tenant tenant.
Hypothesis app_named : str_truthy app = true.
Hypothesis user_named : str_truthy user = true.

#[export] Program Instance provider_session_service : SessionService service := {|
  get_session sid := s ← get_adk_session tenant app user sid; mret ((fun s => (events s, state s)) <$> s);
  create_session sid st := create_adk_session tenant uuid app user st (Some sid) ≫= fun _ => mret tt;
  delete_session sid := delete_adk_session tenant app user sid;
  append_event sid e := append_adk_event tenant app user sid e ≫= fun _ => mret tt;
  service_ok := adk_service_ok;
  valid_id := stripped;
  holds w sid x := exists s, at_place w tenant s /\ app_name s = app /\ user_id s = user /\ id s = sid /\ x = (events s, state s)
|}.
Next Obligation.
  intros w sid _ Hok. pose proof (get_kept_ok w tenant app user sid Hok tenant_clean) as Hk. unfold mbind, call_bind.
  by destruct (get_adk_session _ _ _ _ _) as [[|] ?].
Qed.
Next Obligation.
  intros w sid st Hsid Hok. destruct (create_kept_place w tenant uuid app user st sid Hok tenant_clean app_named user_named Hsid) as [Hk _].
  unfold mbind, call_bind. by destruct (create_adk_session _ _ _ _ _ _ _) as [[|] ?].
Qed.
Next Obligation. intros w sid _ Hok. by apply delete_kept_ok. Qed.
Next Obligation.
  intros w sid e _ Hok. pose proof (append_kept_ok w tenant app user sid e Hok tenant_clean) as Hk. unfold mbind, call_bind.
  by destruct (append_adk_event _ _ _ _ _ _) as [[|] ?].
Qed.
Next Obligation.
  intros w sid x _ Hok (s & Hat & <- & <- & <- & ->). destruct (get_at_place w tenant s Hok tenant_clean Hat) as (w' & Hg & _).
  exists w'. unfold mbind, call_bind. by rewrite Hg.
Qed.
Next Obligation.
  intros w sid st w' Hsid Hok Hc. apply call_bind_ok in Hc as (s & w1 & Hc & [= <-]).
  destruct (create_kept_place w tenant uuid app user st sid Hok tenant_clean app_named user_named Hsid) as [_ Hp].
  destruct (Hp s w1 Hc) as [-> Hat]. by eexists.
Qed.
Next Obligation.
  intros w sid e w' evs st _ Hok (s & Hat & <- & <- & <- & [= -> ->]) Hc Hp He. apply call_bind_ok in Hc as (r & w1 & Hc & [= <-]).
  destruct (append_new w tenant s e Hok tenant_clean Hat Hp He) as (w2 & Ha & _ & Hat2 & _). rewrite Hc in Ha. injection Ha as -> ->.
  destruct (appended_names s e) as (Hn1 & Hn2 & Hn3 & Hev). exists (state (appended_session s e)), (appended_session s e).
  by rewrite Hev.
Qed.
End runtime_sessions.
End service.

(** ** On concrete input

    A JSON form of events, from their countability. *)

Abbreviation call_tuple := (option string * string * list (string * json))%type (only parsing).
Abbreviation event_tuple :=
  (option string * option string * bool * list (option string * option call_tuple * option call_tuple) * list (string * json))%type
  (only parsing).

Definition call_to (c : function_call) : call_tuple := (call_id c, call_name c, call_args c).
Definition call_of (t : call_tuple) : function_call := {| call_id := t.1.1; call_name := t.1.2; call_args := t.2 |}.
Definition response_to (r : function_response) : call_tuple := (response_id r, response_name r, response_value r).
Definition response_of (t : call_tuple) : function_response := {| response_id := t.1.1; response_name := t.1.2; response_value := t.2 |}.
Definition part_to (p : part) : option string * option call_tuple * option call_tuple :=
  (part_text p, call_to <$> part_call p, response_to <$> part_response p).
Definition part_of (t : option string * option call_tuple * option call_tuple) : part :=
  {| part_text := t.1.1; part_call := call_of <$> t.1.2; part_response := response_of <$> t.2 |}.
Definition event_to (e : event) : event_tuple :=
  (invocation_id e, author e, partial e, part_to <$> parts e, confirmations e).
Definition event_of (t : event_tuple) : event :=
  {| invocation_id := t.1.1.1.1; author := t.1.1.1.2; partial := t.1.1.2; parts := part_of <$> t.1.2; confirmations := t.2 |}.

Lemma part_of_to p : part_of (part_to p) = p.
Proof. by destruct p as [t [[]|] [[]|]]. Qed.

Lemma event_of_to e : event_of (event_to e) = e.
Proof.
  destruct e as [i a p l c]. unfold event_of, event_to. cbn. f_equal. rewrite <-list_fmap_compose.
  rewrite <-(list_fmap_id l) at 2. apply list_fmap_ext. intros k q _. apply part_of_to.
Qed.

Definition demo_dump_event (e : event) : json := JObj [("event", JStr (bit_text (encode (event_to e))))].
Definition demo_load_event (d : list (string * json)) : option event :=
  match dget "event" d with Some (JStr s) => event_of <$> decode (text_bits s) | _ => None end.
Definition demo_same_event (x e : event) : bool := bool_decide (event_to x = event_to e).
Definition demo_append (s : AdkSession) (e : event) : AdkSession :=
  {| app_name := app_name s; user_id := user_id s; id := id s; state := state s; events := (events s ++ [e])%list;
     last_update_time := last_update_time s |}.

Lemma demo_load_dump e : exists d, demo_dump_event e = JObj d /\ demo_load_event d = Some e.
Proof.
  eexists. split; [done|]. change (event_of <$> decode (text_bits (bit_text (encode (event_to e)))) = Some e).
  rewrite text_bits_text, decode_encode. cbn. by rewrite event_of_to.
Qed.

Lemma demo_same_event_eq x e : demo_same_event x e = true <-> x = e.
Proof.
  unfold demo_same_event. rewrite bool_decide_eq_true. split; [|by intros ->].
  intros E. by rewrite <-(event_of_to x), E, event_of_to.
Qed.

Lemma demo_append_spec s e :
  app_name (demo_append s e) = app_name s /\ user_id (demo_append s e) = user_id s /\ id (demo_append s e) = id s /\
  events (demo_append s e) = (events s ++ [e])%list.
Proof. done. Qed.

(** A session over SQLite. *)
Definition demo_sqlite : SessionProvider SqliteSessionProvider := sqlite_sessions demo_iso json_text json_of_text json_of_text_text.
#[local] Existing Instance demo_sqlite.

Definition demo_float (j : json) : result exn Q := Err (raise TypeError "float").
Definition demo_dict (j : json) : result exn (list (string * json)) := Err (raise TypeError "dict").

Definition demo_empty : service := {| store := {| rows := []; sql_ttl := None |}; now := 5 |}.
Definition demo_user_session : AdkSession :=
  {| app_name := "shop"; user_id := "u:1"; id := "s"; state := []; events := []; last_update_time := 0 |}.

Definition demo_created : service :=
  (create_adk_session demo_dump_event 0 (Some "acme") "uuid" "shop" "u:1" [] (Some "s") demo_empty).2.

Lemma demo_created_ok : adk_service_ok demo_created /\
  at_place demo_load_event (fun _ => "") demo_float demo_dict demo_created (Some "acme") demo_user_session.
Proof.
  destruct (create_kept_place demo_dump_event demo_load_event 0 (fun _ => "") demo_float demo_dict demo_load_dump
    demo_empty (Some "acme") "uuid" "shop" "u:1" [] "s") as [Hok Hat]; try reflexivity; try by split.
  { split; [exact (sql_good_new json_text None) | exact I]. }
  split; [exact Hok|]. destruct (create_adk_session _ _ _ _ _ _ _ _ demo_empty) as [[s|x] w] eqn:E; [|vm_compute in E; discriminate E].
  destruct (Hat s w eq_refl) as [-> Hp]. unfold demo_created. rewrite E. exact Hp.
Qed.

Lemma adk_event_stored_once_witness :
  (get_adk_session demo_load_event (fun _ => "") demo_float demo_dict (Some "acme") "shop" "u:1" "s"
     (append_adk_event demo_dump_event demo_load_event demo_same_event (fun _ => 7%Q) demo_append (fun _ => "") demo_float
        demo_dict (Some "acme") "shop" "u:1" "s" look_event demo_created).2).1 =
  Ok (Some {| app_name := "shop"; user_id := "u:1"; id := "s"; state := []; events := [look_event]; last_update_time := 7 |}).
Proof.
  destruct (adk_event_stored_once demo_dump_event demo_load_event demo_same_event (fun _ => 7%Q) demo_append (fun _ => "") demo_float
    demo_dict demo_load_dump demo_same_event_eq demo_append_spec demo_created (Some "acme") demo_user_session look_event) as (s' & Hev & Hget & _).
  - apply demo_created_ok.
  - reflexivity.
  - apply demo_created_ok.
  - reflexivity.
  - cbn [app_name user_id id demo_user_session] in Hget. rewrite Hget. vm_compute in Hget. injection Hget as <-. reflexivity.
Defined.

(** A second event, and two replicas that append at once. *)
Definition other_event : event :=
  {| invocation_id := Some "i2"; author := Some "user"; partial := false; parts := []; confirmations := [] |}.

Definition demo_read (e : event) (w : service) :=
  append_read demo_dump_event demo_load_event demo_same_event (fun _ => 7%Q) demo_append (fun _ => "") demo_float demo_dict
    (Some "acme") "shop" "u:1" "s" e w.

Lemma adk_append_race_witness :
  exists p1 w1 p2 w2 w3 s3 c, demo_read look_event demo_created = (Ok p1, w1) /\ demo_read other_event w1 = (Ok p2, w2) /\
    append_write p2 w2 = (Ok (Some s3), w3) /\ events s3 = [other_event] /\ append_write p1 w3 = (Err (conflict_error c), w3).
Proof.
  destruct (demo_read look_event demo_created) as [[p1|x] w1] eqn:E1; [|vm_compute in E1; discriminate E1].
  destruct (demo_read other_event w1) as [[p2|x] w2] eqn:E2; [|vm_compute in E1; injection E1 as _ <-; vm_compute in E2; discriminate E2].
  destruct (adk_append_race demo_dump_event demo_load_event demo_same_event (fun _ => 7%Q) demo_append (fun _ => "") demo_float
    demo_dict demo_load_dump demo_same_event_eq demo_append_spec demo_created (Some "acme") demo_user_session look_event other_event p1 p2 w1 w2)
    as (w3 & s3 & c & H1 & H2 & _ & H3 & _).
  - apply demo_created_ok.
  - reflexivity.
  - apply demo_created_ok.
  - reflexivity.
  - reflexivity.
  - by intros ?%elem_of_nil.
  - by intros ?%elem_of_nil.
  - exact E1.
  - exact E2.
  - exists p1, w1, p2, w2, w3, s3, c. by split_and!.
Defined.

(** The provider may hold sessions that are not ADK's, such as the checkpoints that
    the checkpoint store keeps in it; one of them makes every listing fail. *)
Definition demo_shared : service :=
  {| store := (sp_create (store demo_created) "uuid" (Some "__micro_agent_checkpoint__:c1") None (Some "acme") 6).2; now := 7 |}.

Example foreign_session_breaks_listing :
  is_ok (list_adk_sessions demo_load_event (fun _ => "") demo_float demo_dict (Some "acme") "shop" None demo_created).1 = true /\
  (list_adk_sessions demo_load_event (fun _ => "") demo_float demo_dict (Some "acme") "shop" None demo_shared).1 =
    Err (raise ValueError "stored ADK session metadata is incomplete").
Proof. split; vm_compute; reflexivity. Qed.

(** A session is created under its id without surrounding spaces and looked up with
    them. *)
Example padded_id_is_not_found :
  let '(r, w) := create_adk_session demo_dump_event 0 None "uuid" "shop" "u" [] (Some " s ") demo_empty in
  is_ok r = true /\ (get_adk_session demo_load_event (fun _ => "") demo_float demo_dict None "shop" "u" " s " w).1 = Ok None.
Proof. split; vm_compute; reflexivity. Qed.

End AdkSession.
