(* ===== verification/Discovery.v ===== *)
(** * Discovery: the client of the agent registry

    [RegistryDiscoveryClient] of [cloud/discovery.py], and the JSON replies of the
    registry's handlers ([cloud/registry.py]) that it reads.  A reply of the
    transport is the registry's, or none when it cannot be reached; the client
    keeps the last successful answer to every query. *)

From S2P Require Import Prelude Json Registry.
Import Registry.
Local Open Scope string_scope.

Module Discovery.

(** ** Replies on the wire *)

(** [round(x, 3)] *)
Definition round3 (q : Q) : Q := round_to 1000 q.

(** [_entry_payload] *)
Definition entry_payload (e : RegistryEntry) (now : Q) : json :=
  JObj [("descriptor", JObj (to_dict (descriptor e))); ("healthy", JBool (healthy e now));
        ("registered_at_age_seconds", JFloat (round3 (age_seconds e now)));
        ("lease_expires_in_seconds", JFloat (round3 (expires_in_seconds e now)))].

(** Status code and body of a reply. *)
Definition http_reply (r : response) : Z * json :=
  match r with
  | Payload e now => (200%Z, entry_payload e now)
  | Agents es now => (200%Z, JObj [("agents", JList ((fun e => entry_payload e now) <$> es))])
  | Deregistered k => (200%Z, JObj [("status", JStr "deregistered"); ("name", JStr k.1); ("version", JStr k.2)])
  | HTTPException code detail => (code, JObj [("detail", JStr detail)])
  end.

(** What the client sees: no reply ([httpx.HTTPError] other than a status), or a
    status with a body, decoded if it is JSON. *)
Inductive answer : Type :=
  | Unreachable
  | Replied (status : Z) (body : option json).

Definition answered (r : response) : answer := let '(code, body) := http_reply r in Replied code (Some body).

(** ** The client *)

Record DiscoveredAgent : Type := {
  agent : AgentDescriptor;
  agent_healthy : bool;
  lease_expires_in_seconds : Q;
  registered_at_age_seconds : Q;
  from_cache : bool
}.

Inductive discovery_error : Type :=
  | HTTPStatusError (status : Z)
  | RegistryUnreachableError
  | InvalidDescriptor (e : error)
  | TransportError
  | MalformedReply.   (** a body that is not JSON or lacks what is read *)

#[export] Instance query_filter_eq_dec : EqDecision query_filter.
Proof. solve_decision. Defined.

(** [_cache]: the agents of the last answer to each query. *)
Definition snapshots : Type := list (query_filter * list DiscoveredAgent).

Section client.
Context (lax_bool : json -> option bool).

Definition number (j : json) : result discovery_error Q :=
  match as_number j with Some q => Ok q | None => Err MalformedReply end.

Definition field (k : string) (d : list (string * json)) : result discovery_error json :=
  match dget k d with Some v => Ok v | None => Err MalformedReply end.

Definition discovered (item : json) : result discovery_error DiscoveredAgent :=
  match item with
  | JObj item =>
      d ← field "descriptor" item;
      desc ← match d with
             | JObj d => match from_dict lax_bool d with Ok desc => Ok desc | Err e => Err (InvalidDescriptor e) end
             | _ => Err MalformedReply
             end;
      h ← field "healthy" item;
      lease ← field "lease_expires_in_seconds" item ≫= number;
      age ← field "registered_at_age_seconds" item ≫= number;
      Ok {| agent := desc; agent_healthy := py_truthy h; lease_expires_in_seconds := lease; registered_at_age_seconds := age;
            from_cache := false |}
  | _ => Err MalformedReply
  end.

Definition stale (a : DiscoveredAgent) : DiscoveredAgent :=
  {| agent := agent a; agent_healthy := agent_healthy a; lease_expires_in_seconds := lease_expires_in_seconds a;
     registered_at_age_seconds := registered_at_age_seconds a; from_cache := true |}.

Definition last_snapshot (f : query_filter) : call snapshots discovery_error (list DiscoveredAgent) := fun cache =>
  match dget f cache with
  | None => (Err RegistryUnreachableError, cache)
  | Some agents => (Ok (stale <$> agents), cache)
  end.

(** The body of a successful reply. *)
Definition read_agents (body : option json) : result discovery_error (list DiscoveredAgent) :=
  match body with
  | Some (JObj body) =>
      match default (JList []) (dget "agents" body) with
      | JList items => mapM discovered items
      | _ => Err MalformedReply
      end
  | _ => Err MalformedReply
  end.

Definition is_success (status : Z) : bool := (200 <=? status)%Z && (status <? 300)%Z.

(** [discover] *)
Definition discover (f : query_filter) (a : answer) : call snapshots discovery_error (list DiscoveredAgent) := fun cache =>
  match a with
  | Unreachable => last_snapshot f cache
  | Replied status body =>
      if is_success status
      then match read_agents body with
           | Ok agents => (Ok agents, dset f agents cache)
           | Err e => (Err e, cache)
           end
      else if (status <? 500)%Z then (Err (HTTPStatusError status), cache)
      else last_snapshot f cache
  end.

(** [register]: the request it sends, and what it makes of the answer.  The client puts
    name and version into the path as they are; the request below is the one that
    arrives if they need no quoting. *)
Definition register_request (d : AgentDescriptor) (ttl : option Q) : result discovery_error http :=
  if negb (str_truthy (name d)) || negb (str_truthy (version d))
  then Err (InvalidDescriptor (DescriptorError "descriptor must carry a name and version"))
  else Ok (Put (name d, version d) (to_dict d) ttl).

Definition registered (py_str : json -> string) (a : answer) : result discovery_error json :=
  match a with
  | Unreachable => Err TransportError
  | Replied status body =>
      if Z.eqb status 422
      then match body with
           | Some (JObj d) => Err (InvalidDescriptor (DescriptorError
               (match dget "detail" d with Some v => py_text py_str v | None => "invalid descriptor" end)))
           | _ => Err MalformedReply
           end
      else if is_success status then match body with Some j => Ok j | None => Err MalformedReply end
      else Err (HTTPStatusError status)
  end.

(** [raise_for_status] *)
Definition raise_for_status (a : answer) : result discovery_error (option json) :=
  match a with
  | Unreachable => Err TransportError
  | Replied status body => if is_success status then Ok body else Err (HTTPStatusError status)
  end.

(** [heartbeat] *)
Definition heartbeat_request (k : key) (ttl : option Q) : http := PostHeartbeat k ttl.
Definition renewed (a : answer) : result discovery_error json :=
  raise_for_status a ≫= fun body => match body with Some j => Ok j | None => Err MalformedReply end.

(** [deregister] *)
Definition deregister_request (k : key) : http := Delete k.
Definition deregistered (a : answer) : result discovery_error unit := raise_for_status a ≫= fun _ => Ok tt.

(** ** Outages

    What the client did before: queries and their answers. *)

Definition history : Type := list (query_filter * answer).

Definition after (h : history) : snapshots := foldl (fun cache qa => (discover qa.1 qa.2 cache).2) [] h.

(** The agents of the last answer to a query that could be read. *)
Definition good_answer (a : answer) : option (list DiscoveredAgent) :=
  match a with
  | Replied status body =>
      if is_success status then match read_agents body with Ok agents => Some agents | Err _ => None end else None
  | Unreachable => None
  end.

Definition last_good (f : query_filter) (h : history) : option (list DiscoveredAgent) :=
  foldl (fun last qa => if decide (qa.1 = f) then match good_answer qa.2 with Some agents => Some agents | None => last end else last) None h.

Lemma discover_cache f a cache :
  (discover f a cache).2 = match good_answer a with Some agents => dset f agents cache | None => cache end.
Proof.
  unfold discover, last_snapshot, good_answer. destruct a as [|status body]; [by destruct (dget f cache)|].
  destruct (is_success status); [by destruct (read_agents body)|]. destruct (status <? 500)%Z; [done|]. by destruct (dget f cache).
Qed.

Lemma after_last f h : dget f (after h) = last_good f h.
Proof.
  unfold after, last_good.
  assert (Hrun : forall h cache last, dget f cache = last ->
    dget f (foldl (fun cache qa => (discover qa.1 qa.2 cache).2) cache h) =
    foldl (fun last qa => if decide (qa.1 = f) then match good_answer qa.2 with Some agents => Some agents | None => last end else last) last h).
  { clear h. induction h as [|[g a] h IH]; intros cache last Hc; [done|]. cbn. apply IH. rewrite discover_cache.
    destruct (good_answer a) as [agents|]; [|by destruct (decide (g = f))]. rewrite dget_dset.
    destruct (decide (g = f)) as [->|Hne]; [by rewrite decide_True|]. by rewrite decide_False. }
  by apply Hrun.
Qed.

(** When the registry cannot be reached or fails, a query is answered with the
    agents of the last good answer to that very query, marked as stale, and with an
    error if there was none; the client error of a request is reported although there
    is a snapshot.  Neither changes what is kept. *)
Theorem discovery_degrades h f a :
  match a with Unreachable => True | Replied status _ => is_success status = false end ->
  discover f a (after h) =
    (match a with
     | Replied status _ =>
         if (status <? 500)%Z then Err (HTTPStatusError status)
         else match last_good f h with Some agents => Ok (stale <$> agents) | None => Err RegistryUnreachableError end
     | Unreachable => match last_good f h with Some agents => Ok (stale <$> agents) | None => Err RegistryUnreachableError end
     end, after h).
Proof.
  intros Ha. unfold discover, last_snapshot. rewrite after_last. destruct a as [|status body].
  - by destruct (last_good f h).
  - rewrite Ha. destruct (status <? 500)%Z; [done|]. by destruct (last_good f h).
Qed.

(** ** What the registry answers is what the client finds *)

Lemma as_skill_dict s : skill_ok s = true -> as_skill (skill_dict s) = Some s.
Proof.
  unfold skill_ok. intros [Hi Hn]%andb_prop. unfold as_skill, skill_dict.
  change (only_keys skill_keys _) with true. cbn [negb].
  change (req_field _ "id" as_nonempty) with (as_nonempty (JStr (skill_id s))).
  change (req_field _ "name" as_nonempty) with (as_nonempty (JStr (skill_name s))).
  change (opt_field _ "description" "" as_str) with (Some (skill_description s)).
  change (opt_field _ "tags" [] as_strings) with (as_strings (strings (tags s))).
  rewrite as_strings_strings. cbn. rewrite Hi, Hn. cbn. by destruct s.
Qed.

Lemma from_dict_to_dict d : contract_ok d = true -> from_dict lax_bool (to_dict d) = Ok d.
Proof.
  intros Hok.
  apply andb_true_iff in Hok as [Hok Hskills]. apply andb_true_iff in Hok as [Hok Hfp].
  apply andb_true_iff in Hok as [Hok Ha2a]. apply andb_true_iff in Hok as [Hok Hversion].
  apply andb_true_iff in Hok as [Hschema Hname]. apply String.eqb_eq in Hschema.
  assert (Hsk : mapM as_skill (skill_dict <$> skills d) = Some (skills d)).
  { apply mapM_roundtrip. intros s Hs. apply as_skill_dict. eapply forallb_elem in Hskills; eassumption. }
  unfold from_dict. set (sd := to_dict d).
  change (dget "schema_version" sd) with (Some (JStr (schema_version d))). rewrite Hschema.
  change (negb (String.eqb CLOUD_SCHEMA_VERSION CLOUD_SCHEMA_VERSION)) with false.
  change (only_keys descriptor_keys sd) with true. cbn [negb].
  change (req_field sd "name" as_nonempty) with (as_nonempty (JStr (name d))).
  change (req_field sd "version" as_nonempty) with (as_nonempty (JStr (version d))).
  change (opt_field sd "description" "" as_str) with (Some (description d)).
  change (req_field sd "a2a_protocol_version" as_nonempty) with (as_nonempty (JStr (a2a_protocol_version d))).
  change (opt_field sd "card_url" "" as_str) with (Some (card_url d)).
  change (opt_field sd "card_fingerprint" "" as_fingerprint) with (as_fingerprint (JStr (card_fingerprint d))).
  change (opt_field sd "skills" [] _) with (mapM as_skill (skill_dict <$> skills d)).
  change (opt_field sd "capabilities" [] _) with (as_capabilities lax_bool (JObj (prod_map id JBool <$> capabilities d))).
  change (opt_field sd "labels" [] as_labels) with (as_labels (JObj (prod_map id JStr <$> labels d))).
  change (opt_field sd "visibility" [] as_strings) with (as_strings (strings (visibility d))).
  rewrite Hsk, as_capabilities_capabilities, as_labels_labels, as_strings_strings.
  cbn. rewrite Hname, Hversion, Ha2a. cbn. rewrite Hfp. cbn. rewrite <-Hschema. by destruct d.
Qed.

(** What the client makes of an entry. *)
Definition seen (now : Q) (e : RegistryEntry) : DiscoveredAgent :=
  {| agent := descriptor e; agent_healthy := healthy e now; lease_expires_in_seconds := round3 (expires_in_seconds e now);
     registered_at_age_seconds := round3 (age_seconds e now); from_cache := false |}.

Lemma discovered_entry e now : contract_ok (descriptor e) = true -> discovered (entry_payload e now) = Ok (seen now e).
Proof.
  intros Hok. unfold discovered, entry_payload, field.
  change (dget "descriptor" _) with (Some (JObj (to_dict (descriptor e)))). cbn [mbind result_bind].
  rewrite from_dict_to_dict by done. reflexivity.
Qed.

Lemma entry_contract x e : entry_of_row lax_bool x = Ok e -> contract_ok (descriptor e) = true.
Proof.
  unfold entry_of_row. destruct (from_dict _ _) as [d|] eqn:Hd; [|done]. intros [= <-]. cbn. by eapply from_dict_ok.
Qed.

Lemma discover_answer r f now es cache :
  (query_agents lax_bool r f now).1 = Agents es now ->
  discover f (answered (Agents es now)) cache = (Ok (seen now <$> es), dset f (seen now <$> es) cache) /\
  Forall (fun e => contract_ok (descriptor e) = true) es.
Proof.
  intros Hq. assert (Hall : Forall (fun e => contract_ok (descriptor e) = true) es).
  { unfold query_agents, sql_query in Hq. destruct (mapM _ _) as [l|] eqn:Hm; [|done]. cbn in Hq. injection Hq as <-.
    apply mapM_ok in Hm. apply Forall_forall. intros e He. apply elem_of_filterb in He as [He _].
    apply list_elem_of_lookup in He as [i Hi]. destruct (Forall2_lookup_r _ _ _ _ _ Hm Hi) as (x & _ & Hx). by eapply entry_contract. }
  split; [|done]. unfold discover, answered, http_reply. change (is_success 200) with true. cbn iota.
  assert (Hr : read_agents (Some (JObj [("agents", JList ((fun e => entry_payload e now) <$> es))])) = Ok (seen now <$> es)).
  { change (mapM discovered ((fun e => entry_payload e now) <$> es) = Ok (seen now <$> es)). apply mapM_ok.
    clear Hq. induction Hall as [|e es He _ IH]; cbn; constructor; [by apply discovered_entry | done]. }
  by rewrite Hr.
Qed.
Lemma not_lapsed now now' retention x :
  (now <= now')%Q -> (now' < row_lease_expires_at x)%Q -> (row_registered_at x = now) -> negb (lapsed now' retention x) = true.
Proof. intros _ Hl _. apply negb_true_iff, andb_false_iff. right. apply qleb_false. done. Qed.

(** [register] through the service: the row that is stored. *)
Lemma served_registration py_str r d ttl t q now :
  contract_ok d = true -> checked_ttl "registration" ttl (sql_default_lease r) = Ok t -> register_request d ttl = Ok q ->
  let x := {| descriptor_json := sorted_dict (to_dict d); row_registered_at := now; row_lease_expires_at := now + t |} in
  let r1 := with_table r (dset (name d, version d) x (table r)) in
  serve lax_bool py_str r q now =
    (Payload {| descriptor := d; registered_at := now; lease_expires_at := now + t |} now, with_table r1 (prune r1 now)).
Proof.
  intros Hok Ht. unfold register_request. destruct (_ || _); [done|]. intros [= <-]. cbn [serve]. unfold register_agent.
  change (body_text py_str "name" (name d, version d).1 (to_dict d)) with (name d).
  change (body_text py_str "version" (name d, version d).2 (to_dict d)) with (version d).
  change ((name d, version d).1) with (name d). change ((name d, version d).2) with (version d).
  rewrite !String.eqb_refl. cbn [negb orb].
  change (dset "version" (JStr (version d)) (dset "name" (JStr (name d)) (to_dict d))) with (to_dict d).
  rewrite from_dict_to_dict by done. cbn [mbind result_bind]. unfold sql_register.
  rewrite contract_ok_validate by done. cbn [mbind result_bind]. rewrite Ht. reflexivity.
Qed.
End client.

(** What an agent registers is what a client finds.  If a descriptor satisfies the wire
    contract and the registry can be read, the registration that the client sends is
    answered with the entry, and until its lease runs out every query that the agent
    matches returns its descriptor, healthy and fresh; when the registry then fails the
    client still has exactly this answer, marked as stale. *)
Theorem registered_agent_is_discovered lax py_str r d ttl t q now now' f cache :
  readable lax r -> contract_ok d = true -> checked_ttl "registration" ttl (sql_default_lease r) = Ok t ->
  register_request d ttl = Ok q -> (now <= now' < now + t)%Q ->
  let e := {| descriptor := d; registered_at := now; lease_expires_at := now + t |} in
  let kept := {| descriptor := canon d; registered_at := now; lease_expires_at := now + t |} in
  matches f now' kept = true ->
  let '(answer, r1) := serve lax py_str r q now in
  registered py_str (answered answer) = Ok (entry_payload e now) /\
  exists agents,
    discover lax f (answered (serve lax py_str r1 (GetAll f) now').1) cache = (Ok agents, dset f agents cache) /\
    seen now' kept ∈ agents /\ agent_healthy (seen now' kept) = true /\
    discover lax f Unreachable (dset f agents cache) = (Ok (stale <$> agents), dset f agents cache).
Proof.
  intros Hr Hok Ht Hq Hnow e kept Hm.
  pose proof (serve_readable lax py_str r q now Hr) as Hr1.
  rewrite (served_registration lax py_str r d ttl t q now Hok Ht Hq) in *. cbn [snd] in Hr1.
  set (x := {| descriptor_json := _ |}) in *. set (r0 := with_table r _) in *. set (r1 := with_table r0 _) in *.
  split; [reflexivity|].
  destruct (query_answers lax r1 f now' Hr1) as (es & Hes & Hin).
  cbn [serve]. rewrite Hes. destruct (discover_answer lax r1 f now' es cache Hes) as [-> _].
  exists (seen now' <$> es). split_and!; [done| | |].
  - apply list_elem_of_fmap. exists kept. split; [done|]. apply (Hin (name d, version d) x); [|by unfold entry_of_row; cbn [descriptor_json x]; rewrite from_dict_stored|done|].
    + apply elem_of_filterb. split; [apply dget_elem, dget_dset_eq|]. apply (not_lapsed now now); [lra| cbn; lra|done].
    + apply (not_lapsed now now'); [lra| cbn; lra|done].
  - apply qltb_true. cbn. lra.
  - unfold discover, last_snapshot. by rewrite dget_dset_eq.
Qed.

(** ** On concrete input *)

Definition no_reading : json -> option bool := fun _ => None.
Definition no_text : json -> string := fun _ => "".

Lemma discovery_degrades_witness :
  discover no_reading everything (Replied 503 None) (after no_reading [(everything, Replied 200 (Some (JObj [])))]) =
    (Ok [], [(everything, [])]).
Proof. exact (discovery_degrades no_reading [(everything, Replied 200 (Some (JObj [])))] everything (Replied 503 None) eq_refl). Defined.

Lemma registered_agent_is_discovered_witness :
  exists agents,
    discover no_reading everything
      (answered (serve no_reading no_text
        (serve no_reading no_text empty_sqlite
          (Put ("a", "1") (to_dict (demo_descriptor "a" "0.3.0")) (Some 60%Q)) 100%Q).2 (GetAll everything) 130%Q).1) [] =
      (Ok agents, dset everything agents []) /\ agents <> [].
Proof.
  assert (Hr : readable no_reading empty_sqlite) by (intros k x Hin; by apply not_elem_of_nil in Hin).
  assert (Hok : contract_ok (demo_descriptor "a" "0.3.0") = true) by (vm_compute; reflexivity).
  assert (Ht : checked_ttl "registration" (Some 60%Q) (sql_default_lease empty_sqlite) = Ok 60%Q) by (vm_compute; reflexivity).
  assert (Hq : register_request (demo_descriptor "a" "0.3.0") (Some 60%Q) =
               Ok (Put ("a", "1") (to_dict (demo_descriptor "a" "0.3.0")) (Some 60%Q))) by (vm_compute; reflexivity).
  assert (Hnow : (100 <= 130 < 100 + 60)%Q) by lra.
  pose proof (registered_agent_is_discovered no_reading no_text empty_sqlite _ _ _ _ 100%Q 130%Q everything [] Hr Hok Ht Hq Hnow) as H.
  cbv zeta in H. specialize (H ltac:(vm_compute; reflexivity)).
  destruct (serve _ _ _ _ _) as [a r1]. destruct H as (_ & agents & H & Hin & _ & _). exists agents.
  split; [exact H|]. intros ->. by apply not_elem_of_nil in Hin.
Defined.

End Discovery.
