(* ===== verification/Config.v ===== *)
(** * Configuration: layers, environment variables, validation

    [config/config.py].  A configuration object is its attributes by name, since
    the resolver reads and sets them by name ([hasattr], [setattr], [getattr]); the
    process environment is a function from names to texts.  [urlsplit] and
    the reading of a float are parameters. *)

From Stdlib Require Import Ascii.
From S2P Require Import Prelude Json Urls.
Import Urls.
Local Open Scope string_scope.

Module Config.

(** ** Attributes *)

Inductive pyfloat : Type := Finite (q : Q) | Infinite (negative : bool) | NaN.

Inductive attribute : Type :=
  | Unset                                       (** [None] *)
  | Text (s : string)
  | Int (z : Z)
  | Float (f : pyfloat)
  | Texts (l : list string)
  | Endpoints (d : list (string * string))
  | Values (d : list (string * json)).

Definition attributes : Type := list (string * attribute).

(** [getattr(config, name)], for a name the object has. *)
Definition getattr (c : attributes) (k : string) : attribute := default Unset (dget k c).
Definition setattr (c : attributes) (k : string) (a : attribute) : attributes := dset k a c.

(** What a text attribute says; [None] if it is unset. *)
Definition text (c : attributes) (k : string) : option string :=
  match getattr c k with Text s => Some s | _ => None end.
Definition endpoints (c : attributes) (k : string) : list (string * string) :=
  match getattr c k with Endpoints d => d | _ => [] end.
Definition values (c : attributes) (k : string) : list (string * json) :=
  match getattr c k with Values d => d | _ => [] end.
Definition texts (c : attributes) (k : string) : list string :=
  match getattr c k with Texts l => l | _ => [] end.
Definition integer (c : attributes) (k : string) : option Z :=
  match getattr c k with Int z => Some z | _ => None end.

Definition of_text (o : option string) : attribute := from_option Text Unset o.

(** The declared type of an attribute. *)
Inductive kind : Type := KText | KInt | KFloat | KTexts | KEndpoints | KValues.
#[export] Instance kind_eq_dec : EqDecision kind.
Proof. solve_decision. Defined.

Definition has_kind (k : kind) (a : attribute) : bool :=
  match k, a with
  | KText, (Unset | Text _) | KInt, (Unset | Int _) | KFloat, (Unset | Float _)
  | KTexts, Texts _ | KEndpoints, Endpoints _ | KValues, Values _ => true
  | _, _ => false
  end.

(** [ResolvedConfig]: the declared fields. *)
Definition resolved_fields : list (string * kind) :=
  [("runtime", KText); ("model_ref", KText); ("model_id", KText); ("model_provider", KText);
   ("model_endpoint", KText); ("model_api_key", KText); ("model_generation", KValues);
   ("model_timeout_seconds", KInt); ("mcp_endpoints", KEndpoints); ("memory_endpoint", KText);
   ("session_endpoint", KText); ("idempotency_endpoint", KText); ("approval_endpoint", KText);
   ("knowledge_endpoint", KText); ("a2a_store_path", KText); ("token_exchange_endpoint", KText);
   ("token_exchange_token", KText); ("model_catalog_endpoint", KText); ("model_catalog_token", KText);
   ("policy_store_endpoint", KText); ("policy_store_token", KText); ("log_level", KText); ("auth", KText);
   ("auth_issuer", KText); ("auth_audience", KText); ("audit_sink", KText); ("audit_file", KText);
   ("audit_database", KText); ("audit_retention_seconds", KFloat); ("max_request_bytes", KInt);
   ("rate_limit_per_minute", KInt); ("rate_limit_burst", KInt); ("cors_origins", KTexts); ("extra", KValues)].

Definition default_of (k : kind) : attribute :=
  match k with KText | KInt | KFloat => Unset | KTexts => Texts [] | KEndpoints => Endpoints [] | KValues => Values [] end.

(** [ResolvedConfig()] *)
Definition framework_defaults : attributes :=
  setattr (setattr (prod_map id default_of <$> resolved_fields) "log_level" (Text "INFO")) "audit_sink" (Text "stdout").

(** ** The layers' sources *)

Record SecretRef : Type := { secret_name : string; secret_source : option string }.

(** [EnvironmentConfig]: the fields that are texts or numbers by name. *)
Record EnvironmentConfig : Type := {
  settings : attributes;
  mcp_endpoints : list (string * string);
  cors_origins : list string;
  extra : list (string * json);
  model_api_key_ref : option SecretRef;
  token_exchange_token_ref : option SecretRef;
  model_catalog_token_ref : option SecretRef;
  policy_store_token_ref : option SecretRef
}.

(** [EnvironmentConfig()] *)
Definition empty_environment : EnvironmentConfig :=
  {| settings := []; mcp_endpoints := []; cors_origins := []; extra := []; model_api_key_ref := None;
     token_exchange_token_ref := None; model_catalog_token_ref := None; policy_store_token_ref := None |}.

Inductive config_error : Type := ValueError (msg : string).

(** The texts among the overlay's fields. *)
Definition overlay_settings : list string :=
  ["model_endpoint"; "memory_endpoint"; "session_endpoint"; "idempotency_endpoint"; "approval_endpoint";
   "knowledge_endpoint"; "a2a_store_path"; "token_exchange_endpoint"; "model_catalog_endpoint"; "policy_store_endpoint"].
Definition overlay_urls : list string :=
  ["model_endpoint"; "policy_store_endpoint"; "model_catalog_endpoint"; "token_exchange_endpoint"].

Record EnvironmentOverlay : Type := {
  overlay : attributes;
  overlay_mcp_endpoints : list (string * string)
}.

(** [to_environment_config] *)
Definition to_environment_config (o : EnvironmentOverlay) : EnvironmentConfig :=
  {| settings := (fun k => (k, getattr (overlay o) k)) <$> overlay_settings;
     mcp_endpoints := overlay_mcp_endpoints o; cors_origins := []; extra := []; model_api_key_ref := None;
     token_exchange_token_ref := None; model_catalog_token_ref := None; policy_store_token_ref := None |}.

Section overlay_urls.
Context (urlsplit : string -> option url).

(** [_validate_http_endpoint] *)
Definition http_endpoint (value : string) : bool :=
  match urlsplit value with Some u => is_http (scheme u) && str_truthy (netloc u) | None => false end.

(** The validators of [EnvironmentOverlay]. *)
Definition overlay_valid (o : EnvironmentOverlay) : bool :=
  forallb (fun k => from_option http_endpoint true (text (overlay o) k)) overlay_urls &&
  forallb (fun re => negb (py_blank re.1) && http_endpoint re.2) (overlay_mcp_endpoints o).

End overlay_urls.

(** ** The process environment *)

Section layers.
Context (py_float : string -> option pyfloat) (environ : string -> option string).

Definition upper_ascii (c : Ascii.ascii) : Ascii.ascii :=
  let n := Ascii.N_of_ascii c in if N.leb 97 n && N.leb n 122 then Ascii.ascii_of_N (n - 32) else c.
Fixpoint py_upper (s : string) : string :=
  match s with EmptyString => EmptyString | String c s => String (upper_ascii c) (py_upper s) end.

(** [_env_key], [_read_env] *)
Definition env_key (name : string) : string := "MICRO_AGENT_" ++ py_upper name.
Definition read_env (name : string) : option string := environ (env_key name).

(** [_resolve_secret] *)
Definition resolve_secret (r : SecretRef) : option string :=
  match secret_source r with
  | None => environ (secret_name r)
  | Some s => if String.eqb s "env" then environ (secret_name r) else None
  end.

(** *** [int(text)] *)

Definition digit_value (c : Ascii.ascii) : option Z :=
  let n := Ascii.N_of_ascii c in if N.leb 48 n && N.leb n 57 then Some (Z.of_N n - 48)%Z else None.

(** Digits, with single underscores between them. *)
Fixpoint read_digits (acc : Z) (l : list Ascii.ascii) : option Z :=
  match l with
  | [] => Some acc
  | c :: l =>
      match digit_value c with
      | Some d => read_digits (acc * 10 + d)%Z l
      | None =>
          if Ascii.eqb c ("_"%char) then
            match l with
            | c' :: l' => d ← digit_value c'; read_digits (acc * 10 + d)%Z l'
            | [] => None
            end
          else None
      end
  end.

Definition read_number (l : list Ascii.ascii) : option Z :=
  match l with [] => None | c :: l => d ← digit_value c; read_digits d l end.

Definition py_int (s : string) : option Z :=
  match String.list_ascii_of_string (py_strip s) with
  | c :: l => if Ascii.eqb c ("-"%char) then Z.opp <$> read_number l
              else if Ascii.eqb c ("+"%char) then read_number l else read_number (c :: l)
  | [] => None
  end.

(** ** The layers *)

Definition config_step : Type := attributes -> result config_error attributes.

(** [value is not None] *)
Definition given (a : attribute) : bool := match a with Unset => false | _ => true end.

(** Layer 2: the definition. *)
Definition definition_layer (overrides : list (string * attribute)) (c : attributes) : attributes :=
  foldl (fun c kv => if dmem kv.1 c && given kv.2 then setattr c kv.1 kv.2 else c) c overrides.

(** Layer 3: [EnvironmentConfig].  Most texts count only if they are not empty. *)
Definition environment_texts : list string :=
  ["runtime"; "model_id"; "model_provider"; "model_endpoint"; "memory_endpoint"; "session_endpoint";
   "idempotency_endpoint"; "approval_endpoint"; "knowledge_endpoint"; "a2a_store_path"; "token_exchange_endpoint";
   "policy_store_endpoint"; "model_catalog_endpoint"; "auth"; "auth_issuer"; "auth_audience"; "audit_sink";
   "audit_file"; "audit_database"].
(** Set when they are not [None]. *)
Definition environment_given : list string :=
  ["log_level"; "audit_retention_seconds"; "max_request_bytes"; "rate_limit_per_minute"; "rate_limit_burst"].

Definition truthy (a : attribute) : bool :=
  match a with
  | Unset => false
  | Text s => str_truthy s
  | Int z => negb (Z.eqb z 0)
  | Float (Finite q) => negb (Qeq_bool q 0)
  | Float _ => true
  | Texts l => negb (bool_decide (l = []))
  | Endpoints d => negb (bool_decide (d = []))
  | Values d => match d with [] => false | _ => true end
  end.

(** [if test(source.name): config.name = source.name], name by name. *)
Definition take_settings (test : attribute -> bool) (source : string -> attribute) (names : list string) (c : attributes)
  : attributes :=
  foldl (fun c k => if test (source k) then setattr c k (source k) else c) c names.

(** [d.update(e)] *)
Definition update {A} (d e : list (string * A)) : list (string * A) := foldl (fun d kv => dset kv.1 kv.2 d) d e.

Definition environment_layer (e : EnvironmentConfig) (c : attributes) : attributes :=
  let c := take_settings truthy (getattr (settings e)) environment_texts c in
  let c := take_settings given (getattr (settings e)) environment_given c in
  let c := setattr c "mcp_endpoints" (Endpoints (update (endpoints c "mcp_endpoints") (mcp_endpoints e))) in
  let c := if bool_decide (cors_origins e = []) then c else setattr c "cors_origins" (Texts (cors_origins e)) in
  setattr c "extra" (Values (update (values c "extra") (extra e))).

(** Layer 3b: environment variables. *)
Definition variable_texts : list string :=
  ["runtime"; "model_endpoint"; "model_id"; "model_api_key"; "log_level"; "model_provider"; "memory_endpoint";
   "session_endpoint"; "idempotency_endpoint"; "approval_endpoint"; "knowledge_endpoint"; "a2a_store_path";
   "token_exchange_endpoint"; "token_exchange_token"; "policy_store_endpoint"; "model_catalog_endpoint";
   "model_catalog_token"; "policy_store_token"; "auth"; "auth_issuer"; "auth_audience"; "audit_sink"; "audit_file";
   "audit_database"].
Definition variable_integers : list string := ["max_request_bytes"; "rate_limit_per_minute"; "rate_limit_burst"].

Definition integer_variable (k : string) : config_step := fun c =>
  match read_env k with
  | None => Ok c
  | Some raw => match py_int raw with
                | Some z => Ok (setattr c k (Int z))
                | None => Err (ValueError (env_key k ++ " must be an integer"))
                end
  end.

Fixpoint integer_variables (names : list string) : config_step := fun c =>
  match names with
  | [] => Ok c
  | k :: names => integer_variable k c ≫= integer_variables names
  end.

Definition retention_variable : config_step := fun c =>
  match read_env "audit_retention_seconds" with
  | None => Ok c
  | Some raw => match py_float raw with
                | Some f => Ok (setattr c "audit_retention_seconds" (Float f))
                | None => Err (ValueError "MICRO_AGENT_AUDIT_RETENTION_SECONDS must be a number")
                end
  end.

Definition origins_variable (c : attributes) : attributes :=
  match read_env "cors_origins" with
  | None => c
  | Some raw => setattr c "cors_origins" (Texts (py_strip <$> py_split (","%char) raw))
  end.

Definition variable_layer : config_step := fun c =>
  let c := take_settings truthy (fun k => of_text (read_env k)) variable_texts c in
  c ← integer_variables variable_integers c;
  c ← retention_variable c;
  Ok (origins_variable c).

(** Layer 4: secrets. *)
Definition bind_secret (r : option SecretRef) (k : string) (c : attributes) : attributes :=
  match r with Some r => setattr c k (of_text (resolve_secret r)) | None => c end.

Definition secret_layer (e : EnvironmentConfig) (c : attributes) : attributes :=
  let c := bind_secret (model_api_key_ref e) "model_api_key" c in
  let c := bind_secret (policy_store_token_ref e) "policy_store_token" c in
  let c := bind_secret (model_catalog_token_ref e) "model_catalog_token" c in
  bind_secret (token_exchange_token_ref e) "token_exchange_token" c.

(** [resolve_config] *)
Definition resolve_config (overrides : list (string * attribute)) (env : option EnvironmentConfig)
  : result config_error attributes :=
  let c := definition_layer overrides framework_defaults in
  let c := from_option environment_layer id env c in
  c ← variable_layer c;
  Ok (from_option secret_layer id env c).

(** ** What the layers leave alone *)

Lemma get_set c k k' a : getattr (setattr c k' a) k = if decide (k = k') then a else getattr c k.
Proof. unfold getattr, setattr. rewrite dget_dset. by destruct (decide (k = k')). Qed.

Lemma dkeys_set c k a : k ∈ dkeys c -> dkeys (setattr c k a) = dkeys c.
Proof.
  unfold setattr. induction c as [|[k' a'] c IH]; [by intros ?%not_elem_of_nil|]. cbn. intros Hk.
  destruct (decide (k = k')) as [->|Hne]; cbn; [done|]. f_equal. apply IH. by apply elem_of_cons in Hk as [|].
Qed.

Lemma take_settings_get test source names c k :
  getattr (take_settings test source names c) k = if memb k names && test (source k) then source k else getattr c k.
Proof.
  unfold take_settings. revert c. induction names as [|k' names IH]; intros c; [done|]. cbn [foldl]. rewrite IH.
  unfold memb. destruct (decide (k = k')) as [->|Hne].
  - rewrite (bool_decide_eq_true_2 (k' ∈ k' :: names)) by left. cbn.
    destruct (test (source k')); [|by rewrite andb_false_r]. rewrite get_set, decide_True by done. by destruct (_ && _).
  - assert (Heq : bool_decide (k ∈ k' :: names) = bool_decide (k ∈ names)) by (apply bool_decide_ext; set_solver). rewrite Heq.
    destruct (_ && _); [done|]. destruct (test (source k')); [|done]. by rewrite get_set, decide_False.
Qed.

(** What the definition sets. *)
Definition override (k : string) (overrides : list (string * attribute)) : option attribute :=
  match dget k overrides with Some a => if given a then Some a else None | None => None end.

Lemma definition_step_keys c k a : dkeys (if dmem k c && given a then setattr c k a else c) = dkeys c.
Proof. destruct (dmem k c && given a) eqn:E; [|done]. apply andb_prop in E as [E _]. apply dkeys_set. by apply memb_true in E. Qed.

Lemma definition_layer_keys overrides c : dkeys (definition_layer overrides c) = dkeys c.
Proof.
  unfold definition_layer. revert c. induction overrides as [|[k a] l IH]; intros c; [done|].
  cbn [foldl fst snd]. by rewrite IH, definition_step_keys.
Qed.

Lemma definition_layer_get overrides c k :
  NoDup (dkeys overrides) -> k ∈ dkeys c ->
  getattr (definition_layer overrides c) k = default (getattr c k) (override k overrides).
Proof.
  unfold definition_layer, override. revert c. induction overrides as [|[k' a] l IH]; intros c Hnd Hk; [done|].
  apply NoDup_cons in Hnd as [Hk' Hnd]. cbn [foldl fst snd dget]. rewrite IH; [|done|by rewrite definition_step_keys].
  destruct (decide (k = k')) as [->|Hne].
  - rewrite (proj2 (dget_None k' l)) by exact Hk'. unfold dmem. rewrite (proj2 (memb_true _ _)) by exact Hk.
    destruct (given a); [|done]. change (getattr (setattr c k' a) k' = a). by rewrite get_set, decide_True.
  - assert (Hc : getattr (if dmem k' c && given a then setattr c k' a else c) k = getattr c k).
    { destruct (_ && _); [|done]. by rewrite get_set, decide_False. }
    exact (f_equal (fun d => default d _) Hc).
Qed.

(** ** Which layer decides *)

Definition environment_setting (env : option EnvironmentConfig) (k : string) : attribute :=
  from_option (fun e => getattr (settings e) k) Unset env.

(** The value that counts for a text: variable, deployment, definition, default. *)
Definition preferred (overrides : list (string * attribute)) (env : option EnvironmentConfig) (k : string) : attribute :=
  if opt_truthy (read_env k) then of_text (read_env k)
  else if memb k environment_texts && truthy (environment_setting env k) then environment_setting env k
  else if memb k environment_given && given (environment_setting env k) then environment_setting env k
  else default (getattr framework_defaults k) (override k overrides).

Definition secret_ref (env : option EnvironmentConfig) (k : string) : option SecretRef :=
  e ← env;
  if String.eqb k "model_api_key" then model_api_key_ref e
  else if String.eqb k "policy_store_token" then policy_store_token_ref e
  else if String.eqb k "model_catalog_token" then model_catalog_token_ref e
  else if String.eqb k "token_exchange_token" then token_exchange_token_ref e
  else None.

Lemma environment_layer_get e c k :
  k ∉ ["mcp_endpoints"; "cors_origins"; "extra"] ->
  getattr (environment_layer e c) k =
    if memb k environment_given && given (getattr (settings e) k) then getattr (settings e) k
    else if memb k environment_texts && truthy (getattr (settings e) k) then getattr (settings e) k else getattr c k.
Proof.
  intros Hk. unfold environment_layer. rewrite get_set, decide_False by set_solver.
  destruct (bool_decide (cors_origins e = [])); [|rewrite get_set, decide_False by set_solver];
    (rewrite get_set, decide_False by set_solver); by rewrite !take_settings_get.
Qed.

Lemma integer_variables_get names c c' k :
  integer_variables names c = Ok c' -> k ∉ names -> getattr c' k = getattr c k.
Proof.
  revert c. induction names as [|k' names IH]; cbn; intros c Hc Hk; [by injection Hc as <-|].
  apply not_elem_of_cons in Hk as [Hne Hk]. apply result_bind_ok in Hc as (c1 & H1 & Hc). rewrite (IH _ Hc Hk).
  unfold integer_variable in H1. destruct (read_env k'); [|by injection H1 as <-]. destruct (py_int _); [|done].
  injection H1 as <-. by rewrite get_set, decide_False.
Qed.

Lemma variable_layer_get c c' k :
  variable_layer c = Ok c' -> k ∈ variable_texts ->
  getattr c' k = if opt_truthy (read_env k) then of_text (read_env k) else getattr c k.
Proof.
  intros Hc Hk. assert (Hother : k ∉ "audit_retention_seconds" :: "cors_origins" :: variable_integers).
  { intros Hin. revert Hk. 
    assert (Hall : forallb (fun k => negb (memb k variable_texts)) ("audit_retention_seconds" :: "cors_origins" :: variable_integers) = true)
      by reflexivity.
    apply forallb_elem with (x := k) in Hall; [|exact Hin]. by apply negb_true_iff, memb_false in Hall. }
  apply not_elem_of_cons in Hother as [Hr Hother]. apply not_elem_of_cons in Hother as [Ho Hi].
  unfold variable_layer in Hc. apply result_bind_ok in Hc as (c1 & H1 & Hc). apply result_bind_ok in Hc as (c2 & H2 & Hc).
  injection Hc as <-. assert (Hc2 : getattr (origins_variable c2) k = getattr c2 k).
  { unfold origins_variable. destruct (read_env "cors_origins"); [|done]. by rewrite get_set, decide_False. }
  rewrite Hc2. assert (Hc1 : getattr c2 k = getattr c1 k).
  { unfold retention_variable in H2. destruct (read_env _); [|by injection H2 as <-]. destruct (py_float _); [|done].
    injection H2 as <-. by rewrite get_set, decide_False. }
  rewrite Hc1, (integer_variables_get _ _ _ k H1 Hi), take_settings_get.
  rewrite (proj2 (memb_true _ _) Hk). cbn. destruct (read_env k) as [v|]; cbn; [|done]. by destruct (str_truthy v).
Qed.

Lemma secret_layer_get e c k :
  getattr (secret_layer e c) k = from_option (fun r => of_text (resolve_secret r)) (getattr c k) (secret_ref (Some e) k).
Proof.
  unfold secret_layer, bind_secret, secret_ref. cbn.
  repeat match goal with |- context [match ?r e with Some _ => _ | None => _ end] => destruct (r e) eqn:? end;
  rewrite ?get_set;
  repeat match goal with |- context [String.eqb k ?s] => destruct (String.eqb_spec k s) as [->|?] end;
  rewrite ?decide_True by done; rewrite ?decide_False by done; cbn; by rewrite ?Heqo, ?Heqo0, ?Heqo1, ?Heqo2.
Qed.

Lemma variable_texts_declared k : k ∈ variable_texts -> k ∈ dkeys framework_defaults.
Proof.
  intros Hk. assert (Hall : forallb (fun k => memb k (dkeys framework_defaults)) variable_texts = true) by (vm_compute; reflexivity).
  apply forallb_elem with (x := k) in Hall; [|done]. by apply memb_true in Hall.
Qed.

Lemma variable_texts_plain k : k ∈ variable_texts -> k ∉ ["mcp_endpoints"; "cors_origins"; "extra"].
Proof.
  intros Hk. assert (Hall : forallb (fun k => negb (memb k ["mcp_endpoints"; "cors_origins"; "extra"])) variable_texts = true) by reflexivity.
  apply forallb_elem with (x := k) in Hall; [|done]. by apply negb_true_iff, memb_false in Hall.
Qed.

(** C4: Precedence.  Every text of the resolved configuration, the log level and the
    secrets among them, is decided by the first layer that says something: its
    environment variable, the deployment's configuration, the definition, the default.
    Only a secret reference overrides all of these, and does so even when the
    secret it names is not there. *)
Theorem config_precedence overrides env c k :
  NoDup (dkeys overrides) -> resolve_config overrides env = Ok c -> k ∈ variable_texts ->
  getattr c k = match secret_ref env k with
                | Some r => of_text (resolve_secret r)
                | None => preferred overrides env k
                end.
Proof.
  intros Hnd Hc Hk. unfold resolve_config in Hc. apply result_bind_ok in Hc as (c1 & H1 & Hc). injection Hc as <-.
  pose proof (variable_layer_get _ _ k H1 Hk) as Hv.
  assert (Hd := definition_layer_get overrides framework_defaults k Hnd (variable_texts_declared k Hk)).
  unfold preferred. destruct env as [e|]; cbn [from_option] in *.
  - rewrite secret_layer_get. destruct (secret_ref (Some e) k); [done|]. cbn [from_option]. rewrite Hv.
    destruct (opt_truthy (read_env k)); [done|]. rewrite environment_layer_get by (by apply variable_texts_plain).
    rewrite Hd. unfold environment_setting. cbn [from_option].
    destruct (memb k environment_given) eqn:Eg; [|by destruct (memb k environment_texts && _)].
    assert (Ht : memb k environment_texts = false).
    { assert (Hall : forallb (fun k => negb (memb k environment_texts)) environment_given = true) by reflexivity.
      apply memb_true in Eg. apply forallb_elem with (x := k) in Hall; [|done]. by apply negb_true_iff in Hall. }
    rewrite Ht. cbn. by destruct (given _).
  - change (id c1) with c1. rewrite Hv. change (id ?x) with x. rewrite Hd. by rewrite !andb_false_r.
Qed.

(** ** Types *)

Definition typed (c : attributes) : Prop :=
  dkeys c = resolved_fields.*1 /\ forall k kd, (k, kd) ∈ resolved_fields -> has_kind kd (getattr c k) = true.

(** A value fit for every field of its name. *)
Definition fits (k : string) (a : attribute) : Prop := forall kd, (k, kd) ∈ resolved_fields -> has_kind kd a = true.

Definition env_typed (e : EnvironmentConfig) : Prop :=
  forall k, given (getattr (settings e) k) = true -> fits k (getattr (settings e) k).

Lemma truthy_given a : truthy a = true -> given a = true.
Proof. by destruct a. Qed.

Lemma fits_kind k kd a : dget k resolved_fields = Some kd -> has_kind kd a = true -> fits k a.
Proof.
  intros Hk Ha kd' Hin. apply elem_dget in Hin; [|refine (bool_decide_eq_true_1 _ _); vm_compute; reflexivity]. congruence.
Qed.

Lemma typed_set c k a : typed c -> dmem k c = true -> fits k a -> typed (setattr c k a).
Proof.
  intros [Hd Hk] Hin Ha. split; [rewrite dkeys_set; [done|by apply memb_true in Hin]|].
  intros k' kd Hkd. rewrite get_set. destruct (decide (k' = k)) as [->|]; [by apply Ha | by apply Hk].
Qed.

Lemma typed_declared c k : typed c -> memb k (resolved_fields.*1) = true -> dmem k c = true.
Proof. intros [Hd _] Hk. unfold dmem. by rewrite Hd. Qed.

Lemma typed_settings test source names c :
  typed c -> forallb (fun k => memb k (resolved_fields.*1)) names = true -> (forall k, k ∈ names -> test (source k) = true -> fits k (source k)) ->
  typed (take_settings test source names c).
Proof.
  unfold take_settings. revert c. induction names as [|k names IH]; intros c Hc Hn Hs; [done|]. cbn [foldl].
  cbn in Hn. apply andb_prop in Hn as [Hk Hn]. apply IH; [|done|intros k' Hk'; apply Hs; by right].
  destruct (test (source k)) eqn:Et; [|done]. apply typed_set; [done|by apply typed_declared|apply Hs; [left|done]].
Qed.

Lemma typed_definition overrides c :
  typed c -> (forall k a, (k, a) ∈ overrides -> given a = true -> fits k a) -> typed (definition_layer overrides c).
Proof.
  unfold definition_layer. revert c. induction overrides as [|[k a] l IH]; intros c Hc Ho; [done|]. cbn [foldl fst snd].
  apply IH; [|intros k' a' Hin; apply Ho; by right].
  destruct (dmem k c && given a) eqn:E; [|done]. apply andb_prop in E as [Ek Ea]. apply typed_set; [done..|]. apply (Ho k a); [left|done].
Qed.

Ltac typed_step := apply typed_set; [|apply typed_declared; [|reflexivity]|eapply fits_kind; reflexivity].

Lemma typed_environment e c : typed c -> env_typed e -> typed (environment_layer e c).
Proof.
  intros Hc He. unfold environment_layer.
  assert (Hc1 : typed (take_settings truthy (getattr (settings e)) environment_texts c)) by (apply typed_settings; [done|reflexivity|intros; by apply He, truthy_given]).
  assert (Hc2 := typed_settings given (getattr (settings e)) environment_given _ Hc1 eq_refl (fun k _ => He k)).
  set (c2 := take_settings given _ _ _) in *.
  assert (Hc3 : typed (setattr c2 "mcp_endpoints" (Endpoints (update (endpoints c2 "mcp_endpoints") (mcp_endpoints e))))) by by typed_step.
  set (c3 := setattr c2 _ _) in *.
  assert (Hc4 : typed (if bool_decide (cors_origins e = []) then c3 else setattr c3 "cors_origins" (Texts (cors_origins e)))).
  { destruct (bool_decide _); [done|]. by typed_step. }
  by typed_step.
Qed.

Lemma typed_integers names c c' :
  forallb (fun k => bool_decide (dget k resolved_fields = Some KInt)) names = true ->
  typed c -> integer_variables names c = Ok c' -> typed c'.
Proof.
  revert c. induction names as [|k names IH]; cbn [integer_variables forallb]; intros c Hn Hc H; [by injection H as <-|].
  apply andb_prop in Hn as [Hk Hn]. apply bool_decide_eq_true_1 in Hk. apply result_bind_ok in H as (c1 & H1 & H).
  apply (IH c1 Hn); [|done]. unfold integer_variable in H1. destruct (read_env k); [|by injection H1 as <-].
  destruct (py_int _); [|done]. injection H1 as <-. apply typed_set; [done| |by eapply fits_kind].
  apply typed_declared; [done|]. apply memb_true. apply dget_elem in Hk. apply list_elem_of_fmap. by exists (k, KInt).
Qed.

Lemma fits_text k o : k ∈ variable_texts -> fits k (of_text o).
Proof.
  intros Hk. apply (fits_kind k KText); [|by destruct o].
  assert (Hall : forallb (fun k => bool_decide (dget k resolved_fields = Some KText)) variable_texts = true) by (vm_compute; reflexivity).
  apply forallb_elem with (x := k) in Hall; [|done]. by apply bool_decide_eq_true_1 in Hall.
Qed.

Lemma typed_variables c c' : typed c -> variable_layer c = Ok c' -> typed c'.
Proof.
  intros Hc H. unfold variable_layer in H. apply result_bind_ok in H as (c1 & H1 & H). apply result_bind_ok in H as (c2 & H2 & H).
  injection H as <-. apply typed_integers in H1; [|reflexivity|apply typed_settings; [done|reflexivity|intros; by apply fits_text]].
  assert (Hc2 : typed c2).
  { unfold retention_variable in H2. destruct (read_env _); [|by injection H2 as <-]. destruct (py_float _); [|done].
    injection H2 as <-. by typed_step. }
  unfold origins_variable. destruct (read_env "cors_origins"); [|done]. by typed_step.
Qed.

Lemma typed_secret r k c : typed c -> k ∈ variable_texts -> typed (bind_secret r k c).
Proof.
  intros Hc Hk. unfold bind_secret. destruct r; [|done]. apply typed_set; [done| |by apply fits_text].
  apply typed_declared; [done|]. apply memb_true. exact (variable_texts_declared k Hk).
Qed.

(** The resolved configuration has exactly the declared fields, each of its declared
    type, whatever the environment variables and secrets say, if the definition and the
    deployment's configuration give values of the types of the fields they name. *)
Theorem resolved_config_typed overrides env c :
  (forall k a, (k, a) ∈ overrides -> given a = true -> fits k a) -> from_option env_typed True env ->
  resolve_config overrides env = Ok c -> typed c.
Proof.
  intros Ho He Hc. unfold resolve_config in Hc. apply result_bind_ok in Hc as (c1 & H1 & Hc). injection Hc as <-.
  assert (Hdef : typed framework_defaults).
  { split; [reflexivity|]. intros k kd Hin.
    assert (Hall : forallb (fun f => has_kind f.2 (getattr framework_defaults f.1)) resolved_fields = true) by (vm_compute; reflexivity).
    by apply forallb_elem with (x := (k, kd)) in Hall. }
  apply typed_definition with (overrides := overrides) in Hdef; [|done]. destruct env as [e|]; cbn [from_option] in *.
  - apply typed_variables in H1; [|by apply typed_environment]. cbv zeta beta delta [secret_layer].
    do 4 (apply typed_secret; [|apply memb_true; vm_compute; reflexivity]). exact H1.
  - by apply typed_variables in H1.
Qed.

End layers.

(** ** Validation *)

Section validation.
Context (urlsplit : string -> option url).

Record ConfigDiagnostic : Type := { level : string; message : string; diagnostic_path : string }.
Definition err (p m : string) : ConfigDiagnostic := {| level := "error"; message := m; diagnostic_path := p |}.
Definition when (b : bool) (d : ConfigDiagnostic) : list ConfigDiagnostic := if b then [d] else [].

(** [(config.x or "").strip().lower()] *)
Definition mode (c : attributes) (k : string) : string := py_lower (py_strip (opt_or (text c k) "")).

Definition has_text (c : attributes) (k : string) : bool := opt_truthy (text c k).

Definition nonpositive (f : pyfloat) : bool :=
  match f with Finite q => (q <=? 0)%clock | Infinite negative => negative | NaN => false end.

(** [urlsplit] raising leaves the function. *)
Definition split_url (s : string) : result config_error url :=
  match urlsplit s with Some u => Ok u | None => Err (ValueError s) end.

Definition endpoint_diagnostics (c : attributes) (k : string) : result config_error (list ConfigDiagnostic) :=
  match text c k with
  | None => Ok []
  | Some s =>
      if str_truthy s then
        u ← split_url s;
        Ok (when (negb (plain_endpoint u))
              (err k (k ++ " must be an absolute http(s) URL without credentials, query, or fragment")))
      else Ok []
  end.

Definition plain_origin (u : url) : bool :=
  is_http (scheme u) && str_truthy (netloc u) && negb (str_truthy (path u)) && negb (str_truthy (url_query u)) &&
  negb (str_truthy (fragment u)).

(** The loop over the origins, up to the first that is not one. *)
Fixpoint origin_diagnostics (l : list string) : result config_error (list ConfigDiagnostic) :=
  match l with
  | [] => Ok []
  | o :: l =>
      u ← split_url (py_strip o);
      if String.eqb o "*" then origin_diagnostics l
      else if plain_origin u then origin_diagnostics l
      else Ok [err "cors_origins" "CORS origins must be absolute http(s) origins without a path"]
  end.

Definition cors_diagnostics (l : list string) : result config_error (list ConfigDiagnostic) :=
  if existsb (fun o => negb (str_truthy (py_strip o))) l
  then Ok [err "cors_origins" "MICRO_AGENT_CORS_ORIGINS must not contain empty origins"]
  else if memb "*" l && Nat.ltb 1 (length l)
  then Ok [err "cors_origins" "MICRO_AGENT_CORS_ORIGINS cannot mix '*' with explicit origins"]
  else origin_diagnostics l.

Definition log_levels : list string := ["DEBUG"; "INFO"; "WARNING"; "ERROR"; "CRITICAL"].

Definition model_diagnostics (c : attributes) : list ConfigDiagnostic :=
  when (negb (has_text c "model_ref") && negb (has_text c "model_endpoint"))
    {| level := "warning"; message := "No model reference or endpoint configured."; diagnostic_path := "model" |}.

Definition log_diagnostics (c : attributes) : list ConfigDiagnostic :=
  when (negb (from_option (fun l => memb l log_levels) false (text c "log_level")))
    (err "log_level" ("Invalid log level: " ++ opt_or (text c "log_level") "None")).

Definition audit_diagnostics (c : attributes) : list ConfigDiagnostic :=
  let m := mode c "audit_sink" in
  (when (negb (memb m [""; "none"; "stdout"; "file"; "sqlite"]))
     (err "audit_sink" ("Invalid audit sink: " ++ opt_or (text c "audit_sink") "None" ++ ". Supported: none, stdout, file, sqlite")) ++
   when (String.eqb m "file" && negb (has_text c "audit_file"))
     (err "audit_file" "MICRO_AGENT_AUDIT_SINK=file requires MICRO_AGENT_AUDIT_FILE") ++
   when (String.eqb m "sqlite" && negb (has_text c "audit_database" || has_text c "audit_file"))
     (err "audit_database" "MICRO_AGENT_AUDIT_SINK=sqlite requires MICRO_AGENT_AUDIT_DATABASE"))%list.

Definition limit_diagnostics (c : attributes) : list ConfigDiagnostic :=
  ((fun k => err k (k ++ " must be greater than zero")) <$>
     filterb (fun k => from_option (fun z => (z <? 1)%Z) false (integer c k)) variable_integers).

Definition retention_diagnostics (c : attributes) : list ConfigDiagnostic :=
  when (match getattr c "audit_retention_seconds" with Float f => nonpositive f | _ => false end)
    (err "audit_retention_seconds" "audit_retention_seconds must be greater than zero").

Definition auth_diagnostics (c : attributes) : list ConfigDiagnostic :=
  let m := mode c "auth" in
  (when (negb (memb m [""; "none"; "oidc"]))
     (err "auth" ("Invalid auth mode: " ++ opt_or (text c "auth") "None" ++ ". Supported: none, oidc")) ++
   when (String.eqb m "oidc" && negb (has_text c "auth_issuer"))
     (err "auth_issuer" "MICRO_AGENT_AUTH=oidc requires MICRO_AGENT_AUTH_ISSUER") ++
   when (String.eqb m "oidc" && negb (has_text c "auth_audience"))
     (err "auth_audience" "MICRO_AGENT_AUTH=oidc requires MICRO_AGENT_AUTH_AUDIENCE"))%list.

Definition validate_config (c : attributes) : result config_error (list ConfigDiagnostic) :=
  policy ← endpoint_diagnostics c "policy_store_endpoint";
  catalog ← endpoint_diagnostics c "model_catalog_endpoint";
  exchange ← endpoint_diagnostics c "token_exchange_endpoint";
  cors ← cors_diagnostics (texts c "cors_origins");
  Ok (model_diagnostics c ++ log_diagnostics c ++ audit_diagnostics c ++ limit_diagnostics c ++ retention_diagnostics c ++
      policy ++ catalog ++ exchange ++ cors ++ auth_diagnostics c)%list.

(** The errors among the diagnostics. *)
Definition errors (ds : list ConfigDiagnostic) : list ConfigDiagnostic := filterb (fun d => String.eqb (level d) "error") ds.
(** ** What validation establishes *)

Definition plain_endpoint_at (c : attributes) (k : string) : Prop :=
  forall s, text c k = Some s -> str_truthy s = true -> exists u, urlsplit s = Some u /\ plain_endpoint u = true.

Definition origins_ok (l : list string) : Prop :=
  (forall o, o ∈ l -> str_truthy (py_strip o) = true) /\ ("*" ∈ l -> length l <= 1) /\
  forall o, o ∈ l -> o <> "*" -> exists u, urlsplit (py_strip o) = Some u /\ plain_origin u = true.

Record config_ok (c : attributes) : Prop := {
  ok_log : exists l, text c "log_level" = Some l /\ l ∈ log_levels;
  ok_audit : mode c "audit_sink" ∈ [""; "none"; "stdout"; "file"; "sqlite"];
  ok_audit_file : mode c "audit_sink" = "file" -> has_text c "audit_file" = true;
  ok_audit_database : mode c "audit_sink" = "sqlite" -> has_text c "audit_database" || has_text c "audit_file" = true;
  ok_limits : forall k z, k ∈ variable_integers -> integer c k = Some z -> (1 <= z)%Z;
  ok_retention : forall f, getattr c "audit_retention_seconds" = Float f -> nonpositive f = false;
  ok_endpoints : forall k, k ∈ ["policy_store_endpoint"; "model_catalog_endpoint"; "token_exchange_endpoint"] -> plain_endpoint_at c k;
  ok_origins : origins_ok (texts c "cors_origins");
  ok_auth : mode c "auth" ∈ [""; "none"; "oidc"];
  ok_oidc : mode c "auth" = "oidc" -> has_text c "auth_issuer" = true /\ has_text c "auth_audience" = true
}.

Lemma errors_app ds es : errors (ds ++ es) = (errors ds ++ errors es)%list.
Proof. unfold errors, filterb. apply List.filter_app. Qed.

Lemma errors_when b p m : errors (when b (err p m)) = [] <-> b = false.
Proof. by destruct b. Qed.

Lemma endpoint_exact c k ds : endpoint_diagnostics c k = Ok ds -> (errors ds = [] <-> plain_endpoint_at c k).
Proof.
  unfold endpoint_diagnostics, plain_endpoint_at, split_url. destruct (text c k) as [s|]; [|intros [= <-]; split; done].
  destruct (str_truthy s) eqn:Es; [|intros [= <-]; split; [intros _ s' [= <-]; congruence | done]].
  destruct (urlsplit s) as [u|] eqn:Eu; [|done]. cbn [mbind result_bind]. intros [= <-]. rewrite errors_when, negb_false_iff.
  split; [intros Hu s' [= <-] _; by exists u|]. intros H. destruct (H s eq_refl Es) as (u' & Hu' & Hp). congruence.
Qed.

Lemma origins_exact l ds :
  origin_diagnostics l = Ok ds ->
  (errors ds = [] <-> forall o, o ∈ l -> o <> "*" -> exists u, urlsplit (py_strip o) = Some u /\ plain_origin u = true).
Proof.
  revert ds. induction l as [|o l IH]; cbn [origin_diagnostics]; intros ds H.
  { injection H as <-. split; [intros _ o Ho; by apply not_elem_of_nil in Ho | done]. }
  apply result_bind_ok in H as (u & Hu & H). unfold split_url in Hu. destruct (urlsplit _) as [u'|] eqn:Eu; [|done]. injection Hu as ->.
  destruct (String.eqb_spec o "*") as [->|Hne].
  - rewrite (IH ds H). split; [intros Ho o' [->|Hin]%elem_of_cons; [done | by apply Ho] | intros Ho o' Hin; apply Ho; by right].
  - destruct (plain_origin u) eqn:Ep.
    + rewrite (IH ds H). split; [|intros Ho o' Hin; apply Ho; by right].
      intros Ho o' [->|Hin]%elem_of_cons; [intros _; by exists u | by apply Ho].
    + injection H as <-. split; [done|]. intros Ho. destruct (Ho o ltac:(left) Hne) as (u2 & Hu2 & ?). congruence.
Qed.

Lemma cors_exact l ds : cors_diagnostics l = Ok ds -> (errors ds = [] <-> origins_ok l).
Proof.
  unfold cors_diagnostics, origins_ok. destruct (existsb _ l) eqn:Ee.
  { intros [= <-]. split; [done|]. intros (H & _). apply existsb_elem in Ee as (o & Ho & Hb). by rewrite H in Hb. }
  assert (Hne : forall o, o ∈ l -> str_truthy (py_strip o) = true).
  { intros o Ho. destruct (str_truthy (py_strip o)) eqn:Es; [done|].
    rewrite (proj2 (existsb_elem _ l)) in Ee; [done|]. exists o. split; [done | by rewrite Es]. }
  destruct (memb "*" l && Nat.ltb 1 (length l)) eqn:Em.
  { intros [= <-]. apply andb_prop in Em as [Hs%memb_true Hl%Nat.ltb_lt]. split; [done|]. intros (_ & H & _). specialize (H Hs). lia. }
  intros H. rewrite (origins_exact l ds H). split; [|by intros (_ & _ & ?)]. intros Ho. split_and!; [done| |done].
  intros Hs%memb_true. rewrite Hs in Em. cbn [andb] in Em. apply Nat.ltb_ge in Em. lia.
Qed.

Lemma limits_exact c :
  errors (limit_diagnostics c) = [] <-> forall k z, k ∈ variable_integers -> integer c k = Some z -> (1 <= z)%Z.
Proof.
  unfold limit_diagnostics. split.
  - intros H k z Hk Hz. destruct (Z.ltb z 1) eqn:El; [|by apply Z.ltb_ge]. exfalso.
    assert (Hin : err k (k ++ " must be greater than zero") ∈
                  errors ((fun k => err k (k ++ " must be greater than zero")) <$>
                          filterb (fun k => from_option (fun z => (z <? 1)%Z) false (integer c k)) variable_integers)).
    { apply elem_of_filterb. split; [|done]. apply list_elem_of_fmap. exists k. split; [done|]. apply elem_of_filterb. by rewrite Hz. }
    rewrite H in Hin. by apply not_elem_of_nil in Hin.
  - intros H. rewrite (filterb_none _ variable_integers); [done|]. intros k Hk. destruct (integer c k) as [z|] eqn:Hz; [|done].
    cbn. apply Z.ltb_ge. by apply (H k).
Qed.

Lemma retention_exact c :
  errors (retention_diagnostics c) = [] <-> forall f, getattr c "audit_retention_seconds" = Float f -> nonpositive f = false.
Proof.
  unfold retention_diagnostics. rewrite errors_when. destruct (getattr c _) as [| | |f| | |]; split; try done; [by intros Hf f' [= <-] | auto].
Qed.

Lemma log_exact c : errors (log_diagnostics c) = [] <-> exists l, text c "log_level" = Some l /\ l ∈ log_levels.
Proof.
  unfold log_diagnostics. rewrite errors_when, negb_false_iff. destruct (text c "log_level") as [l|]; cbn.
  - rewrite memb_true. split; [by exists l | by intros (l' & [= <-] & ?)].
  - split; [done | by intros (l' & ? & _)].
Qed.

Lemma mode_is c k m : String.eqb (mode c k) m = true <-> mode c k = m.
Proof. apply String.eqb_eq. Qed.

Lemma guarded_false (a b : bool) (P : Prop) : (a = true <-> P) -> (a && negb b = false <-> (P -> b = true)).
Proof. intros Ha. destruct a, b; cbn; split; intros H; try done; try (intros HP; apply Ha in HP; done). by rewrite (H (proj1 Ha eq_refl)). Qed.

Lemma audit_exact c :
  errors (audit_diagnostics c) = [] <->
  mode c "audit_sink" ∈ [""; "none"; "stdout"; "file"; "sqlite"] /\ (mode c "audit_sink" = "file" -> has_text c "audit_file" = true) /\
  (mode c "audit_sink" = "sqlite" -> has_text c "audit_database" || has_text c "audit_file" = true).
Proof.
  unfold audit_diagnostics. rewrite !errors_app, !app_nil, !errors_when, negb_false_iff, memb_true.
  by rewrite !(guarded_false _ _ _ (mode_is _ _ _)).
Qed.

Lemma auth_exact c :
  errors (auth_diagnostics c) = [] <->
  mode c "auth" ∈ [""; "none"; "oidc"] /\
  (mode c "auth" = "oidc" -> has_text c "auth_issuer" = true /\ has_text c "auth_audience" = true).
Proof.
  unfold auth_diagnostics. rewrite !errors_app, !app_nil, !errors_when, negb_false_iff, memb_true.
  rewrite !(guarded_false _ _ _ (mode_is _ _ _)). tauto.
Qed.

Lemma model_warns c : errors (model_diagnostics c) = [].
Proof. unfold model_diagnostics. by destruct (_ && _). Qed.

(** Validation is exact: a configuration whose endpoints can be split gets no
    error diagnostic exactly when it satisfies the documented constraints on log
    level, audit sink, limits, retention, endpoints, origins and authentication. *)
Theorem validation_exact c ds : validate_config c = Ok ds -> (errors ds = [] <-> config_ok c).
Proof.
  unfold validate_config. intros H. apply result_bind_ok in H as (p & Hp & H). apply result_bind_ok in H as (m & Hm & H).
  apply result_bind_ok in H as (x & Hx & H). apply result_bind_ok in H as (o & Ho & H). injection H as <-.
  apply endpoint_exact in Hp, Hm, Hx. apply cors_exact in Ho.
  rewrite !errors_app, !app_nil, model_warns, log_exact, audit_exact, limits_exact, retention_exact, Hp, Hm, Hx, Ho, auth_exact.
  split.
  - intros (_ & Hl & (Ha & Hf & Hd) & Hi & Hr & H1 & H2 & H3 & Hc & Hau & Hoi). constructor; try done.
    intros k Hk. apply elem_of_cons in Hk as [->|Hk]; [done|]. apply elem_of_cons in Hk as [->|Hk]; [done|]. by apply list_elem_of_singleton in Hk as ->.
  - intros [Hl Ha Hf Hd Hi Hr He Hc Hau Hoi]. split_and!; try done; try (apply He; set_solver).
Qed.

End validation.

(** ** On concrete input *)

Definition demo_urlsplit (s : string) : option url :=
  match py_partition ":"%char s with
  | (sch, Some rest) =>
      Some {| scheme := sch; netloc := String.substring 2 (String.length rest) rest; path := ""; url_query := ""; fragment := "";
              username := None; password := None; hostname := None |}
  | (_, None) => None
  end.
Definition demo_float (s : string) : option pyfloat := if String.eqb s "nan" then Some NaN else None.
Definition demo_environ (k : string) : option string :=
  dget k [("MICRO_AGENT_MODEL_ID", "big"); ("MICRO_AGENT_RATE_LIMIT_BURST", " 1_0 "); ("MICRO_AGENT_MODEL_API_KEY", "k");
          ("MICRO_AGENT_CORS_ORIGINS", "https://a, https://b")].
Definition demo_overrides : list (string * attribute) :=
  [("model_id", Text "small"); ("model_endpoint", Text "http://m"); ("model_provider", Unset)].
Definition demo_environment : EnvironmentConfig :=
  {| settings := [("log_level", Text "DEBUG"); ("model_endpoint", Text "")]; mcp_endpoints := [("s", "http://s")]; cors_origins := [];
     extra := []; model_api_key_ref := None; token_exchange_token_ref := None; model_catalog_token_ref := None;
     policy_store_token_ref := None |}.
Definition demo_config : attributes :=
  match resolve_config demo_float demo_environ demo_overrides (Some demo_environment) with Ok c => c | Err _ => [] end.

Example demo_resolved :
  text demo_config "model_id" = Some "big" /\ text demo_config "model_endpoint" = Some "http://m" /\
  text demo_config "log_level" = Some "DEBUG" /\ integer demo_config "rate_limit_burst" = Some 10%Z /\
  texts demo_config "cors_origins" = ["https://a"; "https://b"] /\ endpoints demo_config "mcp_endpoints" = [("s", "http://s")].
Proof. vm_compute. by split_and!. Qed.

Lemma config_precedence_witness : getattr demo_config "model_id" = Text "big".
Proof.
  assert (Hnd : NoDup (dkeys demo_overrides)) by (refine (bool_decide_eq_true_1 _ _); vm_compute; reflexivity).
  assert (Hc : resolve_config demo_float demo_environ demo_overrides (Some demo_environment) = Ok demo_config) by (vm_compute; reflexivity).
  assert (Hk : "model_id" ∈ variable_texts) by (apply memb_true; reflexivity).
  exact (config_precedence demo_float demo_environ demo_overrides (Some demo_environment) demo_config "model_id" Hnd Hc Hk).
Defined.

Lemma resolved_config_typed_witness : typed demo_config.
Proof.
  apply (resolved_config_typed demo_float demo_environ demo_overrides (Some demo_environment)).
  - intros k a Hin Ha. apply (fits_kind k KText); repeat (apply elem_of_cons in Hin as [[= -> ->]|Hin]); try done; by apply not_elem_of_nil in Hin.
  - intros k. unfold getattr. destruct (dget k (settings demo_environment)) as [a|] eqn:E; [intros _|done].
    apply dget_elem in E. apply (fits_kind k KText); repeat (apply elem_of_cons in E as [[= -> ->]|E]); try done; by apply not_elem_of_nil in E.
  - vm_compute. reflexivity.
Defined.

Lemma validation_exact_witness : config_ok demo_urlsplit demo_config.
Proof. apply (proj1 (validation_exact demo_urlsplit demo_config [] ltac:(vm_compute; reflexivity))). reflexivity. Defined.

(** The binding of a secret that is not there removes the key that a variable gives. *)
Example missing_secret_unsets_key :
  forall c, resolve_config demo_float demo_environ []
    (Some {| settings := []; mcp_endpoints := []; cors_origins := []; extra := [];
             model_api_key_ref := Some {| secret_name := "MISSING"; secret_source := Some "env" |}; token_exchange_token_ref := None;
             model_catalog_token_ref := None; policy_store_token_ref := None |}) = Ok c ->
  read_env demo_environ "model_api_key" = Some "k" /\ getattr c "model_api_key" = Unset.
Proof. intros c Hc. vm_compute in Hc. injection Hc as <-. split; reflexivity. Qed.

End Config.
