(* ===== verification/Credentials.v ===== *)
(** * Credentials: what a reference resolves to

    [security/credentials.py].  A provider turns a reference into a secret, none, or
    an error; [CredentialProvider] is that interface.  The answers of Vault and AWS
    Secrets Manager, [urlsplit], the loopback test of addresses and the reading of a
    JSON text are parameters. *)

From Stdlib Require Import Ascii.
From S2P Require Import Prelude Json Urls.
Import Urls.
Local Open Scope string_scope.

Module Credentials.

Inductive credential_error : Type :=
  | VaultCredentialError (msg : string)
  | AwsSecretsManagerCredentialError (msg : string)
  | ValueError.                                   (** [urlsplit] raises *)

(** [CredentialProvider.resolve] *)
Class CredentialProvider (P : Type) : Type := {
  resolve : P -> string -> result credential_error (option string)
}.

Record EnvironmentCredentialProvider : Type := { environ : string -> option string }.
#[export] Instance environment_credentials : CredentialProvider EnvironmentCredentialProvider := {|
  resolve p r := Ok (environ p r)
|}.

Record StaticCredentialProvider : Type := { values : list (string * string) }.
#[export] Instance static_credentials : CredentialProvider StaticCredentialProvider := {|
  resolve p r := Ok (dget r (values p))
|}.

(** [text.lstrip("/")] *)
Fixpoint lstrip_slash (s : string) : string :=
  match s with String c s' => if Ascii.eqb c "/" then lstrip_slash s' else s | EmptyString => s end.

(** A path segment that stays where it is. *)
Definition segment_ok (s : string) : bool := str_truthy s && negb (memb s ["."; ".."]).

(** ** HashiCorp Vault *)

Section vault.
Context (urlsplit : string -> option url) (is_loopback : string -> bool).

(** [_validate_endpoint], as the message of the error. *)
Definition endpoint_error (endpoint : string) : option string :=
  match urlsplit endpoint with
  | None => Some "urlsplit"
  | Some u =>
      if negb (is_http (scheme u) && str_truthy (netloc u)) then Some "Vault endpoint must be an absolute http(s) URL"
      else if opt_truthy (username u) || opt_truthy (password u) || str_truthy (url_query u) || str_truthy (fragment u)
      then Some "Vault endpoint must not contain credentials, query, or fragment"
      else if negb (memb (path u) [""; "/"]) then Some "Vault endpoint must not contain a path"
      else
        let host := opt_or (hostname u) "" in
        let loopback := String.eqb (py_lower host) "localhost" || is_loopback host in
        if String.eqb (scheme u) "http" && negb loopback then Some "Vault endpoint must use HTTPS outside loopback" else None
  end.

(** A reference: mount, path below it, field. *)
Record vault_reference : Type := { mount : string; secret_path : string; vault_field : string }.

(** [_parse_reference] *)
Definition parse_vault_reference (reference : string) : result credential_error (option vault_reference) :=
  if negb (String.prefix "vault://" reference) then Ok None
  else
    match urlsplit reference with
    | None => Err ValueError
    | Some u =>
        let p := lstrip_slash (path u) in
        let segments := if str_truthy p then py_split "/"%char p else [] in
        if negb (String.eqb (scheme u) "vault") || negb (str_truthy (netloc u)) || negb (str_truthy p) || negb (str_truthy (fragment u))
           || opt_truthy (username u) || opt_truthy (password u) || str_truthy (url_query u)
           || existsb (fun s => negb (segment_ok s)) segments || negb (lacks "/" (fragment u))
        then Err (VaultCredentialError "invalid Vault credential reference")
        else Ok (Some {| mount := netloc u; secret_path := p; vault_field := fragment u |})
    end.

Definition request_path (r : vault_reference) : string :=
  "/v1/" ++ quote "" (mount r) ++ "/data/" ++ quote "/" (secret_path r).

(** What Vault answers to a path: nothing, or a status and the body if it is JSON. *)
Record VaultCredentialProvider : Type := { vault_get : string -> option (Z * option json) }.

Definition vault_value (field : string) (reply : option (Z * option json)) : result credential_error (option string) :=
  match reply with
  | None => Err (VaultCredentialError "Vault credential lookup failed")
  | Some (status, body) =>
      if Z.eqb status 404 then Ok None
      else if negb (Z.eqb status 200) then Err (VaultCredentialError "Vault credential lookup returned HTTP error")
      else
        match body with
        | None => Err (VaultCredentialError "Vault credential response was not valid JSON")
        | Some body =>
            match body with
            | JObj d =>
                match dget "data" d with
                | Some (JObj data) =>
                    match dget "data" data with
                    | Some (JObj values) =>
                        match dget field values with
                        | None | Some JNull => Ok None
                        | Some (JStr s) => Ok (Some s)
                        | Some _ => Err (VaultCredentialError "Vault credential field must contain a string")
                        end
                    | _ => Err (VaultCredentialError "Vault credential response did not match the KV v2 contract")
                    end
                | _ => Err (VaultCredentialError "Vault credential response did not match the KV v2 contract")
                end
            | _ => Err (VaultCredentialError "Vault credential response did not match the KV v2 contract")
            end
        end
  end.

Definition vault_resolve (p : VaultCredentialProvider) (reference : string) : result credential_error (option string) :=
  r ← parse_vault_reference reference;
  match r with
  | None => Ok None
  | Some r => vault_value (vault_field r) (vault_get p (request_path r))
  end.

#[export] Instance vault_credentials : CredentialProvider VaultCredentialProvider := {| resolve := vault_resolve |}.
End vault.

(** ** AWS Secrets Manager *)

Section aws.
Context (urlsplit : string -> option url) (loads : string -> option json).

(** [_parse_reference] *)
Definition parse_aws_reference (reference : string) : result credential_error (option (string * option string)) :=
  match urlsplit reference with
  | None => Err ValueError
  | Some u =>
      if negb (String.eqb (scheme u) "aws-secretsmanager") then Ok None
      else if opt_truthy (username u) || opt_truthy (password u) || str_truthy (url_query u)
      then Err (AwsSecretsManagerCredentialError "invalid AWS Secrets Manager credential reference")
      else
        let secret_id := if str_truthy (netloc u) then netloc u ++ path u else lstrip_slash (path u) in
        let field := if str_truthy (fragment u) then Some (fragment u) else None in
        if negb (str_truthy secret_id) || existsb (fun s => negb (segment_ok s)) (py_split "/"%char secret_id)
           || from_option (fun f => negb (lacks "/" f)) false field
        then Err (AwsSecretsManagerCredentialError "invalid AWS Secrets Manager credential reference")
        else Ok (Some (secret_id, field))
  end.

(** The answer of the SDK: an exception with its error code, something that is not
    a dictionary, or the two forms of a secret (the binary one as the text it
    decodes to, if it does). *)
Inductive aws_answer : Type :=
  | AwsRaises (code : option string)
  | AwsOther
  | AwsSecret (secret_string : option json) (secret_binary : option (option string)).

Record AwsSecretsManagerCredentialProvider : Type := { get_secret_value : string -> aws_answer }.

(** The text of the secret. *)
Definition secret_text (a : aws_answer) : result credential_error (option string) :=
  match a with
  | AwsRaises code =>
      if bool_decide (code = Some "ResourceNotFoundException") then Ok None
      else Err (AwsSecretsManagerCredentialError "AWS Secrets Manager credential lookup failed")
  | AwsOther => Err (AwsSecretsManagerCredentialError "AWS Secrets Manager response did not match its contract")
  | AwsSecret (None | Some JNull) None =>
      Err (AwsSecretsManagerCredentialError "AWS Secrets Manager response did not contain a string secret")
  | AwsSecret (None | Some JNull) (Some None) =>
      Err (AwsSecretsManagerCredentialError "AWS Secrets Manager binary secret was not UTF-8")
  | AwsSecret (None | Some JNull) (Some (Some s)) => Ok (Some s)
  | AwsSecret (Some (JStr s)) _ => Ok (Some s)
  | AwsSecret (Some _) _ => Err (AwsSecretsManagerCredentialError "AWS Secrets Manager response did not contain a string secret")
  end.

Definition field_of_secret (field : string) (s : string) : result credential_error (option string) :=
  match loads s with
  | None => Err (AwsSecretsManagerCredentialError "AWS Secrets Manager secret is not valid JSON")
  | Some (JObj d) =>
      match dget field d with
      | None | Some JNull => Ok None
      | Some (JStr v) => Ok (Some v)
      | Some _ => Err (AwsSecretsManagerCredentialError "AWS Secrets Manager JSON field must contain a string")
      end
  | Some _ => Err (AwsSecretsManagerCredentialError "AWS Secrets Manager JSON secret must be an object")
  end.

Definition aws_resolve (p : AwsSecretsManagerCredentialProvider) (reference : string) : result credential_error (option string) :=
  r ← parse_aws_reference reference;
  match r with
  | None => Ok None
  | Some (secret_id, field) =>
      s ← secret_text (get_secret_value p secret_id);
      match s, field with
      | None, _ => Ok None
      | Some s, None => Ok (Some s)
      | Some s, Some f => field_of_secret f s
      end
  end.

#[export] Instance aws_credentials : CredentialProvider AwsSecretsManagerCredentialProvider := {| resolve := aws_resolve |}.
End aws.

(** ** References are read where they point *)

Section vault_paths.
Context (urlsplit : string -> option url).

Lemma parsed_vault reference r :
  parse_vault_reference urlsplit reference = Ok (Some r) ->
  str_truthy (mount r) = true /\ Forall (fun s => segment_ok s = true) (py_split "/"%char (secret_path r)) /\
  str_truthy (vault_field r) = true /\ lacks "/" (vault_field r) = true.
Proof.
  unfold parse_vault_reference. destruct (negb (String.prefix _ _)); [done|]. destruct (urlsplit reference) as [u|]; [|done].
  destruct (_ || _) eqn:E; [done|]. intros [= <-]. cbn.
  rewrite !orb_false_iff, !negb_false_iff in E. destruct E as [[[[[[[[_ Hm] Hp] Hf] _] _] _] Hs] Hl].
  split_and!; [done| |done|done]. rewrite Hp in Hs. apply Forall_forall. intros s Hin.
  destruct (segment_ok s) eqn:Es; [done|]. rewrite (proj2 (existsb_elem _ _)) in Hs; [done|]. exists s. by rewrite Es.
Qed.

Lemma request_path_inj r1 r2 : request_path r1 = request_path r2 -> mount r1 = mount r2 /\ secret_path r1 = secret_path r2.
Proof.
  unfold request_path. intros H. apply append_inj_l in H.
  change ("/data/" ++ ?x) with (String "/" ("data/" ++ x)) in H.
  assert (Hl : forall s, lacks "/" (quote "" s) = true) by (intros s; apply quote_lacks; vm_compute; reflexivity).
  apply lacks_split in H as [Hm Hp]; [|apply Hl..]. apply append_inj_l in Hp.
  by apply quote_all_inj in Hm; apply quote_path_inj in Hp.
Qed.

(** A Vault reference is looked up in its own place only.  Whatever text resolves,
    the value is the string that Vault has, at this moment, under the named field at the
    path built from mount and secret; no segment of that secret is empty or climbs,
    and references that differ in mount or secret never share a path. *)
Theorem vault_lookup_in_place p reference v :
  vault_resolve urlsplit p reference = Ok (Some v) ->
  exists r body data fields,
    parse_vault_reference urlsplit reference = Ok (Some r) /\
    vault_get p (request_path r) = Some (200%Z, Some (JObj body)) /\ dget "data" body = Some (JObj data) /\
    dget "data" data = Some (JObj fields) /\ dget (vault_field r) fields = Some (JStr v) /\
    Forall (fun s => segment_ok s = true) (py_split "/"%char (secret_path r)) /\
    forall other r', parse_vault_reference urlsplit other = Ok (Some r') -> request_path r' = request_path r ->
                     mount r' = mount r /\ secret_path r' = secret_path r.
Proof.
  unfold vault_resolve. intros H. apply result_bind_ok in H as (r & Hr & H). destruct r as [r|]; [|done].
  destruct (parsed_vault reference r Hr) as (_ & Hseg & _ & _).
  destruct (vault_get p (request_path r)) as [[status body]|] eqn:Eg; [|done]. cbn [vault_value] in H.
  destruct (Z.eqb status 404); [done|]. destruct (Z.eqb_spec status 200) as [->|]; [|done]. cbn [negb] in H.
  destruct body as [[| | | | | |body]|]; try done. destruct (dget "data" body) as [[| | | | | |data]|] eqn:Ed; try done.
  destruct (dget "data" data) as [[| | | | | |fields]|] eqn:Ef; try done.
  destruct (dget (vault_field r) fields) as [[]|] eqn:Ev; try done. injection H as ->.
  exists r, body, data, fields. split_and!; try done. intros other r' _ Hp. by apply request_path_inj.
Qed.
End vault_paths.

(** ** On concrete input *)

Definition demo_split (s : string) : option url :=
  if String.eqb s "vault://kv/app/db#password"
  then Some {| scheme := "vault"; netloc := "kv"; path := "/app/db"; url_query := ""; fragment := "password";
               username := None; password := None; hostname := Some "kv" |}
  else if String.eqb s "vault://../sys/seal#key"
  then Some {| scheme := "vault"; netloc := ".."; path := "/sys/seal"; url_query := ""; fragment := "key";
               username := None; password := None; hostname := Some ".." |}
  else None.
Definition demo_vault : VaultCredentialProvider :=
  {| vault_get := fun p => if String.eqb p "/v1/kv/data/app/db"
                           then Some (200%Z, Some (JObj [("data", JObj [("data", JObj [("password", JStr "s3cret")])])])) else None |}.

Lemma vault_lookup_in_place_witness :
  exists r, parse_vault_reference demo_split "vault://kv/app/db#password" = Ok (Some r) /\ mount r = "kv".
Proof.
  destruct (vault_lookup_in_place demo_split demo_vault "vault://kv/app/db#password" "s3cret" ltac:(vm_compute; reflexivity))
    as (r & body & data & fields & Hr & _). exists r. split; [exact Hr|]. vm_compute in Hr. by injection Hr as <-.
Defined.

(** The mount is not held to what its segments must satisfy. *)
Example climbing_mount_is_accepted :
  option_map request_path (match parse_vault_reference demo_split "vault://../sys/seal#key" with Ok r => r | Err _ => None end) =
  Some "/v1/../data/sys/seal".
Proof. vm_compute. reflexivity. Qed.

End Credentials.
