(* ===== verification/Catalog.v ===== *)
(** * The model catalog

    [models/catalog.py]: an alias of a model resolves to the provider's data.  The
    interface is the class [ModelCatalog]; what the HTTP catalog parses is checked
    against the versioned contract.  The service's answer and [urlsplit] are
    parameters. *)

From Stdlib Require Import Ascii.
From S2P Require Import Prelude Json Urls.
Import Urls.
Local Open Scope string_scope.

Module Catalog.

Definition MODEL_CATALOG_API_VERSION : string := "microagents.io/model-catalog/v1".

(** [ModelCatalogEntry] *)
Record ModelCatalogEntry : Type := {
  alias : string;
  provider : string;
  model_id : string;
  endpoint : option string;
  credential_ref : option string
}.

(** The exceptions of the module; [AttributeError] is raised inside [urlsplit]. *)
Inductive catalog_error : Type :=
  | CatalogError (msg : string)
  | AttributeError.

(** What an attempt to build an entry raises. *)
Inductive entry_error : Type := Invalid | Attribute.

Section catalog.
Context (urlsplit : string -> option url).

(** [_validate_endpoint] of a text *)
Definition endpoint_ok (s : string) : bool :=
  match urlsplit s with
  | None => false
  | Some u => plain_endpoint u &&
              (negb (String.eqb (scheme u) "http") || memb (opt_or (hostname u) "") ["localhost"; "127.0.0.1"; "::1"])
  end.

(** A name: a string that is not blank. *)
Definition as_name (j : json) : option string :=
  match j with JStr s => if py_blank s then None else Some s | _ => None end.

(** [_validate_endpoint] of a value: [urlsplit] decodes what is not a string, unless
    it is false; its cache refuses what cannot be hashed. *)
Definition checked_endpoint (j : json) : result entry_error (option string) :=
  match j with
  | JNull => Ok None
  | JStr s => if endpoint_ok s then Ok (Some s) else Err Invalid
  | JList _ | JObj _ => Err Invalid
  | j => if py_truthy j then Err Attribute else Err Invalid
  end.

Definition checked_credential (j : json) : result entry_error (option string) :=
  match j with JNull => Ok None | j => match as_name j with Some s => Ok (Some s) | None => Err Invalid end end.

Definition named (j : json) : result entry_error string :=
  match as_name j with Some s => Ok s | None => Err Invalid end.

(** [ModelCatalogEntry(...)] with [__post_init__], from values. *)
Definition new_entry (a p m e c : json) : result entry_error ModelCatalogEntry :=
  a ← named a;
  p ← named p;
  m ← named m;
  e ← checked_endpoint e;
  c ← checked_credential c;
  Ok {| alias := a; provider := p; model_id := m; endpoint := e; credential_ref := c |}.

Definition entry_ok (e : ModelCatalogEntry) : bool :=
  negb (py_blank (alias e)) && negb (py_blank (provider e)) && negb (py_blank (model_id e)) &&
  from_option endpoint_ok true (endpoint e) && from_option (fun c => negb (py_blank c)) true (credential_ref e).

(** The keys of a dictionary as a set. *)
Definition exactly (keys : list string) (d : list (string * json)) : bool :=
  forallb (fun k => dmem k d) keys && forallb (fun kv => memb kv.1 keys) d.

(** [_parse_catalog_response] *)
Definition parse_catalog_response (payload : json) : result entry_error ModelCatalogEntry :=
  match payload with
  | JObj d =>
      if negb (exactly ["api_version"; "model"] d) then Err Invalid
      else if negb (from_option (py_eq (JStr MODEL_CATALOG_API_VERSION)) false (dget "api_version" d)) then Err Invalid
      else
        match dget "model" d with
        | Some (JObj m) =>
            if negb (forallb (fun kv => memb kv.1 ["alias"; "provider"; "model_id"; "endpoint"; "credential_ref"]) m) then Err Invalid
            else
              match dget "alias" m, dget "provider" m, dget "model_id" m with
              | Some a, Some p, Some i => new_entry a p i (default JNull (dget "endpoint" m)) (default JNull (dget "credential_ref" m))
              | _, _, _ => Err Invalid
              end
        | _ => Err Invalid
        end
  | _ => Err Invalid
  end.

(** ** The interface and its implementations *)

(** [ModelCatalog]: an alias it knows resolves to a valid entry of that alias. *)
Class ModelCatalog (C : Type) : Type := {
  resolve : C -> string -> result catalog_error (option ModelCatalogEntry);
  catalog_ok : C -> Prop;
  resolve_valid c a e : catalog_ok c -> resolve c a = Ok (Some e) -> alias e = a /\ entry_ok e = true
}.

Record InMemoryModelCatalog : Type := { entries : list (string * ModelCatalogEntry) }.

(** [InMemoryModelCatalog(entries)]; [None] if an alias occurs twice. *)
Fixpoint add_entries (l : list ModelCatalogEntry) (d : list (string * ModelCatalogEntry)) : option (list (string * ModelCatalogEntry)) :=
  match l with
  | [] => Some d
  | e :: l => if dmem (alias e) d then None else add_entries l (dset (alias e) e d)
  end.
Definition new_catalog (l : list ModelCatalogEntry) : option InMemoryModelCatalog :=
  Build_InMemoryModelCatalog <$> add_entries l [].

Definition memory_ok (c : InMemoryModelCatalog) : Prop :=
  forall a e, (a, e) ∈ entries c -> alias e = a /\ entry_ok e = true.

#[export] Program Instance memory_catalog : ModelCatalog InMemoryModelCatalog := {|
  resolve c a := Ok (dget a (entries c));
  catalog_ok := memory_ok
|}.
Next Obligation. intros c a e Hok [= H]. apply Hok. by apply dget_elem. Qed.

Lemma add_entries_ok l d d' :
  forallb entry_ok l = true -> memory_ok {| entries := d |} -> add_entries l d = Some d' -> memory_ok {| entries := d' |}.
Proof.
  revert d. induction l as [|e l IH]; cbn [add_entries forallb]; intros d Hl Hd; [by intros [= <-]|].
  apply andb_prop in Hl as [He Hl]. destruct (dmem _ _); [done|]. apply IH; [done|]. intros a x [[= -> ->]|Hin]%elem_dset; [done | by apply Hd].
Qed.

(** What the service answers to a request: nothing, or a status and its body. *)
Record HttpModelCatalog : Type := { post : json -> option (Z * option json) }.

Definition catalog_request (a : string) : json := JObj [("api_version", JStr MODEL_CATALOG_API_VERSION); ("alias", JStr a)].

(** [HttpModelCatalog.resolve] *)
Definition http_resolve (c : HttpModelCatalog) (a : string) : result catalog_error (option ModelCatalogEntry) :=
  if py_blank a then Err (CatalogError "model alias must not be empty")
  else
    match post c (catalog_request a) with
    | None => Err (CatalogError "model catalog request failed")
    | Some (status, body) =>
        if Z.eqb status 404 then Ok None
        else if (status <? 200)%Z || (300 <=? status)%Z then Err (CatalogError "model catalog returned HTTP error")
        else
          match body with
          | None => Err (CatalogError "model catalog returned invalid JSON")
          | Some payload =>
              match parse_catalog_response payload with
              | Err Invalid => Err (CatalogError "model catalog returned an invalid response")
              | Err Attribute => Err AttributeError
              | Ok e => if String.eqb (alias e) a then Ok (Some e)
                        else Err (CatalogError "model catalog response alias does not match the request")
              end
          end
    end.

Lemma as_name_ok j s : as_name j = Some s -> py_blank s = false.
Proof. destruct j as [| | | |t| |]; try done. unfold as_name. destruct (py_blank t) eqn:E; [done|]. by intros [= <-]. Qed.

Lemma named_ok j s : named j = Ok s -> py_blank s = false.
Proof. unfold named. destruct (as_name j) eqn:E; [|done]. intros [= <-]. by eapply as_name_ok. Qed.

Lemma new_entry_ok a p m e c x : new_entry a p m e c = Ok x -> entry_ok x = true.
Proof.
  unfold new_entry. intros H. apply result_bind_ok in H as (a' & Ha & H). apply result_bind_ok in H as (p' & Hp & H).
  apply result_bind_ok in H as (m' & Hm & H). apply result_bind_ok in H as (e' & He & H). apply result_bind_ok in H as (c' & Hc & H).
  injection H as <-. apply named_ok in Ha, Hp, Hm. unfold entry_ok.
  cbn [alias provider model_id endpoint credential_ref]. rewrite Ha, Hp, Hm. cbn [negb andb].
  assert (He' : from_option endpoint_ok true e' = true).
  { unfold checked_endpoint in He. destruct e as [| | | |s| |]; try (by injection He as <-); try (by destruct (py_truthy _)); try done.
    destruct (endpoint_ok s) eqn:Es; [|done]. by injection He as <-. }
  rewrite He'. unfold checked_credential in Hc. destruct c; try (by injection Hc as <-); try done.
  destruct (as_name (JStr s)) as [x|] eqn:Ex; [|done]. injection Hc as <-. cbn [from_option]. by rewrite (as_name_ok _ _ Ex).
Qed.

Lemma parsed_entry_ok j e : parse_catalog_response j = Ok e -> entry_ok e = true.
Proof.
  unfold parse_catalog_response. destruct j; try done. destruct (negb (exactly _ _)); [done|]. destruct (negb (from_option _ _ _)); [done|].
  destruct (dget "model" d) as [[| | | | | |m]|]; try done.
  destruct (negb (forallb _ _)); [done|]. destruct (dget "alias" m), (dget "provider" m), (dget "model_id" m); try done. apply new_entry_ok.
Qed.

#[export] Program Instance http_catalog : ModelCatalog HttpModelCatalog := {|
  resolve := http_resolve;
  catalog_ok _ := True
|}.
Next Obligation.
  intros c a e _. unfold http_resolve. destruct (py_blank a); [done|]. destruct (post c _) as [[status body]|]; [|done].
  destruct (Z.eqb status 404); [done|]. destruct (_ || _); [done|]. destruct body as [payload|]; [|done].
  destruct (parse_catalog_response payload) as [x|[]] eqn:Ex; try done. destruct (String.eqb_spec (alias x) a) as [<-|]; [|done].
  intros [= <-]. split; [done|]. by eapply parsed_entry_ok.
Qed.

(** ** What is sent is what is read *)

Definition entry_json (e : ModelCatalogEntry) : json :=
  JObj [("api_version", JStr MODEL_CATALOG_API_VERSION);
        ("model", JObj [("alias", JStr (alias e)); ("provider", JStr (provider e)); ("model_id", JStr (model_id e));
                        ("endpoint", from_option JStr JNull (endpoint e)); ("credential_ref", from_option JStr JNull (credential_ref e))])].

Lemma parse_entry_json e : entry_ok e = true -> parse_catalog_response (entry_json e) = Ok e.
Proof.
  destruct e as [a p m en c]. unfold entry_ok. cbn [alias provider model_id endpoint credential_ref].
  rewrite !andb_true_iff, !negb_true_iff. intros [[[[Ha Hp] Hm] He] Hc].
  unfold parse_catalog_response, entry_json. change (exactly _ _) with true. cbn [negb].
  change (from_option (py_eq (JStr MODEL_CATALOG_API_VERSION)) false (dget "api_version" _)) with true. cbn [negb].
  change (dget "model" _) with (Some (JObj [("alias", JStr a); ("provider", JStr p); ("model_id", JStr m);
     ("endpoint", from_option JStr JNull en); ("credential_ref", from_option JStr JNull c)])). cbn iota.
  change (forallb _ _) with true. cbn [negb].
  change (new_entry (JStr a) (JStr p) (JStr m) (from_option JStr JNull en) (from_option JStr JNull c) =
          Ok {| alias := a; provider := p; model_id := m; endpoint := en; credential_ref := c |}).
  unfold new_entry, named, as_name. rewrite Ha, Hp, Hm. cbn [mbind result_bind].
  assert (He' : checked_endpoint (from_option JStr JNull en) = Ok en) by (destruct en; cbn in *; [by rewrite He | done]).
  rewrite He'. cbn [mbind result_bind].
  assert (Hc' : checked_credential (from_option JStr JNull c) = Ok c) by (destruct c; cbn in *; [by rewrite (proj1 (negb_true_iff _) Hc) | done]).
  by rewrite Hc'.
Qed.
End catalog.

(** ** On concrete input *)

Definition no_url : string -> option url := fun _ => None.

(** A number as the endpoint leaves the catalog as an exception its callers do not expect. *)
Example numeric_endpoint_escapes :
  http_resolve no_url
    {| post := fun _ => Some (200%Z, Some (JObj [("api_version", JStr MODEL_CATALOG_API_VERSION);
         ("model", JObj [("alias", JStr "m"); ("provider", JStr "openai"); ("model_id", JStr "x"); ("endpoint", JInt 5)])])) |} "m"
  = Err AttributeError.
Proof. vm_compute. reflexivity. Qed.

End Catalog.
