(* ===== verification/Authentication.v ===== *)
(** * Authentication and delegation

    [security/auth.py]: the verified identity of a request, from a bearer token whose
    signature and claims PyJWT checks; [authenticate] is an authenticator of the
    HTTP interface ([HttpApi]).  [security/delegation.py]: the identity sent to
    a token-exchange service and the token taken from its answer.
    [security/context.py]: the security context of a definition.  PyJWT, [str] of a
    claim that is not a string, [json.dumps], [urlsplit] and the exchange service are
    parameters. *)

From Stdlib Require Import Ascii.
From S2P Require Import Prelude Json Urls Resilience Identity Definitions HttpApi.
Import Urls Resilience Identity.
Local Open Scope string_scope.

Module Authentication.

(** ** Bearer tokens *)

(** [text[n:]] *)
Definition drop_text (n : nat) (s : string) : string := String.substring n (String.length s - n) s.

(** [_extract_bearer_token]: the first authorization header decides. *)
Fixpoint extract_bearer_token (headers : list (string * string)) : result exn string :=
  match headers with
  | [] => Err (raise AuthenticationError "authentication required")
  | (name, value) :: headers =>
      if String.eqb (py_lower name) "authorization" then
        if String.prefix "bearer " (py_lower value) then Ok (py_strip (drop_text 7 value))
        else Err (raise AuthenticationError "authentication required")
      else extract_bearer_token headers
  end.

Definition authorization_header (headers : list (string * string)) : option string :=
  snd <$> List.find (fun h => String.eqb (py_lower h.1) "authorization") headers.

(** How PyJWT ends: claims, one of its errors, any other exception. *)
Inductive decoded : Type :=
  | Claims (claims : list (string * json))
  | PyJWTError
  | OtherError.

Section oidc.
Context (py_str : json -> string).

(** [str(value)] *)
Definition text_of (j : json) : string := py_text py_str j.

Definition claim (k : string) (claims : list (string * json)) : json := default JNull (dget k claims).

(** [a or b] *)
Definition py_or (a b : json) : json := if py_truthy a then a else b.

(** [[str(role) for role in value]]: a text gives its characters, a dictionary its keys. *)
Definition iterate_text (j : json) : result exn (list string) :=
  match j with
  | JList l => Ok (text_of <$> l)
  | JObj d => Ok (dkeys d)
  | JStr s => Ok ((fun c => String c EmptyString) <$> String.list_ascii_of_string s)
  | _ => Err (raise TypeError "object is not iterable")
  end.

(** [_identity_from_claims] *)
Definition identity_from_claims (claims : list (string * json)) : result exn HttpApi.AuthenticatedIdentity :=
  let subject := text_of (default (JStr "") (dget "sub" claims)) in
  let is_service := py_truthy (claim "client_id" claims) &&
                    negb (py_truthy (py_or (claim "preferred_username" claims) (claim "email" claims))) in
  let tenant := py_or (claim "tid" claims) (claim "tenant_id" claims) in
  roles ← iterate_text (py_or (claim "roles" claims) (JList []));
  Ok {| HttpApi.caller := {| caller_id := subject; caller_type := if is_service then "service" else "user"; caller_metadata := [] |};
        HttpApi.user := Some {| user_id := text_of (py_or (claim "preferred_username" claims) (JStr subject));
                             tenant_id := if py_truthy tenant then Some (text_of tenant) else None;
                             Identity.roles := roles; user_metadata := [] |} |}.

Record OidcJwtAuthenticator : Type := {
  issuer : string;
  audience : string;
  (** [jwt.decode] with the key of the token, for an audience and an issuer. *)
  jwt_decode : string -> string -> string -> decoded
}.

(** [authenticate] *)
Definition authenticate (a : OidcJwtAuthenticator) (headers : list (string * string)) : result exn HttpApi.AuthenticatedIdentity :=
  token ← extract_bearer_token headers;
  match jwt_decode a token (audience a) (issuer a) with
  | PyJWTError => Err (raise AuthenticationError "invalid or expired credentials")
  | OtherError => Err (raise AuthenticationError "credentials could not be validated")
  | Claims claims => identity_from_claims claims
  end.

(** [security_scheme] *)
Definition security_scheme (a : OidcJwtAuthenticator) : list (string * json) :=
  [("type", JStr "openIdConnect"); ("open_id_connect_url", JStr (issuer a ++ "/.well-known/openid-configuration"))].

Lemma bearer_of_header headers :
  extract_bearer_token headers =
    match authorization_header headers with
    | Some value => if String.prefix "bearer " (py_lower value) then Ok (py_strip (drop_text 7 value))
                    else Err (raise AuthenticationError "authentication required")
    | None => Err (raise AuthenticationError "authentication required")
    end.
Proof.
  unfold authorization_header. induction headers as [|[n v] hs IH]; [done|]. cbn [extract_bearer_token List.find fst].
  by destruct (String.eqb (py_lower n) "authorization").
Qed.

(** C20: The verified identity comes from the token alone.  An authenticated request carries a
    bearer token that PyJWT accepted for this service's audience and issuer, the
    caller is the subject of its claims, its tenant is a claim, and no other header
    and no request data changes the outcome. *)
Theorem identity_comes_from_token a headers id :
  authenticate a headers = Ok id ->
  (exists value claims,
     authorization_header headers = Some value /\ String.prefix "bearer " (py_lower value) = true /\
     jwt_decode a (py_strip (drop_text 7 value)) (audience a) (issuer a) = Claims claims /\
     identity_from_claims claims = Ok id /\ caller_id (HttpApi.caller id) = text_of (default (JStr "") (dget "sub" claims)) /\
     (forall u t, HttpApi.user id = Some u -> tenant_id u = Some t ->
        exists j, (dget "tid" claims = Some j \/ dget "tenant_id" claims = Some j) /\ py_truthy j = true /\ t = text_of j)) /\
  forall headers', authorization_header headers' = authorization_header headers -> authenticate a headers' = Ok id.
Proof.
  unfold authenticate. rewrite bearer_of_header. intros H. split.
  - destruct (authorization_header headers) as [value|]; [|done]. destruct (String.prefix _ _) eqn:Ep; [|done].
    cbn [mbind result_bind] in H. destruct (jwt_decode a _ _ _) as [claims| |] eqn:Ed; try done. exists value, claims.
    pose proof H as Hid. unfold identity_from_claims in H. apply result_bind_ok in H as (rs & _ & H). injection H as <-.
    split_and!; try done. intros u t [= <-]. cbn [tenant_id]. clear Hid. destruct (py_truthy (py_or (claim "tid" claims) _)) eqn:Et; [|done]. intros [= <-].
    unfold py_or, claim in *. destruct (dget "tid" claims) as [j|] eqn:E1; cbn [from_option] in *; unfold id in *.
    + destruct (py_truthy j) eqn:Ej; [by exists j; auto|]. destruct (dget "tenant_id" claims) as [j'|] eqn:E2; [by exists j'; auto | done].
    + change (py_truthy JNull) with false in *. cbn iota in *. destruct (dget "tenant_id" claims) as [j'|] eqn:E2; [by exists j'; auto | done].
  - intros headers' Hh. by rewrite bearer_of_header, Hh.
Qed.
End oidc.

(** ** Token exchange *)

Record DelegatedToken : Type := { access_token : string; token_type : string; expires_in : option Z }.

Inductive exchange_error : Type := TokenExchangeError (msg : string).

(** [DelegatedToken(...)] from values; [None] when it raises. *)
Definition new_token (a t e : json) : option DelegatedToken :=
  match a, t with
  | JStr a, JStr t =>
      if py_blank a || negb (String.eqb (py_lower t) "bearer") then None
      else match e with
           | JNull => Some {| access_token := a; token_type := t; expires_in := None |}
           | JInt z => if (z <? 1)%Z then None else Some {| access_token := a; token_type := t; expires_in := Some z |}
           | _ => None
           end
  | _, _ => None
  end.

Definition opt_json {A} (f : A -> json) (o : option A) : json := from_option f JNull o.

(** [_identity_payload] *)
Definition identity_payload (i : option InvocationIdentity) : json :=
  match i with
  | None => JNull
  | Some i =>
      JObj [("caller", opt_json (fun c => JObj [("caller_id", JStr (caller_id c)); ("caller_type", JStr (caller_type c))]) (caller i));
            ("user", opt_json (fun u => JObj [("user_id", JStr (user_id u)); ("tenant_id", opt_json JStr (tenant_id u));
                                              ("roles", JList (JStr <$> roles u))]) (user i));
            ("workload", opt_json (fun w => JObj [("workload_id", JStr (workload_id w)); ("namespace", JStr (namespace w));
                                                  ("service_account", opt_json JStr (service_account w))]) (workload i))]
  end.

Section exchange.
(** [json.dumps(..., separators=(",", ":"), sort_keys=True)], and the service: what it
    answers to a form as JSON, nothing when the request fails. *)
Context (dumps : json -> string) (post : list (string * string) -> option json).

Definition exchange_form (audience : string) (actor_token : option string) (i : option InvocationIdentity) : list (string * string) :=
  ([("grant_type", "urn:ietf:params:oauth:grant-type:token-exchange"); ("audience", audience);
    ("subject_token_type", "urn:micro-agents:verified-identity"); ("micro_agent_identity", dumps (sort_keys (identity_payload i)))] ++
   (if opt_truthy actor_token
    then [("actor_token", opt_or actor_token ""); ("actor_token_type", "urn:ietf:params:oauth:token-type:access_token")] else []))%list.

(** [exchange]; [current] is the identity of the context. *)
Definition exchange (audience : string) (actor_token : option string) (identity : option InvocationIdentity) (current : context_var)
  : result exchange_error DelegatedToken :=
  if py_blank audience then Err (TokenExchangeError "token exchange audience must not be empty")
  else
    let verified := match identity with Some i => Some i | None => get_invocation_identity current end in
    match post (exchange_form audience actor_token verified) with
    | None => Err (TokenExchangeError "token exchange request failed")
    | Some payload =>
        match payload with
        | JObj d =>
            if negb (forallb (fun kv => memb kv.1 ["access_token"; "token_type"; "expires_in"]) d) || negb (dmem "access_token" d)
            then Err (TokenExchangeError "token exchange response has an invalid contract")
            else match new_token (default JNull (dget "access_token" d)) (default (JStr "Bearer") (dget "token_type" d))
                                 (default JNull (dget "expires_in" d)) with
                 | Some t => Ok t
                 | None => Err (TokenExchangeError "token exchange response has an invalid token")
                 end
        | _ => Err (TokenExchangeError "token exchange response must be an object")
        end
    end.

(** The principals without what was said about them beyond their names. *)
Definition principals (i : InvocationIdentity) : InvocationIdentity :=
  {| caller := (fun c => {| caller_id := caller_id c; caller_type := caller_type c; caller_metadata := [] |}) <$> caller i;
     user := (fun u => {| user_id := user_id u; tenant_id := tenant_id u; roles := roles u; user_metadata := [] |}) <$> user i;
     workload := workload i |}.

Lemma identity_payload_principals i : identity_payload (principals <$> i) = identity_payload i.
Proof. by destruct i as [[[] [] w]|]. Qed.

(** Delegation sends principals and nothing else.  The service is sent the same form for two
    identities that differ in their metadata only, the identity of the context when
    none is given; what is returned is a bearer token that is not blank and does not
    expire at once, and comes from the answer to that form. *)
Theorem delegation_sends_principals_only aud actor identity current :
  exchange aud actor identity current = exchange aud actor (principals <$> identity) (principals <$> current) /\
  forall t, exchange aud actor identity current = Ok t ->
    py_blank (access_token t) = false /\ py_lower (token_type t) = "bearer" /\
    (forall z, expires_in t = Some z -> (1 <= z)%Z) /\
    exists d, post (exchange_form aud actor (match identity with Some i => Some i | None => current end)) = Some (JObj d) /\
              dget "access_token" d = Some (JStr (access_token t)).
Proof.
  split.
  - unfold exchange, get_invocation_identity. destruct (py_blank aud); [done|].
    assert (Hf : forall i, exchange_form aud actor (principals <$> i) = exchange_form aud actor i)
      by (intros i; unfold exchange_form; by rewrite identity_payload_principals).
    destruct identity as [i|]; [by rewrite <-(Hf (Some i)) | by rewrite <-(Hf current)].
  - intros t. unfold exchange, get_invocation_identity. destruct (py_blank aud); [done|].
    destruct (post _) as [[| | | | | |d]|]; try done. destruct (_ || _) eqn:Ec; [done|]. apply orb_false_iff in Ec as [_ Ea].
    destruct (new_token _ _ _) as [t'|] eqn:Et; [|done]. intros [= <-]. apply negb_false_iff, dmem_get in Ea as [j Hj].
    rewrite Hj in Et. change (default JNull (Some j)) with j in Et. unfold new_token in Et. destruct j as [| | | |a| |]; try done.
    destruct (default (JStr "Bearer") _) as [| | | |ty| |]; try done. destruct (py_blank a) eqn:Eb; [done|].
    destruct (String.eqb_spec (py_lower ty) "bearer") as [Hty|]; [|done]. cbn [orb negb] in Et.
    destruct (default JNull _) as [| |z| | | |]; try done; [|destruct (Z.ltb_spec z 1); [done|]]; injection Et as <-;
      cbn [access_token token_type expires_in]; (split_and!; [done|done| |by exists d]); [done|]. by intros z' [= <-].
Qed.
End exchange.

(** [_validate_endpoint] of the exchange service *)
Definition exchange_endpoint_ok (urlsplit : string -> option url) (endpoint : string) : bool :=
  match urlsplit endpoint with
  | None => false
  | Some u => plain_endpoint u &&
              (negb (String.eqb (scheme u) "http") ||
               memb (py_lower (opt_or (hostname u) "")) ["localhost"; "127.0.0.1"; "0.0.0.0"; "::1"])
  end.

(** ** Security context *)

Record AgentIdentity : Type := { agent_id : string; agent_name : string; agent_version : string }.
Record SecurityContext : Type := {
  agent_identity : AgentIdentity;
  policy_refs : list string;
  credential_refs : list string
}.

(** [build_security_context] *)
Definition build_security_context (d : Definitions.MicroAgentDefinition) : SecurityContext :=
  let m := Definitions.metadata d in
  let s := Definitions.security (Definitions.spec d) in
  {| agent_identity := {| agent_id := Definitions.meta_name m ++ "-" ++ Definitions.meta_version m;
                          agent_name := Definitions.meta_name m; agent_version := Definitions.meta_version m |};
     policy_refs := Definitions.policy_refs s; credential_refs := Definitions.credential_refs s |}.

(** [resolve_credential] *)
Definition resolve_credential (ref : string) (resolver : option (string -> option string)) : option string :=
  resolver ≫= fun r => r ref.

(** ** On concrete input *)

Definition demo_auth (claims : list (string * json)) : OidcJwtAuthenticator :=
  {| issuer := "https://idp"; audience := "agents"; jwt_decode := fun t a i => if String.eqb t "tok" then Claims claims else PyJWTError |}.

Lemma identity_comes_from_token_witness :
  exists value, authorization_header [("Host", "h"); ("AUTHORIZATION", "Bearer tok")] = Some value.
Proof.
  destruct (identity_comes_from_token (fun _ => "?") (demo_auth [("sub", JStr "ann"); ("tid", JStr "acme")])
    [("Host", "h"); ("AUTHORIZATION", "Bearer tok")]
    {| HttpApi.caller := {| caller_id := "ann"; caller_type := "user"; caller_metadata := [] |};
       HttpApi.user := Some {| user_id := "ann"; tenant_id := Some "acme"; roles := []; user_metadata := [] |} |} ltac:(vm_compute; reflexivity))
    as [(value & claims & Hv & _) _].
  exists value. exact Hv.
Defined.

(** A text in place of the list of roles gives one role per character. *)
Example text_roles_are_split :
  exists i, identity_from_claims (fun _ => "?") [("sub", JStr "ann"); ("roles", JStr "ops")] = Ok i /\
            (roles <$> HttpApi.user i) = Some ["o"; "p"; "s"].
Proof. eexists. split; vm_compute; reflexivity. Qed.

(** A number there is not an authentication failure but an exception of another class. *)
Example numeric_roles_escape :
  authenticate (fun _ => "?") (demo_auth [("sub", JStr "ann"); ("roles", JInt 7)]) [("authorization", "bearer tok")] = Err (raise TypeError "object is not iterable").
Proof. vm_compute. reflexivity. Qed.

End Authentication.
