(* ===== verification/Bootstrap.v ===== *)
(** * Bootstrap: from a definition and an environment to a runtime

    [config/bootstrap.py].  What the bootstrap constructs is described by data: which
    provider, with which endpoint and lifetime.  Parameters are the constructors of
    the optional packages (the message of the exception they raise, if any), the tool
    plugins, the policy store, the credentials ([Credentials.CredentialProvider]) and
    the model catalog ([Catalog.ModelCatalog]).  Telemetry and the closing of clients
    are not part of the result. *)

From Stdlib Require Import Ascii.
From S2P Require Import Prelude Json Urls Policy Definitions Config Credentials Catalog Authentication.
Import Urls Config.
Local Open Scope string_scope.

Module Bootstrap.

Inductive boot_error : Type :=
  | BootstrapError (msg : string)
  | Raised (what : string).             (** any other exception *)

(** ** What is built *)

Inductive session_choice : Type :=
  | InMemorySessions (ttl : option Z)
  | SqliteSessions (path : string) (ttl : option Z)
  | RedisSessions (endpoint : string) (ttl : option Z)
  | PostgresSessions (endpoint : string) (ttl : option Z).
Inductive checkpoint_choice : Type := SessionCheckpoints (ttl : option Z) | InMemoryCheckpoints.
Inductive memory_choice : Type := InMemoryMemory | RedisMemory (endpoint : string) | PostgresMemory (endpoint : string).
Inductive operations_choice : Type := RedisOperations (endpoint : string) | PostgresOperations (endpoint : string).
Inductive approvals_choice : Type := InjectedApprovals | RedisApprovals (endpoint : string).
Inductive knowledge_choice : Type :=
  | InjectedKnowledge | HttpKnowledge (endpoint : string) | SqliteKnowledge (path : string) | InMemoryKnowledge.
Inductive exchange_choice : Type := InjectedExchange | HttpExchange (endpoint : string).
Record mcp_choice : Type := {
  injected_manager : bool;
  endpoint_overrides : list (string * string);
  token_exchange : option exchange_choice;
  actor_token : option string
}.
Inductive model_choice : Type :=
  | FakeModel
  | AnthropicModel (endpoint id : string) (api_key : option string) (timeout : Z)
  | OpenAICompatModel (endpoint id : string) (api_key : option string) (timeout : Z).
Inductive audit_choice : Type := JsonlAudit | FileAudit (path : string) | NullAudit | SqliteAudit (path : string) (retention : pyfloat).

Inductive runtime_kind : Type := CustomRuntime | GoogleAdkRuntime.
#[export] Instance runtime_kind_eq_dec : EqDecision runtime_kind.
Proof. solve_decision. Defined.

(** The configuration of the runtime that is created. *)
Record runtime_config : Type := {
  kind : runtime_kind;
  model_provider : option model_choice;
  session_provider : option session_choice;
  checkpoint_store : option checkpoint_choice;
  memory_provider : option memory_choice;
  operation_registry : option operations_choice;
  approval_store : option approvals_choice;
  knowledge_provider : option knowledge_choice;
  mcp_manager : option mcp_choice;
  policy : option Policy.AgentPolicy;
  audit : audit_choice;
  tool_registry : list string
}.

Record RuntimeBootstrap : Type := { runtime : runtime_config; resolved : attributes }.

(** ** What the embedding application injects *)

Inductive environment : Type := Configured (e : EnvironmentConfig) | Overlaid (o : EnvironmentOverlay).

Record injected : Type := {
  injected_policy : option Policy.AgentPolicy;
  policy_resolver : option (list string -> result string (option Policy.AgentPolicy));
  mcp_injected : bool;
  knowledge_injected : bool;
  exchange_injected : bool;
  approvals_injected : bool;
  injected_catalog : option (string -> result Catalog.catalog_error (option Catalog.ModelCatalogEntry));
  injected_environment : option environment
}.

Section bootstrap.
Context (urlsplit : string -> option url) (py_float : string -> option pyfloat) (environ : string -> option string).
(** The credential provider: injected, or the environment. *)
Context {P : Type} {provider : Credentials.CredentialProvider P} (credentials : P).
(** Messages of the exceptions that constructors raise, by class and endpoint. *)
Context (construct : string -> string -> option string).
(** Exceptions nobody converts: opening a file or a database. *)
Context (opens : string -> bool).
(** What a tool plugin scan finds: names, or the exception of a plugin. *)
Context (plugin_tools : result string (list string)).
(** The answers of the configured catalog and policy store, by endpoint and token. *)
Context (catalog_post : string -> option string -> json -> option (Z * option json)).
Context (policy_post : string -> option string -> list string -> Policy.http_outcome).

(** *** Credentials *)

(** [credential_provider.resolve]; its exceptions are not caught. *)
Definition resolve_credential (ref : string) : result boot_error (option string) :=
  match Credentials.resolve credentials ref with
  | Ok s => Ok s
  | Err _ => Err (Raised "credential provider")
  end.

(** A secret the configuration left unset is asked of the provider; it must be there. *)
Definition bind_required (what : string) (r : option SecretRef) (k : string) (c : attributes) : result boot_error attributes :=
  match r with
  | None => Ok c
  | Some r =>
      match getattr c k with
      | Unset =>
          s ← resolve_credential (secret_name r);
          match s with
          | None => Err (BootstrapError ("Required " ++ what ++ " credential '" ++ secret_name r ++ "' is not available"))
          | Some s => Ok (setattr c k (Text s))
          end
      | _ => Ok c
      end
  end.

(** *** [_resolve_definition_config] *)

Definition model_overrides (m : Definitions.ModelRef) : list (string * attribute) :=
  [("model_ref", Text (Definitions.model_ref m)); ("model_id", of_text (Definitions.model_id m));
   ("model_provider", of_text (Definitions.provider m)); ("model_endpoint", of_text (Definitions.model_endpoint m));
   ("model_generation", Values (Definitions.generation m));
   ("model_timeout_seconds", from_option Int Unset (Definitions.model_timeout_seconds m))].

Definition definition_secret (m : option Definitions.ModelRef) : option SecretRef :=
  m ← m;
  if opt_truthy (Definitions.model_credential_ref m)
  then Some {| secret_name := opt_or (Definitions.model_credential_ref m) ""; secret_source := Some "env" |} else None.

Definition with_api_key_ref (e : EnvironmentConfig) (r : SecretRef) : EnvironmentConfig :=
  {| settings := settings e; mcp_endpoints := mcp_endpoints e; cors_origins := cors_origins e; extra := extra e;
     model_api_key_ref := Some r; token_exchange_token_ref := token_exchange_token_ref e;
     model_catalog_token_ref := model_catalog_token_ref e; policy_store_token_ref := policy_store_token_ref e |}.

(** The deployment's configuration with the definition's credential as its API key. *)
Definition environment_config (env : option environment) (credential : option SecretRef) : option EnvironmentConfig :=
  let e := (fun e => match e with Configured e => e | Overlaid o => to_environment_config o end) <$> env in
  match credential with
  | None => e
  | Some r =>
      match e with
      | None => Some (with_api_key_ref empty_environment r)
      | Some e => Some (match model_api_key_ref e with Some _ => e | None => with_api_key_ref e r end)
      end
  end.

(** The part of the configuration that the environment decides, checked. *)
Definition configure (overrides : list (string * attribute)) (e : option EnvironmentConfig) : result boot_error attributes :=
  match resolve_config py_float environ overrides e with
  | Err (ValueError m) => Err (Raised m)
  | Ok c =>
      match validate_config urlsplit c with
      | Err (ValueError m) => Err (Raised m)
      | Ok ds =>
          match errors ds with
          | [] => Ok c
          | es => Err (BootstrapError ("Invalid runtime configuration: " ++ String.concat "; " (message <$> es)))
          end
      end
  end.

(** The catalog that is asked: the injected one, or the configured service. *)
Definition chosen_catalog (i : injected) (c : attributes)
  : result boot_error (option (string -> result Catalog.catalog_error (option Catalog.ModelCatalogEntry))) :=
  match injected_catalog i with
  | Some f => Ok (Some f)
  | None =>
      match text c "model_catalog_endpoint" with
      | Some e =>
          if str_truthy e then
            if Catalog.endpoint_ok urlsplit e
            then Ok (Some (Catalog.http_resolve urlsplit {| Catalog.post := catalog_post e (text c "model_catalog_token") |}))
            else Err (BootstrapError "Invalid model-catalog configuration")
          else Ok None
      | None => Ok None
      end
  end.

Definition set_missing (k : string) (v : option string) (c : attributes) : attributes :=
  match getattr c k, v with Unset, Some v => setattr c k (Text v) | _, _ => c end.

(** What the catalog's entry adds. *)
Definition apply_entry (credential : option SecretRef) (e : Catalog.ModelCatalogEntry) (c : attributes) : result boot_error attributes :=
  let c := set_missing "model_provider" (Some (Catalog.provider e)) c in
  let c := set_missing "model_id" (Some (Catalog.model_id e)) c in
  let c := set_missing "model_endpoint" (Catalog.endpoint e) c in
  match credential, Catalog.credential_ref e with
  | None, Some ref =>
      (* [_resolve_catalog_credential] *)
      if opt_truthy (text c "model_api_key") then Ok c
      else
        s ← resolve_credential ref;
        match s with
        | None => Err (BootstrapError ("Required model credential '" ++ ref ++ "' is not available"))
        | Some s => Ok (setattr c "model_api_key" (Text s))
        end
  | _, _ => Ok c
  end.

Definition resolve_alias (i : injected) (m : option Definitions.ModelRef) (credential : option SecretRef) (c : attributes)
  : result boot_error attributes :=
  catalog ← chosen_catalog i c;
  match catalog, m with
  | Some f, Some m =>
      match f (Definitions.model_ref m) with
      | Err (Catalog.CatalogError msg) => Err (BootstrapError ("Model catalog resolution failed: " ++ msg))
      | Err Catalog.AttributeError => Err (Raised "AttributeError")
      | Ok None => Err (BootstrapError ("Model catalog has no entry for alias '" ++ Definitions.model_ref m ++ "'"))
      | Ok (Some e) => apply_entry credential e c
      end
  | _, _ => Ok c
  end.

Definition resolve_definition_config (d : Definitions.Dependencies) (i : injected) : result boot_error attributes :=
  let m := Definitions.model d in
  let credential := definition_secret m in
  let e := environment_config (injected_environment i) credential in
  c ← configure (from_option model_overrides [] m) e;
  c ← bind_required "model" credential "model_api_key" c;
  c ← bind_required "policy-store" (e ≫= policy_store_token_ref) "policy_store_token" c;
  c ← bind_required "model-catalog" (e ≫= model_catalog_token_ref) "model_catalog_token" c;
  c ← bind_required "token-exchange" (e ≫= token_exchange_token_ref) "token_exchange_token" c;
  resolve_alias i m credential c.

(** *** [_runtime_name] *)

Definition runtime_aliases : list (string * runtime_kind) :=
  [("adk", CustomRuntime); ("custom", CustomRuntime); ("reference", CustomRuntime); ("google-adk", GoogleAdkRuntime);
   ("google_adk", GoogleAdkRuntime); ("googleadk", GoogleAdkRuntime)].

Definition runtime_name (value : option string) : result boot_error runtime_kind :=
  match dget (py_lower (py_strip (opt_or value "custom"))) runtime_aliases with
  | Some k => Ok k
  | None => Err (BootstrapError ("Unsupported runtime '" ++ opt_or value "None" ++ "'. Supported runtimes: custom, google-adk"))
  end.

(** *** [_validate_credential_bindings] *)

Definition some_truthy (o : option string) : list string := if opt_truthy o then [opt_or o ""] else [].

Definition required_credentials (s : Definitions.MicroAgentSpec) : list string :=
  let d := Definitions.dependencies s in
  (from_option (fun m => some_truthy (Definitions.model_credential_ref m)) [] (Definitions.model d) ++
   concat ((fun s => some_truthy (Definitions.server_credential_ref s)) <$> Definitions.mcp_servers d) ++
   Definitions.credential_refs (Definitions.security s))%list.

Fixpoint missing_credentials (refs : list string) : result boot_error (list string) :=
  match refs with
  | [] => Ok []
  | r :: refs =>
      s ← resolve_credential r;
      l ← missing_credentials refs;
      Ok (match s with Some _ => l | None => r :: l end)
  end.

Definition validate_credential_bindings (s : Definitions.MicroAgentSpec) : result boot_error unit :=
  missing ← missing_credentials (required_credentials s);
  match missing with
  | [] => Ok tt
  | l => Err (BootstrapError ("Required credentials are not available: " ++ String.concat ", " (sort_by str_leb (remove_dups l))))
  end.

(** *** Token exchange and MCP *)

Definition nonempty {A} (l : list A) : bool := match l with [] => false | _ => true end.

Definition build_token_exchange (d : Definitions.Dependencies) (c : attributes) : result boot_error (option exchange_choice) :=
  if negb (nonempty (Definitions.mcp_servers d)) then Ok None
  else match text c "token_exchange_endpoint" with
       | Some e =>
           if negb (str_truthy e) then Ok None
           else if Authentication.exchange_endpoint_ok urlsplit e then Ok (Some (HttpExchange e))
           else Err (BootstrapError "Invalid token-exchange configuration")
       | None => Ok None
       end.

Definition undeclared (refs : list string) : boot_error :=
  BootstrapError ("MCP endpoint bindings reference undeclared server(s): " ++ String.concat ", " (sort_by str_leb refs)).

Definition build_mcp_manager (d : Definitions.Dependencies) (has_injected : bool) (overrides : list (string * string))
    (x : option exchange_choice) (actor : option string) : result boot_error (option mcp_choice) :=
  let declared := Definitions.server_ref <$> Definitions.mcp_servers d in
  if negb (nonempty (Definitions.mcp_servers d)) then
    if nonempty overrides then Err (undeclared (dkeys overrides)) else Ok None
  else
    match filterb (fun k => negb (memb k declared)) (dkeys overrides) with
    | [] => Ok (Some {| injected_manager := has_injected; endpoint_overrides := overrides; token_exchange := x; actor_token := actor |})
    | unknown => Err (undeclared unknown)
    end.

(** *** Tools *)

Definition builtin_tools : list string := ["echo"; "json_parse"].

Definition is_mcp (t : Definitions.ToolDefinition) : bool := bool_decide (Definitions.source t = Some "mcp").

(** [_build_tool_registry]: the declared tools that are known, by name. *)
Definition build_tool_registry (d : Definitions.Dependencies) : result boot_error (list string) :=
  match plugin_tools with
  | Err what => Err (Raised what)
  | Ok names =>
      Ok (Definitions.tool_name <$> filterb (fun t => negb (is_mcp t) && memb (Definitions.tool_name t) (builtin_tools ++ names)%list)
                                            (Definitions.tools d))
  end.

(** [_validate_tool_bindings] *)
Definition validate_tool_bindings (d : Definitions.Dependencies) (registry : list string) (mcp : option mcp_choice)
  : result boot_error unit :=
  match filterb (fun t => negb (is_mcp t) && negb (memb (Definitions.tool_name t) registry)) (Definitions.tools d) with
  | [] =>
      if bool_decide (mcp = None) && existsb is_mcp (Definitions.tools d)
      then Err (BootstrapError "MCP-sourced tools are declared but no MCP servers are declared") else Ok tt
  | unresolved =>
      Err (BootstrapError ("Cannot resolve declared native tools: " ++ String.concat ", " (Definitions.tool_name <$> unresolved) ++
                           "; only built-in native tools and MCP tools can be resolved"))
  end.

(** *** Policy *)

(** [_validate_policy_store_endpoint] of [security/policy.py] *)
Definition policy_store_endpoint_ok (e : string) : bool :=
  match urlsplit e with
  | None => false
  | Some u => plain_endpoint u &&
              (negb (String.eqb (scheme u) "http") || memb (opt_or (hostname u) "") ["localhost"; "127.0.0.1"; "::1"])
  end.

(** [_resolve_policy] *)
Definition build_policy (i : injected) (refs : list string) (c : attributes) : result boot_error (option Policy.AgentPolicy) :=
  if negb (nonempty refs) then Ok (injected_policy i)
  else
    match injected_policy i with
    | Some p => Ok (Some p)
    | None =>
        let unresolved := BootstrapError ("Policy references cannot be resolved: " ++ String.concat ", " refs ++
          "; inject a policy/resolver or configure MICRO_AGENT_POLICY_STORE_ENDPOINT") in
        let store_failed := BootstrapError "Policy store resolution failed" in
        match policy_resolver i with
        | Some f => match f refs with
                    | Ok (Some p) => Ok (Some p)
                    | Ok None => Err unresolved
                    | Err _ => Err store_failed
                    end
        | None =>
            match text c "policy_store_endpoint" with
            | Some e =>
                if negb (str_truthy e) then Err unresolved
                else if negb (policy_store_endpoint_ok e) then Err (BootstrapError "Invalid policy-store configuration")
                else match Policy.resolve_policy (policy_post e (text c "policy_store_token")) (JStr <$> refs) with
                     | Ok p => Ok (Some p)
                     | Err _ => Err store_failed
                     end
            | None => Err unresolved
            end
        end
    end.

(** *** Providers *)

Definition is_redis (e : string) : bool := String.prefix "redis://" e || String.prefix "rediss://" e.
Definition is_postgres (e : string) : bool := String.prefix "postgres://" e || String.prefix "postgresql://" e.

(** A constructor whose [RuntimeError] or [ValueError] becomes a [BootstrapError]. *)
Definition built {A} (class endpoint : string) (a : A) : result boot_error A :=
  match construct class endpoint with None => Ok a | Some msg => Err (BootstrapError msg) end.

Definition opened {A} (path : string) (a : A) : result boot_error A :=
  if opens path then Ok a else Err (Raised path).

(** [_sqlite_path]; [None] when [urlsplit] raises. *)
Definition sqlite_path (endpoint : option string) : option (result boot_error string) :=
  match endpoint with
  | None => Some (Ok ":memory:")
  | Some e =>
      if negb (str_truthy e) then Some (Ok ":memory:")
      else if memb e [":memory:"; "sqlite:///:memory:"; "sqlite://:memory:"] then Some (Ok ":memory:")
      else if String.prefix "sqlite://" e then
        match urlsplit e with
        | None => None
        | Some u => Some (
            if negb (String.eqb (scheme u) "sqlite") || str_truthy (url_query u) || str_truthy (fragment u)
            then Err (BootstrapError "SQLite session endpoint must not include query or fragment")
            else if str_truthy (netloc u) && str_truthy (path u)
            then Err (BootstrapError "SQLite session endpoint must use sqlite:///absolute/path or sqlite:///:memory:")
            else if negb (str_truthy (path u)) then Err (BootstrapError "SQLite session endpoint must include a database path")
            else Ok (path u))
        end
      else if String.prefix "file:" e then Some (Ok e)
      else if str_contains "://" e then Some (Err (BootstrapError "SQLite session endpoint must use the sqlite:// scheme"))
      else Some (Ok e)
  end.

(** [_build_session_provider] *)
Definition build_session_provider (s : Definitions.SessionConfig) (c : attributes) : result boot_error (option session_choice) :=
  let endpoint := text c "session_endpoint" in
  let ttl := Definitions.session_ttl_seconds s in
  let p := Definitions.persistence s in
  if String.eqb p "none" then
    if opt_truthy endpoint then Err (BootstrapError "MICRO_AGENT_SESSION_ENDPOINT is set but session.persistence is 'none'") else Ok None
  else if String.eqb p "memory" then
    if opt_truthy endpoint && negb (memb (opt_or endpoint "") ["memory://"; "inmemory://"])
    then Err (BootstrapError "session.persistence 'memory' only supports memory:// or inmemory:// session endpoints")
    else Ok (Some (InMemorySessions ttl))
  else if String.eqb p "sqlite" then
    match sqlite_path endpoint with
    | None => Err (Raised "ValueError")
    | Some (Err e) => Err e
    | Some (Ok path) => opened path (Some (SqliteSessions path ttl))
    end
  else
    let e := opt_or endpoint "" in
    if negb (opt_truthy endpoint) then Err (BootstrapError "session.persistence 'external' requires MICRO_AGENT_SESSION_ENDPOINT")
    else if is_redis e then built "RedisSessionProvider" e (Some (RedisSessions e ttl))
    else if is_postgres e then built "PostgresSessionProvider" e (Some (PostgresSessions e ttl))
    else Err (BootstrapError "external session provider supports redis://, rediss://, postgres://, or postgresql:// endpoints").

(** [_build_memory_provider] *)
Definition build_memory_provider (m : option Definitions.MemoryRef) (c : attributes) : result boot_error (option memory_choice) :=
  let endpoint := text c "memory_endpoint" in
  let e := opt_or endpoint "" in
  match m with
  | None => if opt_truthy endpoint then Err (BootstrapError "MICRO_AGENT_MEMORY_ENDPOINT is set but no memory dependency is declared")
            else Ok None
  | Some _ =>
      if negb (opt_truthy endpoint) || memb e ["memory://"; "inmemory://"] then Ok (Some InMemoryMemory)
      else if is_redis e then built "RedisMemoryProvider" e (Some (RedisMemory e))
      else if is_postgres e then built "PostgresMemoryProvider" e (Some (PostgresMemory e))
      else Err (BootstrapError "external memory provider supports redis://, rediss://, postgres://, or postgresql:// endpoints")
  end.

(** [_build_operation_registry] *)
Definition build_operation_registry (c : attributes) : result boot_error (option operations_choice) :=
  let e := opt_or (text c "idempotency_endpoint") "" in
  if negb (str_truthy e) then Ok None
  else if is_redis e then built "RedisOperationRegistry" e (Some (RedisOperations e))
  else if is_postgres e then built "PostgresIdempotencyStore" e (Some (PostgresOperations e))
  else Err (BootstrapError "external idempotency provider supports redis://, rediss://, postgres://, or postgresql:// endpoints").

(** [_build_approval_store] *)
Definition build_approval_store (c : attributes) : result boot_error (option approvals_choice) :=
  let e := opt_or (text c "approval_endpoint") "" in
  if negb (str_truthy e) then Ok None
  else if is_redis e then built "RedisApprovalStore" e (Some (RedisApprovals e))
  else Err (BootstrapError "external approval provider supports redis:// or rediss:// endpoints").

(** [_build_knowledge_provider] *)
Definition build_knowledge_provider (sources : list Definitions.KnowledgeRef) (has_injected : bool) (c : attributes)
  : result boot_error (option knowledge_choice) :=
  let e := opt_or (text c "knowledge_endpoint") "" in
  if negb (nonempty sources) then Ok None
  else if has_injected then Ok (Some InjectedKnowledge)
  else if negb (str_truthy e) then Ok (Some InMemoryKnowledge)
  else if String.prefix "http://" e || String.prefix "https://" e then built "HttpKnowledgeRetriever" e (Some (HttpKnowledge e))
  else
    match sqlite_path (Some e) with
    | None => Err (BootstrapError "Invalid knowledge provider endpoint")
    | Some (Err x) => Err x
    | Some (Ok path) =>
        match construct "SqliteKnowledgeRetriever" path with
        | Some msg => Err (BootstrapError ("Invalid knowledge provider endpoint: " ++ msg))
        | None => opened path (Some (SqliteKnowledge path))
        end
    end.

(** [build_audit_sink] *)
Definition build_audit_sink (c : attributes) : result boot_error audit_choice :=
  let m := py_lower (py_strip (opt_or (text c "audit_sink") "stdout")) in
  if memb m [""; "stdout"] then Ok JsonlAudit
  else if String.eqb m "file" then
    if has_text c "audit_file" then opened (opt_or (text c "audit_file") "") (FileAudit (opt_or (text c "audit_file") ""))
    else Err (BootstrapError "MICRO_AGENT_AUDIT_SINK=file requires MICRO_AGENT_AUDIT_FILE")
  else if String.eqb m "none" then Ok NullAudit
  else if String.eqb m "sqlite" then
    let path := opt_or (text c "audit_database") (opt_or (text c "audit_file") "") in
    if negb (str_truthy path) then Err (BootstrapError "MICRO_AGENT_AUDIT_SINK=sqlite requires MICRO_AGENT_AUDIT_DATABASE")
    else
      let retention := match getattr c "audit_retention_seconds" with
                       | Float f => if truthy (Float f) then f else Finite 2592000
                       | _ => Finite 2592000
                       end in
      if nonpositive retention then Err (Raised "retention_seconds must be greater than zero")
      else opened path (SqliteAudit path retention)
  else Err (BootstrapError ("Unsupported audit sink '" ++ opt_or (text c "audit_sink") "None" ++ "'. Supported: none, stdout, file, sqlite")).

(** [build_authenticator]: issuer and audience of the OIDC authenticator. *)
Definition build_authenticator (c : attributes) : result boot_error (option (string * string)) :=
  let m := mode c "auth" in
  if memb m [""; "none"] then Ok None
  else if String.eqb m "oidc" then
    if negb (has_text c "auth_issuer") || negb (has_text c "auth_audience")
    then Err (BootstrapError "MICRO_AGENT_AUTH=oidc requires MICRO_AGENT_AUTH_ISSUER and MICRO_AGENT_AUTH_AUDIENCE")
    else match construct "OidcJwtAuthenticator" (opt_or (text c "auth_issuer") "") with
         | Some msg => Err (Raised msg)
         | None => Ok (Some (opt_or (text c "auth_issuer") "", opt_or (text c "auth_audience") ""))
         end
  else Err (BootstrapError ("Unsupported auth mode '" ++ opt_or (text c "auth") "None" ++ "'. Supported modes: none, oidc")).

(** *** [_build_model_provider] *)

Definition openai_names : list string := ["openai"; "openai-compatible"; "openai_compatible"; "openai-compat"; "openai_compat"].
Definition fake_names : list string := ["fake"; "test"; "stub"].
Definition anthropic_names : list string := ["anthropic"; "claude"].
Definition google_names : list string := ["google"; "gemini"; "google-genai"].

(** [float(config.model_timeout_seconds or 30)] *)
Definition model_timeout (c : attributes) : Z :=
  match integer c "model_timeout_seconds" with Some z => if Z.eqb z 0 then 30%Z else z | None => 30%Z end.

Definition build_model_provider (c : attributes) (native_google : bool) : result boot_error (option model_choice) :=
  let name := mode c "model_provider" in
  let endpoint := opt_or (text c "model_endpoint") "" in
  let id := opt_or (text c "model_id") "" in
  let key := text c "model_api_key" in
  if memb name google_names then
    if native_google && negb (str_truthy endpoint) then
      if negb (str_truthy id) && negb (has_text c "model_ref")
      then Err (BootstrapError "Google ADK runtime requires model_id or model_ref for a native model")
      else Ok None
    else Err (BootstrapError "Google model providers require runtime: google-adk without an endpoint")
  else if memb name fake_names then Ok (Some FakeModel)
  else if memb name anthropic_names then
    if negb (str_truthy id) then Err (BootstrapError "Anthropic model provider requires model_id or MICRO_AGENT_MODEL_ID")
    else if (model_timeout c <=? 0)%Z then Err (Raised "Anthropic timeout must be greater than zero")
    else Ok (Some (AnthropicModel (opt_or (text c "model_endpoint") "https://api.anthropic.com") id key (model_timeout c)))
  else if memb name openai_names || str_truthy endpoint then
    if negb (str_truthy endpoint)
    then Err (BootstrapError "OpenAI-compatible model provider requires model_endpoint or MICRO_AGENT_MODEL_ENDPOINT")
    else if negb (str_truthy id) then Err (BootstrapError "OpenAI-compatible model provider requires model_id or MICRO_AGENT_MODEL_ID")
    else Ok (Some (OpenAICompatModel endpoint id key (model_timeout c)))
  else if str_truthy name then Err (BootstrapError ("Unsupported model provider '" ++ opt_or (text c "model_provider") "" ++ "'"))
  else Err (BootstrapError "Model provider is not configured").

(** *** [build_runtime] *)

(** Checkpoints live in the sessions, if there are any. *)
Definition checkpoints (k : runtime_kind) (s : Definitions.SessionConfig) (session : option session_choice) : option checkpoint_choice :=
  match session, k with
  | Some _, _ => Some (SessionCheckpoints (Definitions.session_ttl_seconds s))
  | None, GoogleAdkRuntime => if String.eqb (Definitions.persistence s) "memory" then Some InMemoryCheckpoints else None
  | None, CustomRuntime => None
  end.

Definition build_runtime (s : Definitions.MicroAgentSpec) (i : injected) : result boot_error RuntimeBootstrap :=
  let d := Definitions.dependencies s in
  c ← resolve_definition_config d i;
  k ← runtime_name (text c "runtime");
  _ ← validate_credential_bindings s;
  built_exchange ← (if exchange_injected i then Ok (Some InjectedExchange) else build_token_exchange d c);
  mcp ← build_mcp_manager d (mcp_injected i) (endpoints c "mcp_endpoints") built_exchange (text c "token_exchange_token");
  tools ← build_tool_registry d;
  _ ← validate_tool_bindings d tools mcp;
  pol ← build_policy i (Definitions.policy_refs (Definitions.security s)) c;
  knowledge ← build_knowledge_provider (Definitions.knowledge d) (knowledge_injected i) c;
  sink ← build_audit_sink c;
  model ← build_model_provider c (bool_decide (k = GoogleAdkRuntime));
  _ ← (if bool_decide (k = GoogleAdkRuntime) && has_text c "approval_endpoint"
       then Err (BootstrapError "Google ADK runtime uses native approval continuations and does not map MICRO_AGENT_APPROVAL_ENDPOINT")
       else Ok tt);
  session ← build_session_provider (Definitions.session d) c;
  memory ← build_memory_provider (Definitions.memory d) c;
  operations ← build_operation_registry c;
  approvals ← (match k with
               | GoogleAdkRuntime => Ok None
               | CustomRuntime => if approvals_injected i then Ok (Some InjectedApprovals) else build_approval_store c
               end);
  Ok {| runtime := {| kind := k; model_provider := model; session_provider := session;
                      checkpoint_store := checkpoints k (Definitions.session d) session; memory_provider := memory;
                      operation_registry := operations; approval_store := approvals; knowledge_provider := knowledge;
                      mcp_manager := mcp; policy := pol; audit := sink; tool_registry := tools |};
        resolved := c |}.

(** ** The runtime does what the definition declares *)

Definition session_matches (s : Definitions.SessionConfig) (o : option session_choice) : Prop :=
  let ttl := Definitions.session_ttl_seconds s in
  if String.eqb (Definitions.persistence s) "none" then o = None
  else if String.eqb (Definitions.persistence s) "memory" then o = Some (InMemorySessions ttl)
  else if String.eqb (Definitions.persistence s) "sqlite" then exists path, o = Some (SqliteSessions path ttl)
  else exists e, (is_redis e = true /\ o = Some (RedisSessions e ttl)) \/ (is_postgres e = true /\ o = Some (PostgresSessions e ttl)).

Record honours (s : Definitions.MicroAgentSpec) (r : runtime_config) : Prop := {
  every_credential : forall ref, ref ∈ required_credentials s -> exists v, Credentials.resolve credentials ref = Ok (Some v);
  every_tool : forall t, t ∈ Definitions.tools (Definitions.dependencies s) ->
    if is_mcp t then mcp_manager r <> None else Definitions.tool_name t ∈ tool_registry r;
  mcp_iff_declared : mcp_manager r = None <-> Definitions.mcp_servers (Definitions.dependencies s) = [];
  only_declared_servers : forall m k, mcp_manager r = Some m -> k ∈ dkeys (endpoint_overrides m) ->
    k ∈ Definitions.server_ref <$> Definitions.mcp_servers (Definitions.dependencies s);
  declared_policy : Definitions.policy_refs (Definitions.security s) <> [] -> policy r <> None;
  session_as_declared : session_matches (Definitions.session (Definitions.dependencies s)) (session_provider r);
  memory_iff_declared : memory_provider r = None <-> Definitions.memory (Definitions.dependencies s) = None;
  knowledge_iff_declared : knowledge_provider r = None <-> Definitions.knowledge (Definitions.dependencies s) = [];
  model_unless_native : model_provider r = None -> kind r = GoogleAdkRuntime
}.

Lemma built_ok {A} cls e (a b : A) : built cls e a = Ok b -> b = a.
Proof. unfold built. destruct (construct cls e); [done|]. by intros [= <-]. Qed.

Lemma opened_ok {A} path (a b : A) : opened path a = Ok b -> b = a.
Proof. unfold opened. destruct (opens path); [|done]. by intros [= <-]. Qed.

Lemma missing_spec refs l :
  missing_credentials refs = Ok l -> l = [] -> forall r, r ∈ refs -> exists v, Credentials.resolve credentials r = Ok (Some v).
Proof.
  revert l. induction refs as [|r refs IH]; cbn [missing_credentials]; intros l Hl Hn; [by intros r Hr%not_elem_of_nil|].
  apply result_bind_ok in Hl as (o & Ho & Hl). apply result_bind_ok in Hl as (l' & Hl' & Hl). injection Hl as Hl.
  unfold resolve_credential in Ho. destruct (Credentials.resolve credentials r) as [o'|] eqn:Er; [|done]. injection Ho as ->.
  destruct o as [v|]; [subst l'|by subst l]. intros r' [->|Hin]%elem_of_cons; [by exists v | by eapply IH].
Qed.

Lemma credentials_bound s : validate_credential_bindings s = Ok tt ->
  forall r, r ∈ required_credentials s -> exists v, Credentials.resolve credentials r = Ok (Some v).
Proof.
  unfold validate_credential_bindings. intros H. apply result_bind_ok in H as (l & Hl & H). destruct l; [|done]. by eapply missing_spec.
Qed.

Lemma mcp_manager_spec d b o x a m :
  build_mcp_manager d b o x a = Ok m ->
  (m = None <-> Definitions.mcp_servers d = []) /\
  forall mc k, m = Some mc -> k ∈ dkeys (endpoint_overrides mc) -> k ∈ Definitions.server_ref <$> Definitions.mcp_servers d.
Proof.
  unfold build_mcp_manager. destruct (Definitions.mcp_servers d) as [|sv l] eqn:Es; cbn [nonempty negb].
  - destruct (nonempty o); [done|]. by intros [= <-].
  - destruct (filterb _ (dkeys o)) as [|u us] eqn:Ef; [|done]. intros [= <-]. split; [done|]. intros mc k [= <-] Hk. cbn in Hk.
    apply memb_true. destruct (memb k _) eqn:Em; [done|]. exfalso. apply (not_elem_of_nil k). rewrite <-Ef. apply elem_of_filterb.
    split; [done|]. by rewrite Em.
Qed.

Lemma tools_bound d reg m :
  validate_tool_bindings d reg m = Ok tt ->
  forall t, t ∈ Definitions.tools d -> if is_mcp t then m <> None else Definitions.tool_name t ∈ reg.
Proof.
  unfold validate_tool_bindings. destruct (filterb _ _) as [|u us] eqn:Ef; [|done].
  destruct (bool_decide (m = None) && existsb is_mcp (Definitions.tools d)) eqn:Em; [done|]. intros _ t Ht.
  destruct (is_mcp t) eqn:Et.
  - intros ->. rewrite bool_decide_eq_true_2 in Em by done. cbn [andb] in Em. rewrite (proj2 (existsb_elem _ _)) in Em; [done|]. by exists t.
  - apply memb_true. destruct (memb _ reg) eqn:Er; [done|]. exfalso. apply (not_elem_of_nil t). rewrite <-Ef. apply elem_of_filterb.
    split; [done|]. by rewrite Et, Er.
Qed.

Lemma policy_bound i refs c p : build_policy i refs c = Ok p -> refs <> [] -> p <> None.
Proof.
  unfold build_policy. destruct refs as [|r refs]; [done|]. cbn [nonempty negb]. intros H _ ->.
  destruct (injected_policy i); [done|]. destruct (policy_resolver i) as [f|]; [by destruct (f _) as [[]|]|].
  destruct (text c _); [|done]. destruct (negb (str_truthy _)); [done|]. destruct (negb _); [done|]. by destruct (Policy.resolve_policy _ _).
Qed.

Lemma session_bound s c o : build_session_provider s c = Ok o -> session_matches s o.
Proof.
  unfold build_session_provider, session_matches. destruct (String.eqb _ "none"); [destruct (opt_truthy _); [done|]; by intros [= <-]|].
  destruct (String.eqb _ "memory"); [destruct (_ && _); [done|]; by intros [= <-]|]. destruct (String.eqb _ "sqlite").
  { destruct (sqlite_path _) as [[path|]|]; try done. intros ->%opened_ok. by eexists. }
  destruct (negb _); [done|]. destruct (is_redis _) eqn:Er; [intros ->%built_ok; eexists; left; split; [exact Er|done]|].
  destruct (is_postgres _) eqn:Ep; [|done]. intros ->%built_ok. eexists. right. split; [exact Ep|done].
Qed.

Lemma memory_bound m c o : build_memory_provider m c = Ok o -> (o = None <-> m = None).
Proof.
  unfold build_memory_provider. destruct m; [|destruct (opt_truthy _); [done|]; by intros [= <-]].
  destruct (_ || _); [by intros [= <-]|]. destruct (is_redis _); [by intros ->%built_ok|]. destruct (is_postgres _); [|done]. by intros ->%built_ok.
Qed.

Lemma knowledge_bound l b c o : build_knowledge_provider l b c = Ok o -> (o = None <-> l = []).
Proof.
  unfold build_knowledge_provider. destruct l; cbn [nonempty negb]; [by intros [= <-]|]. destruct b; [by intros [= <-]|].
  destruct (negb _); [by intros [= <-]|]. destruct (_ || _); [by intros ->%built_ok|].
  destruct (sqlite_path _) as [[path|]|]; try done. destruct (construct _ path); [done|]. by intros ->%opened_ok.
Qed.

Lemma model_bound c b o : build_model_provider c b = Ok o -> o = None -> b = true.
Proof.
  unfold build_model_provider. intros H ->. destruct b; [done|]. cbn [andb] in H. repeat (case_match; try done).
Qed.

Lemma build_runtime_inv s i b :
  build_runtime s i = Ok b ->
  exists x t, let d := Definitions.dependencies s in let c := resolved b in let r := runtime b in
    resolve_definition_config d i = Ok c /\ validate_credential_bindings s = Ok tt /\
    build_mcp_manager d (mcp_injected i) (endpoints c "mcp_endpoints") x t = Ok (mcp_manager r) /\
    build_tool_registry d = Ok (tool_registry r) /\ validate_tool_bindings d (tool_registry r) (mcp_manager r) = Ok tt /\
    build_policy i (Definitions.policy_refs (Definitions.security s)) c = Ok (policy r) /\
    build_knowledge_provider (Definitions.knowledge d) (knowledge_injected i) c = Ok (knowledge_provider r) /\
    build_audit_sink c = Ok (audit r) /\
    build_model_provider c (bool_decide (kind r = GoogleAdkRuntime)) = Ok (model_provider r) /\
    build_session_provider (Definitions.session d) c = Ok (session_provider r) /\
    build_memory_provider (Definitions.memory d) c = Ok (memory_provider r).
Proof.
  unfold build_runtime. intros H.
  apply result_bind_ok in H as (c & Hc & H). apply result_bind_ok in H as (k & Hk & H). apply result_bind_ok in H as ([] & Hcr & H).
  apply result_bind_ok in H as (x & Hx & H). apply result_bind_ok in H as (m & Hm & H). apply result_bind_ok in H as (tl & Htl & H).
  apply result_bind_ok in H as ([] & Htb & H). apply result_bind_ok in H as (p & Hp & H). apply result_bind_ok in H as (kn & Hkn & H).
  apply result_bind_ok in H as (au & Hau & H). apply result_bind_ok in H as (mo & Hmo & H). apply result_bind_ok in H as ([] & _ & H).
  apply result_bind_ok in H as (se & Hse & H). apply result_bind_ok in H as (me & Hme & H). apply result_bind_ok in H as (op & Hop & H).
  apply result_bind_ok in H as (ap & Hap & H). injection H as <-. exists x, (text c "token_exchange_token"). by split_and!.
Qed.

(** C16: A runtime that starts does what its definition declares.  If the bootstrap succeeds, every
    credential the definition names resolves, every tool it declares is registered or
    served by an MCP manager, a manager exists exactly for declared servers and is
    bound to these only, a declared policy is in force, sessions are kept where the
    definition says and never silently elsewhere, and memory and knowledge providers
    exist exactly when they are declared. *)
Theorem bootstrap_honours_definition s i b : build_runtime s i = Ok b -> honours s (runtime b).
Proof.
  intros H. apply build_runtime_inv in H as (x & t & Hc & Hcr & Hm & Htl & Htb & Hp & Hkn & Hau & Hmo & Hse & Hme).
  apply mcp_manager_spec in Hm as [Hm1 Hm2]. constructor.
  - by apply credentials_bound.
  - by apply tools_bound.
  - done.
  - done.
  - intros Hr. by eapply policy_bound.
  - by eapply session_bound.
  - by eapply memory_bound.
  - by eapply knowledge_bound.
  - intros Hn. apply model_bound in Hmo; [|done]. by apply bool_decide_eq_true_1 in Hmo.
Qed.

(** ** The configuration stays valid *)

(** What validation looks at. *)
Definition checked_names : list string :=
  ["log_level"; "audit_sink"; "audit_file"; "audit_database"; "audit_retention_seconds"; "max_request_bytes"; "rate_limit_per_minute";
   "rate_limit_burst"; "policy_store_endpoint"; "model_catalog_endpoint"; "token_exchange_endpoint"; "cors_origins"; "auth"; "auth_issuer";
   "auth_audience"].

Definition same_checked (c c' : attributes) : Prop := forall k, k ∈ checked_names -> getattr c' k = getattr c k.

#[local] Instance same_checked_preorder : PreOrder same_checked.
Proof. split; [by intros c k | intros c1 c2 c3 H1 H2 k Hk; by rewrite H2, H1]. Qed.

Lemma same_checked_set c k a : memb k checked_names = false -> same_checked c (setattr c k a).
Proof. intros Hk k' Hk'. rewrite get_set. destruct (decide (k' = k)) as [->|]; [|done]. by apply memb_false in Hk. Qed.

Lemma config_ok_same c c' : same_checked c c' -> config_ok urlsplit c -> config_ok urlsplit c'.
Proof.
  intros Hs [H1 H2 H3 H4 H5 H6 H7 H8 H9 H10].
  assert (Ht : forall k, memb k checked_names = true -> text c' k = text c k) by (intros k Hk; unfold text; rewrite Hs; [done|by apply memb_true]).
  assert (Hi : forall k, memb k checked_names = true -> integer c' k = integer c k) by (intros k Hk; unfold integer; rewrite Hs; [done|by apply memb_true]).
  assert (Hh : forall k, memb k checked_names = true -> has_text c' k = has_text c k) by (intros k Hk; unfold has_text; by rewrite Ht).
  assert (Hmo : forall k, memb k checked_names = true -> mode c' k = mode c k) by (intros k Hk; unfold mode; by rewrite Ht).
  constructor; unfold plain_endpoint_at, texts; rewrite ?Ht, ?Hmo, ?Hh, ?(Hs "audit_retention_seconds"), ?(Hs "cors_origins");
    try done; try (apply memb_true; reflexivity).
  - intros k z Hk. rewrite Hi; [by apply H5|]. apply memb_true.
    apply elem_of_cons in Hk as [->|Hk]; [apply memb_true; reflexivity|].
    apply elem_of_cons in Hk as [->|Hk]; [apply memb_true; reflexivity|]. apply list_elem_of_singleton in Hk as ->. apply memb_true; reflexivity.
  - intros k Hk v. rewrite Ht; [by apply H7|].
    apply elem_of_cons in Hk as [->|Hk]; [reflexivity|]. apply elem_of_cons in Hk as [->|Hk]; [reflexivity|]. by apply list_elem_of_singleton in Hk as ->.
Qed.

Lemma bind_required_same what r k c c' :
  memb k checked_names = false -> bind_required what r k c = Ok c' -> same_checked c c'.
Proof.
  intros Hk. unfold bind_required. destruct r as [r|]; [|by intros [= <-]]. destruct (getattr c k); try by intros [= <-].
  intros H. apply result_bind_ok in H as (o & _ & H). destruct o; [|done]. injection H as <-. by apply same_checked_set.
Qed.

Lemma set_missing_same k v c : memb k checked_names = false -> same_checked c (set_missing k v c).
Proof. intros Hk. unfold set_missing. destruct (getattr c k); try done. destruct v; [|done]. by apply same_checked_set. Qed.

Lemma apply_entry_same cr e c c' : apply_entry cr e c = Ok c' -> same_checked c c'.
Proof.
  unfold apply_entry. set (c1 := set_missing "model_provider" _ c). set (c2 := set_missing "model_id" _ c1).
  set (c3 := set_missing "model_endpoint" _ c2).
  assert (H3 : same_checked c c3) by (etrans; [|by apply set_missing_same]; etrans; [|by apply set_missing_same]; by apply set_missing_same).
  destruct cr; [by intros [= <-]|]. destruct (Catalog.credential_ref e); [|by intros [= <-]]. destruct (opt_truthy _); [by intros [= <-]|].
  intros H. apply result_bind_ok in H as (o & _ & H). destruct o; [|done]. injection H as <-. etrans; [exact H3|]. by apply same_checked_set.
Qed.

Lemma resolved_valid d i c : resolve_definition_config d i = Ok c -> config_ok urlsplit c.
Proof.
  unfold resolve_definition_config. intros H. apply result_bind_ok in H as (c0 & H0 & H).
  assert (Hok : config_ok urlsplit c0).
  { unfold configure in H0. destruct (resolve_config _ _ _ _) as [cc|[]]; [|done]. destruct (validate_config urlsplit cc) as [ds|[]] eqn:Ev; [|done].
    destruct (errors ds) eqn:Ee; [|done]. injection H0 as <-. by apply (validation_exact urlsplit cc ds Ev). }
  apply result_bind_ok in H as (c1 & H1 & H). apply result_bind_ok in H as (c2 & H2 & H). apply result_bind_ok in H as (c3 & H3 & H).
  apply result_bind_ok in H as (c4 & H4 & H). apply bind_required_same in H1, H2, H3, H4; try reflexivity.
  assert (H5 : same_checked c4 c).
  { unfold resolve_alias in H. apply result_bind_ok in H as (f & _ & H). destruct f as [f|]; [|by injection H as <-].
    destruct (Definitions.model d) as [m|]; [|by injection H as <-]. destruct (f _) as [[e|]|[]]; try done. by eapply apply_entry_same. }
  apply (config_ok_same c4); [exact H5|]. apply (config_ok_same c3); [exact H4|]. apply (config_ok_same c2); [exact H3|].
  apply (config_ok_same c1); [exact H2|]. by apply (config_ok_same c0).
Qed.

(** C5: What the bootstrap returns is a valid configuration: it satisfies every constraint of the
    validator also after credentials and catalog were applied, so building the
    authenticator from it never fails, and gives one exactly in OIDC mode, for the
    configured issuer and audience. *)
Theorem booted_config_is_valid s i b :
  build_runtime s i = Ok b ->
  config_ok urlsplit (resolved b) /\
  (construct "OidcJwtAuthenticator" (opt_or (text (resolved b) "auth_issuer") "") = None ->
   build_authenticator (resolved b) =
     Ok (if String.eqb (mode (resolved b) "auth") "oidc"
         then Some (opt_or (text (resolved b) "auth_issuer") "", opt_or (text (resolved b) "auth_audience") "") else None)).
Proof.
  intros H. apply build_runtime_inv in H as (x & t & Hc & _). apply resolved_valid in Hc. split; [done|].
  destruct Hc as [_ _ _ _ _ _ _ _ Hau Hoi]. intros Hcon. unfold build_authenticator.
  apply elem_of_cons in Hau as [Hau|Hau]; [by rewrite Hau|]. apply elem_of_cons in Hau as [Hau|Hau]; [by rewrite Hau|].
  apply list_elem_of_singleton in Hau. destruct (Hoi Hau) as [Hi Ha]. rewrite Hau. cbn [memb String.eqb].
  change (memb "oidc" [""; "none"]) with false. change (String.eqb "oidc" "oidc") with true. cbn iota. rewrite Hi, Ha. cbn [negb orb]. by rewrite Hcon.
Qed.
End bootstrap.

(** ** On concrete input *)

Definition demo_spec : Definitions.MicroAgentSpec :=
  {| Definitions.behavior := {| Definitions.instructions := "help"; Definitions.input_contract := []; Definitions.output_contract := [] |};
     Definitions.dependencies :=
       {| Definitions.model := Some {| Definitions.model_ref := "m"; Definitions.model_id := None; Definitions.provider := Some "fake";
            Definitions.model_endpoint := None; Definitions.model_credential_ref := Some "MODEL_KEY"; Definitions.generation := [];
            Definitions.model_timeout_seconds := None |};
          Definitions.tools := [{| Definitions.tool_name := "echo"; Definitions.tool_description := None; Definitions.source := Some "native";
            Definitions.tool_timeout_seconds := None; Definitions.side_effect := Definitions.read_only |}];
          Definitions.mcp_servers := []; Definitions.skills := []; Definitions.knowledge := []; Definitions.memory := None;
          Definitions.session := {| Definitions.persistence := "sqlite"; Definitions.session_ttl_seconds := Some 60%Z |} |};
     Definitions.runtime :=
       {| Definitions.timeout_seconds := None; Definitions.max_iterations := None; Definitions.max_concurrency := None;
          Definitions.shutdown_timeout_seconds := None; Definitions.concurrency_policy := Definitions.WAIT;
          Definitions.error_policy := Definitions.FAIL; Definitions.retry_max_attempts := 0; Definitions.retry_backoff_seconds := 0;
          Definitions.retry_jitter_seconds := 0; Definitions.retry_budget_seconds := None; Definitions.circuit_breaker_failures := None;
          Definitions.circuit_breaker_cooldown_seconds := None; Definitions.capabilities := [] |};
     Definitions.a2a := {| Definitions.a2a_enabled := false; Definitions.a2a_endpoint := None; Definitions.protocol_version := None |};
     Definitions.security := {| Definitions.credential_refs := ["MODEL_KEY"]; Definitions.identity_requirements := []; Definitions.policy_refs := [] |} |}.

Definition demo_injected : injected :=
  {| injected_policy := None; policy_resolver := None; mcp_injected := false; knowledge_injected := false; exchange_injected := false;
     approvals_injected := false; injected_catalog := None; injected_environment := None |}.

#[local] Existing Instance Credentials.static_credentials.
Definition demo_credentials : Credentials.StaticCredentialProvider := {| Credentials.values := [("MODEL_KEY", "k")] |}.
Definition demo_variables (k : string) : option string := dget k [("MICRO_AGENT_SESSION_ENDPOINT", "state.db")].

Definition demo_boot (env : string -> option string) (s : Definitions.MicroAgentSpec) (i : injected) : result boot_error RuntimeBootstrap :=
  build_runtime demo_urlsplit demo_float env demo_credentials (fun _ _ => None) (fun _ => true) (Ok [])
    (fun _ _ _ => None) (fun _ _ _ => Policy.HttpFailure) s i.

Definition booted (r : result boot_error RuntimeBootstrap) : option RuntimeBootstrap := match r with Ok b => Some b | Err _ => None end.

Lemma bootstrap_honours_definition_witness :
  exists b, booted (demo_boot demo_variables demo_spec demo_injected) = Some b /\
            session_provider (runtime b) = Some (SqliteSessions "state.db" (Some 60%Z)) /\
            honours demo_credentials demo_spec (runtime b).
Proof.
  destruct (demo_boot demo_variables demo_spec demo_injected) as [b|] eqn:E; [|vm_compute in E; discriminate].
  exists b. split; [reflexivity|]. split; [vm_compute in E; by injection E as <-|].
  exact (bootstrap_honours_definition demo_urlsplit demo_float demo_variables demo_credentials (fun _ _ => None) (fun _ => true) (Ok [])
    (fun _ _ _ => None) (fun _ _ _ => Policy.HttpFailure) demo_spec demo_injected b E).
Defined.

Lemma booted_config_is_valid_witness :
  exists b, booted (demo_boot demo_variables demo_spec demo_injected) = Some b /\ config_ok demo_urlsplit (resolved b).
Proof.
  destruct (demo_boot demo_variables demo_spec demo_injected) as [b|] eqn:E; [|vm_compute in E; discriminate].
  exists b. split; [reflexivity|].
  exact (proj1 (booted_config_is_valid demo_urlsplit demo_float demo_variables demo_credentials (fun _ _ => None) (fun _ => true) (Ok [])
    (fun _ _ _ => None) (fun _ _ _ => Policy.HttpFailure) demo_spec demo_injected b E)).
Defined.

(** An API key reference of the deployment that resolves to nothing goes unnoticed,
    where each of the other three references stops the bootstrap. *)
Definition with_secret (r : SecretRef) (policy_token : bool) : injected :=
  {| injected_policy := None; policy_resolver := None; mcp_injected := false; knowledge_injected := false; exchange_injected := false;
     approvals_injected := false; injected_catalog := None;
     injected_environment := Some (Configured
       {| settings := []; mcp_endpoints := []; cors_origins := []; extra := [];
          model_api_key_ref := if policy_token then None else Some r; token_exchange_token_ref := None; model_catalog_token_ref := None;
          policy_store_token_ref := if policy_token then Some r else None |}) |}.
Definition keyless_spec : Definitions.MicroAgentSpec :=
  {| Definitions.behavior := Definitions.behavior demo_spec;
     Definitions.dependencies :=
       {| Definitions.model := Some {| Definitions.model_ref := "m"; Definitions.model_id := None; Definitions.provider := Some "fake";
            Definitions.model_endpoint := None; Definitions.model_credential_ref := None; Definitions.generation := [];
            Definitions.model_timeout_seconds := None |};
          Definitions.tools := []; Definitions.mcp_servers := []; Definitions.skills := []; Definitions.knowledge := [];
          Definitions.memory := None; Definitions.session := {| Definitions.persistence := "none"; Definitions.session_ttl_seconds := None |} |};
     Definitions.runtime := Definitions.runtime demo_spec; Definitions.a2a := Definitions.a2a demo_spec;
     Definitions.security := {| Definitions.credential_refs := []; Definitions.identity_requirements := []; Definitions.policy_refs := [] |} |}.

Example unresolved_api_key_is_silent :
  let missing := {| secret_name := "NOWHERE"; secret_source := None |} in
  (exists b, demo_boot (fun _ => None) keyless_spec (with_secret missing false) = Ok b /\ getattr (resolved b) "model_api_key" = Unset) /\
  demo_boot (fun _ => None) keyless_spec (with_secret missing true) =
    Err (BootstrapError "Required policy-store credential 'NOWHERE' is not available").
Proof. split; [eexists; split; vm_compute; reflexivity | vm_compute; reflexivity]. Qed.

End Bootstrap.
