(* ===== verification/Redaction.v ===== *)
(** * Redaction, the structured logger and the audit sinks

    [redact_mapping] and [StructuredLogger] of [observability/telemetry.py],
    and [observability/audit.py].  Values are JSON values; [str(value)] and
    [json.dumps] of another object are outside the model.  The lines that
    reach the log stream and the audit stream are kept as the values they
    print. *)

From Stdlib Require Import Ascii Lqa.
From S2P Require Import Prelude Json Tables Config.
Local Open Scope string_scope.

Module Redaction.

(** ** [redact_mapping] *)

(** [_SENSITIVE_KEY_PATTERN]: the words it looks for, in any case. *)
Definition sensitive_words : list string :=
  ["password"; "passwd"; "secret"; "token"; "apikey"; "api_key"; "api-key"; "authorization"; "credential"; "cookie"].
Definition sensitive (k : string) : bool := existsb (fun w => str_contains w (py_lower k)) sensitive_words.
Arguments sensitive : simpl never.

Definition redacted : string := "[REDACTED]".

Fixpoint redact (known : list string) (j : json) : json :=
  match j with
  | JStr s => JStr (if memb s known then redacted else s)
  | JList l => JList (redact known <$> l)
  | JObj d => JObj ((fun kv => (kv.1, if sensitive kv.1 then JStr redacted else redact known kv.2)) <$> d)
  | _ => j
  end.

(** On the fields of a record. *)
Definition redact_fields (known : list string) (d : list (string * json)) : list (string * json) :=
  (fun kv => (kv.1, if sensitive kv.1 then JStr redacted else redact known kv.2)) <$> d.

(** *** What a reader of the result finds at a place of it *)

Inductive step : Type := Key (k : string) | Index (i : nat).

Definition enter (s : step) (j : json) : option json :=
  match s, j with
  | Key k, JObj d => dget k d
  | Index i, JList l => l !! i
  | _, _ => None
  end.

Fixpoint at_path (p : list step) (j : json) : option json :=
  match p with [] => Some j | s :: p => enter s j ≫= at_path p end.

(** Neither a list nor an object. *)
Definition scalar (j : json) : bool := match j with JList _ | JObj _ => false | _ => true end.
Definition sensitive_step (s : step) : bool := match s with Key k => sensitive k | Index _ => false end.
(** No key on the way is sensitive. *)
Definition exposed (p : list step) : bool := forallb (fun s => negb (sensitive_step s)) p.
Definition secret_value (known : list string) (v : json) : bool := match v with JStr s => memb s known | _ => false end.

(** The place holds something that must not be shown: what a sensitive key
    names, or a secret. *)
Definition hidden (known : list string) (j : json) (p : list step) : Prop :=
  (exists p' s, p = (p' ++ [s])%list /\ exposed p' = true /\ sensitive_step s = true /\ is_Some (at_path p j)) \/
  (exposed p = true /\ exists v, at_path p j = Some v /\ secret_value known v = true).

Lemma dget_redact_fields known k d :
  dget k (redact_fields known d) = (fun v => if sensitive k then JStr redacted else redact known v) <$> dget k d.
Proof.
  induction d as [|[k' v] d IH]; [done|]. cbn. destruct (decide (k = k')) as [->|]; [done | exact IH].
Qed.

Lemma enter_redact known s j :
  enter s (redact known j) = (fun v => if sensitive_step s then JStr redacted else redact known v) <$> enter s j.
Proof.
  destruct s as [k|i], j; cbn; try done.
  - apply dget_redact_fields.
  - by rewrite list_lookup_fmap.
Qed.

Lemma redact_scalar known j v :
  scalar v = true -> redact known j = v ->
  scalar j = true /\ (v = j /\ secret_value known j = false \/ v = JStr redacted /\ secret_value known j = true).
Proof. destruct j as [| | | |s| |]; cbn; intros Hs <-; try done; auto. destruct (memb s known); auto. Qed.

Lemma redact_shown known v : scalar v = true -> secret_value known v = false -> redact known v = v.
Proof. destruct v as [| | | |s| |]; cbn; intros Hs Hk; try done. by rewrite Hk. Qed.
Lemma redact_secret known v : secret_value known v = true -> redact known v = JStr redacted.
Proof. destruct v as [| | | |s| |]; cbn; intros Hk; try done. by rewrite Hk. Qed.

Lemma at_path_scalar p j : scalar j = true -> p <> [] -> at_path p j = None.
Proof. destruct p as [|[k|i] p]; [done|..]; destruct j; cbn; try done. Qed.

Lemma hidden_nil known j : hidden known j [] <-> secret_value known j = true.
Proof.
  split.
  - intros [(p' & s & Hp & _)|(_ & v & [= <-] & Hv)]; [by destruct p' | done].
  - intros Hs. right. split; [done|]. by exists j.
Qed.

Lemma hidden_cons known j s p :
  hidden known j (s :: p) <->
  exists j', enter s j = Some j' /\ (if sensitive_step s then p = [] else hidden known j' p).
Proof.
  unfold hidden. cbn [exposed forallb at_path]. split.
  - intros [(p' & s' & Hp & He & Hs & v & Hv)|(He & v & Hv & Hk)].
    + destruct (enter s j) as [j'|] eqn:Hj; [|done]. exists j'. split; [done|].
      destruct p' as [|s0 p']; injection Hp as -> ->; [by rewrite Hs|].
      cbn [exposed forallb] in He. apply andb_prop in He as [He0 He]. apply negb_true_iff in He0. rewrite He0. left.
      exists p', s'. split_and!; [done..|]. by exists v.
    + apply andb_prop in He as [He0 He]. apply negb_true_iff in He0. rewrite He0.
      destruct (enter s j) as [j'|]; [|done]. exists j'. split; [done|]. right. split; [done|]. by exists v.
  - intros (j' & Hj & H). rewrite Hj. destruct (sensitive_step s) eqn:Hs.
    + subst p. left. exists [], s. split_and!; [done..|]. by exists j'.
    + destruct H as [(p' & s' & -> & He & Hs' & Hv)|(He & v & Hv & Hk)].
      * left. exists (s :: p'), s'. split_and!; [done| |done..]. cbn [exposed forallb]. by rewrite Hs.
      * right. split; [exact He|]. by exists v.
Qed.

(** C22: what redaction shows is exact: a scalar stands at a place of the
    redacted value if and only if it stood there, reached through no sensitive
    key, and is not a known secret, or it is the mark ["[REDACTED]"] and the place
    is one that must be hidden: the value of a sensitive key, at any depth and
    whatever its shape, or a known secret. *)
Theorem redaction_exact known j p v :
  scalar v = true ->
  at_path p (redact known j) = Some v <->
  (exposed p = true /\ at_path p j = Some v /\ secret_value known v = false) \/
  (v = JStr redacted /\ hidden known j p).
Proof.
  intros Hv. revert j. induction p as [|s p IH]; intros j.
  - rewrite hidden_nil. cbn. split.
    + intros [= Hr]. apply redact_scalar in Hr as (_ & [[-> Hs]|[-> Hs]]); [left | right | done]; done.
    + intros [(_ & [= ->] & Hs)|(-> & Hs)]; f_equal; [by apply redact_shown | by apply redact_secret].
  - rewrite hidden_cons. cbn [at_path exposed forallb]. rewrite enter_redact.
    destruct (enter s j) as [j'|] eqn:Hj; cbn.
    2:{ split; [done|]. intros [(_ & ? & _)|(_ & ? & ? & _)]; done. }
    destruct (sensitive_step s) eqn:Hs; cbn.
    + split.
      * intros Hp. right. destruct p as [|s' p]; [|by rewrite at_path_scalar in Hp]. injection Hp as <-. split; [done|]. by exists j'.
      * intros [(? & _)|(-> & ? & _ & ->)]; done.
    + rewrite IH. split; (intros [H|(-> & H)]; [by left | right; split; [done|]]).
      * by exists j'.
      * by destruct H as (? & [= <-] & ?).
Qed.

(** *** Idempotence *)

Lemma redact_idemp known j : redact known (redact known j) = redact known j.
Proof.
  assert (Hmark : forall k, (if memb redacted k then redacted else redacted) = redacted) by (intros k; by destruct (memb _ _)).
  induction j as [| | | |s|l Hl|d Hd] using json_ind'; cbn; try done.
  - destruct (memb s known) eqn:E; by rewrite ?E, ?Hmark.
  - f_equal. rewrite <-list_fmap_compose. apply list_fmap_ext. intros i x Hx. cbn. rewrite Forall_forall in Hl.
    apply Hl. by apply list_elem_of_lookup_2 in Hx.
  - f_equal. rewrite <-list_fmap_compose. apply list_fmap_ext. intros i [k x] Hx. unfold compose; cbn [fst snd]. destruct (sensitive k); [done|].
    f_equal. rewrite Forall_forall in Hd. apply (Hd (k, x)). by apply list_elem_of_lookup_2 in Hx.
Qed.
(** ** [StructuredLogger] *)

Definition level_numbers : list (string * Z) :=
  [("CRITICAL", 50); ("FATAL", 50); ("ERROR", 40); ("WARNING", 30); ("WARN", 30); ("INFO", 20); ("DEBUG", 10); ("NOTSET", 0)]%Z.

Inductive call_error : Type := TypeErr | ValueErr (msg : string) | OverflowErr.

Section logger.
Context (root_level : Z).

(** [getattr(logging, level.upper(), logging.INFO)], among the level names. *)
Definition level_number (level : string) : Z := default 20%Z (dget (Config.py_upper level) level_numbers).

Record StructuredLogger : Type := {
  logger_level : Z;                              (** of [logging.getLogger(name)] *)
  log_context : list (string * json);
  known_secrets : list string;
  lines : list (Z * json)                        (** what was emitted, oldest first *)
}.

Definition new_logger : StructuredLogger := {| logger_level := 0; log_context := []; known_secrets := []; lines := [] |}.

Definition set_context (kw : list (string * json)) (l : StructuredLogger) : StructuredLogger :=
  {| logger_level := logger_level l; log_context := foldl (fun d kv => dset kv.1 kv.2 d) (log_context l) kw;
     known_secrets := known_secrets l; lines := lines l |}.
Definition set_level (level : string) (l : StructuredLogger) : StructuredLogger :=
  {| logger_level := level_number level; log_context := log_context l; known_secrets := known_secrets l; lines := lines l |}.
Definition register_secret (value : string) (l : StructuredLogger) : StructuredLogger :=
  if str_truthy value && negb (memb value (known_secrets l)) then
    {| logger_level := logger_level l; log_context := log_context l; known_secrets := value :: known_secrets l;
       lines := lines l |}
  else l.

(** [isEnabledFor]: a logger without a level of its own asks the root logger. *)
Definition enabled (l : StructuredLogger) (n : Z) : bool :=
  Z.leb (if Z.eqb (logger_level l) 0 then root_level else logger_level l) n.

Definition log_entry (level message : string) (kw : list (string * json)) (l : StructuredLogger) : json :=
  JObj (dict_of ([("level", JStr level); ("message", JStr message)] ++ log_context l ++ kw)%list).

(** [info], [warning], [error], [debug]: [level] and [message] are parameters of
    the methods, and cannot be given again. *)
Definition log (level message : string) (kw : list (string * json)) (l : StructuredLogger)
  : result call_error unit * StructuredLogger :=
  if dmem "level" kw || dmem "message" kw || dmem "self" kw then (Err TypeErr, l)
  else
    let entry := redact (known_secrets l) (log_entry level message kw l) in
    let n := level_number level in
    (Ok tt, if enabled l n then
              {| logger_level := logger_level l; log_context := log_context l; known_secrets := known_secrets l;
                 lines := (lines l ++ [(n, entry)])%list |}
            else l).

Inductive logger_call : Type :=
  | SetContext (kw : list (string * json))
  | SetLevel (level : string)
  | RegisterSecret (value : string)
  | Log (level message : string) (kw : list (string * json)).

Definition logger_step (l : StructuredLogger) (c : logger_call) : StructuredLogger :=
  match c with
  | SetContext kw => set_context kw l
  | SetLevel level => set_level level l
  | RegisterSecret v => register_secret v l
  | Log level message kw => (log level message kw l).2
  end.
Definition logger_run (l : StructuredLogger) (calls : list logger_call) : StructuredLogger := foldl logger_step l calls.

(** A line that shows no secret of [known] and nothing under a sensitive key. *)
Definition shows_nothing (known : list string) (j : json) : Prop :=
  forall p v, scalar v = true -> at_path p j = Some v -> v = JStr redacted \/ exposed p = true /\ secret_value known v = false.

Lemma redact_shows_nothing known known' j : known ⊆ known' -> shows_nothing known (redact known' j).
Proof.
  intros Hk p v Hv Hp. apply redaction_exact in Hp as [(He & _ & Hs)|[-> _]]; [|by left|done].
  right. split; [done|]. destruct v as [| | | |s| |]; try done. cbn in Hs |- *. apply memb_false in Hs. apply memb_false. set_solver.
Qed.

Lemma logger_step_shows l c :
  known_secrets l ⊆ known_secrets (logger_step l c) /\
  exists new, lines (logger_step l c) = (lines l ++ new)%list /\ Forall (fun e => shows_nothing (known_secrets l) e.2) new.
Proof.
  assert (Hsame : forall l', known_secrets l' = known_secrets l -> lines l' = lines l ->
    known_secrets l ⊆ known_secrets l' /\
    exists new, lines l' = (lines l ++ new)%list /\ Forall (fun e => shows_nothing (known_secrets l) e.2) new).
  { intros l' -> ->. split; [done|]. exists []. by rewrite app_nil_r. }
  destruct c as [kw|level|v|level message kw]; cbn [logger_step]; [by apply Hsame..| |].
  - unfold register_secret. destruct (_ && _); [|by apply Hsame]. cbn. split; [set_solver|]. exists []. by rewrite app_nil_r.
  - unfold log. destruct (_ || _ || _); [by apply Hsame|]. cbn [snd]. destruct (enabled _ _); [|by apply Hsame].
    cbn [known_secrets lines]. split; [done|]. eexists. split; [done|]. constructor; [|done]. by apply redact_shows_nothing.
Qed.

(** once a secret is registered, no line logged from then on shows it as
    a value, in the message, the fields or the logger's context, and no line
    ever shows what a sensitive key names. *)
Theorem logs_show_no_secret l calls :
  exists new, lines (logger_run l calls) = (lines l ++ new)%list /\ Forall (fun e => shows_nothing (known_secrets l) e.2) new.
Proof.
  revert l. induction calls as [|c calls IH]; intros l; [exists []; by rewrite app_nil_r|].
  destruct (logger_step_shows l c) as (Hk & new & Hn & Hf). destruct (IH (logger_step l c)) as (new' & Hn' & Hf').
  exists (new ++ new')%list. cbn [logger_run foldl]. unfold logger_run in Hn'. rewrite Hn', Hn, app_assoc. split; [done|].
  apply Forall_app. split; [done|]. eapply Forall_impl; [exact Hf'|]. intros e He p v Hv Hp.
  destruct (He p v Hv Hp) as [|[Hx Hs]]; [by left | right; split; [done|]].
  destruct v as [| | | |s| |]; try done. cbn in Hs |- *. apply memb_false in Hs. apply memb_false. set_solver.
Qed.

End logger.

(** ** Audit sinks *)

Record AuditEvent : Type := { at_ : Q; event : string; fields : list (string * json) }.

(** [record(self, event, **fields)]: a field cannot be called [event]. *)
Definition misnamed (e : AuditEvent) : bool := dmem "event" (fields e) || dmem "self" (fields e).

(** What an audit sink promises: recording an event adds to what is stored
    at most an entry that shows the redacted fields, and stores nothing else. *)
Class AuditSink (S : Type) := {
  record : AuditEvent -> S -> result call_error unit * S;
  stored : S -> list (list (string * json));
  record_redacts e s d : d ∈ stored (record e s).2 -> d ∈ stored s \/ d = redact_fields [] (fields e)
}.

(** *** [JsonlAuditSink], [FileAuditSink] *)

Record JsonlAuditSink : Type := { stream : list (Q * string * list (string * json)) }.

Definition jsonl_record (e : AuditEvent) (s : JsonlAuditSink) : result call_error unit * JsonlAuditSink :=
  if misnamed e then (Err TypeErr, s)
  else (Ok tt, {| stream := (stream s ++ [(round_to 1000 (at_ e), event e, redact_fields [] (fields e))])%list |}).

(** The line printed. *)
Definition jsonl_line (e : Q * string * list (string * json)) : json :=
  JObj (dict_of ([("ts", JFloat e.1.1); ("event", JStr e.1.2)] ++ e.2)%list).

(** *** [NullAuditSink] *)

Definition null_record (e : AuditEvent) (s : unit) : result call_error unit * unit :=
  if misnamed e then (Err TypeErr, s) else (Ok tt, s).

(** *** [SqliteAuditSink] *)

Record audit_row : Type := { row_timestamp : Q; row_event : string; row_tenant : option string; fields_json : string }.

Record SqliteAuditSink : Type := { retention_seconds : Q; audit_events : table audit_row }.

Section sqlite.
Context (py_str : json -> string).

Definition new_sqlite (retention : Q) : result call_error SqliteAuditSink :=
  if (retention <=? 0)%clock then Err (ValueErr "retention_seconds must be greater than zero")
  else Ok {| retention_seconds := retention; audit_events := empty_table |}.

Definition tenant_field (d : list (string * json)) : option string :=
  match dget "tenant_id" d with None | Some JNull => None | Some j => Some (py_text py_str j) end.

Definition row_of (e : AuditEvent) : audit_row :=
  let d := redact_fields [] (fields e) in
  {| row_timestamp := at_ e; row_event := event e; row_tenant := tenant_field d; fields_json := json_text (JObj d) |}.

Definition sqlite_record (e : AuditEvent) (s : SqliteAuditSink) : result call_error unit * SqliteAuditSink :=
  if misnamed e then (Err TypeErr, s)
  else (Ok tt, {| retention_seconds := retention_seconds s;
                  audit_events := expire row_timestamp (at_ e - retention_seconds s) (insert_row (audit_events s) (row_of e)) |}).

(** [json.loads(row[3])], of a row this class wrote. *)
Definition row_fields (r : audit_row) : list (string * json) :=
  match json_of_text (fields_json r) with Some (JObj d) => d | _ => [] end.

Definition read_row (r : audit_row) : json :=
  JObj (dict_of ([("ts", JFloat (row_timestamp r)); ("event", JStr (row_event r));
                  ("tenant_id", from_option JStr JNull (row_tenant r))] ++ row_fields r)%list).

Definition tenant_is (tenant : option string) (r : audit_row) : bool :=
  match tenant with None => true | Some t => bool_decide (row_tenant r = Some t) end.

Definition events (s : SqliteAuditSink) (tenant : option string) (limit : Z) : result call_error (list json) :=
  if Z.ltb limit 1 then Err (ValueErr "limit must be greater than zero")
  else if Z.leb (2 ^ 63) limit then Err OverflowErr
  else Ok (read_row <$> take (Z.to_nat limit) (reverse (filterb (tenant_is tenant) (rows (audit_events s)).*2))).

(** *** The sinks keep the promise *)

#[export, program] Instance jsonl_sink : AuditSink JsonlAuditSink := {
  record := jsonl_record;
  stored s := (fun e => e.2) <$> stream s
}.
Next Obligation.
  intros e s d. unfold jsonl_record. destruct (misnamed e); cbn -[redact_fields]; [by left|].
  rewrite fmap_app. cbn -[redact_fields]. rewrite elem_of_app, list_elem_of_singleton. tauto.
Qed.

#[export, program] Instance null_sink : AuditSink unit := { record := null_record; stored _ := [] }.
Next Obligation. intros e s d H. by apply not_elem_of_nil in H. Qed.

Lemma row_fields_of e : row_fields (row_of e) = redact_fields [] (fields e).
Proof. unfold row_fields. cbn -[redact_fields]. by rewrite json_of_text_text. Qed.

#[export, program] Instance sqlite_sink : AuditSink SqliteAuditSink := {
  record := sqlite_record;
  stored s := row_fields <$> (rows (audit_events s)).*2
}.
Next Obligation.
  intros e s d. unfold sqlite_record. destruct (misnamed e); cbn -[redact_fields row_of row_fields]; [by left|].
  rewrite !list_elem_of_fmap. intros (r & -> & H). apply list_elem_of_fmap in H as ([i r'] & -> & H).
  apply elem_of_filterb in H as [H _]. apply elem_of_app in H as [H|H].
  - left. exists r'. split; [done|]. apply list_elem_of_fmap. by exists (i, r').
  - apply list_elem_of_singleton in H as [= -> ->]. right. apply row_fields_of.
Qed.

End sqlite.

(** Events one after another. *)
Definition record_all {S} `{AuditSink S} (es : list AuditEvent) (s : S) : S := foldl (fun s e => (record e s).2) s es.

(** whatever the sink, what it holds beyond what it held before are
    redacted fields of the events recorded: no entry shows what a sensitive key
    names, at any depth. *)
Theorem audit_entries_redacted {S} `{AuditSink S} (es : list AuditEvent) (s : S) d :
  d ∈ stored (record_all es s) -> d ∈ stored s \/ exists e, e ∈ es /\ d = redact_fields [] (fields e) /\ shows_nothing [] (JObj d).
Proof.
  revert s. induction es as [|e es IH]; intros s; [by left|]. cbn. intros [Hd|(e' & He & Hd)]%IH.
  - apply record_redacts in Hd as [Hd| ->]; [by left|]. right. exists e. split_and!; [left | done|].
    exact (redact_shows_nothing [] [] (JObj (fields e)) ltac:(done)).
  - right. exists e'. split; [by right | done].
Qed.

(** *** The trail of the SQLite sink *)

Section trail.
Context (py_str : json -> string).

(** The events no later record found too old, itself included. *)
Fixpoint survivors (retention : Q) (es : list AuditEvent) : list AuditEvent :=
  match es with
  | [] => []
  | e :: es' =>
      if forallb (fun l => negb (at_ e <? at_ l - retention)%clock) es then e :: survivors retention es'
      else survivors retention es'
  end.

Lemma survivors_snoc retention es e :
  survivors retention (es ++ [e]) =
  filterb (fun x => negb (at_ x <? at_ e - retention)%clock) (survivors retention es ++ [e]).
Proof.
  induction es as [|x es IH]; cbn -[qltb]; [by rewrite andb_true_r|].
  rewrite forallb_app. cbn -[qltb]. rewrite andb_true_r, andb_assoc.
  destruct (_ && forallb _ es); cbn -[qltb]; rewrite IH; [|done]. by destruct (negb _).
Qed.

Definition in_sqlite : AuditSink SqliteAuditSink := sqlite_sink py_str.
#[local] Existing Instance in_sqlite.

Lemma record_all_snoc (es : list AuditEvent) e (s : SqliteAuditSink) :
  record_all (es ++ [e]) s = (record e (record_all es s)).2.
Proof. unfold record_all. by rewrite foldl_snoc. Qed.

Lemma record_all_retention (es : list AuditEvent) (s : SqliteAuditSink) :
  retention_seconds (record_all es s) = retention_seconds s.
Proof.
  induction es as [|e es IH] using rev_ind; [done|]. rewrite record_all_snoc. cbn. unfold sqlite_record. by destruct (misnamed e).
Qed.

Definition accepted (es : list AuditEvent) : list AuditEvent := filterb (fun e => negb (misnamed e)) es.

Lemma sqlite_rows es s :
  rows (audit_events s) = [] ->
  (rows (audit_events (record_all es s))).*2 = row_of py_str <$> survivors (retention_seconds s) (accepted es).
Proof.
  intros Hs. induction es as [|e es IH] using rev_ind; [by cbn; rewrite Hs|].
  rewrite record_all_snoc. unfold accepted in *. rewrite List.filter_app. cbn [List.filter record in_sqlite sqlite_sink]. unfold sqlite_record.
  destruct (misnamed e); cbn [negb snd]; [by rewrite app_nil_r|].
  rewrite survivors_snoc, record_all_retention. cbn [audit_events expire rows insert_row].
  rewrite <-(fmap_filterb snd (fun r => negb (row_timestamp r <? at_ e - retention_seconds s)%clock)).
  rewrite fmap_app, IH.
  rewrite <-(fmap_filterb (row_of py_str) (fun r => negb (row_timestamp r <? at_ e - retention_seconds s)%clock)).
  by rewrite fmap_app.
Qed.

(** the SQLite trail is exact: reading it after any events, whatever
    the clock does, gives the newest first of the events within the retention of
    every event recorded since, those of the tenant asked for, redacted,
    up to the limit. *)
Theorem audit_trail_exact es s tenant limit l :
  rows (audit_events s) = [] ->
  events (record_all es s) tenant limit = Ok l ->
  l = (fun e => read_row (row_of py_str e)) <$>
        take (Z.to_nat limit)
          (reverse (filterb (fun e => tenant_is tenant (row_of py_str e)) (survivors (retention_seconds s) (accepted es)))).
Proof.
  intros Hs. unfold events. rewrite (sqlite_rows _ _ Hs).
  destruct (Z.ltb limit 1); [done|]. destruct (Z.leb _ limit); [done|]. intros [= <-].
  by rewrite (fmap_filterb (row_of py_str) (tenant_is tenant)), <-fmap_reverse, <-fmap_take, <-list_fmap_compose.
Qed.

End trail.

(** ** Examples *)

(** A secret inside a longer text is logged as it is: only a value that is
    the secret is recognised. *)
Example embedded_secret_is_shown :
  let l := register_secret "hunter2" new_logger in
  lines (log 0 "INFO" "login with hunter2" [("note", JStr "hunter2"); ("max_tokens", JInt 5)] l).2 =
  [(20%Z, JObj [("level", JStr "INFO"); ("message", JStr "login with hunter2"); ("note", JStr redacted);
                ("max_tokens", JStr redacted)])].
Proof. vm_compute. reflexivity. Qed.

(** A field called [ts] replaces the time of the line. *)
Example field_ts_replaces_time :
  jsonl_line <$> stream (jsonl_record {| at_ := 7; event := "denied"; fields := [("ts", JInt 0)] |} {| stream := [] |}).2 =
  [JObj [("ts", JInt 0); ("event", JStr "denied")]].
Proof. vm_compute. reflexivity. Qed.

Definition demo_value : json :=
  JObj [("a", JList [JStr "s3"; JObj [("API_Key", JObj [("x", JInt 1)])]]); ("b", JStr "shown")].

Lemma redaction_exact_witness :
  at_path [Key "a"; Index 0] (redact ["s3"] demo_value) = Some (JStr redacted) /\
  at_path [Key "a"; Index 1; Key "API_Key"] (redact ["s3"] demo_value) = Some (JStr redacted) /\
  at_path [Key "b"] (redact ["s3"] demo_value) = Some (JStr "shown").
Proof.
  split_and!.
  - apply (redaction_exact ["s3"] demo_value [Key "a"; Index 0] (JStr redacted) eq_refl). right. split; [done|].
    right. split; [done|]. by exists (JStr "s3").
  - apply (redaction_exact ["s3"] demo_value [Key "a"; Index 1; Key "API_Key"] (JStr redacted) eq_refl). right. split; [done|].
    left. exists [Key "a"; Index 1], (Key "API_Key"). split_and!; [done|vm_compute; reflexivity..|]. by eexists.
  - apply (redaction_exact ["s3"] demo_value [Key "b"] (JStr "shown") eq_refl). left. split_and!; vm_compute; reflexivity.
Defined.

Definition demo_events : list AuditEvent :=
  [{| at_ := 1; event := "old"; fields := [] |};
   {| at_ := 8; event := "denied"; fields := [("tenant_id", JStr "t"); ("token", JStr "x")] |};
   {| at_ := 9; event := "login"; fields := [("tenant_id", JStr "u")] |};
   {| at_ := 12; event := "allowed"; fields := [("tenant_id", JStr "t")] |}].

Lemma audit_entries_redacted_witness :
  exists e, e ∈ demo_events /\ [("tenant_id", JStr "t"); ("token", JStr redacted)] = redact_fields [] (fields e) /\
            shows_nothing [] (JObj [("tenant_id", JStr "t"); ("token", JStr redacted)]).
Proof.
  destruct (audit_entries_redacted demo_events {| stream := [] |} [("tenant_id", JStr "t"); ("token", JStr redacted)]) as [H|H];
    [|by apply not_elem_of_nil in H|exact H].
  refine (bool_decide_eq_true_1 _ _). vm_compute. reflexivity.
Defined.

Definition demo_sink : SqliteAuditSink := {| retention_seconds := 5; audit_events := empty_table |}.

Lemma audit_trail_exact_witness :
  exists l, events (record_all (H:=sqlite_sink (fun _ => "")) demo_events demo_sink) (Some "t") 10 = Ok l /\
            (fun j => at_path [Key "event"] j) <$> l = [Some (JStr "allowed"); Some (JStr "denied")].
Proof.
  destruct (events (record_all (H:=sqlite_sink (fun _ => "")) demo_events demo_sink) (Some "t") 10) as [l|e] eqn:E;
    [|vm_compute in E; discriminate].
  exists l. split; [done|]. rewrite (audit_trail_exact (fun _ => "") demo_events demo_sink (Some "t") 10 l eq_refl E).
  vm_compute. reflexivity.
Defined.

End Redaction.
