(* ===== verification/Metrics.v ===== *)
(** * Metrics: the in-memory collector and its Prometheus exposition

    [MetricsCollector] of [observability/telemetry.py].  Values are Python
    floats ([Config.pyfloat]); their addition, which rounds, and the text of a
    number are parameters.  Bucket bounds are finite numbers. *)

From Stdlib Require Import Ascii Lqa.
From S2P Require Import Prelude Json Urls Config.
Import Urls.
Local Open Scope string_scope.

Module Metrics.
Import Config(pyfloat, Finite, Infinite, NaN).

Definition labels : Type := list (string * string).

Record MetricPoint : Type := { point_name : string; value : pyfloat; point_labels : labels; timestamp : Q }.

Record Histogram : Type := { buckets : list (Q * Z); count : Z; total : pyfloat }.

(** A series: a name and the sorted labels. *)
Definition key : Type := string * labels.

Record MetricsCollector : Type := { metrics : list MetricPoint; histograms : list (key * Histogram) }.

Definition new_collector : MetricsCollector := {| metrics := []; histograms := [] |}.

Inductive metric_error : Type := ValueError (msg : string).

(** [_DEFAULT_HISTOGRAM_BUCKETS] *)
Definition default_buckets : list Q := [1; 5; 10; 25; 50; 100; 250; 500; 1000; 2500; 5000; 10000]%Q.

(** [sorted(set(...))]: equal bounds are one. *)
Fixpoint add_bound (b : Q) (l : list Q) : list Q :=
  match l with
  | [] => [b]
  | c :: l' => if (b <? c)%clock then b :: l else if Qeq_bool b c then l else c :: add_bound b l'
  end.
Definition bounds (l : list Q) : list Q := foldl (fun acc b => add_bound b acc) [] l.

(** [normalized_buckets[-1] <= 0], or none at all. *)
Definition bounds_ok (l : list Q) : bool := match last l with Some b => (0 <? b)%clock | None => false end.

(** [tuple(sorted(labels.items()))] *)
Definition label_key (l : labels) : labels := sort_by str2_leb l.

Section collector.
Context (fadd : pyfloat -> pyfloat -> pyfloat).

Definition record (now : Q) (name : string) (v : pyfloat) (l : labels) (c : MetricsCollector) : MetricsCollector :=
  {| metrics := (metrics c ++ [{| point_name := name; value := v; point_labels := l; timestamp := now |}])%list;
     histograms := histograms c |}.
Definition increment (now : Q) (name : string) (l : labels) (c : MetricsCollector) : MetricsCollector :=
  record now name (Finite 1) l c.

Definition get_metrics (c : MetricsCollector) (name : option string) : list MetricPoint :=
  match name with None => metrics c | Some n => filterb (fun m => String.eqb (point_name m) n) (metrics c) end.

Definition fresh (bs : list Q) : Histogram := {| buckets := (fun b => (b, 0%Z)) <$> bs; count := 0; total := Finite 0 |}.

Definition observe (q : Q) (h : Histogram) : Histogram :=
  {| buckets := (fun e => if (q <=? e.1)%clock then (e.1, e.2 + 1)%Z else e) <$> buckets h;
     count := (count h + 1)%Z; total := fadd (total h) (Finite q) |}.

Definition observe_histogram (name : string) (v : pyfloat) (l : labels) (bs : list Q) (c : MetricsCollector)
  : result metric_error unit * MetricsCollector :=
  match v with
  | Finite q =>
      if (q <? 0)%clock then (Err (ValueError "histogram values must be finite and non-negative"), c)
      else if negb (bounds_ok (bounds bs)) then (Err (ValueError "histogram buckets must contain a positive value"), c)
      else
        let k := (name, label_key l) in
        let h := default (fresh (bounds bs)) (dget k (histograms c)) in
        (Ok tt, {| metrics := metrics c; histograms := dset k (observe q h) (histograms c) |})
  | _ => (Err (ValueError "histogram values must be finite and non-negative"), c)
  end.

Definition get_histogram (c : MetricsCollector) (name : string) (l : labels) : option Histogram :=
  dget (name, label_key l) (histograms c).

Definition clear (c : MetricsCollector) : MetricsCollector := new_collector.

(** ** Calls in a row *)

Inductive metric_call : Type :=
  | Record_ (now : Q) (name : string) (v : pyfloat) (l : labels)
  | Increment (now : Q) (name : string) (l : labels)
  | Observe (name : string) (v : pyfloat) (l : labels) (bs : list Q)
  | Clear.

Definition metric_step (c : MetricsCollector) (call : metric_call) : MetricsCollector :=
  match call with
  | Record_ now name v l => record now name v l c
  | Increment now name l => increment now name l c
  | Observe name v l bs => (observe_histogram name v l bs c).2
  | Clear => clear c
  end.
Definition metric_run (calls : list metric_call) : MetricsCollector := foldl metric_step new_collector calls.

(** ** What a histogram should say *)

(** The value and layout an accepted observation of the series brings. *)
Definition observation (k : key) (call : metric_call) : option (Q * list Q) :=
  match call with
  | Observe name (Finite q) l bs =>
      if (0 <=? q)%clock && bounds_ok (bounds bs) && bool_decide ((name, label_key l) = k) then Some (q, bounds bs) else None
  | _ => None
  end.

(** The observations of a series since the collector was last cleared. *)
Definition observations (k : key) (calls : list metric_call) : list (Q * list Q) :=
  foldl (fun acc call => match call with Clear => [] | _ => (acc ++ option_list (observation k call))%list end) [] calls.

Definition at_most (b : Q) (qs : list Q) : Z := Z.of_nat (length (filterb (fun q => (q <=? b)%clock) qs)).

(** The histogram of some values over the layout of the first. *)
Definition histogram_of (obs : list (Q * list Q)) : option Histogram :=
  match obs with
  | [] => None
  | (_, bs) :: _ =>
      Some {| buckets := (fun b => (b, at_most b obs.*1)) <$> bs; count := Z.of_nat (length obs);
              total := foldl fadd (Finite 0) (Finite <$> obs.*1) |}
  end.

Lemma histogram_of_snoc obs q bs :
  histogram_of (obs ++ [(q, bs)]) = Some (observe q (default (fresh bs) (histogram_of obs))).
Proof.
  assert (Hat : forall b l, at_most b (l ++ [q]) = if (q <=? b)%clock then (at_most b l + 1)%Z else at_most b l).
  { intros b l. unfold at_most. rewrite List.filter_app. cbn -[qleb]. rewrite length_app.
    destruct (q <=? b)%clock; cbn -[qleb]; lia. }
  destruct obs as [|[q0 b0] obs].
  - cbn -[qleb at_most]. f_equal. unfold observe, fresh. cbn -[qleb at_most]. f_equal.
    rewrite <-list_fmap_compose. apply list_fmap_ext. intros i b _. cbn -[qleb at_most]. pose proof (Hat b []) as Hb. cbn [app] in Hb. rewrite Hb.
    by destruct (q <=? b)%clock.
  - cbn -[qleb at_most]. unfold observe. cbn -[qleb at_most]. rewrite fmap_app, length_app. cbn -[qleb at_most]. f_equal. f_equal.
    + rewrite <-list_fmap_compose. apply list_fmap_ext. intros i b _. cbn -[qleb at_most].
      pose proof (Hat b (q0 :: obs.*1)) as Hb. cbn [app] in Hb. rewrite Hb. by destruct (q <=? b)%clock.
    + lia.
    + rewrite fmap_app, foldl_app. done.
Qed.

Lemma observation_other k name v l bs c :
  observation k (Observe name v l bs) = None ->
  dget k (histograms (observe_histogram name v l bs c).2) = dget k (histograms c).
Proof.
  cbn [observation]. destruct v as [q| |]; cbn [observe_histogram snd]; try done.
  destruct (q <? 0)%clock eqn:Eq; [done|]. destruct (bounds_ok _) eqn:Eb; cbn [negb snd histograms]; [|done].
  rewrite dget_dset. assert ((0 <=? q)%clock = true) as -> by clock_lra. cbn [andb]. case_bool_decide as Hk; [done|].
  intros _. destruct (decide _); [by subst k | done].
Qed.

Lemma observation_taken k name v l bs c q b :
  observation k (Observe name v l bs) = Some (q, b) ->
  dget k (histograms (observe_histogram name v l bs c).2) = Some (observe q (default (fresh b) (dget k (histograms c)))).
Proof.
  cbn [observation]. destruct v as [q'| |]; cbn [observe_histogram snd]; try done.
  destruct (0 <=? q')%clock eqn:Eq; [|done]. destruct (bounds_ok _) eqn:Eb; [|done]. cbn [andb].
  case_bool_decide as Hk; [|done]. intros [= -> ->]. assert ((q <? 0)%clock = false) as -> by clock_lra.
  cbn [negb snd histograms]. subst k. by rewrite dget_dset_eq.
Qed.

(** a histogram read back is exact, after any calls: each bucket counts
    the values observed since the collector was last cleared that are at most
    its bound, the count is their number and the sum adds them in order; the
    layout is the first observation's, rejected observations and other series
    count for nothing, and labels may come in any order. *)
Theorem histogram_exact calls name l l' :
  l' ≡ₚ l ->
  get_histogram (metric_run calls) name l' = histogram_of (observations (name, label_key l) calls).
Proof.
  intros Hp. assert (label_key l' = label_key l) as Hk.
  { apply sort_by_unique; [apply str2_leb_total | apply str2_leb_trans | | done]. intros x y _ _. apply str2_leb_antisym. }
  unfold get_histogram. rewrite Hk. set (k := (name, label_key l)). unfold metric_run, observations.
  induction calls as [|call calls IH] using rev_ind; [done|]. rewrite !foldl_snoc.
  set (c := foldl metric_step new_collector calls) in *. set (obs := foldl _ [] calls) in *.
  destruct call as [| |n v lb bs|]; cbn [metric_step]; [by cbn; rewrite app_nil_r..| |done]. cbv beta iota.
  destruct (observation k (Observe n v lb bs)) as [[q b]|] eqn:E.
  - rewrite (observation_taken _ _ _ _ _ _ _ _ E). change (option_list (Some (q, b))) with [(q, b)]. by rewrite histogram_of_snoc, <-IH.
  - rewrite (observation_other _ _ _ _ _ _ E). change (option_list (@None (Q * list Q))) with (@nil (Q * list Q)). by rewrite app_nil_r.
Qed.

(** ** The exposition *)

(** [_prometheus_name] *)
Definition between (a b : N) (c : ascii) : bool := N.leb a (N_of_ascii c) && N.leb (N_of_ascii c) b.
Definition is_alpha (c : ascii) : bool := between 65 90 c || between 97 122 c.
Definition name_char (c : ascii) : bool := is_alpha c || between 48 57 c || Ascii.eqb c ("_"%char) || Ascii.eqb c (":"%char).
Fixpoint name_chars (s : string) : string :=
  match s with EmptyString => EmptyString | String c s => String (if name_char c then c else "_"%char) (name_chars s) end.
Definition prometheus_name (s : string) : string :=
  match name_chars s with
  | EmptyString => "_"
  | String c r => if is_alpha c || Ascii.eqb c ("_"%char) then String c r else String ("_"%char) (String c r)
  end.

(** [s.replace(c, r)], and [_prometheus_escape] *)
Fixpoint replace_char (c : ascii) (r s : string) : string :=
  match s with EmptyString => EmptyString | String x s => (if Ascii.eqb x c then r else String x EmptyString) ++ replace_char c r s end.

Definition backslash : ascii := ascii_of_nat 92.
Definition newline : ascii := ascii_of_nat 10.
Definition dquote : ascii := ascii_of_nat 34.
Definition chars (l : list ascii) : string := String.string_of_list_ascii l.

Definition prometheus_escape (s : string) : string :=
  replace_char dquote (chars [backslash; dquote])
    (replace_char newline (chars [backslash; "n"%char]) (replace_char backslash (chars [backslash; backslash]) s)).

Context (format_value repr : Q -> string).

(** [_format_metric_value] *)
Definition format_metric_value (v : pyfloat) : string := match v with Finite q => format_value q | _ => "NaN" end.

Fixpoint lex_leb (a b : labels) : bool :=
  match a, b with
  | [], _ => true
  | _ :: _, [] => false
  | x :: a, y :: b => if bool_decide (x = y) then lex_leb a b else str2_leb x y
  end.
Definition key_leb (a b : key) : bool := if String.eqb a.1 b.1 then lex_leb a.2 b.2 else str_leb a.1 b.1.

Definition is_total (name : string) : bool := String.prefix (srev "_total") (srev name).
Definition safe_labels (l : labels) : labels := sort_by str2_leb ((fun e => (prometheus_name e.1, e.2)) <$> l).
Definition point_key (m : MetricPoint) : key := (prometheus_name (point_name m), safe_labels (point_labels m)).

Definition add_point (m : MetricPoint) (v : option pyfloat) : pyfloat :=
  if is_total (point_name m) then fadd (default (Finite 0) v) (value m) else value m.

Definition series (ms : list MetricPoint) : list (key * pyfloat) :=
  foldl (fun d m => dset (point_key m) (add_point m (dget (point_key m) d)) d) [] ms.

Definition point_kinds (ms : list MetricPoint) : list (string * string) :=
  foldl (fun d m => let n := (point_key m).1 in
           if is_total (point_name m) then dset n "counter" d else if dmem n d then d else dset n "gauge" d) [] ms.
Definition kinds (c : MetricsCollector) : list (string * string) :=
  foldl (fun d e => dset (prometheus_name e.1.1) "histogram" d) (point_kinds (metrics c)) (histograms c).

Definition bucket_mark : string := "bucket:".

(** The rows of one histogram. *)
Definition histogram_rows (e : key * Histogram) : list (key * string * pyfloat) :=
  let k := (prometheus_name e.1.1, safe_labels e.1.2) in
  let h := e.2 in
  (((fun b => (k, (bucket_mark ++ repr b.1)%string, Finite (inject_Z b.2))) <$> buckets h) ++
   [(k, (bucket_mark ++ "+Inf")%string, Finite (inject_Z (count h))); (k, "sum", total h); (k, "count", Finite (inject_Z (count h)))])%list.

Definition float_leb (a b : pyfloat) : bool :=
  match a, b with
  | Finite x, Finite y => (x <=? y)%clock
  | Infinite true, _ | _, Infinite false => true
  | _, _ => false
  end.
Definition row_leb (a b : key * string * pyfloat) : bool :=
  if bool_decide (a.1.1 = b.1.1) then if String.eqb a.1.2 b.1.2 then float_leb a.2 b.2 else str_leb a.1.2 b.1.2
  else key_leb a.1.1 b.1.1.

Inductive line : Type := TypeLine (name kind : string) | Sample (name : string) (l : labels) (v : string).

(** A sample, after the [TYPE] line of its name if that was not emitted yet. *)
Definition emit (name kind : string) (sample : line) (acc : list line * list string) : list line * list string :=
  if memb name acc.2 then ((acc.1 ++ [sample])%list, acc.2)
  else ((acc.1 ++ [TypeLine name kind; sample])%list, name :: acc.2).

Definition emit_point (c : MetricsCollector) (acc : list line * list string) (e : key * pyfloat) : list line * list string :=
  emit e.1.1 (default "gauge" (dget e.1.1 (kinds c))) (Sample e.1.1 e.1.2 (format_metric_value e.2)) acc.

Definition row_sample (e : key * string * pyfloat) : line :=
  let '(k, suffix, v) := e in
  if String.prefix bucket_mark suffix then
    Sample (k.1 ++ "_bucket") (("le", String.substring 7 (String.length suffix - 7) suffix) :: k.2) (format_metric_value v)
  else Sample (k.1 ++ "_" ++ suffix) k.2 (format_metric_value v).

Definition emit_row (acc : list line * list string) (e : key * string * pyfloat) : list line * list string :=
  emit e.1.1.1 "histogram" (row_sample e) acc.

Definition exposition (c : MetricsCollector) : list line :=
  (foldl emit_row
     (foldl (emit_point c) ([], []) (sort_by (fun a b => key_leb a.1 b.1) (series (metrics c))))
     (sort_by row_leb (histograms c ≫= histogram_rows))).1.

(** The lines, printed. *)
Definition print_label (e : string * string) : string :=
  e.1 ++ String "="%char (String dquote (prometheus_escape e.2 ++ String dquote EmptyString)).
Fixpoint print_labels (l : labels) : string :=
  match l with [] => EmptyString | [e] => print_label e | e :: l => print_label e ++ String ","%char (print_labels l) end.
Definition label_text (l : labels) : string := match l with [] => EmptyString | _ => String "{"%char (print_labels l ++ "}") end.
Definition print_line (x : line) : string :=
  match x with
  | TypeLine n k => "# TYPE " ++ n ++ String " "%char k
  | Sample n l v => n ++ label_text l ++ String " "%char v
  end.
Definition print_lines (l : list line) : string := foldr (fun x s => print_line x ++ String newline s) EmptyString l.

Definition prometheus_text (c : MetricsCollector) : string := print_lines (exposition c).

End collector.
Arguments name_char : simpl never.

(** ** Reading an exposition back *)

Definition unescape (c : ascii) : ascii := if Ascii.eqb c ("n"%char) then newline else c.

(** The text up to the closing quote, and what follows it. *)
Fixpoint read_quoted (s : string) : option (string * string) :=
  match s with
  | EmptyString => None
  | String c s =>
      if Ascii.eqb c dquote then Some (EmptyString, s)
      else if Ascii.eqb c backslash then
        match s with
        | String c s => '(v, r) ← read_quoted s; Some (String (unescape c) v, r)
        | EmptyString => None
        end
      else '(v, r) ← read_quoted s; Some (String c v, r)
  end.

Fixpoint read_name (s : string) : string * string :=
  match s with
  | EmptyString => (EmptyString, EmptyString)
  | String c s' => if name_char c then let '(n, r) := read_name s' in (String c n, r) else (EmptyString, s)
  end.

(** [after c s]: what follows the character the text must start with. *)
Definition after (c : ascii) (s : string) : option string :=
  match s with String c' s => if Ascii.eqb c' c then Some s else None | EmptyString => None end.

Fixpoint read_labels (fuel : nat) (s : string) : option (labels * string) :=
  match fuel with
  | O => None
  | S fuel =>
      let '(n, r) := read_name s in
      r ← after "="%char r; r ← after dquote r; '(v, r) ← read_quoted r;
      match r with
      | String c r =>
          if Ascii.eqb c ("}"%char) then Some ([(n, v)], r)
          else if Ascii.eqb c (","%char) then '(l, r) ← read_labels fuel r; Some ((n, v) :: l, r)
          else None
      | EmptyString => None
      end
  end.

Definition read_line (s : string) : option line :=
  if String.prefix "# TYPE " s then
    let '(n, r) := read_name (String.substring 7 (String.length s - 7) s) in
    k ← after " "%char r; Some (TypeLine n k)
  else
    let '(n, r) := read_name s in
    match after "{"%char r with
    | Some r => '(l, r) ← read_labels (String.length r) r; v ← after " "%char r; Some (Sample n l v)
    | None => v ← after " "%char r; Some (Sample n [] v)
    end.

(** The lines of a text that ends in a line break, or is empty. *)
Definition read_text (s : string) : option (list line) :=
  match reverse (py_split newline s) with EmptyString :: l => mapM read_line (reverse l) | _ => None end.

(** *** Names *)

Fixpoint all_chars (f : ascii -> bool) (s : string) : bool :=
  match s with EmptyString => true | String c s => f c && all_chars f s end.
Definition valid_name (s : string) : bool := str_truthy s && all_chars name_char s.

Lemma all_chars_app f s t : all_chars f (s ++ t) = all_chars f s && all_chars f t.
Proof. induction s as [|c s IH]; [done|]. rewrite string_app_cons. cbn [all_chars]. by rewrite IH, andb_assoc. Qed.

Lemma name_chars_ok s : all_chars name_char (name_chars s) = true.
Proof. induction s as [|c s IH]; [done|]. cbn. rewrite IH, andb_true_r. by destruct (name_char c) eqn:E. Qed.

Lemma prometheus_name_valid s : valid_name (prometheus_name s) = true.
Proof.
  unfold prometheus_name. pose proof (name_chars_ok s) as H. destruct (name_chars s) as [|c r]; [done|].
  destruct (is_alpha c || _); unfold valid_name; cbn in *; [exact H|exact H].
Qed.

Lemma valid_name_app s t : valid_name s = true -> all_chars name_char t = true -> valid_name (s ++ t) = true.
Proof.
  unfold valid_name. intros [Hs Hc]%andb_prop Ht. rewrite all_chars_app, Hc, Ht. by destruct s.
Qed.

Lemma read_name_ok n rest :
  all_chars name_char n = true -> match rest with String c _ => name_char c = false | EmptyString => True end ->
  read_name (n ++ rest) = (n, rest).
Proof.
  intros Hn Hr. induction n as [|c n IH]; [|rewrite string_app_cons]; cbn in *.
  - destruct rest as [|c rest]; [done|]. change (read_name (String c rest) = (EmptyString, String c rest)). cbn. by rewrite Hr.
  - apply andb_prop in Hn as [Hc Hn]. by rewrite Hc, IH.
Qed.

(** *** Escaping *)

Definition escape_char (c : ascii) : string :=
  if Ascii.eqb c backslash then chars [backslash; backslash]
  else if Ascii.eqb c newline then chars [backslash; "n"%char]
  else if Ascii.eqb c dquote then chars [backslash; dquote] else String c EmptyString.

Lemma replace_char_app c r s t : replace_char c r (s ++ t) = (replace_char c r s ++ replace_char c r t)%string.
Proof.
  induction s as [|x s IH]; [done|]. rewrite string_app_cons. cbn [replace_char]. by rewrite IH, text_app_assoc.
Qed.

(** The three passes are one. *)
Lemma prometheus_escape_cons c s : prometheus_escape (String c s) = (escape_char c ++ prometheus_escape s)%string.
Proof.
  unfold prometheus_escape. cbn [replace_char]. rewrite !replace_char_app. f_equal. unfold escape_char.
  destruct (Ascii.eqb c backslash) eqn:Eb; [by apply Ascii.eqb_eq in Eb as ->|]. cbn [replace_char].
  destruct (Ascii.eqb c newline) eqn:En; [by apply Ascii.eqb_eq in En as ->|].
  change (String c EmptyString ++ EmptyString)%string with (String c EmptyString). cbn [replace_char].
  destruct (Ascii.eqb c dquote) eqn:Ed; by cbn.
Qed.

Lemma chars2_app a b x : (chars [a; b] ++ x)%string = String a (String b x).
Proof. done. Qed.

Lemma read_quoted_ok v rest : read_quoted (prometheus_escape v ++ String dquote rest) = Some (v, rest).
Proof.
  induction v as [|c v IH]; [done|]. rewrite prometheus_escape_cons, <-text_app_assoc. unfold escape_char.
  destruct (Ascii.eqb c backslash) eqn:Eb; [apply Ascii.eqb_eq in Eb as ->; rewrite chars2_app; cbn; by rewrite IH|].
  destruct (Ascii.eqb c newline) eqn:En; [apply Ascii.eqb_eq in En as ->; rewrite chars2_app; cbn; by rewrite IH|].
  destruct (Ascii.eqb c dquote) eqn:Ed; [apply Ascii.eqb_eq in Ed as ->; rewrite chars2_app; cbn; by rewrite IH|].
  rewrite string_app_cons. cbn [read_quoted]. rewrite Ed, Eb. change (EmptyString ++ ?x)%string with x. by rewrite IH.
Qed.

Lemma escape_lacks_newline v : lacks newline (prometheus_escape v) = true.
Proof.
  induction v as [|c v IH]; [done|]. rewrite prometheus_escape_cons, lacks_app, IH, andb_true_r. unfold escape_char.
  destruct (Ascii.eqb c backslash); [done|]. destruct (Ascii.eqb c newline) eqn:E; [done|].
  destruct (Ascii.eqb c dquote); [done|]. cbn [lacks]. by rewrite E.
Qed.

(** *** Lines *)

Definition label_ok (e : string * string) : bool := valid_name e.1.
Definition line_ok (x : line) : bool :=
  match x with
  | TypeLine n k => valid_name n && lacks newline k
  | Sample n l v => valid_name n && forallb label_ok l && lacks newline v
  end.

Lemma all_chars_impl (f g : ascii -> bool) s : (forall c, f c = true -> g c = true) -> all_chars f s = true -> all_chars g s = true.
Proof. intros H. induction s as [|c s IH]; [done|]. cbn. intros [Hc Hs]%andb_prop. by rewrite (H c Hc), IH. Qed.

Lemma lacks_all_chars c s : lacks c s = all_chars (fun x => negb (Ascii.eqb x c)) s.
Proof. induction s as [|x s IH]; [done|]. cbn. by rewrite IH. Qed.

Lemma name_lacks c n : name_char c = false -> all_chars name_char n = true -> lacks c n = true.
Proof.
  intros Hc. rewrite lacks_all_chars. apply all_chars_impl. intros x Hx.
  destruct (Ascii.eqb_spec x c) as [->|]; [congruence | done].
Qed.

Lemma valid_name_chars n : valid_name n = true -> all_chars name_char n = true.
Proof. by intros [_ H]%andb_prop. Qed.

Lemma label_lacks_newline e : label_ok e = true -> lacks newline (print_label e) = true.
Proof.
  intros H%valid_name_chars. unfold print_label. rewrite lacks_app, (name_lacks newline _ eq_refl H). cbn [lacks andb].
  by rewrite lacks_app, escape_lacks_newline.
Qed.

Lemma labels_lack_newline l : forallb label_ok l = true -> lacks newline (print_labels l) = true.
Proof.
  induction l as [|e [|e' l] IH]; [done|..]; cbn [forallb print_labels]; intros [He Hl]%andb_prop; [by apply label_lacks_newline|].
  rewrite lacks_app, label_lacks_newline by done. cbn [andb lacks]. by apply IH.
Qed.

Lemma line_lacks_newline x : line_ok x = true -> lacks newline (print_line x) = true.
Proof.
  destruct x as [n k|n l v]; cbn [line_ok print_line].
  - intros [Hn%valid_name_chars Hk]%andb_prop. rewrite !lacks_app, (name_lacks newline _ eq_refl Hn). cbn [lacks]. by rewrite Hk.
  - intros [[Hn%valid_name_chars Hl]%andb_prop Hv]%andb_prop. rewrite !lacks_app, (name_lacks newline _ eq_refl Hn). cbn [lacks].
    rewrite Hv, andb_true_r. destruct l as [|e l]; [done|]. cbn [label_text lacks]. by rewrite lacks_app, labels_lack_newline.
Qed.

Lemma read_label_ok n v rest :
  all_chars name_char n = true ->
  read_name (print_label (n, v) ++ rest) = (n, String "="%char (String dquote (prometheus_escape v ++ String dquote rest))).
Proof.
  intros Hn. unfold print_label. cbn [fst snd]. rewrite <-text_app_assoc, !string_app_cons, <-text_app_assoc, string_app_cons.
  by apply read_name_ok.
Qed.

Lemma after_eq c s : after c (String c s) = Some s.
Proof. cbn. by rewrite Ascii.eqb_refl. Qed.

Lemma read_labels_ok l rest fuel :
  l <> [] -> forallb label_ok l = true -> length l <= fuel -> read_labels fuel (print_labels l ++ String "}"%char rest) = Some (l, rest).
Proof.
  intros Hne Hl. revert fuel. induction l as [|[n v] l IH]; [done|]. intros [|fuel]; [cbn; lia|]. intros Hf.
  cbn [forallb] in Hl. apply andb_prop in Hl as [Hn Hl]. apply valid_name_chars in Hn. cbn [fst] in Hn. cbn [read_labels].
  destruct l as [|e l].
  - cbn [print_labels]. rewrite (read_label_ok _ _ _ Hn). cbn [mbind option_bind]. rewrite after_eq. cbn [mbind option_bind].
    rewrite after_eq. cbn [mbind option_bind]. by rewrite read_quoted_ok.
  - assert (Hp : (print_labels ((n, v) :: e :: l) ++ String "}" rest =
                  print_label (n, v) ++ String "," (print_labels (e :: l) ++ String "}" rest))%string)
      by (cbn [print_labels]; by rewrite <-text_app_assoc, string_app_cons).
    rewrite Hp, (read_label_ok _ _ _ Hn). cbn [mbind option_bind]. rewrite after_eq. cbn [mbind option_bind].
    rewrite after_eq. cbn [mbind option_bind]. rewrite read_quoted_ok. cbn -[print_labels read_labels].
    rewrite IH; [done|done|done|cbn in *; lia].
Qed.

Lemma text_length_app s t : String.length (s ++ t) = String.length s + String.length t.
Proof. induction s as [|c s IH]; [done|]. rewrite string_app_cons. cbn. by rewrite IH. Qed.

Lemma print_labels_length l : length l <= String.length (print_labels l).
Proof.
  assert (He : forall e, 1 <= String.length (print_label e)) by (intros e; unfold print_label; rewrite text_length_app; cbn; lia).
  induction l as [|e [|e' l] IH]; [done|..].
  - cbn [print_labels length]. specialize (He e). lia.
  - change (print_labels (e :: e' :: l)) with (print_label e ++ String ","%char (print_labels (e' :: l)))%string.
    rewrite text_length_app. cbn [String.length]. specialize (He e). cbn [length] in *. lia.
Qed.

Lemma not_type_line n s : valid_name n = true -> String.prefix "# TYPE " (n ++ s) = false.
Proof.
  intros [Hn Hc]%andb_prop. destruct n as [|c n]; [done|]. rewrite string_app_cons. cbn in Hc. apply andb_prop in Hc as [Hc _].
  cbn [String.prefix]. destruct (ascii_dec "#"%char c) as [<-|]; [vm_compute in Hc; discriminate | done].
Qed.

Lemma read_type_line r : read_line ("# TYPE " ++ r) = (let '(n, r) := read_name r in k ← after " "%char r; Some (TypeLine n k)).
Proof.
  unfold read_line. assert (String.prefix "# TYPE " ("# TYPE " ++ r) = true) as -> by (by destruct r).
  assert (String.substring 7 (String.length ("# TYPE " ++ r) - 7) ("# TYPE " ++ r) = r) as ->; [|done].
  rewrite text_length_app. change (String.length "# TYPE ") with 7.
  replace (7 + String.length r - 7) with (String.length r) by lia. apply substring_all.
Qed.

(** A printed line is read back. *)
Lemma read_line_ok x : line_ok x = true -> read_line (print_line x) = Some x.
Proof.
  destruct x as [n k|n l v]; cbn [line_ok print_line].
  - intros [Hn%valid_name_chars _]%andb_prop. rewrite read_type_line, read_name_ok by done.
    rewrite after_eq. done.
  - intros [[Hn Hl]%andb_prop _]%andb_prop. unfold read_line. rewrite (not_type_line _ _ Hn). apply valid_name_chars in Hn.
    destruct l as [|e l]; cbn [label_text].
    + rewrite read_name_ok by done. change (EmptyString ++ ?x)%string with x. cbn [after]. change (Ascii.eqb " " "{") with false.
      cbn [mbind option_bind]. by rewrite Ascii.eqb_refl.
    + rewrite read_name_ok by done. rewrite string_app_cons, after_eq, <-text_app_assoc.
      rewrite string_app_cons. change (EmptyString ++ ?x)%string with x.
      rewrite (read_labels_ok (e :: l)); [|done|done|].
      * cbn [mbind option_bind]. by rewrite after_eq.
      * rewrite text_length_app. pose proof (print_labels_length (e :: l)). lia.
Qed.

Lemma split_line s rest : lacks newline s = true -> py_split newline (s ++ String newline rest) = s :: py_split newline rest.
Proof.
  induction s as [|c s IH]; cbn [lacks]; [done|]. intros [Hc Hs]%andb_prop. rewrite string_app_cons. cbn [py_split].
  rewrite (IH Hs). apply negb_true_iff in Hc. by rewrite Hc.
Qed.

Lemma split_lines l : Forall (fun x => line_ok x = true) l -> py_split newline (print_lines l) = ((print_line <$> l) ++ [EmptyString])%list.
Proof.
  induction 1 as [|x l Hx Hl IH]; [done|]. cbn [print_lines foldr]. rewrite split_line by by apply line_lacks_newline.
  fold (print_lines l). by rewrite IH.
Qed.

Lemma read_text_ok l : Forall (fun x => line_ok x = true) l -> read_text (print_lines l) = Some l.
Proof.
  intros Hl. unfold read_text. rewrite (split_lines _ Hl), reverse_snoc, reverse_involutive.
  induction Hl as [|x l Hx Hl IH]; [done|]. cbn. rewrite (read_line_ok _ Hx). cbn. by rewrite IH.
Qed.

(** ** What the collector exposes *)

Section exposed.
Context (fadd : pyfloat -> pyfloat -> pyfloat) (format_value repr : Q -> string).
Context (format_lacks : forall q, lacks newline (format_value q) = true).

Definition key_ok (k : key) : Prop := valid_name k.1 = true /\ forallb label_ok k.2 = true.

Lemma safe_key_ok n l : key_ok (prometheus_name n, safe_labels l).
Proof.
  split; [apply prometheus_name_valid|]. apply forallb_elem. intros e He. unfold safe_labels in He.
  apply elem_of_sort_by, list_elem_of_fmap in He as ([k v] & -> & _). apply prometheus_name_valid.
Qed.

Lemma value_lacks v : lacks newline (format_metric_value format_value v) = true.
Proof. destruct v; [apply format_lacks | done..]. Qed.

Lemma series_keys ms e : e ∈ series fadd ms -> key_ok e.1.
Proof.
  revert e. unfold series. apply (foldl_invariant_elem (fun d => forall e, e ∈ d -> key_ok e.1)).
  - intros e He. by apply not_elem_of_nil in He.
  - intros d m _ Hd e [->|He]%elem_dset; [apply safe_key_ok | by apply Hd].
Qed.

Definition kind_ok (d : list (string * string)) : Prop := forall e, e ∈ d -> lacks newline e.2 = true.

Lemma kind_ok_set d n k : lacks newline k = true -> kind_ok d -> kind_ok (dset n k d).
Proof. intros Hk Hd e [->|He]%elem_dset; [done | by apply Hd]. Qed.

Lemma kinds_ok c : kind_ok (kinds c).
Proof.
  unfold kinds. apply foldl_invariant_elem; [|intros d e _; by apply kind_ok_set].
  unfold point_kinds. apply foldl_invariant_elem; [intros e He; by apply not_elem_of_nil in He|].
  intros d m _ Hd. cbn zeta. destruct (is_total _); [by apply kind_ok_set|]. destruct (dmem _ _); [done | by apply kind_ok_set].
Qed.

Lemma kind_lacks c n : lacks newline (default "gauge" (dget n (kinds c))) = true.
Proof. destruct (dget n (kinds c)) as [k|] eqn:E; [|done]. apply dget_elem in E. exact (kinds_ok c _ E). Qed.

Definition lines_ok (acc : list line * list string) : Prop := Forall (fun x => line_ok x = true) acc.1.

Lemma emit_ok n k x acc : valid_name n = true -> lacks newline k = true -> line_ok x = true -> lines_ok acc -> lines_ok (emit n k x acc).
Proof.
  unfold lines_ok, emit. intros Hn Hk Hx Hacc. destruct (memb n acc.2); cbn; apply Forall_app; split; auto.
  constructor; [cbn; by rewrite Hn, Hk|auto].
Qed.

Definition row_ok (e : key * string * pyfloat) : Prop :=
  key_ok e.1.1 /\ (String.prefix bucket_mark e.1.2 = true \/ all_chars name_char e.1.2 = true).

Lemma bucket_mark_prefix s : String.prefix bucket_mark (bucket_mark ++ s) = true.
Proof. by destruct s. Qed.

Lemma histogram_rows_ok e row : row ∈ histogram_rows repr e -> row_ok row.
Proof.
  unfold histogram_rows. cbn zeta. rewrite elem_of_app. intros [H|H].
  - apply list_elem_of_fmap in H as (b & -> & _). split; [apply safe_key_ok|]. left. apply bucket_mark_prefix.
  - rewrite !elem_of_cons in H. destruct H as [->|[->|[->|H]]]; [| | |by apply not_elem_of_nil in H];
      (split; [apply safe_key_ok|]); [left; apply bucket_mark_prefix | by right..].
Qed.

Lemma row_sample_ok row : row_ok row -> line_ok (row_sample format_value row) = true.
Proof.
  destruct row as [[k suffix] v]. intros [[Hn Hl] Hs]. cbn [fst snd] in *. unfold row_sample.
  destruct (String.prefix bucket_mark suffix) eqn:Ep; cbn [line_ok forallb].
  - rewrite valid_name_app, Hl, value_lacks; done.
  - destruct Hs as [|Hs]; [congruence|]. rewrite valid_name_app, Hl, value_lacks; done.
Qed.

Lemma exposition_ok c : Forall (fun x => line_ok x = true) (exposition fadd format_value repr c).
Proof.
  unfold exposition. change (lines_ok (foldl (emit_row format_value)
     (foldl (emit_point format_value c) ([], []) (sort_by (fun a b => key_leb a.1 b.1) (series fadd (metrics c))))
     (sort_by row_leb (histograms c ≫= histogram_rows repr)))).
  apply foldl_invariant_elem.
  - apply foldl_invariant_elem; [by constructor|]. intros acc e He Hacc. apply elem_of_sort_by, series_keys in He as [Hn Hl].
    apply emit_ok; [done | apply kind_lacks | | done]. cbn [line_ok]. by rewrite Hn, Hl, value_lacks.
  - intros acc row Hrow Hacc. apply elem_of_sort_by, list_elem_of_bind in Hrow as (e & Hrow & _).
    apply histogram_rows_ok in Hrow. apply emit_ok; [apply Hrow | done | by apply row_sample_ok | done].
Qed.

(** the text reads back: whatever the names and the label values hold,
    line breaks, quotes and backslashes included, parsing the exposition line by
    line gives the very samples the collector wrote, so that no label value can
    add a line or a label to it. *)
Theorem exposition_roundtrip c :
  read_text (prometheus_text fadd format_value repr c) = Some (exposition fadd format_value repr c).
Proof. apply read_text_ok, exposition_ok. Qed.

End exposed.

Section series.
Context (fadd : pyfloat -> pyfloat -> pyfloat).

(** The value of a series: the points of its key, in order. *)
Definition points_of (k : key) (ms : list MetricPoint) : list MetricPoint := filterb (fun m => bool_decide (point_key m = k)) ms.

Lemma series_get ms k :
  dget k (series fadd ms) = match points_of k ms with [] => None | l => foldl (fun v m => Some (add_point fadd m v)) None l end.
Proof.
  assert (Hsnoc : forall l m, match (l ++ [m])%list with [] => None | l => foldl (fun v m => Some (add_point fadd m v)) None l end =
            Some (add_point fadd m (foldl (fun v m => Some (add_point fadd m v)) None l))).
  { intros l m. rewrite <-(foldl_snoc (fun v m => Some (add_point fadd m v))). by destruct l. }
  unfold series, points_of. induction ms as [|m ms IH] using rev_ind; [done|]. rewrite foldl_snoc, List.filter_app. cbn [List.filter].
  rewrite dget_dset. destruct (decide (k = point_key m)) as [->|Hne].
  - rewrite bool_decide_true, Hsnoc, IH by done. by destruct (List.filter _ ms).
  - rewrite bool_decide_false, app_nil_r by done. exact IH.
Qed.

(** a counter is exposed as the sum of all its points and any other
    series as its last point, over the points whose names and labels print the
    same. *)
Theorem series_exact ms k v :
  (forall m, m ∈ points_of k ms -> is_total (point_name m) = is_total k.1) ->
  dget k (series fadd ms) = Some v <->
  points_of k ms <> [] /\
  (if is_total k.1 then v = foldl fadd (Finite 0) (value <$> points_of k ms) else last (value <$> points_of k ms) = Some v).
Proof.
  rewrite series_get. generalize (points_of k ms). intros l Hl.
  assert (H : foldl (fun v m => Some (add_point fadd m v)) None l =
              match l with [] => None
              | _ => if is_total k.1 then Some (foldl fadd (Finite 0) (value <$> l)) else last (value <$> l) end).
  { induction l as [|m l IH] using rev_ind; [done|]. rewrite foldl_snoc, IH by (intros m' Hm; apply Hl; set_solver).
    unfold add_point. rewrite (Hl m) by set_solver. rewrite fmap_app. change (value <$> [m]) with [value m]. rewrite last_snoc, foldl_app.
    destruct l as [|m0 l]; cbn; by destruct (is_total k.1). }
  destruct l as [|m l]; [naive_solver|]. rewrite H. destruct (is_total k.1); naive_solver.
Qed.

End series.

(** ** Examples *)

(** Python's text of a few whole numbers, and sums without rounding. *)
Definition demo_number (q : Q) : string :=
  if Qeq_bool q 1 then "1" else if Qeq_bool q 2 then "2" else if Qeq_bool q 3 then "3" else
  if Qeq_bool q 5 then "5" else if Qeq_bool q 10 then "10" else "0".
Definition demo_repr (q : Q) : string := demo_number q ++ ".0".
Definition demo_add (a b : pyfloat) : pyfloat :=
  match a, b with Finite x, Finite y => Finite (Qred (x + y)) | Finite _, f => f | f, _ => f end.

Definition demo_calls : list metric_call :=
  [Observe "latency" (Finite 9) [] [1; 5]%Q; Clear;
   Observe "latency" (Finite 2) [("b", "y"); ("a", "x")] [10; 1; 5; 5]%Q;
   Increment 0 "calls.total" []; Increment 0 "calls_total" []; Increment 0 "calls_total" [];
   Observe "latency" (Finite 7) [("a", "x"); ("b", "y")] [];
   Observe "latency" (Finite 7) [("a", "x"); ("b", "y")] [3]%Q;
   Observe "latency" (Finite (-1)) [("a", "x"); ("b", "y")] [3]%Q;
   Observe "latency" NaN [("a", "x"); ("b", "y")] [3]%Q].

Lemma histogram_exact_witness :
  get_histogram (metric_run demo_add demo_calls) "latency" [("b", "y"); ("a", "x")] =
  Some {| buckets := [(1, 0%Z); (5, 1%Z); (10, 2%Z)]%Q; count := 2; total := Finite 9 |}.
Proof.
  rewrite (histogram_exact demo_add demo_calls "latency" [("a", "x"); ("b", "y")] [("b", "y"); ("a", "x")]
             (Permutation_swap _ _ _)).
  vm_compute. reflexivity.
Defined.

Definition demo_collector : MetricsCollector :=
  metric_run demo_add
    [Observe "latency" (Finite 2) [("who", chars [dquote; newline; "x"%char; backslash])] [1; 5; 10]%Q;
     Increment 0 "calls_total" [("k", "v")]; Record_ 0 "9lives" (Infinite false) []].

Lemma demo_number_lacks q : lacks newline (demo_number q) = true.
Proof. unfold demo_number. by repeat destruct (Qeq_bool _ _). Qed.

Lemma exposition_roundtrip_witness :
  exists text, text = prometheus_text demo_add demo_number demo_repr demo_collector /\
               length <$> read_text text = Some 11.
Proof.
  eexists. split; [done|]. rewrite (exposition_roundtrip demo_add demo_number demo_repr demo_number_lacks demo_collector).
  vm_compute. reflexivity.
Defined.

Lemma series_exact_witness :
  dget ("calls_total", []) (series demo_add (metrics (metric_run demo_add (drop 4 demo_calls)))) = Some (Finite 2).
Proof.
  apply (series_exact demo_add (metrics (metric_run demo_add (drop 4 demo_calls))) ("calls_total", []) (Finite 2)).
  - intros m Hm. set (l := points_of _ _) in Hm. vm_compute in l.
    assert (Hall : forallb (fun m => Bool.eqb (is_total (point_name m)) (is_total "calls_total")) l = true)
      by (vm_compute; reflexivity).
    by apply Bool.eqb_prop, (proj1 (forallb_elem _ l) Hall m).
  - split; vm_compute; [discriminate | reflexivity].
Defined.

(** The buckets of a histogram are exposed in the order of their texts, not
    of their bounds. *)
Example buckets_out_of_order :
  omap (fun x => match x with Sample _ (("le", b) :: _) n => Some (b, n) | _ => None end)
    (exposition demo_add demo_number demo_repr demo_collector) =
  [("+Inf", "1"); ("1.0", "0"); ("10.0", "1"); ("5.0", "1")].
Proof. vm_compute. reflexivity. Qed.

(** An infinite gauge is exposed as [NaN]. *)
Example infinity_is_exposed_as_nan :
  existsb (fun x => match x with Sample "_9lives" [] "NaN" => true | _ => false end)
    (exposition demo_add demo_number demo_repr demo_collector) = true.
Proof. vm_compute. reflexivity. Qed.

(** Two metrics that print alike are mixed: the point of the gauge
    [calls.total] becomes the start of the counter. *)
Example gauge_feeds_counter :
  dget ("calls_total", []) (series demo_add (metrics (metric_run demo_add (drop 3 demo_calls)))) = Some (Finite 3).
Proof. vm_compute. reflexivity. Qed.

End Metrics.
