(* ===== verification/Telemetry.v ===== *)
(** * Telemetry: spans, bounded labels, model usage

    [TraceSpan] and [Telemetry] of [observability/telemetry.py], over the
    collector of [Metrics].  The calls made on OpenTelemetry objects are kept as
    a list; whether the tracer gives a span, whether an instrument can be
    created, new identifiers, float arithmetic and [str] of a value are
    parameters.  A span is a mutable object that the facade and its caller share:
    it is named by its position in the facade's list. *)

From Stdlib Require Import Ascii Lqa.
From S2P Require Import Prelude Json Config Redaction Metrics.
Import Config(pyfloat, Finite, Infinite, NaN).
Local Open Scope string_scope.

Module Telemetry.

(** ** Values sent to OpenTelemetry *)

Definition content_keys : list string :=
  ["content"; "input"; "messages"; "prompt"; "request.body"; "response"; "response.body"].

Definition clip (n : nat) (s : string) : string := String.substring 0 n s.

Section telemetry.
Context (py_str : json -> string).

(** [_otel_value] *)
Fixpoint otel_value (n : nat) (j : json) : json :=
  match j with
  | JStr s => JStr (clip n s)
  | JBool _ | JInt _ | JFloat _ => j
  | JList l => JList (take 32 (otel_value n <$> l))
  | JNull | JObj _ => JStr (clip n (py_str j))
  end.

Record Settings : Type := {
  capture_content : bool;
  max_attribute_length : nat;
  max_label_values : nat;
  input_cost_per_1k_usd : option pyfloat;
  output_cost_per_1k_usd : option pyfloat;
  otel_tracer : bool;
  otel_meter : bool
}.

Definition withheld (st : Settings) (k : string) : bool := negb (capture_content st) && memb (py_lower k) content_keys.

Definition exported (st : Settings) (d : list (string * json)) : list (string * json) :=
  (fun kv => (kv.1, otel_value (max_attribute_length st) kv.2)) <$> filterb (fun kv => negb (withheld st kv.1)) d.

(** [_otel_attributes] *)
Definition otel_attributes (st : Settings) (d : list (string * json)) : list (string * json) :=
  exported st (Redaction.redact_fields [] d).

(** ** Spans *)

Inductive otel_call : Type :=
  | StartSpan (name : string) (attributes : list (string * json))
  | SetAttribute (k : string) (v : json)
  | AddEvent (name : string) (attributes : list (string * json))
  | EndSpan
  | Detach.

Record TraceSpan : Type := {
  trace_id : string;
  span_id : string;
  parent_span_id : option string;
  span_name : string;
  start_time : Q;
  end_time : option Q;
  attributes : list (string * json);
  events : list (string * list (string * json));
  has_otel_span : bool;
  sent : list otel_call                     (** to its OpenTelemetry span, oldest first *)
}.

Definition with_sent (s : TraceSpan) (e : option Q) (a : list (string * json)) (ev : list (string * list (string * json)))
    (calls : list otel_call) : TraceSpan :=
  {| trace_id := trace_id s; span_id := span_id s; parent_span_id := parent_span_id s; span_name := span_name s;
     start_time := start_time s; end_time := e; attributes := a; events := ev; has_otel_span := has_otel_span s;
     sent := (sent s ++ if has_otel_span s then calls else [])%list |}.

Definition set_attribute (st : Settings) (k : string) (v : json) (s : TraceSpan) : TraceSpan :=
  with_sent s (end_time s) (dset k v (attributes s)) (events s)
    (if withheld st k then [] else [SetAttribute k (otel_value (max_attribute_length st) v)]).

Definition add_event (st : Settings) (name : string) (a : list (string * json)) (s : TraceSpan) : TraceSpan :=
  with_sent s (end_time s) (attributes s) (events s ++ [(name, a)])%list [AddEvent name (exported st a)].

Definition finish (now : Q) (s : TraceSpan) : TraceSpan :=
  match end_time s with
  | Some _ => s
  | None => with_sent s (Some now) (attributes s) (events s) [EndSpan; Detach]
  end.

Definition duration_ms (s : TraceSpan) : option Q := (fun e => (e - start_time s) * 1000)%Q <$> end_time s.

(** ** The facade *)

(** What a call makes of the meter's instruments. *)
Inductive meter_call : Type := Add (name : string) (v : pyfloat) (l : Metrics.labels) | Measure (name : string) (v : pyfloat) (l : Metrics.labels).

Record Telemetry : Type := {
  collector : Metrics.MetricsCollector;
  spans : list TraceSpan;
  label_values : list ((string * string) * list string);
  otel_counters : list string;
  otel_histograms : list string;
  meter_calls : list meter_call
}.

Definition new_telemetry : Telemetry :=
  {| collector := Metrics.new_collector; spans := []; label_values := []; otel_counters := []; otel_histograms := [];
     meter_calls := [] |}.

Definition with_spans (t : Telemetry) (l : list TraceSpan) : Telemetry :=
  {| collector := collector t; spans := l; label_values := label_values t; otel_counters := otel_counters t;
     otel_histograms := otel_histograms t; meter_calls := meter_calls t |}.

(** [start_span]: [otel] is the span the tracer gave, with its identifier if its
    context is valid; [None] if there is no tracer or it failed. *)
Definition start_span (st : Settings) (otel : option (option string)) (current_trace : option string) (uuid uuid' : string)
    (now : Q) (name : string) (trace parent : option string) (a : list (string * json)) (t : Telemetry) : Telemetry * nat :=
  let otel := if otel_tracer st then otel else None in
  let s :=
    {| trace_id := if opt_truthy trace then default "" trace else opt_or current_trace uuid;
       span_id := opt_or (mjoin otel) (clip 8 uuid');
       parent_span_id := parent; span_name := name; start_time := now; end_time := None; attributes := a; events := [];
       has_otel_span := bool_decide (is_Some otel);
       sent := match otel with Some _ => [StartSpan name (otel_attributes st a)] | None => [] end |} in
  (with_spans t (spans t ++ [s])%list, length (spans t)).

Definition get_spans (t : Telemetry) (trace : option string) : list TraceSpan :=
  match trace with None => spans t | Some i => filterb (fun s => String.eqb (trace_id s) i) (spans t) end.

(** *** Labels *)

Definition other : string := "[OTHER]".

(** One label: the value to use, and the values seen of its metric and key. *)
Definition bounded_value (st : Settings) (raw : string) (seen : list string) : string * list string :=
  let v := clip (max_attribute_length st) raw in
  if negb (memb v seen) && Nat.leb (max_label_values st) (length seen) then (other, seen)
  else (v, if memb v seen then seen else (seen ++ [v])%list).

(** [_bounded_labels] *)
Definition bounded_labels (st : Settings) (name : string) (l : Metrics.labels) (lv : list ((string * string) * list string))
  : Metrics.labels * list ((string * string) * list string) :=
  foldl (fun '(out, lv) e =>
    let '(v, seen) := bounded_value st e.2 (default [] (dget (name, e.1) lv)) in
    (dset (clip (max_attribute_length st) e.1) v out, dset (name, e.1) seen lv)) ([], lv) l.

(** *** Instruments *)

Context (creates : string -> bool).

(** [_otel_instrument]: whether there is one, and the names cached. *)
Definition instrument (st : Settings) (name : string) (cache : list string) : bool * list string :=
  if negb (otel_meter st) then (false, cache)
  else if memb name cache then (true, cache)
  else if creates name then (true, (cache ++ [name])%list) else (false, cache).

Context (fadd fmul fdiv : pyfloat -> pyfloat -> pyfloat) (float_of : Z -> pyfloat).

Definition emit (st : Settings) (counter : bool) (name : string) (call : meter_call) (c : Metrics.MetricsCollector)
    (lv : list ((string * string) * list string)) (t : Telemetry) : Telemetry :=
  let '(found, cache) := instrument st name (if counter then otel_counters t else otel_histograms t) in
  {| collector := c; spans := spans t; label_values := lv;
     otel_counters := if counter then cache else otel_counters t;
     otel_histograms := if counter then otel_histograms t else cache;
     meter_calls := if found then (meter_calls t ++ [call])%list else meter_calls t |}.

Definition increment (st : Settings) (now : Q) (name : string) (l : Metrics.labels) (t : Telemetry) : Telemetry :=
  let '(b, lv) := bounded_labels st name l (label_values t) in
  emit st true name (Add name (Finite 1) b) (Metrics.increment now name b (collector t)) lv t.

Definition record (st : Settings) (now : Q) (name : string) (v : pyfloat) (l : Metrics.labels) (t : Telemetry) : Telemetry :=
  let '(b, lv) := bounded_labels st name l (label_values t) in
  let counter := Metrics.is_total name in
  emit st counter name (if counter then Add name v b else Measure name v b) (Metrics.record now name v b (collector t)) lv t.

(** The labels are bounded before the collector may refuse the value. *)
Definition observe_histogram (st : Settings) (name : string) (v : pyfloat) (l : Metrics.labels) (t : Telemetry)
  : result Metrics.metric_error unit * Telemetry :=
  let '(b, lv) := bounded_labels st name l (label_values t) in
  match Metrics.observe_histogram fadd name v b Metrics.default_buckets (collector t) with
  | (Ok _, c) => (Ok tt, emit st false name (Measure name v b) c lv t)
  | (Err e, c) =>
      (Err e, {| collector := c; spans := spans t; label_values := lv; otel_counters := otel_counters t;
                 otel_histograms := otel_histograms t; meter_calls := meter_calls t |})
  end.

(** *** Model usage *)

(** [_usage_count] *)
Definition usage_count (j : json) : Z :=
  Z.max 0 match j with
          | JInt z => z
          | JFloat q => Z.quot (Qnum q) (Zpos (Qden q))
          | JStr s => default 0%Z (Config.py_int s)
          | _ => 0
          end.

Definition usage_get (k : string) (usage : list (string * json)) : Z := usage_count (default JNull (dget k usage)).

Definition usage_total (usage : list (string * json)) : Z :=
  if dmem "total_tokens" usage then usage_get "total_tokens" usage
  else (usage_get "prompt_tokens" usage + usage_get "completion_tokens" usage)%Z.

Definition add_cost (tokens : Z) (price : option pyfloat) (cost : pyfloat) : pyfloat :=
  match price with Some p => fadd cost (fdiv (fmul (float_of tokens) p) (Finite 1000)) | None => cost end.

Definition usage_cost (st : Settings) (usage : list (string * json)) : pyfloat :=
  add_cost (usage_get "completion_tokens" usage) (output_cost_per_1k_usd st)
    (add_cost (usage_get "prompt_tokens" usage) (input_cost_per_1k_usd st) (Finite 0)).

Definition priced (st : Settings) : bool :=
  bool_decide (is_Some (input_cost_per_1k_usd st)) || bool_decide (is_Some (output_cost_per_1k_usd st)).

Definition record_model_usage (st : Settings) (now : Q) (usage : list (string * json)) (l : Metrics.labels) (t : Telemetry)
  : Telemetry :=
  match usage with
  | [] => t
  | _ =>
      let tokens kind count t := record st now "model_tokens_total" (float_of count) (dset "token_type" kind l) t in
      let t := tokens "prompt" (usage_get "prompt_tokens" usage) t in
      let t := tokens "completion" (usage_get "completion_tokens" usage) t in
      let t := tokens "total" (usage_total usage) t in
      if priced st then record st now "model_cost_usd_total" (usage_cost st usage) (dset "currency" "USD" l) t else t
  end.

(** ** Calls in any order *)

Inductive span_call : Type :=
  | Attribute (k : string) (v : json)
  | Event (name : string) (a : list (string * json))
  | Finish (now : Q).

Inductive telemetry_call : Type :=
  | Start (otel : option (option string)) (current : option string) (uuid uuid' : string) (now : Q) (name : string)
          (trace parent : option string) (a : list (string * json))
  | OnSpan (i : nat) (f : span_call)
  | Increment_ (now : Q) (name : string) (l : Metrics.labels)
  | Record_ (now : Q) (name : string) (v : pyfloat) (l : Metrics.labels)
  | Observe_ (name : string) (v : pyfloat) (l : Metrics.labels)
  | Usage_ (now : Q) (usage : list (string * json)) (l : Metrics.labels).

Definition span_step (st : Settings) (c : span_call) (s : TraceSpan) : TraceSpan :=
  match c with
  | Attribute k v => set_attribute st k v s
  | Event name a => add_event st name a s
  | Finish now => finish now s
  end.

Definition step (st : Settings) (t : Telemetry) (c : telemetry_call) : Telemetry :=
  match c with
  | Start o cur u u' now name trace parent a => (start_span st o cur u u' now name trace parent a t).1
  | OnSpan i f => with_spans t (alter (span_step st f) i (spans t))
  | Increment_ now name l => increment st now name l t
  | Record_ now name v l => record st now name v l t
  | Observe_ name v l => (observe_histogram st name v l t).2
  | Usage_ now usage l => record_model_usage st now usage l t
  end.
Definition run (st : Settings) (calls : list telemetry_call) : Telemetry := foldl (step st) new_telemetry calls.

End telemetry.

(** ** What leaves through spans *)

(** Texts of at most [n] characters, lists of at most 32 such values, no
    [None] and no mapping. *)
Fixpoint bounded_json (n : nat) (j : json) : bool :=
  match j with
  | JStr s => Nat.leb (String.length s) n
  | JList l => Nat.leb (length l) 32 && forallb (bounded_json n) l
  | JBool _ | JInt _ | JFloat _ => true
  | JNull | JObj _ => false
  end.

Lemma clip_length n s : String.length (clip n s) <= n.
Proof. apply substring_length. Qed.

Lemma otel_value_bounded py_str n j : bounded_json n (otel_value py_str n j) = true.
Proof.
  induction j as [| | | |s|l Hl|d Hd] using json_ind'; cbn; try done; [apply Nat.leb_le, clip_length..| |apply Nat.leb_le, clip_length].
  rewrite length_take. apply andb_true_iff. split; [apply Nat.leb_le; lia|].
  apply forallb_elem. intros x Hx. apply elem_of_take in Hx as (i & Hx & _). rewrite list_lookup_fmap in Hx.
  destruct (l !! i) as [y|] eqn:Hy; [|done]. injection Hx as <-. rewrite Forall_forall in Hl.
  apply Hl. by apply list_elem_of_lookup_2 in Hy.
Qed.

Section exports.
Context (py_str : json -> string) (creates : string -> bool).
Context (fadd fmul fdiv : pyfloat -> pyfloat -> pyfloat) (float_of : Z -> pyfloat) (st : Settings).

(** An attribute that may be sent. *)
Definition attribute_ok (kv : string * json) : Prop :=
  (capture_content st = true \/ py_lower kv.1 ∉ content_keys) /\ bounded_json (max_attribute_length st) kv.2 = true.

Definition call_ok (c : otel_call) : Prop :=
  match c with
  | StartSpan _ a =>
      Forall attribute_ok a /\ exists d, a = exported py_str st (Redaction.redact_fields [] d)
  | AddEvent _ a => Forall attribute_ok a
  | SetAttribute k v => attribute_ok (k, v)
  | EndSpan | Detach => True
  end.

Lemma shown_ok k v : withheld st k = false -> attribute_ok (k, otel_value py_str (max_attribute_length st) v).
Proof.
  unfold withheld. intros [H|H]%andb_false_iff; (split; [cbn [fst] | apply otel_value_bounded]).
  - left. by apply negb_false_iff.
  - right. by apply memb_false.
Qed.

Lemma exported_ok d : Forall attribute_ok (exported py_str st d).
Proof.
  unfold exported. rewrite Forall_fmap. apply Forall_forall. intros [k v] [_ Hw]%elem_of_filterb. cbn in Hw |- *.
  apply shown_ok. by apply negb_true_iff.
Qed.

Definition span_ok (s : TraceSpan) : Prop := Forall call_ok (sent s).

Lemma with_sent_ok s e a ev calls : span_ok s -> Forall call_ok calls -> span_ok (with_sent s e a ev calls).
Proof. intros Hs Hc. unfold span_ok. cbn. apply Forall_app. split; [done|]. by destruct (has_otel_span s). Qed.

Lemma span_step_ok c s : span_ok s -> span_ok (span_step py_str st c s).
Proof.
  intros Hs. destruct c as [k v|name a|now]; cbn [span_step].
  - apply with_sent_ok; [done|]. destruct (withheld st k) eqn:E; [done|]. constructor; [by apply shown_ok | done].
  - apply with_sent_ok; [done|]. constructor; [apply exported_ok | done].
  - unfold finish. destruct (end_time s); [done|]. apply with_sent_ok; [done|]. by repeat constructor.
Qed.

Notation step := (step py_str creates fadd fmul fdiv float_of st).
Notation run := (run py_str creates fadd fmul fdiv float_of st).

Lemma emit_spans counter name call c lv t : spans (emit creates st counter name call c lv t) = spans t.
Proof. unfold emit. by destruct (instrument _ _ _ _). Qed.

Lemma record_spans now name v l t : spans (record creates st now name v l t) = spans t.
Proof. unfold record. destruct (bounded_labels _ _ _ _). apply emit_spans. Qed.

Lemma usage_spans now usage l t : spans (record_model_usage creates fadd fmul fdiv float_of st now usage l t) = spans t.
Proof. unfold record_model_usage. destruct usage; [done|]. destruct (priced st); by rewrite !record_spans. Qed.

Lemma step_spans_ok t c : Forall span_ok (spans t) -> Forall span_ok (spans (step t c)).
Proof.
  intros Ht. destruct c as [o cur u u' now name trace parent a|i f|now name l|now name v l|name v l|now usage l]; cbn [Telemetry.step].
  - cbn. apply Forall_app. split; [done|]. constructor; [|done]. unfold span_ok. cbn.
    destruct (if otel_tracer st then o else None); [|done]. constructor; [|done]. split; [apply exported_ok | by exists a].
  - cbn. apply Forall_alter; [done|]. intros s _. apply span_step_ok.
  - unfold increment. destruct (bounded_labels _ _ _ _). by rewrite emit_spans.
  - by rewrite record_spans.
  - unfold observe_histogram. destruct (bounded_labels _ _ _ _). destruct (Metrics.observe_histogram _ _ _ _ _ _) as [[|] ?]; [cbn [snd]; by rewrite emit_spans | done].
  - by rewrite usage_spans.
Qed.

(** whatever is done with spans, what reaches OpenTelemetry is bounded:
    without content capture no attribute with a content key is sent, at the
    start of a span, later or with an event; every text sent is at most the
    configured length and every list 32 long; and what a span starts with is
    redacted. *)
Theorem span_exports_bounded calls : Forall (fun s => Forall call_ok (sent s)) (spans (run calls)).
Proof. unfold Telemetry.run. apply foldl_invariant; [done|]. intros t c. apply step_spans_ok. Qed.

End exports.

(** ** Label cardinality *)

Lemma clip_id n s : String.length s <= n -> clip n s = s.
Proof. unfold clip. revert s. induction n as [|n IH]; intros [|c s]; cbn; try done; [lia|]. intros H. by rewrite IH by lia. Qed.

(** The metric shows the label with the value. *)
Definition shows_label (c : Metrics.MetricsCollector) (name k v : string) : Prop :=
  (exists m, m ∈ Metrics.metrics c /\ Metrics.point_name m = name /\ (k, v) ∈ Metrics.point_labels m) \/
  (exists e, e ∈ Metrics.histograms c /\ e.1.1 = name /\ (k, v) ∈ e.1.2).

Section cardinality.
Context (st : Settings).

Definition seen_values : Type := list ((string * string) * list string).

(** At most [max_label_values] values are remembered of a label. *)
Definition seen_ok (lv : seen_values) : Prop :=
  forall n k seen, dget (n, k) lv = Some seen ->
    NoDup seen /\ length seen <= max_label_values st /\ String.length k <= max_attribute_length st.

Definition grows (lv lv' : seen_values) : Prop :=
  forall k seen, dget k lv = Some seen -> exists seen', dget k lv' = Some seen' /\ seen ⊆ seen'.

#[global] Instance grows_preorder : PreOrder grows.
Proof.
  split; [intros lv k seen H; by exists seen|]. intros a b c Hab Hbc k seen H. destruct (Hab k seen H) as (s1 & H1 & Hs1).
  destruct (Hbc k s1 H1) as (s2 & H2 & Hs2). exists s2. split; [done|]. set_solver.
Qed.

(** The value stands for what a label may show. *)
Definition remembered (lv : seen_values) (name k v : string) : Prop :=
  v = other \/ exists seen, dget (name, k) lv = Some seen /\ v ∈ seen.

Lemma remembered_grows lv lv' name k v : grows lv lv' -> remembered lv name k v -> remembered lv' name k v.
Proof.
  intros Hg [->|(seen & Hs & Hv)]; [by left|]. destruct (Hg _ _ Hs) as (seen' & Hs' & Hsub). right. exists seen'. split; [done|set_solver].
Qed.

Lemma bounded_value_ok raw seen v seen' :
  bounded_value st raw seen = (v, seen') ->
  (v = other \/ v ∈ seen') /\ seen ⊆ seen' /\
  (NoDup seen -> NoDup seen') /\ (length seen <= max_label_values st -> length seen' <= max_label_values st).
Proof.
  unfold bounded_value. set (x := clip _ raw). unfold memb. case_bool_decide as Hx; cbn [negb andb].
  - intros [= <- <-]. auto.
  - destruct (Nat.leb_spec (max_label_values st) (length seen)); intros [= <- <-]; [by auto|]. split_and!.
    + right. set_solver.
    + set_solver.
    + intros H'. apply NoDup_app. split_and!; [done|set_solver|apply NoDup_singleton].
    + intros _. rewrite length_app. cbn. lia.
Qed.

Lemma bounded_labels_snoc name l e lv :
  bounded_labels st name (l ++ [e])%list lv =
  let '(out, lv') := bounded_labels st name l lv in
  let '(v, seen) := bounded_value st e.2 (default [] (dget (name, e.1) lv')) in
  (dset (clip (max_attribute_length st) e.1) v out, dset (name, e.1) seen lv').
Proof. unfold bounded_labels. rewrite foldl_snoc. by destruct (foldl _ _ _). Qed.

Lemma bounded_labels_ok name l lv out lv' :
  Forall (fun e => String.length e.1 <= max_attribute_length st) l -> seen_ok lv ->
  bounded_labels st name l lv = (out, lv') ->
  seen_ok lv' /\ grows lv lv' /\ (forall k v, (k, v) ∈ out -> remembered lv' name k v).
Proof.
  intros Hl Hlv. revert out lv'. induction l as [|e l IH] using rev_ind; intros out lv'.
  - intros [= <- <-]. split_and!; [done|done|]. intros k v H. by apply not_elem_of_nil in H.
  - apply Forall_app in Hl as [Hl He]. apply List.Forall_inv in He. rewrite bounded_labels_snoc.
    destruct (bounded_labels st name l lv) as [out1 lv1]. destruct (IH Hl out1 lv1 eq_refl) as (Hs & Hg & Hr).
    destruct (bounded_value st e.2 _) as [v seen] eqn:Ev. intros [= <- <-]. apply bounded_value_ok in Ev as (Hv & Hsub & Hnd & Hlen).
    assert (Hold : NoDup (default [] (dget (name, e.1) lv1)) /\
                   length (default [] (dget (name, e.1) lv1)) <= max_label_values st).
    { destruct (dget (name, e.1) lv1) as [s1|] eqn:E1; [by destruct (Hs _ _ _ E1) as (? & ? & _)|]. split; [constructor|cbn; lia]. }
    assert (Hg1 : grows lv1 (dset (name, e.1) seen lv1)).
    { intros k s1 Hk. rewrite dget_dset. destruct (decide (k = (name, e.1))) as [->|]; [|by exists s1].
      exists seen. split; [done|]. by rewrite Hk in Hsub. }
    split_and!.
    + intros n k s1. rewrite dget_dset. destruct (decide ((n, k) = (name, e.1))) as [[= -> ->]|]; [|by apply Hs].
      intros [= <-]. destruct Hold as [Hold1 Hold2]. split_and!; [by apply Hnd | by apply Hlen | exact He].
    + by transitivity lv1.
    + intros k v'. rewrite (clip_id _ _ He). intros [[= -> ->]|Hin]%elem_dset.
      * destruct Hv as [->|Hv]; [by left|]. right. exists seen. by rewrite dget_dset_eq.
      * eapply remembered_grows; [exact Hg1 | by apply Hr].
Qed.

Definition labels_ok (t : Telemetry) : Prop :=
  seen_ok (label_values t) /\ forall name k v, shows_label (collector t) name k v -> remembered (label_values t) name k v.

(** Emitting with bounded labels. *)
Lemma labels_ok_emitted t t' name l b lv :
  labels_ok t -> Forall (fun e => String.length e.1 <= max_attribute_length st) l ->
  bounded_labels st name l (label_values t) = (b, lv) -> label_values t' = lv ->
  (forall n k v, shows_label (collector t') n k v -> shows_label (collector t) n k v \/ n = name /\ (k, v) ∈ b) ->
  labels_ok t'.
Proof.
  intros [Hs Hr] Hl Hb Hlv Hc. destruct (bounded_labels_ok _ _ _ _ _ Hl Hs Hb) as (Hs' & Hg & Hb'). split; rewrite Hlv; [done|].
  intros n k v [H|[-> H]]%Hc; [eapply remembered_grows; eauto | by apply Hb'].
Qed.

Lemma shows_recorded now name v l c n k x :
  shows_label (Metrics.record now name v l c) n k x -> shows_label c n k x \/ n = name /\ (k, x) ∈ l.
Proof.
  intros [(m & Hm & <- & Hk)|H]; [|left; by right]. cbn in Hm. apply elem_of_app in Hm as [Hm|Hm]; [left; left; by exists m|].
  apply list_elem_of_singleton in Hm as ->. by right.
Qed.

Lemma shows_observed fadd name v l bs c n k x :
  shows_label (Metrics.observe_histogram fadd name v l bs c).2 n k x -> shows_label c n k x \/ n = name /\ (k, x) ∈ l.
Proof.
  unfold Metrics.observe_histogram. destruct v as [q| |]; [|by left..]. destruct (q <? 0)%clock; [by left|].
  destruct (negb _); [by left|]. cbn [snd]. intros [H|(e & He & Hn & Hk)]; [left; by left|]. cbn [Metrics.histograms] in He.
  apply elem_dset in He as [->|He]; [right | left; right; by exists e]. cbn in Hn, Hk. split; [done|].
  by apply elem_of_sort_by in Hk.
Qed.

Context (py_str : json -> string) (creates : string -> bool).
Context (fadd fmul fdiv : pyfloat -> pyfloat -> pyfloat) (float_of : Z -> pyfloat).
Notation step := (step py_str creates fadd fmul fdiv float_of st).
Notation run := (run py_str creates fadd fmul fdiv float_of st).

(** The label keys a call uses. *)
Definition call_keys (c : telemetry_call) : list string :=
  match c with
  | Increment_ _ _ l | Record_ _ _ _ l | Observe_ _ _ l => dkeys l
  | Usage_ _ _ l => "token_type" :: "currency" :: dkeys l
  | Start _ _ _ _ _ _ _ _ _ | OnSpan _ _ => []
  end.

Definition short_keys (l : Metrics.labels) : Prop := Forall (fun e => String.length e.1 <= max_attribute_length st) l.

Lemma emit_fields counter name call c lv t :
  collector (emit creates st counter name call c lv t) = c /\ label_values (emit creates st counter name call c lv t) = lv.
Proof. unfold emit. by destruct (instrument _ _ _ _). Qed.

Lemma record_labels_ok now name v l t : short_keys l -> labels_ok t -> labels_ok (record creates st now name v l t).
Proof.
  intros Hl Ht. unfold record. destruct (bounded_labels _ _ _ _) as [b lv] eqn:Eb.
  destruct (emit_fields (Metrics.is_total name) name (if Metrics.is_total name then Add name v b else Measure name v b)
              (Metrics.record now name v b (collector t)) lv t) as [Hc Hlv].
  eapply labels_ok_emitted; [exact Ht | exact Hl | exact Eb | exact Hlv|]. intros n k x. rewrite Hc. apply shows_recorded.
Qed.

Lemma increment_labels_ok now name l t : short_keys l -> labels_ok t -> labels_ok (increment creates st now name l t).
Proof.
  intros Hl Ht. unfold increment. destruct (bounded_labels _ _ _ _) as [b lv] eqn:Eb.
  destruct (emit_fields true name (Add name (Finite 1) b) (Metrics.increment now name b (collector t)) lv t) as [Hc Hlv].
  eapply labels_ok_emitted; [exact Ht | exact Hl | exact Eb | exact Hlv|]. intros n k x. rewrite Hc. apply shows_recorded.
Qed.

Lemma observe_labels_ok name v l t : short_keys l -> labels_ok t -> labels_ok (observe_histogram creates fadd st name v l t).2.
Proof.
  intros Hl Ht. unfold observe_histogram. destruct (bounded_labels _ _ _ _) as [b lv] eqn:Eb.
  pose proof (fun n k x => shows_observed fadd name v b Metrics.default_buckets (collector t) n k x) as Ho.
  destruct (Metrics.observe_histogram _ _ _ _ _ _) as [[u|e] c]; cbn [snd] in *.
  all: eapply labels_ok_emitted; [exact Ht | exact Hl | exact Eb | | ].
  - apply emit_fields.
  - intros n k x. rewrite (proj1 (emit_fields _ _ _ _ _ _)). apply Ho.
  - done.
  - intros n k x. apply Ho.
Qed.

Lemma short_dset k v l : String.length k <= max_attribute_length st -> short_keys l -> short_keys (dset k v l).
Proof.
  unfold short_keys. rewrite !Forall_forall. intros Hk Hl e [->|He]%elem_dset; [done | by apply Hl].
Qed.

Lemma short_of l : (forall k, k ∈ dkeys l -> String.length k <= max_attribute_length st) -> short_keys l.
Proof. intros H. apply Forall_forall. intros e He. apply H, list_elem_of_fmap. by exists e. Qed.

Lemma step_labels_ok t c :
  (forall k, k ∈ call_keys c -> String.length k <= max_attribute_length st) -> labels_ok t -> labels_ok (step t c).
Proof.
  intros Hk Ht. destruct c as [o cur u u' now name trace parent a|i f|now name l|now name v l|name v l|now usage l];
    cbn [call_keys] in Hk; cbn [Telemetry.step]; [exact Ht | exact Ht| | | |].
  - apply increment_labels_ok; [by apply short_of | done].
  - apply record_labels_ok; [by apply short_of | done].
  - apply observe_labels_ok; [by apply short_of | done].
  - assert (Hl : short_keys l) by (apply short_of; intros k Hin; apply Hk; by do 2 right).
    assert (Ht1 : forall v, short_keys (dset "token_type" v l)) by (intros v; apply short_dset; [apply Hk; left | done]).
    assert (Hc1 : forall v, short_keys (dset "currency" v l)) by (intros v; apply short_dset; [apply Hk; right; left | done]).
    unfold record_model_usage. destruct usage as [|u usage]; [done|]. destruct (priced st); repeat (apply record_labels_ok; [done|]); done.
Qed.

(** cardinality: however many values callers give, a label of a metric
    shows at most [max_label_values] of them in the collector, besides
    ["[OTHER]"], in every metric, counter, gauge or histogram; for label keys
    that are not cut at [max_attribute_length]. *)
Theorem label_cardinality_bounded calls name k vs :
  (forall c key, c ∈ calls -> key ∈ call_keys c -> String.length key <= max_attribute_length st) ->
  NoDup vs -> (forall v, v ∈ vs -> shows_label (collector (run calls)) name k v) ->
  length vs <= S (max_label_values st).
Proof.
  intros Hkeys Hnd Hvs. assert (Hok : labels_ok (run calls)).
  { unfold Telemetry.run. apply foldl_invariant_elem; [|intros t c Hc; apply step_labels_ok; intros key; by apply Hkeys].
    split; [done|]. intros n key v [(m & Hm & _)|(e & He & _)]; [by apply not_elem_of_nil in Hm | by apply not_elem_of_nil in He]. }
  destruct Hok as [Hseen Hr].
  assert (Hsub : vs ⊆ other :: default [] (dget (name, k) (label_values (run calls)))).
  { intros v Hv. destruct (Hr _ _ _ (Hvs v Hv)) as [->|(seen & -> & Hin)]; [left | by right]. }
  apply NoDup_submseteq in Hsub; [|done]. apply submseteq_length in Hsub. cbn [length] in Hsub.
  destruct (dget (name, k) (label_values (run calls))) as [seen|] eqn:E; cbn in Hsub; [|lia].
  destruct (Hseen _ _ _ E) as (_ & Hlen & _). lia.
Qed.

End cardinality.

(** ** Token accounting *)

Section usage.
Context (creates : string -> bool) (fadd fmul fdiv : pyfloat -> pyfloat -> pyfloat) (float_of : Z -> pyfloat) (st : Settings).

Definition points (t : Telemetry) : list (string * pyfloat) :=
  (fun m => (Metrics.point_name m, Metrics.value m)) <$> Metrics.metrics (collector t).

Lemma record_points now name v l t : points (record creates st now name v l t) = (points t ++ [(name, v)])%list.
Proof.
  unfold record. destruct (bounded_labels _ _ _ _) as [b lv]. unfold points. rewrite (proj1 (emit_fields st creates _ _ _ _ _ _)).
  cbn. by rewrite fmap_app.
Qed.

(** what a model call adds to the metrics: the prompt, completion and
    total tokens, in that order, the total the provider's if it gives one and
    the sum of the two otherwise, none of them negative; and one cost when
    a price is configured, of the tokens that have a price. *)
Theorem usage_accounted now usage l t :
  usage <> [] ->
  points (record_model_usage creates fadd fmul fdiv float_of st now usage l t) =
    (points t ++
     ((fun n => ("model_tokens_total", float_of n)) <$>
       [usage_get "prompt_tokens" usage; usage_get "completion_tokens" usage; usage_total usage]) ++
     (if priced st then [("model_cost_usd_total", usage_cost fadd fmul fdiv float_of st usage)] else []))%list /\
  (0 <= usage_get "prompt_tokens" usage)%Z /\ (0 <= usage_get "completion_tokens" usage)%Z /\ (0 <= usage_total usage)%Z /\
  (~ dmem "total_tokens" usage -> usage_total usage = (usage_get "prompt_tokens" usage + usage_get "completion_tokens" usage)%Z).
Proof.
  intros Hne. assert (Hpos : forall k, (0 <= usage_get k usage)%Z) by (intros k; unfold usage_get, usage_count; lia).
  split_and!; [|apply Hpos..| |].
  - destruct usage as [|u usage]; [done|]. unfold record_model_usage. cbn zeta.
    destruct (priced st); rewrite !record_points; cbn [fmap list_fmap]; by rewrite <-!app_assoc.
  - unfold usage_total. pose proof (Hpos "prompt_tokens"). pose proof (Hpos "completion_tokens").
    destruct (dmem _ _); [apply Hpos | lia].
  - unfold usage_total. intros H. destruct (dmem "total_tokens" usage); [by destruct H | done].
Qed.

End usage.

(** ** Settings from the environment *)

Inductive telemetry_error : Type := ValueError (msg : string) | RuntimeError (msg : string).

Section environment.
Context (py_float : string -> option pyfloat) (environ : string -> option string) (otel_available : bool).

(** [_parse_bool] *)
Definition parse_bool (v : option string) (d : bool) : result telemetry_error bool :=
  match v with
  | None => Ok d
  | Some v =>
      let n := py_lower (py_strip v) in
      if memb n ["1"; "true"; "yes"; "on"] then Ok true
      else if memb n ["0"; "false"; "no"; "off"] then Ok false
      else Err (ValueError "invalid boolean value")
  end.

(** [_parse_positive_int] *)
Definition parse_positive_int (v : option string) (d : nat) : result telemetry_error nat :=
  match v with
  | None => Ok d
  | Some v =>
      match Config.py_int v with
      | None => Err (ValueError "invalid positive integer value")
      | Some z => if Z.ltb z 1 then Err (ValueError "value must be positive") else Ok (Z.to_nat z)
      end
  end.

Definition is_negative (f : pyfloat) : bool :=
  match f with Finite q => (q <? 0)%clock | Infinite negative => negative | NaN => false end.
Definition is_finite (f : pyfloat) : bool := match f with Finite _ => true | _ => false end.

(** [_parse_nonnegative_float] *)
Definition parse_nonnegative_float (v : option string) : result telemetry_error (option pyfloat) :=
  match v with
  | None => Ok None
  | Some v =>
      if py_blank v then Ok None
      else match py_float v with
           | None => Err (ValueError "invalid non-negative number value")
           | Some f => if is_negative f || negb (is_finite f) then Err (ValueError "value must be finite and non-negative")
                       else Ok (Some f)
           end
  end.

Definition price_ok (p : option pyfloat) : bool := match p with Some f => negb (is_negative f) && is_finite f | None => true end.

(** [Telemetry.__init__], without a tracer or meter of the caller's. *)
Definition construct (enabled capture : bool) (attribute_length label_values : nat) (input_cost output_cost : option pyfloat)
  : result telemetry_error Settings :=
  if Nat.ltb attribute_length 1 then Err (ValueError "max_attribute_length must be greater than zero")
  else if Nat.ltb label_values 1 then Err (ValueError "max_label_values must be greater than zero")
  else if negb (price_ok input_cost) then Err (ValueError "input_cost_per_1k_usd must be a finite non-negative number")
  else if negb (price_ok output_cost) then Err (ValueError "output_cost_per_1k_usd must be a finite non-negative number")
  else if enabled && negb otel_available then Err (RuntimeError "OpenTelemetry is enabled but unavailable")
  else Ok {| capture_content := capture; max_attribute_length := attribute_length; max_label_values := label_values;
             input_cost_per_1k_usd := input_cost; output_cost_per_1k_usd := output_cost; otel_tracer := enabled;
             otel_meter := enabled |}.

Definition service_name : string :=
  opt_or (environ "MICRO_AGENT_OTEL_SERVICE_NAME") (opt_or (environ "OTEL_SERVICE_NAME") "micro-agent").

(** [from_environment] *)
Definition from_environment : result telemetry_error Settings :=
  enabled ← parse_bool (environ "MICRO_AGENT_OTEL_ENABLED") false;
  capture ← parse_bool (environ "MICRO_AGENT_OTEL_CAPTURE_CONTENT") false;
  attribute_length ← parse_positive_int (environ "MICRO_AGENT_OTEL_MAX_ATTRIBUTE_LENGTH") 256;
  label_values ← parse_positive_int (environ "MICRO_AGENT_OTEL_MAX_LABEL_VALUES") 100;
  input_cost ← parse_nonnegative_float (environ "MICRO_AGENT_OTEL_INPUT_COST_PER_1K_USD");
  output_cost ← parse_nonnegative_float (environ "MICRO_AGENT_OTEL_OUTPUT_COST_PER_1K_USD");
  construct enabled capture attribute_length label_values input_cost output_cost.

Definition settings_ok (st : Settings) : Prop :=
  1 <= max_attribute_length st /\ 1 <= max_label_values st /\
  price_ok (input_cost_per_1k_usd st) = true /\ price_ok (output_cost_per_1k_usd st) = true.

Lemma construct_ok e c a l i o st : construct e c a l i o = Ok st -> settings_ok st.
Proof.
  unfold construct. destruct (Nat.ltb_spec a 1); [done|]. destruct (Nat.ltb_spec l 1); [done|].
  destruct (price_ok i) eqn:Ei; [|done]. destruct (price_ok o) eqn:Eo; [|done]. cbn. destruct (_ && _); [done|].
  by intros [= <-].
Qed.

Lemma environment_settings_ok st : from_environment = Ok st -> settings_ok st.
Proof.
  unfold from_environment. intros H. repeat (apply result_bind_ok in H as (? & _ & H)). by eapply construct_ok.
Qed.

End environment.

(** ** Examples *)

Definition demo_settings : Settings :=
  {| capture_content := false; max_attribute_length := 12; max_label_values := 2; input_cost_per_1k_usd := Some (Finite 1);
     output_cost_per_1k_usd := None; otel_tracer := true; otel_meter := true |}.
Definition demo_float_of (z : Z) : pyfloat := Finite (inject_Z z).
Definition demo_mul (a b : pyfloat) : pyfloat := match a, b with Finite x, Finite y => Finite (Qred (x * y)) | _, _ => NaN end.
Definition demo_div (a b : pyfloat) : pyfloat := match a, b with Finite x, Finite y => Finite (Qred (x / y)) | _, _ => NaN end.
Definition demo_run : list telemetry_call -> Telemetry :=
  run (fun _ => "") (fun _ => true) Metrics.demo_add demo_mul demo_div demo_float_of demo_settings.

(** A secret set on a running span is sent as it is: only the attributes a
    span starts with are redacted. *)
Example late_attribute_is_not_redacted :
  sent <$> spans (demo_run [Start (Some None) None "u" "v" 0 "call" None None [("api_key", JStr "k1"); ("prompt", JStr "p")];
                            OnSpan 0 (Attribute "api_key" (JStr "k1")); OnSpan 0 (Attribute "Prompt" (JStr "p"));
                            OnSpan 0 (Finish 1); OnSpan 0 (Finish 2)]) =
  [[StartSpan "call" [("api_key", JStr "[REDACTED]")]; SetAttribute "api_key" (JStr "k1"); EndSpan; Detach]].
Proof. vm_compute. reflexivity. Qed.

(** A cost is recorded when the provider gave no token count at all. *)
Example cost_without_tokens :
  points (demo_run [Usage_ 0 [("model", JStr "m")] []]) =
  [("model_tokens_total", Finite 0); ("model_tokens_total", Finite 0); ("model_tokens_total", Finite 0);
   ("model_cost_usd_total", Finite 0)].
Proof. vm_compute. reflexivity. Qed.

Definition demo_label_calls : list telemetry_call :=
  (fun v => Increment_ 0 "calls_total" [("agent", v)]) <$> ["a"; "b"; "c"; "d"; "a"].

Lemma label_cardinality_bounded_witness : length ["a"; "b"; "[OTHER]"] <= 3.
Proof.
  apply (label_cardinality_bounded demo_settings (fun _ => "") (fun _ => true) Metrics.demo_add demo_mul demo_div demo_float_of
           demo_label_calls "calls_total" "agent" ["a"; "b"; "[OTHER]"]).
  - intros c key Hc Hk. assert (Hall : forallb (fun c => forallb (fun k => Nat.leb (String.length k) 12) (call_keys c)) demo_label_calls = true)
      by (vm_compute; reflexivity).
    pose proof (proj1 (forallb_elem _ _) Hall c Hc) as Hck. exact (proj1 (Nat.leb_le _ _) (proj1 (forallb_elem _ _) Hck key Hk)).
  - refine (bool_decide_eq_true_1 _ _). vm_compute. reflexivity.
  - intros v Hv. left.
    assert (Hall : forallb (fun v => existsb (fun m => String.eqb (Metrics.point_name m) "calls_total" &&
                      memb ("agent", v) (Metrics.point_labels m)) (Metrics.metrics (collector (demo_run demo_label_calls))))
                    ["a"; "b"; "[OTHER]"] = true) by (vm_compute; reflexivity).
    pose proof (proj1 (forallb_elem _ _) Hall v Hv) as Hx. apply existsb_elem in Hx as (m & Hm & Hx).
    apply andb_prop in Hx as [Hn Hl]. exists m. split; [exact Hm|]. split; [by apply String.eqb_eq|]. by apply memb_true.
Defined.

Lemma usage_accounted_witness :
  points (demo_run [Usage_ 0 [("prompt_tokens", JInt 3000); ("completion_tokens", JStr "4")] []]) =
  [("model_tokens_total", Finite 3000); ("model_tokens_total", Finite 4); ("model_tokens_total", Finite 3004);
   ("model_cost_usd_total", Finite 3)].
Proof.
  destruct (usage_accounted (fun _ => true) Metrics.demo_add demo_mul demo_div demo_float_of demo_settings 0
              [("prompt_tokens", JInt 3000); ("completion_tokens", JStr "4")] [] new_telemetry ltac:(discriminate)) as [H _].
  exact H.
Defined.

Example demo_environment :
  from_environment (fun _ => Some (Finite 2)) (fun k => if String.eqb k "MICRO_AGENT_OTEL_INPUT_COST_PER_1K_USD" then Some "2"
                                                       else if String.eqb k "MICRO_AGENT_OTEL_ENABLED" then Some " ON " else None) true =
  Ok {| capture_content := false; max_attribute_length := 256; max_label_values := 100; input_cost_per_1k_usd := Some (Finite 2);
        output_cost_per_1k_usd := None; otel_tracer := true; otel_meter := true |}.
Proof. vm_compute. reflexivity. Qed.

End Telemetry.
