(* ===== verification/Providers.v ===== *)
(** * Model providers: wire formats and streams

    [models/model.py] and [models/fake.py], and what the two wire formats
    ([Anthropic], [OpenAI]) share.  HTTP is a parameter: what a request returns, or the
    lines of a streamed body.  [json.loads] and [str] of a value are parameters
    too. *)

From Stdlib Require Import Ascii.
From S2P Require Import Prelude Json Tables Urls Config.
Import Urls.
Local Open Scope string_scope.

Module Providers.

(** ** The contract *)

Record ModelConfig : Type := { config_model_id : option string; generation : list (string * json) }.

(** A tool request: its [id], [name] and [arguments]. *)
Record request : Type := { id : json; name : json; arguments : json }.

Record ModelResponse : Type := {
  content : json;
  tool_requests : list request;
  finish_reason : json;
  usage : list (string * Z);
  metadata : list (string * json)
}.

Record ProviderCapabilities : Type := { tool_use : bool; streaming : bool; structured_output : bool }.

(** [ModelProvider.capabilities] of a provider that reports none. *)
Definition no_capabilities : ProviderCapabilities := {| tool_use := false; streaming := false; structured_output := false |}.

Inductive error : Type :=
  | ValueError | TypeError | KeyError | AttributeError | JSONDecodeError | NotImplementedError
  | HTTPError | RuntimeError (msg : string).

(** *** Reading untyped values *)

(** [x.get(k, d)] *)
Definition get_or (k : string) (d : json) (x : json) : result error json :=
  match x with JObj o => Ok (default d (dget k o)) | _ => Err AttributeError end.
Definition get (k : string) (x : json) : result error json := get_or k JNull x.

(** [a or b] *)
Definition py_or (a b : json) : json := if py_truthy a then a else b.

(** [for item in x], when only an object item is of use: what the loop meets, or
    why it fails.  Characters and keys are texts. *)
Definition iterate (x : json) : result error (list json) :=
  match x with
  | JList l => Ok l
  | JStr s => Ok ((fun c => JStr (String c EmptyString)) <$> String.list_ascii_of_string s)
  | JObj d => Ok (JStr <$> dkeys d)
  | _ => Err TypeError
  end.

Definition is_int (x : json) : option Z := match x with JInt z => Some z | JBool b => Some (Z.b2z b) | _ => None end.
(** [type(x) is int] *)
Definition exactly_int (x : json) : option Z := match x with JInt z => Some z | _ => None end.

(** [int(x)] *)
Definition to_int (x : json) : result error Z :=
  match x with
  | JInt z => Ok z
  | JBool b => Ok (Z.b2z b)
  | JFloat q => Ok (Z.quot (Qnum q) (Zpos (Qden q)))
  | JStr s => match Config.py_int s with Some z => Ok z | None => Err ValueError end
  | _ => Err TypeError
  end.

Definition concat (l : list string) : string := foldr String.append "" l.

Lemma concat_app l k : concat (l ++ k) = (concat l ++ concat k)%string.
Proof. unfold concat. induction l as [|y l IH]; [done|]. cbn. by rewrite IH, text_app_assoc. Qed.
Lemma concat_snoc l x : concat (l ++ [x]) = (concat l ++ x)%string.
Proof. rewrite concat_app. cbn. by rewrite text_app_nil_r. Qed.

Fixpoint rstrip_slash (s : string) : string :=
  match s with
  | EmptyString => EmptyString
  | String c s => match rstrip_slash s with
                  | EmptyString => if Ascii.eqb c ("/"%char) then EmptyString else String c EmptyString
                  | r => String c r
                  end
  end.

Definition ends_with (suffix s : string) : bool := String.prefix (srev suffix) (srev s).

(** The tool descriptions sent with a request. *)
Definition tool_name (t : list (string * json)) : result error json :=
  match dget "name" t with Some n => Ok n | None => Err KeyError end.
Definition tool_field (k : string) (d : json) (t : list (string * json)) : json := default d (dget k t).

Section wire.
Context (py_str : json -> string) (loads : string -> option json).

Definition text_of (j : json) : string := py_text py_str j.

(** [_tool_arguments] *)
Definition tool_arguments (raw : json) : json :=
  match raw with
  | JObj _ => raw
  | JStr s =>
      if str_truthy s then
        match loads s with
        | None => JObj [("raw", raw)]
        | Some (JObj d) => JObj d
        | Some v => JObj [("value", v)]
        end
      else JObj []
  | _ => JObj []
  end.

(** One event of a streamed body; [None] for a line that carries none. *)
Definition sse_event (line : string) : option (result error json) :=
  if negb (String.prefix "data:" line) then None
  else
    let raw := py_strip (String.substring 5 (String.length line - 5) line) in
    if negb (str_truthy raw) || String.eqb raw "[DONE]" then None
    else Some (match loads raw with Some j => Ok j | None => Err JSONDecodeError end).

End wire.

(** ** The fake provider *)

Record FakeModelConfig : Type := {
  response : string;
  fake_requests : list request;
  should_error : bool;
  error_message : string;
  stream_chunks : option (list string);
  fake_usage : list (string * Z)
}.

(** [FakeModelConfig()] *)
Definition default_config : FakeModelConfig :=
  {| response := "fake response"; fake_requests := []; should_error := false; error_message := "fake model error";
     stream_chunks := None; fake_usage := [("prompt_tokens", 10%Z); ("completion_tokens", 5%Z)] |}.

Record FakeModelProvider : Type := {
  config : FakeModelConfig;
  invocations : list (ModelConfig * list (list (string * json)) * list (list (string * json)))
}.

Definition recorded (p : FakeModelProvider) (c : ModelConfig) (messages tools : list (list (string * json))) : FakeModelProvider :=
  {| config := config p; invocations := (invocations p ++ [(c, messages, tools)])%list |}.

Definition respond (p : FakeModelProvider) (text : string) : ModelResponse :=
  {| content := JStr text; tool_requests := fake_requests (config p); finish_reason := JStr "stop";
     usage := fake_usage (config p); metadata := [] |}.

Definition generate (c : ModelConfig) (messages tools : list (list (string * json))) (p : FakeModelProvider)
  : result error ModelResponse * FakeModelProvider :=
  let p := recorded p c messages tools in
  if should_error (config p) then (Err (RuntimeError (error_message (config p))), p)
  else (Ok (respond p (response (config p))), p).

Definition stream (c : ModelConfig) (messages tools : list (list (string * json))) (p : FakeModelProvider)
  : list string * result error ModelResponse * FakeModelProvider :=
  match stream_chunks (config p) with
  | None => ([], Err NotImplementedError, p)
  | Some chunks =>
      let p := recorded p c messages tools in
      if should_error (config p) then ([], Err (RuntimeError (error_message (config p))), p)
      else (chunks, Ok (respond p (concat chunks)), p)
  end.

Definition fake_capabilities (p : FakeModelProvider) : ProviderCapabilities :=
  {| tool_use := true; streaming := bool_decide (is_Some (stream_chunks (config p))); structured_output := false |}.

End Providers.
