(* ===== verification/Anthropic.v ===== *)
(** * The Anthropic Messages API

    [models/anthropic.py]: the conversation and the tools in the wire format, the
    response and its stream; a streamed message is the message, and a
    conversation is kept.  The HTTP client is a parameter. *)

From Stdlib Require Import Ascii.
From S2P Require Import Prelude Json Tables Urls Config Providers.
Import Urls Providers.
Local Open Scope string_scope.

Module Anthropic.
Section anthropic.
Context (py_str : json -> string) (loads : string -> option json).
#[local] Notation text_of := (text_of py_str).
#[local] Notation tool_arguments := (tool_arguments loads).
#[local] Notation sse_event := (sse_event loads).

Record AnthropicConfig : Type := {
  endpoint : string;
  model_id : string;
  api_key : option string;
  api_version : string;
  timeout_seconds : Q;
  default_headers : list (string * string)
}.

(** The checks of [AnthropicProvider.__init__]. *)
Definition config_ok (c : AnthropicConfig) : bool := str_truthy (model_id c) && (0 <? timeout_seconds c)%clock.

(** [_versioned_endpoint] *)
Definition versioned_endpoint (c : AnthropicConfig) (resource : string) : string :=
  let base := rstrip_slash (endpoint c) in
  base ++ (if ends_with "/v1" base then "/" else "/v1/") ++ resource.

Definition headers (c : AnthropicConfig) : list (string * string) :=
  let h := dict_of ([("Accept", "application/json"); ("Content-Type", "application/json");
                     ("anthropic-version", api_version c)] ++ default_headers c)%list in
  if opt_truthy (api_key c) then dset "x-api-key" (default "" (api_key c)) h else h.

(** [_content_text] *)
Definition content_text (c : json) : string :=
  match c with
  | JStr s => s
  | JNull => ""
  | JList l => concat ((fun i => match i with
                                 | JObj d => match dget "text" d with Some (JStr s) => s | _ => text_of i end
                                 | _ => text_of i
                                 end) <$> l)
  | _ => py_str c
  end.

(** A converted message: its role and content. *)
Definition wire_message : Type := string * json.

(** [blocks] of [_merge_content] *)
Definition blocks (v : json) : list json :=
  match v with JList l => l | _ => [JObj [("type", JStr "text"); ("text", JStr (content_text v))]] end.
Definition merge_content (existing incoming : json) : json := JList (blocks existing ++ blocks incoming)%list.

(** [_append_message] *)
Fixpoint append_message (ms : list wire_message) (role : string) (c : json) : list wire_message :=
  match ms with
  | [] => [(role, c)]
  | [m] => if String.eqb m.1 role then [(m.1, merge_content m.2 c)] else [m; (role, c)]
  | m :: ms => m :: append_message ms role c
  end.
(** [_append_user_block] *)
Definition append_user_block (ms : list wire_message) (block : json) : list wire_message := append_message ms "user" (JList [block]).

Definition tool_use_block (call : json) : result error json :=
  f ← get "function" call;
  let f := py_or f (JObj []) in
  i ← get "id" call; n ← get "name" f; a ← get "arguments" f;
  Ok (JObj [("type", JStr "tool_use"); ("id", JStr (text_of (py_or i (JStr "tool-call"))));
            ("name", JStr (text_of (py_or n (JStr "")))); ("input", tool_arguments a)]).

Definition text_blocks (c : json) : list json :=
  let t := content_text c in if str_truthy t then [JObj [("type", JStr "text"); ("text", JStr t)]] else [].

(** The loop of [_payload]: the system texts and the messages so far. *)
Definition convert_message (acc : list string * list wire_message) (m : list (string * json))
  : result error (list string * list wire_message) :=
  let '(system, ms) := acc in
  let role := text_of (default (JStr "user") (dget "role" m)) in
  let c := default (JStr "") (dget "content" m) in
  if String.eqb role "system" then
    let t := content_text c in Ok (if str_truthy t then (system ++ [t])%list else system, ms)
  else if String.eqb role "tool" then
    let i := py_or (py_or (default JNull (dget "tool_call_id" m)) (default JNull (dget "name" m))) (JStr "tool") in
    Ok (system, append_user_block ms (JObj [("type", JStr "tool_result"); ("tool_use_id", JStr (text_of i));
                                            ("content", JStr (content_text c))]))
  else if String.eqb role "assistant" && py_truthy (default JNull (dget "tool_calls" m)) then
    calls ← iterate (default JNull (dget "tool_calls" m));
    uses ← mapM tool_use_block calls;
    Ok (system, append_message ms "assistant" (JList (text_blocks c ++ uses)%list))
  else Ok (system, append_message ms (if memb role ["user"; "assistant"] then role else "user") c).

Fixpoint convert (acc : list string * list wire_message) (l : list (list (string * json)))
  : result error (list string * list wire_message) :=
  match l with [] => Ok acc | m :: l => acc ← convert_message acc m; convert acc l end.

Definition tool_json (t : list (string * json)) : result error json :=
  n ← tool_name t;
  Ok (JObj [("name", n); ("description", tool_field "description" (JStr "") t); ("input_schema", tool_field "input_schema" (JObj []) t)]).

Definition max_tokens (g : list (string * json)) : result error json :=
  let v := default (JInt 1024) (dget "max_tokens" g) in
  match is_int v with Some z => if Z.ltb z 1 then Err ValueError else Ok v | None => Err ValueError end.

Definition message_json (m : wire_message) : json := JObj [("role", JStr m.1); ("content", m.2)].

(** [_payload] *)
Definition payload (c : AnthropicConfig) (config : ModelConfig) (messages : list (list (string * json)))
    (tools : list (list (string * json))) : result error (list (string * json)) :=
  '(system, ms) ← convert ([], []) messages;
  m ← max_tokens (generation config);
  let p := [("model", JStr (opt_or (config_model_id config) (model_id c))); ("max_tokens", m);
            ("messages", JList (message_json <$> ms))] in
  let p := if bool_decide (system = []) then p else dset "system" (JStr (String.concat (String (ascii_of_nat 10) (String (ascii_of_nat 10) "")) system)) p in
  ts ← mapM tool_json tools;
  let p := match tools with [] => p | _ => dset "tools" (JList ts) p end in
  Ok (Config.update p (dpop "max_tokens" (generation config))).

(** [_merge_usage] *)
Definition merge_usage (target : list (string * Z)) (source : json) : list (string * Z) :=
  match source with
  | JObj d =>
      let t := match dget "input_tokens" d ≫= is_int with Some z => dset "prompt_tokens" z target | None => target end in
      let t := match dget "output_tokens" d ≫= is_int with Some z => dset "completion_tokens" z t | None => t end in
      if dmem "prompt_tokens" t || dmem "completion_tokens" t then
        dset "total_tokens" (default 0 (dget "prompt_tokens" t) + default 0 (dget "completion_tokens" t))%Z t
      else t
  | _ => target
  end.

(** A block of a response: its text, or the request it makes. *)
Definition block_text (b : json) : list string :=
  match b with
  | JObj d => match dget "type" d, dget "text" d with Some (JStr "text"), Some (JStr s) => [s] | _, _ => [] end
  | _ => []
  end.
Definition block_request (b : json) : list request :=
  match b with
  | JObj d =>
      match dget "type" d with
      | Some (JStr "tool_use") =>
          [{| id := default JNull (dget "id" d); name := default (JStr "") (dget "name" d);
              arguments := match dget "input" d with Some (JObj i) => JObj i | _ => JObj [] end |}]
      | _ => []
      end
  | _ => []
  end.

(** [_parse_response] *)
Definition parse_response (data : json) : result error ModelResponse :=
  match data with
  | JObj d =>
      bs ← iterate (py_or (default JNull (dget "content" d)) (JList []));
      Ok {| content := JStr (concat (bs ≫= block_text)); tool_requests := bs ≫= block_request;
            finish_reason := JStr (text_of (py_or (default JNull (dget "stop_reason" d)) (JStr "stop")));
            usage := merge_usage [] (default JNull (dget "usage" d));
            metadata := [("id", default JNull (dget "id" d)); ("model", default JNull (dget "model" d))] |}
  | _ => Err ValueError
  end.

(** [generate], given what the [POST] returns. *)
Definition generate (post : string -> list (string * string) -> list (string * json) -> result error json)
    (c : AnthropicConfig) (config : ModelConfig) (messages tools : list (list (string * json))) : result error ModelResponse :=
  p ← payload c config messages tools;
  data ← post (versioned_endpoint c "messages") (headers c) p;
  parse_response data.

(** *** The stream *)

Record call_state : Type := { call_id : string; call_name : string; partial : string }.
Record stream_state : Type := {
  text_parts : list string;
  calls : list (Z * call_state);
  stop_reason : string;
  stream_usage : list (string * Z)
}.
Definition stream_start : stream_state := {| text_parts := []; calls := []; stop_reason := "stop"; stream_usage := [] |}.

Definition with_calls (s : stream_state) (l : list (Z * call_state)) : stream_state :=
  {| text_parts := text_parts s; calls := l; stop_reason := stop_reason s; stream_usage := stream_usage s |}.
Definition with_usage (s : stream_state) (u : json) : stream_state :=
  {| text_parts := text_parts s; calls := calls s; stop_reason := stop_reason s; stream_usage := merge_usage (stream_usage s) u |}.
Definition with_stop (s : stream_state) (r : string) : stream_state :=
  {| text_parts := text_parts s; calls := calls s; stop_reason := r; stream_usage := stream_usage s |}.
Definition with_text (s : stream_state) (t : string) : stream_state :=
  {| text_parts := (text_parts s ++ [t])%list; calls := calls s; stop_reason := stop_reason s; stream_usage := stream_usage s |}.

Definition is_str (x : string) (j : json) : bool := match j with JStr s => String.eqb s x | _ => false end.

Definition block_start (s : stream_state) (e : json) : result error stream_state :=
  b ← get "content_block" e;
  let b := py_or b (JObj []) in
  t ← get "type" b;
  if is_str "tool_use" t then
    i ← get_or "index" (JInt 0) e; i ← to_int i;
    c ← get "id" b; n ← get "name" b;
    Ok (with_calls s (dset i {| call_id := text_of (py_or c (JStr "tool-call")); call_name := text_of (py_or n (JStr ""));
                                partial := "" |} (calls s)))
  else Ok s.

Definition block_delta (s : stream_state) (e : json) : result error (list string * stream_state) :=
  d ← get "delta" e;
  let d := py_or d (JObj []) in
  t ← get "type" d;
  if is_str "text_delta" t then
    x ← get "text" d;
    match x with JStr x => Ok (if str_truthy x then ([x], with_text s x) else ([], s)) | _ => Ok ([], s) end
  else if is_str "input_json_delta" t then
    i ← get_or "index" (JInt 0) e; i ← to_int i;
    p ← get "partial_json" d;
    let c := default {| call_id := "tool-call"; call_name := ""; partial := "" |} (dget i (calls s)) in
    Ok ([], with_calls s (dset i {| call_id := call_id c; call_name := call_name c;
                                    partial := partial c ++ text_of (py_or p (JStr "")) |} (calls s)))
  else Ok ([], s).

(** One event: the deltas it yields and the new state. *)
Definition stream_step (s : stream_state) (e : json) : result error (list string * stream_state) :=
  t ← get "type" e;
  if is_str "message_start" t then
    m ← get_or "message" (JObj []) e; u ← get "usage" m; Ok ([], with_usage s u)
  else if is_str "content_block_start" t then (fun s => ([], s)) <$> block_start s e
  else if is_str "content_block_delta" t then block_delta s e
  else if is_str "message_delta" t then
    d ← get "delta" e;
    let d := py_or d (JObj []) in
    r ← get "stop_reason" d;
    u ← get "usage" e;
    Ok ([], with_usage (if py_truthy r then with_stop s (text_of r) else s) u)
  else Ok ([], s).

Definition final_response (s : stream_state) : ModelResponse :=
  {| content := JStr (concat (text_parts s));
     tool_requests := (fun c => {| id := JStr (call_id c.2); name := JStr (call_name c.2); arguments := tool_arguments (JStr (partial c.2)) |}) <$>
                        sort_by (fun a b => Z.leb a.1 b.1) (calls s);
     finish_reason := JStr (stop_reason s); usage := stream_usage s; metadata := [] |}.

(** The lines of the body: the deltas yielded, and the response the last event
    carries or the error that ended the stream. *)
Fixpoint stream_lines (s : stream_state) (lines : list string) : list string * result error ModelResponse :=
  match lines with
  | [] => ([], Ok (final_response s))
  | line :: lines =>
      match sse_event line with
      | None => stream_lines s lines
      | Some e =>
          match e ≫= stream_step s with
          | Err x => ([], Err x)
          | Ok (ds, s) => let '(ds', r) := stream_lines s lines in ((ds ++ ds')%list, r)
          end
      end
  end.

(** [stream] *)
Definition stream (open : string -> list (string * string) -> list (string * json) -> result error (list string))
    (c : AnthropicConfig) (config : ModelConfig) (messages tools : list (list (string * json)))
  : list string * result error ModelResponse :=
  match payload c config messages tools with
  | Err e => ([], Err e)
  | Ok p =>
      match open (versioned_endpoint c "messages") (headers c) (dset "stream" (JBool true) p) with
      | Err e => ([], Err e)
      | Ok lines => stream_lines stream_start lines
      end
  end.

Definition capabilities : ProviderCapabilities := {| tool_use := true; streaming := true; structured_output := false |}.

(** [health_check], given the status of the [GET]. *)
Definition health_check (probe : string -> option Z) (c : AnthropicConfig) : bool :=
  match probe (versioned_endpoint c "models") with Some status => Z.ltb status 500 | None => false end.

End anthropic.

(** ** A streamed message is the message *)

(** A block of the whole response. *)
Inductive block : Type := TextBlock (text : string) | ToolBlock (id name : string) (input : list (string * json)).

Definition block_json (b : block) : json :=
  match b with
  | TextBlock t => JObj [("type", JStr "text"); ("text", JStr t)]
  | ToolBlock i n a => JObj [("type", JStr "tool_use"); ("id", JStr i); ("name", JStr n); ("input", JObj a)]
  end.

Definition response_json (mid model : json) (bs : list block) (reason : string) (input output : Z) : json :=
  JObj [("id", mid); ("model", model); ("content", JList (block_json <$> bs)); ("stop_reason", JStr reason);
        ("usage", JObj [("input_tokens", JInt input); ("output_tokens", JInt output)])].

(** The events of a block cut into pieces. *)
Definition start_json (b : block) : json :=
  match b with
  | TextBlock _ => JObj [("type", JStr "text"); ("text", JStr "")]
  | ToolBlock i n _ => JObj [("type", JStr "tool_use"); ("id", JStr i); ("name", JStr n); ("input", JObj [])]
  end.
Definition delta_json (b : block) (piece : string) : json :=
  match b with
  | TextBlock _ => JObj [("type", JStr "text_delta"); ("text", JStr piece)]
  | ToolBlock _ _ _ => JObj [("type", JStr "input_json_delta"); ("partial_json", JStr piece)]
  end.
Definition block_events (i : Z) (b : block) (pieces : list string) : list json :=
  (JObj [("type", JStr "content_block_start"); ("index", JInt i); ("content_block", start_json b)] ::
   ((fun p => JObj [("type", JStr "content_block_delta"); ("index", JInt i); ("delta", delta_json b p)]) <$> pieces) ++
   [JObj [("type", JStr "content_block_stop"); ("index", JInt i)]])%list.

Fixpoint all_events (i : Z) (l : list (block * list string)) : list json :=
  match l with [] => [] | (b, pieces) :: l => (block_events i b pieces ++ all_events (i + 1) l)%list end.

Definition opening (input output : Z) : json :=
  JObj [("type", JStr "message_start");
        ("message", JObj [("usage", JObj [("input_tokens", JInt input); ("output_tokens", JInt output)])])].
Definition closing (reason : string) (output : Z) : list json :=
  [JObj [("type", JStr "message_delta"); ("delta", JObj [("stop_reason", JStr reason)]);
         ("usage", JObj [("output_tokens", JInt output)])]; JObj [("type", JStr "message_stop")]].

Section streamed.
Context (py_str : json -> string) (loads : string -> option json).

(** The pieces are those of the block. *)
Definition pieces_ok (bp : block * list string) : Prop :=
  match bp.1 with
  | TextBlock t => concat bp.2 = t
  | ToolBlock i _ a => str_truthy i = true /\ tool_arguments loads (JStr (concat bp.2)) = JObj a
  end.

Fixpoint stream_events (s : stream_state) (es : list json) : list string * result error ModelResponse :=
  match es with
  | [] => ([], Ok (final_response loads s))
  | e :: es =>
      match stream_step py_str s e with
      | Err x => ([], Err x)
      | Ok (ds, s) => let '(ds', r) := stream_events s es in ((ds ++ ds')%list, r)
      end
  end.

Lemma message_lines_events s lines es :
  omap (sse_event loads) lines = Ok <$> es -> stream_lines py_str loads s lines = stream_events s es.
Proof.
  revert s es. induction lines as [|l lines IH]; intros s es; [destruct es; cbn; [done | intros [=]]|]. cbn.
  destruct (sse_event loads l) as [e|]; [|apply IH]. destruct es as [|e' es]; [done|]. intros [= -> Hes].
  cbn [stream_events mbind result_bind]. destruct (stream_step py_str s e') as [[ds s']|x]; [|done]. by rewrite (IH s' es Hes).
Qed.

(** Steps that only move the state. *)
Fixpoint steps (s : stream_state) (es : list json) : option (list string * stream_state) :=
  match es with
  | [] => Some ([], s)
  | e :: es =>
      match stream_step py_str s e with
      | Err _ => None
      | Ok (ds, s) => '(ds', s) ← steps s es; Some ((ds ++ ds')%list, s)
      end
  end.

Lemma stream_events_steps s es es' ds s' :
  steps s es = Some (ds, s') ->
  stream_events s (es ++ es') = let '(ds', r) := stream_events s' es' in ((ds ++ ds')%list, r).
Proof.
  revert s ds. induction es as [|e es IH]; intros s ds; cbn [steps app stream_events].
  - intros [= <- <-]. by destruct (stream_events s es').
  - destruct (stream_step py_str s e) as [[d1 s1]|]; [|done]. destruct (steps s1 es) as [[d2 s2]|] eqn:E; [|done].
    cbn. intros [= <- <-]. rewrite (IH s1 d2 E). destruct (stream_events s2 es'). by rewrite app_assoc.
Qed.

Lemma steps_app s es es' ds s' ds' s'' :
  steps s es = Some (ds, s') -> steps s' es' = Some (ds', s'') -> steps s (es ++ es') = Some ((ds ++ ds')%list, s'').
Proof.
  revert s ds. induction es as [|e es IH]; intros s ds; cbn [steps app].
  - intros [= <- <-] H. exact H.
  - destruct (stream_step py_str s e) as [[d1 s1]|]; [|done]. destruct (steps s1 es) as [[d2 s2]|] eqn:E; [|done].
    cbn. intros [= <- <-] H. rewrite (IH s1 d2 E H). cbn. by rewrite app_assoc.
Qed.

Definition state_of (b : block) (pieces : list string) : option call_state :=
  match b with
  | TextBlock _ => None
  | ToolBlock i n _ => Some {| call_id := i; call_name := n; partial := concat pieces |}
  end.
Definition shown (b : block) (pieces : list string) : list string :=
  match b with TextBlock _ => filterb str_truthy pieces | ToolBlock _ _ _ => [] end.

Definition moved (s : stream_state) (texts : list string) (l : list (Z * call_state)) : stream_state :=
  {| text_parts := (text_parts s ++ texts)%list; calls := (calls s ++ l)%list; stop_reason := stop_reason s;
     stream_usage := stream_usage s |}.

Lemma text_deltas s i t pieces :
  steps s ((fun p => JObj [("type", JStr "content_block_delta"); ("index", JInt i); ("delta", delta_json (TextBlock t) p)]) <$> pieces) =
  Some (filterb str_truthy pieces, moved s (filterb str_truthy pieces) []).
Proof.
  revert s. induction pieces as [|p pieces IH]; intros s.
  - unfold moved. destruct s. cbn. by rewrite !app_nil_r.
  - cbn [fmap list_fmap steps].
    set (e := JObj _). assert (stream_step py_str s e = Ok (if str_truthy p then ([p], with_text s p) else ([], s))) as -> by done.
    destruct (str_truthy p) eqn:E; rewrite IH; cbn; rewrite E; [|done]. cbn. f_equal. f_equal. unfold moved. cbn. by rewrite <-app_assoc.
Qed.

Definition last_call (s : stream_state) (l : list (Z * call_state)) (i : Z) (c : call_state) : stream_state :=
  with_calls s (l ++ [(i, c)])%list.

Lemma dset_last (i : Z) (c c' : call_state) l : i ∉ dkeys l -> dset i c' (l ++ [(i, c)]) = (l ++ [(i, c')])%list /\ dget i (l ++ [(i, c)]) = Some c.
Proof.
  induction l as [|[k v] l IH]; cbn; intros Hi; [split; by rewrite decide_True|].
  apply not_elem_of_cons in Hi as [Hne Hi]. rewrite decide_False, decide_False by done. destruct (IH Hi) as [-> ->]. done.
Qed.

Lemma tool_deltas s l i ident n a c pieces :
  i ∉ dkeys l ->
  steps (last_call s l i c)
    ((fun p => JObj [("type", JStr "content_block_delta"); ("index", JInt i); ("delta", delta_json (ToolBlock ident n a) p)]) <$> pieces) =
  Some ([], last_call s l i {| call_id := call_id c; call_name := call_name c; partial := partial c ++ concat pieces |}).
Proof.
  intros Hi. revert c. induction pieces as [|p pieces IH]; intros c.
  - cbn. rewrite text_app_nil_r. by destruct c.
  - cbn [fmap list_fmap steps]. set (e := JObj _).
    assert (stream_step py_str (last_call s l i c) e =
            Ok ([], last_call s l i {| call_id := call_id c; call_name := call_name c; partial := partial c ++ p |})) as ->.
    { change (stream_step py_str (last_call s l i c) e) with
        (@Ok error _ (@nil string, with_calls (last_call s l i c)
           (dset i {| call_id := call_id (default {| call_id := "tool-call"; call_name := ""; partial := "" |} (dget i (l ++ [(i, c)]))%list);
                      call_name := call_name (default {| call_id := "tool-call"; call_name := ""; partial := "" |} (dget i (l ++ [(i, c)]))%list);
                      partial := partial (default {| call_id := "tool-call"; call_name := ""; partial := "" |} (dget i (l ++ [(i, c)]))%list) ++
                                 text_of py_str (py_or (JStr p) (JStr "")) |} (l ++ [(i, c)])%list))).
      destruct (dset_last i c c l Hi) as [_ ->]. cbn [default]. rewrite (proj1 (dset_last i c _ l Hi)).
      by destruct p. }
    rewrite IH. cbn. by rewrite text_app_assoc.
Qed.

Lemma start_step s i b :
  stream_step py_str s (JObj [("type", JStr "content_block_start"); ("index", JInt i); ("content_block", start_json b)]) =
  Ok ([], match b with
          | TextBlock _ => s
          | ToolBlock ident n _ =>
              with_calls s (dset i {| call_id := text_of py_str (py_or (JStr ident) (JStr "tool-call"));
                                      call_name := text_of py_str (py_or (JStr n) (JStr "")); partial := "" |} (calls s))
          end).
Proof. by destruct b. Qed.

Lemma stop_steps s i : steps s [JObj [("type", JStr "content_block_stop"); ("index", JInt i)]] = Some ([], s).
Proof. done. Qed.

Lemma block_steps s i b pieces :
  pieces_ok (b, pieces) -> i ∉ dkeys (calls s) ->
  steps s (block_events i b pieces) =
  Some (shown b pieces, moved s (shown b pieces) (option_list ((fun c => (i, c)) <$> state_of b pieces))).
Proof.
  intros Hp Hi. unfold block_events. cbn [steps]. rewrite start_step. destruct b as [t|ident n a].
  - rewrite (steps_app _ _ _ _ _ _ _ (text_deltas s i t pieces) (stop_steps _ i)). cbn. by rewrite app_nil_r.
  - destruct Hp as [Hid _]. rewrite (dset_fresh i) by (by apply dget_None).
    assert (text_of py_str (py_or (JStr ident) (JStr "tool-call")) = ident) as -> by (by destruct ident).
    assert (text_of py_str (py_or (JStr n) (JStr "")) = n) as -> by (by destruct n).
    change (with_calls s (calls s ++ [(i, ?c)])%list) with (last_call s (calls s) i c).
    rewrite (steps_app _ _ _ _ _ _ _ (tool_deltas s (calls s) i ident n a _ pieces Hi) (stop_steps _ i)).
    cbn. unfold last_call, moved, with_calls. cbn. by rewrite app_nil_r.
Qed.

Fixpoint all_states (i : Z) (l : list (block * list string)) : list (Z * call_state) :=
  match l with
  | [] => []
  | (b, pieces) :: l => (option_list ((fun c => (i, c)) <$> state_of b pieces) ++ all_states (i + 1) l)%list
  end.
Definition all_shown (l : list (block * list string)) : list string := l ≫= fun bp => shown bp.1 bp.2.

Lemma all_steps s i l :
  Forall pieces_ok l -> Forall (fun k => (k < i)%Z) (dkeys (calls s)) ->
  steps s (all_events i l) = Some (all_shown l, moved s (all_shown l) (all_states i l)).
Proof.
  intros Hl. revert s i. induction Hl as [|[b pieces] l Hb Hl IH]; intros s i Hi.
  - cbn. unfold moved. destruct s. cbn. by rewrite !app_nil_r.
  - cbn [all_events]. erewrite steps_app; [|apply block_steps; [exact Hb|]|apply IH].
    + unfold all_shown. cbn. f_equal. f_equal. unfold moved. cbn. by rewrite <-!app_assoc.
    + intros Hin. rewrite Forall_forall in Hi. apply Hi in Hin. lia.
    + cbn. unfold dkeys. rewrite fmap_app. apply Forall_app. split.
      * eapply Forall_impl; [exact Hi|]. cbn. lia.
      * destruct (state_of b pieces); cbn; [constructor; [cbn; lia|done]|done].
Qed.

Lemma all_states_above i l e : e ∈ all_states i l -> (i <= e.1)%Z.
Proof.
  revert i. induction l as [|[b pieces] l IH]; intros i; cbn; [by intros ?%not_elem_of_nil|].
  rewrite elem_of_app. intros [H|H%IH]; [|lia]. destruct (state_of b pieces); cbn in H; [|by apply not_elem_of_nil in H].
  apply list_elem_of_singleton in H as ->. cbn. lia.
Qed.

Lemma all_states_sorted i l : sort_by (fun a b => Z.leb a.1 b.1) (all_states i l) = all_states i l.
Proof.
  apply sort_by_id. revert i. induction l as [|[b pieces] l IH]; intros i; cbn; [constructor|].
  destruct (state_of b pieces); cbn; [|apply IH]. constructor; [apply IH|]. apply Forall_forall. intros e He%all_states_above. cbn. lia.
Qed.

(** The texts and the requests of the whole response. *)
Lemma shown_text l : Forall pieces_ok l -> concat (all_shown l) = concat ((block_json <$> l.*1) ≫= block_text).
Proof.
  induction 1 as [|[b pieces] l Hb Hl IH]; [done|]. unfold all_shown. cbn [fmap list_fmap fst]. rewrite !bind_cons, !concat_app.
  fold (all_shown l). rewrite IH. f_equal. destruct b as [t|ident n a]; [|done]. cbn [fst snd shown pieces_ok] in *.
  change (concat (block_text _)) with (t ++ EmptyString)%string. rewrite text_app_nil_r, <-Hb.
  clear. induction pieces as [|p pieces IH]; [done|]. destruct p as [|x p]; cbn [List.filter str_truthy]; [exact IH|].
  change (concat (?y :: ?l)) with (y ++ concat l)%string. by rewrite IH.
Qed.

Lemma states_requests i l :
  Forall pieces_ok l ->
  (fun c => {| id := JStr (call_id c.2); name := JStr (call_name c.2); arguments := tool_arguments loads (JStr (partial c.2)) |}) <$>
    all_states i l = (block_json <$> l.*1) ≫= block_request.
Proof.
  intros Hl. revert i. induction Hl as [|[b pieces] l Hb Hl IH]; intros i; [done|].
  cbn [all_states fmap list_fmap fst]. rewrite bind_cons, fmap_app, IH. f_equal. destruct b as [t|ident n a]; [done|].
  destruct Hb as [_ Ha]. cbn [fst snd] in Ha. cbn -[tool_arguments]. by rewrite Ha.
Qed.

Lemma message_whole mid model bs reason input output :
  parse_response py_str (response_json mid model bs reason input output) =
  Ok {| content := JStr (concat ((block_json <$> bs) ≫= block_text)); tool_requests := (block_json <$> bs) ≫= block_request;
        finish_reason := JStr (if str_truthy reason then reason else "stop");
        usage := merge_usage [] (JObj [("input_tokens", JInt input); ("output_tokens", JInt output)]);
        metadata := [("id", mid); ("model", model)] |}.
Proof.
  unfold parse_response, response_json. set (d := [_; _; _; _; _]).
  change (default JNull (dget "content" d)) with (JList (block_json <$> bs)).
  assert (iterate (py_or (JList (block_json <$> bs)) (JList [])) = Ok (block_json <$> bs)) as -> by (by destruct bs).
  cbn [mbind result_bind]. by destruct reason.
Qed.

(** the same of the Anthropic stream: however the text and the inputs of
    the tool uses are cut into deltas, the stream yields the text and ends with
    the response that [generate] reads from the whole message, but for its
    metadata. *)
Theorem streamed_message_agrees mid model l reason input output0 output lines :
  Forall pieces_ok l ->
  omap (sse_event loads) lines = Ok <$> (opening input output0 :: all_events 0 l ++ closing reason output)%list ->
  exists r r', stream_lines py_str loads stream_start lines = (all_shown l, Ok r) /\
    parse_response py_str (response_json mid model l.*1 reason input output) = Ok r' /\
    content r = content r' /\ content r = JStr (concat (all_shown l)) /\ tool_requests r = tool_requests r' /\
    finish_reason r = finish_reason r' /\ usage r = usage r'.
Proof.
  intros Hl Hlines. rewrite (message_lines_events _ _ _ Hlines). cbn [stream_events].
  set (s0 := with_usage stream_start (JObj [("input_tokens", JInt input); ("output_tokens", JInt output0)])).
  change (stream_step py_str stream_start (opening input output0)) with (@Ok error _ (@nil string, s0)). cbv iota beta.
  rewrite (stream_events_steps _ _ _ _ _ (all_steps s0 0 l Hl (List.Forall_nil _))). set (s1 := moved s0 _ _).
  set (s2 := with_usage (if py_truthy (JStr reason) then with_stop s1 reason else s1) (JObj [("output_tokens", JInt output)])).
  assert (stream_events s1 (closing reason output) = ([], Ok (final_response loads s2))) as -> by done.
  eexists (final_response loads s2), _. rewrite app_nil_r. cbn [app]. split; [done|]. split; [apply message_whole|].
  assert (Ht : text_parts s2 = all_shown l) by (by destruct reason).
  assert (Hs : calls s2 = all_states 0 l) by (by destruct reason).
  unfold final_response. cbn [content tool_requests finish_reason usage]. rewrite Ht, Hs, all_states_sorted, shown_text, states_requests by done.
  split_and!; [done..|by destruct reason|by destruct reason].
Qed.

End streamed.

(** ** The Anthropic conversation *)


Section convert.
Context (py_str : json -> string) (loads : string -> option json).
#[local] Notation blocks := (blocks py_str).
#[local] Notation append_message := (append_message py_str).

(** The blocks of a conversation, each with its role. *)
Definition flat (ms : list wire_message) : list (string * json) := ms ≫= fun m => (fun b => (m.1, b)) <$> blocks m.2.

Fixpoint alternate (ms : list wire_message) : Prop :=
  match ms with
  | m :: (m' :: _) as ms => m.1 <> m'.1 /\ alternate ms
  | _ => True
  end.

Definition role_ok (m : wire_message) : Prop := m.1 ∈ ["user"; "assistant"].

Lemma flat_append ms role c : flat (append_message ms role c) = (flat ms ++ flat [(role, c)])%list.
Proof.
  unfold flat. induction ms as [|m ms IH]; [done|]. cbn [append_message]. destruct ms as [|m' ms].
  - destruct (String.eqb_spec m.1 role) as [<-|Hne]; cbn; rewrite !app_nil_r; [by rewrite fmap_app | done].
  - change (append_message (m :: m' :: ms) role c) with (m :: append_message (m' :: ms) role c).
    rewrite bind_cons, IH, bind_cons. by rewrite app_assoc.
Qed.

Lemma append_nonempty ms role c : append_message ms role c <> [].
Proof. destruct ms as [|m [|m' ms]]; [done| |done]. cbn. by destruct (String.eqb _ _). Qed.

Lemma append_alternate ms role c : alternate ms -> alternate (append_message ms role c).
Proof.
  induction ms as [|m ms IH]; [done|]. cbn [append_message]. destruct ms as [|m' ms].
  - intros _. destruct (String.eqb_spec m.1 role) as [<-|Hne]; [done|]. by split.
  - intros [Hne Ha]. specialize (IH Ha).
    assert (exists m'', head (append_message (m' :: ms) role c) = Some m'' /\ m''.1 = m'.1) as (m'' & Hh & Hm).
    { cbn [append_message]. destruct ms as [|m2 ms]; [|by exists m']. destruct (String.eqb _ _); by eexists. }
    destruct (append_message (m' :: ms) role c) as [|x xs]; [done|]. injection Hh as ->. split; [congruence | exact IH].
Qed.

Lemma append_roles ms role c : role ∈ ["user"; "assistant"] -> Forall role_ok ms -> Forall role_ok (append_message ms role c).
Proof.
  intros Hr. assert (Hone : forall x, Forall role_ok [(role, x)]) by (intros x; constructor; [exact Hr | constructor]).
  induction 1 as [|m ms Hm Hms IH]; [apply Hone|]. cbn [append_message]. destruct ms as [|m' ms]; [|by constructor].
  destruct (String.eqb _ _); by constructor.
Qed.

Definition append_all (ms ms' : list wire_message) : list wire_message := foldl (fun ms x => append_message ms x.1 x.2) ms ms'.

Lemma append_all_ok ms ms' :
  Forall role_ok ms' ->
  flat (append_all ms ms') = (flat ms ++ flat ms')%list /\ (alternate ms -> alternate (append_all ms ms')) /\
  (Forall role_ok ms -> Forall role_ok (append_all ms ms')).
Proof.
  intros H. revert ms. induction H as [|[role c] ms' Hr Hms' IH]; intros ms; [cbn; by rewrite app_nil_r|].
  change (append_all ms ((role, c) :: ms')) with (append_all (append_message ms role c) ms').
  destruct (IH (append_message ms role c)) as (H1 & H2 & H3). split_and!.
  - rewrite H1, flat_append, <-app_assoc. f_equal. unfold flat. rewrite !bind_cons. cbn. by rewrite app_nil_r.
  - intros Ha. by apply H2, append_alternate.
  - intros Ha. by apply H3, append_roles.
Qed.

(** A message is converted by itself and then added. *)
Lemma convert_message_alone system ms m :
  convert_message py_str loads (system, ms) m =
  p ← convert_message py_str loads ([], []) m; Ok ((system ++ p.1)%list, append_all ms p.2).
Proof.
  unfold convert_message, append_user_block. destruct (String.eqb _ "system"); cbn.
  - destruct (str_truthy _); cbn; [done | by rewrite app_nil_r].
  - destruct (String.eqb _ "tool"); [cbn; by rewrite app_nil_r|].
    destruct (String.eqb _ "assistant" && _); [|cbn; by rewrite app_nil_r].
    destruct (iterate _); [|done]. cbn. destruct (mapM _ _); [|done]. cbn. by rewrite app_nil_r.
Qed.

Lemma convert_message_role m p : convert_message py_str loads ([], []) m = Ok p -> Forall role_ok p.2.
Proof.
  assert (Hu : role_ok ("user", JNull)) by (unfold role_ok; set_solver).
  unfold convert_message, append_user_block. destruct (String.eqb _ "system"); [intros [= <-]; constructor|].
  destruct (String.eqb _ "tool"); [intros [= <-]; by constructor|].
  destruct (String.eqb _ "assistant" && _).
  - destruct (iterate _); [|done]. cbn. destruct (mapM _ _); [|done]. intros [= <-]. constructor; [unfold role_ok; set_solver | done].
  - intros [= <-]. constructor; [|done]. unfold role_ok. cbn [fst].
    destruct (memb _ _) eqn:E; [by apply memb_true | exact Hu].
Qed.

Lemma convert_parts l system ms system' ms' :
  alternate ms -> Forall role_ok ms -> convert py_str loads (system, ms) l = Ok (system', ms') ->
  exists parts, Forall2 (fun m p => convert_message py_str loads ([], []) m = Ok p) l parts /\
    system' = (system ++ (parts ≫= fst))%list /\ flat ms' = (flat ms ++ (parts ≫= fun p => flat p.2))%list /\
    alternate ms' /\ Forall role_ok ms'.
Proof.
  revert system ms. induction l as [|m l IH]; intros system ms Ha Hr; cbn [convert].
  - intros [= <- <-]. exists []. cbn. by rewrite !app_nil_r.
  - intros H. apply result_bind_ok in H as (acc & Hm & H). rewrite convert_message_alone in Hm.
    apply result_bind_ok in Hm as (p & Hp & [= <-]). destruct (append_all_ok ms p.2 (convert_message_role _ _ Hp)) as (Hf & Ha' & Hr').
    destruct (IH _ _ (Ha' Ha) (Hr' Hr) H) as (parts & H2 & Hs & Hfl & Halt & Hro). exists (p :: parts).
    rewrite !bind_cons, !app_assoc, <-Hf. split_and!; [by constructor | done..].
Qed.

(** converting a conversation for Anthropic keeps it: the roles of the
    result are [user] and [assistant], strictly alternating, and its blocks, role by
    role and in order, are those each message gives by itself; the system texts
    are gathered in order. *)
Theorem conversation_kept l system ms :
  convert py_str loads ([], []) l = Ok (system, ms) ->
  exists parts, Forall2 (fun m p => convert_message py_str loads ([], []) m = Ok p) l parts /\
    system = parts ≫= fst /\ flat ms = parts ≫= (fun p => flat p.2) /\ alternate ms /\ Forall role_ok ms.
Proof. intros H. by destruct (convert_parts l [] [] system ms I (List.Forall_nil _) H) as (parts & H2 & -> & ? & ?); exists parts. Qed.

End convert.

(** ** Examples *)

(** The texts of three events. *)
Definition demo_loads (s : string) : option json :=
  if String.eqb s "A1" then Some (opening 5 1)
  else if String.eqb s "A5" then list_lookup 0 (closing "tool_use" 9)
  else if String.eqb s "A6" then list_lookup 1 (closing "tool_use" 9)
  else if String.eqb s "{}" then Some (JObj []) else None.
Definition demo_text (j : json) : string := "?".

Lemma streamed_message_agrees_witness :
  exists r, stream_lines demo_text demo_loads stream_start ["event: message_start"; "data: A1"; "data: A5"; "data: A6"] = ([], Ok r) /\
            usage r = [("prompt_tokens", 5%Z); ("completion_tokens", 9%Z); ("total_tokens", 14%Z)].
Proof.
  destruct (streamed_message_agrees demo_text demo_loads JNull JNull [] "tool_use" 5 1 9
              ["event: message_start"; "data: A1"; "data: A5"; "data: A6"] (List.Forall_nil _) ltac:(vm_compute; reflexivity))
    as (r & r' & H1 & H2 & _ & _ & _ & _ & Hu).
  exists r. split; [exact H1|]. rewrite Hu. vm_compute in H2. injection H2 as <-. vm_compute. reflexivity.
Defined.

Definition demo_conversation : list (list (string * json)) :=
  [[("role", JStr "system"); ("content", JStr "be brief")]; [("role", JStr "user"); ("content", JStr "hi")];
   [("role", JStr "assistant"); ("content", JStr "");
    ("tool_calls", JList [JObj [("id", JStr "c1"); ("function", JObj [("name", JStr "f"); ("arguments", JStr "{}")])];
                          JObj [("id", JStr "c2"); ("function", JObj [("name", JStr "g"); ("arguments", JStr "oops")])]])];
   [("role", JStr "tool"); ("tool_call_id", JStr "c1"); ("content", JStr "1")];
   [("role", JStr "tool"); ("tool_call_id", JStr "c2"); ("content", JStr "2")]; [("role", JStr "user"); ("content", JStr "go on")]].

Lemma conversation_kept_witness :
  exists system ms, convert demo_text demo_loads ([], []) demo_conversation = Ok (system, ms) /\
    alternate ms /\ length (flat demo_text ms) = 6.
Proof.
  destruct (convert demo_text demo_loads ([], []) demo_conversation) as [[system ms]|e] eqn:E;
    [|vm_compute in E; discriminate].
  destruct (conversation_kept demo_text demo_loads demo_conversation system ms E) as (parts & _ & _ & _ & Ha & _).
  exists system, ms. split_and!; [done | exact Ha|]. vm_compute in E. injection E as <- <-. vm_compute. reflexivity.
Defined.

(** [max_tokens] accepts [true]. *)
Example boolean_max_tokens : max_tokens [("max_tokens", JBool true)] = Ok (JBool true).
Proof. done. Qed.

End Anthropic.
