(* ===== verification/OpenAI.v ===== *)
(** * OpenAI-compatible endpoints

    [models/openai_compat.py]: the request, the response and its stream; a streamed
    completion is the completion.  The HTTP client is a parameter. *)

From Stdlib Require Import Ascii.
From S2P Require Import Prelude Json Tables Urls Config Providers.
Import Urls Providers.
Local Open Scope string_scope.

Module OpenAI.

Record OpenAICompatConfig : Type := {
  endpoint : string;
  model_id : string;
  api_key : option string;
  default_headers : list (string * string);
  own_client : bool                      (** no [http_client] was injected *)
}.

(** The headers of every request: an injected client has its own. *)
Definition headers (c : OpenAICompatConfig) : list (string * string) :=
  if own_client c then
    let h := dict_of (("Content-Type", "application/json") :: default_headers c) in
    if opt_truthy (api_key c) then dset "Authorization" ("Bearer " ++ default "" (api_key c)) h else h
  else [].

Definition url (c : OpenAICompatConfig) (path : string) : string := rstrip_slash (endpoint c) ++ path.

(** [x[0]] *)
Definition first (x : json) : result error json :=
  match x with
  | JList (y :: _) => Ok y
  | JStr (String c _) => Ok (JStr (String c EmptyString))
  | JObj _ => Err KeyError
  | _ => Err TypeError
  end.

Definition tool_json (t : list (string * json)) : result error json :=
  n ← tool_name t;
  Ok (JObj [("type", JStr "function");
            ("function", JObj [("name", n); ("description", tool_field "description" (JStr "") t);
                               ("parameters", tool_field "input_schema" (JObj []) t)])]).

(** [_payload] *)
Definition payload (c : OpenAICompatConfig) (config : ModelConfig) (messages tools : list (list (string * json)))
  : result error (list (string * json)) :=
  let p := Config.update [("model", JStr (opt_or (config_model_id config) (model_id c))); ("messages", JList (JObj <$> messages))]
             (generation config) in
  match tools with
  | [] => Ok p
  | _ => ts ← mapM tool_json tools; Ok (dset "tools" (JList ts) p)
  end.

(** [_parse_usage] *)
Definition parse_usage (raw : json) : list (string * Z) :=
  match raw with JObj d => omap (fun kv => (fun z => (kv.1, z)) <$> exactly_int kv.2) d | _ => [] end.

Section openai.
Context (py_str : json -> string) (loads : string -> option json).
#[local] Notation text_of := (text_of py_str).
#[local] Notation sse_event := (sse_event loads).

(** [_parse_arguments] *)
Definition parse_arguments (raw : json) : json :=
  match raw with
  | JObj _ => raw
  | JStr s =>
      if str_truthy s then
        match loads s with
        | Some (JObj d) => JObj d
        | Some v => JObj [("value", v)]
        | None => JObj [("raw", raw)]
        end
      else JObj []
  | _ => JObj []
  end.

Definition parse_call (call : json) : result error request :=
  i ← get "id" call;
  f ← get_or "function" (JObj []) call;
  n ← get_or "name" (JStr "") f;
  a ← get "arguments" f;
  Ok {| id := i; name := n; arguments := parse_arguments a |}.

(** The body of [generate], after the request. *)
Definition parse_response (data : json) : result error ModelResponse :=
  cs ← get "choices" data;
  choice ← first (py_or cs (JList [JObj []]));
  m ← get_or "message" (JObj []) choice;
  let m := py_or m (JObj []) in
  calls ← get "tool_calls" m;
  calls ← iterate (py_or calls (JList []));
  requests ← mapM parse_call calls;
  c ← get "content" m;
  r ← get "finish_reason" choice;
  u ← get "usage" data;
  Ok {| content := py_or c (JStr ""); tool_requests := requests; finish_reason := py_or r (JStr "stop"); usage := parse_usage u;
        metadata := [] |}.

Definition generate (post : string -> list (string * string) -> list (string * json) -> result error json)
    (c : OpenAICompatConfig) (config : ModelConfig) (messages tools : list (list (string * json))) : result error ModelResponse :=
  p ← payload c config messages tools;
  data ← post (url c "/chat/completions") (headers c) p;
  parse_response data.

(** *** The stream *)

Record call_state : Type := { call_id : json; call_name : string; partial : string }.
Definition new_call : call_state := {| call_id := JNull; call_name := ""; partial := "" |}.

Record stream_state : Type := {
  content_parts : list string;
  calls : list (Z * call_state);
  stream_finish : string;
  stream_usage : list (string * Z)
}.
Definition stream_start : stream_state := {| content_parts := []; calls := []; stream_finish := "stop"; stream_usage := [] |}.

Definition with_calls (s : stream_state) (l : list (Z * call_state)) : stream_state :=
  {| content_parts := content_parts s; calls := l; stream_finish := stream_finish s; stream_usage := stream_usage s |}.
Definition with_content (s : stream_state) (c : json) : list string * stream_state :=
  match c with
  | JStr t =>
      if str_truthy t then
        ([t], {| content_parts := (content_parts s ++ [t])%list; calls := calls s; stream_finish := stream_finish s;
                 stream_usage := stream_usage s |})
      else ([], s)
  | _ => ([], s)
  end.
Definition with_finish (s : stream_state) (r : json) : stream_state :=
  if py_truthy r then
    {| content_parts := content_parts s; calls := calls s; stream_finish := text_of r; stream_usage := stream_usage s |}
  else s.
Definition with_usage (s : stream_state) (u : json) : stream_state :=
  match u with
  | JObj _ => {| content_parts := content_parts s; calls := calls s; stream_finish := stream_finish s; stream_usage := parse_usage u |}
  | _ => s
  end.

(** A fragment of a call added to what is known of the call. *)
Definition add_fragment (s : call_state) (i n a : json) : call_state :=
  {| call_id := if py_truthy i then i else call_id s;
     call_name := call_name s ++ (if py_truthy n then text_of n else "");
     partial := partial s ++ (if py_truthy a then text_of a else "") |}.

Definition stream_call (s : stream_state) (call : json) : result error stream_state :=
  k ← get_or "index" (JInt 0) call; k ← to_int k;
  i ← get "id" call;
  f ← get "function" call;
  let f := py_or f (JObj []) in
  n ← get "name" f; a ← get "arguments" f;
  Ok (with_calls s (dset k (add_fragment (default new_call (dget k (calls s))) i n a) (calls s))).

Fixpoint stream_calls (s : stream_state) (l : list json) : result error stream_state :=
  match l with [] => Ok s | c :: l => s ← stream_call s c; stream_calls s l end.

(** What an event is read for: usage, choice, delta and content. *)
Definition event_parts (data : json) : result error (json * json * json * json) :=
  u ← get "usage" data;
  cs ← get "choices" data;
  choice ← first (py_or cs (JList [JObj []]));
  d ← get "delta" choice;
  let d := py_or d (JObj []) in
  c ← get "content" d;
  Ok (u, choice, d, c).

(** The tool calls of the delta and the finish reason. *)
Definition stream_rest (s : stream_state) (choice d : json) : result error stream_state :=
  l ← get "tool_calls" d;
  l ← iterate (py_or l (JList []));
  s ← stream_calls s l;
  r ← get "finish_reason" choice;
  Ok (with_finish s r).

(** One event: the deltas it yields, before an error if there is one. *)
Definition stream_step (s : stream_state) (data : json) : list string * result error stream_state :=
  match event_parts data with
  | Err e => ([], Err e)
  | Ok (u, choice, d, c) => let '(out, s) := with_content (with_usage s u) c in (out, stream_rest s choice d)
  end.

Definition final_response (s : stream_state) : ModelResponse :=
  {| content := JStr (concat (content_parts s));
     tool_requests := (fun c => {| id := call_id c.2; name := JStr (call_name c.2); arguments := parse_arguments (JStr (partial c.2)) |}) <$>
                        sort_by (fun a b => Z.leb a.1 b.1) (calls s);
     finish_reason := JStr (stream_finish s); usage := stream_usage s; metadata := [] |}.

Fixpoint stream_lines (s : stream_state) (lines : list string) : list string * result error ModelResponse :=
  match lines with
  | [] => ([], Ok (final_response s))
  | line :: lines =>
      match sse_event line with
      | None => stream_lines s lines
      | Some (Err e) => ([], Err e)
      | Some (Ok e) =>
          match stream_step s e with
          | (out, Err x) => (out, Err x)
          | (out, Ok s) => let '(out', r) := stream_lines s lines in ((out ++ out')%list, r)
          end
      end
  end.

(** [stream] *)
Definition stream (open : string -> list (string * string) -> list (string * json) -> result error (list string))
    (c : OpenAICompatConfig) (config : ModelConfig) (messages tools : list (list (string * json)))
  : list string * result error ModelResponse :=
  match payload c config messages tools with
  | Err e => ([], Err e)
  | Ok p =>
      match open (url c "/chat/completions") (headers c) (dset "stream" (JBool true) p) with
      | Err e => ([], Err e)
      | Ok lines => stream_lines stream_start lines
      end
  end.

End openai.

Definition capabilities : ProviderCapabilities := {| tool_use := true; streaming := true; structured_output := true |}.

Definition health_check (probe : string -> option Z) (c : OpenAICompatConfig) : bool :=
  match probe (url c "/models") with Some status => Z.ltb status 500 | None => false end.

(** ** A streamed response is the response *)

(** What the stream carries: a fragment of a tool call, and an event with a
    piece of the text and fragments of any calls. *)
Record fragment : Type := { f_index : Z; f_id : string; f_name : string; f_arguments : string }.
Record chunk : Type := { c_text : string; c_fragments : list fragment }.

Definition fragment_json (f : fragment) : json :=
  JObj [("index", JInt (f_index f)); ("id", JStr (f_id f));
        ("function", JObj [("name", JStr (f_name f)); ("arguments", JStr (f_arguments f))])].
Definition event_json (delta : list (string * json)) (reason usage : json) : json :=
  JObj [("choices", JList [JObj [("delta", JObj delta); ("finish_reason", reason)]]); ("usage", usage)].
Definition chunk_json (c : chunk) : json :=
  event_json [("content", JStr (c_text c)); ("tool_calls", JList (fragment_json <$> c_fragments c))] JNull JNull.

(** The whole response: a text, and calls given by id, name and arguments. *)
Record call : Type := { whole_id : string; whole_name : string; whole_arguments : string }.
Definition call_json (c : call) : json :=
  JObj [("id", JStr (whole_id c)); ("function", JObj [("name", JStr (whole_name c)); ("arguments", JStr (whole_arguments c))])].
Definition response_json (text : string) (calls : list call) (reason : string) (usage : json) : json :=
  JObj [("choices", JList [JObj [("message", JObj [("content", JStr text); ("tool_calls", JList (call_json <$> calls))]);
                                 ("finish_reason", JStr reason)]]); ("usage", usage)].

(** The last text that is not empty. *)
Definition last_id (fs : list fragment) : string := foldl (fun i f => if str_truthy (f_id f) then f_id f else i) "" fs.

(** The chunks carry the response: the texts in order, and of each call, whatever
    is in between, the name and the arguments in order and the id once. *)
Record carries (chunks : list chunk) (text : string) (calls : list call) : Prop := {
  carries_text : concat (c_text <$> chunks) = text;
  carries_indices : forall k, k ∈ f_index <$> (chunks ≫= c_fragments) <-> (0 <= k < Z.of_nat (length calls))%Z;
  carries_calls : forall i c, calls !! i = Some c ->
    let fs := of_group f_index (Z.of_nat i) (chunks ≫= c_fragments) in
    last_id fs = whole_id c /\ str_truthy (whole_id c) = true /\
    concat (f_name <$> fs) = whole_name c /\ concat (f_arguments <$> fs) = whole_arguments c
}.

Section streamed.
Context (py_str : json -> string) (loads : string -> option json).

Definition add (s : call_state) (f : fragment) : call_state :=
  add_fragment py_str s (JStr (f_id f)) (JStr (f_name f)) (JStr (f_arguments f)).

Definition add_all (d : list (Z * call_state)) (fs : list fragment) : list (Z * call_state) :=
  foldl (fun d f => dset (f_index f) (add (default new_call (dget (f_index f) d)) f) d) d fs.

Lemma stream_calls_ok s fs : stream_calls py_str s (fragment_json <$> fs) = Ok (with_calls s (add_all (calls s) fs)).
Proof.
  revert s. induction fs as [|f fs IH]; intros s; [by destruct s|]. cbn [fmap list_fmap stream_calls].
  assert (stream_call py_str s (fragment_json f) =
          Ok (with_calls s (dset (f_index f) (add (default new_call (dget (f_index f) (calls s))) f) (calls s)))) as -> by done.
  cbn [mbind result_bind]. rewrite IH. by destruct s.
Qed.

Definition after_chunk (s : stream_state) (c : chunk) : stream_state :=
  {| content_parts := (content_parts s ++ if str_truthy (c_text c) then [c_text c] else [])%list;
     calls := add_all (calls s) (c_fragments c); stream_finish := stream_finish s; stream_usage := stream_usage s |}.
Definition chunk_out (c : chunk) : list string := if str_truthy (c_text c) then [c_text c] else [].

Lemma stream_rest_chunk s c choice :
  get "finish_reason" choice = Ok JNull ->
  stream_rest py_str s choice (JObj [("content", JStr (c_text c)); ("tool_calls", JList (fragment_json <$> c_fragments c))]) =
  Ok (with_calls s (add_all (calls s) (c_fragments c))).
Proof.
  intros Hr. unfold stream_rest. change (get "tool_calls" _) with (@Ok error json (JList (fragment_json <$> c_fragments c))).
  cbn [mbind result_bind].
  assert (iterate (py_or (JList (fragment_json <$> c_fragments c)) (JList [])) = Ok (fragment_json <$> c_fragments c)) as ->
    by (by destruct (c_fragments c)).
  cbn [mbind result_bind]. rewrite stream_calls_ok. cbn [mbind result_bind]. by rewrite Hr.
Qed.

Lemma stream_step_chunk s c : stream_step py_str s (chunk_json c) = (chunk_out c, Ok (after_chunk s c)).
Proof.
  unfold stream_step, chunk_out, after_chunk.
  assert (exists choice, get "finish_reason" choice = Ok JNull /\ event_parts (chunk_json c) =
          Ok (JNull, choice, JObj [("content", JStr (c_text c)); ("tool_calls", JList (fragment_json <$> c_fragments c))], JStr (c_text c)))
    as (choice & Hr & ->) by (refine (ex_intro _ _ (conj _ eq_refl)); done).
  cbn [with_usage with_content]. destruct (str_truthy (c_text c)); rewrite stream_rest_chunk by done; by rewrite ?app_nil_r.
Qed.

(** The events of the body, without the lines. *)
Fixpoint stream_events (s : stream_state) (es : list json) : list string * result error ModelResponse :=
  match es with
  | [] => ([], Ok (final_response loads s))
  | e :: es =>
      match stream_step py_str s e with
      | (out, Err x) => (out, Err x)
      | (out, Ok s) => let '(out', r) := stream_events s es in ((out ++ out')%list, r)
      end
  end.

Lemma stream_lines_events s lines es :
  omap (sse_event loads) lines = Ok <$> es -> stream_lines py_str loads s lines = stream_events s es.
Proof.
  revert s es. induction lines as [|l lines IH]; intros s es; [destruct es; cbn; [done|discriminate]|]. cbn.
  destruct (sse_event loads l) as [e|]; [|apply IH]. destruct es as [|e' es]; [done|]. intros [= -> Hes].
  cbn [stream_events]. destruct (stream_step py_str s e') as [out [s'|x]]; [|done]. by rewrite (IH s' es Hes).
Qed.

Lemma stream_events_chunks s chunks es :
  stream_events s ((chunk_json <$> chunks) ++ es) =
  let '(out, r) := stream_events (foldl after_chunk s chunks) es in ((chunks ≫= chunk_out) ++ out, r)%list.
Proof.
  revert s. induction chunks as [|c chunks IH]; intros s; cbn [fmap list_fmap app foldl mbind list_bind]; [by destruct (stream_events s es)|].
  cbn [stream_events]. rewrite stream_step_chunk, IH. destruct (stream_events _ es). by rewrite app_assoc.
Qed.

Lemma after_chunks s chunks :
  foldl after_chunk s chunks =
  {| content_parts := (content_parts s ++ (chunks ≫= chunk_out))%list; calls := add_all (calls s) (chunks ≫= c_fragments);
     stream_finish := stream_finish s; stream_usage := stream_usage s |}.
Proof.
  revert s. induction chunks as [|c chunks IH]; intros s; cbn; [destruct s; by rewrite app_nil_r|].
  rewrite IH. cbn. unfold add_all. by rewrite foldl_app, <-app_assoc.
Qed.

Lemma concat_out chunks : concat (chunks ≫= chunk_out) = concat (c_text <$> chunks).
Proof.
  induction chunks as [|c chunks IH]; [done|]. rewrite bind_cons, concat_app, IH, fmap_cons.
  change (concat (c_text c :: ?l)) with (c_text c ++ concat l)%string. f_equal.
  unfold chunk_out. destruct (c_text c) as [|x t]; [done|]. cbn [str_truthy]. apply text_app_nil_r.
Qed.

(** Fragments put together. *)
Lemma fold_add fs :
  foldl add new_call fs =
  {| call_id := if str_truthy (last_id fs) then JStr (last_id fs) else JNull; call_name := concat (f_name <$> fs);
     partial := concat (f_arguments <$> fs) |}.
Proof.
  assert (Hor : forall t, (if py_truthy (JStr t) then text_of py_str (JStr t) else "") = t) by (by intros []).
  induction fs as [|f fs IH] using rev_ind; [done|]. unfold last_id in *. rewrite !foldl_snoc, IH. unfold add, add_fragment.
  cbn [call_id call_name partial]. rewrite !Hor, !fmap_app. change (f_name <$> [f]) with [f_name f]. change (f_arguments <$> [f]) with [f_arguments f].
  rewrite !concat_snoc. f_equal. by destruct (f_id f).
Qed.

Lemma seq_sorted a n : StronglySorted (fun x y => Z.leb (Z.of_nat x) (Z.of_nat y) = true) (List.seq a n).
Proof.
  revert a. induction n as [|n IH]; intros a; cbn; constructor; [apply IH|]. apply Forall_forall. intros x Hx%elem_of_seq. lia.
Qed.

Lemma indices_in_order l n :
  (forall k, k ∈ l <-> (0 <= k < Z.of_nat n)%Z) -> sort_by Z.leb (remove_dups l) = Z.of_nat <$> List.seq 0 n.
Proof.
  intros Hl.
  assert (Hsorted : StronglySorted (fun x y => Z.leb x y = true) (Z.of_nat <$> List.seq 0 n)).
  { apply sorted_fmap, seq_sorted. }
  rewrite <-(sort_by_id Z.leb (Z.of_nat <$> List.seq 0 n)) by done.
  apply sort_by_unique; [intros; lia | intros; lia | intros; lia|].
  apply NoDup_Permutation; [apply NoDup_remove_dups | apply NoDup_fmap; [apply _|apply NoDup_seq]|].
  intros k. rewrite elem_of_remove_dups, Hl, list_elem_of_fmap. split.
  - intros Hk. exists (Z.to_nat k). rewrite elem_of_seq. lia.
  - intros (i & -> & Hi%elem_of_seq). lia.
Qed.

Definition request_of (c : call) : request :=
  {| id := JStr (whole_id c); name := JStr (whole_name c); arguments := parse_arguments loads (JStr (whole_arguments c)) |}.

Lemma parse_calls cs : mapM (parse_call loads) (call_json <$> cs) = Ok (request_of <$> cs).
Proof. induction cs as [|c cs IH]; [done|]. cbn [fmap list_fmap mapM]. rewrite IH. done. Qed.

Lemma final_requests chunks text cs :
  carries chunks text cs ->
  (fun c => {| id := call_id c.2; name := JStr (call_name c.2); arguments := parse_arguments loads (JStr (partial c.2)) |}) <$>
    sort_by (fun a b => Z.leb a.1 b.1) (add_all [] (chunks ≫= c_fragments)) = request_of <$> cs.
Proof.
  intros [_ Hi Hc]. set (fs := chunks ≫= c_fragments) in *.
  change (add_all [] fs) with (group_fold f_index add new_call fs).
  rewrite (sort_group_fold f_index add new_call Z.leb) with (f := foldl add new_call); [|intros; lia|intros; lia|intros; lia|done].
  unfold group_by. rewrite (indices_in_order _ _ Hi), <-!list_fmap_compose. apply list_eq. intros i.
  rewrite !list_lookup_fmap. destruct (cs !! i) as [c|] eqn:E.
  - rewrite lookup_seq_lt by (apply lookup_lt_Some in E; lia). cbn. destruct (Hc i c E) as (Hid & Ht & Hn & Ha).
    rewrite fold_add. unfold request_of. cbn. by rewrite Hid, Ht, Hn, Ha.
  - rewrite lookup_seq_ge by (apply lookup_ge_None in E; lia). done.
Qed.

Lemma parse_whole text cs reason u :
  parse_response loads (response_json text cs reason u) =
  Ok {| content := JStr text; tool_requests := request_of <$> cs; finish_reason := py_or (JStr reason) (JStr "stop");
        usage := parse_usage u; metadata := [] |}.
Proof.
  unfold parse_response, response_json. set (m := JObj [("content", JStr text); ("tool_calls", JList (call_json <$> cs))]).
  set (choice := JObj [("message", m); ("finish_reason", JStr reason)]).
  change (get "choices" _) with (@Ok error json (JList [choice])). cbn [mbind result_bind].
  change (first _) with (@Ok error json choice). cbn [mbind result_bind].
  change (get_or "message" _ _) with (@Ok error json m). cbn [mbind result_bind]. change (py_or m _) with m.
  change (get "tool_calls" m) with (@Ok error json (JList (call_json <$> cs))). cbn [mbind result_bind].
  assert (iterate (py_or (JList (call_json <$> cs)) (JList [])) = Ok (call_json <$> cs)) as -> by (by destruct cs).
  cbn [mbind result_bind]. rewrite parse_calls. by destruct text.
Qed.

(** C37: streaming changes nothing: if the chunks of a streamed completion
    carry a response, in any interleaving of the fragments of its text and of
    its tool calls, and the body ends with the finish reason and the usage, then
    the stream yields the text piece by piece and ends with exactly the
    response that [generate] reads from the whole completion. *)
Theorem streamed_response_agrees chunks text cs reason u lines :
  carries chunks text cs ->
  omap (sse_event loads) lines = Ok <$> ((chunk_json <$> chunks) ++ [event_json [] (JStr reason) u])%list ->
  exists r, stream_lines py_str loads stream_start lines = (chunks ≫= chunk_out, Ok r) /\
            parse_response loads (response_json text cs reason u) = Ok r /\ concat (chunks ≫= chunk_out) = text.
Proof.
  intros Hc Hl. rewrite (stream_lines_events _ _ _ Hl), stream_events_chunks, after_chunks. cbn [calls stream_start content_parts app].
  exists (final_response loads (with_finish py_str (with_usage
            {| content_parts := chunks ≫= chunk_out; calls := add_all [] (chunks ≫= c_fragments); stream_finish := "stop"; stream_usage := [] |} u)
            (JStr reason))).
  split_and!; [|
  |by rewrite concat_out, (carries_text _ _ _ Hc)].
  - cbn [stream_events].
    assert (Hstep : forall s, stream_step py_str s (event_json [] (JStr reason) u) = ([], Ok (with_finish py_str (with_usage s u) (JStr reason)))).
    { intros s. unfold stream_step. change (event_parts _) with
        (@Ok error _ (u, JObj [("delta", JObj []); ("finish_reason", JStr reason)], JObj [], JNull)). done. }
    rewrite Hstep. by rewrite app_nil_r.
  - rewrite parse_whole. unfold final_response.
    rewrite <-(final_requests _ _ _ Hc), <-(carries_text _ _ _ Hc), <-concat_out. by destruct u, reason.
Qed.

End streamed.

(** ** Examples *)

(** Whole numbers and objects as [json.loads] reads two texts. *)
Definition demo_loads (s : string) : option json :=
  if String.eqb s "E1" then Some (chunk_json {| c_text := "he"; c_fragments :=
    [{| f_index := 1; f_id := "b"; f_name := "g"; f_arguments := "" |};
     {| f_index := 0; f_id := "a"; f_name := "f"; f_arguments := "{" |}] |})
  else if String.eqb s "E2" then Some (chunk_json {| c_text := "y"; c_fragments :=
    [{| f_index := 0; f_id := ""; f_name := ""; f_arguments := "}" |}] |})
  else if String.eqb s "E3" then Some (event_json [] (JStr "tool_calls") (JObj [("total_tokens", JInt 3)]))
  else if String.eqb s "{}" then Some (JObj []) else None.

Definition demo_lines : list string := ["data: E1"; ""; "event: x"; "data:E2"; "data: E3"; "data: [DONE]"].
Definition demo_text (j : json) : string := "?".

Lemma streamed_response_agrees_witness :
  exists r, stream_lines demo_text demo_loads stream_start demo_lines = (["he"; "y"], Ok r) /\
            name <$> tool_requests r = [JStr "f"; JStr "g"].
Proof.
  set (chunks := [{| c_text := "he"; c_fragments :=
    [{| f_index := 1; f_id := "b"; f_name := "g"; f_arguments := "" |};
     {| f_index := 0; f_id := "a"; f_name := "f"; f_arguments := "{" |}] |};
    {| c_text := "y"; c_fragments :=
    [{| f_index := 0; f_id := ""; f_name := ""; f_arguments := "}" |}] |}]).
  set (cs := [{| whole_id := "a"; whole_name := "f"; whole_arguments := "{}" |};
              {| whole_id := "b"; whole_name := "g"; whole_arguments := "" |}]).
  destruct (streamed_response_agrees demo_text demo_loads chunks "hey" cs "tool_calls" (JObj [("total_tokens", JInt 3)])
              demo_lines) as (r & H1 & H2 & _).
  - split; [done| |].
    + intros k. change (f_index <$> _) with [1%Z; 0%Z; 0%Z]. cbn [length cs]. rewrite !elem_of_cons, elem_of_nil. lia.
    + intros i c Hi. destruct i as [|[|i]]; [injection Hi as <-; vm_compute; auto..|done].
  - vm_compute. reflexivity.
  - exists r. split; [exact H1|]. vm_compute in H2. injection H2 as <-. vm_compute. reflexivity.
Defined.

(** An injected client is sent no credential: the key is put into the headers
    of the provider's own client only. *)
Example injected_client_is_not_authorised :
  headers {| endpoint := "https://m"; model_id := "m"; api_key := Some "k";
                    default_headers := [("X-Tenant", "t")]; own_client := false |} = [].
Proof. done. Qed.

End OpenAI.
