(* ===== verification/Mcp.v ===== *)
(** * MCP: validation and connections

    [mcp/mcp.py] and [mcp/client.py].  The servers and the token exchange are the
    environment: what they answer is any function of what was asked of them so
    far.  [urlsplit] and the size of a printed response are parameters. *)

From Stdlib Require Import Ascii Lqa.
From S2P Require Import Prelude Json Urls.
Import Urls.
Local Open Scope string_scope.

Module Mcp.

(** ** Configuration *)

Record McpConfig : Type := {
  ref : string;
  transport : option string;
  endpoint : option string;
  command : option string;
  args : list string;
  credential_ref : option string;
  allowed_capabilities : list string;
  timeout_seconds : option Z
}.

(** A server of a definition: the same fields. *)
Definition McpServerRef : Type := McpConfig.

Record McpTool : Type := { tool_name : string; tool_description : option string; tool_schema : list (string * json) }.
Record McpResource : Type := { uri : string; resource_name : option string; resource_description : option string; mime_type : option string }.
Record McpPrompt : Type := { prompt_name : string; prompt_description : option string; prompt_arguments : list (list (string * json)) }.
Record McpDiscovery : Type := { tools : list McpTool; resources : list McpResource; prompts : list McpPrompt }.

(** [McpConnectionState] *)
Inductive connection : Type := DISCONNECTED | CONNECTING | CONNECTED | ERROR.
#[export] Instance connection_eq_dec : EqDecision connection.
Proof. solve_decision. Defined.

Inductive mcp_error : Type :=
  | McpSecurityError (msg : string)
  | ConnectionError (msg : string)
  | ToolError (msg : string)
  | ValueError (msg : string)
  | AssertionError.

(** ** [McpSecurityPolicy] *)

Record McpSecurityPolicy : Type := {
  require_tls : bool;
  allow_insecure_localhost : bool;
  allowed_endpoints : option (list string);
  max_response_bytes : Z
}.
Definition default_policy : McpSecurityPolicy :=
  {| require_tls := true; allow_insecure_localhost := true; allowed_endpoints := None; max_response_bytes := 1048576 |}.

Definition supported_transports : list string := ["streamable-http"; "sse"; "stdio"].
Definition insecure_local_hosts : list string := ["localhost"; "127.0.0.1"; "0.0.0.0"; "::1"].

Fixpoint rstrip (c : ascii) (s : string) : string :=
  match s with
  | EmptyString => EmptyString
  | String x s => match rstrip c s with
                  | EmptyString => if Ascii.eqb x c then EmptyString else String x EmptyString
                  | r => String x r
                  end
  end.

Definition is_stdio (c : McpConfig) : bool :=
  bool_decide (transport c = Some "stdio") || (bool_decide (transport c = None) && bool_decide (endpoint c = None)).

Section security.
Context (urlsplit : string -> option url) (p : McpSecurityPolicy).

Definition is_local (u : url) : bool := memb (py_lower (default "" (hostname u))) insecure_local_hosts.

Definition origin (u : url) : string := scheme u ++ "://" ++ netloc u.
Definition allowed_origin (a o : string) : bool := String.eqb o a || String.prefix (rstrip "/"%char a ++ "/") o.

(** [validate] *)
Definition validate (c : McpConfig) : result mcp_error unit :=
  if match transport c with Some t => negb (memb t supported_transports) | None => false end
  then Err (McpSecurityError "unsupported transport")
  else if is_stdio c then
    if opt_truthy (command c) then Ok tt else Err (McpSecurityError "stdio command is required")
  else if negb (opt_truthy (endpoint c)) then Err (McpSecurityError "endpoint is required")
  else
    match urlsplit (default "" (endpoint c)) with
    | None => Err (ValueError "invalid URL")
    | Some u =>
        if negb (is_http (scheme u)) then Err (McpSecurityError "endpoint scheme must be http(s)")
        else if match allowed_endpoints p with Some l => negb (existsb (fun a => allowed_origin a (origin u)) l) | None => false end
        then Err (McpSecurityError "endpoint is not in the allowlist")
        else if require_tls p && negb (String.eqb (scheme u) "https") && negb (allow_insecure_localhost p && is_local u)
        then Err (McpSecurityError "TLS required; 'https' endpoint expected")
        else Ok tt
    end.

(** The server is a local process, or is reached by TLS or on this host. *)
Definition protected_ (c : McpConfig) : Prop :=
  is_stdio c = true \/
  exists e u, endpoint c = Some e /\ urlsplit e = Some u /\ (scheme u = "https" \/ scheme u = "http" /\ is_local u = true).

Lemma validate_protected c : require_tls p = true -> validate c = Ok tt -> protected_ c.
Proof.
  intros Ht. unfold validate, protected_. destruct (match transport c with Some _ => _ | None => _ end); [done|].
  destruct (is_stdio c); [by left|]. destruct (endpoint c) as [e|]; [|intros [=]]. destruct (opt_truthy (Some e)); [|intros [=]]. cbn [negb from_option]. unfold id.
  destruct (urlsplit e) as [u|] eqn:Eu; [|intros [=]].
  destruct (is_http (scheme u)) eqn:Eh; [|intros [=]]. cbn [negb]. destruct (match allowed_endpoints p with Some _ => _ | None => _ end); [done|].
  rewrite Ht. cbn [andb]. intros H. right. exists e, u. split_and!; [done..|].
  apply memb_true in Eh. rewrite !elem_of_cons, elem_of_nil in Eh. destruct Eh as [Eh|[Eh|[]]]; [|by left].
  right. split; [done|]. rewrite Eh in H. change (String.eqb "http" "https") with false in H. cbn [negb andb] in H.
  destruct (is_local u); [done|]. rewrite andb_false_r in H. done.
Qed.

End security.

(** ** The connection manager *)

(** What the manager asks of its environment. *)
Inductive event : Type :=
  | Exchange (audience : string) (actor : option string)
  | Connect (client : nat) (c : McpConfig) (credential : option string)
  | Discover (client : nat)
  | Disconnect (client : nat).

Record adapter : Type := {
  adapter_key : string;
  adapted : McpTool;
  adapter_client : nat;
  adapter_limit : Z;
  adapter_timeout : option Z
}.

Record notification : Type := { server_ref : string; method : string; params : list (string * json) }.

(** Clients are numbered in the order they are made. *)
Record McpConnectionManager : Type := {
  policy : McpSecurityPolicy;
  has_factory : bool;
  endpoint_overrides : list (string * string);
  has_exchange : bool;
  exchange_actor : option string;
  clients : list (string * nat);
  adapters : list (string * adapter);
  discovered : list (string * McpDiscovery);
  notifications : list notification;
  max_notifications : nat
}.

Definition with_connections (m : McpConnectionManager) (cs : list (string * nat)) (ts : list (string * adapter))
    (ds : list (string * McpDiscovery)) : McpConnectionManager :=
  {| policy := policy m; has_factory := has_factory m; endpoint_overrides := endpoint_overrides m; has_exchange := has_exchange m;
     exchange_actor := exchange_actor m; clients := cs; adapters := ts; discovered := ds; notifications := notifications m;
     max_notifications := max_notifications m |}.

(** [_on_notification]: a deque with a greatest length. *)
Definition on_notification (n : notification) (m : McpConnectionManager) : McpConnectionManager :=
  let l := (notifications m ++ [n])%list in
  {| policy := policy m; has_factory := has_factory m; endpoint_overrides := endpoint_overrides m; has_exchange := has_exchange m;
     exchange_actor := exchange_actor m; clients := clients m; adapters := adapters m; discovered := discovered m;
     notifications := drop (length l - max_notifications m) l; max_notifications := max_notifications m |}.

Definition set_endpoint_overrides (o : list (string * string)) (m : McpConnectionManager) : McpConnectionManager :=
  {| policy := policy m; has_factory := has_factory m; endpoint_overrides := o; has_exchange := has_exchange m;
     exchange_actor := exchange_actor m; clients := clients m; adapters := adapters m; discovered := discovered m;
     notifications := notifications m; max_notifications := max_notifications m |}.
Definition set_token_exchange_provider (provider : bool) (actor : option string) (m : McpConnectionManager) : McpConnectionManager :=
  {| policy := policy m; has_factory := has_factory m; endpoint_overrides := endpoint_overrides m; has_exchange := provider;
     exchange_actor := match actor with Some a => Some a | None => exchange_actor m end; clients := clients m;
     adapters := adapters m; discovered := discovered m; notifications := notifications m; max_notifications := max_notifications m |}.

(** The manager, what was asked of the environment so far, and how many clients
    were made. *)
Record world : Type := { manager : McpConnectionManager; asked : list event; made : nat }.
Definition ask (e : event) (w : world) : world :=
  {| manager := manager w; asked := (asked w ++ [e])%list; made := made w |}.

Section manager.
Context (urlsplit : string -> option url).
(** The credential provider, if there is one, and the environment's answers. *)
Context (credentials : option (string -> option string)).
Context (exchanges : list event -> option string).
Context (connects : list event -> result mcp_error unit) (state : list event -> nat -> connection).
Context (discovers : list event -> result mcp_error McpDiscovery).

(** [_resolve_credential] *)
Definition resolve_credential (c : McpConfig) : result mcp_error (option string) :=
  if negb (opt_truthy (credential_ref c)) then Ok None
  else match credentials with
       | None => Err (McpSecurityError "credential_ref requires a configured credential provider")
       | Some f => match f (default "" (credential_ref c)) with
                   | Some v => Ok (Some v)
                   | None => Err (McpSecurityError "credential is not available")
                   end
       end.

(** [_resolve_downstream_credential] *)
Definition resolve_downstream (c : McpConfig) (actor : option string) : call world mcp_error (option string) := fun w =>
  if negb (has_exchange (manager w)) || bool_decide (transport c = Some "stdio") then (Ok actor, w)
  else
    let a := if opt_truthy actor then actor else exchange_actor (manager w) in
    let w := ask (Exchange (ref c) a) w in
    match exchanges (asked w) with
    | Some t => (Ok (Some t), w)
    | None => (Err (McpSecurityError "downstream credential exchange failed"), w)
    end.

(** [config_from_definition], with the deployment's endpoint. *)
Definition bound_config (m : McpConnectionManager) (s : McpServerRef) : result mcp_error McpConfig :=
  match dget (ref s) (endpoint_overrides m) with
  | None => Ok s
  | Some e =>
      if bool_decide (transport s = Some "stdio") then Err (McpSecurityError "endpoint overlays cannot target stdio servers")
      else Ok {| ref := ref s; transport := transport s; endpoint := Some e; command := command s; args := args s;
                 credential_ref := credential_ref s; allowed_capabilities := allowed_capabilities s;
                 timeout_seconds := timeout_seconds s |}
  end.

Definition lift {A} (r : result mcp_error A) : call world mcp_error A := fun w => (r, w).

(** [_default_client] *)
Definition make_client : call world mcp_error nat := fun w =>
  if has_factory (manager w)
  then (Ok (made w), {| manager := manager w; asked := asked w; made := S (made w) |})
  else (Err (McpSecurityError "no MCP client factory configured"), w).

Definition connect_client (i : nat) (c : McpConfig) (credential : option string) : call world mcp_error unit := fun w =>
  let w := ask (Connect i c credential) w in (connects (asked w), w).

Definition check_connected (i : nat) : call world mcp_error unit := fun w =>
  if bool_decide (state (asked w) i = CONNECTED) then (Ok tt, w) else (Err (ConnectionError "did not reach connected state"), w).

Definition discover_client (i : nat) : call world mcp_error McpDiscovery := fun w =>
  let w := ask (Discover i) w in (discovers (asked w), w).

Definition tool_key (r : string) (t : McpTool) : string := r ++ ":" ++ tool_name t.

Definition adapt (m : McpConnectionManager) (s : McpServerRef) (i : nat) (t : McpTool) : adapter :=
  {| adapter_key := tool_key (ref s) t; adapted := t; adapter_client := i; adapter_limit := max_response_bytes (policy m);
     adapter_timeout := timeout_seconds s |}.

Definition register (s : McpServerRef) (i : nat) (d : McpDiscovery) : call world mcp_error unit := fun w =>
  let m := manager w in
  (Ok tt,
   {| manager := with_connections m (dset (ref s) i (clients m))
                   (foldl (fun ts t => dset (tool_key (ref s) t) (adapt m s i t) ts) (adapters m) (tools d))
                   (dset (ref s) d (discovered m));
      asked := asked w; made := made w |}).

(** [connect_server] *)
Definition connect_server (s : McpServerRef) : call world mcp_error unit := fun w =>
  (c ← lift (bound_config (manager w) s);
   _ ← lift (validate urlsplit (policy (manager w)) c);
   credential ← lift (resolve_credential c);
   delegated ← resolve_downstream c credential;
   i ← make_client;
   _ ← connect_client i c delegated;
   _ ← check_connected i;
   d ← discover_client i;
   register s i d) w.

Fixpoint connect_servers (l : list McpServerRef) : call world mcp_error unit :=
  match l with [] => mret tt | s :: l => _ ← connect_server s; connect_servers l end.

(** [connect_definition] *)
Definition connect_definition (l : list McpServerRef) : call world mcp_error unit := fun w =>
  match filterb (fun k => negb (memb k (ref <$> l))) (dkeys (endpoint_overrides (manager w))) with
  | [] => connect_servers l w
  | _ => (Err (McpSecurityError "MCP endpoint bindings reference undeclared server(s)"), w)
  end.

(** [health_probe] *)
Definition health_probe (w : world) : bool :=
  negb (bool_decide (clients (manager w) = [])) &&
  forallb (fun e => bool_decide (state (asked w) e.2 = CONNECTED)) (clients (manager w)).

(** [aclose], when no disconnection fails. *)
Definition aclose (w : world) : world :=
  {| manager := with_connections (manager w) [] [] [];
     asked := (asked w ++ ((fun e => Disconnect e.2) <$> clients (manager w)))%list; made := made w |}.

(** ** Where credentials go *)

(** What connecting does not change of a manager. *)
Definition fixed_part (m : McpConnectionManager) : McpSecurityPolicy * bool * list (string * string) * bool * option string :=
  (policy m, has_factory m, endpoint_overrides m, has_exchange m, exchange_actor m).

Definition actor_for (m : McpConnectionManager) (own : option string) : option string :=
  if opt_truthy own then own else exchange_actor m.

(** The credential a connection is made with: the server's own, or, when tokens
    are exchanged and the server is not a local process, what the service gave
    for the server's name. *)
Definition credential_for (m : McpConnectionManager) (s : McpServerRef) (c : McpConfig) (own credential : option string) : Prop :=
  if negb (has_exchange m) || bool_decide (transport c = Some "stdio") then credential = own
  else exists before token, credential = Some token /\ exchanges (before ++ [Exchange (ref s) (actor_for m own)]) = Some token.

Definition event_ok (m : McpConnectionManager) (l : list McpServerRef) (e : event) : Prop :=
  match e with
  | Connect _ c credential =>
      exists s own, s ∈ l /\ bound_config m s = Ok c /\ validate urlsplit (policy m) c = Ok tt /\
        resolve_credential c = Ok own /\ credential_for m s c own credential
  | Exchange audience actor =>
      exists s c own, s ∈ l /\ audience = ref s /\ bound_config m s = Ok c /\ validate urlsplit (policy m) c = Ok tt /\
        resolve_credential c = Ok own /\ actor = actor_for m own
  | Discover _ => True
  | Disconnect _ => False
  end.

(** What a call may have done. *)
Definition only_asked (l : list McpServerRef) (w w' : world) : Prop :=
  exists new, asked w' = (asked w ++ new)%list /\ Forall (event_ok (manager w) l) new /\
    fixed_part (manager w') = fixed_part (manager w) /\
    (forall k, is_Some (dget k (clients (manager w))) -> is_Some (dget k (clients (manager w')))).

Lemma only_asked_refl l w : only_asked l w w.
Proof. exists []. rewrite app_nil_r. by split_and!. Qed.

Lemma event_ok_fixed m m' l e : fixed_part m = fixed_part m' -> event_ok m l e -> event_ok m' l e.
Proof.
  destruct m as [p f o x a cs ts ds ns mx], m' as [p' f' o' x' a' cs' ts' ds' ns' mx']. intros [= -> -> -> -> ->]. destruct e; exact (fun H => H).
Qed.

Lemma event_ok_subset m l l' e : l ⊆ l' -> event_ok m l e -> event_ok m l' e.
Proof.
  intros Hl. destruct e as [a x|i c x| |]; cbn; try done.
  - intros (s & c & own & Hs & H). exists s, c, own. split; [by apply Hl | done].
  - intros (s & own & Hs & H). exists s, own. split; [by apply Hl | done].
Qed.

Lemma only_asked_subset l l' w w' : l ⊆ l' -> only_asked l w w' -> only_asked l' w w'.
Proof.
  intros Hl (n & H & F & S). exists n. split_and!; [done| |apply S..]. eapply Forall_impl; [exact F|]. intros e. by apply event_ok_subset.
Qed.

Lemma only_asked_trans l w1 w2 w3 : only_asked l w1 w2 -> only_asked l w2 w3 -> only_asked l w1 w3.
Proof.
  intros (n1 & H1 & F1 & S1 & C1) (n2 & H2 & F2 & S2 & C2). exists (n1 ++ n2)%list. rewrite H2, H1, app_assoc. split_and!; [done| |congruence|auto].
  apply Forall_app. split; [done|]. eapply Forall_impl; [exact F2|]. intros e He. by eapply event_ok_fixed.
Qed.

Lemma only_asked_event l w e m' n :
  event_ok (manager w) l e -> fixed_part m' = fixed_part (manager w) ->
  (forall k, is_Some (dget k (clients (manager w))) -> is_Some (dget k (clients m'))) ->
  only_asked l w {| manager := m'; asked := (asked w ++ [e])%list; made := n |}.
Proof. intros He Hm Hc. exists [e]. split_and!; [done|by constructor|done|done]. Qed.

Lemma resolve_downstream_ok s c own w r w' :
  bound_config (manager w) s = Ok c -> validate urlsplit (policy (manager w)) c = Ok tt -> resolve_credential c = Ok own ->
  ref c = ref s -> resolve_downstream c own w = (r, w') ->
  only_asked [s] w w' /\ manager w' = manager w /\
  (forall credential, r = Ok credential -> credential_for (manager w) s c own credential).
Proof.
  intros Hb Hv Hr Href. unfold resolve_downstream, credential_for. destruct (negb _ || _).
  - intros [= <- <-]. split_and!; [apply only_asked_refl | done | by intros ? [= <-]].
  - rewrite Href. fold (actor_for (manager w) own). intros H.
    assert (Hw : only_asked [s] w (ask (Exchange (ref s) (actor_for (manager w) own)) w)).
    { apply only_asked_event; [|done|done]. exists s, c, own. split_and!; [by left | done..]. }
    destruct (exchanges _) as [t|] eqn:Et; injection H as <- <-; (split_and!; [exact Hw | done|]); [|done].
    intros credential [= <-]. by exists (asked w), t.
Qed.

Lemma bound_ref m s c : bound_config m s = Ok c -> ref c = ref s.
Proof. unfold bound_config. destruct (dget _ _); [destruct (bool_decide _); [done|]|]; by intros [= <-]. Qed.

Lemma connect_server_ok s w r w' :
  connect_server s w = (r, w') ->
  only_asked [s] w w' /\ (r = Ok tt -> is_Some (dget (ref s) (clients (manager w')))).
Proof.
  unfold connect_server, mbind, call_bind, lift.
  destruct (bound_config (manager w) s) as [c|e] eqn:Hb; [|by intros [= <- <-]; split; [apply only_asked_refl|]].
  destruct (validate urlsplit (policy (manager w)) c) as [[]|e] eqn:Hv; [|by intros [= <- <-]; split; [apply only_asked_refl|]].
  destruct (resolve_credential c) as [own|e] eqn:Hr; [|by intros [= <- <-]; split; [apply only_asked_refl|]].
  destruct (resolve_downstream c own w) as [[credential|e] w1] eqn:Hd;
    destruct (resolve_downstream_ok s c own w _ _ Hb Hv Hr (bound_ref _ _ _ Hb) Hd) as (H1 & Hm & Hc); [|by intros [= <- <-]].
  specialize (Hc credential eq_refl). unfold make_client. destruct (has_factory (manager w1)); [|by intros [= <- <-]].
  unfold connect_client, check_connected, discover_client, register.
  set (w2 := {| manager := manager w1; asked := asked w1; made := S (made w1) |}).
  set (w3 := ask (Connect (made w1) c credential) w2). set (w4 := ask (Discover (made w1)) w3).
  assert (H3 : only_asked [s] w w3).
  { apply (only_asked_trans _ _ w1 _ H1). refine (only_asked_event [s] w1 _ _ _ _ _ _); [|done|done]. rewrite Hm.
    exists s, own. split_and!; [by left | done..]. }
  assert (H4 : only_asked [s] w w4) by (apply (only_asked_trans _ _ w3 _ H3); by refine (only_asked_event [s] w3 _ _ _ _ _ _)).
  destruct (connects _); [|by intros [= <- <-]]. destruct (bool_decide _); [|by intros [= <- <-]].
  destruct (discovers _) as [d|]; [|by intros [= <- <-]]. intros [= <- <-]. cbn [manager clients with_connections]. split.
  - destruct H4 as (n & Hn & F & Hs & Hc'). exists n. split_and!; [done|done|exact Hs|]. intros k Hk. cbn [manager clients with_connections].
    rewrite dget_dset. destruct (decide _); [by eexists|]. by apply Hc'.
  - intros _. rewrite dget_dset_eq. by eexists.
Qed.

Lemma connect_servers_ok l w r w' :
  connect_servers l w = (r, w') ->
  only_asked l w w' /\ (r = Ok tt -> forall s, s ∈ l -> is_Some (dget (ref s) (clients (manager w')))).
Proof.
  revert w. induction l as [|s l IH]; intros w; cbn [connect_servers].
  - intros [= <- <-]. split; [apply only_asked_refl|]. intros _ s Hs. by apply not_elem_of_nil in Hs.
  - unfold mbind, call_bind. destruct (connect_server s w) as [[[]|e] w1] eqn:Hs; destruct (connect_server_ok _ _ _ _ Hs) as [H1 Hc1].
    2:{ intros [= <- <-]. split; [|done]. eapply only_asked_subset; [|exact H1]. set_solver. }
    intros H. destruct (IH _ H) as [H2 Hc2]. split.
    + apply (only_asked_trans _ _ w1); [eapply only_asked_subset; [|exact H1] | eapply only_asked_subset; [|exact H2]]; set_solver.
    + intros Hr s' [->|Hs']%elem_of_cons; [|by apply Hc2]. destruct H2 as (_ & _ & _ & _ & Hc). by apply Hc, Hc1.
Qed.

(** C19: connecting a definition sends credentials where they belong and
    nowhere else: whatever the servers and the token service answer, every
    connection attempted is one of the declared servers, at its own or the deployment's
    endpoint, after that configuration passed the security policy, with
    the credential its own reference resolves to or, under token exchange, a
    token asked for its own name; and if connecting succeeds every declared server
    has a client. *)
Theorem mcp_connects_as_declared l w r w' :
  connect_definition l w = (r, w') ->
  exists new, asked w' = (asked w ++ new)%list /\ Forall (event_ok (manager w) l) new /\
    (r = Ok tt -> forall s, s ∈ l -> is_Some (dget (ref s) (clients (manager w')))).
Proof.
  unfold connect_definition. destruct (filterb _ _); [|by intros [= <- <-]; exists []; rewrite app_nil_r].
  intros H. destruct (connect_servers_ok _ _ _ _ H) as [(new & Hn & F & _) Hc]. by exists new.
Qed.

(** No credential travels in the clear beyond this host. *)
Theorem mcp_credentials_protected l w r w' i c credential :
  require_tls (policy (manager w)) = true -> connect_definition l w = (r, w') ->
  Connect i c (Some credential) ∈ asked w' -> Connect i c (Some credential) ∉ asked w -> protected_ urlsplit c.
Proof.
  intros Ht H Hin Hnot. unfold connect_definition in H. destruct (filterb _ _); [|injection H as <- <-; done].
  destruct (connect_servers_ok _ _ _ _ H) as [(new & Hn & F & _) _]. rewrite Hn in Hin. apply elem_of_app in Hin as [|Hin]; [done|].
  rewrite Forall_forall in F. destruct (F _ Hin) as (s & own & _ & _ & Hv & _). by eapply validate_protected.
Qed.

End manager.
(** ** [McpToolAdapter] and [FakeMcpClient] *)

Record ToolResult : Type := { output : option json; tool_error : option string; is_error : bool }.

(** [execute], given what the client returned or raised. *)
Definition execute (byte_size : json -> Z) (a : adapter) (r : result string json) : ToolResult :=
  match r with
  | Err msg => {| output := None; tool_error := Some msg; is_error := true |}
  | Ok v =>
      if Z.ltb (adapter_limit a) (byte_size v)
      then {| output := None; tool_error := Some "mcp response too large"; is_error := true |}
      else {| output := Some v; tool_error := None; is_error := false |}
  end.

Record FakeMcpClient : Type := {
  fake_discovery : McpDiscovery;
  handlers : list (string * (json -> result mcp_error json));
  connect_fails : bool;
  fake_state : connection;
  fake_config : option McpConfig;
  fake_credential : option string
}.

Definition fake_with (f : FakeMcpClient) (st : connection) (c : option McpConfig) (k : option string) : FakeMcpClient :=
  {| fake_discovery := fake_discovery f; handlers := handlers f; connect_fails := connect_fails f; fake_state := st;
     fake_config := c; fake_credential := k |}.

Definition fake_connect (c : McpConfig) (k : option string) (f : FakeMcpClient) : result mcp_error unit * FakeMcpClient :=
  if connect_fails f then (Err (ConnectionError "cannot reach mcp server"), fake_with f ERROR (fake_config f) (fake_credential f))
  else (Ok tt, fake_with f CONNECTED (Some c) k).
Definition fake_call_tool (n : string) (a : json) (f : FakeMcpClient) : result mcp_error json :=
  if negb (bool_decide (fake_state f = CONNECTED)) then Err (ConnectionError "mcp client is not connected")
  else match dget n (handlers f) with Some h => h a | None => Err (ValueError "unknown tool") end.
Definition fake_disconnect (f : FakeMcpClient) : FakeMcpClient := fake_with f DISCONNECTED (fake_config f) (fake_credential f).

(** ** Examples *)

Definition demo_server (r e k : string) (stdio : bool) : McpServerRef :=
  {| ref := r; transport := if stdio then Some "stdio" else Some "streamable-http";
     endpoint := if stdio then None else Some e; command := if stdio then Some "run" else None; args := [];
     credential_ref := Some k; allowed_capabilities := ["search"]; timeout_seconds := None |}.

Definition demo_url (s : string) : option url :=
  let '(sch, rest) := if String.prefix "https://" s then ("https", String.substring 8 (String.length s - 8) s)
                      else ("http", String.substring 7 (String.length s - 7) s) in
  Some {| scheme := sch; netloc := rest; path := ""; url_query := ""; fragment := ""; username := None; password := None;
          hostname := Some rest |}.

Definition demo_manager (exchange : bool) (overrides : list (string * string)) : McpConnectionManager :=
  {| policy := default_policy; has_factory := true; endpoint_overrides := overrides; has_exchange := exchange;
     exchange_actor := Some "actor"; clients := []; adapters := []; discovered := []; notifications := []; max_notifications := 1000 |}.
Definition demo_world (exchange : bool) (overrides : list (string * string)) : world :=
  {| manager := demo_manager exchange overrides; asked := []; made := 0 |}.

Definition demo_credentials (k : string) : option string := Some ("secret of " ++ k).
Definition demo_exchanges (l : list event) : option string :=
  match last l with Some (Exchange a _) => Some ("token for " ++ a) | _ => None end.
Definition demo_discovery : McpDiscovery :=
  {| tools := [{| tool_name := "delete_all"; tool_description := None; tool_schema := [] |}]; resources := []; prompts := [] |}.

Definition demo_connect : call world mcp_error unit :=
  connect_definition demo_url (Some demo_credentials) demo_exchanges (fun _ => Ok tt) (fun _ _ => CONNECTED) (fun _ => Ok demo_discovery)
    [demo_server "search" "https://s" "k1" false; demo_server "local" "" "k2" true].

Lemma mcp_connects_as_declared_witness :
  exists w', demo_connect (demo_world true [("search", "https://t")]) = (Ok tt, w') /\ length (asked w') = 5 /\
    is_Some (dget "local" (clients (manager w'))).
Proof.
  destruct (demo_connect (demo_world true [("search", "https://t")])) as [r w'] eqn:E.
  destruct (mcp_connects_as_declared demo_url (Some demo_credentials) demo_exchanges (fun _ => Ok tt) (fun _ _ => CONNECTED)
              (fun _ => Ok demo_discovery) [demo_server "search" "https://s" "k1" false; demo_server "local" "" "k2" true]
              (demo_world true [("search", "https://t")]) r w' E) as (new & Hn & Hf & Hc).
  vm_compute in E. injection E as <- <-. eexists. split_and!; [reflexivity | vm_compute; reflexivity|].
  apply (Hc eq_refl (demo_server "local" "" "k2" true)). right. left.
Defined.

(** The definition allows [search] only: every discovered tool is exposed. *)
Example allowed_capabilities_are_not_enforced :
  dkeys (adapters (manager (demo_connect (demo_world false [])).2)) = ["search:delete_all"; "local:delete_all"].
Proof. vm_compute. reflexivity. Qed.

(** A server whose discovery fails stays connected: its client is not recorded,
    and closing the manager does not disconnect it. *)
Example failed_discovery_leaks_connection :
  let w := (connect_definition demo_url None demo_exchanges (fun _ => Ok tt) (fun _ _ => CONNECTED)
              (fun _ => Err (ConnectionError "timed out"))
              [{| ref := "s"; transport := Some "sse"; endpoint := Some "https://s"; command := None; args := []; credential_ref := None;
                  allowed_capabilities := []; timeout_seconds := None |}] (demo_world false [])).2 in
  existsb (fun e => match e with Connect 0 _ _ => true | _ => false end) (asked w) = true /\ asked (aclose w) = asked w.
Proof. vm_compute. split; reflexivity. Qed.

(** An allowlist entry written as the origin's URL, with a slash, allows
    nothing, and the entry ["https://"] allows every TLS origin. *)
Example allowlist_entries :
  allowed_origin "https://api.example.com/" "https://api.example.com" = false /\
  allowed_origin "https://" "https://evil.example.com" = true.
Proof. vm_compute. split; reflexivity. Qed.

End Mcp.
