(* ===== verification/McpSdk.v ===== *)
(** * The MCP SDK client: reconnection and per-request credentials

    [mcp/sdk_client.py]: the task that holds a connection as a state machine over
    what the transport does; transports and tool results; and the requests that
    run side by side on one session, with the points at which they are suspended.
    The SDK itself is the environment. *)

From Stdlib Require Import Ascii Lqa.
From S2P Require Import Prelude Json Mcp.
Import Mcp.
Local Open Scope string_scope.

Module McpSdk.

(** ** The connection task *)

(** Where the task is: opening a transport, holding the session, waiting to
    try again, or ended. *)
Inductive phase : Type := Attempting | Holding | Waiting | Stopped.
#[export] Instance phase_eq_dec : EqDecision phase.
Proof. solve_decision. Defined.

Record client : Type := {
  sdk_state : connection;
  session : bool;
  connected_once : bool;
  reconnects : nat;
  ready : bool;
  closing : bool;
  at_phase : phase;
  waits : list Q                      (** the delays waited, oldest first *)
}.

(** What happens to the task: the session is initialised, the transport fails,
    the delay ends, closing is asked for, the task is cancelled. *)
Inductive happening : Type := Up | Down | Elapsed | Close | Cancel.

(** [connect] starts the task. *)
Definition started : client :=
  {| sdk_state := CONNECTING; session := false; connected_once := false; reconnects := 0; ready := false; closing := false;
     at_phase := Attempting; waits := [] |}.

(** *** Transports and results *)

(** What [_enter_transport] opens. *)
Inductive opened : Type :=
  | LocalProcess (command : string) (args : list string) (env : list (string * string))
  | LegacySse (endpoint : string) (headers : option (string * string))
  | StreamableHttp (endpoint : string) (headers : option (string * string)) (timeout : Q).

Definition authorization (credential : option string) : option (string * string) :=
  if opt_truthy credential then Some ("Authorization", "Bearer " ++ default "" credential) else None.

(** [_enter_transport] *)
Definition enter_transport (environ : list (string * string)) (c : McpConfig) (credential : option string) : result mcp_error opened :=
  if bool_decide (transport c = Some "stdio") then
    match command c with
    | None => Err AssertionError
    | Some cmd =>
        Ok (LocalProcess cmd (args c)
              (if opt_truthy credential && opt_truthy (credential_ref c)
               then dset (default "" (credential_ref c)) (default "" credential) environ else environ))
    end
  else
    match endpoint c with
    | None => Err AssertionError
    | Some e =>
        Ok (if bool_decide (transport c = Some "sse") then LegacySse e (authorization credential)
            else StreamableHttp e (authorization credential)
                   match timeout_seconds c with Some z => if Z.eqb z 0 then 30 else inject_Z z | None => 30 end)
    end.

(** A content block: its type and text. *)
Record sdk_block : Type := { block_type : string; block_text : option string }.
Record sdk_result : Type := { is_error_ : bool; structured : option json; blocks : list sdk_block }.

(** [_blocks_text] *)
Definition blocks_text (l : list sdk_block) : string :=
  String.concat (String (ascii_of_nat 10) "")
    (omap (fun b => if String.eqb (block_type b) "text" && opt_truthy (block_text b) then block_text b else None) l).
(** [_content_blocks] *)
Definition content_blocks (l : list sdk_block) : json :=
  JList ((fun b => JObj (("type", JStr (block_type b)) ::
                         if String.eqb (block_type b) "text" then [("text", from_option JStr JNull (block_text b))] else [])) <$> l).

(** [call_tool], given what the session answers; [None] is a timeout. *)
Definition call_tool (n : string) (session_ok : result mcp_error unit) (answer : option sdk_result) : result mcp_error json :=
  _ ← session_ok;
  match answer with
  | None => Err (ConnectionError ("tool '" ++ n ++ "' timed out"))
  | Some r =>
      if is_error_ r then
        Err (ToolError (if str_truthy (blocks_text (blocks r)) then blocks_text (blocks r) else "tool '" ++ n ++ "' failed on the server"))
      else match structured r with
           | Some v => Ok (JObj [("result", v)])
           | None => Ok (JObj [("content", content_blocks (blocks r))])
           end
  end.

Section task.
Context (attempts : nat) (backoff : Q).

(** The [except Exception] block of [_run]. *)
Definition failed (s : client) : client :=
  if negb (connected_once s) || closing s then
    {| sdk_state := ERROR; session := false; connected_once := connected_once s; reconnects := reconnects s; ready := true;
       closing := closing s; at_phase := Stopped; waits := waits s |}
  else
    let n := S (reconnects s) in
    if Nat.ltb attempts n then
      {| sdk_state := ERROR; session := false; connected_once := true; reconnects := n; ready := true; closing := false;
         at_phase := Stopped; waits := waits s |}
    else
      {| sdk_state := CONNECTING; session := false; connected_once := true; reconnects := n; ready := true; closing := false;
         at_phase := Waiting; waits := (waits s ++ [backoff * inject_Z (2 ^ Z.of_nat (n - 1))]%Q)%list |}.

Definition stopped (s : client) (closing_ : bool) : client :=
  {| sdk_state := sdk_state s; session := false; connected_once := connected_once s; reconnects := reconnects s; ready := ready s;
     closing := closing_; at_phase := Stopped; waits := waits s |}.

Definition step (s : client) (e : happening) : client :=
  match e, at_phase s with
  | Up, Attempting =>
      let up := {| sdk_state := CONNECTED; session := true; connected_once := true; reconnects := 0; ready := true;
                   closing := closing s; at_phase := Holding; waits := waits s |} in
      if closing s then stopped up true else up
  | Down, (Attempting | Holding) => failed s
  | Elapsed, Waiting =>
      {| sdk_state := sdk_state s; session := session s; connected_once := connected_once s; reconnects := reconnects s;
         ready := ready s; closing := closing s; at_phase := Attempting; waits := waits s |}
  | Close, (Holding | Waiting) => stopped s true
  | Close, ph =>
      {| sdk_state := sdk_state s; session := session s; connected_once := connected_once s; reconnects := reconnects s;
         ready := ready s; closing := true; at_phase := ph; waits := waits s |}
  | Cancel, _ => stopped s (closing s)
  | _, _ => s
  end.
Definition run (s : client) (es : list happening) : client := foldl step s es.

(** [_require_session] *)
Definition require_session (s : client) : result mcp_error unit :=
  if session s && bool_decide (sdk_state s = CONNECTED) then Ok tt else Err (ConnectionError "mcp client is not connected").

(** [connect], once the task is ready or its time is over. *)
Definition connected (s : client) (timed_out : bool) : result mcp_error unit :=
  if timed_out then Err (ConnectionError "connection timed out")
  else if connected_once s then Ok tt else Err (ConnectionError "connection failed").

(** [disconnect]: the task ends by itself or is cancelled. *)
Definition disconnect (s : client) : client :=
  {| sdk_state := DISCONNECTED; session := false; connected_once := connected_once s; reconnects := reconnects s; ready := ready s;
     closing := true; at_phase := Stopped; waits := waits s |}.

(** *** What holds of the task at any time *)

Record task_ok (s : client) : Prop := {
  session_held : session s = true <-> at_phase s = Holding;
  held_connected : at_phase s = Holding -> sdk_state s = CONNECTED /\ connected_once s = true /\ reconnects s = 0;
  tries_bounded : at_phase s <> Stopped -> reconnects s <= attempts;
  waiting_once : at_phase s = Waiting -> connected_once s = true
}.

Lemma task_ok_failed s : at_phase s = Attempting \/ at_phase s = Holding -> task_ok s -> task_ok (failed s).
Proof.
  intros Hp Hs. unfold failed. destruct (negb (connected_once s) || closing s); [by split|]. cbn zeta.
  destruct (Nat.ltb_spec attempts (S (reconnects s))); [by split|]. split; cbn; try done.
Qed.

Lemma task_ok_stopped s b : task_ok (stopped s b).
Proof. by split. Qed.

Lemma task_ok_step s e : task_ok s -> task_ok (step s e).
Proof.
  intros Hs. pose proof Hs as [H1 H2 H3 H4]. destruct e, (at_phase s) eqn:Ep; cbn [step]; rewrite ?Ep; try exact Hs;
    try apply task_ok_stopped; try (apply task_ok_failed; [by rewrite Ep; auto | exact Hs]).
  1: { destruct (closing s); [apply task_ok_stopped|]. split; cbn; try done; auto with lia. }
  all: split; cbn; rewrite ?H1, ?Ep; try done; first [split; by intros [=] | intros _; by apply H3 | intros _; by apply H4].
Qed.

(** a tool is called on the server only while the session is up: at any
    time, whatever the transport did and however it was closed or cancelled, the
    client takes a call if and only if it holds an initialised session, and while
    it tries to get one back it has failed no more often than it may. *)
Theorem calls_need_session es :
  let s := run started es in
  (require_session s = Ok tt <-> at_phase s = Holding) /\ (at_phase s <> Stopped -> reconnects s <= attempts).
Proof.
  assert (Hok : task_ok (run started es)) by (unfold run; apply foldl_invariant; [split; cbn; try done; auto with lia|]; intros s e; apply task_ok_step).
  cbn zeta. destruct Hok as [H1 H2 H3 _]. split; [|exact H3]. unfold require_session. split.
  - destruct (session _) eqn:E; [|done]. intros _. by apply H1.
  - intros Hp. rewrite (proj2 H1 Hp), (proj1 (H2 Hp)). done.
Qed.

(** The delays doubling from the [i]-th. *)
Fixpoint doubling (i n : nat) : list Q :=
  match n with O => [] | S n => (backoff * inject_Z (2 ^ Z.of_nat i))%Q :: doubling (S i) n end.

(** reconnecting ends: without a success in between, the task waits at most
    [attempts] times whatever happens, each time twice as long as the time before. *)
Theorem reconnects_bounded s es :
  Up ∉ es -> exists n, waits (run s es) = (waits s ++ doubling (reconnects s) n)%list /\ n <= attempts - reconnects s.
Proof.
  revert s. induction es as [|e es IH]; intros s Hup; [exists 0; cbn; rewrite app_nil_r; split; [done|lia]|].
  apply not_elem_of_cons in Hup as [Hne Hup]. cbn [run foldl].
  assert (Hstep : waits (step s e) = waits s /\ (reconnects (step s e) = reconnects s \/ attempts < reconnects (step s e)) \/
                  waits (step s e) = (waits s ++ [backoff * inject_Z (2 ^ Z.of_nat (reconnects s))]%Q)%list /\
                  reconnects (step s e) = S (reconnects s) /\ S (reconnects s) <= attempts).
  { assert (Hf : waits (failed s) = waits s /\ (reconnects (failed s) = reconnects s \/ attempts < reconnects (failed s)) \/
                 waits (failed s) = (waits s ++ [backoff * inject_Z (2 ^ Z.of_nat (reconnects s))]%Q)%list /\
                 reconnects (failed s) = S (reconnects s) /\ S (reconnects s) <= attempts).
    { unfold failed. destruct (_ || _); [by left; auto|]. cbn zeta.
      destruct (Nat.ltb_spec attempts (S (reconnects s))); [left; split; [done|by right]|]. right. cbn. by rewrite Nat.sub_0_r. }
    destruct e, (at_phase s) eqn:Ep; cbn [step]; rewrite ?Ep; try done; try exact Hf; left; cbn; auto. }
  destruct (IH (step s e) Hup) as (n & Hn & Hle). unfold run in Hn. rewrite Hn.
  destruct Hstep as [(Hw & [Hr|Hlt])|(Hw & Hr & Hlt)]; rewrite Hw, ?Hr; rewrite ?Hr in Hle.
  - by exists n.
  - exists 0. assert (n = 0) as -> by lia. split; [done|lia].
  - exists (S n). rewrite <-app_assoc. split; [done|lia].
Qed.

(** A failure that closing does not explain. *)
Lemma failed_outcome s :
  connected_once s = true -> closing s = false ->
  if Nat.ltb attempts (S (reconnects s)) then at_phase (failed s) = Stopped /\ sdk_state (failed s) = ERROR
  else at_phase (failed s) = Waiting /\ connected_once (failed s) = true /\ closing (failed s) = false /\
       reconnects (failed s) = S (reconnects s).
Proof. intros Hc Hcl. unfold failed. rewrite Hc, Hcl. cbn [negb orb]. cbn zeta. by destruct (Nat.ltb _ _). Qed.

Lemma retry s :
  at_phase s = Waiting -> connected_once s = true -> closing s = false ->
  exists s1, step (step s Elapsed) Down = failed s1 /\ connected_once s1 = true /\ closing s1 = false /\ reconnects s1 = reconnects s.
Proof. intros Hp Hc Hcl. unfold step at 2. rewrite Hp. eexists. split; [reflexivity|]. by cbn. Qed.

(** Failing as often as it may, and once more, the task gives up. *)
Lemma gives_up s n :
  at_phase s = Waiting -> connected_once s = true -> closing s = false -> reconnects s + n = attempts ->
  let s' := run s (concat (replicate (S n) [Elapsed; Down])) in at_phase s' = Stopped /\ sdk_state s' = ERROR.
Proof.
  revert s. induction n as [|n IH]; intros s Hp Hc Hcl Hr; cbn zeta;
    destruct (retry s Hp Hc Hcl) as (s1 & Hs & Hc1 & Hcl1 & Hr1); pose proof (failed_outcome s1 Hc1 Hcl1) as Hf; rewrite Hr1 in Hf;
    destruct (Nat.ltb_spec attempts (S (reconnects s))); try lia.
  - change (run s _) with (step (step s Elapsed) Down). by rewrite Hs.
  - change (run s _) with (run (step (step s Elapsed) Down) (concat (replicate (S n) [Elapsed; Down]))). rewrite Hs.
    destruct Hf as (? & ? & ? & Hrec). apply IH; try done. lia.
Qed.

(** C36: a connection lost for good is given up: after the drop of a session
    and [attempts] failed attempts to get it back, the task has ended in the
    error state. *)
Theorem lost_connection_given_up s :
  at_phase s = Holding -> connected_once s = true -> reconnects s = 0 -> closing s = false -> 0 < attempts ->
  let s' := run s (Down :: concat (replicate attempts [Elapsed; Down])) in at_phase s' = Stopped /\ sdk_state s' = ERROR.
Proof.
  intros Hp Hc Hr Hcl Ha. cbn zeta.
  replace (replicate attempts [Elapsed; Down]) with (replicate (S (attempts - 1)) [Elapsed; Down]) by (f_equal; lia).
  change (run s (Down :: ?l)) with (run (step s Down) l).
  assert (step s Down = failed s) as -> by (unfold step; by rewrite Hp). pose proof (failed_outcome s Hc Hcl) as Hf. rewrite Hr in Hf.
  destruct (Nat.ltb_spec attempts 1); [lia|]. destruct Hf as (? & ? & ? & Hrec). apply gives_up; try done. lia.
Qed.

End task.
(** ** Requests: which credential goes with which

    For a client with a credential resolver.  A caller reserves an id, resolves its
    credential, and awaits its operation, in which the SDK takes an id and hands the
    message to the transport; the transport's task makes the HTTP request, if it
    comes to it also after the caller has timed out or was cancelled.  Losing the
    connection ends its transport and clears the tables; an operation that was begun
    on the lost session is not sent, but its caller still resolves and cleans up. *)

(** A request of a caller: the id it reserved and on which session, the credential
    resolved for it once it is, the id the SDK gave it once it is sent, and whether
    its [finally] block has run. *)
Record request : Type := {
  reserved_id : nat;
  on_session : nat;
  own : option (option string);
  sdk_id : option nat;
  over : bool
}.

(** An HTTP request: of which caller, whether that was still waiting for it, and the
    token in its header. *)
Record emission : Type := { of_caller : nat; waited_for : bool; token : option string }.

Record wire : Type := {
  session_number : nat;
  next_id : nat;                                  (** [session._request_id] *)
  trace_contexts : list nat;                      (** the reserved ids *)
  request_credentials : list (nat * option string);
  requests : list (nat * request);                (** by caller *)
  in_transport : list (nat * nat);                (** the messages of this session: SDK id and caller *)
  emitted : list emission
}.
Definition new_wire (first : nat) : wire :=
  {| session_number := 0; next_id := first; trace_contexts := []; request_credentials := []; requests := []; in_transport := []; emitted := [] |}.

(** The suspension points of [_with_trace_context], of the transport and of [_run]. *)
Inductive action : Type :=
  | Reserve (caller : nat)                        (** [_reserve_trace_context] *)
  | Resolve (caller : nat) (credential : option string)
  | Send (caller : nat)                           (** the SDK takes the next id *)
  | Emit (id : nat)                               (** the HTTP request hook *)
  | End (caller : nat)                            (** the [finally] block *)
  | Reconnect (first : nat).                      (** the [finally] block of [_run], and a new session *)

(** [while request_id in self._trace_contexts: request_id += 1] *)
Fixpoint free_id (fuel : nat) (used : list nat) (i : nat) : nat :=
  match fuel with O => i | S fuel => if memb i used then free_id fuel used (S i) else i end.

Definition drop_id (i : nat) (l : list nat) : list nat := filterb (fun j => negb (Nat.eqb j i)) l.

(** The [Authorization] header: the request's credential, or the connection's. *)
Definition header (default_credential : option string) (w : wire) (i : nat) : option string :=
  match dget i (request_credentials w) with
  | Some c => if opt_truthy c then c else default_credential
  | None => default_credential
  end.

Section wire.
Context (default_credential : option string).

(** One action, when it is possible. *)
Definition act (w : wire) (a : action) : option wire :=
  match a with
  | Reserve k =>
      match dget k (requests w) with
      | Some _ => None
      | None =>
          let i := free_id (length (trace_contexts w)) (trace_contexts w) (next_id w) in
          Some {| session_number := session_number w; next_id := next_id w; trace_contexts := i :: trace_contexts w;
                  request_credentials := request_credentials w;
                  requests := dset k {| reserved_id := i; on_session := session_number w; own := None; sdk_id := None; over := false |} (requests w);
                  in_transport := in_transport w; emitted := emitted w |}
      end
  | Resolve k c =>
      r ← dget k (requests w);
      match own r with
      | None =>
          if over r then None
          else Some {| session_number := session_number w; next_id := next_id w; trace_contexts := trace_contexts w;
                       request_credentials := dset (reserved_id r) c (request_credentials w);
                       requests := dset k {| reserved_id := reserved_id r; on_session := on_session r; own := Some c; sdk_id := sdk_id r;
                                             over := false |} (requests w);
                       in_transport := in_transport w; emitted := emitted w |}
      | Some _ => None
      end
  | Send k =>
      r ← dget k (requests w);
      match own r, sdk_id r with
      | Some c, None =>
          if over r || negb (Nat.eqb (on_session r) (session_number w)) then None
          else Some {| session_number := session_number w; next_id := S (next_id w); trace_contexts := trace_contexts w;
                       request_credentials := request_credentials w;
                       requests := dset k {| reserved_id := reserved_id r; on_session := on_session r; own := Some c;
                                             sdk_id := Some (next_id w); over := false |} (requests w);
                       in_transport := dset (next_id w) k (in_transport w); emitted := emitted w |}
      | _, _ => None
      end
  | Emit i =>
      k ← dget i (in_transport w); r ← dget k (requests w);
      Some {| session_number := session_number w; next_id := next_id w; trace_contexts := trace_contexts w;
              request_credentials := request_credentials w; requests := requests w; in_transport := in_transport w;
              emitted := (emitted w ++ [{| of_caller := k; waited_for := negb (over r); token := header default_credential w i |}])%list |}
  | End k =>
      r ← dget k (requests w);
      if over r then None
      else Some {| session_number := session_number w; next_id := next_id w; trace_contexts := drop_id (reserved_id r) (trace_contexts w);
                   request_credentials := dpop (reserved_id r) (request_credentials w);
                   requests := dset k {| reserved_id := reserved_id r; on_session := on_session r; own := own r; sdk_id := sdk_id r;
                                         over := true |} (requests w);
                   in_transport := in_transport w; emitted := emitted w |}
  | Reconnect first =>
      Some {| session_number := S (session_number w); next_id := first; trace_contexts := []; request_credentials := [];
              requests := requests w; in_transport := []; emitted := emitted w |}
  end.

Fixpoint acts (w : wire) (l : list action) : option wire :=
  match l with [] => Some w | a :: l => w ← act w a; acts w l end.

(** The request is over, or sent on the session that is up. *)
Definition settled (w : wire) (r : request) : bool :=
  over r || (bool_decide (is_Some (sdk_id r)) && Nat.eqb (on_session r) (session_number w)).
Definition quiet (w : wire) : bool := forallb (fun e => settled w e.2) (requests w).

(** No request is begun while another is between reserving and sending, or is left
    from a lost session. *)
Fixpoint one_at_a_time (w : wire) (l : list action) : Prop :=
  match l with
  | [] => True
  | a :: l =>
      (match a with Reserve _ => quiet w = true | _ => True end) /\
      match act w a with Some w => one_at_a_time w l | None => True end
  end.

(** The credential a caller resolved, as a header. *)
Definition own_header (c : option string) : option string := if opt_truthy c then c else default_credential.

Definition live (w : wire) (k : nat) (r : request) : Prop := dget k (requests w) = Some r /\ over r = false.
Definition current (w : wire) (r : request) : Prop := on_session r = session_number w.
#[local] Instance current_dec w r : Decision (current w r).
Proof. unfold current. apply _. Defined.

Record wire_ok (past : list action) (w : wire) : Prop := {
  sessions_past : forall k r, dget k (requests w) = Some r -> on_session r <= session_number w;
  reserved_live : forall i, i ∈ trace_contexts w -> exists k r, live w k r /\ reserved_id r = i;
  transport_known : forall i k, dget i (in_transport w) = Some k -> exists r, dget k (requests w) = Some r /\ sdk_id r = Some i /\ current w r;
  sent_as_reserved : forall k r i, dget k (requests w) = Some r -> sdk_id r = Some i -> current w r ->
    dget i (in_transport w) = Some k /\ reserved_id r = i /\ i < next_id w /\ own r <> None;
  unsent_next : forall k r, live w k r -> current w r -> sdk_id r = None -> reserved_id r = next_id w;
  one_unsent : forall k r k' r', live w k r -> live w k' r' -> current w r -> current w r' -> sdk_id r = None -> sdk_id r' = None -> k = k';
  stale_alone : forall k r, live w k r -> ~ current w r -> in_transport w = [] /\ forall k' r', live w k' r' -> ~ current w r';
  credential_owned : forall i c, dget i (request_credentials w) = Some c -> exists k r, live w k r /\ reserved_id r = i /\ own r = Some c;
  credential_kept : forall k r c, live w k r -> current w r -> own r = Some c -> dget (reserved_id r) (request_credentials w) = Some c;
  own_resolved : forall k r c, dget k (requests w) = Some r -> own r = Some c -> Resolve k c ∈ past;
  emitted_ok : forall e, e ∈ emitted w -> exists c, Resolve (of_caller e) c ∈ past /\
    token e = if waited_for e then own_header c else default_credential
}.

Lemma quiet_settled w k r : quiet w = true -> live w k r -> current w r /\ is_Some (sdk_id r).
Proof.
  unfold quiet. intros Hq [Hr Ho]. rewrite forallb_elem in Hq. specialize (Hq _ (dget_elem _ _ _ Hr)).
  unfold settled in Hq. cbn in Hq. rewrite Ho in Hq. apply andb_true_iff in Hq as [Hs Hc].
  apply bool_decide_eq_true in Hs. by apply Nat.eqb_eq in Hc.
Qed.

(** Requests that are waited for on the session that is up have different ids. *)
Lemma ids_distinct past w k r k' r' :
  wire_ok past w -> live w k r -> live w k' r' -> current w r -> current w r' -> reserved_id r = reserved_id r' -> k = k'.
Proof.
  intros Hok Hl Hl' Hc Hc' He. destruct (sdk_id r) as [i|] eqn:Ei, (sdk_id r') as [i'|] eqn:Ei'.
  - destruct (sent_as_reserved _ _ Hok _ _ _ (proj1 Hl) Ei Hc) as (H1 & H2 & _).
    destruct (sent_as_reserved _ _ Hok _ _ _ (proj1 Hl') Ei' Hc') as (H1' & H2' & _). congruence.
  - destruct (sent_as_reserved _ _ Hok _ _ _ (proj1 Hl) Ei Hc) as (_ & H2 & H3 & _).
    pose proof (unsent_next _ _ Hok _ _ Hl' Hc' Ei'). lia.
  - destruct (sent_as_reserved _ _ Hok _ _ _ (proj1 Hl') Ei' Hc') as (_ & H2 & H3 & _).
    pose proof (unsent_next _ _ Hok _ _ Hl Hc Ei). lia.
  - by apply (one_unsent _ _ Hok k r k' r').
Qed.

Lemma past_snoc (past : list action) a b : b ∈ past -> b ∈ (past ++ [a])%list.
Proof. rewrite elem_of_app. by left. Qed.
#[local] Hint Resolve past_snoc : core.

Lemma emitted_snoc past w a : wire_ok past w -> forall e, e ∈ emitted w ->
  exists c, Resolve (of_caller e) c ∈ (past ++ [a])%list /\ token e = if waited_for e then own_header c else default_credential.
Proof. intros Hok e He. destruct (emitted_ok _ _ Hok e He) as (c & ? & ?). exists c. auto. Qed.

(** A request that is changed: its entry or another's. *)
Lemma request_cases (rs : list (nat * request)) k r k' x :
  dget k' (dset k r rs) = Some x -> k' = k /\ x = r \/ k' <> k /\ dget k' rs = Some x.
Proof. rewrite dget_dset. case_decide as Hk; [|by right]. intros [= <-]. by left. Qed.

Lemma live_cases w w' k r k' x :
  requests w' = dset k r (requests w) -> live w' k' x -> k' = k /\ x = r /\ over r = false \/ k' <> k /\ live w k' x.
Proof.
  intros Hr [Hd Ho]. rewrite Hr in Hd. apply request_cases in Hd as [[-> ->]|[Hne Hd]]; [left|right]; by split_and!.
Qed.

Lemma live_here w w' k r : requests w' = dset k r (requests w) -> over r = false -> live w' k r.
Proof. intros Hr Ho. split; [by rewrite Hr, dget_dset_eq|done]. Qed.
Lemma live_else w w' k r k' x : requests w' = dset k r (requests w) -> k' <> k -> live w k' x -> live w' k' x.
Proof. intros Hr Hne [Hd Ho]. split; [by rewrite Hr, dget_dset_ne|done]. Qed.

Lemma reserve_ok past w w' k : quiet w = true -> wire_ok past w -> act w (Reserve k) = Some w' -> wire_ok (past ++ [Reserve k]) w'.
Proof.
  intros Hq Hok. cbn [act]. destruct (dget k (requests w)) eqn:Ek; [done|]. intros [= <-].
  assert (Hfree : next_id w ∉ trace_contexts w).
  { intros (k' & r & Hr & He)%(reserved_live _ _ Hok). destruct (quiet_settled _ _ _ Hq Hr) as [Hc [i Hi]].
    destruct (sent_as_reserved _ _ Hok _ _ _ (proj1 Hr) Hi Hc) as (_ & ? & ? & _). lia. }
  assert (Hid : free_id (length (trace_contexts w)) (trace_contexts w) (next_id w) = next_id w).
  { destruct (length (trace_contexts w)); [done|]. cbn. by rewrite (proj2 (memb_false _ _) Hfree). }
  rewrite Hid. set (r0 := {| reserved_id := next_id w |}). set (w' := {| session_number := session_number w |}).
  assert (Hw : requests w' = dset k r0 (requests w)) by done.
  assert (Hsn : session_number w' = session_number w) by done.
  assert (Hne : forall k' x, dget k' (requests w) = Some x -> k' <> k) by (intros ? ? ? ->; congruence).
  assert (Hold : forall k' x, live w k' x -> live w' k' x) by (intros k' x Hl; apply (live_else w _ k r0); [done|by eapply Hne, Hl|done]).
  split; cbn [trace_contexts request_credentials in_transport emitted].
  - intros k' x [[-> ->]|[_ Hx]]%request_cases; [cbn; lia|by apply (sessions_past _ _ Hok k')].
  - intros i [->|Hi]%elem_of_cons; [exists k, r0; split; [by apply (live_here w)|done]|].
    destruct (reserved_live _ _ Hok i Hi) as (k' & x & Hx & He). exists k', x. by split; [apply Hold|].
  - intros i k' (x & Hx & ? & ?)%(transport_known _ _ Hok). exists x. split; [|done]. cbn. by rewrite dget_dset_ne; [|by eapply Hne].
  - intros k' x i [[-> ->]|[_ Hx]]%request_cases; [done|by apply (sent_as_reserved _ _ Hok k')].
  - intros k' x [(-> & -> & _)|[_ Hx]]%(live_cases w _ _ _ _ _ Hw); [done|by apply (unsent_next _ _ Hok k')].
  - assert (Hsent : forall k' x, live w k' x -> sdk_id x = None -> False)
      by (intros k' x Hx E; destruct (quiet_settled _ _ _ Hq Hx) as [_ [? ?]]; congruence).
    intros k1 x1 k2 x2 [(-> & -> & _)|[_ H1]]%(live_cases w _ _ _ _ _ Hw) [(-> & -> & _)|[_ H2]]%(live_cases w _ _ _ _ _ Hw) _ _ E1 E2;
      [done|by destruct (Hsent _ _ H2)|by destruct (Hsent _ _ H1)|by destruct (Hsent _ _ H1)].
  - intros k' x [(-> & -> & _)|[_ Hx]]%(live_cases w _ _ _ _ _ Hw) Hc; [by destruct Hc|].
    destruct (quiet_settled _ _ _ Hq Hx). done.
  - intros i c (k' & x & Hx & ? & ?)%(credential_owned _ _ Hok). exists k', x. by split; [apply Hold|].
  - intros k' x c [(-> & -> & _)|[_ Hx]]%(live_cases w _ _ _ _ _ Hw); [done|by apply (credential_kept _ _ Hok k')].
  - intros k' x c [[-> ->]|[_ Hx]]%request_cases; [done|]. intros Hc. by apply past_snoc, (own_resolved _ _ Hok k' x).
  - exact (emitted_snoc _ _ _ Hok).
Qed.

Lemma resolve_ok past w w' k c : wire_ok past w -> act w (Resolve k c) = Some w' -> wire_ok (past ++ [Resolve k c]) w'.
Proof.
  intros Hok. cbn [act]. destruct (dget k (requests w)) as [r|] eqn:Ek; [|done]. cbn [mbind option_bind].
  destruct (own r) eqn:Eo; [done|]. destruct (over r) eqn:Ev; [done|]. intros [= <-].
  set (r0 := {| reserved_id := reserved_id r; on_session := on_session r; own := Some c; sdk_id := sdk_id r; over := false |}).
  set (w' := {| session_number := session_number w |}). assert (Hw : requests w' = dset k r0 (requests w)) by done.
  assert (Hsn : session_number w' = session_number w) by done.
  assert (Hr : live w k r) by done.
  assert (Hunsent : current w r -> sdk_id r = None).
  { intros Hc. destruct (sdk_id r) as [i|] eqn:Ei; [|done].
    by destruct (sent_as_reserved _ _ Hok _ _ _ Ek Ei Hc) as (_ & _ & _ & []). }
  assert (Hnew : forall k' x, live w' k' x -> exists y, live w k' y /\ reserved_id y = reserved_id x /\ on_session y = on_session x /\
            sdk_id y = sdk_id x).
  { intros k' x [(-> & -> & _)|[_ Hx]]%(live_cases w _ _ _ _ _ Hw); [by exists r | by exists x]. }
  assert (Hown : forall k' x, live w k' x -> exists y, live w' k' y /\ reserved_id y = reserved_id x).
  { intros k' x Hx. destruct (decide (k' = k)) as [->|Hne]; [|exists x; split; [by apply (live_else w _ k r0)|done]].
    exists r0. split; [by apply (live_here w)|]. destruct Hx as [Hx _]. rewrite Ek in Hx. by injection Hx as <-. }
  split; cbn [trace_contexts request_credentials in_transport emitted].
  - intros k' x [[-> ->]|[_ Hx]]%request_cases; [by apply (sessions_past _ _ Hok k r)|by apply (sessions_past _ _ Hok k')].
  - intros i (k' & x & Hx & <-)%(reserved_live _ _ Hok). destruct (Hown _ _ Hx) as (y & ? & ?). by exists k', y.
  - intros i k' (x & Hx & ? & Hc)%(transport_known _ _ Hok). cbn. destruct (decide (k' = k)) as [->|Hne].
    + rewrite Ek in Hx. injection Hx as <-. exists r0. by rewrite dget_dset_eq.
    + exists x. by rewrite dget_dset_ne.
  - intros k' x i [[-> ->]|[_ Hx]]%request_cases; [|by apply (sent_as_reserved _ _ Hok k')].
    intros Hi Hc. cbn in Hi. by rewrite (Hunsent Hc) in Hi.
  - intros k' x (y & Hy & He & Hs & Hi)%Hnew Hc Hn. rewrite <-He. apply (unsent_next _ _ Hok k' y Hy); unfold current in *; congruence.
  - intros k1 x1 k2 x2 (y1 & H1 & _ & S1 & I1)%Hnew (y2 & H2 & _ & S2 & I2)%Hnew C1 C2 N1 N2.
    apply (one_unsent _ _ Hok k1 y1 k2 y2); unfold current in *; congruence || done.
  - intros k' x (y & Hy & _ & Hs & _)%Hnew Hc. destruct (stale_alone _ _ Hok k' y Hy) as [Ht Ha]; [unfold current in *; congruence|].
    split; [done|]. intros k2 x2 (y2 & Hy2 & _ & Hs2 & _)%Hnew. specialize (Ha k2 y2 Hy2). unfold current in *. congruence.
  - intros i c'. change (request_credentials w') with (dset (reserved_id r) c (request_credentials w)). rewrite dget_dset. case_decide as Hi.
    + intros [= <-]. exists k, r0. split; [by apply (live_here w)|]. by subst.
    + intros (k' & x & Hx & He & Hc)%(credential_owned _ _ Hok). exists k', x. split; [|done].
      apply (live_else w _ k r0); [done| |done]. intros ->. destruct Hx as [Hx _]. rewrite Ek in Hx. injection Hx as <-. congruence.
  - intros k' x c' [(-> & -> & _)|[Hne Hx]]%(live_cases w _ _ _ _ _ Hw) Hc Ho.
    + injection Ho as <-. apply dget_dset_eq.
    + change (request_credentials w') with (dset (reserved_id r) c (request_credentials w)).
      rewrite dget_dset_ne; [by apply (credential_kept _ _ Hok k')|]. intros He. apply Hne.
      destruct (decide (current w r)) as [Hcr|Hcr]; [by apply (ids_distinct past w k' x k r)|].
      destruct (stale_alone _ _ Hok k r Hr Hcr) as [_ Ha]. by destruct (Ha k' x Hx).
  - intros k' x c' [[-> ->]|[_ Hx]]%request_cases; [intros [= <-]; apply elem_of_app; right; left|].
    intros Hc. by apply past_snoc, (own_resolved _ _ Hok k' x).
  - exact (emitted_snoc _ _ _ Hok).
Qed.

Lemma send_ok past w w' k : wire_ok past w -> act w (Send k) = Some w' -> wire_ok (past ++ [Send k]) w'.
Proof.
  intros Hok. cbn [act]. destruct (dget k (requests w)) as [r|] eqn:Ek; [|done]. cbn [mbind option_bind].
  destruct (own r) as [c|] eqn:Eo; [|done]. destruct (sdk_id r) eqn:Ei; [done|].
  destruct (over r) eqn:Ev; [done|]. cbn [orb]. destruct (Nat.eqb_spec (on_session r) (session_number w)) as [Hc|]; [|done].
  cbn [negb]. intros [= <-].
  set (r0 := {| reserved_id := reserved_id r; on_session := on_session r; own := Some c; sdk_id := Some (next_id w); over := false |}).
  set (w' := {| session_number := session_number w |}). assert (Hw : requests w' = dset k r0 (requests w)) by done.
  assert (Hsn : session_number w' = session_number w) by done.
  assert (Hr : live w k r) by done. pose proof (unsent_next _ _ Hok k r Hr Hc Ei) as Hid.
  assert (Hown : forall k' x, live w k' x -> exists y, live w' k' y /\ reserved_id y = reserved_id x /\ own y = own x).
  { intros k' x Hx. destruct (decide (k' = k)) as [->|Hne]; [|exists x; split; [by apply (live_else w _ k r0)|done]].
    exists r0. split; [by apply (live_here w)|]. destruct Hx as [Hx _]. rewrite Ek in Hx. by injection Hx as <-. }
  split; cbn [trace_contexts request_credentials in_transport emitted next_id].
  - intros k' x [[-> ->]|[_ Hx]]%request_cases; [by apply (sessions_past _ _ Hok k r)|by apply (sessions_past _ _ Hok k')].
  - intros i (k' & x & Hx & <-)%(reserved_live _ _ Hok). destruct (Hown _ _ Hx) as (y & ? & ? & _). by exists k', y.
  - intros i k'. change (in_transport w') with (dset (next_id w) k (in_transport w)). rewrite dget_dset. case_decide as Hi.
    + intros [= <-]. exists r0. cbn. rewrite dget_dset_eq. by subst.
    + intros (x & Hx & Hs & Hcx)%(transport_known _ _ Hok). exists x. cbn. rewrite dget_dset_ne; [done|].
      intros ->. rewrite Ek in Hx. injection Hx as <-. congruence.
  - intros k' x i [[-> ->]|[_ Hx]]%request_cases.
    + intros [= <-] _. change (in_transport w') with (dset (next_id w) k (in_transport w)). rewrite dget_dset_eq. cbn. split_and!; [done|done|lia|done].
    + intros Hi Hcx. destruct (sent_as_reserved _ _ Hok k' x i Hx Hi Hcx) as (? & ? & ? & ?).
      change (in_transport w') with (dset (next_id w) k (in_transport w)). rewrite dget_dset_ne by lia. cbn. split_and!; [done|done|lia|done].
  - intros k' x [(-> & -> & _)|[Hne Hx]]%(live_cases w _ _ _ _ _ Hw) Hcx Hn; [done|].
    destruct Hne. by apply (one_unsent _ _ Hok k' x k r).
  - intros k1 x1 k2 x2 [(-> & -> & _)|[_ H1]]%(live_cases w _ _ _ _ _ Hw) [(-> & -> & _)|[_ H2]]%(live_cases w _ _ _ _ _ Hw) C1 C2 N1 N2;
      [done..|by apply (one_unsent _ _ Hok k1 x1 k2 x2)].
  - intros k' x [(-> & -> & _)|[_ Hx]]%(live_cases w _ _ _ _ _ Hw) Hcx; [by destruct Hcx|].
    destruct (stale_alone _ _ Hok k' x Hx Hcx) as [_ Ha]. by destruct (Ha k r Hr).
  - intros i c' (k' & x & Hx & <- & Hcx)%(credential_owned _ _ Hok). destruct (Hown _ _ Hx) as (y & ? & ? & ?).
    exists k', y. split_and!; congruence || done.
  - intros k' x c' [(-> & -> & _)|[_ Hx]]%(live_cases w _ _ _ _ _ Hw) Hcx Ho; [|by apply (credential_kept _ _ Hok k')].
    injection Ho as <-. by apply (credential_kept _ _ Hok k r c).
  - intros k' x c' [[-> ->]|[_ Hx]]%request_cases; [intros [= <-]|]; intros; by apply past_snoc; eapply (own_resolved _ _ Hok).
  - exact (emitted_snoc _ _ _ Hok).
Qed.

Lemma emission_ok_step past w w' i : wire_ok past w -> act w (Emit i) = Some w' -> wire_ok (past ++ [Emit i]) w'.
Proof.
  intros Hok. cbn [act]. destruct (dget i (in_transport w)) as [k|] eqn:Ei; [|done]. cbn [mbind option_bind].
  destruct (dget k (requests w)) as [r|] eqn:Ek; [|done]. cbn [mbind option_bind]. intros [= <-].
  destruct (transport_known _ _ Hok i k Ei) as (r' & Hr' & Hs & Hc). rewrite Ek in Hr'. injection Hr' as <-.
  destruct (sent_as_reserved _ _ Hok k r i Ek Hs Hc) as (_ & Hid & Hlt & Ho).
  destruct (own r) as [c|] eqn:Eo; [|done]. pose proof (own_resolved _ _ Hok _ _ _ Ek Eo) as Hres.
  assert (Htok : header default_credential w i = if negb (over r) then own_header c else default_credential).
  { unfold header. destruct (over r) eqn:Ev; cbn [negb].
    - destruct (dget i (request_credentials w)) as [c'|] eqn:Ec; [|done]. exfalso.
      destruct (credential_owned _ _ Hok _ _ Ec) as (k' & x & Hx & He & _).
      assert (Hcx : current w x).
      { destruct (decide (current w x)) as [|Hn]; [done|]. destruct (stale_alone _ _ Hok k' x Hx Hn) as [Ht _]. by rewrite Ht in Ei. }
      destruct (sdk_id x) as [j|] eqn:Ej; [|pose proof (unsent_next _ _ Hok k' x Hx Hcx Ej); lia].
      destruct (sent_as_reserved _ _ Hok k' x j (proj1 Hx) Ej Hcx) as (Hj & Hrj & _).
      assert (k' = k) as -> by congruence. destruct Hx as [Hx Hox]. rewrite Ek in Hx. injection Hx as <-. congruence.
    - pose proof (credential_kept _ _ Hok k r c (conj Ek Ev) Hc Eo) as Hk. rewrite Hid in Hk. by rewrite Hk. }
  destruct Hok as [H0 H1 H2 H3 H4 H5 H6 H7 H8 H9 H10]. split; try assumption.
  - intros k' x c' Hx Hcx. by apply past_snoc, (H9 k' x).
  - cbn [emitted]. intros e [He| ->%list_elem_of_singleton]%elem_of_app.
    + destruct (H10 e He) as (c' & ? & ?). exists c'. auto.
    + exists c. cbn. rewrite Htok. auto.
Qed.

Lemma end_ok past w w' k : wire_ok past w -> act w (End k) = Some w' -> wire_ok (past ++ [End k]) w'.
Proof.
  intros Hok. cbn [act]. destruct (dget k (requests w)) as [r|] eqn:Ek; [|done]. cbn [mbind option_bind].
  destruct (over r) eqn:Ev; [done|]. intros [= <-].
  set (r0 := {| reserved_id := reserved_id r; on_session := on_session r; own := own r; sdk_id := sdk_id r; over := true |}).
  set (w' := {| session_number := session_number w |}). assert (Hw : requests w' = dset k r0 (requests w)) by done.
  assert (Hsn : session_number w' = session_number w) by done.
  assert (Hr : live w k r) by done.
  assert (Hold : forall k' x, live w' k' x -> k' <> k /\ live w k' x).
  { intros k' x [(_ & _ & ?)|?]%(live_cases w _ _ _ _ _ Hw); done. }
  assert (Hkeep : forall k' x, reserved_id x <> reserved_id r -> live w k' x -> live w' k' x).
  { intros k' x Hne Hx. apply (live_else w _ k r0); [done| |done]. intros ->. destruct Hx as [Hx _]. rewrite Ek in Hx. by injection Hx as <-. }
  split; cbn [trace_contexts request_credentials in_transport emitted].
  - intros k' x [[-> ->]|[_ Hx]]%request_cases; [by apply (sessions_past _ _ Hok k r)|by apply (sessions_past _ _ Hok k')].
  - intros i [Hi Hne]%elem_of_filterb. destruct (reserved_live _ _ Hok i Hi) as (k' & x & Hx & He). exists k', x. split; [|done].
    apply Hkeep; [|done]. intros E. rewrite <-E, He, Nat.eqb_refl in Hne. done.
  - intros i k' (x & Hx & ? & Hc)%(transport_known _ _ Hok). cbn. destruct (decide (k' = k)) as [->|Hne].
    + rewrite Ek in Hx. injection Hx as <-. exists r0. by rewrite dget_dset_eq.
    + exists x. by rewrite dget_dset_ne.
  - intros k' x i [[-> ->]|[_ Hx]]%request_cases; [by apply (sent_as_reserved _ _ Hok k r)|by apply (sent_as_reserved _ _ Hok k')].
  - intros k' x [_ Hx]%Hold. by apply (unsent_next _ _ Hok k').
  - intros k1 x1 k2 x2 [_ H1]%Hold [_ H2]%Hold. by apply (one_unsent _ _ Hok k1 x1 k2 x2).
  - intros k' x [_ Hx]%Hold Hc. destruct (stale_alone _ _ Hok k' x Hx Hc) as [? Ha]. split; [done|].
    intros k2 x2 [_ H2]%Hold. by apply (Ha k2).
  - intros i c'. change (request_credentials w') with (dpop (reserved_id r) (request_credentials w)).
    destruct (decide (i = reserved_id r)) as [->|Hi]; [by rewrite dget_dpop_eq|]. rewrite dget_dpop_ne by done.
    intros (k' & x & Hx & He & ?)%(credential_owned _ _ Hok). exists k', x. split; [|done]. apply Hkeep; [congruence|done].
  - intros k' x c' [Hne Hx]%Hold Hc Ho. change (request_credentials w') with (dpop (reserved_id r) (request_credentials w)). rewrite dget_dpop_ne; [by apply (credential_kept _ _ Hok k')|]. intros He. apply Hne.
    destruct (decide (current w r)) as [Hcr|Hcr]; [by apply (ids_distinct past w k' x k r)|].
    destruct (stale_alone _ _ Hok k r Hr Hcr) as [_ Ha]. by destruct (Ha k' x Hx).
  - intros k' x c' [[-> ->]|[_ Hx]]%request_cases Hc; by apply past_snoc; eapply (own_resolved _ _ Hok).
  - exact (emitted_snoc _ _ _ Hok).
Qed.

Lemma reconnect_ok past w w' n : wire_ok past w -> act w (Reconnect n) = Some w' -> wire_ok (past ++ [Reconnect n]) w'.
Proof.
  intros Hok. cbn [act]. intros [= <-]. set (w' := {| session_number := S (session_number w) |}).
  assert (Hstale : forall k x, dget k (requests w) = Some x -> ~ current w' x).
  { intros k x Hx. pose proof (sessions_past _ _ Hok k x Hx). unfold current. cbn. lia. }
  split; cbn [trace_contexts request_credentials in_transport emitted requests session_number]; try done.
  - intros k x Hx. pose proof (sessions_past _ _ Hok k x Hx). change (session_number w') with (S (session_number w)). lia.
  - by intros i ?%elem_of_nil.
  - intros k x i Hx _ Hc. by destruct (Hstale k x Hx).
  - intros k x [Hx _] Hc. by destruct (Hstale k x Hx).
  - intros k x k' x' [Hx _] _ Hc. by destruct (Hstale k x Hx).
  - intros k x _ _. split; [done|]. intros k' x' [Hx _]. by apply (Hstale k').
  - intros k x c [Hx _] Hc. by destruct (Hstale k x Hx).
  - intros k x c Hx Hc. by apply past_snoc, (own_resolved _ _ Hok k x).
  - exact (emitted_snoc _ _ _ Hok).
Qed.

Lemma act_ok past w a w' :
  match a with Reserve _ => quiet w = true | _ => True end -> wire_ok past w -> act w a = Some w' -> wire_ok (past ++ [a]) w'.
Proof.
  intros Hq Hok Ha. destruct a; [by eapply reserve_ok|by eapply resolve_ok|by eapply send_ok|by eapply emission_ok_step|by eapply end_ok|by eapply reconnect_ok].
Qed.

Lemma acts_ok past w l w' : wire_ok past w -> one_at_a_time w l -> acts w l = Some w' -> wire_ok (past ++ l) w'.
Proof.
  revert past w. induction l as [|a l IH]; intros past w Hv; cbn [one_at_a_time acts].
  - intros _ [= ->]. by rewrite app_nil_r.
  - intros [Hq Hs]. destruct (act w a) as [v|] eqn:Ea; [|done]. cbn. intros Hw.
    rewrite (app_assoc past [a] l : past ++ a :: l = _)%list. apply (IH _ v); [by eapply act_ok | done..].
Qed.

Lemma new_wire_ok first : wire_ok [] (new_wire first).
Proof. split; cbn; try done; unfold live; cbn; try (intros; naive_solver); intros ? * H; by apply not_elem_of_nil in H. Qed.


End wire.
(** ** Examples *)

Definition tokens (w : option wire) : option (list (nat * option string)) := (fun w => (fun e => (of_caller e, token e)) <$> emitted w) <$> w.

(** Two calls that overlap: the second is sent first, is given the id the
    first reserved, and goes out with the first caller's token. *)
Example overlapping_calls_swap_credentials :
  tokens (acts (Some "connection") (new_wire 1)
    [Reserve 1; Reserve 2; Resolve 2 (Some "token of 2"); Send 2;
     Resolve 1 (Some "token of 1"); Emit 1]) =
  Some [(2, Some "token of 1")].
Proof. vm_compute. reflexivity. Qed.

(** A call that times out after its message was handed over: the request is made
    anyway, with the token of the connection instead of the caller's. *)
Example abandoned_request_uses_connection :
  tokens (acts (Some "connection") (new_wire 1) [Reserve 1; Resolve 1 (Some "token of 1"); Send 1; End 1; Emit 1]) =
  Some [(1, Some "connection")].
Proof. vm_compute. reflexivity. Qed.

(** A call that waits for its credential while the connection is lost and regained
    resolves it under an id that a call of the new session has reserved, and that
    call's request carries it. *)
Example reconnection_mixes_credentials :
  tokens (acts (Some "connection") (new_wire 1)
    [Reserve 1; Reconnect 1; Reserve 2; Resolve 2 (Some "token of 2"); Send 2; Resolve 1 (Some "token of 1"); Emit 1]) =
  Some [(2, Some "token of 1")].
Proof. vm_compute. reflexivity. Qed.

Lemma reconnects_bounded_witness :
  exists n, n <= 3 /\ waits (run 3 1 (step 3 1 started Up)
              [Down; Elapsed; Down; Elapsed; Down; Elapsed; Down; Elapsed]) = doubling 1 0 n.
Proof.
  destruct (reconnects_bounded 3 1 (step 3 1 started Up)
              [Down; Elapsed; Down; Elapsed; Down; Elapsed; Down; Elapsed]) as (n & Hn & Hle).
  - rewrite !not_elem_of_cons. split_and!; try discriminate. apply not_elem_of_nil.
  - exists n. split; [exact Hle | exact Hn].
Defined.

Lemma lost_connection_given_up_witness :
  sdk_state (run 3 1 (step 3 1 started Up)
    (Down :: concat (replicate 3 [Elapsed; Down]))) = ERROR.
Proof.
  apply (lost_connection_given_up 3 1 (step 3 1 started Up)); try reflexivity. lia.
Defined.

Definition demo_schedule : list action :=
  [Reserve 1; Resolve 1 (Some "a"); Send 1; Reserve 2; Resolve 2 (Some "b"); Send 2; Emit 2; Emit 1; End 1; End 2;
   Reconnect 1; Reserve 3; Resolve 3 (Some "c"); Send 3; End 3; Emit 1].


End McpSdk.
