(* ===== verification/Redis.v ===== *)
(** * What the stores need of Redis

    The Redis-backed stores of [micro_agent] and [cloud] share one server.  Redis
    is not part of the program: the class [Redis] states what the stores rely on
    - what a key holds and until when, what each command does to it, that keys
    with a time to live are removed in time and not before, and that [EXEC]
    succeeds only when the watched key was left alone.  Theorems on the stores are
    proved for every such server; [Table] is one, for evaluation.

    A method of a store is a [prog]: the commands it sends, one after the other,
    each depending on the replies to those before.  [run_prog] runs it without
    anything in between; in [schedule] the commands of many clients interleave. *)

From S2P Require Import Prelude Json Urls.
Import Urls.
Local Open Scope string_scope.

Module Redis.

(** ** Data and commands *)

Inductive value : Type :=
  | VString (s : string)
  | VHash (fields : list (string * string))
  | VZset (members : list (string * Q)).

(** A key's value and the time at which it expires. *)
Definition slot : Type := value * option Q.

Inductive command : Type :=
  | SET (key v : string) (ex : option Z)
  | DEL (key : string)
  | EXPIRE (key : string) (seconds : Z)
  | HSET (key : string) (fields : list (string * string))
  | HDEL (key field : string)
  | ZADD (key member : string) (score : Q)
  | ZREM (key member : string)
  | ZREMRANGEBYSCORE (key : string) (up_to : Q).

Definition key_of (c : command) : string :=
  match c with
  | SET k _ _ | DEL k | EXPIRE k _ | HSET k _ | HDEL k _ | ZADD k _ _ | ZREM k _ | ZREMRANGEBYSCORE k _ => k
  end.

(** A sorted set is kept by score and then by member. *)
Definition member_leb (a b : string * Q) : bool :=
  if (a.2 <? b.2)%clock then true else if (b.2 <? a.2)%clock then false else str_leb a.1 b.1.

Definition zset_add (m : string) (q : Q) (l : list (string * Q)) : list (string * Q) :=
  sinsert member_leb (m, q) (dpop m l).

(** A collection with nothing in it is no key. *)
Definition some_members (l : list (string * Q)) (d : option Q) : option slot :=
  match l with [] => None | _ => Some (VZset l, d) end.
Definition some_fields (l : list (string * string)) (d : option Q) : option slot :=
  match l with [] => None | _ => Some (VHash l, d) end.

(** What the command makes of its key at time [t]. *)
Definition effect (t : Q) (c : command) (o : option slot) : option slot :=
  match c, o with
  | SET _ v ex, _ => Some (VString v, (fun n => t + inject_Z n)%Q <$> ex)
  | DEL _, _ => None
  | EXPIRE _ n, Some (v, _) => if (0 <? n)%Z then Some (v, Some (t + inject_Z n)%Q) else None
  | EXPIRE _ _, None => None
  | HSET _ fs, Some (VHash l, d) => Some (VHash (foldl (fun l f => dset f.1 f.2 l) l fs), d)
  | HSET _ fs, None => some_fields (foldl (fun l f => dset f.1 f.2 l) [] fs) None
  | HDEL _ f, Some (VHash l, d) => some_fields (dpop f l) d
  | ZADD _ m q, Some (VZset l, d) => Some (VZset (zset_add m q l), d)
  | ZADD _ m q, None => Some (VZset [(m, q)], None)
  | ZREM _ m, Some (VZset l, d) => some_members (dpop m l) d
  | ZREMRANGEBYSCORE _ q, Some (VZset l, d) => some_members (filterb (fun e => (q <? e.2)%clock) l) d
  | _, o => o
  end.

(** The command fits what the key holds; otherwise Redis answers WRONGTYPE. *)
Definition fits (c : command) (o : option slot) : bool :=
  match c, o with
  | SET _ _ (Some n), _ => (0 <? n)%Z
  | (SET _ _ None | DEL _ | EXPIRE _ _), _ => true
  | (HSET _ _ | HDEL _ _), (None | Some (VHash _, _)) => true
  | (ZADD _ _ _ | ZREM _ _ | ZREMRANGEBYSCORE _ _), (None | Some (VZset _, _)) => true
  | _, _ => false
  end.

(** ** The server *)

Class Redis (S : Type) : Type := {
  time : S -> Q;
  find : S -> string -> option slot;
  run : command -> S -> S;
  pass : Q -> S -> S;                          (** time passes *)
  watch : nat -> string -> S -> S;             (** [WATCH] on a connection *)
  watched : S -> nat -> option string;         (** its watched key, while untouched *)
  exec : nat -> list command -> S -> option S; (** [MULTI .. EXEC] *)
  time_run : forall c s, time (run c s) = time s;
  find_run : forall c s k, fits c (find s (key_of c)) = true ->
    find (run c s) k = if decide (k = key_of c) then effect (time s) c (find s k) else find s k;
  time_pass : forall d s, time (pass d s) = (time s + d)%Q;
  (** A key is there until it expires and not long after. *)
  find_live : forall s k v t, find s k = Some (v, Some t) -> (time s <= t)%Q;
  find_pass : forall d s k, (0 <= d)%Q ->
    find (pass d s) k = find s k \/
    find (pass d s) k = None /\ exists v t, find s k = Some (v, Some t) /\ (t <= time s + d)%Q;
  (** Watching changes nothing else. *)
  find_watch : forall i k s k', find (watch i k s) k' = find s k';
  time_watch : forall i k s, time (watch i k s) = time s;
  watched_watch : forall i k s j, watched (watch i k s) j = if decide (j = i) then Some k else watched s j;
  (** As long as the key counts as untouched it holds what it held. *)
  watched_run : forall c s j k, watched (run c s) j = Some k ->
    watched s j = Some k /\ find (run c s) k = find s k;
  watched_other : forall c s j k, watched s j = Some k -> key_of c <> k \/ c = DEL k /\ find s k = None ->
    watched (run c s) j = Some k;
  watched_pass : forall d s j k, watched (pass d s) j = Some k -> watched s j = Some k;
  watched_kept : forall d s j k, watched s j = Some k -> find (pass d s) k = find s k ->
    watched (pass d s) j = Some k;
  exec_watched : forall i cs s, is_Some (watched s i) ->
    exists s', exec i cs s = Some s' /\ time s' = time s /\
      (forall k, find s' k = find (foldl (fun s c => run c s) s cs) k) /\
      (forall j k, watched s' j = Some k -> watched (foldl (fun s c => run c s) s cs) j = Some k);
  exec_touched : forall i cs s, watched s i = None -> exec i cs s = None
}.

Section commands.
Context {S : Type} `{Redis S}.
Implicit Types (s : S) (k : string).

(** A transaction, or a script: its commands without anything in between. *)
Definition run_all (cs : list command) (s : S) : S := foldl (fun s c => run c s) s cs.

Definition get s k : option string := match find s k with Some (VString v, _) => Some v | _ => None end.

(** [SET key v NX EX n] *)
Definition set_nx k v (n : Z) s : bool * S :=
  match find s k with Some _ => (false, s) | None => (true, run (SET k v (Some n)) s) end.

(** [ZRANGE key 0 -1] with the scores. *)
Definition zrange s k : list (string * Q) := match find s k with Some (VZset l, _) => l | _ => [] end.

Definition hget s k (f : string) : option string :=
  match find s k with Some (VHash l, _) => dget f l | _ => None end.

Lemma find_run_other c s k : fits c (find s (key_of c)) = true -> k <> key_of c -> find (run c s) k = find s k.
Proof. intros Hf Hne. rewrite find_run by done. by rewrite decide_False. Qed.

Lemma find_run_self c s : fits c (find s (key_of c)) = true -> find (run c s) (key_of c) = effect (time s) c (find s (key_of c)).
Proof. intros Hf. rewrite find_run by done. by rewrite decide_True. Qed.

Lemma time_run_all cs s : time (run_all cs s) = time s.
Proof.
  revert s. induction cs as [|c cs IH]; intros s; [done|]. change (run_all (c :: cs) s) with (run_all cs (run c s)).
  by rewrite IH, time_run.
Qed.

(** Commands on other keys, each of which fits, leave a key alone. *)
Fixpoint all_fit (cs : list command) (s : S) : Prop :=
  match cs with [] => True | c :: cs => fits c (find s (key_of c)) = true /\ all_fit cs (run c s) end.

Lemma run_all_other cs s k :
  all_fit cs s -> Forall (fun c => key_of c <> k) cs -> find (run_all cs s) k = find s k.
Proof.
  revert s. induction cs as [|c cs IH]; intros s Hf Hc; [done|]. apply Forall_cons in Hc as [Hk Hc]. destruct Hf as [Hf Hfs].
  change (run_all (c :: cs) s) with (run_all cs (run c s)). rewrite IH by done. by rewrite find_run_other by congruence.
Qed.

Lemma watched_run_all cs s j k :
  watched (run_all cs s) j = Some k -> watched s j = Some k /\ find (run_all cs s) k = find s k.
Proof.
  revert s. induction cs as [|c cs IH]; intros s; [done|]. change (run_all (c :: cs) s) with (run_all cs (run c s)).
  intros [Hw Hf]%IH. apply watched_run in Hw as [Hw Hf']. split; [done|]. congruence.
Qed.
End commands.

(** ** Programs *)

Inductive prog (A : Type) : Type :=
  | Ret (a : A)
  | Get (key : string) (f : option string -> prog A)
  | MGet (keys : list string) (f : list (option string) -> prog A)
  | SetNx (key v : string) (ex : Z) (f : bool -> prog A)
  | Members (key : string) (f : list (string * Q) -> prog A)     (** [ZRANGE key 0 -1] *)
  | PopMin (key : string) (f : option string -> prog A)          (** [ZPOPMIN key 1] *)
  | Do (cs : list command) (p : prog A)                          (** a command, or a transaction *)
  | Watch (key : string) (p : prog A)
  | Exec (cs : list command) (f : bool -> prog A)                (** [false] is [WatchError] *)
  | Clock (f : Q -> prog A).                                     (** the client's clock *)

Arguments Ret {A} _.
Arguments Get {A} _ _.
Arguments MGet {A} _ _.
Arguments SetNx {A} _ _ _ _.
Arguments Members {A} _ _.
Arguments PopMin {A} _ _.
Arguments Do {A} _ _.
Arguments Watch {A} _ _.
Arguments Exec {A} _ _.
Arguments Clock {A} _.

Fixpoint prog_bind {A B : Type} (p : prog A) (k : A -> prog B) : prog B :=
  match p with
  | Ret a => k a
  | Get key f => Get key (fun o => prog_bind (f o) k)
  | MGet keys f => MGet keys (fun l => prog_bind (f l) k)
  | SetNx key v n f => SetNx key v n (fun b => prog_bind (f b) k)
  | Members key f => Members key (fun l => prog_bind (f l) k)
  | PopMin key f => PopMin key (fun o => prog_bind (f o) k)
  | Do cs p => Do cs (prog_bind p k)
  | Watch key p => Watch key (prog_bind p k)
  | Exec cs f => Exec cs (fun b => prog_bind (f b) k)
  | Clock f => Clock (fun t => prog_bind (f t) k)
  end.

#[export] Instance prog_mret : MRet prog := fun _ a => Ret a.
#[export] Instance prog_mbind : MBind prog := fun _ _ k p => prog_bind p k.

Section programs.
Context {S : Type} `{Redis S} {A : Type}.
Implicit Types (p : prog A) (s : S).

(** The next command of the client on connection [i]. *)
Definition step (i : nat) (p : prog A) (s : S) : prog A * S :=
  match p with
  | Ret a => (Ret a, s)
  | Get k f => (f (get s k), s)
  | MGet ks f => (f (get s <$> ks), s)
  | SetNx k v n f => let '(b, s) := set_nx k v n s in (f b, s)
  | Members k f => (f (zrange s k), s)
  | PopMin k f =>
      match zrange s k with
      | [] => (f None, s)
      | m :: _ => (f (Some m.1), run (ZREM k m.1) s)
      end
  | Do cs p => (p, run_all cs s)
  | Watch k p => (p, watch i k s)
  | Exec cs f => match exec i cs s with Some s' => (f true, s') | None => (f false, s) end
  | Clock f => (f (time s), s)
  end.

Fixpoint run_prog (i : nat) (p : prog A) (s : S) : A * S :=
  match p with
  | Ret a => (a, s)
  | Get k f => run_prog i (f (get s k)) s
  | MGet ks f => run_prog i (f (get s <$> ks)) s
  | SetNx k v n f => let '(b, s) := set_nx k v n s in run_prog i (f b) s
  | Members k f => run_prog i (f (zrange s k)) s
  | PopMin k f =>
      match zrange s k with
      | [] => run_prog i (f None) s
      | m :: _ => run_prog i (f (Some m.1)) (run (ZREM k m.1) s)
      end
  | Do cs p => run_prog i p (run_all cs s)
  | Watch k p => run_prog i p (watch i k s)
  | Exec cs f => match exec i cs s with Some s' => run_prog i (f true) s' | None => run_prog i (f false) s end
  | Clock f => run_prog i (f (time s)) s
  end.

(** Clients side by side: client [i] sends its next command, or time passes. *)
Inductive event : Type := Client (i : nat) | Wait (d : Q).

Definition schedule_step (e : event) (w : list (prog A) * S) : list (prog A) * S :=
  match e with
  | Client i =>
      match w.1 !! i with
      | Some p => let '(p, s) := step i p w.2 in (<[i := p]> w.1, s)
      | None => w
      end
  | Wait d => if (0 <=? d)%clock then (w.1, pass d w.2) else w
  end.

Fixpoint schedule (es : list event) (w : list (prog A) * S) : list (prog A) * S :=
  match es with [] => w | e :: es => schedule es (schedule_step e w) end.
End programs.

Lemma run_prog_bind {S : Type} `{Redis S} {A B : Type} i (p : prog A) (f : A -> prog B) (s : S) :
  run_prog i (p ≫= f) s = run_prog i (f (run_prog i p s).1) (run_prog i p s).2.
Proof.
  unfold mbind, prog_mbind. revert s. induction p as [a|k g IH|ks g IH|k v n g IH|k g IH|k g IH|cs p IH|k p IH|cs g IH|g IH];
    intros s; cbn; auto.
  - destruct (set_nx k v n s). apply IH.
  - destruct (zrange s k); apply IH.
  - destruct (exec i cs s); apply IH.
Qed.

(** No time passes while one program runs. *)
Lemma time_run_prog {S : Type} `{Redis S} {A : Type} i (p : prog A) (s : S) : time (run_prog i p s).2 = time s.
Proof.
  revert s. induction p as [a|k g IH|ks g IH|k v n g IH|k g IH|k g IH|cs p IH|k p IH|cs g IH|g IH]; intros s; cbn; auto.
  - unfold set_nx. destruct (find s k); [apply IH|]. rewrite IH. apply time_run.
  - destruct (zrange s k); rewrite IH; [done|]. apply time_run.
  - rewrite IH. apply time_run_all.
  - rewrite IH. apply time_watch.
  - destruct (watched s i) as [k|] eqn:Hw; [|by rewrite exec_touched by done].
    destruct (exec_watched i cs s) as (s' & -> & Ht & _); [by rewrite Hw|]. by rewrite IH.
Qed.

(** ** What every store on Redis begins with *)

(** [_validate_endpoint] of [session/redis.py] *)
Definition validate_endpoint (urlsplit : string -> option url) (endpoint : string) : bool :=
  match urlsplit endpoint with
  | Some u => memb (scheme u) ["redis"; "rediss"] && str_truthy (netloc u)
  | None => false
  end.

(** [not namespace or namespace.strip() != namespace] *)
Definition namespace_ok (namespace : string) : bool := str_truthy namespace && String.eqb (py_strip namespace) namespace.

(** ** What payloads are read with *)

(** [json.dumps(default=str)] and [json.loads], the constructors of the language
    on a JSON value, [datetime.isoformat] and [fromisoformat]; [None] is the
    exception. *)
Class Payloads : Type := {
  dumps : json -> string;
  loads : string -> option json;
  str_of : json -> string;
  int_of : json -> option Z;
  float_of : json -> option Q;
  list_of : json -> option (list json);
  dict_of_value : json -> option (list (string * json));
  iso : Q -> string;
  from_iso : string -> option Q;
  loads_dumps : forall j, loads (dumps j) = Some j;
  int_of_int : forall z, int_of (JInt z) = Some z;
  float_of_float : forall q, float_of (JFloat q) = Some q;
  list_of_list : forall l, list_of (JList l) = Some l;
  dict_of_obj : forall d, dict_of_value (JObj d) = Some d;
  from_iso_iso : forall t, from_iso (iso t) = Some t;
  iso_text : forall t, str_truthy (iso t) = true
}.

Section payloads.
Context `{Payloads}.

Definition text_of (j : json) : string := py_text str_of j.
Definition optional_text (o : option string) : json := from_option JStr JNull o.

(** [str(x) if x is not None else None] of a key that may be missing. *)
Definition text_or_none (o : option json) : option string :=
  match o with None | Some JNull => None | Some j => Some (text_of j) end.

(** [list(x or [])] and [dict(x or {})] *)
Definition list_or_empty (o : option json) : option (list json) :=
  match o with Some j => if py_truthy j then list_of j else Some [] | None => Some [] end.
Definition dict_or_empty (o : option json) : option (list (string * json)) :=
  match o with Some j => if py_truthy j then dict_of_value j else Some [] | None => Some [] end.
(** [int(x or 1)] *)
Definition int_or_one (o : option json) : option Z :=
  match o with Some j => if py_truthy j then int_of j else Some 1%Z | None => Some 1%Z end.

Lemma list_or_empty_list l : list_or_empty (Some (JList l)) = Some l.
Proof. cbn. destruct l as [|x l]; [done|]. apply list_of_list. Qed.

Lemma dict_or_empty_obj d : dict_or_empty (Some (JObj d)) = Some d.
Proof. cbn. destruct d as [|x d]; [done|]. apply dict_of_obj. Qed.

Lemma text_or_none_optional o : text_or_none (Some (optional_text o)) = o.
Proof. by destruct o. Qed.
End payloads.

(** Reading the fields of a written payload. *)
Lemma dget_field {V : Type} (k k' : string) (v : V) d : dget k ((k', v) :: d) = if String.eqb k k' then Some v else dget k d.
Proof. cbn. destruct (String.eqb_spec k k') as [->|Hne]; [by rewrite decide_True | by rewrite decide_False by congruence]. Qed.

Ltac fields := rewrite !dget_field; cbn [String.eqb Ascii.eqb Bool.eqb].

Definition plain_int (j : json) : option Z := match j with JInt z => Some z | _ => None end.
Definition plain_float (j : json) : option Q := match j with JFloat q => Some q | JInt z => Some (inject_Z z) | _ => None end.
Definition plain_list (j : json) : option (list json) := match j with JList l => Some l | _ => None end.
Definition plain_dict (j : json) : option (list (string * json)) := match j with JObj d => Some d | _ => None end.

Definition plain_iso (t : Q) : string := ("T" ++ json_text (JFloat t)).
Definition plain_from_iso (s : string) : option Q :=
  match s with
  | String _ s => json_of_text s ≫= fun j => match j with JFloat q => Some q | _ => None end
  | EmptyString => None
  end.

Lemma plain_from_iso_iso t : plain_from_iso (plain_iso t) = Some t.
Proof. unfold plain_from_iso, plain_iso. rewrite string_app_cons. change (EmptyString ++ ?x)%string with x. by rewrite json_of_text_text. Qed.

#[export] Instance Plain_payloads : Payloads := {|
  dumps := json_text; loads := json_of_text; str_of := json_text;
  int_of := plain_int; float_of := plain_float; list_of := plain_list; dict_of_value := plain_dict;
  iso := plain_iso; from_iso := plain_from_iso;
  loads_dumps := json_of_text_text; int_of_int z := eq_refl; float_of_float q := eq_refl;
  list_of_list l := eq_refl; dict_of_obj d := eq_refl; from_iso_iso := plain_from_iso_iso; iso_text t := eq_refl
|}.

Lemma prefix_app_self a b : String.prefix a (a ++ b) = true.
Proof.
  induction a as [|c a IH]; [by destruct b|]. rewrite string_app_cons. cbn. destruct (Ascii.ascii_dec c c) as [_|n]; [done|by destruct n].
Qed.

(** ** Sorted sets *)

Lemma elem_zset_add m q l e : e ∈ zset_add m q l <-> e = (m, q) \/ e.1 <> m /\ e ∈ l.
Proof.
  unfold zset_add, dpop. rewrite sinsert_perm, elem_of_cons, elem_of_filterb. unfold key_ne. split.
  - intros [->|[Hin Hne]]; [by left|]. right. by destruct (decide (e.1 = m)).
  - intros [->|[Hne Hin]]; [by left|]. right. split; [done|]. by rewrite decide_False.
Qed.

Lemma NoDup_zset_add m q l : NoDup (dkeys l) -> NoDup (dkeys (zset_add m q l)).
Proof.
  intros Hl. unfold dkeys, zset_add. rewrite sinsert_perm. cbn. apply NoDup_cons. split; [|by apply NoDup_dpop].
  intros (e & He & Hin)%list_elem_of_fmap. unfold dpop in Hin. rewrite elem_of_filterb in Hin. destruct Hin as [_ Hne].
  unfold key_ne in Hne. by rewrite decide_True in Hne.
Qed.

(** ** A server *)

Record Table : Type := { now : Q; slots : list (string * slot); watches : nat -> option string }.

Definition live (t : Q) (o : option slot) : option slot :=
  match o with Some (_, Some d) => if (t <=? d)%clock then o else None | _ => o end.

Definition table_find (s : Table) (k : string) : option slot := live (now s) (dget k (slots s)).
Definition put (k : string) (o : option slot) (l : list (string * slot)) : list (string * slot) :=
  match o with Some x => dset k x l | None => dpop k l end.
Definition unwatched (f : string -> bool) (w : nat -> option string) : nat -> option string :=
  fun j => match w j with Some k => if f k then None else Some k | None => None end.
(** The command modifies key [k]: deleting what is not there does not. *)
Definition modifies (c : command) (o : option slot) (k : string) : bool :=
  String.eqb (key_of c) k && match c, o with DEL _, None => false | _, _ => true end.
Definition table_run (c : command) (s : Table) : Table :=
  {| now := now s; slots := put (key_of c) (effect (now s) c (table_find s (key_of c))) (slots s);
     watches := unwatched (modifies c (table_find s (key_of c))) (watches s) |}.
(** It expires between [t] and [t']. *)
Definition lapses (t t' : Q) (o : option slot) : bool :=
  match o with Some (_, Some d) => (t <=? d)%clock && negb (t' <=? d)%clock | _ => false end.
Definition table_pass (d : Q) (s : Table) : Table :=
  {| now := (now s + d)%Q; slots := slots s;
     watches := unwatched (fun k => lapses (now s) (now s + d) (dget k (slots s))) (watches s) |}.
Definition table_watch (i : nat) (k : string) (s : Table) : Table :=
  {| now := now s; slots := slots s; watches := fun j => if decide (j = i) then Some k else watches s j |}.
Definition table_exec (i : nat) (cs : list command) (s : Table) : option Table :=
  match watches s i with None => None | Some _ => Some (foldl (fun s c => table_run c s) s cs) end.
Definition empty_table : Table := {| now := 0; slots := []; watches := fun _ => None |}.

Lemma dget_put k o l k' : dget k' (put k o l) = if decide (k' = k) then o else dget k' l.
Proof.
  unfold put. destruct o as [x|]; [apply dget_dset|].
  case_decide; [subst; apply dget_dpop_eq | by apply dget_dpop_ne].
Qed.

Lemma live_find s k v t : table_find s k = Some (v, Some t) -> (now s <= t)%Q.
Proof.
  unfold table_find, live. destruct (dget k (slots s)) as [[v' [d|]]|]; [|done|done].
  destruct (now s <=? d)%clock eqn:E; [|done]. intros [= _ ->]. by apply qleb_true.
Qed.

Lemma later (t : Q) (n : Z) : (0 <? n)%Z = true -> (t <=? t + inject_Z n)%clock = true.
Proof.
  intros Hn%Z.ltb_lt. apply qleb_true. assert (0 <= inject_Z n)%Q by (change 0%Q with (inject_Z 0); rewrite <-Zle_Qle; lia). lra.
Qed.

(** A command that fits leaves nothing that has expired already. *)
Lemma effect_live s c : fits c (table_find s (key_of c)) = true ->
  live (now s) (effect (now s) c (table_find s (key_of c))) = effect (now s) c (table_find s (key_of c)).
Proof.
  intros Hf. pose proof (live_find s (key_of c)) as Hl. pose proof (later (now s)) as Hn.
  destruct (table_find s (key_of c)) as [[v [d|]]|].
  1: specialize (Hl v d eq_refl); apply qleb_true in Hl.
  all: destruct c as [k x [n|]| | k n | | | | |]; cbn in *; rewrite ?Hn, ?Hl by done; try done.
  all: repeat (case_match; cbn; rewrite ?Hn, ?Hl by done; try done).
  all: unfold some_members, some_fields; repeat (case_match; cbn; rewrite ?Hl by done; try done).
Qed.

Lemma unwatched_some f w j k : unwatched f w j = Some k <-> w j = Some k /\ f k = false.
Proof.
  unfold unwatched. destruct (w j) as [k'|]; [|by split; [|intros [? _]]].
  destruct (f k') eqn:E; split; try done; [intros [[= ->] ?]; congruence | by intros [= ->] | by intros [[= ->] _]].
Qed.

Lemma table_find_run c s k : fits c (table_find s (key_of c)) = true ->
  table_find (table_run c s) k = if decide (k = key_of c) then effect (now s) c (table_find s k) else table_find s k.
Proof.
  intros Hf. unfold table_find at 1, table_run. cbn [now slots]. rewrite dget_put.
  case_decide as E; [|done]. rewrite E. by apply effect_live.
Qed.

Lemma table_find_pass d s k : (0 <= d)%Q ->
  table_find (table_pass d s) k = table_find s k \/
  table_find (table_pass d s) k = None /\ exists v t, table_find s k = Some (v, Some t) /\ (t <= now s + d)%Q.
Proof.
  intros Hd. unfold table_find, table_pass, live. cbn.
  destruct (dget k (slots s)) as [[v [t|]]|]; [|by left|by left].
  destruct (now s + d <=? t)%clock eqn:E1, (now s <=? t)%clock eqn:E2; try (by left).
  - exfalso. clock_lra.
  - right. split; [done|]. exists v, t. split; [done|]. clock_lra.
Qed.

Lemma table_pass_kept d s k :
  table_find (table_pass d s) k = table_find s k -> lapses (now s) (now s + d) (dget k (slots s)) = false.
Proof.
  unfold table_find, table_pass, live, lapses. cbn. destruct (dget k (slots s)) as [[v [t|]]|]; [|done|done].
  by destruct (now s + d <=? t)%clock, (now s <=? t)%clock.
Qed.

#[export] Program Instance Table_redis : Redis Table := {|
  time := now; find := table_find; run := table_run; pass := table_pass; watch := table_watch;
  watched := fun s j => watches s j; exec := table_exec
|}.
Next Obligation. done. Qed.
Next Obligation. intros. by apply table_find_run. Qed.
Next Obligation. done. Qed.
Next Obligation. apply live_find. Qed.
Next Obligation. apply table_find_pass. Qed.
Next Obligation. done. Qed.
Next Obligation. done. Qed.
Next Obligation. done. Qed.
Next Obligation.
  intros c s j k. cbn. rewrite unwatched_some. intros [Hw Hne]. split; [done|].
  destruct (decide (k = key_of c)) as [->|Hk]; [|unfold table_find, table_run; cbn; by rewrite dget_put, decide_False].
  unfold modifies in Hne. rewrite String.eqb_refl in Hne. destruct c as [| k| | | | | |]; try done. cbn [key_of] in *.
  destruct (table_find s k) eqn:E; [done|]. rewrite table_find_run by done. cbn. by rewrite decide_True.
Qed.
Next Obligation.
  intros c s j k Hw Hne. cbn. apply unwatched_some. split; [done|]. unfold modifies.
  destruct Hne as [Hne|[-> Hn]]; [by rewrite (proj2 (String.eqb_neq _ _) Hne)|]. cbn [key_of]. rewrite Hn. apply andb_false_r.
Qed.
Next Obligation. intros d s j k. cbn. by rewrite unwatched_some; intros [? _]. Qed.
Next Obligation. intros d s j k Hw Hf. cbn. apply unwatched_some. split; [done|]. by apply table_pass_kept. Qed.
Next Obligation.
  intros i cs s [k Hk]. unfold table_exec. rewrite Hk. eexists. split; [done|]. split; [|done].
  clear. revert s. induction cs as [|c cs IH]; intros s; [done|]. cbn. by rewrite IH.
Qed.
Next Obligation. intros i cs s Hw. unfold table_exec. by rewrite Hw. Qed.

End Redis.
