(* ===== verification/RedisOps.v ===== *)
(** * Operations and approvals in Redis

    [micro_agent/security/redis_operations.py], and [RedisApprovalStore] of
    [micro_agent/security/approvals.py].  The registry meets the interface
    [OperationStore] the runtimes are proved against, and stays safe when many
    workers use it at once. *)

From S2P Require Import Prelude Json Urls SideEffects Tools Approvals Redis.
Import Tools Approvals Urls SideEffects Redis.
Local Open Scope string_scope.

Module RedisOps.

(** ** The operation registry *)

Section registry.
(** The prefix ["{namespace}:operation:"] and [ttl_seconds]. *)
Context `{Payloads} (prefix : string) (ttl : Z).

(** [_key] *)
Definition operation_redis_key (key : string) (tenant : option string) : string :=
  match tenant with
  | None => prefix ++ key
  | Some t => prefix ++ "tenant:" ++ quote "" t ++ ":" ++ key
  end.

(** [_encode] *)
Definition encode (r : OperationResult) : string :=
  dumps (JObj [("operation_id", JStr (result_id r)); ("status", JStr (status r)); ("output", output r);
               ("error", optional_text (error r)); ("was_deduplicated", JBool (was_deduplicated r))]).

(** [_decode]; [None] is [ValueError]. *)
Definition decode (raw : string) : option OperationResult :=
  match loads raw with
  | Some (JObj d) =>
      match dget "operation_id" d, dget "status" d with
      | Some i, Some s =>
          Some {| result_id := text_of i; status := text_of s; output := default JNull (dget "output" d);
                  error := text_or_none (dget "error" d);
                  was_deduplicated := py_truthy (default (JBool false) (dget "was_deduplicated" d)) |}
      | _, _ => None
      end
  | _ => None
  end.

(** [_get_result]: what cannot be read is removed. *)
Definition get_result (k : string) : prog (option OperationResult) :=
  Get k (fun o => match o with
                  | None => Ret None
                  | Some raw => match decode raw with Some r => Ret (Some r) | None => Do [DEL k] (Ret None) end
                  end).

Definition deduplicated (r : OperationResult) : OperationResult :=
  {| result_id := result_id r; status := status r; output := output r; error := error r; was_deduplicated := true |}.

(** [claim] *)
Definition claim (op : Operation) : prog (bool * option OperationResult) :=
  match operation_key operation_redis_key op with
  | None => Ret (true, None)
  | Some k =>
      let reservation := encode (in_progress_result (operation_id op)) in
      SetNx k reservation ttl (fun claimed : bool =>
        if claimed then Ret (true, None)
        else
          prior ← get_result k;
          match prior with
          | Some p => Ret (false, Some (deduplicated p))
          | None =>
              SetNx k reservation ttl (fun claimed : bool =>
                if claimed then Ret (true, None)
                else
                  prior ← get_result k;
                  Ret (false, Some (deduplicated (default (in_progress_result "") prior))))
          end)
  end.

(** [is_duplicate], [find_by_idempotency_key] *)
Definition is_duplicate (op : Operation) : prog bool :=
  match operation_key operation_redis_key op with
  | None => Ret false
  | Some k => r ← get_result k; Ret (bool_decide (is_Some r))
  end.

Definition find_by_idempotency_key (key : string) (tenant : option string) : prog (option OperationResult) :=
  get_result (operation_redis_key key tenant).

(** [record]: only the owner of the reservation stores a result. *)
Definition record (op : Operation) (r : OperationResult) : prog unit :=
  match operation_key operation_redis_key op with
  | None => Ret tt
  | Some k =>
      current ← get_result k;
      match current with
      | Some c => if String.eqb (result_id c) (operation_id op) then Do [SET k (encode r) (Some ttl)] (Ret tt) else Ret tt
      | None => Ret tt
      end
  end.

(** ** It is an operation store *)

Context {S : Type} `{Redis S}.
Implicit Types (s : S).
Hypothesis ttl_positive : (0 < ttl)%Z.

Lemma decode_result r : decode (encode r) = Some r.
Proof. unfold decode, encode. rewrite loads_dumps. cbn. destruct r as [i s o [e|] b]; cbn; by destruct b. Qed.

(** What a key says about its operation. *)
Definition pending (r : OperationResult) : bool :=
  String.eqb (status r) "in_progress" && negb (bool_decide (is_Some (error r))) && match output r with JNull => true | _ => false end.

Definition entry_of (r : OperationResult) : entry := if pending r then InProgress (result_id r) else Completed r.

Definition operation_at (s : S) (k : string) : option entry := 
  match get s k with Some raw => entry_of <$> decode raw | None => None end.

(** The keys of the namespace hold texts. *)
Definition texts_only (s : S) : Prop :=
  forall k v d, String.prefix prefix k = true -> find s k = Some (v, d) -> exists t, v = VString t.

Lemma key_has_prefix op k : operation_key operation_redis_key op = Some k -> String.prefix prefix k = true.
Proof.
  unfold operation_key. destruct (idempotency_key op) as [x|]; [|done]. destruct (str_truthy x); [|done]. intros [= <-].
  unfold operation_redis_key. destruct (tenant_id op); apply prefix_app_self.
Qed.

Lemma run_get_result {A} i k (g : option OperationResult -> prog A) s :
  run_prog i (get_result k ≫= g) s =
  match get s k with
  | None => run_prog i (g None) s
  | Some raw => match decode raw with Some r => run_prog i (g (Some r)) s | None => run_prog i (g None) (run (DEL k) s) end
  end.
Proof. cbn. destruct (get s k) as [raw|]; [|done]. cbn. by destruct (decode raw). Qed.

Lemma set_fits s k v : fits (SET k v (Some ttl)) (find s k) = true.
Proof. cbn. by apply Z.ltb_lt. Qed.

Lemma find_set s k v k' :
  find (run (SET k v (Some ttl)) s) k' = if decide (k' = k) then Some (VString v, Some (time s + inject_Z ttl)%Q) else find s k'.
Proof. rewrite find_run by apply set_fits. cbn. by case_decide. Qed.

Lemma find_del s k k' : find (run (DEL k) s) k' = if decide (k' = k) then None else find s k'.
Proof. rewrite find_run by done. cbn. by case_decide. Qed.

Lemma operation_at_set s k r k' :
  operation_at (run (SET k (encode r) (Some ttl)) s) k' = if decide (k' = k) then Some (entry_of r) else operation_at s k'.
Proof. unfold operation_at, get. rewrite find_set. case_decide; [|done]. cbn. by rewrite decode_result. Qed.

Lemma operation_at_del s k k' :
  operation_at s k = None -> operation_at (run (DEL k) s) k' = operation_at s k'.
Proof. intros Hk. unfold operation_at, get in *. rewrite find_del. case_decide as E; [|done]. by rewrite E, Hk. Qed.

Lemma texts_set s k v : texts_only s -> texts_only (run (SET k v (Some ttl)) s).
Proof. intros Ht k' v' d Hp. rewrite find_set. case_decide; [intros [= <- _]; by eexists | by apply Ht]. Qed.

Lemma texts_del s k : texts_only s -> texts_only (run (DEL k) s).
Proof. intros Ht k' v' d Hp. rewrite find_del. case_decide; [done | by apply Ht]. Qed.

Lemma entry_of_reservation id : entry_of (in_progress_result id) = InProgress id.
Proof. done. Qed.

Definition claim_now (s : S) (op : Operation) : bool * option OperationResult * S := run_prog 0 (claim op) s.
Definition record_now (s : S) (op : Operation) (r : OperationResult) : S := (run_prog 0 (record op r) s).2.

Lemma claim_now_free s op k :
  texts_only s -> operation_key operation_redis_key op = Some k -> operation_at s k = None ->
  exists s', claim_now s op = (true, None, s') /\ texts_only s' /\
    forall k', operation_at s' k' = if decide (k' = k) then Some (InProgress (operation_id op)) else operation_at s k'.
Proof.
  intros Ht Hk Hl. unfold claim_now, claim. rewrite Hk. cbn [run_prog]. unfold set_nx at 1.
  destruct (find s k) as [[v d]|] eqn:Hf.
  - destruct (Ht k v d (key_has_prefix op k Hk) Hf) as [raw ->]. cbn beta iota. rewrite run_get_result.
    assert (Hg : get s k = Some raw) by (unfold get; by rewrite Hf). rewrite Hg.
    assert (Hd : decode raw = None) by (unfold operation_at in Hl; rewrite Hg in Hl; cbn in Hl; by destruct (decode raw)).
    rewrite Hd. cbn [run_prog]. unfold set_nx. rewrite find_del, decide_True by done. cbn [run_prog].
    eexists. split; [done|]. split; [by apply texts_set, texts_del|].
    intros k'. rewrite operation_at_set, entry_of_reservation. case_decide; [done|]. by apply operation_at_del.
  - cbn [run_prog]. eexists. split; [done|]. split; [by apply texts_set|].
    intros k'. rewrite operation_at_set. by rewrite entry_of_reservation.
Qed.

Lemma entry_same_answer r : 
  match entry_of r with
  | Completed r' => same_answer (deduplicated r) r'
  | InProgress id => same_answer (deduplicated r) (in_progress_result id)
  end.
Proof.
  unfold entry_of, pending. destruct (String.eqb_spec (status r) "in_progress") as [Hs|]; [|done].
  destruct (error r) as [e|] eqn:He; [done|]. by destruct (output r) eqn:Ho.
Qed.

Lemma claim_now_taken s op k e :
  operation_key operation_redis_key op = Some k -> operation_at s k = Some e ->
  exists prior, claim_now s op = (false, Some prior, s) /\
    match e with Completed r => same_answer prior r | InProgress id => same_answer prior (in_progress_result id) end.
Proof.
  intros Hk Hl. unfold operation_at in Hl. destruct (get s k) as [raw|] eqn:Hg; [|done]. cbn in Hl.
  destruct (decode raw) as [r|] eqn:Hd; [|done]. injection Hl as <-. exists (deduplicated r). split; [|apply entry_same_answer].
  unfold claim_now, claim. rewrite Hk. cbn [run_prog]. unfold set_nx at 1.
  destruct (find s k) as [x|] eqn:Hf; [|by unfold get in Hg; rewrite Hf in Hg].
  cbn beta iota. by rewrite run_get_result, Hg, Hd.
Qed.

(** What [record] does to the store. *)
Lemma record_now_cases s op r :
  (record_now s op r = s) \/
  (exists k, operation_key operation_redis_key op = Some k /\ operation_at s k = None /\ record_now s op r = run (DEL k) s) \/
  (exists k, operation_key operation_redis_key op = Some k /\ is_Some (operation_at s k) /\
             record_now s op r = run (SET k (encode r) (Some ttl)) s).
Proof.
  unfold record_now, record. destruct (operation_key operation_redis_key op) as [k|]; [|by left].
  rewrite run_get_result. unfold operation_at. destruct (get s k) as [raw|] eqn:Hg; [|by left].
  destruct (decode raw) as [c|] eqn:Hd.
  - destruct (String.eqb (result_id c) (operation_id op)); [|by left]. right. right. exists k. split; [done|]. rewrite Hg. cbn. by rewrite Hd.
  - right. left. exists k. split; [done|]. rewrite Hg. cbn. by rewrite Hd.
Qed.

Lemma record_now_keeps s op r k : is_Some (operation_at s k) -> is_Some (operation_at (record_now s op r) k).
Proof.
  intros Hk. destruct (record_now_cases s op r) as [->|[(k' & _ & Hn & ->)|(k' & _ & _ & ->)]]; [done| |].
  - by rewrite operation_at_del.
  - rewrite operation_at_set. case_decide; [by eexists | done].
Qed.

Lemma record_now_own s op r k :
  operation_key operation_redis_key op = Some k -> operation_at s k = Some (InProgress (operation_id op)) ->
  status r <> "in_progress" -> operation_at (record_now s op r) k = Some (Completed r).
Proof.
  intros Hk Hl Hs. unfold record_now, record. rewrite Hk, run_get_result. unfold operation_at in Hl.
  destruct (get s k) as [raw|]; [|done]. cbn in Hl. destruct (decode raw) as [c|]; [|done]. cbn in Hl.
  unfold entry_of in Hl. destruct (pending c); [|done]. injection Hl as ->. rewrite String.eqb_refl. cbn [run_prog snd].
  change (run_all [?c] s) with (run c s). rewrite operation_at_set, decide_True by done. unfold entry_of, pending.
  by destruct (String.eqb_spec (status r) "in_progress").
Qed.

#[export] Program Instance RedisOperationRegistry_store : OperationStore S := {|
  op_key := operation_redis_key;
  usable := texts_only;
  lookup_op := operation_at;
  SideEffects.claim := claim_now;
  SideEffects.record := record_now
|}.
Next Obligation. intros s op Hk. unfold claim_now, claim. by rewrite Hk. Qed.
Next Obligation. apply claim_now_free. Qed.
Next Obligation. intros s op k e _. apply claim_now_taken. Qed.
Next Obligation.
  intros s op r Ht. destruct (record_now_cases s op r) as [->|[(k & _ & _ & ->)|(k & _ & _ & ->)]]; [done|by apply texts_del|by apply texts_set].
Qed.
Next Obligation. intros s op r k _. apply record_now_keeps. Qed.
Next Obligation.
  intros s op r k k' _ Hk Hne. destruct (record_now_cases s op r) as [->|[(k1 & Hk1 & Hn & ->)|(k1 & Hk1 & _ & ->)]]; [done| |].
  - by apply operation_at_del.
  - rewrite operation_at_set. rewrite decide_False; [done|]. congruence.
Qed.
Next Obligation. intros s op r k _. apply record_now_own. Qed.

End registry.

(** ** Many workers at once *)

Section workers.
Context `{Payloads} (prefix : string) (ttl : Z) {S : Type} `{Redis S}.
Hypothesis ttl_positive : (0 < ttl)%Z.
Implicit Types (s : S) (k : string).

#[local] Notation operation_redis_key := (operation_redis_key prefix).

(** What a worker asks of the registry, and what it is told. *)
Inductive job : Type := Claim (op : Operation) | Record (op : Operation) (r : OperationResult) | IsDuplicate (op : Operation).
Inductive told : Type := Claimed (granted : bool) (prior : option OperationResult) | Recorded | Duplicate (b : bool).

Definition work (j : job) : prog told :=
  match j with
  | Claim op => a ← claim prefix ttl op; Ret (Claimed a.1 a.2)
  | Record op r => _ ← record prefix ttl op r; Ret Recorded
  | IsDuplicate op => b ← is_duplicate prefix op; Ret (Duplicate b)
  end.

(** The reservations of [k] that a schedule makes: by whom and when. *)
Definition reservation k (e : event) (w : list (prog told) * S) : list (nat * Q) :=
  match e with
  | Client i =>
      match w.1 !! i with
      | Some (SetNx k' _ _ _) => if String.eqb k' k && (set_nx k "" 1 w.2).1 then [(i, time w.2)] else []
      | _ => []
      end
  | Wait _ => []
  end.

Fixpoint reservations k (es : list event) (w : list (prog told) * S) : list (nat * Q) :=
  match es with [] => [] | e :: es => reservation k e w ++ reservations k es (schedule_step e w) end.

(** A program that writes [k] only with a payload that can be read and with the
    full time to live, and removes it only when it cannot be read. *)
Definition readable k (o : option string) : Prop := match o with Some raw => is_Some (decode raw) | None => True end.

Definition tame_command k (c : command) : Prop :=
  match c with
  | SET k' v (Some n) => (0 < n)%Z /\ (k' = k -> n = ttl /\ is_Some (decode v))
  | DEL k' => k' <> k
  | _ => False
  end.

Fixpoint tame k {A} (p : prog A) : Prop :=
  match p with
  | Ret _ => True
  | Get k' f => forall o, (k' = k -> readable k o) -> tame k (f o)
  | SetNx k' v n f => (0 < n)%Z /\ (k' = k -> n = ttl /\ is_Some (decode v)) /\ forall b, tame k (f b)
  | Do cs p => Forall (tame_command k) cs /\ tame k p
  | _ => False
  end.

(** A program that is told the claim was granted only after reserving [k]. *)
Fixpoint honest k (p : prog told) : Prop :=
  match p with
  | Ret a => match a with Claimed true _ => False | _ => True end
  | Get _ f => forall o, honest k (f o)
  | SetNx k' _ _ f => honest k (f false) /\ (k' <> k -> honest k (f true))
  | Do _ p => honest k p
  | _ => False
  end.

Lemma tame_bind {A B} k (p : prog A) (f : A -> prog B) : tame k p -> (forall a, tame k (f a)) -> tame k (p ≫= f).
Proof.
  intros Hp Hf. unfold mbind, prog_mbind. induction p as [a|k' g IH| |k' v n g IH| | |cs p IH| | |]; cbn in *; try done; auto.
  - destruct Hp as (? & ? & ?). split_and!; auto.
  - destruct Hp. auto.
Qed.

Lemma tame_get_result k k' : tame k (get_result k').
Proof.
  cbn. intros [raw|] Ho; [|done]. destruct (decode raw) as [r|] eqn:E; [done|]. cbn. split; [|done]. apply Forall_singleton. cbn.
  intros ->. destruct (Ho eq_refl) as [? ?]. congruence.
Qed.

Lemma tame_work k j : tame k (work j).
Proof.
  assert (Hd : forall r, is_Some (decode (encode r))) by (intros r; rewrite decode_result; by eexists).
  destruct j as [op|op r|op]; (apply tame_bind; [|done]).
  - unfold claim. destruct (operation_key _ op) as [k'|]; [|done]. cbn [tame]. split_and!; [done|by auto|].
    intros [|]; [done|]. apply tame_bind; [apply tame_get_result|]. intros [p|]; [done|]. cbn [tame]. split_and!; [done|by auto|].
    intros [|]; [done|]. by apply tame_bind; [apply tame_get_result|].
  - unfold record. destruct (operation_key _ op) as [k'|]; [|done]. apply tame_bind; [apply tame_get_result|].
    intros [c|]; [|done]. destruct (String.eqb _ _); [|done]. cbn. split; [|done]. apply Forall_singleton. cbn. auto.
  - unfold is_duplicate. destruct (operation_key _ op) as [k'|]; [|done]. by apply tame_bind; [apply tame_get_result|].
Qed.

Lemma honest_work k j : (forall op, j = Claim op -> operation_key operation_redis_key op = Some k) -> honest k (work j).
Proof.
  intros Hj. destruct j as [op|op r|op]; cbn.
  - unfold claim. rewrite (Hj op eq_refl). cbn. split; [|by intros []]. intros [raw|].
    + destruct (decode raw); cbn; [done|]. split; [|by intros []]. intros [raw'|]; [|done]. by destruct (decode raw').
    + cbn. split; [|by intros []]. intros [raw'|]; [|done]. by destruct (decode raw').
  - unfold record. destruct (operation_key _ op) as [k'|]; [|done]. cbn. intros [raw|]; [|done].
    destruct (decode raw); cbn; [|done]. by destruct (String.eqb _ _).
  - unfold is_duplicate. destruct (operation_key _ op) as [k'|]; [|done]. cbn. intros [raw|]; [|done]. by destruct (decode raw).
Qed.

(** The key is readable, and a reservation less than [ttl] old still holds it. *)
Definition holds k (log : list (nat * Q)) s : Prop :=
  (forall v d, find s k = Some (v, d) -> exists raw, v = VString raw /\ is_Some (decode raw)) /\
  forall i t, (i, t) ∈ log -> (t <= time s)%Q /\
    ((t + inject_Z ttl <= time s)%Q \/ exists v d, find s k = Some (v, Some d) /\ (t + inject_Z ttl <= d)%Q).

Lemma holds_readable k log s : holds k log s -> readable k (get s k).
Proof.
  intros [Hr _]. unfold get. destruct (find s k) as [[v d]|] eqn:E; [|done]. by destruct (Hr v d eq_refl) as (raw & -> & Hd).
Qed.

Lemma holds_same k log s s' : find s' k = find s k -> time s' = time s -> holds k log s -> holds k log s'.
Proof. unfold holds. by intros -> ->. Qed.

(** Writing the key with a readable payload for the full time. *)
Lemma holds_set k log s v :
  is_Some (decode v) -> holds k log s -> holds k log (run (SET k v (Some ttl)) s).
Proof.
  intros Hv [_ Hl]. split.
  - intros v' d. rewrite find_set by done. rewrite decide_True by done. intros [= <- _]. eauto.
  - intros i t Hi. rewrite time_run, find_set by done. rewrite decide_True by done. destruct (Hl i t Hi) as [Hle _].
    split; [done|]. right. eexists _, _. split; [done|]. lra.
Qed.

Lemma fits_tame k c s : tame_command k c -> fits c (find s (key_of c)) = true.
Proof. destruct c as [k' v [n|]|k'| | | | | |]; cbn; try done. intros [Hn _]. by apply Z.ltb_lt. Qed.

Lemma holds_run k log c s : tame_command k c -> holds k log s -> holds k log (run c s).
Proof.
  intros Hc Hs. destruct (decide (key_of c = k)) as [E|Hne].
  - destruct c as [k' v [n|]|k'| | | | | |]; cbn in *; try done. subst k'. destruct Hc as (_ & Hk). destruct (Hk eq_refl) as [-> Hv].
    by apply holds_set.
  - apply (holds_same k log s); [|apply time_run|done]. apply find_run_other; [by eapply fits_tame | congruence].
Qed.

Lemma holds_run_all k log cs s : Forall (tame_command k) cs -> holds k log s -> holds k log (run_all cs s).
Proof.
  revert s. induction cs as [|c cs IH]; intros s Hcs Hs; [done|]. apply Forall_cons in Hcs as [Hc Hcs].
  apply (IH (run c s)); [done|]. by apply holds_run.
Qed.

Lemma holds_pass k log d s : (0 <= d)%Q -> holds k log s -> holds k log (pass d s).
Proof.
  intros Hd [Hr Hl]. split.
  - intros v e Hv. destruct (find_pass d s k Hd) as [E|[E _]]; rewrite E in Hv; [by eapply Hr | done].
  - intros i t Hi. rewrite time_pass. destruct (Hl i t Hi) as [Hle Hor]. split; [lra|].
    destruct (find_pass d s k Hd) as [->|(_ & v & x & E & Hx)]; destruct Hor as [?|(v' & e & E' & He)].
    + left. lra.
    + right. eauto.
    + left. lra.
    + left. assert (x = e) as -> by congruence. lra.
Qed.

(** The states of a schedule.  [asks i] says that client [i] claims [k]. *)
Record excluded k (asks : nat -> Prop) (log : list (nat * Q)) (w : list (prog told) * S) : Prop := {
  all_tame : forall i p, w.1 !! i = Some p -> tame k p;
  held : holds k log w.2;
  apart : StronglySorted (fun a b => (a.2 + inject_Z ttl <= b.2)%Q) log;
  accounted : forall i p, w.1 !! i = Some p -> asks i -> honest k p \/ i ∈ log.*1
}.

(** Replacing the program of a client. *)
Lemma excluded_step k asks log log' ps s s' i p p' :
  excluded k asks log (ps, s) -> ps !! i = Some p -> tame k p' ->
  holds k (log ++ log') s' -> StronglySorted (fun a b => (a.2 + inject_Z ttl <= b.2)%Q) (log ++ log') ->
  (honest k p -> honest k p' \/ i ∈ log'.*1) ->
  excluded k asks (log ++ log') (<[i := p']> ps, s').
Proof.
  intros [Ht _ _ Ha] Hp Ht' Hh Hs Hhon. cbn in *. split; cbn; [|done|done|].
  - intros j q [(<- & <- & _)|[_ Hq]]%list_lookup_insert_Some; [done|by eapply Ht].
  - intros j q Hj Hk. rewrite fmap_app, elem_of_app. apply list_lookup_insert_Some in Hj as [(<- & <- & _)|[_ Hq]].
    + destruct (Ha i p Hp Hk) as [Hq|Hq]; [|by auto]. destruct (Hhon Hq); auto.
    + destruct (Ha j q Hq Hk); auto.
Qed.

Lemma set_nx_free k v n s : (set_nx k v n s).1 = true <-> find s k = None.
Proof. unfold set_nx. by destruct (find s k). Qed.

Lemma excluded_event k asks log e w :
  excluded k asks log w -> excluded k asks (log ++ reservation k e w) (schedule_step e w).
Proof.
  destruct w as [ps s]. intros Hw. destruct e as [i|d]; cbn [reservation schedule_step fst snd].
  2: { rewrite app_nil_r. destruct (0 <=? d)%clock eqn:Hd; [|done]. apply qleb_true in Hd. destruct Hw as [? ? ? ?]. split; try done.
       by apply holds_pass. }
  destruct (ps !! i) as [p|] eqn:Hp; [|by rewrite app_nil_r].
  pose proof (all_tame _ _ _ _ Hw i p Hp) as Ht. pose proof (held _ _ _ _ Hw) as Hh. pose proof (apart _ _ _ _ Hw) as Hs.
  cbn [fst snd] in *. destruct p as [a|k' f| |k' v n f| | |cs p| | |]; try done; cbn [step].
  - apply (excluded_step k asks log [] ps s s i (Ret a)); rewrite ?app_nil_r; auto.
  - apply (excluded_step k asks log [] ps s s i (Get k' f)); rewrite ?app_nil_r; auto.
    cbn in Ht. apply Ht. intros ->. by eapply holds_readable.
  - destruct Ht as (Hn & Hk & Hf). unfold set_nx at 2. destruct (find s k') as [x|] eqn:E.
    + assert (Hnone : (String.eqb k' k && (set_nx k "" 1 s).1) = false).
      { destruct (String.eqb_spec k' k) as [->|]; [|done]. cbn. apply not_true_is_false. rewrite set_nx_free. congruence. }
      rewrite Hnone. apply (excluded_step k asks log [] ps s s i (SetNx k' v n f)); rewrite ?app_nil_r; auto.
      cbn. intros [? _]. by left.
    + destruct (String.eqb_spec k' k) as [->|Hne]; cbn [andb].
      * rewrite (proj2 (set_nx_free k "" 1 s) E). destruct (Hk eq_refl) as [-> Hv].
        assert (Hpast : forall j t, (j, t) ∈ log -> (t + inject_Z ttl <= time s)%Q).
        { intros j t Hj. destruct (proj2 Hh j t Hj) as [_ [?|(v' & d & E' & _)]]; [done|congruence]. }
        apply (excluded_step k asks log [(i, time s)] ps s _ i (SetNx k v ttl f)); auto.
        -- split.
           ++ intros v' d. rewrite find_set by done. rewrite decide_True by done. intros [= <- _]. eauto.
           ++ intros j t [Hj|[= -> ->]%list_elem_of_singleton]%elem_of_app; rewrite time_run, find_set, decide_True by done.
              ** destruct (proj2 Hh j t Hj) as [Hle _]. split; [done|]. left. by eapply Hpast.
              ** split; [lra|]. right. eexists _, _. split; [done|]. lra.
        -- apply StronglySorted_app. split_and!; [|done|by repeat constructor].
           intros [j t] b Hj ->%list_elem_of_singleton. cbn. by eapply Hpast.
        -- intros _. right. cbn. by apply list_elem_of_singleton.
      * apply (excluded_step k asks log [] ps s _ i (SetNx k' v n f)); rewrite ?app_nil_r; auto.
        -- apply (holds_same k log s); [|apply time_run|done]. apply find_run_other; [cbn; by apply Z.ltb_lt | cbn; congruence].
        -- cbn. intros [_ Hf']. left. by apply Hf'.
  - destruct Ht as [Hcs Hp']. apply (excluded_step k asks log [] ps s _ i (Do cs p)); rewrite ?app_nil_r; auto.
    by apply holds_run_all.
Qed.

Lemma excluded_schedule k asks es log w :
  excluded k asks log w -> excluded k asks (log ++ reservations k es w) (schedule es w).
Proof.
  revert log w. induction es as [|e es IH]; intros log w Hw; cbn [reservations schedule]; [by rewrite app_nil_r|].
  rewrite app_assoc. by apply IH, excluded_event.
Qed.

(** C23: Two workers never hold one reservation, provided the key is free at the
    beginning or holds a payload that can be read.  Then, however the commands of any
    number of workers interleave and time passes, two workers whose claims of the key
    are both granted made their reservations at least [ttl_seconds] apart.  A payload
    that cannot be read, which no worker writes, is not safe:
    [unreadable_payload_grants_twice]. *)
Theorem reservations_exclusive k jobs s es i j op op' prior prior' :
  (forall v d, find s k = Some (v, d) -> exists raw, v = VString raw /\ is_Some (decode raw)) ->
  jobs !! i = Some (Claim op) -> jobs !! j = Some (Claim op') -> i <> j ->
  operation_key operation_redis_key op = Some k -> operation_key operation_redis_key op' = Some k ->
  (schedule es (work <$> jobs, s)).1 !! i = Some (Ret (Claimed true prior)) ->
  (schedule es (work <$> jobs, s)).1 !! j = Some (Ret (Claimed true prior')) ->
  exists t t', (i, t) ∈ reservations k es (work <$> jobs, s) /\ (j, t') ∈ reservations k es (work <$> jobs, s) /\
    ((t + inject_Z ttl <= t')%Q \/ (t' + inject_Z ttl <= t)%Q).
Proof.
  intros Hs Hi Hj Hne Hk Hk' Hri Hrj. set (w := (work <$> jobs, s)) in *.
  set (asks := fun x => forall op, jobs !! x = Some (Claim op) -> operation_key operation_redis_key op = Some k).
  assert (Hw : excluded k asks [] w).
  { split; cbn.
    - intros x p. rewrite list_lookup_fmap. destruct (jobs !! x); intros [= <-]. apply tame_work.
    - split; [done|]. intros x t []%not_elem_of_nil.
    - constructor.
    - intros x p. rewrite list_lookup_fmap. destruct (jobs !! x) as [y|] eqn:E; intros [= <-]. intros Hx. left. apply honest_work.
      intros o ->. by apply Hx. }
  apply (excluded_schedule k asks es) in Hw. cbn [app] in Hw.
  assert (Hin : forall x o, jobs !! x = Some (Claim o) -> operation_key operation_redis_key o = Some k ->
    forall pr, (schedule es w).1 !! x = Some (Ret (Claimed true pr)) -> exists t, (x, t) ∈ reservations k es w).
  { intros x o Hx Ho pr Hr. destruct (accounted _ _ _ _ Hw x _ Hr) as [[]|Hin].
    - intros o' Ho'. congruence.
    - apply list_elem_of_fmap in Hin as ([x' t] & -> & Hin). eauto. }
  destruct (Hin i op Hi Hk prior Hri) as [t Ht], (Hin j op' Hj Hk' prior' Hrj) as [t' Ht'].
  exists t, t'. split; [done|]. split; [done|]. pose proof (apart _ _ _ _ Hw) as Hsort.
  apply list_elem_of_split in Ht as (l1 & l2 & E). rewrite E in Hsort, Ht'. apply StronglySorted_app in Hsort as (H12 & _ & H2).
  apply elem_of_app in Ht' as [Ht'|[[= <- _]|Ht']%elem_of_cons].
  - right. apply (H12 (j, t') (i, t)); [done | left].
  - done.
  - left. apply StronglySorted_inv in H2 as [_ Hall]. rewrite Forall_forall in Hall. by apply (Hall (j, t')).
Qed.

End workers.
(** ** Approvals *)

Section approvals.
(** The prefix ["{namespace}:approval:"] and [default_ttl_seconds]. *)
Context `{Payloads} (prefix : string) (default_ttl : Q).

(** [_key] *)
Definition approval_key (continuation_id : string) : string := prefix ++ quote "" continuation_id.

(** [_encode] *)
Definition encode_approval (a : PendingApproval) (expires_at_epoch : Q) : string :=
  dumps (JObj [("continuation_id", JStr (continuation_id a)); ("agent_id", JStr (agent_id a));
               ("tool_requests", JList (tool_requests a)); ("messages", JList (messages a));
               ("all_tool_results", JList (all_tool_results a)); ("iterations", JInt (iterations a));
               ("request_id", optional_text (request_id a)); ("session_id", optional_text (session_id a));
               ("input_payload", JObj (input_payload a)); ("expires_at_epoch", JFloat expires_at_epoch)]).

(** [_decode] at wall-clock time [now] and monotonic time [m]: [None] is an
    exception, [Some None] a record whose time is over. *)
Definition decode_approval (raw : string) (now m : Q) : option (option PendingApproval) :=
  match loads raw with
  | Some (JObj d) =>
      match dget "continuation_id" d with
      | None => None
      | Some cid =>
          if negb (py_truthy cid) then None
          else
            e ← dget "expires_at_epoch" d ≫= float_of;
            let remaining := (e - now)%Q in
            if (remaining <=? 0)%clock then Some None
            else
              tools ← list_or_empty (dget "tool_requests" d); ms ← list_or_empty (dget "messages" d);
              rs ← list_or_empty (dget "all_tool_results" d); n ← int_of (default (JInt 0) (dget "iterations" d));
              p ← dict_or_empty (dget "input_payload" d);
              Some (Some {| continuation_id := text_of cid; agent_id := text_of (default (JStr "") (dget "agent_id" d));
                            tool_requests := tools; messages := ms; all_tool_results := rs; iterations := n;
                            request_id := text_or_none (dget "request_id" d); session_id := text_or_none (dget "session_id" d);
                            input_payload := p; expires_at := Some (m + remaining)%Q |})
      end
  | _ => None
  end.

(** [max(1, math.ceil(remaining))] *)
Definition whole_ttl (remaining : Q) : Z := Z.max 1 (Qceiling remaining).

(** [save], in a process whose monotonic clock shows [m]. *)
Definition save_approval (a : PendingApproval) (m : Q) : prog unit :=
  let a := match expires_at a with None => with_ttl a default_ttl m | Some _ => a end in
  let remaining := Qmax 0 (default 0%Q (expires_at a) - m) in
  Clock (fun now => Do [SET (approval_key (continuation_id a)) (encode_approval a (now + remaining)) (Some (whole_ttl remaining))] (Ret tt)).

(** [get]: a record that cannot be read or is over is removed. *)
Definition get_approval (cid : string) (m : Q) : prog (option PendingApproval) :=
  let k := approval_key cid in
  Get k (fun o => match o with
                  | None => Ret None
                  | Some raw =>
                      Clock (fun now => match decode_approval raw now m with
                                        | Some (Some a) => Ret (Some a)
                                        | _ => Do [DEL k] (Ret None)
                                        end)
                  end).

Definition delete_approval (cid : string) : prog unit := Do [DEL (approval_key cid)] (Ret tt).

Context {S : Type} `{Redis S}.
Implicit Types (s : S).

(** What is left of an approval when it is saved. *)
Definition time_left (a : PendingApproval) (m : Q) : Q :=
  match expires_at a with None => Qmax 0 (m + default_ttl - m) | Some e => Qmax 0 (e - m) end.

Lemma whole_ttl_enough r : (0 < whole_ttl r)%Z /\ (r <= inject_Z (whole_ttl r))%Q.
Proof.
  unfold whole_ttl. split; [lia|]. pose proof (Qle_ceiling r).
  assert (inject_Z (Qceiling r) <= inject_Z (Z.max 1 (Qceiling r)))%Q by (rewrite <-Zle_Qle; lia). lra.
Qed.

#[local] Arguments list_or_empty : simpl never.
#[local] Arguments dict_or_empty : simpl never.
#[local] Arguments text_or_none : simpl never.
#[local] Arguments optional_text : simpl never.
#[local] Arguments str_truthy : simpl never.

Lemma decode_encode_approval a e now m :
  str_truthy (continuation_id a) = true ->
  decode_approval (encode_approval a e) now m =
    Some (if (e - now <=? 0)%clock then None else Some (set_expiry a (m + (e - now)))).
Proof.
  intros Hc. unfold decode_approval, encode_approval. rewrite loads_dumps. fields. cbn [py_truthy]. rewrite Hc.
  cbn [negb default mbind option_bind]. rewrite float_of_float. cbn [mbind option_bind].
  destruct (e - now <=? 0)%clock; [done|]. rewrite !list_or_empty_list. cbn [mbind option_bind]. unfold id. rewrite int_of_int. cbn [mbind option_bind]. rewrite dict_or_empty_obj. cbn [mbind option_bind]. by rewrite !text_or_none_optional.
Qed.

(** An approval outlives the process that asked for it.  Saved by one process and
    read by another, whose monotonic clock has nothing to do with the first's, it is
    the record that was saved with the very time that is left, as long as there is
    some, and from then on it is gone. *)
Theorem approval_survives_restart a m m' d i j s :
  str_truthy (continuation_id a) = true -> (0 <= d)%Q ->
  let s' := pass d (run_prog i (save_approval a m) s).2 in
  let left_ := (time s + time_left a m - time s')%Q in
  let r := run_prog j (get_approval (continuation_id a) m') s' in
  (0 < left_ -> r = (Some (set_expiry a (m' + left_)), s'))%Q /\
  (left_ <= 0 -> r.1 = None /\ find r.2 (approval_key (continuation_id a)) = None)%Q.
Proof.
  intros Hc Hd. cbn zeta. set (k := approval_key (continuation_id a)).
  set (a' := match expires_at a with None => with_ttl a default_ttl m | Some _ => a end).
  assert (Hid : continuation_id a' = continuation_id a) by (unfold a'; by destruct (expires_at a)).
  assert (Hrest : forall q, set_expiry a' q = set_expiry a q) by (intros q; unfold a'; by destruct (expires_at a)).
  assert (Hleft : Qmax 0 (default 0%Q (expires_at a') - m) = time_left a m) by (unfold a', time_left; destruct (expires_at a) as [e|] eqn:Ee; [by rewrite Ee | done]).
  set (R := time_left a m) in *. destruct (whole_ttl_enough R) as [Hpos Hen].
  set (payload := encode_approval a' (time s + R)).
  assert (Hs : (run_prog i (save_approval a m) s).2 = run (SET k payload (Some (whole_ttl R))) s).
  { unfold save_approval. fold a'. cbn zeta. rewrite Hleft. cbn [run_prog snd]. unfold payload, k. by rewrite Hid. }
  rewrite Hs. set (s1 := run _ s).
  assert (Hf1 : find s1 k = Some (VString payload, Some (time s + inject_Z (whole_ttl R))%Q)).
  { unfold s1. rewrite (find_run_self (SET k payload (Some (whole_ttl R))) s); [done | cbn; by apply Z.ltb_lt]. }
  assert (Ht : time (pass d s1) = (time s + d)%Q) by (unfold s1; by rewrite time_pass, time_run).
  rewrite Ht. unfold get_approval. fold k. cbn [run_prog].
  assert (Hdec : decode_approval payload (time s + d) m' =
    Some (if (time s + R - (time s + d) <=? 0)%clock then None else Some (set_expiry a (m' + (time s + R - (time s + d)))))).
  { unfold payload. rewrite decode_encode_approval by by rewrite Hid. by rewrite Hrest. }
  unfold get. destruct (find_pass d s1 k Hd) as [->|[Hgone (v & x & E & Hx)]].
  - rewrite Hf1. cbn [run_prog]. rewrite Ht, Hdec. split; intros Hl.
    + assert ((time s + R - (time s + d) <=? 0)%clock = false) as -> by (clock_prop; lra). done.
    + assert ((time s + R - (time s + d) <=? 0)%clock = true) as -> by (clock_prop; lra). cbn [run_prog fst snd].
      split; [done|]. change (run_all [?c] ?t) with (run c t). by apply (find_run_self (DEL k)).
  - rewrite Hgone. cbn [run_prog fst snd]. split; intros Hl; [|done]. exfalso.
    assert (x = (time s + inject_Z (whole_ttl R))%Q) as -> by congruence.
    assert (time s1 = time s) as Ht1 by (unfold s1; apply time_run). rewrite Ht1 in Hx. lra.
Qed.
End approvals.

(** ** Construction *)

Section construction.
Context (urlsplit : string -> option url).

Definition invalid_endpoint : string := "Redis session endpoint must use redis:// or rediss:// with a host".
Definition invalid_namespace : string := "namespace must be a non-empty value without surrounding whitespace".

(** The prefix and the time to live, or the message of the [ValueError]. *)
Definition new_operation_registry (endpoint : string) (ttl_seconds : Z) (namespace : string) : result string (string * Z) :=
  if negb (validate_endpoint urlsplit endpoint) then Err invalid_endpoint
  else if (ttl_seconds <? 1)%Z then Err "ttl_seconds must be a positive integer"
  else if negb (namespace_ok namespace) then Err invalid_namespace
  else Ok (namespace ++ ":operation:", ttl_seconds).

Definition new_approval_store (endpoint : string) (default_ttl_seconds : Q) (namespace : string) : result string (string * Q) :=
  if negb (validate_endpoint urlsplit endpoint) then Err invalid_endpoint
  else if (default_ttl_seconds <=? 0)%clock then Err "default_ttl_seconds must be positive"
  else if negb (namespace_ok namespace) then Err invalid_namespace
  else Ok (namespace ++ ":approval:", default_ttl_seconds).
End construction.

(** ** On concrete input *)

Definition op_of (id : string) (key : string) (tenant : option string) : Operation :=
  {| operation_id := id; idempotency_key := Some key; tenant_id := tenant; name := "pay"; arguments := []; retry_classification := UNSAFE |}.
Definition paid : OperationResult :=
  {| result_id := "a"; status := "success"; output := JInt 1; error := None; was_deduplicated := false |}.
Definition demo_key : string := "ns:operation:k".

(** Two claims more than the time to live apart are both granted. *)
Lemma reservations_exclusive_witness :
  exists t t', (0, t) ∈ reservations demo_key [Client 0; Wait 11; Client 1]
                 (work "ns:operation:" 10 <$> [Claim (op_of "a" "k" None); Claim (op_of "b" "k" None)], empty_table) /\
    (1, t') ∈ reservations demo_key [Client 0; Wait 11; Client 1]
                 (work "ns:operation:" 10 <$> [Claim (op_of "a" "k" None); Claim (op_of "b" "k" None)], empty_table) /\
    ((t + 10 <= t')%Q \/ (t' + 10 <= t)%Q).
Proof.
  apply (reservations_exclusive "ns:operation:" 10 eq_refl demo_key [Claim (op_of "a" "k" None); Claim (op_of "b" "k" None)]
           empty_table [Client 0; Wait 11; Client 1] 0 1 (op_of "a" "k" None) (op_of "b" "k" None) None None).
  - intros v d. discriminate.
  - reflexivity.
  - reflexivity.
  - discriminate.
  - reflexivity.
  - reflexivity.
  - vm_compute. reflexivity.
  - vm_compute. reflexivity.
Defined.

(** [record] reads and then writes: the reservation can run out in between and be
    taken by another worker, whose claim the late result then replaces. *)
Example late_result_replaces_newer_claim :
  let w := schedule [Client 0; Client 1; Wait 11; Client 2; Client 1]
             (work "ns:operation:" 10 <$> [Claim (op_of "a" "k" None); Record (op_of "a" "k" None) paid; Claim (op_of "b" "k" None)],
              empty_table) in
  w.1 = [Ret (Claimed true None); Ret Recorded; Ret (Claimed true None)] /\ operation_at w.2 demo_key = Some (Completed paid).
Proof. vm_compute. split; reflexivity. Qed.

(** A payload that cannot be read is removed by everyone who has read it: the second
    worker removes the reservation of the first, and both are granted at once. *)
Example unreadable_payload_grants_twice :
  let w := schedule [Client 0; Client 1; Client 0; Client 1; Client 0; Client 0; Client 1; Client 1]
             (work "ns:operation:" 10 <$> [Claim (op_of "a" "k" None); Claim (op_of "b" "k" None)],
              run (SET demo_key "garbage" None) empty_table) in
  w.1 = [Ret (Claimed true None); Ret (Claimed true None)].
Proof. vm_compute. reflexivity. Qed.

(** A key without a tenant can be the key of a tenant. *)
Example operation_keys_collide p :
  operation_redis_key p "tenant:acme:k" None = operation_redis_key p "k" (Some "acme").
Proof. reflexivity. Qed.

(** The wave of [Tools] with the Redis registry: the payment is made once. *)
Example redis_wave_pays_once :
  length (executed (execute_tools (H := RedisOperationRegistry_store "ns:operation:" 10 eq_refl) [("pay", pay_tool)] []
    (Some (Policy.Policy.policy_with_rules [])) None true false (fun _ => "op") (fun _ => "")
    (fun _ => Produced (JBool true) None false) (fun _ => true) [pay_request "a"; pay_request "b"] (fresh_wave empty_table)).2) = 1.
Proof. vm_compute. reflexivity. Qed.

Definition demo_approval : PendingApproval :=
  {| continuation_id := "c 1"; agent_id := "agent"; tool_requests := [JObj [("tool", JStr "pay")]]; messages := [];
     all_tool_results := []; iterations := 2; request_id := Some "r"; session_id := None; input_payload := [("q", JInt 1)];
     expires_at := None |}.

Lemma approval_survives_restart_witness :
  run_prog 1 (get_approval "ns:approval:" "c 1" 7)
    (pass 5 (run_prog 0 (save_approval "ns:approval:" 300 demo_approval 1000) empty_table).2) =
  (Some (set_expiry demo_approval (7 + (0 + Qmax 0 (1000 + 300 - 1000) - (0 + 5)))),
   pass 5 (run_prog 0 (save_approval "ns:approval:" 300 demo_approval 1000) empty_table).2).
Proof.
  apply (proj1 (approval_survives_restart "ns:approval:" 300 demo_approval 1000 7 5 0 1 empty_table eq_refl ltac:(lra))).
  vm_compute. reflexivity.
Defined.

End RedisOps.
