(* ===== verification/RedisSession.v ===== *)
(** * Sessions in Redis

    [RedisSessionProvider] of [micro_agent/session/redis.py]: sessions as JSON texts
    under keys with a time to live, an index in a sorted set, and updates under
    [WATCH].  The client is redis-py's, whose pipelines can watch; its clock is the
    server's.  A timestamp the provider stored is a text; one that is not does not
    occur. *)

From S2P Require Import Prelude Json Urls Session Redis.
Import Urls Session Redis.
Local Open Scope string_scope.

Module RedisSession.

Inductive error : Type := Conflict (e : StateConflictError) | ValueError.

Section provider.
Context `{Payloads} (namespace : string) (ttl_seconds : option Z).

(** [_prefix], [_index_key] *)
Definition prefix : string := namespace ++ ":session:".
Definition index : string := namespace ++ ":sessions".

(** [_key] *)
Definition session_key (sid : string) (tenant : option string) : string :=
  match tenant with
  | None => prefix ++ sid
  | Some t => prefix ++ "tenant:" ++ quote "" t ++ ":" ++ sid
  end.
Definition key_for (c : SessionContext) : string := session_key (session_id c) (tenant_id c).

(** [_expiry] *)
Definition session_expiry (ttl : option Z) (now : Q) : option string :=
  match (match ttl with Some t => Some t | None => ttl_seconds end) with
  | None => None
  | Some t => Some (iso (now + inject_Z t)%Q)
  end.

(** [_remaining_ttl] *)
Definition remaining_ttl (expires : option string) (now : Q) : option Z :=
  match expires ≫= from_iso with
  | None => None
  | Some e => let r := (e - now)%Q in Some (if (r <=? 0)%clock then 0%Z else Z.max 1 (Qceiling r))
  end.

(** [_decode], with the creation and expiry times; [None] is an exception. *)
Definition decode (raw : string) (now : Q) : option (SessionContext * string * option string) :=
  match loads raw with
  | Some (JObj d) =>
      sid ← dget "session_id" d;
      let created := match dget "created_at" d with Some j => if py_truthy j then text_of j else iso now | None => iso now end in
      let expires := text_or_none (dget "expires_at" d) in
      v ← int_or_one (dget "version" d);
      md ← dict_or_empty (dget "metadata" d);
      let md := dset "created_at" (JStr created) md in
      let md := match expires with Some e => dset "expires_at" (JStr e) md | None => md end in
      ms ← list_or_empty (dget "messages" d);
      cc ← dict_or_empty (dget "caller_context" d);
      Some ({| session_id := text_of sid; messages := ms; metadata := md; caller_context := cc;
               tenant_id := text_or_none (dget "tenant_id" d); version := v |}, created, expires)
  | _ => None
  end.

Definition version_or_one (v : Z) : Z := if Z.eqb v 0 then 1%Z else v.

(** [_encode] *)
Definition encode (c : SessionContext) (created : string) (expires : option string) : string :=
  let md := filterb (fun e => negb (memb e.1 ["created_at"; "expires_at"])) (metadata c) in
  dumps (JObj [("session_id", JStr (session_id c)); ("tenant_id", optional_text (tenant_id c));
               ("version", JInt (version_or_one (version c))); ("messages", JList (messages c)); ("metadata", JObj md);
               ("caller_context", JObj (caller_context c)); ("created_at", JStr created);
               ("expires_at", optional_text expires)]).

(** [_remove] *)
Definition removal (k : string) : list command := [DEL k; ZREM index k].
Definition remove {A} (k : string) (a : A) : prog A := Do (removal k) (Ret a).

(** The transaction of [_store] and [update]; [None]: the expiry is no timestamp. *)
Definition storing (c : SessionContext) (created : string) (expires : option string) (now : Q) : option (list command) :=
  let k := key_for c in
  let put ttl :=
    score ← match expires with None => Some 0%Q | Some e => from_iso e end;
    Some [SET k (encode c created expires) ttl; ZADD index k score] in
  match remaining_ttl expires now with
  | Some 0%Z => Some (removal k)
  | Some n => put (Some n)
  | None => put None
  end.

(** [create] *)
Definition create (uuid : string) (sid : option string) (ttl : option Z) (tenant : option string) : prog (result error SessionContext) :=
  Clock (fun now =>
    let created := iso now in
    let expires := session_expiry ttl now in
    let c := {| session_id := opt_or sid uuid; messages := [];
                metadata := ("created_at", JStr created) :: match expires with Some e => [("expires_at", JStr e)] | None => [] end;
                caller_context := []; tenant_id := tenant; version := 1 |} in
    Clock (fun now => match storing c created expires now with
                      | Some cs => Do cs (Ret (Ok c))
                      | None => Ret (Err ValueError)
                      end)).

(** [now >= fromisoformat(expires_at)]; a [ValueError] counts as not expired. *)
Definition over (expires : option string) (now : Q) : bool :=
  match expires ≫= from_iso with Some e => (e <=? now)%clock | None => false end.

(** [get] *)
Definition get_session (sid : string) (tenant : option string) : prog (option SessionContext) :=
  let k := session_key sid tenant in
  Get k (fun o => match o with
                  | None => Do [ZREM index k] (Ret None)
                  | Some raw =>
                      Clock (fun now => match decode raw now with
                                        | None => remove k None
                                        | Some (c, _, expires) => if over expires now then remove k None else Ret (Some c)
                                        end)
                  end).

(** What [update] found: the version (0: nothing that can be read), the creation
    time and the expiry. *)
Definition found (existing : option string) (now : Q) : Z * option string * option string :=
  match existing ≫= fun raw => decode raw now with
  | Some (c, created, expires) => (version_or_one (version c), Some created, expires)
  | None => (0%Z, None, None)
  end.

(** [prepare]: the creation time, the expiry and the new version. *)
Definition prepare (c : SessionContext) (ttl : option Z) (expected : Z) (existing : option string) (now : Q)
  : result StateConflictError (string * option string * Z) :=
  let own := match dget "created_at" (metadata c) with Some j => if py_truthy j then text_of j else iso now | None => iso now end in
  let '(actual, existing_created, existing_expires) := found existing now in
  let created := match existing_created with Some t => if dmem "created_at" (metadata c) then own else t | None => own end in
  let expires := match ttl with Some _ => session_expiry ttl now | None => existing_expires end in
  if Z.eqb actual 0 then
    if Z.eqb expected 0 then Ok (created, expires, 1%Z) else Err (conflict c expected 0)
  else if negb (Z.eqb expected 0) && negb (Z.eqb expected actual) then Err (conflict c expected actual)
  else Ok (created, expires, (actual + 1)%Z).

(** What [update] writes into the caller's object before it commits. *)
Definition stamped (c : SessionContext) (v : Z) (expires : option string) : SessionContext :=
  let md := match expires with Some e => dset "expires_at" (JStr e) (metadata c) | None => metadata c end in
  {| session_id := session_id c; messages := messages c; metadata := md; caller_context := caller_context c;
     tenant_id := tenant_id c; version := v |}.

(** [update], at most three attempts: the outcome and the caller's object. *)
Fixpoint attempt (n : nat) (c : SessionContext) (ttl : option Z) (expected : Z) : prog (result error unit * SessionContext) :=
  match n with
  | O => Ret (Err (Conflict (conflict c expected (-1))), c)
  | S n =>
      let k := key_for c in
      Watch k (Get k (fun existing => Clock (fun now =>
        match prepare c ttl expected existing now with
        | Err e => Ret (Err (Conflict e), c)
        | Ok (created, expires, v) =>
            let c := stamped c v expires in
            Clock (fun now => match storing c created expires now with
                              | None => Ret (Err ValueError, c)
                              | Some cs => Exec cs (fun ok : bool => if ok then Ret (Ok tt, c) else attempt n c ttl expected)
                              end)
        end)))
  end.

Definition update (c : SessionContext) (ttl expected_version : option Z) : prog (result error unit * SessionContext) :=
  attempt 3 c ttl (default (version c) expected_version).

(** [delete] *)
Definition delete_session (sid : string) (tenant : option string) : prog unit := remove (session_key sid tenant) tt.

(** [list_active] *)
Definition judged (tenant : option string) (now : Q) (e : string * option string) : option SessionMetadata + unit :=
  match e.2 ≫= fun raw => decode raw now with
  | None => inr tt
  | Some (c, created, expires) =>
      if negb (match tenant with None => true | Some _ => bool_decide (tenant_id c = tenant) end) then inl None
      else if over expires now then inr tt
      else inl (Some {| meta_session_id := session_id c; created_at := default now (from_iso created);
                        expires_at := expires ≫= from_iso; is_active := true;
                        meta_tenant_id := tenant_id c; meta_version := version c |})
  end.

Definition list_active (tenant : option string) : prog (list SessionMetadata) :=
  Members index (fun ms =>
    match ms with
    | [] => Ret []
    | _ =>
        MGet ms.*1 (fun raws => Clock (fun now =>
          let l := zip ms.*1 raws in
          let active := omap (fun e => match judged tenant now e with inl m => m | inr _ => None end) l in
          let stale := (filterb (fun e => match judged tenant now e with inr _ => true | inl _ => false end) l).*1 in
          match stale with
          | [] => Ret active
          | _ => Do (stale ≫= removal) (Ret active)
          end))
    end).

(** ** Reading back what was written *)

(** What a stored text says whatever the time: its version and its expiry. *)
Definition stores (raw : string) (v : Z) (expires : option string) : Prop :=
  forall now, exists c created, decode raw now = Some (c, created, expires) /\ version c = v.

Lemma version_or_one_pos v : (1 <= v)%Z -> version_or_one v = v.
Proof. unfold version_or_one. by destruct (Z.eqb_spec v 0); [lia|]. Qed.

Lemma version_or_one_ne v : version_or_one v <> 0%Z.
Proof. unfold version_or_one. by destruct (Z.eqb_spec v 0). Qed.

#[local] Arguments list_or_empty : simpl never.
#[local] Arguments dict_or_empty : simpl never.
#[local] Arguments int_or_one : simpl never.
#[local] Arguments text_or_none : simpl never.
#[local] Arguments optional_text : simpl never.

Lemma int_or_one_version v : int_or_one (Some (JInt (version_or_one v))) = Some (version_or_one v).
Proof.
  unfold int_or_one. cbn [py_truthy]. destruct (Z.eqb_spec (version_or_one v) 0) as [E|_]; [by apply version_or_one_ne in E|]. apply int_of_int.
Qed.

(** The context that is read back. *)
Definition read_back (c : SessionContext) (created : string) (expires : option string) : SessionContext :=
  let md := dset "created_at" (JStr created) (filterb (fun e => negb (memb e.1 ["created_at"; "expires_at"])) (metadata c)) in
  {| session_id := session_id c; messages := messages c;
     metadata := match expires with Some e => dset "expires_at" (JStr e) md | None => md end;
     caller_context := caller_context c; tenant_id := tenant_id c; version := version_or_one (version c) |}.

Lemma decode_session c created expires now :
  decode (encode c created expires) now =
    Some (read_back c (if str_truthy created then created else iso now) expires,
          if str_truthy created then created else iso now, expires).
Proof.
  unfold decode, encode. rewrite loads_dumps. fields. cbn [mbind option_bind]. rewrite int_or_one_version. cbn [mbind option_bind].
  rewrite !dict_or_empty_obj. cbn [mbind option_bind]. rewrite list_or_empty_list. cbn [mbind option_bind].
  rewrite !text_or_none_optional. cbn [py_truthy]. by destruct (str_truthy created).
Qed.

Lemma stores_encode c created expires : stores (encode c created expires) (version_or_one (version c)) expires.
Proof. intros now. rewrite decode_session. by eexists _, _. Qed.

Lemma key_not_index sid t : session_key sid t <> index.
Proof.
  unfold session_key, index, prefix. destruct t; rewrite <-!text_app_assoc; intros E%append_inj_l; discriminate E.
Qed.

End provider.
(** ** Concurrent updates *)

Section clients.
Context `{Payloads} (namespace : string) (ttl_seconds : option Z) {S : Type} `{Redis S}.
Implicit Types (s : S) (k : string).

#[local] Notation session_key := (session_key namespace).
#[local] Notation key_for := (key_for namespace).
#[local] Notation index := (index namespace).

(** Clients read and update sessions. *)
Inductive job : Type := Update (c : SessionContext) (ttl expected : option Z) | Read (sid : string) (tenant : option string).
Inductive told : Type := Updated (r : result error unit) (c : SessionContext) | Seen (o : option SessionContext).

Definition work (j : job) : prog told :=
  match j with
  | Update c ttl ev => r ← update namespace ttl_seconds c ttl ev; Ret (Updated r.1 r.2)
  | Read sid tenant => o ← get_session namespace sid tenant; Ret (Seen o)
  end.

Definition succeeded (p : prog told) : bool := match p with Ret (Updated (Ok _) _) => true | _ => false end.

(** The job updates the session [k]. *)
Definition updates k (j : job) : bool := match j with Update c _ _ => String.eqb (key_for c) k | Read _ _ => false end.
Definition expectation (j : job) : Z := match j with Update c _ ev => default (version c) ev | Read _ _ => 0%Z end.

Fixpoint wins k (jobs : list job) (ps : list (prog told)) : nat :=
  match jobs, ps with
  | j :: jobs, p :: ps => (if updates k j && succeeded p then 1 else 0) + wins k jobs ps
  | _, _ => 0
  end.

Lemma wins_insert k jobs ps i j p p' :
  jobs !! i = Some j -> ps !! i = Some p -> updates k j && succeeded p = false ->
  wins k jobs (<[i := p']> ps) = wins k jobs ps + (if updates k j && succeeded p' then 1 else 0).
Proof.
  revert ps i. induction jobs as [|j0 jobs IH]; intros ps i Hj Hp Hs; [done|].
  destruct ps as [|p0 ps]; [done|]. destruct i as [|i].
  - cbn in *. simplify_eq. rewrite Hs. cbn. lia.
  - change (<[Datatypes.S i:=p']> (p0 :: ps)) with (p0 :: <[i:=p']> ps). cbn [wins]. rewrite (IH ps i Hj Hp Hs). lia.
Qed.

(** The session is stored without an expiry, at version [v]; the index is a sorted
    set. *)
Definition stored_at k (v : Z) s : Prop :=
  (exists raw, find s k = Some (VString raw, None) /\ stores raw v None) /\
  (find s index = None \/ exists l, find s index = Some (VZset l, None)).

(** A command that leaves [k] alone. *)
Definition elsewhere k (c : command) : Prop :=
  key_of c <> k /\
  match c with
  | SET k' _ ex => k' <> index /\ match ex with Some n => (0 < n)%Z | None => True end
  | DEL k' => k' <> index
  | ZADD k' _ _ | ZREM k' _ => k' = index
  | _ => False
  end.

(** What a program may do: [seen] is what it read under [WATCH]; [mine] is the
    version it expects when it updates [k] itself. *)
Fixpoint careful k (mine : option Z) (seen : option string) (p : prog told) : Prop :=
  match p with
  | Ret (Updated (Ok _) _) => mine = None
  | Ret _ => True
  | Watch k' p => (mine <> None -> k' = k) /\ careful k mine None p
  | Get k' f => forall o, (k' = k -> exists raw v, o = Some raw /\ (1 <= v)%Z /\ stores raw v None) ->
      careful k mine (if String.eqb k' k then o else seen) (f o)
  | Clock f => forall t, careful k mine seen (f t)
  | Do cs p => Forall (elsewhere k) cs /\ careful k mine seen p
  | Exec cs f =>
      careful k mine None (f false) /\
      match mine with
      | None => Forall (elsewhere k) cs /\ careful k mine None (f true)
      | Some e => exists raw v payload c, seen = Some raw /\ stores raw v None /\ (1 <= v)%Z /\
          cs = [SET k payload None; ZADD index k 0] /\ stores payload (v + 1) None /\
          f true = Ret (Updated (Ok tt) c) /\ version c = (v + 1)%Z /\ (e = 0%Z \/ e = v)
      end
  | _ => False
  end.

Lemma stores_found raw v now : (1 <= v)%Z -> stores raw v None -> exists created, found (Some raw) now = (v, Some created, None).
Proof.
  intros Hv Hs. destruct (Hs now) as (c & created & Hd & Hc). exists created. unfold found. cbn. rewrite Hd.
  rewrite version_or_one_pos by lia. by rewrite Hc.
Qed.

Lemma storing_elsewhere k c created expires now cs :
  key_for c <> k -> index <> k -> storing namespace c created expires now = Some cs -> Forall (elsewhere k) cs.
Proof.
  intros Hk Hi. assert (Hki : key_for c <> index) by apply key_not_index. unfold storing.
  assert (Hrem : Forall (elsewhere k) (removal namespace (key_for c)))
    by (apply List.Forall_cons; [|apply List.Forall_cons; [|apply List.Forall_nil]]; split; done).
  assert (Hput : forall ex q, match ex with Some n => (0 < n)%Z | None => True end ->
            Forall (elsewhere k) [SET (key_for c) (encode c created expires) ex; ZADD index (key_for c) q])
    by (intros ex q Hex; apply List.Forall_cons; [|apply List.Forall_cons; [|apply List.Forall_nil]]; split; done).
  destruct (remaining_ttl expires now) as [n|] eqn:En.
  - assert (Hn : n = 0%Z \/ (0 < n)%Z).
    { unfold remaining_ttl in En. destruct (expires ≫= from_iso); [|done]. injection En as <-. case_match; [by left | right; lia]. }
    destruct n as [|n|n].
    + by intros [= <-].
    + destruct (match expires with None => Some 0%Q | Some e => from_iso e end) as [q|]; [|done]. intros [= <-]. apply Hput. lia.
    + lia.
  - destruct (match expires with None => Some 0%Q | Some e => from_iso e end) as [q|]; [|done]. intros [= <-]. by apply Hput.
Qed.

Lemma careful_attempt k n c ttl e mine seen :
  index <> k -> (mine = if String.eqb (key_for c) k then Some e else None) -> (key_for c = k -> ttl = None) ->
  careful k mine seen (attempt namespace ttl_seconds n c ttl e ≫= fun r => Ret (Updated r.1 r.2)).
Proof.
  intros Hi -> Httl. revert c seen Httl. induction n as [|n IH]; intros c seen Httl; [done|].
  cbn [attempt mbind prog_mbind prog_bind careful]. split.
  { destruct (String.eqb_spec (key_for c) k); done. }
  intros o Ho now. destruct (prepare ttl_seconds c ttl e o now) as [[[created expires] v]|err] eqn:Hp; [|done].
  cbn [prog_bind careful]. intros now'. set (c' := stamped c v expires).
  assert (Hkey : key_for c' = key_for c) by done.
  destruct (storing namespace c' created expires now') as [cs|] eqn:Hst; [|done]. cbn [prog_bind careful].
  split; [specialize (IH c' None); rewrite Hkey in IH; by apply IH|].
  destruct (String.eqb_spec (key_for c) k) as [Ek|Hne].
  - destruct (Ho Ek) as (raw & v0 & -> & Hv0 & Hs). specialize (Httl Ek) as ->.
    destruct (stores_found raw v0 now Hv0 Hs) as [ec Hf]. unfold prepare in Hp. rewrite Hf in Hp. cbn beta iota zeta in Hp.
    destruct (Z.eqb_spec v0 0); [lia|]. destruct (negb (Z.eqb e 0) && negb (Z.eqb e v0)) eqn:Hc; [done|]. simplify_eq.
    unfold storing in Hst. cbn in Hst. injection Hst as <-.
    eexists raw, v0, _, c'. split_and!; try done.
    + rewrite <-(version_or_one_pos (v0 + 1)) by lia. apply (stores_encode c').
    + apply andb_false_iff in Hc as [Hc|Hc]; apply negb_false_iff, Z.eqb_eq in Hc; auto.
  - split; [|done]. by eapply storing_elsewhere; [rewrite Hkey| |].
Qed.

Lemma careful_read k sid tenant seen :
  index <> k -> careful k None seen (work (Read sid tenant)).
Proof.
  intros Hi. assert (Hk : session_key sid tenant <> index) by apply key_not_index. cbn. intros o Ho. destruct o as [raw|].
  - intros now. destruct (decode raw now) as [[[c created] expires]|] eqn:Hd.
    + destruct (over expires now) eqn:Hov; [|done]. cbn. split; [|done].
      assert (session_key sid tenant <> k).
      { intros E. destruct (Ho E) as (raw' & v & [= <-] & _ & Hs). destruct (Hs now) as (c' & cr & Hd' & _). rewrite Hd in Hd'. by simplify_eq. }
      apply List.Forall_cons; [|apply List.Forall_cons; [|apply List.Forall_nil]]; split; done.
    + cbn. split; [|done].
      assert (session_key sid tenant <> k).
      { intros E. destruct (Ho E) as (raw' & v & [= <-] & _ & Hs). destruct (Hs now) as (c' & cr & Hd' & _). by rewrite Hd in Hd'. }
      apply List.Forall_cons; [|apply List.Forall_cons; [|apply List.Forall_nil]]; split; done.
  - cbn. split; [|done]. apply Forall_singleton. split; done.
Qed.

(** The updates of [k] leave its expiry alone. *)
Definition keeps_expiry k (j : job) : Prop := match j with Update c ttl _ => key_for c = k -> ttl = None | Read _ _ => True end.
Definition own_expectation k (j : job) : option Z := if updates k j then Some (expectation j) else None.

Lemma careful_work k j : index <> k -> keeps_expiry k j -> careful k (own_expectation k j) None (work j).
Proof.
  intros Hi Hj. destruct j as [c ttl ev|sid tenant]; [|by apply careful_read]. by apply careful_attempt.
Qed.

(** *** What a step does to the session *)

Lemma stores_version raw v v' : stores raw v None -> stores raw v' None -> v = v'.
Proof. intros H1 H2. destruct (H1 0%Q) as (? & ? & E & <-), (H2 0%Q) as (? & ? & E' & <-). congruence. Qed.

Lemma elsewhere_fits k c s : elsewhere k c -> (find s index = None \/ exists l, find s index = Some (VZset l, None)) ->
  fits c (find s (key_of c)) = true.
Proof.
  intros [_ Hc] Hi. destruct c as [k' v [n|]|k'| | | |k' m q|k' m|]; try done; cbn.
  - apply Z.ltb_lt, Hc.
  - rewrite Hc. by destruct Hi as [->|[l ->]].
  - rewrite Hc. by destruct Hi as [->|[l ->]].
Qed.

Lemma stored_at_run k v c s : index <> k -> elsewhere k c -> stored_at k v s -> stored_at k v (run c s).
Proof.
  intros Hi Hc [(raw & Hf & Hs) Hx]. pose proof (elsewhere_fits k c s Hc Hx) as Hfit. split.
  - exists raw. split; [|done]. rewrite find_run_other by (done || (destruct Hc; congruence)). done.
  - destruct (decide (key_of c = index)) as [E|Hne]; [|by rewrite find_run_other by (done || congruence)].
    rewrite find_run by done. rewrite decide_True by done. destruct Hc as [_ Hc].
    destruct c as [k' v' ex|k'| | | |k' m q|k' m|]; cbn in E, Hc; try done.
    + by destruct Hc as [? _].
    + right. destruct Hx as [->|[l ->]]; cbn; by eexists.
    + destruct Hx as [->|[l ->]]; cbn; [by left|]. unfold some_members. destruct (dpop m l); [by left | right; by eexists].
Qed.

Lemma stored_at_run_all k v cs s : index <> k -> Forall (elsewhere k) cs -> stored_at k v s -> stored_at k v (run_all cs s).
Proof.
  intros Hi. revert s. induction cs as [|c cs IH]; intros s Hcs Hs; [done|]. apply Forall_cons in Hcs as [Hc Hcs].
  apply (IH (run c s)); [done|]. by apply stored_at_run.
Qed.

Lemma stored_at_same k v s s' : (forall x, find s' x = find s x) -> stored_at k v s -> stored_at k v s'.
Proof. unfold stored_at. intros Hf. by rewrite !Hf. Qed.

Lemma stored_at_pass k v d s : (0 <= d)%Q -> stored_at k v s -> stored_at k v (pass d s).
Proof.
  intros Hd [(raw & Hf & Hs) Hx]. split.
  - exists raw. destruct (find_pass d s k Hd) as [->|(_ & v' & t & E & _)]; [done|congruence].
  - destruct (find_pass d s index Hd) as [->|(-> & _)]; [done|by left].
Qed.

Lemma stored_at_commit k v payload s :
  index <> k -> stores payload (v + 1) None -> stored_at k v s ->
  stored_at k (v + 1) (run_all [SET k payload None; ZADD index k 0] s).
Proof.
  intros Hi Hp [_ Hx]. change (run_all [?a; ?b] s) with (run b (run a s)). set (s1 := run (SET k payload None) s).
  assert (Hk : find s1 k = Some (VString payload, None)) by (unfold s1; by rewrite (find_run_self (SET k payload None))).
  assert (Hix : find s1 index = find s index) by (unfold s1; by apply find_run_other).
  assert (Hfit : fits (ZADD index k 0) (find s1 index) = true) by (rewrite Hix; by destruct Hx as [->|[l ->]]).
  split.
  - exists payload. split; [|done]. by rewrite find_run_other by (done || (cbn; congruence)).
  - right. rewrite (find_run_self (ZADD index k 0)) by done. cbn [key_of]. rewrite Hix. destruct Hx as [->|[l ->]]; cbn; by eexists.
Qed.

(** What a step of another client, or time, leaves to connection [i]. *)
Definition undisturbed k (i : nat) s s' : Prop :=
  forall k', watched s' i = Some k' -> watched s i = Some k' /\ (k' = k -> find s' k = find s k).

Lemma undisturbed_run_all k i cs s : undisturbed k i s (run_all cs s).
Proof. intros k' Hw. destruct (watched_run_all cs s i k' Hw) as [Hw' Hf]. split; [done|]. by intros ->. Qed.

Lemma undisturbed_watch k i j k0 s : i <> j -> undisturbed k i s (watch j k0 s).
Proof. intros Hne k'. rewrite watched_watch, decide_False by done. intros Hw. split; [done|]. intros _. apply find_watch. Qed.

Lemma exec_effect i cs s s' : exec i cs s = Some s' ->
  is_Some (watched s i) /\ (forall k, find s' k = find (run_all cs s) k) /\ (forall k j, undisturbed k j s s').
Proof.
  intros He. destruct (watched s i) as [k0|] eqn:Hw; [|by rewrite exec_touched in He].
  destruct (exec_watched i cs s) as (s1 & He1 & _ & Hf & Hwt); [by rewrite Hw|]. assert (s1 = s') as -> by congruence.
  split; [by eexists|]. split; [done|]. intros k j k' Hk'. destruct (watched_run_all cs s j k' (Hwt j k' Hk')) as [? E]. split; [done|].
  intros ->. rewrite Hf. exact E.
Qed.

Lemma undisturbed_pass k v i d s : (0 <= d)%Q -> stored_at k v s -> undisturbed k i s (pass d s).
Proof.
  intros Hd [(raw & Hf & _) _] k' Hw. split; [by eapply watched_pass|]. intros ->.
  destruct (find_pass d s k Hd) as [->|(_ & v' & t & E & _)]; [done|congruence].
Qed.

(** *** The clients *)

(** A client that has not committed: its connection watches no other key and, if
    it is untouched, the session is what the client read. *)
Definition client_ok k (i : nat) (j : job) s (p : prog told) : Prop :=
  exists seen, careful k (own_expectation k j) seen p /\
    (updates k j = true -> (forall k', watched s i = Some k' -> k' = k) /\
      (forall raw, seen = Some raw -> is_Some (watched s i) -> get s k = Some raw)).

Lemma client_ok_undisturbed k i j s s' p : undisturbed k i s s' -> client_ok k i j s p -> client_ok k i j s' p.
Proof.
  intros Hu (seen & Hc & Hw). exists seen. split; [done|]. intros Hj. destruct (Hw Hj) as [Hk Hr]. split.
  - intros k' Hk'. apply Hk, Hu, Hk'.
  - intros raw Hs [k' Hk']. destruct (Hu k' Hk') as [Hk0 Hf]. unfold get. rewrite (Hf (Hk k' Hk0)). apply (Hr raw Hs). by eexists.
Qed.

Definition committed k (v0 v : Z) (j : job) (p : prog told) : Prop :=
  updates k j = true /\ exists c, p = Ret (Updated (Ok tt) c) /\ (v0 < version c <= v)%Z /\
    (expectation j = 0%Z \/ version c = (expectation j + 1)%Z).

Record serial k (v0 : Z) (jobs : list job) (w : list (prog told) * S) : Prop := {
  all_clients : length w.1 = length jobs;
  one_version : stored_at k (v0 + Z.of_nat (wins k jobs w.1)) w.2;
  each_client : forall i j p, jobs !! i = Some j -> w.1 !! i = Some p ->
    client_ok k i j w.2 p \/ committed k v0 (v0 + Z.of_nat (wins k jobs w.1)) j p;
  distinct : forall i i' j j' c c', i <> i' -> jobs !! i = Some j -> jobs !! i' = Some j' ->
    w.1 !! i = Some (Ret (Updated (Ok tt) c)) -> w.1 !! i' = Some (Ret (Updated (Ok tt) c')) ->
    updates k j = true -> updates k j' = true -> version c <> version c'
}.

Lemma not_committed k j seen p : careful k (own_expectation k j) seen p -> updates k j && succeeded p = false.
Proof.
  unfold own_expectation. destruct (updates k j); [|done]. destruct p as [[[[]|e] c|o]| | | | | | | | |]; try done.
Qed.

(** A step of client [i] that does not commit. *)
Lemma serial_move k v0 jobs ps s s' i j p p' :
  serial k v0 jobs (ps, s) -> jobs !! i = Some j -> ps !! i = Some p -> updates k j && succeeded p = false ->
  (forall v, stored_at k v s -> stored_at k v s') -> (forall i', i' <> i -> undisturbed k i' s s') -> client_ok k i j s' p' ->
  serial k v0 jobs (<[i := p']> ps, s').
Proof.
  intros [Hl Hv Hc Hd] Hj Hp Hn Hst Hu Hok. cbn in *. pose proof Hok as (seen & Hcar & _). apply not_committed in Hcar as Hn'.
  assert (Hw : wins k jobs (<[i:=p']> ps) = wins k jobs ps) by (rewrite (wins_insert k jobs ps i j p p') by done; rewrite Hn'; lia).
  split; cbn; rewrite ?Hw.
  - by rewrite length_insert.
  - by apply Hst.
  - intros i1 j1 p1 Hj1 [(<- & <- & _)|[Hne Hp1]]%list_lookup_insert_Some.
    + left. by simplify_eq.
    + destruct (Hc i1 j1 p1 Hj1 Hp1) as [Hok1|Hcm]; [left|by right]. eapply client_ok_undisturbed; [|done]. apply Hu. congruence.
  - intros i1 i2 j1 j2 c1 c2 Hne Hj1 Hj2 [(<- & -> & _)|[_ Hp1]]%list_lookup_insert_Some [(<- & E & _)|[_ Hp2]]%list_lookup_insert_Some Hu1 Hu2.
    + done.
    + simplify_eq. by rewrite Hu1 in Hn'.
    + simplify_eq. by rewrite Hu2 in Hn'.
    + by apply (Hd i1 i2 j1 j2).
Qed.

(** A commit of client [i]. *)
Lemma serial_commit k v0 jobs ps s s' i j p c :
  serial k v0 jobs (ps, s) -> jobs !! i = Some j -> ps !! i = Some p -> updates k j && succeeded p = false -> updates k j = true ->
  version c = (v0 + Z.of_nat (wins k jobs ps) + 1)%Z -> (expectation j = 0%Z \/ version c = (expectation j + 1)%Z) ->
  stored_at k (version c) s' -> (forall i', i' <> i -> undisturbed k i' s s') ->
  serial k v0 jobs (<[i := Ret (Updated (Ok tt) c)]> ps, s').
Proof.
  intros [Hl Hv Hc Hd] Hj Hp Hn Huj Hver Hexp Hst Hu. cbn in *. set (p' := Ret (Updated (Ok tt) c)).
  assert (Hw : wins k jobs (<[i:=p']> ps) = Datatypes.S (wins k jobs ps))
    by (rewrite (wins_insert k jobs ps i j p p') by done; rewrite Huj; cbn; lia).
  assert (Hold : forall i1 j1 c1, jobs !! i1 = Some j1 -> ps !! i1 = Some (Ret (Updated (Ok tt) c1)) -> updates k j1 = true ->
            (version c1 < version c)%Z).
  { intros i1 j1 c1 Hj1 Hp1 Hu1. destruct (Hc i1 j1 _ Hj1 Hp1) as [(seen & Hcar & _)|(_ & c' & E & Hle & _)].
    - apply not_committed in Hcar. by rewrite Hu1 in Hcar.
    - simplify_eq. lia. }
  split; cbn; rewrite ?Hw.
  - by rewrite length_insert.
  - replace (v0 + Z.of_nat (Datatypes.S (wins k jobs ps)))%Z with (version c) by lia. done.
  - intros i1 j1 p1 Hj1 [(<- & <- & _)|[Hne Hp1]]%list_lookup_insert_Some.
    + right. assert (j1 = j) as -> by congruence. split; [done|]. exists c. split_and!; [done|lia|lia|done].
    + destruct (Hc i1 j1 p1 Hj1 Hp1) as [Hok1|(? & c1 & -> & Hle & ?)].
      * left. eapply client_ok_undisturbed; [|done]. apply Hu. congruence.
      * right. split; [done|]. exists c1. split_and!; [done|lia|lia|done].
  - intros i1 i2 j1 j2 c1 c2 Hne Hj1 Hj2 [(<- & E1 & _)|[_ Hp1]]%list_lookup_insert_Some [(<- & E2 & _)|[_ Hp2]]%list_lookup_insert_Some Hu1 Hu2.
    + done.
    + unfold p' in E1. simplify_eq. pose proof (Hold i2 j2 c2 Hj2 Hp2 Hu2). lia.
    + unfold p' in E2. simplify_eq. pose proof (Hold i1 j1 c1 Hj1 Hp1 Hu1). lia.
    + by apply (Hd i1 i2 j1 j2).
Qed.

Lemma undisturbed_refl k i s : undisturbed k i s s.
Proof. by intros k' ?. Qed.

Lemma serial_step k v0 jobs e w :
  index <> k -> (1 <= v0)%Z -> serial k v0 jobs w -> serial k v0 jobs (schedule_step e w).
Proof.
  intros Hi Hv0 Hs. destruct w as [ps s]. pose proof (one_version _ _ _ _ Hs) as Hver. cbn in Hver.
  destruct e as [i|d]; cbn [schedule_step fst snd].
  2: { destruct (0 <=? d)%clock eqn:Hd; [|done]. apply qleb_true in Hd. destruct Hs as [Hl Hv Hc Hdist]. cbn in *. split; cbn; [done| |  |done].
       - by apply stored_at_pass.
       - intros i j p Hj Hp. destruct (Hc i j p Hj Hp) as [Hok|?]; [left|by right]. eapply client_ok_undisturbed; [|done]. by eapply undisturbed_pass. }
  destruct (ps !! i) as [p|] eqn:Hp; [|done].
  destruct (jobs !! i) as [j|] eqn:Hj.
  2: { apply lookup_ge_None in Hj. apply lookup_lt_Some in Hp. pose proof (all_clients _ _ _ _ Hs) as Hl. cbn in Hl. lia. }
  destruct (each_client _ _ _ _ Hs i j p Hj Hp) as [(seen & Hcar & Hw)|(_ & c & -> & _)]; [|cbn; by rewrite list_insert_id].
  cbn [snd] in Hw. pose proof (not_committed k j seen p Hcar) as Hnc.
  assert (Hmove : forall p' seen' s', (forall v, stored_at k v s -> stored_at k v s') -> (forall i', i' <> i -> undisturbed k i' s s') ->
            careful k (own_expectation k j) seen' p' ->
            (updates k j = true -> (forall k', watched s' i = Some k' -> k' = k) /\
               (forall raw, seen' = Some raw -> is_Some (watched s' i) -> get s' k = Some raw)) ->
            serial k v0 jobs (<[i := p']> ps, s')).
  { intros p' seen' s' H1 H2 H3 H4. eapply serial_move; [done..|]. by exists seen'. }
  destruct p as [a|k' f| | | | |cs p|k' p|cs f|f]; try done; cbn [step].
  - by rewrite list_insert_id.
  - cbn in Hcar. apply (Hmove _ (if String.eqb k' k then get s k' else seen)); [done|by intros; apply undisturbed_refl| |].
    + apply Hcar. intros ->. destruct Hver as [(raw & Hf & Hst) _]. eexists raw, _. split; [unfold get; by rewrite Hf|]. split; [|done]. lia.
    + intros Hu. destruct (Hw Hu) as [Hk Hr]. split; [done|]. intros raw. destruct (String.eqb_spec k' k) as [->|]; [done|]. apply Hr.
  - destruct Hcar as [Hcs Hp']. apply (Hmove _ seen).
    + intros v. by apply stored_at_run_all.
    + intros. apply undisturbed_run_all.
    + done.
    + intros Hu. destruct (Hw Hu) as [Hk Hr]. split.
      * intros k' Hk'. apply Hk. by apply (watched_run_all cs).
      * intros raw Hraw [k' Hk']. destruct (watched_run_all cs s i k' Hk') as [Hk0 Hf]. assert (k' = k) as -> by by apply Hk.
        unfold get. rewrite Hf. apply (Hr raw Hraw). by eexists.
  - destruct Hcar as [Hk' Hp']. apply (Hmove _ None).
    + intros v. apply stored_at_same. intros x. apply find_watch.
    + intros. by apply undisturbed_watch.
    + done.
    + intros Hu. split; [|done]. intros k0. rewrite watched_watch, decide_True by done. intros [= <-]. apply Hk'. unfold own_expectation. by rewrite Hu.
  - destruct Hcar as [Hfalse Htrue]. destruct (exec i cs s) as [s'|] eqn:He.
    2: { apply (Hmove _ None); [done|by intros; apply undisturbed_refl|done|]. intros Hu. by split; [apply Hw|]. }
    destruct (exec_effect i cs s s' He) as (Hwi & Hf & Hu). unfold own_expectation in *. destruct (updates k j) eqn:Huj.
    + destruct Htrue as (raw & v & payload & c & -> & Hst & Hv & -> & Hpay & Hft & Hvc & Hexp). rewrite Hft.
      destruct (Hw eq_refl) as [Hk Hr]. specialize (Hr raw eq_refl Hwi).
      assert (Hcur : v = (v0 + Z.of_nat (wins k jobs ps))%Z).
      { destruct Hver as [(raw' & Hf' & Hst') _]. unfold get in Hr. rewrite Hf' in Hr. injection Hr as <-. by eapply stores_version. }
      apply (serial_commit k v0 jobs ps s s' i j _ c Hs Hj Hp); [by rewrite Huj|done|lia| | |by intros; apply Hu].
      * destruct Hexp; [by left|right; lia].
      * apply (stored_at_same k _ _ s' Hf). rewrite Hvc, Hcur. apply stored_at_commit; [done|by rewrite <-Hcur|done].
    + destruct Htrue as [Hcs Hft]. apply (Hmove _ None); [|by intros; apply Hu|done|done].
      intros v' Hv'. apply (stored_at_same k _ _ s' Hf). by apply stored_at_run_all.
  - cbn in Hcar. apply (Hmove _ seen); [done|by intros; apply undisturbed_refl|apply Hcar|done].
Qed.

Lemma serial_schedule k v0 jobs es w :
  index <> k -> (1 <= v0)%Z -> serial k v0 jobs w -> serial k v0 jobs (schedule es w).
Proof.
  intros Hi Hv. revert w. induction es as [|e es IH]; intros w Hw; [done|]. cbn [schedule]. by apply IH, serial_step.
Qed.

Lemma wins_start k jobs : (forall j, j ∈ jobs -> updates k j && succeeded (work j) = false) -> wins k jobs (work <$> jobs) = 0.
Proof.
  induction jobs as [|j jobs IH]; intros Hj; [done|]. cbn [fmap list_fmap wins]. rewrite (Hj j) by left. cbn. apply IH. intros j' ?. apply Hj. by right.
Qed.

(** C25: Updates of a session are serialised by its version, for a session stored
    without an expiry whose clients read it and update it without giving it one (they
    may read and update other sessions in any way).  However any number of such
    clients interleave, and however long they take, the version of the session has
    grown by exactly the number of its updates that succeeded; no two of them made the
    same version, and one that expected a version was made from precisely that version.
    Creating the session again is not an update and starts the versions anew
    ([creation_resets_version]). *)
Theorem updates_serialised k v jobs s es :
  index <> k -> (1 <= v)%Z -> (forall j, j ∈ jobs -> keeps_expiry k j) -> (forall i, watched s i = None) ->
  stored_at k v s ->
  let w := schedule es (work <$> jobs, s) in
  stored_at k (v + Z.of_nat (wins k jobs w.1)) w.2 /\
  (forall i j c, jobs !! i = Some j -> updates k j = true -> w.1 !! i = Some (Ret (Updated (Ok tt) c)) ->
     (v < version c <= v + Z.of_nat (wins k jobs w.1))%Z /\ (expectation j = 0%Z \/ version c = (expectation j + 1)%Z)) /\
  (forall i i' j j' c c', i <> i' -> jobs !! i = Some j -> jobs !! i' = Some j' -> updates k j = true -> updates k j' = true ->
     w.1 !! i = Some (Ret (Updated (Ok tt) c)) -> w.1 !! i' = Some (Ret (Updated (Ok tt) c')) -> version c <> version c').
Proof.
  intros Hi Hv Hkeep Hwatch Hst. cbn zeta.
  assert (Hcw : forall j, j ∈ jobs -> careful k (own_expectation k j) None (work j)) by (intros j Hj; apply careful_work; auto).
  assert (Hno : forall j, j ∈ jobs -> updates k j && succeeded (work j) = false) by (intros j Hj; by eapply not_committed, Hcw).
  assert (Hstart : serial k v jobs (work <$> jobs, s)).
  { split; cbn [fst snd]; rewrite ?(wins_start k jobs Hno), ?Z.add_0_r.
    - apply length_fmap.
    - done.
    - intros i j p Hj Hp. rewrite list_lookup_fmap, Hj in Hp. cbn in Hp. injection Hp as <-. left. exists None.
      split; [by apply Hcw, (list_elem_of_lookup_2 _ i)|]. intros _. split; [|done]. intros k'. by rewrite Hwatch.
    - intros i i' j j' c c' _ Hj _ Hp _ Huj _. rewrite list_lookup_fmap, Hj in Hp. cbn in Hp. injection Hp as Hp.
      specialize (Hno j (list_elem_of_lookup_2 _ i _ Hj)). rewrite Huj, Hp in Hno. done. }
  apply (serial_schedule k v jobs es) in Hstart; [|done..]. split; [apply Hstart|]. split.
  - intros i j c Hj Hu Hp. destruct (each_client _ _ _ _ Hstart i j _ Hj Hp) as [(seen & Hcar & _)|(_ & c' & E & Hle & Hexp)].
    + apply not_committed in Hcar. by rewrite Hu in Hcar.
    + by simplify_eq.
  - intros i i' j j' c c' Hne Hj Hj' Hu Hu' Hp Hp'. by apply (distinct _ _ _ _ Hstart i i' j j').
Qed.

End clients.
(** ** One client *)

Section lifetime.
Context `{Payloads} (namespace : string) (ttl_seconds : option Z) {S : Type} `{Redis S}.
Implicit Types (s : S) (k : string).

#[local] Notation key_for := (key_for namespace).

(** The index is a sorted set, or there is none. *)
Definition index_ok s : Prop := find s (index namespace) = None \/ exists l d, find s (index namespace) = Some (VZset l, d).

Lemma zadd_fits s k q : index_ok s -> fits (ZADD (index namespace) k q) (find s (index namespace)) = true.
Proof. by intros [->|(l & d & ->)]. Qed.

Lemma zrem_fits s k : index_ok s -> fits (ZREM (index namespace) k) (find s (index namespace)) = true.
Proof. by intros [->|(l & d & ->)]. Qed.

Lemma index_ok_same s s' : find s' (index namespace) = find s (index namespace) -> index_ok s -> index_ok s'.
Proof. unfold index_ok. by intros ->. Qed.

Lemma find_removed s c : index_ok s -> find (run_all (removal namespace (key_for c)) s) (key_for c) = None.
Proof.
  intros Hi. assert (Hne : index namespace <> key_for c) by (intros E; by eapply key_not_index).
  change (run_all (removal namespace (key_for c)) s) with (run (ZREM (index namespace) (key_for c)) (run (DEL (key_for c)) s)).
  assert (Hx : find (run (DEL (key_for c)) s) (index namespace) = find s (index namespace)) by (by apply find_run_other).
  rewrite find_run_other; [|apply zrem_fits; by eapply index_ok_same|cbn; congruence]. by apply (find_run_self (DEL (key_for c))).
Qed.

(** The key after the transaction that stores a session. *)
Lemma find_stored s c created expires cs :
  index_ok s -> storing namespace c created expires (time s) = Some cs ->
  (match expires ≫= from_iso with Some e => (e <= time s)%Q | None => False end) /\ find (run_all cs s) (key_for c) = None \/
  exists ex, find (run_all cs s) (key_for c) = Some (VString (encode c created expires), ex) /\
    match expires ≫= from_iso with Some e => (time s < e)%Q /\ exists x, ex = Some x /\ (e <= x)%Q | None => ex = None end.
Proof.
  intros Hi. assert (Hne : index namespace <> key_for c) by (intros E; by eapply key_not_index).
  assert (Hput : forall ex q, fits (SET (key_for c) (encode c created expires) ex) (find s (key_for c)) = true ->
    find (run_all [SET (key_for c) (encode c created expires) ex; ZADD (index namespace) (key_for c) q] s) (key_for c) =
      Some (VString (encode c created expires), (fun n => time s + inject_Z n)%Q <$> ex)).
  { intros ex q Hf. change (run_all [?a; ?b] s) with (run b (run a s)).
    assert (Hx : find (run (SET (key_for c) (encode c created expires) ex) s) (index namespace) = find s (index namespace))
      by (by apply find_run_other).
    rewrite find_run_other; [|apply zadd_fits; by eapply index_ok_same|cbn; congruence].
    by rewrite (find_run_self (SET (key_for c) (encode c created expires) ex)). }
  unfold storing, remaining_ttl. destruct (expires ≫= from_iso) as [e|] eqn:Ee; cbn [mbind option_bind].
  - destruct (e - time s <=? 0)%clock eqn:Er.
    + intros [= <-]. left. split; [clock_prop; lra|]. by apply find_removed.
    + destruct expires as [t|]; [|done]. cbn in Ee. rewrite Ee. pose proof (Qle_ceiling (e - time s)) as Hc.
      assert (Hm : (inject_Z (Qceiling (e - time s)) <= inject_Z (Z.max 1 (Qceiling (e - time s))))%Q) by (rewrite <-Zle_Qle; lia).
      destruct (Z.max 1 (Qceiling (e - time s))) as [|n|n] eqn:En; [lia| |lia]. cbn [mbind option_bind]. intros [= <-]. right.
      eexists. split; [by apply Hput|]. cbn. split; [clock_prop; lra|]. eexists. split; [done|]. lra.
  - destruct expires as [t|]; cbn in *; [by rewrite Ee|]. intros [= <-]. right. eexists. split; [by apply Hput|]. done.
Qed.

(** A session lives exactly as long as it was given.  Whatever transaction stored
    it, reading it afterwards gives the session as it was stored, until its expiry
    and not after. *)
Theorem stored_session_lifetime c created expires cs d j s :
  index_ok s -> (0 <= d)%Q -> str_truthy created = true -> storing namespace c created expires (time s) = Some cs ->
  (run_prog j (get_session namespace (session_id c) (tenant_id c)) (pass d (run_all cs s))).1 =
    if over expires (time s + d) then None else Some (read_back c created expires).
Proof.
  intros Hi Hd Hc Hcs. unfold get_session. fold (key_for c). cbn [run_prog].
  assert (Ht : time (pass d (run_all cs s)) = (time s + d)%Q) by (by rewrite time_pass, time_run_all). unfold get.
  destruct (find_stored s c created expires cs Hi Hcs) as [[He Hf]|(ex & Hf & He)].
  - assert (Hov : over expires (time s + d) = true) by (unfold over; destruct (expires ≫= from_iso) as [e|]; [clock_prop; lra|done]).
    rewrite Hov. destruct (find_pass d (run_all cs s) (key_for c) Hd) as [->|[-> _]]; [by rewrite Hf | done].
  - destruct (find_pass d (run_all cs s) (key_for c) Hd) as [->|[-> (v & x & E & Hx)]].
    + rewrite Hf. cbn [run_prog]. rewrite Ht, decode_session, Hc. by destruct (over expires (time s + d)).
    + cbn. assert (over expires (time s + d) = true) as ->; [|done]. rewrite Hf in E. injection E as _ ->. rewrite time_run_all in Hx.
      unfold over. destruct (expires ≫= from_iso) as [e|]; [|done]. destruct He as (_ & y & [= ->] & Hy). clock_prop. lra.
Qed.
End lifetime.

(** ** On concrete input *)

Definition demo_session (sid : string) (tenant : option string) (text : string) (v : Z) : SessionContext :=
  {| session_id := sid; messages := [JStr text]; metadata := []; caller_context := []; tenant_id := tenant; version := v |}.
Definition created_now (sid : string) (tenant : option string) : Table :=
  (run_prog 0 (create "ns" None "u" (Some sid) None tenant) empty_table).2.

(** Two clients read version 1; the second commits while the first is at it. *)
Definition race : list event :=
  [Client 0; Client 0; Client 0; Client 0; Client 1; Client 1; Client 1; Client 1; Client 1; Client 0; Client 0; Client 0; Client 0].
Definition racers : list job :=
  [Update (demo_session "s" None "first" 1) None None; Update (demo_session "s" None "second" 1) None None].

Lemma updates_serialised_witness :
  stored_at "ns" "ns:session:s" (1 + Z.of_nat (wins "ns" "ns:session:s" racers (schedule race (work "ns" None <$> racers, created_now "s" None)).1))
    (schedule race (work "ns" None <$> racers, created_now "s" None)).2.
Proof.
  apply (updates_serialised "ns" None "ns:session:s" 1 racers (created_now "s" None) race).
  - discriminate.
  - done.
  - intros j Hj. repeat (apply elem_of_cons in Hj as [->|Hj]; [by intros _|]). by apply not_elem_of_nil in Hj.
  - reflexivity.
  - split.
    + eexists. split; [vm_compute; reflexivity|]. intros now. eexists _, _. split; [vm_compute; reflexivity|]. reflexivity.
    + right. eexists. vm_compute. reflexivity.
Defined.

(** The conflict that [update] reports has already moved the version of the caller's
    object, so trying again with the same object overwrites what it never read. *)
Example retry_after_conflict_loses_update :
  let w := schedule race (work "ns" None <$> racers, created_now "s" None) in
  exists c, w.1 !! 0 = Some (Ret (Updated (Err (Conflict (conflict c 1 2))) c)) /\ version c = 2%Z /\
    let r := run_prog 0 (update "ns" None c None None) w.2 in
    r.1.1 = Ok tt /\ messages <$> (run_prog 0 (get_session "ns" "s" None) r.2).1 = Some [JStr "first"].
Proof. exists (demo_session "s" None "first" 2). vm_compute. split_and!; reflexivity. Qed.

(** An id without a tenant can name the session of a tenant. *)
Example session_crosses_tenants :
  (fun c => (session_id c, tenant_id c)) <$>
    (run_prog 0 (get_session "ns" "tenant:acme:s" None) (created_now "s" (Some "acme"))).1 = Some ("s", Some "acme").
Proof. vm_compute. reflexivity. Qed.

(** Creating a session that is there replaces it and its version. *)
Example creation_resets_version :
  let s := (run_prog 0 (update "ns" None (demo_session "s" None "x" 1) None None) (created_now "s" None)).2 in
  version <$> (run_prog 0 (get_session "ns" "s" None) s).1 = Some 2%Z /\
  version <$> (run_prog 0 (get_session "ns" "s" None) (run_prog 0 (create "ns" None "u" (Some "s") None None) s).2).1 = Some 1%Z.
Proof. vm_compute. split; reflexivity. Qed.

(** A read that found nothing removes the index entry of a session created since;
    the session is there and never listed. *)
Example read_unlists_new_session :
  let w := schedule [Client 0; Client 1; Client 1; Client 1; Client 0]
             ([prog_bind (get_session "ns" "s" None) (fun _ => Ret tt);
               prog_bind (create "ns" None "u" (Some "s") None None) (fun _ => Ret tt)], empty_table) in
  (run_prog 0 (list_active "ns" None) w.2).1 = [] /\
  session_id <$> (run_prog 0 (get_session "ns" "s" None) w.2).1 = Some "s".
Proof. vm_compute. split; reflexivity. Qed.

(** A listing removes the sessions it found expired, also when they were created
    again in the meantime. *)
Example listing_deletes_new_session :
  let s := (run_prog 0 (create "ns" None "u" (Some "s") (Some 5%Z) None) empty_table).2 in
  let w := schedule [Wait 6; Client 0; Client 0; Client 0; Client 1; Client 1; Client 1; Client 0]
             ([prog_bind (list_active "ns" None) (fun _ => Ret tt);
               prog_bind (create "ns" None "u" (Some "s") None None) (fun _ => Ret tt)], s) in
  (run_prog 0 (get_session "ns" "s" None) w.2).1 = None.
Proof. vm_compute. reflexivity. Qed.

(** Updating a session that is gone stores it without an expiry, whatever the
    provider's default. *)
Example revived_session_never_expires :
  let r := run_prog 0 (update "ns" (Some 60%Z) (demo_session "s" None "x" 0) None None) empty_table in
  r.1.1 = Ok tt /\ is_Some (run_prog 0 (get_session "ns" "s" None) (pass 1000000 r.2)).1.
Proof. vm_compute. split; [reflexivity|]. eexists. reflexivity. Qed.

Lemma stored_session_lifetime_witness :
  (run_prog 0 (get_session "ns" "s" None) (pass 4 (run_all
     [SET "ns:session:s" (encode (demo_session "s" None "x" 1) "t" (Some (iso 5))) (Some 5%Z); ZADD "ns:sessions" "ns:session:s" 5] empty_table))).1 =
  Some (read_back (demo_session "s" None "x" 1) "t" (Some (iso 5))).
Proof.
  rewrite (stored_session_lifetime "ns" (demo_session "s" None "x" 1) "t" (Some (iso 5))
    [SET "ns:session:s" (encode (demo_session "s" None "x" 1) "t" (Some (iso 5))) (Some 5%Z); ZADD "ns:sessions" "ns:session:s" 5] 4 0 empty_table).
  - vm_compute. reflexivity.
  - by left.
  - lra.
  - reflexivity.
  - vm_compute. reflexivity.
Defined.

End RedisSession.
