(* ===== verification/RedisMemory.v ===== *)
(** * Memory in Redis

    [RedisMemoryProvider] of [micro_agent/memory/redis.py]: entries as JSON texts
    under keys with a time to live, an index by the time they were stored, eviction
    of the oldest when the index is full, and stores under [WATCH]. *)

From Stdlib Require Import Ascii.
From S2P Require Import Prelude Json Urls Memory Redis RedisSession.
Import Urls Memory Redis.
Local Open Scope string_scope.

Module RedisMemory.

Section provider.
Context `{Payloads} (namespace : string) (policy : MemoryPolicy).

(** [_prefix], [_index_key] *)
Definition prefix : string := namespace ++ ":memory:".
Definition index : string := namespace ++ ":memory:index".

(** [_scope], [_key] *)
Definition memory_key (key : string) (scope tenant : option string) : string :=
  let tenant_prefix := match tenant with None => "" | Some t => "tenant:" ++ quote "" t ++ ":" end in
  prefix ++ tenant_prefix ++ opt_or scope "agent" ++ ":" ++ key.
Definition key_for (e : MemoryEntry) : string := memory_key (key e) (Some (scope e)) (tenant_id e).

(** [_expiry] *)
Definition memory_expiry (now : Q) : option string := (fun ttl => iso (now + inject_Z ttl)%Q) <$> ttl_seconds policy.

(** [_remaining_ttl] *)
Definition memory_remaining_ttl (expires : option string) (now : Q) : option Z := RedisSession.remaining_ttl expires now.

Definition setdefault (k : string) (o : option json) (d : list (string * json)) : list (string * json) :=
  match o with None | Some JNull => d | Some j => if dmem k d then d else dset k j d end.

(** [_decode]; [None] is an exception. *)
Definition decode (raw : string) : option MemoryEntry :=
  match loads raw with
  | Some (JObj d) =>
      k ← dget "key" d; sc ← dget "scope" d;
      md ← dict_or_empty (dget "metadata" d);
      v ← int_or_one (dget "version" d);
      let md := setdefault "stored_at" (dget "stored_at" d) md in
      let md := setdefault "expires_at" (dget "expires_at" d) md in
      Some {| key := text_of k; Memory.value := default JNull (dget "value" d); scope := text_of sc; metadata := md;
              tenant_id := text_or_none (dget "tenant_id" d); version := v |}
  | _ => None
  end.

(** [_record] *)
Definition record (e : MemoryEntry) (now : Q) (expires : option string) : string :=
  let md := filterb (fun x => negb (memb x.1 ["stored_at"; "expires_at"])) (metadata e) in
  dumps (JObj [("key", JStr (key e)); ("value", Memory.value e); ("scope", JStr (scope e)); ("tenant_id", optional_text (tenant_id e));
               ("version", JInt (or_one (version e))); ("metadata", JObj md); ("stored_at", JStr (iso now));
               ("expires_at", optional_text expires)]).

(** [_expired]: what cannot be read counts as expired. *)
Definition expired (raw : string) (now : Q) : bool :=
  match loads raw with
  | Some (JObj d) =>
      match dget "expires_at" d with
      | None | Some JNull => false
      | Some (JStr t) => match from_iso t with Some e => (e <=? now)%clock | None => true end
      | Some _ => true
      end
  | Some _ => false
  | None => true
  end.

Definition removal (k : string) : list command := [DEL k; ZREM index k].

(** [_remove_key] *)
Definition remove {A} (k : string) (a : A) : prog A := Do (removal k) (Ret a).

Definition stale (now : Q) (e : string * option string) : bool :=
  match e.2 with None => true | Some raw => expired raw now end.

(** [_purge_stale] *)
Definition purge_stale : prog unit :=
  Members index (fun ms =>
    match ms with
    | [] => Ret tt
    | _ =>
        MGet ms.*1 (fun raws => Clock (fun now =>
          match (filterb (stale now) (zip ms.*1 raws)).*1 with
          | [] => Ret tt
          | ks => Do (ks ≫= removal) (Ret tt)
          end))
    end).

(** The loop of [_evict_if_full]: [ZCARD], and [ZPOPMIN] while there is no room. *)
Fixpoint evict (fuel : nat) (max : Z) : prog unit :=
  match fuel with
  | O => Ret tt
  | Datatypes.S fuel =>
      Members index (fun ms =>
        if (max <=? Z.of_nat (length ms))%Z then
          PopMin index (fun o => match o with None => Ret tt | Some k => Do [DEL k] (evict fuel max) end)
        else Ret tt)
  end.

Definition evict_if_full (fuel : nat) : prog unit :=
  match max_entries policy with None => Ret tt | Some max => _ ← purge_stale; evict fuel max end.

(** [prepare]: the new version. *)
Definition prepare (e : MemoryEntry) (expected : Z) (existing : option string) : result StateConflictError Z :=
  let actual := match existing ≫= decode with Some x => or_one (version x) | None => 0%Z end in
  if Z.eqb actual 0 then
    if Z.eqb expected 0 then Ok 1%Z else Err {| conflict_key := key e; expected := expected; actual := 0 |}
  else if negb (Z.eqb expected 0) && negb (Z.eqb expected actual)
  then Err {| conflict_key := key e; expected := expected; actual := actual |}
  else Ok (actual + 1)%Z.

(** [_write_entry], and the transaction of [store]. *)
Definition writing (e : MemoryEntry) (now : Q) : list command :=
  let k := key_for e in
  let expires := memory_expiry now in
  let put ttl := [SET k (record e now expires) ttl; ZADD index k now] in
  match memory_remaining_ttl expires now with
  | Some 0%Z => removal k
  | Some n => put (Some n)
  | None => put None
  end.

(** [store], at most three attempts: the outcome and the caller's object. *)
Fixpoint attempt (fuel n : nat) (e : MemoryEntry) (expected : Z) : prog (result StateConflictError unit * MemoryEntry) :=
  match n with
  | O => Ret (Err {| conflict_key := key e; expected := expected; actual := (-1)%Z |}, e)
  | Datatypes.S n =>
      let k := key_for e in
      Watch k (Get k (fun existing =>
        _ ← match existing with None => evict_if_full fuel | Some _ => Ret tt end;
        match prepare e expected existing with
        | Err c => Ret (Err c, e)
        | Ok v =>
            let e := set_version v e in
            Clock (fun now => Exec (writing e now) (fun ok : bool => if ok then Ret (Ok tt, e) else attempt fuel n e expected))
        end))
  end.

Definition store (fuel : nat) (e : MemoryEntry) (expected_version : option Z) : prog (result StateConflictError unit * MemoryEntry) :=
  attempt fuel 3 e (default (version e) expected_version).

(** [get] *)
Definition get_entry (key : string) (scope tenant : option string) : prog (option MemoryEntry) :=
  let k := memory_key key scope tenant in
  Get k (fun o =>
    match o with
    | None => Do [ZREM index k] (Ret None)
    | Some raw =>
        Clock (fun now =>
          if expired raw now then remove k None
          else match decode raw with Some e => Ret (Some e) | None => remove k None end)
    end).

(** [delete] *)
Definition delete_entry (key : string) (scope tenant : option string) : prog bool :=
  let k := memory_key key scope tenant in
  Get k (fun o => remove k (bool_decide (is_Some o))).

(** [list_entries] *)
Definition readable (now : Q) (e : string * option string) : option MemoryEntry :=
  match e.2 with None => None | Some raw => if expired raw now then None else decode raw end.

Definition list_entries (scope tenant : option string) : prog (list MemoryEntry) :=
  Members index (fun ms =>
    match ms with
    | [] => Ret []
    | _ =>
        MGet ms.*1 (fun raws => Clock (fun now =>
          let l := zip ms.*1 raws in
          let mine := filterb (fun e => bool_decide (tenant_id e = tenant) &&
                                        match scope with None => true | Some s => String.eqb (Memory.scope e) s end)
                        (omap (readable now) l) in
          match (filterb (fun e => negb (bool_decide (is_Some (readable now e)))) l).*1 with
          | [] => Ret mine
          | ks => Do (ks ≫= removal) (Ret mine)
          end))
    end).

(** [search] *)
Definition search (query : string) (scope tenant : option string) (limit : Z) : prog (list MemoryEntry) :=
  if (limit <=? 0)%Z then Ret []
  else
    es ← list_entries scope tenant;
    Ret (take (Z.to_nat limit) (filterb (fun e => str_contains (py_lower query) (py_lower (text_of (Memory.value e)))) es)).

End provider.
(** ** Every entry is indexed *)

Section bound.
Context `{Payloads} (namespace : string) (policy : MemoryPolicy) {S : Type} `{Redis S}.
Implicit Types (s : S) (k : string).

#[local] Notation index := (index namespace).
#[local] Notation prefix := (prefix namespace).
#[local] Notation removal := (removal namespace).

(** A key an entry can have. *)
Definition entry_key k : Prop := String.prefix prefix k = true /\ k <> index.

Lemma memory_key_entry key scope tenant : entry_key (memory_key namespace key scope tenant).
Proof.
  split; [apply prefix_app_self|]. unfold memory_key, index, prefix.
  change (namespace ++ ":memory:index") with (namespace ++ (":memory:" ++ "index")). rewrite <-!text_app_assoc.
  intros E%append_inj_l%append_inj_l. apply (f_equal (lacks ":"%char)) in E. rewrite !lacks_app in E. cbn in E.
  rewrite !andb_false_r in E. destruct tenant; cbn in E; rewrite ?andb_false_r in E; discriminate E.
Qed.

(** The index is a sorted set of entry keys, within the limit, and every entry that
    is stored is in it. *)
Record indexed s : Prop := {
  index_set : find s index = None \/ exists l, find s index = Some (VZset l, None);
  index_keys : forall k, k ∈ dkeys (zrange s index) -> entry_key k;
  index_nodup : NoDup (dkeys (zrange s index));
  index_full : forall k, entry_key k -> find s k <> None -> k ∈ dkeys (zrange s index);
  entry_texts : forall k v d, entry_key k -> find s k = Some (v, d) -> exists t, v = VString t;
  index_bound : forall m, max_entries policy = Some m -> (1 <= m)%Z -> (Z.of_nat (length (zrange s index)) <= m)%Z
}.

Lemma zrange_ext s s' : find s' index = find s index -> zrange s' index = zrange s index.
Proof. unfold zrange. by intros ->. Qed.

Lemma indexed_ext s s' : (forall k, find s' k = find s k) -> indexed s -> indexed s'.
Proof.
  intros Hf [H1 H2 H3 H4 H5 H6]. pose proof (zrange_ext s s' (Hf index)) as Hz.
  split; rewrite ?Hz, ?Hf; auto; intros k; rewrite Hf; eauto.
Qed.

Lemma zset_fits s c : indexed s -> key_of c = index ->
  match c with ZADD _ _ _ | ZREM _ _ => True | _ => False end -> fits c (find s (key_of c)) = true.
Proof. intros Hs -> Hc. destruct (index_set s Hs) as [->|[l ->]]; by destruct c. Qed.

(** Taking a member out of the index whose key holds nothing. *)
Lemma zrange_zrem s k : indexed s -> zrange (run (ZREM index k) s) index = dpop k (zrange s index).
Proof.
  intros Hs. unfold zrange. rewrite (find_run_self (ZREM index k)) by (by apply zset_fits). cbn [key_of].
  destruct (index_set s Hs) as [->|[l ->]]; cbn; [done|]. unfold some_members. by destruct (dpop k l).
Qed.

Lemma index_set_zrem s k : indexed s -> find (run (ZREM index k) s) index = None \/ exists l, find (run (ZREM index k) s) index = Some (VZset l, None).
Proof.
  intros Hs. rewrite (find_run_self (ZREM index k)) by (by apply zset_fits). cbn [key_of].
  destruct (index_set s Hs) as [->|[l ->]]; cbn; [by left|]. unfold some_members. destruct (dpop k l); [by left | right; by eexists].
Qed.

Lemma indexed_zrem s k : find s k = None -> indexed s -> indexed (run (ZREM index k) s).
Proof.
  intros Hk Hs. pose proof (zrange_zrem s k Hs) as Hz. split; rewrite ?Hz.
  - by apply index_set_zrem.
  - intros x [_ Hx]%elem_dkeys_dpop. by apply (index_keys s Hs).
  - apply NoDup_dpop, (index_nodup s Hs).
  - intros x Hx Hf. rewrite find_run_other in Hf; [|by apply zset_fits|apply Hx].
    apply elem_dkeys_dpop. split; [congruence|]. by apply (index_full s Hs).
  - intros x v d Hx. rewrite find_run_other; [|by apply zset_fits|apply Hx]. by apply (entry_texts s Hs).
  - intros m Hm H1. pose proof (index_bound s Hs m Hm H1). pose proof (length_dpop_le k (zrange s index)). lia.
Qed.

Lemma indexed_del s k : k <> index -> indexed s -> indexed (run (DEL k) s).
Proof.
  intros Hne Hs. assert (Hz : zrange (run (DEL k) s) index = zrange s index) by (apply zrange_ext; by apply find_run_other).
  split; rewrite ?Hz; try apply Hs.
  - rewrite find_run_other by done. apply Hs.
  - intros x Hx Hf. apply (index_full s Hs x Hx). rewrite find_run in Hf by done. cbn in Hf. by case_decide.
  - intros x v d Hx Hf. rewrite find_run in Hf by done. cbn in Hf. case_decide; [done|]. by eapply (entry_texts s Hs).
Qed.

Lemma indexed_removal s k : k <> index -> indexed s -> indexed (run_all (removal k) s).
Proof.
  intros Hne Hs. change (run_all (removal k) s) with (run (ZREM index k) (run (DEL k) s)).
  apply indexed_zrem; [by apply (find_run_self (DEL k))|]. by apply indexed_del.
Qed.

Lemma zrange_removal s k : k <> index -> indexed s -> zrange (run_all (removal k) s) index = dpop k (zrange s index).
Proof.
  intros Hne Hs. change (run_all (removal k) s) with (run (ZREM index k) (run (DEL k) s)).
  rewrite zrange_zrem by (by apply indexed_del). f_equal. apply zrange_ext. by apply find_run_other.
Qed.

Lemma indexed_removals s ks : (forall k, k ∈ ks -> k <> index) -> indexed s ->
  indexed (run_all (ks ≫= removal) s) /\ length (zrange (run_all (ks ≫= removal) s) index) <= length (zrange s index).
Proof.
  revert s. induction ks as [|k ks IH]; intros s Hks Hs; [done|].
  assert (Hk : k <> index) by (apply Hks; left).
  change ((k :: ks) ≫= removal) with (removal k ++ (ks ≫= removal))%list. unfold run_all. rewrite foldl_app.
  destruct (IH (run_all (removal k) s)) as [H1 H2]; [by intros k' ?; apply Hks; right|by apply indexed_removal|].
  split; [exact H1|]. etrans; [exact H2|]. rewrite zrange_removal by done. apply length_dpop_le.
Qed.

(** Storing an entry, when it has a place in the index or there is room. *)
Lemma indexed_write s k payload ex q :
  entry_key k -> (match ex with Some n => (0 < n)%Z | None => True end) ->
  (k ∈ dkeys (zrange s index) \/ forall m, max_entries policy = Some m -> (1 <= m)%Z -> (Z.of_nat (length (zrange s index)) < m)%Z) ->
  indexed s ->
  indexed (run_all [SET k payload ex; ZADD index k q] s) /\
  find (run_all [SET k payload ex; ZADD index k q] s) k = Some (VString payload, (fun n => time s + inject_Z n)%Q <$> ex).
Proof.
  intros [Hp Hne] Hex Hroom Hs. change (run_all [?a; ?b] s) with (run b (run a s)). set (s1 := run (SET k payload ex) s).
  assert (Hfit : fits (SET k payload ex) (find s k) = true) by (destruct ex; cbn; [by apply Z.ltb_lt|done]).
  assert (Hi1 : find s1 index = find s index) by (unfold s1; by apply find_run_other).
  assert (Hk1 : find s1 k = Some (VString payload, (fun n => time s + inject_Z n)%Q <$> ex))
    by (unfold s1; by rewrite (find_run_self (SET k payload ex))).
  assert (Hfit2 : fits (ZADD index k q) (find s1 (key_of (ZADD index k q))) = true).
  { cbn [key_of]. rewrite Hi1. destruct (index_set s Hs) as [->|[l ->]]; done. }
  assert (Hs2 : find (run (ZADD index k q) s1) index = Some (VZset (zset_add k q (zrange s index)), None)).
  { rewrite (find_run_self (ZADD index k q)) by done. cbn [key_of]. rewrite Hi1. unfold zrange.
    destruct (index_set s Hs) as [->|[l ->]]; done. }
  assert (Hz : zrange (run (ZADD index k q) s1) index = zset_add k q (zrange s index)) by (unfold zrange at 1; by rewrite Hs2).
  assert (Hmem : forall x, x ∈ dkeys (zset_add k q (zrange s index)) <-> x = k \/ x ∈ dkeys (zrange s index)).
  { intros x. unfold dkeys at 1. rewrite list_elem_of_fmap. split.
    - intros ([y z] & -> & [[= -> ->]|[_ Hin]]%elem_zset_add); [by left|right]. by apply (list_elem_of_fmap_2 fst) in Hin.
    - intros [->|Hin]; [exists (k, q); split; [done|apply elem_zset_add; by left]|].
      destruct (decide (x = k)) as [->|Hxk]; [exists (k, q); split; [done|apply elem_zset_add; by left]|].
      apply list_elem_of_fmap in Hin as ([y z] & -> & Hin). exists (y, z). split; [done|]. apply elem_zset_add. by right. }
  split; [|by rewrite find_run_other by done].
  split; rewrite ?Hz, ?Hs2.
  - right. by eexists.
  - intros x [->|Hx]%Hmem; [done|]. by apply (index_keys s Hs).
  - apply NoDup_zset_add, (index_nodup s Hs).
  - intros x Hx Hf. apply Hmem. destruct (decide (x = k)) as [->|Hxk]; [by left|right].
    rewrite find_run_other in Hf; [|done|apply Hx]. unfold s1 in Hf. rewrite find_run_other in Hf by done. by apply (index_full s Hs).
  - intros x v d Hx. rewrite find_run_other; [|done|apply Hx]. destruct (decide (x = k)) as [->|Hxk].
    + rewrite Hk1. intros [= <- _]. by eexists.
    + unfold s1. rewrite find_run_other by done. by apply (entry_texts s Hs).
  - intros m Hm H1. pose proof (index_bound s Hs m Hm H1) as Hb. unfold zset_add. rewrite sinsert_perm. cbn [length].
    destruct Hroom as [Hin|Hlt].
    + pose proof (elem_dpop_length k (zrange s index) Hin). lia.
    + specialize (Hlt m Hm H1). pose proof (length_dpop_le k (zrange s index)). lia.
Qed.

Lemma indexed_pass d s : (0 <= d)%Q -> indexed s -> indexed (pass d s).
Proof.
  intros Hd Hs. assert (Hi : find (pass d s) index = find s index).
  { destruct (find_pass d s index Hd) as [->|(_ & v & t & E & _)]; [done|]. destruct (index_set s Hs) as [E'|[l E']]; congruence. }
  pose proof (zrange_ext s (pass d s) Hi) as Hz. split; rewrite ?Hz, ?Hi; try apply Hs.
  - intros k Hk Hf. apply (index_full s Hs k Hk). destruct (find_pass d s k Hd) as [E|[E _]]; congruence.
  - intros k v t Hk Hf. destruct (find_pass d s k Hd) as [E|[E _]]; rewrite E in Hf; [by eapply (entry_texts s Hs)|done].
Qed.

(** *** The programs keep it *)

(** The index never grows, except by the entry that is stored. *)
Definition shrunk s s' : Prop := indexed s' /\ length (zrange s' index) <= length (zrange s index).

Lemma shrunk_refl s : indexed s -> shrunk s s.
Proof. by split. Qed.

Lemma shrunk_trans s1 s2 s3 : shrunk s1 s2 -> shrunk s2 s3 -> shrunk s1 s3.
Proof. intros [_ ?] [? ?]. split; [done|lia]. Qed.

Lemma shrunk_removals s ks : (forall k, k ∈ ks -> k <> index) -> indexed s -> shrunk s (run_all (ks ≫= removal) s).
Proof. intros Hk Hs. by apply indexed_removals. Qed.

(** Removing members of the index, whichever they are. *)
Lemma shrunk_members s (raws : list (option string)) (f : string * option string -> bool) : indexed s ->
  shrunk s (run_all ((filterb f (zip (zrange s index).*1 raws)).*1 ≫= removal) s).
Proof.
  intros Hs. apply shrunk_removals; [|done]. intros k ([k' o] & -> & Hin)%list_elem_of_fmap. apply elem_of_filterb in Hin as [Hin _].
  apply elem_of_zip_l in Hin. cbn. by apply (index_keys s Hs).
Qed.

Lemma purge_shrunk i s : indexed s -> shrunk s (run_prog i (purge_stale namespace) s).2.
Proof.
  intros Hs. cbn. destruct (zrange s index) as [|m ms] eqn:Ez; [by apply shrunk_refl|]. rewrite <-Ez. cbn [run_prog].
  pose proof (shrunk_members s (get s <$> (zrange s index).*1) (stale (time s)) Hs) as Hsh.
  destruct ((filterb (stale (time s)) (zip (zrange s index).*1 (get s <$> (zrange s index).*1))).*1); [by apply shrunk_refl | exact Hsh].
Qed.

Lemma pop_is_removal s k x : k <> index -> indexed s ->
  find (run (DEL k) (run (ZREM index k) s)) x = find (run_all (removal k) s) x.
Proof.
  intros Hne Hs. change (run_all (removal k) s) with (run (ZREM index k) (run (DEL k) s)).
  assert (Hd : indexed (run (DEL k) s)) by by apply indexed_del.
  rewrite (find_run (DEL k)), !(find_run (ZREM index k)), (find_run (DEL k)) by (done || by apply zset_fits). cbn [key_of effect].
  destruct (decide (x = k)) as [->|]; [by rewrite decide_False by done|]. case_decide; [|done]. subst.
  destruct (index_set s Hs) as [->|[l ->]]; done.
Qed.

Lemma evict_shrunk fuel max i s : indexed s ->
  shrunk s (run_prog i (evict namespace fuel max) s).2 /\
  (1 <= fuel -> (1 <= max)%Z -> (Z.of_nat (length (zrange s index)) <= max)%Z ->
   (Z.of_nat (length (zrange (run_prog i (evict namespace fuel max) s).2 index)) < max)%Z).
Proof.
  revert s. induction fuel as [|fuel IH]; intros s Hs; [split; [by apply shrunk_refl|lia]|]. cbn [evict run_prog].
  destruct (max <=? Z.of_nat (length (zrange s index)))%Z eqn:Em; cbn [run_prog]; [|split; [by apply shrunk_refl|]; apply Z.leb_gt in Em; done].
  destruct (zrange s index) as [|[k q] ms] eqn:Ez; cbn [run_prog snd fst].
  { split; [by apply shrunk_refl|]. apply Z.leb_le in Em. cbn in Em. lia. }
  assert (Hk : k ∈ dkeys (zrange s index)) by (rewrite Ez; left). assert (Hne : k <> index) by by apply (index_keys s Hs).
  change (run_all [DEL k] ?t) with (run (DEL k) t). set (s2 := run (DEL k) (run (ZREM index k) s)).
  assert (Hf : forall x, find s2 x = find (run_all (removal k) s) x) by (intros x; by apply pop_is_removal).
  assert (Hs2 : indexed s2) by (apply (indexed_ext _ _ Hf); by apply indexed_removal).
  assert (Hlen : length (zrange s2 index) < length (zrange s index)).
  { rewrite (zrange_ext _ _ (Hf index)), zrange_removal by done. by apply elem_dpop_length. }
  destruct (IH s2 Hs2) as [H1 H2]. rewrite <-Ez. split.
  - eapply shrunk_trans; [|exact H1]. split; [done|lia].
  - intros _ Hmax Hle. destruct H1 as [_ H1]. lia.
Qed.

Lemma evict_if_full_room fuel i s : 1 <= fuel -> indexed s ->
  indexed (run_prog i (evict_if_full namespace policy fuel) s).2 /\
  forall m, max_entries policy = Some m -> (1 <= m)%Z -> (Z.of_nat (length (zrange (run_prog i (evict_if_full namespace policy fuel) s).2 index)) < m)%Z.
Proof.
  intros Hfuel Hs. unfold evict_if_full. destruct (max_entries policy) as [max|] eqn:Em; [|by split].
  rewrite run_prog_bind. pose proof (purge_shrunk i s Hs) as Hp. set (s1 := (run_prog i (purge_stale namespace) s).2) in *.
  destruct (evict_shrunk fuel max i s1 (proj1 Hp)) as [H1 H2]. split; [apply H1|]. intros m [= <-] Hm. apply H2; [done..|].
  by apply (index_bound s1 (proj1 Hp)).
Qed.

(** What [store] writes. *)
Lemma writing_ok e now s :
  (key_for namespace e ∈ dkeys (zrange s index) \/
   forall m, max_entries policy = Some m -> (1 <= m)%Z -> (Z.of_nat (length (zrange s index)) < m)%Z) ->
  indexed s -> indexed (run_all (writing namespace policy e now) s).
Proof.
  intros Hroom Hs. assert (Hk : entry_key (key_for namespace e)) by apply memory_key_entry. unfold writing.
  destruct (memory_remaining_ttl (memory_expiry policy now) now) as [n|] eqn:En; [|by apply indexed_write].
  assert (Hn : n = 0%Z \/ (0 < n)%Z).
  { unfold memory_remaining_ttl, RedisSession.RedisSession.remaining_ttl in En. destruct (memory_expiry policy now ≫= from_iso); [|done].
    injection En as <-. case_match; [by left | right; lia]. }
  destruct n as [|n|n]; [apply indexed_removal; [apply Hk|done] | by apply indexed_write | lia].
Qed.

Lemma attempt_indexed fuel n e exp i s : 1 <= fuel -> indexed s -> indexed (run_prog i (attempt namespace policy fuel n e exp) s).2.
Proof.
  intros Hfuel. revert e s. induction n as [|n IH]; intros e s Hs; [done|]. cbn [attempt run_prog].
  set (k := key_for namespace e). set (s1 := watch i k s). assert (Hs1 : indexed s1) by (eapply indexed_ext; [apply find_watch|done]).
  rewrite run_prog_bind.
  set (p := match get s1 k with None => evict_if_full namespace policy fuel | Some _ => Ret tt end).
  set (s2 := (run_prog i p s1).2).
  assert (H2 : indexed s2 /\ (k ∈ dkeys (zrange s2 index) \/
    forall m, max_entries policy = Some m -> (1 <= m)%Z -> (Z.of_nat (length (zrange s2 index)) < m)%Z)).
  { unfold s2, p. destruct (get s1 k) as [raw|] eqn:Hg.
    - split; [done|]. left. apply (index_full s1 Hs1); [apply memory_key_entry|]. unfold get in Hg. by destruct (find s1 k).
    - destruct (evict_if_full_room fuel i s1 Hfuel Hs1). auto. }
  destruct H2 as [Hs2 Hroom]. destruct (prepare e exp (get s1 k)) as [v|c]; [|done]. cbn [run_prog].
  destruct (exec i (writing namespace policy (set_version v e) (time s2)) s2) as [s3|] eqn:Hex; [|by apply IH].
  cbn [run_prog snd]. destruct (RedisSession.RedisSession.exec_effect i _ _ _ Hex) as (_ & Hf & _).
  apply (indexed_ext _ _ Hf). by apply writing_ok.
Qed.

Lemma get_entry_ok key scope tenant i s : indexed s -> indexed (run_prog i (get_entry namespace key scope tenant) s).2.
Proof.
  intros Hs. unfold get_entry. set (k := memory_key namespace key scope tenant). assert (Hk : entry_key k) by apply memory_key_entry.
  assert (Hrem : indexed (run_all (removal k) s)) by (apply indexed_removal; [apply Hk|done]).
  cbn [run_prog]. destruct (get s k) as [raw|] eqn:Hg.
  - cbn [run_prog]. destruct (expired raw (time s)); [exact Hrem|]. by destruct (decode raw).
  - cbn [run_prog snd]. change (run_all [?c] s) with (run c s). apply indexed_zrem; [|done]. unfold get in Hg.
    destruct (find s k) as [[v d]|] eqn:E; [|done]. destruct (entry_texts s Hs k v d Hk E) as [t ->]. done.
Qed.

Lemma delete_entry_ok key scope tenant i s : indexed s -> indexed (run_prog i (delete_entry namespace key scope tenant) s).2.
Proof. intros Hs. apply indexed_removal; [apply memory_key_entry|done]. Qed.

Lemma list_entries_ok scope tenant i s : indexed s -> indexed (run_prog i (list_entries namespace scope tenant) s).2.
Proof.
  intros Hs. cbn. destruct (zrange s index) as [|m ms] eqn:Ez; [done|]. rewrite <-Ez. cbn [run_prog].
  pose proof (shrunk_members s (get s <$> (zrange s index).*1) (fun e => negb (bool_decide (is_Some (readable (time s) e)))) Hs) as [Hsh _].
  destruct ((filterb (fun e => negb (bool_decide (is_Some (readable (time s) e)))) (zip (zrange s index).*1 (get s <$> (zrange s index).*1))).*1);
    [done | exact Hsh].
Qed.

Lemma search_ok query scope tenant limit i s : indexed s -> indexed (run_prog i (search namespace query scope tenant limit) s).2.
Proof.
  intros Hs. unfold search. destruct (limit <=? 0)%Z; [done|]. rewrite run_prog_bind. by apply list_entries_ok.
Qed.

(** *** Clients, one call at a time *)

Inductive call : Type :=
  | CStore (e : MemoryEntry) (expected_version : option Z)
  | CGet (key : string) (scope tenant : option string)
  | CDelete (key : string) (scope tenant : option string)
  | CSearch (query : string) (scope tenant : option string) (limit : Z)
  | CWait (d : Q).

Definition perform (fuel : nat) (s : S) (c : call) : S :=
  match c with
  | CStore e ev => (run_prog 0 (store namespace policy fuel e ev) s).2
  | CGet k sc t => (run_prog 0 (get_entry namespace k sc t) s).2
  | CDelete k sc t => (run_prog 0 (delete_entry namespace k sc t) s).2
  | CSearch q sc t l => (run_prog 0 (search namespace q sc t l) s).2
  | CWait d => if (0 <=? d)%clock then pass d s else s
  end.

Lemma perform_ok fuel s c : 1 <= fuel -> indexed s -> indexed (perform fuel s c).
Proof.
  intros Hf Hs. destruct c as [e ev|k sc t|k sc t|q sc t l|d]; cbn [perform].
  - by apply attempt_indexed.
  - by apply get_entry_ok.
  - by apply delete_entry_ok.
  - by apply search_ok.
  - destruct (0 <=? d)%clock eqn:Hd; [|done]. apply qleb_true in Hd. by apply indexed_pass.
Qed.

(** The limit on entries holds in Redis too.  Whatever calls are made one after
    the other and however time passes, the server never holds more entries than
    [max_entries], because every entry it holds is in the index and the index is
    kept within the limit; one turn of the eviction loop is enough. *)
Theorem redis_memory_bounded fuel s calls :
  1 <= fuel -> indexed s ->
  let s' := foldl (perform fuel) s calls in
  (forall k, entry_key k -> find s' k <> None -> k ∈ (zrange s' index).*1) /\
  (forall m ks, max_entries policy = Some m -> (1 <= m)%Z -> NoDup ks ->
     (forall k, k ∈ ks -> entry_key k /\ find s' k <> None) -> (Z.of_nat (length ks) <= m)%Z).
Proof.
  intros Hf Hs. cbn zeta. assert (Hs' : indexed (foldl (perform fuel) s calls)) by (apply foldl_invariant; [done|]; intros; by apply perform_ok).
  set (s' := foldl (perform fuel) s calls) in *. split; [apply (index_full s' Hs')|].
  intros m ks Hm H1 Hnd Hks. pose proof (index_bound s' Hs' m Hm H1) as Hb.
  assert (Hsub : ks ⊆+ dkeys (zrange s' index)).
  { apply NoDup_submseteq; [done|]. intros k Hk. destruct (Hks k Hk). by apply (index_full s' Hs'). }
  apply submseteq_length in Hsub. unfold dkeys in Hsub. rewrite length_fmap in Hsub. lia.
Qed.

(** *** One entry *)

#[local] Arguments list_or_empty : simpl never.
#[local] Arguments dict_or_empty : simpl never.
#[local] Arguments int_or_one : simpl never.
#[local] Arguments text_or_none : simpl never.
#[local] Arguments optional_text : simpl never.

Lemma or_one_ne v : or_one v <> 0%Z.
Proof. unfold or_one. by destruct (Z.eqb_spec v 0). Qed.

Lemma decode_record e now expires : exists md,
  decode (record e now expires) =
    Some {| key := key e; Memory.value := Memory.value e; scope := scope e; metadata := md; tenant_id := tenant_id e; version := or_one (version e) |}.
Proof.
  unfold decode, record. rewrite loads_dumps. fields. cbn [mbind option_bind]. rewrite dict_or_empty_obj. cbn [mbind option_bind].
  unfold int_or_one. cbn [py_truthy]. destruct (Z.eqb_spec (or_one (version e)) 0) as [E|_]; [by apply or_one_ne in E|]. cbn [negb].
  rewrite int_of_int. cbn [mbind option_bind]. rewrite text_or_none_optional. by eexists.
Qed.

Lemma expired_record e t expires now :
  expired (record e t expires) now = 
    match expires with None => false | Some x => match from_iso x with Some q => (q <=? now)%clock | None => true end end.
Proof. unfold expired, record. rewrite loads_dumps. fields. by destruct expires. Qed.

(** The version a key holds; 0 when there is nothing that can be read. *)
Definition actual_version s (e : MemoryEntry) : Z :=
  match get s (key_for namespace e) ≫= decode with Some x => or_one (version x) | None => 0%Z end.

Lemma prepare_spec e x s : prepare e x (get s (key_for namespace e)) =
  if Z.eqb x 0 || Z.eqb x (actual_version s e) then Ok (actual_version s e + 1)%Z
  else Err {| conflict_key := key e; expected := x; actual := actual_version s e |}.
Proof.
  unfold prepare. fold (actual_version s e). generalize (actual_version s e). intros v.
  destruct (Z.eqb_spec v 0), (Z.eqb_spec x 0), (Z.eqb_spec x v); subst; cbn; done.
Qed.

Definition over_after (d : Q) : bool := match ttl_seconds policy with Some t => (inject_Z t <=? d)%clock | None => false end.

(** The transaction: the policy's time to live in whole seconds. *)
Lemma writing_cases e now :
  let k := key_for namespace e in
  let put ex := [SET k (record e now (memory_expiry policy now)) ex; ZADD index k now] in
  (ttl_seconds policy = None /\ writing namespace policy e now = put None) \/
  exists t, ttl_seconds policy = Some t /\
    ((inject_Z t <= 0)%Q /\ writing namespace policy e now = removal k \/
     exists n, (0 < n)%Z /\ (inject_Z t <= inject_Z n)%Q /\ writing namespace policy e now = put (Some n)).
Proof.
  cbn zeta. unfold writing. set (payload := record e now (memory_expiry policy now)).
  unfold memory_remaining_ttl, RedisSession.RedisSession.remaining_ttl, memory_expiry.
  destruct (ttl_seconds policy) as [t|]; [right; exists t; split; [done|] | by left].
  cbn [fmap option_fmap option_map mbind option_bind]. rewrite from_iso_iso. cbn zeta.
  pose proof (Qle_ceiling (now + inject_Z t - now)) as Hc.
  assert (Hm : (inject_Z (Qceiling (now + inject_Z t - now)) <= inject_Z (Z.max 1 (Qceiling (now + inject_Z t - now))))%Q)
    by (rewrite <-Zle_Qle; lia).
  destruct (now + inject_Z t - now <=? 0)%clock eqn:Er; [left; split; [clock_prop; lra|done]|]. right.
  destruct (Z.max 1 (Qceiling (now + inject_Z t - now))) as [|n|n] eqn:En; [lia| |lia].
  exists (Z.pos n). split; [lia|]. split; [lra|done].
Qed.

Lemma find_removal s k : entry_key k -> indexed s -> find (run_all (removal k) s) k = None.
Proof.
  intros Hk Hs. change (run_all (removal k) s) with (run (ZREM index k) (run (DEL k) s)).
  rewrite find_run_other; [by apply (find_run_self (DEL k))| |apply Hk].
  apply zset_fits; [|done|done]. apply indexed_del; [apply Hk|done].
Qed.

(** Reading a key after the transaction of [store]. *)
Lemma written_reads_back e s s' j d :
  (0 <= d)%Q -> indexed s -> time s' = time s ->
  find s' (key_for namespace e) = find (run_all (writing namespace policy e (time s)) s) (key_for namespace e) ->
  (key_for namespace e ∈ dkeys (zrange s index) \/
   forall m, max_entries policy = Some m -> (1 <= m)%Z -> (Z.of_nat (length (zrange s index)) < m)%Z) ->
  exists md, (run_prog j (get_entry namespace (key e) (Some (scope e)) (tenant_id e))
                (pass d s')).1 =
    if over_after d then None
    else Some {| key := key e; Memory.value := Memory.value e; scope := scope e; metadata := md; tenant_id := tenant_id e; version := or_one (version e) |}.
Proof.
  intros Hd Hs Hts Hfs Hroom. unfold get_entry. fold (key_for namespace e). set (k := key_for namespace e) in *.
  assert (Hk : entry_key k) by apply memory_key_entry.
  assert (Ht : time (pass d s') = (time s + d)%Q) by (by rewrite time_pass, Hts).
  set (payload := record e (time s) (memory_expiry policy (time s))).
  destruct (decode_record e (time s) (memory_expiry policy (time s))) as [md Hmd]. exists md.
  assert (Hput : forall ex, (match ex with Some n => (0 < n)%Z | None => True end) ->
    find (run_all [SET k payload ex; ZADD index k (time s)] s) k = Some (VString payload, (fun n => time s + inject_Z n)%Q <$> ex))
    by (intros ex Hex; by apply indexed_write).
  assert (Hexp : expired payload (time s + d) = over_after d).
  { unfold payload. rewrite expired_record. unfold memory_expiry, over_after. destruct (ttl_seconds policy) as [t|]; [|done].
    cbn. rewrite from_iso_iso. destruct (inject_Z t <=? d)%clock eqn:E; clock_prop; lra. }
  assert (Hcase : find (pass d s') k = None /\ over_after d = true \/ exists ex, find (pass d s') k = Some (VString payload, ex)).
  { unfold over_after. revert Hfs. pose proof (find_pass d s' k Hd) as Hp.
    destruct (writing_cases e (time s)) as [[-> ->]|(t & -> & [[Ht0 ->]|(n & Hn & Htn & ->)])]; fold k payload; intros Hfs.
    - right. rewrite (Hput None I) in Hfs. rewrite Hfs in Hp. destruct Hp as [->|(_ & v & x & E & _)]; [by eexists|done].
    - left. split; [|clock_prop; lra]. rewrite find_removal in Hfs by done. rewrite Hfs in Hp. by destruct Hp as [->|[-> _]].
    - rewrite (Hput (Some n) Hn) in Hfs. rewrite Hfs in Hp. destruct Hp as [->|(-> & v & x & E & Hx)].
      + right. by eexists.
      + left. split; [done|]. cbn in E. injection E as _ <-. rewrite Hts in Hx. clock_prop. lra. }
  cbn [run_prog]. unfold get. destruct Hcase as [[-> ->]|[ex ->]]; [done|]. cbn [run_prog]. rewrite Ht, Hexp.
  destruct (over_after d); [done|]. unfold payload. by rewrite Hmd.
Qed.

(** Evicting leaves the watch on a key with nothing in it. *)
Definition still_watched (i : nat) k s : Prop := watched s i = Some k /\ find s k = None.

Lemma still_watched_run i k c s :
  k <> index -> indexed s -> (exists x, c = DEL x) \/ (exists x, c = ZREM index x) -> still_watched i k s -> still_watched i k (run c s).
Proof.
  intros Hne Hs Hc [Hw Hf].
  assert (Hor : key_of c <> k \/ c = DEL k /\ find s k = None).
  { destruct Hc as [[x ->]|[x ->]]; [destruct (decide (x = k)) as [->|]|]; cbn; auto. }
  assert (Hfit : fits c (find s (key_of c)) = true) by (destruct Hc as [[x ->]|[x ->]]; [done|by apply zset_fits]).
  split; [by apply watched_other|]. rewrite find_run by done. case_decide; [|done]. subst. destruct Hc as [[x ->]|[x ->]]; [done|by destruct Hne].
Qed.

Lemma still_watched_removals i k ks s :
  k <> index -> (forall x, x ∈ ks -> x <> index) -> indexed s -> still_watched i k s -> still_watched i k (run_all (ks ≫= removal) s).
Proof.
  intros Hne. revert s. induction ks as [|x ks IH]; intros s Hks Hs Hw; [done|].
  assert (Hx : x <> index) by (apply Hks; left).
  change ((x :: ks) ≫= removal) with (removal x ++ (ks ≫= removal))%list. unfold run_all. rewrite foldl_app.
  apply (IH (run_all (removal x) s)); [by intros y ?; apply Hks; right|by apply indexed_removal|].
  change (run_all (removal x) s) with (run (ZREM index x) (run (DEL x) s)).
  apply still_watched_run; [done|by apply indexed_del|eauto|]. apply still_watched_run; eauto.
Qed.

Lemma purge_watched i j k s : k <> index -> indexed s -> still_watched i k s -> still_watched i k (run_prog j (purge_stale namespace) s).2.
Proof.
  intros Hne Hs Hw. cbn. destruct (zrange s index) as [|m ms] eqn:Ez; [done|]. rewrite <-Ez. cbn [run_prog].
  assert (Hks : forall f x, x ∈ (filterb f (zip (zrange s index).*1 (get s <$> (zrange s index).*1))).*1 -> x <> index).
  { intros f x ([y o] & -> & Hin)%list_elem_of_fmap. apply elem_of_filterb in Hin as [Hin _]. apply elem_of_zip_l in Hin.
    by apply (index_keys s Hs). }
  specialize (Hks (stale (time s))). revert Hks.
  destruct ((filterb (stale (time s)) (zip (zrange s index).*1 (get s <$> (zrange s index).*1))).*1) as [|x xs]; [done|].
  intros Hks. cbn [run_prog snd].
  by apply (still_watched_removals i k (x :: xs)).
Qed.

Lemma evict_watched fuel max i j k s : k <> index -> indexed s -> still_watched i k s ->
  still_watched i k (run_prog j (evict namespace fuel max) s).2.
Proof.
  intros Hne. revert s. induction fuel as [|fuel IH]; intros s Hs Hw; [done|]. cbn [evict run_prog].
  destruct (max <=? Z.of_nat (length (zrange s index)))%Z; cbn [run_prog]; [|done].
  destruct (zrange s index) as [|[x q] ms] eqn:Ez; cbn [run_prog snd fst]; [done|].
  assert (Hx : x <> index) by (apply (index_keys s Hs); rewrite Ez; left).
  change (run_all [DEL x] ?t) with (run (DEL x) t).
  assert (Hf : forall y, find (run (DEL x) (run (ZREM index x) s)) y = find (run_all (removal x) s) y) by (intros y; by apply pop_is_removal).
  apply IH; [apply (indexed_ext _ _ Hf); by apply indexed_removal|].
  destruct (still_watched_run i k (ZREM index x) s Hne Hs ltac:(eauto) Hw) as [Hw1 Hf1].
  split; [|rewrite find_run by done; by case_decide].
  apply watched_other; [done|]. destruct (decide (x = k)) as [->|]; auto.
Qed.

(** An entry is stored if and only if its version is the one that is current, or
    none is expected; then it reads back, with the next version, until its time is
    over.  Otherwise the conflict is reported and an entry that is there is left
    alone. *)
Theorem stored_entry_reads_back fuel e ev s d j :
  1 <= fuel -> indexed s -> (0 <= d)%Q ->
  let expected := default (version e) ev in
  let actual := actual_version s e in
  let r := run_prog 0 (store namespace policy fuel e ev) s in
  if Z.eqb expected 0 || Z.eqb expected actual
  then r.1 = (Ok tt, set_version (actual + 1) e) /\
       exists md, (run_prog j (get_entry namespace (key e) (Some (scope e)) (tenant_id e)) (pass d r.2)).1 =
         if over_after d then None
         else Some {| key := key e; Memory.value := Memory.value e; scope := scope e; metadata := md; tenant_id := tenant_id e;
                      version := or_one (actual + 1) |}
  else r.1 = (Err {| conflict_key := key e; expected := expected; actual := actual |}, e) /\
       (get s (key_for namespace e) <> None -> forall k, find r.2 k = find s k).
Proof.
  intros Hfuel Hs Hd. cbn zeta. set (k := key_for namespace e). set (v := actual_version s e). set (x := default (version e) ev).
  unfold store. fold x. cbn [attempt run_prog]. fold k. set (s1 := watch 0 k s).
  assert (Hf1 : forall y, find s1 y = find s y) by (intros y; apply find_watch).
  assert (Hs1 : indexed s1) by by apply (indexed_ext s).
  assert (Hg : get s1 k = get s k) by (unfold get; by rewrite Hf1). rewrite Hg, run_prog_bind.
  set (p := match get s k with None => evict_if_full namespace policy fuel | Some _ => Ret tt end).
  set (s2 := (run_prog 0 p s1).2).
  rewrite (prepare_spec e x s : prepare e x (get s k) = if Z.eqb x 0 || Z.eqb x v then _ else _).
  fold v. destruct (Z.eqb x 0 || Z.eqb x v).
  2: { split; [done|]. intros Hne y. cbn [run_prog snd]. unfold s2, p. destruct (get s k); [apply Hf1|done]. }
  cbn [run_prog].
  assert (H2 : indexed s2 /\ (k ∈ dkeys (zrange s2 index) \/
    forall m, max_entries policy = Some m -> (1 <= m)%Z -> (Z.of_nat (length (zrange s2 index)) < m)%Z)).
  { unfold s2, p. destruct (get s k) as [raw|] eqn:Hgk.
    - split; [done|]. left. apply (index_full s1 Hs1); [apply memory_key_entry|]. rewrite Hf1. unfold get in Hgk. by destruct (find s k).
    - destruct (evict_if_full_room fuel 0 s1 Hfuel Hs1). auto. }
  destruct H2 as [Hs2 Hroom].
  assert (Hkey : k <> index) by apply (memory_key_entry (key e) (Some (scope e)) (tenant_id e)).
  assert (Hw : watched s2 0 = Some k).
  { assert (Hw1 : watched s1 0 = Some k) by (unfold s1; by rewrite watched_watch, decide_True).
    unfold s2, p. destruct (get s k) as [raw|] eqn:Hgk; [done|]. unfold evict_if_full.
    destruct (max_entries policy) as [max|]; [|done]. rewrite run_prog_bind.
    assert (Hnone : find s1 k = None).
    { rewrite Hf1. unfold get in Hgk. destruct (find s k) as [[y t]|] eqn:E; [|done].
      destruct (entry_texts s Hs k y t) as [z ->]; [apply memory_key_entry|done|done]. }
    apply evict_watched; [done|by apply purge_shrunk|]. by apply purge_watched. }
  destruct (exec_watched 0 (writing namespace policy (set_version (v + 1) e) (time s2)) s2) as (s3 & -> & Ht3 & Hf3 & _); [by rewrite Hw|].
  cbn [run_prog fst snd]. split; [done|].
  by apply (written_reads_back (set_version (v + 1) e) s2 s3 j d).
Qed.

End bound.

(** ** On concrete input *)

Definition bounded_policy (max : Z) (ttl : option Z) : MemoryPolicy := {| auto_store := false; max_entries := Some max; ttl_seconds := ttl |}.
Definition demo_entry (k : string) (text : string) (v : Z) (tenant : option string) : MemoryEntry :=
  {| key := k; Memory.value := JStr text; scope := "agent"; metadata := []; tenant_id := tenant; version := v |}.
Definition storing_demo (policy : MemoryPolicy) (e : MemoryEntry) : prog (result StateConflictError unit * MemoryEntry) :=
  store "ns" policy 1 e None.
Definition kept (es : list MemoryEntry) : list (string * json) := (fun e => (key e, Memory.value e)) <$> es.

Lemma indexed_empty policy : indexed "ns" policy empty_table.
Proof. split; cbn; try done; [by left | by intros k Hk%not_elem_of_nil | apply NoDup_nil_2 | intros; lia]. Qed.

Lemma redis_memory_bounded_witness :
  let s := foldl (perform "ns" (bounded_policy 1 None) 1) empty_table
             [CStore (demo_entry "a" "x" 0 None) None; CWait 1; CStore (demo_entry "b" "y" 0 None) None] in
  (forall k, entry_key "ns" k -> find s k <> None -> k ∈ (zrange s (index "ns")).*1) /\
  kept (run_prog 0 (list_entries "ns" None None) s).1 = [("b", JStr "y")].
Proof.
  split; [|vm_compute; reflexivity].
  apply (redis_memory_bounded "ns" (bounded_policy 1 None) 1 empty_table); [done|apply indexed_empty].
Defined.

Lemma stored_entry_reads_back_witness :
  let e := demo_entry "a" "x" 0 (Some "acme") in
  exists md, (run_prog 0 (get_entry "ns" "a" (Some "agent") (Some "acme"))
     (pass 3 (run_prog 0 (store "ns" (bounded_policy 1 (Some 5%Z)) 1 e None) empty_table).2)).1 =
  Some {| key := "a"; Memory.value := JStr "x"; scope := "agent"; metadata := md; tenant_id := Some "acme"; version := 1 |}.
Proof.
  refine (proj2 (stored_entry_reads_back "ns" (bounded_policy 1 (Some 5%Z)) 1 (demo_entry "a" "x" 0 (Some "acme")) None empty_table 3 0 _ _ _)).
  - done.
  - apply indexed_empty.
  - lra.
Defined.

(** The oldest entry makes room before the version is looked at: a store that is
    refused has evicted one all the same. *)
Example refused_store_evicts :
  let p := bounded_policy 1 None in
  let s := (run_prog 0 (storing_demo p (demo_entry "a" "x" 0 None)) empty_table).2 in
  let r := run_prog 0 (storing_demo p (demo_entry "b" "y" 7 None)) s in
  r.1.1 = Err {| conflict_key := "b"; expected := 7; actual := 0 |} /\
  (run_prog 0 (list_entries "ns" None None) r.2).1 = [].
Proof. vm_compute. split; reflexivity. Qed.

(** Two clients that both find room store beyond the limit: the index is not watched. *)
Example concurrent_stores_exceed_bound :
  let p := bounded_policy 1 None in
  let w := schedule ((replicate 5 (Client 0)) ++ (replicate 5 (Client 1)) ++ [Client 0; Client 1])%list
             ([storing_demo p (demo_entry "a" "x" 0 None); storing_demo p (demo_entry "b" "y" 0 None)], empty_table) in
  kept (run_prog 0 (list_entries "ns" None None) w.2).1 = [("a", JStr "x"); ("b", JStr "y")].
Proof. vm_compute. reflexivity. Qed.

(** A scope without a tenant can name the entries of a tenant. *)
Example scope_crosses_tenants :
  let s := (run_prog 0 (storing_demo default_policy (demo_entry "a" "x" 0 (Some "acme"))) empty_table).2 in
  tenant_id <$> (run_prog 0 (get_entry "ns" "agent:a" (Some "tenant:acme") None) s).1 = Some (Some "acme").
Proof. vm_compute. reflexivity. Qed.

(** A store that lost a race is tried again with the version it took for itself. *)
Example conflicting_store_moves_version :
  let s := (run_prog 0 (storing_demo default_policy (demo_entry "a" "x" 0 None)) empty_table).2 in
  let e := demo_entry "a" "mine" 1 None in
  let w := schedule ((replicate 3 (Client 0)) ++ (replicate 5 (Client 1)) ++ (replicate 3 (Client 0)))%list
             ([storing_demo default_policy e; storing_demo default_policy (demo_entry "a" "theirs" 1 None)], s) in
  exists e', w.1 !! 0 = Some (Ret (Err {| conflict_key := "a"; expected := 1; actual := 2 |}, e')) /\
    let r := run_prog 0 (storing_demo default_policy e') w.2 in
    r.1.1 = Ok tt /\ kept (run_prog 0 (list_entries "ns" None None) r.2).1 = [("a", JStr "mine")].
Proof. exists (demo_entry "a" "mine" 2 None). vm_compute. split_and!; reflexivity. Qed.

End RedisMemory.
