(* ===== verification/GatewayState.v ===== *)
(** * Resilience state shared by gateways

    [cloud/gateway_state.py]: rate limits, bulkheads and circuits that several
    gateways keep in one Redis.  Each operation is one Lua script, which the server
    runs without anything in between, so it is a function of the server's state and
    a history is a sequence of such operations by any workers, commands on other
    keys, and time.  Each kind of key is related to what a single process would
    keep. *)

From Stdlib Require Import Ascii.
From S2P Require Import Prelude Json Urls Gateway Redis RedisOps.
Import Urls Redis.
Local Open Scope string_scope.

Module GatewayState.

(** Lua's [tonumber], and the text in which a script hands a number to Redis (which
    writes it with 17 digits, so that it reads back as itself). *)
Class Numbers : Type := {
  number_text : Q -> string;
  tonumber : string -> option Q;
  tonumber_text : forall q, tonumber (number_text q) = Some q
}.

#[export] Instance Plain_numbers : Numbers := {|
  number_text := plain_iso; tonumber := plain_from_iso; tonumber_text := plain_from_iso_iso
|}.

Section scripts.
Context `{Numbers} {S : Type} `{Redis S}.
Implicit Types (s : S) (k : string).

(** The fields of a hash; [None] is WRONGTYPE, which ends the script. *)
Definition hash s k : option (list (string * string)) :=
  match find s k with None => Some [] | Some (VHash l, _) => Some l | Some _ => None end.

(** [tonumber(redis.call('HGET', key, field) or d)] in an arithmetic expression. *)
Definition number (l : list (string * string)) (field : string) (d : Q) : option Q :=
  match dget field l with None => Some d | Some t => tonumber t end.

(** [_RATE_LIMIT_SCRIPT] *)
Definition rate_limit_script k (rate ttl : Z) s : option (bool * S) :=
  if (rate <=? 0)%Z then Some (false, s)
  else
    l ← hash s k;
    tokens ← number l "tokens" (inject_Z rate);
    updated ← number l "updated" (time s);
    let tokens := Qmin (inject_Z rate) (tokens + Qmax 0 (time s - updated) * inject_Z rate / 60) in
    let allowed := (1 <=? tokens)%clock in
    let tokens := if allowed then (tokens - 1)%Q else tokens in
    Some (allowed, run_all [HSET k [("tokens", number_text tokens); ("updated", number_text (time s))]; EXPIRE k ttl] s).

(** [_CIRCUIT_AVAILABLE_SCRIPT] *)
Definition circuit_available_script k (token : string) (ttl : Z) s : option (bool * S) :=
  l ← hash s k;
  open_until ← number l "open_until" 0;
  let probe := default "" (dget "probe" l) in
  if (time s <? open_until)%clock then Some (false, s)
  else if (0 <? open_until)%clock && str_truthy probe then Some (false, s)
  else
    let s := if (0 <? open_until)%clock then run (HSET k [("probe", token)]) s else s in
    Some (true, run (EXPIRE k ttl) s).

(** [_CIRCUIT_FAILURE_SCRIPT] *)
Definition circuit_failure_script k (threshold : Z) (cooldown : Q) (ttl : Z) s : option (Q * S) :=
  l ← hash s k;
  n ← number l "failures" 0;
  open_until ← number l "open_until" 0;
  let failures := (n + 1)%Q in
  let fields := if (inject_Z threshold <=? failures)%clock
                then [("failures", number_text failures); ("open_until", number_text (time s + cooldown)); ("probe", "")]
                else [("failures", number_text failures)] in
  Some (failures, run_all [HSET k fields; EXPIRE k ttl] s).

(** [_BULKHEAD_ACQUIRE_SCRIPT] *)
Definition bulkhead_acquire_script k (limit : Z) (lease : Q) (token : string) s : option (bool * S) :=
  if negb (fits (ZREM k token) (find s k)) then None
  else
    let s := run (ZREMRANGEBYSCORE k (time s)) s in
    if (limit <=? Z.of_nat (length (zrange s k)))%Z then Some (false, s)
    else Some (true, run_all [ZADD k token (time s + lease); EXPIRE k (Qceiling (lease + 1))] s).
End scripts.

(** ** [RedisGatewayStateStore] *)

Record RedisGatewayStateStore : Type := { prefix : string; rate_limit_ttl : Z; bulkhead_lease : Q }.

(** [__init__] *)
Definition new_state_store (urlsplit : string -> option url) (endpoint namespace : string) (ttl : Z) (lease : Q)
  : result string RedisGatewayStateStore :=
  if negb (validate_endpoint urlsplit endpoint) then Err RedisOps.invalid_endpoint
  else if negb (namespace_ok namespace) then Err RedisOps.invalid_namespace
  else if (ttl <? 1)%Z then Err "rate_limit_ttl_seconds must be positive"
  else if (lease <=? 0)%clock then Err "bulkhead_lease_seconds must be positive"
  else Ok {| prefix := namespace ++ ":gateway:"; rate_limit_ttl := ttl; bulkhead_lease := lease |}.

Section store.
Context `{Numbers} (store : RedisGatewayStateStore) {S : Type} `{Redis S}.
Implicit Types (s : S).

(** [_key] *)
Definition state_key (kind v : string) : string := prefix store ++ kind ++ ":" ++ quote "" v.

(** [max(60, int(cooldown_seconds * 2) + 1)] *)
Definition circuit_ttl (cooldown : Q) : Z := Z.max 60 (Qfloor (cooldown * 2) + 1).

(** The operations; [None] is an exception of the client. *)
Definition allow_rate_limit (key : string) (rate : Z) s : option (bool * S) :=
  rate_limit_script (state_key "rate" key) rate (rate_limit_ttl store) s.

Definition circuit_available (uuid key : string) (cooldown : Q) s : option (bool * S) :=
  circuit_available_script (state_key "circuit" key) uuid (circuit_ttl cooldown) s.

Definition record_success (key : string) s : S := run (DEL (state_key "circuit" key)) s.

Definition record_failure (key : string) (threshold : Z) (cooldown : Q) s : option S :=
  snd <$> circuit_failure_script (state_key "circuit" key) threshold cooldown (circuit_ttl cooldown) s.

Definition try_acquire_bulkhead (uuid key : string) (limit : Z) s : option (option string * S) :=
  (fun r : bool * S => (if r.1 then Some uuid else None, r.2)) <$>
    bulkhead_acquire_script (state_key "bulkhead" key) limit (bulkhead_lease store) uuid s.

Definition release_bulkhead (key lease : string) s : S := run (ZREM (state_key "bulkhead" key) lease) s.

(** What is kept for one key is not kept for another. *)
Lemma state_key_inj kind v kind' v' :
  lacks ":"%char kind = true -> lacks ":"%char kind' = true -> state_key kind v = state_key kind' v' -> kind = kind' /\ v = v'.
Proof.
  intros Hk Hk' E%append_inj_l. change (":" ++ quote "" v) with (String ":" (quote "" v)) in E.
  change (":" ++ quote "" v') with (String ":" (quote "" v')) in E.
  apply lacks_split in E as [-> E]; [|done|done]. split; [done|]. by apply quote_all_inj.
Qed.
End store.

(** ** Histories

    What workers do to one key, interleaved with everything else. *)

Inductive event (Op : Type) : Type :=
  | Act (o : Op)
  | Pass (d : Q)
  | Elsewhere (c : command).
Arguments Act {Op} o.
Arguments Pass {Op} d.
Arguments Elsewhere {Op} c.

Fixpoint elapsed {Op} (es : list (event Op)) : Q :=
  match es with
  | [] => 0%Q
  | Pass d :: es => if (0 <=? d)%clock then (d + elapsed es)%Q else elapsed es
  | _ :: es => elapsed es
  end.

Lemma elapsed_nonneg {Op} (es : list (event Op)) : (0 <= elapsed es)%Q.
Proof. induction es as [|[o|d|c] es IH]; cbn [elapsed]; [lra|done| |done]. destruct (0 <=? d)%clock eqn:E; clock_prop; lra. Qed.

(** What the operations answer when the state is kept alone, in one process. *)
Fixpoint alone {Op Ans L : Type} (step : Q -> Op -> L -> Ans * L) (es : list (event Op)) (now : Q) (l : L) : list Ans :=
  match es with
  | [] => []
  | Act o :: es => let '(a, l) := step now o l in a :: alone step es now l
  | Pass d :: es => alone step es (if (0 <=? d)%clock then (now + d)%Q else now) l
  | Elsewhere _ :: es => alone step es now l
  end.

Section histories.
Context {S : Type} `{Redis S} (k : string) {Op Ans L : Type} (act : Op -> S -> option (Ans * S)).
Implicit Types (s : S).

Definition else_step (c : command) s : S :=
  if negb (String.eqb (key_of c) k) && fits c (find s (key_of c)) then run c s else s.

(** What they answer on the server; [None] is an exception. *)
Fixpoint shared (es : list (event Op)) s : list (option Ans) :=
  match es with
  | [] => []
  | Act o :: es => match act o s with Some (a, s) => Some a :: shared es s | None => None :: shared es s end
  | Pass d :: es => shared es (if (0 <=? d)%clock then pass d s else s)
  | Elsewhere c :: es => shared es (else_step c s)
  end.

Lemma else_step_same c s : time (else_step c s) = time s /\ find (else_step c s) k = find s k.
Proof.
  unfold else_step. destruct (String.eqb_spec (key_of c) k) as [|Hne]; [done|]. destruct (fits c (find s (key_of c))) eqn:Hf; [|done].
  split; [apply time_run|]. by apply find_run_other.
Qed.

(** The server's key stands for the local state, with so much time still to pass. *)
Context (step : Q -> Op -> L -> Ans * L) (R : Q -> L -> S -> Prop).
Hypothesis R_act : forall o r l s, R r l s ->
  exists s', act o s = Some ((step (time s) o l).1, s') /\ time s' = time s /\ R r (step (time s) o l).2 s'.
Hypothesis R_pass : forall d r l s, (0 <= d)%Q -> (0 <= r)%Q -> R (d + r)%Q l s -> R r l (pass d s).
Hypothesis R_else : forall r l s s', time s' = time s -> find s' k = find s k -> R r l s -> R r l s'.

Lemma simulation es l s : R (elapsed es) l s -> shared es s = Some <$> alone step es (time s) l.
Proof.
  revert l s. induction es as [|e es IH]; intros l s HR; [done|]. destruct e as [o|d|c]; cbn [shared alone elapsed] in *.
  - destruct (R_act o _ _ _ HR) as (s' & -> & Ht & HR'). destruct (step (time s) o l) as [a l']. cbn in *.
    f_equal. rewrite (IH l' s' HR'). by rewrite Ht.
  - destruct (0 <=? d)%clock eqn:Hd; [|by apply IH]. apply qleb_true in Hd.
    rewrite (IH l) by (apply R_pass; [done|apply elapsed_nonneg|done]). by rewrite time_pass.
  - destruct (else_step_same c s) as [Ht Hf]. rewrite (IH l) by (by eapply R_else). by rewrite Ht.
Qed.
End histories.

(** ** A shared bucket is one bucket *)

Section rate.
Context `{Numbers} {S : Type} `{Redis S} (k : string) (rate ttl : Z).
Implicit Types (s : S) (b : Gateway.TokenBucket).
Hypothesis rate_positive : (0 < rate)%Z.
Hypothesis ttl_covers_refill : (60 <= ttl)%Z.

Definition take_token (now : Q) (_ : unit) b : bool * Gateway.TokenBucket := Gateway.try_take b now.

(** By now the bucket would be full. *)
Definition full b (now : Q) : Prop :=
  (inject_Z rate <= Gateway.tokens b + (now - Gateway.updated b) * (inject_Z rate / 60))%Q.

Definition bucket_at b s : Prop :=
  (exists l t u d, find s k = Some (VHash l, Some d) /\
     dget "tokens" l = Some (number_text t) /\ dget "updated" l = Some (number_text u) /\
     t == Gateway.tokens b /\ u == Gateway.updated b /\ d == Gateway.updated b + inject_Z ttl)%Q \/
  find s k = None /\ full b (time s).

Record bucket_rep (r : Q) b s : Prop := {
  rep_capacity : Gateway.capacity b = inject_Z rate;
  rep_tokens : (0 <= Gateway.tokens b)%Q;
  rep_updated : (Gateway.updated b <= time s)%Q;
  rep_at : bucket_at b s
}.

Lemma rate_q : (0 < inject_Z rate)%Q.
Proof. change 0%Q with (inject_Z 0). by rewrite <-Zlt_Qlt. Qed.

Lemma full_later b now now' : (now <= now')%Q -> full b now -> full b now'.
Proof.
  unfold full. intros Hn Hf. pose proof rate_q.
  assert ((now - Gateway.updated b) * (inject_Z rate / 60) <= (now' - Gateway.updated b) * (inject_Z rate / 60))%Q; [|lra].
  apply Qmult_le_compat_r; [lra|]. apply Qle_shift_div_l; lra.
Qed.

Lemma full_after_ttl b now : (0 <= Gateway.tokens b)%Q -> (Gateway.updated b + inject_Z ttl <= now)%Q -> full b now.
Proof.
  intros Ht Hn. unfold full. pose proof rate_q.
  assert (60 <= inject_Z ttl)%Q by (change 60%Q with (inject_Z 60); by rewrite <-Zle_Qle).
  assert (60 * (inject_Z rate / 60) <= (now - Gateway.updated b) * (inject_Z rate / 60))%Q.
  { apply Qmult_le_compat_r; [lra|]. apply Qle_shift_div_l; lra. }
  assert (60 * (inject_Z rate / 60) == inject_Z rate)%Q by (field). lra.
Qed.

(** What the script finds in the bucket is what the local one refills to. *)
Lemma script_tokens r b s : bucket_rep r b s ->
  exists l t u, hash s k = Some l /\ number l "tokens" (inject_Z rate) = Some t /\ number l "updated" (time s) = Some u /\
    (Qmin (inject_Z rate) (t + Qmax 0 (time s - u) * inject_Z rate / 60) == Gateway.refilled b (time s))%Q.
Proof.
  intros [Hc Ht Hu [(l & t & u & d & Hf & H1 & H2 & Et & Eu & _)|[Hf Hfull]]]; unfold hash, number; rewrite Hf.
  - exists l, t, u. rewrite H1, H2, !tonumber_text. split_and!; try done. unfold Gateway.refilled. rewrite Hc, Et, Eu.
    rewrite (Q.max_r 0) by lra. apply Q.min_compat; [done|]. field.
  - exists [], (inject_Z rate), (time s). split_and!; try done. unfold Gateway.refilled. rewrite Hc. unfold full in Hfull.
    pose proof rate_q. assert (Hz : (time s - time s == 0)%Q) by ring. rewrite Hz, (Q.max_l 0 0) by lra.
    rewrite (Q.min_l (inject_Z rate) (Gateway.tokens b + _)) by done. rewrite Q.min_l; [done|].
    assert (0 * inject_Z rate / 60 == 0)%Q by field. lra.
Qed.

Lemma written_bucket s q1 q2 l : hash s k = Some l ->
  exists l', find (run_all [HSET k [("tokens", number_text q1); ("updated", number_text q2)]; EXPIRE k ttl] s) k =
       Some (VHash l', Some (time s + inject_Z ttl)%Q) /\
    dget "tokens" l' = Some (number_text q1) /\ dget "updated" l' = Some (number_text q2).
Proof.
  intros Hh. set (fs := [("tokens", number_text q1); ("updated", number_text q2)]).
  assert (Hfit : fits (HSET k fs) (find s k) = true) by (unfold hash in Hh; cbn; by destruct (find s k) as [[[]]|]).
  set (l' := foldl (fun l f => dset f.1 f.2 l) l fs).
  assert (H1 : exists d, find (run (HSET k fs) s) k = Some (VHash l', d)).
  { rewrite (find_run_self (HSET k fs)) by done. unfold hash in Hh. cbn [key_of effect].
    destruct (find s k) as [[[| x |] d]|]; try done; injection Hh as <-; [by eexists|]. exists None. fold l'.
    unfold some_fields. destruct l' as [|p ps] eqn:El'; [|done].
    assert (Hd : dget "updated" l' = Some (number_text q2)) by (unfold l', fs; cbn [foldl fst snd]; apply dget_dset_eq).
    by rewrite El' in Hd. }
  destruct H1 as [d H1]. exists l'. change (run_all [?a; ?b] s) with (run b (run a s)).
  rewrite (find_run_self (EXPIRE k ttl)) by done. cbn [key_of]. rewrite H1. cbn [effect]. rewrite (proj2 (Z.ltb_lt 0 ttl)) by lia.
  rewrite time_run. split; [done|]. unfold l', fs. cbn [foldl fst snd]. split; [|apply dget_dset_eq].
  rewrite dget_dset_ne by done. apply dget_dset_eq.
Qed.

Lemma take_rep o r b s : bucket_rep r b s ->
  exists s', (fun _ : unit => rate_limit_script k rate ttl) o s = Some ((take_token (time s) o b).1, s') /\ time s' = time s /\
             bucket_rep r (take_token (time s) o b).2 s'.
Proof.
  intros Hrep. destruct (script_tokens r b s Hrep) as (l & t & u & Hh & Hnt & Hnu & Eq). pose proof Hrep as [Hc Ht Hu _].
  unfold rate_limit_script. rewrite (proj2 (Z.leb_gt rate 0)) by lia. rewrite Hh. cbn [mbind option_bind]. rewrite Hnt. cbn [mbind option_bind].
  rewrite Hnu. cbn [mbind option_bind]. set (q := Qmin (inject_Z rate) (t + Qmax 0 (time s - u) * inject_Z rate / 60)) in *.
  unfold take_token, Gateway.try_take. set (q' := Gateway.refilled b (time s)) in *.
  assert (Hle : (1 <=? q)%clock = (1 <=? q')%clock) by (destruct (1 <=? q')%clock eqn:E; clock_prop; lra).
  assert (Hq' : (0 <= q')%Q).
  { unfold q', Gateway.refilled. rewrite Hc. pose proof rate_q. apply Q.min_glb; [lra|].
    assert (0 <= (time s - Gateway.updated b) * (inject_Z rate / 60))%Q; [|lra].
    apply Qmult_le_0_compat; [lra|]. apply Qle_shift_div_l; lra. }
  rewrite Hle. eexists. split; [apply (f_equal Some), (f_equal2 pair); [by destruct (1 <=? q')%clock|reflexivity]|]. split; [apply time_run_all|].
  destruct (written_bucket s (if (1 <=? q')%clock then q - 1 else q)%Q (time s) l Hh) as (l' & Hf & H1 & H2).
  assert (Hat : forall b', Gateway.tokens b' == (if (1 <=? q')%clock then q - 1 else q)%Q -> Gateway.updated b' = time s ->
    bucket_at b' (run_all [HSET k [("tokens", number_text (if (1 <=? q')%clock then q - 1 else q)%Q); ("updated", number_text (time s))];
                           EXPIRE k ttl] s)).
  { intros b' Eb Eu. left. eexists _, _, _, _. split; [exact Hf|]. split; [exact H1|]. split; [exact H2|]. rewrite Eu. by rewrite Eb. }
  destruct (1 <=? q')%clock eqn:E; (split; [done| | |]); cbn [Gateway.tokens Gateway.updated snd]; rewrite ?time_run_all; clock_prop; try lra.
  all: apply Hat; [|done]; cbn; by rewrite Eq.
Qed.

Lemma pass_rep d r b s : (0 <= d)%Q -> (0 <= r)%Q -> bucket_rep (d + r) b s -> bucket_rep r b (pass d s).
Proof.
  intros Hd _ [Hc Ht Hu Hat]. split; [done|done|rewrite time_pass; lra|].
  destruct Hat as [(l & t & u & e & Hf & Hrest)|[Hf Hfull]].
  - destruct (find_pass d s k Hd) as [E|(E & v & x & Ex & Hx)].
    + left. exists l, t, u, e. by rewrite E.
    + right. split; [done|]. rewrite Hf in Ex. injection Ex as _ <-. destruct Hrest as (_ & _ & _ & _ & Ee).
      apply full_after_ttl; [done|]. rewrite time_pass. lra.
  - right. rewrite time_pass. split; [|by apply (full_later b (time s)); [lra|]].
    destruct (find_pass d s k Hd) as [->|[-> _]]; done.
Qed.

Lemma else_rep r b s s' : time s' = time s -> find s' k = find s k -> bucket_rep r b s -> bucket_rep r b s'.
Proof. intros Ht Hf [H1 H2 H3 H4]. split; rewrite ?Ht; try done. unfold bucket_at in *. by rewrite Hf, Ht. Qed.

(** Gateways that share a rate limit share one bucket.  However the requests of
    any number of workers are interleaved with everything else, and whatever time
    passes, Redis answers them as one token bucket in one process would, provided
    that an idle bucket is kept for the minute that it needs to fill up. *)
Theorem shared_rate_limit_is_one_bucket es s :
  find s k = None ->
  shared k (fun _ : unit => rate_limit_script k rate ttl) es s = Some <$> alone take_token es (time s) (Gateway.new_bucket rate (time s)).
Proof.
  intros Hs. apply (simulation k _ take_token bucket_rep take_rep pass_rep else_rep). pose proof rate_q.
  split; cbn; [done|lra|lra|]. right. split; [done|]. unfold full. cbn. lra.
Qed.
End rate.

(** ** A shared bulkhead is one bulkhead *)

(** The local state at the end of a history, and the time. *)
Fixpoint outcome {Op Ans L : Type} (step : Q -> Op -> L -> Ans * L) (es : list (event Op)) (now : Q) (l : L) : Q * L :=
  match es with
  | [] => (now, l)
  | Act o :: es => outcome step es now (step now o l).2
  | Pass d :: es => outcome step es (if (0 <=? d)%clock then (now + d)%Q else now) l
  | Elsewhere _ :: es => outcome step es now l
  end.

Inductive lease_op : Type := Acquire (token : string) | Release (token : string).

Section bulkhead.
Context {S : Type} `{Redis S} (k : string) (limit : Z) (lease : Q).
Implicit Types (s : S) (l : list (string * Q)).
Hypothesis lease_positive : (0 < lease)%Q.

Definition lease_act (o : lease_op) s : option (bool * S) :=
  match o with
  | Acquire token => bulkhead_acquire_script k limit lease token s
  | Release token => Some (true, run (ZREM k token) s)
  end.

(** Leases by token, with the time at which each ends. *)
Definition live_leases (now : Q) l : list (string * Q) := filterb (fun e => (now <? e.2)%clock) l.

Definition lease_step (now : Q) (o : lease_op) l : bool * list (string * Q) :=
  match o with
  | Acquire token =>
      let l := live_leases now l in
      if (limit <=? Z.of_nat (length l))%Z then (false, l) else (true, (token, (now + lease)%Q) :: dpop token l)
  | Release token => (true, dpop token l)
  end.

Record leases_rep (r : Q) l s : Prop := {
  rep_set : find s k = None \/ exists d, find s k = Some (VZset (zrange s k), Some d) /\ Forall (fun e => (e.2 <= d)%Q) (zrange s k);
  rep_leases : live_leases (time s) (zrange s k) ≡ₚ live_leases (time s) l;
  rep_horizon : Forall (fun e => (e.2 <= time s + lease)%Q) (zrange s k)
}.

#[local] Instance live_leases_perm now : Proper ((≡ₚ) ==> (≡ₚ)) (live_leases now).
Proof. apply filterb_perm. Qed.

Lemma live_leases_later now now' l : (now <= now')%Q -> live_leases now' (live_leases now l) = live_leases now' l.
Proof.
  intros Hn. unfold live_leases. rewrite filterb_andb. apply filterb_ext. intros [t q] _. cbn.
  destruct (now' <? q)%clock eqn:E; [|apply andb_false_r]. rewrite andb_true_r. clock_prop. lra.
Qed.

Lemma live_leases_dpop now token l : live_leases now (dpop token l) = dpop token (live_leases now l).
Proof. unfold live_leases, dpop. rewrite !filterb_andb. apply filterb_ext. intros e _. apply andb_comm. Qed.

Lemma live_leases_none now l : Forall (fun e => (e.2 <= now)%Q) l -> live_leases now l = [].
Proof. intros Hl. apply filterb_none. intros e He. rewrite Forall_forall in Hl. specialize (Hl e He). clock_prop. lra. Qed.

(** The set with a command that takes members out of it. *)
Lemma removed_rep r l s c (f : string * Q -> bool) :
  key_of c = k -> fits c (find s k) = true ->
  effect (time s) c (find s k) = (match find s k with Some (VZset z, d) => some_members (filterb f z) d | o => o end) ->
  leases_rep r l s -> zrange (run c s) k = filterb f (zrange s k) /\
  (find (run c s) k = None \/ exists d, find (run c s) k = Some (VZset (zrange (run c s) k), Some d) /\ Forall (fun e => (e.2 <= d)%Q) (zrange s k)).
Proof.
  intros Hk Hf He [Hset _ _]. rewrite <-Hk in Hf. pose proof (find_run_self c s Hf) as Hr. rewrite Hk, He in Hr. unfold zrange in *.
  destruct Hset as [Hn|(d & Hs & Hall)].
  - rewrite Hn in Hr. rewrite Hr, Hn. split; [done|by left].
  - rewrite Hs in Hr. rewrite Hr. unfold zrange in Hs. destruct (find s k) as [[[| |z] e]|]; try done. injection Hs as ->.
    unfold some_members. destruct (filterb f z) as [|x fs]; (split; [done|]); [by left|]. right. by exists d.
Qed.

(** The set with a lease added. *)
Lemma added_rep s z token :
  (find s k = None /\ z = [] \/ exists d, find s k = Some (VZset z, d)) -> Forall (fun e => (e.2 <= time s + lease)%Q) z ->
  exists d, find (run_all [ZADD k token (time s + lease); EXPIRE k (Qceiling (lease + 1))] s) k =
      Some (VZset (zset_add token (time s + lease) z), Some d) /\
    Forall (fun e => (e.2 <= d)%Q) (zset_add token (time s + lease) z).
Proof.
  intros Hs Hz. exists (time s + inject_Z (Qceiling (lease + 1)))%Q. pose proof (Qle_ceiling (lease + 1)) as Hc. split.
  - change (run_all [?a; ?b] s) with (run b (run a s)).
    assert (H1 : exists d, find (run (ZADD k token (time s + lease)) s) k = Some (VZset (zset_add token (time s + lease) z), d)).
    { rewrite (find_run_self (ZADD k token (time s + lease))) by (cbn [key_of]; by destruct Hs as [[-> _]|[d ->]]). cbn [key_of].
      destruct Hs as [[-> ->]|[d ->]]; by eexists. }
    destruct H1 as [d H1]. rewrite (find_run_self (EXPIRE k (Qceiling (lease + 1)))) by done. cbn [key_of]. rewrite H1. cbn [effect].
    assert (Hpos : (0 < Qceiling (lease + 1))%Z) by (rewrite Zlt_Qlt; change (inject_Z 0) with 0%Q; lra).
    by rewrite (proj2 (Z.ltb_lt _ _) Hpos), time_run.
  - unfold zset_add. rewrite sinsert_perm. constructor; [cbn; lra|]. apply Forall_filterb. eapply Forall_impl; [exact Hz|]. cbn. intros. lra.
Qed.

Lemma lease_rep o r l s : leases_rep r l s ->
  exists s', lease_act o s = Some ((lease_step (time s) o l).1, s') /\ time s' = time s /\ leases_rep r (lease_step (time s) o l).2 s'.
Proof.
  intros Hrep. pose proof Hrep as [Hset Hl Hh].
  assert (Hz : forall t, fits (ZREM k t) (find s k) = true) by (intros t; by destruct Hset as [->|(d & -> & _)]).
  destruct o as [token|token]; cbn [lease_act lease_step].
  - unfold bulkhead_acquire_script. rewrite Hz. cbn [negb]. set (s1 := run (ZREMRANGEBYSCORE k (time s)) s).
    assert (Ht1 : time s1 = time s) by apply time_run.
    destruct (removed_rep r l s (ZREMRANGEBYSCORE k (time s)) (fun e => (time s <? e.2)%clock)) as [Hz1 Hs1]; [done|apply (Hz "")| |done|].
    { cbn. by destruct (find s k) as [[[]]|]. }
    fold s1 in Hz1, Hs1. change (filterb _ (zrange s k)) with (live_leases (time s) (zrange s k)) in Hz1.
    assert (Hlen : length (zrange s1 k) = length (live_leases (time s) l)) by (rewrite Hz1; by apply Permutation_length).
    rewrite Hlen. destruct (limit <=? Z.of_nat (length (live_leases (time s) l)))%Z; cbn [fst snd].
    + eexists. split; [done|]. split; [done|]. split; rewrite ?Ht1, ?Hz1.
      * destruct Hs1 as [Hs1|(d & Hs1 & Hd)]; [by left|]. right. exists d. rewrite Hz1 in Hs1. split; [done|].
        by apply Forall_filterb.
      * by rewrite !live_leases_later, Hl by lra.
      * by apply Forall_filterb.
    + destruct (added_rep s1 (live_leases (time s) (zrange s k)) token) as (d & Hf & Hd).
      { rewrite <-Hz1. destruct Hs1 as [E|(d & E & _)]; [left; split; [done|unfold zrange; by rewrite E]|right; by exists (Some d)]. }
      { rewrite Ht1. by apply Forall_filterb. }
      rewrite Ht1 in Hf, Hd. eexists. split; [done|]. split; [by rewrite time_run_all|].
      assert (Hzr : zrange (run_all [ZADD k token (time s + lease); EXPIRE k (Qceiling (lease + 1))] s1) k =
                    zset_add token (time s + lease) (live_leases (time s) (zrange s k))) by (unfold zrange at 1; by rewrite Hf).
      split; rewrite ?time_run_all, ?Ht1, ?Hzr.
      * right. by exists d.
      * apply live_leases_perm. unfold zset_add. rewrite sinsert_perm. apply perm_skip. unfold dpop. by rewrite Hl.
      * unfold zset_add. rewrite sinsert_perm. constructor; [cbn; lra|]. by do 2 apply Forall_filterb.
  - destruct (removed_rep r l s (ZREM k token) (fun e => key_ne token e.1)) as [Hz1 Hs1]; [done|apply Hz| |done|].
    { cbn. by destruct (find s k) as [[[]]|]. }
    change (filterb _ (zrange s k)) with (dpop token (zrange s k)) in Hz1. eexists. split; [done|]. split; [apply time_run|].
    split; rewrite ?time_run, ?Hz1.
    + destruct Hs1 as [Hs1|(d & Hs1 & Hd)]; [by left|]. right. exists d. rewrite Hz1 in Hs1. split; [done|]. by apply Forall_filterb.
    + cbn [snd]. rewrite !live_leases_dpop. unfold dpop. by rewrite Hl.
    + by apply Forall_filterb.
Qed.
Lemma lease_pass d r l s : (0 <= d)%Q -> (0 <= r)%Q -> leases_rep (d + r) l s -> leases_rep r l (pass d s).
Proof.
  intros Hd _ [Hset Hl Hh]. assert (Ht : time (pass d s) = (time s + d)%Q) by apply time_pass.
  destruct (find_pass d s k Hd) as [E|(E & v & x & Ex & Hx)].
  - assert (Hz : zrange (pass d s) k = zrange s k) by (unfold zrange; by rewrite E).
    split; rewrite ?Ht, ?Hz, ?E; [done| |eapply Forall_impl; [exact Hh|]; cbn; intros; lra].
    rewrite <-(live_leases_later (time s) (time s + d) (zrange s k)), Hl, live_leases_later by lra. done.
  - assert (Hz : zrange (pass d s) k = []) by (unfold zrange; by rewrite E).
    split; rewrite ?Ht, ?Hz; [by left| |done]. rewrite <-(live_leases_later (time s) (time s + d) l), <-Hl, live_leases_later by lra.
    destruct Hset as [Hn|(e & Hs & Hall)]; [by rewrite Hn in Ex|]. rewrite Hs in Ex. injection Ex as _ ->.
    rewrite (live_leases_none _ (zrange s k)); [done|]. eapply Forall_impl; [exact Hall|]. cbn. intros. lra.
Qed.

Lemma lease_else r l s s' : time s' = time s -> find s' k = find s k -> leases_rep r l s -> leases_rep r l s'.
Proof.
  intros Ht Hf [H1 H2 H3]. assert (Hz : zrange s' k = zrange s k) by (unfold zrange; by rewrite Hf).
  split; by rewrite ?Ht, ?Hz, ?Hf.
Qed.

Lemma live_leases_bound es now l :
  (Z.of_nat (length (live_leases now l)) <= Z.max 0 limit)%Z ->
  let '(now, l) := outcome lease_step es now l in (Z.of_nat (length (live_leases now l)) <= Z.max 0 limit)%Z.
Proof.
  assert (Hsub : forall now f l, (Z.of_nat (length (live_leases now l)) <= Z.max 0 limit)%Z ->
                   (Z.of_nat (length (live_leases now (filterb f l))) <= Z.max 0 limit)%Z).
  { intros t f x Hx. assert (length (live_leases t (filterb f x)) <= length (live_leases t x)); [|lia].
    unfold live_leases. rewrite filterb_andb. rewrite (filterb_ext _ (fun e => (t <? e.2)%clock && f e)) by (intros; apply andb_comm).
    rewrite <-filterb_andb. by apply sublist_length, filterb_sublist. }
  revert now l. induction es as [|e es IH]; intros now l Hl; [done|]. destruct e as [o|d|c]; cbn [outcome]; apply IH; [| |done].
  - destruct o as [token|token]; cbn [lease_step snd]; [|by apply Hsub].
    destruct (limit <=? Z.of_nat (length (live_leases now l)))%Z eqn:E; cbn [snd]; [by apply Hsub|].
    apply Z.leb_gt in E. pose proof (sublist_length _ _ (filterb_sublist (fun e => (now <? e.2)%clock) ((token, (now + lease)%Q) :: dpop token (live_leases now l)))) as H1.
    pose proof (sublist_length _ _ (filterb_sublist (fun e => key_ne token e.1) (live_leases now l))) as H2.
    unfold live_leases at 1. cbn [length] in H1. unfold dpop in *. lia.
  - destruct (0 <=? d)%clock eqn:Hd; [|done]. apply qleb_true in Hd.
    rewrite <-(live_leases_later now (now + d) l) by lra. apply (Z.le_trans _ (Z.of_nat (length (live_leases now l)))); [|done].
    apply inj_le, sublist_length, filterb_sublist.
Qed.

(** Gateways that share a bulkhead share its slots.  In every history of every
    number of workers a slot is granted if and only if fewer than [limit] of the
    leases granted so far have been neither released nor held for the whole lease
    time, so there are never more than [limit] of those; and a worker that dies with
    a slot gives it back when its lease is over. *)
Theorem shared_bulkhead_is_one_bulkhead es s :
  find s k = None ->
  shared k lease_act es s = Some <$> alone lease_step es (time s) [] /\
  let '(now, l) := outcome lease_step es (time s) [] in (Z.of_nat (length (live_leases now l)) <= Z.max 0 limit)%Z.
Proof.
  intros Hs. split; [|apply live_leases_bound; cbn; lia].
  apply (simulation k lease_act lease_step leases_rep lease_rep lease_pass lease_else).
  assert (Hz : zrange s k = []) by (unfold zrange; by rewrite Hs). split; rewrite ?Hz; [by left|done|done].
Qed.
End bulkhead.

(** ** A shared circuit is one circuit *)

Inductive circuit : Type :=
  | Closed (failures : Z)
  | Open (failures : Z) (until : Q)
  | Probing (failures : Z) (until : Q).

Inductive circuit_op : Type := Ask (n : nat) | Succeeded | Failed.

Section circuits.
(** [uuid4().hex] is never empty. *)
Context `{Numbers} {S : Type} `{Redis S} (k : string) (threshold ttl : Z) (cooldown : Q) (uuid : nat -> string).
Implicit Types (s : S) (c : circuit).
Hypothesis uuid_text : forall n, str_truthy (uuid n) = true.
Hypothesis cooldown_ok : (0 <= cooldown)%Q.
Hypothesis ttl_positive : (0 < ttl)%Z.

Definition circuit_act (o : circuit_op) s : option (bool * S) :=
  match o with
  | Ask n => circuit_available_script k (uuid n) ttl s
  | Succeeded => Some (true, run (DEL k) s)
  | Failed => (fun r : Q * S => (true, r.2)) <$> circuit_failure_script k threshold cooldown ttl s
  end.

Definition count c : Z := match c with Closed n | Open n _ | Probing n _ => n end.

Definition circuit_step (now : Q) (o : circuit_op) c : bool * circuit :=
  match o, c with
  | Ask _, Closed _ => (true, c)
  | Ask _, Open n u => if (now <? u)%clock then (false, c) else (true, Probing n u)
  | Ask _, Probing _ _ => (false, c)
  | Succeeded, _ => (true, Closed 0)
  | Failed, _ =>
      let n := (count c + 1)%Z in
      (true, if (threshold <=? n)%Z then Open n (now + cooldown)%Q else Closed n)
  end.

Definition probe_of (l : list (string * string)) : bool := str_truthy (default "" (dget "probe" l)).

Definition fields_rep c (now : Q) (l : list (string * string)) : Prop :=
  (exists q, number l "failures" 0 = Some q /\ q == inject_Z (count c))%Q /\
  match c with
  | Closed _ => number l "open_until" 0 = Some 0%Q
  | Open n u => number l "open_until" 0 = Some u /\ (0 < u)%Q /\ (threshold <= n)%Z /\ probe_of l = false
  | Probing n u => number l "open_until" 0 = Some u /\ (0 < u <= now)%Q /\ (threshold <= n)%Z /\ probe_of l = true
  end.

Record circuit_rep (r : Q) c s : Prop := {
  rep_rest : (0 <= r < inject_Z ttl)%Q;
  rep_time : (0 < time s)%Q;
  rep_fields : exists l, hash s k = Some l /\ fields_rep c (time s) l;
  rep_expiry : forall v d, find s k = Some (v, d) -> exists e, d = Some e /\ (time s + r < e)%Q
}.

Lemma hash_fits s l fs : hash s k = Some l -> fits (HSET k fs) (find s k) = true.
Proof. unfold hash. by destruct (find s k) as [[[]]|]. Qed.

(** The key after a script has written fields and set the expiry. *)
Lemma find_written s l fs : hash s k = Some l -> fs <> [] -> NoDup (dkeys fs) ->
  find (run_all [HSET k fs; EXPIRE k ttl] s) k =
    Some (VHash (foldl (fun l f => dset f.1 f.2 l) l fs), Some (time s + inject_Z ttl)%Q).
Proof.
  intros Hh Hne Hnd. change (run_all [?a; ?b] s) with (run b (run a s)).
  rewrite (find_run_self (EXPIRE k ttl)) by done. cbn [key_of].
  assert (H1 : exists d, find (run (HSET k fs) s) k = Some (VHash (foldl (fun l f => dset f.1 f.2 l) l fs), d)).
  { rewrite (find_run_self (HSET k fs)) by (by eapply hash_fits). unfold hash in Hh. cbn [key_of].
    destruct (find s k) as [[[| x |] d]|]; try done; injection Hh as <-; cbn [effect]; [by eexists|]. exists None.
    unfold some_fields. destruct fs as [|f fs]; [done|]. cbn [foldl dset].
    assert (Hin : forall gs m, m <> [] -> foldl (fun l f => dset f.1 f.2 l) m gs <> ([] : list (string * string))).
    { clear. induction gs as [|g gs IH]; intros m Hm; [done|]. cbn [foldl]. apply IH. destruct m as [|[a b] m]; cbn; by repeat case_decide. }
    destruct (foldl (fun l f => dset f.1 f.2 l) [(f.1, f.2)] fs) eqn:E; [by apply Hin in E|done]. }
  destruct H1 as [d ->]. cbn [effect]. by rewrite (proj2 (Z.ltb_lt 0 ttl)), time_run.
Qed.

(** A state whose key was just written is represented again. *)
Lemma rep_written r c s s' l' :
  (0 <= r < inject_Z ttl)%Q -> (0 < time s)%Q -> time s' = time s ->
  find s' k = Some (VHash l', Some (time s + inject_Z ttl)%Q) -> fields_rep c (time s) l' -> circuit_rep r c s'.
Proof.
  intros Hr Ht Ht' Hf Hl. split; rewrite ?Ht'; [done|done| |].
  - exists l'. split; [|done]. unfold hash. by rewrite Hf.
  - intros v d. rewrite Hf. intros [= _ <-]. eexists. split; [done|]. lra.
Qed.

Lemma ask_rep n r c s : circuit_rep r c s ->
  exists s', circuit_act (Ask n) s = Some ((circuit_step (time s) (Ask n) c).1, s') /\ time s' = time s /\
             circuit_rep r (circuit_step (time s) (Ask n) c).2 s'.
Proof.
  intros Hrep. pose proof Hrep as [Hr Ht (l & Hh & (q & Hq & Eq) & Hc) He]. cbn [circuit_act]. unfold circuit_available_script.
  rewrite Hh. cbn [mbind option_bind]. change (str_truthy (default "" (dget "probe" l))) with (probe_of l).
  destruct c as [m|m u|m u]; cbn [circuit_step].
  - rewrite Hc. cbn [mbind option_bind]. rewrite (proj2 (qltb_false (time s) 0)) by lra. change (0 <? 0)%clock with false. cbn. eexists. split; [done|].
    split; [apply time_run|]. destruct (find s k) as [[v d]|] eqn:Hf.
    + assert (Hv : v = VHash l) by (unfold hash in Hh; rewrite Hf in Hh; destruct v; try done; by injection Hh as ->). subst v.
      apply (rep_written r _ s _ l); [done|done|apply time_run| |by split; [exists q|]].
      rewrite (find_run_self (EXPIRE k ttl)) by done. cbn [key_of]. rewrite Hf. cbn. by rewrite (proj2 (Z.ltb_lt 0 ttl)).
    + assert (Hn : find (run (EXPIRE k ttl) s) k = None) by (rewrite (find_run_self (EXPIRE k ttl)) by done; cbn [key_of]; by rewrite Hf).
      split; rewrite ?time_run; [done|done| |by rewrite Hn]. exists l. unfold hash in *. rewrite Hn. rewrite Hf in Hh.
      split; [done|]. by split; [exists q|].
  - destruct Hc as (Hu & Hpos & Hth & Hp). rewrite Hu, Hp. cbn [mbind option_bind]. rewrite (proj2 (qltb_true 0 u) Hpos). cbn [andb].
    destruct (time s <? u)%clock eqn:E; cbn [fst snd]; [by exists s|]. clock_prop. eexists. split; [done|].
    split; [by rewrite !time_run|]. apply (rep_written r _ s _ (dset "probe" (uuid n) l)); [done|done|by rewrite !time_run| |].
    + apply (find_written s l [("probe", uuid n)] Hh); [done|]. apply NoDup_singleton.
    + unfold fields_rep, number, probe_of. rewrite !dget_dset. rewrite !decide_False by done. rewrite decide_True by done. cbn.
      split; [by exists q|]. split; [done|]. split; [lra|]. split; [done|apply uuid_text].
  - destruct Hc as (Hu & [Hpos Hle] & Hth & Hp). rewrite Hu, Hp. cbn [mbind option_bind].
    rewrite (proj2 (qltb_true 0 u) Hpos), (proj2 (qltb_false (time s) u) Hle). cbn. by exists s.
Qed.

Lemma failed_rep r c s : circuit_rep r c s ->
  exists s', circuit_act Failed s = Some ((circuit_step (time s) Failed c).1, s') /\ time s' = time s /\
             circuit_rep r (circuit_step (time s) Failed c).2 s'.
Proof.
  intros [Hr Ht (l & Hh & (q & Hq & Eq) & Hc) _]. cbn [circuit_act]. unfold circuit_failure_script.
  rewrite Hh. cbn [mbind option_bind]. rewrite Hq. cbn [mbind option_bind].
  assert (Hu : exists u, number l "open_until" 0 = Some u) by (destruct c; [by eexists| |]; destruct Hc as [-> _]; by eexists).
  destruct Hu as [u Hu]. rewrite Hu. cbn [mbind option_bind fmap option_fmap option_map snd]. eexists. split; [destruct c; done|].
  split; [apply time_run_all|].
  assert (Hle : (inject_Z threshold <=? q + 1)%clock = (threshold <=? count c + 1)%Z).
  { assert (Eq1 : (q + 1 == inject_Z (count c + 1))%Q) by (rewrite inject_Z_plus, Eq; reflexivity).
    destruct (Z.leb_spec threshold (count c + 1)); clock_prop; rewrite Eq1; [by rewrite <-Zle_Qle|by rewrite <-Zlt_Qlt]. }
  rewrite Hle. assert (Hcq : (q + 1 == inject_Z (count c + 1))%Q) by (rewrite inject_Z_plus, Eq; reflexivity).
  assert (Hstep : (circuit_step (time s) Failed c).2 =
    if (threshold <=? count c + 1)%Z then Open (count c + 1) (time s + cooldown) else Closed (count c + 1)) by (by destruct c).
  rewrite Hstep. destruct (threshold <=? count c + 1)%Z eqn:Eth.
  - eapply rep_written; [done|done|apply time_run_all|apply (find_written s l); [done|done|]|].
    { repeat constructor; set_solver. }
    cbn [foldl fst snd]. unfold fields_rep, number, probe_of. rewrite !dget_dset. repeat first [rewrite decide_False by done | rewrite decide_True by done].
    rewrite !tonumber_text. split; [by eexists|]. split; [done|]. split; [lra|]. split; [by apply Z.leb_le|done].
  - eapply rep_written; [done|done|apply time_run_all|apply (find_written s l); [done|done|apply NoDup_singleton]|].
    cbn [foldl fst snd]. unfold fields_rep, number. rewrite !dget_dset. repeat first [rewrite decide_False by done | rewrite decide_True by done].
    rewrite tonumber_text. split; [by eexists|]. apply Z.leb_gt in Eth.
    destruct c; [exact Hc| |]; cbn [count] in *; destruct Hc as (_ & _ & Hth & _); lia.
Qed.

Lemma circuit_act_rep o r c s : circuit_rep r c s ->
  exists s', circuit_act o s = Some ((circuit_step (time s) o c).1, s') /\ time s' = time s /\
             circuit_rep r (circuit_step (time s) o c).2 s'.
Proof.
  destruct o as [n| |]; [apply ask_rep| |apply failed_rep].
  intros [Hr Ht _ _]. cbn [circuit_act circuit_step fst snd]. eexists. split; [by destruct c|]. split; [apply time_run|].
  assert (Hn : find (run (DEL k) s) k = None) by by apply (find_run_self (DEL k)).
  destruct c; split; rewrite ?time_run, ?Hn; try done; exists []; unfold hash; rewrite Hn; (split; [done|]); by split; [eexists|].
Qed.

Lemma circuit_pass d r c s : (0 <= d)%Q -> (0 <= r)%Q -> circuit_rep (d + r) c s -> circuit_rep r c (pass d s).
Proof.
  intros Hd Hr0 [Hr Ht (l & Hh & Hl) He]. assert (Htp : time (pass d s) = (time s + d)%Q) by apply time_pass.
  assert (Hf : find (pass d s) k = find s k).
  { destruct (find_pass d s k Hd) as [->|(_ & v & x & Ex & Hx)]; [done|]. destruct (He _ _ Ex) as (e & [= <-] & Hlt). lra. }
  split; rewrite ?Htp; [lra|lra| |].
  - exists l. unfold hash in *. rewrite Hf. split; [done|]. destruct Hl as [Hn Hc]. split; [done|].
    destruct c as [n|n u|n u]; [done|done|]. destruct Hc as (Hu & [H1 H2] & Hc). split; [done|]. split; [lra|done].
  - intros v x. rewrite Hf. intros Hx. destruct (He _ _ Hx) as (e & -> & Hlt). exists e. split; [done|]. lra.
Qed.

Lemma circuit_else r c s s' : time s' = time s -> find s' k = find s k -> circuit_rep r c s -> circuit_rep r c s'.
Proof.
  intros Ht Hf [H1 H2 (l & H3 & H4) H5]. split; rewrite ?Ht, ?Hf; try done. exists l. unfold hash in *. by rewrite Hf.
Qed.

(** Nobody reports how a request went. *)
Fixpoint unreported (es : list (event circuit_op)) : bool :=
  match es with
  | [] => true
  | Act (Ask _) :: es | Pass _ :: es | Elsewhere _ :: es => unreported es
  | Act _ :: _ => false
  end.

Definition admitted (answers : list bool) : list bool := filterb (fun b => b) answers.

Lemma probing_admits_none es now n u : unreported es = true -> admitted (alone circuit_step es now (Probing n u)) = [].
Proof. revert now. induction es as [|[[m| |]|d|c] es IH]; intros now Hu; cbn; by try apply IH. Qed.

Lemma open_admits_one es now n u : unreported es = true ->
  length (admitted (alone circuit_step es now (Open n u))) <= 1 /\
  ((now + elapsed es < u)%Q -> admitted (alone circuit_step es now (Open n u)) = []).
Proof.
  revert now. induction es as [|[[m| |]|d|c] es IH]; intros now Hu; [by split; [cbn; lia|]| |done|done| |by apply IH].
  - cbn [alone circuit_step elapsed]. pose proof (elapsed_nonneg es). destruct (now <? u)%clock eqn:E; [by apply IH|].
    cbn [admitted List.filter]. change (filterb _ ?x) with (admitted x). rewrite probing_admits_none by done.
    split; [done|]. clock_prop. intros. lra.
  - cbn [alone elapsed]. destruct (0 <=? d)%clock; [|by apply IH]. destruct (IH (now + d)%Q Hu) as [H1 H2].
    split; [done|]. intros. apply H2. lra.
Qed.

(** Gateways that share a circuit share one breaker.  Within the lifetime of the
    key, any interleaving of checks and reports of any number of workers is answered
    as one breaker in one process would; and until somebody reports again, an open
    circuit lets nobody through during the cooldown and one single probe after it. *)
Theorem shared_circuit_is_one_breaker es s :
  find s k = None -> (0 < time s)%Q -> (elapsed es < inject_Z ttl)%Q ->
  shared k circuit_act es s = Some <$> alone circuit_step es (time s) (Closed 0) /\
  forall es' now n u, unreported es' = true ->
    length (admitted (alone circuit_step es' now (Open n u))) <= 1 /\
    ((now + elapsed es' < u)%Q -> admitted (alone circuit_step es' now (Open n u)) = []).
Proof.
  intros Hs Ht Hel. split; [|intros; by apply open_admits_one].
  apply (simulation k circuit_act circuit_step circuit_rep circuit_act_rep circuit_pass circuit_else).
  assert (Hh : hash s k = Some []) by (unfold hash; by rewrite Hs). split; [split; [apply elapsed_nonneg|done]|done| |by rewrite Hs].
  exists []. split; [done|]. by split; [eexists|].
Qed.
End circuits.

(** ** On concrete input *)

Definition demo_store (ttl : Z) : RedisGatewayStateStore := {| prefix := "ns:gateway:"; rate_limit_ttl := ttl; bulkhead_lease := 60 |}.
Definition later_table (q : Q) : Table := {| now := q; slots := []; watches := fun _ => None |}.
Definition demo_uuid (n : nat) : string := "probe".

Lemma shared_rate_limit_is_one_bucket_witness :
  shared (S := Table) "k" (fun _ : unit => rate_limit_script "k" 2 120) [Act tt; Act tt; Act tt; Pass 100; Act tt] empty_table =
  [Some true; Some true; Some false; Some true].
Proof.
  rewrite (shared_rate_limit_is_one_bucket "k" 2 120); [vm_compute; reflexivity|done|done|reflexivity].
Defined.

Lemma shared_bulkhead_is_one_bulkhead_witness :
  shared (S := Table) "k" (lease_act "k" 1 60) [Act (Acquire "a"); Act (Acquire "b"); Pass 60; Act (Acquire "c"); Act (Release "c"); Act (Acquire "d")]
    empty_table = [Some true; Some false; Some true; Some true; Some true].
Proof.
  rewrite (proj1 (shared_bulkhead_is_one_bulkhead "k" 1 60 ltac:(lra) _ empty_table eq_refl)). vm_compute. reflexivity.
Defined.

Lemma shared_circuit_is_one_breaker_witness :
  shared (S := Table) "k" (circuit_act "k" 2 61 30 demo_uuid) [Act Failed; Act (Ask 0); Act Failed; Act (Ask 1); Pass 30; Act (Ask 2); Act (Ask 3)]
    (later_table 1) = [Some true; Some true; Some true; Some false; Some true; Some false].
Proof.
  destruct (shared_circuit_is_one_breaker "k" 2 61 30 demo_uuid (fun _ => eq_refl) ltac:(lra) ltac:(lia)
    [Act Failed; Act (Ask 0); Act Failed; Act (Ask 1); Pass 30; Act (Ask 2); Act (Ask 3)] (later_table 1)) as [E _];
    [done|reflexivity|reflexivity|]. rewrite E. vm_compute. reflexivity.
Defined.

(** The constructor accepts a time to live under a minute; then an idle bucket is
    forgotten, and full again, before it could have filled up. *)
Example short_ttl_refills_early :
  shared (S := Table) "k" (fun _ : unit => rate_limit_script "k" 2 1) [Act tt; Act tt; Act tt; Pass 2; Act tt; Act tt] empty_table =
    [Some true; Some true; Some false; Some true; Some true] /\
  alone take_token [Act tt; Act tt; Act tt; Pass 2; Act tt; Act tt] 0 (Gateway.new_bucket 2 0) = [true; true; false; false; false].
Proof. vm_compute. split; reflexivity. Qed.

(** A lease is never renewed: a stream that is open for longer holds no slot, and
    the target serves more requests than its limit. *)
Example long_stream_loses_slot :
  let s := demo_store 120 in
  exists s1 s2, try_acquire_bulkhead s "first" "t" 1 empty_table = Some (Some "first", s1) /\
    try_acquire_bulkhead s "second" "t" 1 (pass 60 s1) = Some (Some "second", s2).
Proof. eexists _, _. split; vm_compute; reflexivity. Qed.

(** The probe that finds the bulkhead saturated reports nothing, and nobody is let
    through any more until the key expires. *)
Example unreported_probe_blocks_target :
  alone (circuit_step 1 5) [Act Failed; Pass 5; Act (Ask 0); Pass 50; Act (Ask 1)] 0 (Closed 0) = [true; true; false] /\
  shared (S := Table) "k" (circuit_act "k" 1 60 5 demo_uuid) [Act Failed; Pass 5; Act (Ask 0); Pass 50; Act (Ask 1); Pass 11; Act (Ask 2)] (later_table 1) =
    [Some true; Some true; Some false; Some true].
Proof. vm_compute. split; reflexivity. Qed.

(** Failures that are further apart than the key lives are never counted together. *)
Example rare_failures_never_open :
  shared (S := Table) "k" (circuit_act "k" 2 60 5 demo_uuid) [Act Failed; Pass 61; Act Failed; Act (Ask 0)] (later_table 1) =
    [Some true; Some true; Some true].
Proof. vm_compute. reflexivity. Qed.

End GatewayState.
