(* ===== verification/GatewayShared.v ===== *)
(** * The gateway on shared state

    [cloud/gateway.py] when it was given a [GatewayStateStore], with the two
    authenticators and the application's entry.  The store is any implementation of
    the protocol, which may raise an [Exception]; a cancellation that arrives inside
    one of its operations is no [Exception] and is not modelled.  Without a store this
    is the gateway of [Gateway]; as there, a request is one step. *)

From S2P Require Import Prelude Gateway Redis GatewayState.
Import Redis GatewayState Gateway.
Local Open Scope string_scope.

Module GatewayShared.

(** The protocol [GatewayStateStore]: what an operation returns ([None] when it
    raises), and the state after it.  Exceptions of the last three are suppressed by
    the gateway; [release_bulkhead] says whether it returned, since the lease stays in
    the store when it did not. *)
Record StateStore (St : Type) : Type := {
  allow_rate_limit : string -> Z -> St -> option bool * St;
  circuit_available : string -> Z -> Q -> St -> option bool * St;
  try_acquire_bulkhead : string -> nat -> St -> option (option string) * St;
  store_success : string -> St -> St;
  store_failure : string -> Z -> Q -> St -> St;
  release_bulkhead : string -> string -> St -> bool * St
}.
Arguments allow_rate_limit {St}.
Arguments circuit_available {St}.
Arguments try_acquire_bulkhead {St}.
Arguments store_success {St}.
Arguments store_failure {St}.
Arguments release_bulkhead {St}.

(** What happened to leases: [Stuck] is a release that raised. *)
Inductive lease_event : Type := Took (key lease : string) | Gave (key lease : string) | Stuck (key lease : string).

Record world (St : Type) : Type := { gw : gateway; st : St; log : list lease_event }.
Arguments gw {St}.
Arguments st {St}.
Arguments log {St}.

Section gateway.
Context {St : Type} (store : option (StateStore St)) (call : nat -> upstream) (time : nat -> Q).
Implicit Types (w : world St).

Definition with_gw (g : gateway) w : world St := {| gw := g; st := st w; log := log w |}.
Definition with_st (s : St) w : world St := {| gw := gw w; st := s; log := log w |}.
Definition logged (e : lease_event) w : world St := {| gw := gw w; st := st w; log := log w ++ [e] |}.
Definition on_target (i : nat) (f : Target -> Target) w : world St := with_gw (update_target (gw w) i f) w.
Definition set_target (i : nat) (t : Target) w : world St := with_gw (set_targets (gw w) (<[i := t]> (targets (gw w)))) w.

(** [_rate_limit_async] *)
Definition rate_limit_async (r : GatewayRoute) (c : Caller) w : option bool * world St :=
  match store with
  | None => let '(ok, g) := rate_limit (gw w) r c (time 0) in (Some ok, with_gw g w)
  | Some s =>
      let '(ok, x) := allow_rate_limit s (route_agent r ++ ":" ++ caller_name c) (rate_limit_per_minute r) (st w) in
      (ok, with_st x w)
  end.

(** [_target_key] *)
Definition target_key (r : GatewayRoute) (t : Target) : string := route_agent r ++ ":" ++ base_url t.

(** [_target_available] *)
Definition target_available (r : GatewayRoute) (i : nat) (t : Target) (n : nat) w : option bool * world St :=
  let '(ok, t) := available t (time n) in
  let w := set_target i t w in
  if negb ok then (Some false, w)
  else match store with
       | None => (Some true, w)
       | Some s =>
           let '(ok, x) := circuit_available s (target_key r t) (failure_threshold t) (cooldown_seconds t) (st w) in
           (ok, with_st x w)
       end.

(** [_try_acquire]: the slot, and the lease when there is a store. *)
Definition try_acquire_both (r : GatewayRoute) (i : nat) (t : Target) w : option (bool * option string) * world St :=
  let '(got, t) := try_acquire t in
  let w := set_target i t w in
  if negb got then (Some (false, None), w)
  else match store with
       | None => (Some (true, None), w)
       | Some s =>
           let '(r', x) := try_acquire_bulkhead s (target_key r t) (max_concurrency t) (st w) in
           let w := with_st x w in
           match r' with
           | None => (None, on_target i release_slot w)
           | Some None => (Some (false, None), on_target i release_slot w)
           | Some (Some lease) => (Some (true, Some lease), logged (Took (target_key r t) lease) w)
           end
       end.

(** [_release] *)
Definition release (r : GatewayRoute) (i : nat) (t : Target) (lease : option string) w : world St :=
  let w := on_target i release_slot w in
  match store, lease with
  | Some s, Some l =>
      let '(returned, x) := release_bulkhead s (target_key r t) l (st w) in
      logged (if returned : bool then Gave (target_key r t) l else Stuck (target_key r t) l) (with_st x w)
  | _, _ => w
  end.

(** [_record_success], [_record_failure] *)
Definition record_success_both (r : GatewayRoute) (i : nat) (t : Target) w : world St :=
  let w := on_target i record_success w in
  match store with Some s => with_st (store_success s (target_key r t) (st w)) w | None => w end.

Definition record_failure_both (r : GatewayRoute) (i : nat) (t : Target) (now : Q) w : world St :=
  let w := on_target i (fun t => record_failure t now) w in
  match store with
  | Some s => with_st (store_failure s (target_key r t) (failure_threshold t) (cooldown_seconds t) (st w)) w
  | None => w
  end.

Definition unavailable : response := Response 503 "gateway state unavailable".

(** The call to target [i] in [forward], whose slot and lease are held. *)
Definition call_target (next : nat -> Z * string -> world St -> response * list nat * world St)
    (r : GatewayRoute) (stream : bool) (n : nat) (last : Z * string) (i : nat) (t : Target) (lease : option string) w
  : response * list nat * world St :=
  match seen stream (call n) with
  | Interrupted => (Raises, [i], if stream then w else release r i t lease w)
  | Truncated status => if (500 <=? status)%Z then (Raises, [i], release r i t lease w) else (Streaming i status, [i], w)
  | HTTPError =>
      let '(resp, l, w) := next (S n) last (release r i t lease (record_failure_both r i t (time (S n)) w)) in (resp, i :: l, w)
  | Answered status content =>
      if (500 <=? status)%Z then
        let '(resp, l, w) := next (S n) (status, content) (record_failure_both r i t (time (S n)) (release r i t lease w)) in
        (resp, i :: l, w)
      else if stream then (Streaming i status, [i], w)
      else (Response status content, [i], record_success_both r i t (release r i t lease w))
  end.

Fixpoint attempts (r : GatewayRoute) (idx : list nat) (stream : bool) (n : nat) (last : Z * string) w : response * list nat * world St :=
  match idx with
  | [] => (Response last.1 last.2, [], w)
  | i :: idx =>
      match targets (gw w) !! i with
      | None => attempts r idx stream n last w
      | Some t =>
          match target_available r i t n w with
          | (None, w) => (unavailable, [], w)
          | (Some false, w) => attempts r idx stream n last w
          | (Some true, w) =>
              let t := (available t (time n)).2 in
              match try_acquire_both r i t w with
              | (None, w) => (unavailable, [], w)
              | (Some (false, _), w) => attempts r idx stream n last w
              | (Some (true, lease), w) => call_target (attempts r idx stream) r stream n last i t lease w
              end
          end
      end
  end.

(** [Gateway.forward] *)
Definition forward_shared (r : request) (c : Caller) w : response * list nat * world St :=
  match dget (agent r) (routes (gw w)) with
  | None => (Response 404 ("no route for agent " ++ quoted (agent r)), [], w)
  | Some route =>
      if negb (authorized route c)
      then (Response 403 ("tenant " ++ quoted (default "None" (tenant c)) ++ " may not call " ++ quoted (route_agent route)), [], w)
      else
        match rate_limit_async route c w with
        | (None, w) => (unavailable, [], w)
        | (Some false, w) => (Response 429 "rate limit exceeded", [], w)
        | (Some true, w) =>
            let '(ts, g) := select_targets (gw w) route (time 0) in
            let w := with_gw g w in
            match ts with
            | [] => (Response 503 ("no healthy target for " ++ quoted (agent r)), [], w)
            | _ =>
                if Nat.ltb MAX_BODY_BYTES (body_length r)
                then (Response 413 "request body too large", [], w)
                else attempts route (if retryable r then ts else take 1 ts) (wants_stream r) 0
                       (503%Z, "no upstream accepted the call") w
            end
        end
  end.

(** The end of a stream, [_streaming_proxy_response]: of a body whose iteration began. *)
Definition end_stream_shared (r : GatewayRoute) (i : nat) (t : Target) (lease : option string) (e : stream_end) (now : Q) w : world St :=
  release r i t lease (match e with
                       | Completed => record_success_both r i t w
                       | Broken => record_failure_both r i t now w
                       | Closed => w
                       end).
End gateway.

(** ** Without a store *)

Section without.
Context {St : Type} (call : nat -> upstream) (time : nat -> Q).
Implicit Types (w : world St).

Lemma update_target_twice g i f h : update_target (update_target g i f) i h = update_target g i (fun t => h (f t)).
Proof. unfold update_target, set_targets. cbn. by rewrite list_alter_alter_eq. Qed.

Lemma attempts_without r idx stream n last w :
  attempts None call time r idx stream n last w =
  let '(resp, l, g) := attempt call time idx stream n last (gw w) in (resp, l, with_gw g w).
Proof.
  revert n last w. induction idx as [|i idx IH]; intros n last w; cbn [attempts attempt]; [by destruct w|].
  destruct (targets (gw w) !! i) as [t|]; [|apply IH]. unfold target_available.
  destruct (available t (time n)) as [[|] t']; cbn [negb snd]; [|by rewrite IH]. unfold try_acquire_both, set_target. cbn [gw with_gw].
  destruct (try_acquire t') as [[|] t'']; cbn [negb]; [|by rewrite IH]. unfold call_target, after_call.
  destruct (seen stream (call n)) as [status content|status| |];
    [destruct (500 <=? status)%Z|by destruct (500 <=? status)%Z| |by destruct stream].
  - rewrite IH. unfold release, record_failure_both, on_target. cbn [gw with_gw]. rewrite update_target_twice.
    by destruct (attempt call time idx stream (S n) _ _) as [[resp l] g].
  - destruct stream; [done|]. unfold release, record_success_both, on_target. cbn [gw with_gw]. by rewrite update_target_twice.
  - rewrite IH. unfold release, record_failure_both, on_target. cbn [gw with_gw]. rewrite update_target_twice.
    by destruct (attempt call time idx stream (S n) _ _) as [[resp l] g].
Qed.

(** Without a store the gateway is the one of a single process: the answer, the
    targets called and the state afterwards are those of [Gateway.forward]. *)
Theorem forward_without_store r c w :
  forward_shared None call time r c w =
  let '(resp, l, g) := forward call time (gw w) r c in (resp, l, with_gw g w).
Proof.
  unfold forward_shared, forward. destruct (dget (agent r) (routes (gw w))) as [route|]; [|by destruct w].
  destruct (authorized route c); cbn [negb]; [|by destruct w]. unfold rate_limit_async.
  destruct (rate_limit (gw w) route c (time 0)) as [[|] g]; cbn [negb]; [|done]. cbn [gw with_gw].
  destruct (select_targets g route (time 0)) as [[|i ts] g']; [done|]. destruct (Nat.ltb MAX_BODY_BYTES (body_length r)); [done|].
  rewrite attempts_without. cbn [gw with_gw]. by destruct (attempt _ _ _ _ _ _ _) as [[resp l] g''].
Qed.
End without.

(** ** Slots and leases *)

Fixpoint remove_one (x : string * string) (l : list (string * string)) : list (string * string) :=
  match l with
  | [] => []
  | y :: l => if decide (x = y) then l else y :: remove_one x l
  end.

Lemma remove_one_elem x l : x ∈ l -> l ≡ₚ x :: remove_one x l.
Proof.
  induction l as [|y l IH]; cbn; [by inversion 1|]. destruct (decide (x = y)) as [->|Hne]; [done|].
  intros [->|Hin]%elem_of_cons; [done|]. rewrite (IH Hin) at 1. apply perm_swap.
Qed.

Lemma remove_one_head x l l' : l ≡ₚ x :: l' -> remove_one x l ≡ₚ l'.
Proof.
  intros Hp. apply (Permutation_cons_inv (a := x)). rewrite <-Hp. symmetry. apply remove_one_elem. rewrite Hp. left.
Qed.

(** The leases taken and not given back, next to those held before. *)
Fixpoint outstanding (held : list (string * string)) (evs : list lease_event) : list (string * string) :=
  match evs with
  | [] => held
  | Took k l :: evs => outstanding ((k, l) :: held) evs
  | Gave k l :: evs => outstanding (remove_one (k, l) held) evs
  | Stuck _ _ :: evs => outstanding held evs
  end.

Lemma outstanding_app held a b : outstanding held (a ++ b) = outstanding (outstanding held a) b.
Proof. revert held. induction a as [|[k l|k l|k l] a IH]; intros held; cbn; [done|apply IH..]. Qed.

(** The leases whose release raised: they stay in the store until their TTL. *)
Fixpoint stuck (evs : list lease_event) : list (string * string) :=
  match evs with
  | [] => []
  | Stuck k l :: evs => (k, l) :: stuck evs
  | _ :: evs => stuck evs
  end.

Lemma stuck_app a b : stuck (a ++ b) = (stuck a ++ stuck b)%list.
Proof. induction a as [|[k l|k l|k l] a IH]; cbn; [done..|by rewrite IH]. Qed.

(** What the store did when an event was logged. *)
Definition explained {St} (store : option (StateStore St)) (e : lease_event) : Prop :=
  exists s x, store = Some s /\
    match e with
    | Took k l => exists n, (try_acquire_bulkhead s k n x).1 = Some (Some l)
    | Gave k l => (release_bulkhead s k l x).1 = true
    | Stuck k l => (release_bulkhead s k l x).1 = false
    end.

Section leases.
Context {St : Type} (store : option (StateStore St)) (call : nat -> upstream) (time : nat -> Q).
Implicit Types (w : world St).

(** From [w] to [w'] leases were taken and given back, except these and those whose
    release raised in the store. *)
Definition leases_kept (kept : list (string * string)) w w' : Prop :=
  exists evs, log w' = (log w ++ evs)%list /\ Forall (explained store) evs /\
    forall held, outstanding held evs ≡ₚ (kept ++ stuck evs ++ held)%list.

(** Nothing is held that was not held before, but for leases that got stuck. *)
Definition settled w w' : Prop := slots (gw w') = slots (gw w) /\ leases_kept [] w w'.

Definition lease_held (r : GatewayRoute) (t : Target) (lease : option string) : list (string * string) :=
  match store, lease with Some _, Some l => [(target_key r t, l)] | _, _ => [] end.

(** A slot of target [i] is held, and the lease. *)
Definition holding (r : GatewayRoute) (i : nat) (t : Target) (lease : option string) w w' : Prop :=
  slots (gw w') = alter S i (slots (gw w)) /\ leases_kept (lease_held r t lease) w w'.

Lemma leases_kept_same w w' : log w' = log w -> leases_kept [] w w'.
Proof. intros Hl. exists []. by rewrite Hl, app_nil_r. Qed.

Lemma leases_kept_trans kept w1 w2 w3 : leases_kept [] w1 w2 -> leases_kept kept w2 w3 -> leases_kept kept w1 w3.
Proof.
  intros (e1 & H1 & X1 & K1) (e2 & H2 & X2 & K2). exists (e1 ++ e2)%list. split_and!.
  - by rewrite H2, H1, app_assoc.
  - by apply Forall_app.
  - intros held. rewrite outstanding_app, K2, K1, stuck_app. cbn. solve_Permutation.
Qed.

(** A held lease is given back, or its release raises. *)
Lemma leases_kept_released k l s x w w1 w2 (returned : bool) :
  store = Some s -> (release_bulkhead s k l x).1 = returned -> leases_kept [(k, l)] w w1 ->
  log w2 = (log w1 ++ [if returned then Gave k l else Stuck k l])%list -> leases_kept [] w w2.
Proof.
  intros Hs Hr (evs & Hl & Hx & Ho) H2. exists (evs ++ [if returned then Gave k l else Stuck k l])%list. split_and!.
  - by rewrite H2, Hl, app_assoc.
  - apply Forall_app. split; [done|]. apply Forall_singleton. exists s, x. split; [done|]. by destruct returned.
  - intros held. rewrite outstanding_app, stuck_app. destruct returned; cbn.
    + rewrite app_nil_r. apply remove_one_head. by rewrite Ho.
    + rewrite Ho. solve_Permutation.
Qed.

Lemma settled_trans w1 w2 w3 : settled w1 w2 -> settled w2 w3 -> settled w1 w3.
Proof. intros [H1 K1] [H2 K2]. split; [congruence|]. by eapply leases_kept_trans. Qed.

Lemma settled_holding r i t lease w1 w2 w3 : settled w1 w2 -> holding r i t lease w2 w3 -> holding r i t lease w1 w3.
Proof. intros [H1 K1] [H2 K2]. split; [by rewrite H2, H1|]. by eapply leases_kept_trans. Qed.

Lemma settled_same w w' : slots (gw w') = slots (gw w) -> log w' = log w -> settled w w'.
Proof. intros Hs Hl. split; [done|by apply leases_kept_same]. Qed.

Lemma slots_update g i f : (forall t, in_use (f t) = in_use t) -> slots (update_target g i f) = slots g.
Proof.
  intros Hf. unfold slots, update_target. cbn. apply list_eq. intros j. rewrite !list_lookup_fmap.
  destruct (decide (i = j)) as [->|Hne]; [|by rewrite list_lookup_alter_ne].
  rewrite list_lookup_alter_eq. destruct (targets g !! j) as [t|]; [|done]. cbn. by rewrite Hf.
Qed.

Lemma slots_release g i : slots (update_target g i release_slot) = alter pred i (slots g).
Proof.
  unfold slots, update_target. cbn. apply list_eq. intros j. rewrite list_lookup_fmap.
  destruct (decide (i = j)) as [->|Hne]; [|by rewrite !list_lookup_alter_ne, list_lookup_fmap].
  rewrite !list_lookup_alter_eq, list_lookup_fmap. by destruct (targets g !! j).
Qed.

Lemma alter_pred_succ i (l : list nat) : alter pred i (alter S i l) = l.
Proof.
  rewrite list_alter_alter_eq. apply list_eq. intros j. destruct (decide (i = j)) as [->|Hne]; [|by rewrite list_lookup_alter_ne].
  rewrite list_lookup_alter_eq. by destruct (l !! j).
Qed.

Lemma record_holding r i t lease now (ok : bool) w w' :
  holding r i t lease w w' ->
  holding r i t lease w (if ok then record_success_both store r i t w' else record_failure_both store r i t now w').
Proof.
  intros [Hs Hl]. destruct ok; unfold record_success_both, record_failure_both; destruct store; (split; [|exact Hl]);
    cbn [gw on_target with_gw with_st]; by rewrite slots_update.
Qed.

Lemma release_settles r i t lease w w' : holding r i t lease w w' -> settled w (release store r i t lease w').
Proof.
  intros [Hs Hk]. unfold release, lease_held in *. unfold settled.
  assert (Hsl : slots (update_target (gw w') i release_slot) = slots (gw w)) by (by rewrite slots_release, Hs, alter_pred_succ).
  destruct store as [s|] eqn:Es, lease as [l|]; [|split; [exact Hsl|exact Hk]..].
  cbn [st on_target with_gw]. destruct (release_bulkhead s (target_key r t) l (st w')) as [returned x] eqn:Er. split; [exact Hsl|].
  apply (leases_kept_released (target_key r t) l s (st w') w w' _ returned); [done|by rewrite Er|exact Hk|done].
Qed.

Lemma settle_record r i t now (ok : bool) w w' :
  settled w w' -> settled w (if ok then record_success_both store r i t w' else record_failure_both store r i t now w').
Proof.
  intros [Hs Hl]. destruct ok; unfold record_success_both, record_failure_both; destruct store; (split; [|exact Hl]);
    cbn [gw on_target with_gw with_st]; by rewrite slots_update.
Qed.

(** What a run of attempts leaves behind. *)
Definition left_behind (r : GatewayRoute) (stream : bool) (resp : response) w w' : Prop :=
  match resp with
  | Response _ _ => settled w w'
  | Streaming i _ => stream = true /\ exists t lease, holding r i t lease w w'
  | Raises => settled w w' \/ stream = true /\ exists i t lease, holding r i t lease w w'
  end.

Lemma settled_left r stream resp w0 w w' : settled w0 w -> left_behind r stream resp w w' -> left_behind r stream resp w0 w'.
Proof.
  intros Hs. unfold left_behind. destruct resp as [st m|i st|].
  - by apply settled_trans.
  - intros [-> (t & l & Hh)]. split; [done|]. exists t, l. by eapply settled_holding.
  - intros [Hw|(-> & i & t & l & Hh)]; [left; by eapply settled_trans|right]. split; [done|].
    exists i, t, l. by eapply settled_holding.
Qed.

Lemma call_left next r stream n last i t lease w0 w resp l w' :
  (forall m x v resp l v', next m x v = (resp, l, v') -> left_behind r stream resp v v') ->
  holding r i t lease w0 w -> call_target store call time next r stream n last i t lease w = (resp, l, w') ->
  left_behind r stream resp w0 w'.
Proof.
  intros Hn Hh. unfold call_target.
  destruct (seen stream (call n)) as [status content|status| |] eqn:Hcall; [destruct (500 <=? status)%Z| | |].
  - destruct (next _ _ _) as [[resp1 l1] w1] eqn:En. intros [= <- _ <-]. eapply settled_left; [|by eapply Hn].
    apply (settle_record r i t (time (S n)) false). by apply release_settles.
  - destruct stream; intros [= <- _ <-]; [split; [done|by eexists _, _]|].
    apply (settle_record r i t (time 0) true). by apply release_settles.
  - destruct (call n), stream; try discriminate Hcall. destruct (500 <=? status)%Z; intros [= <- _ <-].
    + left. by apply release_settles.
    + split; [done|]. by eexists _, _.
  - destruct (next _ _ _) as [[resp1 l1] w1] eqn:En. intros [= <- _ <-]. eapply settled_left; [|by eapply Hn].
    apply release_settles. by apply (record_holding r i t lease (time (S n)) false).
  - destruct stream; intros [= <- _ <-]; [right; split; [done|]; by eexists _, _, _|left]. by apply release_settles.
Qed.

(** Taking the slot and the lease: an exception, no slot, or both are held. *)
Lemma acquire_cases r i t w : targets (gw w) !! i = Some t ->
  (exists w', try_acquire_both store r i t w = (None, w') /\ settled w w') \/
  (exists w' o, try_acquire_both store r i t w = (Some (false, o), w') /\ settled w w') \/
  (exists w' lease, try_acquire_both store r i t w = (Some (true, lease), w') /\ holding r i t lease w w').
Proof.
  intros Ht. unfold try_acquire_both, try_acquire. destruct (Nat.leb (max_concurrency t) (in_use t)); cbn [negb].
  { right. left. eexists _, _. split; [done|]. apply settled_same; [|done]. cbn. by eapply slots_insert. }
  set (w1 := set_target i (with_slots t (S (in_use t))) w).
  assert (Hs1 : slots (gw w1) = alter S i (slots (gw w))) by (by apply slots_acquired).
  destruct store as [s|] eqn:Es.
  2: { right. right. exists w1, None. split; [done|]. split; [done|]. unfold lease_held; rewrite Es. by apply leases_kept_same. }
  destruct (try_acquire_bulkhead s _ _ _) as [o x] eqn:Ea.
  assert (Hrel : settled w (on_target i release_slot (with_st x w1))).
  { apply settled_same; [|done]. cbn [gw on_target with_gw with_st]. by rewrite slots_release, Hs1, alter_pred_succ. }
  destruct o as [[lease|]|]; [|right; left; by eexists _, _|left; by eexists _].
  right. right. eexists _, (Some lease). split; [done|]. split; [exact Hs1|]. unfold lease_held; rewrite Es.
  exists [Took (target_key r t) lease]. split_and!; [done| |done]. apply Forall_singleton. exists s, (st w1).
  split; [done|]. exists (max_concurrency t). exact (f_equal fst Ea).
Qed.

Lemma attempts_left r idx stream n last w resp l w' :
  attempts store call time r idx stream n last w = (resp, l, w') -> left_behind r stream resp w w'.
Proof.
  revert n last w resp l w'. induction idx as [|i idx IH]; intros n last w resp l w'; cbn [attempts].
  { intros [= <- _ <-]. by apply settled_same. }
  destruct (targets (gw w) !! i) as [t0|] eqn:Hi; [|apply IH]. unfold target_available.
  destruct (available_slots t0 (time n)) as [Hu _]. destruct (available t0 (time n)) as [ok t]. cbn [fst snd] in *.
  assert (Hs1 : settled w (set_target i t w)) by (apply settled_same; [|done]; by eapply slots_insert).
  assert (Hi1 : targets (gw (set_target i t w)) !! i = Some t) by (cbn; rewrite list_lookup_insert_eq; [done|by eapply lookup_lt_Some]).
  destruct ok; cbn [negb]; [|intros Ha; eapply settled_left; [exact Hs1|by eapply IH]].
  assert (Hgo : forall w1, settled w w1 -> targets (gw w1) !! i = Some t ->
    match try_acquire_both store r i t w1 with
    | (None, w2) => (unavailable, [], w2)
    | (Some (false, _), w2) => attempts store call time r idx stream n last w2
    | (Some (true, lease), w2) => call_target store call time (attempts store call time r idx stream) r stream n last i t lease w2
    end = (resp, l, w') -> left_behind r stream resp w w').
  { intros w1 Hw1 Ht1. destruct (acquire_cases r i t w1 Ht1) as [(w2 & -> & Hs2)|[(w2 & o & -> & Hs2)|(w2 & lease & -> & Hh2)]].
    - intros [= <- _ <-]. by eapply settled_trans.
    - intros Ha. eapply settled_left; [by eapply settled_trans|by eapply IH].
    - apply call_left; [by intros; eapply IH|]. by eapply settled_holding. }
  destruct store as [s|] eqn:Estore; [|by apply Hgo].
  destruct (circuit_available s (target_key r t) (failure_threshold t) (cooldown_seconds t) (st (set_target i t w))) as [[[|]|] x].
  - apply Hgo; [|done]. eapply settled_trans; [exact Hs1|by apply settled_same].
  - intros Ha. eapply settled_left; [|by eapply IH]. eapply settled_trans; [exact Hs1|by apply settled_same].
  - intros [= <- _ <-]. eapply settled_trans; [exact Hs1|by apply settled_same].
Qed.

Lemma select_settled r n w : settled w (with_gw (select_targets (gw w) r n).2 w).
Proof.
  destruct (select_targets (gw w) r n) as [l g] eqn:Hs. apply select_targets_spec in Hs as (_ & _ & Hs & _). by apply settled_same.
Qed.

Lemma rate_limit_settled r c w : settled w (rate_limit_async store time r c w).2.
Proof.
  unfold rate_limit_async. destruct store as [s|].
  - destruct (allow_rate_limit s _ _ _) as [o x]. by apply settled_same.
  - destruct (rate_limit_frame (gw w) r c (time 0)) as [Ht _]. destruct (rate_limit (gw w) r c (time 0)) as [ok g].
    apply settled_same; [|done]. cbn in *. unfold slots. by rewrite Ht.
Qed.

Lemma forward_left r c w resp l w' :
  forward_shared store call time r c w = (resp, l, w') ->
  settled w w' /\ (exists s m, resp = Response s m) \/
  exists route, dget (agent r) (routes (gw w)) = Some route /\ left_behind route (wants_stream r) resp w w'.
Proof.
  unfold forward_shared. destruct (dget (agent r) (routes (gw w))) as [route|].
  2: { intros [= <- _ <-]. left. split; [by apply settled_same|by eexists _, _]. }
  destruct (authorized route c); cbn [negb]; [|intros [= <- _ <-]; left; split; [by apply settled_same|by eexists _, _]].
  pose proof (rate_limit_settled route c w) as H1. destruct (rate_limit_async store time route c w) as [[[|]|] w1]; cbn [snd] in H1.
  2, 3: intros [= <- _ <-]; left; split; [done|by eexists _, _].
  pose proof (select_settled route (time 0) w1) as H2. destruct (select_targets (gw w1) route (time 0)) as [[|i ts] g]; cbn [snd] in H2.
  { intros [= <- _ <-]. left. split; [by eapply settled_trans|by eexists _, _]. }
  destruct (Nat.ltb MAX_BODY_BYTES (body_length r)); [intros [= <- _ <-]; left; split; [by eapply settled_trans|by eexists _, _]|].
  intros Ha. right. exists route. split; [done|]. eapply settled_left; [|by eapply attempts_left]. by eapply settled_trans.
Qed.

(** The leases are as they were. *)
Definition given_back w w' : Prop :=
  exists evs, log w' = (log w ++ evs)%list /\ forall held, outstanding held evs ≡ₚ held.

Definition releases_return : Prop := forall s k l x, store = Some s -> (release_bulkhead s k l x).1 = true.

(** Settled, and if no release raises nothing is left in the store. *)
Definition balanced w w' : Prop := settled w w' /\ (releases_return -> given_back w w').

Lemma settled_balanced w w' : settled w w' -> balanced w w'.
Proof.
  intros Hs. split; [done|]. destruct Hs as [_ (evs & Hl & Hx & Ho)]. intros Hr. exists evs. split; [done|]. intros held.
  rewrite Ho. assert (Hn : stuck evs = []); [|by rewrite Hn]. clear Ho Hl.
  induction Hx as [|e evs (s & x & Es & He) _ IH]; [done|].
  destruct e as [k l|k l|k l]; cbn; [done..|]. by rewrite (Hr s k l x Es) in He.
Qed.

(** C34: Slots and leases are given back together.  Whatever the targets answer and
    whichever operation of the store raises an exception, a request that was answered
    leaves the slots of every target as they were and has given back the leases it
    took, all but those whose release raised in the store (they stay there until their
    TTL); a plain request does so however it ends; and a streamed answer holds exactly
    one slot and its lease until the end of its body, however that comes about, gives
    them back in the same way.  When no release raises, the leases are as they were. *)
Theorem shared_slots_and_leases_balanced r c w resp l w' :
  forward_shared store call time r c w = (resp, l, w') ->
  (forall s m, resp = Response s m -> balanced w w') /\
  (wants_stream r = false -> balanced w w') /\
  (forall i s, resp = Streaming i s -> exists route t lease,
     dget (agent r) (routes (gw w)) = Some route /\ holding route i t lease w w' /\
     forall e now, balanced w (end_stream_shared store route i t lease e now w')).
Proof.
  intros Hf. destruct (forward_left _ _ _ _ _ _ Hf) as [[Hs (st0 & m0 & ->)]|(route & Hr & Hl)].
  { split_and!; [| |done]; intros; by apply settled_balanced. }
  split_and!.
  - intros s m ->. by apply settled_balanced.
  - intros Hw. rewrite Hw in Hl. apply settled_balanced. by destruct resp; [|destruct Hl|destruct Hl as [Hl|[Hl _]]].
  - intros i s ->. destruct Hl as (_ & t & lease & Hh). exists route, t, lease. split_and!; [done..|]. intros e now.
    apply settled_balanced. unfold end_stream_shared. apply release_settles.
    destruct e; [by apply (record_holding route i t lease now true)|by apply (record_holding route i t lease now false)|done].
Qed.
End leases.

(** C35: A gateway that cannot reach its shared state fails closed: when the operations
    of the store raise, no target is called, the caller gets an error status, and no
    slot or lease is held afterwards. *)
Theorem store_outage_fails_closed {St} (s : StateStore St) call time r c w :
  (forall k n x, (allow_rate_limit s k n x).1 = None) ->
  exists status m w', forward_shared (Some s) call time r c w = (Response status m, [], w') /\ (400 <= status)%Z /\
    slots (gw w') = slots (gw w) /\ log w' = log w /\ (is_Some (dget (agent r) (routes (gw w))) -> status = 403%Z \/ status = 503%Z).
Proof.
  intros Hs. unfold forward_shared. destruct (dget (agent r) (routes (gw w))) as [route|].
  2: { eexists _, _, _. split; [done|]. split; [lia|]. split_and!; [done..|]. by intros []. }
  destruct (authorized route c); cbn [negb].
  2: { eexists _, _, _. split; [done|]. split; [lia|]. split_and!; auto. }
  unfold rate_limit_async. specialize (Hs (route_agent route ++ ":" ++ caller_name c) (rate_limit_per_minute route) (st w)).
  destruct (allow_rate_limit s _ _ _) as [o x]. cbn [fst] in Hs. subst o.
  eexists _, _, _. split; [done|]. split; [lia|]. split_and!; auto.
Qed.

(** ** On Redis *)

Section redis.
Context `{GatewayState.Numbers} {S : Type} `{Redis.Redis S} (uuid : S -> string) (r : GatewayState.RedisGatewayStateStore).

Definition or_same {A} (s : S) (o : option (A * S)) : option A * S :=
  match o with Some (a, s) => (Some a, s) | None => (None, s) end.

(** [RedisGatewayStateStore] as the store of a gateway. *)
Definition redis_store : StateStore S := {|
  allow_rate_limit := fun k n s => or_same s (GatewayState.allow_rate_limit r k n s);
  circuit_available := fun k _ c s => or_same s (GatewayState.circuit_available r (uuid s) k c s);
  try_acquire_bulkhead := fun k n s => or_same s (GatewayState.try_acquire_bulkhead r (uuid s) k (Z.of_nat n) s);
  store_success := fun k s => GatewayState.record_success r k s;
  store_failure := fun k n c s => default s (GatewayState.record_failure r k n c s);
  release_bulkhead := fun k l s => (true, GatewayState.release_bulkhead r k l s)
|}.
End redis.

Definition demo_redis : StateStore Redis.Table := redis_store (fun _ => "uuid") (GatewayState.demo_store 120).
Definition demo_route (name : string) (rate : Z) : string * GatewayRoute :=
  (name, {| route_agent := name; route_targets := [0]; allowed_tenants := None; rate_limit_per_minute := rate |}).
Definition demo_gateway (rate : Z) : gateway :=
  {| routes := [demo_route "a" rate; demo_route "a:b" rate]; max_buckets := 10; idle_seconds := 300; buckets := [];
     round_robin := []; targets := [new_target "http://a" 1 3 30] |}.
Definition demo_request (name : string) (stream : bool) : request :=
  {| method := "GET"; agent := name; headers := []; body_length := 0; wants_stream := stream |}.
Definition demo_world (rate : Z) : world Redis.Table := {| gw := demo_gateway rate; st := Redis.empty_table; log := [] |}.
Definition demo_caller (t : string) : Caller := {| tenant := Some t; subject := "s" |}.
Definition demo_forward (u : upstream) (name t : string) (stream : bool) (w : world Redis.Table) : response * list nat * world Redis.Table :=
  forward_shared (Some demo_redis) (fun _ => u) (fun _ => 0%Q) (demo_request name stream) (demo_caller t) w.

Lemma shared_slots_and_leases_balanced_witness :
  let w := demo_world 60 in
  exists resp l w', demo_forward (Answered 200 "") "a" "t" true w = (resp, l, w') /\ resp = Streaming 0 200 /\
    exists route t lease, holding (Some demo_redis) route 0 t lease w w'.
Proof.
  cbn zeta. destruct (demo_forward (Answered 200 "") "a" "t" true (demo_world 60)) as [[resp l] w'] eqn:E.
  assert (Hr : resp = Streaming 0 200) by (vm_compute in E; congruence).
  destruct (shared_slots_and_leases_balanced (Some demo_redis) (fun _ => Answered 200 "") (fun _ => 0%Q) _ _ _ _ _ _ E) as (_ & _ & H).
  destruct (H 0 200%Z Hr) as (route & t & lease & _ & Hh & _). exists resp, l, w'. split; [done|]. split; [done|].
  by exists route, t, lease.
Defined.

Definition broken_store : StateStore unit := {|
  allow_rate_limit _ _ x := (None, x); circuit_available _ _ _ x := (None, x); try_acquire_bulkhead _ _ x := (None, x);
  store_success _ x := x; store_failure _ _ _ x := x; release_bulkhead _ _ x := (false, x)
|}.

Lemma store_outage_fails_closed_witness :
  exists status m w', forward_shared (Some broken_store) (fun _ => Answered 200 "") (fun _ => 0%Q) (demo_request "a" false) (demo_caller "t")
    {| gw := demo_gateway 60; st := tt; log := [] |} = (Response status m, [], w') /\ (400 <= status)%Z.
Proof.
  destruct (store_outage_fails_closed broken_store (fun _ => Answered 200 "") (fun _ => 0%Q) (demo_request "a" false) (demo_caller "t")
    {| gw := demo_gateway 60; st := tt; log := [] |}) as (status & m & w' & E & Hs & _); [done|].
  by exists status, m, w'.
Defined.

(** The shared key of a bucket does not keep agent and tenant apart, the local one
    does: a caller of one agent uses up what another caller of another agent has. *)
Example shared_buckets_collide :
  let w := (demo_forward (Answered 200 "") "a:b" "c" false (demo_world 1)).2 in
  (demo_forward (Answered 200 "") "a" "b:c" false w).1 = (Response 429 "rate limit exceeded", []) /\
  (let w := (forward_shared None (fun _ => Answered 200 "") (fun _ => 0%Q) (demo_request "a:b" false) (demo_caller "c") (demo_world 1)).2 in
   forward_shared None (fun _ => Answered 200 "") (fun _ => 0%Q) (demo_request "a" false) (demo_caller "b:c") w).1 = (Response 200 "", [0]).
Proof. vm_compute. split; reflexivity. Qed.

(** A stream that is interrupted while it is opened keeps its slot and its lease. *)
Example interrupted_stream_keeps_lease :
  let '(resp, _, w) := demo_forward Interrupted "a" "t" true (demo_world 60) in
  resp = Raises /\ slots (gw w) = [1] /\ outstanding [] (log w) = [("a:http://a", "uuid")].
Proof. vm_compute. split_and!; reflexivity. Qed.

(** The store is away when the lease is to be released: the local slot is free again,
    the lease stays in the store, and the next request finds no slot there. *)
Definition losing_store : StateStore Redis.Table := {|
  allow_rate_limit := allow_rate_limit demo_redis; circuit_available := circuit_available demo_redis;
  try_acquire_bulkhead := try_acquire_bulkhead demo_redis; store_success := store_success demo_redis;
  store_failure := store_failure demo_redis; release_bulkhead _ _ x := (false, x)
|}.

Example stuck_lease_blocks_the_target :
  let serve w := forward_shared (Some losing_store) (fun _ => Answered 200 "") (fun _ => 0%Q) (demo_request "a" false) (demo_caller "t") w in
  let '(resp, _, w) := serve (demo_world 60) in
  resp = Response 200 "" /\ slots (gw w) = [0] /\ outstanding [] (log w) = [("a:http://a", "uuid")] /\
  stuck (log w) = [("a:http://a", "uuid")] /\ (serve w).1.1 = Response 503 "no upstream accepted the call".
Proof. vm_compute. split_and!; reflexivity. Qed.

End GatewayShared.
