(* ===== verification/EdgeAuth.v ===== *)
(** * Who calls: authentication of the gateway and of the control planes

    The authenticators and the application of [cloud/gateway.py], and the middleware of
    [cloud/auth.py] that the registry, the configuration plane and the observability
    plane install.  PyJWT is a parameter. *)

From Stdlib Require Import Ascii.
From S2P Require Import Prelude Json Urls Gateway GatewayShared Providers Authentication.
Import Providers Gateway GatewayShared Authentication.
Local Open Scope string_scope.

Module EdgeAuth.

Abbreviation headers := (list (string * string)) (only parsing).
(** The protocols [GatewayAuthenticator] and [PlaneAuthenticator]. *)
Abbreviation authenticator := (list (string * string) -> option Caller) (only parsing).

(** The first header of that name, whatever its case. *)
Definition header (name : string) (hs : headers) : string :=
  default "" (snd <$> List.find (fun h => String.eqb (py_lower h.1) name) hs).

(** [StaticTokenAuthenticator.authenticate] *)
Definition static_caller (tokens : list (string * Caller)) : authenticator := fun hs =>
  let '(scheme, token) := py_partition " "%char (header "authorization" hs) in
  static_authenticate tokens scheme (default "" token).

Record OidcGatewayAuthenticator : Type := {
  oidc_issuer : string;
  oidc_audience : string;
  (** [jwt.decode] with the token's signing key, for an audience and an issuer. *)
  oidc_decode : string -> string -> string -> decoded
}.

(** [__init__] *)
Definition new_oidc (issuer audience : string) (decode : string -> string -> string -> decoded) : OidcGatewayAuthenticator :=
  {| oidc_issuer := rstrip_slash issuer; oidc_audience := audience; oidc_decode := decode |}.

Section oidc.
Context (py_str : json -> string).

(** [str(x) if x is not None else None] *)
Definition text_unless_none (j : json) : option string := match j with JNull => None | _ => Some (text_of py_str j) end.

(** [OidcGatewayAuthenticator.authenticate] *)
Definition oidc_caller (a : OidcGatewayAuthenticator) : authenticator := fun hs =>
  let '(scheme, rest) := py_partition " "%char (header "authorization" hs) in
  let token := py_strip (default "" rest) in
  if negb (String.eqb (py_lower scheme) "bearer") || negb (str_truthy token) then None
  else
    match oidc_decode a token (oidc_audience a) (oidc_issuer a) with
    | Claims claims =>
        Some {| tenant := text_unless_none (py_or (claim "tid" claims) (claim "tenant_id" claims));
                subject := text_of py_str (default (JStr "") (dget "sub" claims)) |}
    | PyJWTError | OtherError => None
    end.
End oidc.

(** [Gateway._authenticate]; [None] is [GatewayAuthenticationError]. *)
Definition edge_caller (a : option authenticator) (hs : headers) : option Caller :=
  match a with None => Some {| tenant := None; subject := "anonymous" |} | Some a => a hs end.

(** [proxy] of [create_gateway_app] *)
Definition proxy {St} (a : option authenticator) (store : option (StateStore St)) (call : nat -> upstream) (time : nat -> Q)
    (r : request) (w : world St) : response * list nat * world St :=
  match edge_caller a (Gateway.headers r) with
  | None => (Response 401 "missing or invalid bearer credentials", [], w)
  | Some c => forward_shared store call time r c w
  end.

(** [breaker_states], the answer of [/gateway/health]; asking a target whether it is
    available may close its circuit. *)
Fixpoint route_states (idx : list nat) (now : Q) (ts : list Target) (out : list (string * bool)) : list (string * bool) * list Target :=
  match idx with
  | [] => (out, ts)
  | i :: idx =>
      match ts !! i with
      | None => route_states idx now ts out
      | Some t =>
          let '(ok, t') := available t now in
          route_states idx now (<[i := t']> ts) (dset (base_url t) ok out)
      end
  end.

Fixpoint breaker_states (rs : list (string * GatewayRoute)) (now : Q) (ts : list Target)
  : list (string * list (string * bool)) * list Target :=
  match rs with
  | [] => ([], ts)
  | (name, r) :: rs =>
      let '(states, ts) := route_states (route_targets r) now ts [] in
      let '(out, ts) := breaker_states rs now ts in
      ((name, states) :: out, ts)
  end.

Definition gateway_health (now : Q) (g : gateway) : list (string * list (string * bool)) * gateway :=
  let '(out, ts) := breaker_states (routes g) now (targets g) in (out, set_targets g ts).

(** [install_plane_auth]: the answer of the middleware, or what the route answers. *)
Inductive plane_response (A : Type) : Type :=
  | Unauthorized (detail : string) (www_authenticate : string)
  | Handled (a : A).
Arguments Unauthorized {A} _ _.
Arguments Handled {A} a.

Definition plane_request {A : Type} (a : option authenticator) (path : string) (hs : headers) (call_next : A) : plane_response A :=
  match a with
  | None => Handled call_next
  | Some authenticate =>
      if String.eqb path "/health/ready" then Handled call_next
      else match authenticate hs with
           | None => Unauthorized "missing or invalid bearer credentials" "Bearer"
           | Some _ => Handled call_next
           end
  end.

(** ** Tokens *)

(** The bearer token of a request, as the gateway cuts it out. *)
Definition bearer (hs : headers) : option string :=
  let '(scheme, token) := py_partition " "%char (header "authorization" hs) in
  if String.eqb (py_lower scheme) "bearer" && str_truthy (default "" token) then token else None.

Lemma static_caller_bearer tokens hs : static_caller tokens hs = bearer hs ≫= fun token => dget token tokens.
Proof.
  unfold static_caller, bearer, static_authenticate. destruct (py_partition " "%char (header "authorization" hs)) as [scheme [token|]]; cbn.
  - destruct (String.eqb (py_lower scheme) "bearer"); [|done]. by destruct (str_truthy token).
  - by rewrite orb_true_r, andb_false_r.
Qed.

Lemma oidc_caller_bearer py_str a hs c : oidc_caller py_str a hs = Some c ->
  exists token claims, bearer hs = Some token /\ str_truthy (py_strip token) = true /\
    oidc_decode a (py_strip token) (oidc_audience a) (oidc_issuer a) = Claims claims /\
    subject c = text_of py_str (default (JStr "") (dget "sub" claims)) /\
    tenant c = text_unless_none py_str (py_or (claim "tid" claims) (claim "tenant_id" claims)).
Proof.
  unfold oidc_caller, bearer. destruct (py_partition " "%char (header "authorization" hs)) as [scheme [token|]].
  - change (default "" (Some token)) with token. destruct (String.eqb (py_lower scheme) "bearer"); [|done]. destruct (str_truthy (py_strip token)) eqn:Ht; [|done]. cbn.
    destruct (oidc_decode a _ _ _) as [claims| |] eqn:Hd; [|done|done]. intros [= <-]. exists token, claims.
    split_and!; [|exact Ht|exact Hd|reflexivity|reflexivity].
    destruct (str_truthy token) eqn:Hs; [done|]. apply str_truthy_false in Hs. subst token. vm_compute in Ht. discriminate.
  - change (str_truthy (py_strip (default "" None))) with false. by rewrite orb_true_r.
Qed.

(** What a deployment trusts, a table of tokens or an issuer, and the caller that a
    bearer token names under it: the table's entry under exactly that token, or the
    subject and tenant of the claims that the issuer's token decodes to. *)
Inductive trust : Type :=
  | Table (tokens : list (string * Caller))
  | Issuer (py_str : json -> string) (a : OidcGatewayAuthenticator).

Definition authenticator_of (d : trust) : authenticator :=
  match d with Table tokens => static_caller tokens | Issuer py_str a => oidc_caller py_str a end.

(** The keys of a Python dictionary are unique. *)
Definition trust_ok (d : trust) : Prop := match d with Table tokens => NoDup (dkeys tokens) | Issuer _ _ => True end.

Definition token_names (d : trust) (token : string) (c : Caller) : Prop :=
  match d with
  | Table tokens => (token, c) ∈ tokens
  | Issuer py_str a => exists claims, py_strip token <> "" /\
      oidc_decode a (py_strip token) (oidc_audience a) (oidc_issuer a) = Claims claims /\
      subject c = text_of py_str (default (JStr "") (dget "sub" claims)) /\
      tenant c = text_unless_none py_str (py_or (claim "tid" claims) (claim "tenant_id" claims))
  end.

Lemma authenticator_names d hs c : trust_ok d ->
  authenticator_of d hs = Some c <-> exists token, bearer hs = Some token /\ token_names d token c.
Proof.
  destruct d as [tokens|py_str a]; cbn [authenticator_of trust_ok token_names]; intros Hd.
  - rewrite static_caller_bearer, bind_Some. split; intros (token & Hb & Ht); exists token; (split; [done|]).
    + by apply dget_elem.
    + by apply elem_dget.
  - split.
    + intros (token & claims & Hb & Ht & Hdec & Hsub & Hten)%oidc_caller_bearer. exists token. split; [done|].
      exists claims. split_and!; [|done..]. intros E. by rewrite E in Ht.
    + intros (token & Hb & claims & Ht & Hdec & Hsub & Hten). unfold bearer in Hb. unfold oidc_caller.
      destruct (py_partition " "%char (header "authorization" hs)) as [scheme rest].
      destruct (String.eqb (py_lower scheme) "bearer"); [|done]. destruct (str_truthy (default "" rest)); [|done].
      cbn [andb] in Hb. subst rest. change (default "" (Some token)) with token.
      destruct (str_truthy (py_strip token)) eqn:E; [|by apply str_truthy_false in E]. cbn [negb orb]. rewrite Hdec.
      destruct c as [tn sb]. cbn in Hsub, Hten. by rewrite Hsub, Hten.
Qed.

(** C8: The gateway acts for the caller that the presented bearer token names, and
    for nobody else.  Under a table of tokens that is the entry of exactly this
    token; under an issuer the subject and tenant of the claims that it decodes to
    for the configured audience and issuer.  A request whose token names a caller is
    forwarded as that caller; one without a bearer token, or with one that names
    nobody, gets 401, reaches no target and changes nothing. *)
Theorem gateway_acts_for_token_holder {St} (d : trust) store call time r (w : world St) :
  trust_ok d ->
  let served := proxy (Some (authenticator_of d)) store call time r w in
  (forall token c, bearer (Gateway.headers r) = Some token -> token_names d token c ->
     served = forward_shared store call time r c w) /\
  ((forall token c, bearer (Gateway.headers r) = Some token -> ~ token_names d token c) ->
     served = (Response 401 "missing or invalid bearer credentials", [], w)).
Proof.
  intros Hd. unfold proxy, edge_caller. split.
  - intros token c Hb Hn. assert (Hc : authenticator_of d (Gateway.headers r) = Some c)
      by (apply authenticator_names; [done|]; by exists token). by rewrite Hc.
  - intros Hno. destruct (authenticator_of d (Gateway.headers r)) as [c|] eqn:Hc; [|done].
    apply authenticator_names in Hc as (token & Hb & Hn); [|done]. by destruct (Hno token c).
Qed.

(** A control plane with an authenticator answers nobody it does not know, except
    for the readiness probe. *)
Theorem plane_answers_known_callers {A} (a : authenticator) path hs (call_next : A) :
  plane_request (Some a) path hs call_next = Handled call_next <-> path = "/health/ready" \/ is_Some (a hs).
Proof.
  unfold plane_request. destruct (String.eqb_spec path "/health/ready") as [->|Hne]; [by split; [left|]|].
  destruct (a hs) as [c|]; split; try done; [by right; eexists|]. intros [E|[c Hc]]; done.
Qed.

(** ** On concrete input *)

Definition demo_tokens : list (string * Caller) := [("s3cret", {| tenant := Some "acme"; subject := "alice" |})].

Example scheme_ignores_case :
  static_caller demo_tokens [("Authorization", "BEARER s3cret")] = Some {| tenant := Some "acme"; subject := "alice" |} /\
  static_caller demo_tokens [("Authorization", "Bearer  s3cret")] = None /\
  static_caller demo_tokens [("x-token", "s3cret")] = None.
Proof. vm_compute. split_and!; reflexivity. Qed.

(** The core takes an empty tenant claim for none, the gateway for a tenant without
    a name. *)
Example empty_tenant_is_a_tenant :
  let a := new_oidc "https://idp/" "gw" (fun _ _ _ => Claims [("sub", JStr "bob"); ("tenant_id", JStr "")]) in
  oidc_caller (fun _ => "") a [("authorization", "Bearer t")] = Some {| tenant := Some ""; subject := "bob" |}.
Proof. vm_compute. reflexivity. Qed.

Definition cooled_gateway : gateway :=
  {| routes := [("agent", {| route_agent := "agent"; route_targets := [0]; allowed_tenants := None; rate_limit_per_minute := 60 |})];
     max_buckets := 10; idle_seconds := 300; buckets := []; round_robin := [];
     targets := [with_breaker (new_target "http://a" 1 3 30) 3 (Some 0%Q)] |}.

(** Reading the health of the gateway is what closes a circuit that has cooled down:
    the target is back for everyone without a probe. *)
Example health_closes_circuits :
  let '(out, g) := gateway_health 30 cooled_gateway in
  out = [("agent", [("http://a", true)])] /\ opened_at <$> targets g = [None].
Proof. vm_compute. split; reflexivity. Qed.

Definition two_tokens : list (string * Caller) :=
  demo_tokens ++ [("t0ken", {| tenant := None; subject := "bob" |})].
Definition demo_call (token : string) : request :=
  {| method := "GET"; agent := "agent"; Gateway.headers := [("Authorization", "Bearer " ++ token)]; body_length := 0; wants_stream := false |}.
Definition demo_edge : world unit := {| gw := cooled_gateway; st := tt; log := [] |}.

(** The second token of the table is its own caller; a third is nobody. *)
Lemma gateway_acts_for_token_holder_witness :
  let serve r := proxy (Some (static_caller two_tokens)) None (fun _ => Answered 200 "ok") (fun _ => 40%Q) r demo_edge in
  serve (demo_call "t0ken") =
    forward_shared None (fun _ => Answered 200 "ok") (fun _ => 40%Q) (demo_call "t0ken") {| tenant := None; subject := "bob" |} demo_edge /\
  serve (demo_call "guess") = (Response 401 "missing or invalid bearer credentials", [], demo_edge).
Proof.
  assert (Hok : trust_ok (Table two_tokens)) by (cbn; repeat constructor; set_solver).
  split.
  - destruct (gateway_acts_for_token_holder (Table two_tokens) None (fun _ => Answered 200 "ok") (fun _ => 40%Q)
      (demo_call "t0ken") demo_edge Hok) as [H _].
    apply (H "t0ken"); [reflexivity|]. right. left.
  - destruct (gateway_acts_for_token_holder (Table two_tokens) None (fun _ => Answered 200 "ok") (fun _ => 40%Q)
      (demo_call "guess") demo_edge Hok) as [_ H].
    apply H. intros token c [= <-] Hin. repeat (apply elem_of_cons in Hin as [Hin|Hin]; [discriminate Hin|]). inversion Hin.
Defined.

End EdgeAuth.
