(* ===== verification/RedisA2a.v ===== *)
(** * Agent-to-agent tasks in Redis

    [RedisA2ATaskStore] and [RedisPushNotificationConfigStore] of
    [interoperability/a2a_store.py].  The tasks of a tenant are texts with a time to
    live and an index by the time they were saved; the callbacks of a task are the
    fields of one hash.  Selection, order and pages are those of the SQLite store
    ([A2aStore]). *)

From Stdlib Require Import Ascii.
From S2P Require Import Prelude Json Urls A2aStore Redis RedisOps.
Import Urls Redis.
Local Open Scope string_scope.

Module RedisA2a.

(** [max(1, math.ceil(self._ttl_seconds))] *)
Definition whole_seconds (ttl : Q) : Z := Z.max 1 (Qceiling ttl).

Lemma whole_seconds_enough ttl : (0 < whole_seconds ttl)%Z /\ (ttl <= inject_Z (whole_seconds ttl))%Q.
Proof.
  unfold whole_seconds. split; [lia|]. pose proof (Qle_ceiling ttl).
  assert (inject_Z (Qceiling ttl) <= inject_Z (Z.max 1 (Qceiling ttl)))%Q by (rewrite <-Zle_Qle; lia). lra.
Qed.

Section tasks.
Context {Task : Type}.
Context (task_id context_id timestamp : Task -> string) (state : Task -> Z).
Context (to_json : Task -> string) (of_json : string -> option Task).
Context (encode_page_token : string -> string) (decode_page_token : string -> option string).
(** ["{namespace}:a2a:task:"], [ttl_seconds], [max_task_bytes] *)
Context (prefix : string) (ttl : Q) (max_task_bytes : nat).

(** [_key], [_index_key] *)
Definition task_key (id tenant : string) : string := prefix ++ "tenant:" ++ quote "" tenant ++ ":" ++ quote "" id.
Definition index_key (tenant : string) : string := prefix ++ "index:tenant:" ++ quote "" tenant.

(** [save]: two commands, one after the other. *)
Definition save_task (tenant : string) (t : Task) : prog (result A2aStore.error unit) :=
  if Nat.ltb max_task_bytes (String.length (to_json t))
  then Ret (Err (A2aStore.ValueError "A2A task exceeds the configured persistence limit"))
  else if negb (str_truthy (task_id t)) || negb (str_truthy (context_id t))
  then Ret (Err (A2aStore.ValueError "A2A tasks require non-empty id and context_id"))
  else
    let k := task_key (task_id t) tenant in
    Do [SET k (to_json t) (Some (whole_seconds ttl))] (Clock (fun now => Do [ZADD (index_key tenant) k now] (Ret (Ok tt)))).

(** [get] *)
Definition get_task (tenant id : string) : prog (option Task) :=
  let k := task_key id tenant in
  Get k (fun o => match o with
                  | None => Ret None
                  | Some raw => match of_json raw with Some t => Ret (Some t) | None => Do [DEL k] (Ret None) end
                  end).

(** [delete] *)
Definition delete_task (tenant id : string) : prog unit :=
  let k := task_key id tenant in Do [DEL k] (Do [ZREM (index_key tenant) k] (Ret tt)).

(** The loop of [list]: the tasks that are there, the others leave the index. *)
Fixpoint gather (index : string) (l : list (string * option string)) (acc : list Task) : prog (list Task) :=
  match l with
  | [] => Ret acc
  | (k, None) :: l => Do [ZREM index k] (gather index l acc)
  | (k, Some raw) :: l =>
      match of_json raw with
      | Some t => gather index l (acc ++ [t])%list
      | None => Do [DEL k] (Do [ZREM index k] (gather index l acc))
      end
  end.

(** [list] *)
Definition list_tasks (tenant : string) (p : A2aStore.list_params) : prog (result A2aStore.error (A2aStore.page (Task := Task))) :=
  Members (index_key tenant) (fun ms =>
    let keys := reverse ms.*1 in
    MGet keys (fun raws =>
      ts ← gather (index_key tenant) (zip keys raws) [];
      Ret (A2aStore.page_of task_id encode_page_token decode_page_token p
             (sort_by (A2aStore.newest_first task_id timestamp) (filterb (A2aStore.selected context_id state p) ts))))).

(** ** Keys *)

Lemma task_key_inj id tenant id' tenant' : task_key id tenant = task_key id' tenant' -> id = id' /\ tenant = tenant'.
Proof.
  unfold task_key. intros E%append_inj_l%append_inj_l. change (":" ++ quote "" id) with (String ":" (quote "" id)) in E.
  change (":" ++ quote "" id') with (String ":" (quote "" id')) in E.
  apply lacks_split in E as [Ht Hi]; [|apply quote_lacks; vm_compute; reflexivity..].
  by apply quote_all_inj in Ht, Hi.
Qed.

Lemma index_key_inj tenant tenant' : index_key tenant = index_key tenant' -> tenant = tenant'.
Proof. unfold index_key. by intros E%append_inj_l%append_inj_l%quote_all_inj. Qed.

Lemma task_not_index id tenant tenant' : task_key id tenant <> index_key tenant'.
Proof. unfold task_key, index_key. intros E%append_inj_l. discriminate E. Qed.

(** ** The tasks of a tenant and their index *)

Context {S : Type} `{Redis S}.
Implicit Types (s : S) (t : Task).
(** Documented behaviour of the SDK: its serializers are inverse to each other. *)
Hypothesis serializers : forall t, of_json (to_json t) = Some t.

Record tasks_ok s : Prop := {
  index_set : forall tenant, find s (index_key tenant) = None \/ exists l, find s (index_key tenant) = Some (VZset l, None);
  index_members : forall tenant k, k ∈ dkeys (zrange s (index_key tenant)) -> exists id, k = task_key id tenant;
  index_nodup : forall tenant, NoDup (dkeys (zrange s (index_key tenant)));
  index_full : forall id tenant, find s (task_key id tenant) <> None -> task_key id tenant ∈ dkeys (zrange s (index_key tenant));
  stored_texts : forall id tenant v d, find s (task_key id tenant) = Some (v, d) ->
    exists t, v = VString (to_json t) /\ task_id t = id
}.

(** What reading a task gives. *)
Definition task_at s (tenant id : string) : option Task := get s (task_key id tenant) ≫= of_json.

Lemma task_at_id s tenant id t : tasks_ok s -> task_at s tenant id = Some t -> task_id t = id.
Proof.
  intros Hs. unfold task_at, get. destruct (find s (task_key id tenant)) as [[v d]|] eqn:Hf; [|done].
  destruct (stored_texts s Hs id tenant v d Hf) as (t' & -> & <-). cbn. rewrite serializers. by intros [= ->].
Qed.

Lemma index_fits s tenant c : tasks_ok s -> key_of c = index_key tenant ->
  match c with ZADD _ _ _ | ZREM _ _ => True | _ => False end -> fits c (find s (key_of c)) = true.
Proof. intros Hs -> Hc. destruct (index_set s Hs tenant) as [->|[l ->]]; by destruct c. Qed.

Lemma zrange_same s s' k : find s' k = find s k -> zrange s' k = zrange s k.
Proof. unfold zrange. by intros ->. Qed.

(** The index after a member was added or removed. *)
Lemma index_run s tenant c (m : string) (f : list (string * Q) -> list (string * Q)) :
  tasks_ok s -> c = ZREM (index_key tenant) m /\ f = dpop m \/ (exists q, c = ZADD (index_key tenant) m q /\ f = zset_add m q) ->
  zrange (run c s) (index_key tenant) = f (zrange s (index_key tenant)) /\
  (find (run c s) (index_key tenant) = None \/ exists l, find (run c s) (index_key tenant) = Some (VZset l, None)) /\
  forall k, k <> index_key tenant -> find (run c s) k = find s k.
Proof.
  intros Hs Hc. assert (Hk : key_of c = index_key tenant) by (by destruct Hc as [[-> _]|(q & -> & _)]).
  assert (Hfit : fits c (find s (key_of c)) = true) by (apply (index_fits s tenant); [done..|]; by destruct Hc as [[-> _]|(q & -> & _)]).
  pose proof (find_run_self c s Hfit) as Hr. rewrite Hk in Hr. split; [|split].
  - unfold zrange at 1. rewrite Hr. unfold zrange. destruct Hc as [[-> ->]|(q & -> & ->)]; destruct (index_set s Hs tenant) as [->|[l ->]]; cbn; try done.
    unfold some_members. by destruct (dpop m l).
  - rewrite Hr. destruct Hc as [[-> ->]|(q & -> & ->)]; destruct (index_set s Hs tenant) as [->|[l ->]]; cbn; eauto.
    unfold some_members. destruct (dpop m l); eauto.
  - intros k Hne. apply find_run_other; [done|congruence].
Qed.

Lemma ok_unindexed s tenant id : tasks_ok s -> find s (task_key id tenant) = None -> tasks_ok (run (ZREM (index_key tenant) (task_key id tenant)) s).
Proof.
  intros Hs Hn. set (k := task_key id tenant) in *.
  destruct (index_run s tenant (ZREM (index_key tenant) k) k (dpop k) Hs) as (Hz & Hset & Ho); [by left|].
  assert (Hzo : forall tenant', tenant' <> tenant -> zrange (run (ZREM (index_key tenant) k) s) (index_key tenant') = zrange s (index_key tenant'))
    by (intros tenant' Hne; apply zrange_same, Ho; by intros ?%index_key_inj).
  assert (Hsub : forall tenant' x, x ∈ dkeys (zrange (run (ZREM (index_key tenant) k) s) (index_key tenant')) -> x ∈ dkeys (zrange s (index_key tenant'))).
  { intros tenant' x. destruct (decide (tenant' = tenant)) as [->|Hne]; [|by rewrite Hzo]. rewrite Hz, elem_dkeys_dpop. by intros []. }
  split.
  - intros tenant'. destruct (decide (tenant' = tenant)) as [->|Hne]; [done|]. rewrite Ho by (by intros ?%index_key_inj). apply Hs.
  - intros tenant' x Hx. by apply (index_members s Hs), Hsub.
  - intros tenant'. destruct (decide (tenant' = tenant)) as [->|Hne]; [rewrite Hz; apply NoDup_dpop, Hs|]. rewrite Hzo by done. apply Hs.
  - intros id' tenant'. rewrite Ho by apply task_not_index. intros Hf. pose proof (index_full s Hs id' tenant' Hf) as Hin.
    destruct (decide (tenant' = tenant)) as [->|Hne]; [|by rewrite Hzo]. rewrite Hz, elem_dkeys_dpop. split; [congruence|done].
  - intros id' tenant' v d. rewrite Ho by apply task_not_index. apply Hs.
Qed.

Lemma ok_deleted s tenant id : tasks_ok s -> tasks_ok (run (DEL (task_key id tenant)) s) /\ find (run (DEL (task_key id tenant)) s) (task_key id tenant) = None.
Proof.
  intros Hs. assert (Hi : forall tenant', find (run (DEL (task_key id tenant)) s) (index_key tenant') = find s (index_key tenant'))
    by (intros tenant'; apply find_run_other; [done|]; intros E; by eapply task_not_index).
  assert (Hz : forall tenant', zrange (run (DEL (task_key id tenant)) s) (index_key tenant') = zrange s (index_key tenant'))
    by (intros; by apply zrange_same).
  assert (Hf : forall k, find (run (DEL (task_key id tenant)) s) k = if decide (k = task_key id tenant) then None else find s k)
    by (intros k; by rewrite find_run).
  split; [|by rewrite Hf, decide_True]. split.
  - intros tenant'. rewrite Hi. apply Hs.
  - intros tenant' k. rewrite Hz. apply Hs.
  - intros tenant'. rewrite Hz. apply Hs.
  - intros id' tenant'. rewrite Hf, Hz. case_decide; [done|]. apply Hs.
  - intros id' tenant' v d. rewrite Hf. case_decide; [done|]. apply Hs.
Qed.

Lemma ok_saved s tenant t now :
  tasks_ok s ->
  let k := task_key (task_id t) tenant in
  let s' := run (ZADD (index_key tenant) k now) (run (SET k (to_json t) (Some (whole_seconds ttl))) s) in
  tasks_ok s' /\ find s' k = Some (VString (to_json t), Some (time s + inject_Z (whole_seconds ttl))%Q).
Proof.
  intros Hs k. cbn zeta. set (s1 := run (SET k (to_json t) (Some (whole_seconds ttl))) s).
  assert (Hfit : fits (SET k (to_json t) (Some (whole_seconds ttl))) (find s k) = true) by (cbn; apply Z.ltb_lt, whole_seconds_enough).
  assert (Hf : forall x, find s1 x = if decide (x = k) then Some (VString (to_json t), Some (time s + inject_Z (whole_seconds ttl))%Q) else find s x)
    by (intros x; unfold s1; by rewrite find_run).
  assert (Hi1 : forall tenant', find s1 (index_key tenant') = find s (index_key tenant'))
    by (intros tenant'; rewrite Hf, decide_False; [done|]; intros E; by eapply task_not_index).
  assert (Hz1 : forall tenant', zrange s1 (index_key tenant') = zrange s (index_key tenant')) by (intros; by apply zrange_same).
  set (c := ZADD (index_key tenant) k now).
  assert (Hfc : fits c (find s1 (key_of c)) = true) by (cbn [c key_of]; rewrite Hi1; by destruct (index_set s Hs tenant) as [->|[l ->]]).
  assert (Ho : forall x, x <> index_key tenant -> find (run c s1) x = find s1 x) by (intros x Hne; by apply find_run_other).
  assert (Hzo : forall tenant', tenant' <> tenant -> zrange (run c s1) (index_key tenant') = zrange s (index_key tenant'))
    by (intros tenant' Hne; rewrite <-Hz1; apply zrange_same, Ho; by intros ?%index_key_inj).
  assert (Hset : find (run c s1) (index_key tenant) = Some (VZset (zset_add k now (zrange s (index_key tenant))), None)).
  { rewrite (find_run_self c) by done. cbn [c key_of]. rewrite Hi1. unfold zrange. by destruct (index_set s Hs tenant) as [->|[l ->]]. }
  assert (Hzt : zrange (run c s1) (index_key tenant) = zset_add k now (zrange s (index_key tenant))) by (unfold zrange at 1; by rewrite Hset).
  assert (Hel : forall x, x ∈ dkeys (zset_add k now (zrange s (index_key tenant))) <-> x = k \/ x <> k /\ x ∈ dkeys (zrange s (index_key tenant))).
  { intros x. unfold dkeys at 1, zset_add. rewrite sinsert_perm. cbn. rewrite elem_of_cons.
    change ((dpop k (zrange s (index_key tenant))).*1) with (dkeys (dpop k (zrange s (index_key tenant)))). by rewrite elem_dkeys_dpop. }
  split; [|rewrite Ho by apply task_not_index; by rewrite Hf, decide_True]. split.
  - intros tenant'. destruct (decide (tenant' = tenant)) as [->|Hne]; [right; by eexists|].
    rewrite Ho by (by intros ?%index_key_inj). rewrite Hi1. apply Hs.
  - intros tenant' x. destruct (decide (tenant' = tenant)) as [->|Hne]; [|rewrite Hzo by done; apply Hs].
    rewrite Hzt, Hel. intros [->|[_ Hx]]; [by eexists|by apply (index_members s Hs)].
  - intros tenant'. destruct (decide (tenant' = tenant)) as [->|Hne]; [rewrite Hzt; apply NoDup_zset_add, Hs|rewrite Hzo by done; apply Hs].
  - intros id' tenant'. rewrite Ho by apply task_not_index. rewrite Hf. case_decide as E.
    + apply task_key_inj in E as [-> ->]. intros _. rewrite Hzt, Hel. by left.
    + intros Hx%(index_full s Hs). destruct (decide (tenant' = tenant)) as [->|Hne]; [rewrite Hzt, Hel; by right|by rewrite Hzo].
  - intros id' tenant' v d. rewrite Ho by apply task_not_index. rewrite Hf. case_decide as E; [|apply Hs].
    apply task_key_inj in E as [-> ->]. intros [= <- _]. by eexists.
Qed.

Lemma ok_pass s d : (0 <= d)%Q -> tasks_ok s -> tasks_ok (pass d s).
Proof.
  intros Hd Hs. assert (Hi : forall tenant, find (pass d s) (index_key tenant) = find s (index_key tenant)).
  { intros tenant. destruct (find_pass d s (index_key tenant) Hd) as [->|(_ & v & x & E & _)]; [done|].
    destruct (index_set s Hs tenant) as [E'|[l E']]; congruence. }
  assert (Hz : forall tenant, zrange (pass d s) (index_key tenant) = zrange s (index_key tenant)) by (intros; by apply zrange_same).
  assert (Hk : forall k x, find (pass d s) k = Some x -> find s k = Some x) by (intros k x; by destruct (find_pass d s k Hd) as [->|[-> _]]).
  split.
  - intros tenant. rewrite Hi. apply Hs.
  - intros tenant k. rewrite Hz. apply Hs.
  - intros tenant. rewrite Hz. apply Hs.
  - intros id tenant. rewrite Hz. destruct (find (pass d s) (task_key id tenant)) as [x|] eqn:E; [|done]. intros _.
    apply (index_full s Hs). by rewrite (Hk _ _ E).
  - intros id tenant v e E. apply (stored_texts s Hs id tenant v e). by apply Hk.
Qed.

(** *** The listing *)

Lemma listing_gather_spec i tenant ks acc s0 s :
  tasks_ok s -> (forall id tenant', find s (task_key id tenant') = find s0 (task_key id tenant')) ->
  (forall k, k ∈ ks -> exists id, k = task_key id tenant) ->
  let r := run_prog i (gather (index_key tenant) (zip ks (get s0 <$> ks)) acc) s in
  r.1 = (acc ++ omap (fun k => get s0 k ≫= of_json) ks)%list /\ tasks_ok r.2 /\
  forall id tenant', find r.2 (task_key id tenant') = find s0 (task_key id tenant').
Proof.
  revert acc s. induction ks as [|k ks IH]; intros acc s Hs Hf Hks; [by rewrite app_nil_r|].
  destruct (Hks k) as [id ->]; [left|]. assert (Hks' : forall x, x ∈ ks -> exists id, x = task_key id tenant) by (intros; apply Hks; by right).
  assert (Hg : get s0 (task_key id tenant) = None /\ find s (task_key id tenant) = None \/
               exists t, get s0 (task_key id tenant) = Some (to_json t)).
  { unfold get. rewrite <-Hf. destruct (find s (task_key id tenant)) as [[v d]|] eqn:E; [|by left].
    destruct (stored_texts s Hs id tenant v d E) as (t & -> & _). right. by exists t. }
  cbn [fmap list_fmap zip zip_with gather omap list_omap]. destruct Hg as [[Hg Hn]|[t Hg]]; rewrite Hg; cbn [gather run_prog mbind option_bind].
  - apply IH; [by apply ok_unindexed| |done]. intros id' tenant'. rewrite <-Hf.
    destruct (index_run s tenant (ZREM (index_key tenant) (task_key id tenant)) (task_key id tenant) (dpop (task_key id tenant)) Hs) as (_ & _ & Ho);
      [by left|]. apply Ho, task_not_index.
  - rewrite serializers. destruct (IH (acc ++ [t])%list s Hs Hf Hks') as (-> & H2 & H3). rewrite <-app_assoc. done.
Qed.

(** *** Clients, one call at a time *)

Inductive call : Type :=
  | CSave (tenant : string) (t : Task)
  | CGet (tenant id : string)
  | CDelete (tenant id : string)
  | CList (tenant : string) (p : A2aStore.list_params)
  | CWait (d : Q).

Definition perform s (c : call) : S :=
  match c with
  | CSave tenant t => (run_prog 0 (save_task tenant t) s).2
  | CGet tenant id => (run_prog 0 (get_task tenant id) s).2
  | CDelete tenant id => (run_prog 0 (delete_task tenant id) s).2
  | CList tenant p => (run_prog 0 (list_tasks tenant p) s).2
  | CWait d => if (0 <=? d)%clock then pass d s else s
  end.

Lemma run_get_task i s tenant id : tasks_ok s -> run_prog i (get_task tenant id) s = (task_at s tenant id, s).
Proof.
  intros Hs. unfold get_task, task_at. cbn [run_prog]. unfold get. destruct (find s (task_key id tenant)) as [[v d]|] eqn:E; [|done].
  destruct (stored_texts s Hs id tenant v d E) as (t & -> & _). cbn. by rewrite serializers.
Qed.

Lemma run_list_tasks i s tenant p : tasks_ok s ->
  let ts := omap (fun k => get s k ≫= of_json) (reverse (zrange s (index_key tenant)).*1) in
  let r := run_prog i (list_tasks tenant p) s in
  r.1 = A2aStore.page_of task_id encode_page_token decode_page_token p
          (sort_by (A2aStore.newest_first task_id timestamp) (filterb (A2aStore.selected context_id state p) ts)) /\ tasks_ok r.2.
Proof.
  intros Hs. cbn zeta. unfold list_tasks. cbn [run_prog]. rewrite run_prog_bind.
  destruct (listing_gather_spec i tenant (reverse (zrange s (index_key tenant)).*1) [] s s Hs) as (-> & H2 & _); [done| |by split].
  intros k. rewrite elem_of_reverse. apply (index_members s Hs).
Qed.

Lemma task_perform_ok s c : tasks_ok s -> tasks_ok (perform s c).
Proof.
  intros Hs. destruct c as [tenant t|tenant id|tenant id|tenant p|d]; cbn [perform].
  - unfold save_task. destruct (Nat.ltb _ _); [done|]. destruct (_ || _); [done|]. cbn [run_prog snd].
    change (run_all [?c] ?x) with (run c x). by apply ok_saved.
  - by rewrite run_get_task.
  - unfold delete_task. cbn [run_prog snd]. change (run_all [?c] ?x) with (run c x). destruct (ok_deleted s tenant id Hs). by apply ok_unindexed.
  - by apply run_list_tasks.
  - destruct (0 <=? d)%clock eqn:Hd; [|done]. apply qleb_true in Hd. by apply ok_pass.
Qed.

Lemma NoDup_ids s tenant ks :
  tasks_ok s -> NoDup ks -> (forall k, k ∈ ks -> exists id, k = task_key id tenant) -> NoDup (task_id <$> omap (fun k => get s k ≫= of_json) ks).
Proof.
  intros Hs. induction ks as [|k ks IH]; intros Hnd Hks; [constructor|]. apply NoDup_cons in Hnd as [Hk Hnd].
  specialize (IH Hnd ltac:(intros; apply Hks; by right)). cbn. destruct (Hks k) as [id ->]; [left|].
  destruct (get s (task_key id tenant) ≫= of_json) as [t|] eqn:Et; cbn; [|done]. apply NoDup_cons. split; [|done].
  intros (t' & Ht' & Hin)%list_elem_of_fmap. apply list_elem_of_omap in Hin as (k' & Hk' & Et'). destruct (Hks k') as [id' ->]; [by right|].
  apply (task_at_id s tenant id t Hs) in Et. apply (task_at_id s tenant id' t' Hs) in Et'. apply Hk. congruence.
Qed.

(** The listing of a tenant is exact.  After any calls made one after the other
    and whatever time has passed, it pages through a list without duplicates, newest
    first, of precisely the tasks of that tenant that reading them one by one would
    give and that the filters select. *)
Theorem redis_listing_exact s calls tenant p :
  tasks_ok s ->
  let s' := foldl perform s calls in
  exists l, (run_prog 0 (list_tasks tenant p) s').1 = A2aStore.page_of task_id encode_page_token decode_page_token p l /\
    NoDup (task_id <$> l) /\ StronglySorted (fun a b => A2aStore.newest_first task_id timestamp a b = true) l /\
    forall t, t ∈ l <-> (run_prog 0 (get_task tenant (task_id t)) s').1 = Some t /\ A2aStore.selected context_id state p t = true.
Proof.
  intros Hs. cbn zeta. assert (Hs' : tasks_ok (foldl perform s calls)) by (apply foldl_invariant; [done|]; intros; by apply task_perform_ok).
  set (s' := foldl perform s calls) in *. clearbody s'. destruct (run_list_tasks 0 s' tenant p Hs') as [-> _].
  set (ts := omap _ _). eexists. split; [done|].
  assert (Hts : forall t, t ∈ ts <-> task_at s' tenant (task_id t) = Some t).
  { intros t. unfold ts. rewrite list_elem_of_omap. split.
    - intros (k & Hk & Ht). rewrite elem_of_reverse in Hk. destruct (index_members s' Hs' tenant k Hk) as [id ->].
      assert (Hid : task_id t = id) by (by apply (task_at_id s' tenant)). by rewrite Hid.
    - intros Ht. exists (task_key (task_id t) tenant). split; [|done]. rewrite elem_of_reverse. apply (index_full s' Hs').
      unfold task_at, get in Ht. by destruct (find s' (task_key (task_id t) tenant)). }
  split_and!.
  - rewrite sort_by_perm. apply (sublist_NoDup _ (task_id <$> ts)); [|apply fmap_sublist, filterb_sublist].
    apply (NoDup_ids s' tenant); [done|rewrite reverse_Permutation; apply (index_nodup s' Hs')|]. intros k. rewrite elem_of_reverse. apply (index_members s' Hs').
  - apply sort_by_sorted; unfold A2aStore.newest_first; intros; eauto with agents.
  - intros t. rewrite elem_of_sort_by, elem_of_filterb, Hts, run_get_task by done. done.
Qed.

(** A task lives from its last save.  Saving a task that is within the limits
    makes it readable, as it was given, for the whole time to live from that moment,
    also when an older version was about to expire, and for less than a second more. *)
Theorem redis_task_lives_from_last_save s tenant t d :
  tasks_ok s -> (0 <= d)%Q -> (run_prog 0 (save_task tenant t) s).1 = Ok tt ->
  let s' := pass d (run_prog 0 (save_task tenant t) s).2 in
  ((d < ttl)%Q -> (run_prog 0 (get_task tenant (task_id t)) s').1 = Some t) /\
  ((ttl + 1 <= d)%Q -> (1 < d)%Q -> (run_prog 0 (get_task tenant (task_id t)) s').1 = None).
Proof.
  intros Hs Hd. unfold save_task. destruct (Nat.ltb _ _); [done|]. destruct (_ || _); [done|]. intros _. cbn zeta.
  cbn [run_prog snd]. rewrite time_run_all. change (run_all [?b] (run_all [?a] s)) with (run b (run a s)).
  destruct (ok_saved s tenant t (time s) Hs) as [Hok Hf]. set (s1 := run (ZADD _ _ _) _) in *.
  assert (Ht1 : time s1 = time s) by (unfold s1; by rewrite !time_run).
  rewrite run_get_task by (by apply ok_pass). cbn [fst]. unfold task_at, get. destruct (whole_seconds_enough ttl) as [Hpos Hle].
  destruct (find_pass d s1 (task_key (task_id t) tenant) Hd) as [E|(E & v & x & Ex & Hx)]; rewrite E; [rewrite Hf|].
  - split; [intros _; apply serializers|]. intros Hlate H1. exfalso. rewrite Hf in E. apply find_live in E. rewrite time_pass, Ht1 in E.
    pose proof (Qceiling_lt ttl) as Hc. unfold Z.sub in Hc. rewrite inject_Z_plus, inject_Z_opp in Hc. unfold whole_seconds in E. destruct (Z.max_spec 1 (Qceiling ttl)) as [[_ Em]|[_ Em]]; rewrite Em in E;
      [|change (inject_Z 1) with 1%Q in E; lra]. change (inject_Z 1) with 1%Q in *. lra.
  - rewrite Hf in Ex. injection Ex as _ <-. split; [|done]. intros Hearly. exfalso. rewrite Ht1 in Hx. lra.
Qed.
End tasks.


(** ** The push store *)

Section push.
Context (to_json : A2aStore.push_config -> string) (of_json : string -> option A2aStore.push_config).
(** ["{namespace}:a2a:push:"], [ttl_seconds], [max_config_bytes] *)
Context (prefix : string) (ttl : Q) (max_config_bytes : nat).

(** [_key] *)
Definition push_key (task : string) : string := prefix ++ quote "" task.

(** [set_info], with a fresh [uuid4()]. *)
Definition set_info (uuid task : string) (c : A2aStore.push_config) : prog (result A2aStore.error unit) :=
  if Nat.ltb max_config_bytes (String.length (to_json c))
  then Ret (Err (A2aStore.ValueError "A2A push configuration exceeds the configured limit"))
  else
    Do [HSET (push_key task) [(opt_or (A2aStore.config_id c) uuid, to_json c)]]
      (Do [EXPIRE (push_key task) (whole_seconds ttl)] (Ret (Ok tt))).

(** [delete_info] *)
Definition delete_info (task : string) (id : option string) : prog unit :=
  if opt_truthy id then Do [HDEL (push_key task) (default "" id)] (Ret tt) else Do [DEL (push_key task)] (Ret tt).

Context {S : Type} `{Redis S}.
Implicit Types (s : S).

(** [HGETALL]; [None] is WRONGTYPE. *)
Definition hgetall s (k : string) : option (list (string * string)) :=
  match find s k with None => Some [] | Some (VHash l, _) => Some l | Some _ => None end.

(** [get_info]: what cannot be read is skipped. *)
Definition get_info (task : string) s : option (list A2aStore.push_config) := (fun l => omap of_json l.*2) <$> hgetall s (push_key task).

(** Setting a callback replaces the one of that id, keeps the others, and all of
    them live on for the whole time to live. *)
Lemma callbacks_set uuid task c s l d :
  hgetall s (push_key task) = Some l -> (0 <= d)%Q -> (d < ttl)%Q -> (run_prog 0 (set_info uuid task c) s).1 = Ok tt ->
  hgetall (pass d (run_prog 0 (set_info uuid task c) s).2) (push_key task) =
    Some (dset (opt_or (A2aStore.config_id c) uuid) (to_json c) l).
Proof.
  intros Hl Hd Hlt. unfold set_info. destruct (Nat.ltb _ _); [done|]. intros _. cbn [run_prog snd].
  set (k := push_key task) in *. set (f := opt_or (A2aStore.config_id c) uuid).
  change (run_all [?b] (run_all [?a] s)) with (run b (run a s)). set (s1 := run (HSET k [(f, to_json c)]) s).
  destruct (whole_seconds_enough ttl) as [Hpos Hle].
  assert (H1 : exists e, find s1 k = Some (VHash (dset f (to_json c) l), e)).
  { unfold s1, hgetall in *. rewrite (find_run_self (HSET k [(f, to_json c)])) by (cbn; by destruct (find s k) as [[[]]|]). cbn [key_of].
    destruct (find s k) as [[[| x |] e]|]; try done; injection Hl as <-; cbn; by eexists. }
  destruct H1 as [e H1].
  assert (H2 : find (run (EXPIRE k (whole_seconds ttl)) s1) k = Some (VHash (dset f (to_json c) l), Some (time s + inject_Z (whole_seconds ttl))%Q)).
  { rewrite (find_run_self (EXPIRE k (whole_seconds ttl))) by done. cbn [key_of]. rewrite H1. cbn [effect].
    rewrite (proj2 (Z.ltb_lt _ _) Hpos). unfold s1. by rewrite time_run. }
  unfold hgetall. destruct (find_pass d (run (EXPIRE k (whole_seconds ttl)) s1) k Hd) as [->|(_ & v & x & Ex & Hx)]; [by rewrite H2|].
  rewrite H2 in Ex. injection Ex as _ <-. unfold s1 in Hx. rewrite !time_run in Hx. lra.
Qed.
End push.

(** ** The constructors *)

Definition new_task_store (urlsplit : string -> option url) (endpoint namespace : string) (ttl : Q) (max_bytes : Z) : result string string :=
  if negb (validate_endpoint urlsplit endpoint) then Err RedisOps.invalid_endpoint
  else if (ttl <=? 0)%clock then Err "ttl_seconds must be greater than zero"
  else if (max_bytes <? 1024)%Z then Err "max_task_bytes must be at least 1024"
  else if negb (namespace_ok namespace) then Err RedisOps.invalid_namespace
  else Ok (namespace ++ ":a2a:task:").

Definition new_push_store (urlsplit : string -> option url) (endpoint namespace : string) (ttl : Q) (max_bytes : Z) : result string string :=
  if negb (validate_endpoint urlsplit endpoint) then Err RedisOps.invalid_endpoint
  else if (ttl <=? 0)%clock then Err "ttl_seconds must be greater than zero"
  else if (max_bytes <? 1024)%Z then Err "max_config_bytes must be at least 1024"
  else if negb (namespace_ok namespace) then Err RedisOps.invalid_namespace
  else Ok (namespace ++ ":a2a:push:").

(** ** On concrete input *)

(** A task that is its id. *)
Definition demo_save (id : string) : prog (result A2aStore.error unit) :=
  save_task (fun t : string => t) (fun _ => "c") (fun t => t) "ns:a2a:task:" 10 4096 "acme" id.
Definition demo_list : prog (result A2aStore.error (A2aStore.page (Task := string))) :=
  list_tasks (fun t : string => t) (fun _ => "c") (fun _ => "") (fun _ => 1%Z) Some (fun t => t) Some "ns:a2a:task:" "acme"
    {| A2aStore.by_context := ""; A2aStore.by_status := 0; A2aStore.page_size := 0; A2aStore.page_token := "" |}.
Definition demo_get (id : string) : prog (option string) := get_task Some "ns:a2a:task:" "acme" id.
Definition listed (r : result A2aStore.error (A2aStore.page (Task := string))) : option (list string) :=
  match r with Ok p => Some (A2aStore.page_tasks p) | Err _ => None end.

Lemma tasks_ok_empty : tasks_ok (fun t : string => t) (fun t => t) "ns:a2a:task:" empty_table.
Proof. split; [by left|by intros t k ?%not_elem_of_nil|intros; constructor|done|done]. Qed.

Lemma redis_listing_exact_witness :
  let calls := [CSave "acme" "a"; CWait 1; CSave "acme" "b"; CSave "other" "x"; CWait 9; CSave "acme" "c"; CWait (1#2); CList "acme"
                  {| A2aStore.by_context := ""; A2aStore.by_status := 0; A2aStore.page_size := 0; A2aStore.page_token := "" |}] in
  let s := foldl (perform (fun t : string => t) (fun _ => "c") (fun _ => "") (fun _ => 1%Z) (fun t => t) Some (fun t => t) Some "ns:a2a:task:" 10 4096)
             empty_table calls in
  listed (run_prog 0 demo_list s).1 = Some ["c"; "b"] /\
  exists l, (run_prog 0 demo_list s).1 = A2aStore.page_of (fun t => t) (fun t => t) Some
    {| A2aStore.by_context := ""; A2aStore.by_status := 0; A2aStore.page_size := 0; A2aStore.page_token := "" |} l.
Proof.
  cbn zeta. split; [vm_compute; reflexivity|].
  edestruct (redis_listing_exact (fun t : string => t) (fun _ => "c") (fun _ => "") (fun _ => 1%Z) (fun t => t) Some (fun t => t) Some
    "ns:a2a:task:" 10 4096 (fun _ => eq_refl) empty_table) as (l & E & _); [apply tasks_ok_empty|]. exists l. exact E.
Defined.

Lemma redis_task_lives_from_last_save_witness :
  let s := (run_prog 0 (demo_save "a") empty_table).2 in
  (run_prog 0 (demo_get "a") (pass 9 (run_prog 0 (demo_save "a") (pass 9 s)).2)).1 = Some "a".
Proof.
  cbn zeta. refine (proj1 (redis_task_lives_from_last_save (fun t : string => t) (fun _ => "c") (fun t => t) Some "ns:a2a:task:" 10 4096
    (fun _ => eq_refl) (pass 9 (run_prog 0 (demo_save "a") empty_table).2) "acme" "a" 9 _ _ _) _); [|lra|reflexivity|reflexivity].
  apply (ok_pass (fun t : string => t)); [lra|].
  exact (task_perform_ok (fun t : string => t) (fun _ => "c") (fun _ => "") (fun _ => 1%Z) (fun t => t) Some (fun t => t) Some
    "ns:a2a:task:" 10 4096 (fun _ => eq_refl) empty_table (CSave "acme" "a") tasks_ok_empty).
Defined.

(** A listing that found a task expired takes it out of the index in a later command,
    also when the task was saved again in between: it is stored and never listed. *)
Example listing_unlists_resaved_task :
  let s := pass 11 (run_prog 0 (demo_save "a") empty_table).2 in
  let w := schedule [Client 0; Client 0; Client 1; Client 1; Client 1; Client 0]
             ([prog_bind demo_list (fun _ => Ret tt); prog_bind (demo_save "a") (fun _ => Ret tt)], s) in
  (run_prog 0 (demo_get "a") w.2).1 = Some "a" /\ listed (run_prog 0 demo_list w.2).1 = Some [].
Proof. vm_compute. split; reflexivity. Qed.

(** Saving is two commands: after the first one the task can be read and not listed. *)
Example half_saved_task_is_not_listed :
  let w := schedule [Client 0] ([prog_bind (demo_save "a") (fun _ => Ret tt)], empty_table) in
  (run_prog 0 (demo_get "a") w.2).1 = Some "a" /\ listed (run_prog 0 demo_list w.2).1 = Some [].
Proof. vm_compute. split; reflexivity. Qed.

End RedisA2a.
