(* ===== verification/Postgres.v ===== *)
(** * State shared through PostgreSQL

    A method of a PostgreSQL store is a sequence of SQL statements.  Each statement
    runs on the table as it is at that moment, without anything in between, and
    [now()] is the server's clock, which the clients' clocks agree with; between two
    statements of a method other clients run theirs and time passes.  [prog] is a
    method, [schedule] many at once, [Jsonb] what a JSONB column does with a text.
    The stores are [PostgresOps], [PostgresSession] and [PostgresMemory]; how they open
    their pool is in [PostgresPool]; the values a column refuses are not modelled. *)

From S2P Require Import Prelude Json Redis.
Import Redis.
Local Open Scope string_scope.

Module Postgres.

(** ** Programs *)

Record db (T : Type) : Type := { now : Q; table : T }.
Arguments now {T}.
Arguments table {T}.

Inductive prog (T A : Type) : Type :=
  | Ret (a : A)
  | Stmt (f : Q -> T -> T) (k : Q -> T -> prog T A)   (** what the statement does, and what follows from what it saw *)
  | Clock (k : Q -> prog T A).                        (** [datetime.now(UTC)] of the client *)
Arguments Ret {T A} a.
Arguments Stmt {T A} f k.
Arguments Clock {T A} k.

(** A statement that answers. *)
Definition sql {T A B : Type} (f : Q -> T -> B * T) (k : B -> prog T A) : prog T A :=
  Stmt (fun q t => (f q t).2) (fun q t => k (f q t).1).

Fixpoint prog_bind {T A B : Type} (p : prog T A) (k : A -> prog T B) : prog T B :=
  match p with
  | Ret a => k a
  | Stmt f g => Stmt f (fun q t => prog_bind (g q t) k)
  | Clock g => Clock (fun q => prog_bind (g q) k)
  end.

Fixpoint run_prog {T A : Type} (p : prog T A) (s : db T) : A * db T :=
  match p with
  | Ret a => (a, s)
  | Stmt f k => run_prog (k (now s) (table s)) {| now := now s; table := f (now s) (table s) |}
  | Clock k => run_prog (k (now s)) s
  end.

Lemma run_sql_bind {T A B : Type} (p : prog T A) (k : A -> prog T B) s :
  run_prog (prog_bind p k) s = run_prog (k (run_prog p s).1) (run_prog p s).2.
Proof. revert s. induction p as [a|f g IH|g IH]; intros s; cbn; auto. Qed.

(** Clients side by side: client [i] takes its next step, or time passes. *)
Inductive event : Type := Client (i : nat) | Wait (d : Q).

Definition step {T A : Type} (p : prog T A) (s : db T) : prog T A * db T :=
  match p with
  | Ret a => (Ret a, s)
  | Stmt f k => (k (now s) (table s), {| now := now s; table := f (now s) (table s) |})
  | Clock k => (k (now s), s)
  end.

Definition schedule_step {T A : Type} (e : event) (w : list (prog T A) * db T) : list (prog T A) * db T :=
  match e with
  | Client i => match w.1 !! i with Some p => let '(p, s) := step p w.2 in (<[i := p]> w.1, s) | None => w end
  | Wait d => if (0 <=? d)%clock then (w.1, {| now := now w.2 + d; table := table w.2 |}) else w
  end.

Fixpoint schedule {T A : Type} (es : list event) (w : list (prog T A) * db T) : list (prog T A) * db T :=
  match es with [] => w | e :: es => schedule es (schedule_step e w) end.

(** [tenant_id or ""], [row["tenant_id"] or None] *)
Definition tenant_key (tenant : option string) : string := opt_or tenant "".
Definition tenant_of (t : string) : option string := if str_truthy t then Some t else None.

(** [now(UTC) + ttl] when there is one. *)
Definition expiry (ttl : option Z) (q : Q) : option Q := (fun n => q + inject_Z n)%Q <$> ttl.

(** [expires_at IS NOT NULL AND expires_at <= now()] *)
Definition passed (e : option Q) (q : Q) : bool := match e with Some e => (e <=? q)%clock | None => false end.

(** A JSONB column keeps the value and not its text: it gives back a text that reads
    as the value with the keys of objects in an order of its own and numbers
    written anew. *)
Class Jsonb `{Payloads} : Type := {
  jsonb : string -> string;
  normal : json -> json;
  loads_jsonb : forall j, loads (jsonb (dumps j)) = Some (normal j);
  normal_text : forall s, normal (JStr s) = JStr s;
  normal_list : forall l, normal (JList l) = JList (normal <$> l);
  normal_dict : forall d, NoDup (dkeys d) -> exists d', normal (JObj d) = JObj d' /\ forall k, dget k d' = normal <$> dget k d
}.

(** A column that gives back what was written. *)
Definition plain_normal (j : json) : json := j.
#[export] Instance Plain_jsonb : Jsonb (H := Plain_payloads).
Proof.
  refine {| jsonb := fun s => s; normal := plain_normal; loads_jsonb := loads_dumps |}; unfold plain_normal; try done.
  - intros l. by rewrite list_fmap_id.
  - intros d _. exists d. split; [done|]. intros k. by destruct (dget k d).
Defined.

(** What a column of lists and one of objects read as. *)
Definition read_list `{Jsonb} (text : string) : list json :=
  match loads (jsonb text) with Some (JList l) => l | _ => [] end.
Definition read_dict `{Jsonb} (text : string) : list (string * json) :=
  match loads (jsonb text) with Some (JObj d) => d | _ => [] end.

Lemma read_list_dumps `{Jsonb} l : read_list (dumps (JList l)) = normal <$> l.
Proof. unfold read_list. by rewrite loads_jsonb, normal_list. Qed.

Lemma read_dict_dumps `{Jsonb} d k : NoDup (dkeys d) -> dget k (read_dict (dumps (JObj d))) = normal <$> dget k d.
Proof. intros Hd. unfold read_dict. rewrite loads_jsonb. by destruct (normal_dict d Hd) as (d' & -> & Hk). Qed.

Lemma step_now {T A} (p p' : prog T A) s s' : step p s = (p', s') -> now s' = now s.
Proof. destruct p; intros [= <- <-]; done. Qed.

End Postgres.
