(* ===== verification/PostgresPool.v ===== *)
(** * The connection pool of a PostgreSQL provider

    [_pool_ready] and [aclose] of [memory/postgres.py] and [session/postgres.py]: the
    first calls of many tasks open one pool, under a lock that each asks for after a
    look without it, and create the table before any of them goes on.  Tasks take
    turns where the code awaits; what asyncpg does at an await either succeeds or
    raises. *)

From S2P Require Import Prelude.
Local Open Scope string_scope.

Module PostgresPool.

(** Where a task is: before its first look, waiting for the lock, in
    [create_pool] holding it, in the transaction that creates the table on a pool,
    past [_pool_ready] with what that answered, ended by an exception; and a task
    that calls [aclose]: about to, in [close] of a pool, past it. *)
Inductive task : Type :=
  | Arriving | Queued | Opening | Preparing (p : nat) | Ready (p : option nat) | Broken
  | Leaving | Closing (p : nat) | Left.
#[export] Instance task_eq_dec : EqDecision task.
Proof. solve_decision. Defined.

Record provider : Type := {
  pool : option nat;                 (** pools are numbered as they are opened *)
  opened : nat;
  lock : bool;
  schema_ready : bool
}.
Definition new_provider : provider := {| pool := None; opened := 0; lock := false; schema_ready := false |}.

Definition set_lock (b : bool) (w : provider) : provider :=
  {| pool := pool w; opened := opened w; lock := b; schema_ready := schema_ready w |}.

Section pool.
(** The session provider hands out the pool it looked up, the others the one that is
    there after the table is. *)
Context (keeps : bool).

(** [if not self._schema_ready] *)
Definition look (p : nat) (w : provider) : task := if schema_ready w then Ready (Some p) else Preparing p.

(** The pool is missing and the lock was free: [create_pool] begins. *)
Definition enter (w : provider) : task * provider :=
  match pool w with Some p => (look p w, w) | None => (Opening, set_lock true w) end.

(** A task's next step, given how what it awaits ends. *)
Definition move (t : task) (ok : bool) (w : provider) : task * provider :=
  match t with
  | Arriving =>
      match pool w with
      | Some p => (look p w, w)
      | None => if lock w then (Queued, w) else enter w
      end
  | Queued => if lock w then (Queued, w) else enter w
  | Opening =>
      if ok then
        let w' := {| pool := Some (opened w); opened := S (opened w); lock := false; schema_ready := schema_ready w |} in
        (look (opened w) w', w')
      else (Broken, set_lock false w)
  | Preparing p =>
      if ok then (Ready (if keeps then Some p else pool w), {| pool := pool w; opened := opened w; lock := lock w; schema_ready := true |})
      else (Broken, w)
  | Leaving => match pool w with Some p => (Closing p, w) | None => (Left, w) end
  | Closing p => if ok then (Left, {| pool := None; opened := opened w; lock := lock w; schema_ready := false |}) else (Broken, w)
  | Ready _ | Broken | Left => (t, w)
  end.

Definition world : Type := list task * provider.
Definition turn (w : world) (e : nat * bool) : world :=
  match w.1 !! e.1 with
  | Some t => let m := move t e.2 w.2 in (<[e.1 := m.1]> w.1, m.2)
  | None => w
  end.
Definition turns (es : list (nat * bool)) (w : world) : world := foldl turn w es.

(** ** As long as nobody closes the provider *)

Record sound (w : world) : Prop := {
  nobody_leaves : forall i t, w.1 !! i = Some t -> t <> Leaving /\ (forall p, t <> Closing p) /\ t <> Left;
  holder : lock w.2 = true -> exists i, w.1 !! i = Some Opening;
  one_holder : forall i j, w.1 !! i = Some Opening -> w.1 !! j = Some Opening -> i = j;
  holder_locks : forall i, w.1 !! i = Some Opening -> lock w.2 = true /\ pool w.2 = None;
  one_pool : match pool w.2 with Some p => p = 0 /\ opened w.2 = 1 | None => opened w.2 = 0 /\ schema_ready w.2 = false end;
  preparing : forall i p, w.1 !! i = Some (Preparing p) -> pool w.2 = Some p;
  readied : forall i r, w.1 !! i = Some (Ready r) -> r = Some 0 /\ schema_ready w.2 = true
}.

Lemma sound_start n : sound (replicate n Arriving, new_provider).
Proof.
  assert (Ha : forall i t, replicate n Arriving !! i = Some t -> t = Arriving) by (intros i t [-> _]%lookup_replicate; done).
  split; cbn [fst snd new_provider pool opened lock schema_ready]; try done.
  - intros i t ->%Ha. split_and!; by try intros p.
  - by intros i j H%Ha.
  - by intros i H%Ha.
  - by intros i p H%Ha.
  - by intros i r H%Ha.
Qed.

(** One task has moved from [t] to [t'] and nothing was locked or unlocked. *)
Lemma sound_move ts w w' i t t' :
  sound (ts, w) -> ts !! i = Some t -> t <> Opening -> t' <> Opening -> lock w' = lock w -> pool w' = pool w -> opened w' = opened w ->
  (schema_ready w = true -> schema_ready w' = true) -> (pool w = None -> schema_ready w' = schema_ready w) ->
  (t' = t \/ t' = Queued \/ t' = Broken \/ (exists p, t' = Preparing p /\ pool w = Some p) \/ (t' = Ready (Some 0) /\ schema_ready w' = true)) ->
  sound (<[i := t']> ts, w').
Proof.
  intros [H1 H2 H3 H4 H5 H6 H7] Hi Ht Ht' El Ep Eo Hs Hn Hc. cbn [fst snd] in *.
  assert (Hin : forall j u, <[i := t']> ts !! j = Some u -> (j = i /\ u = t') \/ (j <> i /\ ts !! j = Some u)).
  { intros j u. rewrite list_lookup_insert_Some. naive_solver. }
  assert (Hop : forall j, <[i := t']> ts !! j = Some Opening -> j <> i /\ ts !! j = Some Opening).
  { intros j Hj. destruct (Hin _ _ Hj) as [[_ E]|]; [by destruct Ht'|done]. }
  split; cbn [fst snd]; rewrite ?El, ?Ep, ?Eo.
  - intros j u Hj. destruct (Hin _ _ Hj) as [[-> ->]|[_ Hu]]; [|by eapply H1].
    destruct Hc as [->|[->|[->|[(p & -> & _)|[-> _]]]]]; [by eapply H1|done..].
  - intros Hl. destruct (H2 Hl) as [j Hj]. exists j. rewrite list_lookup_insert_ne; [done|]. intros ->. congruence.
  - intros j k [_ Hj]%Hop [_ Hk]%Hop. by apply H3.
  - intros j [_ Hj]%Hop. by apply (H4 j).
  - destruct (pool w) eqn:E; [done|]. by rewrite Hn.
  - intros j p Hj. destruct (Hin _ _ Hj) as [[-> E]|[_ Hu]]; [|by apply (H6 j)].
    destruct Hc as [->|[->|[->|[(q & -> & Hq)|[-> _]]]]]; try done; [subst t; by apply (H6 i) | congruence].
  - intros j r Hj. destruct (Hin _ _ Hj) as [[-> E]|[_ Hu]].
    + destruct Hc as [->|[->|[->|[(q & -> & Hq)|[-> Hr]]]]]; try done; [|by injection E as <-].
      subst t. destruct (H7 i r Hi). split; [done | by apply Hs].
    + destruct (H7 j r Hu). split; [done | by apply Hs].
Qed.

Lemma sound_enter ts w i t :
  sound (ts, w) -> ts !! i = Some t -> t <> Opening -> lock w = false -> sound (<[i := (enter w).1]> ts, (enter w).2).
Proof.
  intros Hs Hi Ht Hl. unfold enter. destruct (pool w) as [p|] eqn:Ep; cbn [fst snd].
  - pose proof (one_pool _ Hs) as Ho. cbn [snd] in Ho. rewrite Ep in Ho. destruct Ho as [-> _].
    apply (sound_move ts w w i t); try done; unfold look; destruct (schema_ready w) eqn:Es; naive_solver.
  - destruct Hs as [H1 H2 H3 H4 H5 H6 H7]. cbn [fst snd] in *.
    assert (Hin : forall j u, <[i := Opening]> ts !! j = Some u -> (j = i /\ u = Opening) \/ (j <> i /\ ts !! j = Some u)).
    { intros j u. rewrite list_lookup_insert_Some. naive_solver. }
    assert (Hno : forall j, ts !! j <> Some Opening) by (intros j Hj; destruct (H4 j Hj); congruence).
    split; cbn [fst snd set_lock lock pool opened schema_ready].
    + intros j u Hj. destruct (Hin _ _ Hj) as [[-> ->]|[_ Hu]]; [done | by eapply H1].
    + intros _. exists i. apply list_lookup_insert_eq. by eapply lookup_lt_Some.
    + intros j k Hj Hk. destruct (Hin _ _ Hj) as [[-> _]|[_ Hu]], (Hin _ _ Hk) as [[-> _]|[_ Hv]]; try done; by destruct (Hno _ Hu) || destruct (Hno _ Hv).
    + intros j _. done.
    + exact H5.
    + intros j p Hj. destruct (Hin _ _ Hj) as [[_ E]|[_ Hu]]; [done | by apply (H6 j)].
    + intros j r Hj. destruct (Hin _ _ Hj) as [[_ E]|[_ Hu]]; [done | by apply (H7 j)].
Qed.

Lemma sound_release ts w w' i t' :
  sound (ts, w) -> ts !! i = Some Opening -> lock w' = false -> schema_ready w' = false ->
  (t' = Broken /\ pool w' = None /\ opened w' = 0 \/ t' = Preparing 0 /\ pool w' = Some 0 /\ opened w' = 1) ->
  sound (<[i := t']> ts, w').
Proof.
  intros [H1 H2 H3 H4 H5 H6 H7] Hi Hl Hs Hc. cbn [fst snd] in *. destruct (H4 i Hi) as [_ Hp]. rewrite Hp in H5. destruct H5 as [_ Hr].
  assert (Hin : forall j u, <[i := t']> ts !! j = Some u -> (j = i /\ u = t') \/ (j <> i /\ ts !! j = Some u)).
  { intros j u. rewrite list_lookup_insert_Some. naive_solver. }
  assert (Hno : forall j, <[i := t']> ts !! j <> Some Opening).
  { intros j Hj. destruct (Hin _ _ Hj) as [[_ E]|[Hne Hu]]; [naive_solver | by destruct Hne; apply H3]. }
  split; cbn [fst snd].
  - intros j u Hj. destruct (Hin _ _ Hj) as [[-> ->]|[_ Hu]]; [by destruct Hc as [(-> & _)|(-> & _)] | by eapply H1].
  - by rewrite Hl.
  - intros j k Hj. by apply Hno in Hj.
  - intros j Hj. by apply Hno in Hj.
  - destruct Hc as [(_ & -> & ->)|(_ & -> & ->)]; done.
  - intros j p Hj. destruct (Hin _ _ Hj) as [[_ E]|[_ Hu]]; [|apply H6 in Hu; congruence].
    destruct Hc as [(-> & _)|(-> & -> & _)]; [done|]. by injection E as ->.
  - intros j r Hj. destruct (Hin _ _ Hj) as [[_ E]|[_ Hu]]; [naive_solver|]. destruct (H7 j r Hu). congruence.
Qed.

Lemma sound_turn w e : sound w -> sound (turn w e).
Proof.
  destruct w as [ts w], e as [i ok]. intros Hs. unfold turn. cbn [fst snd]. destruct (ts !! i) as [t|] eqn:Hi; [|done].
  pose proof (one_pool _ Hs) as Ho. cbn [snd] in Ho.
  assert (Hsame : sound (<[i := t]> ts, w)) by (by rewrite list_insert_id).
  destruct t as [| | |p|r| |p|p|]; cbn [move fst snd]; try exact Hsame.
  - destruct (pool w) as [p|] eqn:Ep.
    + destruct Ho as [-> _]. apply (sound_move ts w w i Arriving); try done; unfold look; destruct (schema_ready w) eqn:Es; naive_solver.
    + destruct (lock w) eqn:El; [apply (sound_move ts w w i Arriving); naive_solver | by apply (sound_enter ts w i Arriving)].
  - destruct (lock w) eqn:El; [exact Hsame | by apply (sound_enter ts w i Queued)].
  - destruct (holder_locks _ Hs i Hi) as [_ Hp]. cbn [snd] in Hp. rewrite Hp in Ho. destruct Ho as [Ho Hr].
    destruct ok; unfold look; cbn [schema_ready]; rewrite ?Hr; apply (sound_release ts w); try done; [|by left]. right. by rewrite Ho.
  - pose proof (preparing _ Hs i p Hi) as Hp. cbn [snd] in Hp. rewrite Hp in Ho. destruct Ho as [-> _].
    destruct ok; apply (sound_move ts w _ i (Preparing 0)); try done; cbn [pool schema_ready]; try naive_solver.
    right. right. right. right. cbn [fst snd schema_ready]. rewrite Hp. by destruct keeps.
  - by destruct (nobody_leaves _ Hs i _ Hi).
  - by destruct (nobody_leaves _ Hs i _ Hi) as (_ & H & _); destruct (H p).
Qed.

Lemma sound_turns es n : sound (turns es (replicate n Arriving, new_provider)).
Proof. unfold turns. apply (foldl_invariant sound); [apply sound_start|]. intros w e. apply sound_turn. Qed.

(** C30: however the first calls of a provider interleave and whichever of them fail,
    it never opens a second pool: every call that goes on has the one pool, and the
    table was created on it before. *)
Theorem one_pool_is_opened n es :
  let '(ts, w) := turns es (replicate n Arriving, new_provider) in
  opened w <= 1 /\ forall i r, ts !! i = Some (Ready r) -> r = Some 0 /\ pool w = Some 0 /\ schema_ready w = true.
Proof.
  pose proof (sound_turns es n) as Hs. destruct (turns es _) as [ts w]. pose proof (one_pool _ Hs) as Ho. cbn [snd] in Ho.
  split; [destruct (pool w); lia|]. intros i r Hi. destruct (readied _ Hs i r Hi) as [-> Hr]. split_and!; try done.
  cbn [snd] in Hr. destruct (pool w); [by destruct Ho as [-> _] | destruct Ho; congruence].
Qed.

(** *** Every call ends *)

Definition rank (t : task) : nat :=
  match t with Arriving => 4 | Queued => 3 | Opening => 2 | Preparing _ | Closing _ => 1 | Leaving => 2 | Ready _ | Broken | Left => 0 end.
Fixpoint remaining (ts : list task) : nat := match ts with [] => 0 | t :: ts => rank t + remaining ts end.

Lemma remaining_insert ts i t t' : ts !! i = Some t -> remaining (<[i := t']> ts) + rank t = remaining ts + rank t'.
Proof.
  revert i. induction ts as [|u ts IH]; intros [|i] Hi; try done; [injection Hi as ->; cbn; lia|]. specialize (IH i Hi).
  change (<[S i := t']> (u :: ts)) with (u :: <[i := t']> ts). cbn [remaining]. lia.
Qed.

Lemma remaining_pos ts : remaining ts <> 0 -> exists i t, ts !! i = Some t /\ rank t <> 0.
Proof.
  induction ts as [|u ts IH]; [done|]. cbn [remaining]. intros H.
  destruct (decide (rank u = 0)) as [Hu|Hu]; [|by exists 0, u]. destruct IH as (i & t & Hi & Ht); [lia|]. by exists (S i), t.
Qed.

Lemma look_rank p w : rank (look p w) <= 1.
Proof. unfold look. destruct (schema_ready w); cbn; lia. Qed.

Lemma enter_rank w : rank (enter w).1 <= 2.
Proof. unfold enter. destruct (pool w) as [p|]; cbn; [pose proof (look_rank p w)|]; lia. Qed.

(** A step takes a task forward, but for one that waits while the lock is held. *)
Lemma move_rank t ok w : rank t <> 0 -> (t = Queued -> lock w = false) -> rank (move t ok w).1 < rank t.
Proof.
  pose proof (enter_rank w) as He. destruct t as [| | |p|r| |p|p|]; cbn [move rank]; try lia; intros _ Hq.
  - destruct (pool w) as [p|]; cbn; [pose proof (look_rank p w); lia|]. destruct (lock w); cbn [fst rank]; lia.
  - rewrite Hq by done. lia.
  - destruct ok; cbn [fst rank]; [|lia]. unfold look. cbn [schema_ready]. destruct (schema_ready w); cbn; lia.
  - destruct ok; cbn; lia.
  - destruct (pool w); cbn; lia.
  - destruct ok; cbn; lia.
Qed.

Lemma move_rank_le t ok w : rank (move t ok w).1 <= rank t.
Proof.
  destruct (decide (rank t = 0)) as [H|H]; [destruct t; cbn in *; lia|].
  destruct (decide (t = Queued /\ lock w = true)) as [[-> Hl]|Hn]; [cbn [move]; rewrite Hl; cbn; lia|].
  apply Nat.lt_le_incl, move_rank; [done|]. intros ->. destruct (lock w); [by destruct Hn | done].
Qed.

(** [pool_ready] always ends: [n] calls take at most [4 * n] steps forward between
    them, no step takes a call back, and until all have ended there is one whose next
    step takes it forward, however what it awaits ends. *)
Theorem pool_ready_ends n es :
  let w := turns es (replicate n Arriving, new_provider) in
  remaining w.1 <= 4 * n /\ (forall e, remaining (turn w e).1 <= remaining w.1) /\
  (remaining w.1 <> 0 -> exists i, forall ok, remaining (turn w (i, ok)).1 < remaining w.1).
Proof.
  assert (Hle : forall w e, remaining (turn w e).1 <= remaining w.1).
  { intros [ts p] [i ok]. unfold turn. cbn [fst snd]. destruct (ts !! i) as [t|] eqn:Hi; [|done]. cbn [fst].
    pose proof (remaining_insert ts i t (move t ok p).1 Hi). pose proof (move_rank_le t ok p). lia. }
  cbn zeta. split_and!; [|apply Hle|].
  - unfold turns. apply (foldl_invariant (fun w : world => remaining w.1 <= 4 * n)).
    + cbn [fst]. induction n as [|n IH]; cbn in *; lia.
    + intros w e. specialize (Hle w e). lia.
  - intros (i & t & Hi & Ht)%remaining_pos. pose proof (sound_turns es n) as Hs. destruct (turns es _) as [ts w]. cbn [fst snd] in *.
    assert (Hgo : exists j u, ts !! j = Some u /\ rank u <> 0 /\ (u = Queued -> lock w = false)).
    { destruct (lock w) eqn:El; [|by exists i, t]. destruct (holder _ Hs El) as [j Hj]. by exists j, Opening. }
    destruct Hgo as (j & u & Hj & Hu & Hq). exists j. intros ok. unfold turn. cbn [fst snd]. rewrite Hj. cbn [fst].
    pose proof (remaining_insert ts j u (move u ok w).1 Hj). pose proof (move_rank u ok w Hu Hq). lia.
Qed.
End pool.

(** ** The three providers *)

(** The constructors, given whether asyncpg can be imported: nothing is opened yet. *)
Definition construct (what : string) (importable : bool) : result string provider :=
  if importable then Ok new_provider
  else Err ("the PostgreSQL " ++ what ++ " requires the optional 'postgres' extra ('micro-agents[postgres]')").
Definition new_memory : bool -> result string provider := construct "memory provider".
Definition new_operations : bool -> result string provider := construct "operation registry".
Definition new_sessions : bool -> result string provider := construct "session provider".

Definition memory_turn : world -> nat * bool -> world := turn false.
Definition operations_turn : world -> nat * bool -> world := turn false.
Definition session_turn : world -> nat * bool -> world := turn true.

(** ** When the provider is closed meanwhile *)

(** A call whose table is ready only after another task closed the provider answers
    no pool where the provider's own is read again, and a closed one where it was kept;
    and the closed provider believes its table to be there. *)
Example closed_while_preparing :
  let es := [(0, true); (0, true); (1, true); (1, true); (0, true)] in
  turns false es ([Arriving; Leaving], new_provider) =
    ([Ready None; Left], {| pool := None; opened := 1; lock := false; schema_ready := true |}) /\
  turns true es ([Arriving; Leaving], new_provider) =
    ([Ready (Some 0); Left], {| pool := None; opened := 1; lock := false; schema_ready := true |}).
Proof. split; reflexivity. Qed.

(** Two tasks close the provider and a third opens it again in between: the second
    forgets a pool that nobody has closed. *)
Example pool_forgotten :
  turns false [(0, true); (0, true); (0, true); (1, true); (2, true); (1, true); (3, true); (3, true); (3, true); (2, true)]
    ([Arriving; Leaving; Leaving; Arriving], new_provider) =
  ([Ready (Some 0); Left; Left; Ready (Some 1)], {| pool := None; opened := 2; lock := false; schema_ready := false |}).
Proof. reflexivity. Qed.

(** Two calls at once, the first of which fails to connect: the other opens the pool. *)
Example second_call_opens :
  turns false [(0, true); (1, true); (0, false); (1, true); (1, true); (1, true)] ([Arriving; Arriving], new_provider) =
  ([Broken; Ready (Some 0)], {| pool := Some 0; opened := 1; lock := false; schema_ready := true |}).
Proof. reflexivity. Qed.

End PostgresPool.
