(* ===== verification/PostgresOps.v ===== *)
(** * The operation registry in PostgreSQL

    [PostgresIdempotencyStore] of [micro_agent/memory/postgres.py]: a row per key with
    the operation that holds it, its result and when it lapses. *)

From S2P Require Import Prelude Json Urls SideEffects Redis Postgres.
Import SideEffects Redis Postgres.
Local Open Scope string_scope.

Module PostgresOps.

(** ** The registry *)

Record reservation : Type := {
  row_operation : string;
  row_status : string;
  row_output : option string;
  row_error : option string;
  row_expires : Q
}.

Abbreviation registry := (list (string * reservation)) (only parsing).

Section registry.
Context `{Jsonb} (ttl : Z).

(** [_storage_key] of an operation with a key *)
Definition operation_key (op : Operation) : option string := SideEffects.storage_key op.

Definition held (id : string) (e : Q) : reservation :=
  {| row_operation := id; row_status := "in_progress"; row_output := None; row_error := None; row_expires := e |}.

(** [INSERT .. ON CONFLICT DO NOTHING RETURNING key] *)
Definition insert_reservation (k id : string) (e : Q) (q : Q) (t : registry) : bool * registry :=
  match dget k t with Some _ => (false, t) | None => (true, dset k (held id e) t) end.

(** [UPDATE .. WHERE key = $1 AND expires_at <= now() RETURNING key] *)
Definition reclaim (k id : string) (e : Q) (q : Q) (t : registry) : bool * registry :=
  match dget k t with
  | Some r => if (row_expires r <=? q)%clock then (true, dset k (held id e) t) else (false, t)
  | None => (false, t)
  end.

(** [_get_result]; what a JSONB column holds always parses. *)
Definition select_result (k : string) (q : Q) (t : registry) : option OperationResult * registry :=
  (match dget k t with
   | Some r =>
       if (row_expires r <=? q)%clock then None
       else Some {| result_id := row_operation r; status := row_status r;
                    output := match row_output r with Some text => default JNull (loads (jsonb text)) | None => JNull end;
                    error := row_error r; was_deduplicated := false |}
   | None => None
   end, t).

Definition deduplicated (r : OperationResult) : OperationResult :=
  {| result_id := result_id r; status := status r; output := output r; error := error r; was_deduplicated := true |}.

(** [claim] *)
Definition claim (op : Operation) : prog registry (bool * option OperationResult) :=
  match operation_key op with
  | None => Ret (true, None)
  | Some k =>
      Clock (fun now =>
        let e := (now + inject_Z ttl)%Q in
        sql (insert_reservation k (operation_id op) e) (fun reserved : bool =>
          if reserved then Ret (true, None)
          else sql (reclaim k (operation_id op) e) (fun reclaimed : bool =>
            if reclaimed then Ret (true, None)
            else sql (select_result k) (fun prior =>
              Ret (false, Some (deduplicated (default (in_progress_result "") prior)))))))
  end.

(** [is_duplicate], [find_by_idempotency_key] *)
Definition is_duplicate (op : Operation) : prog registry bool :=
  match operation_key op with
  | None => Ret false
  | Some k => sql (select_result k) (fun r => Ret (bool_decide (is_Some r)))
  end.

Definition find_by_idempotency_key (key : string) (tenant : option string) : prog registry (option OperationResult) :=
  sql (select_result (scoped_key key tenant)) Ret.

(** [UPDATE .. WHERE key = $1 AND operation_id = $2] *)
Definition publish (k id : string) (r : OperationResult) (e : Q) (q : Q) (t : registry) : unit * registry :=
  match dget k t with
  | Some row =>
      if String.eqb (row_operation row) id
      then (tt, dset k {| row_operation := id; row_status := status r;
                          row_output := match output r with JNull => None | j => Some (dumps j) end;
                          row_error := error r; row_expires := e |} t)
      else (tt, t)
  | None => (tt, t)
  end.

(** [record] *)
Definition record (op : Operation) (r : OperationResult) : prog registry unit :=
  match operation_key op with
  | None => Ret tt
  | Some k => Clock (fun now => sql (publish k (operation_id op) r (now + inject_Z ttl)%Q) Ret)
  end.

(** A worker: it claims the operation, runs it if that was granted, and records. *)
Definition work (j : Operation * OperationResult) : prog registry bool :=
  prog_bind (claim j.1) (fun c => if c.1 then prog_bind (record j.1 j.2) (fun _ => Ret true) else Ret false).
End registry.
(** ** Many workers at once *)

#[local] Instance q_eq_dec : EqDecision Q.
Proof. solve_decision. Defined.
#[export] Instance reservation_eq_dec : EqDecision reservation.
Proof. solve_decision. Defined.

Section workers.
Context `{Jsonb} (ttl : Z) (k : string) (jobs : list (Operation * OperationResult)).

Abbreviation world := (list (prog registry bool) * db registry)%type (only parsing).
Abbreviation grant := (nat * Q * Q)%type (only parsing).

(** The step puts a new reservation into the row of [k]: who, when, and until when. *)
Definition granted (e : event) (w : world) : list grant :=
  match e with
  | Client i =>
      let w' := schedule_step e w in
      match dget k (table w'.2) with
      | Some r => if bool_decide (dget k (table w.2) <> Some r) && String.eqb (row_status r) "in_progress"
                  then [(i, now w.2, row_expires r)] else []
      | None => []
      end
  | Wait _ => []
  end.

Fixpoint grants (es : list event) (w : world) : list grant :=
  match es with [] => [] | e :: es => (granted e w ++ grants es (schedule_step e w))%list end.

(** The programs a worker can be left with. *)
Definition finish (op : Operation) (r : OperationResult) (c : bool * option OperationResult) : prog registry bool :=
  if c.1 then prog_bind (record ttl op r) (fun _ => Ret true) else Ret false.
Definition selecting (key : string) (op : Operation) (r : OperationResult) : prog registry bool :=
  prog_bind (sql (select_result key) (fun prior => Ret (false, Some (deduplicated (default (in_progress_result "") prior))))) (finish op r).
Definition reclaiming (key : string) (e : Q) (op : Operation) (r : OperationResult) : prog registry bool :=
  prog_bind (sql (reclaim key (operation_id op) e) (fun reclaimed : bool =>
    if reclaimed then Ret (true, None)
    else sql (select_result key) (fun prior => Ret (false, Some (deduplicated (default (in_progress_result "") prior)))))) (finish op r).
Definition inserting (key : string) (e : Q) (op : Operation) (r : OperationResult) : prog registry bool :=
  prog_bind (sql (insert_reservation key (operation_id op) e) (fun reserved : bool =>
    if reserved then Ret (true, None)
    else sql (reclaim key (operation_id op) e) (fun reclaimed : bool =>
      if reclaimed then Ret (true, None)
      else sql (select_result key) (fun prior => Ret (false, Some (deduplicated (default (in_progress_result "") prior))))))) (finish op r).
Definition publishing (key : string) (e : Q) (op : Operation) (r : OperationResult) : prog registry bool :=
  sql (publish key (operation_id op) r e) (fun _ => Ret true).

Definition absent (i : nat) (log : list grant) : Prop := forall t e, (i, t, e) ∉ log.
(** Its reservation is in the log, and does not outlast [q]. *)
Definition present (i : nat) (q : Q) (log : list grant) : Prop :=
  (exists t e, (i, t, e) ∈ log) /\ forall t e, (i, t, e) ∈ log -> (e <= q)%Q.

Definition before (i : nat) (key : string) (log : list grant) : Prop := key = k -> absent i log.
Definition after (i : nat) (key : string) (q : Q) (log : list grant) : Prop := key = k -> present i q log.

Inductive stage (i : nat) (op : Operation) (r : OperationResult) (q : Q) (log : list grant) : prog registry bool -> Prop :=
  | Unkeyed b : operation_key op = None -> stage i op r q log (Ret b)
  | Start key : operation_key op = Some key -> before i key log -> stage i op r q log (work ttl (op, r))
  | Insert key e : operation_key op = Some key -> before i key log -> (e <= q + inject_Z ttl)%Q -> stage i op r q log (inserting key e op r)
  | Reclaim key e : operation_key op = Some key -> before i key log -> (e <= q + inject_Z ttl)%Q -> stage i op r q log (reclaiming key e op r)
  | Select key : operation_key op = Some key -> before i key log -> stage i op r q log (selecting key op r)
  | Refused key : operation_key op = Some key -> before i key log -> stage i op r q log (Ret false)
  | Granted key : operation_key op = Some key -> after i key (q + inject_Z ttl) log -> stage i op r q log (finish op r (true, None))
  | Publish key c : operation_key op = Some key -> after i key (c + inject_Z ttl) log -> (c <= q)%Q ->
      stage i op r q log (publishing key (c + inject_Z ttl) op r)
  | Done key : operation_key op = Some key -> (exists q', after i key q' log) -> stage i op r q log (Ret true).

(** Operations are named apart, and a result is not a reservation. *)
Hypothesis named_apart : forall i i' j j', jobs !! i = Some j -> jobs !! i' = Some j' -> operation_id j.1 = operation_id j'.1 -> i = i'.
Hypothesis results : forall j, j ∈ jobs -> status j.2 <> "in_progress".

Record exclusive (log : list grant) (w : world) : Prop := {
  ex_stages : forall i j p, jobs !! i = Some j -> w.1 !! i = Some p -> stage i j.1 j.2 (now w.2) log p;
  ex_clients : length w.1 = length jobs;
  ex_covered : forall g, g ∈ log -> (g.2 <= now w.2)%Q \/ exists row, dget k (table w.2) = Some row /\ (g.2 <= row_expires row)%Q;
  ex_owner : forall row, dget k (table w.2) = Some row ->
    exists i j t e, jobs !! i = Some j /\ operation_id j.1 = row_operation row /\ last log = Some (i, t, e);
  ex_apart : forall l1 g l2, log = (l1 ++ g :: l2)%list -> forall g', g' ∈ l1 -> (g'.2 <= g.1.2)%Q;
  ex_past : forall g, g ∈ log -> (g.1.2 <= now w.2)%Q
}.

Lemma stage_later i op r q q' log p : (q <= q')%Q -> stage i op r q log p -> stage i op r q' log p.
Proof.
  intros Hq. destruct 1 as [b E|key E B|key e E B He|key e E B He|key E B|key E B|key E A|key c E A Hc|key E A];
    [by eapply Unkeyed|by eapply Start|by eapply Insert; try done; lra|by eapply Reclaim; try done; lra|
    by eapply Select|by eapply Refused| |by eapply Publish; try done; lra|by eapply Done].
  eapply Granted; [done|]. intros Ek. destruct (A Ek) as [Hin Hle]. split; [done|]. intros t e Hg. specialize (Hle t e Hg). lra.
Qed.

Lemma stage_log i op r q log log' p :
  (forall t e, (i, t, e) ∈ log' <-> (i, t, e) ∈ log) -> stage i op r q log p -> stage i op r q log' p.
Proof.
  intros Hl.
  assert (Hb : forall key, before i key log -> before i key log').
  { intros key Hb E t e Hin. by apply (Hb E t e), Hl. }
  assert (Ha : forall key c, after i key c log -> after i key c log').
  { intros key c Hk E. destruct (Hk E) as [(t & e & Hin) Hle]. split; [exists t, e; apply Hl, Hin|].
    intros t' e' Hin'. by apply (Hle t' e'), Hl. }
  destruct 1 as [b E|key E B|key e E B He|key e E B He|key E B|key E B|key E A|key c E A Hc|key E [q' A]];
    [by eapply Unkeyed|by eapply Start; eauto|by eapply Insert; eauto|by eapply Reclaim; eauto|
    by eapply Select; eauto|by eapply Refused; eauto|by eapply Granted; eauto|by eapply Publish; eauto|by eapply Done; eauto].
Qed.

(** What a step of client [i] does to the row of [k]. *)
Inductive move (i : nat) (op : Operation) (r : OperationResult) (log : list grant) (s : db registry)
    (p' : prog registry bool) (s' : db registry) : Prop :=
  | Keeps : dget k (table s') = dget k (table s) -> stage i op r (now s) log p' -> move i op r log s p' s'
  | Grants e :
      (forall row, dget k (table s) = Some row -> (row_expires row <= now s)%Q) ->
      dget k (table s') = Some (held (operation_id op) e) -> absent i log ->
      stage i op r (now s) (log ++ [(i, now s, e)]) p' -> move i op r log s p' s'
  | Publishes row row' :
      dget k (table s) = Some row -> row_operation row = operation_id op ->
      dget k (table s') = Some row' -> row_operation row' = operation_id op -> row_status row' = status r ->
      present i (row_expires row') log -> stage i op r (now s) log p' -> move i op r log s p' s'.

Lemma after_grant i key q e log :
  before i key log -> (e <= q + inject_Z ttl)%Q -> after i key (q + inject_Z ttl) (log ++ [(i, q, e)]).
Proof.
  intros Hb He E. split; [exists q, e; set_solver|]. intros t e' Hin.
  apply elem_of_app in Hin as [Hin|Hin]; [by destruct (Hb E t e')|]. set_solver.
Qed.

(** The statement that reserves: it takes the row of [key], which nobody held, or leaves the table as it is. *)
Lemma grant_move i op r log s p' key e t' :
  operation_key op = Some key -> before i key log -> (e <= now s + inject_Z ttl)%Q ->
  (forall row, dget key (table s) = Some row -> (row_expires row <= now s)%Q) ->
  t' = dset key (held (operation_id op) e) (table s) -> p' = finish op r (true, None) ->
  move i op r log s p' {| now := now s; table := t' |}.
Proof.
  intros E Hb He Hfree -> ->. destruct (decide (key = k)) as [->|Hk].
  - apply (Grants _ _ _ _ _ _ _ e); [done|apply dget_dset_eq|by apply Hb|].
    apply (Granted _ _ _ _ _ k); [done|by apply after_grant].
  - apply Keeps; [apply dget_dset_ne; done|]. by apply (Granted _ _ _ _ _ key); [|intros ->].
Qed.

Lemma publish_move i op r log s key c :
  operation_key op = Some key -> after i key (c + inject_Z ttl) log ->
  move i op r log s (Ret true) {| now := now s; table := (publish key (operation_id op) r (c + inject_Z ttl)%Q (now s) (table s)).2 |}.
Proof.
  intros E Ha. assert (Hd : stage i op r (now s) log (Ret true)) by (apply (Done _ _ _ _ _ key); eauto).
  unfold publish. destruct (dget key (table s)) as [row|] eqn:D; [|by apply Keeps].
  destruct (String.eqb_spec (row_operation row) (operation_id op)) as [Ho|Ho]; [|by apply Keeps]. cbn.
  destruct (decide (key = k)) as [->|Hk].
  - eapply Publishes; [done|done|apply dget_dset_eq|done|done| |done]. cbn. auto.
  - apply Keeps; [by apply dget_dset_ne|done].
Qed.

Lemma stage_move i op r log s p p' s' :
  stage i op r (now s) log p -> step p s = (p', s') -> move i op r log s p' s'.
Proof.
  intros Hst Hs. destruct Hst as [b E|key E Hb|key e E Hb He|key e E Hb He|key E Hb|key E Hb|key E Ha|key c E Ha Hc|key E Ha].
  - injection Hs as <- <-. apply Keeps; [done|by apply Unkeyed].
  - unfold work, claim in Hs. cbn in Hs. rewrite E in Hs. injection Hs as <- <-.
    apply Keeps; [done|]. by apply (Insert _ _ _ _ _ key (now s + inject_Z ttl)%Q); [| |lra].
  - cbn in Hs. injection Hs as <- <-. unfold insert_reservation.
    destruct (dget key (table s)) as [row|] eqn:D; cbn.
    + apply Keeps; [done|]. by apply (Reclaim _ _ _ _ _ key e).
    + eapply grant_move; eauto. by rewrite D.
  - cbn in Hs. injection Hs as <- <-. unfold reclaim.
    destruct (dget key (table s)) as [row|] eqn:D; [destruct (row_expires row <=? now s)%clock eqn:Hq|]; cbn;
      [|by apply Keeps; [|apply (Select _ _ _ _ _ key)]..].
    apply qleb_true in Hq.
    eapply grant_move; eauto. rewrite D. by intros ? [= <-].
  - injection Hs as <- <-. apply Keeps; [done|]. by apply (Refused _ _ _ _ _ key).
  - injection Hs as <- <-. apply Keeps; [done|]. by apply (Refused _ _ _ _ _ key).
  - unfold finish, record in Hs. cbn in Hs. rewrite E in Hs. injection Hs as <- <-.
    apply Keeps; [done|]. by apply (Publish _ _ _ _ _ key); [| |lra].
  - injection Hs as <- <-. by apply publish_move.
  - injection Hs as <- <-. apply Keeps; [done|by apply (Done _ _ _ _ _ key)].
Qed.

Lemma stages_step log log' w i j p' :
  exclusive log w -> jobs !! i = Some j -> stage i j.1 j.2 (now w.2) log' p' ->
  (forall i' t e, i' <> i -> (i', t, e) ∈ log' <-> (i', t, e) ∈ log) ->
  forall i' j' q, jobs !! i' = Some j' -> <[i := p']> w.1 !! i' = Some q -> stage i' j'.1 j'.2 (now w.2) log' q.
Proof.
  intros X Hj Hp Hl i' j' q Hj' Hq. destruct (decide (i' = i)) as [->|Hi].
  - apply list_lookup_insert_Some in Hq as [(_ & <- & _)|[? _]]; [|done]. by simplify_eq.
  - rewrite list_lookup_insert_ne in Hq by done. eapply stage_log; [by intros; apply Hl|]. by eapply ex_stages.
Qed.

Lemma exclusive_keeps log w i j p' s' :
  exclusive log w -> jobs !! i = Some j -> now s' = now w.2 -> dget k (table s') = dget k (table w.2) ->
  stage i j.1 j.2 (now w.2) log p' -> exclusive log (<[i := p']> w.1, s').
Proof.
  intros X Hj Hn Hk Hp. constructor; cbn; rewrite ?Hn, ?Hk; try apply X.
  - by apply (stages_step log log w i j p').
  - rewrite length_insert. apply X.
Qed.

Lemma exclusive_grants log w i j p' s' e :
  exclusive log w -> jobs !! i = Some j -> now s' = now w.2 ->
  (forall row, dget k (table w.2) = Some row -> (row_expires row <= now w.2)%Q) ->
  dget k (table s') = Some (held (operation_id j.1) e) -> 
  stage i j.1 j.2 (now w.2) (log ++ [(i, now w.2, e)]) p' -> exclusive (log ++ [(i, now w.2, e)]) (<[i := p']> w.1, s').
Proof.
  intros X Hj Hn Hfree Hk Hp.
  assert (Hover : forall g, g ∈ log -> (g.2 <= now w.2)%Q).
  { intros g Hg. destruct (ex_covered _ _ X g Hg) as [|(row & Hr & He)]; [done|]. specialize (Hfree row Hr). lra. }
  constructor; cbn; rewrite ?Hn, ?Hk.
  - apply (stages_step log _ w i j p'); [done..|]. intros i' t e' Hi. set_solver.
  - rewrite length_insert. apply X.
  - intros g [Hg| ->%list_elem_of_singleton]%elem_of_app; [left; by apply Hover|]. right. eexists. split; [done|]. cbn. lra.
  - intros row [= <-]. exists i, j, (now w.2), e. by rewrite last_snoc.
  - intros l1 g l2 E g' Hg'. destruct l2 as [|x l2 _] using rev_ind.
    + apply app_inj_2 in E as [-> [= <-]]; [|done]. by apply Hover.
    + rewrite app_comm_cons, app_assoc in E. apply app_inj_2 in E as [-> _]; [|done]. by eapply ex_apart.
  - intros g [Hg| ->%list_elem_of_singleton]%elem_of_app; [by apply X|cbn; lra].
Qed.

Lemma exclusive_publishes log w i j p' s' row row' :
  exclusive log w -> jobs !! i = Some j -> now s' = now w.2 ->
  dget k (table w.2) = Some row -> row_operation row = operation_id j.1 ->
  dget k (table s') = Some row' -> row_operation row' = operation_id j.1 ->
  present i (row_expires row') log -> stage i j.1 j.2 (now w.2) log p' -> exclusive log (<[i := p']> w.1, s').
Proof.
  intros X Hj Hn Hr Ho Hr' Ho' [Hin Hle] Hp.
  destruct (ex_owner _ _ X row Hr) as (i' & j' & t & e & Hj' & Hid & Hlast).
  assert (i' = i) as -> by (eapply named_apart; eauto; congruence).
  constructor; cbn; rewrite ?Hn; try apply X.
  - by apply (stages_step log log w i j p').
  - rewrite length_insert. apply X.
  - intros g Hg. apply last_Some in Hlast as [l ->].
    apply elem_of_app in Hg as [Hg| ->%list_elem_of_singleton].
    + left. pose proof (ex_apart _ _ X l _ [] eq_refl g Hg) as H1. cbn in H1.
      assert (H2 : (t <= now w.2)%Q) by (apply (ex_past _ _ X (i, t, e)); set_solver). lra.
    + right. exists row'. split; [done|]. apply (Hle t e). set_solver.
  - intros row'' E. assert (row'' = row') as -> by congruence. exists i, j', t, e. split; [done|]. split; [congruence|done].
Qed.

Lemma exclusive_waits log w d : (0 <= d)%Q -> exclusive log w -> exclusive log (w.1, {| now := now w.2 + d; table := table w.2 |}).
Proof.
  intros Hd X. constructor; cbn; try apply X.
  - intros i j p Hj Hp. apply (stage_later _ _ _ (now w.2)); [lra|]. by eapply ex_stages.
  - intros g Hg. destruct (ex_covered _ _ X g Hg) as [|?]; [left; lra|by right].
  - intros g Hg. pose proof (ex_past _ _ X g Hg). lra.
Qed.

Lemma exclusive_step log e w : exclusive log w -> exclusive (log ++ granted e w) (schedule_step e w).
Proof.
  intros X. destruct e as [i|d]; cbn.
  2: { rewrite app_nil_r. destruct (0 <=? d)%clock eqn:Hd; [|done]. apply qleb_true in Hd. by apply exclusive_waits. }
  destruct (w.1 !! i) as [p|] eqn:Hp.
  2: { destruct (dget k (table w.2)); [|by rewrite app_nil_r]. rewrite bool_decide_false by auto. cbn. by rewrite app_nil_r. }
  destruct (lookup_lt_is_Some_2 jobs i) as [j Hj]; [rewrite <-(ex_clients _ _ X); by eapply lookup_lt_Some|].
  destruct (step p w.2) as [p' s'] eqn:Hs. cbn. pose proof (step_now _ _ _ _ Hs) as Hn.
  destruct (stage_move i j.1 j.2 log w.2 p p' s') as [Hk Hst|e Hfree Hk Habs Hst|row row' Hr Ho Hr' Ho' Hd Hpr Hst]; [by eapply ex_stages|done|..].
  - pose proof (exclusive_keeps log w i j p' s' X Hj Hn Hk Hst) as X'. rewrite Hk.
    destruct (dget k (table w.2)); rewrite ?bool_decide_false by auto; cbn; by rewrite app_nil_r.
  - rewrite Hk. cbn. rewrite bool_decide_true; cbn; [by eapply exclusive_grants|].
    intros Hr. destruct (ex_owner _ _ X _ Hr) as (i' & j' & t & e' & Hj' & Hid & Hlast).
    assert (i' = i) as -> by (eapply named_apart; eauto). apply (Habs t e'). apply last_Some in Hlast as [l ->]. set_solver.
  - rewrite Hr', Hd. destruct (String.eqb_spec (status j.2) "in_progress") as [E|_];
      [exfalso; apply (results j); [by apply list_elem_of_lookup; exists i|done]|]. rewrite andb_false_r, app_nil_r. by eapply exclusive_publishes.
Qed.

Lemma exclusive_start q t : dget k t = None -> exclusive [] (work ttl <$> jobs, {| now := q; table := t |}).
Proof.
  intros Hk. constructor; cbn; try (intros ?; set_solver).
  - intros i j p Hj Hp. rewrite list_lookup_fmap, Hj in Hp. cbn in Hp. injection Hp as <-. destruct j as [op r]. cbn.
    destruct (operation_key op) as [key|] eqn:E; [by apply (Start _ _ _ _ _ key); [|intros _ ? ? ?%elem_of_nil]|].
    unfold work, claim. cbn. rewrite E. unfold record. cbn. rewrite E. by apply Unkeyed.
  - apply length_fmap.
  - intros l1 g l2 E. by destruct l1.
Qed.

Lemma exclusive_schedule es log w : exclusive log w -> exclusive (log ++ grants es w) (schedule es w).
Proof.
  revert log w. induction es as [|e es IH]; intros log w X; cbn; [by rewrite app_nil_r|].
  rewrite app_assoc. by apply IH, exclusive_step.
Qed.

(** A worker that got to run the operation appears among the grants. *)
Lemma winner_granted i op r q log : stage i op r q log (Ret true) -> operation_key op = Some k -> exists t e, (i, t, e) ∈ log.
Proof.
  intros Hst E. inversion Hst; subst; simplify_eq.
  - unfold work, claim in *. cbn in *. rewrite E in *. discriminate.
  - unfold finish, record in *. cbn in *. rewrite E in *. discriminate.
  - match goal with Hd : exists _, after _ _ _ _ |- _ => destruct Hd as [? Ha] end. by apply Ha.
Qed.

(** C24: A key is reserved by one worker at a time.  However any number of workers that
    claim, run and record operations interleave, and however long they take, the
    reservations that the row of a key takes are disjoint in time, each has expired
    when the next begins, and every worker that ran an operation with that key held
    one of them. *)
Theorem postgres_reservations_exclusive es q t :
  dget k t = None ->
  let w := (work ttl <$> jobs, {| now := q; table := t |}) in
  let log := grants es w in
  (forall l1 g l2 g', log = (l1 ++ g :: l2)%list -> g' ∈ l1 -> (g'.2 <= g.1.2)%Q) /\
  (forall i j, jobs !! i = Some j -> operation_key j.1 = Some k -> (schedule es w).1 !! i = Some (Ret true) ->
     exists t e, (i, t, e) ∈ log).
Proof.
  intros Hk w log. pose proof (exclusive_schedule es [] w (exclusive_start q t Hk)) as X. cbn [app] in X. split.
  - intros l1 g l2 g' E Hg. by eapply ex_apart.
  - intros i j Hj E Hp. eapply winner_granted; [by eapply ex_stages|done].
Qed.
End workers.

(** ** Concrete runs *)

Definition demo_operation (id : string) : Operation :=
  {| operation_id := id; idempotency_key := Some "k"; tenant_id := None; name := "pay"; arguments := []; retry_classification := UNSAFE |}.
Definition demo_result (id : string) : OperationResult :=
  {| result_id := id; status := "completed"; output := JStr id; error := None; was_deduplicated := false |}.
Definition demo_jobs : list (Operation * OperationResult) :=
  [(demo_operation "a", demo_result "a"); (demo_operation "b", demo_result "b"); (demo_operation "c", demo_result "c")].

(** [a] reserves; [b] is refused; after the expiry [c] reclaims. *)
Definition demo_schedule : list event :=
  [Client 0; Client 1; Client 0; Client 1; Client 1; Client 1; Wait 60; Client 2; Client 2; Client 2; Client 2; Client 2].
Definition demo_world : list (prog registry bool) * db registry := (work 60 <$> demo_jobs, {| now := 0; table := [] |}).

Example demo_grants : grants "k" demo_schedule demo_world = [(0, 0%Q, 60%Q); (2, 60%Q, 120%Q)].
Proof. vm_compute. reflexivity. Qed.

Lemma postgres_reservations_exclusive_witness :
  exists t e, (2, t, e) ∈ grants "k" demo_schedule demo_world.
Proof.
  destruct (postgres_reservations_exclusive 60 "k" demo_jobs) with (es := demo_schedule) (q := 0%Q) (t := nil : registry) as [_ Hran].
  - intros [|[|[|i]]] [|[|[|i']]] j j' [= <-] [= <-]; cbn; congruence.
  - intros j Hj. repeat (apply elem_of_cons in Hj as [->|Hj]; [done|]). by apply not_elem_of_nil in Hj.
  - done.
  - by apply (Hran 2 (demo_operation "c", demo_result "c")).
Defined.

(** A result that arrives after its reservation expired is taken, as long as nobody
    reserved the key since; it then stands for another lifetime. *)
Definition late : db registry :=
  (run_prog (record 60 (demo_operation "a") (demo_result "a")) 
     {| now := 100; table := table (run_prog (claim 60 (demo_operation "a")) {| now := 0; table := [] |}).2 |}).2.
Example late_result_is_recorded :
  (status <$> (run_prog (find_by_idempotency_key "k" None) late).1) = Some "completed".
Proof. vm_compute. reflexivity. Qed.

End PostgresOps.
