(* ===== verification/PostgresSession.v ===== *)
(** * Sessions in PostgreSQL

    [PostgresSessionProvider] of [micro_agent/session/postgres.py]: a row per tenant
    and session id, and updates that are guarded by the version they read. *)

From S2P Require Import Prelude Json Session Redis Postgres.
Import Session Redis Postgres.
Local Open Scope string_scope.

Module PostgresSession.

Record row : Type := {
  row_messages : string;
  row_metadata : string;
  row_caller : string;
  row_version : Z;
  row_created : Q;
  row_expires : option Q
}.

(** The primary key: tenant and session id. *)
Abbreviation rows := (gmap (string * string) row) (only parsing).

Section provider.
Context `{Jsonb} (default_ttl : option Z).

(** [_expires_at]: the clock is only read when there is a time to live. *)
Definition with_expiry {T A : Type} (ttl : option Z) (k : option Q -> prog T A) : prog T A :=
  match (match ttl with Some t => Some t | None => default_ttl end) with
  | Some n => Clock (fun q => k (Some (q + inject_Z n)%Q))
  | None => k None
  end.

(** [COALESCE(e, e')] *)
Definition coalesce (e e' : option Q) : option Q := match e with Some _ => e | None => e' end.

(** ** The statements *)

Definition insert_session (key : string * string) (e : option Q) (q : Q) (t : rows) : Z * rows :=
  match t !! key with
  | Some r => (row_version r, <[key := {| row_messages := row_messages r; row_metadata := row_metadata r; row_caller := row_caller r;
                                          row_version := row_version r; row_created := row_created r;
                                          row_expires := coalesce e (row_expires r) |}]> t)
  | None => (1%Z, <[key := {| row_messages := dumps (JList []); row_metadata := dumps (JObj []); row_caller := dumps (JObj []);
                              row_version := 1; row_created := q; row_expires := e |}]> t)
  end.

Definition delete_lapsed (key : string * string) (q : Q) (t : rows) : bool * rows :=
  match t !! key with
  | Some r => if passed (row_expires r) q then (true, base.delete key t) else (false, t)
  | None => (false, t)
  end.

Definition delete_all_lapsed (q : Q) (t : rows) : unit * rows :=
  (tt, filter (fun e => passed (row_expires e.2) q = false) t).

Definition select {A : Type} (f : rows -> A) (q : Q) (t : rows) : A * rows := (f t, t).

(** What an update writes into the columns. *)
Definition written (c : SessionContext) (v : Z) (created : Q) (e : option Q) : row :=
  {| row_messages := dumps (JList (messages c)); row_metadata := dumps (JObj (metadata c));
     row_caller := dumps (JObj (caller_context c)); row_version := v; row_created := created; row_expires := e |}.

(** [INSERT .. ON CONFLICT DO UPDATE] of [update] *)
Definition insert_update (key : string * string) (c : SessionContext) (e : option Q) (q : Q) (t : rows) : unit * rows :=
  (tt, <[key := match t !! key with
                | Some r => written c (row_version r + 1) (row_created r) (coalesce e (row_expires r))
                | None => written c 1 q e
                end]> t).

(** [UPDATE .. WHERE .. version = $7 RETURNING version] *)
Definition guarded_update (key : string * string) (c : SessionContext) (e : option Q) (actual : Z) (q : Q) (t : rows) : option Z * rows :=
  match t !! key with
  | Some r =>
      if Z.eqb (row_version r) actual
      then (Some (row_version r + 1)%Z, <[key := written c (row_version r + 1) (row_created r) (coalesce e (row_expires r))]> t)
      else (None, t)
  | None => (None, t)
  end.

(** ** The methods *)

(** [create]; [fresh] is the id a new [SessionContext] draws. *)
Definition create (fresh : string) (sid : option string) (ttl : option Z) (tenant : option string) : prog rows SessionContext :=
  let sid := opt_or sid fresh in
  with_expiry ttl (fun e =>
    sql (insert_session (tenant_key tenant, sid) e) (fun v : Z =>
      Ret {| session_id := sid; messages := []; metadata := []; caller_context := []; tenant_id := tenant; version := v |})).

Definition context_of (key : string * string) (r : row) : SessionContext :=
  {| session_id := key.2; messages := read_list (row_messages r); metadata := read_dict (row_metadata r);
     caller_context := read_dict (row_caller r); tenant_id := tenant_of key.1; version := row_version r |}.

Definition get (sid : string) (tenant : option string) : prog rows (option SessionContext) :=
  let key := (tenant_key tenant, sid) in
  sql (delete_lapsed key) (fun gone : bool =>
    if gone then Ret None else sql (select (fun t => context_of key <$> t !! key)) Ret).

(** [update]: the outcome and the version of the caller's object afterwards. *)
Definition update (c : SessionContext) (ttl expected_version : option Z) : prog rows (result StateConflictError unit * SessionContext) :=
  let key := (tenant_key (tenant_id c), session_id c) in
  let expected := default (version c) expected_version in
  sql (select (fun t => match t !! key with Some r => row_version r | None => 0%Z end)) (fun actual : Z =>
    if Z.eqb actual 0 then
      if negb (Z.eqb expected 0) then Ret (Err (conflict c expected 0), c)
      else with_expiry ttl (fun e => sql (insert_update key c e) (fun _ => Ret (Ok tt, set_version c 1)))
    else if negb (Z.eqb expected 0) && negb (Z.eqb expected actual) then Ret (Err (conflict c expected actual), c)
    else with_expiry ttl (fun e =>
      sql (guarded_update key c e actual) (fun r =>
        match r with
        | Some v => Ret (Ok tt, set_version c v)
        | None => Ret (Err (conflict c expected actual), c)
        end))).

(** [delete] *)
Definition delete (sid : string) (tenant : option string) : prog rows unit :=
  sql (fun _ t => (tt, base.delete (tenant_key tenant, sid) t)) Ret.

(** [list_active], in an order the server chooses. *)
Definition metadata_of (e : (string * string) * row) : SessionMetadata :=
  {| meta_session_id := e.1.2; created_at := row_created e.2; expires_at := row_expires e.2;
     is_active := true; meta_tenant_id := tenant_of e.1.1; meta_version := row_version e.2 |}.

Definition list_active (tenant : option string) : prog rows (list SessionMetadata) :=
  sql delete_all_lapsed (fun _ =>
    sql (select (fun t => metadata_of <$> filterb (fun e : (string * string) * row =>
                   match tenant with None => true | Some x => String.eqb e.1.1 (tenant_key (Some x)) end) (map_to_list t))) Ret).

(** A client does one of these. *)
Inductive job : Type :=
  | Create (fresh : string) (sid : option string) (ttl : option Z) (tenant : option string)
  | Get (sid : string) (tenant : option string)
  | Update (c : SessionContext) (ttl expected_version : option Z)
  | ListActive (tenant : option string).
Inductive answer : Type :=
  | Created (c : SessionContext)
  | Got (c : option SessionContext)
  | Updated (r : result StateConflictError unit) (c : SessionContext)
  | Listed (l : list SessionMetadata).

Definition work (j : job) : prog rows answer :=
  match j with
  | Create fresh sid ttl tenant => prog_bind (create fresh sid ttl tenant) (fun c => Ret (Created c))
  | Get sid tenant => prog_bind (get sid tenant) (fun c => Ret (Got c))
  | Update c ttl e => prog_bind (update c ttl e) (fun r => Ret (Updated r.1 r.2))
  | ListActive tenant => prog_bind (list_active tenant) (fun l => Ret (Listed l))
  end.
End provider.

(** ** One client alone *)

Section alone.
Context `{Jsonb} (default_ttl : option Z).

(** A context whose objects are dicts. *)
Definition keyed_once (c : SessionContext) : Prop := NoDup (dkeys (metadata c)) /\ NoDup (dkeys (caller_context c)).

Definition row_key (c : SessionContext) : string * string := (tenant_key (tenant_id c), session_id c).

(** The context the caller holds, as the columns give it back. *)
Definition reads_as (c d : SessionContext) : Prop :=
  session_id d = session_id c /\ tenant_id d = tenant_id c /\ messages d = normal <$> messages c /\
  (forall k, dget k (metadata d) = normal <$> dget k (metadata c)) /\
  (forall k, dget k (caller_context d) = normal <$> dget k (caller_context c)) /\ version d = version c.

Lemma context_of_written c v created e :
  keyed_once c -> tenant_id c <> Some "" -> reads_as (set_version c v) (context_of (row_key c) (written c v created e)).
Proof.
  intros [Hm Hc] Ht. unfold reads_as. cbn. split_and!; try done.
  - destruct (tenant_id c) as [[|a t]|]; try done.
  - apply read_list_dumps.
  - intros k. by apply read_dict_dumps.
  - intros k. by apply read_dict_dumps.
Qed.

Lemma run_with_expiry {T A} ttl (k : option Q -> prog T A) s :
  exists e, run_prog (with_expiry default_ttl ttl k) s = run_prog (k e) s.
Proof. unfold with_expiry. destruct (match ttl with Some _ => _ | None => _ end) as [n|]; by eexists. Qed.

Local Ltac runs_with_expiry :=
  match goal with |- context [run_prog (with_expiry _ ?ttl ?k) ?s] => destruct (run_with_expiry ttl k s) as [e ->] end.

(** What an accepted update leaves behind. *)
Lemma update_writes c ttl expected s r c' s' :
  run_prog (update default_ttl c ttl expected) s = (r, c', s') ->
  match r with
  | Err e => s' = s /\ c' = c
  | Ok tt => now s' = now s /\ exists v created e, c' = set_version c v /\ table s' = <[row_key c := written c v created e]> (table s)
  end.
Proof.
  destruct s as [q t]. unfold update. cbn. destruct (t !! _) as [row|] eqn:Hrow.
  - destruct (Z.eqb_spec (row_version row) 0) as [Hz|Hz].
    + destruct (negb _); [by intros [= <- <- <-]|]. runs_with_expiry.
      cbn. intros [= <- <- <-]. split; [done|]. rewrite Hrow, Hz. by eexists _, _, _.
    + destruct (negb _ && _); [by intros [= <- <- <-]|]. runs_with_expiry.
      cbn. unfold guarded_update. rewrite Hrow, Z.eqb_refl. cbn. intros [= <- <- <-]. split; [done|]. by eexists _, _, _.
  - rewrite Z.eqb_refl. destruct (negb _); [by intros [= <- <- <-]|]. runs_with_expiry.
    cbn. intros [= <- <- <-]. split; [done|]. rewrite Hrow. by eexists _, _, _.
Qed.

(** C29: What an accepted update wrote is what the next read answers, as long as the
    session has not lapsed: messages, metadata and caller context come back as the
    columns keep them, at the version the update gave the caller's object; a refused
    update changes nothing. *)
Theorem postgres_session_reads_back c ttl expected s r c' s' :
  keyed_once c -> tenant_id c <> Some "" ->
  run_prog (update default_ttl c ttl expected) s = (r, c', s') ->
  (forall row, table s' !! row_key c = Some row -> passed (row_expires row) (now s') = false) ->
  match r with
  | Err e => s' = s /\ c' = c
  | Ok tt => exists d, run_prog (get (session_id c) (tenant_id c)) s' = (Some d, s') /\ reads_as c' d
  end.
Proof.
  intros Hk Ht Hrun Hlive. apply update_writes in Hrun. destruct r as [[]|e]; [|done].
  destruct Hrun as (_ & v & created & e & -> & Htab). unfold get. fold (row_key c). cbn. unfold delete_lapsed.
  assert (Hr : table s' !! row_key c = Some (written c v created e)) by (rewrite Htab; apply lookup_insert_eq).
  rewrite Hr, (Hlive _ Hr). cbn. rewrite Hr. destruct s' as [q t]. eexists. split; [done|]. by apply context_of_written.
Qed.
End alone.

(** ** Updates in any interleaving *)

Section clients.
Context `{Jsonb} (K : string * string) (v : Z) (jobs : list job).

Abbreviation world := (list (prog rows answer) * db rows)%type (only parsing).

Definition updates (j : job) : bool :=
  match j with Update c _ _ => bool_decide ((tenant_key (tenant_id c), session_id c) = K) | _ => false end.
Definition expectation (j : job) : Z := match j with Update c _ e => default (version c) e | _ => 0%Z end.
Definition lasting (j : job) : bool :=
  match j with Create _ _ ttl _ | Update _ ttl _ => match ttl with None => true | Some _ => false end | _ => true end.

(** The step moves the version of the row of [K]: who, and to which. *)
Definition committed (e : event) (w : world) : list (nat * Z) :=
  match e, table w.2 !! K, table (schedule_step e w).2 !! K with
  | Client i, Some r, Some r' => if Z.eqb (row_version r) (row_version r') then [] else [(i, row_version r')]
  | _, _, _ => []
  end.
Fixpoint commits (es : list event) (w : world) : list (nat * Z) :=
  match es with [] => [] | e :: es => (committed e w ++ commits es (schedule_step e w))%list end.

(** The row of [K] stays, at a version, without expiry. *)
Definition row_at (n : Z) (t : rows) : Prop := exists r, t !! K = Some r /\ row_version r = n /\ row_expires r = None.

(** Whatever happens next, the version is left alone and the answer satisfies [P]. *)
Fixpoint harmless {A} (P : A -> Prop) (p : prog rows A) : Prop :=
  match p with
  | Ret a => P a
  | Stmt f k => (forall q n t, row_at n t -> row_at n (f q t)) /\ forall q t, harmless P (k q t)
  | Clock k => forall q, harmless P (k q)
  end.

Definition lost (j : job) (a : answer) : Prop :=
  updates j = true -> match a with Updated (Ok _) _ => False | _ => True end.

Definition guarding (c : SessionContext) (expected actual : Z) : prog rows answer :=
  prog_bind (sql (guarded_update K c None actual) (fun r =>
        match r with
        | Some v => Ret (Ok tt, set_version c v)
        | None => Ret (Err (conflict c expected actual), c)
        end)) (fun r => Ret (Updated r.1 r.2)).

Inductive stage (i : nat) (j : job) (log : list (nat * Z)) : prog rows answer -> Prop :=
  | Ready c e : j = Update c None e -> updates j = true -> i ∉ log.*1 -> stage i j log (work None j)
  | Guarding c e actual : j = Update c None e -> updates j = true -> i ∉ log.*1 ->
      (expectation j = 0 \/ expectation j = actual)%Z -> stage i j log (guarding c (expectation j) actual)
  | Harmless p : harmless (lost j) p -> i ∉ log.*1 -> stage i j log p
  | Committed c : updates j = true -> (i, version c) ∈ log -> (expectation j = 0 \/ version c = expectation j + 1)%Z ->
      stage i j log (Ret (Updated (Ok tt) c)).

Lemma row_at_other n key r t : key <> K -> row_at n t -> row_at n (<[key := r]> t).
Proof. intros Hk (r' & Hr & Hv). exists r'. by rewrite lookup_insert_ne. Qed.

Lemma harmless_sql {A B} (P : A -> Prop) (f : Q -> rows -> B * rows) (k : B -> prog rows A) (g : A -> prog rows answer) Q' :
  (forall q n t, row_at n t -> row_at n (f q t).2) -> (forall b, harmless Q' (prog_bind (k b) g)) ->
  harmless Q' (prog_bind (sql f k) g).
Proof. intros Hf Hk. split; [intros q n t Hr; by apply Hf|]. intros q t. apply Hk. Qed.

Lemma insert_session_harmless key q n t : row_at n t -> row_at n (insert_session key None q t).2.
Proof.
  intros (r & Hr & Hv & He). unfold insert_session. destruct (decide (key = K)) as [->|Hk].
  - rewrite Hr. cbn. eexists. rewrite lookup_insert_eq. cbn. by rewrite He.
  - destruct (t !! key); apply row_at_other; try done; by exists r.
Qed.

Lemma delete_lapsed_harmless key q n t : row_at n t -> row_at n (delete_lapsed key q t).2.
Proof.
  intros (r & Hr & Hv & He). unfold delete_lapsed. destruct (decide (key = K)) as [->|Hk].
  - rewrite Hr, He. by exists r.
  - destruct (t !! key) as [r'|]; [destruct (passed _ _)|]; exists r; cbn; by rewrite ?lookup_delete_ne by done.
Qed.

Lemma delete_all_lapsed_harmless q n t : row_at n t -> row_at n (delete_all_lapsed q t).2.
Proof. intros (r & Hr & Hv & He). exists r. split; [|done]. apply map_lookup_filter_Some. cbn. by rewrite He. Qed.

Lemma insert_update_harmless key c q n t : key <> K -> row_at n t -> row_at n (insert_update key c None q t).2.
Proof. intros Hk Hr. cbn. by apply row_at_other. Qed.

Lemma guarded_update_harmless key c actual q n t : key <> K -> row_at n t -> row_at n (guarded_update key c None actual q t).2.
Proof.
  intros Hk Hr. unfold guarded_update. destruct (t !! key) as [r|]; [|done]. destruct (Z.eqb _ _); [|done]. by apply row_at_other.
Qed.

Lemma select_harmless {A} (f : rows -> A) q n t : row_at n t -> row_at n (select f q t).2.
Proof. done. Qed.

(** Every other client leaves the row alone. *)
Lemma others_harmless j : lasting j = true -> updates j = false -> harmless (lost j) (work None j).
Proof.
  intros Hl Hu. assert (Hd : forall a, lost j a) by (intros a; unfold lost; by rewrite Hu).
  destruct j as [fresh sid [?|] tenant|sid tenant|c [?|] e|tenant]; try discriminate; cbn [work].
  - apply harmless_sql with (P := fun _ => True); [intros; by apply insert_session_harmless|]. intros b. apply Hd.
  - apply harmless_sql with (P := fun _ => True); [intros; by apply delete_lapsed_harmless|]. intros [|]; [apply Hd|].
    apply harmless_sql with (P := fun _ => True); [done|]. intros b. apply Hd.
  - cbn in Hu. apply bool_decide_eq_false in Hu.
    apply harmless_sql with (P := fun _ => True); [done|]. intros actual.
    destruct (Z.eqb actual 0); [destruct (negb _); [apply Hd|]|destruct (negb _ && _); [apply Hd|]].
    + apply harmless_sql with (P := fun _ => True); [intros; by apply insert_update_harmless|]. intros b. apply Hd.
    + apply harmless_sql with (P := fun _ => True); [intros; by apply guarded_update_harmless|]. intros [b|]; apply Hd.
  - apply harmless_sql with (P := fun _ => True); [intros; by apply delete_all_lapsed_harmless|]. intros _.
    apply harmless_sql with (P := fun _ => True); [done|]. intros b. apply Hd.
Qed.

(** What a step of client [i] does to the row of [K]. *)
Inductive move (i : nat) (j : job) (log : list (nat * Z)) (n : Z) (p' : prog rows answer) (s' : db rows) : Prop :=
  | Leaves : row_at n (table s') -> stage i j log p' -> move i j log n p' s'
  | Commits : row_at (n + 1) (table s') -> i ∉ log.*1 -> stage i j (log ++ [(i, n + 1)%Z]) p' -> move i j log n p' s'.

Lemma session_stage_move i j log n s p p' s' :
  (1 <= n)%Z -> row_at n (table s) -> stage i j log p -> step p s = (p', s') -> move i j log n p' s'.
Proof.
  intros Hn Hr Hst Hs. destruct Hst as [c e -> Hu Hi|c e actual -> Hu Hi He|p Hp Hi|c Hu Hin He].
  - cbn in Hu. apply bool_decide_eq_true in Hu as Hk. injection Hs as <- <-. apply Leaves; [done|].
    destruct Hr as (r & Hr & Hv & _). cbn. rewrite Hk, Hr, Hv. destruct (Z.eqb_spec n 0) as [?|_]; [lia|].
    destruct (negb _ && negb _) eqn:Hg; [by apply Harmless|].
    refine (Guarding i (Update c None e) log c e n _ _ _ _); [done|by apply bool_decide_eq_true|done|]. cbn. revert Hg.
    destruct (Z.eqb_spec (default (version c) e) 0) as [|_]; [by left|].
    destruct (Z.eqb_spec (default (version c) e) n); [by right|done].
  - injection Hs as <- <-. destruct Hr as (r & Hr & Hv & Hx). unfold guarded_update. rewrite Hr.
    destruct (Z.eqb_spec (row_version r) actual) as [E|E].
    + apply Commits; [eexists; cbn; rewrite lookup_insert_eq; cbn; rewrite Hv, Hx; done|done|].
      cbn. apply Committed; [done|cbn; set_solver by lia|cbn in *; lia].
    + apply Leaves; [by exists r|]. cbn. by apply Harmless.
  - destruct p as [a|f k|k]; injection Hs as <- <-.
    + apply Leaves; [done|by apply Harmless].
    + destruct Hp as [Hf Hp]. apply Leaves; [by apply Hf|by apply Harmless].
    + apply Leaves; [done|by apply Harmless].
  - injection Hs as <- <-. apply Leaves; [done|by apply Committed].
Qed.

Record serial (log : list (nat * Z)) (w : world) : Prop := {
  se_row : row_at (v + Z.of_nat (length log)) (table w.2);
  se_log : forall m g, log !! m = Some g -> (g.2 = v + Z.of_nat m + 1)%Z;
  se_once : NoDup log.*1;
  se_clients : length w.1 = length jobs;
  se_known : forall i n, (i, n) ∈ log -> is_Some (jobs !! i);
  se_stages : forall i j p, jobs !! i = Some j -> w.1 !! i = Some p -> stage i j log p
}.

Lemma session_stage_log i i' j log c p : i' <> i -> stage i j log p -> stage i j (log ++ [(i', c)]) p.
Proof.
  intros Hi. assert (Hn : i ∉ log.*1 -> i ∉ (log ++ [(i', c)])%list.*1) by (rewrite fmap_app; set_solver).
  destruct 1 as [c' e -> Hu Hl|c' e actual -> Hu Hl He|p Hp Hl|c' Hu Hin He].
  - by eapply Ready; auto.
  - by eapply Guarding; auto.
  - by apply Harmless; auto.
  - apply Committed; [done|set_solver|done].
Qed.

Lemma committed_at i w m m' : row_at m (table w.2) -> row_at m' (table (schedule_step (Client i) w).2) ->
  committed (Client i) w = if Z.eqb m m' then [] else [(i, m')].
Proof. intros (r & Hr & <- & _) (r' & Hr' & <- & _). unfold committed. by rewrite Hr, Hr'. Qed.

Lemma serial_leaves log w i j p' s' :
  serial log w -> jobs !! i = Some j -> row_at (v + Z.of_nat (length log)) (table s') -> stage i j log p' ->
  serial log (<[i := p']> w.1, s').
Proof.
  intros X Hj Hr Hst. split; cbn; try apply X; [done|rewrite length_insert; apply X|].
  intros i' j' q Hj' [(-> & <- & _)|[_ Hq]]%list_lookup_insert_Some; [by simplify_eq|by eapply se_stages].
Qed.

Lemma serial_commits log w i j p' s' (c := (v + Z.of_nat (length log) + 1)%Z) :
  serial log w -> jobs !! i = Some j -> row_at c (table s') -> i ∉ log.*1 -> stage i j (log ++ [(i, c)]) p' ->
  serial (log ++ [(i, c)]) (<[i := p']> w.1, s').
Proof.
  intros X Hj Hr Hi Hst. split; cbn.
  - rewrite length_app. cbn. replace (v + Z.of_nat (length log + 1))%Z with c by (unfold c; lia). done.
  - intros m g [Hm|[Hlen Hm]]%lookup_app_Some; [by eapply se_log|].
    apply list_lookup_singleton_Some in Hm as [Hm <-]. cbn. unfold c. lia.
  - rewrite fmap_app. apply NoDup_app. split; [apply X|]. split; [set_solver|apply NoDup_singleton].
  - rewrite length_insert. apply X.
  - intros i' n [Hin|[= -> _]%list_elem_of_singleton]%elem_of_app; [by eapply se_known|by eexists].
  - intros i' j' q Hj' [(-> & <- & _)|[Hne Hq]]%list_lookup_insert_Some; [by simplify_eq|].
    apply session_stage_log; [done|]. by eapply se_stages.
Qed.

Lemma row_serial_step log e w : (1 <= v)%Z -> serial log w -> serial (log ++ committed e w) (schedule_step e w).
Proof.
  intros Hv X. pose proof (se_row _ _ X) as Hr. destruct e as [i|d].
  2: { cbn. rewrite app_nil_r. destruct (0 <=? d)%clock; [|done]. split; apply X. }
  destruct (w.1 !! i) as [p|] eqn:Hp.
  2: { assert (E : schedule_step (Client i) w = w) by (cbn; by rewrite Hp).
       rewrite (committed_at i w (v + Z.of_nat (length log)) (v + Z.of_nat (length log))) by (rewrite ?E; done).
       by rewrite Z.eqb_refl, app_nil_r, E. }
  destruct (lookup_lt_is_Some_2 jobs i) as [j Hj]; [rewrite <-(se_clients _ _ X); by eapply lookup_lt_Some|].
  destruct (step p w.2) as [p' s'] eqn:Hs.
  assert (E : schedule_step (Client i) w = (<[i := p']> w.1, s')) by (cbn; by rewrite Hp, Hs).
  destruct (session_stage_move i j log (v + Z.of_nat (length log)) w.2 p p' s') as [Hr' Hst|Hr' Hi Hst]; [lia|done|by eapply se_stages|done|..].
  - rewrite (committed_at i w (v + Z.of_nat (length log)) (v + Z.of_nat (length log))), Z.eqb_refl, app_nil_r, E by (rewrite ?E; done).
    by eapply serial_leaves.
  - rewrite (committed_at i w (v + Z.of_nat (length log)) (v + Z.of_nat (length log) + 1)) by (rewrite ?E; done).
    destruct (Z.eqb_spec (v + Z.of_nat (length log)) (v + Z.of_nat (length log) + 1)); [lia|]. rewrite E. by eapply serial_commits.
Qed.

Lemma row_serial_schedule es log w : (1 <= v)%Z -> serial log w -> serial (log ++ commits es w) (schedule es w).
Proof.
  intros Hv. revert log w. induction es as [|e es IH]; intros log w X; cbn; [by rewrite app_nil_r|].
  rewrite app_assoc. by apply IH, row_serial_step.
Qed.

Lemma serial_start q t : (forall j, j ∈ jobs -> lasting j = true) -> row_at v t -> serial [] (work None <$> jobs, {| now := q; table := t |}).
Proof.
  intros Hl Hr. split; cbn.
  - by rewrite Z.add_0_r.
  - by intros m g ?.
  - constructor.
  - apply length_fmap.
  - by intros i n ?%elem_of_nil.
  - intros i j p Hj Hp. rewrite list_lookup_fmap, Hj in Hp. injection Hp as <-.
    specialize (Hl j (list_elem_of_lookup_2 _ i _ Hj)). destruct (updates j) eqn:Hu.
    + destruct j as [| |c [?|] e|]; try discriminate. eapply Ready; [done|done|]. by intros ?%elem_of_nil.
    + apply Harmless; [by apply others_harmless|]. by intros ?%elem_of_nil.
Qed.

(** An update that answered is in the log, at the version it answered. *)
Lemma committed_logged i j log c : updates j = true -> stage i j log (Ret (Updated (Ok tt) c)) ->
  (i, version c) ∈ log /\ (expectation j = 0 \/ version c = expectation j + 1)%Z.
Proof.
  intros Hu Hst. inversion Hst; subst; try done.
  - match goal with Hh : harmless _ _ |- _ => by destruct (Hh Hu) end.
Qed.

(** What is in the log was answered as a success, at the version of the log. *)
Lemma logged_answered log w i n : serial log w -> (i, n) ∈ log ->
  exists j c, jobs !! i = Some j /\ updates j = true /\ w.1 !! i = Some (Ret (Updated (Ok tt) c)) /\ version c = n.
Proof.
  intros X Hin. destruct (se_known _ _ X i n Hin) as [j Hj].
  destruct (lookup_lt_is_Some_2 w.1 i) as [p Hp]; [rewrite (se_clients _ _ X); by eapply lookup_lt_Some|].
  assert (Hi : i ∈ log.*1) by (apply list_elem_of_fmap; by exists (i, n)).
  pose proof (se_stages _ _ X i j p Hj Hp) as Hst.
  destruct Hst as [c e _ _ Hn|c e actual _ _ Hn _|p _ Hn|c Hu Hc _]; [by destruct (Hn Hi)..|].
  exists j, c. split_and!; [done..|].
  pose proof (elem_dget _ _ _ (se_once _ _ X) Hc) as E. pose proof (elem_dget _ _ _ (se_once _ _ X) Hin) as E'. congruence.
Qed.

(** C26: Updates in PostgreSQL are serialised by the version of the row, for a
    session that is there, without an expiry, under a provider without a default time
    to live and clients that give none.  However any number of clients that create,
    read, list and update sessions interleave, the version of the session has grown by
    exactly the number of updates of it that took effect, each of which made the next
    version.  An update that has finished took effect if and only if it answered
    success, then at the version that it answered, which is the one after the version
    it expected when it expected one; no update takes effect twice, and only updates
    of this session do.  A session that is not there yet is not safe
    ([racing_creation_is_lost]). *)
Theorem postgres_updates_serialised es q t :
  (1 <= v)%Z -> (forall j, j ∈ jobs -> lasting j = true) -> row_at v t ->
  let w := (work None <$> jobs, {| now := q; table := t |}) in
  let log := commits es w in
  row_at (v + Z.of_nat (length log)) (table (schedule es w).2) /\
  (forall m i c, log !! m = Some (i, c) -> (c = v + Z.of_nat m + 1)%Z) /\ NoDup log.*1 /\
  (forall i n, (i, n) ∈ log <->
     exists j c, jobs !! i = Some j /\ updates j = true /\ (schedule es w).1 !! i = Some (Ret (Updated (Ok tt) c)) /\ version c = n) /\
  (forall i j c, jobs !! i = Some j -> updates j = true -> (schedule es w).1 !! i = Some (Ret (Updated (Ok tt) c)) ->
     (expectation j = 0 \/ version c = expectation j + 1)%Z).
Proof.
  intros Hv Hl Hr w log. pose proof (row_serial_schedule es [] w Hv (serial_start q t Hl Hr)) as X. cbn [app] in X.
  assert (Hin : forall i j c, jobs !! i = Some j -> updates j = true -> (schedule es w).1 !! i = Some (Ret (Updated (Ok tt) c)) ->
     (i, version c) ∈ log /\ (expectation j = 0 \/ version c = expectation j + 1)%Z).
  { intros i j c Hj Hu Hp. apply (committed_logged i j); [done|]. by eapply se_stages. }
  split_and!; [apply X|intros m i c Hm; by apply (se_log _ _ X) in Hm|apply X| |].
  - intros i n. split; [by apply logged_answered|]. intros (j & c & Hj & Hu & Hp & <-). by apply (Hin i j c).
  - intros i j c Hj Hu Hp. by apply (Hin i j c).
Qed.
End clients.

(** ** Concrete runs *)

Definition demo_context (sid : string) (tenant : option string) (said : string) (v : Z) : SessionContext :=
  {| session_id := sid; messages := [JStr said]; metadata := []; caller_context := []; tenant_id := tenant; version := v |}.

(** A session just created. *)
Definition created_now (ttl : option Z) : db rows :=
  (run_prog (create None "u" (Some "s") ttl None) {| now := 0; table := ∅ |}).2.

(** Two clients read version 1; the second commits while the first is at it. *)
Definition racers : list job := [Update (demo_context "s" None "first" 1) None None; Update (demo_context "s" None "second" 1) None None].
Definition race : list event := [Client 0; Client 1; Client 1; Client 0].

Lemma postgres_updates_serialised_witness :
  row_at ("", "s") 2 (table (schedule race (work None <$> racers, created_now None)).2).
Proof.
  destruct (postgres_updates_serialised ("", "s") 1 racers race 0%Q (table (created_now None))) as [Hr _].
  - lia.
  - intros j Hj. repeat (apply elem_of_cons in Hj as [->|Hj]; [done|]). by apply not_elem_of_nil in Hj.
  - eexists. vm_compute. split_and!; reflexivity.
  - exact Hr.
Defined.

Lemma postgres_session_reads_back_witness :
  exists d, run_prog (get "s" (Some "acme"))
      (run_prog (update None (demo_context "s" (Some "acme") "hello" 0) None None) {| now := 0; table := ∅ |}).2 =
    (Some d, (run_prog (update None (demo_context "s" (Some "acme") "hello" 0) None None) {| now := 0; table := ∅ |}).2) /\
    reads_as (demo_context "s" (Some "acme") "hello" 1) d.
Proof.
  eapply (postgres_session_reads_back None (demo_context "s" (Some "acme") "hello" 0) None None {| now := 0; table := ∅ |} (Ok tt)).
  - split; constructor.
  - done.
  - vm_compute. reflexivity.
  - intros row Hr. vm_compute in Hr. by injection Hr as <-.
Defined.

(** Two clients that find no session both create it: the later overwrites the
    earlier without a conflict, and holds version 1 of a row at version 2. *)
Definition creators : list job := [Update (demo_context "s" None "first" 0) None None; Update (demo_context "s" None "second" 0) None None].
Definition creation_race : list event := [Client 0; Client 1; Client 0; Client 1].
Example racing_creation_is_lost :
  let w := schedule creation_race (work None <$> creators, {| now := 0; table := ∅ |}) in
  w.1 = [Ret (Updated (Ok tt) (demo_context "s" None "first" 1)); Ret (Updated (Ok tt) (demo_context "s" None "second" 1))] /\
  ((fun c => (messages c, version c)) <$> (run_prog (get "s" None) w.2).1) = Some ([JStr "second"], 2%Z).
Proof. vm_compute. split; reflexivity. Qed.

(** An update of a lapsed session is accepted and never read. *)
Example lapsed_session_takes_updates :
  let r := run_prog (update (Some 10%Z) (demo_context "s" None "kept?" 1) None None)
             {| now := 5; table := table (created_now (Some 10%Z)) |} in
  let late := run_prog (update None (demo_context "s" None "kept?" 1) None None)
             {| now := 20; table := table (created_now (Some 10%Z)) |} in
  r.1.1 = Ok tt /\ late.1.1 = Ok tt /\ (run_prog (get "s" None) late.2).1 = None.
Proof. vm_compute. split_and!; reflexivity. Qed.

(** Creating a session that exists answers an empty context with its version, and
    updating from that context replaces what the session held. *)
Example created_again_is_emptied :
  let held := (run_prog (update None (demo_context "s" None "kept?" 1) None None) (created_now None)).2 in
  let again := run_prog (create None "u" (Some "s") None None) held in
  (messages again.1, version again.1) = ([], 2%Z) /\
  let wiped := run_prog (update None again.1 None None) again.2 in
  wiped.1.1 = Ok tt /\ messages <$> (run_prog (get "s" None) wiped.2).1 = Some [].
Proof. vm_compute. split_and!; reflexivity. Qed.

End PostgresSession.
