(* ===== verification/PostgresMemory.v ===== *)
(** * Memory in PostgreSQL

    [PostgresMemoryProvider] of [micro_agent/memory/postgres.py]: a row per tenant,
    scope and key.  Rows made at the same instant come in an order that the server
    chooses. *)

From S2P Require Import Prelude Json Memory Knowledge Redis Postgres.
Import Memory Redis Postgres.
Local Open Scope string_scope.

Module PostgresMemory.

Record row : Type := {
  row_value : string;
  row_version : Z;
  row_created : Q;
  row_expires : option Q
}.

(** The primary key: tenant, scope and key. *)
Abbreviation row_id := (string * string * string)%type (only parsing).
Abbreviation rows := (gmap (string * string * string) row) (only parsing).

Section provider.
Context `{Jsonb} (policy : MemoryPolicy).

Definition row_key (key : string) (scope tenant : option string) : row_id :=
  (tenant_key tenant, opt_or scope "agent", key).
Definition key_for (e : MemoryEntry) : row_id := row_key (key e) (Some (Memory.scope e)) (tenant_id e).

Definition newer (a b : row_id * row) : bool := (row_created b.2 <=? row_created a.2)%clock.

(** [{"value": .., "metadata": ..}] *)
Definition payload (e : MemoryEntry) : string :=
  dumps (JObj [("value", Memory.value e); ("metadata", JObj (Memory.metadata e))]).

(** [_row_to_entry] *)
Definition row_to_entry (r : row_id * row) : MemoryEntry :=
  let d := read_dict (row_value r.2) in
  {| key := r.1.2; Memory.value := default JNull (dget "value" d); Memory.scope := r.1.1.2;
     Memory.metadata := match dget "metadata" d with Some (JObj md) => md | _ => [] end;
     tenant_id := tenant_of r.1.1.1; version := row_version r.2 |}.

(** ** The statements *)

(** [INSERT .. ON CONFLICT DO UPDATE] *)
Definition insert_entry (k : row_id) (text : string) (e : option Q) (q : Q) (t : rows) : unit * rows :=
  (tt, <[k := {| row_value := text; row_version := match t !! k with Some r => row_version r + 1 | None => 1 end%Z;
                 row_created := q; row_expires := e |}]> t).

(** [UPDATE .. WHERE .. version = $6 RETURNING version] *)
Definition update_entry (k : row_id) (text : string) (e : option Q) (actual : Z) (q : Q) (t : rows) : option Z * rows :=
  match t !! k with
  | Some r =>
      if Z.eqb (row_version r) actual
      then (Some (row_version r + 1)%Z,
            <[k := {| row_value := text; row_version := row_version r + 1; row_created := q; row_expires := e |}]> t)
      else (None, t)
  | None => (None, t)
  end.

(** The rows of a tenant and scope, the newest first. *)
Definition partition (tenant scope : string) (t : rows) : list (row_id * row) :=
  sort_by newer (filterb (fun r : row_id * row => String.eqb r.1.1.1 tenant && String.eqb r.1.1.2 scope) (map_to_list t)).

(** [DELETE .. (scope, key) IN (SELECT .. ORDER BY created_at DESC OFFSET $3)] *)
Definition evict (tenant scope : string) (max : Z) (q : Q) (t : rows) : unit * rows :=
  (tt, foldr (fun r : row_id * row => base.delete r.1) t (drop (Z.to_nat max) (partition tenant scope t))).

(** [_purge_expired] *)
Definition purge_expired (q : Q) (t : rows) : unit * rows :=
  (tt, filter (fun r => passed (row_expires r.2) q = false) t).

Definition select {A : Type} (f : rows -> A) (q : Q) (t : rows) : A * rows := (f t, t).

(** ** The methods *)

Definition with_expiry {A : Type} (k : option Q -> prog rows A) : prog rows A :=
  match ttl_seconds policy with
  | Some n => Clock (fun q => k (Some (q + inject_Z n)%Q))
  | None => k None
  end.

Definition conflict (e : MemoryEntry) (expected actual : Z) : StateConflictError :=
  {| conflict_key := key e; expected := expected; actual := actual |}.

(** The end of [store]: the caller's object gets its version, and old rows go. *)
Definition finish (e : MemoryEntry) (v : Z) : prog rows (result StateConflictError unit * MemoryEntry) :=
  let done := Ret (Ok tt, set_version v e) in
  match max_entries policy with
  | Some n => sql (evict (key_for e).1.1 (key_for e).1.2 n) (fun _ => done)
  | None => done
  end.

Definition store (e : MemoryEntry) (expected_version : option Z) : prog rows (result StateConflictError unit * MemoryEntry) :=
  let k := key_for e in
  let expected := default (version e) expected_version in
  with_expiry (fun expires =>
    sql (select (fun t => match t !! k with Some r => row_version r | None => 0%Z end)) (fun actual : Z =>
      if Z.eqb actual 0 then
        if negb (Z.eqb expected 0) then Ret (Err (conflict e expected 0), e)
        else sql (insert_entry k (payload e) expires) (fun _ => finish e 1)
      else if negb (Z.eqb expected 0) && negb (Z.eqb expected actual) then Ret (Err (conflict e expected actual), e)
      else sql (update_entry k (payload e) expires actual) (fun r =>
        match r with
        | None => Ret (Err (conflict e expected actual), e)
        | Some _ => finish e (actual + 1)
        end))).

Definition get (key : string) (scope tenant : option string) : prog rows (option MemoryEntry) :=
  let k := row_key key scope tenant in
  sql purge_expired (fun _ => sql (select (fun t => (fun r => row_to_entry (k, r)) <$> t !! k)) Ret).

Definition delete (key : string) (scope tenant : option string) : prog rows bool :=
  let k := row_key key scope tenant in
  sql (fun _ t => (bool_decide (is_Some (t !! k)), base.delete k t)) Ret.

(** The four [SELECT]s of [list_entries] *)
Definition listed (scope tenant : option string) (r : row_id * row) : bool :=
  match scope with None => true | Some x => String.eqb r.1.1.2 x end &&
  match tenant with None => true | Some x => String.eqb r.1.1.1 (tenant_key (Some x)) end.

Definition list_entries (scope tenant : option string) : prog rows (list MemoryEntry) :=
  sql purge_expired (fun _ =>
    sql (select (fun t => row_to_entry <$> sort_by newer (filterb (listed scope tenant) (map_to_list t)))) Ret).

Definition search (query : string) (scope : option string) (limit : Z) (tenant : option string) : prog rows (list MemoryEntry) :=
  prog_bind (list_entries scope tenant) (fun es =>
    let scored := omap (fun e => (fun q => (q, e)) <$> Knowledge.score (Knowledge.py_words (py_lower query)) (text_of (Memory.value e))) es in
    Ret (Knowledge.slice_to limit (snd <$> sort_by (fun a b : Q * MemoryEntry => (b.1 <=? a.1)%clock) scored))).
End provider.

(** ** Bounds, and reading back what was stored *)

Section alone.
Context `{Jsonb} (policy : MemoryPolicy).
Implicit Types (t : rows).

Definition in_partition (tenant scope : string) (k : row_id) : bool := String.eqb k.1.1 tenant && String.eqb k.1.2 scope.

Lemma elem_partition tenant scope t r :
  r ∈ partition tenant scope t <-> t !! r.1 = Some r.2 /\ in_partition tenant scope r.1 = true.
Proof.
  unfold partition. rewrite sort_by_perm, elem_of_filterb. destruct r as [k r]. rewrite elem_of_map_to_list. cbn. tauto.
Qed.

Lemma partition_keys tenant scope t : NoDup (partition tenant scope t).*1.
Proof.
  unfold partition. rewrite sort_by_perm. eapply sublist_NoDup; [|apply fmap_sublist, filterb_sublist].
  apply NoDup_fst_map_to_list.
Qed.

Lemma lookup_deletes (l : list (row_id * row)) t k :
  foldr (fun r : row_id * row => base.delete r.1) t l !! k = if bool_decide (k ∈ l.*1) then None else t !! k.
Proof.
  induction l as [|[k' r] l IH]; [done|]. cbn. destruct (decide (k' = k)) as [->|Hk].
  - rewrite lookup_delete_eq, bool_decide_true by left. done.
  - rewrite lookup_delete_ne, IH by done. repeat case_bool_decide; set_solver.
Qed.

(** What the eviction keeps of the partition: its newest rows. *)
Lemma partition_evicted tenant scope max q t :
  partition tenant scope (evict tenant scope max q t).2 ≡ₚ take (Z.to_nat max) (partition tenant scope t).
Proof.
  cbn. apply NoDup_Permutation.
  - eapply NoDup_fmap_1, partition_keys.
  - eapply sublist_NoDup; [|apply sublist_take]. eapply NoDup_fmap_1, partition_keys.
  - intros r. rewrite elem_partition, lookup_deletes.
    pose proof (partition_keys tenant scope t) as Hn. rewrite <-(take_drop (Z.to_nat max) (partition tenant scope t)) in Hn.
    rewrite fmap_app in Hn. apply NoDup_app in Hn as (_ & Hdisj & _).
    case_bool_decide as Hd.
    + split; [by intros [? _]|]. intros Hr. by destruct (Hdisj r.1); [by apply list_elem_of_fmap_2|].
    + rewrite <-elem_partition, <-(take_drop (Z.to_nat max) (partition tenant scope t)) at 1. rewrite elem_of_app.
      split; [|auto]. intros [Hr|Hr]; [done|]. destruct Hd. by apply list_elem_of_fmap_2.
Qed.

Lemma evicted_other tenant scope max q t k :
  in_partition tenant scope k = false -> (evict tenant scope max q t).2 !! k = t !! k.
Proof.
  intros Hk. cbn. rewrite lookup_deletes, bool_decide_false; [done|].
  intros ([k' r] & -> & Hr)%list_elem_of_fmap. eapply elem_of_sublist in Hr; [|apply sublist_drop]. 
  apply elem_partition in Hr as [_ Hr]. cbn in Hr, Hk. congruence.
Qed.

(** The newest row of all stays. *)
Lemma evicted_newest tenant scope max q t k r :
  (1 <= max)%Z -> t !! k = Some r ->
  (forall k' r', k' <> k -> t !! k' = Some r' -> (row_created r' < row_created r)%Q) ->
  (evict tenant scope max q t).2 !! k = Some r.
Proof.
  intros Hmax Hk Hnew. cbn. rewrite lookup_deletes, bool_decide_false; [done|].
  intros ([k' r'] & -> & Hr)%list_elem_of_fmap. cbn [fst] in *.
  assert (Hin : (k', r') ∈ partition tenant scope t) by (eapply elem_of_sublist; [|apply sublist_drop]; exact Hr).
  apply elem_partition in Hin as [Hk' Hp]. cbn in Hk'. assert (r' = r) as -> by congruence.
  assert (Hs : StronglySorted (fun a b => newer a b = true) (partition tenant scope t)).
  { apply sort_by_sorted; unfold newer; intros; rewrite ?qleb_true in *; [|lra].
    destruct (Qlt_le_dec (row_created x.2) (row_created y.2)); [right|left]; lra. }
  destruct (partition tenant scope t) as [|[k1 r1] l] eqn:Hl; [by rewrite drop_nil in Hr; apply not_elem_of_nil in Hr|].
  assert (H1 : (k1, r1) ∈ partition tenant scope t) by (rewrite Hl; left).
  apply elem_partition in H1 as [Hk1 _]. cbn in Hk1.
  pose proof (partition_keys tenant scope t) as Hn. rewrite Hl in Hn. cbn in Hn. apply NoDup_cons in Hn as [Hn _].
  replace (Z.to_nat max) with (Datatypes.S (Z.to_nat (max - 1))) in Hr by lia. cbn in Hr.
  eapply elem_of_sublist in Hr; [|apply sublist_drop].
  destruct (decide (k1 = k')) as [->|Hne]; [by destruct Hn; apply (list_elem_of_fmap_2 fst) in Hr|].
  specialize (Hnew k1 r1 Hne Hk1). apply StronglySorted_inv in Hs as [_ Hs]. rewrite Forall_forall in Hs.
  specialize (Hs _ Hr). cbn in Hs. apply qleb_true in Hs. cbn in Hs. lra.
Qed.

(** What an accepted [store] leaves behind. *)
Definition written (e : MemoryEntry) (v : Z) (created : Q) (expires : option Q) : row :=
  {| row_value := payload e; row_version := v; row_created := created; row_expires := expires |}.
Definition lifetime (q : Q) : option Q := (fun n => q + inject_Z n)%Q <$> ttl_seconds policy.

Lemma finish_runs e v s :
  run_prog (finish policy e v) s =
    (Ok tt, set_version v e,
     {| now := now s; table := match max_entries policy with
                               | Some n => (evict (key_for e).1.1 (key_for e).1.2 n (now s) (table s)).2
                               | None => table s
                               end |}).
Proof. unfold finish. destruct s as [q t]. by destruct (max_entries policy). Qed.

Lemma run_entry_expiry {A} (k : option Q -> prog rows A) s : run_prog (with_expiry policy k) s = run_prog (k (lifetime (now s))) s.
Proof. unfold with_expiry, lifetime. by destruct (ttl_seconds policy). Qed.

Lemma store_writes e expected s r e' s' :
  run_prog (store policy e expected) s = (r, e', s') ->
  match r with
  | Err _ => s' = s /\ e' = e
  | Ok tt => now s' = now s /\ exists v, e' = set_version v e /\
      let t := <[key_for e := written e v (now s) (lifetime (now s))]> (table s) in
      table s' = match max_entries policy with
                 | Some n => (evict (key_for e).1.1 (key_for e).1.2 n (now s) t).2
                 | None => t
                 end
  end.
Proof.
  unfold store. rewrite run_entry_expiry. destruct s as [q t]. cbn. destruct (t !! key_for e) as [row|] eqn:Hrow.
  - destruct (Z.eqb_spec (row_version row) 0) as [Hz|Hz].
    + destruct (negb _); [by intros [= <- <- <-]|]. cbn. rewrite Hrow, Hz, finish_runs. intros [= <- <- <-].
      split; [done|]. by eexists.
    + destruct (negb _ && _); [by intros [= <- <- <-]|]. cbn. unfold update_entry. rewrite Hrow, Z.eqb_refl. cbn.
      rewrite finish_runs. intros [= <- <- <-]. split; [done|]. by eexists.
  - rewrite Z.eqb_refl. destruct (negb _); [by intros [= <- <- <-]|]. cbn. rewrite Hrow, finish_runs. intros [= <- <- <-].
    split; [done|]. by eexists.
Qed.

(** The stored entry, as the column gives it back. *)
Definition reads_as (e d : MemoryEntry) : Prop :=
  key d = key e /\ Memory.scope d = opt_or (Some (Memory.scope e)) "agent" /\ tenant_id d = tenant_id e /\
  Memory.value d = normal (Memory.value e) /\ version d = version e /\
  (forall k, dget k (Memory.metadata d) = normal <$> dget k (Memory.metadata e)).

Lemma row_to_entry_written e v created expires :
  NoDup (dkeys (Memory.metadata e)) -> tenant_id e <> Some "" ->
  reads_as (set_version v e) (row_to_entry (key_for e, written e v created expires)).
Proof.
  intros Hm Ht. unfold reads_as, row_to_entry. cbn.
  assert (Hp : forall k, dget k (read_dict (payload e)) =
    normal <$> dget k [("value", Memory.value e); ("metadata", JObj (Memory.metadata e))]).
  { intros k. apply read_dict_dumps. cbn. repeat (constructor; [set_solver|]). constructor. }
  rewrite (Hp "value" : _ = Some (normal (Memory.value e))), (Hp "metadata" : _ = Some (normal (JObj (Memory.metadata e)))).
  destruct (normal_dict _ Hm) as (d & -> & Hd). split_and!; try done.
  destruct (tenant_id e) as [[|a x]|]; done.
Qed.

(** C33: The memory of a tenant and scope is bounded, and what was stored last is what
    is read.  An accepted [store] leaves at most [max_entries] rows in the entry's
    tenant and scope, leaves every other tenant and scope as it was, and the next read
    of its key answers the entry, as the column keeps it and at its new version, as
    long as it has not lapsed; a refused [store] changes nothing.  The other rows must
    be older than this instant: among rows of one instant the server may evict the new
    one. *)
Theorem postgres_memory_bounded e expected s r e' s' :
  NoDup (dkeys (Memory.metadata e)) -> tenant_id e <> Some "" ->
  (forall n, max_entries policy = Some n -> (1 <= n)%Z) ->
  (forall k' r', table s !! k' = Some r' -> (row_created r' < now s)%Q) ->
  run_prog (store policy e expected) s = (r, e', s') ->
  match r with
  | Err _ => s' = s /\ e' = e
  | Ok tt =>
      (forall n, max_entries policy = Some n ->
         (Z.of_nat (length (partition (key_for e).1.1 (key_for e).1.2 (table s'))) <= n)%Z) /\
      (forall k, in_partition (key_for e).1.1 (key_for e).1.2 k = false -> table s' !! k = table s !! k) /\
      (passed (lifetime (now s)) (now s) = false ->
         exists d, (run_prog (get (key e) (Some (Memory.scope e)) (tenant_id e)) s').1 = Some d /\ reads_as e' d)
  end.
Proof.
  intros Hm Ht Hmax Hold Hrun. apply store_writes in Hrun. destruct r as [[]|er]; [|done].
  destruct Hrun as (Hnow & v & -> & Htab). cbn zeta in Htab.
  set (t := <[key_for e := _]> (table s)) in Htab.
  assert (Hk : table s' !! key_for e = Some (written e v (now s) (lifetime (now s)))).
  { rewrite Htab. destruct (max_entries policy) as [n|] eqn:Hn; [|apply lookup_insert_eq].
    apply evicted_newest; [by apply Hmax|apply lookup_insert_eq|]. intros k' r' Hne Hr'. cbn.
    unfold t in Hr'. rewrite lookup_insert_ne in Hr' by done. by eapply Hold. }
  split_and!.
  - intros n Hn. rewrite Hn in Htab. rewrite Htab, partition_evicted, length_take. specialize (Hmax n Hn). lia.
  - intros k Hp. assert (Hne : key_for e <> k) by (intros <-; unfold in_partition in Hp; by rewrite !String.eqb_refl in Hp).
    transitivity (t !! k); [|by apply lookup_insert_ne]. rewrite Htab. destruct (max_entries policy); [by apply evicted_other|done].
  - intros Hlive. cbn. fold (key_for e). exists (row_to_entry (key_for e, written e v (now s) (lifetime (now s)))).
    split; [|by apply row_to_entry_written]. rewrite Hnow.
    rewrite (map_lookup_filter_Some_2 _ _ _ _ Hk) by done. done.
Qed.
End alone.

(** ** Concrete runs *)

Definition entry (k : string) (text : string) (scope : string) (v : Z) (tenant : option string) : MemoryEntry :=
  {| key := k; Memory.value := JStr text; Memory.scope := scope; Memory.metadata := []; tenant_id := tenant; version := v |}.
Definition small (ttl : option Z) : MemoryPolicy := {| auto_store := false; max_entries := Some 1%Z; ttl_seconds := ttl |}.
Definition roomy : MemoryPolicy := default_policy.

(** Stores one entry a second. *)
Fixpoint storing (policy : MemoryPolicy) (es : list MemoryEntry) (s : db rows) : db rows :=
  match es with
  | [] => s
  | e :: es => let s := (run_prog (store policy e None) s).2 in storing policy es {| now := now s + 1; table := table s |}
  end.
Definition empty : db rows := {| now := 0; table := ∅ |}.
Definition said (es : list MemoryEntry) : list json := Memory.value <$> es.

Lemma postgres_memory_bounded_witness :
  let s := storing (small None) [entry "k" "old" "agent" 0 None] empty in
  let r := run_prog (store (small None) (entry "j" "new" "agent" 0 None) None) s in
  (length (partition "" "agent" (table r.2)) <= 1)%nat /\
  exists d, (run_prog (get "j" (Some "agent") None) r.2).1 = Some d /\ reads_as (entry "j" "new" "agent" 1 None) d.
Proof.
  intros s r.
  destruct (postgres_memory_bounded (small None) (entry "j" "new" "agent" 0 None) None s (Ok tt) (entry "j" "new" "agent" 1 None) r.2)
    as (Hb & _ & Hr).
  - constructor.
  - done.
  - intros n [= <-]. lia.
  - intros k' r' Hr. apply elem_of_map_to_list in Hr. revert Hr. vm_compute. intros Hr.
    apply list_elem_of_singleton in Hr. by injection Hr as _ ->.
  - vm_compute. reflexivity.
  - split; [|by apply Hr]. apply Nat2Z.inj_le. exact (Hb 1%Z eq_refl).
Defined.

(** A caller without a tenant lists and finds what every tenant stored. *)
Definition tenants : db rows := storing roomy [entry "k" "alpha" "agent" 0 (Some "acme"); entry "k" "alpha two" "agent" 0 (Some "other")] empty.
Example every_tenant_is_listed :
  said (run_prog (list_entries None None) tenants).1 = [JStr "alpha two"; JStr "alpha"] /\
  said (run_prog (search "alpha" (Some "agent") 10 None) tenants).1 = [JStr "alpha two"; JStr "alpha"] /\
  (run_prog (get "k" None None) tenants).1 = None.
Proof. vm_compute. split_and!; reflexivity. Qed.

(** A negative limit leaves out the least relevant. *)
Example negative_limit_drops_the_last :
  said (run_prog (search "alpha two" None (-1) None) tenants).1 = [JStr "alpha two"].
Proof. vm_compute. reflexivity. Qed.

(** The capacity is that of a tenant and scope. *)
Example each_scope_has_its_capacity :
  length (run_prog (list_entries None None) (storing (small None) [entry "a" "1" "x" 0 None; entry "b" "2" "y" 0 None; entry "c" "3" "y" 0 None] empty)).1 = 2.
Proof. vm_compute. reflexivity. Qed.

(** Two clients that find no entry both store it: the later overwrites the earlier
    without a conflict, and holds version 1 of a row at version 2. *)
Example racing_entry_is_lost :
  let w := schedule [Client 0; Client 1; Client 0; Client 1] ([store roomy (entry "k" "first" "agent" 0 None) None; store roomy (entry "k" "second" "agent" 0 None) None], empty) in
  w.1 = [Ret (Ok tt, entry "k" "first" "agent" 1 None); Ret (Ok tt, entry "k" "second" "agent" 1 None)] /\
  ((fun e => (Memory.value e, version e)) <$> (run_prog (get "k" None None) w.2).1) = Some (JStr "second", 2%Z).
Proof. vm_compute. split; reflexivity. Qed.

(** A lapsed entry that nobody read since still has its version: storing a new entry
    under its key conflicts. *)
Example lapsed_entry_conflicts :
  let s := storing (small (Some 1%Z)) [entry "k" "a" "agent" 0 None; entry "k" "b" "agent" 1 None] empty in
  (run_prog (store (small (Some 1%Z)) (entry "k" "c" "agent" 1 None) None) {| now := 100; table := table s |}).1.1 =
    Err {| conflict_key := "k"; expected := 1; actual := 2 |}.
Proof. vm_compute. reflexivity. Qed.

End PostgresMemory.
