(* ===== verification/Startup.v ===== *)
(** * Starting and closing the runtimes

    [AdkRuntime] of [runtimes/adk/runtime.py] and [GoogleAdkRuntime] of
    [runtimes/google_adk/runtime.py]: [create], [start], [health_probes] and [close],
    and the tools that [micro_agent/tools] gives them.  Every probe may answer or
    raise as it likes, also depending on what was asked before; the MCP manager is an
    interface.  Parameters are the classes of google-adk. *)

From stdpp Require pretty.
From S2P Require Import Prelude Json Resilience Policy Definitions Contracts Knowledge Health Mcp Authentication AdkBridge.
Import Resilience.
Local Open Scope string_scope.

Module Startup.

(** ** Tools *)

Section tools.
Context {T : Type} (name_of : T -> string).

(** [d.update(e)] *)
Definition dict_update (e d : list (string * T)) : list (string * T) := foldl (fun d x => dset x.1 x.2 d) d e.

(** What loading an entry point gives: a class of tools, something to call, or an
    object; a call may raise, and what comes out may not be a [Tool]. *)
Inductive plugin_object : Type :=
  | ToolClass (made : result exn T)
  | Factory (made : result exn (option T))
  | Object_ (obj : option T).
Record entry_point : Type := { point_name : string; point_value : string; loaded : result exn plugin_object }.

(** [_instantiate] *)
Definition instantiate (e : entry_point) : result exn T :=
  o ← loaded e;
  match o with
  | ToolClass made => made
  | Factory made => r ← made; match r with Some t => Ok t | None => Err (raise RuntimeError (point_name e)) end
  | Object_ (Some t) => Ok t
  | Object_ None => Err (raise RuntimeError (point_name e))
  end.

(** [load_plugin_tools] over what was discovered *)
Definition add_plugin (tools : list (string * T)) (e : entry_point) : result exn (list (string * T)) :=
  t ← instantiate e;
  Ok (if dmem (name_of t) tools then tools else dset (name_of t) t tools).
Fixpoint add_plugins (tools : list (string * T)) (es : list entry_point) : result exn (list (string * T)) :=
  match es with [] => Ok tools | e :: es => tools ← add_plugin tools e; add_plugins tools es end.
Definition load_plugin_tools (builtin : list (string * T)) (discovered : list entry_point) : result exn (list (string * T)) :=
  add_plugins builtin discovered.

(** [_resolve_tools]: the declared tools that are registered, and the names of the others. *)
Fixpoint resolve (registry : list (string * T)) (declared : list string) (tools : list (string * T)) (unresolved : list string)
  : list (string * T) * list string :=
  match declared with
  | [] => (tools, unresolved)
  | n :: declared =>
      if dmem n tools then resolve registry declared tools unresolved
      else match dget n registry with
           | Some t => resolve registry declared (dset n t tools) unresolved
           | None => resolve registry declared tools (unresolved ++ [n])%list
           end
  end.

Definition resolve_tools (builtin : list (string * T)) (discovered : list entry_point) (configured : list (string * T))
    (d : Definitions.Dependencies) : result exn (list (string * T) * list string) :=
  plugins ← load_plugin_tools builtin discovered;
  Ok (resolve (dict_update configured (dict_update plugins builtin)) (Definitions.tool_name <$> Definitions.tools d) [] []).

(** Declared tools resolve to what is registered under their name, and to nothing else. *)
Lemma resolve_spec registry declared tools unresolved :
  (forall n t, dget n tools = Some t -> dget n registry = Some t) ->
  let r := resolve registry declared tools unresolved in
  (forall n t, dget n r.1 = Some t <-> dget n registry = Some t /\ (n ∈ declared \/ is_Some (dget n tools))) /\
  (forall n, n ∈ r.2 <-> n ∈ unresolved \/ (n ∈ declared /\ dget n registry = None)).
Proof.
  cbn zeta. revert tools unresolved. induction declared as [|m declared IH]; intros tools unresolved Ht; cbn [resolve].
  - split; intros n; [|set_solver]. intros t. split; [intros Hn; split; [by apply Ht|right; by eexists]|].
    intros [Hr [Hin|[t' Ht']]]; [by apply elem_of_nil in Hin|]. pose proof (Ht _ _ Ht'). cbn. congruence.
  - destruct (dmem m tools) eqn:Hm; [|destruct (dget m registry) as [t|] eqn:Hr].
    + destruct (IH tools unresolved Ht) as [H1 H2]. apply dmem_get in Hm as Hm'. destruct Hm' as [x Hx]. split; intros n.
      * intros t. rewrite H1, elem_of_cons. naive_solver.
      * rewrite H2, elem_of_cons. pose proof (Ht _ _ Hx) as Hx'. split; [naive_solver|].
        intros [?|[[->|?] Hn]]; [by left|congruence|by right].
    + destruct (IH (dset m t tools) unresolved) as [H1 H2].
      { intros n t'. rewrite dget_dset. case_decide; [intros [= <-]; by subst|]. apply Ht. }
      split; intros n.
      * intros t'. rewrite H1, dget_dset, elem_of_cons. case_decide; subst; naive_solver.
      * rewrite H2, elem_of_cons. naive_solver.
    + destruct (IH tools (unresolved ++ [m])%list Ht) as [H1 H2]. split; intros n.
      * intros t. rewrite H1, elem_of_cons. naive_solver.
      * rewrite H2, elem_of_app, list_elem_of_singleton, elem_of_cons. naive_solver.
Qed.
End tools.

(** ** The built-in tools *)

(** [EchoTool.execute] *)
Definition echo (arguments : list (string * json)) : Mcp.ToolResult :=
  {| Mcp.output := Some (JObj [("echoed", default (JStr "") (dget "message" arguments))]); Mcp.tool_error := None; Mcp.is_error := false |}.

(** [JsonParseTool.execute]; a text that is no JSON is refused at a position. *)
Definition refused (why : string) : Mcp.ToolResult := {| Mcp.output := None; Mcp.tool_error := Some why; Mcp.is_error := true |}.
Definition json_parse (loads : string -> result Z json) (max_bytes : Z) (arguments : list (string * json)) : Mcp.ToolResult :=
  match default (JStr "") (dget "document" arguments) with
  | JStr document =>
      let size := Z.of_nat (String.length document) in
      if (max_bytes <? size)%Z then refused ("JSON document too large (" ++ pretty.pretty size ++ " bytes > " ++ pretty.pretty max_bytes ++ ")")
      else match loads document with
           | Ok v => {| Mcp.output := Some (JObj [("value", v)]); Mcp.tool_error := None; Mcp.is_error := false |}
           | Err pos => refused ("invalid JSON at position " ++ pretty.pretty pos)
           end
  | _ => refused "document must be a string"
  end.

Lemma json_parse_spec loads max_bytes arguments v :
  Mcp.output (json_parse loads max_bytes arguments) = Some (JObj [("value", v)]) <->
  exists text, default (JStr "") (dget "document" arguments) = JStr text /\ (Z.of_nat (String.length text) <= max_bytes)%Z /\ loads text = Ok v.
Proof.
  unfold json_parse. destruct (default _ _) as [| | | |text| |]; try (split; [done|by intros (? & ? & ?)]).
  destruct (Z.ltb_spec max_bytes (Z.of_nat (String.length text))) as [Hlt|Hle].
  - split; [done|]. intros (t & [= <-] & Ht & _). lia.
  - destruct (loads text) as [w|pos] eqn:Hw; cbn.
    + split; [intros [= ->]; by exists text|]. intros (t & [= <-] & _ & ?). congruence.
    + split; [done|]. intros (t & [= <-] & _ & ?). congruence.
Qed.

(** ** The MCP manager, as the runtimes use it *)

Class McpManager (M T : Type) : Type := {
  connect_definition : list Definitions.McpServerRef -> call M exn unit;
  manager_tools : M -> list (string * T);
  discovery : M -> string -> option Mcp.McpDiscovery;
  health_probe : M -> result exn bool
}.

(** ** What a runtime is configured with *)

Inductive dependency : Type :=
  | Model | Sessions | Checkpoints | Memories | Operations | Approvals
  | KnowledgeOf (source : string) | Servers.
#[export] Instance dependency_eq_dec : EqDecision dependency.
Proof. solve_decision. Defined.

(** [ProviderCapabilities] *)
Record model_capabilities : Type := { model_streaming : bool; model_structured_output : bool; model_tool_use : bool }.

Record config (T : Type) : Type := {
  model_provider : option model_capabilities;   (** always there for the custom runtime *)
  has_sessions : bool;
  has_checkpoints : bool;
  has_memory : bool;
  has_operations : bool;
  has_approvals : bool;
  has_knowledge : bool;
  has_mcp : bool;
  policy : option Policy.AgentPolicy;
  tool_registry : list (string * T);
  closable : dependency -> bool                 (** the provider has an [aclose] *)
}.
Arguments model_provider {T}.
Arguments has_sessions {T}.
Arguments has_checkpoints {T}.
Arguments has_memory {T}.
Arguments has_operations {T}.
Arguments has_approvals {T}.
Arguments has_knowledge {T}.
Arguments has_mcp {T}.
Arguments policy {T}.
Arguments tool_registry {T}.
Arguments closable {T}.

Record RuntimeCapabilities : Type := {
  streaming : bool; memory : bool; mcp : bool; a2a : bool; structured_output : bool; checkpointing : bool
}.

(** [capabilities] of both runtimes: without a model provider the Google runtime
    streams nothing and structures nothing. *)
Definition capabilities {T} (c : config T) : RuntimeCapabilities :=
  {| streaming := from_option model_streaming false (model_provider c); memory := has_memory c; mcp := has_mcp c; a2a := false;
     structured_output := from_option model_structured_output false (model_provider c); checkpointing := has_checkpoints c |}.

Definition as_dict (r : RuntimeCapabilities) : list (string * bool) :=
  [("streaming", streaming r); ("memory", memory r); ("mcp", mcp r); ("a2a", a2a r);
   ("structured_output", structured_output r); ("checkpointing", checkpointing r)].

(** [RuntimeCapabilities.supports] *)
Definition supports (r : RuntimeCapabilities) (n : string) : bool := default false (dget n (as_dict r)).

Section runtime.
Context {T M : Type} `{McpManager M T}.
Context (name_of : T -> string) (builtin : list (string * T)) (discovered : list (entry_point (T := T))).
Implicit Types (cfg : config T).

(** The handle of an agent.  The tools are the dict of the custom runtime, and the
    list of the ADK agent for the other. *)
Record handle : Type := {
  definition : Definitions.MicroAgentDefinition;
  identity : Authentication.AgentIdentity;
  tools : list (string * T);
  unresolved_tools : list string;
  tool_side_effects : list (string * Definitions.side_effect_class);
  session_ttl : option Z;
  memory_scope : string;
  generation : list (string * json);           (** of the model configuration *)
  security : Authentication.SecurityContext;
  mcp_resources : list (string * list Mcp.McpResource);
  mcp_prompts : list (string * list Mcp.McpPrompt);
  mcp_tools_appended : bool;
  started : bool
}.

(** What a runtime asked of its providers. *)
Inductive act : Type :=
  | Probed (d : dependency)
  | Audited (event subject reason : string)
  | Connects (servers : list Definitions.McpServerRef)
  | Closes (d : dependency).

(** With the runtime's own state: the knowledge references of the agent that it
    created last ([_knowledge_refs]). *)
Record world : Type := { acts : list act; manager : M; runtime_refs : list string }.
Definition note (a : act) (w : world) : world := {| acts := (acts w ++ [a])%list; manager := manager w; runtime_refs := runtime_refs w |}.

(** How a dependency answers after what was asked so far. *)
Context (answers : list act -> dependency -> result exn bool).
Context (closes : list act -> dependency -> result exn unit).

Notation run := (call world exn).

(** ** [create] *)

Definition dependencies_of (d : Definitions.MicroAgentDefinition) : Definitions.Dependencies := Definitions.dependencies (Definitions.spec d).

Definition identity_of (d : Definitions.MicroAgentDefinition) : Authentication.AgentIdentity :=
  {| Authentication.agent_id := Definitions.meta_name (Definitions.metadata d) ++ "-" ++ Definitions.meta_version (Definitions.metadata d);
     Authentication.agent_name := Definitions.meta_name (Definitions.metadata d);
     Authentication.agent_version := Definitions.meta_version (Definitions.metadata d) |}.

Definition side_effects_of (d : Definitions.MicroAgentDefinition) : list (string * Definitions.side_effect_class) :=
  dict_of ((fun t => (Definitions.tool_name t, Definitions.side_effect t)) <$> Definitions.tools (dependencies_of d)).

Definition scope_of (d : Definitions.MicroAgentDefinition) : string :=
  opt_or (Definitions.memory (dependencies_of d) ≫= Definitions.memory_scope) "agent".

(** What [create] makes of the declared sources. *)
Definition knowledge_refs (d : Definitions.MicroAgentDefinition) : list string :=
  Definitions.knowledge_ref <$> Definitions.knowledge (dependencies_of d).

Definition new_handle (d : Definitions.MicroAgentDefinition) (ts : list (string * T) * list string) (g : list (string * json)) : handle :=
  {| definition := d; identity := identity_of d; tools := ts.1; unresolved_tools := ts.2; tool_side_effects := side_effects_of d;
     session_ttl := Definitions.session_ttl_seconds (Definitions.session (dependencies_of d)); memory_scope := scope_of d;
     generation := g; security := Authentication.build_security_context d;
     mcp_resources := []; mcp_prompts := []; mcp_tools_appended := false; started := false |}.

(** [self._knowledge_refs = \[..\]] *)
Definition keep_refs (d : Definitions.MicroAgentDefinition) : run unit := fun w =>
  (Ok tt, {| acts := acts w; manager := manager w; runtime_refs := knowledge_refs d |}).
Definition of_result {A} (r : result exn A) : run A := fun w => (r, w).

(** [AdkRuntime.create] *)
Definition create_custom cfg (d : Definitions.MicroAgentDefinition) : run handle :=
  ts ← of_result (resolve_tools name_of builtin discovered (tool_registry cfg) (dependencies_of d));
  _ ← keep_refs d;
  mret (new_handle d ts []).

(** What [GoogleAdkRuntime] can be given instead of its own ADK objects. *)
Record seams : Type := {
  model_factory : bool; session_service_factory : bool; memory_service_factory : bool; runner_factory : bool;
  app_name_prefix : string;
  model_api_key : option string
}.

Inductive adk_model : Type :=
  | FromFactory
  | ProviderLlm                             (** the bridge over the model provider *)
  | NativeModel (name : string) (own_client : bool).
Inductive service : Type := FactoryService | ProviderService | AdkInMemoryService.
Record adk_parts : Type := {
  agent_name : string;
  agent_model : adk_model;
  instruction : string;
  app_name : string;
  session_service : service;
  memory_service : option service;
  resumable : bool;
  runner_from_factory : bool
}.

Definition google_names : list string := ["google"; "gemini"; "google-genai"].

(** [_adk_model] *)
Definition choose_adk_model cfg (s : seams) (m : option Definitions.ModelRef) : result exn adk_model :=
  if model_factory s then Ok FromFactory
  else if bool_decide (is_Some (model_provider cfg)) then Ok ProviderLlm
  else
    let model := opt_or (m ≫= Definitions.model_id) (from_option Definitions.model_ref "default" m) in
    let provider := py_lower (opt_or (m ≫= Definitions.provider) "") in
    if str_truthy provider && negb (memb provider google_names)
    then Err (raise RuntimeError "Google ADK requires a Google model or an injected model_factory/provider")
    else Ok (NativeModel model (bool_decide (is_Some (model_api_key s)))).

(** [_build_memory_service] *)
Definition build_memory_service cfg (s : seams) : option service :=
  if memory_service_factory s then Some FactoryService else if has_memory cfg then Some ProviderService else None.

(** [GoogleAdkRuntime.create]; [installed]: google-adk can be imported. *)
Definition create_google (installed : bool) cfg (s : seams) (d : Definitions.MicroAgentDefinition) : run (handle * adk_parts) :=
  if negb installed then throws (raise RuntimeError "Google ADK is not installed; install the optional 'adk' extra")
  else
    let m := Definitions.model (dependencies_of d) in
    let g := Contracts.structured_output_generation (from_option Definitions.generation [] m)
               (Definitions.output_contract (Definitions.behavior (Definitions.spec d)))
               (from_option model_structured_output false (model_provider cfg)) in
    model ← of_result (choose_adk_model cfg s m);
    ts ← of_result (resolve_tools name_of builtin discovered (tool_registry cfg) (dependencies_of d));
    _ ← keep_refs d;
    mret (new_handle d (ts.1, []) g,
        {| agent_name := AdkBridge.adk_name (Definitions.meta_name (Definitions.metadata d)); agent_model := model;
           instruction := Definitions.instructions (Definitions.behavior (Definitions.spec d));
           app_name := app_name_prefix s ++ "-" ++ Definitions.meta_name (Definitions.metadata d);
           session_service := if session_service_factory s then FactoryService else if has_sessions cfg then ProviderService else AdkInMemoryService;
           memory_service := build_memory_service cfg s; resumable := has_checkpoints cfg; runner_from_factory := runner_factory s |}).

(** ** [start]; an agent whose start fails is not started again ([Lifecycle]), so what a
    failed start left in its handle is not kept. *)

Definition failed (what : string) : exn := raise RuntimeError (what ++ " failed its health check at startup").

Definition ask (d : dependency) : run bool := fun w => let w := note (Probed d) w in (answers (acts w) d, w).

(** [try: .. except Exception as exc: raise RuntimeError(..) from exc] *)
Definition guarded {A} (what : exn) (m : run A) : run A := fun w =>
  let '(r, w) := m w in (match r with Err e => if is_exception e then Err what else Err e | Ok a => Ok a end, w).

Definition unless (b : bool) (e : exn) : run unit := if b then mret tt else throws e.
Definition when (b : bool) (m : run unit) : run unit := if b then m else mret tt.

(** A probe that answers a boolean, and one that answers whatever it lists. *)
Definition healthy (d : dependency) (what : string) : run unit := b ← guarded (failed what) (ask d); unless b (failed what).
Definition listing (d : dependency) (what : string) : run unit := _ ← guarded (failed what) (ask d); mret tt.

(** The loop over the knowledge sources *)
Fixpoint sources_available (refs : list string) : run unit :=
  match refs with
  | [] => mret tt
  | r :: refs =>
      b ← guarded (failed "knowledge provider") (ask (KnowledgeOf r));
      _ ← unless b (raise RuntimeError ("knowledge source '" ++ r ++ "' is not available"));
      sources_available refs
  end.

(** The sources are the runtime's, which are those of the last agent it created and
    not always those of the agent that starts. *)
Definition known_sources_available : run unit := fun w => sources_available (runtime_refs w) w.

Definition tools_offered cfg (d : Definitions.MicroAgentDefinition) : run unit :=
  unless (bool_decide (Definitions.tools (dependencies_of d) = []) || from_option model_tool_use true (model_provider cfg))
    (raise RuntimeError "model provider does not support tool use; declared tools cannot be offered").

(** A denied dependency is audited and refused. *)
Definition permit (event subject : string) (p : Policy.PolicyDecision) : run unit := fun w =>
  if Policy.allowed p then (Ok tt, w) else (Err (raise PermissionError (Policy.reason p)), note (Audited event subject (Policy.reason p)) w).

Fixpoint permit_all {A} (event : string) (subject : A -> string) (decide : A -> Policy.PolicyDecision) (l : list A) : run unit :=
  match l with [] => mret tt | x :: l => _ ← permit event (subject x) (decide x); permit_all event subject decide l end.

(** The policy on what the definition depends on; no identity is bound yet. *)
Definition policy_admits cfg (d : Definitions.MicroAgentDefinition) : run unit :=
  match policy cfg with
  | None => mret tt
  | Some p =>
      _ ← permit_all "policy.mcp_denied" Definitions.server_ref (fun s => Policy.evaluate_mcp p None (Definitions.server_ref s) None)
            (Definitions.mcp_servers (dependencies_of d));
      _ ← permit_all "policy.skill_denied" Definitions.skill_id (fun s => Policy.evaluate_skill p None (Definitions.skill_id s) None)
            (Definitions.skills (dependencies_of d));
      match Definitions.model (dependencies_of d) with
      | None => mret tt
      | Some m =>
          match Policy.evaluate_model p None (Definitions.model_ref m) (Definitions.model_id m) (Definitions.provider m) None with
          | Ok decision => permit "policy.model_denied" (Definitions.model_ref m) decision
          | Err _ => throws (raise TypeError "policy restrictions")
          end
      end
  end.

Definition on_manager {A} (m : call M exn A) : run A := fun w =>
  let '(r, x) := m (manager w) in (r, {| acts := acts w; manager := x; runtime_refs := runtime_refs w |}).

Definition offered {A} (f : Mcp.McpDiscovery -> list A) (m : M) (servers : list Definitions.McpServerRef) : list (string * list A) :=
  dict_of ((fun s => (Definitions.server_ref s, from_option f [] (discovery m (Definitions.server_ref s)))) <$> servers).

(** Connecting the declared servers; [merge] adds their tools to the handle. *)
Definition connect_servers (merge : list (string * T) -> handle -> handle) (h : handle) : run handle :=
  let servers := Definitions.mcp_servers (dependencies_of (definition h)) in
  _ ← (fun w => on_manager (connect_definition servers) (note (Connects servers) w));
  h ← (fun w =>
    let m := manager w in
    let h := merge (manager_tools m) h in
    (Ok {| definition := definition h; identity := identity h; tools := tools h; unresolved_tools := unresolved_tools h;
           tool_side_effects := tool_side_effects h; session_ttl := session_ttl h; memory_scope := memory_scope h;
           generation := generation h; security := security h;
           mcp_resources := offered Mcp.resources m servers; mcp_prompts := offered Mcp.prompts m servers;
           mcp_tools_appended := mcp_tools_appended h; started := started h |}, w));
  b ← guarded (failed "MCP provider") (fun w => (health_probe (manager w), note (Probed Servers) w));
  _ ← unless b (failed "MCP provider");
  mret h.

Definition set_started (b : bool) (h : handle) : handle :=
  {| definition := definition h; identity := identity h; tools := tools h; unresolved_tools := unresolved_tools h;
     tool_side_effects := tool_side_effects h; session_ttl := session_ttl h; memory_scope := memory_scope h;
     generation := generation h; security := security h; mcp_resources := mcp_resources h; mcp_prompts := mcp_prompts h;
     mcp_tools_appended := mcp_tools_appended h; started := b |}.

Definition set_tools (ts : list (string * T)) (appended : bool) (h : handle) : handle :=
  {| definition := definition h; identity := identity h; tools := ts; unresolved_tools := unresolved_tools h;
     tool_side_effects := tool_side_effects h; session_ttl := session_ttl h; memory_scope := memory_scope h;
     generation := generation h; security := security h; mcp_resources := mcp_resources h; mcp_prompts := mcp_prompts h;
     mcp_tools_appended := appended; started := started h |}.

(** [agent._internal\["tools"\].update(..)] of the one, [adk_agent.tools.extend(..)], once,
    of the other *)
Definition update_tools (ts : list (string * T)) (h : handle) : handle := set_tools (dict_update ts (tools h)) (mcp_tools_appended h) h.
Definition extend_tools (ts : list (string * T)) (h : handle) : handle :=
  if mcp_tools_appended h then h else set_tools (tools h ++ ts)%list true h.

(** [AdkRuntime.start], up to the MCP servers *)
Definition custom_checks cfg (d : Definitions.MicroAgentDefinition) : run unit :=
  _ ← healthy Model "model provider";
  _ ← when (has_sessions cfg) (listing Sessions "session provider");
  _ ← when (has_checkpoints cfg) (healthy Checkpoints "checkpoint store");
  _ ← when (has_memory cfg) (listing Memories "memory provider");
  _ ← when (has_operations cfg) (healthy Operations "operation registry");
  _ ← when (has_approvals cfg) (healthy Approvals "approval store");
  _ ← when (has_knowledge cfg) known_sources_available;
  _ ← tools_offered cfg d;
  policy_admits cfg d.

(** [GoogleAdkRuntime.start], up to the MCP servers *)
Definition google_checks cfg (d : Definitions.MicroAgentDefinition) : run unit :=
  _ ← when (bool_decide (is_Some (model_provider cfg))) (b ← ask Model; unless b (failed "model provider"));
  _ ← when (has_checkpoints cfg) (healthy Checkpoints "checkpoint store");
  _ ← when (has_operations cfg) (healthy Operations "operation registry");
  _ ← when (has_memory cfg) (listing Memories "memory provider");
  _ ← when (has_knowledge cfg) known_sources_available;
  _ ← tools_offered cfg d;
  policy_admits cfg d.

Definition start_custom cfg (h : handle) : run handle :=
  _ ← custom_checks cfg (definition h);
  h ← (if has_mcp cfg then connect_servers update_tools h else mret h);
  mret (set_started true h).

Definition start_google cfg (h : handle) : run handle :=
  _ ← google_checks cfg (definition h);
  h ← (if has_mcp cfg then connect_servers extend_tools h else mret h);
  mret (set_started true h).

(** [stop] *)
Definition stop (h : handle) : handle := set_started false h.

(** ** [health_probes] *)

Definition sources_healthy (refs : list string) : run bool :=
  (fix go refs := match refs with
                  | [] => mret true
                  | r :: refs => b ← ask (KnowledgeOf r); if b : bool then go refs else mret false
                  end) refs.
Definition lists (d : dependency) : run bool := _ ← ask d; mret true.
Definition servers_probe : run bool := fun w => (health_probe (manager w), note (Probed Servers) w).

Definition probe_if (b : bool) (n : string) (m : run bool) : list (string * run bool) := if b then [(n, m)] else [].

(** [AdkRuntime.health_probes]; the sources are those of the last agent created. *)
Definition health_probes_custom cfg (refs : list string) : list (string * run bool) :=
  (("model", ask Model) :: probe_if (has_sessions cfg) "session" (lists Sessions) ++ probe_if (has_memory cfg) "memory" (lists Memories) ++
   probe_if (has_operations cfg) "operation_registry" (ask Operations) ++ probe_if (has_approvals cfg) "approval_store" (ask Approvals) ++
   probe_if (has_knowledge cfg) "knowledge" (sources_healthy refs) ++ probe_if (has_mcp cfg) "mcp" servers_probe)%list.

(** [GoogleAdkRuntime.health_probes] *)
Definition health_probes_google cfg (refs : list string) : list (string * run bool) :=
  (probe_if (bool_decide (is_Some (model_provider cfg))) "model" (ask Model) ++ probe_if (has_memory cfg) "memory" (lists Memories) ++
   probe_if (has_knowledge cfg) "knowledge" (sources_healthy refs) ++ probe_if (has_mcp cfg) "mcp" servers_probe ++
   probe_if (has_operations cfg) "operation_registry" (ask Operations))%list.

(** ** [close] *)

Definition close_one (d : dependency) : run unit := fun w => let w := note (Closes d) w in (closes (acts w) d, w).
Fixpoint close_all (l : list dependency) : run unit :=
  match l with [] => mret tt | d :: l => _ ← close_one d; close_all l end.

Definition opened (b : bool) (d : dependency) : list dependency := if b then [d] else [].
(** The knowledge provider is one object whatever its sources. *)
Definition the_knowledge : dependency := KnowledgeOf "".

(** [AdkRuntime.close] *)
Definition close_custom cfg : run unit :=
  close_all (filterb (closable cfg)
    (Model :: opened (has_sessions cfg) Sessions ++ opened (has_memory cfg) Memories ++ opened (has_operations cfg) Operations ++
     opened (has_approvals cfg) Approvals ++ opened (has_knowledge cfg) the_knowledge) ++ opened (has_mcp cfg) Servers)%list.

(** The providers in [GoogleAdkRuntime.close] *)
Definition close_google_providers cfg : run unit :=
  close_all (filterb (closable cfg) (opened (bool_decide (is_Some (model_provider cfg))) Model) ++ opened (has_mcp cfg) Servers ++
     filterb (closable cfg) (opened (has_memory cfg) Memories ++ opened (has_knowledge cfg) the_knowledge ++ opened (has_sessions cfg) Sessions) ++
     opened (has_operations cfg) Operations)%list.
End runtime.

(** ** What a start has made sure of *)

Section started.
Context {T M : Type} `{McpManager M T} (answers : list act -> dependency -> result exn bool).
Implicit Types (cfg : config T).
Abbreviation run := (call (world (M := M)) exn).
#[local] Notation ask := (ask answers).
#[local] Notation healthy := (healthy answers).
#[local] Notation listing := (listing answers).
#[local] Notation sources_available := (sources_available answers).
#[local] Notation known_sources_available := (known_sources_available answers).
#[local] Notation custom_checks := (custom_checks answers).
#[local] Notation google_checks := (google_checks answers).
#[local] Notation start_custom := (start_custom answers).
#[local] Notation start_google := (start_google answers).

(** The dependency was asked after [before] and gave a good answer. *)
Definition answered (before l : list act) (d : dependency) (listed : bool) : Prop :=
  exists l1 l2 b, l = (l1 ++ Probed d :: l2)%list /\ answers (before ++ l1 ++ [Probed d])%list d = Ok b /\ (listed || b) = true.

Definition stable (e : exn) : Prop := class e ∈ [RuntimeError; PermissionError; TypeError] \/ is_exception e = false.

Section checks.
(** The knowledge references that the runtime has when the start begins. *)
Context (known : list string).

(** A part of a start before the servers: it asks and audits, and when it passes
    [P] holds of what was done. *)
Definition checks (P : list act -> list act -> Prop) (E : exn -> Prop) (m : run unit) : Prop :=
  forall w r w', runtime_refs w = known -> m w = (r, w') ->
    exists l, acts w' = (acts w ++ l)%list /\ (manager w' = manager w /\ runtime_refs w' = known) /\ (forall s, Connects s ∉ l) /\
      match r with Ok _ => P (acts w) l | Err e => E e end.

Definition keeps (P : list act -> list act -> Prop) : Prop :=
  (forall b l l', P b l -> P b (l ++ l')%list) /\ (forall b l l', P (b ++ l)%list l' -> P b (l ++ l')%list).

Lemma answered_keeps d listed : keeps (fun b l => answered b l d listed).
Proof.
  split; intros b l l' (l1 & l2 & x & -> & Ha & Hx).
  - exists l1, (l2 ++ l')%list, x. by rewrite <-app_assoc.
  - exists (l ++ l1)%list, l2, x. rewrite !app_assoc. rewrite !app_assoc in Ha. done.
Qed.

Lemma keeps_and P Q : keeps P -> keeps Q -> keeps (fun b l => P b l /\ Q b l).
Proof. intros [P1 P2] [Q1 Q2]. split; intros b l l' []; auto. Qed.
Lemma keeps_all {A} (P : A -> list act -> list act -> Prop) (l : list A) : (forall a, keeps (P a)) -> keeps (fun b l' => forall a, a ∈ l -> P a b l').
Proof. intros H1. split; intros b l1 l2 Hp a Ha; destruct (H1 a) as [Ha1 Ha2]; auto. Qed.
Lemma keeps_const P : keeps (fun _ _ => P).
Proof. by split. Qed.

Lemma checks_seq P Q E m k : keeps P -> keeps Q -> checks P E m -> checks Q E k -> checks (fun b l => P b l /\ Q b l) E (_ ← m; k).
Proof.
  intros HP HQ Hm Hs w r w' Hk Hrun. unfold mbind, call_bind in Hrun. destruct (m w) as [rm w1] eqn:H1.
  destruct (Hm _ _ _ Hk H1) as (l1 & Ha1 & [Hm1 Hk1] & Hc1 & Hr1). destruct rm as [[]|e]; [|by injection Hrun as <- <-; exists l1].
  destruct (Hs _ _ _ Hk1 Hrun) as (l2 & Ha2 & [Hm2 Hk2] & Hc2 & Hr2). exists (l1 ++ l2)%list. split_and!.
  - by rewrite Ha2, Ha1, app_assoc.
  - congruence.
  - done.
  - intros s [?|?]%elem_of_app; [by eapply Hc1|by eapply Hc2].
  - destruct r as [x|e]; [|done]. destruct HP as [HP _], HQ as [_ HQ]. split; [by apply HP|]. apply HQ. by rewrite <-Ha1.
Qed.

Lemma checks_weaken P P' (E E' : exn -> Prop) m : (forall b l, P b l -> P' b l) -> (forall e, E e -> E' e) -> checks P E m -> checks P' E' m.
Proof. intros HP HE Hm w r w' Hk Hrun. destruct (Hm _ _ _ Hk Hrun) as (l & ? & [? ?] & ? & ?). exists l. split_and!; try done. destruct r; auto. Qed.

Lemma checks_ret E : checks (fun _ _ => True) E (mret tt).
Proof. intros w r w' Hk [= <- <-]. exists []. rewrite app_nil_r. split_and!; try done. by intros s ?%elem_of_nil. Qed.

Lemma checks_when P E b m : (b = true -> checks P E m) -> checks (fun x l => b = true -> P x l) E (when b m).
Proof.
  destruct b; cbn; intros Hm; [eapply checks_weaken; [|done|by apply Hm]; by auto|].
  eapply checks_weaken; [|done|apply checks_ret]. done.
Qed.

Lemma keeps_when P (b : bool) : keeps P -> keeps (fun x l => b = true -> P x l).
Proof. intros [H1 H2]. split; intros; auto. Qed.

Lemma checks_healthy d what : checks (fun b l => answered b l d false) stable (healthy d what).
Proof.
  intros w r w' Hk. unfold healthy, guarded, ask, mbind, call_bind. cbn. destruct (answers _ d) as [b|e] eqn:Ha.
  - destruct b; cbn; intros [= <- <-]; exists [Probed d]; split_and!; try done; try set_solver.
    + by exists [], [], true.
    + left. cbn. set_solver.
  - destruct (is_exception e) eqn:He; intros [= <- <-]; exists [Probed d]; split_and!; try done; try set_solver; [left; set_solver|by right].
Qed.

Lemma checks_listing d what : checks (fun b l => answered b l d true) stable (listing d what).
Proof.
  intros w r w' Hk. unfold listing, guarded, ask, mbind, call_bind. cbn. destruct (answers _ d) as [b|e] eqn:Ha.
  - intros [= <- <-]; exists [Probed d]; split_and!; try done; try set_solver. by exists [], [], b.
  - destruct (is_exception e) eqn:He; intros [= <- <-]; exists [Probed d]; split_and!; try done; try set_solver; [left; set_solver|by right].
Qed.

Lemma checks_unless b e : stable e -> checks (fun _ _ => b = true) stable (unless b e).
Proof.
  intros He w r w' Hk. unfold unless. destruct b; intros [= <- <-]; exists []; rewrite app_nil_r; split_and!; try done; set_solver.
Qed.

Lemma stable_runtime m : stable (raise RuntimeError m).
Proof. left. cbn. set_solver. Qed.

Lemma checks_sources refs : checks (fun b l => forall r, r ∈ refs -> answered b l (KnowledgeOf r) false) stable (sources_available refs).
Proof.
  induction refs as [|r refs IH]; [eapply checks_weaken; [|done|apply checks_ret]; intros b l _ r ?%elem_of_nil; done|].
  assert (Hone : checks (fun b l => answered b l (KnowledgeOf r) false) stable
    (b ← guarded (failed "knowledge provider") (ask (KnowledgeOf r)); unless b (raise RuntimeError ("knowledge source '" ++ r ++ "' is not available")))).
  { intros w x w' Hk. unfold guarded, ask, mbind, call_bind. cbn. destruct (answers _ _) as [b|e] eqn:Ha.
    - destruct b; cbn; intros [= <- <-]; exists [Probed (KnowledgeOf r)]; split_and!; try done; try set_solver; [by exists [], [], true|apply stable_runtime].
    - destruct (is_exception e) eqn:He; intros [= <- <-]; exists [Probed (KnowledgeOf r)]; split_and!; try done; try set_solver; [apply stable_runtime|by right]. }
  pose proof (checks_seq _ _ _ _ _ (answered_keeps _ _) (keeps_all _ refs (fun r => answered_keeps (KnowledgeOf r) false)) Hone IH) as Hseq.
  intros w x w' Hk Hrun. destruct (Hseq w x w' Hk) as (l & Ha & [Hm Hk'] & Hc & Hx).
  { rewrite <-Hrun. cbn [sources_available]. unfold mbind, call_bind. destruct (guarded _ _ w) as [[b|e] w1]; [|done]. by destruct (unless _ _ w1) as [[]]. }
  exists l. split_and!; try done. destruct x; [|done]. destruct Hx as [H1 H2]. intros r' [->|?]%elem_of_cons; auto.
Qed.

Lemma checks_permit event subject p : checks (fun _ _ => Policy.allowed p = true) stable (permit event subject p).
Proof.
  intros w r w' Hk. unfold permit. destruct (Policy.allowed p); intros [= <- <-].
  - exists []. rewrite app_nil_r. split_and!; try done. set_solver.
  - exists [Audited event subject (Policy.reason p)]. split_and!; try done; [set_solver|]. left. cbn. set_solver.
Qed.

Lemma checks_permit_all {A} event (subject : A -> string) decide l :
  checks (fun _ _ => forall x, x ∈ l -> Policy.allowed (decide x) = true) stable (permit_all event subject decide l).
Proof.
  induction l as [|a l IH]; [eapply checks_weaken; [|done|apply checks_ret]; intros ? ? _ x ?%elem_of_nil; done|].
  eapply checks_weaken; [|done|cbn; apply checks_seq; [apply keeps_const|apply (keeps_const (forall x, x ∈ l -> Policy.allowed (decide x) = true))|apply checks_permit|apply IH]].
  intros b l' [H1 H2] x [->|?]%elem_of_cons; auto.
Qed.

(** The policy allows every server, skill and model of the definition. *)
Definition admitted cfg (d : Definitions.MicroAgentDefinition) : Prop :=
  match policy cfg with
  | None => True
  | Some p =>
      (forall s, s ∈ Definitions.mcp_servers (dependencies_of d) -> Policy.allowed (Policy.evaluate_mcp p None (Definitions.server_ref s) None) = true) /\
      (forall s, s ∈ Definitions.skills (dependencies_of d) -> Policy.allowed (Policy.evaluate_skill p None (Definitions.skill_id s) None) = true) /\
      match Definitions.model (dependencies_of d) with
      | None => True
      | Some m => exists decision, Policy.evaluate_model p None (Definitions.model_ref m) (Definitions.model_id m) (Definitions.provider m) None = Ok decision /\
                    Policy.allowed decision = true
      end
  end.

Lemma checks_policy cfg d : checks (fun _ _ => admitted cfg d) stable (policy_admits cfg d).
Proof.
  unfold policy_admits, admitted. destruct (policy cfg) as [p|]; [|eapply checks_weaken; [|done|apply checks_ret]; done].
  apply (checks_seq _ _ _ _ _ (keeps_const _) (keeps_const _)); [apply checks_permit_all|].
  apply (checks_seq _ _ _ _ _ (keeps_const _) (keeps_const _)); [apply checks_permit_all|].
  destruct (Definitions.model _) as [m|]; [|eapply checks_weaken; [|done|apply checks_ret]; done].
  destruct (Policy.evaluate_model _ _ _ _ _ _) as [decision|].
  - eapply checks_weaken; [|done|apply checks_permit]. by eexists.
  - intros w r w' Hk [= <- <-]. exists []. rewrite app_nil_r. split_and!; try done; [set_solver|]. left. cbn. set_solver.
Qed.

(** The dependencies a start waits for: the ones that answer a boolean, and those
    that are listed. *)
Definition sources_of cfg : list (dependency * bool) :=
  if has_knowledge cfg then (fun r => (KnowledgeOf r, false)) <$> known else [].
Definition waits (b : bool) (d : dependency) (listed : bool) : list (dependency * bool) := if b then [(d, listed)] else [].
Definition custom_waits cfg : list (dependency * bool) :=
  ((Model, false) :: waits (has_sessions cfg) Sessions true ++ waits (has_checkpoints cfg) Checkpoints false ++ waits (has_memory cfg) Memories true ++
   waits (has_operations cfg) Operations false ++ waits (has_approvals cfg) Approvals false ++ sources_of cfg)%list.
Definition google_waits cfg : list (dependency * bool) :=
  (waits (bool_decide (is_Some (model_provider cfg))) Model false ++ waits (has_checkpoints cfg) Checkpoints false ++
   waits (has_operations cfg) Operations false ++ waits (has_memory cfg) Memories true ++ sources_of cfg)%list.

Definition tools_supported cfg (d : Definitions.MicroAgentDefinition) : bool :=
  bool_decide (Definitions.tools (dependencies_of d) = []) || from_option model_tool_use true (model_provider cfg).

(** Everything a start makes sure of before it contacts a server. *)
Definition cleared cfg (d : Definitions.MicroAgentDefinition) (ws : list (dependency * bool)) (b l : list act) : Prop :=
  (forall g, g ∈ ws -> answered b l g.1 g.2) /\ tools_supported cfg d = true /\ admitted cfg d.

Lemma cleared_keeps cfg d ws : keeps (cleared cfg d ws).
Proof. apply keeps_and; [apply keeps_all; intros; apply answered_keeps|apply keeps_const]. Qed.

Lemma checks_waits b d listed m : checks (fun x l => answered x l d listed) stable m ->
  checks (fun x l => forall g, g ∈ waits b d listed -> answered x l g.1 g.2) stable (when b m).
Proof.
  intros Hm. eapply checks_weaken; [|done|apply (checks_when (fun x l => answered x l d listed) stable b); intros _; exact Hm].
  intros x l Hx g Hg. destruct b; [|by apply elem_of_nil in Hg]. apply list_elem_of_singleton in Hg as ->. by apply Hx.
Qed.

Lemma checks_sources_of cfg : checks (fun x l => forall g, g ∈ sources_of cfg -> answered x l g.1 g.2) stable
  (when (has_knowledge cfg) known_sources_available).
Proof.
  eapply checks_weaken; [|done|apply (checks_when (fun b l => forall r, r ∈ known -> answered b l (KnowledgeOf r) false) stable (has_knowledge cfg)); intros _].
  - intros x l Hx g Hg. unfold sources_of in Hg. destruct (has_knowledge cfg); [|by apply elem_of_nil in Hg].
    apply list_elem_of_fmap in Hg as (r & -> & Hr). by apply Hx.
  - intros w r w' Hk. unfold known_sources_available. rewrite Hk. by apply checks_sources.
Qed.

(** One part of the checks after another. *)
Definition clear_from cfg d (ws : list (dependency * bool)) (m : run unit) : Prop := checks (cleared cfg d ws) stable m.

Lemma clear_step cfg d ws ws' m k :
  checks (fun x l => forall g, g ∈ ws -> answered x l g.1 g.2) stable m -> clear_from cfg d ws' k -> clear_from cfg d (ws ++ ws') (_ ← m; k).
Proof.
  intros Hm Hk. eapply checks_weaken; [|done|apply checks_seq; [|apply cleared_keeps|exact Hm|exact Hk]].
  - intros b l (H1 & H2 & H3). split; [|done]. intros g [?|?]%elem_of_app; auto.
  - apply keeps_all. intros. apply answered_keeps.
Qed.

Lemma clear_end cfg d : clear_from cfg d [] (_ ← tools_offered cfg d; policy_admits cfg d).
Proof.
  eapply checks_weaken; [|done|apply (checks_seq _ _ _ _ _ (keeps_const (tools_supported cfg d = true)) (keeps_const (admitted cfg d))); [apply checks_unless, stable_runtime|apply checks_policy]].
  intros b l [H1 H2]. split; [by intros g ?%elem_of_nil|done].
Qed.

Lemma custom_checks_clear cfg d : clear_from cfg d (custom_waits cfg) (custom_checks cfg d).
Proof.
  unfold custom_checks, custom_waits. rewrite <-(app_nil_r (sources_of cfg)).
  apply (clear_step _ _ [(Model, false)]).
  { eapply checks_weaken; [|done|apply checks_healthy]. by intros b l Ha g ->%list_elem_of_singleton. }
  repeat first [apply clear_end
               |apply clear_step; [first [apply checks_waits; first [apply checks_healthy|apply checks_listing]|apply checks_sources_of]|]].
Qed.

Lemma google_checks_clear cfg d : checks (cleared cfg d (google_waits cfg)) (fun _ => True) (google_checks cfg d).
Proof.
  assert (Hrest : clear_from cfg d (waits (has_checkpoints cfg) Checkpoints false ++ waits (has_operations cfg) Operations false ++
     waits (has_memory cfg) Memories true ++ sources_of cfg ++ [])
    (_ ← when (has_checkpoints cfg) (healthy Checkpoints "checkpoint store"); _ ← when (has_operations cfg) (healthy Operations "operation registry");
     _ ← when (has_memory cfg) (listing Memories "memory provider"); _ ← when (has_knowledge cfg) known_sources_available;
     _ ← tools_offered cfg d; policy_admits cfg d)).
  { repeat first [apply clear_end
                 |apply clear_step; [first [apply checks_waits; first [apply checks_healthy|apply checks_listing]|apply checks_sources_of]|]]. }
  rewrite app_nil_r in Hrest. set (model := bool_decide (is_Some (model_provider cfg))).
  assert (Hmodel : checks (fun x l => model = true -> answered x l Model false) (fun _ => True)
    (when model (b ← ask Model; unless b (failed "model provider")))).
  { apply checks_when. intros _ w r w' Hk. unfold ask, mbind, call_bind. cbn. destruct (answers _ Model) as [b|e] eqn:Ha.
    - destruct b; cbn; intros [= <- <-]; exists [Probed Model]; split_and!; try done; try set_solver. by exists [], [], true.
    - intros [= <- <-]; exists [Probed Model]; split_and!; try done; set_solver. }
  assert (Hrest' : checks (cleared cfg d _) (fun _ => True) _) by (eapply checks_weaken; [| |exact Hrest]; done).
  eapply checks_weaken; [| |exact (checks_seq _ _ _ _ _ (keeps_when (fun x l => answered x l Model false) model (answered_keeps _ _))
    (cleared_keeps _ _ _) Hmodel Hrest')]; [|done].
  intros b l (H1 & H2 & H3). split; [|done]. intros g [Hg|Hg]%elem_of_app; [|by apply H2].
  unfold waits in Hg. fold model in Hg. destruct model; [|by apply elem_of_nil in Hg]. apply list_elem_of_singleton in Hg as ->. by apply H1.
Qed.

Lemma connect_servers_acts merge h w r w' :
  connect_servers merge h w = (r, w') ->
  exists tail, acts w' = (acts w ++ Connects (Definitions.mcp_servers (dependencies_of (definition h))) :: tail)%list /\
    (forall s, Connects s ∉ tail) /\
    match r with Ok h' => health_probe (manager w') = Ok true | Err _ => True end.
Proof.
  unfold connect_servers, mbind, call_bind, on_manager, guarded. cbn.
  destruct (connect_definition _ (manager w)) as [[[]|e] m] eqn:Hc; cbn.
  - destruct (health_probe m) as [[]|e] eqn:Hh; cbn; [| |destruct (is_exception e)]; intros [= <- <-]; cbn;
      exists [Probed Servers]; rewrite <-app_assoc; split_and!; try done; set_solver.
  - intros [= <- <-]. exists []. split_and!; try done. set_solver.
Qed.

(** A start is its checks, then the servers. *)
Lemma start_after_checks cfg ws E (ck : run unit) merge h w r w' :
  runtime_refs w = known -> checks (cleared cfg (definition h) ws) E ck ->
  (_ ← ck; h ← (if has_mcp cfg then connect_servers merge h else mret h); mret (set_started true h)) w = (r, w') ->
  exists l, acts w' = (acts w ++ l)%list /\
    (forall l1 s l2, l = (l1 ++ Connects s :: l2)%list ->
       s = Definitions.mcp_servers (dependencies_of (definition h)) /\ cleared cfg (definition h) ws (acts w) l1) /\
    match r with
    | Ok h' => started h' = true /\ cleared cfg (definition h) ws (acts w) l /\ (has_mcp cfg = true -> health_probe (manager w') = Ok true)
    | Err e => (forall s, Connects s ∉ l) -> E e /\ manager w' = manager w
    end.
Proof.
  intros Hk Hck Hrun. unfold mbind, call_bind in Hrun. destruct (ck w) as [rc w1] eqn:H1.
  destruct (Hck _ _ _ Hk H1) as (l & Ha & [Hm _] & Hc & Hr). destruct rc as [[]|e].
  2: { injection Hrun as <- <-. exists l. split_and!; try done. intros l1 s l2 ->. destruct (Hc s). set_solver. }
  destruct (has_mcp cfg) eqn:Hmcp.
  2: { injection Hrun as <- <-. exists l. split_and!; try done. intros l1 s l2 ->. destruct (Hc s). set_solver. }
  destruct (connect_servers merge h w1) as [rs w2] eqn:H2.
  destruct (connect_servers_acts _ _ _ _ _ H2) as (tail & Ha2 & Hc2 & Hr2). set (servers := Definitions.mcp_servers _) in *.
  exists (l ++ Connects servers :: tail)%list. split; [destruct rs; injection Hrun as <- <-; by rewrite Ha2, Ha, app_assoc|]. split.
  - intros l1 s l2 E'. apply app_eq_inv in E' as [(k & -> & E')|(k & -> & E')].
    + destruct k as [|x k]; cbn in E'; injection E' as E1 E2; [|destruct (Hc s); subst; set_solver].
      rewrite app_nil_r in Hr. by split.
    + destruct k as [|x k]; cbn in E'; injection E' as E1 E2; [|destruct (Hc2 s); subst; set_solver].
      rewrite app_nil_r. by split.
  - destruct rs as [h'|e]; injection Hrun as <- <-.
    + destruct (cleared_keeps cfg (definition h) ws) as [Hkeep _]. split_and!; [done|by apply Hkeep|done].
    + intros Hno. destruct (Hno servers). set_solver.
Qed.

End checks.

(** C9: A runtime starts its servers last and only when everything it asks is in
    order.  When a runtime contacts the MCP servers, every dependency that its start
    asks has answered well since the start began, the model can call the declared
    tools, and the policy allows every server, skill and model of the definition; an
    agent is started only after that, and after the servers are healthy.  The custom
    runtime asks its model, and of the session provider, checkpoint store, memory
    provider, operation registry, approval store and knowledge sources those that are
    configured; the Google runtime asks the same ones except the session provider and
    the approval store, and its model only when one is injected.  The knowledge
    sources are those of the last agent that the runtime created.  A start of the
    custom runtime that fails before it contacts the servers fails with a stable error
    or a cancellation and leaves them alone. *)
Theorem startup_contacts_servers_last cfg h w r w' :
  let d := definition h in
  (start_custom cfg h w = (r, w') ->
   let ws := custom_waits (runtime_refs w) cfg in
   exists l, acts w' = (acts w ++ l)%list /\
    (forall l1 s l2, l = (l1 ++ Connects s :: l2)%list -> cleared cfg d ws (acts w) l1) /\
    match r with
    | Ok h' => started h' = true /\ cleared cfg d ws (acts w) l /\
               (has_mcp cfg = true -> health_probe (manager w') = Ok true)
    | Err e => (forall s, Connects s ∉ l) -> stable e /\ manager w' = manager w
    end) /\
  (start_google cfg h w = (r, w') ->
   let ws := google_waits (runtime_refs w) cfg in
   exists l, acts w' = (acts w ++ l)%list /\
    (forall l1 s l2, l = (l1 ++ Connects s :: l2)%list -> cleared cfg d ws (acts w) l1) /\
    match r with
    | Ok h' => started h' = true /\ cleared cfg d ws (acts w) l /\
               (has_mcp cfg = true -> health_probe (manager w') = Ok true)
    | Err e => (forall s, Connects s ∉ l) -> manager w' = manager w
    end).
Proof.
  cbn zeta. split; intros Hrun.
  - destruct (start_after_checks (runtime_refs w) _ _ _ _ _ _ _ _ _ eq_refl (custom_checks_clear _ cfg (definition h)) Hrun) as (l & Ha & Hl & Hr).
    exists l. split_and!; try done. intros l1 s l2 E. by apply (Hl l1 s l2).
  - destruct (start_after_checks (runtime_refs w) _ _ _ _ _ _ _ _ _ eq_refl (google_checks_clear _ cfg (definition h)) Hrun) as (l & Ha & Hl & Hr).
    exists l. split_and!; [done| |destruct r; naive_solver]. intros l1 s l2 E. by apply (Hl l1 s l2).
Qed.

End started.

(** ** Closing *)

Lemma close_all_ok {M} closes l (w : world (M := M)) : (forall b d, closes b d = Ok tt) ->
  close_all closes l w = (Ok tt, {| acts := (acts w ++ (Closes <$> l))%list; manager := manager w; runtime_refs := runtime_refs w |}).
Proof.
  intros Hc. revert w. induction l as [|d l IH]; intros w; cbn; [by rewrite app_nil_r; destruct w|].
  unfold mbind, call_bind, close_one. rewrite Hc, IH. cbn. by rewrite <-app_assoc.
Qed.

(** ** Concrete runs *)

(** A manager that connects to every server and finds one tool on each. *)
#[local] Instance demo_manager : McpManager (list string) string := {|
  connect_definition servers m := (Ok tt, (m ++ (Definitions.server_ref <$> servers))%list);
  manager_tools m := (fun s => (s ++ ":t", "tool of " ++ s)) <$> m;
  discovery m s := None;
  health_probe m := Ok (negb (bool_decide (m = [])))
|}.

Definition demo_server : Definitions.McpServerRef :=
  {| Definitions.server_ref := "srv"; Definitions.transport := None; Definitions.server_endpoint := None; Definitions.command := None;
     Definitions.args := []; Definitions.server_credential_ref := None; Definitions.allowed_capabilities := []; Definitions.server_timeout_seconds := None |}.
Definition demo_tool (n : string) : Definitions.ToolDefinition :=
  {| Definitions.tool_name := n; Definitions.tool_description := None; Definitions.source := None; Definitions.tool_timeout_seconds := None;
     Definitions.side_effect := Definitions.read_only |}.
Definition demo_definition (ts : list string) : Definitions.MicroAgentDefinition :=
  let d := Definitions.sample_definition in
  let s := Definitions.spec d in
  {| Definitions.api_version := Definitions.api_version d; Definitions.kind := Definitions.kind d; Definitions.metadata := Definitions.metadata d;
     Definitions.spec :=
       {| Definitions.behavior := Definitions.behavior s;
          Definitions.dependencies :=
            {| Definitions.model := None; Definitions.tools := demo_tool <$> ts; Definitions.mcp_servers := [demo_server]; Definitions.skills := [];
               Definitions.knowledge := []; Definitions.memory := None; Definitions.session := Definitions.session (Definitions.dependencies s) |};
          Definitions.runtime := Definitions.runtime s; Definitions.a2a := Definitions.a2a s; Definitions.security := Definitions.security s |} |}.

Definition demo_config (mcp_denied : bool) : config string :=
  {| model_provider := Some {| model_streaming := true; model_structured_output := true; model_tool_use := true |};
     has_sessions := true; has_checkpoints := true; has_memory := true; has_operations := true; has_approvals := false; has_knowledge := false;
     has_mcp := true; policy := if mcp_denied then Some {| Policy.allowed_skills := []; Policy.denied_skills := []; Policy.allowed_tools := [];
       Policy.denied_tools := []; Policy.allowed_mcps := []; Policy.denied_mcps := ["srv"]; Policy.model_restrictions := [];
       Policy.side_effect_policy := "allow"; Policy.approval_required := false; Policy.rules := [] |} else None;
     tool_registry := []; closable := fun _ => true |}.

Definition demo_builtin : list (string * string) := [("echo", "echo"); ("json_parse", "json_parse")].
Definition untouched : world (M := list string) := {| acts := []; manager := []; runtime_refs := [] |}.
Definition demo_handle (ts : list string) : handle :=
  match (create_custom (fun n => n) demo_builtin [] (demo_config false) (demo_definition ts) untouched).1 with
  | Ok h => h
  | Err _ => new_handle (demo_definition ts) ([], []) []
  end.
Definition all_well (l : list act) (d : dependency) : result exn bool := Ok true.

Lemma startup_contacts_servers_last_witness :
  let r := start_custom all_well (demo_config false) (demo_handle ["echo"; "gone"]) untouched in
  (started <$> r.1) = Ok true /\ cleared all_well (demo_config false) (demo_definition ["echo"; "gone"]) (custom_waits [] (demo_config false)) []
    [Probed Model; Probed Sessions; Probed Checkpoints; Probed Memories; Probed Operations].
Proof.
  intros r. split; [vm_compute; reflexivity|].
  destruct (startup_contacts_servers_last all_well (demo_config false) (demo_handle ["echo"; "gone"]) untouched r.1 r.2) as [Hc _].
  destruct Hc as (l & Ha & Hl & _); [apply surjective_pairing|].
  apply (Hl _ [demo_server] [Probed Servers]). cbn in Ha. rewrite <-Ha. vm_compute. reflexivity.
Defined.

(** The tools: the declared ones that are registered and what the servers offer. *)
Example started_tools :
  let r := start_custom all_well (demo_config false) (demo_handle ["echo"; "gone"]) untouched in
  (tools <$> r.1) = Ok [("echo", "echo"); ("srv:t", "tool of srv")] /\ (unresolved_tools <$> r.1) = Ok ["gone"].
Proof. vm_compute. split; reflexivity. Qed.

(** A denied server is audited and not contacted. *)
Example denied_server_is_not_contacted :
  let r := start_custom all_well (demo_config true) (demo_handle ["echo"]) untouched in
  r.1 = Err (raise PermissionError "MCP 'srv' is denied by policy") /\ manager r.2 = [] /\
  last (acts r.2) = Some (Audited "policy.mcp_denied" "srv" "MCP 'srv' is denied by policy").
Proof. vm_compute. split_and!; reflexivity. Qed.

(** A model provider whose health check raises: the custom runtime reports its stable
    error, the Google runtime lets the provider's exception through. *)
Example provider_error_escapes :
  let answers (l : list act) d := if bool_decide (d = Model) then Err (raise OtherException "secret detail") else Ok true in
  (start_custom answers (demo_config false) (demo_handle []) untouched).1 = Err (failed "model provider") /\
  (start_google answers (demo_config false) (demo_handle []) untouched).1 = Err (raise OtherException "secret detail").
Proof. vm_compute. split; reflexivity. Qed.

(** The Google runtime starts without asking its session provider, and neither runtime
    has a health probe for the checkpoint store. *)
Example session_provider_not_asked :
  let answers (l : list act) d := if bool_decide (d = Sessions) then Err (raise OtherException "down") else Ok true in
  (started <$> (start_google answers (demo_config false) (demo_handle []) untouched).1) = Ok true /\
  (health_probes_google answers (demo_config false) []).*1 = ["model"; "memory"; "mcp"; "operation_registry"] /\
  (health_probes_custom answers (demo_config false) []).*1 = ["model"; "session"; "memory"; "operation_registry"; "mcp"].
Proof. vm_compute. split_and!; reflexivity. Qed.

(** An agent that declares no knowledge source is not started because a source of the
    agent that was created after it is not available. *)
Definition with_knowledge (c : config string) : config string :=
  {| model_provider := model_provider c; has_sessions := has_sessions c; has_checkpoints := has_checkpoints c; has_memory := has_memory c;
     has_operations := has_operations c; has_approvals := has_approvals c; has_knowledge := true; has_mcp := has_mcp c; policy := policy c;
     tool_registry := tool_registry c; closable := closable c |}.
Example sources_of_another_agent :
  let answers (l : list act) d := Ok (negb (bool_decide (d = KnowledgeOf "docs"))) in
  let after_another := {| acts := []; manager := []; runtime_refs := ["docs"] |} in
  knowledge_refs (definition (demo_handle [])) = [] /\
  (start_custom answers (with_knowledge (demo_config false)) (demo_handle []) after_another).1 =
    Err (raise RuntimeError "knowledge source 'docs' is not available") /\
  (start_google answers (with_knowledge (demo_config false)) (demo_handle []) after_another).1 =
    Err (raise RuntimeError "knowledge source 'docs' is not available").
Proof. vm_compute. split_and!; reflexivity. Qed.

(** A provider that cannot be closed keeps the ones after it open. *)
Example failed_close_leaves_open :
  let closes (l : list act) d := if bool_decide (d = Sessions) then Err (raise OtherException "down") else Ok tt in
  acts (close_custom (M := list string) closes (demo_config false) untouched).2 = [Closes Model; Closes Sessions].
Proof. vm_compute. reflexivity. Qed.

End Startup.
