(* ===== verification/A2aServer.v ===== *)
(** * The A2A server: tasks over invocations

    [micro_agent/interoperability/a2a_server.py] and [a2a.py]: the executor that runs
    an invocation for a received message and publishes it as a task, the table of
    executions in flight, the agent card and what is mounted.  The SDK is a parameter:
    an update is what the task updater was asked to publish, and publishing does not
    fail; [json.loads] and [json.dumps] are parameters. *)

From S2P Require Import Prelude Json Resilience Invocation Definitions HttpApi.
Import Resilience.
Local Open Scope string_scope.

Module A2aServer.

(** ** Updates of a task *)

Record artifact : Type := {
  artifact_id : option string;
  text : string;
  append : bool;
  last_chunk : option bool
}.
Inductive update : Type :=
  | Seeded (task_id context_id : string)      (** the task itself, submitted *)
  | Submitted
  | Working
  | Artifact (a : artifact)
  | Completed
  | Failed (message : string)
  | Cancelled.

Section executor.
Context (loads : string -> option json) (dumps : json -> string) (py_str : json -> string).
(** [uuid4()], of the execution and of the request. *)
Context (fresh : string) (fresh_request_id : string).
Context (streaming : bool).
Context (agent_invoke : HttpApi.AgentRequest -> result exn Invocation.AgentResponse).
Context (agent_stream : HttpApi.AgentRequest -> list HttpApi.AgentStreamEvent * option exn).
(** The event queue takes events of its own kind. *)
Context (can_enqueue : bool).

(** [_response_text] *)
Definition response_text (r : Invocation.AgentResponse) : string :=
  match Invocation.output r with
  | JObj d => match dget "content" d with Some c => if py_truthy c then py_text py_str c else dumps (Invocation.output r) | None => dumps (Invocation.output r) end
  | o => dumps o
  end.

(** *** [_stream_response] *)

Record stream_state : Type := {
  emitted_text : string;
  pending_delta : string;
  emitted_artifact : bool;
  final_response : option Invocation.AgentResponse;
  published : list artifact
}.
Definition stream_start : stream_state :=
  {| emitted_text := ""; pending_delta := ""; emitted_artifact := false; final_response := None; published := [] |}.

Definition chunk (id delta : string) (again last : bool) : artifact :=
  {| artifact_id := Some id; text := delta; append := again; last_chunk := Some last |}.

(** One event: a delta is held back until the next one comes. *)
Definition on_event (id : string) (s : stream_state) (e : HttpApi.AgentStreamEvent) : stream_state :=
  let s := if str_truthy (HttpApi.delta e) then
             if str_truthy (pending_delta s)
             then {| emitted_text := emitted_text s ++ pending_delta s; pending_delta := HttpApi.delta e; emitted_artifact := true;
                     final_response := final_response s;
                     published := (published s ++ [chunk id (pending_delta s) (emitted_artifact s) false])%list |}
             else {| emitted_text := emitted_text s; pending_delta := HttpApi.delta e; emitted_artifact := emitted_artifact s;
                     final_response := final_response s; published := published s |}
           else s in
  match HttpApi.response e with
  | Some r => {| emitted_text := emitted_text s; pending_delta := pending_delta s; emitted_artifact := emitted_artifact s;
                 final_response := Some r; published := published s |}
  | None => s
  end.

(** [final_text\[len(combined_text):\]] *)
Definition drop_text (n : nat) (s : string) : string := String.substring n (String.length s - n) s.

(** After the last event. *)
Definition last_delta (s : stream_state) (final_text : string) : string :=
  let combined := emitted_text s ++ pending_delta s in
  if String.prefix combined final_text then pending_delta s ++ drop_text (String.length combined) final_text
  else if emitted_artifact s then pending_delta s else final_text.

Definition stream_response (id : string) (events : list HttpApi.AgentStreamEvent) (ended : option exn)
  : result exn Invocation.AgentResponse * list artifact :=
  let s := foldl (on_event id) stream_start events in
  match ended with
  | Some e => (Err e, published s)
  | None =>
      match final_response s with
      | None => (Err (raise RuntimeError "A2A stream ended without a final response"), published s)
      | Some r =>
          let final := last_delta s (response_text r) in
          (Ok r, if str_truthy final || negb (emitted_artifact s)
                 then (published s ++ [chunk id final (emitted_artifact s) true])%list else published s)
      end
  end.

(** *** [execute]: the updates it publishes and how it ends *)

Definition seeding (task_id context_id : string) : list update := [if can_enqueue then Seeded task_id context_id else Submitted; Working].

(** How the invocation ended, and the artifacts published while it ran. *)
Definition run_agent (task_id : string) (r : HttpApi.AgentRequest) : result exn Invocation.AgentResponse * list artifact :=
  match HttpApi.request_check r with
  | Err e => (Err e, [])
  | Ok r =>
      if streaming then let '(events, ended) := agent_stream r in stream_response (task_id ++ ":result") events ended
      else (agent_invoke r, [])
  end.

Definition execute (task_id context_id : option string) (input : string) : result exn unit * list update :=
  let task := opt_or task_id fresh in
  let context := opt_or context_id task in
  let '(r, artifacts) := run_agent task (HttpApi.request_of fresh_request_id loads input context) in
  let sent := (seeding task context ++ (Artifact <$> artifacts))%list in
  match r with
  | Err e =>
      if is_exception e then (Ok tt, sent ++ [Failed "agent invocation failed"])%list
      else (Err e, sent ++ [Cancelled])%list
  | Ok r =>
      (Ok tt, sent ++ (if streaming then [] else [Artifact {| artifact_id := None; text := response_text r; append := false; last_chunk := None |}]) ++ [Completed])%list
  end.

(** *** Executions in flight and [cancel] *)

(** [_in_flight]: the asyncio task of an A2A task. *)
Definition begin_execution (task_id : string) (task : nat) (flight : list (string * nat)) : list (string * nat) := dset task_id task flight.
Definition end_execution (task_id : string) (task : nat) (flight : list (string * nat)) : list (string * nat) :=
  if bool_decide (dget task_id flight = Some task) then dpop task_id flight else flight.

Inductive cancellation : Type := CancelTask (task : nat) | Publishes (l : list update).
Definition cancel (task_id : option string) (current : nat) (flight : list (string * nat)) : cancellation :=
  match dget (opt_or task_id fresh) flight with
  | Some task => if Nat.eqb task current then Publishes [Cancelled] else CancelTask task
  | None => Publishes [Cancelled]
  end.
End executor.

(** ** What a task says *)

Definition texts (l : list artifact) : string := foldr String.append "" (text <$> l).

Lemma texts_snoc l a : texts (l ++ [a]) = texts l ++ text a.
Proof.
  unfold texts. induction l as [|b l IH]; cbn; [by rewrite text_app_nil_r|]. by rewrite IH, text_app_assoc.
Qed.

#[local] Arguments texts : simpl never.

Lemma prefix_drop p s : String.prefix p s = true -> p ++ drop_text (String.length p) s = s.
Proof.
  unfold drop_text. revert s. induction p as [|c p IH]; intros s Hp; cbn.
  - rewrite Nat.sub_0_r. apply substring_all.
  - destruct s as [|c' s]; [done|]. cbn in Hp. destruct (Ascii.ascii_dec c c') as [<-|]; [|done].
    change (String c (p ++ String.substring (String.length p) (String.length s - String.length p) s) = String c s). by rewrite IH.
Qed.

(** The deltas that say something. *)
Definition deltas (events : list HttpApi.AgentStreamEvent) : list string := filterb str_truthy (HttpApi.delta <$> events).
Definition streamed (events : list HttpApi.AgentStreamEvent) : string := foldr String.append "" (deltas events).

(** One artifact in chunks: the first makes it, the others append. *)
Fixpoint chunks_of (id : string) (again : bool) (l : list artifact) : Prop :=
  match l with
  | [] => True
  | a :: l => artifact_id a = Some id /\ append a = again /\ chunks_of id true l
  end.
Lemma chunks_of_snoc id again l a :
  chunks_of id again l -> artifact_id a = Some id -> append a = (if l then again else true) -> chunks_of id again (l ++ [a]).
Proof. revert again. induction l as [|b l IH]; intros again; cbn; [done|]. intros (? & ? & ?) ? ?. split_and!; auto. apply IH; [done..|]. by destruct l. Qed.

Record streaming_so_far (id : string) (events : list HttpApi.AgentStreamEvent) (s : stream_state) : Prop := {
  so_text : texts (published s) = emitted_text s;
  so_all : emitted_text s ++ pending_delta s = streamed events;
  so_flag : emitted_artifact s = negb (bool_decide (published s = []));
  so_count : length (published s) = pred (length (deltas events));
  so_pending : pending_delta s = default "" (last (deltas events));
  so_chunks : chunks_of id false (published s);
  so_open : forall a, a ∈ published s -> last_chunk a = Some false
}.

Lemma deltas_snoc events e : deltas (events ++ [e]) = (deltas events ++ if str_truthy (HttpApi.delta e) then [HttpApi.delta e] else [])%list.
Proof. unfold deltas. rewrite fmap_app, List.filter_app. cbn. by destruct (str_truthy _). Qed.

Lemma streamed_snoc events e : streamed (events ++ [e]) = streamed events ++ HttpApi.delta e.
Proof.
  unfold streamed. rewrite deltas_snoc. generalize (deltas events) as l. intros l. induction l as [|d l IH]; cbn.
  - destruct (HttpApi.delta e) eqn:E; [done|]. cbn. by rewrite text_app_nil_r.
  - by rewrite IH, text_app_assoc.
Qed.

Lemma so_start id : streaming_so_far id [] stream_start.
Proof. split; try done. intros a ?%elem_of_nil. done. Qed.

(** Publishing the pending delta, and holding the next one back. *)
Definition publishing (id : string) (s : stream_state) (d : string) : stream_state :=
  {| emitted_text := emitted_text s ++ pending_delta s; pending_delta := d; emitted_artifact := true; final_response := final_response s;
     published := (published s ++ [chunk id (pending_delta s) (emitted_artifact s) false])%list |}.

Lemma chunks_of_chunk id s d last :
  chunks_of id false (published s) -> emitted_artifact s = negb (bool_decide (published s = [])) ->
  chunks_of id false (published s ++ [chunk id d (emitted_artifact s) last]).
Proof. intros Hc Hf. apply chunks_of_snoc; [done|done|]. cbn. rewrite Hf. by destruct (published s). Qed.

Lemma so_event id events s e : streaming_so_far id events s -> streaming_so_far id (events ++ [e]) (on_event id s e).
Proof.
  intros [Ht Ha Hf Hc Hp Hch Ho].
  assert (Hs : streaming_so_far id (events ++ [e])
    (if str_truthy (HttpApi.delta e) then
       if str_truthy (pending_delta s) then publishing id s (HttpApi.delta e)
       else {| emitted_text := emitted_text s; pending_delta := HttpApi.delta e; emitted_artifact := emitted_artifact s;
               final_response := final_response s; published := published s |}
     else s)).
  { destruct (str_truthy (HttpApi.delta e)) eqn:Hd; [destruct (str_truthy (pending_delta s)) eqn:Hpd|].
    - assert (Hne : deltas events <> []) by (intros E; rewrite Hp, E in Hpd; done).
      split; cbn; rewrite ?streamed_snoc, ?deltas_snoc, ?Hd, ?length_app, ?last_snoc; cbn.
      + by rewrite texts_snoc, Ht.
      + by rewrite Ha.
      + by destruct (published s).
      + rewrite Hc. destruct (deltas events); [done|]. cbn. lia.
      + done.
      + by apply chunks_of_chunk.
      + intros a [?| ->%list_elem_of_singleton]%elem_of_app; [by apply Ho|done].
    - assert (E : pending_delta s = "") by (by destruct (pending_delta s)).
      assert (Hne : deltas events = []).
      { destruct (deltas events) as [|d l] eqn:El using rev_ind; [done|]. rewrite last_snoc in Hp. cbn in Hp.
        assert (Hin : d ∈ deltas events) by (rewrite El; set_solver). apply elem_of_filterb in Hin as [_ Hin]. congruence. }
      split; cbn; rewrite ?streamed_snoc, ?deltas_snoc, ?Hd, ?length_app, ?last_snoc; cbn; try done.
      + rewrite <-Ha, E, text_app_nil_r. done.
      + rewrite Hc, Hne. done.
    - assert (E : HttpApi.delta e = "") by (by destruct (HttpApi.delta e)).
      split; rewrite ?streamed_snoc, ?deltas_snoc, ?Hd, ?app_nil_r; try done. by rewrite E, text_app_nil_r. }
  unfold on_event. fold (publishing id s (HttpApi.delta e)). destruct (HttpApi.response e); [|exact Hs].
  destruct Hs as [? ? ? ? ? ? ?]. by split.
Qed.

Lemma so_events id events : streaming_so_far id events (foldl (on_event id) stream_start events).
Proof. induction events as [|e events IH] using rev_ind; [apply so_start|]. rewrite foldl_snoc. by apply so_event. Qed.

(** The text a streamed answer should leave: the answer, or what was streamed when the
    answer does not continue it. *)
Definition complete_text (events : list HttpApi.AgentStreamEvent) (final : string) : string :=
  if String.prefix (streamed events) final then final
  else if Nat.leb (length (deltas events)) 1 then final else streamed events.

Section tasks.
Context (dumps : json -> string) (py_str : json -> string).

(** C40: A task says what the agent answered.  When a streamed invocation ends with an
    answer, the artifact chunks published for it make one artifact: the first makes
    it, the others append to it, exactly the last one is marked last, and together
    they are the text of the answer whenever that continues what was streamed, or
    when at most one delta came; otherwise they are precisely what was streamed. *)
Theorem a2a_artifact_is_complete id events r l :
  stream_response dumps py_str id events None = (Ok r, l) ->
  texts l = complete_text events (response_text dumps py_str r) /\ chunks_of id false l /\
  exists l' a, l = (l' ++ [a])%list /\ last_chunk a = Some true /\ forall b, b ∈ l' -> last_chunk b = Some false.
Proof.
  unfold stream_response. pose proof (so_events id events) as [Ht Ha Hf Hc Hp Hch Ho].
  set (s := foldl (on_event id) stream_start events) in *. destruct (final_response s) as [r'|]; [|done].
  set (final := response_text dumps py_str r'). intros [= <- <-]. fold final.
  assert (Hcount : emitted_artifact s = negb (Nat.leb (length (deltas events)) 1)).
  { rewrite Hf. destruct (published s) as [|a l] eqn:E; cbn in Hc; destruct (deltas events) as [|d [|d' ds]]; cbn in *; done || lia. }
  assert (Hsay : str_truthy (last_delta s final) || negb (emitted_artifact s) = true).
  { rewrite Hcount. destruct (deltas events) as [|d ds] eqn:El using rev_ind; [cbn; by rewrite orb_true_r|]. 
    destruct (Nat.leb_spec (length (ds ++ [d])) 1); [by rewrite orb_true_r|]. rewrite orb_false_r.
    rewrite last_snoc in Hp. cbn in Hp. assert (Hin : d ∈ deltas events) by (rewrite El; set_solver).
    apply elem_of_filterb in Hin as [_ Hin]. unfold last_delta. rewrite Hcount, Hp.
    destruct (String.prefix _ _); [by destruct d|]. destruct (Nat.leb_spec (length (ds ++ [d])) 1); [lia|done]. }
  rewrite Hsay. split_and!.
  - rewrite texts_snoc, Ht. cbn. unfold last_delta, complete_text. rewrite Ha.
    destruct (String.prefix (streamed events) final) eqn:Hpre.
    + rewrite text_app_assoc, Ha. by apply prefix_drop.
    + rewrite Hcount. destruct (Nat.leb_spec (length (deltas events)) 1) as [Hle|Hle]; cbn; [|done].
      rewrite <-Ht. assert (published s = []) as -> by (apply length_zero_iff_nil; lia). done.
  - by apply chunks_of_chunk.
  - eexists _, _. split; [done|]. split; [done|]. exact Ho.
Qed.
End tasks.

(** ** The agent card *)

Record AgentSkill : Type := { skill_id : string; skill_name : string; skill_description : string; skill_tags : list string }.
Record AgentCard : Type := {
  card_name : string;
  card_description : string;
  card_version : string;
  card_url : string;
  card_protocol_version : string;
  card_skills : list AgentSkill;
  card_streaming : bool;
  card_push_notifications : bool;
  card_security : option (string * string)     (** scheme name and OpenID Connect URL, required of every caller *)
}.

Definition SUPPORTED_PROTOCOL_VERSIONS : list string := ["1.0.1"].

(** [normalize_protocol_version] *)
Definition normalize_protocol_version (declared : option string) : result exn string :=
  let v := py_strip (opt_or declared "1.0.1") in
  if memb v SUPPORTED_PROTOCOL_VERSIONS then Ok v
  else Err (raise RuntimeError ("unsupported A2A protocol version '" ++ default "None" declared ++ "'; supported: 1.0.1")).

Definition skills_mapping (d : Definitions.MicroAgentDefinition) : list AgentSkill :=
  (fun s => {| skill_id := Definitions.skill_id s; skill_name := Definitions.skill_name s;
               skill_description := opt_or (Definitions.skill_description s) ""; skill_tags := Definitions.tags s |})
    <$> Definitions.skills (Definitions.dependencies (Definitions.spec d)).

(** A security scheme: its type and OpenID Connect URL. *)
Definition security_scheme_from_dict (scheme : string * string) : result exn string :=
  if String.eqb scheme.1 "openIdConnect" then Ok scheme.2 else Err (raise ValueError "unsupported A2A security scheme type").

Definition agent_card_from_definition (d : Definitions.MicroAgentDefinition) (base_url : option string) (scheme : option (string * string))
    (streaming push : bool) : result exn AgentCard :=
  let a := Definitions.a2a (Definitions.spec d) in
  v ← normalize_protocol_version (Definitions.protocol_version a);
  security ← match scheme with
             | Some s => u ← security_scheme_from_dict s; Ok (Some ("oidc", u))
             | None => Ok None
             end;
  Ok {| card_name := Definitions.meta_name (Definitions.metadata d); card_description := opt_or (Definitions.meta_description (Definitions.metadata d)) "";
        card_version := Definitions.meta_version (Definitions.metadata d);
        card_url := opt_or base_url (opt_or (Definitions.a2a_endpoint a) ""); card_protocol_version := v;
        card_skills := skills_mapping d; card_streaming := streaming; card_push_notifications := push; card_security := security |}.

(** ** [attach_a2a] *)

Section attach.
Context {Store Push Sender : Type} (in_memory_store : Store) (sender_of : Push -> Sender).

Record mounted : Type := {
  card : AgentCard;
  card_path : string;
  rpc : option (string * Store * option Push * option Sender)    (** the path and what serves it *)
}.

Definition attach_a2a (sdk : bool) (d : Definitions.MicroAgentDefinition) (base_url : option string) (security_scheme : option (string * string))
    (enable_rpc streaming : bool) (task_store : option Store) (push_store : option Push) (push_sender : option Sender) : result exn mounted :=
  if negb sdk then Err (raise RuntimeError "the official a2a-sdk is required; install the optional 'a2a' extra ('micro-agents[a2a]')")
  else
    c ← agent_card_from_definition d base_url None streaming (bool_decide (is_Some push_store));
    Ok {| card := c; card_path := "/.well-known/agent-card.json";
          rpc := if enable_rpc
                 then Some ("/", default in_memory_store task_store, push_store,
                            match push_sender, push_store with None, Some p => Some (sender_of p) | o, _ => o end)
                 else None |}.
End attach.

(** ** Concrete runs *)

Definition demo_dumps (j : json) : string := "{}".
Definition demo_loads (s : string) : option json := None.
Definition demo_response (content status : string) : Invocation.AgentResponse :=
  {| Invocation.output := JObj [("content", JStr content)]; Invocation.response_request_id := "r"; Invocation.response_session_id := None;
     Invocation.status := status; Invocation.error := None; Invocation.metadata := [] |}.
Definition delta_event (d : string) : HttpApi.AgentStreamEvent := {| HttpApi.delta := d; HttpApi.response := None |}.
Definition final_event (r : Invocation.AgentResponse) : HttpApi.AgentStreamEvent := {| HttpApi.delta := ""; HttpApi.response := Some r |}.
Definition demo_events : list HttpApi.AgentStreamEvent :=
  [delta_event "Hel"; delta_event ""; delta_event "lo"; final_event (demo_response "Hello!" "success")].

Lemma a2a_artifact_is_complete_witness :
  texts (stream_response demo_dumps demo_dumps "t:result" demo_events None).2 = "Hello!".
Proof.
  by destruct (a2a_artifact_is_complete demo_dumps demo_dumps "t:result" demo_events (demo_response "Hello!" "success")
    (stream_response demo_dumps demo_dumps "t:result" demo_events None).2) as [-> _].
Defined.

Definition run_demo (streaming : bool) (response : Invocation.AgentResponse) (events : list HttpApi.AgentStreamEvent) (ended : option exn)
  : result exn unit * list update :=
  execute demo_loads demo_dumps demo_dumps "fresh" "request" streaming (fun _ => Ok response) (fun _ => (events, ended)) true
    (Some "t") (Some "ctx") "hi".

Example demo_stream :
  run_demo true (demo_response "" "") demo_events None =
    (Ok tt, [Seeded "t" "ctx"; Working; Artifact (chunk "t:result" "Hel" false false); Artifact (chunk "t:result" "lo!" true true); Completed]).
Proof. vm_compute. reflexivity. Qed.

(** A stream that fails or is cancelled leaves what it published, and the task is
    closed. *)
Example broken_stream :
  run_demo true (demo_response "" "") [delta_event "a"; delta_event "b"] (Some (raise ValueError "secret")) =
    (Ok tt, [Seeded "t" "ctx"; Working; Artifact (chunk "t:result" "a" false false); Failed "agent invocation failed"]) /\
  run_demo true (demo_response "" "") [] (Some (raise CancelledError "")) =
    (Err (raise CancelledError ""), [Seeded "t" "ctx"; Working; Cancelled]).
Proof. vm_compute. split; reflexivity. Qed.

(** An invocation that pauses for an approval is published as a completed task. *)
Example paused_invocation_completes :
  last (run_demo false {| Invocation.output := JObj []; Invocation.response_request_id := "r"; Invocation.response_session_id := None;
    Invocation.status := "approval_required"; Invocation.error := None; Invocation.metadata := [] |} [] None).2 = Some Completed.
Proof. vm_compute. reflexivity. Qed.

(** The invocation of a task carries no verified caller or user, whoever sent the
    message, and its session is the context the message names. *)
Example task_runs_without_identity :
  let r := HttpApi.request_of "request" demo_loads "hi" "someone else's session" in
  (HttpApi.caller_identity r, HttpApi.user_context r, HttpApi.agent_session_id r) = (None, None, Some "someone else's session").
Proof. reflexivity. Qed.

Definition demo_definition : Definitions.MicroAgentDefinition :=
  let d := Definitions.sample_definition in
  let s := Definitions.spec d in
  {| Definitions.api_version := Definitions.api_version d; Definitions.kind := Definitions.kind d; Definitions.metadata := Definitions.metadata d;
     Definitions.spec := {| Definitions.behavior := Definitions.behavior s; Definitions.dependencies := Definitions.dependencies s;
       Definitions.runtime := Definitions.runtime s; Definitions.security := Definitions.security s;
       Definitions.a2a := {| Definitions.a2a_enabled := true; Definitions.a2a_endpoint := None; Definitions.protocol_version := None |} |} |}.
(** The card never says that callers must authenticate. *)
Example card_hides_authentication :
  (card_security <$> (card <$> attach_a2a (Store := nat) (Push := nat) 0 (fun p => p) true demo_definition None
     (Some ("openIdConnect", "https://idp")) true true None None None)) = Ok None /\
  (card_security <$> agent_card_from_definition demo_definition None (Some ("openIdConnect", "https://idp")) true false) =
    Ok (Some ("oidc", "https://idp")).
Proof. vm_compute. split; reflexivity. Qed.

(** With an authenticator, the task route is open to everyone unless the definition
    asks for verified callers. *)
Example task_route_is_open :
  HttpApi.authenticated_paths {| HttpApi.max_request_bytes := 1; HttpApi.streaming := false; HttpApi.require_caller_identity := false;
    HttpApi.a2a_rpc := true; HttpApi.a2a_protocol_version := "1.0.1" |} = ["/v1/invoke"].
Proof. reflexivity. Qed.

End A2aServer.
