(* ===== verification/Streaming.v ===== *)
(** * Streamed invocations of the runtimes

    [stream] of both runtimes ([runtimes/adk/runtime.py], [runtimes/google_adk/runtime.py]):
    the invocation runs in a task of its own that puts what it emits into a queue, and
    the generator takes from the queue what its reader asks for.  The two run side by
    side; the reader may leave at any time.  [ProviderLlm] of the Google runtime: the
    model provider's stream as ADK responses. *)

From S2P Require Import Prelude Json Resilience Invocation Tools AdkBridge HttpApi.
Import Resilience.
Local Open Scope string_scope.

Module Streaming.

(** ** The queue between the invocation and its reader *)

Inductive item : Type :=
  | Delta (d : string)
  | Response (r : Invocation.AgentResponse)
  | Raises (e : exn)
  | End_.

(** Where the task of the invocation is. *)
Inductive task : Type :=
  | Emitting (deltas : list string) (ended : result exn Invocation.AgentResponse)   (** what is still to come *)
  | Unwinding                                                                       (** in [finally] *)
  | Done.

Inductive reader : Type :=
  | Reading
  | Left                        (** closed the generator, or raised where it reads *)
  | Finished
  | Threw (e : exn).

Record state : Type := {
  producer : task;
  queue : list item;
  consumer : reader;
  received : list item;
  bound : bool                  (** the caller's identity is bound in the task *)
}.

Definition start (deltas : list string) (ended : result exn Invocation.AgentResponse) : state :=
  {| producer := Emitting deltas ended; queue := []; consumer := Reading; received := []; bound := true |}.

(** [stream] refuses when the runtime does not stream. *)
Definition stream (streams : bool) (deltas : list string) (ended : result exn Invocation.AgentResponse) : result exn state :=
  if streams then Ok (start deltas ended) else Err (raise RuntimeError "Runtime does not support streaming").

Definition cancelled : exn := raise CancelledError "".

(** The next step of the task: [emit] drops empty deltas; when the reader is gone the
    task is cancelled where it waits next. *)
Definition ending (ended : result exn Invocation.AgentResponse) : item := match ended with Ok r => Response r | Err e => Raises e end.
Definition produce (s : state) : state :=
  let next p q b := {| producer := p; queue := (queue s ++ q)%list; consumer := consumer s; received := received s; bound := b |} in
  match producer s with
  | Done => s
  | Unwinding => next Done [End_] false
  | Emitting ds ended =>
      match consumer s with
      | Reading =>
          match ds with
          | d :: ds => next (Emitting ds ended) (if str_truthy d then [Delta d] else []) (bound s)
          | [] => next Unwinding [ending ended] (bound s)
          end
      | _ => next Unwinding [Raises cancelled] (bound s)
      end
  end.

(** The next item, if there is one, goes to the reader. *)
Definition consume (s : state) : state :=
  match consumer s, queue s with
  | Reading, i :: q =>
      let next c l := {| producer := producer s; queue := q; consumer := c; received := (received s ++ l)%list; bound := bound s |} in
      match i with
      | End_ => next Finished []
      | Raises e => next (Threw e) []
      | i => next Reading [i]
      end
  | _, _ => s
  end.

Definition leave (s : state) : state :=
  match consumer s with
  | Reading => {| producer := producer s; queue := queue s; consumer := Left; received := received s; bound := bound s |}
  | _ => s
  end.

Inductive move : Type := Produces | Consumes | Leaves.
Definition step (m : move) (s : state) : state := match m with Produces => produce s | Consumes => consume s | Leaves => leave s end.
Definition run (ms : list move) (s : state) : state := foldl (fun s m => step m s) s ms.

(** ** What the reader gets *)

(** Everything a stream says, in order. *)
Definition transcript (deltas : list string) (ended : result exn Invocation.AgentResponse) : list item :=
  ((Delta <$> filterb str_truthy deltas) ++ [ending ended; End_])%list.

(** What the task has still to put, when its reader stays. *)
Definition to_put (s : state) : list item :=
  match producer s with
  | Emitting ds ended => transcript ds ended
  | Unwinding => [End_]
  | Done => []
  end.

(** What the reader makes of an item. *)
Definition yields (i : item) : bool := match i with Delta _ | Response _ => true | _ => false end.
Definition exception_of (l : list item) : option exn :=
  match List.find (fun i => negb (yields i)) l with Some (Raises e) => Some e | _ => None end.

Record faithful (all : list item) (s : state) : Prop := {
  fa_order : match consumer s with
             | Reading => (received s ++ queue s ++ to_put s)%list = all
             | Left => exists rest, all = (received s ++ rest)%list
             | Finished => exists rest, all = (received s ++ End_ :: rest)%list
             | Threw e => exists rest, all = (received s ++ Raises e :: rest)%list
             end;
  fa_yields : Forall (fun i => yields i = true) (received s);
  fa_bound : bound s = negb (match producer s with Done => true | _ => false end)
}.

Lemma faithful_start ds ended : faithful (transcript ds ended) (start ds ended).
Proof. by split. Qed.

Lemma faithful_produce all s : faithful all s -> faithful all (produce s).
Proof.
  intros [Ho Hy Hb]. destruct s as [p q c l b]; cbn in *. unfold produce; cbn.
  destruct p as [[|d ds] ended| |]; [..|by split]; destruct c; split; cbn; try done; rewrite <-Ho; unfold to_put, transcript; cbn;
    try destruct (str_truthy d); cbn; by rewrite ?app_nil_r, <-?app_assoc.
Qed.

Lemma faithful_consume all s : faithful all s -> faithful all (consume s).
Proof.
  intros [Ho Hy Hb]. destruct s as [p q c l b]; cbn in *. unfold consume; cbn.
  destruct c; try by split. destruct q as [|i q]; [by split|]. cbn in Ho.
  assert (E : (l ++ i :: q ++ to_put {| producer := p; queue := i :: q; consumer := Reading; received := l; bound := b |})%list = all) by done.
  destruct i; split; cbn; rewrite ?app_nil_r; try done; try (rewrite Forall_app; split; [done|by repeat constructor]);
    rewrite <-E; try (by rewrite <-app_assoc); by eexists.
Qed.

Lemma faithful_leave all s : faithful all s -> faithful all (leave s).
Proof.
  intros [Ho Hy Hb]. destruct s as [p q c l b]; cbn in *. unfold leave; cbn. destruct c; try by split.
  split; cbn; try done. by eexists.
Qed.

Lemma faithful_run ms all s : faithful all s -> faithful all (run ms s).
Proof.
  revert s. induction ms as [|m ms IH]; intros s Hs; [done|]. apply IH. destruct m; cbn; [by apply faithful_produce|by apply faithful_consume|by apply faithful_leave].
Qed.

Lemma transcript_prefix ds ended l rest :
  transcript ds ended = (l ++ End_ :: rest)%list -> Forall (fun i => yields i = true) l ->
  exists r, ended = Ok r /\ l = ((Delta <$> filterb str_truthy ds) ++ [Response r])%list.
Proof.
  unfold transcript. generalize (filterb str_truthy ds) as fs. intros fs. revert l. induction fs as [|d fs IH]; intros l E Hl; cbn in E.
  - destruct l as [|i l]; [destruct ended; discriminate|]. injection E as <- E. apply Forall_cons in Hl as [Hi Hl].
    destruct ended as [r|e]; [|discriminate Hi]. destruct l as [|i' l]; [by exists r|]. injection E as <- E. by apply Forall_cons in Hl as [? _].
  - destruct l as [|i l]; [discriminate|]. injection E as <- E. apply Forall_cons in Hl as [_ Hl].
    destruct (IH l E Hl) as (r & -> & ->). by exists r.
Qed.

Lemma transcript_raises ds ended l e rest :
  transcript ds ended = (l ++ Raises e :: rest)%list -> ended = Err e /\ l = (Delta <$> filterb str_truthy ds).
Proof.
  unfold transcript. generalize (filterb str_truthy ds) as fs. intros fs. revert l. induction fs as [|d fs IH]; intros l E; cbn in E.
  - destruct l as [|i l]; [destruct ended as [r|e']; [discriminate|by injection E as ->]|]. injection E as <- E.
    destruct l as [|i' l]; [discriminate|]. injection E as <- E. by destruct l.
  - destruct l as [|i l]; [discriminate|]. injection E as <- E. by destruct (IH l E) as [-> ->].
Qed.

(** C38: A stream says what the invocation said, in its order, and then stops.  However
    the invocation and its reader interleave: what the reader has received is a prefix
    of the non-empty deltas followed by the response; a reader that came to the end has
    received all the deltas and the response; one that got an exception has received
    all the deltas, and it is the exception of the invocation; and the caller's
    identity stays bound in the task until it is done and no longer. *)
Theorem stream_is_faithful ds ended ms :
  let s := run ms (start ds ended) in
  (exists rest, transcript ds ended = (received s ++ rest)%list) /\
  (consumer s = Finished -> exists r, ended = Ok r /\ received s = ((Delta <$> filterb str_truthy ds) ++ [Response r])%list) /\
  (forall e, consumer s = Threw e -> ended = Err e /\ received s = (Delta <$> filterb str_truthy ds)) /\
  (bound s = false <-> producer s = Done).
Proof.
  intros s. destruct (faithful_run ms _ _ (faithful_start ds ended)) as [Ho Hy Hb]. fold s in Ho, Hy, Hb. split_and!.
  - destruct (consumer s); [by exists (queue s ++ to_put s)%list|done|destruct Ho as [rest ->]; by eexists..].
  - intros E. rewrite E in Ho. destruct Ho as [rest Ho]. by eapply transcript_prefix.
  - intros e E. rewrite E in Ho. destruct Ho as [rest Ho]. by eapply transcript_raises.
  - rewrite Hb. by destruct (producer s).
Qed.

(** The task ends: as many of its steps as it has deltas, and two more, and it is done
    whatever the reader does. *)
Definition left_to_do (s : state) : nat := match producer s with Emitting ds _ => length ds + 2 | Unwinding => 1 | Done => 0 end.
Lemma produce_progress s : left_to_do (produce s) <= pred (left_to_do s).
Proof.
  unfold produce, left_to_do. destruct (producer s) as [[|d ds] ended| |] eqn:E; [..|by rewrite E]; destruct (consumer s); cbn; lia.
Qed.
Lemma other_progress m s : m <> Produces -> left_to_do (step m s) = left_to_do s.
Proof.
  destruct m; [done| |]; intros _; unfold left_to_do; cbn; unfold consume, leave; destruct (consumer s); try done.
  destruct (queue s) as [|[]]; done.
Qed.

Definition productions (ms : list move) : nat := length (filterb (fun m => match m with Produces => true | _ => false end) ms).

(** C39: A streamed invocation ends.  After as many steps of its task as it has deltas,
    and two more, the task is done, whatever its reader did; and a reader that keeps
    reading comes to the end or to the exception of the invocation. *)
Theorem stream_ends ds ended ms :
  length ds + 2 <= productions ms ->
  let s := run ms (start ds ended) in
  producer s = Done /\
  (consumer s = Reading -> exists n, consumer (run (replicate n Consumes) s) = match ended with Ok _ => Finished | Err e => Threw e end).
Proof.
  intros Hn s. assert (Hprog : forall ms s, left_to_do (run ms s) <= left_to_do s - productions ms).
  { clear. intros ms. induction ms as [|m ms IH]; intros s; [cbn; lia|]. change (run (m :: ms) s) with (run ms (step m s)). specialize (IH (step m s)).
    destruct m; [pose proof (produce_progress s) as Hp; cbn in *; unfold productions in *; cbn; lia| |];
      rewrite (other_progress _ s) in IH by done; exact IH. }
  assert (Hd : producer s = Done).
  { specialize (Hprog ms (start ds ended)). fold s in Hprog. unfold left_to_do in Hprog at 2. cbn in Hprog.
    unfold left_to_do in Hprog. destruct (producer s) as [|?|]; [lia..|done]. }
  split; [done|]. intros Hc. destruct (faithful_run ms _ _ (faithful_start ds ended)) as [Ho Hy Hb]. fold s in Ho, Hy, Hb.
  rewrite Hc in Ho. unfold to_put in Ho. rewrite Hd, app_nil_r in Ho.
  assert (Hq : forall q l s', queue s' = q -> consumer s' = Reading -> received s' = l -> Forall (fun i => yields i = true) l -> (l ++ q)%list = transcript ds ended ->
    exists n, consumer (run (replicate n Consumes) s') = match ended with Ok _ => Finished | Err e => Threw e end).
  { clear. intros q. induction q as [|i q IH]; intros l s' Hq Hc Hl Hy E.
    - rewrite app_nil_r in E. rewrite E in Hy. unfold transcript in Hy. apply Forall_app in Hy as [_ Hy].
      apply Forall_cons in Hy as [_ Hy]. by apply Forall_cons in Hy as [? _].
    - destruct (yields i) eqn:Hi.
      + destruct (IH (l ++ [i])%list (consume s')) as [n Hn]; try (unfold consume; rewrite Hc, Hq; destruct i; cbn; by rewrite ?Hl).
        * rewrite Forall_app. split; [done|by repeat constructor].
        * by rewrite <-app_assoc.
        * exists (S n). exact Hn.
      + exists 1. cbn. unfold consume. rewrite Hc, Hq. destruct i as [| |e|]; try done; cbn.
        * by destruct (transcript_raises ds ended l e q (eq_sym E)) as [-> _].
        * by destruct (transcript_prefix ds ended l q (eq_sym E) Hy) as (r & -> & _). }
  by apply (Hq (queue s) (received s)).
Qed.

Lemma stream_ends_witness :
  let s := run [Produces; Consumes; Produces; Leaves; Produces; Produces] (start ["a"; ""] (Err (raise ValueError "x"))) in
  producer s = Done.
Proof. apply (stream_ends ["a"; ""] (Err (raise ValueError "x")) [Produces; Consumes; Produces; Leaves; Produces; Produces]). cbn. lia. Defined.

(** A reader that leaves early cancels the invocation; what it puts then is read by
    nobody. *)
Example early_leave_cancels :
  let s := run [Produces; Consumes; Leaves; Produces; Produces] (start ["a"; "b"; "c"] (Err (raise ValueError "x"))) in
  (received s, queue s, producer s, bound s) = ([Delta "a"], [Raises cancelled; End_], Done, false).
Proof. reflexivity. Qed.

(** ** The model provider behind ADK *)

Section provider.
Context (fresh : nat -> string).

Record ModelAnswer : Type := { content : string; tool_requests : list Tools.tool_request; finish_reason : string }.
Record ModelStreamEvent : Type := { model_delta : string; model_response : option ModelAnswer }.

Record LlmResponse : Type := { parts : list AdkBridge.part; llm_finish_reason : string; partial : bool }.

(** [_llm_response] *)
Definition llm_response (delta : string) (r : option ModelAnswer) (partial : bool) : LlmResponse :=
  {| parts := AdkBridge.llm_parts fresh delta ((fun r => (content r, tool_requests r)) <$> r);
     llm_finish_reason := from_option finish_reason "stop" r; partial := partial |}.

(** [generate_content_async]: what it yields, and how it ends. *)
Definition last_response (events : list ModelStreamEvent) : option ModelAnswer :=
  foldl (fun last e => match model_response e with Some r => Some r | None => last end) None events.

Definition generate_streamed (events : list ModelStreamEvent) (ended : option exn) : list LlmResponse * result exn unit :=
  let deltas := (fun d => llm_response d None true) <$> filterb str_truthy (model_delta <$> events) in
  match ended with
  | Some e => (deltas, Err e)
  | None =>
      match last_response events with
      | None => (deltas, Err (raise RuntimeError "model provider stream ended without a final response"))
      | Some r => ((deltas ++ [llm_response "" (Some r) false])%list, Ok tt)
      end
  end.

Definition generate_content_async (stream streaming : bool) (events : list ModelStreamEvent * option exn) (generated : result exn ModelAnswer)
  : list LlmResponse * result exn unit :=
  if stream && streaming then generate_streamed events.1 events.2
  else match generated with
       | Ok r => ([llm_response "" (Some r) false], Ok tt)
       | Err e => ([], Err e)
       end.

Lemma part_of_text d : str_truthy d = true -> AdkBridge.llm_parts fresh d None = [{| AdkBridge.part_text := Some d; AdkBridge.part_call := None; AdkBridge.part_response := None |}].
Proof. intros Hd. unfold AdkBridge.llm_parts. by rewrite Hd. Qed.

(** A call that succeeds yields exactly one response that is not partial, as the last,
    and it is the provider's answer; the partial ones are the deltas in order. *)
Lemma generated_once stream streaming events generated l :
  generate_content_async stream streaming events generated = (l, Ok tt) ->
  exists l' r, l = (l' ++ [llm_response "" (Some r) false])%list /\ Forall (fun x => partial x = true) l' /\
    if stream && streaming then last_response events.1 = Some r /\ l' = (fun d => llm_response d None true) <$> filterb str_truthy (model_delta <$> events.1)
    else generated = Ok r /\ l' = [].
Proof.
  unfold generate_content_async, generate_streamed. destruct (stream && streaming).
  - destruct events.2; [done|]. destruct (last_response _) as [r|]; [|done]. intros [= <-]. eexists _, r. split_and!; try done.
    apply Forall_fmap, Forall_forall. by intros.
  - destruct generated as [r|]; [|done]. intros [= <-]. by exists [], r.
Qed.
End provider.

End Streaming.
