(* ===== verification/HttpApp.v ===== *)
(** * The HTTP application around the agent

    [create_app] of [micro_agent/interoperability/http_api.py] outside the invoke route:
    the CORS allowlist, the A2A stores it opens and closes, what it mounts and the
    capabilities it reports.  Parameters are [urlsplit], the constructors of the stores
    (they may raise) and whether the A2A SDK is installed. *)

From S2P Require Import Prelude Json Urls Resilience Definitions A2aServer Startup.
Import Resilience.
Local Open Scope string_scope.

Module HttpApp.

(** ** The CORS allowlist *)

Section cors.
Context (urlsplit : string -> option Urls.url).

Definition is_origin (o : string) : bool :=
  match urlsplit o with
  | None => false
  | Some u => memb (Urls.scheme u) ["http"; "https"] && str_truthy (Urls.netloc u) &&
              negb (str_truthy (Urls.path u)) && negb (str_truthy (Urls.url_query u)) && negb (str_truthy (Urls.fragment u))
  end.

(** [_validate_cors_origins] *)
Definition validate_cors_origins (origins : option (list string)) : result exn (list string) :=
  match origins with
  | None | Some [] => Ok []
  | Some l =>
      let l := py_strip <$> l in
      if existsb (fun o => negb (str_truthy o)) l then Err (raise ValueError "cors_origins must not contain empty origins")
      else if memb "*" l && Nat.ltb 1 (length l) then Err (raise ValueError "cors_origins cannot mix '*' with explicit origins")
      else if memb "*" l then Ok l
      else if forallb is_origin l then Ok l
      else Err (raise ValueError "cors_origins entries must be absolute http(s) origins without a path")
  end.

(** What is accepted: nothing, everything, or absolute origins. *)
Lemma accepted_origins origins l :
  validate_cors_origins origins = Ok l ->
  (origins = None \/ origins = Some []) /\ l = [] \/ l = ["*"] \/ (l <> [] /\ (forall o, o ∈ l -> is_origin o = true)).
Proof.
  unfold validate_cors_origins. destruct origins as [[|o os]|]; [intros [= <-]; auto| |intros [= <-]; auto].
  set (s := py_strip <$> (o :: os)). destruct (existsb _ s); [done|]. destruct (memb "*" s) eqn:Hm; cbn [andb].
  - destruct (Nat.ltb_spec 1 (length s)) as [|Hl]; [done|]. intros [= <-]. right. left. apply memb_true in Hm.
    destruct s as [|x [|y s]]; [by apply elem_of_nil in Hm| |cbn in Hl; lia]. by apply list_elem_of_singleton in Hm as ->.
  - destruct (forallb is_origin s) eqn:Hf; [|done]. intros [= <-]. right. right. split; [done|].
    intros x Hx. apply forallb_forall with (x := x) in Hf; [done|]. by apply list_elem_of_In.
Qed.
End cors.

(** ** A2A *)

Inductive resource : Type :=
  | RedisTaskStore (endpoint : string) | RedisPushStore (endpoint : string)
  | SqliteTaskStore (path : string) | SqlitePushStore (path : string)
  | PushSender (reads : resource)
  | InjectedStore | InjectedPushStore | InjectedSender | InMemoryTaskStore.
#[export] Instance resource_eq_dec : EqDecision resource.
Proof. solve_decision. Defined.

Record a2a_resources : Type := {
  task_store : option resource;
  push_store : option resource;
  push_sender : option resource;
  owned : list resource            (** what the application closes *)
}.

Section app.
(** The constructors: the exception they raise, if any. *)
Context (opens : resource -> option exn).
Context (closes : resource -> option exn).

Definition open_resource (r : resource) : result exn resource := match opens r with Some e => Err e | None => Ok r end.

(** A store is opened when none was injected, and then it is owned. *)
Definition open_missing (injected : option resource) (r : resource) (own : list resource) : result exn (option resource * list resource) :=
  match injected with
  | Some i => Ok (Some i, own)
  | None => r ← open_resource r; Ok (Some r, (own ++ [r])%list)
  end.

Definition is_redis (p : string) : bool := String.prefix "redis://" p || String.prefix "rediss://" p.

(** The stores of [create_app] *)
Definition a2a_stores (enabled : bool) (store_path : option string) (tasks push sender : option resource) : result exn a2a_resources :=
  stores ← match store_path with
           | None => Ok (tasks, push, [])
           | Some p =>
               t ← open_missing tasks (if is_redis p then RedisTaskStore p else SqliteTaskStore p) [];
               c ← open_missing push (if is_redis p then RedisPushStore p else SqlitePushStore p) t.2;
               Ok (t.1, c.1, c.2)
           end;
  let '(tasks, push, own) := stores in
  match enabled, push, sender with
  | true, Some p, None =>
      s ← open_resource (PushSender p);
      Ok {| task_store := tasks; push_store := push; push_sender := Some s; owned := (own ++ [s])%list |}
  | _, _, _ => Ok {| task_store := tasks; push_store := push; push_sender := sender; owned := own |}
  end.

(** [close_owned_a2a_resources]: in reverse; an exception stops it. *)
Fixpoint close_in_order (l : list resource) : list resource * option exn :=
  match l with
  | [] => ([], None)
  | r :: l => match closes r with
              | Some e => ([r], Some e)
              | None => let '(shut, e) := close_in_order l in (r :: shut, e)
              end
  end.
Definition close_owned (a : a2a_resources) : list resource * option exn := close_in_order (rev (owned a)).

(** *** What is mounted *)

Abbreviation mounted := (A2aServer.mounted (Store := resource) (Push := resource) (Sender := resource)) (only parsing).

(** [attach_a2a], where a missing SDK only matters to an agent that enables A2A *)
Definition mount_a2a (sdk : bool) (d : Definitions.MicroAgentDefinition) (base_url : option string) (scheme : option (string * string))
    (streaming : bool) (a : a2a_resources) : result exn (option mounted) :=
  let enabled := Definitions.a2a_enabled (Definitions.a2a (Definitions.spec d)) in
  if negb sdk && negb enabled then Ok None
  else
    m ← A2aServer.attach_a2a InMemoryTaskStore PushSender sdk d base_url scheme enabled streaming (task_store a) (push_store a) (push_sender a);
    Ok (Some m).

Record application : Type := { cors : list string; resources : a2a_resources; a2a : option mounted }.

Definition assemble (urlsplit : string -> option Urls.url) (max_request_bytes : Z) (origins : option (list string)) (require_identity : bool)
    (has_authenticator : bool) (sdk : bool) (d : Definitions.MicroAgentDefinition) (base_url : option string) (scheme : option (string * string))
    (streaming : bool) (store_path : option string) (tasks push sender : option resource) : result exn application :=
  if (max_request_bytes <? 1)%Z then Err (raise ValueError "max_request_bytes must be greater than zero")
  else
    origins ← validate_cors_origins urlsplit origins;
    if require_identity && negb has_authenticator then Err (raise RuntimeError "definition requires caller identity but no authenticator is configured")
    else
      a ← a2a_stores (Definitions.a2a_enabled (Definitions.a2a (Definitions.spec d))) store_path tasks push sender;
      m ← mount_a2a sdk d base_url (if has_authenticator then scheme else None) streaming a;
      Ok {| cors := origins; resources := a; a2a := m |}.

(** ** What an application serves *)

Definition given (r : resource) : bool := match r with InjectedStore | InjectedPushStore | InjectedSender => true | _ => false end.
Definition all_given (o : option resource) : Prop := forall r, o = Some r -> given r = true.

Definition is_task_store (r : resource) : bool := match r with RedisTaskStore _ | SqliteTaskStore _ => true | _ => false end.
Definition is_push_store (r : resource) : bool := match r with RedisPushStore _ | SqlitePushStore _ => true | _ => false end.
Definition is_sender (r : resource) : bool := match r with PushSender _ => true | _ => false end.

(** A resource in use is the one that was given, or one of its kind that was opened
    and is owned. *)
Definition in_use (kind : resource -> bool) (injected r : option resource) (own : list resource) : Prop :=
  match injected, r with
  | Some i, Some x => x = i /\ own = []
  | None, Some x => own = [x] /\ kind x = true
  | None, None => own = []
  | Some _, None => False
  end.

Lemma in_use_given kind injected : in_use kind injected injected [].
Proof. by destruct injected. Qed.

Lemma open_missing_in_use kind injected x own r own' :
  kind x = true -> open_missing injected x own = Ok (r, own') -> exists new, own' = (own ++ new)%list /\ in_use kind injected r new.
Proof.
  intros Hx. unfold open_missing, open_resource. destruct injected as [i|].
  - intros [= <- <-]. exists []. by rewrite app_nil_r.
  - destruct (opens x); [done|]. intros [= <- <-]. by exists [x].
Qed.

(** The three in use, and what is owned of each. *)
Lemma a2a_stores_in_use enabled store_path tasks push sender a :
  a2a_stores enabled store_path tasks push sender = Ok a ->
  exists o1 o2 o3, owned a = (o1 ++ o2 ++ o3)%list /\ in_use is_task_store tasks (task_store a) o1 /\
    in_use is_push_store push (push_store a) o2 /\ in_use is_sender sender (push_sender a) o3.
Proof.
  unfold a2a_stores. intros Hrun. apply result_bind_ok in Hrun as ([[t c] own] & Hstores & Hrun).
  assert (Hown : exists o1 o2, own = (o1 ++ o2)%list /\ in_use is_task_store tasks t o1 /\ in_use is_push_store push c o2).
  { destruct store_path as [p|]; [|injection Hstores as <- <- <-; exists [], []; by repeat split; apply in_use_given].
    apply result_bind_ok in Hstores as ([t1 own1] & H1 & Hstores). apply result_bind_ok in Hstores as ([c1 own2] & H2 & Hstores).
    injection Hstores as <- <- <-. apply (open_missing_in_use is_task_store) in H1 as (n1 & -> & Hu1); [|by destruct (is_redis p)].
    apply (open_missing_in_use is_push_store) in H2 as (n2 & -> & Hu2); [|by destruct (is_redis p)]. by exists n1, n2. }
  destruct Hown as (o1 & o2 & -> & Hu1 & Hu2).
  assert (Hgiven : forall a', a' = {| task_store := t; push_store := c; push_sender := sender; owned := (o1 ++ o2)%list |} ->
    exists o1 o2 o3, owned a' = (o1 ++ o2 ++ o3)%list /\ in_use is_task_store tasks (task_store a') o1 /\
    in_use is_push_store push (push_store a') o2 /\ in_use is_sender sender (push_sender a') o3).
  { intros a' ->. exists o1, o2, []. rewrite app_nil_r. cbn. split_and!; try done. apply in_use_given. }
  destruct enabled, c as [p|], sender as [s|]; try (injection Hrun as <-; by apply Hgiven).
  apply result_bind_ok in Hrun as (s & Ho & Hrun). injection Hrun as <-. unfold open_resource in Ho. destruct (opens _); [done|].
  injection Ho as <-. exists o1, o2, [PushSender p]. cbn. by rewrite <-app_assoc.
Qed.

(** Closing reaches everything unless one raises. *)
Lemma close_in_order_all l : (forall r, r ∈ l -> closes r = None) -> close_in_order l = (l, None).
Proof. induction l as [|r l IH]; intros Hl; cbn; [done|]. rewrite Hl by left. rewrite IH; [done|]. intros. apply Hl. by right. Qed.

Lemma kinds_apart r :
  (is_task_store r = true -> is_push_store r = false /\ is_sender r = false /\ given r = false) /\
  (is_push_store r = true -> is_sender r = false /\ given r = false) /\ (is_sender r = true -> given r = false).
Proof. by destruct r. Qed.

Lemma in_use_owned kind injected r own x :
  (forall y, kind y = true -> given y = false) -> all_given injected -> in_use kind injected r own ->
  (x ∈ own <-> given x = false /\ r = Some x) /\ (x ∈ own -> kind x = true) /\ NoDup own.
Proof.
  intros Hk Hg. unfold in_use. destruct injected as [i|], r as [y|]; [| done | |].
  - intros [-> ->]. specialize (Hg i eq_refl). split_and!; [|by intros ?%elem_of_nil|constructor].
    split; [by intros ?%elem_of_nil|]. intros [? [= ->]]. congruence.
  - intros [-> Hy]. split_and!; [|by intros ->%list_elem_of_singleton|apply NoDup_singleton].
    rewrite list_elem_of_singleton. split; [intros ->; by auto|by intros [_ [= ->]]].
  - intros ->. split_and!; [|by intros ?%elem_of_nil|constructor]. split; [by intros ?%elem_of_nil|by intros [_ ?]].
Qed.

(** The application closes exactly what it opened.  Of the A2A task store, push
    store and sender in use, those it opened itself are owned, once each, and those it
    was given are not; closing goes from the last opened to the first and reaches all
    of them unless one raises. *)
Theorem owned_resources_exact enabled store_path tasks push sender a :
  all_given tasks -> all_given push -> all_given sender ->
  a2a_stores enabled store_path tasks push sender = Ok a ->
  NoDup (owned a) /\
  (forall r, r ∈ owned a <-> given r = false /\ (task_store a = Some r \/ push_store a = Some r \/ push_sender a = Some r)) /\
  ((forall r, r ∈ owned a -> closes r = None) -> close_owned a = (rev (owned a), None)).
Proof.
  intros Ht Hp Hs (o1 & o2 & o3 & Eo & H1 & H2 & H3)%a2a_stores_in_use.
  assert (K1 : forall y, is_task_store y = true -> given y = false) by (intros y; apply kinds_apart).
  assert (K2 : forall y, is_push_store y = true -> given y = false) by (intros y; apply kinds_apart).
  assert (K3 : forall y, is_sender y = true -> given y = false) by (intros y; apply kinds_apart).
  pose proof (fun x => in_use_owned _ _ _ _ x K1 Ht H1) as U1. pose proof (fun x => in_use_owned _ _ _ _ x K2 Hp H2) as U2.
  pose proof (fun x => in_use_owned _ _ _ _ x K3 Hs H3) as U3. split_and!.
  - rewrite Eo. apply NoDup_app. split; [apply (U1 InMemoryTaskStore)|]. split.
    + intros x Hx [Hy|Hy]%elem_of_app; apply U1 in Hx; apply kinds_apart in Hx; [apply U2 in Hy|apply U3 in Hy]; destruct Hx as (? & ? & ?); congruence.
    + apply NoDup_app. split; [apply (U2 InMemoryTaskStore)|]. split; [|apply (U3 InMemoryTaskStore)].
      intros x Hx Hy. apply U2 in Hx. apply kinds_apart in Hx as [? ?]. apply U3 in Hy. congruence.
  - intros r. rewrite Eo, !elem_of_app. destruct (U1 r) as (-> & _), (U2 r) as (-> & _), (U3 r) as (-> & _). tauto.
  - intros Hc. unfold close_owned. apply close_in_order_all. intros r Hr. apply Hc, list_elem_of_In, List.in_rev. by apply list_elem_of_In.
Qed.

(** What an application that could be assembled serves. *)
Lemma assembled urlsplit max origins require auth sdk d base scheme streaming path tasks push sender a :
  assemble urlsplit max origins require auth sdk d base scheme streaming path tasks push sender = Ok a ->
  (1 <= max)%Z /\ (require = true -> auth = true) /\ validate_cors_origins urlsplit origins = Ok (cors a) /\
  (Definitions.a2a_enabled (Definitions.a2a (Definitions.spec d)) = true <-> exists m, a2a a = Some m /\ is_Some (A2aServer.rpc m)).
Proof.
  unfold assemble, mount_a2a, A2aServer.attach_a2a. destruct (Z.ltb_spec max 1) as [|Hmax]; [done|]. intros Hrun.
  apply result_bind_ok in Hrun as (l & Hl & Hrun). destruct (require && negb auth) eqn:Hr; [done|].
  apply result_bind_ok in Hrun as (r & Hr' & Hrun). apply result_bind_ok in Hrun as (m & Hm & Hrun). injection Hrun as <-. cbn.
  split_and!; [done|by destruct require, auth|done|].
  destruct (Definitions.a2a_enabled _), sdk; cbn in Hm; try discriminate Hm.
  - apply result_bind_ok in Hm as (m' & Hm' & Hm). injection Hm as <-. apply result_bind_ok in Hm' as (c & Hc & Hm'). injection Hm' as <-.
    split; [|done]. intros _. eexists. split; [done|]. by eexists.
  - apply result_bind_ok in Hm as (m' & Hm' & Hm). injection Hm as <-. apply result_bind_ok in Hm' as (c & Hc & Hm'). injection Hm' as <-.
    split; [done|]. by intros (? & [= <-] & ? & ?).
  - injection Hm as <-. split; [done|]. by intros (? & ? & ?).
Qed.
End app.

(** ** Capabilities *)

(** [GET /v1/capabilities] *)
Definition capabilities_reply (name version : string) (d : Definitions.MicroAgentDefinition) (c : Startup.RuntimeCapabilities) : json :=
  JObj [("agent_name", JStr name); ("agent_version", JStr version);
        ("skills", JList ((fun s => JObj [("id", JStr (Definitions.skill_id s)); ("name", JStr (Definitions.skill_name s));
                                          ("description", match Definitions.skill_description s with Some t => JStr t | None => JNull end)])
                            <$> Definitions.skills (Definitions.dependencies (Definitions.spec d))));
        ("capabilities", JObj ((fun e => (e.1, JBool e.2)) <$> Startup.as_dict c))].

(** ** Concrete runs *)

Lemma owned_resources_exact_witness :
  close_owned (fun _ => None) {| task_store := Some (SqliteTaskStore "a2a.db"); push_store := Some InjectedPushStore;
     push_sender := Some (PushSender InjectedPushStore); owned := [SqliteTaskStore "a2a.db"; PushSender InjectedPushStore] |} =
  ([PushSender InjectedPushStore; SqliteTaskStore "a2a.db"], None).
Proof.
  refine (proj2 (proj2 (owned_resources_exact (fun _ => None) (fun _ => None) true (Some "a2a.db") None (Some InjectedPushStore) None _ _ _ _ _)) _).
  - done.
  - by intros r [= <-].
  - done.
  - reflexivity.
  - done.
Defined.

End HttpApp.
