(* ===== verification/Clients.v ===== *)
(** * The clients the program opens

    The constructors of what talks HTTP or Redis: their arguments' checks, in order,
    and the client each opens when none is given: model catalog ([models/catalog.py]),
    policy store ([security/policy.py]), token exchange ([security/delegation.py]),
    Vault ([security/credentials.py]), knowledge backend ([knowledge/knowledge.py]),
    push callbacks ([interoperability/a2a_store.py]), Redis providers
    ([session/redis.py], [memory/redis.py]) and MCP ([mcp/sdk_client.py]).  Of httpx
    the model has the options a client is made with, that its hooks run on every
    request it sends, and that it follows redirections only if told to; what a
    redirection makes of a request is a parameter. *)

From S2P Require Import Prelude Json Urls Definitions Providers Redis RedisOps Mcp Config Catalog Authentication Credentials Bootstrap.
Import Urls Redis.
Local Open Scope string_scope.

Module Clients.

(** ** HTTP clients *)

Record request : Type := {
  to_url : string;
  headers : list (string * string);
  rpc_id : option Z                       (** the id of the JSON-RPC message in the body *)
}.

Record http_client : Type := {
  client_timeout : option Q;              (** [None]: httpx's own *)
  follow_redirects : bool;
  trust_env : bool;                       (** proxies named by the environment *)
  verify : bool;
  client_headers : list (string * string);
  request_hooks : list (request -> request)
}.

(** What a client sends for one request, [redirected] being what the answer to a
    request redirects to, and [hops] the redirections it follows. *)
Fixpoint sent (c : http_client) (redirected : request -> option request) (hops : nat) (r : request) : list request :=
  let r := foldl (fun r h => h r) r (request_hooks c) in
  r :: match hops with
       | O => []
       | S hops => if follow_redirects c then match redirected r with Some r' => sent c redirected hops r' | None => [] end else []
       end.

Lemma sent_directly c redirected hops r :
  follow_redirects c = false -> sent c redirected hops r = [foldl (fun r h => h r) r (request_hooks c)].
Proof. intros H. destruct hops; cbn; [done|]. by rewrite H. Qed.

(** An argument's check. *)
Definition require (b : bool) (what : string) : result string unit := if b then Ok tt else Err what.

Lemma require_ok b what u : require b what = Ok u <-> b = true.
Proof. unfold require. destruct u, b; done. Qed.

Definition bearer (token : option string) : list (string * string) :=
  if opt_truthy token then [("Authorization", "Bearer " ++ default "" token)] else [].
Definition json_headers (token : option string) : list (string * string) :=
  [("Accept", "application/json"); ("Content-Type", "application/json")] ++ bearer token.

(** ** Services asked over HTTP *)

Section services.
Context (urlsplit : string -> option url) (is_loopback : string -> bool).

(** What such a constructor leaves behind; [owned] clients are closed with it. *)
Record service : Type := { service_endpoint : string; owned : bool; service_headers : list (string * string); service_client : http_client }.

(** The check that policy store, catalog and exchange share, but for the name and the
    hosts that may be reached in clear. *)
Definition check_endpoint (name clear : string) (local : url -> bool) (endpoint : string) : result string unit :=
  match urlsplit endpoint with
  | None => Err "urlsplit"
  | Some u =>
      _ ← require (plain_endpoint u) (name ++ " must be an absolute http(s) URL without credentials, query, or fragment");
      require (negb (String.eqb (scheme u) "http") || local u) (name ++ " must use HTTPS " ++ clear)
  end.

Definition loopback_host (u : url) : bool := memb (opt_or (hostname u) "") ["localhost"; "127.0.0.1"; "::1"].
Definition insecure_local_host (u : url) : bool := memb (py_lower (opt_or (hostname u) "")) ["localhost"; "127.0.0.1"; "0.0.0.0"; "::1"].

Lemma check_endpoint_ok name clear local endpoint v :
  check_endpoint name clear local endpoint = Ok v ->
  exists u, urlsplit endpoint = Some u /\ plain_endpoint u = true /\ (scheme u = "http" -> local u = true).
Proof.
  unfold check_endpoint. destruct (urlsplit endpoint) as [u|]; [|done]. unfold require.
  destruct (plain_endpoint u) eqn:Ep; [|done]. cbn. destruct (negb _ || _) eqn:Es; [|done]. intros _. exists u. split_and!; [done..|].
  intros Hs. rewrite Hs in Es. exact Es.
Qed.

(** The checks of the bootstrap are these. *)
Lemma policy_store_check endpoint :
  is_ok (check_endpoint "policy store endpoint" "unless it targets loopback" loopback_host endpoint) =
  Bootstrap.policy_store_endpoint_ok urlsplit endpoint.
Proof.
  unfold check_endpoint, Bootstrap.policy_store_endpoint_ok, require, loopback_host. destruct (urlsplit endpoint) as [u|]; [|done].
  destruct (plain_endpoint u); [|done]. cbn [andb mbind result_bind]. by destruct (negb _ || _).
Qed.
Lemma catalog_check endpoint :
  is_ok (check_endpoint "model catalog endpoint" "unless it targets loopback" loopback_host endpoint) = Catalog.endpoint_ok urlsplit endpoint.
Proof.
  unfold check_endpoint, Catalog.endpoint_ok, require, loopback_host. destruct (urlsplit endpoint) as [u|]; [|done].
  destruct (plain_endpoint u); [|done]. cbn [andb mbind result_bind]. by destruct (negb _ || _).
Qed.
Lemma exchange_check endpoint :
  is_ok (check_endpoint "token exchange endpoint" "outside loopback" insecure_local_host endpoint) = Authentication.exchange_endpoint_ok urlsplit endpoint.
Proof.
  unfold check_endpoint, Authentication.exchange_endpoint_ok, require, insecure_local_host. destruct (urlsplit endpoint) as [u|]; [|done].
  destruct (plain_endpoint u); [|done]. cbn [andb mbind result_bind]. by destruct (negb _ || _).
Qed.

(** A client of our own: no proxies of the environment, no redirections. *)
Definition own_client (timeout : option Q) (hs : list (string * string)) : http_client :=
  {| client_timeout := timeout; follow_redirects := false; trust_env := false; verify := true; client_headers := hs; request_hooks := [] |}.

Definition open_service (endpoint : string) (hs own : list (string * string)) (timeout : option Q) (given : option http_client) : service :=
  {| service_endpoint := endpoint; owned := bool_decide (given = None); service_headers := hs; service_client := default (own_client timeout own) given |}.

(** [HttpModelCatalog] *)
Definition new_model_catalog (endpoint : string) (token : option string) (timeout : Q) (given : option http_client) : result string service :=
  _ ← check_endpoint "model catalog endpoint" "unless it targets loopback" loopback_host endpoint;
  _ ← require (0 <? timeout)%clock "model catalog timeout must be greater than zero";
  Ok (open_service endpoint (json_headers token) (json_headers token) (Some timeout) given).

(** [HttpPolicyResolver] *)
Definition new_policy_resolver (endpoint : string) (token : option string) (timeout : Q) (given : option http_client) : result string service :=
  _ ← check_endpoint "policy store endpoint" "unless it targets loopback" loopback_host endpoint;
  _ ← require (0 <? timeout)%clock "policy store timeout must be greater than zero";
  Ok (open_service endpoint (json_headers token) (json_headers token) (Some timeout) given).

(** [HttpTokenExchangeProvider] *)
Definition new_token_exchange (endpoint : string) (timeout : Q) (given : option http_client) : result string service :=
  _ ← check_endpoint "token exchange endpoint" "outside loopback" insecure_local_host endpoint;
  _ ← require (0 <? timeout)%clock "timeout_seconds must be greater than zero";
  Ok (open_service endpoint [] [] (Some timeout) given).

(** [VaultCredentialProvider]; the token goes with each request. *)
Definition new_vault (endpoint token : string) (timeout : Q) (given : option http_client) : result string service :=
  match Credentials.endpoint_error urlsplit is_loopback endpoint with
  | Some e => Err e
  | None =>
      _ ← require (str_truthy token) "Vault token must not be empty";
      _ ← require (0 <? timeout)%clock "Vault timeout must be positive";
      Ok (open_service (Providers.rstrip_slash endpoint) [("X-Vault-Token", token)] [] None given)
  end.

(** [HttpKnowledgeRetriever._validate_endpoint] *)
Definition knowledge_endpoint (endpoint : string) : result string unit :=
  match urlsplit endpoint with
  | None => Err "urlsplit"
  | Some u =>
      _ ← require (is_http (scheme u) && str_truthy (netloc u)) "knowledge backend endpoint must be an absolute http(s) URL";
      _ ← require (negb (opt_truthy (username u) || opt_truthy (password u) || str_truthy (url_query u) || str_truthy (fragment u)))
            "knowledge backend endpoint must not contain credentials, query, or fragment";
      let host := opt_or (hostname u) "" in
      require (negb (String.eqb (scheme u) "http") || String.eqb (py_lower host) "localhost" || is_loopback host)
        "knowledge backend endpoint must use HTTPS outside loopback"
  end.

(** [HttpKnowledgeRetriever] *)
Definition new_knowledge (endpoint : string) (token : option string) (timeout : Q) (given : option http_client) : result string service :=
  _ ← knowledge_endpoint endpoint;
  _ ← require (0 <? timeout)%clock "knowledge backend timeout must be positive";
  Ok (open_service (Providers.rstrip_slash endpoint ++ "/") (bearer token) [] (Some timeout) given).

(** [HttpKnowledgeRetriever.health_check], given the status of [health/ready], none
    where the request failed; it is not asked about the source. *)
Definition knowledge_healthy (status : option Z) : bool := match status with Some z => Z.eqb z 200 | None => false end.

(** [_json_object] of a body, none where it is not JSON. *)
Definition json_object (body : option json) : result string (list (string * json)) :=
  match body with
  | None => Err "semantic knowledge response was not valid JSON"
  | Some (JObj d) => Ok d
  | Some _ => Err "semantic knowledge response must be an object"
  end.

(** *** Tokens stay where they belong *)

(** An endpoint that is reached in clear on this host only, and whose text gives no
    credentials away. *)
Definition discreet (endpoint : string) : Prop :=
  exists u, urlsplit endpoint = Some u /\ is_http (scheme u) = true /\ opt_truthy (username u) = false /\ opt_truthy (password u) = false /\
            str_truthy (url_query u) = false /\ str_truthy (fragment u) = false /\
            (scheme u = "http" -> insecure_local_host u = true \/ is_loopback (opt_or (hostname u) "") = true).

Lemma plain_discreet endpoint u :
  urlsplit endpoint = Some u -> plain_endpoint u = true -> (scheme u = "http" -> insecure_local_host u = true) -> discreet endpoint.
Proof.
  intros Hu Hp Hs. exists u. unfold plain_endpoint in Hp. apply andb_prop in Hp as [Hp Hf]. apply andb_prop in Hp as [Hp Hq].
  apply andb_prop in Hp as [Hp Hpw]. apply andb_prop in Hp as [Hp Hun]. apply andb_prop in Hp as [Hh _].
  apply bool_decide_eq_true in Hpw as ->, Hun as ->. apply negb_true_iff in Hf, Hq. split_and!; try done. intros Hc. left. by apply Hs.
Qed.

Lemma loopback_insecure_local u : loopback_host u = true -> insecure_local_host u = true.
Proof.
  unfold loopback_host, insecure_local_host, memb. rewrite !bool_decide_eq_true. generalize (opt_or (hostname u) "").
  intros h. rewrite !elem_of_cons. intros [->|[->|[->|[]%elem_of_nil]]]; vm_compute; tauto.
Qed.

(** Which constructor was called, with what. *)
Inductive opening : Type :=
  | ModelCatalog (endpoint : string) (token : option string) (timeout : Q)
  | PolicyStore (endpoint : string) (token : option string) (timeout : Q)
  | TokenExchange (endpoint : string) (timeout : Q)
  | Vault (endpoint token : string) (timeout : Q)
  | Knowledge (endpoint : string) (token : option string) (timeout : Q).
Definition opening_endpoint (o : opening) : string :=
  match o with ModelCatalog e _ _ | PolicyStore e _ _ | TokenExchange e _ | Vault e _ _ | Knowledge e _ _ => e end.
Definition open (o : opening) (given : option http_client) : result string service :=
  match o with
  | ModelCatalog e t q => new_model_catalog e t q given
  | PolicyStore e t q => new_policy_resolver e t q given
  | TokenExchange e q => new_token_exchange e q given
  | Vault e t q => new_vault e t q given
  | Knowledge e t q => new_knowledge e t q given
  end.

Lemma open_discreet o given s : open o given = Ok s -> discreet (opening_endpoint o).
Proof.
  destruct o as [e t q|e t q|e q|e t q|e t q]; cbn [open opening_endpoint].
  1-3: unfold new_model_catalog, new_policy_resolver, new_token_exchange; destruct (check_endpoint _ _ _ _) as [v|] eqn:Ec; [|done];
    intros _; destruct (check_endpoint_ok _ _ _ _ _ Ec) as (u & Hu & Hp & Hl); apply (plain_discreet _ u Hu Hp);
    intros Hs; specialize (Hl Hs); try exact Hl; by apply loopback_insecure_local.
  - unfold new_vault, Credentials.endpoint_error, discreet. destruct (urlsplit e) as [u|]; [|done].
    destruct (is_http (scheme u) && _) eqn:Eh; [|done]. cbn [negb]. apply andb_prop in Eh as [Eh _].
    destruct (_ || _ || _ || _) eqn:Ec; [done|]. apply orb_false_iff in Ec as [Ec Ef]. apply orb_false_iff in Ec as [Ec Eq].
    apply orb_false_iff in Ec as [Eu Ep]. destruct (memb _ _); [|done]. cbn [negb].
    destruct (String.eqb (scheme u) "http" && _) eqn:El; [done|]. intros _. exists u. split_and!; try done.
    intros Hs. rewrite Hs in El. cbn [String.eqb] in El. apply negb_false_iff, orb_prop in El as [El|El]; [left|by right].
    apply String.eqb_eq in El. unfold insecure_local_host. by rewrite El.
  - unfold new_knowledge, knowledge_endpoint, require, discreet. destruct (urlsplit e) as [u|]; [|done].
    destruct (is_http (scheme u) && _) eqn:Eh; [|done]. apply andb_prop in Eh as [Eh _].
    destruct (_ || _ || _ || _) eqn:Ec; [done|]. apply orb_false_iff in Ec as [Ec Ef]. apply orb_false_iff in Ec as [Ec Eq].
    apply orb_false_iff in Ec as [Eu Ep]. cbn [negb mbind result_bind].
    destruct (negb (String.eqb _ _) || _ || _) eqn:El; [|done]. intros _. exists u. split_and!; try done.
    intros Hs. rewrite Hs in El. cbn [String.eqb negb orb] in El. apply orb_prop in El as [El|El]; [left|by right].
    apply String.eqb_eq in El. unfold insecure_local_host. by rewrite El.
Qed.

(** C18: a service is reached where it was configured and nowhere else: an accepted
    constructor has an endpoint without credentials in it that is in clear on this
    host only, and a client that it opened itself sends a request once, to the URL it
    was given, with the headers it was given, whatever the answer redirects to and
    whatever proxies the environment names. *)
Theorem tokens_stay_with_their_service o s redirected hops r :
  open o None = Ok s ->
  discreet (opening_endpoint o) /\ owned s = true /\ trust_env (service_client s) = false /\ verify (service_client s) = true /\
  sent (service_client s) redirected hops r = [r].
Proof.
  intros H. split; [by eapply open_discreet|].
  assert (Hs : exists e hs own t, s = open_service e hs own t None).
  { destruct o; cbn [open] in H; unfold new_model_catalog, new_policy_resolver, new_token_exchange, new_vault, new_knowledge in H;
      repeat match type of H with
        | context [check_endpoint ?a ?b ?c ?d] => destruct (check_endpoint a b c d); [|done]
        | context [knowledge_endpoint ?a] => destruct (knowledge_endpoint a); [|done]
        | context [Credentials.endpoint_error ?a ?b ?c] => destruct (Credentials.endpoint_error a b c); [done|]
        | context [require ?a ?b] => destruct (require a b); [|done]
        end; cbn in H; injection H as <-; by do 4 eexists. }
  destruct Hs as (e & hs & own & t & ->). split_and!; try done. by rewrite sent_directly.
Qed.
End services.

(** ** The push sender *)

Record push_sender : Type := {
  max_attempts : Z;
  backoff_seconds : Q;
  allow_local_http : bool;
  allowed_hosts : option (list string);
  max_payload_bytes : Z;
  push_client : http_client;
  push_owned : bool
}.

(** [HttpxPushNotificationSender] *)
Definition new_push_sender (attempts : Z) (backoff : Q) (local_http : bool) (hosts : option (list string)) (max_bytes : Z)
    (given : option http_client) : result string push_sender :=
  _ ← require (1 <=? attempts)%Z "max_attempts must be greater than zero";
  _ ← require (0 <=? backoff)%clock "backoff_seconds must be non-negative";
  _ ← require (1024 <=? max_bytes)%Z "max_payload_bytes must be at least 1024";
  Ok {| max_attempts := attempts; backoff_seconds := backoff; allow_local_http := local_http;
        allowed_hosts := match hosts with Some ((_ :: _) as l) => Some (py_lower <$> l) | _ => None end; max_payload_bytes := max_bytes;
        push_client := default (own_client (Some 10%Q) []) given; push_owned := bool_decide (given = None) |}.

(** An empty set of allowed hosts allows every host. *)
Example empty_allow_list_allows_all :
  allowed_hosts <$> new_push_sender 3 (1 # 10) true (Some []) 1048576 None = Ok None.
Proof. reflexivity. Qed.

(** ** Redis *)

Inductive redis_client : Type :=
  | FromUrl (endpoint : string) (decode_responses : bool) (connect_timeout socket_timeout : Q)
  | Given.
Record redis_provider : Type := { key_prefix : string; index_key : string; redis : redis_client; closed : bool }.

Section redis.
Context (urlsplit : string -> option url) (redis_importable : bool).

Definition no_redis (what : string) : string :=
  "redis-py is required for Redis " ++ what ++ "; install the optional 'redis' extra ('micro-agents[redis]')".

(** [redis.from_url] when no client is given. *)
Definition connect (endpoint what : string) (timeout : Q) (given : bool) : result string redis_client :=
  if given then Ok Given
  else _ ← require redis_importable (no_redis what); Ok (FromUrl endpoint true timeout timeout).

(** [RedisSessionProvider], its time to live an integer. *)
Definition new_redis_sessions (endpoint : string) (ttl_seconds : option Z) (namespace : string) (timeout : Q) (given : bool)
    : result string redis_provider :=
  _ ← require (validate_endpoint urlsplit endpoint) RedisOps.invalid_endpoint;
  _ ← require (from_option (fun z => 0 <=? z)%Z true ttl_seconds) "ttl_seconds must be a non-negative integer";
  _ ← require (namespace_ok namespace) RedisOps.invalid_namespace;
  c ← connect endpoint "sessions" timeout given;
  Ok {| key_prefix := namespace ++ ":session:"; index_key := namespace ++ ":sessions"; redis := c; closed := false |}.

(** [RedisMemoryProvider] *)
Definition new_redis_memory (endpoint : string) (namespace : string) (timeout : Q) (given : bool) : result string redis_provider :=
  _ ← require (validate_endpoint urlsplit endpoint) RedisOps.invalid_endpoint;
  _ ← require (namespace_ok namespace) RedisOps.invalid_namespace;
  c ← connect endpoint "sessions" timeout given;
  Ok {| key_prefix := namespace ++ ":memory:"; index_key := namespace ++ ":memory:index"; redis := c; closed := false |}.

(** [aclose], given whether closing the client raises: what is closed, and whether it
    is asked to. *)
Definition aclose (p : redis_provider) (fails : bool) : bool * bool * redis_provider :=
  let done := {| key_prefix := key_prefix p; index_key := index_key p; redis := redis p; closed := true |} in
  match closed p, redis p with
  | false, FromUrl _ _ _ _ => if fails then (true, true, p) else (true, false, done)
  | _, _ => (false, false, done)
  end.

(** A client is closed by the one who opened it, and once. *)
Lemma aclose_once p fails asked raised p' :
  aclose p fails = (asked, raised, p') ->
  (asked = true <-> closed p = false /\ redis p <> Given) /\ (closed p' = negb raised) /\
  forall fails', raised = false -> (aclose p' fails').1 = (false, false).
Proof.
  unfold aclose. destruct p as [k i c b]. cbn. destruct b, c, fails; intros [= <- <- <-]; cbn; split_and!; try done; try (split; [done|naive_solver]).
Qed.
End redis.

(** ** MCP *)

(** [config_from_definition]: the credential is carried apart. *)
Definition config_from_definition (r : Definitions.McpServerRef) : Mcp.McpConfig :=
  {| Mcp.ref := Definitions.server_ref r; Mcp.transport := Definitions.transport r; Mcp.endpoint := Definitions.server_endpoint r;
     Mcp.command := Definitions.command r; Mcp.args := Definitions.args r; Mcp.credential_ref := Definitions.server_credential_ref r;
     Mcp.allowed_capabilities := Definitions.allowed_capabilities r; Mcp.timeout_seconds := Definitions.server_timeout_seconds r |}.

Record sdk_settings : Type := { connect_timeout : Q; disconnect_timeout : Q; call_timeout : Q; reconnect_attempts : Z; reconnect_backoff : Q }.

(** [SdkMcpClient.__init__], what is checked and kept. *)
Definition new_sdk_client (s : sdk_settings) : result string sdk_settings :=
  _ ← require (0 <=? reconnect_attempts s)%Z "reconnect_attempts must be non-negative";
  _ ← require (0 <=? reconnect_backoff s)%clock "reconnect_backoff_seconds must be non-negative";
  Ok s.

Definition given_seconds (t : option Z) (d : Q) : Q := match t with Some z => if Z.eqb z 0 then d else inject_Z z | None => d end.

(** The factory that [sdk_client_factory] makes. *)
Definition sdk_client_for (c : Mcp.McpConfig) : result string sdk_settings :=
  new_sdk_client
    {| connect_timeout := if bool_decide (Mcp.transport c = Some "stdio") then given_seconds (Mcp.timeout_seconds c) 10 else 10;
       disconnect_timeout := 10; call_timeout := given_seconds (Mcp.timeout_seconds c) 60; reconnect_attempts := 3; reconnect_backoff := 1 # 4 |}.

Lemma sdk_client_for_ok c : exists s, sdk_client_for c = Ok s /\ reconnect_attempts s = 3%Z.
Proof. eexists. split; [reflexivity|done]. Qed.

Section mcp.
(** Which credential and which trace context a request id has, and what telemetry adds. *)
Context (request_credentials : Z -> option string) (trace_contexts : Z -> option (list (string * string))).
Context (telemetry : option (list (string * string) -> list (string * string))).

(** [inject_context] *)
Definition inject_context (r : request) : request :=
  let credential := rpc_id r ≫= request_credentials in
  let hs := if opt_truthy credential then dset "Authorization" ("Bearer " ++ default "" credential) (headers r) else headers r in
  {| to_url := to_url r; rpc_id := rpc_id r;
     headers := match rpc_id r ≫= trace_contexts with
                | Some ((_ :: _) as carrier) => Config.update hs carrier
                | _ => match telemetry with Some inject => inject hs | None => hs end
                end |}.

(** [_httpx_client_factory] with [_direct_httpx_client_factory] *)
Definition mcp_client (hs : list (string * string)) (timeout : option Q) : http_client :=
  {| client_timeout := timeout; follow_redirects := true; trust_env := false; verify := true; client_headers := hs; request_hooks := [inject_context] |}.

Lemma update_other {A} k (d e : list (string * A)) : k ∉ dkeys e -> dget k (Config.update d e) = dget k d.
Proof.
  revert d. induction e as [|[k' v] e IH]; intros d Hk; [done|]. apply not_elem_of_cons in Hk as [Hne Hk].
  cbn [Config.update foldl]. change (foldl _ ?d e) with (Config.update d e). by rewrite IH, dget_dset_ne.
Qed.

(** Every request of the client, redirected ones too, carries the credential
    reserved for its id, unless its context names another. *)
Lemma mcp_sends_credential hs timeout redirected hops r id c :
  request_credentials id = Some c -> c <> "" -> telemetry = None ->
  (forall i cs, trace_contexts i = Some cs -> "Authorization" ∉ dkeys cs) ->
  Forall (fun r' => rpc_id r' = Some id -> dget "Authorization" (headers r') = Some ("Bearer " ++ c)) (sent (mcp_client hs timeout) redirected hops r).
Proof.
  intros Hc Hne Ht Htr.
  assert (Hi : forall r, rpc_id (inject_context r) = Some id -> dget "Authorization" (headers (inject_context r)) = Some ("Bearer " ++ c)).
  { intros r0 Hid. cbn [inject_context rpc_id] in Hid. unfold inject_context. cbn [headers]. rewrite Hid. cbn [mbind option_bind].
    rewrite Hc, Ht. assert (opt_truthy (Some c) = true) as -> by (by destruct c). cbn [default].
    pose proof (dget_dset_eq "Authorization" ("Bearer " ++ c) (headers r0)) as He.
    destruct (trace_contexts id) as [[|kv cs]|] eqn:Et; try exact He. exact (eq_trans (update_other _ _ _ (Htr _ _ Et)) He). }
  revert r. induction hops as [|hops IH]; intros r; cbn [sent mcp_client request_hooks foldl follow_redirects].
  - constructor; [apply Hi | constructor].
  - constructor; [apply Hi|]. destruct (redirected _) as [r'|]; [apply IH | constructor].
Qed.
End mcp.

(** ** On concrete input *)

Definition demo_split (s : string) : option url :=
  let at_ sch h := Some {| scheme := sch; netloc := h; path := ""; url_query := ""; fragment := ""; username := None; password := None; hostname := Some h |} in
  if String.eqb s "https://catalog.example" then at_ "https" "catalog.example"
  else if String.eqb s "http://catalog.example" then at_ "http" "catalog.example"
  else if String.eqb s "http://LOCALHOST" then at_ "http" "localhost" else None.

Example clear_text_refused :
  new_model_catalog demo_split "http://catalog.example" (Some "t") 10 None = Err "model catalog endpoint must use HTTPS unless it targets loopback".
Proof. reflexivity. Qed.

Example endpoint_checked_first :
  new_model_catalog demo_split "nonsense" None 0 None = Err "urlsplit" /\
  new_model_catalog demo_split "https://catalog.example" None 0 None = Err "model catalog timeout must be greater than zero".
Proof. split; reflexivity. Qed.

Lemma tokens_stay_with_their_service_witness :
  exists s, new_policy_resolver demo_split "https://catalog.example" (Some "secret") 10 None = Ok s /\
    sent (service_client s) (fun _ => Some {| to_url := "https://attacker.example"; headers := []; rpc_id := None |}) 20
      {| to_url := "https://catalog.example"; headers := service_headers s; rpc_id := None |} =
    [{| to_url := "https://catalog.example"; headers := json_headers (Some "secret"); rpc_id := None |}].
Proof.
  eexists. split; [reflexivity|].
  exact (proj2 (proj2 (proj2 (proj2 (tokens_stay_with_their_service demo_split (fun _ => false) (PolicyStore "https://catalog.example" (Some "secret") 10) _
    (fun _ => Some {| to_url := "https://attacker.example"; headers := []; rpc_id := None |}) 20
    {| to_url := "https://catalog.example"; headers := json_headers (Some "secret"); rpc_id := None |} eq_refl))))).
Defined.

(** The MCP client follows redirections, and its hook puts the delegated token on
    what it sends there, even if httpx had taken the header away. *)
Example redirect_receives_token :
  let hop (r : request) := if String.eqb (to_url r) "https://mcp.example"
    then Some {| to_url := "https://attacker.example"; headers := []; rpc_id := rpc_id r |} else None in
  sent (mcp_client (fun _ => Some "delegated") (fun _ => None) None [] None) hop 20 {| to_url := "https://mcp.example"; headers := []; rpc_id := Some 7%Z |} =
  [{| to_url := "https://mcp.example"; headers := [("Authorization", "Bearer delegated")]; rpc_id := Some 7%Z |};
   {| to_url := "https://attacker.example"; headers := [("Authorization", "Bearer delegated")]; rpc_id := Some 7%Z |}].
Proof. vm_compute. reflexivity. Qed.

Example redis_client_injected_is_kept :
  match new_redis_sessions (fun _ => Some {| scheme := "redis"; netloc := "h"; path := ""; url_query := ""; fragment := "";
          username := None; password := None; hostname := Some "h" |}) false "redis://h" (Some 0%Z) "ns" 5 true with
  | Ok p => (aclose p true).1 = (false, false)
  | Err _ => False
  end.
Proof. reflexivity. Qed.

End Clients.
