(* ===== verification/Benchmarks.v ===== *)
(** * Benchmarks and their budgets

    [benchmarks/]: the load that a benchmark puts on an operation, as tasks that pass a
    semaphore ([run_benchmark._execute_load]), the percentiles and the budget it is
    measured against, the capacity matrix of rising concurrency
    ([run_capacity_benchmark]), and the harness for deployed endpoints
    ([run_external_benchmark]).  A float is an exact rational; the rank
    [math.ceil(percentile * n)], which the rounding of a float takes part in, and how
    numbers are printed are parameters. *)

From Stdlib Require Import Ascii.
From S2P Require Import Prelude Json Urls Config.
Import Urls.
Local Open Scope string_scope.

Module Benchmarks.

(** ** Percentiles *)

Section percentile.
Context (rank : nat -> Z).

(** The index into the ordered values. *)
Definition nearest (n : nat) : nat := Z.to_nat (Z.max 0 (Z.min (Z.of_nat n - 1) (rank n - 1))).
Definition ordered (values : list Q) : list Q := sort_by qleb values.
(** [_percentile] *)
Definition percentile (values : list Q) : Q :=
  match values with [] => 0 | _ => nth (nearest (length values)) (ordered values) 0%Q end.

Lemma qleb_total x y : qleb x y = true \/ qleb y x = true.
Proof. unfold qleb. rewrite !Qle_bool_iff. destruct (Qlt_le_dec x y); [left; by apply Qlt_le_weak | by right]. Qed.
Lemma qleb_trans x y z : qleb x y = true -> qleb y z = true -> qleb x z = true.
Proof. unfold qleb. rewrite !Qle_bool_iff. apply Qle_trans. Qed.
Lemma qleb_refl x : qleb x x = true.
Proof. unfold qleb. rewrite Qle_bool_iff. apply Qle_refl. Qed.

(** An element of an ordered list divides it. *)
Lemma sorted_divides l k d :
  StronglySorted (fun x y => qleb x y = true) l -> k < length l ->
  Forall (fun x => qleb x (nth k l d) = true) (take (S k) l) /\ Forall (fun x => qleb (nth k l d) x = true) (drop k l).
Proof.
  intros H. revert k. induction H as [|x l Hl IH Hx]; intros k Hk; [cbn in Hk; lia|]. cbn in Hk. destruct k as [|k]; cbn [nth take drop].
  - split; constructor; try apply qleb_refl; [constructor | exact Hx].
  - destruct (IH k) as [H1 H2]; [lia|]. split; [|done]. constructor; [|done]. rewrite Forall_forall in Hx. apply Hx.
    apply list_elem_of_In, nth_In. lia.
Qed.

(** the percentile is one of the values, and the rank counts what lies on either
    side of it: with [k] its index, at least [k + 1] values are at most as large, and at
    least [n - k] at least as large. *)
Theorem percentile_divides values :
  values <> [] ->
  let p := percentile values in let k := nearest (length values) in
  p ∈ values /\ k < length values /\
  S k <= length (filterb (fun v => qleb v p) values) /\ length values - k <= length (filterb (fun v => qleb p v) values).
Proof.
  intros Hne. cbn zeta. assert (Hp : percentile values = nth (nearest (length values)) (ordered values) 0%Q) by (by destruct values).
  pose proof (sort_by_perm qleb values) as Hperm. change (sort_by qleb values) with (ordered values) in Hperm.
  assert (Hlen : length (ordered values) = length values) by (by rewrite Hperm).
  assert (Hk : nearest (length values) < length values) by (unfold nearest; destruct values; [done|cbn [length]; lia]).
  rewrite Hp. set (k := nearest _) in *. clearbody k.
  destruct (sorted_divides (ordered values) k 0%Q (sort_by_sorted qleb qleb_total qleb_trans values)) as [H1 H2]; [lia|].
  assert (Hin : nth k (ordered values) 0%Q ∈ ordered values) by (apply list_elem_of_In, nth_In; lia).
  set (p := nth k (ordered values) 0%Q) in *. clearbody p. split_and!; [by rewrite Hperm in Hin|done|..].
  - rewrite <-(Permutation_length (filterb_perm (fun v => qleb v p) _ _ Hperm)).
    pose proof (f_equal (fun l => length (filterb (fun v => qleb v p) l)) (take_drop (S k) (ordered values))) as He. cbn beta in He.
    rewrite List.filter_app, length_app, (filterb_all _ _ (proj1 (Forall_forall _ _) H1)), length_take in He. lia.
  - rewrite <-(Permutation_length (filterb_perm (fun v => qleb p v) _ _ Hperm)), <-Hlen.
    pose proof (f_equal (fun l => length (filterb (fun v => qleb p v) l)) (take_drop k (ordered values))) as He. cbn beta in He.
    rewrite List.filter_app, length_app, (filterb_all (fun v => qleb p v) _ (proj1 (Forall_forall _ _) H2)), length_drop in He. lia.
Qed.
End percentile.

(** ** The load *)

(** What an operation ends with: its answer, or an exception. *)
Inductive outcome : Type := Answered (ok : bool) | Raised.
Definition failed (o : outcome) : bool := match o with Answered ok => negb ok | Raised => true end.

Record load : Type := {
  started : list nat;                          (** through the semaphore, latest first *)
  running : list nat;
  finished : list (nat * outcome * Q)          (** with the latency *)
}.
Definition new_load : load := {| started := []; running := []; finished := [] |}.
Inductive happening : Type := Begin (i : nat) | Finish (i : nat) (o : outcome) (latency : Q).

Definition finished_ids (l : list (nat * outcome * Q)) : list nat := (fun x => x.1.1) <$> l.

Section load.
Context (iterations concurrency : nat).

(** [_execute_load]: the task [one(i)] passes the semaphore, or its operation ends. *)
Definition load_step (s : load) (e : happening) : option load :=
  match e with
  | Begin i =>
      if Nat.ltb i iterations && negb (memb i (started s)) && Nat.ltb (length (running s)) concurrency
      then Some {| started := i :: started s; running := i :: running s; finished := finished s |} else None
  | Finish i o q =>
      if memb i (running s)
      then Some {| started := started s; running := filterb (fun j => negb (Nat.eqb j i)) (running s); finished := (i, o, q) :: finished s |}
      else None
  end.
Fixpoint load_steps (s : load) (es : list happening) : option load :=
  match es with [] => Some s | e :: es => s' ← load_step s e; load_steps s' es end.

Record load_ok (s : load) : Prop := {
  at_most_concurrency : length (running s) <= concurrency;
  started_once : NoDup (started s);
  started_below : Forall (fun i => i < iterations) (started s);
  accounted : started s ≡ₚ running s ++ finished_ids (finished s)
}.

Lemma remove_one (i : nat) l : NoDup l -> i ∈ l -> l ≡ₚ i :: filterb (fun j => negb (Nat.eqb j i)) l.
Proof.
  induction 1 as [|j l Hj Hl IH]; [by intros ?%not_elem_of_nil|]. rewrite elem_of_cons. intros [->|Hi]; cbn.
  - rewrite Nat.eqb_refl. cbn. rewrite filterb_all; [done|]. intros k Hk. apply negb_true_iff, Nat.eqb_neq. by intros ->.
  - destruct (Nat.eqb_spec j i) as [->|_]; [done|]. cbn. rewrite Permutation_swap. constructor. by apply IH.
Qed.

Lemma load_ok_step s e s' : load_ok s -> load_step s e = Some s' -> load_ok s'.
Proof.
  intros [H1 H2 H3 H4]. destruct e as [i|i o q]; cbn [load_step].
  - destruct (Nat.ltb_spec i iterations) as [Hi|]; [|done]. destruct (memb i (started s)) eqn:Em; [done|].
    destruct (Nat.ltb_spec (length (running s)) concurrency) as [Hc|]; [|done]. intros [= <-]. split; cbn [started running finished length].
    + lia.
    + constructor; [|done]. by apply bool_decide_eq_false in Em.
    + by constructor.
    + rewrite H4. done.
  - destruct (memb i (running s)) eqn:Em; [|done]. intros [= <-]. apply bool_decide_eq_true in Em.
    assert (Hnd : NoDup (running s)) by (rewrite H4 in H2; by apply NoDup_app in H2 as (? & _)).
    pose proof (remove_one i _ Hnd Em) as Hp. split; cbn [started running finished finished_ids fmap list_fmap fst].
    + apply Permutation_length in Hp. cbn in Hp. lia.
    + done.
    + done.
    + rewrite H4, Hp at 1. cbn. by rewrite Permutation_middle.
Qed.

Lemma load_ok_steps es : forall s s', load_ok s -> load_steps s es = Some s' -> load_ok s'.
Proof.
  induction es as [|e es IH]; cbn; [by intros s s' H [= <-]|]. intros s s' Hs. destruct (load_step s e) as [s1|] eqn:E; [|done]. cbn.
  apply IH. by eapply load_ok_step.
Qed.

Definition errors (s : load) : nat := length (filterb (fun x => failed x.1.2) (finished s)).

Lemma load_ok_new : load_ok new_load.
Proof. split; cbn; [lia | apply NoDup_nil_2 | constructor | done]. Qed.

(** whatever the order in which operations get through and end, no more than
    [concurrency] of them run at once, and when all have ended each of the
    [iterations] has run exactly once, with one latency, and none is left running. *)
Theorem load_accounts_for_every_run es s :
  load_steps new_load es = Some s ->
  length (running s) <= concurrency /\ errors s <= length (finished s) <= iterations /\
  (length (finished s) = iterations -> running s = [] /\ finished_ids (finished s) ≡ₚ seq 0 iterations).
Proof.
  intros H. pose proof (load_ok_steps es _ _ load_ok_new H) as Hs.
  destruct Hs as [H1 H2 H3 H4].
  assert (Hsub : started s ⊆+ seq 0 iterations).
  { apply NoDup_submseteq; [done|]. intros i Hi. apply elem_of_seq. rewrite Forall_forall in H3. specialize (H3 i Hi). lia. }
  pose proof (submseteq_length _ _ Hsub) as Hle. rewrite length_seq in Hle.
  pose proof (Permutation_length H4) as Hl. rewrite length_app in Hl. unfold finished_ids in Hl. rewrite length_fmap in Hl.
  split_and!; [done| |lia|].
  - unfold errors. apply filter_length_le.
  - intros Hf. assert (Hr : running s = []) by (apply nil_length_inv; lia). split; [done|]. rewrite Hr in H4. cbn in H4. rewrite <-H4.
    apply submseteq_length_Permutation; [done|]. rewrite length_seq. lia.
Qed.

(** The semaphore never keeps everyone waiting. *)
Lemma load_goes_on es s :
  0 < concurrency -> load_steps new_load es = Some s -> length (finished s) < iterations -> exists e, is_Some (load_step s e).
Proof.
  intros Hc H Hlt. pose proof (load_ok_steps es _ _ load_ok_new H) as Hs.
  destruct (running s) as [|i l] eqn:Er.
  - destruct Hs as [_ H2 H3 H4]. rewrite Er in H4. cbn in H4.
    assert (Hex : exists i, i < iterations /\ i ∉ started s).
    { destruct (decide (Exists (fun i => i ∉ started s) (seq 0 iterations))) as [He|Hn].
      - apply Exists_exists in He as (i & Hi & Hn). apply elem_of_seq in Hi. exists i. split; [lia|done].
      - exfalso. assert (Hsub : seq 0 iterations ⊆+ started s).
        { apply NoDup_submseteq; [apply NoDup_seq|]. intros i Hi. destruct (decide (i ∈ started s)); [done|]. destruct Hn. apply Exists_exists. by exists i. }
        apply submseteq_length in Hsub. rewrite length_seq, (Permutation_length H4) in Hsub. unfold finished_ids in Hsub. rewrite length_fmap in Hsub. lia. }
    destruct Hex as (i & Hi & Hn). exists (Begin i). cbn [load_step]. rewrite Er. cbn [length]. rewrite (proj2 (Nat.ltb_lt _ _) Hi), (proj2 (Nat.ltb_lt _ _) Hc).
    unfold memb. by rewrite bool_decide_eq_false_2.
  - exists (Finish i Raised 0). cbn. rewrite Er. unfold memb. rewrite bool_decide_eq_true_2 by left. done.
Qed.
End load.

(** What is measured; [None] is the division by zero. *)
Record metrics : Type := {
  m_iterations : nat; m_concurrency : nat; m_errors : nat; error_rate : Q; wall_seconds : Q; throughput_rps : Q;
  p50_ms : Q; p95_ms : Q; max_ms : Q; peak_traced_memory_mb : Q
}.

Definition latencies (s : load) : list Q := rev ((fun x => x.2) <$> finished s).
Definition max_of (l : list Q) : Q := match l with [] => 0 | x :: l => foldl (fun m q => if (m <? q)%clock then q else m) x l end.

Definition measured (rank50 rank95 : nat -> Z) (iterations concurrency : nat) (s : load) (wall peak_bytes : Q) : option metrics :=
  let wall := if (wall <? 1 # 1000000000)%clock then 1 # 1000000000 else wall in
  if Nat.eqb iterations 0 then None
  else Some {| m_iterations := iterations; m_concurrency := concurrency; m_errors := errors s;
               error_rate := inject_Z (Z.of_nat (errors s)) / inject_Z (Z.of_nat iterations); wall_seconds := wall;
               throughput_rps := inject_Z (Z.of_nat iterations) / wall; p50_ms := percentile rank50 (latencies s);
               p95_ms := percentile rank95 (latencies s); max_ms := max_of (latencies s); peak_traced_memory_mb := peak_bytes / 1048576 |}.

(** ** Budgets *)

Record budget : Type := { max_error_rate : Q; max_p95_ms : Q; min_throughput_rps : Q; max_peak_traced_memory_mb : Q }.

Section budget.
Context (fixed3 : Q -> string).               (** [f"{x:.3f}"] *)

(** The metric, its name, its limit, and whether that is an upper one. *)
Definition checks (m : metrics) (b : budget) : list (string * Q * Q * bool) :=
  [("error_rate", error_rate m, max_error_rate b, true); ("p95_ms", p95_ms m, max_p95_ms b, true);
   ("throughput_rps", throughput_rps m, min_throughput_rps b, false);
   ("peak_traced_memory_mb", peak_traced_memory_mb m, max_peak_traced_memory_mb b, true)].
Definition violation (c : string * Q * Q * bool) : option string :=
  let '(name, actual, limit, upper) := c in
  if if upper : bool then (limit <? actual)%clock else (actual <? limit)%clock
  then Some (name ++ "=" ++ fixed3 actual ++ " must be " ++ (if upper then "<=" else ">=") ++ " " ++ fixed3 limit)
  else None.
(** [evaluate_budget] *)
Definition evaluate_budget (m : metrics) (b : budget) : list string := omap violation (checks m b).

(** A benchmark passes exactly when it is within all four limits. *)
Lemma budget_kept m b :
  evaluate_budget m b = [] <->
  (error_rate m <= max_error_rate b)%Q /\ (p95_ms m <= max_p95_ms b)%Q /\ (min_throughput_rps b <= throughput_rps m)%Q /\
  (peak_traced_memory_mb m <= max_peak_traced_memory_mb b)%Q.
Proof.
  assert (Hlt : forall x y : Q, (x <? y)%clock = false <-> (y <= x)%Q).
  { intros x y. unfold qltb. rewrite negb_false_iff. apply Qle_bool_iff. }
  rewrite <-!Hlt. unfold evaluate_budget, checks. cbn [omap list_omap violation].
  destruct (max_error_rate b <? _)%clock, (max_p95_ms b <? _)%clock, (_ <? min_throughput_rps b)%clock, (max_peak_traced_memory_mb b <? _)%clock;
    naive_solver.
Qed.

Record scenario : Type := { budget_iterations : Z; budget_concurrency : Z; limits : budget }.
Inductive bench_error : Type := KeyError (k : string) | ValueError (what : string) | Failed (what : string).
Record report : Type := { report_metrics : metrics; violations : list string; passed : bool }.

(** [run_scenario], given what a scenario measures. *)
Definition run_scenario (budgets : list (string * scenario)) (measure : string -> nat -> nat -> result string metrics)
    (name : string) (iterations concurrency : option Z) : result bench_error report :=
  match dget name budgets with
  | None => Err (KeyError name)
  | Some sc =>
      let i := default (budget_iterations sc) iterations in
      let c := default (budget_concurrency sc) concurrency in
      if (i <? 1)%Z then Err (ValueError "iterations must be greater than zero")
      else if (c <? 1)%Z then Err (ValueError "concurrency must be greater than zero")
      else if negb (memb name ["runtime_fake"; "http_fake"]) then Err (ValueError ("unknown benchmark scenario: " ++ name))
      else match measure name (Z.to_nat i) (Z.to_nat c) with
           | Err e => Err (Failed e)
           | Ok m => let vs := evaluate_budget m (limits sc) in
                     Ok {| report_metrics := m; violations := vs; passed := match vs with [] => true | _ => false end |}
           end
  end.
Definition exit_code (r : report) (no_enforce : bool) : Z := if passed r || no_enforce then 0 else 1.
End budget.

(** ** Rising concurrency *)

Definition strictly_rising (l : list Z) : bool := bool_decide (l = sort_by Z.leb (remove_dups l)).

Lemma rising_iff l : strictly_rising l = true <-> StronglySorted Z.lt l.
Proof.
  unfold strictly_rising. rewrite bool_decide_eq_true.
  assert (Hs : forall k, StronglySorted (fun x y => Z.leb x y = true) (sort_by Z.leb k)).
  { intros k. apply sort_by_sorted; intros; rewrite ?Z.leb_le in *; lia. }
  split.
  - intros Hl. assert (Hnd : NoDup l) by (rewrite Hl, sort_by_perm; apply NoDup_remove_dups). specialize (Hs (remove_dups l)). rewrite <-Hl in Hs.
    clear Hl. induction Hs as [|x l Hl IH Hx]; [constructor|]. apply NoDup_cons in Hnd as [Hn Hnd]. constructor; [by apply IH|].
    rewrite Forall_forall in *. intros y Hy. specialize (Hx y Hy). apply Z.leb_le in Hx.
    destruct (decide (x = y)) as [->|]; [done|lia].
  - intros Hl. assert (Hnd : NoDup l).
    { induction Hl as [|x l Hl IH Hx]; constructor; [|done]. rewrite Forall_forall in Hx. intros Hin. specialize (Hx x Hin). lia. }
    symmetry. rewrite <-(sort_by_id Z.leb l) at 2.
    + apply sort_by_unique; try (intros; rewrite ?Z.leb_le in *; lia). apply NoDup_Permutation; [apply NoDup_remove_dups|done|].
      intros x. apply elem_of_remove_dups.
    + clear Hnd. induction Hl as [|x l Hl IH Hx]; constructor; [done|]. eapply Forall_impl; [exact Hx|]. intros y Hy. apply Z.leb_le. cbn in Hy. lia.
Qed.

(** [parse_concurrency_levels] *)
Definition parse_concurrency_levels (raw : string) : result string (list Z) :=
  match mapM (fun v => Config.py_int (py_strip v)) (filterb (fun v => str_truthy (py_strip v)) (py_split ","%char raw)) with
  | None => Err "concurrency levels must be comma-separated integers"
  | Some levels =>
      if match levels with [] => true | _ => existsb (fun l => (l <? 1)%Z) levels end then Err "concurrency levels must be greater than zero"
      else if negb (strictly_rising levels) then Err "concurrency levels must be strictly increasing"
      else Ok levels
  end.

(** What a matrix is run with: levels that rise, from one on. *)
Definition levels_ok (l : list Z) : Prop := l <> [] /\ StronglySorted Z.lt l /\ Forall (fun z => (1 <= z)%Z) l.

Lemma existsb_small l : existsb (fun z => (z <? 1)%Z) l = false <-> Forall (fun z => (1 <= z)%Z) l.
Proof.
  induction l as [|x l IH]; [by split|]. cbn. rewrite orb_false_iff, Forall_cons, IH, Z.ltb_ge. done.
Qed.

Lemma parsed_levels_ok raw l : parse_concurrency_levels raw = Ok l -> levels_ok l.
Proof.
  unfold parse_concurrency_levels. destruct (mapM _ _) as [k|]; [|done].
  destruct k as [|x k]; [done|]. destruct (existsb _ _) eqn:Ee; [done|]. destruct (strictly_rising _) eqn:Er; [|done]. intros [= <-].
  split_and!; [done | by apply rising_iff | by apply existsb_small].
Qed.

Record stage : Type := { stage_concurrency : Z; stage_metrics : metrics }.
Record summary : Type := {
  total_iterations : nat; total_errors : nat; highest_error_rate : Q; highest_p95_ms : Q; peak_throughput_rps : Q; peak_concurrency : Z
}.

(** [max(stages, key=...)]: the first of the largest. *)
Fixpoint best (b : stage) (l : list stage) : stage :=
  match l with
  | [] => b
  | s :: l => best (if (throughput_rps (stage_metrics b) <? throughput_rps (stage_metrics s))%clock then s else b) l
  end.
Definition summarise (b : stage) (l : list stage) : summary :=
  let ms := stage_metrics <$> b :: l in
  {| total_iterations := sum_list (m_iterations <$> ms); total_errors := sum_list (m_errors <$> ms);
     highest_error_rate := max_of (error_rate <$> ms); highest_p95_ms := max_of (p95_ms <$> ms);
     peak_throughput_rps := throughput_rps (stage_metrics (best b l)); peak_concurrency := stage_concurrency (best b l) |}.

Section matrix.
Context {W E : Type} (runner : Z -> Z -> call W E metrics).

Fixpoint run_levels (per_level : Z) (levels : list Z) : call W E (list stage) :=
  match levels with
  | [] => mret []
  | c :: levels =>
      m ← runner per_level c;
      rest ← run_levels per_level levels;
      mret ({| stage_concurrency := c; stage_metrics := m |} :: rest)
  end.

(** [run_capacity_matrix]: the message of the refusal, or the run. *)
Definition run_capacity_matrix (per_level : Z) (levels : list Z) : result string (call W E (list stage * option summary)) :=
  if (per_level <? 1)%Z then Err "iterations_per_level must be greater than zero"
  else if match levels with [] => true | _ => negb (strictly_rising levels) || existsb (fun l => (l <? 1)%Z) levels end
  then Err "concurrency levels must be strictly increasing and positive"
  else Ok (stages ← run_levels per_level levels;
           mret (stages, match stages with [] => None | b :: l => Some (summarise b l) end)).

(** What can be parsed can be run, and nothing else can. *)
Lemma matrix_takes levels per_level : (1 <= per_level)%Z -> is_ok (run_capacity_matrix per_level levels) = true <-> levels_ok levels.
Proof.
  intros Hp. unfold run_capacity_matrix, levels_ok. rewrite (proj2 (Z.ltb_ge _ _) Hp), <-rising_iff, <-existsb_small.
  destruct levels as [|x l]; [naive_solver|]. destruct (strictly_rising _), (existsb _ _); naive_solver.
Qed.

Lemma run_levels_stages per_level levels w stages w' : run_levels per_level levels w = (Ok stages, w') -> stage_concurrency <$> stages = levels.
Proof.
  revert w stages w'. induction levels as [|c levels IH]; intros w stages w'; cbn [run_levels]; [by intros [= <- _]|].
  unfold mbind, call_bind. destruct (runner per_level c w) as [[m|e] w1]; [|done]. destruct (run_levels per_level levels w1) as [[rest|e] w2] eqn:E1; [|done].
  intros [= <- _]. cbn. f_equal. by eapply IH.
Qed.
End matrix.

Lemma best_spec b l :
  best b l ∈ b :: l /\ forall s, s ∈ b :: l -> (throughput_rps (stage_metrics s) <= throughput_rps (stage_metrics (best b l)))%Q.
Proof.
  revert b. induction l as [|x l IH]; intros b; cbn [best]; [split; [left|]; intros s ->%list_elem_of_singleton; apply Qle_refl|].
  unfold qltb. destruct (Qle_bool _ _) eqn:El; cbn [negb].
  - apply Qle_bool_iff in El. destruct (IH b) as [H1 H2]. split; [apply elem_of_cons in H1 as [->|H1]; [left|right; by right]|].
    intros s [->|[->|Hs]%elem_of_cons]%elem_of_cons; [apply H2; left| |apply H2; by right].
    eapply Qle_trans; [exact El|]. apply H2. left.
  - assert (Hx : (throughput_rps (stage_metrics b) <= throughput_rps (stage_metrics x))%Q).
    { apply Qlt_le_weak, Qnot_le_lt. intros H. apply Qle_bool_iff in H. congruence. }
    destruct (IH x) as [H1 H2]. split; [by right|]. intros s [->|Hs]%elem_of_cons; [|by apply H2].
    eapply Qle_trans; [exact Hx|]. apply H2. left.
Qed.

Lemma sum_zero l : sum_list l = 0 <-> Forall (fun n => n = 0) l.
Proof. induction l as [|x l IH]; cbn; [by split|]. rewrite Forall_cons, <-IH. lia. Qed.

(** a capacity report says what was run: its stages are the levels asked for, in
    their order, it passes exactly when no stage had an error, and the peak is the
    throughput of one of its stages that no other exceeds. *)
Theorem capacity_report_is_true {W E} (runner : Z -> Z -> call W E metrics) per_level levels go w stages sm w' :
  run_capacity_matrix runner per_level levels = Ok go -> go w = (Ok (stages, sm), w') ->
  stage_concurrency <$> stages = levels /\
  exists s, sm = Some s /\ (total_errors s = 0 <-> Forall (fun st => m_errors (stage_metrics st) = 0) stages) /\
    (exists st, st ∈ stages /\ stage_concurrency st = peak_concurrency s /\ throughput_rps (stage_metrics st) = peak_throughput_rps s) /\
    forall st, st ∈ stages -> (throughput_rps (stage_metrics st) <= peak_throughput_rps s)%Q.
Proof.
  unfold run_capacity_matrix. destruct (per_level <? 1)%Z; [done|]. destruct (match levels with [] => _ | _ => _ end) eqn:El; [done|]. intros [= <-].
  unfold mbind, call_bind. destruct (run_levels runner per_level levels w) as [[l|e] w1] eqn:Er; [|done]. intros [= <- <- _].
  pose proof (run_levels_stages _ _ _ _ _ _ Er) as Hl. split; [done|]. destruct l as [|b l]; [by rewrite <-Hl in El|].
  eexists. split; [done|]. destruct (best_spec b l) as [H1 H2]. split_and!; [|by exists (best b l)|exact H2].
  cbn [summarise total_errors]. rewrite sum_zero, <-list_fmap_compose, Forall_fmap. done.
Qed.

(** ** Deployed endpoints *)

Section external.
Context (urlsplit : string -> option url).

(** [validate_endpoint] *)
Definition validate_endpoint (endpoint : string) : result string unit :=
  match urlsplit endpoint with
  | None => Err "urlsplit"
  | Some u =>
      if negb (is_http (scheme u) && str_truthy (netloc u)) then Err "endpoint must be an absolute http(s) URL"
      else if opt_truthy (username u) || opt_truthy (password u) || str_truthy (fragment u) then Err "endpoint must not contain userinfo or a fragment"
      else if String.eqb (scheme u) "http" && negb (memb (opt_or (hostname u) "") ["localhost"; "127.0.0.1"; "::1"])
      then Err "remote endpoints must use HTTPS"
      else Ok tt
  end.

(** What the harness does to its client. *)
Inductive act : Type := Open | Load | Close | Connect | Discover | Disconnect.
#[export] Instance act_eq_dec : EqDecision act.
Proof. solve_decision. Defined.

(** [run_http_load], given what the load measures. *)
Definition run_http_load (endpoint : string) (iterations concurrency : Z) (given : bool) (work : result string metrics) : result string metrics * list act :=
  match validate_endpoint endpoint with
  | Err e => (Err e, [])
  | Ok _ =>
      if (iterations <? 1)%Z || (concurrency <? 1)%Z then (Err "iterations and concurrency must be greater than zero", [])
      else (work, (if given then [Load] else [Open; Load; Close])%list)
  end.

(** [run_mcp_load], given whether the server can be reached, what it advertises and
    what the load measures. *)
Definition run_mcp_load (endpoint tool : string) (iterations concurrency : Z) (timeout : Q) (connects : bool) (advertised : result string (list string))
    (work : result string metrics) : result string metrics * list act :=
  match validate_endpoint endpoint with
  | Err e => (Err e, [])
  | Ok _ =>
      if (iterations <? 1)%Z || (concurrency <? 1)%Z then (Err "iterations and concurrency must be greater than zero", [])
      else if negb (str_truthy tool) then (Err "tool must not be empty", [])
      else if (timeout <=? 0)%clock then (Err "timeout_seconds must be greater than zero", [])
      else if negb connects then (Err "connection failed", [Connect])
      else match advertised with
           | Err e => (Err e, [Connect; Discover; Disconnect])
           | Ok ts => if memb tool ts then (work, [Connect; Discover; Load; Disconnect])
                      else (Err ("tool '" ++ tool ++ "' was not advertised by the MCP server"), [Connect; Discover; Disconnect])
           end
  end.

(** A harness puts load only on an endpoint it may use and a tool that is there, and
    leaves no connection of its own open, whatever failed. *)
Lemma http_load_cleans_up endpoint i c given work :
  let acts := (run_http_load endpoint i c given work).2 in
  (Load ∈ acts -> validate_endpoint endpoint = Ok tt /\ (1 <= i)%Z /\ (1 <= c)%Z) /\ (Open ∈ acts -> last acts = Some Close).
Proof.
  cbn zeta. unfold run_http_load. destruct (validate_endpoint endpoint) as [[]|]; [|split; by intros ?%not_elem_of_nil].
  destruct (_ || _) eqn:E; [split; by intros ?%not_elem_of_nil|]. apply orb_false_iff in E as [E1%Z.ltb_ge E2%Z.ltb_ge].
  cbn [snd]. destruct given; split; try done. intros H%list_elem_of_singleton. done.
Qed.

Lemma mcp_load_cleans_up endpoint tool i c timeout connects advertised work :
  let acts := (run_mcp_load endpoint tool i c timeout connects advertised work).2 in
  (Load ∈ acts -> exists ts, advertised = Ok ts /\ tool ∈ ts) /\ (connects = true -> Connect ∈ acts -> last acts = Some Disconnect).
Proof.
  cbn zeta. unfold run_mcp_load. destruct (validate_endpoint endpoint) as [[]|]; [|split; [by intros ?%not_elem_of_nil|by intros _ ?%not_elem_of_nil]].
  destruct (_ || _); [split; [by intros ?%not_elem_of_nil|by intros _ ?%not_elem_of_nil]|].
  destruct (negb (str_truthy tool)); [split; [by intros ?%not_elem_of_nil|by intros _ ?%not_elem_of_nil]|].
  destruct (timeout <=? 0)%clock; [split; [by intros ?%not_elem_of_nil|by intros _ ?%not_elem_of_nil]|].
  destruct connects; cbn [negb]; [|split; [by intros H%list_elem_of_singleton|done]].
  destruct advertised as [ts|e].
  - destruct (memb tool ts) eqn:Em; cbn [snd].
    + apply bool_decide_eq_true in Em. split; [by exists ts|done].
    + split; [|done]. rewrite !elem_of_cons, elem_of_nil. naive_solver.
  - split; [|done]. cbn [snd]. rewrite !elem_of_cons, elem_of_nil. naive_solver.
Qed.
End external.

(** *** The command of the matrix *)

Record capacity_args : Type := {
  protocol : string; concurrency_levels : string; arguments : string; tool : option string; replicas : option Z; no_enforce : bool
}.

Section command.
Context (json_loads : string -> option json).

(** [_parse_arguments] *)
Definition parse_arguments (raw : string) : result string (list (string * json)) :=
  match json_loads raw with
  | None => Err "--arguments must be valid JSON"
  | Some (JObj d) => Ok d
  | Some _ => Err "--arguments must contain a JSON object"
  end.

Definition check_arguments (a : capacity_args) : result string (list Z * list (string * json)) :=
  levels ← parse_concurrency_levels (concurrency_levels a);
  args ← parse_arguments (arguments a);
  if String.eqb (protocol a) "mcp" && negb (opt_truthy (tool a)) then Err "--tool is required with --protocol mcp"
  else if from_option (fun n => (n <? 1)%Z) false (replicas a) then Err "replicas must be greater than zero"
  else Ok (levels, args).

(** [main], given what the matrix reports: the exit code. *)
Definition capacity_main (a : capacity_args) (measure : list Z -> list (string * json) -> result string summary) : Z :=
  match check_arguments a with
  | Err _ => 2
  | Ok (levels, args) =>
      match measure levels args with
      | Err _ => 2
      | Ok s => if Nat.eqb (total_errors s) 0 || no_enforce a then 0 else 1
      end
  end.

(** The command succeeds only on arguments that can be run and, unless told not to
    enforce it, without any error. *)
Lemma capacity_main_succeeds a measure :
  capacity_main a measure = 0%Z ->
  exists levels args s, levels_ok levels /\ measure levels args = Ok s /\ (total_errors s = 0 \/ no_enforce a = true).
Proof.
  unfold capacity_main, check_arguments. destruct (parse_concurrency_levels _) as [levels|] eqn:El; [|done]. cbn [mbind result_bind].
  destruct (parse_arguments _) as [args|]; [|done]. cbn [mbind result_bind]. destruct (_ && _); [done|]. destruct (from_option _ _ _); [done|].
  destruct (measure levels args) as [s|] eqn:Em; [|done]. intros H. exists levels, args, s. split_and!; [by eapply parsed_levels_ok|done|].
  destruct (Nat.eqb_spec (total_errors s) 0); [by left|]. cbn [orb] in H. destruct (no_enforce a); [by right|done].
Qed.
End command.

(** ** On concrete input *)

Definition stage_with (e : nat) (rps : Q) : metrics :=
  {| m_iterations := 50; m_concurrency := 1; m_errors := e; error_rate := inject_Z (Z.of_nat e) / 50; wall_seconds := 1; throughput_rps := rps;
     p50_ms := 1; p95_ms := 2; max_ms := 3; peak_traced_memory_mb := 4 |}.

(** The 95th percentile of twenty values, the rank without rounding. *)
Definition rank95 (n : nat) : Z := (95 * Z.of_nat n + 99) / 100.
Lemma percentile_divides_witness :
  percentile rank95 [5%Q; 1%Q; 4%Q; 2%Q; 3%Q] = 5%Q /\ percentile rank95 [5%Q; 1%Q; 4%Q; 2%Q; 3%Q] ∈ [5%Q; 1%Q; 4%Q; 2%Q; 3%Q].
Proof. split; [reflexivity|]. apply (percentile_divides rank95 [5%Q; 1%Q; 4%Q; 2%Q; 3%Q]). discriminate. Defined.

(** Three operations through a semaphore of two, one of which raises. *)
Definition demo_happenings : list happening :=
  [Begin 0; Begin 2; Finish 2 Raised 5; Begin 1; Finish 0 (Answered true) 7; Finish 1 (Answered true) 3].
Lemma load_accounts_for_every_run_witness :
  load_steps 3 2 new_load [Begin 0; Begin 1; Begin 2] = None /\
  exists s, load_steps 3 2 new_load demo_happenings = Some s /\ errors s = 1 /\ finished_ids (finished s) ≡ₚ [0; 1; 2].
Proof.
  split; [reflexivity|]. eexists. split; [reflexivity|]. split; [reflexivity|].
  exact (proj2 (proj2 (proj2 (load_accounts_for_every_run 3 2 demo_happenings _ eq_refl)) eq_refl)).
Defined.

Example levels_parsed : parse_concurrency_levels " 1, 2,,8 " = Ok [1; 2; 8]%Z.
Proof. vm_compute. reflexivity. Qed.
Example levels_refused :
  parse_concurrency_levels "1,4,2" = Err "concurrency levels must be strictly increasing" /\
  parse_concurrency_levels "0,1" = Err "concurrency levels must be greater than zero" /\
  parse_concurrency_levels "1;2" = Err "concurrency levels must be comma-separated integers".
Proof. vm_compute. auto. Qed.

Definition demo_runner (i c : Z) : call (list Z) string metrics :=
  fun w => (Ok (stage_with (if Z.eqb c 8 then 1 else 0) (if Z.eqb c 4 then 90 else 40)), (w ++ [c])%list).
Lemma capacity_report_is_true_witness :
  exists go stages sm, run_capacity_matrix demo_runner 50 [1; 4; 8]%Z = Ok go /\ go [] = (Ok (stages, Some sm), [1; 4; 8]%Z) /\
    peak_concurrency sm = 4%Z /\ total_errors sm <> 0 /\ ~ Forall (fun st => m_errors (stage_metrics st) = 0) stages.
Proof.
  eexists _, _, _. split; [reflexivity|]. split; [reflexivity|]. split; [reflexivity|]. split; [discriminate|]. intros Hf.
  destruct (capacity_report_is_true demo_runner 50 [1; 4; 8]%Z _ [] _ _ _ eq_refl eq_refl) as (_ & s & [= <-] & He & _).
  apply He in Hf. discriminate.
Defined.

End Benchmarks.
