(* ===== verification/Release.v ===== *)
(** * The release gate

    [tools/validate_release.py]: what a release must agree on, read from the package,
    the schema, the deployment and the changelog, and the compatibility check, which
    runs the loader ([Definitions]) on two documents and a rollback on the
    configuration store ([ConfigPlane]).  Reading files and YAML is a parameter; with it
    go the loaders of [definition/loader.py] for YAML text and files. *)

From Stdlib Require Import Ascii.
From S2P Require Import Prelude Json Definitions ConfigPlane.
Local Open Scope string_scope.

Module Release.

(** ** Loading from files *)

Section loader.
Context (urlparse : string -> option (string * string)) (read : list (string * json) -> option Definitions.MicroAgentDefinition).
(** [yaml.safe_load], and what there is at a path. *)
Context (safe_load : string -> option json).
Inductive path_content : Type := Missing | Directory | File (text : string).
Context (at_path : string -> path_content).

Inductive load_error : Type :=
  | NotFound (path : string) | IsDirectory (path : string) | InvalidYaml | NotMapping
  | Rejected (e : Definitions.definition_error).

(** [load_definition_from_yaml] *)
Definition load_definition_from_yaml (text : string) : result load_error Definitions.MicroAgentDefinition :=
  match safe_load text with
  | None => Err InvalidYaml
  | Some (JObj d) => match Definitions.load_definition_from_dict urlparse read d with Ok m => Ok m | Err e => Err (Rejected e) end
  | Some _ => Err NotMapping
  end.

(** [load_definition_from_file] *)
Definition load_definition_from_file (path : string) : result load_error Definitions.MicroAgentDefinition :=
  match at_path path with
  | Missing => Err (NotFound path)
  | Directory => Err (IsDirectory path)
  | File text => load_definition_from_yaml text
  end.

(** A file gives what the mapping in it gives. *)
Lemma file_gives_its_mapping path m :
  load_definition_from_file path = Ok m <->
  exists text d, at_path path = File text /\ safe_load text = Some (JObj d) /\ Definitions.load_definition_from_dict urlparse read d = Ok m.
Proof.
  unfold load_definition_from_file, load_definition_from_yaml. split.
  - destruct (at_path path) as [| |t]; try done. destruct (safe_load t) as [[| | | | | |d]|] eqn:Es; try done.
    destruct (Definitions.load_definition_from_dict urlparse read d) eqn:El; [|done]. intros [= <-]. by exists t, d.
  - intros (t & d & -> & -> & ->). done.
Qed.
End loader.

(** ** Text *)

(** [re.search(r"/schemas/([^/]+)/", text)]: the segment of the first match. *)
Fixpoint segment (s : string) : option (string * string) :=
  match s with
  | EmptyString => None
  | String c s' => if Ascii.eqb c "/"%char then Some (EmptyString, s') else '(a, b) ← segment s'; Some (String c a, b)
  end.
Definition schema_segment_here (s : string) : option string :=
  if String.prefix "/schemas/" s then
    match segment (String.substring 9 (String.length s - 9) s) with Some (String c a, _) => Some (String c a) | _ => None end
  else None.
Fixpoint schema_segment (s : string) : option string :=
  match schema_segment_here s with
  | Some v => Some v
  | None => match s with EmptyString => None | String _ s' => schema_segment s' end
  end.

(** What remains of a text that begins with another. *)
Fixpoint after (p s : string) : option string :=
  match p, s with
  | EmptyString, _ => Some s
  | String c p', String d s' => if Ascii.eqb c d then after p' s' else None
  | _, _ => None
  end.

(** [\s+]: what is left after each number of blanks it may take. *)
Fixpoint after_blanks (s : string) : list string :=
  match s with
  | String c s' => if is_space c then s' :: after_blanks s' else []
  | EmptyString => []
  end.

(** [\[?V\]?]], V the version. *)
Definition version_mark (version s : string) : bool :=
  let bare s := match after version s with Some r => String.prefix "]" r | None => false end in
  match after "[" s with Some r => bare r || bare s | None => bare s end.
Definition section_here (version s : string) : bool :=
  match after "##" s with Some r => existsb (version_mark version) (after_blanks r) | None => false end.

(** [changelog_mentions]: [^##\s+\[?V\]?]] at the beginning of a line. *)
Fixpoint section_below (version s : string) : bool :=
  match s with
  | EmptyString => false
  | String c s' => (if Ascii.eqb c (ascii_of_nat 10) then section_here version s' else false) || section_below version s'
  end.
Definition changelog_mentions (version text : string) : bool := section_here version text || section_below version text.

(** ** Compatibility *)

Section compatibility.
Context (load_definition validate_overlay : list (string * json) -> option string).
Context (sha256 : string -> string) (dumps : json -> string).

Inductive release_error : Type := AssertionError (what : string) | KeyError (k : string) | TypeError | StoreRaised (e : ConfigPlane.config_error).

Definition ensure (b : bool) (what : string) : result release_error unit := if b then Ok tt else Err (AssertionError what).

(** [changed["metadata"]["version"] = "1.1.0"] *)
Definition with_version (v : string) (p : list (string * json)) : result release_error (list (string * json)) :=
  match dget "metadata" p with
  | Some (JObj m) => Ok (dset "metadata" (JObj (dset "version" (JStr v) m)) p)
  | Some _ => Err TypeError
  | None => Err (KeyError "metadata")
  end.

(** [check_rollback] *)
Definition check_rollback (alpha : list (string * json)) (now : Q) : result release_error unit :=
  match ConfigPlane.store_definition load_definition validate_overlay sha256 dumps [] "compatibility" alpha now with
  | (Err e, _) => Err (StoreRaised e)
  | (Ok first, s) =>
      changed ← with_version "1.1.0" alpha;
      match ConfigPlane.store_definition load_definition validate_overlay sha256 dumps s "compatibility" changed now with
      | (Err e, _) => Err (StoreRaised e)
      | (Ok _, s) =>
          match ConfigPlane.rollback sha256 dumps s "compatibility" "definition" 1 now with
          | (Err e, _) => Err (StoreRaised e)
          | (Ok back, _) =>
              _ ← ensure (Z.eqb (ConfigPlane.version back) 3) "version";
              ensure (bool_decide (ConfigPlane.payload back = ConfigPlane.payload first)) "payload"
          end
      end
  end.

(** the rollback check of the release gate says something about the document
    only: on the configuration store it passes for every payload whose two versions
    the store accepts, since a rollback appends the old content as the next version. *)
Theorem rollback_check_passes alpha changed now :
  load_definition alpha = None -> with_version "1.1.0" alpha = Ok changed -> load_definition changed = None ->
  check_rollback alpha now = Ok tt.
Proof.
  intros Ha Hc Hl. unfold check_rollback, ConfigPlane.store_definition, ConfigPlane.store_validated, ConfigPlane.invalid.
  cbn [String.eqb Ascii.eqb Bool.eqb]. rewrite Ha. cbn [fmap option_fmap option_map]. cbn. rewrite Hc. cbn. rewrite Hl. cbn.
  rewrite !(decide_True _ _ eq_refl). cbn. unfold ConfigPlane.rollback, ConfigPlane.get, ConfigPlane.versions.
  cbn. rewrite !(decide_True _ _ eq_refl). cbn.
  change (Z.of_nat 0 + 1 =? 1)%Z with true. cbn. unfold ensure. change (Z.of_nat 2 + 1 =? 3)%Z with true. cbn.
  by rewrite bool_decide_eq_true_2.
Qed.

(** ** The gate *)

(** What is read from the repository: the version of the package, the [$id] of the
    schema, the image of the deployment, the changelog, the two fixtures and the API
    versions their definitions load with. *)
Record sources : Type := {
  package_version : string; schema_id : string; deployment_image : string; changelog : string;
  alpha_payload : list (string * json); beta_payload : list (string * json);
  alpha_loaded : result string string; beta_loaded : result string string
}.

Definition loads_as (r : result string string) (v : string) : result release_error unit :=
  match r with Ok w => ensure (String.eqb w v) "api_version" | Err e => Err (AssertionError e) end.
Definition declares (p : list (string * json)) (v : string) : result release_error unit :=
  match dget "apiVersion" p with Some j => ensure (bool_decide (j = JStr v)) "apiVersion" | None => Err (KeyError "apiVersion") end.

(** [validate_compatibility_and_rollback] *)
Definition validate_compatibility_and_rollback (t : sources) (now : Q) : result release_error unit :=
  _ ← loads_as (alpha_loaded t) "microagents.io/v1alpha1";
  _ ← loads_as (beta_loaded t) "microagents.io/v1beta1";
  _ ← declares (alpha_payload t) "microagents.io/v1alpha1";
  _ ← declares (beta_payload t) "microagents.io/v1beta1";
  check_rollback (alpha_payload t) now.

(** [schema_version] *)
Definition schema_version (t : sources) : result release_error string :=
  match schema_segment (schema_id t) with Some v => Ok v | None => Err (AssertionError ("schema $id has no version segment: " ++ schema_id t)) end.

(** [validate] *)
Definition validate (t : sources) (release : bool) (tag : option string) (now : Q) : result release_error unit :=
  _ ← validate_compatibility_and_rollback t now;
  v ← schema_version t;
  _ ← ensure (memb v ["v1alpha1"]) "schema version does not match the definition API";
  _ ← ensure (negb (str_contains ":latest" (deployment_image t))) "deployment must not reference the :latest tag";
  _ ← ensure (str_contains (package_version t) (deployment_image t)) "deployment image does not pin the package version";
  if release then
    _ ← ensure (match tag with Some _ => true | None => false end) "";
    _ ← ensure (bool_decide (tag = Some (package_version t))) "tag does not match package version";
    ensure (changelog_mentions (package_version t) (changelog t)) "CHANGELOG.md has no section for the version"
  else Ok tt.

(** The command: a release when a tag is given. *)
Definition main (t : sources) (argv : list string) (now : Q) : result release_error unit :=
  validate t (match argv with [] => false | _ => true end) (head argv) now.

Lemma ensure_ok b what u : ensure b what = Ok u -> b = true.
Proof. by destruct b. Qed.

(** a release that passes the gate agrees with itself: the tag is the version of
    the package, which the image of the deployment mentions and the changelog has a
    section for, no image is [:latest], the schema is of the definition API, and both
    fixtures load as the versions they declare. *)
Theorem released_versions_agree t tag now :
  main t [tag] now = Ok tt ->
  tag = package_version t /\ str_contains (package_version t) (deployment_image t) = true /\ str_contains ":latest" (deployment_image t) = false /\
  changelog_mentions (package_version t) (changelog t) = true /\ schema_segment (schema_id t) = Some "v1alpha1" /\
  alpha_loaded t = Ok "microagents.io/v1alpha1" /\ beta_loaded t = Ok "microagents.io/v1beta1" /\ check_rollback (alpha_payload t) now = Ok tt.
Proof.
  unfold main, validate, validate_compatibility_and_rollback, loads_as, schema_version. cbn [head].
  destruct (alpha_loaded t) as [a|]; [|done]. destruct (ensure (String.eqb a _) _) eqn:E1; [|done].
  destruct (beta_loaded t) as [b|]; [|done]. destruct (ensure (String.eqb b _) _) eqn:E2; [|done]. cbn [mbind result_bind].
  destruct (declares (alpha_payload t) _); [|done]. destruct (declares (beta_payload t) _); [|done]. cbn [mbind result_bind].
  destruct (check_rollback _ _) as [[]|] eqn:Er; [|done]. cbn [mbind result_bind]. destruct (schema_segment _) as [v|] eqn:Ev; [|done]. cbn [mbind result_bind].
  destruct (ensure (memb v _) _) eqn:E3; [|done]. destruct (ensure (negb _) _) eqn:E4; [|done]. destruct (ensure (str_contains _ _) _) eqn:E5; [|done].
  cbn [mbind result_bind ensure]. destruct (ensure (bool_decide _) _) eqn:E6; [|done]. intros E7.
  apply ensure_ok in E1, E2, E3, E4, E5, E6, E7. apply String.eqb_eq in E1 as ->, E2 as ->. apply bool_decide_eq_true in E3, E6.
  apply list_elem_of_singleton in E3 as ->. apply negb_true_iff in E4. injection E6 as ->. done.
Qed.
End compatibility.

(** ** On concrete input *)

Definition alpha : list (string * json) :=
  [("apiVersion", JStr "microagents.io/v1alpha1"); ("kind", JStr "MicroAgent");
   ("metadata", JObj [("name", JStr "compatibility-fixture"); ("version", JStr "1.0.0")]);
   ("spec", JObj [("behavior", JObj [("instructions", JStr "Respond with a concise acknowledgement.")])])].
Definition beta : list (string * json) := [("apiVersion", JStr "microagents.io/v1beta1"); ("kind", JStr "MicroAgent")].
Definition changelog_text : string :=
  "# Changelog" ++ String (ascii_of_nat 10) ("## [Unreleased]" ++ String (ascii_of_nat 10) "## [0.1.6] - 2026-09-24").
Definition at_release (image log : string) : sources :=
  {| package_version := "0.1.6"; schema_id := "https://microagents.io/schemas/v1alpha1/micro-agent.json"; deployment_image := image; changelog := log;
     alpha_payload := alpha; beta_payload := beta; alpha_loaded := Ok "microagents.io/v1alpha1"; beta_loaded := Ok "microagents.io/v1beta1" |}.
Definition gate (t : sources) (argv : list string) : result release_error unit :=
  main (fun _ => None) (fun _ => None) (fun s => s) (fun _ => "{}") t argv 0.

Lemma rollback_check_passes_witness : check_rollback (fun _ => None) (fun _ => None) (fun s => s) (fun _ => "{}") alpha 0 = Ok tt.
Proof. by eapply (rollback_check_passes (fun _ => None) (fun _ => None) (fun s => s) (fun _ => "{}") alpha). Defined.

Lemma released_versions_agree_witness :
  gate (at_release "ghcr.io/bassemzohdy/micro-agents:0.1.6" changelog_text) ["0.1.6"] = Ok tt /\ changelog_mentions "0.1.6" changelog_text = true.
Proof.
  assert (H : gate (at_release "ghcr.io/bassemzohdy/micro-agents:0.1.6" changelog_text) ["0.1.6"] = Ok tt) by (vm_compute; reflexivity).
  split; [exact H|].
  exact (proj1 (proj2 (proj2 (proj2 (released_versions_agree (fun _ => None) (fun _ => None) (fun s => s) (fun _ => "{}") _ _ _ H))))).
Defined.

(** The image need only contain the version somewhere. *)
Example other_image_passes : gate (at_release "ghcr.io/bassemzohdy/micro-agents:10.1.60" changelog_text) ["0.1.6"] = Ok tt.
Proof. vm_compute. reflexivity. Qed.

(** The brackets of a section are optional at its beginning only. *)
Example unbracketed_section_missed :
  changelog_mentions "0.1.6" "## 0.1.6 - 2026-09-24" = false /\ changelog_mentions "0.1.6" "## [0.1.6]" = true /\ changelog_mentions "0.1.6" "## 0.1.6]" = true.
Proof. vm_compute. auto. Qed.

End Release.
