(* ===== verification/Accounting.v ===== *)
(** * What surrounds an invocation

    Of [runtimes/google_adk/runtime.py]: the timeout, span and metrics around the run
    that [GoogleAdk] models, automatic storing into memory, and the tools a model is
    told about.  Of [runtimes/adk/runtime.py]: the circuit breakers of a runtime by
    agent, and the system prompt. *)

From Stdlib Require Import Ascii.
From S2P Require Import Prelude Json Identity Resilience Invocation Definitions Config Metrics Telemetry GoogleAdk.
Import Identity Resilience.
Import Config(pyfloat, Finite, Infinite, NaN).
Local Open Scope string_scope.

Module Accounting.

(** ** The timeout *)

(** [_shortest_timeout] *)
Definition shortest_timeout (values : list (option Q)) : option Q :=
  match omap id values with [] => None | x :: l => Some (foldl (fun m q => if (q <? m)%clock then q else m) x l) end.

Lemma shortest_le l : forall x, let m := foldl (fun m q => if (q <? m)%clock then q else m) x l in
  m ∈ x :: l /\ forall q, q ∈ x :: l -> (m <= q)%Q.
Proof.
  induction l as [|y l IH]; intros x; cbn [foldl]; cbn zeta; [split; [left|]; intros q ->%list_elem_of_singleton; apply Qle_refl|].
  destruct (y <? x)%clock eqn:E; clock_prop.
  - destruct (IH y) as [H1 H2]. split; [by right|]. intros q [->|Hq]%elem_of_cons; [|by apply H2].
    eapply Qle_trans; [|apply Qlt_le_weak; exact E]. apply H2. left.
  - destruct (IH x) as [H1 H2]. split; [apply elem_of_cons in H1 as [->|H1]; [left | right; by right]|].
    intros q [->|[->|Hq]%elem_of_cons]%elem_of_cons; [apply H2; left| |apply H2; by right]. eapply Qle_trans; [apply H2; left | exact E].
Qed.

(** The timeout is the smallest of those that are set, as the deadline of the other
    runtime is. *)
Lemma shortest_timeout_smallest values t :
  shortest_timeout values = Some t -> Some t ∈ values /\ forall q, Some q ∈ values -> (t <= q)%Q.
Proof.
  unfold shortest_timeout. destruct (omap id values) as [|x l] eqn:E; [done|]. intros [= <-].
  destruct (shortest_le l x) as [H1 H2]. cbn zeta in *. rewrite <-E in H1, H2.
  assert (Hin : forall q, q ∈ omap id values <-> Some q ∈ values).
  { intros q. rewrite list_elem_of_omap. split; [intros (y & Hy & E'); cbn in E'; by subst y | intros Hq; by exists (Some q)]. }
  split; [by apply Hin|]. intros q Hq. by apply H2, Hin.
Qed.

(** How the run ended, after how long; [Cancelled] is the cancellation of the caller. *)
Inductive ending : Type := Ended (r : result exn Invocation.AgentResponse) (after : Q) | Cancelled (after : Q).

(** [asyncio.wait_for(run(), timeout)]: a run that takes longer is cancelled. *)
Definition awaited (timeout : option Q) (e : ending) : ending :=
  match timeout, e with
  | Some t, (Ended _ d | Cancelled d) => if (t <? d)%clock then Ended (Err (raise TimeoutError "")) t else e
  | None, _ => e
  end.

(** ** Span and metrics *)

Section telemetry.
Context (py_str : json -> string) (st : Telemetry.Settings) (creates : string -> bool).
Context (fadd fmul fdiv : pyfloat -> pyfloat -> pyfloat) (float_of : Z -> pyfloat).

Definition event_count (r : Invocation.AgentResponse) : json := default (JInt 0) (dget "event_count" (Invocation.metadata r)).
Definition latency_ms (d : Q) : Q := round_to 100 (d * 1000).

(** The calls of [_invoke] once it has started its span, the [i]-th, at [now]; the
    span's trace and attributes come from the request. *)
Definition opening (now : Q) (uuid uuid' : string) (otel : option (option string)) (trace : string) (attributes : list (string * json))
    : Telemetry.telemetry_call :=
  Telemetry.Start otel None uuid uuid' now "agent.invoke" (Some trace) None attributes.
Definition closing (i : nat) (now : Q) (agent : string) (e : ending) : list Telemetry.telemetry_call :=
  let labels := [("agent", agent)] in
  match e with
  | Cancelled _ => []
  | Ended (Err x) d =>
      (* [except Exception]: a cancellation out of the run itself is let through *)
      if is_exception x
      then [Telemetry.Increment_ (now + d) "agent_invocation_errors_total" labels; Telemetry.OnSpan i (Telemetry.Finish (now + d))]
      else []
  | Ended (Ok r) d =>
      [Telemetry.OnSpan i (Telemetry.Attribute "latency_ms" (JFloat (latency_ms d))); Telemetry.OnSpan i (Telemetry.Attribute "event_count" (event_count r));
       Telemetry.OnSpan i (Telemetry.Finish (now + d)); Telemetry.Increment_ (now + d) "agent_invocations_total" labels;
       Telemetry.Record_ (now + d) "agent_invocation_latency_ms" (Finite (latency_ms d)) labels;
       Telemetry.Observe_ "agent_invocation_latency_histogram_ms" (Finite (latency_ms d)) labels]
  end.

Abbreviation step := (Telemetry.step py_str creates fadd fmul fdiv float_of st).

(** The telemetry after an invocation that got as far as its span. *)
Definition account (t : Telemetry.Telemetry) (now : Q) (uuid uuid' : string) (otel : option (option string)) (trace : string)
    (attributes : list (string * json)) (agent : string) (e : ending) : Telemetry.Telemetry :=
  foldl step t (opening now uuid uuid' otel trace attributes :: closing (length (Telemetry.spans t)) now agent e).

(** How often a counter was incremented. *)
Definition counted (name : string) (t : Telemetry.Telemetry) : nat := length (Metrics.get_metrics (Telemetry.collector t) (Some name)).

Lemma record_effect now name v l t :
  let t' := step t (Telemetry.Record_ now name v l) in
  Telemetry.spans t' = Telemetry.spans t /\ forall n, counted n t' = counted n t + if String.eqb name n then 1 else 0.
Proof.
  cbn zeta. cbn [Telemetry.step]. unfold Telemetry.record. destruct (Telemetry.bounded_labels st name l _) as [b lv].
  unfold Telemetry.emit. destruct (Telemetry.instrument _ _ _ _) as [found cache]. split; [done|]. intros n.
  unfold counted. cbn [Telemetry.collector Metrics.record Metrics.get_metrics Metrics.metrics]. rewrite List.filter_app, length_app. cbn. by destruct (String.eqb name n).
Qed.

Lemma increment_effect now name l t :
  let t' := step t (Telemetry.Increment_ now name l) in
  Telemetry.spans t' = Telemetry.spans t /\ forall n, counted n t' = counted n t + if String.eqb name n then 1 else 0.
Proof.
  cbn zeta. cbn [Telemetry.step]. unfold Telemetry.increment. destruct (Telemetry.bounded_labels st name l _) as [b lv].
  unfold Telemetry.emit. destruct (Telemetry.instrument _ _ _ _) as [found cache]. split; [done|]. intros n.
  unfold counted. cbn [Telemetry.collector Metrics.increment Metrics.record Metrics.get_metrics Metrics.metrics].
  rewrite List.filter_app, length_app. cbn. by destruct (String.eqb name n).
Qed.

Lemma observe_effect name v l t :
  let t' := step t (Telemetry.Observe_ name v l) in Telemetry.spans t' = Telemetry.spans t /\ forall n, counted n t' = counted n t.
Proof.
  cbn zeta. cbn [Telemetry.step]. unfold Telemetry.observe_histogram. destruct (Telemetry.bounded_labels st name l _) as [b lv].
  destruct (Metrics.observe_histogram fadd name v b _ _) as [[u|e] c] eqn:E; cbn [snd]; unfold Telemetry.emit;
    [destruct (Telemetry.instrument _ _ _ _) as [found cache]|]; (split; [done|]); intros n; unfold counted; cbn [Telemetry.collector];
    assert (Hm : Metrics.metrics c = Metrics.metrics (Telemetry.collector t))
      by (unfold Metrics.observe_histogram in E; destruct v; repeat case_match; try done; by injection E as <- <- || injection E as <-);
    unfold Metrics.get_metrics; by rewrite Hm.
Qed.

Lemma on_span_effect i f t :
  let t' := step t (Telemetry.OnSpan i f) in
  Telemetry.spans t' = alter (Telemetry.span_step py_str st f) i (Telemetry.spans t) /\ forall n, counted n t' = counted n t.
Proof. done. Qed.

Lemma alter_last {A} (f : A -> A) l x : alter f (length l) (l ++ [x])%list = (l ++ [f x])%list.
Proof. induction l as [|y l IH]; [done|]. cbn. f_equal. exact IH. Qed.

(** What an ending counts as; [Lost] is neither a response nor an [Exception]. *)
Inductive outcome : Type := Responded | Failed | Lost.
Definition outcome_of (e : ending) : outcome :=
  match e with Ended (Ok _) _ => Responded | Ended (Err x) _ => if is_exception x then Failed else Lost | Cancelled _ => Lost end.
Definition ended_after (e : ending) : Q := match e with Ended _ d | Cancelled d => d end.

(** C14: every invocation of the Google ADK runtime that begins a span and ends with a
    response or an exception is counted and its span ended: a response adds one to the
    invocations and nothing to the errors, an exception, a timeout too, one to the
    errors and nothing to the invocations, both at the moment the new span ends;
    nothing else is changed.  An invocation that is cancelled, from outside or by a
    cancellation that comes out of the run itself, is not counted and its span stays
    open. *)
Theorem invocation_accounted t now uuid uuid' otel trace attributes agent e :
  let t' := account t now uuid uuid' otel trace attributes agent e in
  (exists s, Telemetry.spans t' = (Telemetry.spans t ++ [s])%list /\ Telemetry.start_time s = now /\
     Telemetry.end_time s = match outcome_of e with Lost => None | _ => Some (now + ended_after e)%Q end) /\
  counted "agent_invocations_total" t' = counted "agent_invocations_total" t + (match outcome_of e with Responded => 1 | _ => 0 end) /\
  counted "agent_invocation_errors_total" t' = counted "agent_invocation_errors_total" t + (match outcome_of e with Failed => 1 | _ => 0 end).
Proof.
  cbn zeta. unfold account. cbn [foldl]. set (t0 := step t (opening _ _ _ _ _ _)).
  assert (H0 : exists s, Telemetry.spans t0 = (Telemetry.spans t ++ [s])%list /\ Telemetry.start_time s = now /\ Telemetry.end_time s = None).
  { eexists. split; [reflexivity|done]. }
  assert (Hc : forall n, counted n t0 = counted n t) by done. clearbody t0. destruct H0 as (s & Hs & Hst & Hse).
  destruct e as [[r|x] d|d]; cbn [closing outcome_of ended_after foldl]; [|destruct (is_exception x); cbn [foldl]|].
  - rewrite (proj1 (observe_effect _ _ _ _)), (proj1 (record_effect _ _ _ _ _)), (proj1 (increment_effect _ _ _ _)), !(proj1 (on_span_effect _ _ _)), Hs,
      !alter_last.
    split_and!; [eexists; split; [reflexivity|cbn [Telemetry.span_step]; unfold Telemetry.finish; cbn; by rewrite Hse]|..]; rewrite (proj2 (observe_effect _ _ _ _)), (proj2 (record_effect _ _ _ _ _)), (proj2 (increment_effect _ _ _ _)),
      !(proj2 (on_span_effect _ _ _)), Hc; cbn; lia.
  - rewrite (proj1 (on_span_effect _ _ _)), (proj1 (increment_effect _ _ _ _)), Hs, !alter_last.
    split_and!; [eexists; split; [reflexivity|cbn [Telemetry.span_step]; unfold Telemetry.finish; cbn; by rewrite Hse]|..]; rewrite (proj2 (on_span_effect _ _ _)), (proj2 (increment_effect _ _ _ _)), Hc; cbn; lia.
  - split_and!; [by exists s| by rewrite Hc, Nat.add_0_r..].
  - split_and!; [by exists s| by rewrite Hc, Nat.add_0_r..].
Qed.
End telemetry.

(** ** The identity of an invocation *)

(** [invoke] of both runtimes: the body runs with who asks bound. *)
Definition invoke {E A} (caller : option CallerIdentity) (user : option UserContext) (workload : option RuntimeIdentity)
    (body : context_var -> result E A * context_var) : context_var -> result E A * context_var :=
  invocation_identity (Some {| Identity.caller := caller; Identity.user := user; Identity.workload := workload |}) body.

(** The body sees this identity, and what was bound before is bound again after it,
    whether it raised or bound another itself. *)
Lemma invoke_restores {E A} caller user workload (body : context_var -> result E A * context_var) current :
  (invoke caller user workload body current).2 = current /\
  (invoke caller user workload body current).1 =
    (body (Some {| Identity.caller := caller; Identity.user := user; Identity.workload := workload |})).1.
Proof. unfold invoke, invocation_identity. cbn. by destruct (body _). Qed.

(** ** Automatic storing into memory *)

Section auto_store.
Context {SS : Type} `{GoogleAdk.SessionService SS}.

(** [_auto_store]: the exception it ends with; [add] is [add_session_to_memory]. *)
Definition auto_store (has_memory enabled : bool) (add : GoogleAdk.adk_session -> option exn) (s : SS) (sid : string) : option exn :=
  if negb has_memory || negb enabled then None
  else match (GoogleAdk.get_session sid s).1 with Err e => Some e | Ok None => None | Ok (Some x) => add x end.

(** A session that is there is stored exactly when memory is bound and storing is
    not turned off; otherwise memory is not asked. *)
Lemma auto_store_when has_memory enabled add s sid x :
  GoogleAdk.valid_id sid -> GoogleAdk.service_ok s -> GoogleAdk.holds s sid x ->
  auto_store has_memory enabled add s sid = if has_memory && enabled then add x else None.
Proof.
  intros Hv Hok Hh. unfold auto_store. destruct has_memory, enabled; try done. cbn. by destruct (GoogleAdk.holds_get s sid x Hv Hok Hh) as [s' ->].
Qed.
End auto_store.

(** ** The tools a model is told about *)

(** What is read of a tool of ADK: its declaration's JSON schema, the dump of its
    parameters where they can be dumped, its description. *)
Record adk_tool : Type := { parameters_json_schema : option json; dumped_parameters : option json; description : string }.

(** [_tools_from_adk] *)
Definition tools_from_adk (tools : list (string * adk_tool)) : list json :=
  (fun '(name, t) =>
     let parameters := match parameters_json_schema t with Some p => p | None => default (JObj []) (dumped_parameters t) end in
     JObj [("name", JStr name); ("description", JStr (description t)); ("input_schema", if py_truthy parameters then parameters else JObj [])]) <$> tools.

Lemma tools_from_adk_names tools :
  (fun j => match j with JObj d => dget "name" d | _ => None end) <$> tools_from_adk tools = (fun e => Some (JStr e.1)) <$> tools.
Proof. unfold tools_from_adk. rewrite <-list_fmap_compose. apply list_fmap_ext. by intros i [n t] _. Qed.

(** ** The circuit breakers of a runtime *)

Definition circuits : Type := list (string * CircuitBreaker).

(** [_circuit_for], given the definition's name and settings. *)
Definition circuit_for (failures : option Z) (cooldown : option Q) (name : string) (cs : circuits) : result exn (option CircuitBreaker) * circuits :=
  match failures, cooldown with
  | Some f, Some c =>
      match dget name cs with
      | Some b => (Ok (Some b), cs)
      | None => match new_breaker f c with Ok b => (Ok (Some b), dset name b cs) | Err e => (Err e, cs) end
      end
  | _, _ => (Ok None, cs)
  end.

(** An agent has one breaker: what a later invocation finds is the breaker of the
    first, with what was recorded in it since, and no other agent's is touched. *)
Lemma circuit_kept f c name cs b cs' :
  circuit_for (Some f) (Some c) name cs = (Ok (Some b), cs') ->
  dget name cs' = Some b /\ (forall n, n <> name -> dget n cs' = dget n cs) /\
  forall f' c', circuit_for (Some f') (Some c') name cs' = (Ok (Some b), cs').
Proof.
  unfold circuit_for. destruct (dget name cs) as [b0|] eqn:E.
  - intros [= <- <-]. split_and!; [done|done|]. intros. by rewrite E.
  - destruct (new_breaker f c) as [b0|]; [|done]. intros [= <- <-]. rewrite dget_dset_eq. split_and!; [done| |done].
    intros n Hn. by rewrite dget_dset_ne.
Qed.

(** Settings of a definition that come later are not looked at. *)
Example later_settings_ignored :
  let cs := (circuit_for (Some 5%Z) (Some 30%Q) "a" []).2 in
  match (circuit_for (Some 1%Z) (Some 1%Q) "a" cs).1 with Ok (Some b) => threshold b | _ => 0%Z end = 5%Z.
Proof. reflexivity. Qed.

(** ** The system prompt *)

Definition newline : string := String (ascii_of_nat 10) "".

Definition skill_line (s : Definitions.SkillDefinition) : string :=
  "- " ++ Definitions.skill_id s ++ " (" ++ Definitions.skill_name s ++ "): " ++ opt_or (Definitions.skill_description s) "" ++
  match Definitions.tags s with [] => "" | l => " [" ++ String.concat ", " l ++ "]" end.

(** [_system_prompt] *)
Definition system_prompt (instructions : string) (skills : list Definitions.SkillDefinition) : string :=
  String.concat (newline ++ newline)
    (instructions :: match skills with
                     | [] => []
                     | _ => ["Declared capabilities (skills) — what this agent can do for callers:" ++ newline ++
                             String.concat newline (skill_line <$> skills)]
                     end).

(** The instructions come first, whatever the skills say. *)
Lemma system_prompt_begins instructions skills : exists rest, system_prompt instructions skills = instructions ++ rest.
Proof.
  unfold system_prompt. destruct skills as [|s l]; cbn [String.concat]; [exists ""; by rewrite text_app_nil_r|]. by eexists.
Qed.

(** ** On concrete input *)

Definition demo_settings : Telemetry.Settings := Telemetry.demo_settings.
Definition demo_account (e : ending) : Telemetry.Telemetry :=
  account (fun _ => "") demo_settings (fun _ => true) Metrics.demo_add Telemetry.demo_mul Telemetry.demo_div Telemetry.demo_float_of
    Telemetry.new_telemetry 0 "u" "v" None "t" [] "agent" e.

(** A run of three seconds under a timeout of two is counted as an error at two. *)
Example timed_out :
  let t := demo_account (awaited (shortest_timeout [Some 5%Q; None; Some 2%Q]) (Ended (Err (raise RuntimeError "late")) 3)) in
  counted "agent_invocation_errors_total" t = 1 /\ (Telemetry.end_time <$> Telemetry.spans t) = [Some (0 + 2)%Q].
Proof. vm_compute. auto. Qed.

(** A cancelled invocation leaves its span open and is not counted, whether it was the
    caller that was cancelled or something the run waited for. *)
Example cancelled_is_not_counted e :
  e = Cancelled 1 \/ e = awaited (Some 2%Q) (Ended (Err (raise CancelledError "")) 1) ->
  let t := demo_account e in
  counted "agent_invocation_errors_total" t = 0 /\ counted "agent_invocations_total" t = 0 /\ (Telemetry.end_time <$> Telemetry.spans t) = [None].
Proof. intros [->| ->]; vm_compute; auto. Qed.

End Accounting.
